(* ===== verification/_CoqProject ===== *)
-Q . S2P
Prelude.v
Bitops.v
TicketLock.v
EnclaveMem.v
EnclaveHeap.v
MemSyscalls.v
MpmcQueue.v
SchedQueue.v
Lthread.v
LthreadProps.v
Futex.v
EnclaveSignal.v
SyscallTable.v
KernelLocks.v
KernelTimer.v
EnclaveTimer.v
EventChannel.v
HostQueue.v
HostQueueProps.v
VirtioMmio.v
JsonText.v
VirtioSetup.v
VicCrypto.v
Blockdev.v
Uuid.v
Verity.v
VerityProps.v
Luks1Header.v
Luks1.v
Luks1Props.v
JsonParser.v
JsonPrint.v
JsonNumbers.v
JsonStrings.v
JsonSafety.v
JsonScan.v
JsonMatch.v
JsonComplete.v
JsonFollow.v
Env.v
EnclaveConfig.v
Serialize.v
SerializeSort.v
SerializePrint.v
SerializeConfig.v
ConfigReader.v
ConfigRead.v
ConfigRoundTrip.v
ConfigFaults.v
Luks2Header.v
Luks2Json.v
Luks2Doc.v
Luks2Read.v
Luks2.v
Luks2Props.v
Luks2Keys.v
Luks2Format.v
Luks2Volumes.v
DeviceMapper.v
DeviceMapperProps.v
LuksOpen.v
Cryptsetup.v
Disks.v
DiskProps.v
HandleFaults.v
MountProps.v
MountFaults.v
WireGuard.v
WireGuardPeers.v
KernelStart.v
KernelStartProps.v
HostNet.v
HostNetProps.v
HostConfig.v
EnclaveStart.v
EnclaveStartProps.v
Launcher.v
LauncherProps.v
HostDevices.v
