(* ===== verification/Prelude.v ===== *)
(** * A verification of SGX-LKL

    SGX-LKL runs Linux programs inside an SGX enclave.  A launcher on the host
    reads the configuration and hands it to the enclave as JSON text; inside,
    the enclave has its own memory manager, user-level threads with futexes on
    top of a lock-free run queue, and the Linux kernel library (LKL), which
    talks to virtio devices that the host serves.  This library translates the
    C code that carries the program's own logic into Rocq definitions and
    proves what makes it correct.  Code paths below are relative to the
    directory src/ of the repository.

    ** Parts of the program and the files that model them

    Memory (the enclave heap):
    - Bitops: the bitmap primitives of include/enclave/bitops.h; a bitmap is a
      function from word index to 64-bit word.
    - TicketLock: include/enclave/ticketlock.h; each atomic access is one step
      of an interleaving of threads.
    - EnclaveMem: enclave/enclave_mem.c, all operations ([enclave_mman_init],
      [enclave_mmap], [enclave_munmap], [enclave_mremap]) on a record of the
      static variables, the bytes of the heap and the host calls.
    - EnclaveHeap: runs of those operations; the invariant of the heap.
    - MemSyscalls: lkl/syscall-overrides-mem.c; LKL's pread64 is a parameter.

    Threads:
    - MpmcQueue: enclave/mpmc_queue.c; each atomic access is one step.
    - SchedQueue: the interface [FifoQueue] that the scheduler relies on, and
      its implementation by the queue.
    - Lthread, LthreadProps: sched/lthread.c with include/enclave/lthread.h; the
      objects are a map from addresses, a freed object is no longer in it.
    - Futex: sched/futex.c on the operations of Lthread.

    JSON (libjson/json.c):
    - JsonText: characters, strings and numbers (double is SpecFloat binary64).
    - JsonParser: the recursive descent parser, which works in place on one
      shared text, with its callback and its allocator as parameters.
    - JsonPrint: the printer.
    - JsonNumbers, JsonStrings, JsonSafety, JsonScan, JsonMatch, JsonComplete:
      theorems about numbers, strings, memory safety and termination, the
      scanner, path patterns, and whole documents.
    - JsonFollow: the interface [EventReader] for a callback, against which the
      clients of the parser are verified.

    The configuration:
    - Env: shared/env.c and shared/string_list.c.
    - EnclaveConfig: the structures, which the build generates from a schema;
      what is relied on of that code is the class [GeneratedConfig], and
      [schema_config] is its instance for the schema of the repository.
    - Serialize: main-oe/serialize_enclave_config.c; SerializeSort,
      SerializePrint, SerializeConfig: its theorems.
    - ConfigReader: shared/sgxlkl_enclave_config.c; ConfigRead (it is an
      [EventReader]), ConfigRoundTrip, ConfigFaults: its theorems.

    The kernel and its host:
    - KernelLocks: the semaphores and mutexes of lkl/posix-host.c, every atomic
      access and futex call one step; KernelTimer: its timers.
    - EnclaveTimer: enclave/enclave_timer.c, against a host that writes any time.
    - EnclaveSignal: enclave/enclave_signal.c, the exception handler.
    - SyscallTable: lkl/syscall-overrides.c and unsupported-syscalls.h, the
      registration of system-call handlers and what a call then returns.
    - EventChannel: enclave/enclave_event_channel.c and
      host_interface/host_event_channel.c, both directions of the channel.
    - HostQueue, HostQueueProps: host_interface/virtio.c and the requests of
      host_interface/virtio_blkdev.c.
    - VirtioMmio: the registers of a device, lkl/virtio.c; VirtioSetup: the
      registration of disks, network devices and the console with the kernel
      (lkl/virtio.c, virtio_blkdev.c, virtio_netdev.c, virtio_console.c).

    Encrypted disks (vicsetup/libvicsetup):
    - VicCrypto: crypto.c and hash.c; the algorithms of mbedTLS are the class
      [Algorithms], of which [vic_afsplit] and [vic_afmerge] use the digests.
    - Blockdev: blockdev.c, on the contents of a file.
    - Uuid: uuid.c.
    - Verity: verity.c, the hash trees of dm-verity; VerityProps: the reference
      tree as a function of the data, and its theorems.
    - Luks1Header: the header on the disk (luks1.h) and its byte order.
    - Luks1: every operation of luks1.c; the block ciphers are the class
      [Ciphers], with the law that decryption inverts encryption.
    - Luks1Props: the abstract volume, a master key and a list of passwords, and
      the theorems that the operations implement it.
    - Luks2Header: the binary header of LUKS2 (luks2.h), its byte order and
      checksum; Luks2Json: the objects of the JSON area, the callback that reads
      them with the parser of libjson, and the writer (luks2.c); Luks2Doc: the
      document the writer writes; Luks2Read: the callback is an [EventReader],
      and reading the text of the document gives the objects back.
    - Luks2: volumes, key slots and the operations of luks2.c, in the monad [VM]
      of a device, results and faults; with integrity.c.  Argon2 is the class
      [Argon2], base 64 the class [Base64].
    - Luks2Props (reading and writing headers), Luks2Keys (key material and the
      abstract volume), Luks2Format, Luks2Volumes: its theorems.
    - DeviceMapper: dm.c and loop.c, the tables of mapped devices that are
      created, in the monad [HM] of a host; libdevmapper and loop devices are
      the classes [DeviceMapper] and [LoopDevices].  DeviceMapperProps.
    - LuksOpen: luks.c, which dispatches on the version of a header, and the
      opening of volumes.  Cryptsetup: libcryptsetup.c, a handle as a record
      whose pointers can dangle, in the monad [CM].  HandleFaults: what can
      happen to the header that a handle points to.

    Start, disks and network (lkl/setup.c, wireguard/, host_interface/):
    - Disks: creating, activating, mounting and unmounting disks, in the monad
      [DM], which records every call to the kernel with its answer; the answers
      are the class [LklKernel].  DiskProps, MountProps, MountFaults: its
      theorems.
    - KernelStart: [lkl_start_init] and [lkl_terminate] with everything they
      call besides the disks; KernelStartProps.
    - WireGuard: keys in base 64 (wireguard.c); WireGuardPeers: the list of
      peers with their addresses (wireguard_util.c), with its theorem.
    - HostNet: the network device and the console of the host
      (virtio_netdev.c, virtio_console.c) on the queues of HostQueue;
      HostNetProps: packets in merged buffers.

    The launcher and the start of the enclave (main-oe/, enclave/):
    - HostConfig: the configuration of the host (sgxlkl_host_config.c); its
      callback is an [EventReader].
    - Launcher: the settings of sgxlkl_run_oe.c, from the command line, the
      environment and files to both configurations, the disks of the host and
      the cores; LauncherProps: its theorems, composed with the enclave's part.
    - EnclaveStart: the shared memory that the enclave copies, the stack of the
      first process (enclave_oe.c), and how the enclave finds its disks, heap,
      clocks and run queue (enclave_init.c); EnclaveStartProps.
    - HostDevices: the devices and event channels that the host shares with the
      enclave when it starts (virtio_blkdev.c, virtio_netdev.c, virtio_console.c,
      sgxlkl_evt_chn_cfg.c and main of sgxlkl_run_oe.c), with their theorems.

    Prelude has the machine integers ([u64], [s32], ...), the type [outcome] of
    operations that can fail, with its monad, and shared lemmas and tactics.

    ** How code becomes definitions

    A C integer is a [Z] with every wrap-around written out.  A function that
    follows pointers, stops the program or waits returns an [outcome]:
    [Failed (BadPointer p)] is an access outside the object, [Failed Stopped] an
    assertion or a call of sgxlkl_fail, [Failed Spin] a wait for another
    thread, [Failed OutOfFuel] a loop that used up its fuel.  A theorem that
    says [Done] therefore excludes all of them.  Static variables and the
    memory that operations share are records passed along; concurrent code is a
    step relation on such records, with invariants by induction on runs.

    ** What the theorems show

    - Memory: mappings are disjoint, inside the heap and zeroed; the invariant
      of bitmaps, accounting and contents holds along every run in which the
      page of the fresh bitmap is not handed out and no request wraps around
      (what happens otherwise is stated too); unmapping and
      remapping do what they say; file mappings hold the file; the edges of the
      heap (top page, lowest index, wrap-around) behave as stated.
    - Lock and queue: the ticket lock is a first-come first-served lock with
      mutual exclusion and progress; the queue refines a bounded FIFO buffer, and
      its negative answers are justified.
    - Threads: join returns the exit value, creation, destructors, and the
      accesses to freed threads; a thread that waits on a futex stays on its list
      until it is put into the run queue, a wake takes the latest waiters
      first ([no_lost_wakeup]), and waits expire.
    - JSON: the parser never leaves its text and always returns; it accepts and
      reports every supported document; its scanner agrees with it; strings
      and numbers round-trip; path patterns are matched as documented.
    - Configuration: sorting and printing are correct, and what the host
      serializes is what the enclave reads ([config_round_trip]), for
      configurations without peers, with integers below 10^16, strings without
      backslash and within the limits of the reader; the excluded cases (peers,
      long numbers, nested arrays) are theorems of their own.
    - Kernel locks: mutual exclusion, recursion and no lost wake-up along every
      interleaving, spurious failures included; timers sleep for the delay set
      last; the enclave clock does not go back, whatever the host writes.
    - Host interface: no event for the enclave is lost (a wake-up of the host
      can be: [host_wakeup_lost]); the host serves every available request once
      and in order; register accesses stay inside the device structure and
      negotiate features as specified; every system call is dispatched to the
      handler meant for it.
    - Encrypted disks: splitting and merging a key are inverse as long as
      no offset of a stripe reaches 2^32 (where splitting wraps around,
      [split_wraps]) and there are less than 2^32 stripes (from where merging
      does not end, [merge_endless]); headers and
      UUIDs round-trip; formatting, adding, removing and changing passwords
      refine the abstract volume, and each password recovers the master key; the
      cases in which the code reports success for a change it has not made, or
      formats an unusable volume, are theorems too.
    - LUKS2: the headers that are written are read back with the same objects,
      through the JSON writer, parser and callback; a successful reading has
      verified both copies; formatting, adding and changing passwords refine
      the abstract volume, each password recovers the master key; removing one
      leaves its key material on the device, and an addition whose key material
      cannot be made fails after the headers were written ([luks2_add_refines])
      and can block the volume, as theorems.
    - Disks: a disk that was created with a key is activated with it, down to the
      table of the device mapper; when mounting returns, each of the first 26
      disks with a root hash is mapped by dm-verity with this hash (that of the root
      disk is the embedded one, unless that is all 0xff, its default) and nothing
      but the configured disks was mounted; they are unmounted in reverse.  That the fresh key of a
      disk never reaches the disk, that a handle can keep a freed header, and
      that a mount point that cannot be made counts as mounted are theorems too.
    - Start: reading the configuration of the host gives what its document
      describes, if the names of unknown members have less than 1000 bytes (longer
      ones overflow a buffer, [host_long_path_overflows]); a list of disks in the environment becomes the devices of the
      host and the mounts of the enclave, image by image ([hds_mounted]); the
      cores exist and fit their array; the first process finds its arguments,
      environment and auxiliary vector, unless the host sets an imported
      variable too often ([process_stack]); the run queue has room for the
      configured threads; one disk variable resets the whole root disk.  The
      devices of the host are what the model of their registers assumes, and
      notifications reach the thread of their device ([devices_started]), but with
      the 31 disks that are accepted the console is outside a table of the
      enclave ([console_outside_table]).
    - Network: a packet in merged buffers is what the driver finds; a text is a
      WireGuard key exactly if it encodes the key that is read; the list of peers
      has every element of the array, with those that were skipped.
    - Hash trees: formatting writes the reference tree and returns its root, the
      root binds the data up to collisions, and dumping and opening read back
      what was written.

    ** Fuel and bounds

    The parser takes fuel [2 * length + 3] on a text of that length, which
    JsonSafety proves to be enough for every text.  Sorting n members takes at
    most n * n + 1 rounds ([sort_fuel], proved in SerializeSort).  [next_pow2]
    takes 64 rounds.  The loops of the memory manager and of the bitmaps are
    bounded by the number of words; the scheduler loop takes one unit for each
    pass and its theorems state the passes they need.
    A chain of descriptors is followed for at most 19 steps, the bound of the
    code; the queue loop takes one round for each available request, the UUID
    reader one for each character.  A system call is followed through at most
    three handlers (log, override, kernel).  A hash tree has at most 32 levels,
    the size of the array in the code; [levels_sizes] shows that this is enough
    for every device.  [RESOLVE_FUEL] is 12, the attempts until the growing
    timeout of the resolver ends them (proved in [resolve_returns]); the settings
    of the kernel take at most as many rounds as their text has characters
    ([sysctl_returns]); the search for a free loop device has its fuel as a
    parameter.

    ** Not modelled

    - lkl/ext4_create.c, which calls the vendored library of ext4,
      lkl/lkl_util.c, and what lkl/posix-host.c has besides locks and timers:
      wrappers of threads, of the heap and of printing.
    - main of main-oe/sgxlkl_run_oe.c: help texts, signal handlers, threads, the
      search for libraries and the creation of the enclave by Open Enclave;
      thread-local storage and the entry points of enclave_oe.c and
      enclave_init.c; host_interface/timer_dev.c.
    - vicsetup: its command line (main.c), the printing of headers, and what
      dm-integrity does when a volume is formatted (a parameter of
      [luks2_format]).
    - wireguard/wireguard.c besides the keys: netlink messages and Curve25519,
      taken from the WireGuard tools.
    - Memory ordering weaker than sequential consistency, the assembly context
      switch, and functions that only release memory. *)

From Stdlib Require Export ZArith Lia Bool.
From stdpp Require Export base tactics numbers option relations list.

(** ** Scopes and global settings *)

Declare Scope cint_scope.
Delimit Scope cint_scope with cint.
Global Open Scope Z_scope.

(** ** Machine integers

    A C integer of width [w] is a [Z]; conversions to a type of width [w] are
    written out.  [u64], [u32], ... are the conversions to the unsigned types
    (wrap-around), [s32] and [s64] those to the signed types (two's complement,
    as GCC defines them). *)

Definition wrap (w z : Z) : Z := z mod 2 ^ w.
Definition swrap (w z : Z) : Z := (z + 2 ^ (w - 1)) mod 2 ^ w - 2 ^ (w - 1).

Definition u8 (z : Z) : Z := wrap 8 z.
Definition u16 (z : Z) : Z := wrap 16 z.
Definition u32 (z : Z) : Z := wrap 32 z.
Definition u64 (z : Z) : Z := wrap 64 z.
Definition s8 (z : Z) : Z := swrap 8 z.
Definition s32 (z : Z) : Z := swrap 32 z.
Definition s64 (z : Z) : Z := swrap 64 z.

Definition INT_MAX : Z := 2 ^ 31 - 1.
Definition UINT64_MAX : Z := 2 ^ 64 - 1.

(** The truth value of a C scalar, and the [int] a C comparison yields. *)
Definition truthy (z : Z) : bool := negb (z =? 0).
Definition int_of_bool (b : bool) : Z := if b then 1 else 0.

Arguments wrap : simpl never.
Arguments swrap : simpl never.
Arguments u8 : simpl never.
Arguments u16 : simpl never.
Arguments u32 : simpl never.
Arguments u64 : simpl never.
Arguments s8 : simpl never.
Arguments s32 : simpl never.
Arguments s64 : simpl never.

(** ** Error numbers (asm-generic/errno-base.h) *)

Definition ENOMEM : Z := 12.
Definition EBADF : Z := 9.
Definition EBUSY : Z := 16.
Definition EINVAL : Z := 22.
Definition EAGAIN : Z := 11.
Definition ETIMEDOUT : Z := 110.

(** ** Operations that can fail

    A C operation that follows pointers, asserts or spins is a computation of
    type [outcome]: [Failed] says why it has no result. *)

Inductive fault : Type :=
| BadPointer (p : Z)   (* an access outside the live objects *)
| Assertion            (* SGXLKL_ASSERT or assert *)
| Crash                (* __builtin_trap, a_crash *)
| Spin                 (* a spin loop that only another thread can end *)
| Stopped              (* sgxlkl_fail, sgxlkl_host_fail: a message, then exit *)
| OutOfFuel.           (* the bound of a loop of the model was too small *)

Inductive outcome (A : Type) : Type :=
| Done (a : A)
| Failed (f : fault).
Arguments Done {A} a.
Arguments Failed {A} f.

#[export] Instance outcome_ret : MRet outcome := fun A a => Done a.
#[export] Instance outcome_bind : MBind outcome := fun A B k m =>
  match m with Done a => k a | Failed f => Failed f end.

(** ** Hint databases of the development

    [word64] rewrites conversions that do nothing; [bits] pushes [Z.testbit]
    through the bit operations. *)

Create HintDb cint discriminated.
Create HintDb bits discriminated.

Section Wrap.
Implicit Types w z : Z.

Lemma wrap_small w z : 0 <= z < 2 ^ w -> wrap w z = z.
Proof. unfold wrap. apply Z.mod_small. Qed.

Lemma wrap_range w z : 0 <= w -> 0 <= wrap w z < 2 ^ w.
Proof. intros. apply Z.mod_pos_bound. lia. Qed.

Lemma wrap_wrap w z : wrap w (wrap w z) = wrap w z.
Proof. unfold wrap. apply Zmod_mod. Qed.

Lemma swrap_small w z : 0 < w -> - 2 ^ (w - 1) <= z < 2 ^ (w - 1) -> swrap w z = z.
Proof.
intros Hw Hz. unfold swrap.
assert (2 ^ w = 2 * 2 ^ (w - 1)) by (rewrite <- Z.pow_succ_r by lia; f_equal; lia).
rewrite Z.mod_small by lia. lia.
Qed.

Lemma swrap_range w z : 0 < w -> - 2 ^ (w - 1) <= swrap w z < 2 ^ (w - 1).
Proof.
intros Hw. unfold swrap.
assert (2 ^ w = 2 * 2 ^ (w - 1)) by (rewrite <- Z.pow_succ_r by lia; f_equal; lia).
pose proof (Z.mod_pos_bound (z + 2 ^ (w - 1)) (2 ^ w) ltac:(lia)). lia.
Qed.
End Wrap.

Lemma u64_small z : 0 <= z < 2 ^ 64 -> u64 z = z.
Proof. apply wrap_small. Qed.
Lemma u32_small z : 0 <= z < 2 ^ 32 -> u32 z = z.
Proof. apply wrap_small. Qed.
Lemma u16_small z : 0 <= z < 2 ^ 16 -> u16 z = z.
Proof. apply wrap_small. Qed.
Lemma u8_small z : 0 <= z < 2 ^ 8 -> u8 z = z.
Proof. apply wrap_small. Qed.
Lemma s32_small z : - 2 ^ 31 <= z < 2 ^ 31 -> s32 z = z.
Proof. intros. apply swrap_small; lia. Qed.
Lemma s64_small z : - 2 ^ 63 <= z < 2 ^ 63 -> s64 z = z.
Proof. intros. apply swrap_small; lia. Qed.

Lemma u64_range z : 0 <= u64 z < 2 ^ 64.
Proof. apply wrap_range. lia. Qed.

(** A negative errno returned as a pointer is a large unsigned address whose
    signed reading is negative again. *)
Lemma s64_u64_small_neg e : 0 < e < 2 ^ 63 -> s64 (u64 (- e)) = - e.
Proof.
  intros He. unfold u64, s64, wrap, swrap.
  replace (- e) with ((2 ^ 64 - e) + (-1) * 2 ^ 64) at 1 by lia.
  rewrite Z_mod_plus_full, (Z.mod_small (2 ^ 64 - e)) by lia.
  replace (2 ^ 64 - e + 2 ^ (64 - 1)) with ((2 ^ 63 - e) + 1 * 2 ^ 64) by lia.
  rewrite Z_mod_plus_full, Z.mod_small by lia. lia.
Qed.

(** Conversions compose with additions. *)
Lemma wrap_add_wrap w a b : wrap w (wrap w a + b) = wrap w (a + b).
Proof. unfold wrap. apply Zplus_mod_idemp_l. Qed.

Lemma wrap_inj_shift w a i j :
  0 <= i < 2 ^ w -> 0 <= j < 2 ^ w -> wrap w (a + i) = wrap w (a + j) -> i = j.
Proof.
  intros Hi Hj Heq. unfold wrap in Heq.
  assert ((i - j) mod 2 ^ w = 0) as Hm.
  { replace (i - j) with ((a + i) - (a + j)) by lia. rewrite Zminus_mod, Heq, Z.sub_diag.
    apply Zmod_0_l. }
  apply Z.mod_divide in Hm as [k Hk]; [|lia]. assert (k = 0) by nia. nia.
Qed.

Ltac powers :=
  change (2 ^ 64) with 18446744073709551616 in *;
  change (2 ^ 63) with 9223372036854775808 in *;
  change (2 ^ 32) with 4294967296 in *;
  change (2 ^ 31) with 2147483648 in *;
  change (2 ^ 16) with 65536 in *;
  change (2 ^ 8) with 256 in *.

(** Remove the conversions whose argument is provably in range, innermost
    conversions included. *)
Ltac cint_side := powers; lia.
Ltac cint :=
  repeat match goal with
  | |- context [u64 ?z] => rewrite (u64_small z) by cint_side
  | |- context [s32 ?z] => rewrite (s32_small z) by cint_side
  | |- context [u32 ?z] => rewrite (u32_small z) by cint_side
  | |- context [u16 ?z] => rewrite (u16_small z) by cint_side
  | |- context [s64 ?z] => rewrite (s64_small z) by cint_side
  end.

(** Case analysis on the boolean tests of the C code, reflected to [Prop]. *)
Ltac bcase :=
  repeat match goal with
  | H : context [Z.eqb ?a ?b] |- _ => destruct (Z.eqb_spec a b); [try subst|]
  | H : context [Z.ltb ?a ?b] |- _ => destruct (Z.ltb_spec a b)
  | H : context [Z.leb ?a ?b] |- _ => destruct (Z.leb_spec a b)
  | |- context [Z.eqb ?a ?b] => destruct (Z.eqb_spec a b); [try subst|]
  | |- context [Z.ltb ?a ?b] => destruct (Z.ltb_spec a b)
  | |- context [Z.leb ?a ?b] => destruct (Z.leb_spec a b)
  end.

(** ** Counting over an interval of integers *)

Fixpoint count_from (b : Z -> bool) (lo : Z) (n : nat) : Z :=
  match n with
  | O => 0
  | S n => (if b lo then 1 else 0) + count_from b (lo + 1) n
  end.

(** The number of indices in [lo, hi) that satisfy [b]. *)
Definition count (b : Z -> bool) (lo hi : Z) : Z := count_from b lo (Z.to_nat (hi - lo)).

Section Count.
Implicit Types (b : Z -> bool) (lo hi : Z).

Lemma count_empty b lo hi : hi <= lo -> count b lo hi = 0.
Proof. intros. unfold count. replace (Z.to_nat (hi - lo)) with O by lia. reflexivity. Qed.

Lemma count_step b lo hi :
lo < hi -> count b lo hi = (if b lo then 1 else 0) + count b (lo + 1) hi.
Proof.
intros. unfold count. replace (Z.to_nat (hi - lo)) with (S (Z.to_nat (hi - (lo + 1)))) by lia.
reflexivity.
Qed.

(** Induction on the length of an interval. *)
Lemma interval_ind (P : Z -> Z -> Prop) :
(forall lo hi, hi <= lo -> P lo hi) ->
(forall lo hi, lo < hi -> P (lo + 1) hi -> P lo hi) -> forall lo hi, P lo hi.
Proof.
intros Hbase Hstep lo hi. remember (Z.to_nat (hi - lo)) as k eqn:Hk.
revert lo Hk. induction k as [|k IH]; intros lo Hk.
- apply Hbase. lia.
- apply Hstep; [lia|]. apply IH. lia.
Qed.

Lemma count_ext b b' lo hi :
(forall i, lo <= i < hi -> b i = b' i) -> count b lo hi = count b' lo hi.
Proof.
revert lo hi. refine (interval_ind _ _ _).
- intros. rewrite !count_empty by lia. reflexivity.
- intros lo hi Hlt IH Heq. rewrite !(count_step _ lo) by lia.
  rewrite Heq, IH by (intros; try apply Heq; lia). reflexivity.
Qed.

Lemma count_split b lo mid hi :
lo <= mid <= hi -> count b lo hi = count b lo mid + count b mid hi.
Proof.
intros [Hl Hh]. revert Hl Hh. revert lo mid. refine (interval_ind _ _ _).
- intros lo mid Hge Hl Hh. replace mid with lo by lia. rewrite (count_empty _ lo lo) by lia. lia.
- intros lo mid Hlt IH Hl Hh. rewrite (count_step _ lo hi), (count_step _ lo mid) by lia.
  rewrite IH by lia. lia.
Qed.

Lemma count_const b v lo hi :
lo <= hi -> (forall i, lo <= i < hi -> b i = v) -> count b lo hi = if v then hi - lo else 0.
Proof.
revert lo hi. refine (interval_ind _ _ _).
- intros lo hi ? ? _. rewrite count_empty by lia. destruct v; lia.
- intros lo hi Hlt IH _ Hall. rewrite count_step, Hall, IH by (intros; try apply Hall; lia).
  destruct v; lia.
Qed.

Lemma count_range b lo hi : lo <= hi -> 0 <= count b lo hi <= hi - lo.
Proof.
revert lo hi. refine (interval_ind _ _ _).
- intros. rewrite count_empty by lia. lia.
- intros lo hi Hlt IH _. rewrite count_step by lia. destruct (b lo); lia.
Qed.

Lemma count_zero b lo hi i : count b lo hi = 0 -> lo <= i < hi -> b i = false.
Proof.
intros H0 Hi. rewrite (count_split b lo i hi), (count_step b i hi) in H0 by lia.
pose proof (count_range b lo i ltac:(lia)). pose proof (count_range b (i + 1) hi ltac:(lia)).
destruct (b i); [lia|reflexivity].
Qed.

Lemma count_full b lo hi i : count b lo hi = hi - lo -> lo <= i < hi -> b i = true.
Proof.
intros H0 Hi. rewrite (count_split b lo i hi), (count_step b i hi) in H0 by lia.
pose proof (count_range b lo i ltac:(lia)). pose proof (count_range b (i + 1) hi ltac:(lia)).
destruct (b i); [reflexivity|lia].
Qed.
End Count.

Lemma count_negb b lo hi : lo <= hi -> count (fun i => negb (b i)) lo hi = hi - lo - count b lo hi.
Proof.
  revert lo hi. refine (interval_ind _ _ _).
  - intros. rewrite !count_empty by lia. lia.
  - intros lo hi Hlt IH _. rewrite !(count_step _ lo) by lia. destruct (b lo); cbn [negb]; lia.
Qed.

(** ** Bits *)

(** Bits above others. *)
Lemma lor_above a b k : 0 <= k -> 0 <= b < 2 ^ k -> Z.lor (a * 2 ^ k) b = a * 2 ^ k + b.
Proof.
  intros Hk Hb. assert (Z.land (a * 2 ^ k) b = 0) as Hz.
  { rewrite <- Z.shiftl_mul_pow2 by lia. apply Z.bits_inj'. intros i Hi.
    rewrite Z.land_spec, Z.bits_0, Z.shiftl_spec by lia.
    destruct (Z.ltb_spec i k); [by rewrite Z.testbit_neg_r by lia|].
    rewrite <- (Z.mod_small b (2 ^ k)) by lia. rewrite Z.mod_pow2_bits_high by lia. apply andb_false_r. }
  rewrite (Z.add_nocarry_lxor _ _ Hz). symmetry. apply Z.lxor_lor, Hz.
Qed.

(** ** Lists *)

(** An invariant of the steps is one of the runs. *)
Lemma rtc_preserves {A} (R : A -> A -> Prop) (P : A -> Prop) x y :
  (forall x y, R x y -> P x -> P y) -> rtc R x y -> P x -> P y.
Proof. intros Hstep Hr. induction Hr; eauto. Qed.

Lemma forallb_Forall {A} (f : A -> bool) (l : list A) :
  forallb f l = true <-> Forall (fun x => f x = true) l.
Proof. by rewrite forallb_forall, List.Forall_forall. Qed.
