(* ===== verification/Bitops.v ===== *)
(** * Bitmaps of 64-bit words (src/include/enclave/bitops.h)

    The bitmap primitives used by the enclave page allocator: masks,
    find-first-set, forward searches for a set or a clear bit, and setting or
    clearing a run of bits.  A bitmap is the memory it lies in, a total function
    from word index to 64-bit word, so that a write outside the bitmap would be
    visible.  The theorems describe every operation by its effect on the
    individual bits ([bit_at]). *)

From S2P Require Import Prelude.

(** ** Words and bitmaps *)

Definition words : Type := Z -> Z.

Definition upd (m : words) (i w : Z) : words := fun j => if j =? i then w else m j.

(** Every word of the memory is an [unsigned long]. *)
Definition wf_words (m : words) : Prop := forall j, 0 <= m j < 2 ^ 64.

(** Bit [i] of the bitmap. *)
Definition bit_at (m : words) (i : Z) : bool := Z.testbit (m (i / 64)) (i mod 64).

(** ** The macros *)

Definition BITS_PER_LONG : Z := 64.
Definition BITS_PER_BYTE : Z := 8.

Definition ones64 : Z := 2 ^ 64 - 1.

(** [~w] on [unsigned long]. *)
Definition not64 (w : Z) : Z := u64 (Z.lnot w).

(** [BIT_WORD] and the remainder are on [int] arguments: C division. *)
Definition BIT_WORD (nr : Z) : Z := Z.quot nr BITS_PER_LONG.

(** [~0UL << (start % BITS_PER_LONG)] *)
Definition BITMAP_FIRST_WORD_MASK (start : Z) : Z :=
  u64 (Z.shiftl ones64 (Z.rem start BITS_PER_LONG)).

(** [~0UL >> (BITS_PER_LONG - n)]; the x86-64 shift instruction uses the low six
    bits of the count, which is what makes the macro meaningful when [n] is not
    below 64. *)
Definition BITMAP_LAST_WORD_MASK (n : Z) : Z :=
  Z.shiftr ones64 ((BITS_PER_LONG - n) mod 64).

(** ** Find first set *)

Fixpoint ctz (p : positive) : Z :=
  match p with
  | xO q => 1 + ctz q
  | _ => 0
  end.

(** [__builtin_ffsl]: one plus the index of the least significant 1-bit, or 0. *)
Definition ffsl (w : Z) : Z :=
  match w with
  | Zpos p => 1 + ctz p
  | _ => 0
  end.

Definition __ffsl (w : Z) : Z := ffsl w - 1.

(** ** Forward search

    [find_next_bit] and [find_next_zero_bit] are the same code on [*addr] and on
    [~( *addr)]; [flip] is the word transformer. *)

Section FindNext.
Variable flip : Z -> Z.

(** The [for] loop and the tail after it, entered with [size] the bits left. *)
Fixpoint find_words (fuel : nat) (addr : words) (pos size bit : Z) : Z :=
match fuel with
| O => u64 bit
| S fuel =>
    if BITS_PER_LONG <=? size then
      if flip (addr pos) =? 0 then
        find_words fuel addr (pos + 1) (size - BITS_PER_LONG) (s32 (bit + BITS_PER_LONG))
      else u64 (s32 (bit + __ffsl (flip (addr pos))))
    else if truthy size then
      let mask := Z.land (flip (addr pos)) (BITMAP_LAST_WORD_MASK size) in
      if truthy mask then u64 (s32 (bit + __ffsl mask)) else u64 (s32 (bit + size))
    else u64 bit
end.

Definition find_next (addr : words) (size offset : Z) : Z :=
if size <=? offset then size
else
  let pos := s32 (offset / BITS_PER_LONG) in
  let offs := s32 (offset mod BITS_PER_LONG) in
  let bit := s32 (BITS_PER_LONG * pos) in
  let fuel := S (Z.to_nat (size / BITS_PER_LONG)) in
  if truthy offs then
    let mask := Z.land (flip (addr pos)) (not64 (BITMAP_LAST_WORD_MASK offs)) in
    if truthy mask then u64 (s32 (bit + __ffsl mask))
    else if u64 (size - bit) <=? BITS_PER_LONG then size
    else
      let bit := s32 (bit + BITS_PER_LONG) in
      find_words fuel addr (pos + 1) (u64 (size - bit)) bit
  else find_words fuel addr pos (u64 (size - bit)) bit.
End FindNext.

Definition find_next_bit (addr : words) (size offset : Z) : Z :=
  find_next (fun w => w) addr size offset.

Definition find_next_zero_bit (addr : words) (size offset : Z) : Z :=
  find_next not64 addr size offset.

(** ** Setting and clearing a run of bits

    [bitmap_set] and [bitmap_clear] are the same code with [*p |= mask] and
    [*p &= ~mask]; [op] is the read-modify-write of one word. *)

Section Apply.
Variable op : Z -> Z -> Z.

Fixpoint apply_words (fuel : nat) (map : words) (p nr bits mask size : Z) : words :=
match fuel with
| O => map
| S fuel =>
    if 0 <=? nr - bits then
      apply_words fuel (upd map p (op (map p) mask)) (p + 1) (nr - bits)
        BITS_PER_LONG ones64 size
    else if truthy nr then
      upd map p (op (map p) (Z.land mask (BITMAP_LAST_WORD_MASK size)))
    else map
end.

Definition bitmap_apply (map : words) (start nr : Z) : words :=
let start := s32 start in
let nr := s32 nr in
apply_words (S (S (Z.to_nat (nr / BITS_PER_LONG)))) map (BIT_WORD start) nr
  (BITS_PER_LONG - Z.rem start BITS_PER_LONG) (BITMAP_FIRST_WORD_MASK start) (start + nr).
End Apply.

Definition bitmap_set (map : words) (start nr : Z) : words := bitmap_apply Z.lor map start nr.

Definition bitmap_clear (map : words) (start nr : Z) : words :=
  bitmap_apply (fun w mask => Z.land w (not64 mask)) map start nr.

Arguments bitmap_set : simpl never.
Arguments bitmap_clear : simpl never.
Arguments find_next_bit : simpl never.
Arguments find_next_zero_bit : simpl never.

(** ** Bits of words and masks *)

Lemma bit_at_upd m p w i :
  bit_at (upd m p w) i = if i / 64 =? p then Z.testbit w (i mod 64) else bit_at m i.
Proof. unfold bit_at, upd. destruct (i / 64 =? p); reflexivity. Qed.

Lemma testbit_ones64 i : 0 <= i -> Z.testbit ones64 i = (i <? 64).
Proof.
  intros Hi. change ones64 with (Z.ones 64). rewrite Z.testbit_ones by lia.
  destruct (Z.leb_spec 0 i); [reflexivity | lia].
Qed.

Lemma testbit_u64 z i : 0 <= i < 64 -> Z.testbit (u64 z) i = Z.testbit z i.
Proof. intros. unfold u64, wrap. apply Z.mod_pow2_bits_low. lia. Qed.

Lemma testbit_not64 w i : 0 <= i < 64 -> Z.testbit (not64 w) i = negb (Z.testbit w i).
Proof. intros. unfold not64. rewrite testbit_u64, Z.lnot_spec by lia. reflexivity. Qed.

Lemma testbit_first_mask start i :
  0 <= start -> 0 <= i < 64 ->
  Z.testbit (BITMAP_FIRST_WORD_MASK start) i = (start mod 64 <=? i).
Proof.
  intros Hs Hi. unfold BITMAP_FIRST_WORD_MASK, BITS_PER_LONG.
  rewrite Z.rem_mod_nonneg by lia. rewrite testbit_u64 by lia.
  pose proof (Z.mod_pos_bound start 64 ltac:(lia)).
  rewrite Z.shiftl_spec by lia. destruct (Z.leb_spec (start mod 64) i).
  - rewrite testbit_ones64 by lia. apply Z.ltb_lt. lia.
  - apply Z.testbit_neg_r. lia.
Qed.

(** With the hardware's reduction of the shift count the mask keeps the bits
    below [n mod 64], and all of them when [n] is a multiple of 64. *)
Lemma testbit_last_mask n i :
  n mod 64 <> 0 -> 0 <= i < 64 ->
  Z.testbit (BITMAP_LAST_WORD_MASK n) i = (i <? n mod 64).
Proof.
  intros Hn Hi. unfold BITMAP_LAST_WORD_MASK, BITS_PER_LONG.
  pose proof (Z.mod_pos_bound n 64 ltac:(lia)).
  assert ((64 - n) mod 64 = 64 - n mod 64) as ->.
  { rewrite <- Zminus_mod_idemp_r. apply Z.mod_small. lia. }
  rewrite Z.shiftr_spec, testbit_ones64 by lia.
  destruct (Z.ltb_spec i (n mod 64)); [apply Z.ltb_lt | apply Z.ltb_ge]; lia.
Qed.

Lemma testbit_above w i : 0 <= w < 2 ^ 64 -> 64 <= i -> Z.testbit w i = false.
Proof.
  intros Hw Hi. rewrite <- (Z.mod_small w (2 ^ 64)) by lia.
  apply Z.mod_pow2_bits_high. lia.
Qed.

Lemma land_range a b : 0 <= a < 2 ^ 64 -> 0 <= b -> 0 <= Z.land a b < 2 ^ 64.
Proof.
  intros Ha Hb. split; [apply Z.land_nonneg; lia|].
  assert (Z.land a b = Z.land a b mod 2 ^ 64) as ->.
  { apply Z.bits_inj'. intros i Hi. destruct (Z.ltb_spec i 64).
    - rewrite Z.mod_pow2_bits_low by lia. reflexivity.
    - rewrite Z.mod_pow2_bits_high, Z.land_spec, testbit_above by lia. reflexivity. }
  apply Z.mod_pos_bound. lia.
Qed.

Lemma not64_range w : 0 <= not64 w < 2 ^ 64.
Proof. apply u64_range. Qed.

Lemma last_mask_nonneg n : 0 <= BITMAP_LAST_WORD_MASK n.
Proof. apply Z.shiftr_nonneg. unfold ones64. lia. Qed.

(** ** Find first set *)

Lemma ctz_nonneg p : 0 <= ctz p.
Proof. induction p; simpl; lia. Qed.

Lemma ctz_hit p : Z.testbit (Zpos p) (ctz p) = true.
Proof.
  induction p as [p IH|p IH|]; [reflexivity| |reflexivity].
  change (Zpos p~0) with (2 * Zpos p). simpl ctz. pose proof (ctz_nonneg p).
  rewrite Z.add_1_l, Z.double_bits_succ. exact IH.
Qed.

Lemma ctz_first p i : 0 <= i < ctz p -> Z.testbit (Zpos p) i = false.
Proof.
  revert i. induction p as [p IH|p IH|]; simpl ctz; intros i Hi; try lia.
  change (Zpos p~0) with (2 * Zpos p).
  destruct (Z.eq_dec i 0) as [->|]; [apply Z.testbit_even_0|].
  replace i with (Z.succ (i - 1)) by lia. rewrite Z.double_bits_succ. apply IH. lia.
Qed.

Lemma ffsl_spec w :
  0 <= w < 2 ^ 64 -> w <> 0 ->
  0 <= __ffsl w < 64 /\ Z.testbit w (__ffsl w) = true /\
  (forall i, 0 <= i < __ffsl w -> Z.testbit w i = false).
Proof.
  intros Hw Hnz. destruct w as [|p|p]; try lia.
  unfold __ffsl, ffsl. replace (1 + ctz p - 1) with (ctz p) by lia.
  pose proof (ctz_hit p) as Hhit. pose proof (ctz_nonneg p).
  repeat split; auto using ctz_first.
  destruct (Z.lt_ge_cases (ctz p) 64); [assumption|].
  rewrite testbit_above in Hhit by lia. discriminate.
Qed.

Lemma word_zero_bits w i : w = 0 -> Z.testbit w i = false.
Proof. intros ->. apply Z.testbit_0_l. Qed.

(** ** Word coordinates of a bit index *)

Lemma word_of p o : 0 <= o < 64 -> (64 * p + o) / 64 = p.
Proof. intros. rewrite Z.mul_comm, Z.div_add_l, Z.div_small by lia. lia. Qed.

Lemma offset_of p o : 0 <= o < 64 -> (64 * p + o) mod 64 = o.
Proof. intros. rewrite Z.add_comm, Z.mul_comm, Z_mod_plus_full. apply Z.mod_small. lia. Qed.

Lemma bit_coords i : exists p o, i = 64 * p + o /\ 0 <= o < 64 /\ i / 64 = p /\ i mod 64 = o.
Proof.
  exists (i / 64), (i mod 64).
  pose proof (Z.mod_pos_bound i 64 ltac:(lia)). pose proof (Z_div_mod_eq_full i 64). lia.
Qed.

(** Replace [i / 64] and [i mod 64] by coordinates with linear equations. *)
Ltac coords i p o :=
  let Hi := fresh "Hi" in let Hdiv := fresh "Hdiv" in let Hmod := fresh "Hmod" in
  destruct (bit_coords i) as (p & o & Hi & ? & Hdiv & Hmod);
  rewrite ?Hdiv, ?Hmod in *.

(** ** Correctness of the forward search *)

(** [r] is where a search of [hit] from [lo] stops: nothing below [r] and below
    [size] hits, and [r] itself hits unless the search ran out of bits. *)
Record first_hit (hit : Z -> bool) (lo size r : Z) : Prop := {
  fh_lower : lo <= r;
  fh_upper : r < size + 64;
  fh_skip : forall j, lo <= j < r -> j < size -> hit j = false;
  fh_hit : r < size -> hit r = true
}.

Section FindNextSpec.
Variable flip : Z -> Z.
Hypothesis flip_range : forall w, 0 <= w < 2 ^ 64 -> 0 <= flip w < 2 ^ 64.
Variable addr : words.
Hypothesis addr_wf : wf_words addr.

Definition hit (i : Z) : bool := Z.testbit (flip (addr (i / 64))) (i mod 64).

Lemma hit_word p o : 0 <= o < 64 -> hit (64 * p + o) = Z.testbit (flip (addr p)) o.
Proof. intros. unfold hit. rewrite word_of, offset_of by lia. reflexivity. Qed.

(** The first hit of a single word at or after position [64 * p]. *)
Lemma first_hit_in_word p lo size mask :
0 <= mask < 2 ^ 64 -> mask <> 0 -> 64 * p <= lo -> 64 * p < size ->
(forall o, 0 <= o < 64 -> Z.testbit mask o = true -> lo <= 64 * p + o) ->
(forall o, 0 <= o < 64 -> lo <= 64 * p + o < size ->
   Z.testbit mask o = Z.testbit (flip (addr p)) o) ->
first_hit hit lo size (64 * p + __ffsl mask).
Proof.
intros Hm Hnz Hlo Hsize Hlow Hsame.
destruct (ffsl_spec mask Hm Hnz) as (Hr & Ht & Hskip).
pose proof (Hlow _ Hr Ht). constructor; [lia|lia| |].
- intros j Hj Hjs. replace j with (64 * p + (j - 64 * p)) by lia.
  rewrite hit_word by lia. rewrite <- Hsame by lia. apply Hskip. lia.
- intros Hlt. rewrite hit_word by lia. rewrite <- Hsame by lia. exact Ht.
Qed.

Lemma mask_zero_no_hit p lo size mask :
mask = 0 -> 64 * p <= lo ->
(forall o, 0 <= o < 64 -> lo <= 64 * p + o < size ->
   Z.testbit mask o = Z.testbit (flip (addr p)) o) ->
forall j, lo <= j < 64 * (p + 1) -> j < size -> hit j = false.
Proof.
intros Hm Hlo Hsame j Hj Hjs. replace j with (64 * p + (j - 64 * p)) by lia.
rewrite hit_word by lia. rewrite <- Hsame by lia. apply word_zero_bits, Hm.
Qed.

Lemma first_hit_skip lo mid size r :
lo <= mid -> (forall j, lo <= j < mid -> j < size -> hit j = false) ->
first_hit hit mid size r -> first_hit hit lo size r.
Proof.
intros Hle Hskip [Hl Hu Hs Hh]. constructor; [lia|lia| |exact Hh].
intros j Hj Hjs. destruct (Z.lt_ge_cases j mid); [apply Hskip | apply Hs]; lia.
Qed.

Lemma find_words_spec fuel pos size bit :
bit = 64 * pos -> 0 <= pos -> 0 <= size -> bit + size < 2 ^ 31 - 64 ->
size / 64 < Z.of_nat fuel ->
first_hit hit bit (bit + size) (find_words flip fuel addr pos size bit).
Proof.
revert pos size bit. induction fuel as [|fuel IH]; intros pos size bit -> Hpos Hsz Hmax Hfuel;
  [pose proof (Z.div_pos size 64); lia|].
simpl. unfold BITS_PER_LONG, truthy. pose proof (flip_range _ (addr_wf pos)) as Hw.
destruct (Z.leb_spec 64 size) as [Hge|Hlt].
- destruct (Z.eqb_spec (flip (addr pos)) 0) as [Hz|Hnz].
  + cint. replace (64 * pos + size) with (64 * (pos + 1) + (size - 64)) by lia.
    apply (first_hit_skip _ (64 * (pos + 1))); [lia| |].
    * apply (mask_zero_no_hit pos _ _ (flip (addr pos))); auto; lia.
    * replace (64 * pos + 64) with (64 * (pos + 1)) by lia.
      apply IH; try lia.
      replace size with (size - 64 + 1 * 64) in Hfuel by lia. rewrite Z.div_add in Hfuel; lia.
  + destruct (ffsl_spec _ Hw Hnz) as (Hr & _ & _). cint.
    apply first_hit_in_word; auto; intros; lia.
- destruct (Z.eqb_spec size 0) as [->|Hnz0]; simpl.
  + cint. constructor; intros; lia.
  + set (mask := Z.land _ _).
    assert (0 <= mask < 2 ^ 64) as Hm by (apply land_range; [exact Hw | apply last_mask_nonneg]).
    assert (forall o, 0 <= o < 64 -> Z.testbit mask o = Z.testbit (flip (addr pos)) o && (o <? size)) as Hb.
    { intros o Ho. unfold mask. rewrite Z.land_spec, testbit_last_mask by (rewrite ?Z.mod_small; lia).
      rewrite Z.mod_small by lia. reflexivity. }
    assert (forall o, 0 <= o < 64 -> 64 * pos <= 64 * pos + o < 64 * pos + size ->
      Z.testbit mask o = Z.testbit (flip (addr pos)) o) as Hsame.
    { intros o Ho Hr. rewrite Hb by lia. destruct (Z.ltb_spec o size); [apply andb_true_r|lia]. }
    destruct (Z.eqb_spec mask 0) as [Hz|Hnz]; simpl.
    * cint. constructor; [lia|lia| |lia]. intros j Hj Hjs.
      apply (mask_zero_no_hit pos (64 * pos) (64 * pos + size) mask); auto; lia.
    * destruct (ffsl_spec _ Hm Hnz) as (Hr & _ & _). cint.
      apply first_hit_in_word; auto; intros; lia.
Qed.

Lemma find_next_first_hit size offset :
0 <= offset -> 0 <= size < 2 ^ 31 - 128 -> offset <= size ->
first_hit hit offset size (find_next flip addr size offset).
Proof.
intros Ho Hs Hle. unfold find_next, BITS_PER_LONG, truthy.
destruct (Z.leb_spec size offset); [constructor; intros; lia|].
assert (size / 64 < Z.of_nat (S (Z.to_nat (size / 64)))) as Hfuel.
{ pose proof (Z.div_pos size 64). lia. }
assert (forall b, 0 <= b <= size -> (size - b) / 64 <= size / 64) as Hmono.
{ intros. apply Z.div_le_mono; lia. }
coords offset p o. subst offset. cint.
pose proof (flip_range _ (addr_wf p)) as Hw.
destruct (Z.eqb_spec o 0) as [->|Hnz]; cbn [negb].
- pose proof (Hmono (64 * p) ltac:(lia)).
  replace size with (64 * p + (size - 64 * p)) at 1 by lia.
  rewrite Z.add_0_r in *. apply find_words_spec; lia.
- set (mask := Z.land _ _).
  assert (0 <= mask < 2 ^ 64) as Hm by (apply land_range; [exact Hw | apply not64_range]).
  assert (forall i, 0 <= i < 64 -> Z.testbit mask i = Z.testbit (flip (addr p)) i && (o <=? i)) as Hb.
  { intros i Hi. unfold mask.
    rewrite Z.land_spec, testbit_not64, testbit_last_mask by (rewrite ?Z.mod_small; lia).
    rewrite Z.mod_small, Z.leb_antisym by lia. reflexivity. }
  assert (forall i, 0 <= i < 64 -> 64 * p + o <= 64 * p + i < size ->
    Z.testbit mask i = Z.testbit (flip (addr p)) i) as Hsame.
  { intros i Hi Hr. rewrite Hb by lia. destruct (Z.leb_spec o i); [apply andb_true_r|lia]. }
  destruct (Z.eqb_spec mask 0) as [Hz|Hnzm]; cbn [negb].
  + pose proof (mask_zero_no_hit p (64 * p + o) size mask Hz ltac:(lia) Hsame) as Hskip.
    destruct (Z.leb_spec (size - 64 * p) 64).
    * constructor; [lia|lia| |lia]. intros j Hj Hjs. apply Hskip; lia.
    * apply (first_hit_skip _ (64 * (p + 1))); [lia|intros; apply Hskip; lia|].
      replace (64 * p + 64) with (64 * (p + 1)) by lia. cint.
      pose proof (Hmono (64 * (p + 1)) ltac:(lia)).
      replace size with (64 * (p + 1) + (size - 64 * (p + 1))) at 1 by lia.
      apply find_words_spec; lia.
  + destruct (ffsl_spec _ Hm Hnzm) as (Hr & _ & _). cint.
    apply first_hit_in_word; auto; try lia.
    intros i Hi Ht. rewrite Hb in Ht by lia.
    apply andb_true_iff in Ht as [_ Ht%Z.leb_le]. lia.
Qed.
End FindNextSpec.

Lemma find_next_bit_spec addr size offset :
  wf_words addr -> 0 <= offset <= size -> size < 2 ^ 31 - 128 ->
  first_hit (bit_at addr) offset size (find_next_bit addr size offset).
Proof. intros. apply (find_next_first_hit (fun w => w)); auto; lia. Qed.

Lemma find_next_zero_bit_spec addr size offset :
  wf_words addr -> 0 <= offset <= size -> size < 2 ^ 31 - 128 ->
  first_hit (fun i => negb (bit_at addr i)) offset size (find_next_zero_bit addr size offset).
Proof.
  intros Hwf Ho Hs.
  destruct (find_next_first_hit not64 (fun w _ => not64_range w) addr Hwf size offset
              ltac:(lia) ltac:(lia) ltac:(lia)) as [Hl Hu Hk Hh].
  assert (forall i, hit not64 addr i = negb (bit_at addr i)) as Heq.
  { intros i. unfold hit, bit_at. apply testbit_not64, Z.mod_pos_bound. lia. }
  constructor; [exact Hl|exact Hu| |]; intros; rewrite <- Heq; auto.
Qed.

(** ** Correctness of setting and clearing runs *)

Section ApplySpec.
Variable op : Z -> Z -> Z.
Variable v : bool.
Hypothesis op_bits : forall w mask i, 0 <= i < 64 ->
Z.testbit (op w mask) i = if Z.testbit mask i then v else Z.testbit w i.
Hypothesis op_range : forall w mask, 0 <= w < 2 ^ 64 -> 0 <= mask < 2 ^ 64 ->
0 <= op w mask < 2 ^ 64.

Definition in_run (start nr i : Z) : bool := (start <=? i) && (i <? start + nr).

(** One read-modify-write of word [p] whose mask is the run [lo, hi) of it. *)
Lemma bit_at_apply_word m p mask lo hi i :
(forall o, 0 <= o < 64 -> Z.testbit mask o = (lo <=? o) && (o <? hi)) ->
0 <= lo -> hi <= 64 ->
bit_at (upd m p (op (m p) mask)) i =
  if in_run (64 * p + lo) (hi - lo) i then v else bit_at m i.
Proof.
intros Hmask Hlo Hhi. rewrite bit_at_upd. unfold in_run, bit_at. coords i q o. subst i.
destruct (Z.eqb_spec q p) as [->|Hne].
- rewrite op_bits, Hmask by lia. bcase; cbn [andb]; try lia; reflexivity.
- bcase; cbn [andb]; try lia; reflexivity.
Qed.

Lemma apply_words_spec fuel m p nr o mask size i :
0 <= o < 64 -> 0 <= nr -> size = 64 * p + o + nr -> (nr + o) / 64 < Z.of_nat fuel ->
(forall j, 0 <= j < 64 -> Z.testbit mask j = (o <=? j)) ->
bit_at (apply_words op fuel m p nr (64 - o) mask size) i =
  if in_run (64 * p + o) nr i then v else bit_at m i.
Proof.
revert m p nr o mask. induction fuel as [|fuel IH]; intros m p nr o mask Ho Hnr Hsz Hfuel Hmask;
  [pose proof (Z.div_pos (nr + o) 64); lia|].
simpl. unfold truthy. destruct (Z.leb_spec 0 (nr - (64 - o))) as [Hge|Hlt].
- rewrite (IH _ (p + 1) (nr - (64 - o)) 0); try lia.
  + rewrite (bit_at_apply_word m p mask o 64); try lia.
    * unfold in_run. bcase; cbn [andb]; try lia; reflexivity.
    * intros j Hj. rewrite Hmask by lia. bcase; cbn [andb]; try lia; reflexivity.
  + replace (nr + o) with (nr - (64 - o) + 0 + 1 * 64) in Hfuel by lia.
    rewrite Z.div_add in Hfuel by lia. lia.
  + intros j Hj. rewrite testbit_ones64 by lia. bcase; try lia; reflexivity.
- destruct (Z.eqb_spec nr 0) as [->|Hnz]; cbn [negb].
  + unfold in_run. bcase; cbn [andb]; try lia; reflexivity.
  + assert (size mod 64 = o + nr) as Hmod.
    { subst size. replace (64 * p + o + nr) with (64 * p + (o + nr)) by lia.
      apply offset_of. lia. }
    rewrite (bit_at_apply_word m p _ o (o + nr)); try lia.
    * unfold in_run. bcase; cbn [andb]; try lia; reflexivity.
    * intros j Hj. rewrite Z.land_spec, Hmask, testbit_last_mask, Hmod by lia. reflexivity.
Qed.

Lemma apply_words_wf fuel m p nr bits mask size :
wf_words m -> 0 <= mask < 2 ^ 64 -> wf_words (apply_words op fuel m p nr bits mask size).
Proof.
revert m p nr bits mask. induction fuel as [|fuel IH]; intros m p nr bits mask Hm Hmask; [exact Hm|].
assert (forall w k, 0 <= w < 2 ^ 64 -> wf_words (upd m k w)) as Hupd.
{ intros w k Hw j. unfold upd. destruct (j =? k); [exact Hw|apply Hm]. }
simpl. destruct (0 <=? nr - bits).
- apply IH; [apply Hupd, op_range; [apply Hm|exact Hmask]|unfold ones64; lia].
- destruct (truthy nr); [|exact Hm].
  apply Hupd, op_range; [apply Hm|]. apply land_range; [exact Hmask|apply last_mask_nonneg].
Qed.

Lemma bitmap_apply_spec m start nr i :
0 <= start -> 0 <= nr -> start + nr < 2 ^ 31 ->
bit_at (bitmap_apply op m start nr) i = if in_run start nr i then v else bit_at m i.
Proof.
intros Hs Hn Hmax. unfold bitmap_apply, BIT_WORD, BITS_PER_LONG. cint.
rewrite Z.quot_div_nonneg, Z.rem_mod_nonneg by lia.
pose proof (testbit_first_mask start) as Hmask.
coords start p o. rewrite (apply_words_spec _ _ _ nr o); try lia.
- rewrite Hi. reflexivity.
- pose proof (Z.div_le_mono (nr + o) (nr + 1 * 64) 64) as Hle.
  rewrite Z.div_add in Hle by lia. pose proof (Z.div_pos nr 64). lia.
- intros j Hj. apply Hmask; lia.
Qed.

Lemma bitmap_apply_wf m start nr : wf_words m -> wf_words (bitmap_apply op m start nr).
Proof. intros Hm. apply apply_words_wf; [exact Hm|apply u64_range]. Qed.
End ApplySpec.

Lemma lor_bits w mask i : 0 <= i < 64 ->
  Z.testbit (Z.lor w mask) i = if Z.testbit mask i then true else Z.testbit w i.
Proof. intros. rewrite Z.lor_spec. destruct (Z.testbit mask i), (Z.testbit w i); reflexivity. Qed.

Lemma clear_bits w mask i : 0 <= i < 64 ->
  Z.testbit (Z.land w (not64 mask)) i = if Z.testbit mask i then false else Z.testbit w i.
Proof.
  intros. rewrite Z.land_spec, testbit_not64 by lia.
  destruct (Z.testbit mask i), (Z.testbit w i); reflexivity.
Qed.

Lemma lor_range a b : 0 <= a < 2 ^ 64 -> 0 <= b < 2 ^ 64 -> 0 <= Z.lor a b < 2 ^ 64.
Proof.
  intros Ha Hb. split; [apply Z.lor_nonneg; lia|].
  assert (Z.lor a b = Z.lor a b mod 2 ^ 64) as ->.
  { apply Z.bits_inj'. intros i Hi. destruct (Z.ltb_spec i 64).
    - rewrite Z.mod_pow2_bits_low by lia. reflexivity.
    - rewrite Z.mod_pow2_bits_high, Z.lor_spec, !testbit_above by lia. reflexivity. }
  apply Z.mod_pos_bound. lia.
Qed.

Lemma bit_at_bitmap_set m start nr i :
  0 <= start -> 0 <= nr -> start + nr < 2 ^ 31 ->
  bit_at (bitmap_set m start nr) i = in_run start nr i || bit_at m i.
Proof.
  intros. unfold bitmap_set. rewrite (bitmap_apply_spec _ true lor_bits) by lia.
  destruct (in_run start nr i); reflexivity.
Qed.

Lemma bit_at_bitmap_clear m start nr i :
  0 <= start -> 0 <= nr -> start + nr < 2 ^ 31 ->
  bit_at (bitmap_clear m start nr) i = negb (in_run start nr i) && bit_at m i.
Proof.
  intros. unfold bitmap_clear. rewrite (bitmap_apply_spec _ false clear_bits) by lia.
  destruct (in_run start nr i); reflexivity.
Qed.

Lemma bitmap_set_wf m start nr : wf_words m -> wf_words (bitmap_set m start nr).
Proof. apply bitmap_apply_wf, lor_range. Qed.

Lemma bitmap_clear_wf m start nr : wf_words m -> wf_words (bitmap_clear m start nr).
Proof.
  apply bitmap_apply_wf. intros. apply land_range; [lia|apply not64_range].
Qed.

#[export] Hint Resolve bitmap_set_wf bitmap_clear_wf : bits.
