(* ===== verification/TicketLock.v ===== *)
(** * Ticket lock (src/include/enclave/ticketlock.h)

    The spinlock that protects the page allocator, the futex queues and the
    event channels.  [ticket] and [users] are the two 32-bit counters of the
    structure; every atomic access of the code is one step of the interleaving
    semantics [step].  The lock is shown to implement a first-come first-served
    queue of threads ([refines]), from which mutual exclusion, the order of
    acquisition and the meaning of [ticket_trylock] follow. *)

From stdpp Require Import gmap.
From S2P Require Import Prelude.

(** ** The structure and its atomic accesses *)

Record ticketlock : Type := mk_ticketlock { ticket : Z; users : Z }.

(** The 64-bit view [u] of the two words (little endian: [ticket] is low). *)
Definition lock_word (t : ticketlock) : Z := Z.shiftl (users t) 32 + ticket t.

(** [atomic_fetch_add(&t->s.users, 1)]: the caller's ticket and the new lock. *)
Definition take_ticket (t : ticketlock) : Z * ticketlock :=
  (users t, mk_ticketlock (ticket t) (u32 (users t + 1))).

(** The test of the spin loop of [ticket_lock]. *)
Definition my_turn (t : ticketlock) (me : Z) : bool := ticket t =? me.

(** [ticket_unlock] *)
Definition ticket_unlock (t : ticketlock) : ticketlock :=
  mk_ticketlock (u32 (ticket t + 1)) (users t).

(** The compare-and-swap of [ticket_trylock], for the value [me] read before. *)
Definition trylock_cas (t : ticketlock) (me : Z) : option ticketlock :=
  let menew := u32 (me + 1) in
  let expected := u64 (Z.shiftl me 32 + me) in
  let desired := u64 (Z.shiftl menew 32 + me) in
  if lock_word t =? expected
  then Some (mk_ticketlock (desired mod 2 ^ 32) (Z.shiftr desired 32))
  else None.

(** ** Runs of one thread with no contention

    What [ticket_lock] and [ticket_trylock] do when no other thread takes a step
    in between: [None] is the thread that keeps spinning. *)

Definition ticket_lock (t : ticketlock) : option ticketlock :=
  let '(me, t) := take_ticket t in
  if my_turn t me then Some t else None.

Definition ticket_trylock (t : ticketlock) : Z * ticketlock :=
  match trylock_cas t (users t) with
  | Some t' => (0, t')
  | None => (-1, t)
  end.

(** ** Interleaving semantics

    Thread states: outside, after taking ticket [me] and spinning, inside the
    critical section, and between the read and the compare-and-swap of
    [ticket_trylock]. *)

Inductive pc : Type :=
| Idle
| Waiting (me : Z)
| Holding
| Trying (me : Z).

#[export] Instance pc_eq_dec : EqDecision pc.
Proof. solve_decision. Defined.

Record config : Type := mk_config { lk : ticketlock; thr : gmap nat pc }.

Inductive label : Type :=
| LTake (tid : nat)
| LSpin (tid : nat)
| LEnter (tid : nat)
| LRelease (tid : nat)
| LTryRead (tid : nat)
| LTryOk (tid : nat)
| LTryFail (tid : nat).

Inductive step : config -> label -> config -> Prop :=
| step_take t T tid :
    T !! tid = Some Idle ->
    step (mk_config t T) (LTake tid)
      (mk_config (snd (take_ticket t)) (<[tid := Waiting (fst (take_ticket t))]> T))
| step_spin t T tid me :
    T !! tid = Some (Waiting me) -> my_turn t me = false ->
    step (mk_config t T) (LSpin tid) (mk_config t T)
| step_enter t T tid me :
    T !! tid = Some (Waiting me) -> my_turn t me = true ->
    step (mk_config t T) (LEnter tid) (mk_config t (<[tid := Holding]> T))
| step_release t T tid :
    T !! tid = Some Holding ->
    step (mk_config t T) (LRelease tid) (mk_config (ticket_unlock t) (<[tid := Idle]> T))
| step_try_read t T tid :
    T !! tid = Some Idle ->
    step (mk_config t T) (LTryRead tid) (mk_config t (<[tid := Trying (users t)]> T))
| step_try_ok t T tid me t' :
    T !! tid = Some (Trying me) -> trylock_cas t me = Some t' ->
    step (mk_config t T) (LTryOk tid) (mk_config t' (<[tid := Holding]> T))
| step_try_fail t T tid me :
    T !! tid = Some (Trying me) -> trylock_cas t me = None ->
    step (mk_config t T) (LTryFail tid) (mk_config t (<[tid := Idle]> T)).

(** ** The abstract lock: a queue of threads in order of arrival

    [aqueue] lists the threads that wait for the lock or hold it, in the order
    in which they asked; [aheld] says whether the head is in its critical
    section. *)

Record alock : Type := mk_alock { aqueue : list nat; aheld : bool }.

Inductive astep : alock -> label -> alock -> Prop :=
| astep_take q h tid :
    tid ∉ q -> astep (mk_alock q h) (LTake tid) (mk_alock (q ++ [tid]) h)
| astep_spin q h tid :
    tid ∈ q -> head q <> Some tid ->
    astep (mk_alock q h) (LSpin tid) (mk_alock q h)
| astep_enter q tid :
    astep (mk_alock (tid :: q) false) (LEnter tid) (mk_alock (tid :: q) true)
| astep_release q tid :
    astep (mk_alock (tid :: q) true) (LRelease tid) (mk_alock q false)
| astep_try_read q h tid :
    astep (mk_alock q h) (LTryRead tid) (mk_alock q h)
| astep_try_ok tid :
    astep (mk_alock [] false) (LTryOk tid) (mk_alock [tid] true)
| astep_try_fail q h tid :
    astep (mk_alock q h) (LTryFail tid) (mk_alock q h).

(** The coupling of a configuration with the abstract lock: the thread at
    position [k] of the queue has ticket [ticket + k], only the head can hold
    the lock, and every other thread is outside. *)
Record refines (c : config) (a : alock) : Prop := {
  rf_nodup : NoDup (aqueue a);
  rf_ticket : 0 <= ticket (lk c) < 2 ^ 32;
  rf_users : users (lk c) = u32 (ticket (lk c) + Z.of_nat (length (aqueue a)));
  rf_size : Z.of_nat (size (thr c)) < 2 ^ 32;
  rf_pos : forall k tid, aqueue a !! k = Some tid ->
    thr c !! tid =
      Some (if (k =? 0)%nat && aheld a then Holding
            else Waiting (u32 (ticket (lk c) + Z.of_nat k)));
  rf_out : forall tid p, thr c !! tid = Some p -> tid ∉ aqueue a ->
    p = Idle \/ (exists me, p = Trying me /\ 0 <= me < 2 ^ 32);
  rf_free : aqueue a = [] -> aheld a = false
}.

Definition init_config (n : nat) : config :=
  mk_config (mk_ticketlock 0 0)
    (list_to_map ((fun tid => (tid, Idle)) <$> seq 0 n)).

(** Executions of [n] threads from the initial lock, with the labels of their
    steps (latest last), and the executions of the abstract lock. *)
Inductive run (n : nat) : list label -> config -> Prop :=
| run_init : run n [] (init_config n)
| run_step ls c l c' : run n ls c -> step c l c' -> run n (ls ++ [l]) c'.

Inductive arun : list label -> alock -> Prop :=
| arun_init : arun [] (mk_alock [] false)
| arun_step ls a l a' : arun ls a -> astep a l a' -> arun (ls ++ [l]) a'.

(** ** Counters and queue positions *)

Lemma u32_range z : 0 <= u32 z < 2 ^ 32.
Proof. apply wrap_range. lia. Qed.

Lemma lock_word_inj a b c d :
  0 <= b < 2 ^ 32 -> 0 <= d < 2 ^ 32 ->
  Z.shiftl a 32 + b = Z.shiftl c 32 + d -> a = c /\ b = d.
Proof. rewrite !Z.shiftl_mul_pow2 by lia. lia. Qed.

Lemma halves me w :
  0 <= me < 2 ^ 32 -> 0 <= w < 2 ^ 32 ->
  u64 (Z.shiftl w 32 + me) mod 2 ^ 32 = me /\ Z.shiftr (u64 (Z.shiftl w 32 + me)) 32 = w.
Proof.
  intros Hm Hw. rewrite Z.shiftl_mul_pow2 by lia.
  rewrite u64_small by (powers; lia). split.
  - rewrite Z.add_comm, Z_mod_plus_full. apply Z.mod_small. lia.
  - rewrite Z.shiftr_div_pow2, Z.div_add_l by lia. rewrite Z.div_small by lia. lia.
Qed.

Section Refinement.
Variables (c : config) (a : alock).
Hypothesis R : refines c a.

Lemma queued_known tid : tid ∈ aqueue a -> exists p, thr c !! tid = Some p.
Proof. intros [k Hk]%list_elem_of_lookup. eexists. apply (rf_pos _ _ R _ _ Hk). Qed.

Lemma queue_fits (q : list nat) :
NoDup q -> (forall tid, tid ∈ q -> exists p, thr c !! tid = Some p) ->
Z.of_nat (length q) < 2 ^ 32.
Proof.
intros Hnd Hin. pose proof (rf_size _ _ R) as Hsz.
assert (length q <= size (thr c))%nat; [|lia].
rewrite <- (size_dom (D := gset nat)), <- (size_list_to_set (C := gset nat)) by exact Hnd.
apply subseteq_size. intros tid Htid%elem_of_list_to_set.
destruct (Hin _ Htid) as [p Hp]. apply elem_of_dom. eauto.
Qed.

Lemma queue_small : Z.of_nat (length (aqueue a)) < 2 ^ 32.
Proof. apply queue_fits; [apply R|apply queued_known]. Qed.

Lemma position_small k tid : aqueue a !! k = Some tid -> 0 <= Z.of_nat k < 2 ^ 32.
Proof. intros Hk%lookup_lt_Some. pose proof queue_small. lia. Qed.

Lemma waiting_position tid me :
thr c !! tid = Some (Waiting me) ->
exists k, aqueue a !! k = Some tid /\ me = u32 (ticket (lk c) + Z.of_nat k) /\
  (k = O -> aheld a = false).
Proof.
intros Ht. destruct (decide (tid ∈ aqueue a)) as [[k Hk]%list_elem_of_lookup|Hout].
- pose proof (rf_pos _ _ R _ _ Hk) as Hp. rewrite Ht in Hp. exists k. split; [exact Hk|].
  destruct k, (aheld a); cbn in Hp; simplify_eq; (split; [reflexivity|done]).
- destruct (rf_out _ _ R _ _ Ht Hout) as [?|(? & ? & _)]; discriminate.
Qed.

Lemma holding_head tid :
thr c !! tid = Some Holding -> exists q, a = mk_alock (tid :: q) true.
Proof.
intros Ht. destruct (decide (tid ∈ aqueue a)) as [[k Hk]%list_elem_of_lookup|Hout].
- pose proof (rf_pos _ _ R _ _ Hk) as Hp. rewrite Ht in Hp.
  destruct a as [q h]; cbn in *. destruct k, h; cbn in Hp; try discriminate.
  destruct q; cbn in Hk; simplify_eq. eauto.
- destruct (rf_out _ _ R _ _ Ht Hout) as [?|(? & ? & _)]; discriminate.
Qed.

Lemma outside_not_queued tid p :
thr c !! tid = Some p -> p = Idle \/ (exists me, p = Trying me) -> tid ∉ aqueue a.
Proof.
intros Ht Hp [k Hk]%list_elem_of_lookup. pose proof (rf_pos _ _ R _ _ Hk) as Hq.
rewrite Ht in Hq. destruct Hp as [->|[me ->]]; destruct k, (aheld a); discriminate.
Qed.

(** A thread that is not queued may move between the outside states. *)
Lemma refines_outside tid p t :
tid ∉ aqueue a -> lk c = t -> is_Some (thr c !! tid) ->
p = Idle \/ (exists me, p = Trying me /\ 0 <= me < 2 ^ 32) ->
refines (mk_config t (<[tid := p]> (thr c))) a.
Proof.
intros Hout <- Hknown Hp. destruct R as [Hnd Ht Hu Hs Hpos Ho Hf].
constructor; cbn; auto.
- rewrite map_size_insert_Some by exact Hknown. exact Hs.
- intros k tid' Hk. rewrite lookup_insert_ne; [auto|].
  intros ->. apply Hout. apply list_elem_of_lookup. eauto.
- intros tid' p' Hp' Hout'. destruct (decide (tid = tid')) as [->|Hne].
  + rewrite lookup_insert_eq in Hp'. simplify_eq. exact Hp.
  + rewrite lookup_insert_ne in Hp' by done. eauto.
Qed.
End Refinement.

Lemma trylock_cas_ok t me t' :
  0 <= ticket t < 2 ^ 32 -> 0 <= me < 2 ^ 32 ->
  trylock_cas t me = Some t' ->
  ticket t = me /\ users t = me /\ t' = mk_ticketlock me (u32 (me + 1)).
Proof.
  intros Ht Hm. unfold trylock_cas, lock_word.
  rewrite (u64_small (Z.shiftl me 32 + me)) by (rewrite Z.shiftl_mul_pow2 by lia; powers; lia).
  destruct (Z.eqb_spec (Z.shiftl (users t) 32 + ticket t) (Z.shiftl me 32 + me)) as [Heq|];
    [|discriminate].
  apply lock_word_inj in Heq as [Hu Hk]; [|lia|lia].
  destruct (halves me (u32 (me + 1)) Hm (u32_range _)) as [-> ->].
  intros [= <-]. auto.
Qed.

Lemma trylock_cas_free t :
  0 <= ticket t < 2 ^ 32 -> users t = ticket t ->
  trylock_cas t (users t) = Some (mk_ticketlock (ticket t) (u32 (ticket t + 1))).
Proof.
  intros Ht Hu. unfold trylock_cas, lock_word. rewrite Hu.
  rewrite (u64_small (Z.shiftl (ticket t) 32 + ticket t))
    by (rewrite Z.shiftl_mul_pow2 by lia; powers; lia).
  rewrite Z.eqb_refl.
  destruct (halves (ticket t) (u32 (ticket t + 1)) Ht (u32_range _)) as [-> ->]. reflexivity.
Qed.

(** ** The simulation, step by step *)

Lemma sim_take c a tid :
  refines c a -> thr c !! tid = Some Idle ->
  let '(me, t) := take_ticket (lk c) in
  refines (mk_config t (<[tid := Waiting me]> (thr c))) (mk_alock (aqueue a ++ [tid]) (aheld a)).
Proof.
  intros R Hidle. cbn.
  pose proof (outside_not_queued _ _ R _ _ Hidle (or_introl eq_refl)) as Hout.
  pose proof (queue_small _ _ R) as Hsm. destruct a as [q h], c as [t T]; cbn in *.
  destruct R as [Hnd Ht Hu Hs Hpos Ho Hf]; cbn in *. constructor; cbn.
  - apply NoDup_app. repeat split; [done| |apply NoDup_singleton]. set_solver.
  - exact Ht.
  - rewrite Hu, length_app. cbn. unfold u32. rewrite wrap_add_wrap. f_equal. lia.
  - rewrite map_size_insert_Some by eauto. exact Hs.
  - intros k tid' Hk. destruct (decide (tid' = tid)) as [->|Hne].
    + rewrite lookup_insert_eq. rewrite lookup_app in Hk.
      destruct (q !! k) eqn:Hqk.
      { simplify_eq. exfalso. apply Hout, list_elem_of_lookup. eauto. }
      apply lookup_ge_None in Hqk.
      assert (k = length q) as -> by (apply list_lookup_singleton_Some in Hk as [? _]; lia).
      rewrite Hu. f_equal. destruct q; cbn; [rewrite Hf by done|]; reflexivity.
    + rewrite lookup_insert_ne by done. apply Hpos.
      rewrite lookup_app in Hk. destruct (q !! k); [done|].
      apply list_lookup_singleton_Some in Hk as [_ ?]; congruence.
  - intros tid' p Hp Hout'. rewrite lookup_insert_ne in Hp by set_solver.
    apply (Ho tid'); [exact Hp|set_solver].
  - intros []%app_eq_nil; discriminate.
Qed.

Lemma sim_enter c q tid :
  refines c (mk_alock (tid :: q) false) ->
  refines (mk_config (lk c) (<[tid := Holding]> (thr c))) (mk_alock (tid :: q) true).
Proof.
  intros [Hnd Ht Hu Hs Hpos Ho Hf]; cbn in *. constructor; cbn; auto.
  - rewrite map_size_insert_Some; [exact Hs|]. rewrite (Hpos O tid) by done. eauto.
  - intros [|k] tid' Hk; cbn in *; simplify_eq.
    + apply lookup_insert_eq.
    + rewrite lookup_insert_ne; [apply (Hpos (S k)); done|].
      intros ->. apply NoDup_cons in Hnd as [Hnd _]. apply Hnd, list_elem_of_lookup. eauto.
  - intros tid' p Hp Hout. rewrite lookup_insert_ne in Hp by set_solver. eauto.
  - discriminate.
Qed.

Lemma sim_release c q tid :
  refines c (mk_alock (tid :: q) true) ->
  refines (mk_config (ticket_unlock (lk c)) (<[tid := Idle]> (thr c))) (mk_alock q false).
Proof.
  intros [Hnd Ht Hu Hs Hpos Ho Hf]; cbn in *. apply NoDup_cons in Hnd as [Htid Hnd].
  constructor; cbn; auto.
  - apply u32_range.
  - rewrite Hu. unfold u32. rewrite wrap_add_wrap. f_equal. lia.
  - rewrite map_size_insert_Some; [exact Hs|]. rewrite (Hpos O tid) by done. eauto.
  - intros k tid' Hk. rewrite andb_false_r.
    rewrite lookup_insert_ne by (intros ->; apply Htid, list_elem_of_lookup; eauto).
    rewrite (Hpos (S k) tid') by done. cbn [Nat.eqb andb]. do 2 f_equal.
    unfold u32. rewrite wrap_add_wrap. f_equal. lia.
  - intros tid' p Hp Hout. destruct (decide (tid = tid')) as [->|Hne].
    + rewrite lookup_insert_eq in Hp. simplify_eq. auto.
    + rewrite lookup_insert_ne in Hp by done. apply (Ho tid'); [exact Hp|set_solver].
Qed.

Lemma sim_try_ok c a tid me t' :
  refines c a -> thr c !! tid = Some (Trying me) -> trylock_cas (lk c) me = Some t' ->
  a = mk_alock [] false /\
  refines (mk_config t' (<[tid := Holding]> (thr c))) (mk_alock [tid] true).
Proof.
  intros R Htry Hcas.
  pose proof (outside_not_queued _ _ R _ _ Htry (or_intror (ex_intro _ me eq_refl))) as Hout.
  destruct (rf_out _ _ R _ _ Htry Hout) as [?|(me' & Hme & Hr)]; [discriminate|]. simplify_eq.
  destruct (trylock_cas_ok _ _ _ (rf_ticket _ _ R) Hr Hcas) as (Ht & Hu & ->).
  pose proof (rf_users _ _ R) as Hlen. pose proof (queue_small _ _ R) as Hsm.
  assert (Z.of_nat (length (aqueue a)) = 0) as Hz.
  { apply (wrap_inj_shift 32 (ticket (lk c))); [lia|lia|].
    unfold u32 in Hlen. rewrite Z.add_0_r, (wrap_small 32 (ticket (lk c))) by lia. congruence. }
  assert (aqueue a = []) as Hq by (apply length_zero_iff_nil; lia).
  split.
  { destruct a as [q h]; cbn in *. subst q. f_equal. apply (rf_free _ _ R). done. }
  destruct R as [Hnd Htk Hus Hs Hpos Ho Hf]; cbn in *.
  constructor; cbn; [apply NoDup_singleton|lia|reflexivity| | | |discriminate].
  - rewrite map_size_insert_Some by eauto. exact Hs.
  - intros k tid' Hk. apply list_lookup_singleton_Some in Hk as [-> <-]. apply lookup_insert_eq.
  - intros tid' p Hp Hout'. rewrite lookup_insert_ne in Hp by set_solver.
    apply (Ho tid'); [exact Hp|]. rewrite Hq. set_solver.
Qed.

(** ** Theorems *)

(** Every atomic step of the code is the step of the abstract queue with the
    same label. *)
Lemma step_simulation c l c' a :
  refines c a -> step c l c' -> exists a', astep a l a' /\ refines c' a'.
Proof.
  intros R Hs. destruct a as [q h]. destruct Hs as
    [t T tid Ht | t T tid me Ht Hturn | t T tid me Ht Hturn | t T tid Ht | t T tid Ht
    | t T tid me t' Ht Hcas | t T tid me Ht Hcas].
  - eexists. split; [|apply (sim_take _ _ tid R Ht)].
    constructor. apply (outside_not_queued _ _ R _ _ Ht). auto.
  - exists (mk_alock q h). split; [|exact R].
    destruct (waiting_position _ _ R _ _ Ht) as (k & Hk & -> & _). cbn in *. constructor.
    + apply list_elem_of_lookup. eauto.
    + intros Hhead. destruct q as [|x q]; simplify_eq/=. destruct k as [|k].
      * unfold my_turn in Hturn. rewrite Z.add_0_r, u32_small, Z.eqb_refl in Hturn by apply R.
        discriminate.
      * pose proof (rf_nodup _ _ R) as Hnd. apply NoDup_cons in Hnd as [Hnd _].
        apply Hnd, list_elem_of_lookup. eauto.
  - destruct (waiting_position _ _ R _ _ Ht) as (k & Hk & -> & Hfree). cbn in *.
    pose proof (position_small _ _ R _ _ Hk). unfold my_turn in Hturn.
    apply Z.eqb_eq in Hturn. pose proof (rf_ticket _ _ R) as Hr. cbn in Hr.
    assert (Z.of_nat k = 0) as Hk0.
    { apply (wrap_inj_shift 32 (ticket t)); [lia|lia|]. unfold u32 in Hturn.
      rewrite Z.add_0_r, (wrap_small 32 (ticket t)) by lia. congruence. }
    destruct k; [|lia]. destruct q as [|x q]; simplify_eq/=. rewrite Hfree in * by done.
    eexists. split; [constructor|]. exact (sim_enter _ _ _ R).
  - destruct (holding_head _ _ R _ Ht) as [q' Hq]. simplify_eq.
    eexists. split; [constructor|]. exact (sim_release _ _ _ R).
  - eexists. split; [constructor|]. apply (refines_outside _ _ R); cbn; eauto.
    + apply (outside_not_queued _ _ R _ _ Ht). auto.
    + right. eexists. split; [reflexivity|].
      pose proof (rf_users _ _ R) as Hu. cbn in Hu. rewrite Hu. apply u32_range.
  - destruct (sim_try_ok _ _ _ _ _ R Ht Hcas) as [Heq R']. simplify_eq.
    eexists. split; [constructor|exact R'].
  - eexists. split; [constructor|]. apply (refines_outside _ _ R); cbn; eauto.
    apply (outside_not_queued _ _ R _ _ Ht). eauto.
Qed.

Lemma init_threads n tid p :
  thr (init_config n) !! tid = Some p -> p = Idle.
Proof.
  cbn. intros Hp%elem_of_list_to_map_2%list_elem_of_fmap. destruct Hp as (? & ? & _). congruence.
Qed.

Lemma init_refines n : Z.of_nat n < 2 ^ 32 -> refines (init_config n) (mk_alock [] false).
Proof.
  intros Hn. constructor; cbn; try done.
  - apply NoDup_nil_2.
  - rewrite map_size_list_to_map, length_fmap, length_seq; [exact Hn|].
    rewrite <- list_fmap_compose, (list_fmap_ext _ id), list_fmap_id by done. apply NoDup_seq.
  - intros tid p Hp _. left. exact (init_threads n _ _ Hp).
Qed.

Lemma run_refines n ls c :
  Z.of_nat n < 2 ^ 32 -> run n ls c -> exists a, arun ls a /\ refines c a.
Proof.
  intros Hn. induction 1 as [|ls c l c' _ (a & Ha & R) Hs].
  - exists (mk_alock [] false). split; [constructor|apply init_refines, Hn].
  - destruct (step_simulation _ _ _ _ R Hs) as (a' & Hstep & R').
    exists a'. split; [econstructor; eauto|exact R'].
Qed.

(** C21. Refinement: any interleaving of [ticket_lock], [ticket_unlock] and
    [ticket_trylock] by fewer than 2^32 threads, wrap-around of the counters
    included, is a run of a first-come first-served queue: threads enter in the
    order in which they took their tickets, and a [ticket_trylock] succeeds only
    on an empty queue. *)
Theorem ticket_lock_fifo (n : nat) (ls : list label) (c : config) :
  Z.of_nat n < 2 ^ 32 -> run n ls c -> exists a, arun ls a /\ refines c a.
Proof. apply run_refines. Qed.

(** Safety: two threads are never inside the critical section at once. *)
Theorem ticket_lock_mutex (n : nat) (ls : list label) (c : config) (i j : nat) :
  Z.of_nat n < 2 ^ 32 -> run n ls c ->
  thr c !! i = Some Holding -> i <> j -> thr c !! j <> Some Holding.
Proof.
  intros Hn Hr Hi Hne Hj. apply Hne. destruct (run_refines _ _ _ Hn Hr) as (a & _ & R).
  destruct (holding_head _ _ R _ Hi) as [q Hq]. destruct (holding_head _ _ R _ Hj) as [q' Hq'].
  congruence.
Qed.

(** Progress: while some thread waits and nobody is inside, a thread can
    enter; no wrap-around of the counters strands the waiters. *)
Theorem ticket_lock_progress (n : nat) (ls : list label) (c : config) (tid : nat) (me : Z) :
  Z.of_nat n < 2 ^ 32 -> run n ls c ->
  thr c !! tid = Some (Waiting me) -> (forall i, thr c !! i <> Some Holding) ->
  exists i c', step c (LEnter i) c'.
Proof.
  intros Hn Hr Hw Hnone. destruct (run_refines _ _ _ Hn Hr) as ([q h] & _ & R).
  destruct (waiting_position _ _ R _ _ Hw) as (k & Hk & _). cbn in Hk.
  destruct q as [|x q]; [discriminate|].
  pose proof (rf_pos _ _ R O x eq_refl) as Hx. cbn in Hx.
  destruct h; [exfalso; exact (Hnone _ Hx)|].
  destruct c as [t T]. do 2 eexists. eapply step_enter; [exact Hx|]. cbn.
  unfold my_turn. rewrite Z.add_0_r, u32_small by apply R. apply Z.eqb_refl.
Qed.

(** ** Witnesses: two threads contend, one enters *)

Definition queued : config :=
  let c := init_config 2 in
  let c := mk_config (snd (take_ticket (lk c))) (<[0%nat := Waiting 0]> (thr c)) in
  mk_config (snd (take_ticket (lk c))) (<[1%nat := Waiting 1]> (thr c)).

Definition contended : config := mk_config (lk queued) (<[0%nat := Holding]> (thr queued)).

Lemma queued_run : run 2 ([LTake 0] ++ [LTake 1]) queued.
Proof.
  eapply run_step; [eapply (run_step 2 [])|]; [constructor| |].
  - apply (step_take _ _ 0). reflexivity.
  - apply (step_take (mk_ticketlock 0 1) _ 1). reflexivity.
Defined.

Lemma contended_run : run 2 (([LTake 0] ++ [LTake 1]) ++ [LEnter 0]) contended.
Proof.
  eapply run_step; [exact queued_run|].
  apply (step_enter (mk_ticketlock 0 2) _ 0 0); reflexivity.
Defined.

Lemma ticket_lock_fifo_witness :
  exists a, arun (([LTake 0] ++ [LTake 1]) ++ [LEnter 0]) a /\ refines contended a.
Proof. apply (ticket_lock_fifo 2); [lia|exact contended_run]. Defined.

Lemma ticket_lock_mutex_witness :
  thr contended !! 0%nat = Some Holding /\ thr contended !! 1%nat <> Some Holding.
Proof.
  split; [reflexivity|].
  refine (ticket_lock_mutex 2 _ contended 0 1 _ contended_run _ _); [lia|reflexivity|lia].
Defined.

Lemma ticket_lock_progress_witness : exists i c', step queued (LEnter i) c'.
Proof.
  refine (ticket_lock_progress 2 _ queued 1 1 _ queued_run _ _); [lia|reflexivity|].
  intros i Hi. unfold queued in Hi. cbn [thr] in Hi.
  rewrite !lookup_insert in Hi. repeat case_decide; try discriminate.
  apply (init_threads 2) in Hi. discriminate.
Defined.
