(* ===== verification/EnclaveMem.v ===== *)
(** * Enclave memory manager (src/enclave/enclave_mem.c)

    The page allocator behind [mmap], [munmap] and [mremap] inside the enclave:
    an allocation bitmap and a bitmap of pages known to be zero ("fresh"), both
    indexed from the top of the heap downwards.  The operations are modelled with
    all their branches on 64-bit integers, on a state that has the bitmaps, the
    layout variables, the page accounting, the lock, the bytes of the heap and
    the log of [mprotect] host calls. *)

From S2P Require Import Prelude Bitops TicketLock.

Definition PAGE_SIZE : Z := 4096.
Definition PROT_WRITE : Z := 2.

(** [DIV_ROUNDUP] on [size_t]. *)
Definition DIV_ROUNDUP (x y : Z) : Z := u64 (x + (y - 1)) / y.

(** ** State: the file's static variables, the heap and the host calls *)

Record mman : Type := mk_mman {
  mmaplock : ticketlock;
  mmap_bitmap : words;          (* allocation bitmap: contents *)
  mmap_fresh_bitmap : words;    (* zeroed pages bitmap: contents *)
  mmap_bitmap_addr : Z;         (* where the two bitmaps lie *)
  mmap_fresh_bitmap_addr : Z;
  mmap_base : Z;
  mmap_end : Z;
  mmap_num_pages : Z;
  mmap_files : Z;
  used_pages : Z;
  sgxlkl_trace_mmap : bool;     (* DEBUG build with mmap tracing *)
  mmap_max_allocated : Z;
  mem : Z -> Z;                 (* bytes of the heap *)
  host_mprotect : list (Z * Z * Z)  (* sgxlkl_host_syscall_mprotect calls, latest first *)
}.

Definition set_lock (s : mman) (l : ticketlock) : mman :=
  mk_mman l (mmap_bitmap s) (mmap_fresh_bitmap s) (mmap_bitmap_addr s)
    (mmap_fresh_bitmap_addr s) (mmap_base s) (mmap_end s) (mmap_num_pages s) (mmap_files s)
    (used_pages s) (sgxlkl_trace_mmap s) (mmap_max_allocated s) (mem s) (host_mprotect s).

Definition set_bitmap (s : mman) (b : words) : mman :=
  mk_mman (mmaplock s) b (mmap_fresh_bitmap s) (mmap_bitmap_addr s)
    (mmap_fresh_bitmap_addr s) (mmap_base s) (mmap_end s) (mmap_num_pages s) (mmap_files s)
    (used_pages s) (sgxlkl_trace_mmap s) (mmap_max_allocated s) (mem s) (host_mprotect s).

Definition set_fresh (s : mman) (b : words) : mman :=
  mk_mman (mmaplock s) (mmap_bitmap s) b (mmap_bitmap_addr s)
    (mmap_fresh_bitmap_addr s) (mmap_base s) (mmap_end s) (mmap_num_pages s) (mmap_files s)
    (used_pages s) (sgxlkl_trace_mmap s) (mmap_max_allocated s) (mem s) (host_mprotect s).

Definition set_used (s : mman) (n : Z) : mman :=
  mk_mman (mmaplock s) (mmap_bitmap s) (mmap_fresh_bitmap s) (mmap_bitmap_addr s)
    (mmap_fresh_bitmap_addr s) (mmap_base s) (mmap_end s) (mmap_num_pages s) (mmap_files s)
    n (sgxlkl_trace_mmap s) (mmap_max_allocated s) (mem s) (host_mprotect s).

Definition set_max (s : mman) (n : Z) : mman :=
  mk_mman (mmaplock s) (mmap_bitmap s) (mmap_fresh_bitmap s) (mmap_bitmap_addr s)
    (mmap_fresh_bitmap_addr s) (mmap_base s) (mmap_end s) (mmap_num_pages s) (mmap_files s)
    (used_pages s) (sgxlkl_trace_mmap s) n (mem s) (host_mprotect s).

Definition set_mem (s : mman) (m : Z -> Z) : mman :=
  mk_mman (mmaplock s) (mmap_bitmap s) (mmap_fresh_bitmap s) (mmap_bitmap_addr s)
    (mmap_fresh_bitmap_addr s) (mmap_base s) (mmap_end s) (mmap_num_pages s) (mmap_files s)
    (used_pages s) (sgxlkl_trace_mmap s) (mmap_max_allocated s) m (host_mprotect s).

(** The [mprotect] ocall: logged, its result is not looked at by the callers. *)
Definition sgxlkl_host_syscall_mprotect (s : mman) (addr len prot : Z) : mman :=
  mk_mman (mmaplock s) (mmap_bitmap s) (mmap_fresh_bitmap s) (mmap_bitmap_addr s)
    (mmap_fresh_bitmap_addr s) (mmap_base s) (mmap_end s) (mmap_num_pages s) (mmap_files s)
    (used_pages s) (sgxlkl_trace_mmap s) (mmap_max_allocated s) (mem s)
    ((addr, len, prot) :: host_mprotect s).

(** [memset(p, 0, n)] and [memcpy(dst, src, n)] on the heap bytes. *)
Definition memset0 (m : Z -> Z) (p n : Z) : Z -> Z :=
  fun a => if (p <=? a) && (a <? p + n) then 0 else m a.

Definition memcpy (m : Z -> Z) (dst src n : Z) : Z -> Z :=
  fun a => if (dst <=? a) && (a <? dst + n) then m (src + (a - dst)) else m a.

(** The lock operations in a run of one thread: the caller takes a ticket and
    enters when it is served, and serves the next ticket when it leaves. *)
Definition lock_mmap (s : mman) : mman := set_lock s (snd (take_ticket (mmaplock s))).
Definition unlock_mmap (s : mman) : mman := set_lock s (ticket_unlock (mmaplock s)).

(** ** Searches in the bitmaps *)

(** [bitmap_count_set_bits]: the [for_each_set_bit_in_region] loop; [bit] and
    [retval] are [unsigned]. *)
Fixpoint count_loop (fuel : nat) (map : words) (size stop bit retval : Z) : Z :=
  match fuel with
  | O => retval
  | S fuel =>
      if bit <? stop then
        count_loop fuel map size stop (u32 (find_next_bit map size (u32 (bit + 1))))
          (u32 (retval + 1))
      else retval
  end.

Definition bitmap_count_set_bits (map : words) (size start nr : Z) : Z :=
  count_loop (S (Z.to_nat nr)) map size (u64 (start + nr))
    (u32 (find_next_bit map size start)) 0.

(** [bitmap_find_next_zero_area]: the [for (;;)] loop. *)
Fixpoint zero_area_loop (fuel : nat) (map : words) (size start nr : Z) : Z :=
  let index := find_next_zero_bit map size start in
  let endp := u64 (index + nr) in
  if size <? endp then endp
  else
    let i := find_next_bit map endp index in
    if i <? endp then
      match fuel with
      | O => size + 1
      | S fuel => zero_area_loop fuel map size (i + 1) nr
      end
    else index.

Definition bitmap_find_next_zero_area (map : words) (size start nr : Z) : Z :=
  zero_area_loop (S (Z.to_nat size)) map size start nr.

(** ** Layout *)

Definition in_mmap_range (s : mman) (addr size : Z) : bool :=
  (mmap_base s <=? addr) && (u64 (addr + size) <=? mmap_end s).

Definition index_to_addr (s : mman) (index : Z) : Z := u64 (mmap_end s - u64 (index * PAGE_SIZE)).

(** A pointer difference; the code only takes it for [addr <= mmap_end]. *)
Definition addr_to_index (s : mman) (addr : Z) : Z := u64 (mmap_end s - addr) / PAGE_SIZE.

(** [enclave_mem_info]: total and free bytes. *)
Definition enclave_mem_info (s : mman) : Z * Z :=
  (u64 (mmap_num_pages s * PAGE_SIZE), u64 (u64 (mmap_num_pages s - used_pages s) * PAGE_SIZE)).

(** ** Initialisation *)

Definition enclave_mman_init (s : mman) (base num_pages files : Z) : mman :=
  let '(base, num_pages) :=
    if base =? 0 then (u64 (base + PAGE_SIZE), u64 (num_pages - 1)) else (base, num_pages) in
  let bitmap_req_pages := DIV_ROUNDUP num_pages (BITS_PER_BYTE * PAGE_SIZE) in
  let num := u64 (num_pages - 2 * bitmap_req_pages) in
  let fresh := u64 (base + bitmap_req_pages * PAGE_SIZE) in
  let mbase := u64 (base + 2 * bitmap_req_pages * PAGE_SIZE) in
  let mend := u64 (mbase + u64 (num - 2) * PAGE_SIZE) in
  mk_mman (mmaplock s)
    (bitmap_clear (mmap_bitmap s) 0 num)
    (bitmap_set (mmap_fresh_bitmap s) 0 num)
    base fresh mbase mend num files (used_pages s)
    (sgxlkl_trace_mmap s) (mmap_max_allocated s) (mem s) (host_mprotect s).

(** ** mmap *)

(** The choice of the pages, under the lock: fixed address, hint, search.  The
    result is the state with the pages marked, the returned pointer, the first
    (highest) page index and the number of replaced pages. *)
Definition mmap_choose (s : mman) (addr length mmap_fixed pages : Z) : mman * Z * Z * Z :=
  let mark s top := set_bitmap s (bitmap_set (mmap_bitmap s) top pages) in
  let '(s, ret, index_top, replaced) :=
    if truthy mmap_fixed then
      if negb (in_mmap_range s addr length) then (s, u64 (- ENOMEM), 0, 0)
      else
        let index_top := u64 (addr_to_index s addr - (pages - 1)) in
        let replaced :=
          if sgxlkl_trace_mmap s
          then bitmap_count_set_bits (mmap_bitmap s) (mmap_num_pages s) index_top pages else 0 in
        (mark s index_top, addr, index_top, replaced)
    else if negb (addr =? 0) && in_mmap_range s addr length then
      let index_top := u64 (addr_to_index s addr - (pages - 1)) in
      if bitmap_count_set_bits (mmap_bitmap s) (mmap_num_pages s) index_top pages =? 0
      then (mark s index_top, addr, index_top, 0)
      else (s, 0, index_top, 0)
    else (s, 0, 0, 0) in
  if ret =? 0 then
    let index_top := bitmap_find_next_zero_area (mmap_bitmap s) (mmap_num_pages s) 0 pages in
    if mmap_num_pages s <? u64 (index_top + pages) then (s, u64 (- ENOMEM), index_top, replaced)
    else (mark s index_top, index_to_addr s (u64 (index_top + (pages - 1))), index_top, replaced)
  else (s, ret, index_top, replaced).

(** Zeroing the pages and setting their permissions, after the lock is released. *)
Definition mmap_prepare (s : mman) (ret length pages prot : Z) (zero_pages only_fresh : bool) : mman :=
  let set_prot := negb (prot =? -1) in
  let s :=
    if zero_pages && negb only_fresh then
      let s := if set_prot
               then sgxlkl_host_syscall_mprotect s ret length (Z.lor prot PROT_WRITE) else s in
      let s := set_mem s (memset0 (mem s) ret (u64 (pages * PAGE_SIZE))) in
      if set_prot && negb (Z.lor prot PROT_WRITE =? prot)
      then sgxlkl_host_syscall_mprotect s ret length prot else s
    else s in
  if set_prot && (negb zero_pages || only_fresh)
  then sgxlkl_host_syscall_mprotect s ret length prot else s.

(** The statistics of a traced DEBUG build. *)
Definition mmap_trace (s : mman) : mman :=
  if sgxlkl_trace_mmap s then
    let total := u64 (mmap_num_pages s * PAGE_SIZE) in
    let free := u64 (u64 (mmap_num_pages s - used_pages s) * PAGE_SIZE) in
    let used := u64 (total - free) in
    if mmap_max_allocated s <? used then set_max s used else s
  else s.

Definition enclave_mmap (s : mman) (addr length mmap_fixed prot zero_pages : Z) : mman * Z :=
  let pages := DIV_ROUNDUP length PAGE_SIZE in
  if negb (addr mod PAGE_SIZE =? 0) || (length =? 0) then (s, u64 (- EINVAL))
  else
    let '(s, ret, index_top, replaced) := mmap_choose (lock_mmap s) addr length mmap_fixed pages in
    let s :=
      if 0 <=? s64 ret then
        let only_fresh :=
          truthy zero_pages &&
          (bitmap_count_set_bits (mmap_fresh_bitmap s) (mmap_num_pages s) index_top pages =? pages) in
        let s := set_fresh s (bitmap_clear (mmap_fresh_bitmap s) index_top pages) in
        let s := unlock_mmap s in
        let s := mmap_prepare s ret length pages prot (truthy zero_pages) only_fresh in
        set_used s (u64 (used_pages s + (pages - replaced)))
      else unlock_mmap s in
    (mmap_trace s, ret).

(** ** munmap *)

Definition enclave_munmap (s : mman) (addr length : Z) : mman * Z :=
  let pages := DIV_ROUNDUP length PAGE_SIZE in
  if negb (addr mod PAGE_SIZE =? 0) || (length =? 0) || negb (in_mmap_range s addr length)
  then (s, - EINVAL)
  else
    let index := addr_to_index s addr in
    let index_top := u64 (index - (pages - 1)) in
    let s := lock_mmap s in
    let occupied := bitmap_count_set_bits (mmap_bitmap s) (mmap_num_pages s) index_top pages in
    let s := set_used s (u64 (used_pages s - occupied)) in
    let s := set_bitmap s (bitmap_clear (mmap_bitmap s) index_top pages) in
    (unlock_mmap s, 0).

(** ** mremap *)

Definition enclave_mremap (s : mman) (old_addr old_length new_addr new_length mremap_fixed : Z)
  : mman * Z :=
  if truthy mremap_fixed then (s, u64 (- EINVAL))
  else
    let '(s, ret) := enclave_mmap s new_addr new_length 0 (-1) 0 in
    if 0 <=? s64 ret then
      let n := if new_length <? old_length then new_length else old_length in
      let s := set_mem s (memcpy (mem s) ret old_addr n) in
      (fst (enclave_munmap s old_addr old_length), ret)
    else (s, ret).

(** ** The searches count and find what they say *)

Section Searches.
Variables (map : words) (size : Z).
Hypothesis map_wf : wf_words map.
Hypothesis size_small : 0 <= size < 2 ^ 31 - 128.

Lemma count_loop_spec fuel lo stop bit retval :
0 <= lo -> lo <= stop <= size -> first_hit (bit_at map) lo size bit -> stop - lo < Z.of_nat fuel ->
0 <= retval -> retval + (stop - lo) < 2 ^ 32 ->
count_loop fuel map size stop bit retval = retval + count (bit_at map) lo stop.
Proof.
revert lo bit retval. induction fuel as [|fuel IH]; intros lo bit retval Hlo Hstop Hfh Hfuel Hr Hmax;
  [lia|]. destruct Hfh as [Hl Hu Hskip Hhit]. simpl. destruct (Z.ltb_spec bit stop) as [Hlt|Hge].
- cint. rewrite (IH (bit + 1)); try lia.
  + rewrite (count_split _ lo bit stop), (count_step _ bit stop) by lia.
    rewrite (count_const _ false lo bit) by (try lia; intros; apply Hskip; lia).
    rewrite Hhit by lia. lia.
  + pose proof (find_next_bit_spec map size (bit + 1) map_wf ltac:(lia) ltac:(lia)) as Hn.
    pose proof (fh_lower _ _ _ _ Hn). pose proof (fh_upper _ _ _ _ Hn).
    rewrite u32_small by (powers; lia). exact Hn.
- rewrite (count_const _ false lo stop) by (try lia; intros; apply Hskip; lia). lia.
Qed.

Lemma bitmap_count_set_bits_spec start nr :
0 <= start -> 0 <= nr -> start + nr <= size ->
bitmap_count_set_bits map size start nr = count (bit_at map) start (start + nr).
Proof.
intros Hs Hn Hle. unfold bitmap_count_set_bits. cint.
pose proof (find_next_bit_spec map size start map_wf ltac:(lia) ltac:(lia)) as Hf.
pose proof (fh_lower _ _ _ _ Hf). pose proof (fh_upper _ _ _ _ Hf).
rewrite u32_small by (powers; lia).
rewrite (count_loop_spec _ start) by (try assumption; powers; lia). lia.
Qed.

(** [nr] consecutive clear bits starting at [lo]. *)
Definition free_run (nr lo : Z) : Prop :=
forall j, lo <= j < lo + nr -> bit_at map j = false.

(** The result of the area search: a free run within the bitmap, the first one
  from [start] on, or a value that signals that there is none. *)
Record area_result (start nr r : Z) : Prop := {
ar_lower : start <= r;
ar_upper : r < size + nr + 64;
ar_found : r + nr <= size -> free_run nr r;
ar_first : forall lo, start <= lo < r -> lo + nr <= size -> ~ free_run nr lo
}.

Lemma zero_area_loop_spec fuel start nr :
0 <= start <= size -> 0 < nr < 2 ^ 60 -> size - start <= Z.of_nat fuel ->
area_result start nr (zero_area_loop fuel map size start nr).
Proof.
revert start. induction fuel as [|fuel IH]; intros start Hs Hn Hfuel; cbn [zero_area_loop];
  pose proof (find_next_zero_bit_spec map size start map_wf ltac:(lia) ltac:(lia)) as [Hl Hu Hskip Hhit];
  set (index := find_next_zero_bit map size start) in *;
  (assert (forall lo, start <= lo < index -> lo + nr <= size -> ~ free_run nr lo) as Hbefore;
    [intros lo Hlo Hfit Hrun; pose proof (Hskip lo ltac:(lia) ltac:(lia)) as Hb;
     rewrite (Hrun lo ltac:(lia)) in Hb; discriminate|]);
  rewrite (u64_small (index + nr)) by (powers; lia).
- destruct (Z.ltb_spec size (index + nr)); [|lia]. constructor; [lia|lia|intros; exfalso; lia|lia].
- destruct (Z.ltb_spec size (index + nr)) as [Hover|Hfit].
  + constructor; [lia|lia|intros; exfalso; lia|].
    intros lo Hlo Hle. destruct (Z.lt_ge_cases lo index); [apply Hbefore; lia|lia].
  + pose proof (find_next_bit_spec map (index + nr) index map_wf ltac:(lia) ltac:(lia))
      as [Hl' Hu' Hskip' Hhit'].
    set (i := find_next_bit map (index + nr) index) in *.
    destruct (Z.ltb_spec i (index + nr)) as [Hi|Hi].
    * destruct (IH (i + 1) ltac:(lia) Hn ltac:(lia)) as [Al Au Af An]. constructor; try lia; auto.
      intros lo Hlo Hle. destruct (Z.lt_ge_cases lo index); [apply Hbefore; lia|].
      destruct (Z.lt_ge_cases lo (i + 1)); [|apply An; lia].
      intros Hrun. rewrite (Hrun i ltac:(lia)) in Hhit'. discriminate (Hhit' Hi).
    * constructor; try lia; auto. intros _ j Hj. apply Hskip'; lia.
Qed.

Lemma bitmap_find_next_zero_area_spec nr :
0 < nr < 2 ^ 60 -> area_result 0 nr (bitmap_find_next_zero_area map size 0 nr).
Proof. intros. apply zero_area_loop_spec; lia. Qed.
End Searches.

(** ** The state invariant *)

Record mman_ok (s : mman) : Prop := {
  ok_bitmap : wf_words (mmap_bitmap s);
  ok_fresh : wf_words (mmap_fresh_bitmap s);
  ok_num : 2 <= mmap_num_pages s < 2 ^ 31 - 128;
  ok_aligned : mmap_base s mod PAGE_SIZE = 0;
  ok_base : 3 * PAGE_SIZE <= mmap_base s;
  ok_end : mmap_end s = mmap_base s + (mmap_num_pages s - 2) * PAGE_SIZE;
  ok_top : mmap_end s + 2 * PAGE_SIZE < 2 ^ 63
}.

(** The variables [mmap] and [munmap] never assign. *)
Record same_layout (s s' : mman) : Prop := {
  sl_base : mmap_base s' = mmap_base s;
  sl_end : mmap_end s' = mmap_end s;
  sl_num : mmap_num_pages s' = mmap_num_pages s;
  sl_files : mmap_files s' = mmap_files s;
  sl_trace : sgxlkl_trace_mmap s' = sgxlkl_trace_mmap s;
  sl_baddr : mmap_bitmap_addr s' = mmap_bitmap_addr s;
  sl_faddr : mmap_fresh_bitmap_addr s' = mmap_fresh_bitmap_addr s
}.

Lemma same_layout_ok s s' :
  mman_ok s -> same_layout s s' -> wf_words (mmap_bitmap s') -> wf_words (mmap_fresh_bitmap s') ->
  mman_ok s'.
Proof. intros [] [] ? ?. constructor; try assumption; congruence. Qed.

(** The address of page [i]: page 0 is the one at [mmap_end]. *)
Definition page_addr (s : mman) (i : Z) : Z := mmap_end s - i * PAGE_SIZE.

(** A request that does not wrap around the address space. *)
Record request_ok (addr length : Z) : Prop := {
  rq_aligned : addr mod PAGE_SIZE = 0;
  rq_addr : 0 <= addr;
  rq_length : 0 < length;
  rq_nowrap : addr + length + PAGE_SIZE < 2 ^ 64
}.

Lemma pages_bounds addr length :
  request_ok addr length ->
  let pages := DIV_ROUNDUP length PAGE_SIZE in
  (pages - 1) * PAGE_SIZE < length <= pages * PAGE_SIZE /\ 0 < pages < 2 ^ 53.
Proof.
  intros [_ Ha Hl Hw]. unfold DIV_ROUNDUP, PAGE_SIZE in *. cint. powers.
  pose proof (Z_div_mod_eq_full (length + (4096 - 1)) 4096).
  pose proof (Z.mod_pos_bound (length + (4096 - 1)) 4096 ltac:(lia)). cbn zeta. lia.
Qed.

Section Layout.
Variable s : mman.
Hypothesis ok : mman_ok s.

Lemma index_to_addr_spec i :
0 <= i < mmap_num_pages s -> index_to_addr s i = page_addr s i.
Proof.
intros Hi. destruct ok as [_ _ Hn _ Hb He Ht]. unfold index_to_addr, page_addr, PAGE_SIZE in *.
powers. rewrite (u64_small (i * 4096)) by (powers; lia). rewrite u64_small by (powers; lia).
reflexivity.
Qed.

Lemma page_addr_range i :
0 <= i < mmap_num_pages s -> mmap_base s - PAGE_SIZE <= page_addr s i <= mmap_end s.
Proof. intros Hi. pose proof (ok_end _ ok). unfold page_addr, PAGE_SIZE in *. nia. Qed.

(** An address accepted by [in_mmap_range] is a page of the bitmap, and the
  requested pages are all above index 0. *)
Lemma addr_to_index_spec addr length :
request_ok addr length -> in_mmap_range s addr length = true ->
let k := addr_to_index s addr in
addr = page_addr s k /\ DIV_ROUNDUP length PAGE_SIZE <= k <= mmap_num_pages s - 2.
Proof.
intros Hrq Hin. pose proof (pages_bounds _ _ Hrq) as [Hp Hp']. cbn zeta in *.
destruct Hrq as [Hal Ha Hl Hw]. destruct ok as [_ _ Hn Hba Hb He Ht].
unfold in_mmap_range in Hin. apply andb_true_iff in Hin as [Hlo%Z.leb_le Hhi%Z.leb_le].
rewrite u64_small in Hhi by (unfold PAGE_SIZE in *; powers; lia).
unfold addr_to_index, page_addr, PAGE_SIZE in *. rewrite u64_small by (powers; lia).
set (pages := DIV_ROUNDUP length 4096) in *.
apply Z.mod_divide in Hal as [q Hq]; [|lia]. apply Z.mod_divide in Hba as [q' Hq']; [|lia].
assert (mmap_end s - addr = (q' + mmap_num_pages s - 2 - q) * 4096) as Heq by lia.
rewrite Heq, Z.div_mul by lia. lia.
Qed.

Lemma success_ptr i : 0 <= i < mmap_num_pages s -> 0 <= s64 (page_addr s i).
Proof.
intros Hi. pose proof (page_addr_range i Hi). pose proof (ok_base _ ok). pose proof (ok_top _ ok).
unfold PAGE_SIZE in *. rewrite s64_small by (powers; lia). lia.
Qed.
End Layout.

Lemma failure_ptr e : 0 < e < 2 ^ 63 -> (0 <=? s64 (u64 (- e))) = false.
Proof. intros. rewrite s64_u64_small_neg by lia. apply Z.leb_gt. lia. Qed.

(** ** What [mmap_choose] can do *)

Definition no_free_run (s : mman) (pages : Z) : Prop :=
  forall lo, 0 <= lo -> lo + pages <= mmap_num_pages s -> ~ free_run (mmap_bitmap s) pages lo.

(** [fixed] requests replace whatever is mapped; the others get free pages, and
    fail only when there is no free run. *)
Inductive choice (s : mman) (pages : Z) (fixed : bool) : mman * Z * Z * Z -> Prop :=
| choice_fail top repl :
    (fixed = false -> no_free_run s pages) ->
    choice s pages fixed (s, u64 (- ENOMEM), top, repl)
| choice_ok top repl :
    0 <= top -> top + pages <= mmap_num_pages s ->
    (fixed = false -> free_run (mmap_bitmap s) pages top) ->
    repl = (if fixed && sgxlkl_trace_mmap s
            then count (bit_at (mmap_bitmap s)) top (top + pages) else 0) ->
    choice s pages fixed
      (set_bitmap s (bitmap_set (mmap_bitmap s) top pages), page_addr s (top + pages - 1), top, repl).

Section Choose.
Variables (s : mman) (addr length : Z).
Hypothesis ok : mman_ok s.
Hypothesis rq : request_ok addr length.
Let pages := DIV_ROUNDUP length PAGE_SIZE.

Lemma choose_search repl :
repl = 0 ->
choice s pages false
  (let index_top := bitmap_find_next_zero_area (mmap_bitmap s) (mmap_num_pages s) 0 pages in
   if mmap_num_pages s <? u64 (index_top + pages) then (s, u64 (- ENOMEM), index_top, repl)
   else (set_bitmap s (bitmap_set (mmap_bitmap s) index_top pages),
         index_to_addr s (u64 (index_top + (pages - 1))), index_top, repl)).
Proof.
intros ->. destruct (pages_bounds _ _ rq) as [_ Hp]. fold pages in Hp.
destruct (bitmap_find_next_zero_area_spec (mmap_bitmap s) (mmap_num_pages s)
  (ok_bitmap _ ok) ltac:(pose proof (ok_num _ ok); lia) pages ltac:(lia)) as [Al Au Af An].
pose proof (ok_num _ ok) as Hn. cbn zeta.
set (top := bitmap_find_next_zero_area _ _ _ _) in *.
rewrite (u64_small (top + pages)) by (powers; lia).
destruct (Z.ltb_spec (mmap_num_pages s) (top + pages)).
- apply choice_fail. intros _ lo Hlo Hfit. apply An; lia.
- rewrite u64_small by (powers; lia). rewrite index_to_addr_spec by (auto; lia).
  replace (top + (pages - 1)) with (top + pages - 1) by lia.
  apply choice_ok; auto; lia.
Qed.

(** The run of pages that an accepted address denotes. *)
Lemma addr_run :
in_mmap_range s addr length = true ->
let top := u64 (addr_to_index s addr - (pages - 1)) in
0 < top /\ top + pages <= mmap_num_pages s - 1 /\ addr = page_addr s (top + pages - 1) /\
(bitmap_count_set_bits (mmap_bitmap s) (mmap_num_pages s) top pages =
   count (bit_at (mmap_bitmap s)) top (top + pages)) /\ addr <> 0.
Proof.
intros Hin. destruct (addr_to_index_spec s ok _ _ rq Hin) as [Ha Hk]. fold pages in Hk.
destruct (pages_bounds _ _ rq) as [_ Hp]. fold pages in Hp. pose proof (ok_num _ ok) as Hn.
cbn zeta in *. set (k := addr_to_index s addr) in *.
rewrite u64_small by (powers; lia). repeat split; try lia.
- rewrite Ha. f_equal. lia.
- apply bitmap_count_set_bits_spec; [apply ok|lia..].
- pose proof (page_addr_range s ok k ltac:(lia)). pose proof (ok_base _ ok).
  unfold PAGE_SIZE in *. lia.
Qed.

Lemma mmap_choose_fixed : choice s pages true (mmap_choose s addr length 1 pages).
Proof.
unfold mmap_choose. cbn [truthy Z.eqb negb].
destruct (in_mmap_range s addr length) eqn:Hin; cbn [negb].
- destruct (addr_run Hin) as (Ht & Hf & Ha & Hc & Hnz). cbn zeta in *.
  set (top := u64 (addr_to_index s addr - (pages - 1))) in *.
  rewrite (proj2 (Z.eqb_neq _ _) Hnz). rewrite Hc, Ha at 1.
  apply choice_ok; [lia|lia|discriminate|]. destruct (sgxlkl_trace_mmap s); reflexivity.
- assert ((u64 (- ENOMEM) =? 0) = false) as -> by reflexivity.
  apply choice_fail. discriminate.
Qed.

Lemma mmap_choose_free : choice s pages false (mmap_choose s addr length 0 pages).
Proof.
unfold mmap_choose. cbn [truthy Z.eqb negb].
destruct (negb (addr =? 0) && in_mmap_range s addr length) eqn:Hh.
- apply andb_true_iff in Hh as [_ Hin].
  destruct (addr_run Hin) as (Ht & Hf & Ha & Hc & Hnz). cbn zeta in *.
  set (top := u64 (addr_to_index s addr - (pages - 1))) in *. rewrite Hc.
  destruct (Z.eqb_spec (count (bit_at (mmap_bitmap s)) top (top + pages)) 0) as [H0|H0].
  + rewrite (proj2 (Z.eqb_neq _ _) Hnz). rewrite Ha at 1.
    apply choice_ok; [lia|lia| |reflexivity].
    intros _ j Hj. apply (count_zero _ _ _ _ H0). lia.
  + cbn [Z.eqb]. apply choose_search. reflexivity.
- cbn [Z.eqb]. apply choose_search. reflexivity.
Qed.
End Choose.

Lemma mmap_choose_spec s addr length fixed :
  mman_ok s -> request_ok addr length ->
  choice s (DIV_ROUNDUP length PAGE_SIZE) (truthy fixed)
    (mmap_choose s addr length fixed (DIV_ROUNDUP length PAGE_SIZE)).
Proof.
  intros ok rq.
  assert (mmap_choose s addr length fixed (DIV_ROUNDUP length PAGE_SIZE) =
          mmap_choose s addr length (int_of_bool (truthy fixed)) (DIV_ROUNDUP length PAGE_SIZE)) as ->.
  { unfold mmap_choose. destruct (truthy fixed); reflexivity. }
  destruct (truthy fixed); [apply mmap_choose_fixed|apply mmap_choose_free]; assumption.
Qed.

(** ** Frames of the parts that run after the lock is released *)

Lemma mmap_prepare_frame s ret length pages prot zero fresh :
  exists log,
    mmap_prepare s ret length pages prot zero fresh =
      mk_mman (mmaplock s) (mmap_bitmap s) (mmap_fresh_bitmap s) (mmap_bitmap_addr s)
        (mmap_fresh_bitmap_addr s) (mmap_base s) (mmap_end s) (mmap_num_pages s) (mmap_files s)
        (used_pages s) (sgxlkl_trace_mmap s) (mmap_max_allocated s)
        (if zero && negb fresh then memset0 (mem s) ret (u64 (pages * PAGE_SIZE)) else mem s) log.
Proof.
  unfold mmap_prepare. destruct s, zero, fresh, (prot =? -1), (Z.lor prot PROT_WRITE =? prot);
    eexists; cbn; reflexivity.
Qed.

Lemma mmap_trace_frame s :
  exists m, mmap_trace s =
      mk_mman (mmaplock s) (mmap_bitmap s) (mmap_fresh_bitmap s) (mmap_bitmap_addr s)
        (mmap_fresh_bitmap_addr s) (mmap_base s) (mmap_end s) (mmap_num_pages s) (mmap_files s)
        (used_pages s) (sgxlkl_trace_mmap s) m (mem s) (host_mprotect s).
Proof.
  unfold mmap_trace. destruct s as [? ? ? ? ? ? ? ? ? ? [] ? ? ?]; cbn; [|eexists; reflexivity].
  match goal with |- context [?a <? ?b] => destruct (a <? b) end; eexists; reflexivity.
Qed.

(** ** mmap as a whole *)

(** A failed request changes nothing but the lock's counters and the statistics. *)
Record mmap_failed (s s' : mman) : Prop := {
  mf_layout : same_layout s s';
  mf_bitmap : mmap_bitmap s' = mmap_bitmap s;
  mf_fresh : mmap_fresh_bitmap s' = mmap_fresh_bitmap s;
  mf_used : used_pages s' = used_pages s;
  mf_mem : mem s' = mem s;
  mf_lock : mmaplock s' = ticket_unlock (snd (take_ticket (mmaplock s)))
}.

(** A successful request maps the pages [top, top + pages), whose lowest address
    is the result. *)
Record mmap_done (s s' : mman) (ret top pages repl : Z) (zero : bool) : Prop := {
  md_layout : same_layout s s';
  md_top : 0 <= top;
  md_pages : 0 < pages;
  md_fit : top + pages <= mmap_num_pages s;
  md_ret : ret = page_addr s (top + pages - 1);
  md_bitmap : mmap_bitmap s' = bitmap_set (mmap_bitmap s) top pages;
  md_fresh : mmap_fresh_bitmap s' = bitmap_clear (mmap_fresh_bitmap s) top pages;
  md_used : used_pages s' = u64 (used_pages s + (pages - repl));
  md_mem : mem s' =
    if zero && negb (count (bit_at (mmap_fresh_bitmap s)) top (top + pages) =? pages)
    then memset0 (mem s) ret (pages * PAGE_SIZE) else mem s;
  md_lock : mmaplock s' = ticket_unlock (snd (take_ticket (mmaplock s)))
}.

Inductive mmap_outcome (s : mman) (pages : Z) (fixed zero : bool) : mman * Z -> Prop :=
| outcome_fail s' :
    mmap_failed s s' -> (fixed = false -> no_free_run s pages) ->
    mmap_outcome s pages fixed zero (s', u64 (- ENOMEM))
| outcome_ok s' ret top repl :
    mmap_done s s' ret top pages repl zero ->
    (fixed = false -> free_run (mmap_bitmap s) pages top) ->
    repl = (if fixed && sgxlkl_trace_mmap s
            then count (bit_at (mmap_bitmap s)) top (top + pages) else 0) ->
    mmap_outcome s pages fixed zero (s', ret).

Lemma enclave_mmap_outcome s addr length fixed prot zero :
  mman_ok s -> request_ok addr length ->
  mmap_outcome s (DIV_ROUNDUP length PAGE_SIZE) (truthy fixed) (truthy zero)
    (enclave_mmap s addr length fixed prot zero).
Proof.
  intros ok rq. destruct (pages_bounds _ _ rq) as [Hlen Hp]. pose proof (ok_num _ ok) as Hn.
  unfold enclave_mmap. rewrite (rq_aligned _ _ rq).
  destruct (Z.eqb_spec length 0); [pose proof (rq_length _ _ rq); lia|]. cbn [Z.eqb negb orb].
  set (pages := DIV_ROUNDUP length PAGE_SIZE) in *.
  assert (mman_ok (lock_mmap s)) as ok' by (destruct s, ok; constructor; assumption).
  pose proof (mmap_choose_spec (lock_mmap s) addr length fixed ok' rq) as Hc. fold pages in Hc.
  destruct Hc as [top repl Hno|top repl Ht Hf Hfree Hr]; cbv beta iota zeta.
  - rewrite failure_ptr by (unfold ENOMEM; lia).
    destruct (mmap_trace_frame (unlock_mmap (lock_mmap s))) as [m ->].
    apply outcome_fail; [|exact Hno]. destruct s; constructor; try constructor; reflexivity.
  - rewrite (proj2 (Z.leb_le _ _) (success_ptr _ ok' (top + pages - 1) ltac:(lia))).
    cbn [mmap_fresh_bitmap mmap_num_pages set_bitmap lock_mmap set_lock].
    rewrite bitmap_count_set_bits_spec by (first [apply ok | cbn in *; lia]).
    set (onlyf := truthy zero && _).
    match goal with |- context [mmap_prepare ?a ?b ?c ?d ?e ?f ?g] =>
      destruct (mmap_prepare_frame a b c d e f g) as [log ->] end.
    match goal with |- context [mmap_trace ?a] => destruct (mmap_trace_frame a) as [m ->] end.
    rewrite (u64_small (pages * PAGE_SIZE))
      by (destruct rq; unfold PAGE_SIZE in *; powers; lia).
    apply (outcome_ok _ _ _ _ _ _ top repl); [|exact Hfree|exact Hr].
    destruct s; constructor; cbn in *; try reflexivity; try lia.
    + constructor; reflexivity.
    + subst onlyf. destruct (truthy zero); reflexivity.
Qed.

(** ** munmap as a whole *)

Record munmap_done (s s' : mman) (addr top pages : Z) : Prop := {
  ud_layout : same_layout s s';
  ud_top : 0 < top;
  ud_pages : 0 < pages;
  ud_fit : top + pages <= mmap_num_pages s - 1;
  ud_addr : addr = page_addr s (top + pages - 1);
  ud_bitmap : mmap_bitmap s' = bitmap_clear (mmap_bitmap s) top pages;
  ud_fresh : mmap_fresh_bitmap s' = mmap_fresh_bitmap s;
  ud_used : used_pages s' = u64 (used_pages s - count (bit_at (mmap_bitmap s)) top (top + pages));
  ud_mem : mem s' = mem s;
  ud_lock : mmaplock s' = ticket_unlock (snd (take_ticket (mmaplock s)))
}.

Inductive munmap_outcome (s : mman) (addr pages : Z) (in_range : bool) : mman * Z -> Prop :=
| munmap_refused : in_range = false -> munmap_outcome s addr pages in_range (s, - EINVAL)
| munmap_ok s' top :
    in_range = true -> munmap_done s s' addr top pages ->
    munmap_outcome s addr pages in_range (s', 0).

Lemma enclave_munmap_outcome s addr length :
  mman_ok s -> request_ok addr length ->
  munmap_outcome s addr (DIV_ROUNDUP length PAGE_SIZE) (in_mmap_range s addr length)
    (enclave_munmap s addr length).
Proof.
  intros ok rq. unfold enclave_munmap. rewrite (rq_aligned _ _ rq).
  destruct (Z.eqb_spec length 0); [pose proof (rq_length _ _ rq); lia|]. cbn [Z.eqb negb orb].
  destruct (in_mmap_range s addr length) eqn:Hin; cbn [negb]; [|constructor; reflexivity].
  destruct (addr_run s addr length ok rq Hin) as (Ht & Hf & Ha & Hc & _).
  destruct (pages_bounds _ _ rq) as [_ Hp]. cbn zeta in *.
  set (pages := DIV_ROUNDUP length PAGE_SIZE) in *.
  set (top := u64 (addr_to_index s addr - (pages - 1))) in *.
  apply (munmap_ok _ _ _ _ _ top); [reflexivity|].
  destruct s; constructor; cbn in *;
    first [reflexivity | lia | exact Ha | rewrite Hc; reflexivity | constructor; reflexivity].
Qed.

(** ** Effects on single pages and on the page count *)

Section PageEffects.
Variables (s : mman) (top pages : Z).
Hypothesis ok : mman_ok s.
Hypothesis Htop : 0 <= top.
Hypothesis Hpages : 0 < pages.
Hypothesis Hfit : top + pages <= mmap_num_pages s.

Lemma page_set b i :
bit_at (bitmap_set b top pages) i = in_run top pages i || bit_at b i.
Proof. pose proof (ok_num _ ok). apply bit_at_bitmap_set; lia. Qed.

Lemma page_clear b i :
bit_at (bitmap_clear b top pages) i = negb (in_run top pages i) && bit_at b i.
Proof. pose proof (ok_num _ ok). apply bit_at_bitmap_clear; lia. Qed.

Lemma in_run_true i : in_run top pages i = true <-> top <= i < top + pages.
Proof. unfold in_run. rewrite andb_true_iff, Z.leb_le, Z.ltb_lt. reflexivity. Qed.

Lemma in_run_false i : in_run top pages i = false <-> ~ (top <= i < top + pages).
Proof. rewrite <- in_run_true. destruct (in_run top pages i); intuition congruence. Qed.

(** Setting (clearing) the run moves the count of the run to [pages] (to 0). *)
Lemma count_run b b' v :
(forall i, bit_at b' i = if in_run top pages i then v else bit_at b i) ->
count (bit_at b') 0 (mmap_num_pages s) =
  count (bit_at b) 0 (mmap_num_pages s) - count (bit_at b) top (top + pages)
  + (if v then pages else 0).
Proof.
intros Hb.
assert (forall i, ~ (top <= i < top + pages) -> bit_at b' i = bit_at b i) as Hout
  by (intros i Hi; rewrite Hb, (proj2 (in_run_false i) Hi); reflexivity).
rewrite !(count_split _ 0 top (mmap_num_pages s)) by lia.
rewrite !(count_split _ top (top + pages) (mmap_num_pages s)) by lia.
rewrite (count_ext (bit_at b') (bit_at b) 0 top) by (intros; apply Hout; lia).
rewrite (count_ext (bit_at b') (bit_at b) (top + pages)) by (intros; apply Hout; lia).
rewrite (count_const (bit_at b') v top (top + pages)); [destruct v; lia|lia|].
intros i Hi. rewrite Hb, (proj2 (in_run_true i) Hi). reflexivity.
Qed.

Lemma count_set b :
count (bit_at (bitmap_set b top pages)) 0 (mmap_num_pages s) =
  count (bit_at b) 0 (mmap_num_pages s) - count (bit_at b) top (top + pages) + pages.
Proof.
apply (count_run _ _ true). intros i. rewrite page_set. destruct (in_run top pages i); reflexivity.
Qed.

Lemma count_clear b :
count (bit_at (bitmap_clear b top pages)) 0 (mmap_num_pages s) =
  count (bit_at b) 0 (mmap_num_pages s) - count (bit_at b) top (top + pages).
Proof.
rewrite (count_run b _ false); [lia|].
intros i. rewrite page_clear. destruct (in_run top pages i); reflexivity.
Qed.

(** The bytes of the pages of a run are one contiguous block. *)
Lemma run_bytes a :
page_addr s (top + pages - 1) <= a < page_addr s (top + pages - 1) + pages * PAGE_SIZE <->
exists i, top <= i < top + pages /\ page_addr s i <= a < page_addr s i + PAGE_SIZE.
Proof.
unfold page_addr, PAGE_SIZE. split.
- intros Ha. exists (- ((a - mmap_end s) / 4096)).
  pose proof (Z_div_mod_eq_full (a - mmap_end s) 4096).
  pose proof (Z.mod_pos_bound (a - mmap_end s) 4096 ltac:(lia)). lia.
- intros (i & Hi & Ha). lia.
Qed.
End PageEffects.

Lemma page_unique s i j a :
  page_addr s i <= a < page_addr s i + PAGE_SIZE ->
  page_addr s j <= a < page_addr s j + PAGE_SIZE -> i = j.
Proof. unfold page_addr, PAGE_SIZE. lia. Qed.
