(* ===== verification/EnclaveHeap.v ===== *)
(** * The enclave heap under sequences of requests

    Invariants of the memory manager of [EnclaveMem] over every sequence of
    [mmap], [munmap], [mremap] and application writes from
    [enclave_mman_init] on, and the properties an application relies on: fresh
    and disjoint mappings, zeroed pages, exact accounting, round trips.  The
    last section states what the code does at its edges: the topmost and the
    lowest page and requests whose length wraps around. *)

From S2P Require Import Prelude Bitops TicketLock EnclaveMem.

(** ** The heap invariant *)

(** The bytes of page [i]. *)
Definition in_page (s : mman) (i a : Z) : Prop :=
  page_addr s i <= a < page_addr s i + PAGE_SIZE.

Definition allocated (s : mman) : Z -> bool := bit_at (mmap_bitmap s).
Definition fresh (s : mman) : Z -> bool := bit_at (mmap_fresh_bitmap s).

(** Index [mmap_num_pages - 1] is the page below [mmap_base]: the last page of the
    fresh bitmap itself.  The model keeps the bitmaps apart from the bytes of the
    heap, so it describes the code as long as this page is not handed out; it is
    left out of the statements about bytes. *)
Definition bitmap_page_free (s : mman) : Prop := allocated s (mmap_num_pages s - 1) = false.

Record heap_inv (s : mman) : Prop := {
  hi_ok : mman_ok s;
  hi_zero : forall i a, 0 <= i < mmap_num_pages s - 1 -> fresh s i = true -> in_page s i a ->
    mem s a = 0;
  hi_alloc : forall i, 0 <= i < mmap_num_pages s -> allocated s i = true -> fresh s i = false
}.

(** The page counter agrees with the allocation bitmap. *)
Definition accounted (s : mman) : Prop :=
  used_pages s = count (allocated s) 0 (mmap_num_pages s).

Lemma in_page_layout s s' i a : same_layout s s' -> in_page s' i a <-> in_page s i a.
Proof. intros [_ He _ _ _ _ _]. unfold in_page, page_addr. rewrite He. reflexivity. Qed.

Lemma mmap_done_ok s s' ret top pages repl zero :
  mman_ok s -> mmap_done s s' ret top pages repl zero -> mman_ok s'.
Proof.
  intros ok D. apply (same_layout_ok s); [exact ok|apply D| |].
  - rewrite (md_bitmap _ _ _ _ _ _ _ D). apply bitmap_set_wf, ok.
  - rewrite (md_fresh _ _ _ _ _ _ _ D). apply bitmap_clear_wf, ok.
Qed.

Lemma done_success s s' ret top pages repl zero :
  mman_ok s -> mmap_done s s' ret top pages repl zero -> (0 <=? s64 ret) = true.
Proof.
  intros ok D. rewrite (md_ret _ _ _ _ _ _ _ D). apply Z.leb_le, success_ptr; [exact ok|].
  pose proof (md_top _ _ _ _ _ _ _ D). pose proof (md_fit _ _ _ _ _ _ _ D).
  pose proof (md_pages _ _ _ _ _ _ _ D). lia.
Qed.

Section MmapDone.
Variables (s s' : mman) (ret top pages repl : Z) (zero : bool).
Hypothesis ok : mman_ok s.
Hypothesis D : mmap_done s s' ret top pages repl zero.

Lemma done_allocated i : allocated s' i = in_run top pages i || allocated s i.
Proof. unfold allocated. rewrite (md_bitmap _ _ _ _ _ _ _ D). eapply page_set; eauto; apply D. Qed.

Lemma done_fresh i : fresh s' i = negb (in_run top pages i) && fresh s i.
Proof. unfold fresh. rewrite (md_fresh _ _ _ _ _ _ _ D). eapply page_clear; eauto; apply D. Qed.

(** The pages outside the run keep their bytes. *)
Lemma done_mem_outside i a :
0 <= i < mmap_num_pages s -> in_page s i a -> in_run top pages i = false -> mem s' a = mem s a.
Proof.
intros Hi Ha Hout%in_run_false. rewrite (md_mem _ _ _ _ _ _ _ D).
destruct (_ && _); [|reflexivity]. unfold memset0.
destruct ((ret <=? a) && (a <? ret + pages * PAGE_SIZE)) eqn:Hin; [|reflexivity].
apply andb_true_iff in Hin as [H1%Z.leb_le H2%Z.ltb_lt]. rewrite (md_ret _ _ _ _ _ _ _ D) in H1, H2.
destruct (proj1 (run_bytes s top pages a) (conj H1 H2)) as (j & Hj & Hja).
rewrite (page_unique s i j a Ha Hja) in Hout. contradiction.
Qed.

Lemma done_inv : heap_inv s -> heap_inv s'.
Proof.
intros [_ Hz Ha]. pose proof (md_layout _ _ _ _ _ _ _ D) as L. constructor.
- exact (mmap_done_ok _ _ _ _ _ _ _ ok D).
- intros i a Hi Hf Hp. rewrite (sl_num _ _ L) in Hi. apply (in_page_layout _ _ _ _ L) in Hp.
  rewrite done_fresh in Hf. apply andb_true_iff in Hf as [Hr%negb_true_iff Hf].
  rewrite (done_mem_outside i) by (assumption || lia). eauto.
- intros i Hi Hal. rewrite (sl_num _ _ L) in Hi. rewrite done_allocated in Hal. rewrite done_fresh.
  destruct (in_run top pages i); [reflexivity|]. cbn in *. auto.
Qed.

Lemma done_zeroed a :
heap_inv s -> zero = true -> mmap_base s <= a -> ret <= a < ret + pages * PAGE_SIZE ->
mem s' a = 0.
Proof.
intros [_ Hz _] -> Hb Ha. rewrite (md_mem _ _ _ _ _ _ _ D). cbn [andb].
destruct (Z.eqb_spec (count (bit_at (mmap_fresh_bitmap s)) top (top + pages)) pages) as [Hall|]; cbn [negb].
- rewrite (md_ret _ _ _ _ _ _ _ D) in Ha. apply run_bytes in Ha as (i & Hi & Hia).
  pose proof (md_top _ _ _ _ _ _ _ D). pose proof (md_fit _ _ _ _ _ _ _ D).
  assert (i < mmap_num_pages s - 1) by
    (pose proof (ok_end _ ok); unfold in_page, page_addr, PAGE_SIZE in *; lia).
  apply (Hz i); [lia| |exact Hia]. apply (count_full (bit_at (mmap_fresh_bitmap s)) top (top + pages)); [lia|exact Hi].
- unfold memset0. bcase; cbn [andb]; try lia; reflexivity.
Qed.

Lemma done_accounted :
accounted s -> repl = count (allocated s) top (top + pages) -> accounted s'.
Proof.
intros Hacc Hr. unfold accounted in *. pose proof (ok_num _ ok).
pose proof (md_top _ _ _ _ _ _ _ D). pose proof (md_fit _ _ _ _ _ _ _ D).
pose proof (md_pages _ _ _ _ _ _ _ D). pose proof (md_layout _ _ _ _ _ _ _ D) as L.
rewrite (md_used _ _ _ _ _ _ _ D), (sl_num _ _ L). unfold allocated.
rewrite (md_bitmap _ _ _ _ _ _ _ D), count_set by (try exact ok; lia).
pose proof (count_range (allocated s) 0 (mmap_num_pages s) ltac:(lia)).
pose proof (count_split (allocated s) 0 top (mmap_num_pages s) ltac:(lia)).
pose proof (count_split (allocated s) top (top + pages) (mmap_num_pages s) ltac:(lia)).
pose proof (count_range (allocated s) 0 top ltac:(lia)).
pose proof (count_range (allocated s) top (top + pages) ltac:(lia)).
pose proof (count_range (allocated s) (top + pages) (mmap_num_pages s) ltac:(lia)).
unfold allocated in *. rewrite u64_small by (powers; lia). lia.
Qed.
End MmapDone.

Section MunmapDone.
Variables (s s' : mman) (addr top pages : Z).
Hypothesis ok : mman_ok s.
Hypothesis D : munmap_done s s' addr top pages.

Lemma undone_ok : mman_ok s'.
Proof.
apply (same_layout_ok s); [exact ok|apply D| |].
- rewrite (ud_bitmap _ _ _ _ _ D). apply bitmap_clear_wf, ok.
- rewrite (ud_fresh _ _ _ _ _ D). apply ok.
Qed.

Lemma undone_allocated i : allocated s' i = negb (in_run top pages i) && allocated s i.
Proof.
unfold allocated. rewrite (ud_bitmap _ _ _ _ _ D).
pose proof (ud_top _ _ _ _ _ D). pose proof (ud_fit _ _ _ _ _ D).
eapply page_clear; eauto; try apply D; lia.
Qed.

Lemma undone_inv : heap_inv s -> heap_inv s'.
Proof.
intros [_ Hz Ha]. pose proof (ud_layout _ _ _ _ _ D) as L. constructor.
- exact undone_ok.
- intros i a Hi Hf Hp. rewrite (sl_num _ _ L) in Hi. apply (in_page_layout _ _ _ _ L) in Hp.
  unfold fresh in Hf. rewrite (ud_fresh _ _ _ _ _ D) in Hf. rewrite (ud_mem _ _ _ _ _ D). eauto.
- intros i Hi Hal. rewrite (sl_num _ _ L) in Hi. rewrite undone_allocated in Hal.
  unfold fresh. rewrite (ud_fresh _ _ _ _ _ D). apply andb_true_iff in Hal as [_ Hal]. apply Ha; auto.
Qed.

Lemma undone_accounted : accounted s -> accounted s'.
Proof.
intros Hacc. unfold accounted in *. pose proof (ok_num _ ok).
pose proof (ud_top _ _ _ _ _ D). pose proof (ud_fit _ _ _ _ _ D).
pose proof (ud_pages _ _ _ _ _ D). pose proof (ud_layout _ _ _ _ _ D) as L.
rewrite (ud_used _ _ _ _ _ D), (sl_num _ _ L). unfold allocated.
rewrite (ud_bitmap _ _ _ _ _ D), count_clear by (try exact ok; lia).
pose proof (count_range (allocated s) 0 (mmap_num_pages s) ltac:(lia)).
pose proof (count_split (allocated s) 0 top (mmap_num_pages s) ltac:(lia)).
pose proof (count_split (allocated s) top (top + pages) (mmap_num_pages s) ltac:(lia)).
pose proof (count_range (allocated s) 0 top ltac:(lia)).
pose proof (count_range (allocated s) (top + pages) (mmap_num_pages s) ltac:(lia)).
unfold allocated in *. rewrite u64_small by (powers; lia). lia.
Qed.
End MunmapDone.

Lemma failed_ok s s' : mman_ok s -> mmap_failed s s' -> mman_ok s'.
Proof.
  intros ok F. apply (same_layout_ok s); [exact ok|apply F| |].
  - rewrite (mf_bitmap _ _ F). apply ok.
  - rewrite (mf_fresh _ _ F). apply ok.
Qed.

Lemma failed_inv s s' : heap_inv s -> mmap_failed s s' -> heap_inv s'.
Proof.
  intros [ok Hz Ha] F. pose proof (mf_layout _ _ F) as L. constructor.
  - exact (failed_ok _ _ ok F).
  - intros i a Hi Hf Hp. rewrite (sl_num _ _ L) in Hi. apply (in_page_layout _ _ _ _ L) in Hp.
    unfold fresh in Hf. rewrite (mf_fresh _ _ F) in Hf. rewrite (mf_mem _ _ F). eauto.
  - intros i Hi Hal. rewrite (sl_num _ _ L) in Hi. unfold allocated, fresh in *.
    rewrite (mf_bitmap _ _ F) in Hal. rewrite (mf_fresh _ _ F). auto.
Qed.

Lemma failed_accounted s s' : accounted s -> mmap_failed s s' -> accounted s'.
Proof.
  unfold accounted, allocated. intros Hacc F.
  rewrite (mf_used _ _ F), (mf_bitmap _ _ F), (sl_num _ _ (mf_layout _ _ F)). exact Hacc.
Qed.

Lemma mmap_inv s addr length fixed prot zero :
  heap_inv s -> request_ok addr length ->
  heap_inv (fst (enclave_mmap s addr length fixed prot zero)).
Proof.
  intros I rq. destruct (enclave_mmap_outcome s addr length fixed prot zero (hi_ok _ I) rq)
    as [s' F _|s' ret top repl D _ _]; cbn.
  - exact (failed_inv _ _ I F).
  - exact (done_inv _ _ _ _ _ _ _ (hi_ok _ I) D I).
Qed.

Lemma munmap_inv s addr length :
  heap_inv s -> request_ok addr length -> heap_inv (fst (enclave_munmap s addr length)).
Proof.
  intros I rq. destruct (enclave_munmap_outcome s addr length (hi_ok _ I) rq) as [_|s' top _ D]; cbn.
  - exact I.
  - exact (undone_inv _ _ _ _ _ (hi_ok _ I) D I).
Qed.

(** A store into mapped pages keeps the invariant. *)
Lemma set_mem_inv s m :
  heap_inv s ->
  (forall i a, 0 <= i < mmap_num_pages s -> in_page s i a -> allocated s i = false -> m a = mem s a) ->
  heap_inv (set_mem s m).
Proof.
  intros [ok Hz Ha] Hm. constructor.
  - destruct ok. constructor; assumption.
  - intros i a Hi Hf Hp. change (fresh s i = true) in Hf. change (m a = 0).
    change (0 <= i < mmap_num_pages s - 1) in Hi.
    rewrite (Hm i a ltac:(lia) Hp); [exact (Hz i a Hi Hf Hp)|].
    destruct (allocated s i) eqn:Hal; [|reflexivity].
    rewrite (Ha i ltac:(lia) Hal) in Hf. discriminate.
  - exact Ha.
Qed.

(** ** mremap *)

(** The copied bytes lie in the run that the inner [mmap] has just mapped. *)
Lemma memcpy_outside m dst src n a :
  ~ (dst <= a < dst + n) -> memcpy m dst src n a = m a.
Proof. intros H. unfold memcpy. bcase; cbn [andb]; try lia; reflexivity. Qed.

Lemma memcpy_inside m dst src n k :
  0 <= k < n -> memcpy m dst src n (dst + k) = m (src + k).
Proof. intros H. unfold memcpy. bcase; cbn [andb]; try lia. f_equal. lia. Qed.

Definition copy_len (old_length new_length : Z) : Z :=
  if new_length <? old_length then new_length else old_length.

Lemma mremap_copy_inv s s' ret top pages repl zero old n :
  heap_inv s -> mmap_done s s' ret top pages repl zero -> n <= pages * PAGE_SIZE ->
  heap_inv (set_mem s' (memcpy (mem s') ret old n)).
Proof.
  intros I D Hn. pose proof (done_inv _ _ _ _ _ _ _ (hi_ok _ I) D I) as I'.
  pose proof (md_layout _ _ _ _ _ _ _ D) as L.
  apply set_mem_inv; [exact I'|]. intros i a Hi Hp Hal.
  rewrite (sl_num _ _ L) in Hi. apply (in_page_layout _ _ _ _ L) in Hp.
  rewrite (done_allocated _ _ _ _ _ _ _ (hi_ok _ I) D) in Hal. apply orb_false_iff in Hal as [Hr _].
  apply memcpy_outside. intros Ha. apply in_run_false in Hr.
  rewrite (md_ret _ _ _ _ _ _ _ D) in Ha.
  destruct (proj1 (run_bytes s top pages a) ltac:(lia)) as (j & Hj & Hja).
  rewrite (page_unique s i j a Hp Hja) in Hr. contradiction.
Qed.

Lemma mremap_inv s old_addr old_length new_addr new_length fixed :
  heap_inv s -> request_ok old_addr old_length -> request_ok new_addr new_length ->
  heap_inv (fst (enclave_mremap s old_addr old_length new_addr new_length fixed)).
Proof.
  intros I rqo rqn. unfold enclave_mremap. destruct (truthy fixed); [exact I|].
  destruct (enclave_mmap_outcome s new_addr new_length 0 (-1) 0 (hi_ok _ I) rqn)
    as [s' F _|s' ret top repl D _ _]; cbv beta iota zeta.
  - rewrite failure_ptr by (unfold ENOMEM; lia). exact (failed_inv _ _ I F).
  - rewrite (done_success _ _ _ _ _ _ _ (hi_ok _ I) D). cbn [fst].
    apply munmap_inv; [|exact rqo]. apply (mremap_copy_inv s s' ret top _ repl _ _ _ I D).
    destruct (pages_bounds _ _ rqn) as [[_ Hl] _]. fold (copy_len old_length new_length).
    unfold copy_len. bcase; lia.
Qed.

(** ** Sequences of requests *)

(** One request of the application or of LKL, or a store into a mapped page. *)
Inductive heap_step : mman -> mman -> Prop :=
| hs_mmap s addr length fixed prot zero :
    request_ok addr length ->
    heap_step s (fst (enclave_mmap s addr length fixed prot zero))
| hs_munmap s addr length :
    request_ok addr length -> heap_step s (fst (enclave_munmap s addr length))
| hs_mremap s old_addr old_length new_addr new_length fixed :
    request_ok old_addr old_length -> request_ok new_addr new_length ->
    heap_step s (fst (enclave_mremap s old_addr old_length new_addr new_length fixed))
| hs_store s i a v :
    0 <= i < mmap_num_pages s -> allocated s i = true -> in_page s i a ->
    heap_step s (set_mem s (fun a' => if a' =? a then v else mem s a')).

(** Sequences of requests that never hand out the page of the fresh bitmap. *)
Definition heap_steps : mman -> mman -> Prop :=
  rtc (fun s s' => heap_step s s' /\ bitmap_page_free s').

Lemma heap_step_inv s s' : heap_inv s -> heap_step s s' -> heap_inv s'.
Proof.
  intros I H. revert I. destruct H as [ | | |s0 i a v Hi Hal Hp]; intros I.
  - apply mmap_inv; assumption.
  - apply munmap_inv; assumption.
  - apply mremap_inv; assumption.
  - apply set_mem_inv; [exact I|]. intros j a' Hj Hja Hfree.
    destruct (Z.eqb_spec a' a) as [->|]; [|reflexivity].
    rewrite (page_unique s0 i j a Hp Hja) in Hal. congruence.
Qed.

Lemma heap_steps_inv s s' : heap_inv s -> heap_steps s s' -> heap_inv s'.
Proof. intros I H. induction H as [|s s1 s2 [H1 _] _ IH]; eauto using heap_step_inv. Qed.

(** ** Initialisation *)

(** A heap range that [enclave_mman_init] is called with: page aligned, below
    2^63, large enough for the bitmaps and two pages, small enough for the
    [int] arguments of the bitmap operations. *)
Record init_ok (base num_pages : Z) : Prop := {
  in_aligned : base mod PAGE_SIZE = 0;
  in_base : 0 <= base;
  in_num : 8 <= num_pages < 2 ^ 31 - 128;
  in_top : base + (num_pages + 2) * PAGE_SIZE < 2 ^ 63
}.

Lemma req_pages_bounds num :
  7 <= num < 2 ^ 31 ->
  let req := DIV_ROUNDUP num (BITS_PER_BYTE * PAGE_SIZE) in 1 <= req /\ 2 * req <= num - 2.
Proof.
  intros Hn. unfold DIV_ROUNDUP, BITS_PER_BYTE, PAGE_SIZE. cint. cbn zeta.
  change (8 * 4096) with 32768. powers.
  pose proof (Z_div_mod_eq_full (num + (32768 - 1)) 32768).
  pose proof (Z.mod_pos_bound (num + (32768 - 1)) 32768 ltac:(lia)). lia.
Qed.

Lemma init_inv s base num files :
  init_ok base num -> wf_words (mmap_bitmap s) -> wf_words (mmap_fresh_bitmap s) ->
  (forall a, mem s a = 0) ->
  let s' := enclave_mman_init s base num files in
  heap_inv s' /\
  (forall i, 0 <= i < mmap_num_pages s' -> allocated s' i = false /\ fresh s' i = true) /\
  mmap_base s' <= mmap_end s' /\ used_pages s' = used_pages s.
Proof.
  intros [Hal Hb Hn Ht] Wb Wf Hz. unfold enclave_mman_init.
  set (bn := if base =? 0 then _ else _).
  assert (exists b k, bn = (b, k) /\ b mod PAGE_SIZE = 0 /\ PAGE_SIZE <= b /\ 7 <= k < 2 ^ 31 - 128 /\
    b + (k + 2) * PAGE_SIZE < 2 ^ 63) as (b & k & -> & Hba & Hbb & Hk & Hbt).
  { unfold bn, PAGE_SIZE in *. destruct (Z.eqb_spec base 0) as [->|Hnz].
    - exists 4096, (num - 1). rewrite !u64_small by (powers; lia). repeat split; powers; lia.
    - exists base, num. apply Z.mod_divide in Hal as [q Hq]; [|lia]. repeat split; [|powers; lia..].
      rewrite Hq. apply Z_mod_mult. }
  cbv beta iota zeta. destruct (req_pages_bounds k ltac:(lia)) as [Hr Hr2]. cbn zeta in *.
  set (req := DIV_ROUNDUP k _) in *. unfold PAGE_SIZE in *.
  rewrite (u64_small (k - 2 * req)) by (powers; lia).
  rewrite (u64_small (b + 2 * req * 4096)), (u64_small (k - 2 * req - 2)) by (powers; lia).
  rewrite (u64_small (b + 2 * req * 4096 + (k - 2 * req - 2) * 4096)) by (powers; lia).
  set (n := k - 2 * req) in *. cbn [mmap_num_pages mmap_base mmap_end used_pages].
  assert (forall i, 0 <= i < n -> in_run 0 n i = true) as Hrun
    by (intros i Hi; unfold in_run; bcase; cbn; lia || reflexivity).
  split; [|split; [|lia]].
  - constructor; cbn [mem mmap_num_pages].
    + constructor; cbn; auto using bitmap_clear_wf, bitmap_set_wf; unfold PAGE_SIZE; try (powers; lia).
      rewrite Z_mod_plus_full. exact Hba.
    + intros. apply Hz.
    + intros i Hi Hal'. unfold allocated in Hal'. cbn in Hal'.
      rewrite bit_at_bitmap_clear in Hal' by lia. rewrite Hrun in Hal' by lia. discriminate.
  - intros i Hi. unfold allocated, fresh. cbn.
    rewrite bit_at_bitmap_clear, bit_at_bitmap_set, !Hrun by lia. split; reflexivity.
Qed.

(** ** Accounting *)

(** Requests whose effect on the page counter is exact: [munmap], [mremap], and
    [mmap] unless it replaces mappings in a build that does not count them. *)
Inductive counted_step : mman -> mman -> Prop :=
| cs_mmap s addr length fixed prot zero :
    request_ok addr length -> truthy fixed = false \/ sgxlkl_trace_mmap s = true ->
    counted_step s (fst (enclave_mmap s addr length fixed prot zero))
| cs_munmap s addr length :
    request_ok addr length -> counted_step s (fst (enclave_munmap s addr length))
| cs_mremap s old_addr old_length new_addr new_length fixed :
    request_ok old_addr old_length -> request_ok new_addr new_length ->
    counted_step s (fst (enclave_mremap s old_addr old_length new_addr new_length fixed)).

Lemma free_run_count s pages top :
  0 < pages -> free_run (mmap_bitmap s) pages top -> count (allocated s) top (top + pages) = 0.
Proof. intros Hp Hfree. apply (count_const _ false); [lia|exact Hfree]. Qed.

Lemma mmap_accounted s addr length fixed prot zero :
  mman_ok s -> accounted s -> request_ok addr length ->
  truthy fixed = false \/ sgxlkl_trace_mmap s = true ->
  accounted (fst (enclave_mmap s addr length fixed prot zero)).
Proof.
  intros ok Hacc rq Hc. destruct (enclave_mmap_outcome s addr length fixed prot zero ok rq)
    as [s' F _|s' ret top repl D Hfree Hr]; cbn.
  - exact (failed_accounted _ _ Hacc F).
  - apply (done_accounted _ _ _ _ _ _ _ ok D Hacc). rewrite Hr.
    destruct (truthy fixed); cbn [andb].
    + destruct Hc as [? | ->]; [discriminate|reflexivity].
    + symmetry. apply free_run_count; [apply D|auto].
Qed.

Lemma munmap_accounted s addr length :
  mman_ok s -> accounted s -> request_ok addr length ->
  accounted (fst (enclave_munmap s addr length)).
Proof.
  intros ok Hacc rq. destruct (enclave_munmap_outcome s addr length ok rq) as [_|s' top _ D]; cbn.
  - exact Hacc.
  - exact (undone_accounted _ _ _ _ _ ok D Hacc).
Qed.

Lemma counted_step_accounted s s' :
  heap_inv s -> accounted s -> counted_step s s' -> heap_inv s' /\ accounted s'.
Proof.
  intros I Hacc H. revert I Hacc.
  destruct H as [s addr length fixed prot zero rq Hc|s addr length rq|s oa ol na nl fixed rqo rqn];
    intros I Hacc.
  - split; [apply mmap_inv; assumption|apply mmap_accounted; auto; apply I].
  - split; [apply munmap_inv; assumption|apply munmap_accounted; auto; apply I].
  - split; [apply mremap_inv; assumption|]. unfold enclave_mremap.
    destruct (truthy fixed); [exact Hacc|].
    pose proof (mmap_accounted s na nl 0 (-1) 0 (hi_ok _ I) Hacc rqn (or_introl eq_refl)) as Ha.
    pose proof (mmap_inv s na nl 0 (-1) 0 I rqn) as Hi.
    destruct (enclave_mmap s na nl 0 (-1) 0) as [s1 ret]. cbn in Ha, Hi.
    destruct (0 <=? s64 ret); [|exact Ha]. cbn [fst].
    apply munmap_accounted; [|exact Ha|exact rqo]. destruct (hi_ok _ Hi). constructor; assumption.
Qed.

(** ** The lock is released on every path *)

Definition lock_free (s : mman) : Prop := ticket (mmaplock s) = users (mmaplock s).

Lemma lock_unlock_free l : ticket l = users l ->
  ticket (ticket_unlock (snd (take_ticket l))) = users (ticket_unlock (snd (take_ticket l))).
Proof. intros H. cbn. rewrite H. reflexivity. Qed.

Lemma mmap_choose_lock s addr length fixed pages :
  mmaplock (fst (fst (fst (mmap_choose s addr length fixed pages)))) = mmaplock s.
Proof.
  unfold mmap_choose. repeat (cbv beta iota zeta; case_match; simplify_eq; try reflexivity).
Qed.

Lemma mmap_lock s addr length fixed prot zero :
  lock_free s -> lock_free (fst (enclave_mmap s addr length fixed prot zero)).
Proof.
  intros Hl. unfold enclave_mmap. destruct (_ || _); [exact Hl|].
  pose proof (mmap_choose_lock (lock_mmap s) addr length fixed (DIV_ROUNDUP length PAGE_SIZE)) as Hc.
  destruct (mmap_choose _ _ _ _ _) as [[[s1 ret] top] repl]. cbn [fst] in *.
  match goal with |- lock_free (mmap_trace ?a) => destruct (mmap_trace_frame a) as [m ->] end.
  destruct (0 <=? s64 ret).
  - match goal with |- context [mmap_prepare ?a ?b ?c ?d ?e ?f ?g] =>
      destruct (mmap_prepare_frame a b c d e f g) as [log ->] end.
    unfold lock_free. cbn [mmaplock set_used unlock_mmap set_lock set_fresh]. rewrite Hc.
    apply lock_unlock_free, Hl.
  - unfold lock_free. cbn [mmaplock unlock_mmap set_lock]. rewrite Hc. apply lock_unlock_free, Hl.
Qed.

Lemma munmap_lock s addr length :
  lock_free s -> lock_free (fst (enclave_munmap s addr length)).
Proof.
  intros Hl. unfold enclave_munmap. destruct (_ || _); [exact Hl|]. apply lock_unlock_free, Hl.
Qed.

(** ** mremap as a whole *)

(** A successful [enclave_mremap] of an accepted region is a mapping of free
    pages, a copy and an unmapping. *)
Lemma mremap_decompose s s' old_addr old_length new_addr new_length ret :
  mman_ok s -> request_ok old_addr old_length -> request_ok new_addr new_length ->
  in_mmap_range s old_addr old_length = true ->
  enclave_mremap s old_addr old_length new_addr new_length 0 = (s', ret) -> 0 <= s64 ret ->
  exists s1 top repl otop,
    mmap_done s s1 ret top (DIV_ROUNDUP new_length PAGE_SIZE) repl false /\
    free_run (mmap_bitmap s) (DIV_ROUNDUP new_length PAGE_SIZE) top /\
    munmap_done (set_mem s1 (memcpy (mem s1) ret old_addr (copy_len old_length new_length)))
      s' old_addr otop (DIV_ROUNDUP old_length PAGE_SIZE).
Proof.
  intros ok rqo rqn Hin Heq Hret. unfold enclave_mremap in Heq. cbn [truthy Z.eqb negb] in Heq.
  destruct (enclave_mmap_outcome s new_addr new_length 0 (-1) 0 ok rqn)
    as [s1 F _|s1 r top repl D Hfree _]; cbv beta iota zeta in Heq.
  { rewrite failure_ptr in Heq by (unfold ENOMEM; lia). simplify_eq.
    pose proof (failure_ptr ENOMEM ltac:(unfold ENOMEM; lia)) as Hf. apply Z.leb_gt in Hf. lia. }
  rewrite (done_success _ _ _ _ _ _ _ ok D) in Heq. fold (copy_len old_length new_length) in Heq.
  set (s2 := set_mem s1 _) in Heq. pose proof (md_layout _ _ _ _ _ _ _ D) as L.
  assert (mman_ok s2) as ok2
    by (destruct (mmap_done_ok _ _ _ _ _ _ _ ok D); constructor; assumption).
  assert (in_mmap_range s2 old_addr old_length = true) as Hin2.
  { unfold in_mmap_range in *. cbn [s2 set_mem mmap_base mmap_end].
    rewrite (sl_base _ _ L), (sl_end _ _ L). exact Hin. }
  pose proof (enclave_munmap_outcome s2 old_addr old_length ok2 rqo) as O. rewrite Hin2 in O.
  destruct (enclave_munmap s2 old_addr old_length) as [s3 r3]. simplify_eq/=.
  inversion O as [|s3' otop _ U]; [discriminate|subst]. exists s1, top, repl, otop. auto.
Qed.

(** The page of a byte of a run of pages belongs to the run, and every page of
    the run has a byte below any length that needs all its pages. *)
Lemma run_page s top pages len i a :
  len <= pages * PAGE_SIZE -> in_page s i a ->
  page_addr s (top + pages - 1) <= a < page_addr s (top + pages - 1) + len ->
  in_run top pages i = true.
Proof.
  intros Hl Hp Ha. destruct (proj1 (run_bytes s top pages a) ltac:(lia)) as (j & Hj & Hja).
  apply in_run_true. rewrite (page_unique s i j a Hp Hja). exact Hj.
Qed.

Lemma run_page_byte s top pages len i :
  (pages - 1) * PAGE_SIZE < len -> in_run top pages i = true ->
  exists a, in_page s i a /\ page_addr s (top + pages - 1) <= a < page_addr s (top + pages - 1) + len.
Proof.
  intros Hl Hi%in_run_true. exists (page_addr s i). unfold in_page, page_addr, PAGE_SIZE in *. lia.
Qed.

Lemma remap_ok s s1 ret top pages repl zero m :
  mman_ok s -> mmap_done s s1 ret top pages repl zero -> mman_ok (set_mem s1 m).
Proof. intros ok D. destruct (mmap_done_ok _ _ _ _ _ _ _ ok D). constructor; assumption. Qed.

(** ** Theorems *)

(** C2. Invariant: from [enclave_mman_init] on (on zeroed memory, for a heap of 8
    to 2^31 - 129 pages below 2^63), whatever is mapped, unmapped, remapped and
    stored, the bitmaps and the layout stay well formed, a page marked fresh holds only zero bytes and a mapped page is never marked fresh,
    under two conditions on the requests: no request is given the lowest page of
    the heap, on which the fresh bitmap lies ([bitmap_page_free]), and no request
    wraps around: its address is page aligned, its length is not 0, and address,
    length and one page together stay below 2^64 ([request_ok]).  Without them
    the code breaks: [lowest_index_is_below_base] shows that the bitmap's own
    page is handed out, [huge_mmap_maps_nothing] that a length that wraps
    succeeds without mapping anything. *)
Theorem heap_invariant (s0 s : mman) (base num files : Z) :
  init_ok base num -> wf_words (mmap_bitmap s0) -> wf_words (mmap_fresh_bitmap s0) ->
  (forall a, mem s0 a = 0) ->
  heap_steps (enclave_mman_init s0 base num files) s -> heap_inv s.
Proof.
  intros Hi Wb Wf Hz Hs. destruct (init_inv s0 base num files Hi Wb Wf Hz) as [I _].
  exact (heap_steps_inv _ _ I Hs).
Qed.

(** C1. Functional behaviour and completeness of a non-fixed [enclave_mmap]: it
    either returns the lowest address of a run of pages that were all free and
    marks exactly these pages as mapped, or it returns -ENOMEM, changes no
    mapping, and there was no free run of the requested length. *)
Theorem mmap_hands_out_free_pages (s s' : mman) (addr length prot zero ret : Z) :
  heap_inv s -> request_ok addr length ->
  enclave_mmap s addr length 0 prot zero = (s', ret) ->
  let pages := DIV_ROUNDUP length PAGE_SIZE in
  (ret = u64 (- ENOMEM) /\ no_free_run s pages /\ (forall i, allocated s' i = allocated s i)) \/
  (exists top, 0 <= top /\ top + pages <= mmap_num_pages s /\
     ret = page_addr s (top + pages - 1) /\
     (forall i, top <= i < top + pages -> allocated s i = false) /\
     (forall i, allocated s' i = in_run top pages i || allocated s i)).
Proof.
  intros I rq Heq. pose proof (enclave_mmap_outcome s addr length 0 prot zero (hi_ok _ I) rq) as O.
  rewrite Heq in O. inversion O as [s1 F Hno|s1 r top repl D Hfree Hr]; subst; cbn zeta.
  - left. repeat split; [exact (Hno eq_refl)|]. intros i. unfold allocated. rewrite (mf_bitmap _ _ F).
    reflexivity.
  - right. exists top. repeat split; try apply D; [exact (Hfree eq_refl)|].
    apply (done_allocated _ _ _ _ _ _ _ (hi_ok _ I) D).
Qed.

(** Safety: every byte of a mapping obtained with [zero_pages] set is zero
    (from [mmap_base] on), although pages believed fresh are not cleared again,
    and the bytes of all other pages are unchanged. *)
Theorem mmap_zeroes_pages (s s' : mman) (addr length fixed prot zero ret : Z) :
  heap_inv s -> request_ok addr length -> truthy zero = true ->
  enclave_mmap s addr length fixed prot zero = (s', ret) -> 0 <= s64 ret ->
  let pages := DIV_ROUNDUP length PAGE_SIZE in
  (forall a, mmap_base s <= a -> ret <= a < ret + pages * PAGE_SIZE -> mem s' a = 0) /\
  (forall i a, 0 <= i < mmap_num_pages s -> in_page s i a ->
     ~ (ret <= a < ret + pages * PAGE_SIZE) -> mem s' a = mem s a).
Proof.
  intros I rq Hz Heq Hret.
  pose proof (enclave_mmap_outcome s addr length fixed prot zero (hi_ok _ I) rq) as O.
  rewrite Heq in O. inversion O as [s1 F Hno|s1 r top repl D Hfree Hr]; subst; cbn zeta.
  - pose proof (failure_ptr ENOMEM ltac:(unfold ENOMEM; lia)) as Hf. apply Z.leb_gt in Hf. lia.
  - split.
    + intros a Hb Ha. apply (done_zeroed _ _ _ _ _ _ _ (hi_ok _ I) D a I Hz Hb Ha).
    + intros i a Hi Hp Hout. apply (done_mem_outside _ _ _ _ _ _ _ D i a Hi Hp).
      apply in_run_false. intros Hr'. apply Hout. rewrite (md_ret _ _ _ _ _ _ _ D).
      apply run_bytes. exists i. split; assumption.
Qed.

(** Functional behaviour of [enclave_munmap] on every branch: outside the
    heap range it returns -EINVAL and changes nothing; inside it frees exactly
    the pages of the request, keeps all bytes and the fresh marks, and subtracts
    from the page counter the pages that were mapped. *)
Theorem munmap_frees_pages (s s' : mman) (addr length r : Z) :
  heap_inv s -> request_ok addr length -> enclave_munmap s addr length = (s', r) ->
  let pages := DIV_ROUNDUP length PAGE_SIZE in
  (in_mmap_range s addr length = false /\ r = - EINVAL /\ s' = s) \/
  (in_mmap_range s addr length = true /\ r = 0 /\ mem s' = mem s /\
   (exists top, addr = page_addr s (top + pages - 1) /\ 0 < top /\
      (forall i, allocated s' i = negb (in_run top pages i) && allocated s i) /\
      (forall i, fresh s' i = fresh s i) /\
      used_pages s' = u64 (used_pages s - count (allocated s) top (top + pages)))).
Proof.
  intros I rq Heq. pose proof (enclave_munmap_outcome s addr length (hi_ok _ I) rq) as O.
  rewrite Heq in O. inversion O as [Hin|s1 top Hin D]; subst; cbn zeta; [left; auto|right].
  repeat split; try assumption; [apply D|]. exists top. repeat split; try apply D.
  - intros i. apply (undone_allocated _ _ _ _ _ (hi_ok _ I) D).
  - intros i. unfold fresh. rewrite (ud_fresh _ _ _ _ _ D). reflexivity.
Qed.

(** Round trip: a mapping that lies within the range accepted by
    [enclave_munmap] can be unmapped, after which exactly the pages mapped
    before are mapped and the page counter has its old value. *)
Theorem mmap_munmap_round_trip (s s1 : mman) (addr length prot zero ret : Z) :
  heap_inv s -> accounted s -> request_ok addr length -> request_ok ret length ->
  enclave_mmap s addr length 0 prot zero = (s1, ret) -> 0 <= s64 ret ->
  in_mmap_range s1 ret length = true ->
  exists s2, enclave_munmap s1 ret length = (s2, 0) /\
    (forall i, allocated s2 i = allocated s i) /\ used_pages s2 = used_pages s.
Proof.
  intros I Hacc rq rq' Heq Hret Hin.
  pose proof (enclave_mmap_outcome s addr length 0 prot zero (hi_ok _ I) rq) as O.
  pose proof (mmap_accounted s addr length 0 prot zero (hi_ok _ I) Hacc rq (or_introl eq_refl)) as Hacc1.
  rewrite Heq in O, Hacc1. cbn in Hacc1.
  inversion O as [s' F Hno|s' r top repl D Hfree Hr]; subst.
  { pose proof (failure_ptr ENOMEM ltac:(unfold ENOMEM; lia)) as Hf. apply Z.leb_gt in Hf. lia. }
  pose proof (mmap_done_ok _ _ _ _ _ _ _ (hi_ok _ I) D) as ok1.
  pose proof (enclave_munmap_outcome s1 ret length ok1 rq') as O2.
  rewrite Hin in O2. inversion O2 as [|s2 top' _ U Hres]; [discriminate|subst]. exists s2.
  pose proof (undone_accounted _ _ _ _ _ ok1 U Hacc1) as Hacc2.
  assert (top' = top) as ->.
  { pose proof (ud_addr _ _ _ _ _ U) as Ha. rewrite (md_ret _ _ _ _ _ _ _ D) in Ha.
    unfold page_addr, PAGE_SIZE in Ha. rewrite (sl_end _ _ (md_layout _ _ _ _ _ _ _ D)) in Ha. lia. }
  assert (forall i, allocated s2 i = allocated s i) as Hsame.
  { intros i. rewrite (undone_allocated _ _ _ _ _ ok1 U), (done_allocated _ _ _ _ _ _ _ (hi_ok _ I) D).
    destruct (in_run top _ i) eqn:Hrun; [|reflexivity].
    symmetry. apply in_run_true in Hrun. apply (Hfree eq_refl i Hrun). }
  split; [reflexivity|]. split; [exact Hsame|]. unfold accounted in Hacc, Hacc2.
  rewrite Hacc2, Hacc, (sl_num _ _ (ud_layout _ _ _ _ _ U)), (sl_num _ _ (md_layout _ _ _ _ _ _ _ D)).
  apply count_ext. auto.
Qed.

(** Invariant: the page counter that [enclave_mem_info] reports from equals
    the number of mapped pages after any sequence of requests in which fixed
    mappings are counted (a traced build) or absent. *)
Theorem page_accounting (s0 s : mman) (base num files : Z) :
  init_ok base num -> wf_words (mmap_bitmap s0) -> wf_words (mmap_fresh_bitmap s0) ->
  (forall a, mem s0 a = 0) -> used_pages s0 = 0 ->
  rtc counted_step (enclave_mman_init s0 base num files) s ->
  accounted s /\
  snd (enclave_mem_info s) =
    count (fun i => negb (allocated s i)) 0 (mmap_num_pages s) * PAGE_SIZE.
Proof.
  intros Hi Wb Wf Hz Hu Hs. destruct (init_inv s0 base num files Hi Wb Wf Hz) as (I & Hfree & _ & Hu').
  assert (accounted (enclave_mman_init s0 base num files)) as Hacc.
  { unfold accounted. rewrite Hu', Hu. symmetry. apply (count_const _ false).
    - pose proof (ok_num _ (hi_ok _ I)). lia.
    - intros i Hr. apply (Hfree i Hr). }
  clear Hfree Hu'. induction Hs as [s|s s1 s2 Hstep _ IH].
  - split; [exact Hacc|]. unfold enclave_mem_info. cbn [snd]. unfold accounted in Hacc. rewrite Hacc.
    pose proof (ok_num _ (hi_ok _ I)) as Hn.
    pose proof (count_range (allocated s) 0 (mmap_num_pages s) ltac:(lia)).
    unfold PAGE_SIZE. rewrite (u64_small (mmap_num_pages s - _)) by (powers; lia).
    rewrite u64_small by (powers; lia). f_equal. rewrite count_negb by lia. lia.
  - destruct (counted_step_accounted _ _ I Hacc Hstep) as [I' Hacc']. exact (IH I' Hacc').
Qed.

(** Functional behaviour of [enclave_mremap]: it returns a mapping of free
    pages that starts with the bytes of the old one (up to the shorter length),
    and the old pages are unmapped when [enclave_munmap] accepts them. *)
Theorem mremap_moves_contents (s s' : mman) (old_addr old_length new_addr new_length ret : Z) :
  heap_inv s -> request_ok old_addr old_length -> request_ok new_addr new_length ->
  in_mmap_range s old_addr old_length = true ->
  (forall i a, 0 <= i < mmap_num_pages s -> in_page s i a ->
     old_addr <= a < old_addr + old_length -> allocated s i = true) ->
  enclave_mremap s old_addr old_length new_addr new_length 0 = (s', ret) -> 0 <= s64 ret ->
  (forall k, 0 <= k < copy_len old_length new_length -> mem s' (ret + k) = mem s (old_addr + k)) /\
  (forall i a, 0 <= i < mmap_num_pages s -> in_page s i a ->
     old_addr <= a < old_addr + old_length -> allocated s' i = false) /\
  (forall i a, 0 <= i < mmap_num_pages s -> in_page s i a ->
     ret <= a < ret + new_length -> allocated s' i = true).
Proof.
  intros I rqo rqn Hin Hold Heq Hret.
  destruct (mremap_decompose s s' _ _ _ _ _ (hi_ok _ I) rqo rqn Hin Heq Hret)
    as (s1 & top & repl & otop & D & Hfree & U).
  pose proof (md_layout _ _ _ _ _ _ _ D) as L.
  destruct (pages_bounds _ _ rqn) as [[_ Hnl] _]. destruct (pages_bounds _ _ rqo) as [[Hol1 Hol2] _].
  set (np := DIV_ROUNDUP new_length PAGE_SIZE) in *. set (op := DIV_ROUNDUP old_length PAGE_SIZE) in *.
  assert (old_addr = page_addr s (otop + op - 1)) as Hoa.
  { rewrite (ud_addr _ _ _ _ _ U) at 1. unfold page_addr. cbn [set_mem mmap_end].
    rewrite (sl_end _ _ L). reflexivity. }
  assert (forall i, allocated s' i = negb (in_run otop op i) && (in_run top np i || allocated s i)) as Hal.
  { intros i. rewrite (undone_allocated _ _ _ _ _ (remap_ok _ _ _ _ _ _ _ _ (hi_ok _ I) D) U).
    rewrite <- (done_allocated _ _ _ _ _ _ _ (hi_ok _ I) D). reflexivity. }
  split; [|split].
  - intros k Hk. rewrite (ud_mem _ _ _ _ _ U). cbn [set_mem mem]. rewrite memcpy_inside by exact Hk.
    rewrite (md_mem _ _ _ _ _ _ _ D). reflexivity.
  - intros i a Hi Hp Ha. rewrite Hal, (run_page s otop op old_length i a); [reflexivity|lia|exact Hp|lia].
  - intros i a Hi Hp Ha. rewrite (md_ret _ _ _ _ _ _ _ D) in Ha.
    pose proof (run_page s top np new_length i a ltac:(lia) Hp Ha) as Hnew.
    rewrite Hal, Hnew. destruct (in_run otop op i) eqn:Hrun; [|reflexivity].
    destruct (run_page_byte s otop op old_length i ltac:(lia) Hrun) as (b & Hb & Hbr).
    rewrite <- Hoa in Hbr. pose proof (Hold i b Hi Hb Hbr) as Hali.
    apply in_run_true in Hnew. unfold allocated in Hali. rewrite (Hfree i Hnew) in Hali. discriminate.
Qed.

(** Safety, error paths included: for all arguments, [enclave_mmap],
    [enclave_munmap] and [enclave_mremap] leave the allocator lock free when they
    found it free. *)
Theorem mmap_lock_released (s : mman) (addr length fixed prot zero addr' length' mfixed : Z) :
  lock_free s ->
  lock_free (fst (enclave_mmap s addr length fixed prot zero)) /\
  lock_free (fst (enclave_munmap s addr length)) /\
  lock_free (fst (enclave_mremap s addr length addr' length' mfixed)).
Proof.
  intros Hl. split; [apply mmap_lock, Hl|]. split; [apply munmap_lock, Hl|].
  unfold enclave_mremap. destruct (truthy mfixed); [exact Hl|].
  pose proof (mmap_lock s addr' length' 0 (-1) 0 Hl) as H1.
  destruct (enclave_mmap s addr' length' 0 (-1) 0) as [s1 ret]. cbn in H1.
  destruct (0 <=? s64 ret); [|exact H1]. apply munmap_lock. exact H1.
Qed.

(** ** Edges of the heap *)

(** Error path: the topmost page of the heap is never accepted back.  A
    mapping that starts at page index 0 ends above [mmap_end], so [enclave_munmap]
    of the whole mapping answers -EINVAL and leaves the state as it is. *)
Theorem top_mapping_not_unmappable (s : mman) (length : Z) :
  heap_inv s -> request_ok (page_addr s (DIV_ROUNDUP length PAGE_SIZE - 1)) length ->
  enclave_munmap s (page_addr s (DIV_ROUNDUP length PAGE_SIZE - 1)) length = (s, - EINVAL).
Proof.
  intros I rq. destruct (pages_bounds _ _ rq) as [[Hlt _] _]. cbn zeta in *.
  set (pages := DIV_ROUNDUP length PAGE_SIZE) in *.
  assert (in_mmap_range s (page_addr s (pages - 1)) length = false) as Hin.
  { unfold in_mmap_range. apply andb_false_iff. right. apply Z.leb_gt.
    destruct rq as [_ Ha Hl Hw]. rewrite u64_small by (unfold PAGE_SIZE in *; powers; lia).
    unfold page_addr. lia. }
  unfold enclave_munmap. fold pages. rewrite Hin, !orb_true_r. reflexivity.
Qed.

(** Bounds: a search whose first free run ends at the last page index is
    answered with the page below [mmap_base], outside the range of pages the heap
    has for mappings. *)
Theorem lowest_index_is_below_base (s s' : mman) (addr length prot zero ret : Z) :
  mman_ok s -> request_ok addr length ->
  enclave_mmap s addr length 0 prot zero = (s', ret) -> 0 <= s64 ret ->
  (allocated s (mmap_num_pages s - 1) = false /\ allocated s' (mmap_num_pages s - 1) = true) <->
  ret = mmap_base s - PAGE_SIZE.
Proof.
  intros ok rq Heq Hret. pose proof (enclave_mmap_outcome s addr length 0 prot zero ok rq) as O.
  rewrite Heq in O. inversion O as [s1 F Hno|s1 r top repl D Hfree Hr]; subst.
  { pose proof (failure_ptr ENOMEM ltac:(unfold ENOMEM; lia)) as Hf. apply Z.leb_gt in Hf. lia. }
  pose proof (md_top _ _ _ _ _ _ _ D). pose proof (md_fit _ _ _ _ _ _ _ D).
  pose proof (md_pages _ _ _ _ _ _ _ D). pose proof (ok_end _ ok) as He.
  rewrite (md_ret _ _ _ _ _ _ _ D), (done_allocated _ _ _ _ _ _ _ ok D).
  set (pages := DIV_ROUNDUP length PAGE_SIZE) in *. unfold page_addr, PAGE_SIZE in *. split.
  - intros [Hf Hor]. rewrite Hf, orb_false_r in Hor. apply in_run_true in Hor. lia.
  - intros Hr'. split; [apply (Hfree eq_refl); lia|].
    apply orb_true_iff. left. apply in_run_true. lia.
Qed.

(** A search for zero pages finds the first free one. *)
Lemma zero_pages_search map size i :
  wf_words map -> 0 <= size < 2 ^ 31 - 128 -> 0 <= i < size -> bit_at map i = false ->
  0 <= bitmap_find_next_zero_area map size 0 0 < size.
Proof.
  intros W Hs Hi Hfree. unfold bitmap_find_next_zero_area. cbn [zero_area_loop].
  destruct (find_next_zero_bit_spec map size 0 W ltac:(lia) ltac:(lia)) as [Hl Hu Hskip _].
  set (index := find_next_zero_bit map size 0) in *.
  assert (index <= i) as Hle.
  { destruct (Z.le_gt_cases index i); [assumption|].
    pose proof (Hskip i ltac:(lia) ltac:(lia)) as Hb. rewrite Hfree in Hb. discriminate. }
  rewrite u64_small by (powers; lia). rewrite Z.add_0_r.
  destruct (Z.ltb_spec size index); [lia|].
  unfold find_next_bit, find_next. rewrite (proj2 (Z.leb_le index index)) by lia.
  rewrite Z.ltb_irrefl. lia.
Qed.

Lemma in_run_empty top i : in_run top 0 i = false.
Proof. apply in_run_false. lia. Qed.

(** The page [index_top - 1] of a search for zero pages. *)
Lemma zero_pages_addr s top :
  mman_ok s -> 0 <= top < mmap_num_pages s ->
  let a := index_to_addr s (u64 (top + (0 - 1))) in (a =? 0) = false /\ (0 <=? s64 a) = true.
Proof.
  intros ok Htop. pose proof (ok_num _ ok). pose proof (ok_end _ ok). pose proof (ok_base _ ok).
  pose proof (ok_top _ ok). unfold index_to_addr, PAGE_SIZE in *.
  assert (u64 (mmap_end s - u64 (u64 (top + (0 - 1)) * 4096)) = mmap_end s - (top - 1) * 4096) as ->.
  { destruct (Z.eqb_spec top 0) as [->|]; [|].
    2: { rewrite (u64_small (top + (0 - 1))) by (powers; lia). cint. lia. }
    change (u64 (u64 (0 + (0 - 1)) * 4096)) with (2 ^ 64 - 4096). unfold u64, wrap.
    replace (mmap_end s - (2 ^ 64 - 4096)) with (mmap_end s + 4096 + (-1) * 2 ^ 64) by lia.
    rewrite Z_mod_plus_full, Z.mod_small by (powers; lia). lia. }
  cbn zeta. rewrite s64_small by (powers; lia). split; [apply Z.eqb_neq|apply Z.leb_le]; lia.
Qed.

(** Overflow: a length in the last page of the 64-bit range rounds to zero
    pages; while any page is free, [enclave_mmap] answers such a request with a
    pointer that is not an error although it maps no page and counts none. *)
Theorem huge_mmap_maps_nothing (s : mman) (length free_page : Z) :
  mman_ok s -> 0 <= used_pages s < 2 ^ 64 ->
  0 <= free_page < mmap_num_pages s -> allocated s free_page = false ->
  2 ^ 64 - PAGE_SIZE < length < 2 ^ 64 ->
  let r := enclave_mmap s 0 length 0 (-1) 1 in
  0 <= s64 (snd r) /\ used_pages (fst r) = used_pages s /\
  (forall i, allocated (fst r) i = allocated s i).
Proof.
  intros ok Hu Hi Hfree Hl. pose proof (ok_num _ ok) as Hn.
  assert (DIV_ROUNDUP length PAGE_SIZE = 0) as Hp.
  { unfold DIV_ROUNDUP, u64, wrap, PAGE_SIZE in *.
    replace (length + (4096 - 1)) with ((length + 4095 - 2 ^ 64) + 1 * 2 ^ 64) by lia.
    rewrite Z_mod_plus_full, Z.mod_small by (powers; lia). apply Z.div_small. powers; lia. }
  pose proof (zero_pages_search (mmap_bitmap s) (mmap_num_pages s) free_page (ok_bitmap _ ok)
    ltac:(lia) Hi Hfree) as Htop.
  unfold enclave_mmap. rewrite Hp. change (0 mod PAGE_SIZE =? 0) with true.
  rewrite (proj2 (Z.eqb_neq length 0)) by (unfold PAGE_SIZE in *; powers; lia). cbn [negb orb].
  unfold mmap_choose. cbn [truthy Z.eqb negb andb lock_mmap set_lock mmap_bitmap mmap_num_pages].
  set (top := bitmap_find_next_zero_area _ _ 0 0) in *. clearbody top.
  rewrite (u64_small (top + 0)) by (powers; lia).
  destruct (Z.ltb_spec (mmap_num_pages s) (top + 0)); [lia|].
  destruct (zero_pages_addr s top ok Htop) as [_ Hpos]. cbn zeta in Hpos.
  change (index_to_addr (lock_mmap s)) with (index_to_addr s).
  set (ret := index_to_addr s _) in *. cbv beta iota zeta. rewrite Hpos.
  match goal with |- context [mmap_trace ?a] => destruct (mmap_trace_frame a) as [m ->] end.
  match goal with |- context [mmap_prepare ?a ?b ?c ?d ?e ?f ?g] =>
    destruct (mmap_prepare_frame a b c d e f g) as [log ->] end.
  cbn. split; [apply Z.leb_le, Hpos|]. split.
  - rewrite u64_small by (powers; lia). lia.
  - intros i. unfold allocated. cbn. rewrite bit_at_bitmap_set, in_run_empty by (powers; lia).
    reflexivity.
Qed.

(** ** A heap of 14 pages *)

Definition no_mman : mman :=
  mk_mman (mk_ticketlock 0 0) (fun _ => 0) (fun _ => 0) 0 0 0 0 0 0 0 false 0 (fun _ => 0) [].

Definition boot : mman := enclave_mman_init no_mman 65536 16 0.

Lemma no_mman_wf : wf_words (fun _ => 0).
Proof. intros p. powers. lia. Qed.

Lemma boot_range : init_ok 65536 16.
Proof. constructor; unfold PAGE_SIZE; powers; lia || reflexivity. Qed.

Lemma boot_inv : heap_inv boot.
Proof.
  apply (init_inv no_mman 65536 16 0 boot_range no_mman_wf no_mman_wf). reflexivity.
Qed.

Lemma small_request addr length :
  addr mod PAGE_SIZE = 0 -> 0 <= addr < 2 ^ 32 -> 0 < length < 2 ^ 32 -> request_ok addr length.
Proof. intros. constructor; unfold PAGE_SIZE in *; powers; lia || assumption. Qed.

Ltac request := apply small_request; [reflexivity|powers; lia..].

(** The result of a call on a concrete heap. *)
Lemma run_result (r : mman * Z) v : snd r = v -> r = (fst r, v).
Proof. intros <-. apply surjective_pairing. Qed.

Ltac run := apply run_result; vm_compute; reflexivity.

Lemma heap_invariant_witness :
  heap_inv (fst (enclave_munmap (fst (enclave_mmap boot 0 8192 0 3 1)) 110592 4096)).
Proof.
  apply (heap_invariant no_mman _ 65536 16 0 boot_range no_mman_wf no_mman_wf (fun _ => eq_refl)).
  apply rtc_l with (fst (enclave_mmap boot 0 8192 0 3 1)).
  - split; [apply hs_mmap; request|vm_compute; reflexivity].
  - apply rtc_once. split; [apply hs_munmap; request|vm_compute; reflexivity].
Defined.

Lemma mmap_hands_out_free_pages_witness :
  exists s', enclave_mmap boot 0 8192 0 3 1 = (s', 118784) /\ allocated s' 0 = true /\
    allocated s' 1 = true /\ allocated s' 2 = false.
Proof.
  exists (fst (enclave_mmap boot 0 8192 0 3 1)).
  assert (enclave_mmap boot 0 8192 0 3 1 = (fst (enclave_mmap boot 0 8192 0 3 1), 118784)) as Heq
    by run.
  split; [exact Heq|].
  destruct (mmap_hands_out_free_pages boot _ 0 8192 3 1 118784 boot_inv ltac:(request) Heq)
    as [[Hbad _]|(top & _ & _ & Hret & _ & Hal)]; [discriminate|].
  assert (top = 0) as ->.
  { change (118784 = 122880 - (top + 2 - 1) * 4096) in Hret. lia. }
  rewrite !Hal. repeat split.
Defined.

(** The heap after a mapping of two pages, the second of which was written. *)
Definition two_pages : mman := fst (enclave_mmap boot 0 8192 0 3 1).
Definition two_written : mman :=
  set_mem two_pages (fun a => if a =? 118784 then 7 else mem two_pages a).

Lemma two_pages_inv : heap_inv two_pages.
Proof. apply mmap_inv; [exact boot_inv|request]. Qed.

Lemma two_written_inv : heap_inv two_written.
Proof.
  apply (heap_step_inv two_pages); [exact two_pages_inv|].
  apply hs_store with 1; [split; vm_compute; congruence|reflexivity|].
  unfold in_page. change (page_addr two_pages 1) with 118784. unfold PAGE_SIZE. lia.
Qed.

Lemma mmap_zeroes_pages_witness :
  mem two_written 118784 = 7 /\
  mem (fst (enclave_mmap two_written 118784 4096 1 3 1)) 118784 = 0.
Proof.
  split; [reflexivity|].
  apply (mmap_zeroes_pages two_written _ 118784 4096 1 3 1 118784 two_written_inv ltac:(request)
    eq_refl).
  - run.
  - vm_compute. congruence.
  - vm_compute. congruence.
  - change (DIV_ROUNDUP 4096 PAGE_SIZE) with 1. unfold PAGE_SIZE. lia.
Defined.

Lemma munmap_frees_pages_witness :
  allocated two_written 1 = true /\
  allocated (fst (enclave_munmap two_written 118784 4096)) 1 = false.
Proof.
  split; [reflexivity|].
  pose (s' := fst (enclave_munmap two_written 118784 4096)).
  assert (enclave_munmap two_written 118784 4096 = (s', 0)) as Heq by run. fold s'.
  destruct (munmap_frees_pages two_written s' 118784 4096 0 two_written_inv ltac:(request) Heq)
    as [(Hbad & _)|(_ & _ & _ & top & Ha & _ & Hal & _)]; [vm_compute in Hbad; congruence|].
  assert (top = 1) as -> by (change (118784 = 122880 - (top + 1 - 1) * 4096) in Ha; lia).
  rewrite Hal. reflexivity.
Defined.

Lemma boot_accounted : accounted boot.
Proof. reflexivity. Qed.

Lemma two_pages_accounted : accounted two_pages.
Proof. reflexivity. Qed.

Lemma mmap_munmap_round_trip_witness :
  exists s1 s2, enclave_mmap two_pages 0 4096 0 3 0 = (s1, 114688) /\
    enclave_munmap s1 114688 4096 = (s2, 0) /\ used_pages s1 = 3 /\ used_pages s2 = 2.
Proof.
  pose (s1 := fst (enclave_mmap two_pages 0 4096 0 3 0)).
  assert (enclave_mmap two_pages 0 4096 0 3 0 = (s1, 114688)) as Heq by run.
  destruct (mmap_munmap_round_trip two_pages s1 0 4096 3 0 114688 two_pages_inv two_pages_accounted
    ltac:(request) ltac:(request) Heq ltac:(vm_compute; congruence) eq_refl) as (s2 & H2 & _ & Hu).
  exists s1, s2. split; [exact Heq|]. split; [exact H2|]. split; [vm_compute; reflexivity|].
  rewrite Hu. vm_compute. reflexivity.
Defined.

Lemma page_accounting_witness :
  snd (enclave_mem_info two_pages) = 12 * 4096.
Proof.
  destruct (page_accounting no_mman two_pages 65536 16 0 boot_range no_mman_wf no_mman_wf
    (fun _ => eq_refl) eq_refl) as [_ ->]; [|reflexivity].
  apply rtc_once. apply cs_mmap; [request|left; reflexivity].
Defined.

Lemma mremap_moves_contents_witness :
  mem two_written 118784 = 7 /\
  mem (fst (enclave_mremap two_written 118784 4096 0 8192 0)) 110592 = 7.
Proof.
  split; [reflexivity|].
  destruct (mremap_moves_contents two_written (fst (enclave_mremap two_written 118784 4096 0 8192 0))
    118784 4096 0 8192 110592 two_written_inv ltac:(request) ltac:(request) eq_refl) as [Hc _].
  - intros i a _ Hp Ha. unfold in_page in Hp. change (page_addr two_written i) with (122880 - i * 4096) in Hp.
    unfold PAGE_SIZE in Hp. assert (i = 1) as -> by lia. reflexivity.
  - run.
  - vm_compute. congruence.
  - exact (Hc 0 ltac:(vm_compute; split; congruence)).
Defined.

Lemma mmap_lock_released_witness : lock_free (fst (enclave_mmap boot 0 8192 0 3 1)).
Proof. apply (mmap_lock_released boot 0 8192 0 3 1 0 0 0). reflexivity. Defined.

Lemma top_mapping_not_unmappable_witness :
  snd (enclave_mmap boot 0 8192 0 3 1) = 118784 /\
  enclave_munmap two_pages 118784 8192 = (two_pages, - EINVAL).
Proof.
  split; [reflexivity|].
  apply (top_mapping_not_unmappable two_pages 8192 two_pages_inv).
  change (request_ok 118784 8192). request.
Defined.

Lemma lowest_index_is_below_base_witness :
  snd (enclave_mmap boot 0 (14 * 4096) 0 3 0) = mmap_base boot - PAGE_SIZE.
Proof.
  apply (lowest_index_is_below_base boot (fst (enclave_mmap boot 0 (14 * 4096) 0 3 0)) 0 (14 * 4096)
    3 0 _ (hi_ok _ boot_inv) ltac:(request)).
  - apply surjective_pairing.
  - vm_compute. congruence.
  - vm_compute. split; reflexivity.
Defined.

Lemma huge_mmap_maps_nothing_witness :
  used_pages (fst (enclave_mmap two_pages 0 (2 ^ 64 - 1) 0 (-1) 1)) = 2.
Proof.
  destruct (huge_mmap_maps_nothing two_pages (2 ^ 64 - 1) 5 (hi_ok _ two_pages_inv)) as (_ & -> & _);
    try reflexivity; try (vm_compute; split; congruence).
Defined.
