(* ===== verification/MemSyscalls.v ===== *)
(** * Memory system calls (src/lkl/syscall-overrides-mem.c)

    The handlers that replace LKL's [mmap], [munmap], [mremap], [msync] and
    [mprotect].  They translate flags, read the contents of file mappings with
    the kernel's [pread64] handler (a parameter: it belongs to LKL) and defer the
    unmapping of the caller's own stack. *)

From S2P Require Import Prelude Bitops TicketLock EnclaveMem EnclaveHeap.

Definition MAP_SHARED : Z := 1.
Definition MAP_PRIVATE : Z := 2.
Definition MAP_FIXED : Z := 16.
Definition MAP_ANONYMOUS : Z := 32.
Definition MREMAP_FIXED : Z := 2.

Definition ENCLAVE_MMAP_FILES_PRIVATE : Z := 1.
Definition ENCLAVE_MMAP_FILES_SHARED : Z := 2.

(** [enclave_mmap_files_flags_supported] *)
Definition enclave_mmap_files_flags_supported (s : mman) (flags : Z) : Z :=
  let supported_flags :=
    if mmap_files s =? ENCLAVE_MMAP_FILES_SHARED then Z.lor MAP_PRIVATE MAP_SHARED
    else if mmap_files s =? ENCLAVE_MMAP_FILES_PRIVATE then MAP_PRIVATE else 0 in
  Z.land supported_flags flags.

(** The attributes of the running thread that [munmap] uses. *)
Record lt_stack : Type := mk_lt_stack { stack : Z; stack_size : Z }.

(** Store [l] at [p]. *)
Fixpoint store_bytes (m : Z -> Z) (p : Z) (l : list Z) : Z -> Z :=
  match l with
  | [] => m
  | x :: l => store_bytes (fun a => if a =? p then x else m a) (p + 1) l
  end.

Section Handlers.
(** [pread_fn fd buf count offset]: the result and the bytes stored at [buf]. *)
Variable pread_fn : Z -> Z -> Z -> Z -> Z * list Z.
(** The result that the host stores for an [mprotect] call. *)
Variable mprotect_ret : Z -> Z -> Z -> Z.

Definition syscall_SYS_mprotect (s : mman) (addr len prot : Z) : mman * Z :=
(sgxlkl_host_syscall_mprotect s addr len prot, mprotect_ret addr len prot).

(** The [while] loop: [None] when the fuel is used up, else the state and the
  last result of [pread_fn]. *)
Fixpoint read_file (fuel : nat) (s : mman) (fd mem_addr length readb offset : Z) : option (mman * Z) :=
match fuel with
| O => None
| S fuel =>
    let '(ret, bytes) := pread_fn fd (u64 (mem_addr + readb)) (u64 (length - readb)) offset in
    if 0 <? ret then
      read_file fuel (set_mem s (store_bytes (mem s) (u64 (mem_addr + readb)) bytes))
        fd mem_addr length (u64 (readb + ret)) (s64 (offset + ret))
    else Some (s, ret)
end.

Definition syscall_SYS_mmap (fuel : nat) (s : mman) (addr length prot flags fd offset : Z)
: option (mman * Z) :=
if truthy (Z.land flags MAP_SHARED) && truthy (Z.land flags MAP_PRIVATE) then Some (s, - EINVAL)
else if truthy (Z.land flags MAP_ANONYMOUS) then
  let '(s, ret) := enclave_mmap s addr length (Z.land flags MAP_FIXED) prot 1 in
  Some (s, s64 ret)
else if (0 <=? fd) && truthy (enclave_mmap_files_flags_supported s flags) then
  let '(s, mem_addr) :=
    enclave_mmap s addr length (Z.land flags MAP_FIXED) (Z.lor prot PROT_WRITE) 0 in
  if 0 <? mem_addr then
    match read_file fuel s fd mem_addr length 0 offset with
    | None => None
    | Some (s, ret) =>
        if ret <? 0 then Some (fst (enclave_munmap s addr length), - EBADF)
        else
          let s := if negb (Z.lor prot PROT_WRITE =? prot)
                   then fst (syscall_SYS_mprotect s mem_addr length prot) else s in
          Some (s, s64 mem_addr)
    end
  else Some (s, s64 mem_addr)
else Some (s, - EINVAL).

Definition syscall_SYS_mremap (s : mman) (old_addr old_length new_length flags new_addr : Z)
: mman * Z :=
let '(s, ret) := enclave_mremap s old_addr old_length new_addr new_length (Z.land flags MREMAP_FIXED) in
(s, s64 ret).

(** [rsp] is the stack pointer; [None] is the failure of the assertion. *)
Definition syscall_SYS_munmap (rsp : Z) (s : mman) (lt : lt_stack) (addr length : Z)
: option (mman * lt_stack * Z) :=
if (addr <? rsp) && (rsp <? u64 (addr + length)) then
  if stack lt =? 0 then Some (s, mk_lt_stack addr length, 0) else None
else
  let '(s, r) := enclave_munmap s addr length in Some (s, lt, r).

Definition syscall_SYS_msync (addr length flags : Z) : Z := 0.

(** ** The registered handlers, with and without tracing *)

Inductive sysno : Type := NR_mmap | NR_mremap | NR_munmap | NR_msync | NR_mprotect.

(** What a handler works on, and the log of [__sgxlkl_log_syscall], latest first. *)
Record kstate : Type := mk_kstate {
ks_mman : mman;
ks_lt : lt_stack;
ks_log : list (sysno * Z * list Z)
}.

Definition log_syscall (k : kstate) (nr : sysno) (res : Z) (args : list Z) : kstate :=
mk_kstate (ks_mman k) (ks_lt k) ((nr, res, args) :: ks_log k).

(** A system call with its arguments; [rsp] and [fuel] as above. *)
Definition handle (rsp : Z) (fuel : nat) (k : kstate) (nr : sysno) (args : list Z)
: option (kstate * Z) :=
match nr, args with
| NR_mmap, [addr; length; prot; flags; fd; offset] =>
    r ← syscall_SYS_mmap fuel (ks_mman k) addr length prot flags fd offset;
    Some (mk_kstate (fst r) (ks_lt k) (ks_log k), snd r)
| NR_mremap, [old_addr; old_length; new_length; flags; new_addr] =>
    let r := syscall_SYS_mremap (ks_mman k) old_addr old_length new_length flags new_addr in
    Some (mk_kstate (fst r) (ks_lt k) (ks_log k), snd r)
| NR_munmap, [addr; length] =>
    r ← syscall_SYS_munmap rsp (ks_mman k) (ks_lt k) addr length;
    Some (mk_kstate (fst (fst r)) (snd (fst r)) (ks_log k), snd r)
| NR_msync, [addr; length; flags] => Some (k, syscall_SYS_msync addr length flags)
| NR_mprotect, [addr; len; prot] =>
    let r := syscall_SYS_mprotect (ks_mman k) addr len prot in
    Some (mk_kstate (fst r) (ks_lt k) (ks_log k), snd r)
| _, _ => None
end.

(** The [_log] wrappers: the same handler, then an entry in the log. *)
Definition handle_log (rsp : Z) (fuel : nat) (k : kstate) (nr : sysno) (args : list Z)
: option (kstate * Z) :=
match nr with
| NR_msync => Some (log_syscall k NR_msync 0 args, 0)
| _ =>
    r ← handle rsp fuel k nr args;
    Some (log_syscall (fst r) nr (snd r) args, snd r)
end.

(** [syscall_register_mem_overrides]: the handler installed for each number. *)
Definition syscall_register_mem_overrides (trace : bool)
: Z -> nat -> kstate -> sysno -> list Z -> option (kstate * Z) :=
if trace then handle_log else handle.
End Handlers.

(** ** Reading a file *)

Lemma store_bytes_spec l m p a :
  store_bytes m p l a =
    if (p <=? a) && (a <? p + Z.of_nat (length l)) then default 0 (l !! Z.to_nat (a - p)) else m a.
Proof.
  revert m p. induction l as [|x l IH]; intros m p; cbn [store_bytes length].
  - bcase; cbn [andb]; lia || reflexivity.
  - rewrite IH. destruct (Z.eqb_spec a p) as [->|Hne].
    + replace (p + 1 <=? p) with false by (symmetry; apply Z.leb_gt; lia).
      rewrite Z.leb_refl, Z.sub_diag. bcase; cbn [andb]; lia || reflexivity.
    + replace (p + 1 <=? a) with (p <=? a) by (bcase; lia || reflexivity).
      replace (p + 1 + Z.of_nat (length l)) with (p + Z.of_nat (S (length l))) by lia.
      destruct (Z.leb_spec p a); cbn [andb]; [|reflexivity]. destruct (_ <? _); [|reflexivity].
      replace (Z.to_nat (a - p)) with (S (Z.to_nat (a - (p + 1)))) by lia. reflexivity.
Qed.

(** What POSIX says of [pread] on a file with contents [f] and a buffer within
    [lo, hi): it stores between one and [count] of the bytes at [offset], and
    stores nothing when there are none left or none are asked for. *)
Definition reads_file (pread_fn : Z -> Z -> Z -> Z -> Z * list Z) (fd : Z) (f : list Z) (lo hi : Z) : Prop :=
  forall buf count offset, lo <= buf -> 0 <= count -> buf + count <= hi -> 0 <= offset ->
    let left := Z.min count (Z.of_nat (length f) - offset) in
    let '(ret, bytes) := pread_fn fd buf count offset in
    if 0 <? left
    then 0 < ret <= left /\ bytes = take (Z.to_nat ret) (drop (Z.to_nat offset) f)
    else ret = 0.

(** [m'] is [m] with the bytes of [f] from [offset] on at [lo, hi). *)
Definition file_at (m m' : Z -> Z) (f : list Z) (offset lo hi : Z) : Prop :=
  forall a, m' a = if (lo <=? a) && (a <? Z.min hi (lo + Z.of_nat (length f) - offset))
                   then default 0 (f !! Z.to_nat (offset + (a - lo))) else m a.

Section ReadFile.
Variables (pread_fn : Z -> Z -> Z -> Z -> Z * list Z) (fd : Z) (f : list Z) (m len : Z).
Hypothesis m_range : 0 <= m /\ 0 <= len /\ m + len < 2 ^ 64.
Hypothesis pread_ok : reads_file pread_fn fd f m (m + len).

Lemma read_file_spec fuel s readb offset :
0 <= readb <= len -> 0 <= offset -> offset + (len - readb) < 2 ^ 63 -> len - readb < Z.of_nat fuel ->
exists m', read_file pread_fn fuel s fd m len readb offset = Some (set_mem s m', 0) /\
  file_at (mem s) m' f offset (m + readb) (m + len).
Proof.
revert s readb offset. induction fuel as [|fuel IH]; intros s readb offset Hr Ho Hmax Hf; [lia|].
cbn [read_file]. rewrite (u64_small (m + readb)), (u64_small (len - readb)) by (powers; lia).
pose proof (pread_ok (m + readb) (len - readb) offset ltac:(lia) ltac:(lia) ltac:(lia) Ho) as Hp.
cbn zeta in Hp. destruct (pread_fn fd (m + readb) (len - readb) offset) as [ret bytes].
destruct (Z.ltb_spec 0 (Z.min (len - readb) (Z.of_nat (length f) - offset))) as [Hleft|Hnone].
- destruct Hp as [Hret Hbytes]. rewrite (proj2 (Z.ltb_lt 0 ret)) by lia.
  rewrite (u64_small (readb + ret)) by (powers; lia). rewrite (s64_small (offset + ret)) by (powers; lia).
  destruct (IH (set_mem s (store_bytes (mem s) (m + readb) bytes)) (readb + ret) (offset + ret))
    as (m' & Hread & Hfile); try lia.
  exists m'. split; [exact Hread|]. intros a. rewrite (Hfile a). cbn [set_mem mem].
  assert (Z.of_nat (length bytes) = ret) as Hlen.
  { rewrite Hbytes, length_take, length_drop. lia. }
  rewrite store_bytes_spec, Hlen. clear Hread Hfile IH.
  assert (m + readb <= a < m + readb + ret ->
    default 0 (bytes !! Z.to_nat (a - (m + readb))) =
    default 0 (f !! Z.to_nat (offset + (a - (m + readb))))) as Hb.
  { intros Ha. rewrite Hbytes, lookup_take_lt, lookup_drop by lia. do 2 f_equal. lia. }
  bcase; cbn [andb]; try lia; auto; do 2 f_equal; lia.
- rewrite Hp. cbn. exists (mem s). split; [destruct s; reflexivity|].
  intros a. bcase; cbn [andb]; lia || reflexivity.
Qed.
End ReadFile.

(** ** Theorems *)

Definition file_flags (s : mman) (flags fd : Z) : bool :=
  negb (truthy (Z.land flags MAP_SHARED) && truthy (Z.land flags MAP_PRIVATE)) &&
  negb (truthy (Z.land flags MAP_ANONYMOUS)) && (0 <=? fd) &&
  truthy (enclave_mmap_files_flags_supported s flags).

Lemma file_mmap pread_fn ret_fn fuel s addr length prot flags fd offset s1 m :
  file_flags s flags fd = true ->
  enclave_mmap s addr length (Z.land flags MAP_FIXED) (Z.lor prot PROT_WRITE) 0 = (s1, m) -> 0 < m ->
  syscall_SYS_mmap pread_fn ret_fn fuel s addr length prot flags fd offset =
    match read_file pread_fn fuel s1 fd m length 0 offset with
    | None => None
    | Some (s, ret) =>
        if ret <? 0 then Some (fst (enclave_munmap s addr length), - EBADF)
        else Some (if negb (Z.lor prot PROT_WRITE =? prot)
                   then fst (syscall_SYS_mprotect ret_fn s m length prot) else s, s64 m)
    end.
Proof.
  intros Hf Hm Hpos. unfold file_flags in Hf. unfold syscall_SYS_mmap.
  apply andb_true_iff in Hf as [Hf Hs]. apply andb_true_iff in Hf as [Hf Hd].
  apply andb_true_iff in Hf as [H1%negb_true_iff H2%negb_true_iff].
  rewrite H1, H2, Hd, Hs, Hm. cbn [andb]. rewrite (proj2 (Z.ltb_lt 0 m) Hpos). reflexivity.
Qed.

(** C35. Functional behaviour and termination of a file mapping: when the pages
    can be mapped and [pread] reads the file, [mmap] returns their address after
    finitely many reads; the mapping holds the file from [offset] on, up to the
    shorter of the file and the request, and no other byte and no bitmap changes
    on top of what [enclave_mmap] did. *)
Theorem mmap_reads_file (pread_fn : Z -> Z -> Z -> Z -> Z * list Z) (ret_fn : Z -> Z -> Z -> Z)
  (fuel : nat) (s s1 : mman) (addr len prot flags fd offset m : Z) (f : list Z) :
  mman_ok s -> request_ok addr len -> file_flags s flags fd = true ->
  0 <= offset -> offset + len < 2 ^ 63 -> len < Z.of_nat fuel ->
  enclave_mmap s addr len (Z.land flags MAP_FIXED) (Z.lor prot PROT_WRITE) 0 = (s1, m) -> 0 <= s64 m ->
  reads_file pread_fn fd f m (m + len) ->
  exists s', syscall_SYS_mmap pread_fn ret_fn fuel s addr len prot flags fd offset = Some (s', m) /\
    file_at (mem s1) (mem s') f offset m (m + len) /\
    mmap_bitmap s' = mmap_bitmap s1 /\ used_pages s' = used_pages s1.
Proof.
  intros ok rq Hf Ho Hmax Hfuel Hm Hpos Hread.
  pose proof (enclave_mmap_outcome s addr len (Z.land flags MAP_FIXED) (Z.lor prot PROT_WRITE) 0 ok rq) as O.
  rewrite Hm in O. inversion O as [s' F Hno|s' r top repl D Hfree Hr]; subst.
  { pose proof (failure_ptr ENOMEM ltac:(unfold ENOMEM; lia)) as Hfp. apply Z.leb_gt in Hfp. lia. }
  pose proof (md_top _ _ _ _ _ _ _ D) as Ht. pose proof (md_fit _ _ _ _ _ _ _ D) as Hfit.
  pose proof (md_pages _ _ _ _ _ _ _ D) as Hp. destruct (pages_bounds _ _ rq) as [[_ Hlen] _].
  set (pages := DIV_ROUNDUP len PAGE_SIZE) in *.
  pose proof (page_addr_range s ok (top + pages - 1) ltac:(lia)) as Hrange.
  rewrite <- (md_ret _ _ _ _ _ _ _ D) in Hrange.
  pose proof (ok_base _ ok). pose proof (ok_top _ ok). pose proof (rq_length _ _ rq).
  assert (m + pages * PAGE_SIZE <= mmap_end s + PAGE_SIZE) as Hend.
  { rewrite (md_ret _ _ _ _ _ _ _ D). unfold page_addr, PAGE_SIZE. lia. }
  rewrite (file_mmap _ _ _ _ _ _ _ _ _ _ s1 m Hf Hm) by (unfold PAGE_SIZE in *; lia).
  destruct (read_file_spec pread_fn fd f m len ltac:(unfold PAGE_SIZE in *; powers; lia) Hread fuel s1 0 offset)
    as (m' & -> & Hfile); try lia.
  rewrite Z.add_0_r in Hfile. cbn [Z.ltb Z.compare].
  rewrite (s64_small m) by (unfold PAGE_SIZE in *; powers; lia).
  eexists. split; [reflexivity|]. destruct (negb _); (split; [exact Hfile|split; reflexivity]).
Qed.

(** [pread] fails for a buffer at [m]. *)
Definition read_fails (pread_fn : Z -> Z -> Z -> Z -> Z * list Z) (fd m len offset : Z) : Prop :=
  fst (pread_fn fd m len offset) < 0.

Lemma read_file_fails pread_fn fuel s fd m len offset :
  0 <= m < 2 ^ 64 -> 0 <= len < 2 ^ 64 -> read_fails pread_fn fd m len offset ->
  exists ret, read_file pread_fn (S fuel) s fd m len 0 offset = Some (s, ret) /\ ret < 0.
Proof.
  intros Hm Hl Hf. unfold read_fails in Hf. cbn [read_file]. rewrite Z.add_0_r, Z.sub_0_r, !u64_small by lia.
  destruct (pread_fn fd m len offset) as [ret bytes]. cbn in Hf. exists ret.
  rewrite (proj2 (Z.ltb_ge 0 ret)) by lia. auto.
Qed.

(** Error path: when the file cannot be read, a mapping requested without an
    address returns -EBADF and stays mapped and counted: the handler unmaps the
    requested address 0 instead of the address that was mapped. *)
Theorem mmap_read_error_leaks (pread_fn : Z -> Z -> Z -> Z -> Z * list Z) (ret_fn : Z -> Z -> Z -> Z)
  (fuel : nat) (s s1 : mman) (len prot flags fd offset m : Z) :
  mman_ok s -> request_ok 0 len -> file_flags s flags fd = true ->
  enclave_mmap s 0 len (Z.land flags MAP_FIXED) (Z.lor prot PROT_WRITE) 0 = (s1, m) -> 0 <= s64 m ->
  read_fails pread_fn fd m len offset ->
  syscall_SYS_mmap pread_fn ret_fn (S fuel) s 0 len prot flags fd offset = Some (s1, - EBADF) /\
  exists top, m = page_addr s (top + DIV_ROUNDUP len PAGE_SIZE - 1) /\
    forall i, in_run top (DIV_ROUNDUP len PAGE_SIZE) i = true -> allocated s1 i = true.
Proof.
  intros ok rq Hf Hm Hpos Hfail.
  pose proof (enclave_mmap_outcome s 0 len (Z.land flags MAP_FIXED) (Z.lor prot PROT_WRITE) 0 ok rq) as O.
  rewrite Hm in O. inversion O as [s' F Hno|s' r top repl D Hfree Hr]; subst.
  { pose proof (failure_ptr ENOMEM ltac:(unfold ENOMEM; lia)) as Hfp. apply Z.leb_gt in Hfp. lia. }
  pose proof (md_top _ _ _ _ _ _ _ D) as Ht. pose proof (md_fit _ _ _ _ _ _ _ D) as Hfit.
  pose proof (md_pages _ _ _ _ _ _ _ D) as Hp. set (pages := DIV_ROUNDUP len PAGE_SIZE) in *.
  pose proof (page_addr_range s ok (top + pages - 1) ltac:(lia)) as Hrange.
  rewrite <- (md_ret _ _ _ _ _ _ _ D) in Hrange.
  pose proof (ok_base _ ok). pose proof (ok_top _ ok). destruct rq as [_ _ Hl Hw].
  split.
  - rewrite (file_mmap _ _ _ _ _ _ _ _ _ _ s1 m Hf Hm) by (unfold PAGE_SIZE in *; lia).
    destruct (read_file_fails pread_fn fuel s1 fd m len offset) as (ret & -> & Hret);
      [unfold PAGE_SIZE in *; powers; lia..|exact Hfail|].
    rewrite (proj2 (Z.ltb_lt ret 0) Hret). unfold enclave_munmap.
    assert (in_mmap_range s1 0 len = false) as ->; [|rewrite !orb_true_r; reflexivity].
    unfold in_mmap_range. rewrite (sl_base _ _ (md_layout _ _ _ _ _ _ _ D)).
    rewrite (proj2 (Z.leb_gt _ 0)) by (unfold PAGE_SIZE in *; lia). reflexivity.
  - exists top. split; [apply D|]. intros i Hi.
    rewrite (done_allocated _ _ _ _ _ _ _ ok D), Hi. reflexivity.
Qed.

(** Error path: a file mapping with an address hint that fails for lack of
    memory goes on to read into the error value, since the pointer test [mem > 0]
    accepts it; when that read fails the handler answers -EBADF and unmaps the
    pages at the hint, whoever they belong to. *)
Theorem mmap_failure_unmaps_hint (pread_fn : Z -> Z -> Z -> Z -> Z * list Z) (ret_fn : Z -> Z -> Z -> Z)
  (fuel : nat) (s s1 : mman) (addr len prot flags fd offset : Z) :
  mman_ok s -> request_ok addr len -> file_flags s flags fd = true -> in_mmap_range s addr len = true ->
  enclave_mmap s addr len (Z.land flags MAP_FIXED) (Z.lor prot PROT_WRITE) 0 = (s1, u64 (- ENOMEM)) ->
  read_fails pread_fn fd (u64 (- ENOMEM)) len offset ->
  exists s', syscall_SYS_mmap pread_fn ret_fn (S fuel) s addr len prot flags fd offset = Some (s', - EBADF) /\
    forall i a, 0 <= i < mmap_num_pages s -> in_page s i a -> addr <= a < addr + len -> allocated s' i = false.
Proof.
  intros ok rq Hf Hin Hm Hfail.
  assert (mmap_failed s s1) as F.
  { pose proof (enclave_mmap_outcome s addr len (Z.land flags MAP_FIXED) (Z.lor prot PROT_WRITE) 0 ok rq) as O.
    rewrite Hm in O. inversion O as [s' F Hno|s' r top repl D Hfree Hr Heq]; subst; [exact F|exfalso].
    pose proof (md_top _ _ _ _ _ _ _ D). pose proof (md_fit _ _ _ _ _ _ _ D). pose proof (md_pages _ _ _ _ _ _ _ D).
    pose proof (page_addr_range s ok (top + DIV_ROUNDUP len PAGE_SIZE - 1) ltac:(lia)) as Hr.
    rewrite <- (md_ret _ _ _ _ _ _ _ D) in Hr. pose proof (ok_top _ ok).
    change (u64 (- ENOMEM)) with (2 ^ 64 - 12) in Hr. unfold PAGE_SIZE in *. powers. lia. }
  rewrite (file_mmap _ _ _ _ _ _ _ _ _ _ s1 _ Hf Hm) by reflexivity. destruct rq as [Hal Ha Hl Hw].
  destruct (read_file_fails pread_fn fuel s1 fd (u64 (- ENOMEM)) len offset) as (ret & -> & Hret);
    [vm_compute; intuition congruence|unfold PAGE_SIZE in *; powers; lia|exact Hfail|].
  rewrite (proj2 (Z.ltb_lt ret 0) Hret). eexists. split; [reflexivity|].
  pose proof (mf_layout _ _ F) as L.
  pose proof (enclave_munmap_outcome s1 addr len (failed_ok _ _ ok F)
    (Build_request_ok _ _ Hal Ha Hl Hw)) as O.
  assert (in_mmap_range s1 addr len = true) as Hin1
    by (unfold in_mmap_range in *; rewrite (sl_base _ _ L), (sl_end _ _ L); exact Hin).
  rewrite Hin1 in O. destruct (enclave_munmap s1 addr len) as [s2 r2]. cbn [fst].
  inversion O as [|s2' top _ U]; [discriminate|subst]. intros i a Hi Hp Har.
  rewrite (undone_allocated _ _ _ _ _ (failed_ok _ _ ok F) U).
  destruct (pages_bounds _ _ (Build_request_ok _ _ Hal Ha Hl Hw)) as [[_ Hlen] _].
  pose proof (ud_addr _ _ _ _ _ U) as Haddr. rewrite Haddr in Har. unfold page_addr in Har.
  rewrite (sl_end _ _ L) in Har. fold (page_addr s (top + DIV_ROUNDUP len PAGE_SIZE - 1)) in Har.
  rewrite (run_page s top _ len i a Hlen Hp Har). reflexivity.
Qed.

(** Safety: [munmap] never unmaps the page the caller's stack pointer is on,
    unless the stack pointer is exactly the start of the unmapped range: the
    request is recorded in the thread's attributes instead. *)
Theorem munmap_keeps_own_stack (rsp : Z) (s s' : mman) (lt lt' : lt_stack) (addr len r i : Z) :
  mman_ok s -> request_ok addr len -> len mod PAGE_SIZE = 0 -> rsp <> addr ->
  0 <= i < mmap_num_pages s -> in_page s i rsp -> allocated s i = true ->
  syscall_SYS_munmap rsp s lt addr len = Some (s', lt', r) ->
  allocated s' i = true /\ (lt' = lt \/ s' = s /\ stack lt = 0 /\ lt' = mk_lt_stack addr len).
Proof.
  intros ok rq Hmod Hne Hi Hp Hal Hs. unfold syscall_SYS_munmap in Hs.
  destruct ((addr <? rsp) && (rsp <? u64 (addr + len))) eqn:Hin.
  { destruct (Z.eqb_spec (stack lt) 0); simplify_eq. auto. }
  pose proof (enclave_munmap_outcome s addr len ok rq) as O.
  destruct (enclave_munmap s addr len) as [s2 r2]. simplify_eq.
  inversion O as [|s2 top Hr U]; subst; split; auto.
  rewrite (undone_allocated _ _ _ _ _ ok U), Hal, andb_true_r.
  destruct (in_run top (DIV_ROUNDUP len PAGE_SIZE) i) eqn:Hrun; [exfalso|reflexivity].
  apply in_run_true in Hrun. destruct (pages_bounds _ _ rq) as [[Hlo Hhi] _].
  pose proof (rq_nowrap _ _ rq). pose proof (rq_addr _ _ rq). pose proof (rq_length _ _ rq).
  rewrite u64_small in Hin by (unfold PAGE_SIZE in *; powers; lia).
  pose proof (ud_addr _ _ _ _ _ U) as Haddr.
  apply Z.mod_divide in Hmod as [k Hk]; [|unfold PAGE_SIZE; lia].
  set (pages := DIV_ROUNDUP len PAGE_SIZE) in *.
  assert (k = pages) as -> by (unfold PAGE_SIZE in *; lia).
  apply andb_false_iff in Hin. unfold in_page, page_addr, PAGE_SIZE in *.
  destruct Hin as [Hin%Z.ltb_ge|Hin%Z.ltb_ge]; lia.
Qed.

(** Equivalence: for every system call that a handler accepts, the tracing
    handlers registered by [syscall_register_mem_overrides] give the same result
    and the same memory and thread state as the plain ones. *)
Theorem tracing_transparent (pread_fn : Z -> Z -> Z -> Z -> Z * list Z) (ret_fn : Z -> Z -> Z -> Z)
  (rsp : Z) (fuel : nat) (k k1 : kstate) (nr : sysno) (args : list Z) (r : Z) :
  syscall_register_mem_overrides pread_fn ret_fn false rsp fuel k nr args = Some (k1, r) ->
  exists k2, syscall_register_mem_overrides pread_fn ret_fn true rsp fuel k nr args = Some (k2, r) /\
    ks_mman k2 = ks_mman k1 /\ ks_lt k2 = ks_lt k1 /\ ks_log k2 = (nr, r, args) :: ks_log k1.
Proof.
  unfold syscall_register_mem_overrides, handle_log. intros H.
  destruct nr; [rewrite H..| |rewrite H]; try (eexists; split; [reflexivity|auto]).
  destruct args as [|a [|b [|c [|]]]]; try discriminate H. cbn in H. injection H as <- <-.
  eexists. split; [reflexivity|auto].
Qed.

(** ** Concrete runs *)

(** A file of three bytes at descriptor 3, read in steps of two. *)
Definition abc : list Z := [97; 98; 99].
Definition pread_abc (fd buf count offset : Z) : Z * list Z :=
  let n := Z.min 2 (Z.min count (3 - offset)) in
  if 0 <? n then (n, take (Z.to_nat n) (drop (Z.to_nat offset) abc)) else (0, []).

Lemma pread_abc_ok lo hi : reads_file pread_abc 3 abc lo hi.
Proof.
  intros buf count offset _ Hc _ Ho. unfold pread_abc. cbn zeta. change (Z.of_nat (length abc)) with 3.
  destruct (Z.ltb_spec 0 (Z.min 2 (Z.min count (3 - offset)))), (Z.ltb_spec 0 (Z.min count (3 - offset)));
    try lia; auto. split; [lia|reflexivity].
Qed.

(** A booted heap that allows private file mappings. *)
Definition boot_files : mman := enclave_mman_init no_mman 65536 16 ENCLAVE_MMAP_FILES_PRIVATE.

Lemma boot_files_inv : heap_inv boot_files.
Proof.
  apply (init_inv no_mman 65536 16 _ boot_range no_mman_wf no_mman_wf). reflexivity.
Qed.

Lemma mmap_reads_file_witness :
  exists s', syscall_SYS_mmap pread_abc (fun _ _ _ => 0) 4097 boot_files 0 4096 3 MAP_PRIVATE 3 1 =
      Some (s', 122880) /\ mem s' 122881 = 99.
Proof.
  pose (s1 := fst (enclave_mmap boot_files 0 4096 (Z.land MAP_PRIVATE MAP_FIXED) (Z.lor 3 PROT_WRITE) 0)).
  destruct (mmap_reads_file pread_abc (fun _ _ _ => 0) 4097 boot_files s1 0 4096 3 MAP_PRIVATE 3 1 122880 abc
    (hi_ok _ boot_files_inv) ltac:(request) eq_refl) as (s' & Heq & Hfile & _);
    [lia|powers; lia|lia|run|vm_compute; congruence|apply pread_abc_ok|].
  exists s'. split; [exact Heq|]. rewrite (Hfile 122881). reflexivity.
Defined.

Definition pread_fails (fd buf count offset : Z) : Z * list Z := (-5, []).

Lemma mmap_read_error_leaks_witness :
  exists s', syscall_SYS_mmap pread_fails (fun _ _ _ => 0) 1 boot_files 0 4096 3 MAP_PRIVATE 3 0 =
    Some (s', - EBADF) /\ used_pages s' = 1.
Proof.
  pose (s1 := fst (enclave_mmap boot_files 0 4096 (Z.land MAP_PRIVATE MAP_FIXED) (Z.lor 3 PROT_WRITE) 0)).
  destruct (mmap_read_error_leaks pread_fails (fun _ _ _ => 0) 0 boot_files s1 4096 3 MAP_PRIVATE 3 0 122880
    (hi_ok _ boot_files_inv) ltac:(request) eq_refl) as [Heq _]; [run|vm_compute; congruence|reflexivity|].
  exists s1. split; [exact Heq|]. vm_compute. reflexivity.
Defined.

(** All 14 pages are mapped. *)
Definition full_files : mman := fst (enclave_mmap boot_files 0 (14 * 4096) 0 3 1).

Lemma full_files_inv : heap_inv full_files.
Proof. apply mmap_inv; [exact boot_files_inv|request]. Qed.

Lemma mmap_failure_unmaps_hint_witness :
  allocated full_files 3 = true /\
  exists s', syscall_SYS_mmap pread_fails (fun _ _ _ => 0) 1 full_files 110592 4096 3 MAP_PRIVATE 3 0 =
    Some (s', - EBADF) /\ allocated s' 3 = false.
Proof.
  split; [vm_compute; reflexivity|].
  pose (s1 := fst (enclave_mmap full_files 110592 4096 (Z.land MAP_PRIVATE MAP_FIXED) (Z.lor 3 PROT_WRITE) 0)).
  destruct (mmap_failure_unmaps_hint pread_fails (fun _ _ _ => 0) 0 full_files s1 110592 4096 3 MAP_PRIVATE 3 0
    (hi_ok _ full_files_inv) ltac:(request)) as (s' & Heq & Hfree);
    [vm_compute; reflexivity|vm_compute; reflexivity|run|reflexivity|].
  exists s'. split; [exact Heq|]. apply (Hfree 3 110592).
  - vm_compute. intuition congruence.
  - unfold in_page. change (page_addr full_files 3) with 110592. unfold PAGE_SIZE. lia.
  - lia.
Defined.

Lemma munmap_keeps_own_stack_witness :
  exists lt, syscall_SYS_munmap 120000 two_pages (mk_lt_stack 0 0) 118784 4096 = Some (two_pages, lt, 0) /\
    allocated two_pages 1 = true.
Proof.
  eexists. assert (syscall_SYS_munmap 120000 two_pages (mk_lt_stack 0 0) 118784 4096 =
    Some (two_pages, mk_lt_stack 118784 4096, 0)) as Heq by reflexivity.
  split; [exact Heq|].
  apply (munmap_keeps_own_stack 120000 two_pages two_pages (mk_lt_stack 0 0) _ 118784 4096 0 1
    (hi_ok _ two_pages_inv) ltac:(request)) in Heq; [apply Heq|reflexivity|lia|..].
  - vm_compute. intuition congruence.
  - unfold in_page. change (page_addr two_pages 1) with 118784. unfold PAGE_SIZE. lia.
  - vm_compute. reflexivity.
Defined.

Lemma tracing_transparent_witness :
  exists k2, syscall_register_mem_overrides pread_abc (fun _ _ _ => 0) true 0 1
    (mk_kstate boot_files (mk_lt_stack 0 0) []) NR_msync [0; 4096; 1] = Some (k2, 0) /\
    ks_log k2 = [(NR_msync, 0, [0; 4096; 1])].
Proof.
  destruct (tracing_transparent pread_abc (fun _ _ _ => 0) 0 1 (mk_kstate boot_files (mk_lt_stack 0 0) [])
    _ NR_msync [0; 4096; 1] 0 eq_refl) as (k2 & Heq & _ & _ & Hlog). eauto.
Defined.
