(* ===== verification/MpmcQueue.v ===== *)
(** * Multi-producer multi-consumer queue (src/enclave/mpmc_queue.c)

    The bounded lock-free queue through which threads are handed to the
    scheduler and futex wake-ups travel.  Every atomic access of [mpmc_enqueue]
    and [mpmc_dequeue] is one step of a thread ([tstep]); [step] interleaves the
    threads and [solo] runs one of them alone.  The queue is shown to implement a
    bounded first-in first-out buffer: a claim of a position (a successful
    compare-and-swap) is the abstract operation. *)

From stdpp Require Import functions.
From S2P Require Import Prelude.

(** ** Data *)

Record cell_t : Type := mk_cell { seq : Z; data : Z }.

Record mpmcq : Type := mk_mpmcq {
  buffer : Z -> cell_t;
  buffer_mask : Z;
  enqueue_pos : Z;
  dequeue_pos : Z
}.

Definition set_cell (q : mpmcq) (i : Z) (c : cell_t) : mpmcq :=
  mk_mpmcq (fun j => if j =? i then c else buffer q j) (buffer_mask q) (enqueue_pos q)
    (dequeue_pos q).

Definition set_enqueue_pos (q : mpmcq) (p : Z) : mpmcq :=
  mk_mpmcq (buffer q) (buffer_mask q) p (dequeue_pos q).

Definition set_dequeue_pos (q : mpmcq) (p : Z) : mpmcq :=
  mk_mpmcq (buffer q) (buffer_mask q) (enqueue_pos q) p.

(** ** Initialisation

    [bytes] is the size of the buffer in bytes, [b] its contents; [None] is the
    failure of the assertion on the number of cells. *)

Definition sizeof_cell_t : Z := 16.

Fixpoint init_cells (n : nat) (i : Z) (b : Z -> cell_t) : Z -> cell_t :=
  match n with
  | O => b
  | S n => init_cells n (i + 1) (fun j => if j =? i then mk_cell i (data (b j)) else b j)
  end.

Definition newmpmcq (bytes : Z) (b : Z -> cell_t) : option mpmcq :=
  let buffer_size := bytes / sizeof_cell_t in
  if (2 <=? buffer_size) && (Z.land buffer_size (u64 (buffer_size - 1)) =? 0)
  then Some (mk_mpmcq (init_cells (Z.to_nat buffer_size) 0 b) (u64 (buffer_size - 1)) 0 0)
  else None.

(** ** The atomic accesses of one thread

    [EStart]: before the load of [enqueue_pos]; [ESeq]: before the load of the
    cell's [seq]; [ECas]: [dif] was 0; [EWrite]: the position is claimed;
    [EPublish]: the data is stored.  Likewise for the dequeuer.  A thread that is
    done holds the returned value, for the dequeuer with the stored data. *)

Inductive pc : Type :=
| EStart (d : Z)
| ESeq (d pos : Z)
| ECas (d pos : Z)
| EWrite (d pos : Z)
| EPublish (d pos : Z)
| EDone (r : Z)
| DStart
| DSeq (pos : Z)
| DCas (pos : Z)
| DRead (pos : Z)
| DPublish (pos d : Z)
| DDone (r : option Z).

Definition cell_at (q : mpmcq) (pos : Z) : Z := Z.land pos (buffer_mask q).

(** [dif]: a difference of [intptr_t] values. *)
Definition dif (s pos : Z) : Z := s64 (s64 s - s64 pos).

(** One access.  [spurious] is the failure that a weak compare-and-swap is
    allowed; after any failure the loop goes on with the same [pos]. *)
Definition tstep (spurious : bool) (q : mpmcq) (p : pc) : mpmcq * pc :=
  match p with
  | EStart d => (q, ESeq d (enqueue_pos q))
  | ESeq d pos =>
      let v := dif (seq (buffer q (cell_at q pos))) pos in
      (q, if v =? 0 then ECas d pos else if v <? 0 then EDone 0 else EStart d)
  | ECas d pos =>
      if negb spurious && (enqueue_pos q =? pos)
      then (set_enqueue_pos q (u64 (pos + 1)), EWrite d pos)
      else (q, ESeq d pos)
  | EWrite d pos =>
      (set_cell q (cell_at q pos) (mk_cell (seq (buffer q (cell_at q pos))) d), EPublish d pos)
  | EPublish d pos =>
      (set_cell q (cell_at q pos) (mk_cell (u64 (pos + 1)) (data (buffer q (cell_at q pos)))), EDone 1)
  | DStart => (q, DSeq (dequeue_pos q))
  | DSeq pos =>
      let v := dif (seq (buffer q (cell_at q pos))) (u64 (pos + 1)) in
      (q, if v =? 0 then DCas pos else if v <? 0 then DDone None else DStart)
  | DCas pos =>
      if negb spurious && (dequeue_pos q =? pos)
      then (set_dequeue_pos q (u64 (pos + 1)), DRead pos)
      else (q, DSeq pos)
  | DRead pos => (q, DPublish pos (data (buffer q (cell_at q pos))))
  | DPublish pos d =>
      (set_cell q (cell_at q pos)
         (mk_cell (u64 (pos + buffer_mask q + 1)) (data (buffer q (cell_at q pos)))), DDone (Some d))
  | EDone r => (q, EDone r)
  | DDone r => (q, DDone r)
  end.

Definition finished (p : pc) : bool :=
  match p with EDone _ | DDone _ => true | _ => false end.

(** ** One thread alone *)

Fixpoint solo (fuel : nat) (q : mpmcq) (p : pc) : mpmcq * pc :=
  match fuel with
  | O => (q, p)
  | S fuel => let '(q, p) := tstep false q p in if finished p then (q, p) else solo fuel q p
  end.

(** Five accesses are the straight path through either function. *)
Definition mpmc_enqueue (q : mpmcq) (d : Z) : mpmcq * pc := solo 5 q (EStart d).
Definition mpmc_dequeue (q : mpmcq) : mpmcq * pc := solo 5 q DStart.

(** ** Interleaving *)

Record config : Type := mk_config { qu : mpmcq; thr : nat -> pc }.

Inductive label : Type :=
| LTau                         (* an access with no effect on the buffer's contents *)
| LPush (t : nat) (d : Z)      (* an enqueuer claims its position *)
| LPop (t : nat)               (* a dequeuer claims its position *)
| LTaken (t : nat) (d : Z)     (* a dequeuer returns 1 with [d] *)
| LCall (t : nat) (p : pc).    (* a finished thread starts its next call *)

Definition label_of (t : nat) (p p' : pc) : label :=
  match p, p' with
  | ECas d _, EWrite _ _ => LPush t d
  | DCas _, DRead _ => LPop t
  | DPublish _ _, DDone (Some d) => LTaken t d
  | _, _ => LTau
  end.

Definition is_call (p : pc) : bool :=
  match p with EStart _ | DStart => true | _ => false end.

(** The counters are 64 bits wide; the runs considered perform fewer than 2^62
    claims, so that they do not wrap around. *)
Inductive step : config -> label -> config -> Prop :=
| step_access c t spurious q p :
    finished (thr c t) = false -> tstep spurious (qu c) (thr c t) = (q, p) ->
    enqueue_pos q < 2 ^ 62 ->
    step c (label_of t (thr c t) p) (mk_config q (<[t := p]> (thr c)))
| step_call c t p :
    finished (thr c t) = true -> is_call p = true ->
    step c (LCall t p) (mk_config (qu c) (<[t := p]> (thr c))).

(** ** The abstract buffer

    [items] is what the buffer holds, oldest first; [taken t] is what the current
    dequeue of [t] has removed. *)

Record abuf : Type := mk_abuf { cap : Z; items : list Z; taken : nat -> option Z }.

Inductive astep : abuf -> label -> abuf -> Prop :=
| astep_tau a : astep a LTau a
| astep_push n l g t d :
    Z.of_nat (length l) < n -> astep (mk_abuf n l g) (LPush t d) (mk_abuf n (l ++ [d]) g)
| astep_pop n l g t d :
    astep (mk_abuf n (d :: l) g) (LPop t) (mk_abuf n l (<[t := Some d]> g))
| astep_taken n l g t d :
    g t = Some d -> astep (mk_abuf n l g) (LTaken t d) (mk_abuf n l (<[t := None]> g))
| astep_call a t p : astep a (LCall t p) a.

(** ** Coupling of the queue with the abstract buffer *)

(** The position and data of a claimed but unpublished enqueue, and the position
    of a claimed but unpublished dequeue. *)
Definition pend_e (p : pc) : option (Z * Z) :=
  match p with EWrite d pos | EPublish d pos => Some (pos, d) | _ => None end.

Definition pend_d (p : pc) : option Z :=
  match p with DRead pos | DPublish pos _ => Some pos | _ => None end.

Definition at_pos (q : mpmcq) (n p : Z) : cell_t := buffer q (p mod n).

(** What a thread knows between two accesses. *)
Definition knows (q : mpmcq) (n : Z) (g : option Z) (p : pc) : Prop :=
  match p with
  | ESeq _ pos => 0 <= pos <= enqueue_pos q
  | ECas _ pos => 0 <= pos <= enqueue_pos q /\ (pos = enqueue_pos q -> seq (at_pos q n pos) = pos)
  | EPublish d pos => data (at_pos q n pos) = d
  | DSeq pos => 0 <= pos <= dequeue_pos q
  | DCas pos => 0 <= pos <= dequeue_pos q /\ (pos = dequeue_pos q -> seq (at_pos q n pos) = pos + 1)
  | DRead pos => g = Some (data (at_pos q n pos))
  | DPublish _ d => g = Some d
  | _ => True
  end.

Record coupled (c : config) (a : abuf) : Prop := {
  cp_cap : exists k, 1 <= k <= 60 /\ cap a = 2 ^ k;
  cp_mask : buffer_mask (qu c) = cap a - 1;
  cp_deq : 0 <= dequeue_pos (qu c);
  cp_enq : enqueue_pos (qu c) = dequeue_pos (qu c) + Z.of_nat (length (items a));
  cp_len : Z.of_nat (length (items a)) <= cap a;
  cp_max : enqueue_pos (qu c) < 2 ^ 62;
  cp_knows : forall t, knows (qu c) (cap a) (taken a t) (thr c t);
  cp_pend_e : forall t p d, pend_e (thr c t) = Some (p, d) ->
    dequeue_pos (qu c) <= p < enqueue_pos (qu c) /\ seq (at_pos (qu c) (cap a) p) = p /\
    items a !! Z.to_nat (p - dequeue_pos (qu c)) = Some d;
  cp_uniq_e : forall t t' p d d', pend_e (thr c t) = Some (p, d) ->
    pend_e (thr c t') = Some (p, d') -> t = t';
  cp_pend_d : forall t p, pend_d (thr c t) = Some p ->
    0 <= p < dequeue_pos (qu c) /\ enqueue_pos (qu c) <= p + cap a /\
    seq (at_pos (qu c) (cap a) p) = p + 1;
  cp_uniq_d : forall t t' p, pend_d (thr c t) = Some p -> pend_d (thr c t') = Some p -> t = t';
  cp_full : forall p, dequeue_pos (qu c) <= p < enqueue_pos (qu c) ->
    (seq (at_pos (qu c) (cap a) p) = p + 1 /\
     items a !! Z.to_nat (p - dequeue_pos (qu c)) = Some (data (at_pos (qu c) (cap a) p))) \/
    exists t d, pend_e (thr c t) = Some (p, d);
  cp_free : forall p, enqueue_pos (qu c) <= p < dequeue_pos (qu c) + cap a ->
    seq (at_pos (qu c) (cap a) p) = p \/ exists t, pend_d (thr c t) = Some (p - cap a)
}.

Lemma mod_neq n p p' : 0 < n -> p <> p' -> Z.abs (p - p') < n -> p mod n <> p' mod n.
Proof.
  intros Hn Hne Hlt Heq. assert ((p - p') mod n = 0) as Hm.
  { rewrite Zminus_mod, Heq, Z.sub_diag. apply Zmod_0_l. }
  apply Z.mod_divide in Hm as [k Hk]; [|lia]. assert (k = 0) by nia. nia.
Qed.

(** Case analysis: is [u] the thread that moved? *)
Ltac thread u t :=
  destruct (decide (t = u)) as [<-|];
  [rewrite ?fn_lookup_insert in *|rewrite ?(fn_lookup_insert_ne _ t u) in * by assumption].

Section Access.
Variables (c : config) (a : abuf).
Hypothesis C : coupled c a.
Abbreviation q := (qu c).
Abbreviation Nc := (cap a).
Abbreviation E := (enqueue_pos (qu c)).
Abbreviation D := (dequeue_pos (qu c)).

Lemma cap_bounds : 2 <= Nc <= 2 ^ 60.
Proof.
destruct (cp_cap _ _ C) as (k & Hk & ->). split.
- change 2 with (2 ^ 1) at 1. apply Z.pow_le_mono_r; lia.
- apply Z.pow_le_mono_r; lia.
Qed.

Lemma cell_at_mod p : 0 <= p -> cell_at q p = p mod Nc.
Proof.
intros Hp. unfold cell_at. rewrite (cp_mask _ _ C). destruct (cp_cap _ _ C) as (k & Hk & ->).
rewrite Z.sub_1_r, <- Z.ones_equiv. apply Z.land_ones. lia.
Qed.

(** The cell at [p] after a store to the cell of [p0]. *)
Lemma at_set p0 p x :
0 <= p0 -> at_pos (set_cell q (cell_at q p0) x) Nc p =
  if p mod Nc =? p0 mod Nc then x else at_pos q Nc p.
Proof. intros Hp. rewrite cell_at_mod by exact Hp. reflexivity. Qed.

Lemma at_set_eq p0 x : 0 <= p0 -> at_pos (set_cell q (cell_at q p0) x) Nc p0 = x.
Proof. intros. rewrite at_set, Z.eqb_refl by assumption. reflexivity. Qed.

Lemma at_set_ne p0 p x :
0 <= p0 -> p <> p0 -> Z.abs (p - p0) < Nc ->
at_pos (set_cell q (cell_at q p0) x) Nc p = at_pos q Nc p.
Proof.
intros. pose proof cap_bounds. rewrite at_set by assumption.
rewrite (proj2 (Z.eqb_neq _ _)); [reflexivity|]. apply mod_neq; lia.
Qed.

(** An access that changes neither the queue nor the claims of the thread. *)
Lemma coupled_local t p :
pend_e (thr c t) = None -> pend_d (thr c t) = None -> pend_e p = None -> pend_d p = None ->
knows q Nc (taken a t) p -> coupled (mk_config q (<[t := p]> (thr c))) a.
Proof.
intros He Hd He' Hd' Hk.
assert (forall u, pend_e (<[t := p]> (thr c) u) = pend_e (thr c u)) as Pe.
{ intros u. thread u t; congruence. }
assert (forall u, pend_d (<[t := p]> (thr c) u) = pend_d (thr c u)) as Pd.
{ intros u. thread u t; congruence. }
destruct C. constructor; cbn [qu thr]; auto.
- intros u. thread u t; auto.
- intros u. rewrite Pe. apply cp_pend_e0.
- intros u u' x d d'. rewrite !Pe. eauto.
- intros u. rewrite Pd. apply cp_pend_d0.
- intros u u' x. rewrite !Pd. eauto.
- intros x Hx. destruct (cp_full0 x Hx) as [?|(u & d & Hu)]; [left; assumption|].
  right. exists u, d. rewrite Pe. exact Hu.
- intros x Hx. destruct (cp_free0 x Hx) as [?|(u & Hu)]; [left; assumption|].
  right. exists u. rewrite Pd. exact Hu.
Qed.

(** A claim is possible only when the abstract buffer allows it. *)
Lemma cas_room : seq (at_pos q Nc E) = E -> Z.of_nat (length (items a)) < Nc.
Proof.
intros Hs. pose proof cap_bounds. pose proof (cp_len _ _ C). pose proof (cp_enq _ _ C) as HE.
destruct (Z.eq_dec (Z.of_nat (length (items a))) Nc) as [Hfull|]; [exfalso|lia].
assert (at_pos q Nc E = at_pos q Nc D) as Heq.
{ unfold at_pos. rewrite HE, Hfull. replace (D + Nc) with (D + 1 * Nc) by lia.
  rewrite Z_mod_plus_full. reflexivity. }
rewrite Heq in Hs.
destruct (cp_full _ _ C D ltac:(lia)) as [[Hf _]|(t & d & Ht)]; [lia|].
destruct (cp_pend_e _ _ C _ _ _ Ht) as (_ & Hp & _). lia.
Qed.

Lemma cas_item :
seq (at_pos q Nc D) = D + 1 ->
exists l, items a = data (at_pos q Nc D) :: l.
Proof.
intros Hs. pose proof cap_bounds. pose proof (cp_len _ _ C). pose proof (cp_enq _ _ C) as HE.
destruct (Z.eq_dec (Z.of_nat (length (items a))) 0) as [Hz|].
- exfalso. destruct (cp_free _ _ C D ltac:(lia)) as [Hf|(t & Ht)]; [lia|].
  destruct (cp_pend_d _ _ C _ _ Ht) as (_ & _ & Hp).
  assert (at_pos q Nc (D - Nc) = at_pos q Nc D) as Heq.
  { unfold at_pos. replace (D - Nc) with (D + (-1) * Nc) by lia. rewrite Z_mod_plus_full. reflexivity. }
  rewrite Heq in Hp. lia.
- destruct (cp_full _ _ C D ltac:(lia)) as [[_ Hi]|(t & d & Ht)].
  + rewrite Z.sub_diag in Hi. destruct (items a) as [|x l]; [discriminate|].
    exists l. change (Some x = Some (data (at_pos q Nc D))) in Hi. congruence.
  + destruct (cp_pend_e _ _ C _ _ _ Ht) as (_ & Hp & _). lia.
Qed.
End Access.

Section Effects.
Variables (c : config) (a : abuf) (t : nat).
Hypothesis C : coupled c a.
Abbreviation q := (qu c).
Abbreviation Nc := (cap a).
Abbreviation E := (enqueue_pos (qu c)).
Abbreviation D := (dequeue_pos (qu c)).

Lemma coupled_push d :
thr c t = ECas d E -> E + 1 < 2 ^ 62 ->
Z.of_nat (length (items a)) < Nc /\
coupled (mk_config (set_enqueue_pos q (E + 1)) (<[t := EWrite d E]> (thr c)))
  (mk_abuf Nc (items a ++ [d]) (taken a)).
Proof.
intros Ht Hmax. pose proof (cap_bounds _ _ C). pose proof (cp_knows _ _ C t) as Hk.
rewrite Ht in Hk. destruct Hk as [_ Hseq]. specialize (Hseq eq_refl).
pose proof (cas_room _ _ C Hseq) as Hroom. split; [exact Hroom|].
assert (pend_d (thr c t) = None) as Hd0 by (rewrite Ht; reflexivity).
destruct C. constructor; cbn [qu thr items cap taken set_enqueue_pos enqueue_pos dequeue_pos buffer
  buffer_mask]; try assumption; try (rewrite ?length_app; cbn [length]; lia).
- intros u. thread u t; [exact I|]. specialize (cp_knows0 u).
  destruct (thr c u); cbn in *; try assumption; lia.
- intros u p d'. thread u t; intros Hu.
  + injection Hu as <- <-. split; [lia|]. split; [exact Hseq|].
    rewrite lookup_app_r by lia. replace (_ - _)%nat with 0%nat by lia. reflexivity.
  + destruct (cp_pend_e0 _ _ _ Hu) as (Hr & Hs & Hi). split; [lia|]. split; [exact Hs|].
    apply lookup_app_l_Some, Hi.
- intros u u' p d1 d2. thread u t; thread u' t; intros H1 H2; simplify_eq/=; eauto.
  + destruct (cp_pend_e0 _ _ _ H2). lia.
  + destruct (cp_pend_e0 _ _ _ H1). lia.
- intros u p. thread u t; intros Hu; [discriminate|]. destruct (cp_pend_d0 _ _ Hu) as (Hr & Hf & Hs).
  split; [exact Hr|]. split; [|exact Hs]. destruct (Z.eq_dec (p + Nc) E) as [He|]; [exfalso|lia].
  assert (at_pos q Nc E = at_pos q Nc p) as Heq.
  { unfold at_pos. rewrite <- He. replace (p + Nc) with (p + 1 * Nc) by lia.
    rewrite Z_mod_plus_full. reflexivity. }
  rewrite Heq in Hseq. lia.
- intros u u' p. thread u t; thread u' t; intros H1 H2; simplify_eq/=; eauto.
- intros p Hp. destruct (Z.eq_dec p E) as [->|].
  + right. exists t, d. rewrite fn_lookup_insert. reflexivity.
  + destruct (cp_full0 p ltac:(lia)) as [[Hs Hi]|(u & d' & Hu)].
    * left. split; [exact Hs|]. apply lookup_app_l_Some, Hi.
    * right. exists u, d'. thread u t; [rewrite Ht in Hu; discriminate|exact Hu].
- intros p Hp. destruct (cp_free0 p ltac:(lia)) as [Hs|(u & Hu)]; [left; exact Hs|].
  right. exists u. thread u t; [congruence|exact Hu].
Qed.

Lemma items_tail v (l : list Z) p :
D < p -> (v :: l) !! Z.to_nat (p - D) = l !! Z.to_nat (p - (D + 1)).
Proof.
intros Hp. replace (Z.to_nat (p - D)) with (S (Z.to_nat (p - (D + 1)))) by lia. reflexivity.
Qed.

Lemma coupled_pop :
thr c t = DCas D ->
exists v l, items a = v :: l /\
  coupled (mk_config (set_dequeue_pos q (D + 1)) (<[t := DRead D]> (thr c)))
    (mk_abuf Nc l (<[t := Some v]> (taken a))).
Proof.
intros Ht. pose proof (cap_bounds _ _ C). pose proof (cp_knows _ _ C t) as Hk.
rewrite Ht in Hk. destruct Hk as [_ Hseq]. specialize (Hseq eq_refl).
destruct (cas_item _ _ C Hseq) as [l Hl]. exists (data (at_pos q Nc D)), l. split; [exact Hl|].
assert (pend_e (thr c t) = None) as He0 by (rewrite Ht; reflexivity).
destruct C. rewrite Hl in *. cbn [length] in *.
constructor; cbn [qu thr items cap taken set_dequeue_pos enqueue_pos dequeue_pos buffer
  buffer_mask]; try assumption; try lia.
- intros u. thread u t; [reflexivity|]. specialize (cp_knows0 u).
  destruct (thr c u); cbn in *; try assumption; lia.
- intros u p d. thread u t; intros Hu; [discriminate|].
  destruct (cp_pend_e0 _ _ _ Hu) as (Hr & Hs & Hi).
  destruct (Z.eq_dec p D) as [->|]; [lia|]. rewrite items_tail in Hi by lia.
  split; [lia|]. split; assumption.
- intros u u' p d1 d2. thread u t; thread u' t; intros H1 H2; simplify_eq/=; eauto.
- intros u p. thread u t; intros Hu.
  + injection Hu as <-. split; [lia|]. split; [lia|exact Hseq].
  + destruct (cp_pend_d0 _ _ Hu) as (Hr & Hf & Hs). split; [lia|]. split; assumption.
- intros u u' p. thread u t; thread u' t; intros H1 H2; simplify_eq/=; eauto.
  + destruct (cp_pend_d0 _ _ H2). lia.
  + destruct (cp_pend_d0 _ _ H1). lia.
- intros p Hp. destruct (cp_full0 p ltac:(lia)) as [[Hs Hi]|(u & d' & Hu)].
  + left. rewrite items_tail in Hi by lia. split; assumption.
  + right. exists u, d'. thread u t; [congruence|exact Hu].
- intros p Hp. destruct (Z.eq_dec p (D + Nc)) as [->|].
  + right. exists t. rewrite fn_lookup_insert. cbn. f_equal. lia.
  + destruct (cp_free0 p ltac:(lia)) as [Hs|(u & Hu)]; [left; exact Hs|].
    right. exists u. thread u t; [rewrite Ht in Hu; discriminate|exact Hu].
Qed.

(** The cell of a position [p] after a store to that of [p0]: only [p0] and its
  neighbours one round away are affected. *)
Lemma cell_frame p0 p x :
0 <= p0 -> Z.abs (p - p0) < 2 * Nc -> p <> p0 -> p <> p0 + Nc -> p <> p0 - Nc ->
at_pos (set_cell q (cell_at q p0) x) Nc p = at_pos q Nc p.
Proof.
intros H0 Hp Hne1 Hne2 Hne3. pose proof (cap_bounds _ _ C).
rewrite (at_set c a C) by exact H0.
destruct (Z.eqb_spec (p mod Nc) (p0 mod Nc)) as [He|]; [|reflexivity]. exfalso.
assert ((p - p0) mod Nc = 0) as Hm by (rewrite Zminus_mod, He, Z.sub_diag; apply Zmod_0_l).
apply Z.mod_divide in Hm as [k Hk]; [|lia]. assert (-2 < k < 2) by nia.
assert (k = 0 \/ k = 1 \/ k = -1) by lia. lia.
Qed.

(** A store that keeps the sequence number. *)
Lemma seq_frame p0 p d :
0 <= p0 ->
seq (at_pos (set_cell q (cell_at q p0) (mk_cell (seq (at_pos q Nc p0)) d)) Nc p) =
seq (at_pos q Nc p).
Proof.
intros H0. rewrite (at_set c a C) by exact H0.
destruct (Z.eqb_spec (p mod Nc) (p0 mod Nc)) as [He|]; [|reflexivity].
unfold at_pos. rewrite He. reflexivity.
Qed.

Lemma coupled_write d p0 :
thr c t = EWrite d p0 ->
coupled (mk_config (set_cell q (cell_at q p0) (mk_cell (seq (at_pos q Nc p0)) d))
  (<[t := EPublish d p0]> (thr c))) a.
Proof.
intros Ht. pose proof (cap_bounds _ _ C).
assert (pend_e (thr c t) = Some (p0, d)) as Hp0 by (rewrite Ht; reflexivity).
destruct (cp_pend_e _ _ C _ _ _ Hp0) as (Hr0 & Hs0 & Hi0). pose proof (cp_deq _ _ C).
pose proof (cp_enq _ _ C) as HE. pose proof (cp_len _ _ C).
assert (forall u, pend_e (<[t := EPublish d p0]> (thr c) u) = pend_e (thr c u)) as Pe
  by (intros u; thread u t; [symmetry; exact Hp0|reflexivity]).
assert (forall u, pend_d (<[t := EPublish d p0]> (thr c) u) = pend_d (thr c u)) as Pd
  by (intros u; thread u t; [rewrite Ht|]; reflexivity).
set (q' := set_cell q (cell_at q p0) _).
assert (forall p, seq (at_pos q' Nc p) = seq (at_pos q Nc p)) as Hseq
  by (intros p; apply seq_frame; lia).
assert (forall p, E - Nc <= p < E -> p <> p0 -> at_pos q' Nc p = at_pos q Nc p) as Hfr
  by (intros p Hp Hne; apply (at_set_ne c a C); lia).
destruct C. constructor; cbn [qu thr]; try assumption.
- intros u. thread u t.
  + change (data (at_pos q' Nc p0) = d). unfold q'. rewrite (at_set_eq c a C) by lia. reflexivity.
  + specialize (cp_knows0 u). destruct (thr c u) eqn:Hu; cbn [knows] in *; rewrite ?Hseq; try assumption.
    * assert (pend_e (thr c u) = Some (pos, d0)) as Hpu by (rewrite Hu; reflexivity).
      destruct (cp_pend_e0 _ _ _ Hpu) as (Hr & _). rewrite Hfr; [assumption|lia|].
      intros ->. destruct (cp_uniq_e0 _ _ _ _ _ Hp0 Hpu). congruence.
    * assert (pend_d (thr c u) = Some pos) as Hpu by (rewrite Hu; reflexivity).
      destruct (cp_pend_d0 _ _ Hpu) as (Hr & Hf & _). rewrite Hfr by lia. assumption.
- intros u p d'. rewrite Pe, Hseq. apply cp_pend_e0.
- intros u u' p d1 d2. rewrite !Pe. eauto.
- intros u p. rewrite Pd, Hseq. apply cp_pend_d0.
- intros u u' p. rewrite !Pd. eauto.
- intros p Hp. destruct (Z.eq_dec p p0) as [->|Hne].
  + right. exists t, d. rewrite Pe. exact Hp0.
  + rewrite Hseq. change (dequeue_pos q') with D in *. change (enqueue_pos q') with E in *.
    rewrite Hfr by lia. destruct (cp_full0 p Hp) as [?|(u & d' & Hu)]; [left; assumption|].
    right. exists u, d'. rewrite Pe. exact Hu.
- intros p Hp. rewrite Hseq. destruct (cp_free0 p Hp) as [?|(u & Hu)]; [left; assumption|].
  right. exists u. rewrite Pd. exact Hu.
Qed.

Lemma round (q' : mpmcq) p : at_pos q' Nc (p + Nc) = at_pos q' Nc p.
Proof.
unfold at_pos. replace (p + Nc) with (p + 1 * Nc) by lia. rewrite Z_mod_plus_full. reflexivity.
Qed.

(** What the other threads know survives the publication at a claimed position. *)
Lemma knows_publish p0 x u :
pend_e (thr c t) = Some (p0, data x) \/ pend_d (thr c t) = Some p0 ->
t <> u ->
knows (set_cell q (cell_at q p0) x) Nc (taken a u) (thr c u).
Proof.
intros Hclaim Hne. pose proof (cap_bounds _ _ C). pose proof (cp_deq _ _ C).
pose proof (cp_enq _ _ C). pose proof (cp_len _ _ C).
assert (0 <= p0 /\ E - Nc <= p0 < E) as [Hge Hp0].
{ destruct Hclaim as [Hc|Hc]; [apply (cp_pend_e _ _ C) in Hc|apply (cp_pend_d _ _ C) in Hc]; lia. }
assert (p0 < D -> seq (at_pos q Nc p0) = p0 + 1) as Hsd.
{ intros. destruct Hclaim as [Hc|Hc]; [apply (cp_pend_e _ _ C) in Hc|apply (cp_pend_d _ _ C) in Hc]; lia. }
assert (D <= p0 -> seq (at_pos q Nc p0) = p0) as Hse.
{ intros. destruct Hclaim as [Hc|Hc]; [apply (cp_pend_e _ _ C) in Hc|apply (cp_pend_d _ _ C) in Hc]; lia. }
pose proof (cp_knows _ _ C u) as Hk. destruct (thr c u) eqn:Hu; cbn [knows] in *; try assumption.
- destruct Hk as [Hk1 Hk2]. split; [exact Hk1|]. cbn [set_cell enqueue_pos]. intros ->.
  specialize (Hk2 eq_refl). destruct (Z.eq_dec E (p0 + Nc)) as [He|].
  + exfalso. rewrite He, round in Hk2. destruct (Z.lt_ge_cases p0 D); [specialize (Hsd ltac:(lia))|specialize (Hse ltac:(lia))]; lia.
  + rewrite cell_frame by lia. exact Hk2.
- assert (pend_e (thr c u) = Some (pos, d)) as Hpu by (rewrite Hu; reflexivity).
  destruct (cp_pend_e _ _ C _ _ _ Hpu) as (Hr & Hs & _). rewrite (at_set_ne c a C); [exact Hk|lia| |lia].
  intros ->. destruct Hclaim as [Hc|Hc]; [apply Hne; eapply (cp_uniq_e _ _ C); eauto|].
  apply (cp_pend_d _ _ C) in Hc. lia.
- destruct Hk as [Hk1 Hk2]. split; [exact Hk1|]. cbn [set_cell dequeue_pos]. intros ->.
  specialize (Hk2 eq_refl). destruct (Z.eq_dec D p0) as [He|].
  + rewrite <- He in Hse. specialize (Hse ltac:(lia)). lia.
  + destruct (Z.eq_dec D (p0 + Nc)) as [He|]; [|rewrite cell_frame by lia; exact Hk2].
    exfalso. rewrite He, round in Hk2. specialize (Hsd ltac:(lia)). lia.
- assert (pend_d (thr c u) = Some pos) as Hpu by (rewrite Hu; reflexivity).
  destruct (cp_pend_d _ _ C _ _ Hpu) as (Hr & Hs & _). rewrite (at_set_ne c a C); [exact Hk|lia| |lia].
  intros ->. destruct Hclaim as [Hc|Hc]; [apply (cp_pend_e _ _ C) in Hc; lia|].
  apply Hne. eapply (cp_uniq_d _ _ C); eauto.
Qed.

(** The load of the data by a dequeuer. *)
Lemma coupled_read p0 :
thr c t = DRead p0 ->
coupled (mk_config q (<[t := DPublish p0 (data (at_pos q Nc p0))]> (thr c))) a.
Proof.
intros Ht. pose proof (cp_knows _ _ C t) as Hk. rewrite Ht in Hk. cbn [knows] in Hk.
assert (forall u, pend_e (<[t := DPublish p0 (data (at_pos q Nc p0))]> (thr c) u) = pend_e (thr c u)) as Pe
  by (intros u; thread u t; [rewrite Ht|]; reflexivity).
assert (forall u, pend_d (<[t := DPublish p0 (data (at_pos q Nc p0))]> (thr c) u) = pend_d (thr c u)) as Pd
  by (intros u; thread u t; [rewrite Ht|]; reflexivity).
destruct C. constructor; cbn [qu thr]; try assumption.
- intros u. thread u t; [exact Hk|apply cp_knows0].
- intros u. rewrite Pe. apply cp_pend_e0.
- intros u u' x d d'. rewrite !Pe. eauto.
- intros u. rewrite Pd. apply cp_pend_d0.
- intros u u' x. rewrite !Pd. eauto.
- intros x Hx. destruct (cp_full0 x Hx) as [?|(u & d & Hu)]; [left; assumption|].
  right. exists u, d. rewrite Pe. exact Hu.
- intros x Hx. destruct (cp_free0 x Hx) as [?|(u & Hu)]; [left; assumption|].
  right. exists u. rewrite Pd. exact Hu.
Qed.

Lemma coupled_publish d p0 :
thr c t = EPublish d p0 ->
coupled (mk_config (set_cell q (cell_at q p0) (mk_cell (p0 + 1) (data (at_pos q Nc p0))))
  (<[t := EDone 1]> (thr c))) a.
Proof.
intros Ht. pose proof (cap_bounds _ _ C).
assert (pend_e (thr c t) = Some (p0, d)) as Hp0 by (rewrite Ht; reflexivity).
destruct (cp_pend_e _ _ C _ _ _ Hp0) as (Hr0 & Hs0 & Hi0). pose proof (cp_deq _ _ C).
pose proof (cp_enq _ _ C) as HE. pose proof (cp_len _ _ C).
pose proof (cp_knows _ _ C t) as Hd. rewrite Ht in Hd. cbn [knows] in Hd. rewrite Hd.
pose proof (knows_publish p0 (mk_cell (p0 + 1) d)) as Hkn.
set (q' := set_cell q (cell_at q p0) _) in *.
assert (forall p, E - Nc <= p < D + Nc -> p <> p0 -> at_pos q' Nc p = at_pos q Nc p) as Hfr
  by (intros p Hp Hne; apply (at_set_ne c a C); lia).
assert (pend_d (thr c t) = None) as Hdn by (rewrite Ht; reflexivity).
destruct C. constructor; cbn [qu thr]; try assumption.
- intros u. thread u t; [exact I|]. apply Hkn; auto.
- intros u p d'. thread u t; [discriminate|]. intros Hu.
  destruct (cp_pend_e0 _ _ _ Hu) as (Hr & Hs & Hi). rewrite Hfr; [auto|lia|].
  intros ->. destruct (cp_uniq_e0 _ _ _ _ _ Hp0 Hu). congruence.
- intros u u' p d1 d2. thread u t; thread u' t; intros; simplify_eq/=; eauto.
- intros u p. thread u t; [discriminate|]. intros Hu.
  destruct (cp_pend_d0 _ _ Hu) as (Hr & Hf & Hs). rewrite Hfr by lia. auto.
- intros u u' p. thread u t; thread u' t; intros; simplify_eq/=; eauto.
- intros p Hp. change (dequeue_pos q') with D in *. change (enqueue_pos q') with E in *.
  destruct (Z.eq_dec p p0) as [->|Hne].
  + left. unfold q'. rewrite (at_set_eq c a C) by lia. split; [reflexivity|exact Hi0].
  + rewrite Hfr by lia. destruct (cp_full0 p Hp) as [?|(u & d' & Hu)]; [left; assumption|].
    right. exists u, d'. thread u t; [congruence|exact Hu].
- intros p Hp. change (dequeue_pos q') with D in *. change (enqueue_pos q') with E in *.
  rewrite Hfr by lia. destruct (cp_free0 p Hp) as [?|(u & Hu)]; [left; assumption|].
  right. exists u. thread u t; [congruence|exact Hu].
Qed.

Lemma coupled_release d p0 :
thr c t = DPublish p0 d ->
coupled (mk_config (set_cell q (cell_at q p0) (mk_cell (p0 + Nc) (data (at_pos q Nc p0))))
  (<[t := DDone (Some d)]> (thr c))) (mk_abuf Nc (items a) (<[t := None]> (taken a))).
Proof.
intros Ht. pose proof (cap_bounds _ _ C).
assert (pend_d (thr c t) = Some p0) as Hp0 by (rewrite Ht; reflexivity).
destruct (cp_pend_d _ _ C _ _ Hp0) as (Hr0 & Hf0 & Hs0).
pose proof (cp_enq _ _ C) as HE. pose proof (cp_len _ _ C).
pose proof (knows_publish p0 (mk_cell (p0 + Nc) (data (at_pos q Nc p0)))) as Hkn.
set (q' := set_cell q (cell_at q p0) _) in *.
assert (forall p, E - Nc <= p < D + Nc -> p <> p0 -> p <> p0 + Nc ->
  at_pos q' Nc p = at_pos q Nc p) as Hfr by (intros p Hp Hne1 Hne2; apply cell_frame; lia).
assert (pend_e (thr c t) = None) as Hdn by (rewrite Ht; reflexivity).
destruct C. constructor; cbn [qu thr cap items taken]; try assumption.
- intros u. thread u t; [exact I|]. apply Hkn; auto.
- intros u p d'. thread u t; [discriminate|]. intros Hu.
  destruct (cp_pend_e0 _ _ _ Hu) as (Hr & Hs & Hi). rewrite Hfr by lia. auto.
- intros u u' p d1 d2. thread u t; thread u' t; intros; simplify_eq/=; eauto.
- intros u p. thread u t; [discriminate|]. intros Hu.
  destruct (cp_pend_d0 _ _ Hu) as (Hr & Hf & Hs). rewrite Hfr; [auto|lia| |lia].
  intros ->. destruct (cp_uniq_d0 _ _ _ Hp0 Hu). congruence.
- intros u u' p. thread u t; thread u' t; intros; simplify_eq/=; eauto.
- intros p Hp. change (dequeue_pos q') with D in *. change (enqueue_pos q') with E in *.
  rewrite Hfr by lia. destruct (cp_full0 p Hp) as [?|(u & d' & Hu)]; [left; assumption|].
  right. exists u, d'. thread u t; [congruence|exact Hu].
- intros p Hp. change (dequeue_pos q') with D in *. change (enqueue_pos q') with E in *.
  destruct (Z.eq_dec p (p0 + Nc)) as [->|Hne].
  + left. rewrite round. unfold q'. rewrite (at_set_eq c a C) by lia. reflexivity.
  + rewrite Hfr by lia. destruct (cp_free0 p Hp) as [?|(u & Hu)]; [left; assumption|].
    right. exists u. thread u t; [rewrite Hp0 in Hu; injection Hu; lia|exact Hu].
Qed.
End Effects.

(** ** The simulation *)

Section Simulation.
Variables (c : config) (a : abuf).
Hypothesis C : coupled c a.
Abbreviation q := (qu c).
Abbreviation Nc := (cap a).

Lemma seq_range x : 0 <= seq (at_pos q Nc x) < 2 ^ 63 - 1.
Proof.
pose proof (cap_bounds _ _ C). pose proof (cp_deq _ _ C). pose proof (cp_max _ _ C).
pose proof (cp_enq _ _ C). pose proof (cp_len _ _ C).
pose (p := dequeue_pos q + (x - dequeue_pos q) mod Nc).
assert (at_pos q Nc x = at_pos q Nc p) as ->.
{ unfold at_pos, p. rewrite Zplus_mod_idemp_r. do 2 f_equal. lia. }
assert (dequeue_pos q <= p < dequeue_pos q + Nc) as Hp.
{ pose proof (Z.mod_pos_bound (x - dequeue_pos q) Nc ltac:(lia)). lia. }
change (2 ^ 62) with 4611686018427387904 in *. change (2 ^ 60) with 1152921504606846976 in *. powers.
destruct (Z.lt_ge_cases p (enqueue_pos q)) as [Hlt|Hge].
- destruct (cp_full _ _ C p ltac:(lia)) as [[Hs _]|(t & d & Ht)]; [lia|].
  destruct (cp_pend_e _ _ C _ _ _ Ht) as (_ & Hs & _). lia.
- destruct (cp_free _ _ C p ltac:(lia)) as [Hs|(t & Ht)]; [lia|].
  destruct (cp_pend_d _ _ C _ _ Ht) as (Hr & _ & Hs).
  rewrite <- (round a q (p - Nc)) in Hs. replace (p - Nc + Nc) with p in Hs by lia. lia.
Qed.

Lemma dif_spec p : 0 <= p <= 2 ^ 62 -> dif (seq (buffer q (cell_at q p))) p = seq (at_pos q Nc p) - p.
Proof.
intros Hp. rewrite (cell_at_mod c a C) by lia. fold (at_pos q Nc p). pose proof (seq_range p).
change (2 ^ 62) with 4611686018427387904 in *. unfold dif. cint. reflexivity.
Qed.

Lemma dif_succ_spec p :
0 <= p < 2 ^ 62 -> dif (seq (buffer q (cell_at q p))) (u64 (p + 1)) = seq (at_pos q Nc p) - (p + 1).
Proof.
intros Hp. rewrite (cell_at_mod c a C) by lia. fold (at_pos q Nc p). pose proof (seq_range p).
change (2 ^ 62) with 4611686018427387904 in *. unfold dif. cint. reflexivity.
Qed.

Lemma deq_max : dequeue_pos q < 2 ^ 62.
Proof. pose proof (cp_enq _ _ C). pose proof (cp_max _ _ C). lia. Qed.

Lemma claimed_pos t p :
(exists d, pend_e (thr c t) = Some (p, d)) \/ pend_d (thr c t) = Some p ->
0 <= p < 2 ^ 62 /\ buffer q (cell_at q p) = at_pos q Nc p.
Proof.
intros Ht. pose proof (cp_deq _ _ C). pose proof (cp_max _ _ C). pose proof deq_max.
assert (0 <= p < 2 ^ 62) as Hp.
{ destruct Ht as [[d Ht]|Ht]; [apply (cp_pend_e _ _ C) in Ht|apply (cp_pend_d _ _ C) in Ht]; lia. }
split; [exact Hp|]. unfold at_pos. rewrite (cell_at_mod c a C) by lia. reflexivity.
Qed.

Lemma coupled_access t spurious q' p' :
finished (thr c t) = false -> tstep spurious q (thr c t) = (q', p') -> enqueue_pos q' < 2 ^ 62 ->
exists a', astep a (label_of t (thr c t) p') a' /\ coupled (mk_config q' (<[t := p']> (thr c))) a'.
Proof.
intros Hf Hs Hmax. pose proof (cp_knows _ _ C t) as Hk. pose proof (cp_max _ _ C). pose proof deq_max.
destruct (thr c t) eqn:Ht; try discriminate; cbn [tstep] in Hs; cbn [knows] in Hk.
- (* EStart *) simplify_eq. exists a. split; [constructor|]. pose proof (cp_deq _ _ C).
  pose proof (cp_enq _ _ C). apply (coupled_local c a C); try (rewrite Ht; reflexivity); try reflexivity.
  cbn. lia.
- (* ESeq *) rewrite dif_spec in Hs by lia. simplify_eq.
  exists a. split; [bcase; constructor|].
  apply (coupled_local c a C); try (rewrite Ht; reflexivity); bcase; try reflexivity; try exact I.
  cbn. split; [lia|intros; lia].
- (* ECas *) destruct (negb spurious && (enqueue_pos q =? pos)) eqn:Hcas.
  + apply andb_true_iff in Hcas as [_ <-%Z.eqb_eq]. simplify_eq. cbn in Hmax.
    assert (u64 (enqueue_pos q + 1) = enqueue_pos q + 1) as Hu
      by (change (2 ^ 62) with 4611686018427387904 in *; cint; reflexivity).
    rewrite Hu in *. destruct (coupled_push c a t C d Ht Hmax) as [Hroom C'].
    eexists. split; [|exact C']. destruct a. constructor. exact Hroom.
  + simplify_eq. exists a. split; [constructor|].
    apply (coupled_local c a C); try (rewrite Ht; reflexivity); try reflexivity. apply Hk.
- (* EWrite *) injection Hs as <- <-. exists a. split; [constructor|].
  destruct (claimed_pos t pos) as [_ ->]; [left; exists d; rewrite Ht; reflexivity|].
  apply (coupled_write c a t C d pos Ht).
- (* EPublish *) injection Hs as <- <-. exists a. split; [constructor|].
  destruct (claimed_pos t pos) as [Hp ->]; [left; exists d; rewrite Ht; reflexivity|].
  change (2 ^ 62) with 4611686018427387904 in *. rewrite u64_small by (powers; lia).
  apply (coupled_publish c a t C d pos Ht).
- (* DStart *) simplify_eq. exists a. split; [constructor|]. pose proof (cp_deq _ _ C).
  apply (coupled_local c a C); try (rewrite Ht; reflexivity); try reflexivity. cbn. lia.
- (* DSeq *) rewrite dif_succ_spec in Hs by lia. simplify_eq.
  exists a. split; [bcase; constructor|].
  apply (coupled_local c a C); try (rewrite Ht; reflexivity); bcase; try reflexivity; try exact I.
  cbn. split; [lia|intros; lia].
- (* DCas *) destruct (negb spurious && (dequeue_pos q =? pos)) eqn:Hcas.
  + apply andb_true_iff in Hcas as [_ <-%Z.eqb_eq]. simplify_eq.
    assert (u64 (dequeue_pos q + 1) = dequeue_pos q + 1) as Hu
      by (pose proof (cp_deq _ _ C); change (2 ^ 62) with 4611686018427387904 in *; cint; reflexivity).
    rewrite Hu. destruct (coupled_pop c a t C Ht) as (v & l & Hl & C').
    eexists. split; [|exact C']. destruct a. cbn in Hl. subst. constructor.
  + simplify_eq. exists a. split; [constructor|].
    apply (coupled_local c a C); try (rewrite Ht; reflexivity); try reflexivity. apply Hk.
- (* DRead *) injection Hs as <- <-. exists a. split; [constructor|].
  destruct (claimed_pos t pos) as [_ ->]; [right; rewrite Ht; reflexivity|].
  apply (coupled_read c a t C pos Ht).
- (* DPublish *) injection Hs as <- <-.
  destruct (claimed_pos t pos) as [Hp ->]; [right; rewrite Ht; reflexivity|].
  pose proof (cap_bounds _ _ C). rewrite (cp_mask _ _ C).
  change (2 ^ 62) with 4611686018427387904 in *. change (2 ^ 60) with 1152921504606846976 in *.
  rewrite u64_small by (powers; lia). replace (pos + (Nc - 1) + 1) with (pos + Nc) by lia.
  eexists. split; [|exact (coupled_release c a t C _ pos Ht)].
  destruct a. constructor. exact Hk.
Qed.
End Simulation.

(** ** The initial queue *)

Lemma init_cells_spec k i b j :
  seq (init_cells k i b j) = (if (i <=? j) && (j <? i + Z.of_nat k) then j else seq (b j)).
Proof.
  revert i b. induction k as [|k IH]; intros i b; cbn [init_cells].
  - destruct ((i <=? j) && (j <? i + Z.of_nat 0)) eqn:H; [|reflexivity].
    apply andb_true_iff in H as [H1%Z.leb_le H2%Z.ltb_lt]. lia.
  - rewrite IH. destruct (Z.eqb_spec j i) as [->|Hne].
    + replace (i + 1 <=? i) with false by (symmetry; apply Z.leb_gt; lia).
      rewrite Z.leb_refl. replace (i <? i + Z.of_nat (S k)) with true by (symmetry; apply Z.ltb_lt; lia).
      reflexivity.
    + replace (i + 1 + Z.of_nat k) with (i + Z.of_nat (S k)) by lia.
      replace (i + 1 <=? j) with (i <=? j) by (bcase; lia || reflexivity). reflexivity.
Qed.

(** The test of the assertion: [n & (n - 1) == 0] holds for powers of two only. *)
Lemma land_pred_pow2 n : 2 <= n -> Z.land n (n - 1) = 0 -> n = 2 ^ Z.log2 n.
Proof.
  intros Hn Hl. destruct (Z.log2_spec n ltac:(lia)) as [Hlo Hhi].
  destruct (Z.eq_dec n (2 ^ Z.log2 n)) as [|Hne]; [assumption|exfalso].
  assert (Z.log2 (n - 1) = Z.log2 n) as Hlog.
  { apply Z.log2_unique; [apply Z.log2_nonneg|]. lia. }
  assert (Z.testbit (Z.land n (n - 1)) (Z.log2 n) = true) as Hb.
  { rewrite Z.land_spec, Z.bit_log2 by lia. rewrite <- Hlog, Z.bit_log2 by lia. reflexivity. }
  rewrite Hl, Z.bits_0 in Hb. discriminate.
Qed.

Definition idle : nat -> pc := fun _ => EDone 0.

Lemma init_coupled bytes b q :
  0 <= bytes < 2 ^ 64 -> newmpmcq bytes b = Some q ->
  coupled (mk_config q idle) (mk_abuf (bytes / sizeof_cell_t) [] (fun _ => None)).
Proof.
  intros Hb Hq. unfold newmpmcq in Hq. set (n := bytes / sizeof_cell_t) in *.
  destruct ((2 <=? n) && _) eqn:Hc; [|discriminate]. apply andb_true_iff in Hc as [H2%Z.leb_le Hl%Z.eqb_eq].
  assert (n < 2 ^ 60) as Hn.
  { unfold n, sizeof_cell_t. apply Z.div_lt_upper_bound; [lia|]. exact (proj2 Hb). }
  assert (u64 (n - 1) = n - 1) as Hu by (change (2 ^ 60) with 1152921504606846976 in *; cint; reflexivity).
  rewrite Hu in *. pose proof (land_pred_pow2 n H2 Hl) as Hpow. injection Hq as <-.
  constructor; cbn [qu thr cap items taken enqueue_pos dequeue_pos buffer_mask length idle];
    try discriminate; try lia.
  - exists (Z.log2 n). split; [|exact Hpow]. split.
    + apply Z.log2_le_pow2; lia.
    + assert (Z.log2 n < 60) by (apply Z.log2_lt_pow2; lia). lia.
  - intros t. exact I.
  - intros p Hp. left. unfold at_pos. cbn [buffer]. rewrite Z.mod_small by lia.
    rewrite init_cells_spec. rewrite Z2Nat.id by lia.
    rewrite (proj2 (Z.leb_le 0 p)), (proj2 (Z.ltb_lt p (0 + n))) by lia. reflexivity.
Qed.

(** Executions with the labels of their steps, latest last. *)
Inductive run (q : mpmcq) : list label -> config -> Prop :=
| run_init : run q [] (mk_config q idle)
| run_step ls c l c' : run q ls c -> step c l c' -> run q (ls ++ [l]) c'.

Inductive arun (n : Z) : list label -> abuf -> Prop :=
| arun_init : arun n [] (mk_abuf n [] (fun _ => None))
| arun_step ls a l a' : arun n ls a -> astep a l a' -> arun n (ls ++ [l]) a'.

Lemma step_coupled c a l c' :
  coupled c a -> step c l c' -> exists a', astep a l a' /\ coupled c' a'.
Proof.
  intros C S. revert C. destruct S as [c t spurious q p Hf Hs Hm|c t p Hf Hc]; intros C.
  - exact (coupled_access c a C t spurious q p Hf Hs Hm).
  - exists a. split; [constructor|].
    apply (coupled_local c a C); destruct (thr c t), p; try discriminate; try reflexivity; exact I.
Qed.

Lemma run_coupled bytes b q ls c :
  0 <= bytes < 2 ^ 64 -> newmpmcq bytes b = Some q -> run q ls c ->
  exists a, arun (bytes / sizeof_cell_t) ls a /\ coupled c a.
Proof.
  intros Hb Hq R. induction R as [|ls c l c' _ (a & Ha & C) S].
  - eexists. split; [constructor|]. exact (init_coupled _ _ _ Hb Hq).
  - destruct (step_coupled _ _ _ _ C S) as (a' & Hs & C'). exists a'. split; [|exact C'].
    econstructor; eassumption.
Qed.

(** ** Negative answers *)

Section Answers.
Variables (c : config) (a : abuf).
Hypothesis C : coupled c a.
Abbreviation q := (qu c).
Abbreviation Nc := (cap a).
Abbreviation E := (enqueue_pos (qu c)).
Abbreviation D := (dequeue_pos (qu c)).

(** A cell is never behind the positions below the window. *)
Lemma seq_ahead x : 0 <= x < E -> x <= seq (at_pos q Nc x) /\ (x < D -> x < seq (at_pos q Nc x)).
Proof.
intros Hx. pose proof (cap_bounds _ _ C). pose proof (cp_enq _ _ C). pose proof (cp_len _ _ C).
pose (k := (x - D) mod Nc). pose (p := D + k).
assert (0 <= k < Nc) as Hk by (apply Z.mod_pos_bound; lia).
assert (at_pos q Nc x = at_pos q Nc p) as ->.
{ unfold at_pos, p, k. rewrite Zplus_mod_idemp_r. do 2 f_equal. lia. }
assert (p = x \/ x + Nc <= p \/ p + Nc <= x) as Hp.
{ pose proof (Z_div_mod_eq_full (x - D) Nc) as He. fold k in He.
  destruct (Z.lt_trichotomy ((x - D) / Nc) 0) as [Hl|[Hl|Hl]]; unfold p; nia. }
destruct (Z.lt_ge_cases p E) as [Hlt|Hge].
- destruct (cp_full _ _ C p ltac:(lia)) as [[Hs _]|(t & d & Ht)]; [lia|].
  destruct (cp_pend_e _ _ C _ _ _ Ht) as (_ & Hs & _). lia.
- destruct (cp_free _ _ C p ltac:(lia)) as [Hs|(t & Ht)]; [lia|].
  destruct (cp_pend_d _ _ C _ _ Ht) as (Hr & _ & Hs).
  rewrite <- (round a q (p - Nc)) in Hs. replace (p - Nc + Nc) with p in Hs by lia. lia.
Qed.

Lemma empty_answer t pos spurious q' :
thr c t = DSeq pos -> tstep spurious q (DSeq pos) = (q', DDone None) ->
items a = [] \/ exists u p d, pend_e (thr c u) = Some (p, d).
Proof.
intros Ht Hs. pose proof (cp_knows _ _ C t) as Hk. rewrite Ht in Hk. cbn [knows] in Hk.
pose proof (deq_max c a C). pose proof (cp_enq _ _ C) as HE. cbn [tstep] in Hs.
rewrite (dif_succ_spec c a C) in Hs by lia.
assert (seq (at_pos q Nc pos) < pos + 1) as Hlt by (bcase; simplify_eq; lia).
destruct (items a) as [|x l] eqn:Hi; [left; reflexivity|right]. cbn [length] in HE.
destruct (Z.eq_dec pos D) as [->|].
- destruct (cp_full _ _ C D ltac:(lia)) as [[Hf _]|(u & d & Hu)]; [lia|eauto].
- pose proof (seq_ahead pos ltac:(lia)). lia.
Qed.

Lemma full_answer t d pos spurious q' :
thr c t = ESeq d pos -> tstep spurious q (ESeq d pos) = (q', EDone 0) ->
Z.of_nat (length (items a)) = Nc \/ exists u p, pend_d (thr c u) = Some p.
Proof.
intros Ht Hs. pose proof (cp_knows _ _ C t) as Hk. rewrite Ht in Hk. cbn [knows] in Hk.
pose proof (cp_max _ _ C). pose proof (cp_enq _ _ C) as HE. pose proof (cp_len _ _ C). cbn [tstep] in Hs.
rewrite (dif_spec c a C) in Hs by lia.
assert (seq (at_pos q Nc pos) < pos) as Hlt by (bcase; simplify_eq; lia).
destruct (Z.eq_dec pos E) as [->|].
- destruct (Z.eq_dec (Z.of_nat (length (items a))) Nc) as [|Hne]; [left; assumption|right].
  destruct (cp_free _ _ C E ltac:(lia)) as [Hf|(u & Hu)]; [lia|eauto].
- pose proof (seq_ahead pos ltac:(lia)). lia.
Qed.
End Answers.

(** ** One thread on a quiescent queue *)

(** No call is in progress and the buffer holds [l], oldest first. *)
Definition holds (q : mpmcq) (n : Z) (l : list Z) : Prop :=
  exists thr g, (forall t, finished (thr t) = true) /\ coupled (mk_config q thr) (mk_abuf n l g).

Lemma finished_pend p : finished p = true -> pend_e p = None /\ pend_d p = None.
Proof. destruct p; try discriminate; split; reflexivity. Qed.

Lemma insert_insert (f : nat -> pc) t x y : forall u, <[t := y]> (<[t := x]> f) u = <[t := y]> f u.
Proof. intros u. thread u t; reflexivity. Qed.

Section Quiet.
Variables (q : mpmcq) (th : nat -> pc) (n : Z) (l : list Z) (g : nat -> option Z).
Hypothesis quiet : forall t, finished (th t) = true.
Hypothesis C : coupled (mk_config q th) (mk_abuf n l g).

Lemma quiet_cell pos : 0 <= pos -> buffer q (cell_at q pos) = at_pos q n pos.
Proof. intros Hp. unfold at_pos. rewrite (cell_at_mod _ _ C) by exact Hp. reflexivity. Qed.

Lemma quiet_full p :
dequeue_pos q <= p < enqueue_pos q ->
seq (at_pos q n p) = p + 1 /\ l !! Z.to_nat (p - dequeue_pos q) = Some (data (at_pos q n p)).
Proof.
intros Hp. destruct (cp_full _ _ C p Hp) as [?|(t & d & Ht)]; [assumption|].
destruct (finished_pend _ (quiet t)) as [He _]. cbn in Ht. congruence.
Qed.

Lemma quiet_free p :
enqueue_pos q <= p < dequeue_pos q + n -> seq (at_pos q n p) = p.
Proof.
intros Hp. destruct (cp_free _ _ C p Hp) as [?|(t & Ht)]; [assumption|].
destruct (finished_pend _ (quiet t)) as [_ Hd]. cbn in Ht. congruence.
Qed.

Lemma quiet_local p : pend_e p = None -> pend_d p = None -> knows q n (g 0%nat) p ->
coupled (mk_config q (<[0%nat := p]> th)) (mk_abuf n l g).
Proof.
intros. destruct (finished_pend _ (quiet 0%nat)).
apply (coupled_local (mk_config q th) _ C); assumption.
Qed.
End Quiet.

(** The straight paths through the two functions. *)
Lemma enqueue_path q d :
  let pos := enqueue_pos q in
  dif (seq (buffer q (cell_at q pos))) pos = 0 ->
  let q1 := set_enqueue_pos q (u64 (pos + 1)) in
  let q2 := set_cell q1 (cell_at q1 pos) (mk_cell (seq (buffer q1 (cell_at q1 pos))) d) in
  mpmc_enqueue q d =
    (set_cell q2 (cell_at q2 pos) (mk_cell (u64 (pos + 1)) (data (buffer q2 (cell_at q2 pos)))), EDone 1).
Proof.
  cbn zeta. intros Hd. unfold mpmc_enqueue. cbn [solo tstep finished]. rewrite Hd.
  cbn [Z.eqb finished tstep]. rewrite Z.eqb_refl. reflexivity.
Qed.

Lemma dequeue_path q :
  let pos := dequeue_pos q in
  dif (seq (buffer q (cell_at q pos))) (u64 (pos + 1)) = 0 ->
  let q1 := set_dequeue_pos q (u64 (pos + 1)) in
  mpmc_dequeue q =
    (set_cell q1 (cell_at q1 pos) (mk_cell (u64 (pos + buffer_mask q1 + 1)) (data (buffer q1 (cell_at q1 pos)))),
     DDone (Some (data (buffer q1 (cell_at q1 pos))))).
Proof.
  cbn zeta. intros Hd. unfold mpmc_dequeue. cbn [solo tstep finished]. rewrite Hd.
  cbn [Z.eqb finished tstep]. rewrite Z.eqb_refl. reflexivity.
Qed.

Lemma negative_path q d :
  (dif (seq (buffer q (cell_at q (enqueue_pos q)))) (enqueue_pos q) < 0 ->
   mpmc_enqueue q d = (q, EDone 0)) /\
  (dif (seq (buffer q (cell_at q (dequeue_pos q)))) (u64 (dequeue_pos q + 1)) < 0 ->
   mpmc_dequeue q = (q, DDone None)).
Proof.
  split; intros Hd; unfold mpmc_enqueue, mpmc_dequeue; cbn [solo tstep finished];
    rewrite (proj2 (Z.eqb_neq _ 0)), (proj2 (Z.ltb_lt _ 0)) by lia; reflexivity.
Qed.

Lemma done_holds q th t p n l g :
  (forall u, t <> u -> finished (th u) = true) -> finished p = true ->
  coupled (mk_config q (<[t := p]> th)) (mk_abuf n l g) -> holds q n l.
Proof.
  intros Hq Hp C. eexists _, g. split; [|exact C]. intros u. thread u t; auto.
Qed.

Lemma enqueue_quiet q n l d :
  holds q n l -> enqueue_pos q + 1 < 2 ^ 62 ->
  if Z.of_nat (length l) <? n
  then exists q', mpmc_enqueue q d = (q', EDone 1) /\ holds q' n (l ++ [d])
  else mpmc_enqueue q d = (q, EDone 0).
Proof.
  intros (th & g & quiet & C) Hmax. pose proof (cp_deq _ _ C) as H0. pose proof (cp_enq _ _ C) as HE.
  pose proof (cp_len _ _ C) as Hlen. pose proof (cap_bounds _ _ C). cbn [qu items cap] in *.
  pose proof (dif_spec _ _ C (enqueue_pos q) ltac:(cbn; lia)) as Hdif. cbn [qu cap] in Hdif.
  destruct (Z.ltb_spec (Z.of_nat (length l)) n) as [Hroom|Hfull].
  - pose proof (quiet_free q th n l g quiet C (enqueue_pos q) ltac:(lia)) as Hs.
    eexists. split; [apply enqueue_path; lia|].
    rewrite (u64_small (enqueue_pos q + 1)) by (change (2 ^ 62) with 4611686018427387904 in *; powers; lia).
    pose proof (quiet_local q th n l g quiet C (ECas d (enqueue_pos q)) eq_refl eq_refl) as C1.
    destruct (coupled_push _ _ 0%nat (C1 ltac:(cbn; lia)) d) as [_ C2];
      [apply fn_lookup_insert|exact Hmax|]. clear C1. cbn [qu thr cap items taken] in C2.
    destruct (claimed_pos _ _ C2 0%nat (enqueue_pos q)) as [_ Hc2];
      [left; exists d; cbn; rewrite fn_lookup_insert; reflexivity|].
    pose proof (coupled_write _ _ 0%nat C2 d (enqueue_pos q) (fn_lookup_insert _ _ _)) as C3.
    rewrite <- Hc2 in C3. cbn [qu thr cap items taken] in C3.
    destruct (claimed_pos _ _ C3 0%nat (enqueue_pos q)) as [_ Hc3];
      [left; exists d; cbn; rewrite fn_lookup_insert; reflexivity|].
    pose proof (coupled_publish _ _ 0%nat C3 d (enqueue_pos q) (fn_lookup_insert _ _ _)) as C4.
    rewrite <- Hc3 in C4. refine (done_holds _ _ 0%nat (EDone 1) _ _ _ _ eq_refl C4).
    intros u Hu. cbn [thr]. rewrite !fn_lookup_insert_ne by assumption. apply quiet.
  - apply negative_path. rewrite Hdif.
    pose proof (quiet_full q th n l g quiet C (dequeue_pos q) ltac:(lia)) as [Hs _].
    replace (enqueue_pos q) with (dequeue_pos q + n) by lia.
    pose proof (round (mk_abuf n l g) q (dequeue_pos q)) as Hr. cbn [cap] in Hr. rewrite Hr. lia.
Qed.

Lemma dequeue_quiet q n l :
  holds q n l ->
  match l with
  | [] => mpmc_dequeue q = (q, DDone None)
  | x :: l => exists q', mpmc_dequeue q = (q', DDone (Some x)) /\ holds q' n l
  end.
Proof.
  intros (th & g & quiet & C). pose proof (cp_deq _ _ C) as H0. pose proof (cp_enq _ _ C) as HE.
  pose proof (cp_len _ _ C) as Hlen. pose proof (cap_bounds _ _ C). pose proof (deq_max _ _ C) as Hmax.
  cbn [qu items cap] in *.
  pose proof (dif_succ_spec _ _ C (dequeue_pos q) ltac:(cbn; lia)) as Hdif. cbn [qu cap] in Hdif.
  destruct l as [|x l]; cbn [length] in *.
  - apply (negative_path q 0). rewrite Hdif.
    rewrite (quiet_free q th n [] g quiet C (dequeue_pos q)) by lia. lia.
  - destruct (quiet_full q th n _ g quiet C (dequeue_pos q) ltac:(lia)) as [Hs Hi].
    rewrite Z.sub_diag in Hi. injection Hi as Hx.
    pose proof (quiet_cell q th n _ g C (dequeue_pos q) H0) as Hc.
    eexists. split.
    { rewrite dequeue_path by lia. do 3 f_equal. rewrite Hx, <- Hc. reflexivity. }
    pose proof (quiet_local q th n _ g quiet C (DCas (dequeue_pos q)) eq_refl eq_refl) as C1.
    destruct (coupled_pop _ _ 0%nat (C1 ltac:(cbn; lia)) (fn_lookup_insert _ _ _)) as (v & l' & Hl & C2).
    cbn [qu thr cap items taken] in *. injection Hl as <- <-.
    destruct (claimed_pos _ _ C2 0%nat (dequeue_pos q)) as [_ Hc2];
      [right; cbn; rewrite fn_lookup_insert; reflexivity|].
    pose proof (coupled_read _ _ 0%nat C2 (dequeue_pos q) (fn_lookup_insert _ _ _)) as C3.
    pose proof (coupled_release _ _ 0%nat C3 _ (dequeue_pos q) (fn_lookup_insert _ _ _)) as C4.
    cbn [qu thr cap items taken] in C4, Hc2. rewrite <- Hc2 in C4.
    cbn [set_dequeue_pos buffer_mask]. pose proof (cp_mask _ _ C) as Hm. cbn [qu cap] in Hm. rewrite Hm.
    change (2 ^ 62) with 4611686018427387904 in *. change (2 ^ 60) with 1152921504606846976 in *.
    rewrite !u64_small by (powers; lia). replace (dequeue_pos q + (n - 1) + 1) with (dequeue_pos q + n) by lia.
    refine (done_holds _ _ 0%nat _ _ _ _ _ _ C4); [|reflexivity].
    intros u Hu. rewrite !fn_lookup_insert_ne by assumption. apply quiet.
Qed.

(** ** Theorems *)

(** C3. Refinement: under every interleaving of any number of threads, with
    spurious failures of the compare-and-swap, the queue made by [newmpmcq] is a
    bounded first-in first-out buffer: each claimed enqueue appends its data to a
    buffer that is not full, each claimed dequeue removes the oldest data, and a
    dequeue that returns 1 hands out exactly what it removed. *)
Theorem mpmc_refines_fifo (bytes : Z) (b : Z -> cell_t) (q : mpmcq) (ls : list label) (c : config) :
  0 <= bytes < 2 ^ 64 -> newmpmcq bytes b = Some q -> run q ls c ->
  exists a, arun (bytes / sizeof_cell_t) ls a.
Proof. intros Hb Hq R. destruct (run_coupled _ _ _ _ _ Hb Hq R) as (a & Ha & _). eauto. Qed.

(** Error answers: a dequeue answers 0 only if the buffer is empty or an
    enqueuer has claimed its position without having published the data; an
    enqueue answers 0 only if the buffer is full or a dequeuer has not yet
    released its cell. *)
Theorem mpmc_negative_answers (bytes : Z) (b : Z -> cell_t) (q q' : mpmcq) (ls : list label)
  (c : config) (t : nat) (spurious : bool) (d pos : Z) :
  0 <= bytes < 2 ^ 64 -> newmpmcq bytes b = Some q -> run q ls c ->
  exists a, arun (bytes / sizeof_cell_t) ls a /\
  (thr c t = DSeq pos -> tstep spurious (qu c) (DSeq pos) = (q', DDone None) ->
     items a = [] \/ exists u p v, pend_e (thr c u) = Some (p, v)) /\
  (thr c t = ESeq d pos -> tstep spurious (qu c) (ESeq d pos) = (q', EDone 0) ->
     Z.of_nat (length (items a)) = bytes / sizeof_cell_t \/ exists u p, pend_d (thr c u) = Some p).
Proof.
  intros Hb Hq R. destruct (run_coupled _ _ _ _ _ Hb Hq R) as (a & Ha & C).
  exists a. split; [exact Ha|]. split.
  - exact (empty_answer c a C t pos spurious q').
  - assert (bytes / sizeof_cell_t = cap a) as ->.
    { clear -Ha. induction Ha as [|ls a l a' _ IH S]; [reflexivity|]. rewrite IH. destruct S; reflexivity. }
    exact (full_answer c a C t d pos spurious q').
Qed.

(** Functional behaviour of [mpmc_enqueue] and [mpmc_dequeue] run alone: they
    return after at most five accesses; an enqueue fails exactly on a full buffer
    and appends otherwise, a dequeue fails exactly on an empty buffer and removes
    the oldest data otherwise. *)
Theorem mpmc_sequential (q : mpmcq) (n d : Z) (l : list Z) :
  holds q n l -> enqueue_pos q + 1 < 2 ^ 62 ->
  (if Z.of_nat (length l) <? n
   then exists q', mpmc_enqueue q d = (q', EDone 1) /\ holds q' n (l ++ [d])
   else mpmc_enqueue q d = (q, EDone 0)) /\
  match l with
  | [] => mpmc_dequeue q = (q, DDone None)
  | x :: l => exists q', mpmc_dequeue q = (q', DDone (Some x)) /\ holds q' n l
  end.
Proof. intros Hh Hm. split; [apply enqueue_quiet; assumption|apply dequeue_quiet; assumption]. Qed.

(** A queue of four cells, and a run in which two enqueuers race for position 0. *)
Definition four : mpmcq :=
  mk_mpmcq (init_cells 4 0 (fun _ => mk_cell 0 0)) 3 0 0.

Lemma four_new : newmpmcq 64 (fun _ => mk_cell 0 0) = Some four.
Proof. reflexivity. Qed.

(** Extend a run by one call or one access. *)
Definition call {q ls c} (t : nat) (p : pc) (R : run q ls c)
  (Hf : finished (thr c t) = true) (Hp : is_call p = true) :=
  run_step _ _ _ _ _ R (step_call c t p Hf Hp).

Definition access {q ls c} (t : nat) (R : run q ls c) (Hf : finished (thr c t) = false)
  (Hm : enqueue_pos (fst (tstep false (qu c) (thr c t))) < 2 ^ 62) :=
  run_step _ _ _ _ _ R (step_access c t false _ _ Hf (surjective_pairing _) Hm).

Definition race_labels : list label :=
  [LCall 1 (EStart 7); LCall 2 (EStart 8); LTau; LTau; LTau; LTau; LPush 2 8; LTau].

Lemma race : exists c, run four race_labels c /\ thr c 2%nat = EWrite 8 0 /\ thr c 1%nat = ESeq 7 0.
Proof.
  pose (R2 := call 2 (EStart 8) (call 1 (EStart 7) (run_init four) eq_refl eq_refl) eq_refl eq_refl).
  pose (R4 := access 1 (access 1 R2 eq_refl eq_refl) eq_refl eq_refl).
  pose (R7 := access 2 (access 2 (access 2 R4 eq_refl eq_refl) eq_refl eq_refl) eq_refl eq_refl).
  pose (R8 := access 1 R7 eq_refl eq_refl).
  eexists. split; [exact R8|]. split; vm_compute; reflexivity.
Qed.

Lemma mpmc_refines_fifo_witness : exists a, arun 4 race_labels a.
Proof.
  destruct race as (c & R & _).
  apply (mpmc_refines_fifo 64 (fun _ => mk_cell 0 0) four race_labels c); [lia|apply four_new|exact R].
Defined.

(** A dequeue on the fresh queue answers 0, and the buffer is empty. *)
Lemma mpmc_negative_answers_witness :
  exists a, arun 4 [LCall 1 DStart; LTau] a /\
    (items a = [] \/ exists u p v, pend_e (<[1%nat := DSeq 0]> (<[1%nat := DStart]> idle) u) = Some (p, v)).
Proof.
  assert (exists c, run four [LCall 1 DStart; LTau] c /\ qu c = four /\
    thr c = <[1%nat := DSeq 0]> (<[1%nat := DStart]> idle)) as (c & R & Hq & Ht).
  { eexists. split; [|split].
    - exact (access 1 (call 1 DStart (run_init four) eq_refl eq_refl) eq_refl eq_refl).
    - reflexivity.
    - reflexivity. }
  destruct (mpmc_negative_answers 64 (fun _ => mk_cell 0 0) four four _ c 1 false 0 0 ltac:(lia) four_new R)
    as (a & Ha & He & _).
  exists a. split; [exact Ha|]. rewrite Ht, Hq in He. apply He; reflexivity.
Defined.

Lemma mpmc_sequential_witness :
  exists q', mpmc_enqueue four 7 = (q', EDone 1) /\ holds q' 4 [7].
Proof.
  apply (mpmc_sequential four 4 7 []); [|reflexivity].
  exists idle, (fun _ => None). split; [reflexivity|].
  apply (init_coupled 64 (fun _ => mk_cell 0 0) four); [lia|apply four_new].
Defined.
