(* ===== verification/SchedQueue.v ===== *)
(** * The scheduler queue

    What the scheduler relies on about the queue of runnable threads, as an
    interface, and its implementation by the queue of [MpmcQueue].
    [__scheduler_enqueue] is the only producer (src/include/enclave/lthread.h),
    the loop of [lthread_run] the only consumer. *)

From S2P Require Import Prelude MpmcQueue.

(** A queue of pointers with a representation relation [contents]. *)
Class FifoQueue (Q : Type) : Type := {
  enq : Q -> Z -> Q * bool;
  deq : Q -> Q * option Z;
  contents : Q -> list Z -> Prop;
  room : Q -> list Z -> nat -> Prop;   (* room for so many more *)
  enq_room : forall q l x n, contents q l -> room q l (S n) ->
    exists q', enq q x = (q', true) /\ contents q' (l ++ [x]) /\ room q' (l ++ [x]) n;
  deq_nil : forall q, contents q [] -> deq q = (q, None);
  deq_cons : forall q x l, contents q (x :: l) ->
    exists q', deq q = (q', Some x) /\ contents q' l
}.

(** The queue of src/enclave/mpmc_queue.c, used by one thread at a time. *)
Definition mpmc_enq (q : mpmcq) (x : Z) : mpmcq * bool :=
  let '(q, p) := mpmc_enqueue q x in
  (q, match p with EDone r => truthy r | _ => false end).

Definition mpmc_deq (q : mpmcq) : mpmcq * option Z :=
  let '(q, p) := mpmc_dequeue q in
  (q, match p with DDone r => r | _ => None end).

Lemma holds_mask q n l : holds q n l -> n = buffer_mask q + 1.
Proof. intros (th & g & _ & C). pose proof (cp_mask _ _ C) as Hm. cbn in Hm. lia. Qed.

Lemma holds_positions q n l : holds q n l -> 0 <= enqueue_pos q.
Proof.
  intros (th & g & _ & C). pose proof (cp_enq _ _ C) as He. pose proof (cp_deq _ _ C) as Hd.
  cbn in *. lia.
Qed.

(** A successful enqueue of one thread alone advances the position by one. *)
Lemma enqueue_advances q x q' :
  mpmc_enqueue q x = (q', EDone 1) -> 0 <= enqueue_pos q -> enqueue_pos q + 1 < 2 ^ 62 ->
  enqueue_pos q' = enqueue_pos q + 1.
Proof.
  intros He H0 Hm. set (v := dif (seq (buffer q (cell_at q (enqueue_pos q)))) (enqueue_pos q)).
  destruct (Z.eq_dec v 0) as [Hv|Hv].
  - pose proof (enqueue_path q x Hv) as Hp. cbn zeta in Hp. rewrite Hp in He. injection He as <-. cbn.
    change (2 ^ 62) with 4611686018427387904 in Hm. apply u64_small. powers. lia.
  - exfalso. unfold mpmc_enqueue in He. cbn [solo tstep finished] in He. fold v in He.
    rewrite (proj2 (Z.eqb_neq v 0) Hv) in He. destruct (v <? 0); cbn in He; [discriminate|].
    fold v in He. rewrite (proj2 (Z.eqb_neq v 0) Hv) in He. destruct (v <? 0); cbn in He; [discriminate|].
    discriminate.
Qed.

#[export, refine] Instance mpmc_fifo : FifoQueue mpmcq := {
  enq := mpmc_enq;
  deq := mpmc_deq;
  contents q l := holds q (buffer_mask q + 1) l;
  room q l n := Z.of_nat (length l + n) <= buffer_mask q + 1 /\ enqueue_pos q + Z.of_nat n < 2 ^ 62
}.
Proof.
  - intros q l x n Hc [Hl Hm]. pose proof (enqueue_quiet q _ l x Hc ltac:(lia)) as He.
    rewrite (proj2 (Z.ltb_lt _ _)) in He by lia. destruct He as (q' & He & Hh).
    exists q'. unfold mpmc_enq. rewrite He. split; [reflexivity|]. pose proof (holds_mask _ _ _ Hh) as Hmask.
    rewrite <- Hmask. split; [exact Hh|]. rewrite length_app. cbn [length].
    pose proof (holds_positions _ _ _ Hc). rewrite (enqueue_advances _ _ _ He) by lia. lia.
  - intros q Hc. unfold mpmc_deq. rewrite (dequeue_quiet q _ [] Hc). reflexivity.
  - intros q x l Hc. destruct (dequeue_quiet q _ (x :: l) Hc) as (q' & Hd & Hh).
    exists q'. unfold mpmc_deq. rewrite Hd. split; [reflexivity|].
    rewrite (holds_mask _ _ _ Hh) in Hh. exact Hh.
Defined.
