(* ===== verification/Lthread.v ===== *)
(** * User-level threads (src/sched/lthread.c, src/include/enclave/lthread.h)

    The lthread objects, their state bits, creation, joining, exit, detaching,
    sleeping, thread-local storage and the scheduler loop, in a DEBUG build.  The
    objects live in a map from address to record: an access to an address that
    is not in the map, which is what a freed object becomes, is the fault
    [BadPointer].  Each operation is the run of one scheduler; a spin on a bit
    that another scheduler has to clear is the fault [Spin].  What a thread does
    between being switched to and switching back is a parameter of the loop. *)

From stdpp Require Import gmap strings.
From S2P Require Import Prelude Bitops TicketLock EnclaveMem MpmcQueue SchedQueue.

(** ** State bits (enum lthread_st) *)

Definition LT_ST_NEW : Z := 0.
Definition LT_ST_READY : Z := 1.
Definition LT_ST_EXITED : Z := 2.
Definition LT_ST_BUSY : Z := 3.
Definition LT_ST_SLEEPING : Z := 4.
Definition LT_ST_EXPIRED : Z := 5.
Definition LT_ST_DETACH : Z := 6.
Definition LT_ST_PINNED : Z := 7.
Definition LT_ST_APP_MAIN : Z := 8.
Definition LT_ST_TERMINATE : Z := 9.

Definition BIT (x : Z) : Z := Z.shiftl 1 x.
Definition has (state b : Z) : bool := truthy (Z.land state (BIT b)).
Definition set_bit (state b : Z) : Z := Z.lor state (BIT b).
Definition clear_bit (state b : Z) : Z := Z.land state (Z.lnot (BIT b)).

Definition USERSPACE_THREAD : Z := 0.
Definition LKL_KERNEL_THREAD : Z := 1.

(** ** Objects *)

Record cpu_ctx : Type := mk_ctx { esp : Z; ebp : Z; eip : Z }.

Record lthread_attr : Type := mk_attr {
  stack_size : Z;
  state : Z;
  stack : Z;
  thread_type : Z
}.

(** The callbacks that are passed to [_lthread_yield_cb]. *)
Inductive callback : Type :=
| NoCb
| CbFutexUnlock         (* __do_futex_unlock on futex_q_lock *)
| CbUnlock              (* _lthread_unlock *)
| CbDeschedReady.       (* _lthread_desched_ready *)

Record futex_q : Type := mk_futex_q { futex_key : Z; futex_deadline : Z; futex_lt : Z }.

Record lthread : Type := mk_lthread {
  ctx : cpu_ctx;
  fun_ : Z;
  arg : Z;
  attr : lthread_attr;
  tid : Z;
  lt_join : Z;
  tls : list (Z * Z);     (* key and data of the slots, first one first *)
  itls : Z;
  itlssz : Z;
  tp : Z;
  err : Z;
  yield_cb : callback;
  yield_cbarg : Z;
  fq : futex_q
}.

Definition set_ctx (l : lthread) (c : cpu_ctx) : lthread :=
  mk_lthread c (fun_ l) (arg l) (attr l) (tid l) (lt_join l) (tls l) (itls l) (itlssz l) (tp l) (err l)
    (yield_cb l) (yield_cbarg l) (fq l).
Definition set_attr (l : lthread) (a : lthread_attr) : lthread :=
  mk_lthread (ctx l) (fun_ l) (arg l) a (tid l) (lt_join l) (tls l) (itls l) (itlssz l) (tp l) (err l)
    (yield_cb l) (yield_cbarg l) (fq l).
Definition set_state (l : lthread) (s : Z) : lthread :=
  set_attr l (mk_attr (stack_size (attr l)) s (stack (attr l)) (thread_type (attr l))).
Definition set_stack (l : lthread) (p : Z) : lthread :=
  set_attr l (mk_attr (stack_size (attr l)) (state (attr l)) p (thread_type (attr l))).
Definition set_join (l : lthread) (p : Z) : lthread :=
  mk_lthread (ctx l) (fun_ l) (arg l) (attr l) (tid l) p (tls l) (itls l) (itlssz l) (tp l) (err l)
    (yield_cb l) (yield_cbarg l) (fq l).
Definition set_tls (l : lthread) (t : list (Z * Z)) : lthread :=
  mk_lthread (ctx l) (fun_ l) (arg l) (attr l) (tid l) (lt_join l) t (itls l) (itlssz l) (tp l) (err l)
    (yield_cb l) (yield_cbarg l) (fq l).
Definition set_tp (l : lthread) (p : Z) : lthread :=
  mk_lthread (ctx l) (fun_ l) (arg l) (attr l) (tid l) (lt_join l) (tls l) (itls l) (itlssz l) p (err l)
    (yield_cb l) (yield_cbarg l) (fq l).
Definition set_err (l : lthread) (e : Z) : lthread :=
  mk_lthread (ctx l) (fun_ l) (arg l) (attr l) (tid l) (lt_join l) (tls l) (itls l) (itlssz l) (tp l) e
    (yield_cb l) (yield_cbarg l) (fq l).
Definition set_yield (l : lthread) (c : callback) (a : Z) : lthread :=
  mk_lthread (ctx l) (fun_ l) (arg l) (attr l) (tid l) (lt_join l) (tls l) (itls l) (itlssz l) (tp l) (err l)
    c a (fq l).
Definition set_fq (l : lthread) (f : futex_q) : lthread :=
  mk_lthread (ctx l) (fun_ l) (arg l) (attr l) (tid l) (lt_join l) (tls l) (itls l) (itlssz l) (tp l) (err l)
    (yield_cb l) (yield_cbarg l) f.

(** The object that [oe_calloc] returns. *)
Definition zero_lthread : lthread :=
  mk_lthread (mk_ctx 0 0 0) 0 0 (mk_attr 0 0 0 0) 0 0 [] 0 0 0 0 NoCb 0 (mk_futex_q 0 0 0).

(** ** The world of one scheduler *)

Section World.
Context {Q : Type} `{FifoQueue Q}.

Record world : Type := mk_world {
lts : gmap Z lthread;               (* the live lthread objects *)
scheduler_queue : Q;                (* __scheduler_queue *)
mm : mman;                          (* the enclave heap *)
current_lthread : Z;                (* sched->current_lthread *)
fsbase : Z;                         (* the FS register *)
spawned_lthreads : Z;
active_threads : list Z;            (* _lt_active_threads *)
destructors : list (Z * Z);         (* lthread_destructors: key and function *)
global_count : Z;                   (* next TLS key *)
destr_calls : list (Z * Z);         (* destructor calls made, latest last *)
futex_queues : list Z;              (* threads whose fq is linked, first one first *)
futex_sleepers : Z;
futex_q_lock : ticketlock
}.

Definition set_lts (w : world) (m : gmap Z lthread) : world :=
mk_world m (scheduler_queue w) (mm w) (current_lthread w) (fsbase w) (spawned_lthreads w)
  (active_threads w) (destructors w) (global_count w) (destr_calls w) (futex_queues w)
  (futex_sleepers w) (futex_q_lock w).
Definition set_queue (w : world) (q : Q) : world :=
mk_world (lts w) q (mm w) (current_lthread w) (fsbase w) (spawned_lthreads w)
  (active_threads w) (destructors w) (global_count w) (destr_calls w) (futex_queues w)
  (futex_sleepers w) (futex_q_lock w).
Definition set_mm (w : world) (m : mman) : world :=
mk_world (lts w) (scheduler_queue w) m (current_lthread w) (fsbase w) (spawned_lthreads w)
  (active_threads w) (destructors w) (global_count w) (destr_calls w) (futex_queues w)
  (futex_sleepers w) (futex_q_lock w).
Definition set_current (w : world) (p : Z) : world :=
mk_world (lts w) (scheduler_queue w) (mm w) p (fsbase w) (spawned_lthreads w)
  (active_threads w) (destructors w) (global_count w) (destr_calls w) (futex_queues w)
  (futex_sleepers w) (futex_q_lock w).
Definition set_fsbase (w : world) (p : Z) : world :=
mk_world (lts w) (scheduler_queue w) (mm w) (current_lthread w) p (spawned_lthreads w)
  (active_threads w) (destructors w) (global_count w) (destr_calls w) (futex_queues w)
  (futex_sleepers w) (futex_q_lock w).
Definition set_spawned (w : world) (n : Z) : world :=
mk_world (lts w) (scheduler_queue w) (mm w) (current_lthread w) (fsbase w) n
  (active_threads w) (destructors w) (global_count w) (destr_calls w) (futex_queues w)
  (futex_sleepers w) (futex_q_lock w).
Definition set_active (w : world) (l : list Z) : world :=
mk_world (lts w) (scheduler_queue w) (mm w) (current_lthread w) (fsbase w) (spawned_lthreads w)
  l (destructors w) (global_count w) (destr_calls w) (futex_queues w)
  (futex_sleepers w) (futex_q_lock w).
Definition set_destructors (w : world) (l : list (Z * Z)) (n : Z) : world :=
mk_world (lts w) (scheduler_queue w) (mm w) (current_lthread w) (fsbase w) (spawned_lthreads w)
  (active_threads w) l n (destr_calls w) (futex_queues w) (futex_sleepers w) (futex_q_lock w).
Definition set_calls (w : world) (l : list (Z * Z)) : world :=
mk_world (lts w) (scheduler_queue w) (mm w) (current_lthread w) (fsbase w) (spawned_lthreads w)
  (active_threads w) (destructors w) (global_count w) l (futex_queues w)
  (futex_sleepers w) (futex_q_lock w).
Definition set_futex (w : world) (l : list Z) (n : Z) : world :=
mk_world (lts w) (scheduler_queue w) (mm w) (current_lthread w) (fsbase w) (spawned_lthreads w)
  (active_threads w) (destructors w) (global_count w) (destr_calls w) l n (futex_q_lock w).
Definition set_futex_lock (w : world) (t : ticketlock) : world :=
mk_world (lts w) (scheduler_queue w) (mm w) (current_lthread w) (fsbase w) (spawned_lthreads w)
  (active_threads w) (destructors w) (global_count w) (destr_calls w) (futex_queues w)
  (futex_sleepers w) t.

(** Read and update the object at [p]. *)
Definition get (w : world) (p : Z) : outcome lthread :=
match lts w !! p with Some l => Done l | None => Failed (BadPointer p) end.

Definition put (w : world) (p : Z) (l : lthread) : world := set_lts w (<[p := l]> (lts w)).

Definition update (w : world) (p : Z) (f : lthread -> lthread) : outcome world :=
l ← get w p; Done (put w p (f l)).

Definition test (w : world) (p b : Z) : outcome bool :=
l ← get w p; Done (has (state (attr l)) b).

(** [__scheduler_enqueue]: trap on an exited thread, spin while the queue is full. *)
Definition __scheduler_enqueue (w : world) (p : Z) : outcome world :=
exited ← test w p LT_ST_EXITED;
if exited : bool then Failed Crash
else if p =? 0 then Failed Crash
else
  let '(q, ok) := enq (scheduler_queue w) p in
  if ok : bool then Done (set_queue w q) else Failed Spin.

(** ** The BUSY lock of a thread *)

Definition _lthread_lock (w : world) (p : Z) : outcome world :=
l ← get w p;
if has (state (attr l)) LT_ST_BUSY then Failed Spin
else Done (put w p (set_state l (set_bit (state (attr l)) LT_ST_BUSY))).

Definition _lthread_unlock (w : world) (p : Z) : outcome world :=
l ← get w p;
if has (state (attr l)) LT_ST_BUSY
then Done (put w p (set_state l (clear_bit (state (attr l)) LT_ST_BUSY)))
else Failed Assertion.

(** [lthread_detach2]: waits for the lock without taking it. *)
Definition lthread_detach2 (w : world) (p : Z) : outcome world :=
l ← get w p;
if has (state (attr l)) LT_ST_BUSY then Failed Spin
else Done (put w p (set_state l (set_bit (state (attr l)) LT_ST_DETACH))).

Definition lthread_detach (w : world) : outcome world := lthread_detach2 w (current_lthread w).

(** ** Sleeping and waking *)

Definition _lthread_desched_sleep (w : world) (p : Z) : outcome world :=
l ← get w p;
if has (state (attr l)) LT_ST_SLEEPING
then Done (put w p (set_state l
       (set_bit (clear_bit (clear_bit (state (attr l)) LT_ST_SLEEPING) LT_ST_EXPIRED) LT_ST_READY)))
else Done w.

Definition _lthread_desched_ready (w : world) (p : Z) : outcome world :=
update w p (fun l => set_state l (set_bit (clear_bit (state (attr l)) LT_ST_READY) LT_ST_SLEEPING)).

Definition lthread_wakeup (w : world) (p : Z) : outcome world :=
sleeping ← test w p LT_ST_SLEEPING;
if sleeping : bool then w ← _lthread_desched_sleep w p; __scheduler_enqueue w p else Done w.

(** The stores before the switch: [_lthread_yield_cb]. *)
Definition _lthread_yield_cb (w : world) (p : Z) (f : callback) (a : Z) : outcome world :=
update w p (fun l => set_yield l f a).

Definition lthread_yield_and_sleep (w : world) : outcome world :=
_lthread_yield_cb w (current_lthread w) CbDeschedReady (current_lthread w).

Definition lthread_set_expired (w : world) (p : Z) : outcome world :=
update w p (fun l => set_state l (set_bit (state (attr l)) LT_ST_EXPIRED)).

Definition lthread_terminate_this_scheduler (w : world) : outcome world :=
if current_lthread w =? 0 then Failed Assertion
else update w (current_lthread w) (fun l => set_state l (set_bit (state (attr l)) LT_ST_TERMINATE)).

(** [lthread_exit], and the end of [_exec] with the result of the thread's
  function, up to the switch. *)
Definition lthread_exit (w : world) (ptr : Z) : outcome world :=
w ← _lthread_lock w (current_lthread w);
update w (current_lthread w) (fun l =>
  set_state (set_yield l (yield_cb l) ptr) (set_bit (state (attr l)) LT_ST_EXITED)).

(** ** Thread-local storage *)

Definition lthread_findtlsslot (l : lthread) (key : Z) : option (nat * (Z * Z)) :=
list_find (fun d => fst d = key) (tls l).

(** [slot]: does [oe_calloc] return memory? *)
Definition lthread_addtlsslot (slot : bool) (w : world) (p key data : Z) : outcome (world * Z) :=
if negb slot then Done (w, ENOMEM)
else w ← update w p (fun l => set_tls l ((key, data) :: tls l)); Done (w, 0).

Definition lthread_getspecific_remote (w : world) (p key : Z) : outcome Z :=
l ← get w p;
Done (match lthread_findtlsslot l key with Some (_, d) => snd d | None => 0 end).

Definition lthread_setspecific_remote (slot : bool) (w : world) (p key value : Z) : outcome (world * Z) :=
l ← get w p;
match lthread_findtlsslot l key with
| Some (i, d) => Done (put w p (set_tls l (<[i := (fst d, value)]> (tls l))), 0)
| None => lthread_addtlsslot slot w p key value
end.

Definition lthread_key_create (slot : bool) (w : world) (destructor : Z) : world * option Z * Z :=
if negb slot then (w, None, ENOMEM)
else
  let key := global_count w in
  (set_destructors w ((key, destructor) :: destructors w) (u32 (key + 1)), Some key, 0).

Definition lthread_key_delete (w : world) (key : Z) : world * Z :=
match list_find (fun d => fst d = key) (destructors w) with
| Some (i, _) => (set_destructors w (delete i (destructors w)) (global_count w), 0)
| None => (w, -1)
end.

Definition lthread_finddestr (w : world) (key : Z) : Z :=
match list_find (fun d => fst d = key) (destructors w) with
| Some (_, d) => snd d
| None => 0
end.

(** [lthread_rundestructors]: the calls are logged. *)
Fixpoint run_slots (w : world) (slots : list (Z * Z)) : world :=
match slots with
| [] => w
| (key, data) :: slots =>
    let w :=
      if truthy data then
        let destr := lthread_finddestr w key in
        if truthy destr then set_calls w (destr_calls w ++ [(destr, data)]) else w
      else w in
    run_slots w slots
end.

Definition lthread_rundestructors (w : world) (p : Z) : outcome world :=
l ← get w p; Done (put (run_slots w (tls l)) p (set_tls l [])).

(** ** Freeing *)

(** [_lthread_free].  [lthread_self() != NULL] is [current_lthread w <> 0]; the
  heap ignores the results of [enclave_munmap]. *)
Definition _lthread_free (w : world) (p : Z) : outcome world :=
l ← get w p;
w ← (if truthy (current_lthread w) && negb (has (state (attr l)) LT_ST_APP_MAIN)
     then lthread_rundestructors w p else Done w);
let w :=
  if (thread_type (attr l) =? LKL_KERNEL_THREAD) && truthy (itls l)
  then set_mm w (fst (enclave_munmap (mm w) (itls l) (itlssz l))) else w in
w ← (if truthy (stack (attr l))
     then update (set_mm w (fst (enclave_munmap (mm w) (stack (attr l)) (stack_size (attr l)))))
            p (fun l => set_stack l 0)
     else Done w);
let w := set_active w (filter (fun q => q <> p) (active_threads w)) in
Done (set_lts w (delete p (lts w))).

(** ** Creation *)

Definition PROT_READ : Z := 1.
Definition MAP_FAILED : Z := u64 (-1).
Definition TLS_ALIGN : Z := 16.
Definition sizeof_tcb_base : Z := 56.
Definition sizeof_ptr : Z := 8.

(** A 64-bit store, little endian; the heap is the only memory that is mapped. *)
Definition store64 (s : mman) (a v : Z) : outcome mman :=
if (mmap_base s <=? a) && (a + 8 <=? mmap_end s + PAGE_SIZE)
then Done (set_mem s (fun x => if (a <=? x) && (x <? a + 8)
                               then Z.shiftr v (8 * (x - a)) mod 256 else mem s x))
else Failed (BadPointer a).

(** [init_tp]: the thread control block at the end of the TLS image. *)
Definition init_tp (w : world) (l : lthread) (p_mem sz : Z) : outcome (world * lthread) :=
let p := u64 (p_mem + (sz - sizeof_tcb_base)) in
let p := u64 (p - Z.land p (TLS_ALIGN - 1)) in
m ← store64 (mm w) p p;
Done (set_mm w m, set_tp l p).

(** [lthread_create]: [lt] is the result of [oe_calloc], [sched_stack_size] the
  scheduler's default; the result is the return value. *)
Definition lthread_create (w : world) (lt sched_stack_size : Z) (attrp : option lthread_attr)
(f a : Z) : outcome (world * Z) :=
if lt =? 0 then Done (w, -1)
else
  let size :=
    match attrp with
    | Some at_ => if truthy (stack_size at_) then stack_size at_ else sched_stack_size
    | None => sched_stack_size
    end in
  let stk0 := match attrp with Some at_ => stack at_ | None => 0 end in
  let '(m, stk) :=
    if stk0 =? 0 then enclave_mmap (mm w) 0 size 0 (Z.lor PROT_READ PROT_WRITE) 1 else (mm w, stk0) in
  if (stk0 =? 0) && (s64 stk <? 0) then Done (set_mm w m, -1)
  else
    let tlssz := Z.land (sizeof_tcb_base + TLS_ALIGN - 1) (- TLS_ALIGN) in
    let '(m, image) := enclave_mmap m 0 tlssz 0 (Z.lor PROT_READ PROT_WRITE) 1 in
    if image =? MAP_FAILED then Done (set_mm w m, -1)
    else
      let st := match attrp with Some at_ => state at_ | None => 0 end in
      let l := mk_lthread (mk_ctx 0 0 0) f a (mk_attr size (Z.lor (BIT LT_ST_NEW) st) stk LKL_KERNEL_THREAD)
                 (spawned_lthreads w) 0 [] image tlssz 0 0 NoCb 0 (mk_futex_q 0 0 0) in
      '(w, l) ← init_tp (set_mm w m) l image tlssz;
      let w := set_spawned (put w lt l) (s32 (spawned_lthreads w + 1)) in
      let w := set_active w (lt :: active_threads w) in
      w ← __scheduler_enqueue w lt;
      Done (w, 0).

(** [lthread_create_primitive]: [tls_self] is the word at [tls]; the thread is not
  enqueued. *)
Definition lthread_create_primitive (w : world) (lt pc sp tls tls_self : Z) : outcome (world * Z) :=
if lt =? 0 then Done (w, -1)
else if negb (tls_self =? tls) then Failed Assertion
else
  let l := mk_lthread (mk_ctx (u64 (sp - sizeof_ptr)) 0 pc) 0 0
             (mk_attr 0 (BIT LT_ST_READY) 0 USERSPACE_THREAD) (spawned_lthreads w) 0 [] 0 0 tls 0
             NoCb 0 (mk_futex_q 0 0 0) in
  let w := set_spawned (put w lt l) (s32 (spawned_lthreads w + 1)) in
  Done (set_active w (lt :: active_threads w), 0).

(** [_lthread_init]; [exec] is the address of [_exec]. *)
Definition _lthread_init (exec : Z) (w : world) (p : Z) : outcome world :=
w ← _lthread_lock w p;
l ← get w p;
let top := u64 (stack (attr l) + stack_size (attr l)) in
m ← store64 (mm w) (top - 3 * sizeof_ptr) 0;
m ← store64 m (top - 2 * sizeof_ptr) p;
let l := set_ctx l (mk_ctx (top - 4 * sizeof_ptr) (top - 3 * sizeof_ptr) exec) in
let l := set_state l (clear_bit (state (attr l)) LT_ST_NEW) in
_lthread_unlock (put (set_mm w m) p l) p.

(** ** Joining *)

(** The state in which [lthread_join] leaves the caller. *)
Inductive join_result : Type :=
| JoinReturns (ret : Z) (val : option Z)   (* the value stored through [ptr] *)
| JoinWaits.                               (* switched away until the thread exits *)

(** The part after the wait: [locked] by the caller. *)
Definition join_finish (w : world) (p : Z) : outcome (world * join_result) :=
l ← get w p;
w ← _lthread_free w p;
Done (w, JoinReturns 0 (Some (yield_cbarg l))).

Definition lthread_join (w : world) (p : Z) : outcome (world * join_result) :=
let current := current_lthread w in
detached ← test w p LT_ST_DETACH;
if detached : bool then Done (w, JoinReturns EINVAL None)
else
  w ← _lthread_lock w p;
  l ← get w p;
  if has (state (attr l)) LT_ST_EXITED then join_finish w p
  else if negb (lt_join l =? 0) then
    w ← _lthread_unlock w p; Done (w, JoinReturns EINVAL None)
  else
    w ← _lthread_yield_cb (put w p (set_join l current)) current CbUnlock p;
    Done (w, JoinWaits).

(** When the joiner runs again. *)
Definition lthread_join_wakes (w : world) (p : Z) : outcome (world * join_result) :=
w ← _lthread_lock w p; join_finish w p.

(** ** Resuming a thread *)

Definition run_callback (w : world) (f : callback) (a : Z) : outcome world :=
match f with
| NoCb => Done w
| CbFutexUnlock => Done (set_futex_lock w (ticket_unlock (futex_q_lock w)))
| CbUnlock => _lthread_unlock w a
| CbDeschedReady => _lthread_desched_ready w a
end.

(** [set_tls_tp] and [reset_tls_tp]; [sched_tp] is the scheduler's own pointer. *)
Definition switch_tls (w : world) (l : lthread) (target : Z) : world :=
if truthy (tp l) then set_fsbase w target else w.

(** What happens after the switch back, for a thread that has exited. *)
Definition resume_exited (w : world) (p : Z) : outcome (world * Z) :=
l ← get w p;
w ← (if truthy (lt_join l)
     then w ← __scheduler_enqueue w (lt_join l); update w p (fun l => set_join l 0)
     else Done w);
w ← _lthread_unlock w p;
detached ← test w p LT_ST_DETACH;
w ← (if detached : bool then _lthread_free w p else Done w);
Done (set_current w 0, -1).

(** The "app-main" thread has its thread pointer read back from FS. *)
Definition refresh_tp (w : world) (fs0 : Z) : outcome world :=
l ← get w (current_lthread w);
if has (state (attr l)) LT_ST_APP_MAIN && (thread_type (attr l) =? LKL_KERNEL_THREAD)
   && negb (fs0 =? tp l)
then Done (put w (current_lthread w) (set_tp l fs0)) else Done w.

Section Loop.
(** [body p w]: thread [p] runs from [w] until it switches back; [fs0]: the word
  at FS:0 then; [exec], [sched_tp]: addresses of [_exec] and of the ethread. *)
Variable body : Z -> world -> outcome world.
Variable fs0 : world -> Z.
Variables (exec sched_tp : Z).

Definition _lthread_resume (w : world) (p : Z) : outcome (world * Z) :=
new ← test w p LT_ST_NEW;
w ← (if new : bool then _lthread_init exec w p else Done w);
w ← update w p (fun l => set_yield l NoCb 0);
l ← get w p;
let w := switch_tls (set_current w p) l (tp l) in
w ← body p w;
w ← refresh_tp w (fs0 w);
l ← get w p;
let w := switch_tls (set_current w 0) l sched_tp in
if has (state (attr l)) LT_ST_TERMINATE then Done (w, 0)
else if has (state (attr l)) LT_ST_EXITED then resume_exited w p
else w ← run_callback w (yield_cb l) (yield_cbarg l); Done (w, 0).

(** ** The scheduler loop *)

(** The event channel and the futex clock, which the loop polls; [terminating]
  is [_lthread_terminating_scheduler], [self] the running scheduler. *)
Variable vio_enclave_wakeup_event_channel : world -> world * bool.
Variable futex_tick : world -> outcome world.
Variables (self exit_status sleepspins futex_wake_spins : Z).
Variable terminating : world -> Z.

Record loop_state : Type := mk_loop { pauses : Z; spins : Z }.

Inductive pass_result : Type :=
| PassExit (status : Z)
| PassOn (l : loop_state) (dequeued : bool).

(** One pass through the [do] body. *)
Definition run_pass (w : world) (s : loop_state) : outcome (world * pass_result) :=
let '(q, lt) := deq (scheduler_queue w) in
let w := set_queue w q in
r ← (match lt with
     | None => Done (w, None)
     | Some p =>
         l ← get w p;
         if has (state (attr l)) LT_ST_EXITED then Failed Assertion
         else if has (state (attr l)) LT_ST_TERMINATE then Failed Assertion
         else
           '(w, _) ← _lthread_resume w p;
           term ← test w p LT_ST_TERMINATE;
           if term : bool then Done (w, Some (PassExit exit_status))
           else if truthy (terminating w) && negb (terminating w =? self)
           then Done (w, Some (PassExit INT_MAX))
           else Done (w, None)
     end);
let '(w, stop) := (r : world * option pass_result) in
match stop with
| Some res => Done (w, res)
| None =>
    let '(w, woken) := vio_enclave_wakeup_event_channel w in
    let dequeued := (match lt with Some _ => true | None => false end) || woken in
    let s := if dequeued then mk_loop sleepspins (spins s) else s in
    let n := s32 (spins s - 1) in
    if n <=? 0 then w ← futex_tick w; Done (w, PassOn (mk_loop (pauses s) futex_wake_spins) dequeued)
    else Done (w, PassOn (mk_loop (pauses s) n) dequeued)
end.

(** [lthread_run] for at most [fuel] passes: [None] when it is still running.
  Between passes that found nothing the loop counts down [pauses] and idles
  outside the enclave. *)
Fixpoint lthread_run (fuel : nat) (w : world) (s : loop_state) : outcome (world * option Z) :=
match fuel with
| O => Done (w, None)
| S fuel =>
    '(w, r) ← run_pass w s;
    match r with
    | PassExit status => Done (w, Some status)
    | PassOn s true => lthread_run fuel w s
    | PassOn s false =>
        let n := u64 (pauses s - 1) in
        lthread_run fuel w (if n =? 0 then mk_loop sleepspins 0 else mk_loop n (spins s))
    end
end.
End Loop.
End World.

(** ** Printing the state bits (DEBUG)

    [lthread_state_to_string]: the text in front of the terminator and the index
    [offset - 1], of type [size_t], at which the terminator is stored. *)

Definition state_names : list (Z * string) :=
  [(LT_ST_NEW, "NEW|"%string); (LT_ST_READY, "READY|"%string); (LT_ST_EXITED, "EXITED|"%string);
   (LT_ST_BUSY, "BUSY|"%string); (LT_ST_SLEEPING, "SLEEPING|"%string); (LT_ST_EXPIRED, "EXPIRED|"%string);
   (LT_ST_DETACH, "DETACH|"%string); (LT_ST_PINNED, "PINNED|"%string);
   (LT_ST_APP_MAIN, "APP_MAIN|"%string); (LT_ST_TERMINATE, "TERMINATE|"%string)].

Fixpoint state_text (names : list (Z * string)) (st : Z) : string :=
  match names with
  | [] => EmptyString
  | (b, name) :: names =>
      if has st b then (name ++ state_text names st)%string else state_text names st
  end.

Definition lthread_state_to_string (st : Z) : string * Z :=
  let text := state_text state_names st in (text, u64 (Z.of_nat (String.length text) - 1)).
