(* ===== verification/LthreadProps.v ===== *)
(** * Properties of user-level threads

    Theorems about the operations of [Lthread]: the state bits, sleeping and
    waking, exit and join, thread-local storage, creation and the scheduler loop.
    They are proved for every implementation of the scheduler queue interface. *)

From stdpp Require Import gmap strings.
From S2P Require Import Prelude Bitops TicketLock EnclaveMem EnclaveHeap MpmcQueue SchedQueue Lthread.

(** ** State bits *)

Lemma has_testbit s b : 0 <= b -> has s b = Z.testbit s b.
Proof.
  intros Hb. unfold has, truthy, BIT. rewrite Z.shiftl_1_l.
  destruct (Z.testbit s b) eqn:Ht.
  - apply negb_true_iff, Z.eqb_neq. intros H0.
    assert (Z.testbit (Z.land s (2 ^ b)) b = false) as Hf by (rewrite H0; apply Z.bits_0).
    rewrite Z.land_spec, Ht, Z.pow2_bits_true in Hf by lia. discriminate.
  - apply negb_false_iff, Z.eqb_eq. apply Z.bits_inj'. intros k Hk. rewrite Z.land_spec, Z.bits_0.
    destruct (Z.eq_dec k b) as [->|]; [rewrite Ht; reflexivity|].
    rewrite Z.pow2_bits_false by lia. apply andb_false_r.
Qed.

Lemma has_set s b b' : 0 <= b -> 0 <= b' -> has (set_bit s b) b' = (b =? b') || has s b'.
Proof.
  intros Hb Hb'. rewrite !has_testbit by lia. unfold set_bit, BIT. rewrite Z.lor_spec, Z.shiftl_1_l.
  destruct (Z.eqb_spec b b') as [->|]; [rewrite Z.pow2_bits_true by lia; apply orb_true_r|].
  rewrite Z.pow2_bits_false by lia. apply orb_false_r.
Qed.

Lemma has_clear s b b' : 0 <= b -> 0 <= b' -> has (clear_bit s b) b' = negb (b =? b') && has s b'.
Proof.
  intros Hb Hb'. rewrite !has_testbit by lia. unfold clear_bit, BIT.
  rewrite Z.land_spec, Z.lnot_spec, Z.shiftl_1_l by lia.
  destruct (Z.eqb_spec b b') as [->|]; [rewrite Z.pow2_bits_true by lia; apply andb_false_r|].
  rewrite Z.pow2_bits_false by lia. apply andb_true_r.
Qed.

(** Normalise tests of state bits. *)
Ltac bits :=
  repeat first [rewrite has_set by (vm_compute; congruence) | rewrite has_clear by (vm_compute; congruence)];
  cbn [LT_ST_NEW LT_ST_READY LT_ST_EXITED LT_ST_BUSY LT_ST_SLEEPING LT_ST_EXPIRED LT_ST_DETACH
       LT_ST_APP_MAIN LT_ST_TERMINATE Z.eqb Pos.eqb orb andb negb].

(** Evaluate the accesses to known objects. *)
Ltac objects :=
  repeat progress (
    unfold update, test, get, put in *;
    repeat match goal with
    | |- context [<[?p := _]> _ !! ?p] => rewrite lookup_insert_eq
    | H : lts ?w !! ?p = Some _ |- context [lts ?w !! ?p] => rewrite H
    end;
    cbn [mbind outcome_bind lts set_lts scheduler_queue]).

Section Props.
Context {Q : Type} `{FQ : FifoQueue Q}.
Implicit Types (w : world (Q := Q)).

(** The thread [p] is live and [l] is its object. *)
Definition live w (p : Z) (l : lthread) : Prop := lts w !! p = Some l.

(** The scheduler queue holds the threads [ps]. *)
Definition runnable w (ps : list Z) : Prop := contents (scheduler_queue w) ps.

Definition state_of (l : lthread) : Z := state (attr l).

(** [__scheduler_enqueue] on a live thread that has not exited appends it. *)
Lemma enqueue_spec w p l ps n :
live w p l -> p <> 0 -> has (state_of l) LT_ST_EXITED = false ->
runnable w ps -> room (scheduler_queue w) ps (S n) ->
exists q, __scheduler_enqueue w p = Done (set_queue w q) /\ contents q (ps ++ [p]) /\
  room q (ps ++ [p]) n.
Proof.
intros Hl Hp He Hr Hroom. unfold __scheduler_enqueue, live, state_of in *. objects.
rewrite He, (proj2 (Z.eqb_neq _ _) Hp).
destruct (enq_room _ _ p _ Hr Hroom) as (q & -> & Hq). exists q. auto.
Qed.

(** ** Waking *)

(** Functional behaviour of [lthread_wakeup]: a sleeping thread becomes ready
  and is appended to the scheduler queue exactly once: a second wake-up finds
  it awake and changes nothing. *)
Theorem wakeup_once (w : world) (p : Z) (l : lthread) (ps : list Z) :
live w p l -> p <> 0 -> has (state_of l) LT_ST_SLEEPING = true ->
has (state_of l) LT_ST_EXITED = false -> runnable w ps -> room (scheduler_queue w) ps 1 ->
exists w', lthread_wakeup w p = Done w' /\ runnable w' (ps ++ [p]) /\
  (exists l', live w' p l' /\ has (state_of l') LT_ST_READY = true /\
     has (state_of l') LT_ST_SLEEPING = false /\ has (state_of l') LT_ST_EXPIRED = false) /\
  lthread_wakeup w' p = Done w'.
Proof.
intros Hl Hp Hs He Hr Hroom. unfold lthread_wakeup, _lthread_desched_sleep, live, state_of in *. objects.
rewrite Hs. cbn [mbind outcome_bind]. set (st := set_bit _ LT_ST_READY).
set (l' := set_state l st). set (w1 := set_lts w (<[p := l']> (lts w))).
destruct (enqueue_spec w1 p l' ps 0) as (q & -> & Hq & _); auto.
{ unfold live. cbn. apply lookup_insert_eq. }
{ unfold state_of. cbn. subst st. bits. exact He. }
exists (set_queue w1 q). split; [reflexivity|]. split; [exact Hq|]. split.
- exists l'. cbn. rewrite lookup_insert_eq. split; [reflexivity|]. subst st. bits. auto.
- cbn. rewrite lookup_insert_eq. cbn. subst st. bits. reflexivity.
Qed.

(** ** Freeing *)

(** The destructor calls for the slots [slots], in list order. *)
Definition slot_calls w (slots : list (Z * Z)) : list (Z * Z) :=
omap (fun d => if truthy (snd d) && truthy (lthread_finddestr w (fst d))
               then Some (lthread_finddestr w (fst d), snd d) else None) slots.

Lemma run_slots_eq w slots : run_slots w slots = set_calls w (destr_calls w ++ slot_calls w slots).
Proof.
revert w. induction slots as [|[key d] slots IH]; intros w; cbn [run_slots slot_calls omap list_omap fst snd].
- rewrite app_nil_r. destruct w; reflexivity.
- destruct (truthy d) eqn:Hd; cbn [andb]; [|apply IH].
  destruct (truthy (lthread_finddestr w key)) eqn:Hk; cbn [andb]; [|apply IH].
  rewrite IH. cbn [set_calls destr_calls]. rewrite <- app_assoc. reflexivity.
Qed.

(** Everything but the heap, the object, the list of active threads and the log
  of destructor calls stays as it is. *)
Record freed w w' (p : Z) (calls : list (Z * Z)) : Prop := {
fr_lts : lts w' = delete p (lts w);
fr_queue : scheduler_queue w' = scheduler_queue w;
fr_active : active_threads w' = filter (fun q => q <> p) (active_threads w);
fr_calls : destr_calls w' = destr_calls w ++ calls;
fr_current : current_lthread w' = current_lthread w
}.

Lemma delete_put (m : gmap Z lthread) p l : delete p (<[p := l]> m) = delete p m.
Proof. apply delete_insert_eq. Qed.

Lemma free_spec w p l :
live w p l ->
exists w', _lthread_free w p = Done w' /\
  freed w w' p (if truthy (current_lthread w) && negb (has (state_of l) LT_ST_APP_MAIN)
                then slot_calls w (tls l) else []).
Proof.
intros Hl. unfold _lthread_free, lthread_rundestructors, live, state_of in *. objects.
destruct (truthy (current_lthread w) && negb (has (state (attr l)) LT_ST_APP_MAIN)).
- rewrite run_slots_eq. objects. cbn.
  destruct (_ && truthy (itls l)), (truthy (stack (attr l))); objects; cbn;
    rewrite ?lookup_insert_eq; cbn; (eexists; split; [reflexivity|]);
    (constructor; cbn; rewrite ?delete_put; reflexivity).
- cbn. destruct (_ && truthy (itls l)), (truthy (stack (attr l))); objects; cbn;
    rewrite ?Hl; cbn; (eexists; split; [reflexivity|]);
    (constructor; cbn; rewrite ?delete_put, ?app_nil_r; reflexivity).
Qed.

(** ** Exit and join *)

Lemma lock_spec w p l :
live w p l -> has (state_of l) LT_ST_BUSY = false ->
_lthread_lock w p = Done (put w p (set_state l (set_bit (state_of l) LT_ST_BUSY))).
Proof. intros Hl Hb. unfold _lthread_lock, live, state_of in *. objects. rewrite Hb. reflexivity. Qed.

Lemma clear_set_bit st b : 0 <= b -> has st b = false -> clear_bit (set_bit st b) b = st.
Proof.
intros Hb Hf. rewrite has_testbit in Hf by lia. apply Z.bits_inj'. intros k Hk.
unfold clear_bit, set_bit, BIT. rewrite Z.land_spec, Z.lor_spec, Z.lnot_spec, Z.shiftl_1_l by lia.
destruct (Z.eq_dec k b) as [->|]; [rewrite Z.pow2_bits_true, Hf by lia; reflexivity|].
rewrite Z.pow2_bits_false, orb_false_r, andb_true_r by lia. reflexivity.
Qed.

Lemma set_state_same l : set_state l (state (attr l)) = l.
Proof. destruct l as [? ? ? [] ? ? ? ? ? ? ? ? ? ?]. reflexivity. Qed.

(** Functional behaviour of [lthread_join] on every branch, for a thread that
  is not locked: a detached thread and a thread that has a joiner already are
  refused with EINVAL and left as they are; an exited thread is freed and its
  exit value returned; otherwise the caller becomes the joiner and waits, with
  the thread locked until the caller has switched away. *)
Theorem join_branches (w : world) (p cur : Z) (l c : lthread) :
live w p l -> live w cur c -> cur <> p -> current_lthread w = cur ->
has (state_of l) LT_ST_BUSY = false ->
if has (state_of l) LT_ST_DETACH then lthread_join w p = Done (w, JoinReturns EINVAL None)
else if has (state_of l) LT_ST_EXITED then
  exists w', lthread_join w p = Done (w', JoinReturns 0 (Some (yield_cbarg l))) /\
    lts w' = delete p (lts w)
else if negb (lt_join l =? 0) then lthread_join w p = Done (w, JoinReturns EINVAL None)
else exists w' l' c', lthread_join w p = Done (w', JoinWaits) /\ live w' p l' /\ live w' cur c' /\
  lt_join l' = cur /\ has (state_of l') LT_ST_BUSY = true /\
  yield_cb c' = CbUnlock /\ yield_cbarg c' = p.
Proof.
intros Hl Hc Hne Hcur Hb. unfold lthread_join.
assert (test w p LT_ST_DETACH = Done (has (state_of l) LT_ST_DETACH)) as ->
  by (unfold live, state_of in *; objects; reflexivity).
cbn [mbind outcome_bind]. destruct (has (state_of l) LT_ST_DETACH); [reflexivity|].
rewrite (lock_spec w p l Hl Hb). cbn [mbind outcome_bind].
set (l1 := set_state l _). set (w1 := put w p l1).
assert (get w1 p = Done l1) as -> by (unfold w1; objects; reflexivity). cbn [mbind outcome_bind].
assert (has (state (attr l1)) LT_ST_EXITED = has (state_of l) LT_ST_EXITED) as ->
  by (unfold l1, state_of; cbn; bits; reflexivity).
destruct (has (state_of l) LT_ST_EXITED) eqn:He.
- unfold join_finish. assert (get w1 p = Done l1) as -> by (unfold w1; objects; reflexivity).
  cbn [mbind outcome_bind]. destruct (free_spec w1 p l1) as (w' & -> & [Hlts _ _ _ _]).
  { unfold live, w1, put. cbn. apply lookup_insert_eq. }
  cbn. exists w'. split; [reflexivity|]. rewrite Hlts. unfold w1, put. cbn. apply delete_put.
- change (lt_join l1) with (lt_join l). destruct (negb (lt_join l =? 0)) eqn:Hj.
  + unfold _lthread_unlock. assert (get w1 p = Done l1) as -> by (unfold w1; objects; reflexivity).
    cbn [mbind outcome_bind]. unfold l1 at 1. cbn [set_state set_attr attr state]. bits.
    unfold w1, put, l1. cbn. rewrite insert_insert_eq. unfold state_of. rewrite clear_set_bit by (assumption || (vm_compute; congruence)).
    change (set_state (set_state l (set_bit (state (attr l)) LT_ST_BUSY)) (state (attr l)))
      with (set_state l (state (attr l))). rewrite set_state_same, (insert_id (lts w) p l Hl).
    destruct w; reflexivity.
  + rewrite Hcur. unfold _lthread_yield_cb, update, get, put, w1. cbn.
    rewrite !lookup_insert_ne by congruence. unfold live in Hc. rewrite Hc. cbn.
    do 3 eexists. split; [reflexivity|]. unfold live. cbn.
    rewrite lookup_insert_ne, !lookup_insert_eq by congruence. split; [reflexivity|]. split; [reflexivity|].
    unfold state_of, l1. cbn [set_join set_state set_attr attr state lt_join yield_cb yield_cbarg set_yield].
    bits. auto.
Qed.

(** Leaving a thread that has exited: the joiner, if any, is made runnable. *)
Lemma resume_exited_joined w p l j lj ps :
live w p l -> has (state_of l) LT_ST_BUSY = true -> has (state_of l) LT_ST_DETACH = false ->
lt_join l = j -> j <> 0 -> j <> p -> live w j lj -> has (state_of lj) LT_ST_EXITED = false ->
runnable w ps -> room (scheduler_queue w) ps 1 ->
exists w', resume_exited w p = Done (w', -1) /\ runnable w' (ps ++ [j]) /\ current_lthread w' = 0 /\
  lts w' = <[p := set_state (set_join l 0) (clear_bit (state_of l) LT_ST_BUSY)]> (lts w).
Proof.
intros Hl Hb Hd Hj Hj0 Hjp Hlj Hje Hr Hroom. unfold resume_exited, live, state_of in *. objects.
rewrite Hj, (proj2 (negb_true_iff _) (proj2 (Z.eqb_neq j 0) Hj0) : truthy j = true).
destruct (enqueue_spec w j lj ps 0 Hlj Hj0 Hje Hr Hroom) as (q & -> & Hq & _).
cbn [mbind outcome_bind]. unfold update, get. cbn. rewrite Hl. cbn.
unfold _lthread_unlock, get, put. cbn. rewrite lookup_insert_eq. cbn. rewrite Hb. cbn.
unfold test, get. cbn. rewrite lookup_insert_eq. cbn. bits. rewrite Hd. cbn.
eexists. split; [reflexivity|]. split; [exact Hq|]. split; [reflexivity|]. cbn.
rewrite !insert_insert_eq. reflexivity.
Qed.

(** The object of a thread that has called [lthread_exit v]. *)
Definition exited (l : lthread) (v : Z) : lthread :=
set_state (set_yield l (yield_cb l) v) (set_bit (set_bit (state_of l) LT_ST_BUSY) LT_ST_EXITED).

Lemma exit_spec w p l v :
live w p l -> current_lthread w = p -> has (state_of l) LT_ST_BUSY = false ->
lthread_exit w v = Done (put w p (exited l v)).
Proof.
intros Hl Hcur Hb. unfold lthread_exit. rewrite Hcur, (lock_spec w p l Hl Hb). cbn [mbind outcome_bind].
unfold update, get, put. cbn. rewrite Hcur, lookup_insert_eq. cbn. rewrite insert_insert_eq. reflexivity.
Qed.

(** C37. Liveness of the join protocol: when thread [p], for which [j] waits,
  calls [lthread_exit v], the scheduler makes [j] runnable and unlocks [p]; when
  [j] runs again its [lthread_join] returns [v] and [p] is freed. *)
Theorem join_gets_exit_value (w : world) (p j v : Z) (l lj : lthread) (ps : list Z) :
live w p l -> live w j lj -> j <> p -> j <> 0 -> lt_join l = j -> current_lthread w = p ->
has (state_of l) LT_ST_BUSY = false -> has (state_of l) LT_ST_DETACH = false ->
has (state_of lj) LT_ST_EXITED = false -> runnable w ps -> room (scheduler_queue w) ps 1 ->
exists w1 w2 w3,
  lthread_exit w v = Done w1 /\
  resume_exited (set_current w1 0) p = Done (w2, -1) /\ runnable w2 (ps ++ [j]) /\
  lthread_join_wakes (set_current w2 j) p = Done (w3, JoinReturns 0 (Some v)) /\
  lts w3 = delete p (lts w).
Proof.
intros Hl Hlj Hjp Hj0 Hj Hcur Hb Hd Hje Hr Hroom.
rewrite (exit_spec w p l v Hl Hcur Hb). set (l1 := exited l v). exists (put w p l1).
assert (state_of l1 = set_bit (set_bit (state_of l) LT_ST_BUSY) LT_ST_EXITED) as Hst by reflexivity.
destruct (resume_exited_joined (set_current (put w p l1) 0) p l1 j lj ps)
  as (w2 & Hr2 & Hrun & _ & Hlts); auto.
{ unfold live. cbn. apply lookup_insert_eq. }
{ rewrite Hst. bits. reflexivity. }
{ rewrite Hst. bits. exact Hd. }
{ unfold live. cbn. rewrite lookup_insert_ne by congruence. exact Hlj. }
exists w2. set (l2 := set_state (set_join l1 0) _) in Hlts.
assert (live (set_current w2 j) p l2) as Hl2 by (unfold live; cbn; rewrite Hlts; apply lookup_insert_eq).
assert (has (state_of l2) LT_ST_BUSY = false) as Hb2 by (unfold state_of, l2; cbn; bits; reflexivity).
unfold lthread_join_wakes. rewrite (lock_spec _ p l2 Hl2 Hb2). cbn [mbind outcome_bind].
unfold join_finish. set (l3 := set_state l2 _). set (w3 := put _ p l3).
assert (get w3 p = Done l3) as -> by (unfold w3; objects; reflexivity). cbn [mbind outcome_bind].
destruct (free_spec w3 p l3) as (w4 & -> & [Hlts4 _ _ _ _]).
{ unfold live, w3, put. cbn. apply lookup_insert_eq. }
exists w4. split; [reflexivity|]. split; [exact Hr2|]. split; [exact Hrun|]. split; [reflexivity|].
rewrite Hlts4. unfold w3, put. cbn. rewrite Hlts. cbn. rewrite !delete_put. reflexivity.
Qed.

(** ** Detached threads *)

(** Safety violation: the scheduler loop reads a freed object.  When a detached
  thread calls [lthread_exit], [_lthread_resume] frees it, and the loop then
  tests its state for [LT_ST_TERMINATE]. *)
Theorem run_reads_freed_thread (w : world) (p v exec sched_tp self status sspins fspins : Z)
(fs0 term : world -> Z) (vio : world -> world * bool) (tick : world -> outcome world)
(s : loop_state) (l : lthread) (ps : list Z) :
live w p l -> runnable w (p :: ps) -> lt_join l = 0 ->
has (state_of l) LT_ST_DETACH = true -> has (state_of l) LT_ST_NEW = false ->
has (state_of l) LT_ST_EXITED = false -> has (state_of l) LT_ST_TERMINATE = false ->
has (state_of l) LT_ST_BUSY = false -> has (state_of l) LT_ST_APP_MAIN = false ->
run_pass (fun _ w => lthread_exit w v) fs0 exec sched_tp vio tick self status sspins fspins term w s =
  Failed (BadPointer p).
Proof.
intros Hl Hr Hj Hd Hn He Ht Hb Hm. unfold run_pass. destruct (deq_cons _ _ _ Hr) as (q & -> & _).
unfold live, state_of in *. unfold get. cbn [lts set_queue]. rewrite Hl. cbn [mbind outcome_bind].
rewrite He, Ht. unfold _lthread_resume, test, update, get. cbn [lts set_queue]. rewrite Hl.
cbn [mbind outcome_bind]. rewrite Hn. cbn [mbind outcome_bind lts set_queue]. rewrite Hl. cbn [mbind outcome_bind put lts set_lts].
rewrite lookup_insert_eq. cbn [mbind outcome_bind]. set (l1 := set_yield l NoCb 0).
set (w1 := switch_tls _ l1 _).
assert (lts w1 = <[p := l1]> (lts w) /\ current_lthread w1 = p) as [Hlts1 Hcur1]
  by (unfold w1, switch_tls; destruct (truthy (tp l1)); split; reflexivity).
rewrite (exit_spec w1 p l1 v);
  [|unfold live; rewrite Hlts1; apply lookup_insert_eq|exact Hcur1|exact Hb].
cbn [mbind outcome_bind]. set (l2 := exited l1 v). set (w2 := put w1 p l2).
assert (lts w2 !! p = Some l2) as Hl2 by (unfold w2, put; cbn; apply lookup_insert_eq).
unfold refresh_tp, get. change (current_lthread w2) with (current_lthread w1). rewrite Hcur1, Hl2.
cbn [mbind outcome_bind].
assert (forall b, has (state (attr l2)) b = has (set_bit (set_bit (state (attr l)) LT_ST_BUSY) LT_ST_EXITED) b)
  as Hst by reflexivity.
rewrite Hst. bits. rewrite Hm. cbn [andb mbind outcome_bind]. rewrite Hl2. cbn [mbind outcome_bind].
rewrite (Hst LT_ST_TERMINATE), (Hst LT_ST_EXITED). bits. rewrite Ht. cbn [mbind outcome_bind]. set (w3 := switch_tls _ l2 sched_tp).
assert (lts w3 !! p = Some l2 /\ current_lthread w3 = 0) as [Hl3 Hcur3]
  by (unfold w3, switch_tls; destruct (truthy (tp l2)); auto).
unfold resume_exited, get. rewrite Hl3. cbn [mbind outcome_bind].
change (lt_join l2) with (lt_join l). rewrite Hj. cbn [truthy Z.eqb negb mbind outcome_bind].
unfold _lthread_unlock, get. rewrite Hl3. cbn [mbind outcome_bind]. rewrite (Hst LT_ST_BUSY). bits.
cbn [mbind outcome_bind]. set (l4 := set_state l2 _). set (w4 := put w3 p l4).
assert (live w4 p l4) as Hl4 by (unfold live, w4, put; cbn; apply lookup_insert_eq).
unfold test, get. unfold live in Hl4. rewrite Hl4. cbn [mbind outcome_bind].
assert (has (state (attr l4)) LT_ST_DETACH = true) as Hd4.
{ change (state (attr l4)) with (clear_bit (state (attr l2)) LT_ST_BUSY). bits. rewrite Hst. bits. exact Hd. }
rewrite Hd4. destruct (free_spec w4 p l4 Hl4) as (w5 & -> & [Hlts5 _ _ _ _]).
cbn [mbind outcome_bind set_current lts]. rewrite Hlts5, lookup_delete_eq. reflexivity.
Qed.

(** A detached thread is freed without its TLS destructors: [_lthread_free] is
  then called from the scheduler, where [lthread_self] is NULL; a joined thread
  is freed by its joiner and has each destructor called once per non-null slot,
  in slot order. *)
Theorem destructors_only_when_joined (w : world) (p : Z) (l : lthread) :
live w p l -> has (state_of l) LT_ST_BUSY = true -> has (state_of l) LT_ST_DETACH = true ->
has (state_of l) LT_ST_APP_MAIN = false -> lt_join l = 0 -> current_lthread w = 0 ->
(exists w', resume_exited w p = Done (w', -1) /\ lts w' = delete p (lts w) /\
   destr_calls w' = destr_calls w) /\
forall cur, cur <> 0 -> exists w' res, join_finish (set_current w cur) p = Done (w', res) /\
  destr_calls w' = destr_calls w ++ slot_calls w (tls l).
Proof.
intros Hl Hb Hd Hm Hj Hcur. split.
- unfold resume_exited, _lthread_unlock, live, state_of in *. objects. rewrite Hj.
  cbn [truthy Z.eqb negb mbind outcome_bind]. objects. rewrite Hb. cbn [mbind outcome_bind]. objects.
  cbn [attr set_state set_attr state]. bits. rewrite Hd. cbn [mbind outcome_bind].
  set (l1 := set_state l _). set (w1 := set_lts w _).
  destruct (free_spec w1 p l1) as (w' & -> & [Hlts _ _ Hc _]);
    [unfold live, w1; cbn; apply lookup_insert_eq|].
  eexists. split; [reflexivity|]. cbn. rewrite Hlts, Hc. cbn. rewrite Hcur. cbn.
  rewrite app_nil_r, delete_put. auto.
- intros cur Hc. unfold join_finish, live in *. unfold get. cbn [lts set_current]. rewrite Hl.
  cbn [mbind outcome_bind].
  destruct (free_spec (set_current w cur) p l Hl) as (w' & -> & [_ _ _ Hcl _]).
  eexists _, _. split; [reflexivity|]. rewrite Hcl. cbn. unfold truthy.
  rewrite (proj2 (Z.eqb_neq _ _) Hc), Hm. reflexivity.
Qed.

(** ** Thread-local storage *)

(** The value of [key] in a list of slots or destructors. *)
Definition assoc (t : list (Z * Z)) (key : Z) : Z :=
match list_find (fun d => fst d = key) t with Some (_, d) => snd d | None => 0 end.

Lemma assoc_cons k v t key : assoc ((k, v) :: t) key = if k =? key then v else assoc t key.
Proof.
unfold assoc. cbn. destruct (Z.eqb_spec k key), (decide (k = key)); try congruence;
  [reflexivity|]. destruct (list_find (fun d => fst d = key) t) as [[i d]|]; reflexivity.
Qed.

Lemma assoc_update t key v i d :
list_find (fun d => fst d = key) t = Some (i, d) ->
forall k, assoc (<[i := (fst d, v)]> t) k = if key =? k then v else assoc t k.
Proof.
revert i. induction t as [|[k0 v0] t IH]; intros i Hf k; [discriminate|].
cbn in Hf. destruct (decide (k0 = key)) as [->|Hne].
- injection Hf as <- <-. cbn. rewrite !assoc_cons. destruct (key =? k); reflexivity.
- destruct (list_find (fun d => fst d = key) t) as [[j d']|]; [|discriminate].
  cbn in Hf. injection Hf as <- ->.
  change (<[S j := (fst d, v)]> ((k0, v0) :: t)) with ((k0, v0) :: <[j := (fst d, v)]> t).
  rewrite !assoc_cons, (IH j eq_refl k).
  destruct (Z.eqb_spec k0 k), (Z.eqb_spec key k); congruence.
Qed.

Lemma getspecific_assoc w p l k :
live w p l -> lthread_getspecific_remote w p k = Done (assoc (tls l) k).
Proof. intros Hl. unfold lthread_getspecific_remote, live in *. objects. reflexivity. Qed.

(** Round trip of thread-local storage: after [lthread_setspecific_remote] the
  key has the value that was set, every other key its old value, and no key has
  two slots. *)
Theorem tls_set_get (w : world) (p key value : Z) (l : lthread) :
live w p l -> NoDup (fst <$> tls l) ->
exists w' l', lthread_setspecific_remote true w p key value = Done (w', 0) /\ live w' p l' /\
  NoDup (fst <$> tls l') /\ lthread_getspecific_remote w' p key = Done value /\
  forall k, k <> key -> lthread_getspecific_remote w' p k = lthread_getspecific_remote w p k.
Proof.
intros Hl Hnd. unfold lthread_setspecific_remote, lthread_findtlsslot.
assert (get w p = Done l) as -> by (unfold live in *; objects; reflexivity). cbn [mbind outcome_bind].
assert (forall l', live (put w p l') p l') as Hlive
  by (intros l'; unfold live, put; cbn; apply lookup_insert_eq).
destruct (list_find (fun d => fst d = key) (tls l)) as [[i d]|] eqn:Hf.
- set (t' := <[i := (fst d, value)]> (tls l)). exists (put w p (set_tls l t')), (set_tls l t').
  split; [reflexivity|]. split; [apply Hlive|]. split; [|split].
  + cbn. unfold t'. rewrite list_fmap_insert, list_insert_id; [exact Hnd|].
    apply list_find_Some in Hf as (Hi & _ & _). rewrite list_lookup_fmap, Hi. reflexivity.
  + rewrite (getspecific_assoc _ _ _ _ (Hlive _)). cbn. unfold t'.
    rewrite (assoc_update _ _ _ _ _ Hf), Z.eqb_refl. reflexivity.
  + intros k Hk. rewrite (getspecific_assoc _ _ _ _ (Hlive _)), (getspecific_assoc _ _ _ _ Hl). cbn.
    unfold t'. rewrite (assoc_update _ _ _ _ _ Hf), (proj2 (Z.eqb_neq key k)) by congruence. reflexivity.
- unfold lthread_addtlsslot, update. cbn [negb].
  assert (get w p = Done l) as -> by (unfold live in *; objects; reflexivity). cbn [mbind outcome_bind].
  set (l' := set_tls l _). exists (put w p l'), l'.
  split; [reflexivity|]. split; [apply Hlive|]. split; [|split].
  + cbn. apply NoDup_cons. split; [|exact Hnd]. rewrite list_elem_of_fmap.
    intros (d & Hd & Hin). apply list_find_None in Hf. rewrite Forall_forall in Hf.
    apply (Hf d Hin). symmetry. exact Hd.
  + rewrite (getspecific_assoc _ _ _ _ (Hlive _)). cbn. rewrite assoc_cons, Z.eqb_refl. reflexivity.
  + intros k Hk. rewrite (getspecific_assoc _ _ _ _ (Hlive _)), (getspecific_assoc _ _ _ _ Hl). cbn.
    rewrite assoc_cons, (proj2 (Z.eqb_neq key k)) by congruence. reflexivity.
Qed.

(** ** Creation *)

Definition tls_image_size : Z := 64.

Lemma page_addr_aligned s i : mman_ok s -> page_addr s i mod 16 = 0.
Proof.
intros ok. pose proof (ok_aligned _ ok) as Ha. pose proof (ok_end _ ok) as He.
unfold page_addr, PAGE_SIZE in *. apply Z.mod_divide in Ha as [k Hk]; [|lia].
replace (mmap_end s - i * 4096) with ((k + (mmap_num_pages s - 2) - i) * 256 * 16) by lia.
apply Z_mod_mult.
Qed.

(** Functional behaviour of [lthread_create] when memory is available: the new
  thread is live and appended to the scheduler queue, with the next thread id,
  the state bit NEW, a fresh stack and its thread pointer, 16-byte aligned, at
  the start of its TLS image. *)
Theorem create_spec (w : world) (lt size f a : Z) (ps : list Z) (m1 m2 : mman) (stk image : Z) :
mman_ok (mm w) -> lt <> 0 -> request_ok 0 size ->
enclave_mmap (mm w) 0 size 0 3 1 = (m1, stk) -> 0 <= s64 stk ->
enclave_mmap m1 0 tls_image_size 0 3 1 = (m2, image) -> 0 <= s64 image -> mmap_base m1 <= image ->
runnable w ps -> room (scheduler_queue w) ps 1 ->
exists w' l, lthread_create w lt size None f a = Done (w', 0) /\ live w' lt l /\
  runnable w' (ps ++ [lt]) /\ tid l = spawned_lthreads w /\ state_of l = BIT LT_ST_NEW /\
  stack (attr l) = stk /\ tp l = image /\ image mod 16 = 0 /\
  active_threads w' = lt :: active_threads w.
Proof.
intros ok Hlt rq Hm1 Hstk Hm2 Himg Hbase Hr Hroom.
pose proof (enclave_mmap_outcome (mm w) 0 size 0 3 1 ok rq) as O1. rewrite Hm1 in O1.
inversion O1 as [s1 F1 _|s1 r1 top1 repl1 D1 _ _]; subst.
{ exfalso. pose proof (failure_ptr ENOMEM ltac:(unfold ENOMEM; lia)) as Hf. apply Z.leb_gt in Hf. lia. }
pose proof (mmap_done_ok _ _ _ _ _ _ _ ok D1) as ok1.
assert (request_ok 0 tls_image_size) as rq2
  by (constructor; unfold tls_image_size, PAGE_SIZE; powers; lia || reflexivity).
pose proof (enclave_mmap_outcome m1 0 tls_image_size 0 3 1 ok1 rq2) as O2. rewrite Hm2 in O2.
inversion O2 as [s2 F2 _|s2 r2 top2 repl2 D2 _ _]; subst.
{ exfalso. pose proof (failure_ptr ENOMEM ltac:(unfold ENOMEM; lia)) as Hf. apply Z.leb_gt in Hf. lia. }
change (DIV_ROUNDUP tls_image_size PAGE_SIZE) with 1 in D2.
pose proof (md_fit _ _ _ _ _ _ _ D2). pose proof (md_top _ _ _ _ _ _ _ D2).
pose proof (md_layout _ _ _ _ _ _ _ D2) as L2.
assert (image = page_addr m1 top2) as Hi by (rewrite (md_ret _ _ _ _ _ _ _ D2); f_equal; lia).
pose proof (page_addr_aligned m1 top2 ok1) as Hal. rewrite <- Hi in Hal.
pose proof (page_addr_range m1 ok1 top2 ltac:(lia)) as Hrange. rewrite <- Hi in Hrange.
pose proof (ok_top _ ok1). pose proof (ok_base _ ok1).
unfold lthread_create. rewrite (proj2 (Z.eqb_neq _ _) Hlt). cbn [Z.eqb].
change (Z.lor PROT_READ PROT_WRITE) with 3. rewrite Hm1. cbn [andb].
rewrite (proj2 (Z.ltb_ge (s64 stk) 0)) by lia.
change (Z.land (sizeof_tcb_base + TLS_ALIGN - 1) (- TLS_ALIGN)) with tls_image_size. rewrite Hm2.
rewrite (proj2 (Z.eqb_neq image MAP_FAILED))
  by (change MAP_FAILED with (2 ^ 64 - 1); unfold PAGE_SIZE in *; powers; lia).
unfold init_tp. change (tls_image_size - sizeof_tcb_base) with 8. change (TLS_ALIGN - 1) with (Z.ones 4).
rewrite (u64_small (image + 8)) by (unfold PAGE_SIZE in *; powers; lia).
rewrite Z.land_ones by lia. change (2 ^ 4) with 16. rewrite Zplus_mod, Hal. change ((0 + 8 mod 16) mod 16) with 8.
rewrite u64_small by (unfold PAGE_SIZE in *; powers; lia). replace (image + 8 - 8) with image by lia.
unfold store64. cbn [mm set_mm]. rewrite (sl_base _ _ L2), (sl_end _ _ L2).
rewrite (proj2 (Z.leb_le (mmap_base m1) image)), (proj2 (Z.leb_le (image + 8) (mmap_end m1 + PAGE_SIZE)))
  by (unfold PAGE_SIZE in *; lia).
cbn [andb mbind outcome_bind]. set (m3 := set_mem m2 _). set (l := set_tp _ image).
set (w1 := set_active _ _).
assert (live w1 lt l) as Hlive by (unfold live, w1, put; cbn; apply lookup_insert_eq).
destruct (enqueue_spec w1 lt l ps 0 Hlive Hlt eq_refl Hr Hroom) as (q & -> & Hq & _).
cbn [mbind outcome_bind]. exists (set_queue w1 q), l. split; [reflexivity|].
split; [exact Hlive|]. split; [exact Hq|]. repeat split; auto.
Qed.

(** Error path: when the TLS image cannot be mapped, [lthread_create] does not
  notice, since it compares with MAP_FAILED (-1) while [enclave_mmap] returned
  -ENOMEM, and stores the thread control block at an address below 2^64. *)
Theorem create_misses_tls_failure (w : world) (lt size f a : Z) (at_ : lthread_attr) (m2 : mman) :
mman_ok (mm w) -> lt <> 0 -> stack at_ <> 0 ->
enclave_mmap (mm w) 0 tls_image_size 0 3 1 = (m2, u64 (- ENOMEM)) ->
@lthread_create Q FQ w lt size (Some at_) f a = Failed (BadPointer (2 ^ 64 - 16)).
Proof.
intros ok Hlt Hs Hm. unfold lthread_create. rewrite (proj2 (Z.eqb_neq _ _) Hlt), (proj2 (Z.eqb_neq _ _) Hs).
cbn [andb]. change (Z.land (sizeof_tcb_base + TLS_ALIGN - 1) (- TLS_ALIGN)) with tls_image_size.
change (Z.lor PROT_READ PROT_WRITE) with 3. rewrite Hm.
change (u64 (- ENOMEM) =? MAP_FAILED) with false. cbn iota. unfold init_tp.
match goal with |- context [store64 _ ?x _] => change x with (2 ^ 64 - 16) end.
assert (request_ok 0 tls_image_size) as rq2
  by (constructor; unfold tls_image_size, PAGE_SIZE; powers; lia || reflexivity).
pose proof (enclave_mmap_outcome (mm w) 0 tls_image_size 0 3 1 ok rq2) as O. rewrite Hm in O.
assert (same_layout (mm w) m2) as L by (inversion O as [s' F _|s' r' t' p' D]; subst; [apply F|apply D]).
pose proof (ok_top _ ok). unfold store64. cbn [mm set_mm]. rewrite (sl_end _ _ L).
rewrite (proj2 (Z.leb_gt (2 ^ 64 - 16 + 8) _)) by (unfold PAGE_SIZE in *; powers; lia).
rewrite andb_false_r. reflexivity.
Qed.
End Props.

(** ** Printing the state *)

Lemma state_text_empty names st :
  (forall b name, (b, name) ∈ names -> has st b = false) -> state_text names st = EmptyString.
Proof.
  induction names as [|[b name] names IH]; intros Hn; [reflexivity|]. cbn.
  rewrite (Hn b name) by constructor. apply IH. intros b' name' Hin. apply (Hn b' name'). constructor. exact Hin.
Qed.

Lemma string_length_app (s t : string) :
  String.length (String.append s t) = (String.length s + String.length t)%nat.
Proof. induction s as [|c s IH]; [reflexivity|]. simpl. congruence. Qed.

Lemma state_text_length names st :
  (String.length (state_text names st) <= sum_list (String.length ∘ snd <$> names))%nat /\
  (Exists (fun d => has st (fst d) = true /\ snd d <> EmptyString) names ->
   0 < String.length (state_text names st))%nat.
Proof.
  induction names as [|[b name] names [IH1 IH2]]; cbn; split; try lia.
  - intros H. inversion H.
  - destruct (has st b); rewrite ?string_length_app; lia.
  - intros H. destruct (has st b) eqn:Hb.
    + rewrite string_length_app. inversion H as [? ? [_ Hn]|? ? Ht]; subst; [|specialize (IH2 Ht); lia].
      destruct name; cbn in *; [congruence|lia].
    + inversion H as [? ? [Hc _]|? ? Ht]; subst; [cbn in Hc; congruence|exact (IH2 Ht)].
Qed.

(** No state bit that has a name is set. *)
Definition stateless (st : Z) : bool := forallb (fun d => negb (has st (fst d))) state_names.

(** Bounds: [lthread_state_to_string] stores its terminator right after the
    text, inside the 1024 bytes of the buffer, when some state bit is set; for a
    thread with no state bit set, such as a running kernel thread, it stores at
    index 2^64 - 1, in front of the buffer. *)
Theorem state_string_bounds (st : Z) :
  let '(text, i) := lthread_state_to_string st in
  if stateless st
  then text = EmptyString /\ i = 2 ^ 64 - 1
  else i = Z.of_nat (String.length text) - 1 /\ 0 <= i < 1024.
Proof.
  unfold lthread_state_to_string. destruct (state_text_length state_names st) as [Hlen Hpos].
  change (sum_list _) with 72%nat in Hlen.
  unfold stateless. destruct (forallb _ state_names) eqn:Hall.
  - rewrite (state_text_empty state_names st).
    + split; reflexivity.
    + intros b name Hin. rewrite forallb_forall in Hall. apply list_elem_of_In in Hin.
      apply Hall in Hin. apply negb_true_iff, Hin.
  - assert (Exists (fun d => has st (fst d) = true /\ snd d <> EmptyString) state_names) as Hex.
    { apply not_true_iff_false in Hall. apply Exists_exists.
      destruct (decide (Exists (fun d => has st (fst d) = true) state_names)) as [He|Hn].
      - apply Exists_exists in He as (d & Hin & Hd). exists d. split; [exact Hin|]. split; [exact Hd|].
        apply list_elem_of_In in Hin. cbn in Hin.
        repeat (destruct Hin as [<-|Hin]; [discriminate|]). contradiction.
      - exfalso. apply Hall. apply forallb_forall. intros d Hin. apply negb_true_iff, not_true_iff_false.
        intros Hd. apply Hn, Exists_exists. exists d. apply list_elem_of_In in Hin. auto. }
    specialize (Hpos Hex). rewrite u64_small by (powers; lia). split; [reflexivity|lia].
Qed.

(** ** Concrete runs *)

(** A booted heap, the thread 4096 running, the thread 8192 with state [st], and
    an empty scheduler queue of four cells. *)
Definition thread (st join : Z) (slots : list (Z * Z)) : lthread :=
  mk_lthread (mk_ctx 0 0 0) 0 0 (mk_attr 0 st 0 USERSPACE_THREAD) 1 join slots 0 0 0 0 NoCb 0 (mk_futex_q 0 0 0).

Definition demo (q : mpmcq) (cur st join : Z) : world :=
  mk_world {[ 4096 := thread (BIT LT_ST_READY) 0 []; 8192 := thread st join [(1, 77)] ]}
    q boot cur 0 3 [8192; 4096] [(1, 555)] 2 [] [] 0 (mk_ticketlock 0 0).

Lemma demo_runnable cur st join : runnable (demo four cur st join) [].
Proof.
  exists idle, (fun _ => None). split; [reflexivity|].
  apply (init_coupled 64 (fun _ => mk_cell 0 0) four); [lia|apply four_new].
Qed.

Lemma demo_room cur st join : room (scheduler_queue (demo four cur st join)) [] 1.
Proof. split; vm_compute; congruence. Qed.

Lemma wakeup_once_witness :
  exists w', lthread_wakeup (demo four 4096 (BIT LT_ST_SLEEPING) 0) 8192 = Done w' /\ runnable w' [8192].
Proof.
  destruct (wakeup_once (demo four 4096 (BIT LT_ST_SLEEPING) 0) 8192 (thread (BIT LT_ST_SLEEPING) 0 [(1, 77)]) []
    eq_refl ltac:(lia) eq_refl eq_refl (demo_runnable _ _ _) (demo_room _ _ _)) as (w' & Heq & Hr & _).
  exists w'. auto.
Defined.

Lemma join_branches_witness :
  exists w', lthread_join (demo four 4096 (BIT LT_ST_EXITED) 0) 8192 = Done (w', JoinReturns 0 (Some 0)) /\
    lts w' !! 8192 = None.
Proof.
  destruct (join_branches (demo four 4096 (BIT LT_ST_EXITED) 0) 8192 4096 (thread (BIT LT_ST_EXITED) 0 [(1, 77)])
    (thread (BIT LT_ST_READY) 0 []) eq_refl eq_refl ltac:(lia) eq_refl eq_refl) as (w' & Heq & Hl).
  exists w'. split; [exact Heq|]. rewrite Hl. apply lookup_delete_eq.
Defined.

Lemma join_gets_exit_value_witness :
  exists w1 w2 w3, lthread_exit (demo four 8192 (BIT LT_ST_READY) 4096) 42 = Done w1 /\
    resume_exited (set_current w1 0) 8192 = Done (w2, -1) /\ runnable w2 [4096] /\
    lthread_join_wakes (set_current w2 4096) 8192 = Done (w3, JoinReturns 0 (Some 42)).
Proof.
  destruct (join_gets_exit_value (demo four 8192 (BIT LT_ST_READY) 4096) 8192 4096 42
    (thread (BIT LT_ST_READY) 4096 [(1, 77)]) (thread (BIT LT_ST_READY) 0 []) [] eq_refl eq_refl ltac:(lia)
    ltac:(lia) eq_refl eq_refl eq_refl eq_refl eq_refl (demo_runnable _ _ _) (demo_room _ _ _))
    as (w1 & w2 & w3 & H1 & H2 & H3 & H4 & _).
  exists w1, w2, w3. auto.
Defined.

(** The queue with the detached thread 8192 in it. *)
Definition four_8192 : mpmcq := fst (mpmc_enqueue four 8192).

Lemma run_reads_freed_thread_witness :
  run_pass (fun _ w => lthread_exit w 0) (fun _ => 0) 0 0 (fun w => (w, false)) Done 1 0 10 10 (fun _ => 0)
    (demo four_8192 0 (BIT LT_ST_DETACH) 0) (mk_loop 10 10) = Failed (BadPointer 8192).
Proof.
  apply (run_reads_freed_thread (demo four_8192 0 (BIT LT_ST_DETACH) 0) 8192 0 0 0 1 0 10 10 (fun _ => 0)
    (fun _ => 0) (fun w => (w, false)) Done (mk_loop 10 10) (thread (BIT LT_ST_DETACH) 0 [(1, 77)]) []);
    try reflexivity.
  destruct (enq_room _ _ 8192 _ (demo_runnable 0 0 0) (demo_room 0 0 0)) as (q & Hq & Hc & _).
  unfold runnable. replace four_8192 with q; [exact Hc|].
  change (mpmc_enq four 8192 = (q, true)) in Hq. unfold mpmc_enq in Hq. unfold four_8192.
  destruct (mpmc_enqueue four 8192). cbn. congruence.
Defined.

Lemma destructors_only_when_joined_witness :
  exists w' res, join_finish (set_current (demo four 0 (Z.lor (BIT LT_ST_BUSY) (BIT LT_ST_DETACH)) 0) 4096) 8192 =
    Done (w', res) /\ destr_calls w' = [(555, 77)].
Proof.
  destruct (destructors_only_when_joined (demo four 0 (Z.lor (BIT LT_ST_BUSY) (BIT LT_ST_DETACH)) 0) 8192
    (thread (Z.lor (BIT LT_ST_BUSY) (BIT LT_ST_DETACH)) 0 [(1, 77)]) eq_refl eq_refl eq_refl eq_refl eq_refl eq_refl)
    as [_ Hj].
  destruct (Hj 4096 ltac:(lia)) as (w' & res & Heq & Hc). exists w', res. split; [exact Heq|]. rewrite Hc. reflexivity.
Defined.

Lemma tls_set_get_witness :
  exists w', lthread_setspecific_remote true (demo four 4096 0 0) 8192 5 99 = Done (w', 0) /\
    lthread_getspecific_remote w' 8192 5 = Done 99 /\ lthread_getspecific_remote w' 8192 1 = Done 77.
Proof.
  destruct (tls_set_get (demo four 4096 0 0) 8192 5 99 (thread 0 0 [(1, 77)]) eq_refl) as (w' & l' & H1 & _ & _ & H2 & H3).
  - cbn. apply NoDup_cons. split; [inversion 1|constructor].
  - exists w'. split; [exact H1|]. split; [exact H2|]. rewrite H3 by lia. reflexivity.
Defined.

Lemma create_spec_witness :
  exists w' l, lthread_create (demo four 4096 0 0) 12288 8192 None 1 2 = Done (w', 0) /\
    live w' 12288 l /\ tid l = 3 /\ tp l = 114688.
Proof.
  pose (m1 := fst (enclave_mmap boot 0 8192 0 3 1)).
  destruct (create_spec (demo four 4096 0 0) 12288 8192 1 2 [] m1 (fst (enclave_mmap m1 0 tls_image_size 0 3 1))
    118784 114688 (hi_ok _ boot_inv) ltac:(lia) ltac:(request)) as (w' & l & H1 & H2 & _ & H3 & _ & _ & H4 & _).
  - run.
  - vm_compute. congruence.
  - run.
  - vm_compute. congruence.
  - vm_compute. congruence.
  - apply demo_runnable.
  - apply demo_room.
  - exists w', l. auto.
Defined.

(** A heap whose pages are all mapped. *)
Definition full_heap : mman := fst (enclave_mmap boot 0 (14 * 4096) 0 3 1).

Lemma full_heap_inv : heap_inv full_heap.
Proof. apply mmap_inv; [exact boot_inv|request]. Qed.

Lemma create_misses_tls_failure_witness :
  lthread_create (set_mm (demo four 4096 0 0) full_heap) 12288 4096 (Some (mk_attr 4096 0 77777 0)) 1 2 =
    Failed (BadPointer (2 ^ 64 - 16)).
Proof.
  apply (create_misses_tls_failure (set_mm (demo four 4096 0 0) full_heap) 12288 4096 1 2 (mk_attr 4096 0 77777 0)
    (fst (enclave_mmap full_heap 0 tls_image_size 0 3 1)) (hi_ok _ full_heap_inv)); [lia|cbn; lia|run].
Defined.
