(* ===== verification/Futex.v ===== *)
(** * Futexes (src/sched/futex.c)

    The list of sleeping threads behind [futex] waits: [SLIST] order is list
    order, first element first.  A wait is split at the context switch: the part
    before it and the part that runs when the thread is resumed.  Time and the
    word at the futex address are arguments.  Each operation holds the lock of the
    file from its start to its end or switch, so that what happens while a thread
    waits is a sequence of whole operations ([futex_step]). *)

From stdpp Require Import gmap.
From S2P Require Import Prelude Bitops TicketLock EnclaveMem EnclaveHeap MpmcQueue SchedQueue Lthread LthreadProps.

Definition FUTEX_NONE : Z := 0.
Definition FUTEX_EXPIRED : Z := 1.

(** [to_futex_key]: the address cut to 32 bits. *)
Definition to_futex_key (uaddr : Z) : Z := u32 uaddr.

(** [_lthread_timespec_to_usec] on a [timespec] of seconds and nanoseconds. *)
Definition _lthread_timespec_to_usec (ts : Z * Z) : Z :=
  u64 (s64 (fst ts * 1000000) + Z.quot (snd ts) 1000).

(** [SLIST_REMOVE]: the first occurrence. *)
Fixpoint slist_remove (p : Z) (l : list Z) : list Z :=
  match l with
  | [] => []
  | q :: l => if q =? p then l else q :: slist_remove p l
  end.

Section Futex.
Context {Q : Type} `{FQ : FifoQueue Q}.

Definition futex_init (w : world (Q := Q)) : world := set_futex w [] (futex_sleepers w).

(** The lock of the file in a run of one scheduler: a lock that is held by
  another one is the fault [Spin]. *)
Definition futex_lock (w : world (Q := Q)) : outcome world :=
match ticket_lock (futex_q_lock w) with
| Some t => Done (set_futex_lock w t)
| None => Failed Spin
end.

Definition futex_unlock (w : world (Q := Q)) : world :=
set_futex_lock w (ticket_unlock (futex_q_lock w)).

(** Unlink [p]'s entry and forget its thread. *)
Definition futex_unlink (w : world (Q := Q)) (p : Z) : outcome world :=
w ← update w p (fun l => set_fq l (mk_futex_q (futex_key (fq l)) (futex_deadline (fq l)) 0));
Done (set_futex w (slist_remove p (futex_queues w)) (s32 (futex_sleepers w - 1))).

(** [futex_dequeue] *)
Fixpoint dequeue_walk (w : world (Q := Q)) (todo : list Z) (lt : Z) : outcome world :=
match todo with
| [] => Done w
| p :: todo =>
    l ← get w p;
    if lt =? futex_lt (fq l) then futex_unlink w p else dequeue_walk w todo lt
end.

Definition futex_dequeue (w : world (Q := Q)) (lt : Z) : outcome world :=
w ← futex_lock w;
w ← dequeue_walk w (futex_queues w) lt;
Done (futex_unlock w).

(** The loops of [futex_tick] and [futex_wake]: wake every thread that [sel]
  selects, given the number woken so far, with [lt->err = e]. *)
Fixpoint wake_walk (w : world (Q := Q)) (todo : list Z) (sel : Z -> lthread -> bool) (e woken : Z)
: outcome (world * Z) :=
match todo with
| [] => Done (w, woken)
| p :: todo =>
    l ← get w p;
    if sel woken l then
      let lt := futex_lt (fq l) in
      w ← futex_unlink w p;
      w ← update w lt (fun l => set_err l e);
      w ← __scheduler_enqueue w lt;
      wake_walk w todo sel e (u32 (woken + 1))
    else wake_walk w todo sel e woken
end.

(** [futex_tick]; [nanos] is what [enclave_nanos] returns. *)
Definition expired_at (usecs : Z) (woken : Z) (l : lthread) : bool :=
truthy (futex_deadline (fq l)) && (futex_deadline (fq l) <? usecs).

Definition futex_tick (w : world (Q := Q)) (nanos : Z) : outcome world :=
if futex_sleepers w =? 0 then Done w
else
  let usecs := nanos / 1000 in
  let '(r, t) := ticket_trylock (futex_q_lock w) in
  if truthy r then Done w
  else
    r ← wake_walk (set_futex_lock w t) (futex_queues w) (expired_at usecs) FUTEX_EXPIRED 0;
    Done (futex_unlock (fst r)).

(** [futex_wake] *)
Definition waits_on (key num : Z) (woken : Z) (l : lthread) : bool :=
(futex_key (fq l) =? key) && (woken <? num).

Definition futex_wake (w : world (Q := Q)) (uaddr num : Z) : outcome (world * Z) :=
wake_walk w (futex_queues w) (waits_on (to_futex_key uaddr) num) FUTEX_NONE 0.

Definition enclave_futex_wake (w : world (Q := Q)) (uaddr val : Z) : outcome (world * Z) :=
w ← futex_lock w;
r ← futex_wake w uaddr (u32 val);
Done (futex_unlock (fst r), s32 (snd r)).

(** [__futex_wait_new] for the running thread. *)
Definition __futex_wait_new (w : world (Q := Q)) (key : Z) : outcome world :=
w ← update w (current_lthread w) (fun l => set_fq l (mk_futex_q key 0 (current_lthread w)));
Done (set_futex w (current_lthread w :: futex_queues w) (futex_sleepers w)).

(** [__do_futex_sleep] up to the switch. *)
Definition __do_futex_sleep (w : world (Q := Q)) (nanos : Z) (ts : option (Z * Z)) : outcome world :=
let p := current_lthread w in
let w := set_futex w (futex_queues w) (s32 (futex_sleepers w + 1)) in
w ← (match ts with
     | None => Done w
     | Some ts =>
         update w p (fun l => set_fq l (mk_futex_q (futex_key (fq l))
           (u64 (nanos / 1000 + _lthread_timespec_to_usec ts)) (futex_lt (fq l))))
     end);
_lthread_yield_cb w p CbFutexUnlock 0.

(** What a wait leads to. *)
Inductive wait_result : Type :=
| WaitReturns (rc : Z)
| WaitSleeps.

(** [enclave_futex_timedwait] up to its return or the switch; [r] is the word read
  at [uaddr]. *)
Definition enclave_futex_timedwait (w : world (Q := Q)) (uaddr r val nanos : Z) (ts : option (Z * Z))
: outcome (world * wait_result) :=
w ← futex_lock w;
if current_lthread w =? 0 then Failed Assertion
else if r =? val then
  w ← __futex_wait_new w (to_futex_key uaddr);
  w ← __do_futex_sleep w nanos ts;
  Done (w, WaitSleeps)
else Done (futex_unlock w, WaitReturns (- EAGAIN)).

(** The part after the switch back. *)
Definition futex_wait_wakes (w : world (Q := Q)) : outcome Z :=
l ← get w (current_lthread w);
Done (if err l =? FUTEX_EXPIRED then - ETIMEDOUT else 0).

Definition enclave_futex_wait (w : world (Q := Q)) (uaddr r val nanos : Z) : outcome (world * wait_result) :=
enclave_futex_timedwait w uaddr r val nanos None.
End Futex.

(** ** Invariant *)

Record futex_inv {Q : Type} (w : world (Q := Q)) : Prop := {
  fi_nodup : NoDup (futex_queues w);
  fi_count : futex_sleepers w = Z.of_nat (length (futex_queues w));
  fi_small : Z.of_nat (length (futex_queues w)) < 2 ^ 31 - 1;
  fi_live : forall p, p ∈ futex_queues w -> exists l, live w p l /\ futex_lt (fq l) = p /\ p <> 0 /\
    has (state_of l) LT_ST_EXITED = false;
  fi_lock : ticket (futex_q_lock w) = users (futex_q_lock w) /\ 0 <= users (futex_q_lock w) < 2 ^ 32
}.

(** The object of a thread that is woken with reason [e]. *)
Definition woken_by (e : Z) (l : lthread) : lthread :=
  set_err (set_fq l (mk_futex_q (futex_key (fq l)) (futex_deadline (fq l)) 0)) e.

Lemma slist_remove_notin p l : p ∉ l -> slist_remove p l = l.
Proof.
  induction l as [|q l IH]; intros Hn; [reflexivity|]. cbn. rewrite not_elem_of_cons in Hn.
  destruct Hn as [Hne Hn]. rewrite (proj2 (Z.eqb_neq q p)) by congruence. rewrite IH by exact Hn. reflexivity.
Qed.

Lemma slist_remove_filter p l : NoDup l -> slist_remove p l = filter (fun q => q <> p) l.
Proof.
  induction l as [|q l IH]; intros Hnd; [reflexivity|]. apply NoDup_cons in Hnd as [Hq Hnd].
  cbn [slist_remove]. destruct (Z.eqb_spec q p) as [->|Hne].
  - rewrite filter_cons_False by congruence. rewrite <- IH by exact Hnd. symmetry. apply slist_remove_notin, Hq.
  - rewrite filter_cons_True by exact Hne. rewrite IH by exact Hnd. reflexivity.
Qed.

Section Walk.
Context {Q : Type} `{FQ : FifoQueue Q}.
Implicit Types (w : world (Q := Q)).

(** The threads that a walk over [todo] selects, judged in the state [w]. *)
Fixpoint picked w (sel : Z -> lthread -> bool) (n : Z) (todo : list Z) : list Z :=
match todo with
| [] => []
| p :: todo =>
    match lts w !! p with
    | Some l => if sel n l then p :: picked w sel (n + 1) todo else picked w sel n todo
    | None => []
    end
end.

Lemma picked_incl w sel n todo p : p ∈ picked w sel n todo -> p ∈ todo.
Proof.
revert n. induction todo as [|q todo IH]; intros n Hin; [exact Hin|]. cbn in Hin.
destruct (lts w !! q); [|inversion Hin]. destruct (sel n l).
- apply elem_of_cons in Hin as [->|Hin]; [left|right; eauto].
- right. eauto.
Qed.

Lemma picked_length w sel n todo : (length (picked w sel n todo) <= length todo)%nat.
Proof.
revert n. induction todo as [|q todo IH]; intros n; [reflexivity|]. cbn.
destruct (lts w !! q) as [l|]; cbn; [|lia]. specialize (IH (n + 1)) as H1. specialize (IH n).
destruct (sel n l); cbn; lia.
Qed.

Lemma picked_ext w w' sel n todo :
(forall p, p ∈ todo -> lts w' !! p = lts w !! p) -> picked w' sel n todo = picked w sel n todo.
Proof.
revert n. induction todo as [|q todo IH]; intros n Heq; [reflexivity|]. cbn.
rewrite Heq by left. destruct (lts w !! q); [|reflexivity].
rewrite !IH by (intros p Hp; apply Heq; right; exact Hp). reflexivity.
Qed.

(** What a walk that wakes the threads [ps'] does. *)
Record walked w w' (e : Z) (ps ps' : list Z) (k : nat) : Prop := {
wk_queue : runnable w' (ps ++ ps');
wk_room : room (scheduler_queue w') (ps ++ ps') k;
wk_list : futex_queues w' = filter (fun p => p ∉ ps') (futex_queues w);
wk_count : futex_sleepers w' = futex_sleepers w - Z.of_nat (length ps');
wk_woken : forall p l, p ∈ ps' -> live w p l -> live w' p (woken_by e l);
wk_same : forall p, p ∉ ps' -> lts w' !! p = lts w !! p;
wk_lock : futex_q_lock w' = futex_q_lock w;
wk_current : current_lthread w' = current_lthread w
}.

Lemma filter_nil_true (l : list Z) : filter (fun p => p ∉ ([] : list Z)) l = l.
Proof.
induction l as [|x l IH]; [reflexivity|]. rewrite filter_cons_True by (inversion 1). rewrite IH. reflexivity.
Qed.

Lemma walked_nil w e ps k : runnable w ps -> room (scheduler_queue w) ps k -> walked w w e ps [] k.
Proof.
intros Hr Hk. constructor; rewrite ?app_nil_r, ?filter_nil_true; auto; [cbn; lia|].
intros p l Hp. inversion Hp.
Qed.

(** One thread is woken. *)
Lemma wake_one w p l e ps k :
futex_inv w -> p ∈ futex_queues w -> live w p l -> runnable w ps -> room (scheduler_queue w) ps (S k) ->
exists w', (w1 ← futex_unlink w p; w2 ← update w1 (futex_lt (fq l)) (fun l => set_err l e);
            __scheduler_enqueue w2 (futex_lt (fq l))) = Done w' /\ walked w w' e ps [p] k.
Proof.
intros I Hp Hl Hr Hroom. destruct (fi_live _ I p Hp) as (l0 & Hl0 & Hlt & Hnz & He).
assert (l0 = l) as -> by (unfold live in *; congruence). rewrite Hlt.
unfold futex_unlink, update, get. unfold live in Hl. rewrite Hl. cbn [mbind outcome_bind].
unfold put. cbn [lts set_lts set_futex futex_queues futex_sleepers]. rewrite lookup_insert_eq.
cbn [mbind outcome_bind]. set (l1 := set_err _ e). set (w2 := set_lts _ _).
assert (live w2 p l1) as Hl1 by (unfold live, w2; cbn; apply lookup_insert_eq).
destruct (enqueue_spec w2 p l1 ps k Hl1 Hnz He Hr Hroom) as (q & -> & Hq & Hk).
eexists. split; [reflexivity|]. pose proof (fi_small _ I) as Hsm. pose proof (fi_count _ I) as Hc.
assert (0 < length (futex_queues w))%nat as Hpos by (destruct (futex_queues w); [inversion Hp|cbn; lia]).
constructor; cbn; auto.
- rewrite slist_remove_filter by apply I. apply list_filter_iff. intros x. rewrite list_elem_of_singleton. reflexivity.
- rewrite s32_small by (powers; lia). lia.
- intros p' l' Hp'. apply list_elem_of_singleton in Hp' as ->. unfold live. cbn. intros Hl'.
  rewrite lookup_insert_eq. assert (l' = l) as -> by congruence. reflexivity.
- intros p' Hp'. rewrite list_elem_of_singleton in Hp'. rewrite !lookup_insert_ne by congruence. reflexivity.
Qed.

Lemma slist_remove_length p l : p ∈ l -> S (length (slist_remove p l)) = length l.
Proof.
induction l as [|q l IH]; intros Hp; [inversion Hp|]. cbn. destruct (Z.eqb_spec q p); [reflexivity|].
apply elem_of_cons in Hp as [->|Hp]; [congruence|]. cbn. rewrite IH by exact Hp. reflexivity.
Qed.

Lemma filter_singleton (p : Z) (l : list Z) :
NoDup l -> filter (fun q => q ∉ [p]) l = slist_remove p l.
Proof.
intros Hnd. rewrite slist_remove_filter by exact Hnd. apply list_filter_iff. intros x.
rewrite list_elem_of_singleton. reflexivity.
Qed.

Lemma walked_one_inv w w' e ps p k :
futex_inv w -> p ∈ futex_queues w -> walked w w' e ps [p] k -> futex_inv w'.
Proof.
intros I Hp K. pose proof (wk_list _ _ _ _ _ _ K) as Hl. pose proof (wk_count _ _ _ _ _ _ K) as Hc.
pose proof (slist_remove_length p _ Hp) as Hlen.
rewrite (filter_singleton p _ (fi_nodup _ I)) in Hl. cbn [length] in Hc.
pose proof (fi_small _ I). pose proof (fi_count _ I). constructor.
- rewrite Hl, slist_remove_filter by apply I. apply NoDup_filter, I.
- rewrite Hl, Hc. lia.
- rewrite Hl. lia.
- intros p' Hp'. rewrite Hl, slist_remove_filter in Hp' by apply I.
  apply list_elem_of_filter in Hp' as [Hne Hin]. destruct (fi_live _ I _ Hin) as (l & Hlive & Hrest).
  exists l. split; [|exact Hrest]. unfold live. rewrite (wk_same _ _ _ _ _ _ K); [exact Hlive|].
  rewrite list_elem_of_singleton. exact Hne.
- rewrite (wk_lock _ _ _ _ _ _ K). apply I.
Qed.

Lemma walked_trans w w1 w2 e ps p ps' k :
walked w w1 e ps [p] (length ps' + k) -> walked w1 w2 e (ps ++ [p]) ps' k -> p ∉ ps' ->
walked w w2 e ps (p :: ps') k.
Proof.
intros K1 K2 Hn. destruct K1 as [_ _ L1 C1 W1 S1 Lo1 Cu1], K2 as [Q2 R2 L2 C2 W2 S2 Lo2 Cu2].
rewrite <- app_assoc in Q2, R2. constructor; auto.
- rewrite L2, L1, list_filter_filter. apply list_filter_iff. intros x.
  rewrite list_elem_of_singleton, elem_of_cons. tauto.
- rewrite C2, C1. cbn [length]. lia.
- intros p' l Hp' Hl. apply elem_of_cons in Hp' as [->|Hp'].
  + unfold live. rewrite S2 by exact Hn. apply W1; [left|exact Hl].
  + apply W2; [exact Hp'|]. unfold live. rewrite S1; [exact Hl|]. rewrite list_elem_of_singleton.
    intros ->. contradiction.
- intros p' Hp'. rewrite not_elem_of_cons in Hp'. destruct Hp' as [Hne Hp'].
  rewrite S2 by exact Hp'. apply S1. rewrite list_elem_of_singleton. exact Hne.
- congruence.
- congruence.
Qed.

(** The walk over the list wakes exactly the selected threads, in list order. *)
Lemma wake_walk_spec sel e todo w n ps k :
futex_inv w -> NoDup todo -> (forall p, p ∈ todo -> p ∈ futex_queues w) ->
0 <= n -> n + Z.of_nat (length todo) < 2 ^ 32 ->
runnable w ps -> room (scheduler_queue w) ps (length (picked w sel n todo) + k) ->
exists w', wake_walk w todo sel e n = Done (w', n + Z.of_nat (length (picked w sel n todo))) /\
  walked w w' e ps (picked w sel n todo) k /\ futex_inv w'.
Proof.
revert w n ps. induction todo as [|p todo IH]; intros w n ps I Hnd Hin H0 Hmax Hr Hroom.
{ exists w. cbn. rewrite Z.add_0_r. split; [reflexivity|]. split; [apply walked_nil; assumption|exact I]. }
apply NoDup_cons in Hnd as [Hp Hnd]. assert (p ∈ futex_queues w) as Hpq by (apply Hin; left).
destruct (fi_live _ I p Hpq) as (l & Hl & _). cbn [wake_walk picked length] in *.
unfold get. unfold live in Hl. rewrite Hl in *. cbn [mbind outcome_bind].
assert (forall q, q ∈ todo -> q ∈ futex_queues w) as Hin' by (intros q Hq; apply Hin; right; exact Hq).
destruct (sel n l) eqn:Hsel; [|apply IH; auto; lia].
set (rest := picked w sel (n + 1) todo) in *. cbn [length Nat.add] in Hroom.
destruct (wake_one w p l e ps (length rest + k) I Hpq Hl Hr Hroom) as (w1 & Heq & K1).
pose proof (walked_one_inv _ _ _ _ _ _ I Hpq K1) as I1.
assert (picked w1 sel (n + 1) todo = rest) as Hrest.
{ apply picked_ext. intros q Hq. apply (wk_same _ _ _ _ _ _ K1). rewrite list_elem_of_singleton.
  intros ->. contradiction. }
destruct (IH w1 (n + 1) (ps ++ [p]) I1 Hnd) as (w2 & Heq2 & K2 & I2); try lia.
{ intros q Hq. rewrite (wk_list _ _ _ _ _ _ K1). apply list_elem_of_filter. split; [|auto].
  rewrite list_elem_of_singleton. intros ->. contradiction. }
{ apply (wk_queue _ _ _ _ _ _ K1). }
{ rewrite Hrest. apply (wk_room _ _ _ _ _ _ K1). }
rewrite Hrest in Heq2, K2. exists w2. split; [|split; [|exact I2]].
- destruct (futex_unlink w p) as [wa|]; [|discriminate Heq]. cbn [mbind outcome_bind] in *.
  destruct (update wa _ _) as [wb|]; [|discriminate Heq]. cbn [mbind outcome_bind] in *.
  rewrite Heq. cbn [mbind outcome_bind]. rewrite u32_small by (powers; lia). rewrite Heq2.
  cbn [length]. do 2 f_equal. lia.
- apply (walked_trans _ w1); [exact K1|exact K2|]. intros Hc. apply picked_incl in Hc. contradiction.
Qed.
End Walk.

Lemma filter_ext_in {A} (P P' : A -> Prop) `{forall x, Decision (P x)} `{forall x, Decision (P' x)} (l : list A) :
  (forall x, x ∈ l -> P x <-> P' x) -> filter P l = filter P' l.
Proof.
  induction l as [|x l IH]; intros Heq; [reflexivity|].
  assert (filter P l = filter P' l) as IH' by (apply IH; intros y Hy; apply Heq; right; exact Hy).
  pose proof (Heq x ltac:(left)) as Hx. destruct (decide (P x)).
  - rewrite !filter_cons_True by tauto. congruence.
  - rewrite !filter_cons_False by tauto. exact IH'.
Qed.

Lemma in_take_middle (l1 l2 : list Z) (p n : Z) :
  NoDup (l1 ++ p :: l2) -> (p ∈ take (Z.to_nat n) (l1 ++ p :: l2)) <-> Z.of_nat (length l1) < n.
Proof.
  intros Hnd. split.
  - intros (i & Hi)%list_elem_of_lookup. apply lookup_take_Some in Hi as [Hi Hlt].
    assert ((l1 ++ p :: l2) !! length l1 = Some p) as Hm by (apply list_lookup_middle; reflexivity).
    pose proof (NoDup_lookup _ _ _ _ Hnd Hi Hm). lia.
  - intros Hlt. apply list_elem_of_lookup. exists (length l1). rewrite lookup_take_lt by lia.
    apply list_lookup_middle. reflexivity.
Qed.

Section Theorems.
Context {Q : Type} `{FQ : FifoQueue Q}.
Implicit Types (w : world (Q := Q)).

Definition key_of w (p : Z) : Z := match lts w !! p with Some l => futex_key (fq l) | None => 0 end.

(** The threads that wait on [key], the latest first. *)
Definition waiters w (key : Z) : list Z := filter (fun p => key_of w p = key) (futex_queues w).

Lemma picked_waits w key num n todo :
(forall p, p ∈ todo -> is_Some (lts w !! p)) ->
picked w (waits_on key num) n todo = take (Z.to_nat (num - n)) (filter (fun p => key_of w p = key) todo).
Proof.
revert n. induction todo as [|p todo IH]; intros n Hlive; [symmetry; apply take_nil|]. cbn [picked].
destruct (Hlive p ltac:(left)) as [l Hl]. rewrite Hl. unfold waits_on at 1.
assert (forall m, picked w (waits_on key num) m todo =
  take (Z.to_nat (num - m)) (filter (fun p => key_of w p = key) todo)) as IH'
  by (intros m; apply IH; intros q Hq; apply Hlive; right; exact Hq).
destruct (Z.eqb_spec (futex_key (fq l)) key) as [Hk|Hk]; cbn [andb].
- rewrite filter_cons_True by (unfold key_of; rewrite Hl; exact Hk).
  destruct (Z.ltb_spec n num) as [Hlt|Hge].
  + rewrite IH'. replace (Z.to_nat (num - n)) with (S (Z.to_nat (num - (n + 1)))) by lia. reflexivity.
  + rewrite IH'. replace (Z.to_nat (num - n)) with 0%nat by lia. reflexivity.
- rewrite filter_cons_False by (unfold key_of; rewrite Hl; exact Hk). apply IH'.
Qed.

Lemma lock_free_lock w :
futex_inv w -> exists t, futex_lock w = Done (set_futex_lock w t) /\
  ticket (ticket_unlock t) = users (ticket_unlock t) /\ 0 <= users (ticket_unlock t) < 2 ^ 32.
Proof.
intros I. destruct (fi_lock _ I) as [Hf Hr]. unfold futex_lock, ticket_lock, take_ticket, my_turn. cbn.
rewrite (proj2 (Z.eqb_eq _ _) Hf). eexists. split; [reflexivity|]. cbn. rewrite Hf.
split; [reflexivity|]. apply u32_range.
Qed.

(** Changing only the lock keeps everything else. *)
Lemma inv_relock w t t' :
futex_inv (set_futex_lock w t) -> ticket t' = users t' -> 0 <= users t' < 2 ^ 32 ->
futex_inv (set_futex_lock w t').
Proof. intros [] Ht Hr. constructor; auto. Qed.

Lemma inv_with_lock w t : futex_inv w -> ticket t = users t -> 0 <= users t < 2 ^ 32 -> futex_inv (set_futex_lock w t).
Proof. intros [] Ht Hr. constructor; auto. Qed.

(** The walk of a locked list, between [futex_lock] and [futex_unlock]. *)
Lemma locked_walk w t sel e ps k :
futex_inv w -> ticket (ticket_unlock t) = users (ticket_unlock t) -> 0 <= users (ticket_unlock t) < 2 ^ 32 ->
let ps' := picked w sel 0 (futex_queues w) in
runnable w ps -> room (scheduler_queue w) ps (length ps' + k) ->
exists w', wake_walk (set_futex_lock w t) (futex_queues w) sel e 0 = Done (w', Z.of_nat (length ps')) /\
  walked (set_futex_lock w t) w' e ps ps' k /\ futex_inv (futex_unlock w').
Proof.
intros I Ht Hr ps' Hq Hroom.
set (t0 := futex_q_lock w) in *.
(* the walk does not look at the lock: run it with the free one *)
assert (forall w sel e todo n t, wake_walk (set_futex_lock w t) todo sel e n =
  r ← wake_walk w todo sel e n; Done (set_futex_lock (fst r) t, snd r)) as Hframe.
{ clear. intros w sel e todo. revert w. induction todo as [|p todo IH]; intros w n t; [reflexivity|].
  cbn [wake_walk]. unfold get at 1 2. cbn [lts set_futex_lock].
  destruct (lts w !! p) as [l|]; [|reflexivity]. cbn [mbind outcome_bind].
  destruct (sel n l); [|apply IH]. unfold futex_unlink, update, get, __scheduler_enqueue, test, get, put. cbn.
  destruct (lts w !! p) as [l1|]; [|reflexivity]. cbn.
  destruct (<[p := _]> (lts w) !! futex_lt (fq l)) as [l2|]; [|reflexivity]. cbn.
  rewrite lookup_insert_eq. cbn. destruct (has _ _); [reflexivity|].
  destruct (futex_lt (fq l) =? 0); [reflexivity|]. destruct (enq (scheduler_queue w) _) as [q []]; [|reflexivity].
  cbn. match goal with |- _ = mbind _ (wake_walk ?w' _ _ _ ?n') => exact (IH w' n' t) end. }
rewrite Hframe.
destruct (wake_walk_spec sel e (futex_queues w) w 0 ps k I (fi_nodup _ I)) as (w' & -> & K & I'); auto; try lia.
{ pose proof (fi_small _ I). powers. lia. }
cbn [mbind outcome_bind fst snd]. eexists. split; [reflexivity|]. split.
- destruct K. constructor; auto.
- unfold futex_unlock. cbn. apply (inv_with_lock w'); assumption.
Qed.

(** A wake, with the walk that it makes. *)
Lemma wake_walked w uaddr num ps k :
let woken := take (Z.to_nat (u32 num)) (waiters w (to_futex_key uaddr)) in
futex_inv w -> runnable w ps -> room (scheduler_queue w) ps (length woken + k) ->
exists t w', enclave_futex_wake w uaddr num = Done (futex_unlock w', Z.of_nat (length woken)) /\
  walked (set_futex_lock w t) w' FUTEX_NONE ps woken k /\ futex_inv (futex_unlock w').
Proof.
intros woken I Hr Hroom. destruct (lock_free_lock w I) as (t & Hlock & Ht & Hrange).
assert (picked w (waits_on (to_futex_key uaddr) (u32 num)) 0 (futex_queues w) = woken) as Hp.
{ rewrite picked_waits; [rewrite Z.sub_0_r; reflexivity|].
  intros p Hp. destruct (fi_live _ I p Hp) as (l & Hl & _). exists l. exact Hl. }
destruct (locked_walk w t (waits_on (to_futex_key uaddr) (u32 num)) FUTEX_NONE ps k I Ht Hrange Hr) as (w' & Hw & K & I').
{ rewrite Hp. exact Hroom. }
rewrite Hp in *. exists t, w'. split; [|split; assumption].
unfold enclave_futex_wake. rewrite Hlock. cbn [mbind outcome_bind]. unfold futex_wake.
change (futex_queues (set_futex_lock w t)) with (futex_queues w). rewrite Hw. cbn [mbind outcome_bind fst snd].
assert (Z.of_nat (length woken) < 2 ^ 31) as Hsmall.
{ pose proof (picked_length w (waits_on (to_futex_key uaddr) (u32 num)) 0 (futex_queues w)) as Hle.
  rewrite Hp in Hle. pose proof (fi_small _ I). lia. }
rewrite s32_small by lia. reflexivity.
Qed.

(** Functional behaviour of [enclave_futex_wake]: it wakes the [num] most recent
  waiters of the key (all of them if there are fewer), appends them to the
  scheduler queue in that order, unlinks exactly these, keeps the others in
  order, and returns their number. *)
Theorem futex_wake_spec (w : world) (uaddr num : Z) (ps : list Z) (k : nat) :
let woken := take (Z.to_nat (u32 num)) (waiters w (to_futex_key uaddr)) in
futex_inv w -> runnable w ps -> room (scheduler_queue w) ps (length woken + k) ->
exists w', enclave_futex_wake w uaddr num = Done (w', Z.of_nat (length woken)) /\
  runnable w' (ps ++ woken) /\ futex_queues w' = filter (fun p => p ∉ woken) (futex_queues w) /\
  (forall p l, p ∈ woken -> live w p l -> live w' p (woken_by FUTEX_NONE l)) /\ futex_inv w'.
Proof.
intros woken I Hr Hroom. destruct (wake_walked w uaddr num ps k I Hr Hroom) as (t & w' & E & K & I').
exists (futex_unlock w'). split; [exact E|]. split; [apply (wk_queue _ _ _ _ _ _ K)|].
split; [apply (wk_list _ _ _ _ _ _ K)|]. split; [|exact I'].
intros p l Hin Hl. exact (wk_woken _ _ _ _ _ _ K p l Hin Hl).
Qed.

(** The object of a thread that sleeps on [key]. *)
Definition sleeping_on (key deadline p : Z) (l : lthread) : lthread :=
set_yield (set_fq l (mk_futex_q key deadline p)) CbFutexUnlock 0.

Definition deadline_of (nanos : Z) (ts : option (Z * Z)) : Z :=
match ts with None => 0 | Some ts => u64 (nanos / 1000 + _lthread_timespec_to_usec ts) end.

(** A wait whose value matches: the state when the thread has switched away and
  the scheduler has run its callback. *)
Lemma wait_sleeps w p l uaddr val nanos ts :
futex_inv w -> current_lthread w = p -> live w p l -> p <> 0 -> p ∉ futex_queues w ->
has (state_of l) LT_ST_EXITED = false -> Z.of_nat (length (futex_queues w)) < 2 ^ 31 - 2 ->
exists w1 w2, enclave_futex_timedwait w uaddr val val nanos ts = Done (w1, WaitSleeps) /\
  run_callback w1 CbFutexUnlock 0 = Done w2 /\ futex_inv w2 /\
  live w2 p (sleeping_on (to_futex_key uaddr) (deadline_of nanos ts) p l) /\
  futex_queues w2 = p :: futex_queues w /\ scheduler_queue w2 = scheduler_queue w /\
  (forall p', p' <> p -> lts w2 !! p' = lts w !! p').
Proof.
intros I Hcur Hl Hp Hn He Hsm. destruct (lock_free_lock w I) as (t & Hlock & Ht & Hrange).
pose proof (fi_count _ I) as Hc. set (l2 := sleeping_on (to_futex_key uaddr) (deadline_of nanos ts) p l).
set (w1 := set_lts (set_futex (set_futex_lock w t) (p :: futex_queues w) (s32 (futex_sleepers w + 1)))
             (<[p := l2]> (lts w))).
assert (enclave_futex_timedwait w uaddr val val nanos ts = Done (w1, WaitSleeps)) as Hwait.
{ unfold enclave_futex_timedwait. rewrite Hlock. cbn [mbind outcome_bind].
  change (current_lthread (set_futex_lock w t)) with (current_lthread w). rewrite Hcur.
  rewrite (proj2 (Z.eqb_neq p 0) Hp), Z.eqb_refl.
  unfold __futex_wait_new, __do_futex_sleep, _lthread_yield_cb, update, get, put. cbn.
  unfold live in Hl. rewrite Hcur, Hl. cbn. rewrite Hcur.
  destruct ts as [ts|]; cbn; rewrite lookup_insert_eq; cbn; rewrite ?lookup_insert_eq; cbn;
    rewrite !insert_insert_eq; reflexivity. }
exists w1, (futex_unlock w1). split; [exact Hwait|]. split; [reflexivity|]. split; [|split; [|split; [|split]]].
- constructor; cbn.
  + apply NoDup_cons. split; [exact Hn|apply I].
  + rewrite s32_small by (pose proof (fi_small _ I); powers; lia). lia.
  + lia.
  + intros p' Hp'. destruct (Z.eq_dec p' p) as [->|Hne].
    * exists l2. unfold live. cbn. rewrite lookup_insert_eq. auto.
    * apply elem_of_cons in Hp' as [->|Hp']; [congruence|].
      destruct (fi_live _ I p' Hp') as (l' & Hl' & Hrest). exists l'. split; [|exact Hrest].
      unfold live. cbn. rewrite lookup_insert_ne by congruence. exact Hl'.
  + split; assumption.
- unfold live. cbn. apply lookup_insert_eq.
- reflexivity.
- reflexivity.
- intros p' Hne. cbn. apply lookup_insert_ne. congruence.
Qed.

Lemma trylock_free w :
futex_inv w -> exists t, ticket_trylock (futex_q_lock w) = (0, t) /\
  ticket (ticket_unlock t) = users (ticket_unlock t) /\ 0 <= users (ticket_unlock t) < 2 ^ 32.
Proof.
intros I. destruct (fi_lock _ I) as [Hf Hr]. unfold ticket_trylock.
rewrite trylock_cas_free by (rewrite ?Hf; auto). eexists. split; [reflexivity|]. cbn.
split; [reflexivity|]. apply u32_range.
Qed.

(** Threads whose deadline has passed. *)
Definition is_late w (usecs p : Z) : bool :=
match lts w !! p with Some l => expired_at usecs 0 l | None => false end.
Definition late w (usecs : Z) : list Z := filter (fun p => is_late w usecs p = true) (futex_queues w).

Lemma picked_late w usecs n todo :
(forall p, p ∈ todo -> is_Some (lts w !! p)) ->
picked w (expired_at usecs) n todo = filter (fun p => is_late w usecs p = true) todo.
Proof.
revert n. induction todo as [|p todo IH]; intros n Hlive; [reflexivity|]. cbn [picked].
destruct (Hlive p ltac:(left)) as [l Hl]. rewrite Hl.
assert (forall m, picked w (expired_at usecs) m todo = _) as IH'
  by (intros m; apply IH; intros q Hq; apply Hlive; right; exact Hq).
change (expired_at usecs n l) with (expired_at usecs 0 l). destruct (expired_at usecs 0 l) eqn:He.
- rewrite filter_cons_True by (unfold is_late; rewrite Hl; exact He). rewrite IH'. reflexivity.
- rewrite filter_cons_False by (unfold is_late; rewrite Hl; congruence). apply IH'.
Qed.

(** A tick, with the walk that it makes. *)
Lemma tick_walked w nanos ps k :
let gone := late w (nanos / 1000) in
futex_inv w -> runnable w ps -> room (scheduler_queue w) ps (length gone + k) ->
exists t w', futex_tick w nanos = Done (set_futex_lock w' t) /\ walked w w' FUTEX_EXPIRED ps gone k /\
  futex_inv (set_futex_lock w' t).
Proof.
intros gone I Hr Hroom. unfold futex_tick.
assert (forall p, p ∈ futex_queues w -> is_Some (lts w !! p)) as Hsome.
{ intros p Hp. destruct (fi_live _ I p Hp) as (l & Hl & _). exists l. exact Hl. }
assert (picked w (expired_at (nanos / 1000)) 0 (futex_queues w) = gone) as Hp by (apply picked_late, Hsome).
destruct (Z.eqb_spec (futex_sleepers w) 0) as [H0|Hn].
- assert (futex_queues w = []) as Hnil by (rewrite (fi_count _ I) in H0; destruct (futex_queues w); [reflexivity|cbn in H0; lia]).
  assert (gone = []) as Hg by (unfold gone, late; rewrite Hnil; reflexivity).
  exists (futex_q_lock w), w. rewrite Hg in *. split; [destruct w; reflexivity|].
  split; [apply walked_nil; assumption|]. apply inv_with_lock; [exact I|apply I|apply I].
- destruct (trylock_free w I) as (t & -> & Ht & Hrange). cbn [truthy Z.eqb negb].
  destruct (locked_walk w t (expired_at (nanos / 1000)) FUTEX_EXPIRED ps k I Ht Hrange Hr) as (w' & Hw & K & I').
  { rewrite Hp. exact Hroom. }
  rewrite Hp in *. rewrite Hw. cbn [mbind outcome_bind fst snd].
  exists (ticket_unlock (futex_q_lock w')), (set_futex_lock w' (futex_q_lock w)).
  split; [reflexivity|]. split; [|exact I']. destruct K. constructor; auto.
Qed.

(** Timeouts: when the futex lock is free, [futex_tick] wakes exactly the
  threads whose deadline lies before the current time, appends them to the
  scheduler queue, keeps the other sleepers in order, and a woken thread's wait
  returns -ETIMEDOUT. *)
Theorem futex_tick_spec (w : world) (nanos : Z) (ps : list Z) (k : nat) :
let gone := late w (nanos / 1000) in
futex_inv w -> runnable w ps -> room (scheduler_queue w) ps (length gone + k) ->
exists w', futex_tick w nanos = Done w' /\ runnable w' (ps ++ gone) /\
  futex_queues w' = filter (fun p => p ∉ gone) (futex_queues w) /\ futex_inv w' /\
  (forall p, p ∈ gone -> futex_wait_wakes (set_current w' p) = Done (- ETIMEDOUT)) /\
  (forall p, p ∉ gone -> lts w' !! p = lts w !! p).
Proof.
intros gone I Hr Hroom. destruct (tick_walked w nanos ps k I Hr Hroom) as (t & w' & E & K & I').
exists (set_futex_lock w' t). split; [exact E|]. split; [apply (wk_queue _ _ _ _ _ _ K)|].
split; [apply (wk_list _ _ _ _ _ _ K)|]. split; [exact I'|]. split; [|exact (wk_same _ _ _ _ _ _ K)].
intros p Hin. apply list_elem_of_filter in Hin as Hin'. destruct (fi_live _ I p (proj2 Hin')) as (l & Hl & _).
pose proof (wk_woken _ _ _ _ _ _ K p l Hin Hl) as Hlive.
unfold futex_wait_wakes, get. cbn. unfold live in Hlive. rewrite Hlive. reflexivity.
Qed.

(** ** Runs *)

(** What happens to the futexes while thread [p] waits: another thread waits and
  switches away, finds another value, wakes or exits, the scheduler ticks, or
  something else happens that keeps the list, its lock and its entries.  The
  run queue has room for the threads on the list. *)
Inductive futex_step (p : Z) (w : world) : world -> Prop :=
| fs_sleep q l uaddr val nanos ts w1 w2 :
    live w q l -> q <> 0 -> q ∉ futex_queues w -> has (state_of l) LT_ST_EXITED = false ->
    Z.of_nat (length (futex_queues w)) < 2 ^ 31 - 2 ->
    enclave_futex_timedwait (set_current w q) uaddr val val nanos ts = Done (w1, WaitSleeps) ->
    run_callback w1 CbFutexUnlock 0 = Done w2 -> futex_step p w w2
| fs_again q uaddr r val nanos ts w1 rc :
    enclave_futex_timedwait (set_current w q) uaddr r val nanos ts = Done (w1, WaitReturns rc) -> futex_step p w w1
| fs_wake uaddr num ps w' r :
    runnable w ps -> room (scheduler_queue w) ps (length (futex_queues w)) ->
    enclave_futex_wake w uaddr num = Done (w', r) -> futex_step p w w'
| fs_tick nanos ps w' :
    runnable w ps -> room (scheduler_queue w) ps (length (futex_queues w)) ->
    futex_tick w nanos = Done w' -> futex_step p w w'
| fs_exit q w' : q <> p -> futex_dequeue w q = Done w' -> futex_step p w w'
| fs_other w' :
    futex_queues w' = futex_queues w -> futex_sleepers w' = futex_sleepers w -> futex_q_lock w' = futex_q_lock w ->
    (forall q l, q ∈ futex_queues w -> live w q l ->
       exists l', live w' q l' /\ fq l' = fq l /\ has (state_of l') LT_ST_EXITED = has (state_of l) LT_ST_EXITED) ->
    futex_step p w w'.

(** The runs during which [p] stays on the list. *)
Definition meanwhile (p : Z) : relation world := rtc (fun w w' => futex_step p w w' /\ p ∈ futex_queues w').

(** Thread [p] has left the list for the run queue, and its wait returns [rc]. *)
Definition goes_on w (p rc : Z) : Prop :=
(p ∉ futex_queues w) /\ (exists ps, runnable w ps /\ p ∈ ps) /\ futex_wait_wakes (set_current w p) = Done rc.

(** The list without the threads [gone]; the entries of the others are kept. *)
Definition shrinks w w' (gone : list Z) : Prop :=
futex_queues w' = filter (fun q => q ∉ gone) (futex_queues w) /\
forall q, q ∈ futex_queues w -> q ∉ gone -> key_of w' q = key_of w q.

Lemma shrinks_waiters w w' gone key :
shrinks w w' gone -> waiters w' key = filter (fun q => q ∉ gone) (waiters w key).
Proof.
intros [Hq Hk]. unfold waiters. rewrite Hq, !list_filter_filter. apply filter_ext_in. intros q Hin. split.
- intros [H1 H2]. rewrite <- Hk by assumption. tauto.
- intros [H1 H2]. rewrite Hk by assumption. tauto.
Qed.

Lemma walked_shrinks w t w' e ps ps' k : walked (set_futex_lock w t) w' e ps ps' k -> shrinks w w' ps'.
Proof.
intros K. split; [apply (wk_list _ _ _ _ _ _ K)|]. intros q _ Hn. unfold key_of.
rewrite (wk_same _ _ _ _ _ _ K q Hn). reflexivity.
Qed.

(** Threads that are woken by a walk go on. *)
Lemma walked_goes_on w t w' e ps ps' k p :
futex_inv w -> walked (set_futex_lock w t) w' e ps ps' k -> p ∈ ps' -> p ∈ futex_queues w ->
goes_on w' p (if e =? FUTEX_EXPIRED then - ETIMEDOUT else 0).
Proof.
intros I K Hin Hq. split; [|split].
- rewrite (wk_list _ _ _ _ _ _ K), list_elem_of_filter. tauto.
- exists (ps ++ ps'). split; [apply (wk_queue _ _ _ _ _ _ K)|]. apply elem_of_app. right. exact Hin.
- destruct (fi_live _ I p Hq) as (l & Hl & _). pose proof (wk_woken _ _ _ _ _ _ K p l Hin Hl) as Hlive.
  unfold futex_wait_wakes, get. cbn. unfold live in Hlive. rewrite Hlive. reflexivity.
Qed.

(** [futex_dequeue] unlinks the entry of the thread, if it has one. *)
Lemma dequeue_walk_spec w todo q :
(forall p, p ∈ todo -> exists l, live w p l /\ futex_lt (fq l) = p) ->
dequeue_walk w todo q = if decide (q ∈ todo) then futex_unlink w q else Done w.
Proof.
induction todo as [|p todo IH]; intros Hl; [rewrite decide_False by (inversion 1); reflexivity|].
cbn [dequeue_walk]. destruct (Hl p ltac:(left)) as (l & Hp & Hlt). unfold get. unfold live in Hp. rewrite Hp.
cbn [mbind outcome_bind]. rewrite Hlt. destruct (Z.eqb_spec q p) as [->|Hne].
- rewrite decide_True by left. reflexivity.
- rewrite IH by (intros p' Hp'; apply Hl; right; exact Hp'). destruct (decide (q ∈ todo)) as [Hin|Hn].
  + rewrite decide_True by (right; exact Hin). reflexivity.
  + rewrite decide_False by (rewrite elem_of_cons; tauto). reflexivity.
Qed.

Lemma shrinks_refl w w' : futex_queues w' = futex_queues w -> (forall q, q ∈ futex_queues w -> key_of w' q = key_of w q) ->
shrinks w w' [].
Proof. intros Hq Hk. split; [rewrite filter_nil_true; exact Hq|auto]. Qed.

Lemma dequeue_shrinks w w' q :
futex_inv w -> futex_dequeue w q = Done w' -> futex_inv w' /\ shrinks w w' [q].
Proof.
intros I. destruct (lock_free_lock w I) as (t & Hlock & Ht & Hrange). unfold futex_dequeue. rewrite Hlock.
cbn [mbind outcome_bind]. rewrite dequeue_walk_spec.
2:{ intros p Hp. destruct (fi_live _ I p Hp) as (l & Hl & Hlt & _). exists l. auto. }
change (futex_queues (set_futex_lock w t)) with (futex_queues w).
destruct (decide (q ∈ futex_queues w)) as [Hin|Hn]; cbn [mbind outcome_bind].
- destruct (fi_live _ I q Hin) as (l & Hl & _). unfold futex_unlink, update, get, put. cbn. unfold live in Hl. rewrite Hl.
  cbn. intros [= <-]. pose proof (slist_remove_length q _ Hin) as Hlen. pose proof (fi_small _ I). pose proof (fi_count _ I).
  split; [constructor; cbn|split; cbn].
  + rewrite slist_remove_filter by apply I. apply NoDup_filter, I.
  + rewrite s32_small by (powers; lia). lia.
  + lia.
  + intros p Hp. rewrite slist_remove_filter in Hp by apply I. apply list_elem_of_filter in Hp as [Hne Hp].
    destruct (fi_live _ I p Hp) as (l' & Hl' & Hrest). exists l'. split; [|exact Hrest]. unfold live. cbn.
    rewrite lookup_insert_ne by congruence. exact Hl'.
  + split; assumption.
  + symmetry. apply filter_singleton, I.
  + intros p _ Hp. rewrite list_elem_of_singleton in Hp. unfold key_of. cbn. rewrite lookup_insert_ne by congruence. reflexivity.
- intros [= <-]. split; [apply (inv_with_lock w); assumption|]. split; [|reflexivity]. cbn.
  rewrite filter_singleton by apply I. symmetry. apply slist_remove_notin, Hn.
Qed.

(** [p] waits on [key]; the threads that come after it on the list are among
    [older]. *)
Definition behind w (key p : Z) (older : list Z) : Prop :=
exists before after, waiters w key = before ++ p :: after /\ sublist after older.

Lemma behind_in w key p older : behind w key p older -> p ∈ futex_queues w.
Proof.
intros (before & after & E & _). assert (p ∈ waiters w key) as Hin by (rewrite E; apply elem_of_app; right; left).
apply list_elem_of_filter in Hin. tauto.
Qed.

Lemma shrinks_behind w w' gone key p older :
shrinks w w' gone -> p ∉ gone -> behind w key p older -> behind w' key p older.
Proof.
intros Hs Hn (before & after & E & Hsub). unfold behind. rewrite (shrinks_waiters _ _ _ _ Hs), E, filter_app, filter_cons_True by exact Hn.
eexists _, _. split; [reflexivity|]. etransitivity; [apply sublist_filter|exact Hsub].
Qed.

Lemma inv_current w q : futex_inv w -> futex_inv (set_current w q).
Proof. intros []. constructor; auto. Qed.

(** Another thread that goes to sleep comes before those that sleep already. *)
Lemma sleep_behind w q l uaddr val nanos ts w1 w2 key p older :
futex_inv w -> live w q l -> q <> 0 -> q ∉ futex_queues w -> has (state_of l) LT_ST_EXITED = false ->
Z.of_nat (length (futex_queues w)) < 2 ^ 31 - 2 ->
enclave_futex_timedwait (set_current w q) uaddr val val nanos ts = Done (w1, WaitSleeps) ->
run_callback w1 CbFutexUnlock 0 = Done w2 -> behind w key p older -> futex_inv w2 /\ behind w2 key p older.
Proof.
intros I Hl Hq Hn He Hsm H1 H2 (before & after & E & Hsub).
destruct (wait_sleeps (set_current w q) q l uaddr val nanos ts) as (w1' & w2' & H1' & H2' & I2 & Hl2 & Hq2 & _ & Hsame);
  try assumption; [apply inv_current, I|reflexivity|].
rewrite H1 in H1'. injection H1' as <-. rewrite H2 in H2'. injection H2' as <-. split; [exact I2|].
assert (filter (fun x => key_of w2 x = key) (futex_queues w) = waiters w key) as Hf.
{ apply filter_ext_in. intros x Hx. unfold key_of. rewrite Hsame by (intros ->; contradiction). reflexivity. }
unfold behind, waiters. rewrite Hq2. change (futex_queues (set_current w q)) with (futex_queues w).
destruct (decide (key_of w2 q = key)).
- rewrite filter_cons_True by assumption. rewrite Hf, E. exists (q :: before), after. auto.
- rewrite filter_cons_False by assumption. rewrite Hf, E. exists before, after. auto.
Qed.

(** A wait that finds another value changes only the ticket numbers. *)
Lemma again_shrinks w q uaddr r val nanos ts w1 rc :
futex_inv w -> enclave_futex_timedwait (set_current w q) uaddr r val nanos ts = Done (w1, WaitReturns rc) ->
futex_inv w1 /\ shrinks w w1 [].
Proof.
intros I. destruct (lock_free_lock _ (inv_current w q I)) as (t & Hlock & Ht & Hrange).
unfold enclave_futex_timedwait. rewrite Hlock. cbn [mbind outcome_bind].
destruct (current_lthread _ =? 0); [discriminate|]. destruct (r =? val).
- destruct (__futex_wait_new _ _) as [wa|]; [|discriminate]. cbn [mbind outcome_bind].
  destruct (__do_futex_sleep wa nanos ts); discriminate.
- intros [= <- _]. split; [|apply shrinks_refl; reflexivity].
  apply (inv_with_lock (set_current w q)); [apply inv_current, I|exact Ht|exact Hrange].
Qed.

Lemma other_shrinks w w' :
futex_inv w -> futex_queues w' = futex_queues w -> futex_sleepers w' = futex_sleepers w -> futex_q_lock w' = futex_q_lock w ->
(forall q l, q ∈ futex_queues w -> live w q l ->
   exists l', live w' q l' /\ fq l' = fq l /\ has (state_of l') LT_ST_EXITED = has (state_of l) LT_ST_EXITED) ->
futex_inv w' /\ shrinks w w' [].
Proof.
intros I Hq Hs Hlk Hl. split; [constructor; rewrite ?Hq, ?Hs, ?Hlk; try apply I|apply shrinks_refl; [exact Hq|]].
- intros q Hin. destruct (fi_live _ I q Hin) as (l & Hlive & Hlt & Hnz & He).
  destruct (Hl q l Hin Hlive) as (l' & Hlive' & Hf & He'). exists l'. rewrite Hf, He'. auto.
- intros q Hin. destruct (fi_live _ I q Hin) as (l & Hlive & _). destruct (Hl q l Hin Hlive) as (l' & Hlive' & Hf & _).
  unfold key_of, live in *. rewrite Hlive, Hlive', Hf. reflexivity.
Qed.

(** After a walk [p] still waits, or it goes on. *)
Lemma walk_behind w t w' e ps ps' k key p older :
futex_inv w -> walked (set_futex_lock w t) w' e ps ps' k -> behind w key p older ->
behind w' key p older \/ goes_on w' p (if e =? FUTEX_EXPIRED then - ETIMEDOUT else 0).
Proof.
intros I K B. destruct (decide (p ∈ ps')) as [Hin|Hn].
- right. eapply walked_goes_on; eauto using behind_in.
- left. exact (shrinks_behind _ _ _ _ _ _ (walked_shrinks _ _ _ _ _ _ _ K) Hn B).
Qed.

Lemma room_split w ps n : (n <= length (futex_queues w))%nat -> room (scheduler_queue w) ps (length (futex_queues w)) ->
room (scheduler_queue w) ps (n + (length (futex_queues w) - n)).
Proof. intros Hn. replace (n + _)%nat with (length (futex_queues w)) by lia. auto. Qed.

(** One step: [p] stays on the list, behind the threads that came later, or it
    goes on. *)
Lemma futex_step_behind w w' key p older :
futex_inv w -> behind w key p older -> futex_step p w w' ->
futex_inv w' /\ (behind w' key p older \/ goes_on w' p 0 \/ goes_on w' p (- ETIMEDOUT)).
Proof.
intros I B H. destruct H as [q l uaddr val nanos ts w1 w2 Hl Hq Hn He Hsm H1 H2|q uaddr r val nanos ts w1 rc H1|
  uaddr num ps w' r Hr Hroom H|nanos ps w' Hr Hroom H|q w' Hq H|w' Hq Hs Hlk Hl].
- destruct (sleep_behind w q l uaddr val nanos ts w1 w2 key p older) as [I2 B2]; auto.
- destruct (again_shrinks _ _ _ _ _ _ _ _ _ I H1) as [I2 S]. split; [exact I2|]. left.
  apply (shrinks_behind _ _ _ _ _ _ S); [inversion 1|exact B].
- set (woken := take (Z.to_nat (u32 num)) (waiters w (to_futex_key uaddr))).
  assert (length woken <= length (futex_queues w))%nat as Hle.
  { unfold woken. rewrite length_take. etransitivity; [apply Nat.le_min_r|apply length_filter]. }
  destruct (wake_walked w uaddr num ps _ I Hr (room_split w ps _ Hle Hroom)) as (t & w1 & E & K & I1).
  rewrite H in E. injection E as -> _. split; [exact I1|].
  destruct (walk_behind _ _ _ _ _ _ _ _ _ _ I K B) as [B1|G]; [left; exact B1|right; left; exact G].
- assert (length (late w (nanos / 1000)) <= length (futex_queues w))%nat as Hle by apply length_filter.
  destruct (tick_walked w nanos ps _ I Hr (room_split w ps _ Hle Hroom)) as (t & w1 & E & K & I1).
  rewrite H in E. injection E as ->. split; [exact I1|].
  assert (walked (set_futex_lock w (futex_q_lock w)) w1 FUTEX_EXPIRED ps (late w (nanos / 1000))
    (length (futex_queues w) - length (late w (nanos / 1000)))) as K' by (destruct w; exact K).
  destruct (walk_behind _ _ _ _ _ _ _ _ _ _ I K' B) as [B1|G]; [left; exact B1|right; right; exact G].
- destruct (dequeue_shrinks _ _ _ I H) as [I2 S]. split; [exact I2|]. left.
  apply (shrinks_behind _ _ _ _ _ _ S); [rewrite list_elem_of_singleton; congruence|exact B].
- destruct (other_shrinks _ _ I Hq Hs Hlk Hl) as [I2 S]. split; [exact I2|]. left.
  apply (shrinks_behind _ _ _ _ _ _ S); [inversion 1|exact B].
Qed.

Lemma meanwhile_behind w w' key p older :
futex_inv w -> behind w key p older -> meanwhile p w w' -> futex_inv w' /\ behind w' key p older.
Proof.
intros I B H. induction H as [|w w1 w2 [H1 Hin] _ IH]; [auto|].
destruct (futex_step_behind w w1 key p older I B H1) as (I1 & [B1|[[Hn _]|[Hn _]]]); [auto|contradiction|contradiction].
Qed.

(** C27. No lost wake-up.  When a wait of thread [p] finds the expected value,
    the thread is put on the list and switches away.  Then, after any sequence of
    waits, wakes and exits of other threads, scheduler ticks and other steps,
    as long as [p] is on the list: the waiters of its key that come after it are
    among those that waited before it did, so only threads that went to sleep
    later come before it; every further step keeps [p] on the list or puts it
    into the run queue, its wait returning 0 or -ETIMEDOUT; and a wake of [num]
    threads on the key puts exactly the first [num] waiters into the run queue,
    in list order, which is the latest first, so that it wakes [p], whose wait
    then returns 0, if and only if fewer than [num] waiters came later; otherwise
    [p] keeps waiting.  (The run queue has room for the threads on the list.) *)
Theorem no_lost_wakeup (w : world) (p uaddr val nanos : Z) (l : lthread) (ts : option (Z * Z)) :
let key := to_futex_key uaddr in
futex_inv w -> current_lthread w = p -> live w p l -> p <> 0 -> p ∉ futex_queues w ->
has (state_of l) LT_ST_EXITED = false -> Z.of_nat (length (futex_queues w)) < 2 ^ 31 - 2 ->
exists w1 w2,
  enclave_futex_timedwait w uaddr val val nanos ts = Done (w1, WaitSleeps) /\
  run_callback w1 CbFutexUnlock 0 = Done w2 /\ futex_queues w2 = p :: futex_queues w /\
  forall w3, meanwhile p w2 w3 -> exists later earlier,
    waiters w3 key = later ++ p :: earlier /\ sublist earlier (waiters w key) /\
    (forall w4, futex_step p w3 w4 -> p ∈ futex_queues w4 \/ goes_on w4 p 0 \/ goes_on w4 p (- ETIMEDOUT)) /\
    (forall a num ps, to_futex_key a = key -> runnable w3 ps ->
       room (scheduler_queue w3) ps (length (futex_queues w3)) ->
       let woken := take (Z.to_nat (u32 num)) (later ++ p :: earlier) in
       exists w4, enclave_futex_wake w3 a num = Done (w4, Z.of_nat (length woken)) /\ runnable w4 (ps ++ woken) /\
         if Z.of_nat (length later) <? u32 num then p ∈ woken /\ goes_on w4 p 0 else (p ∉ woken) /\ p ∈ futex_queues w4).
Proof.
intros key I Hcur Hl Hp Hn He Hsm.
destruct (wait_sleeps w p l uaddr val nanos ts I Hcur Hl Hp Hn He Hsm)
  as (w1 & w2 & H1 & H2 & I2 & Hl2 & Hq2 & _ & Hsame).
exists w1, w2. split; [exact H1|]. split; [exact H2|]. split; [exact Hq2|]. intros w3 Hrun.
assert (behind w2 key p (waiters w key)) as B2.
{ exists [], (waiters w key). split; [|reflexivity]. unfold waiters. rewrite Hq2.
  rewrite filter_cons_True by (unfold key_of; rewrite Hl2; reflexivity). cbn [app]. f_equal.
  apply filter_ext_in. intros q Hq. unfold key_of. rewrite Hsame by (intros ->; contradiction). reflexivity. }
destruct (meanwhile_behind _ _ _ _ _ I2 B2 Hrun) as [I3 B3].
pose proof B3 as (later & earlier & E & Hsub). exists later, earlier. split; [exact E|]. split; [exact Hsub|]. split.
- intros w4 Hs. destruct (futex_step_behind _ _ _ _ _ I3 B3 Hs) as (_ & [B|G]); [left; exact (behind_in _ _ _ _ B)|right; exact G].
- intros a num ps Ha Hr Hroom woken. unfold woken. clear woken. rewrite <- E, <- Ha. set (woken := take _ _).
  assert (length woken <= length (futex_queues w3))%nat as Hle.
  { unfold woken. rewrite length_take. etransitivity; [apply Nat.le_min_r|apply length_filter]. }
  destruct (wake_walked w3 a num ps _ I3 Hr (room_split w3 ps _ Hle Hroom)) as (t & w4 & Hw & K & I4).
  exists (futex_unlock w4). split; [exact Hw|]. split; [apply (wk_queue _ _ _ _ _ _ K)|].
  assert ((p ∈ woken) <-> Z.of_nat (length later) < u32 num) as Hin.
  { unfold woken. rewrite Ha, E. apply in_take_middle. rewrite <- E. apply NoDup_filter, I3. }
  destruct (Z.ltb_spec (Z.of_nat (length later)) (u32 num)) as [Hlt|Hge].
  + apply Hin in Hlt. split; [exact Hlt|]. exact (walked_goes_on _ _ _ _ _ _ _ _ I3 K Hlt (behind_in _ _ _ _ B3)).
  + assert (p ∉ woken) as Hnw by (rewrite Hin; lia). split; [exact Hnw|].
    change (p ∈ futex_queues w4). rewrite (wk_list _ _ _ _ _ _ K). apply list_elem_of_filter.
    split; [exact Hnw|exact (behind_in _ _ _ _ B3)].
Qed.

(** Key collisions: the futex key keeps only 32 bits of the address, so a wake
  at an address that differs by a multiple of 4 GiB does exactly what a wake at
  the address itself does. *)
Theorem futex_key_collision (w : world) (uaddr num k : Z) :
enclave_futex_wake w (uaddr + k * 2 ^ 32) num = enclave_futex_wake w uaddr num.
Proof.
unfold enclave_futex_wake, futex_wake.
assert (to_futex_key (uaddr + k * 2 ^ 32) = to_futex_key uaddr) as -> by apply Z_mod_plus_full.
reflexivity.
Qed.
End Theorems.

(** ** Concrete runs *)

(** The running thread 4096, the thread 8192 asleep on the futex at 100 with
    deadline 5, and the thread 12288. *)
Definition sleeper : lthread := set_fq (thread (BIT LT_ST_READY) 0 []) (mk_futex_q 100 5 8192).

Definition futex_demo : world (Q := mpmcq) :=
  mk_world {[ 4096 := thread (BIT LT_ST_READY) 0 []; 8192 := sleeper; 12288 := thread (BIT LT_ST_READY) 0 [] ]}
    four boot 4096 0 3 [8192; 4096] [] 0 [] [8192] 1 (mk_ticketlock 0 0).

Lemma futex_demo_inv : futex_inv futex_demo.
Proof.
  constructor; cbn.
  - apply NoDup_singleton.
  - reflexivity.
  - lia.
  - intros p Hp. apply list_elem_of_singleton in Hp as ->. exists sleeper. repeat split; congruence.
  - split; [reflexivity|lia].
Qed.

Lemma futex_demo_runnable : runnable futex_demo [].
Proof. apply (demo_runnable 0 0 0). Qed.

Lemma futex_demo_room n : (n <= 4)%nat -> room (scheduler_queue futex_demo) [] n.
Proof. intros Hn. split; cbn; change (2 ^ 62) with 4611686018427387904; lia. Qed.

Lemma futex_wake_spec_witness :
  exists w', enclave_futex_wake futex_demo 100 7 = Done (w', 1) /\ runnable w' [8192] /\ futex_queues w' = [].
Proof.
  destruct (futex_wake_spec futex_demo 100 7 [] 0 futex_demo_inv futex_demo_runnable (futex_demo_room 1 ltac:(lia)))
    as (w' & H1 & H2 & H3 & _). exists w'. auto.
Defined.


Lemma middle_of_three l1 l2 : [12288; 4096; 8192] = l1 ++ 4096 :: l2 -> l1 = [12288] /\ l2 = [8192].
Proof.
  destruct l1 as [|a [|b [|c l1]]]; try discriminate; intros E; injection E; intros; subst; [auto|].
  destruct l1; discriminate.
Qed.

(** Threads 4096 and 12288 wait, one after the other: a wake of one thread leaves
    4096 waiting, a wake of two ends its wait. *)
Lemma no_lost_wakeup_witness :
  exists w1 w2 w3, enclave_futex_timedwait futex_demo 100 0 0 0 None = Done (w1, WaitSleeps) /\
    run_callback w1 CbFutexUnlock 0 = Done w2 /\ meanwhile 4096 w2 w3 /\ futex_queues w3 = [12288; 4096; 8192] /\
    (exists w4, enclave_futex_wake w3 100 1 = Done (w4, 1) /\ 4096 ∈ futex_queues w4) /\
    (exists w4, enclave_futex_wake w3 100 2 = Done (w4, 2) /\ goes_on w4 4096 0).
Proof.
  destruct (no_lost_wakeup futex_demo 4096 100 0 0 (thread (BIT LT_ST_READY) 0 []) None futex_demo_inv eq_refl eq_refl)
    as (w1 & w2 & H1 & H2 & _ & Hrun); try reflexivity; try lia.
  { cbn. rewrite list_elem_of_singleton. lia. }
  exists w1, w2. pose proof H1 as S1. pose proof H2 as S2. cbn in H1. injection H1 as <-. cbn in H2. injection H2 as <-.
  match type of Hrun with forall w, meanwhile _ ?a _ -> _ => set (w2 := a) in * end.
  assert (exists w3 w3', enclave_futex_timedwait (set_current w2 12288) 100 0 0 0 None = Done (w3, WaitSleeps) /\
    run_callback w3 CbFutexUnlock 0 = Done w3') as (w3 & w3' & H3 & H4) by (do 2 eexists; split; reflexivity).
  assert (futex_step 4096 w2 w3') as Hs.
  { refine (fs_sleep 4096 w2 12288 (thread (BIT LT_ST_READY) 0 []) 100 0 0 None w3 w3' _ _ _ _ _ H3 H4);
      [reflexivity|lia| |reflexivity|vm_compute; reflexivity].
    apply (bool_decide_unpack (12288 ∉ futex_queues w2)). vm_compute. exact I. }
  cbn in H3. injection H3 as <-. cbn in H4. injection H4 as <-.
  match type of Hs with futex_step _ _ ?a => set (w3 := a) in * end.
  assert (meanwhile 4096 w2 w3) as Hm.
  { apply rtc_once. split; [exact Hs|]. apply (bool_decide_unpack (4096 ∈ futex_queues w3)). vm_compute. exact I. }
  exists w3. split; [exact S1|]. split; [exact S2|]. split; [exact Hm|]. split; [reflexivity|].
  destruct (Hrun w3 Hm) as (later & earlier & E & _ & _ & Hw).
  change (waiters w3 _) with [12288; 4096; 8192] in E. apply middle_of_three in E as [-> ->].
  split.
  - destruct (Hw 100 1 [] eq_refl futex_demo_runnable (futex_demo_room 3 ltac:(lia))) as (w4 & E4 & _ & H). exists w4.
    split; [exact E4|]. apply H.
  - destruct (Hw 100 2 [] eq_refl futex_demo_runnable (futex_demo_room 3 ltac:(lia))) as (w4 & E4 & _ & H). exists w4.
    split; [exact E4|]. apply H.
Defined.

Lemma futex_tick_spec_witness :
  exists w', futex_tick futex_demo 6000 = Done w' /\ runnable w' [8192] /\
    futex_wait_wakes (set_current w' 8192) = Done (- ETIMEDOUT).
Proof.
  destruct (futex_tick_spec futex_demo 6000 [] 0 futex_demo_inv futex_demo_runnable (futex_demo_room 1 ltac:(lia)))
    as (w' & H1 & H2 & _ & _ & H3 & _). exists w'. split; [exact H1|]. split; [exact H2|]. apply H3. left.
Defined.
