(* ===== verification/EnclaveSignal.v ===== *)
(** * EnclaveSignal: hardware exceptions inside the enclave
    (src/enclave/enclave_signal.c)

    The handler that the enclave runs for a hardware exception emulates the
    instructions that an enclave may not execute, and hands every other exception
    to the kernel as a trap, with the registers copied into the kernel's frame
    and back.  What the host answers and what the kernel does with a trap are
    parameters. *)

From S2P Require Import Prelude.

(** The exception codes of Open Enclave; [OtherCode] for those without a row. *)
Inductive oe_code : Type :=
| OE_EXCEPTION_DIVIDE_BY_ZERO | OE_EXCEPTION_BREAKPOINT | OE_EXCEPTION_BOUND_OUT_OF_RANGE
| OE_EXCEPTION_ILLEGAL_INSTRUCTION | OE_EXCEPTION_ACCESS_VIOLATION | OE_EXCEPTION_PAGE_FAULT
| OE_EXCEPTION_X87_FLOAT_POINT | OE_EXCEPTION_MISALIGNMENT | OE_EXCEPTION_SIMD_FLOAT_POINT
| OtherCode (n : Z).
#[export] Instance oe_code_eq_dec : EqDecision oe_code.
Proof. solve_decision. Defined.

Inductive trap : Type :=
| X86_TRAP_DE | X86_TRAP_BP | X86_TRAP_BR | X86_TRAP_UD | X86_TRAP_PF | X86_TRAP_MF | X86_TRAP_AC | X86_TRAP_XF.
Inductive signal : Type := SIGFPE | SIGTRAP | SIGSEGV | SIGILL | SIGBUS.

Record oe_hw_exception_map : Type := mk_map { code : oe_code; trapnr : trap; signo : signal; supported : bool }.

Definition exception_map : list oe_hw_exception_map :=
  [mk_map OE_EXCEPTION_DIVIDE_BY_ZERO X86_TRAP_DE SIGFPE true;
   mk_map OE_EXCEPTION_BREAKPOINT X86_TRAP_BP SIGTRAP true;
   mk_map OE_EXCEPTION_BOUND_OUT_OF_RANGE X86_TRAP_BR SIGSEGV true;
   mk_map OE_EXCEPTION_ILLEGAL_INSTRUCTION X86_TRAP_UD SIGILL true;
   mk_map OE_EXCEPTION_ACCESS_VIOLATION X86_TRAP_BR SIGSEGV true;
   mk_map OE_EXCEPTION_PAGE_FAULT X86_TRAP_PF SIGSEGV true;
   mk_map OE_EXCEPTION_X87_FLOAT_POINT X86_TRAP_MF SIGFPE true;
   mk_map OE_EXCEPTION_MISALIGNMENT X86_TRAP_AC SIGBUS true;
   mk_map OE_EXCEPTION_SIMD_FLOAT_POINT X86_TRAP_XF SIGFPE true].

Fixpoint find_row (rows : list oe_hw_exception_map) (c : oe_code) : option oe_hw_exception_map :=
  match rows with
  | [] => None
  | r :: rows' => if bool_decide (code r = c) && supported r then Some r else find_row rows' c
  end.
Definition get_trap_details (c : oe_code) : option oe_hw_exception_map := find_row exception_map c.

(** ** Contexts *)

(** The registers that are copied, and the rest of Open Enclave's context (the
    flags, the floating-point state), which is not. *)
Inductive reg : Type :=
| rax | rbx | rcx | rdx | rbp | rsp | rdi | rsi | r8 | r9 | r10 | r11 | r12 | r13 | r14 | r15 | rip.
#[export] Instance reg_eq_dec : EqDecision reg.
Proof. solve_decision. Defined.

Record oe_context {F : Type} : Type := mk_ctx { regs : reg -> Z; other : F }.
Arguments oe_context : clear implicits.
Arguments mk_ctx {F} regs other.

(** The kernel's frame, of which only these registers are set. *)
Record ucontext : Type := mk_uctx { uregs : reg -> Z }.

Section Handler.
Context {F K : Type}.
(** [sgxlkl_host_hw_cpuid] and [sgxlkl_host_hw_rdtsc]: 32-bit results. *)
Variable host_cpuid : Z -> Z -> Z * Z * Z * Z.
Variable host_rdtsc : Z * Z.
(** [lkl_do_trap]: the kernel's state and frame. *)
Variable lkl_do_trap : trap -> signal -> K -> ucontext -> K * ucontext.

Definition set_reg (r : reg) (v : Z) (c : oe_context F) : oe_context F :=
  mk_ctx (fun r' => if decide (r = r') then v else regs c r') (other c).

Definition serialize_ucontext (c : oe_context F) : ucontext := mk_uctx (regs c).
Definition deserialize_ucontext (u : ucontext) (c : oe_context F) : oe_context F := mk_ctx (uregs u) (other c).

(** [cpuid] is 0f a2 and [rdtsc] 0f 31, read as a little-endian number. *)
Definition OE_CPUID_OPCODE : Z := 0xA20F.
Definition RDTSC_OPCODE : Z := 0x310F.

Definition _sgxlkl_illegal_instr_hook (opcode : Z) (c : oe_context F) : outcome (oe_context F) :=
  let skip c := set_reg rip (u64 (regs c rip + 2)) c in
  if opcode =? OE_CPUID_OPCODE then
    let '(a, b, c', d) :=
      if negb (regs c rax =? 0xff) then host_cpuid (u32 (regs c rax)) (u32 (regs c rcx))
      else (0xaa, 0xbb, 0xcc, 0xdd) in
    Done (skip (set_reg rdx d (set_reg rcx c' (set_reg rbx b (set_reg rax a c)))))
  else if opcode =? RDTSC_OPCODE then
    let '(a, d) := host_rdtsc in Done (skip (set_reg rdx d (set_reg rax a c)))
  else Failed Stopped.

(** [lkl_up]: the kernel runs and is not terminating. *)
Definition sgxlkl_enclave_signal_handler (lkl_up : bool) (c : oe_code) (opcode : Z) (ctx : oe_context F) (k : K) :
    outcome (oe_context F * K) :=
  if decide (c = OE_EXCEPTION_ILLEGAL_INSTRUCTION) then
    ctx ← _sgxlkl_illegal_instr_hook opcode ctx; Done (ctx, k)
  else
    match get_trap_details c with
    | Some t =>
        if negb lkl_up then Failed Stopped
        else
          let '(k, u) := lkl_do_trap (trapnr t) (signo t) k (serialize_ucontext ctx) in
          Done (deserialize_ucontext u ctx, k)
    | None => Failed Stopped
    end.

(** ** Properties *)

(** The instructions that are emulated, and the registers their results go to. *)
Definition emulated (opcode : Z) (ctx : oe_context F) (r : reg) : option Z :=
  if opcode =? OE_CPUID_OPCODE then
    let '(a, b, c, d) := if regs ctx rax =? 0xff then (0xaa, 0xbb, 0xcc, 0xdd)
                         else host_cpuid (u32 (regs ctx rax)) (u32 (regs ctx rcx)) in
    match r with rax => Some a | rbx => Some b | rcx => Some c | rdx => Some d | _ => None end
  else match r with rax => Some (fst host_rdtsc) | rdx => Some (snd host_rdtsc) | _ => None end.

Lemma hook_emulates opcode ctx :
  opcode = OE_CPUID_OPCODE \/ opcode = RDTSC_OPCODE ->
  exists ctx', _sgxlkl_illegal_instr_hook opcode ctx = Done ctx' /\ other ctx' = other ctx /\
    forall r, regs ctx' r = default (if decide (r = rip) then u64 (regs ctx rip + 2) else regs ctx r)
                              (emulated opcode ctx r).
Proof.
  intros Hop. unfold _sgxlkl_illegal_instr_hook, emulated. destruct (Z.eqb_spec opcode OE_CPUID_OPCODE) as [->|Hne].
  - destruct (regs ctx rax =? 0xff); cbn [negb].
    + eexists. split; [reflexivity|]. split; [done|]. by intros [].
    + destruct (host_cpuid _ _) as [[[a b] c'] d]. eexists. split; [reflexivity|]. split; [done|]. by intros [].
  - destruct Hop as [|Hop]; [done|]. rewrite (proj2 (Z.eqb_eq _ _) Hop). destruct host_rdtsc as [a d].
    eexists. split; [reflexivity|]. split; [done|]. by intros [].
Qed.

(** An illegal instruction is either one of the two that are emulated, and
    then its results are in the right registers, execution goes on behind its two
    bytes and nothing else has changed, or it stops the enclave; in no case does
    the kernel see it, although the table has a row that makes it SIGILL. *)
Theorem illegal_instruction_handled lkl_up opcode ctx k :
  (opcode = OE_CPUID_OPCODE \/ opcode = RDTSC_OPCODE ->
   exists ctx', sgxlkl_enclave_signal_handler lkl_up OE_EXCEPTION_ILLEGAL_INSTRUCTION opcode ctx k = Done (ctx', k) /\
     other ctx' = other ctx /\
     forall r, regs ctx' r = default (if decide (r = rip) then u64 (regs ctx rip + 2) else regs ctx r)
                               (emulated opcode ctx r)) /\
  (opcode ≠ OE_CPUID_OPCODE -> opcode ≠ RDTSC_OPCODE ->
   sgxlkl_enclave_signal_handler lkl_up OE_EXCEPTION_ILLEGAL_INSTRUCTION opcode ctx k = Failed Stopped) /\
  get_trap_details OE_EXCEPTION_ILLEGAL_INSTRUCTION =
    Some (mk_map OE_EXCEPTION_ILLEGAL_INSTRUCTION X86_TRAP_UD SIGILL true).
Proof.
  unfold sgxlkl_enclave_signal_handler. rewrite decide_True by done. split_and!; [| |done].
  - intros Hop. destruct (hook_emulates opcode ctx Hop) as (ctx' & -> & Ho & Hr). by exists ctx'.
  - intros H1 H2. unfold _sgxlkl_illegal_instr_hook.
    by rewrite (proj2 (Z.eqb_neq _ _) H1), (proj2 (Z.eqb_neq _ _) H2).
Qed.

(** A kernel that leaves the registers alone does not disturb the program. *)
Lemma trap_round_trip c opcode ctx k t :
  c ≠ OE_EXCEPTION_ILLEGAL_INSTRUCTION -> get_trap_details c = Some t ->
  snd (lkl_do_trap (trapnr t) (signo t) k (serialize_ucontext ctx)) = serialize_ucontext ctx ->
  exists k', sgxlkl_enclave_signal_handler true c opcode ctx k = Done (ctx, k').
Proof.
  intros Hc Ht Hk. unfold sgxlkl_enclave_signal_handler. rewrite decide_False by done. rewrite Ht. cbn [negb].
  destruct (lkl_do_trap _ _ _ _) as [k' u]. simpl in Hk. subst u. exists k'. by destruct ctx.
Qed.
End Handler.
