(* ===== verification/SyscallTable.v ===== *)
(** * SyscallTable: which function serves a system call
    (src/lkl/syscall-overrides.c, src/lkl/unsupported-syscalls.h,
    src/lkl/syscall-overrides-fstat.c, src/lkl/syscall-overrides-mem.c,
    src/lkl/syscall-overrides-sysinfo.c)

    Before the kernel runs, entries of its system-call table are replaced: some
    calls are ignored, one is refused, the memory calls go to the enclave's own
    memory manager, the stat calls get a structure with another layout, and in a
    debug build every call can be wrapped in a function that logs it.  The table
    is a finite map, [lkl_replace_syscall] an insertion that returns the old
    entry.  Which calls LKL has, with how many arguments, and what they do, are
    parameters. *)

From stdpp Require Import gmap.
From S2P Require Import Prelude.

Definition ENOSYS : Z := 38.

(** The calls that the source names, and the others by their number. *)
Inductive sysno : Type :=
| NR_munlockall | NR_mlockall | NR_mlock | NR_munlock | NR_mlock2 | NR_sched_setaffinity
| NR_brk | NR_sysinfo | NR_fstat | NR_newfstatat
| NR_mmap | NR_munmap | NR_mremap | NR_msync | NR_mprotect | NR_pread64
| NR_other (n : positive).
#[export] Instance sysno_eq_dec : EqDecision sysno.
Proof. solve_decision. Defined.

Definition sysno_code (n : sysno) : positive :=
  match n with
  | NR_munlockall => 1 | NR_mlockall => 2 | NR_mlock => 3 | NR_munlock => 4 | NR_mlock2 => 5
  | NR_sched_setaffinity => 6 | NR_brk => 7 | NR_sysinfo => 8 | NR_fstat => 9 | NR_newfstatat => 10
  | NR_mmap => 11 | NR_munmap => 12 | NR_mremap => 13 | NR_msync => 14 | NR_mprotect => 15 | NR_pread64 => 16
  | NR_other n => 16 + n
  end%positive.
Definition sysno_decode (p : positive) : option sysno :=
  match p with
  | 1 => Some NR_munlockall | 2 => Some NR_mlockall | 3 => Some NR_mlock | 4 => Some NR_munlock | 5 => Some NR_mlock2
  | 6 => Some NR_sched_setaffinity | 7 => Some NR_brk | 8 => Some NR_sysinfo | 9 => Some NR_fstat
  | 10 => Some NR_newfstatat | 11 => Some NR_mmap | 12 => Some NR_munmap | 13 => Some NR_mremap
  | 14 => Some NR_msync | 15 => Some NR_mprotect | 16 => Some NR_pread64
  | p => Some (NR_other (p - 16))
  end%positive.
Lemma sysno_decode_code n : sysno_decode (sysno_code n) = Some n.
Proof.
  destruct n as [| | | | | | | | | | | | | | | |n]; try done. simpl.
  assert (exists p, 16 + n = p /\ (16 < p)%positive /\ n = (p - 16)%positive)%positive as (p & -> & Hp & ->)
    by (exists (16 + n)%positive; split_and!; [done|lia|lia]).
  unfold sysno_decode. by repeat (destruct p as [p|p|]; try done; try lia).
Qed.
#[export] Instance sysno_countable : Countable sysno := inj_countable sysno_code sysno_decode sysno_decode_code.

(** ** Handlers *)

Inductive handler : Type :=
| Original (n : sysno)                    (* LKL's own function *)
| LogCall (n : sysno) (arity : nat)       (* log##name: calls real_syscalls[n] *)
| FstatOverride | NewfstatatOverride      (* call the handler they replaced *)
| SysinfoOverride
| Ignore (n : sysno) | LogIgnore (n : sysno)
| Unsupported (n : sysno) | LogUnsupported (n : sysno)
| MemOverride (n : sysno) | MemOverrideLog (n : sysno)
| NullHandler.
#[export] Instance handler_eq_dec : EqDecision handler.
Proof. solve_decision. Defined.

(** The debugging switches, compiled in or not. *)
Record tracing : Type := mk_tracing {
  enabled : bool;               (* SGXLKL_ENABLE_SYSCALL_TRACING *)
  trace_lkl_syscall : bool; trace_ignored_syscall : bool;
  trace_unsupported_syscall : bool; trace_internal_syscall : bool }.

Record sys_state : Type := mk_sys {
  table : gmap sysno handler;
  real_syscalls : gmap sysno handler;
  orig_fstat : handler; orig_newfstatat : handler;
  mmap_fn : handler; pread_fn : handler }.

Definition lkl_replace_syscall (n : sysno) (h : handler) (t : gmap sysno handler) : handler * gmap sysno handler :=
  (default NullHandler (t !! n), <[n := h]> t).

Definition set_table (t : gmap sysno handler) (s : sys_state) : sys_state :=
  mk_sys t (real_syscalls s) (orig_fstat s) (orig_newfstatat s) (mmap_fn s) (pread_fn s).
Definition replace (n : sysno) (h : handler) (s : sys_state) : sys_state :=
  set_table (snd (lkl_replace_syscall n h (table s))) s.

(** ** Registration *)

Definition syscall_register_fstat_overrides (s : sys_state) : sys_state :=
  let '(o1, t) := lkl_replace_syscall NR_fstat FstatOverride (table s) in
  let '(o2, t) := lkl_replace_syscall NR_newfstatat NewfstatatOverride t in
  mk_sys t (real_syscalls s) o1 o2 (mmap_fn s) (pread_fn s).

(** The expansion of lkl/asm/syscall_defs.h: one replacement per definition. *)
Definition log_one (s : sys_state) (def : sysno * nat) : sys_state :=
  let '(n, arity) := def in
  let '(old, t) := lkl_replace_syscall n (LogCall n arity) (table s) in
  mk_sys t (<[n := old]> (real_syscalls s)) (orig_fstat s) (orig_newfstatat s) (mmap_fn s) (pread_fn s).

Definition ignored_syscalls : list sysno :=
  [NR_munlockall; NR_mlockall; NR_mlock; NR_munlock; NR_mlock2; NR_sched_setaffinity].
Definition unsupported_syscalls : list sysno := [NR_brk].
Definition mem_syscalls : list sysno := [NR_mmap; NR_munmap; NR_mremap; NR_msync; NR_mprotect].

Definition replace_all (f : sysno -> handler) (l : list sysno) (s : sys_state) : sys_state :=
  foldl (fun s n => replace n (f n) s) s l.

Definition syscall_register_mem_overrides (trace : bool) (s : sys_state) : sys_state :=
  let f := if trace then MemOverrideLog else MemOverride in
  let '(old, t) := lkl_replace_syscall NR_mmap (f NR_mmap) (table s) in
  let s := mk_sys t (real_syscalls s) (orig_fstat s) (orig_newfstatat s) old (pread_fn s) in
  let s := replace_all f [NR_munmap; NR_mremap; NR_msync; NR_mprotect] s in
  let '(p, t) := lkl_replace_syscall NR_pread64 NullHandler (table s) in
  let s := mk_sys t (real_syscalls s) (orig_fstat s) (orig_newfstatat s) (mmap_fn s) p in
  replace NR_pread64 p s.

Definition register_lkl_syscall_overrides (tr : tracing) (defs : list (sysno * nat)) (s : sys_state) : sys_state :=
  let s := syscall_register_fstat_overrides s in
  let s := if enabled tr && trace_lkl_syscall tr then foldl log_one s defs else s in
  let s := replace NR_sysinfo SysinfoOverride s in
  let s := replace_all (if enabled tr && trace_ignored_syscall tr then LogIgnore else Ignore) ignored_syscalls s in
  let s := replace_all (if enabled tr && trace_unsupported_syscall tr then LogUnsupported else Unsupported)
             unsupported_syscalls s in
  syscall_register_mem_overrides (enabled tr && trace_internal_syscall tr) s.

(** ** Calls *)

Section Calls.
(** LKL's own functions and the overrides that are modelled elsewhere: the
    results ([long]) for given arguments. *)
Variable lkl : sysno -> list Z -> Z.
Variable mem : sysno -> list Z -> Z.
Variable sysinfo : list Z -> Z.

(** The stat overrides call the function they replaced with a structure of
    their own and return its result; the functions that log a call with up to two
    arguments keep its result in an [int]. *)
Fixpoint invoke (fuel : nat) (s : sys_state) (h : handler) (args : list Z) : outcome Z :=
  match fuel with
  | O => Failed OutOfFuel
  | S fuel' =>
      match h with
      | Original n => Done (lkl n args)
      | LogCall n arity =>
          match real_syscalls s !! n with
          | Some h' =>
              ret ← invoke fuel' s h' args;
              Done (if decide (arity <= 2)%nat then s32 ret else ret)
          | None => Failed (BadPointer 0)
          end
      | FstatOverride => if decide (orig_fstat s = NullHandler) then Failed Stopped else invoke fuel' s (orig_fstat s) args
      | NewfstatatOverride =>
          if decide (orig_newfstatat s = NullHandler) then Failed Stopped else invoke fuel' s (orig_newfstatat s) args
      | SysinfoOverride => Done (sysinfo args)
      | Ignore _ | LogIgnore _ => Done 0
      | Unsupported _ | LogUnsupported _ => Done (- ENOSYS)
      | MemOverride n | MemOverrideLog n => Done (mem n args)
      | NullHandler => Failed (BadPointer 0)
      end
  end.

(** ** What a call does *)

Lemma replace_all_table f l s n :
  table (replace_all f l s) !! n = if decide (n ∈ l) then Some (f n) else table s !! n.
Proof.
  unfold replace_all. revert s. induction l as [|m l IH]; intros s; cbn [foldl]; [by case_decide as H; [set_solver|]|].
  rewrite IH. cbn [table replace set_table lkl_replace_syscall snd].
  destruct (decide (n ∈ l)); [by rewrite decide_True by set_solver|].
  destruct (decide (n = m)) as [->|Hne]; [by rewrite decide_True, lookup_insert_eq by set_solver|].
  by rewrite decide_False, lookup_insert_ne by set_solver.
Qed.

Lemma replace_all_rest f l s :
  real_syscalls (replace_all f l s) = real_syscalls s /\ orig_fstat (replace_all f l s) = orig_fstat s /\
  orig_newfstatat (replace_all f l s) = orig_newfstatat s.
Proof. unfold replace_all. revert s. induction l as [|m l IH]; intros s; cbn [foldl]; [done|apply (IH (replace m (f m) s))]. Qed.

Lemma log_all_rest defs s :
  orig_fstat (foldl log_one s defs) = orig_fstat s /\ orig_newfstatat (foldl log_one s defs) = orig_newfstatat s.
Proof. revert s. induction defs as [|[m a] defs IH]; intros s; cbn [foldl]; [done|apply (IH (log_one s (m, a)))]. Qed.

Lemma log_all_out defs s n :
  n ∉ defs.*1 -> table (foldl log_one s defs) !! n = table s !! n /\
  real_syscalls (foldl log_one s defs) !! n = real_syscalls s !! n.
Proof.
  revert s. induction defs as [|[m a] defs IH]; intros s Hn; cbn [foldl]; [done|].
  cbn [fmap list_fmap fst] in Hn. apply not_elem_of_cons in Hn as [Hm Hn].
  destruct (IH (log_one s (m, a)) Hn) as [-> ->]. cbn [table real_syscalls log_one lkl_replace_syscall].
  by rewrite !lookup_insert_ne by congruence.
Qed.

Lemma log_all_in defs s n a :
  NoDup defs.*1 -> (n, a) ∈ defs ->
  table (foldl log_one s defs) !! n = Some (LogCall n a) /\
  real_syscalls (foldl log_one s defs) !! n = Some (default NullHandler (table s !! n)).
Proof.
  revert s. induction defs as [|[m b] defs IH]; intros s Hnd Hin; cbn [foldl]; [by apply elem_of_nil in Hin|].
  cbn [fmap list_fmap fst] in Hnd. apply NoDup_cons in Hnd as [Hm Hnd].
  apply elem_of_cons in Hin as [[= <- <-]|Hin].
  - destruct (log_all_out defs (log_one s (n, a)) n Hm) as [-> ->].
    cbn [table real_syscalls log_one lkl_replace_syscall]. by rewrite !lookup_insert_eq.
  - destruct (IH (log_one s (m, b)) Hnd Hin) as [-> ->]. split; [done|].
    cbn [table log_one lkl_replace_syscall]. rewrite lookup_insert_ne; [done|].
    intros ->. apply Hm, list_elem_of_fmap. by exists (n, a).
Qed.

Lemma mem_overrides_table tr s n :
  table (syscall_register_mem_overrides tr s) !! n =
  if decide (n ∈ mem_syscalls) then Some ((if tr then MemOverrideLog else MemOverride) n)
  else if decide (n = NR_pread64) then Some (default NullHandler (table s !! n)) else table s !! n.
Proof.
  unfold syscall_register_mem_overrides, mem_syscalls. cbn [lkl_replace_syscall table replace set_table snd].
  set (f := if tr then MemOverrideLog else MemOverride).
  destruct (decide (n = NR_pread64)) as [->|Hp].
  - rewrite decide_False by set_solver. rewrite lookup_insert_eq, replace_all_table, decide_False by set_solver.
    cbn [table]. by rewrite lookup_insert_ne.
  - rewrite !lookup_insert_ne by congruence. rewrite replace_all_table. cbn [table].
    destruct (decide (n = NR_mmap)) as [->|Hm]; [by rewrite decide_False, lookup_insert_eq by set_solver|].
    rewrite lookup_insert_ne by congruence.
    destruct (decide (n ∈ [NR_munmap; NR_mremap; NR_msync; NR_mprotect])); [by rewrite decide_True by set_solver|].
    by rewrite decide_False by set_solver.
Qed.

Lemma mem_overrides_rest tr s :
  let s' := syscall_register_mem_overrides tr s in
  real_syscalls s' = real_syscalls s /\ orig_fstat s' = orig_fstat s /\ orig_newfstatat s' = orig_newfstatat s.
Proof. by destruct tr. Qed.

(** The result of a call as its function returns it: with call tracing, a
    function of at most two arguments returns it as an [int]. *)
Definition traced_result (tr : tracing) (defs : list (sysno * nat)) (n : sysno) (r : Z) : Z :=
  if enabled tr && trace_lkl_syscall tr then
    match list_find (fun d => d.1 = n) defs with
    | Some (_, (_, a)) => if decide (a <= 2)%nat then s32 r else r
    | None => r
    end
  else r.

Definition expected (tr : tracing) (defs : list (sysno * nat)) (n : sysno) (args : list Z) : Z :=
  if decide (n ∈ ignored_syscalls) then 0
  else if decide (n ∈ unsupported_syscalls) then - ENOSYS
  else if decide (n ∈ mem_syscalls) then mem n args
  else if decide (n = NR_sysinfo) then sysinfo args
  else traced_result tr defs n (lkl n args).

(** The state before the registration: LKL's own table. *)
Definition initial (t : gmap sysno handler) : sys_state :=
  mk_sys t ∅ NullHandler NullHandler NullHandler NullHandler.

(** The table after the part of the registration that wraps LKL's functions. *)
Definition wrapped (tr : tracing) (defs : list (sysno * nat)) (t : gmap sysno handler) : sys_state :=
  let s := syscall_register_fstat_overrides (initial t) in
  if enabled tr && trace_lkl_syscall tr then foldl log_one s defs else s.

Lemma registered_table tr defs t n :
  let s := register_lkl_syscall_overrides tr defs (initial t) in
  let w := wrapped tr defs t in
  real_syscalls s = real_syscalls w /\ orig_fstat s = orig_fstat w /\ orig_newfstatat s = orig_newfstatat w /\
  default NullHandler (table s !! n) =
  if decide (n ∈ mem_syscalls) then (if enabled tr && trace_internal_syscall tr then MemOverrideLog else MemOverride) n
  else if decide (n ∈ unsupported_syscalls) then
    (if enabled tr && trace_unsupported_syscall tr then LogUnsupported else Unsupported) n
  else if decide (n ∈ ignored_syscalls) then (if enabled tr && trace_ignored_syscall tr then LogIgnore else Ignore) n
  else if decide (n = NR_sysinfo) then SysinfoOverride
  else default NullHandler (table w !! n).
Proof.
  cbv zeta. unfold register_lkl_syscall_overrides. fold (wrapped tr defs t).
  set (w := wrapped tr defs t). set (s1 := replace NR_sysinfo SysinfoOverride w).
  set (fi := if enabled tr && trace_ignored_syscall tr then LogIgnore else Ignore).
  set (fu := if enabled tr && trace_unsupported_syscall tr then LogUnsupported else Unsupported).
  set (s2 := replace_all fi ignored_syscalls s1). set (s3 := replace_all fu unsupported_syscalls s2).
  destruct (mem_overrides_rest (enabled tr && trace_internal_syscall tr) s3) as (-> & -> & ->).
  destruct (replace_all_rest fu unsupported_syscalls s2) as (E1 & E2 & E3).
  destruct (replace_all_rest fi ignored_syscalls s1) as (F1 & F2 & F3).
  split_and!; [exact (eq_trans E1 F1)|exact (eq_trans E2 F2)|exact (eq_trans E3 F3)|].
  rewrite mem_overrides_table. destruct (decide (n ∈ mem_syscalls)); [done|].
  transitivity (default NullHandler (table s3 !! n)); [by destruct (decide (n = NR_pread64))|].
  unfold s3. rewrite replace_all_table. destruct (decide (n ∈ unsupported_syscalls)); [done|].
  unfold s2. rewrite replace_all_table. destruct (decide (n ∈ ignored_syscalls)); [done|].
  unfold s1. cbn [table replace set_table lkl_replace_syscall snd].
  destruct (decide (n = NR_sysinfo)) as [->|]; [by rewrite lookup_insert_eq|by rewrite lookup_insert_ne].
Qed.

(** A wrapped function of LKL returns LKL's result, as an [int] if it is logged
    with few arguments. *)
Lemma invoke_wrapped s tr defs t n args :
  real_syscalls s = real_syscalls (wrapped tr defs t) -> orig_fstat s = orig_fstat (wrapped tr defs t) ->
  orig_newfstatat s = orig_newfstatat (wrapped tr defs t) ->
  (forall m, m ∈ [n; NR_fstat; NR_newfstatat] -> t !! m = Some (Original m)) -> NoDup defs.*1 ->
  invoke 3 s (default NullHandler (table (wrapped tr defs t) !! n)) args = Done (traced_result tr defs n (lkl n args)).
Proof.
  intros Hr Hf Hn Ht Hnd. set (s0 := syscall_register_fstat_overrides (initial t)) in *.
  assert (orig_fstat s = Original NR_fstat /\ orig_newfstatat s = Original NR_newfstatat) as [Of On].
  { rewrite Hf, Hn. unfold wrapped. fold s0.
    assert (orig_fstat s0 = Original NR_fstat /\ orig_newfstatat s0 = Original NR_newfstatat) as [H1 H2].
    { unfold s0, syscall_register_fstat_overrides. cbn [lkl_replace_syscall initial table orig_fstat orig_newfstatat].
      rewrite lookup_insert_ne, !Ht by (done || set_solver). done. }
    destruct (enabled tr && trace_lkl_syscall tr); [|done]. destruct (log_all_rest defs s0) as [-> ->]. done. }
  assert (forall fuel, invoke (S (S fuel)) s (default NullHandler (table s0 !! n)) args = Done (lkl n args)) as Hbase.
  { intros fuel. unfold s0, syscall_register_fstat_overrides. cbn [lkl_replace_syscall initial table].
    destruct (decide (n = NR_newfstatat)) as [->|H1]; [rewrite lookup_insert_eq; cbn [default invoke]; by rewrite On|].
    rewrite lookup_insert_ne by congruence.
    destruct (decide (n = NR_fstat)) as [->|H2]; [rewrite lookup_insert_eq; cbn [default invoke]; by rewrite Of|].
    rewrite lookup_insert_ne by congruence. by rewrite Ht by set_solver. }
  revert Hr. unfold traced_result, wrapped. fold s0. destruct (enabled tr && trace_lkl_syscall tr) eqn:Etr; [|done].
  intros Hr. destruct (list_find _ defs) as [[i [m a]]|] eqn:Ef.
  - apply list_find_Some in Ef as (Hl & Hm & _). simpl in Hm. subst m. apply list_elem_of_lookup_2 in Hl.
    destruct (log_all_in defs s0 n a Hnd Hl) as [-> Er].
    change (invoke 3 s (default NullHandler (Some (LogCall n a))) args) with
      (match real_syscalls s !! n with
       | Some h' => ret ← invoke 2 s h' args; Done (if decide (a <= 2)%nat then s32 ret else ret)
       | None => Failed (BadPointer 0) end).
    rewrite Hr, Er, Hbase. done.
  - apply list_find_None in Ef. rewrite Forall_forall in Ef.
    assert (n ∉ defs.*1) as Hni by (intros (d & -> & Hd)%list_elem_of_fmap; by apply (Ef d Hd)).
    destruct (log_all_out defs s0 n Hni) as [-> _]. apply Hbase.
Qed.

Lemma mem_disjoint n : n ∈ mem_syscalls -> n ∉ ignored_syscalls /\ n ∉ unsupported_syscalls /\ n ≠ NR_sysinfo.
Proof.
  intros H. unfold mem_syscalls in H.
  repeat (apply elem_of_cons in H as [->|H]; [split_and!; by apply (bool_decide_unpack _)|]). by apply elem_of_nil in H.
Qed.

Lemma unsupported_disjoint n : n ∈ unsupported_syscalls -> n ∉ ignored_syscalls.
Proof. intros ->%list_elem_of_singleton. by apply (bool_decide_unpack _). Qed.

(** After the registration every system call that LKL has is served as
    intended, whatever is traced: the memory-locking calls and
    [sched_setaffinity] succeed, [brk] is not implemented, the memory calls and
    [sysinfo] go to the enclave's own functions, all others return LKL's result,
    the stat calls included; with call tracing, the results of calls with at most
    two arguments are cut to 32 bits. *)
Theorem syscall_dispatch tr defs t n args :
  (forall m, m ∈ [n; NR_fstat; NR_newfstatat] -> t !! m = Some (Original m)) -> NoDup defs.*1 ->
  let s := register_lkl_syscall_overrides tr defs (initial t) in
  invoke 3 s (default NullHandler (table s !! n)) args = Done (expected tr defs n args).
Proof.
  intros Ht Hnd s. destruct (registered_table tr defs t n) as (Hr & Hf & Hn & Htab). fold s in Hr, Hf, Hn, Htab.
  rewrite Htab. unfold expected.
  destruct (decide (n ∈ mem_syscalls)) as [Hm|].
  - destruct (mem_disjoint n Hm) as (H1 & H2 & H3). rewrite 2!decide_False by done.
    by destruct (enabled tr && trace_internal_syscall tr).
  - destruct (decide (n ∈ unsupported_syscalls)) as [Hu|].
    + rewrite decide_False by (by apply unsupported_disjoint).
      by destruct (enabled tr && trace_unsupported_syscall tr).
    + destruct (decide (n ∈ ignored_syscalls)); [by destruct (enabled tr && trace_ignored_syscall tr)|].
      destruct (decide (n = NR_sysinfo)); [done|]. by apply invoke_wrapped.
Qed.
End Calls.

(** A call with one argument that returns an address: with tracing it is cut. *)
Definition sample_table : gmap sysno handler :=
  <[NR_other 5 := Original (NR_other 5)]> (<[NR_fstat := Original NR_fstat]> {[NR_newfstatat := Original NR_newfstatat]}).

Lemma syscall_dispatch_witness :
  let tr := mk_tracing true true false false false in
  let s := register_lkl_syscall_overrides tr [(NR_other 5, 1%nat)] (initial sample_table) in
  invoke (fun _ _ => 2 ^ 40 + 7) (fun _ _ => 0) (fun _ => 0) 3 s (default NullHandler (table s !! NR_other 5)) [1] =
  Done (expected (fun _ _ => 2 ^ 40 + 7) (fun _ _ => 0) (fun _ => 0) tr [(NR_other 5, 1%nat)] (NR_other 5) [1]).
Proof.
  apply (syscall_dispatch (fun _ _ => 2 ^ 40 + 7) (fun _ _ => 0) (fun _ => 0)
    (mk_tracing true true false false false) [(NR_other 5, 1%nat)] sample_table (NR_other 5) [1]).
  - intros m Hm. repeat (apply elem_of_cons in Hm as [->|Hm]; [reflexivity|]). by apply elem_of_nil in Hm.
  - apply NoDup_singleton.
Defined.

Example traced_address_is_cut :
  expected (fun _ _ => 2 ^ 40 + 7) (fun _ _ => 0) (fun _ => 0)
    (mk_tracing true true false false false) [(NR_other 5, 1%nat)] (NR_other 5) [1] = 7.
Proof. reflexivity. Qed.
