(* ===== verification/KernelLocks.v ===== *)
(** * KernelLocks: the semaphores and mutexes that LKL runs on (src/lkl/posix-host.c)

    LKL asks its host for semaphores and mutexes; in the enclave they are built
    from atomic words and futexes.  Every atomic access is one step of a thread,
    and the threads interleave.  The futex calls are single steps: the code of
    src/sched/futex.c compares the word and enters the thread into the queue,
    or takes all threads out of it, with the futex lock held (see Futex).
    Threads are named by their [struct lthread*], which is not 0. *)

From stdpp Require Import functions.
From S2P Require Import Prelude.

(** ** Semaphores *)

Module Sem.

(** Where a thread is in [sem_up] or [sem_down]: before the named access. *)
Inductive sem_pc : Type :=
| Outside
| Add | WakeAll                          (* sem_up *)
| Load | Decrement (count : Z) | Wait | Asleep   (* sem_down *).

#[export] Instance sem_pc_eq_dec : EqDecision sem_pc.
Proof. solve_decision. Defined.

Record lkl_sem : Type := { count : Z }.

Definition sem_alloc (n : Z) : lkl_sem := {| count := s32 n |}.

(** One access of [sem_up] or [sem_down]; the flag asks to wake all sleepers.
    [spurious] is the failure that a weak compare-and-swap is allowed. *)
Definition sem_access (spurious : bool) (s : lkl_sem) (p : sem_pc) : lkl_sem * sem_pc * bool :=
  match p with
  | Outside => (s, Outside, false)
  | Add =>
      ({| count := s32 (count s + 1) |}, if count s =? 0 then WakeAll else Outside, false)
  | WakeAll => (s, Outside, true)
  | Load => (s, Decrement (count s), false)
  | Decrement c =>
      if c =? 0 then (s, Wait, false)
      else if negb spurious && (count s =? c) then ({| count := s32 (c - 1) |}, Outside, false)
      else (s, Decrement (count s), false)
  | Wait => (s, if count s =? 0 then Asleep else Load, false)
  | Asleep => (s, Asleep, false)
  end.

(** The semaphore, the threads, and how often [sem_up] has added and [sem_down]
    has subtracted. *)
Record sem_state : Type := mk_state { sem : lkl_sem; thr : Z -> sem_pc; ups : Z; downs : Z }.

Definition is_asleep (p : sem_pc) : bool := match p with Asleep => true | _ => false end.

Definition wake_all (f : Z -> sem_pc) : Z -> sem_pc := fun u => if is_asleep (f u) then Load else f u.

Definition took_one (p p' : sem_pc) : bool :=
  match p, p' with Decrement _, Outside => true | _, _ => false end.
Definition added_one (p : sem_pc) : bool := match p with Add => true | _ => false end.

Definition sem_run (t : Z) (spurious : bool) (s : sem_state) : sem_state :=
  let p := thr s t in
  let '(m, p', wake) := sem_access spurious (sem s) p in
  let f := if (wake : bool) then wake_all (thr s) else thr s in
  mk_state m (<[t := p']> f) (ups s + int_of_bool (added_one p)) (downs s + int_of_bool (took_one p p')).

Definition enter (t : Z) (p : sem_pc) (s : sem_state) : sem_state :=
  mk_state (sem s) (<[t := p]> (thr s)) (ups s) (downs s).

(** The callers' side: a thread outside calls [sem_up] or [sem_down]; the count
    is an int, and adding to its largest value is not allowed. *)
Inductive sem_step : sem_state -> sem_state -> Prop :=
| sem_up s t : thr s t = Outside -> sem_step s (enter t Add s)
| sem_down s t : thr s t = Outside -> sem_step s (enter t Load s)
| run s t spurious :
    (thr s t = Add -> count (sem s) < INT_MAX) -> sem_step s (sem_run t spurious s).

Definition sem_init (n : Z) : sem_state := mk_state (sem_alloc n) (fun _ => Outside) 0 0.

Definition sem_reachable (n : Z) (s : sem_state) : Prop := rtc sem_step (sem_init n) s.

(** *** The invariant *)

Record inv (n : Z) (s : sem_state) : Prop := {
  inv_count : count (sem s) = n + ups s - downs s;
  inv_range : 0 <= count (sem s) <= INT_MAX;
  inv_seen : forall t c, thr s t = Decrement c -> 0 <= c <= INT_MAX;
  inv_sleep : forall t, thr s t = Asleep -> count (sem s) = 0 \/ exists u, thr s u = WakeAll
}.

Lemma sem_init_inv n : 0 <= n <= INT_MAX -> inv n (sem_init n).
Proof.
  intros Hn. unfold INT_MAX in *. split; simpl; try done; unfold INT_MAX; rewrite s32_small by lia; lia.
Qed.

(** Case analysis on a thread looked up after an update. *)
Ltac thread u t :=
  destruct (decide (u = t)) as [->|?]; [rewrite ?fn_lookup_insert in *|rewrite ?fn_lookup_insert_ne in * by done].

Lemma sem_wake_spec f u p :
  wake_all f u = p -> p = Load \/ f u = p /\ p ≠ Asleep.
Proof. unfold wake_all. destruct (f u) eqn:E; simpl; intros <-; auto; right; split; done. Qed.

(** One thread moves to [p'] and the count changes: what the invariant needs. *)
Lemma sem_update_inv n s t m p' ups' downs' :
  inv n s -> thr s t ≠ WakeAll ->
  count m = n + ups' - downs' -> 0 <= count m <= INT_MAX ->
  (forall c, p' = Decrement c -> 0 <= c <= INT_MAX) ->
  (p' = Asleep -> count m = 0 \/ exists u, thr s u = WakeAll) ->
  (count (sem s) = 0 -> count m = 0 \/ p' = WakeAll) ->
  inv n (mk_state m (<[t := p']> (thr s)) ups' downs').
Proof.
  intros [_ _ Hd Hs] Ht Hc Hr Hp Hsl H0.
  assert (forall u, thr s u = WakeAll -> <[t := p']> (thr s) u = WakeAll) as Hkeep
    by (intros u Hu; thread u t; done).
  split; simpl; [done|done|..].
  - intros u c. thread u t; [apply Hp|apply Hd].
  - intros u. thread u t.
    + intros E. destruct (Hsl E) as [|[v Hv]]; [by left|right; exists v; by apply Hkeep].
    + intros Hu. destruct (Hs u Hu) as [Hz|[v Hv]]; [|right; exists v; by apply Hkeep].
      destruct (H0 Hz) as [| ->]; [by left|right; exists t; apply fn_lookup_insert].
Qed.

Lemma sem_enter_inv n s t p :
  inv n s -> thr s t = Outside -> p = Add \/ p = Load ->
  inv n (enter t p s).
Proof.
  intros Hi Ht Hp. pose proof Hi as [? ? ? ?]. apply sem_update_inv; try done; try congruence; auto;
    destruct Hp; congruence.
Qed.

Lemma sem_run_inv n s t spurious :
  inv n s -> (thr s t = Add -> count (sem s) < INT_MAX) -> inv n (sem_run t spurious s).
Proof.
  intros Hi Hadd. pose proof Hi as [Hc Hr Hd Hs]. unfold sem_run.
  destruct (decide (thr s t = WakeAll)) as [Ht|Hne].
  { rewrite Ht. simpl. split; simpl; [lia|lia|..].
    - intros u c. thread u t; [done|]. intros E. destruct (sem_wake_spec _ _ _ E) as [|[E' _]]; [done|by eauto].
    - intros u. thread u t; [done|]. intros E. by destruct (sem_wake_spec _ _ _ E) as [|[_ E']]. }
  destruct (sem_access spurious (sem s) (thr s t)) as [[m p'] wake] eqn:E.
  assert (wake = false) as ->.
  { destruct (thr s t); simpl in E; repeat case_match; by simplify_eq. }
  unfold INT_MAX in *.
  apply sem_update_inv; [done|done|..]; destruct (thr s t) as [| | | |c| |] eqn:Ht; simpl in E; try done;
    try specialize (Hadd eq_refl); try specialize (Hd t c Ht); unfold INT_MAX in *;
    repeat case_match; simplify_eq; simpl in *; try rewrite s32_small by lia; try lia;
    intros; simplify_eq; try lia; auto; try (left; lia).
  by eapply Hs.
Qed.

Lemma sem_reachable_inv n s : 0 <= n <= INT_MAX -> sem_reachable n s -> inv n s.
Proof.
  intros Hn Hr. refine (rtc_preserves sem_step (inv n) _ _ _ Hr (sem_init_inv n Hn)).
  intros _ _ [s' t Ht|s' t Ht|s' t sp Ha] Hi; [apply sem_enter_inv; auto|apply sem_enter_inv; auto|].
  by apply sem_run_inv.
Qed.

(** *** Theorems *)

(** The semaphore counts: in every interleaving of any number of threads its
    count is the initial count plus the completed releases minus the completed
    acquisitions, and never negative, so that at most [n] plus the number of
    releases acquisitions ever succeed. *)
Theorem sem_counts n s :
  0 <= n <= INT_MAX -> sem_reachable n s ->
  count (sem s) = n + ups s - downs s /\ 0 <= count (sem s) /\ downs s <= n + ups s.
Proof. intros Hn Hr. destruct (sem_reachable_inv n s Hn Hr) as [Hc H0 _ _]. lia. Qed.

(** No wake-up is lost: in every reachable state, when a thread sleeps in
    [sem_down] although the count is positive, some thread is inside [sem_up]
    just before it wakes all sleepers; and its next step, whatever the others
    did before, leaves no thread asleep. *)
Theorem sem_no_lost_wakeup n s t :
  0 <= n <= INT_MAX -> sem_reachable n s -> thr s t = Asleep -> 0 < count (sem s) ->
  exists u, thr s u = WakeAll /\ forall spurious v, thr (sem_run u spurious s) v ≠ Asleep.
Proof.
  intros Hn Hr Ht H0. destruct (sem_reachable_inv n s Hn Hr) as [_ _ _ Hs].
  destruct (Hs t Ht) as [|[u Hu]]; [lia|]. exists u. split; [done|]. intros sp v.
  unfold sem_run. rewrite Hu. simpl. thread v u; [done|]. intros E.
  by destruct (sem_wake_spec _ _ _ E) as [|[_ ?]].
Qed.

(** Thread 1 sleeps in [sem_down]; thread 2 has added and is about to wake. *)
Definition gate_asleep : sem_state :=
  sem_run 1 false (sem_run 1 false (sem_run 1 false (enter 1 Load (sem_init 0)))).
Definition gate_opened : sem_state := sem_run 2 false (enter 2 Add gate_asleep).

Lemma gate_run : sem_reachable 0 gate_opened.
Proof.
  unfold sem_reachable, gate_opened, gate_asleep.
  do 3 (eapply rtc_r; [|first [apply sem_up; reflexivity|apply run; done]]).
  do 2 (eapply rtc_r; [|apply run; done]).
  eapply rtc_r; [apply rtc_refl|apply sem_down; reflexivity].
Qed.

Lemma sem_counts_witness :
  count (sem gate_opened) = 0 + ups gate_opened - downs gate_opened /\ 0 <= count (sem gate_opened) /\
  downs gate_opened <= 0 + ups gate_opened.
Proof. apply (sem_counts 0); [unfold INT_MAX; lia|apply gate_run]. Defined.

Lemma sem_no_lost_wakeup_witness :
  exists u, thr gate_opened u = WakeAll /\
    forall spurious v, thr (sem_run u spurious gate_opened) v ≠ Asleep.
Proof.
  apply (sem_no_lost_wakeup 0 gate_opened 1); [unfold INT_MAX; lia|apply gate_run|reflexivity|reflexivity].
Defined.

End Sem.

(** ** Mutexes *)

Module Mutex.

(** enum mutex_state *)
Definition unlocked : Z := 0.
Definition locked_no_waiters : Z := 1.
Definition locked_waiters : Z := 2.

(** [recursion_count] is a signed bit field of 31 bits. *)
Record lkl_mutex : Type := mk_mutex {
  flag : Z; owner : Z; is_recursive : bool; recursion_count : Z }.

Definition mutex_alloc (recursive : Z) : lkl_mutex := mk_mutex unlocked 0 (truthy recursive) 0.

Definition set_flag (f : Z) (m : lkl_mutex) : lkl_mutex :=
  mk_mutex f (owner m) (is_recursive m) (recursion_count m).
Definition set_owner (o : Z) (m : lkl_mutex) : lkl_mutex :=
  mk_mutex (flag m) o (is_recursive m) (recursion_count m).
Definition set_recursion (c : Z) (m : lkl_mutex) : lkl_mutex :=
  mk_mutex (flag m) (owner m) (is_recursive m) (swrap 31 c).

(** Where a thread is in [mutex_lock] (up to [SetOwner]) or [mutex_unlock]:
    before the named access.  [Owner]: the compare-and-swap has failed and found
    [state]. *)
Inductive mutex_pc : Type :=
| Idle
| TryLock | Owner (state : Z) | Exchange | FutexWait | Sleeping | SetOwner
| Release | Subtract | StoreZero | WakeWaiters.

(** [depth]: how many locks of the mutex the thread holds. *)
Record mthread : Type := mk_thread { mpc : mutex_pc; depth : Z }.

(** One access of the thread [self]; the flag asks to wake all sleepers.  The
    accesses to [recursion_count], which only the holder makes, belong to the
    step in which the code decides to make them. *)
Definition mutex_access (spurious : bool) (self : Z) (m : lkl_mutex) (th : mthread) :
    lkl_mutex * mthread * bool :=
  let at_pc p := mk_thread p (depth th) in
  match mpc th with
  | Idle => (m, th, false)
  | TryLock =>
      if negb spurious && (flag m =? unlocked)
      then (set_flag locked_no_waiters m, at_pc SetOwner, false)
      else (m, at_pc (Owner (flag m)), false)
  | Owner state =>
      if is_recursive m && (owner m =? self)
      then (set_recursion (recursion_count m + 1) m, mk_thread Idle (depth th + 1), false)
      else (m, at_pc (if state =? locked_waiters then FutexWait else Exchange), false)
  | Exchange =>
      (set_flag locked_waiters m, at_pc (if flag m =? unlocked then SetOwner else FutexWait), false)
  | FutexWait => (m, at_pc (if flag m =? locked_waiters then Sleeping else Exchange), false)
  | Sleeping => (m, th, false)
  | SetOwner =>
      (if is_recursive m then set_owner self m else m, mk_thread Idle (depth th + 1), false)
  | Release =>
      if is_recursive m then
        if 0 <? recursion_count m
        then (set_recursion (recursion_count m - 1) m, mk_thread Idle (depth th - 1), false)
        else (set_owner 0 m, at_pc Subtract, false)
      else (m, at_pc Subtract, false)
  | Subtract =>
      if flag m =? locked_no_waiters
      then (set_flag (u32 (flag m - 1)) m, mk_thread Idle (depth th - 1), false)
      else (set_flag (u32 (flag m - 1)) m, at_pc StoreZero, false)
  | StoreZero => (set_flag unlocked m, mk_thread WakeWaiters (depth th - 1), false)
  | WakeWaiters => (m, at_pc Idle, true)
  end.

Record mutex_run_state : Type := mk_run { mtx : lkl_mutex; ths : Z -> mthread }.

Definition wake_waiters (f : Z -> mthread) : Z -> mthread := fun u =>
  match mpc (f u) with Sleeping => mk_thread Exchange (depth (f u)) | _ => f u end.

Definition mutex_run (t : Z) (spurious : bool) (s : mutex_run_state) : mutex_run_state :=
  let '(m, th, wake) := mutex_access spurious t (mtx s) (ths s t) in
  mk_run m (<[t := th]> (if (wake : bool) then wake_waiters (ths s) else ths s)).

Definition goto (t : Z) (p : mutex_pc) (s : mutex_run_state) : mutex_run_state :=
  mk_run (mtx s) (<[t := mk_thread p (depth (ths s t))]> (ths s)).

(** The callers' side: a thread unlocks only what it has locked, and does not
    nest locks deeper than the bit field counts. *)
Inductive mutex_step : mutex_run_state -> mutex_run_state -> Prop :=
| mutex_lock s t :
    t ≠ 0 -> mpc (ths s t) = Idle -> depth (ths s t) < 2 ^ 30 -> mutex_step s (goto t TryLock s)
| mutex_unlock s t :
    t ≠ 0 -> mpc (ths s t) = Idle -> 0 < depth (ths s t) -> mutex_step s (goto t Release s)
| mutex_runs s t spurious : t ≠ 0 -> mutex_step s (mutex_run t spurious s).

Definition mutex_init (recursive : Z) : mutex_run_state :=
  mk_run (mutex_alloc recursive) (fun _ => mk_thread Idle 0).

Definition mutex_reachable (recursive : Z) (s : mutex_run_state) : Prop :=
  rtc mutex_step (mutex_init recursive) s.

(** *** The invariant *)

(** A thread has the lock from the moment it changed the flag. *)
Definition holds (th : mthread) : Prop := 0 < depth th \/ mpc th = SetOwner.

Definition unlocking (p : mutex_pc) : bool :=
  match p with Subtract | StoreZero => true | _ => false end.

(** What the position of a thread says about the locks it holds. *)
Definition pc_ok (recursive : bool) (th : mthread) : Prop :=
  match mpc th with
  | Idle | TryLock | Owner _ => True
  | Exchange | FutexWait | Sleeping => recursive = true -> depth th = 0
  | SetOwner | WakeWaiters => depth th = 0
  | Release => 0 < depth th
  | Subtract | StoreZero => depth th = 1
  end.

Record thread_ok (m : lkl_mutex) (t : Z) (th : mthread) : Prop := {
  ok_depth : 0 <= depth th <= 2 ^ 30;
  ok_room : mpc th = TryLock \/ (exists st, mpc th = Owner st) -> depth th < 2 ^ 30;
  ok_pc : pc_ok (is_recursive m) th;
  ok_once : is_recursive m = false -> depth th <= 1;
  ok_count : is_recursive m = true -> 0 < depth th -> recursion_count m = depth th - 1;
  ok_owner : is_recursive m = true -> 0 < depth th ->
    owner m = if unlocking (mpc th) then 0 else t;
  ok_owned : owner m = t -> is_recursive m = true /\ 0 < depth th
}.

Record minv (s : mutex_run_state) : Prop := {
  minv_flag : 0 <= flag (mtx s) <= 2;
  minv_threads : forall t, t ≠ 0 -> thread_ok (mtx s) t (ths s t);
  minv_zero : ths s 0 = mk_thread Idle 0;
  minv_excl : forall t u, holds (ths s t) -> holds (ths s u) -> t = u;
  minv_free : flag (mtx s) = 0 -> forall t, ~ holds (ths s t);
  minv_held : flag (mtx s) ≠ 0 -> exists t, holds (ths s t);
  minv_idle : is_recursive (mtx s) = false \/ (forall t, depth (ths s t) <= 0) ->
    recursion_count (mtx s) = 0;
  minv_sleep : forall t, mpc (ths s t) = Sleeping ->
    flag (mtx s) = 2 \/ exists u, mpc (ths s u) = StoreZero \/ mpc (ths s u) = WakeWaiters
}.

Ltac thread u t :=
  destruct (decide (u = t)) as [->|?]; [rewrite ?fn_lookup_insert in *|rewrite ?fn_lookup_insert_ne in * by done].

Lemma idle_not_holds : ~ holds (mk_thread Idle 0).
Proof. intros [H|H]; simpl in H; [lia|done]. Qed.

Lemma mutex_init_inv recursive : minv (mutex_init recursive).
Proof.
  split; simpl.
  - unfold unlocked. lia.
  - intros t Ht. split; simpl; try done; lia.
  - done.
  - intros t u H. by destruct (idle_not_holds H).
  - intros _ t. apply idle_not_holds.
  - done.
  - done.
  - done.
Qed.

(** The threads move without changing what they hold, and the mutex stays. *)
Lemma minv_moves s f :
  minv s -> f 0 = mk_thread Idle 0 ->
  (forall u, u ≠ 0 -> thread_ok (mtx s) u (f u)) ->
  (forall u, depth (f u) = depth (ths s u) /\ (mpc (f u) = SetOwner <-> mpc (ths s u) = SetOwner)) ->
  (forall u, mpc (f u) = Sleeping -> flag (mtx s) = 2 \/ exists v, mpc (f v) = StoreZero \/ mpc (f v) = WakeWaiters) ->
  minv (mk_run (mtx s) f).
Proof.
  intros [H1 H2 H3 H4 H5 H6 H7 H8] Hz Hok Hsame Hs.
  assert (forall u, holds (f u) <-> holds (ths s u)) as Hh.
  { intros u. unfold holds. destruct (Hsame u) as [-> ->]. done. }
  split; simpl; try done.
  - intros t u Ht Hu. apply H4; by apply Hh.
  - intros E t Ht. by apply (H5 E t), Hh.
  - intros E. destruct (H6 E) as [t Ht]. exists t. by apply Hh.
  - intros [Hr|Hd]; apply H7; [by left|right]. intros t. destruct (Hsame t) as [<- _]. apply Hd.
Qed.

Lemma sole_holder s t u : minv s -> holds (ths s t) -> u ≠ t -> ~ holds (ths s u).
Proof. intros Hi Ht Hne Hu. apply Hne. by apply (minv_excl s Hi). Qed.

(** A thread that does not hold the lock is not concerned by what the holder
    does to the owner and the count. *)
Lemma bystander_ok m m' u th :
  thread_ok m u th -> ~ holds th -> is_recursive m' = is_recursive m -> owner m' ≠ u ->
  thread_ok m' u th.
Proof.
  intros [H1 H2 H3 H4 H5 H6 H7] Hh Hr Ho. unfold holds in Hh.
  split; rewrite ?Hr; try done; intros; try lia; naive_solver.
Qed.

(** One thread changes the mutex, which nobody else holds. *)
Lemma minv_update s t m th :
  minv s -> t ≠ 0 -> is_recursive m = is_recursive (mtx s) -> 0 <= flag m <= 2 ->
  thread_ok m t th -> (forall u, u ≠ t -> ~ holds (ths s u)) ->
  owner m = 0 \/ owner m = t \/ owner m = owner (mtx s) ->
  (flag m = 0 <-> ~ holds th) ->
  (is_recursive m = false \/ depth th <= 0 -> recursion_count m = 0) ->
  mpc th ≠ Sleeping -> mpc (ths s t) ≠ WakeWaiters ->
  (flag (mtx s) = 2 \/ mpc (ths s t) = StoreZero ->
   flag m = 2 \/ mpc th = StoreZero \/ mpc th = WakeWaiters) ->
  minv (mk_run m (<[t := th]> (ths s))).
Proof.
  intros Hi Ht Hr Hf Hok Hoth Ho Hfl Hc Hns Hnw Hsl. pose proof Hi as [H1 H2 H3 H4 H5 H6 H7 H8].
  assert (holds th \/ ~ holds th) as Hdec.
  { unfold holds. destruct (mpc th); try (by left; right); destruct (Z.lt_ge_cases 0 (depth th));
      (left; left; done) || (right; intros [?|?]; [lia|done]). }
  split; simpl; [done|..].
  - intros u Hu. thread u t; [done|]. apply (bystander_ok (mtx s)); [by apply H2|by apply Hoth|done|].
    destruct Ho as [->|[->| ->]]; [done|done|]. intros E.
    destruct (ok_owned _ _ _ (H2 u Hu) E) as [_ Hd]. apply (Hoth u); [done|by left].
  - rewrite fn_lookup_insert_ne by done. exact H3.
  - intros u v Hu Hv. thread u t; thread v t; try done; exfalso.
    + by apply (Hoth v).
    + by apply (Hoth u).
    + by apply (Hoth u).
  - intros E u. thread u t; [by apply Hfl|by apply Hoth].
  - intros E. destruct Hdec as [Hh|Hh]; [|by apply Hfl in Hh]. exists t. by rewrite fn_lookup_insert.
  - intros [Hr'|Hd]; apply Hc; [by left|right]. specialize (Hd t). by rewrite fn_lookup_insert in Hd.
  - intros u. thread u t; [done|]. intros Hu.
    assert (flag (mtx s) = 2 \/ mpc (ths s t) = StoreZero ->
      flag m = 2 \/ exists v, mpc (<[t:=th]> (ths s) v) = StoreZero \/ mpc (<[t:=th]> (ths s) v) = WakeWaiters) as Hself.
    { intros E. destruct (Hsl E) as [?|?]; [by left|right]. exists t. by rewrite fn_lookup_insert. }
    destruct (H8 u Hu) as [E|[v [Hv|Hv]]]; [by apply Hself; left|..].
    + thread v t; [by apply Hself; right|]. right. exists v. rewrite fn_lookup_insert_ne by done. by left.
    + right. exists v. thread v t; [done|]. by right.
Qed.

(** One thread moves and nothing else happens. *)
Lemma minv_quiet s t th :
  minv s -> t ≠ 0 -> thread_ok (mtx s) t th -> depth th = depth (ths s t) ->
  mpc (ths s t) ≠ StoreZero -> mpc (ths s t) ≠ WakeWaiters ->
  (mpc th = SetOwner <-> mpc (ths s t) = SetOwner) ->
  (mpc th = Sleeping -> flag (mtx s) = 2 \/ mpc (ths s t) = Sleeping) ->
  minv (mk_run (mtx s) (<[t := th]> (ths s))).
Proof.
  intros Hi Ht Hok Hd Hn1 Hn2 Hset Hsl. apply minv_moves; [done|..].
  - rewrite fn_lookup_insert_ne by done. apply (minv_zero s Hi).
  - intros u Hu. thread u t; [done|]. by apply (minv_threads s Hi).
  - intros u. thread u t; done.
  - intros u Hu.
    assert (flag (mtx s) = 2 \/ exists w, mpc (ths s w) = Sleeping) as [E|[w Hw]].
    { thread u t; [destruct (Hsl Hu); [by left|right; by exists t]|right; by exists u]. }
    + by left.
    + destruct (minv_sleep s Hi w Hw) as [E|[v Hv]]; [by left|right].
      exists v. thread v t; [naive_solver|done].
Qed.

Lemma mutex_goto_inv s t p :
  minv s -> t ≠ 0 -> mpc (ths s t) = Idle ->
  p = TryLock /\ depth (ths s t) < 2 ^ 30 \/ p = Release /\ 0 < depth (ths s t) ->
  minv (goto t p s).
Proof.
  intros Hi Ht Hidle Hp. pose proof (minv_threads s Hi t Ht) as [K1 K2 K3 K4 K5 K6 K7].
  rewrite Hidle in K6. unfold goto.
  apply minv_quiet; simpl; rewrite ?Hidle; try done; [|naive_solver..].
  split; simpl; try done.
  - intros [->|[st ->]]; naive_solver.
  - unfold pc_ok. simpl. destruct Hp as [[-> _]|[-> ?]]; done.
  - intros Hr Hd. specialize (K6 Hr Hd). destruct Hp as [[-> _]|[-> _]]; exact K6.
Qed.

Lemma mutex_wake_inv s t :
  minv s -> t ≠ 0 -> mpc (ths s t) = WakeWaiters ->
  minv (mk_run (mtx s) (<[t := mk_thread Idle (depth (ths s t))]> (wake_waiters (ths s)))).
Proof.
  intros Hi Ht Hw. pose proof (minv_zero s Hi) as Hz.
  assert (forall u, wake_waiters (ths s) u = ths s u /\ mpc (ths s u) ≠ Sleeping \/
    mpc (ths s u) = Sleeping /\ wake_waiters (ths s) u = mk_thread Exchange (depth (ths s u))) as Hk.
  { intros u. unfold wake_waiters. destruct (mpc (ths s u)); auto. }
  apply minv_moves; [done|..].
  - rewrite fn_lookup_insert_ne by done. destruct (Hk 0) as [[-> _]|[E _]]; [done|by rewrite Hz in E].
  - intros u Hu. pose proof (minv_threads s Hi u Hu) as [K1 K2 K3 K4 K5 K6 K7].
    unfold pc_ok in K3. thread u t.
    + rewrite Hw in *. split; simpl; try done. naive_solver.
    + destruct (Hk u) as [[-> _]|[E ->]]; [done|]. rewrite E in *. split; simpl; try done. naive_solver.
  - intros u. thread u t; [by rewrite Hw|]. destruct (Hk u) as [[-> _]|[E ->]]; [done|]. by rewrite E.
  - intros u. thread u t; [done|]. destruct (Hk u) as [[-> ?]|[E ->]]; done.
Qed.

(** The accesses that change nothing but the place of the thread. *)
Definition moves_only (m : lkl_mutex) (th : mthread) (self : Z) : bool :=
  match mpc th with
  | Idle | FutexWait | Sleeping => true
  | Owner _ => negb (is_recursive m && (owner m =? self))
  | _ => false
  end.

Lemma mutex_quiet_inv s t spurious :
  minv s -> t ≠ 0 -> moves_only (mtx s) (ths s t) t = true -> minv (mutex_run t spurious s).
Proof.
  intros Hi Ht Hq. pose proof (minv_threads s Hi t Ht) as [K1 K2 K3 K4 K5 K6 K7].
  unfold mutex_run, moves_only, mutex_access, pc_ok in *. destruct (ths s t) as [p d] eqn:E. simpl in *.
  destruct p; try done; simpl.
  - apply minv_quiet; rewrite ?E; simpl; done.
  - apply negb_true_iff in Hq. rewrite Hq.
    assert (is_recursive (mtx s) = true -> d = 0) as Hd0.
    { intros Hr. rewrite Hr in Hq. simpl in Hq. destruct (Z.lt_ge_cases 0 d) as [Hd|]; [|lia].
      rewrite (K6 Hr Hd), Z.eqb_refl in Hq. done. }
    destruct (state =? locked_waiters); apply minv_quiet; rewrite ?E; simpl; try done;
      split; simpl; try done; naive_solver.
  - destruct (Z.eqb_spec (flag (mtx s)) locked_waiters); apply minv_quiet; rewrite ?E; simpl; try done;
      try (split; simpl; try done; naive_solver). naive_solver.
  - apply minv_quiet; rewrite ?E; simpl; try done. naive_solver.
Qed.

Lemma free_depth s t : minv s -> flag (mtx s) = 0 -> depth (ths s t) <= 0.
Proof.
  intros Hi Hf. destruct (Z.lt_ge_cases 0 (depth (ths s t))) as [Hd|]; [|done].
  destruct (minv_free s Hi Hf t). by left.
Qed.

(** The flag was 0 and the thread gets the lock. *)
Lemma mutex_acquire_inv s t f :
  minv s -> t ≠ 0 -> flag (mtx s) = 0 -> f = 1 \/ f = 2 ->
  mpc (ths s t) = TryLock \/ mpc (ths s t) = Exchange ->
  minv (mk_run (set_flag f (mtx s)) (<[t := mk_thread SetOwner (depth (ths s t))]> (ths s))).
Proof.
  intros Hi Ht Hf Hf' Hp. pose proof (minv_threads s Hi t Ht) as [K1 K2 K3 K4 K5 K6 K7].
  pose proof (free_depth s t Hi Hf) as Hd.
  assert (holds (mk_thread SetOwner (depth (ths s t)))) as Hh by (by right).
  apply minv_update; simpl; try done.
  - lia.
  - split; simpl; try done; try lia; try (unfold pc_ok; simpl; lia); naive_solver.
  - intros u _. by apply (minv_free s Hi).
  - auto.
  - split; [lia|done].
  - intros _. apply (minv_idle s Hi). right. intros u. by apply free_depth.
  - destruct Hp; congruence.
  - intros [?|E]; [lia|]. destruct Hp; congruence.
Qed.

(** The flag of a held mutex becomes 2. *)
Lemma mutex_mark_inv s t :
  minv s -> t ≠ 0 -> flag (mtx s) ≠ 0 -> mpc (ths s t) = Exchange ->
  minv (mk_run (set_flag 2 (mtx s)) (<[t := mk_thread FutexWait (depth (ths s t))]> (ths s))).
Proof.
  intros Hi Ht Hf Hp. pose proof (minv_threads s Hi t Ht) as [K1 K2 K3 K4 K5 K6 K7].
  unfold pc_ok in K3. rewrite Hp in *.
  assert (minv (mk_run (set_flag 2 (mtx s)) (ths s))) as Hi'.
  { destruct Hi as [I1 I2 I3 I4 I5 I6 I7 I8]. split; simpl.
    - lia.
    - intros u Hu. by destruct (I2 u Hu).
    - done.
    - done.
    - lia.
    - intros _. by apply I6.
    - done.
    - intros u _. by left. }
  apply (minv_quiet (mk_run (set_flag 2 (mtx s)) (ths s))); simpl; rewrite ?Hp; try done.
  split; simpl; try done. naive_solver.
Qed.

(** The holder of the lock changes the mutex or gives it back. *)
Lemma mutex_holder_inv s t m th :
  minv s -> t ≠ 0 -> holds (ths s t) -> is_recursive m = is_recursive (mtx s) -> 0 <= flag m <= 2 ->
  thread_ok m t th -> owner m = 0 \/ owner m = t \/ owner m = owner (mtx s) ->
  (flag m = 0 <-> ~ holds th) -> (is_recursive m = false \/ depth th <= 0 -> recursion_count m = 0) ->
  mpc th ≠ Sleeping -> mpc (ths s t) ≠ WakeWaiters ->
  (flag (mtx s) = 2 \/ mpc (ths s t) = StoreZero ->
   flag m = 2 \/ mpc th = StoreZero \/ mpc th = WakeWaiters) ->
  minv (mk_run m (<[t := th]> (ths s))).
Proof. intros Hi Ht Hh. intros. apply minv_update; auto. intros u Hu. by apply (sole_holder s t). Qed.

Lemma held_flag s t : minv s -> holds (ths s t) -> flag (mtx s) ≠ 0.
Proof. intros Hi Hh Hf. by apply (minv_free s Hi Hf t). Qed.

Lemma holds_pos p d : p ≠ SetOwner -> holds (mk_thread p d) <-> 0 < d.
Proof. intros Hp. split; [by intros [?|?]|by left]. Qed.

(** The nested lock and unlock of a recursive mutex. *)
Lemma mutex_recurse_inv s t d' :
  minv s -> t ≠ 0 -> is_recursive (mtx s) = true -> unlocking (mpc (ths s t)) = false ->
  mpc (ths s t) ≠ SetOwner -> mpc (ths s t) ≠ WakeWaiters -> 0 < depth (ths s t) -> 0 < d' <= 2 ^ 30 ->
  minv (mk_run (set_recursion (d' - 1) (mtx s)) (<[t := mk_thread Idle d']> (ths s))).
Proof.
  intros Hi Ht Hr Hu Hs Hw Hd Hd'. pose proof (minv_threads s Hi t Ht) as [K1 K2 K3 K4 K5 K6 K7].
  assert (holds (ths s t)) as Hh by (by left). pose proof (held_flag s t Hi Hh) as Hf.
  specialize (K6 Hr Hd). rewrite Hu in K6.
  apply mutex_holder_inv; simpl; try done; try lia.
  - apply (minv_flag s Hi).
  - split; simpl; try done; try lia; try congruence; intros; rewrite ?swrap_small by lia; try done.
    + by destruct H as [|[? ?]].
    + split; [done|lia].
  - rewrite holds_pos by done. lia.
  - rewrite Hr. intros [?|?]; [done|lia].
  - intros [?|E]; [by left|]. by rewrite E in Hu.
Qed.

(** The conditions of [mutex_holder_inv] once the facts about the thread are in
    the context. *)
Ltac fields :=
  repeat match goal with
  | H : _ \/ _ |- _ => destruct H
  | H : exists _, _ |- _ => destruct H
  | |- thread_ok _ _ _ => split; simpl; unfold pc_ok; simpl; intros
  | |- context [holds (mk_thread _ _)] => rewrite holds_pos by done
  | |- _ -> _ => intros
  end; try done; try lia; try congruence; auto.

Section Holder.
Variables (s : mutex_run_state) (t : Z).
Hypothesis Hi : minv s.
Hypothesis Ht : t ≠ 0.

Lemma plain_count : is_recursive (mtx s) = false -> recursion_count (mtx s) = 0.
Proof. intros Hr. apply (minv_idle s Hi). by left. Qed.

Lemma mutex_set_owner_inv :
  mpc (ths s t) = SetOwner ->
  minv (mk_run (if is_recursive (mtx s) then set_owner t (mtx s) else mtx s)
               (<[t := mk_thread Idle (depth (ths s t) + 1)]> (ths s))).
Proof.
  intros E. pose proof (minv_threads s Hi t Ht) as [K1 K2 K3 K4 K5 K6 K7]. unfold pc_ok in K3. rewrite E in *.
  pose proof plain_count as Hplain.
  assert (holds (ths s t)) as Hh by (by right). pose proof (held_flag s t Hi Hh) as Hf.
  pose proof (minv_flag s Hi) as Hfr.
  assert (recursion_count (mtx s) = 0) as Hc.
  { apply (minv_idle s Hi). right. intros u. destruct (decide (u = t)) as [->|Hne]; [lia|].
    destruct (Z.lt_ge_cases 0 (depth (ths s u))); [|done]. destruct (sole_holder s t u Hi Hh Hne). by left. }
  rewrite K3. destruct (is_recursive (mtx s)) eqn:Hr; apply mutex_holder_inv; simpl; rewrite ?E, ?Hr;
    try done; fields; rewrite ?Hr; try done; destruct (K7 H); congruence.
Qed.

Lemma mutex_release_inv :
  mpc (ths s t) = Release -> is_recursive (mtx s) = false \/ recursion_count (mtx s) <= 0 ->
  minv (mk_run (if is_recursive (mtx s) then set_owner 0 (mtx s) else mtx s)
               (<[t := mk_thread Subtract (depth (ths s t))]> (ths s))).
Proof.
  intros E Hcase. pose proof (minv_threads s Hi t Ht) as [K1 K2 K3 K4 K5 K6 K7]. unfold pc_ok in K3. rewrite E in *.
  pose proof plain_count as Hplain.
  assert (holds (ths s t)) as Hh by (by left). pose proof (held_flag s t Hi Hh) as Hf.
  pose proof (minv_flag s Hi) as Hfr.
  assert (depth (ths s t) = 1) as Hd1.
  { destruct (is_recursive (mtx s)); [specialize (K5 eq_refl K3)|specialize (K4 eq_refl)]; destruct Hcase; try done; lia. }
  rewrite Hd1. destruct (is_recursive (mtx s)) eqn:Hr; apply mutex_holder_inv; simpl; rewrite ?E, ?Hr;
    try done; fields; rewrite ?Hr; try done; try (destruct (K7 H); congruence).
Qed.

Lemma mutex_subtract_inv :
  mpc (ths s t) = Subtract ->
  minv (mk_run (set_flag (u32 (flag (mtx s) - 1)) (mtx s))
    (<[t := if flag (mtx s) =? 1 then mk_thread Idle (depth (ths s t) - 1)
            else mk_thread StoreZero (depth (ths s t))]> (ths s))).
Proof.
  intros E. pose proof (minv_threads s Hi t Ht) as [K1 K2 K3 K4 K5 K6 K7]. unfold pc_ok in K3. rewrite E in *.
  pose proof plain_count as Hplain.
  assert (0 < depth (ths s t)) as Hd by lia.
  assert (holds (ths s t)) as Hh by (by left). pose proof (held_flag s t Hi Hh) as Hf.
  pose proof (minv_flag s Hi) as Hfr. simpl in K6. rewrite u32_small by lia.
  destruct (Z.eqb_spec (flag (mtx s)) 1), (is_recursive (mtx s)) eqn:Hr; apply mutex_holder_inv; simpl;
    rewrite ?E, ?Hr; try done; fields; rewrite ?K5 by (done || lia); try lia.
Qed.

Lemma mutex_store_inv :
  mpc (ths s t) = StoreZero ->
  minv (mk_run (set_flag 0 (mtx s)) (<[t := mk_thread WakeWaiters (depth (ths s t) - 1)]> (ths s))).
Proof.
  intros E. pose proof (minv_threads s Hi t Ht) as [K1 K2 K3 K4 K5 K6 K7]. unfold pc_ok in K3. rewrite E in *.
  pose proof plain_count as Hplain.
  assert (0 < depth (ths s t)) as Hd by lia.
  assert (holds (ths s t)) as Hh by (by left). simpl in K6.
  destruct (is_recursive (mtx s)) eqn:Hr; apply mutex_holder_inv; simpl; rewrite ?E, ?Hr; try done; fields;
    rewrite ?K5 by (done || lia); try lia.
Qed.
End Holder.

Lemma mutex_try_inv s t spurious :
  minv s -> t ≠ 0 -> mpc (ths s t) = TryLock -> minv (mutex_run t spurious s).
Proof.
  intros Hi Ht E. pose proof (minv_threads s Hi t Ht) as [K1 K2 K3 K4 K5 K6 K7].
  unfold mutex_run, mutex_access. rewrite E in *.
  destruct (negb spurious && (flag (mtx s) =? unlocked)) eqn:E0.
  - unfold unlocked in E0. apply mutex_acquire_inv; auto; lia.
  - apply minv_quiet; simpl; rewrite ?E; try done. split; simpl; try done. intros _. by apply K2; left.
Qed.

Lemma mutex_nested_inv s t spurious st :
  minv s -> t ≠ 0 -> mpc (ths s t) = Owner st -> is_recursive (mtx s) && (owner (mtx s) =? t) = true ->
  minv (mutex_run t spurious s).
Proof.
  intros Hi Ht E Hq. pose proof (minv_threads s Hi t Ht) as [K1 K2 K3 K4 K5 K6 K7].
  unfold mutex_run, mutex_access. rewrite E, Hq in *. apply andb_true_iff in Hq as [Hr Ho].
  destruct (K7 ltac:(lia)) as [_ Hd]. rewrite (K5 Hr Hd).
  replace (depth (ths s t) - 1 + 1) with (depth (ths s t) + 1 - 1) by lia.
  assert (depth (ths s t) < 2 ^ 30) by (apply K2; right; by eexists).
  apply mutex_recurse_inv; rewrite ?E; try done. lia.
Qed.

Lemma mutex_run_inv s t spurious : minv s -> t ≠ 0 -> minv (mutex_run t spurious s).
Proof.
  intros Hi Ht. destruct (moves_only (mtx s) (ths s t) t) eqn:Hq; [by apply mutex_quiet_inv|].
  unfold moves_only in Hq. destruct (mpc (ths s t)) eqn:E; try done.
  - by apply mutex_try_inv.
  - apply negb_false_iff in Hq. by eapply mutex_nested_inv.
  - unfold mutex_run, mutex_access. rewrite E. unfold unlocked, locked_waiters.
    destruct (Z.eqb_spec (flag (mtx s)) 0); [apply mutex_acquire_inv; auto|by apply mutex_mark_inv].
  - unfold mutex_run, mutex_access. rewrite E. by apply mutex_set_owner_inv.
  - pose proof (minv_threads s Hi t Ht) as [K1 K2 K3 K4 K5 K6 K7]. unfold pc_ok in K3. rewrite E in K3.
    pose proof (mutex_release_inv s t Hi Ht E) as Hrel. unfold mutex_run, mutex_access. rewrite E.
    destruct (is_recursive (mtx s)) eqn:Hr; [|apply Hrel; by left].
    destruct (Z.ltb_spec 0 (recursion_count (mtx s))) as [Hn|Hn]; [|apply Hrel; by right].
    rewrite (K5 eq_refl K3) in *. apply mutex_recurse_inv; rewrite ?E; try done; lia.
  - pose proof (mutex_subtract_inv s t Hi Ht E) as Hsub. unfold mutex_run, mutex_access. rewrite E.
    unfold locked_no_waiters. by destruct (flag (mtx s) =? 1).
  - unfold mutex_run, mutex_access. rewrite E. by apply mutex_store_inv.
  - unfold mutex_run, mutex_access. rewrite E. by apply mutex_wake_inv.
Qed.

Lemma mutex_reachable_inv recursive s : mutex_reachable recursive s -> minv s.
Proof.
  intros Hr. refine (rtc_preserves mutex_step minv _ _ _ Hr (mutex_init_inv recursive)).
  intros _ _ [s' t Ht Hp Hd|s' t Ht Hp Hd|s' t sp Ht] Hi; [apply mutex_goto_inv; auto|apply mutex_goto_inv; auto|].
  by apply mutex_run_inv.
Qed.

Lemma step_recursive s s' : mutex_step s s' -> is_recursive (mtx s') = is_recursive (mtx s).
Proof.
  intros [s1 t|s1 t|s1 t sp _]; try done. unfold mutex_run, mutex_access.
  destruct (mpc (ths s1 t)); simpl; repeat case_match; simplify_eq; done.
Qed.

Lemma reachable_recursive recursive s :
  mutex_reachable recursive s -> is_recursive (mtx s) = truthy recursive.
Proof.
  intros Hr. refine (rtc_preserves mutex_step (fun s => is_recursive (mtx s) = truthy recursive) _ _ _ Hr eq_refl).
  intros s1 s2 Hs <-. by apply step_recursive.
Qed.

(** *** Theorems *)

(** C15. Mutual exclusion: in every interleaving, recursive mutex or not, spurious
    failures included, at most one thread has the lock, the flag says whether
    some thread has it, and a mutex that is not recursive is held once. *)
Theorem mutex_excludes recursive s t u :
  mutex_reachable recursive s -> holds (ths s t) -> holds (ths s u) ->
  t = u /\ flag (mtx s) ≠ unlocked /\ (recursive = 0 -> depth (ths s t) <= 1).
Proof.
  intros Hr Ht Hu. pose proof (mutex_reachable_inv recursive s Hr) as Hi.
  split; [by apply (minv_excl s Hi)|]. split; [by apply (held_flag s t)|]. intros ->.
  pose proof (reachable_recursive 0 s Hr) as Hn. destruct (decide (t = 0)) as [->|Hne].
  - rewrite (minv_zero s Hi). simpl. lia.
  - by apply (ok_once _ _ _ (minv_threads s Hi t Hne)).
Qed.

(** A recursive mutex counts its locks: while a thread holds it and is not
    releasing it, the owner is that thread and the recursion count is the number
    of its locks less one, so that the matching number of unlocks frees it. *)
Theorem mutex_recursion recursive s t :
  recursive ≠ 0 -> mutex_reachable recursive s -> 0 < depth (ths s t) ->
  recursion_count (mtx s) = depth (ths s t) - 1 /\
  owner (mtx s) = if unlocking (mpc (ths s t)) then 0 else t.
Proof.
  intros Hrec Hr Hd. pose proof (mutex_reachable_inv recursive s Hr) as Hi.
  assert (t ≠ 0) as Ht by (intros ->; rewrite (minv_zero s Hi) in Hd; simpl in Hd; lia).
  assert (is_recursive (mtx s) = true) as Hb.
  { rewrite (reachable_recursive recursive s Hr). unfold truthy. by apply negb_true_iff, Z.eqb_neq. }
  pose proof (minv_threads s Hi t Ht) as Hok.
  split; [by apply (ok_count _ _ _ Hok)|by apply (ok_owner _ _ _ Hok)].
Qed.

(** C28. No wake-up is lost: whenever a thread sleeps in [mutex_lock], either the
    mutex is held and marked as having waiters, so that its holder will wake
    them when it unlocks, or some thread is in [mutex_unlock] on its way to wake
    all sleepers. *)
Theorem mutex_no_lost_wakeup recursive s t :
  mutex_reachable recursive s -> mpc (ths s t) = Sleeping ->
  flag (mtx s) = locked_waiters /\ (exists u, holds (ths s u)) \/
  exists u, mpc (ths s u) = StoreZero \/ mpc (ths s u) = WakeWaiters.
Proof.
  intros Hr Ht. pose proof (mutex_reachable_inv recursive s Hr) as Hi.
  destruct (minv_sleep s Hi t Ht) as [E|Hu]; [left|by right].
  split; [done|]. apply (minv_held s Hi). lia.
Qed.

(** Thread 1 holds the mutex twice, thread 2 sleeps for it. *)
Definition mutex_runs_to (n : nat) (t : Z) (s : mutex_run_state) : mutex_run_state :=
  Nat.iter n (mutex_run t false) s.
Definition nested : mutex_run_state :=
  mutex_runs_to 2 1 (goto 1 TryLock (mutex_runs_to 2 1 (goto 1 TryLock (mutex_init 1)))).
Definition contended : mutex_run_state := mutex_runs_to 4 2 (goto 2 TryLock nested).

Lemma runs_reachable recursive n t s :
  t ≠ 0 -> mutex_reachable recursive s -> mutex_reachable recursive (mutex_runs_to n t s).
Proof.
  intros Ht Hr. induction n as [|n IH]; [done|]. eapply rtc_r; [exact IH|]. by apply mutex_runs.
Qed.

Lemma nested_run : mutex_reachable 1 nested.
Proof.
  apply runs_reachable; [done|]. eapply rtc_r; [|by apply mutex_lock].
  apply runs_reachable; [done|]. eapply rtc_r; [apply rtc_refl|by apply mutex_lock].
Qed.

Lemma mutex_contended_run : mutex_reachable 1 contended.
Proof.
  apply runs_reachable; [done|]. eapply rtc_r; [apply nested_run|by apply mutex_lock].
Qed.

Lemma mutex_excludes_witness :
  1 = 1 /\ flag (mtx contended) ≠ unlocked /\ (1 = 0 -> depth (ths contended 1) <= 1).
Proof.
  apply (mutex_excludes 1 contended 1 1); [apply mutex_contended_run|left; reflexivity|left; reflexivity].
Defined.

Lemma mutex_recursion_witness :
  recursion_count (mtx contended) = depth (ths contended 1) - 1 /\
  owner (mtx contended) = if unlocking (mpc (ths contended 1)) then 0 else 1.
Proof. apply (mutex_recursion 1 contended 1); [done|apply mutex_contended_run|reflexivity]. Defined.

Lemma mutex_no_lost_wakeup_witness :
  flag (mtx contended) = locked_waiters /\ (exists u, holds (ths contended u)) \/
  exists u, mpc (ths contended u) = StoreZero \/ mpc (ths contended u) = WakeWaiters.
Proof. apply (mutex_no_lost_wakeup 1 contended 2); [apply mutex_contended_run|reflexivity]. Defined.

End Mutex.
