(* ===== verification/KernelTimer.v ===== *)
(** * KernelTimer: the timers that LKL runs on (src/lkl/posix-host.c)

    A timer has a thread of its own, which sleeps on a futex with a timeout and
    runs the callback.  The code between taking and releasing the timer's mutex
    is one step (KernelLocks shows that the mutex excludes); the wait is a step
    of its own, after the mutex was released, and so is the call of the callback,
    of which all that matters here is how it sets the timer again. *)

From S2P Require Import Prelude.

(** ** State *)

(** The thread of the timer.  [Released]: it has released the mutex and is about
    to wait, having read [wake]; [Waiting]: it sleeps; [Returned]: the wait has
    returned, with a timeout or not. *)
Inductive timer_thread : Type :=
| NoThread
| Started
| Released (wake timeout_ns : Z)
| Waiting (timeout_ns : Z)
| Returned (did_timeout : bool)
| Exited.

Record sgxlkl_timer : Type := mk_timer {
  delay_ns : Z; next_delay_ns : Z; wake : Z; armed : bool; thread : timer_thread }.

Definition with_delay (d n : Z) (t : sgxlkl_timer) : sgxlkl_timer :=
  mk_timer d n (wake t) (armed t) (thread t).
Definition with_thread (th : timer_thread) (t : sgxlkl_timer) : sgxlkl_timer :=
  mk_timer (delay_ns t) (next_delay_ns t) (wake t) (armed t) th.

Definition timer_alloc : sgxlkl_timer := mk_timer 0 0 0 false NoThread.

(** [enclave_futex_wake]: a sleeping timer thread returns without a timeout. *)
Definition woken (th : timer_thread) : timer_thread :=
  match th with Waiting _ => Returned false | _ => th end.

(** ** timer_set_oneshot *)

(** Called from the callback, by the timer's own thread; [ns] is an unsigned
    long. *)
Definition set_in_callback (ns : Z) (t : sgxlkl_timer) : Z * sgxlkl_timer :=
  if armed t then
    (0, if truthy (next_delay_ns t)
        then if ns <? next_delay_ns t then with_delay (delay_ns t) ns t else t
        else with_delay (delay_ns t) ns t)
  else (-1, t).

(** Called by another thread, with the mutex. *)
Definition set_by_other (ns : Z) (t : sgxlkl_timer) : Z * sgxlkl_timer :=
  (0, if armed t then
        mk_timer ns (next_delay_ns t) (s32 (wake t + 1)) true (woken (thread t))
      else mk_timer ns 0 (wake t) true Started).

(** ** timer_free: disarms the timer and wakes its thread; the caller then joins
    the thread and frees the timer. *)
Definition timer_free (t : sgxlkl_timer) : sgxlkl_timer :=
  if armed t then
    mk_timer (delay_ns t) (next_delay_ns t) (s32 (wake t + 1)) false (woken (thread t))
  else t.

(** ** timer_callback *)

(** The head of the loop, up to the release of the mutex. *)
Definition loop_head (t : sgxlkl_timer) : sgxlkl_timer :=
  if delay_ns t <=? 0 then with_thread Exited t
  else with_thread (Released (wake t) (delay_ns t)) t.

(** [enclave_futex_timedwait]: goes to sleep only if the counter is unchanged. *)
Definition futex_timedwait (w ns : Z) (t : sgxlkl_timer) : sgxlkl_timer :=
  with_thread (if wake t =? w then Waiting ns else Returned false) t.

(** The callback, which sets the timer to each of [sets] in turn. *)
Definition run_callback_sets (sets : list Z) (t : sgxlkl_timer) : sgxlkl_timer :=
  foldl (fun t ns => (set_in_callback ns t).2) t sets.

(** The rest of the round, with the mutex, and the test of the loop. *)
Definition loop_rest (did_timeout : bool) (sets : list Z) (t : sgxlkl_timer) : sgxlkl_timer :=
  if armed t then
    let t :=
      if did_timeout then
        let t := run_callback_sets sets (with_delay (delay_ns t) 0 t) in
        if truthy (next_delay_ns t) then with_delay (next_delay_ns t) 0 t else t
      else t in
    if armed t then loop_head t else with_thread Exited t
  else with_thread Exited t.

(** ** Steps, with the number of calls that changed [wake]

    A timer is not set any more after [timer_free]. *)

Definition ulong (z : Z) : Prop := 0 <= z < 2 ^ 64.

Inductive timer_step : sgxlkl_timer * Z -> sgxlkl_timer * Z -> Prop :=
| step_set t n ns :
    ulong ns -> (armed t = false -> thread t = NoThread) ->
    timer_step (t, n) ((set_by_other ns t).2, n + int_of_bool (armed t))
| step_free t n : timer_step (t, n) (timer_free t, n + int_of_bool (armed t))
| step_start t n : thread t = Started -> timer_step (t, n) (loop_head t, n)
| step_wait t n w ns : thread t = Released w ns -> timer_step (t, n) (futex_timedwait w ns t, n)
| step_timeout t n ns : thread t = Waiting ns -> timer_step (t, n) (with_thread (Returned true) t, n)
| step_return t n b sets :
    thread t = Returned b -> Forall ulong sets -> timer_step (t, n) (loop_rest b sets t, n).

Definition timer_reachable (s : sgxlkl_timer * Z) : Prop := rtc timer_step (timer_alloc, 0) s.

(** ** The invariant *)

Record timer_inv (t : sgxlkl_timer) (n : Z) : Prop := {
  ti_count : 0 <= n;
  ti_wake : wake t = s32 n;
  ti_released : forall w d, thread t = Released w d ->
    exists g, 0 <= g <= n /\ w = s32 g /\ (g = n -> d = delay_ns t);
  ti_waiting : forall d, thread t = Waiting d -> d = delay_ns t
}.

Lemma swrap_inj w a b : 0 < w -> 0 <= a <= b -> b < 2 ^ w -> swrap w a = swrap w b -> a = b.
Proof.
  intros Hw Ha Hb E. unfold swrap in E. apply (wrap_inj_shift w (2 ^ (w - 1)) a b); [lia|lia|].
  unfold wrap. rewrite (Z.add_comm _ a), (Z.add_comm _ b). lia.
Qed.

Lemma swrap_add_swrap w a b : 0 < w -> swrap w (swrap w a + b) = swrap w (a + b).
Proof.
  intros Hw. unfold swrap. f_equal.
  replace ((a + 2 ^ (w - 1)) mod 2 ^ w - 2 ^ (w - 1) + b + 2 ^ (w - 1))
    with ((a + 2 ^ (w - 1)) mod 2 ^ w + b) by lia.
  rewrite Zplus_mod_idemp_l. f_equal. lia.
Qed.

Lemma loop_head_inv t n : timer_inv t n -> timer_inv (loop_head t) n.
Proof.
  intros [H1 H2 H3 H4]. unfold loop_head. destruct (delay_ns t <=? 0); split; simpl; try done.
  intros w d [= <- <-]. exists n. split; [lia|done].
Qed.

(** What the callback and the rest of the round leave alone. *)
Lemma callback_frame sets t :
  let t' := run_callback_sets sets t in
  wake t' = wake t /\ armed t' = armed t /\ delay_ns t' = delay_ns t /\ thread t' = thread t.
Proof.
  simpl. unfold run_callback_sets. revert t. induction sets as [|x sets IH]; intros t; [done|]. simpl.
  destruct (IH (set_in_callback x t).2) as (-> & -> & -> & ->). unfold set_in_callback.
  repeat case_match; done.
Qed.

Lemma loop_rest_inv t n b sets :
  timer_inv t n -> thread t = Returned b -> timer_inv (loop_rest b sets t) n.
Proof.
  intros Hi Ht. pose proof Hi as [H1 H2 H3 H4].
  unfold loop_rest. destruct (armed t) eqn:Ha; [|split; simpl; done].
  set (t1 := run_callback_sets sets (with_delay (delay_ns t) 0 t)).
  destruct (callback_frame sets (with_delay (delay_ns t) 0 t)) as (E1 & E2 & E3 & E4). fold t1 in E1, E2, E3, E4.
  simpl in *. destruct b.
  - assert (timer_inv t1 n /\ armed t1 = true) as [Hi1 Ha1].
    { split; [|congruence]. split; rewrite ?E1, ?E4, ?Ht; done. }
    destruct (truthy (next_delay_ns t1)); simpl; rewrite Ha1; [|by apply loop_head_inv].
    apply loop_head_inv. destruct Hi1 as [J1 J2 J3 J4]. split; simpl; try done; by rewrite E4, Ht.
  - rewrite Ha. by apply loop_head_inv.
Qed.

Lemma wake_step_inv t n d x a :
  timer_inv t n -> timer_inv (mk_timer d x (s32 (wake t + 1)) a (woken (thread t))) (n + 1).
Proof.
  intros [H1 H2 H3 H4]. split; simpl; [lia|..].
  - rewrite H2. apply swrap_add_swrap. lia.
  - destruct (thread t); try done. simpl. intros w' d' [= <- <-].
    destruct (H3 _ _ eq_refl) as (g & Hg & -> & _). exists g. split; [lia|]. split; [done|lia].
  - by destruct (thread t).
Qed.

Lemma timer_step_inv t n t' n' :
  timer_step (t, n) (t', n') -> n' < 2 ^ 32 -> timer_inv t n -> timer_inv t' n'.
Proof.
  intros Hs Hn Hi. pose proof Hi as [H1 H2 H3 H4].
  inversion Hs as [? ? ns Hns Hg|? ?|? ? Ht|? ? w d Ht|? ? d Ht|? ? b sets Ht Hsets]; subst.
  - unfold set_by_other. simpl. destruct (armed t) eqn:Ha; simpl.
    + by apply wake_step_inv.
    + rewrite Z.add_0_r. split; simpl; done.
  - unfold timer_free. destruct (armed t) eqn:Ha; simpl.
    + by apply wake_step_inv.
    + by rewrite Z.add_0_r.
  - by apply loop_head_inv.
  - destruct (H3 w d Ht) as (g & Hg & -> & Hnow). unfold futex_timedwait. rewrite H2.
    destruct (Z.eqb_spec (s32 n') (s32 g)) as [E|]; split; simpl; try done.
    intros d' [= <-]. apply Hnow. apply (swrap_inj 32); lia || done.
  - split; simpl; done.
  - by apply loop_rest_inv.
Qed.

Lemma timer_step_count s s' : timer_step s s' -> s.2 <= s'.2.
Proof. intros []; simpl; try lia; destruct (armed t); simpl; lia. Qed.

Lemma timer_reachable_inv t n : timer_reachable (t, n) -> n < 2 ^ 32 -> timer_inv t n.
Proof.
  intros Hr.
  refine (rtc_preserves timer_step (fun s => s.2 < 2 ^ 32 -> timer_inv s.1 s.2) _ _ _ Hr _).
  - intros [t1 n1] [t2 n2] Hs IH Hn. pose proof (timer_step_count _ _ Hs). simpl in *.
    eapply timer_step_inv; [exact Hs|done|]. apply IH. lia.
  - intros _. by split.
Qed.

(** ** Theorems *)

(** The timer thread never sleeps with an outdated delay: while fewer than
    2^32 calls have set or freed the timer, whenever its thread sleeps in the
    futex its timeout is the delay that was set last. *)
Theorem timer_sleeps_current t n d :
  timer_reachable (t, n) -> n < 2 ^ 32 -> thread t = Waiting d -> d = delay_ns t.
Proof. intros Hr Hn Ht. by apply (ti_waiting _ _ (timer_reachable_inv t n Hr Hn)). Qed.

(** The delays of a callback: the smallest counts. *)
Lemma callback_minimum sets t :
  armed t = true -> 0 <= next_delay_ns t -> Forall (fun ns => 0 < ns) sets ->
  next_delay_ns (run_callback_sets sets t) =
    foldl (fun m ns => if truthy m then Z.min m ns else ns) (next_delay_ns t) sets.
Proof.
  unfold run_callback_sets. intros Ha Hn Hs. revert t Ha Hn.
  induction Hs as [|x sets Hx _ IH]; intros t Ha Hn; [done|]. simpl.
  assert (armed (set_in_callback x t).2 = true /\
          next_delay_ns (set_in_callback x t).2 = if truthy (next_delay_ns t) then Z.min (next_delay_ns t) x else x)
    as [Ha' En].
  { unfold set_in_callback. rewrite Ha. destruct (truthy (next_delay_ns t)); simpl; [|done].
    destruct (Z.ltb_spec x (next_delay_ns t)); simpl; (split; [done|lia]). }
  rewrite IH; [by rewrite En|done|]. rewrite En. destruct (truthy _); lia.
Qed.

Lemma fold_minimum sets m :
  0 < m -> Forall (fun ns => 0 < ns) sets ->
  let r := foldl (fun m ns => if truthy m then Z.min m ns else ns) m sets in
  r ∈ m :: sets /\ Forall (fun x => r <= x) (m :: sets).
Proof.
  simpl. intros Hm Hs. revert m Hm. induction Hs as [|x sets Hx _ IH]; intros m Hm; simpl.
  - split; [left|]. repeat constructor. lia.
  - assert (truthy m = true) as -> by (unfold truthy; lia).
    destruct (IH (Z.min m x) ltac:(lia)) as [Hin Hle]. apply Forall_cons in Hle as [H0 Hle].
    set (r := foldl _ _ _) in *. split.
    + apply elem_of_cons in Hin as [->|Hin]; [|right; by right].
      destruct (Z.min_spec m x) as [[_ ->]|[_ ->]]; [left|right; left].
    + constructor; [lia|]. constructor; [lia|done].
Qed.

(** After a timeout the callback may set its own timer several times: the
    thread then waits for the shortest of the delays, whatever it waited for
    before. *)
Theorem timer_callback_minimum t ns sets :
  armed t = true -> Forall (fun ns => 0 < ns) (ns :: sets) ->
  exists d, d ∈ ns :: sets /\ Forall (fun x => d <= x) (ns :: sets) /\
    thread (loop_rest true (ns :: sets) t) = Released (wake t) d.
Proof.
  intros Ha Hs. unfold loop_rest. rewrite Ha.
  set (t0 := with_delay (delay_ns t) 0 t). set (t1 := run_callback_sets (ns :: sets) t0).
  destruct (callback_frame (ns :: sets) t0) as (E1 & E2 & E3 & E4). fold t1 in E1, E2, E3, E4.
  assert (next_delay_ns t1 = foldl (fun m ns => if truthy m then Z.min m ns else ns) ns sets) as En.
  { unfold t1. by rewrite callback_minimum. }
  apply Forall_cons in Hs as [Hns Hs]. destruct (fold_minimum sets ns Hns Hs) as [Hin Hle].
  rewrite <- En in Hin, Hle. exists (next_delay_ns t1). split; [done|]. split; [done|].
  assert (0 < next_delay_ns t1) as Hpos.
  { assert (Forall (fun x => 0 < x) (ns :: sets)) as Hall by (by constructor).
    rewrite Forall_forall in Hall. by apply Hall. }
  assert (truthy (next_delay_ns t1) = true) as -> by (unfold truthy; lia).
  cbn [with_delay armed]. assert (armed t1 = true) as -> by (by rewrite E2). unfold loop_head.
  cbn [with_delay delay_ns]. rewrite (proj2 (Z.leb_gt _ _)) by done. simpl. by rewrite E1.
Qed.

(** A timer that was set once keeps firing: after a timeout, if the callback
    does not set it again, the thread waits for the same delay once more. *)
Theorem timer_oneshot_repeats t n d :
  timer_reachable (t, n) -> n < 2 ^ 32 -> thread t = Waiting d -> armed t = true -> 0 < d ->
  rtc timer_step (t, n) (with_thread (Waiting d) (with_delay (delay_ns t) 0 t), n).
Proof.
  intros Hr Hn Ht Ha Hd. pose proof (timer_reachable_inv t n Hr Hn) as [H1 H2 H3 H4].
  specialize (H4 d Ht). subst d. set (t1 := with_thread (Returned true) t).
  eapply rtc_l; [apply (step_timeout t n (delay_ns t)); done|]. fold t1.
  eapply rtc_l; [apply (step_return t1 n true []); done|].
  assert (loop_rest true [] t1 =
    with_thread (Released (wake t) (delay_ns t)) (with_delay (delay_ns t) 0 t)) as ->.
  { unfold loop_rest, t1. simpl. rewrite Ha. simpl. unfold loop_head. simpl.
    by rewrite (proj2 (Z.leb_gt _ _)) by done. }
  eapply rtc_l; [eapply step_wait; done|]. unfold futex_timedwait. simpl. rewrite Z.eqb_refl. apply rtc_refl.
Qed.

(** A delay of 0 kills the timer: its thread leaves the loop but the timer
    stays armed, so that no later call starts a thread again and the callback
    never runs. *)
Theorem timer_zero_delay_dead s :
  rtc timer_step (loop_head (set_by_other 0 timer_alloc).2, 0) s -> thread s.1 = Exited.
Proof.
  intros Hr. cut (thread s.1 = Exited /\ thread s.1 ≠ NoThread); [by intros [? _]|].
  refine (rtc_preserves timer_step (fun s => thread s.1 = Exited /\ thread s.1 ≠ NoThread) _ _ _ Hr _); [|done].
  intros _ _ [t n ns _ Hg|t n|t n Ht|t n w d Ht|t n d Ht|t n b sets Ht _] [He Hn]; simpl in *; try congruence.
  - destruct (armed t) eqn:Ha; simpl; [by rewrite He|]. by rewrite Hg in He.
  - unfold timer_free. destruct (armed t); simpl; [by rewrite He|done].
Qed.

(** Freeing a timer whose thread has not started yet waits for the delay:
    the thread reads the counter after [timer_free] has changed it and sleeps
    although the timer is disarmed. *)
Theorem timer_free_waits d :
  0 < d < 2 ^ 64 ->
  exists t n, timer_reachable (t, n) /\ armed t = false /\ thread t = Waiting d.
Proof.
  intros Hd. exists (mk_timer d 0 1 false (Waiting d)), 1. split; [|done].
  unfold timer_reachable. eapply rtc_l; [apply (step_set _ _ d); [unfold ulong; lia|done]|].
  eapply rtc_l; [apply step_free|]. eapply rtc_l; [by apply step_start|].
  unfold loop_head. simpl. rewrite (proj2 (Z.leb_gt _ _)) by lia.
  eapply rtc_l; [by eapply step_wait|]. apply rtc_refl.
Qed.

(** A timer set to 5, its thread asleep. *)
Definition ticking : sgxlkl_timer :=
  futex_timedwait 0 5 (loop_head (set_by_other 5 timer_alloc).2).

Lemma ticking_run : timer_reachable (ticking, 0).
Proof.
  unfold timer_reachable. eapply rtc_l; [apply (step_set _ _ 5); [unfold ulong; lia|done]|].
  eapply rtc_l; [by apply step_start|]. eapply rtc_l; [by eapply step_wait|]. apply rtc_refl.
Qed.

Lemma timer_sleeps_current_witness : 5 = delay_ns ticking.
Proof. apply (timer_sleeps_current ticking 0); [apply ticking_run|lia|reflexivity]. Defined.

Lemma timer_callback_minimum_witness :
  exists d, d ∈ [7; 3; 9] /\ Forall (fun x => d <= x) [7; 3; 9] /\
    thread (loop_rest true [7; 3; 9] ticking) = Released (wake ticking) d.
Proof. apply (timer_callback_minimum ticking 7 [3; 9]); [reflexivity|repeat constructor; lia]. Defined.

Lemma timer_oneshot_repeats_witness :
  rtc timer_step (ticking, 0) (with_thread (Waiting 5) (with_delay (delay_ns ticking) 0 ticking), 0).
Proof.
  apply (timer_oneshot_repeats ticking 0 5); [apply ticking_run|lia|reflexivity|reflexivity|lia].
Defined.

Lemma timer_zero_delay_dead_witness :
  thread (set_by_other 9 (loop_head (set_by_other 0 timer_alloc).2)).2 = Exited.
Proof.
  apply (timer_zero_delay_dead ((set_by_other 9 (loop_head (set_by_other 0 timer_alloc).2)).2, 1)).
  eapply rtc_l; [apply (step_set _ _ 9); [unfold ulong; lia|done]|]. apply rtc_refl.
Defined.

Lemma timer_free_waits_witness :
  exists t n, timer_reachable (t, n) /\ armed t = false /\ thread t = Waiting 1000000000.
Proof. apply (timer_free_waits 1000000000). lia. Defined.
