(* ===== verification/EnclaveTimer.v ===== *)
(** * EnclaveTimer: the enclave's clock (src/enclave/enclave_timer.c)

    [enclave_nanos] combines the time that the host writes into shared memory
    with a counter inside the enclave.  Any number of threads call it; each
    atomic access is a step, and the host may write any time at any moment. *)

From stdpp Require Import functions.
From S2P Require Import Prelude.

(** ** One call *)

(** [ReadExternal]: at the start; [ReadInternal e]: before the load of the
    counter; [Swap e i]: before the compare-and-swap; [Bump]: before the
    fetch-and-add; [Answer v]: the call has returned [v]. *)
Inductive clock_pc : Type :=
| ReadExternal | ReadInternal (e : Z) | Swap (e i : Z) | Bump | Answer (v : Z).

(** One access: [nanos] is the host's time, [c] the internal counter. *)
Definition enclave_nanos (nanos c : Z) (p : clock_pc) : Z * clock_pc :=
  match p with
  | ReadExternal => (c, ReadInternal nanos)
  | ReadInternal e => (c, if c <? e then Swap e c else Bump)
  | Swap e i => if c =? i then (e, Answer e) else (c, Answer c)
  | Bump => (u64 (c + 1), Answer c)
  | Answer v => (c, Answer v)
  end.

(** A call alone. *)
Definition nanos_alone (nanos c : Z) : Z * clock_pc :=
  Nat.iter 3 (fun '(c, p) => enclave_nanos nanos c p) (c, ReadExternal).

(** ** Many threads and the host *)

(** [floor t]: the counter when the current or last call of [t] began. *)
Record clock : Type := mk_clock {
  host_time : Z; internal_counter : Z; calls : Z -> clock_pc; floor : Z -> Z }.

Definition clock_run (t : Z) (s : clock) : clock :=
  let '(c, p) := enclave_nanos (host_time s) (internal_counter s) (calls s t) in
  mk_clock (host_time s) c (<[t := p]> (calls s)) (floor s).

Definition begin_call (t : Z) (s : clock) : clock :=
  mk_clock (host_time s) (internal_counter s) (<[t := ReadExternal]> (calls s))
    (<[t := internal_counter s]> (floor s)).

Inductive clock_step : clock -> clock -> Prop :=
| clock_host s n : 0 <= n < 2 ^ 64 -> clock_step s (mk_clock n (internal_counter s) (calls s) (floor s))
| clock_call s t :
    (exists v, calls s t = Answer v) ->
    clock_step s (begin_call t s)
| clock_runs s t : clock_step s (clock_run t s).

(** Steps in which the counter does not wrap around. *)
Definition clock_forward (s s' : clock) : Prop :=
  clock_step s s' /\ internal_counter s < 2 ^ 64 - 1.

Definition clock_init (n : Z) : clock := mk_clock n 0 (fun _ => Answer 0) (fun _ => 0).

(** ** The counter never goes back *)

Record clock_inv (s : clock) : Prop := {
  ci_range : 0 <= internal_counter s < 2 ^ 64 /\ 0 <= host_time s < 2 ^ 64;
  ci_floor : forall t, floor s t <= internal_counter s;
  ci_read : forall t e, calls s t = ReadInternal e -> 0 <= e < 2 ^ 64;
  ci_swap : forall t e i, calls s t = Swap e i -> floor s t <= i < e /\ i <= internal_counter s /\ e < 2 ^ 64;
  ci_answer : forall t v, calls s t = Answer v -> floor s t <= v <= internal_counter s
}.

Ltac call u t :=
  destruct (decide (u = t)) as [->|?]; [rewrite ?fn_lookup_insert in *|rewrite ?fn_lookup_insert_ne in * by done].

Lemma begin_call_inv t s : clock_inv s -> clock_inv (begin_call t s).
Proof.
  intros [Hr Hfl Hrd Hsw Ha]. split; simpl; try done.
  - intros u. call u t; [lia|apply Hfl].
  - intros u e. call u t; [done|apply Hrd].
  - intros u e i. call u t; [done|apply Hsw].
  - intros u w. call u t; [done|apply Ha].
Qed.

Lemma clock_step_inv s s' :
  clock_forward s s' -> clock_inv s -> clock_inv s' /\ internal_counter s <= internal_counter s'.
Proof.
  intros [Hs Hf] Hi. pose proof Hi as [Hr Hfl Hrd Hsw Ha]. destruct Hs as [s n Hn|s t _|s t].
  - split; [|done]. split; simpl; try done. lia.
  - split; [by apply begin_call_inv|done].
  - unfold clock_run. destruct (enclave_nanos (host_time s) (internal_counter s) (calls s t)) as [c p] eqn:E.
    assert (internal_counter s <= c < 2 ^ 64 /\
      (forall e, p = ReadInternal e -> 0 <= e < 2 ^ 64) /\
      (forall e i, p = Swap e i -> floor s t <= i < e /\ i <= c /\ e < 2 ^ 64) /\
      (forall v, p = Answer v -> floor s t <= v <= c)) as (Hc & P1 & P2 & P3).
    { specialize (Hfl t). destruct (calls s t) as [|e|e i| |v] eqn:Ht; simpl in E.
      - simplify_eq. split; [lia|]. split; [|done]. intros e [= <-]. lia.
      - specialize (Hrd t e Ht). bcase; simplify_eq; (split; [lia|]); (split; [done|]); (split; [|done]).
        + intros ? ? [= <- <-]. lia.
        + done.
      - specialize (Hsw t e i Ht). bcase; simplify_eq; (split; [lia|]); repeat (split; [done|]);
          intros ? [= <-]; lia.
      - rewrite u64_small in E by lia. simplify_eq. split; [lia|]. repeat (split; [done|]).
        intros ? [= <-]. lia.
      - specialize (Ha t v Ht). simplify_eq. split; [lia|]. repeat (split; [done|]). intros ? [= <-]. lia. }
    split; simpl; [|lia]. split; simpl.
    + lia.
    + intros u. specialize (Hfl u). lia.
    + intros u e. call u t; [apply P1|apply Hrd].
    + intros u e i. call u t; [apply P2|]. intros Hu. specialize (Hsw u e i Hu). lia.
    + intros u v. call u t; [apply P3|]. intros Hu. specialize (Ha u v Hu). lia.
Qed.

Lemma clock_run_inv s s' :
  rtc clock_forward s s' -> clock_inv s -> clock_inv s' /\ internal_counter s <= internal_counter s'.
Proof.
  intros Hr Hi.
  refine (rtc_preserves clock_forward (fun x => clock_inv x /\ internal_counter s <= internal_counter x) _ _ _ Hr _);
    [|done].
  intros x y Hs [Hx Hc]. destruct (clock_step_inv x y Hs Hx). split; [done|lia].
Qed.

Lemma clock_init_inv n : 0 <= n < 2 ^ 64 -> clock_inv (clock_init n).
Proof. intros Hn. split; simpl; try done; try lia. intros t v [= <-]. lia. Qed.

(** The clock does not run backwards, whatever the host writes: in every
    interleaving of calls and of host writes in which the counter has not
    reached its largest value, a call that begins after another call has
    returned [v] returns at least [v]. *)
Theorem nanos_monotonic n s s1 s2 t u v w :
  0 <= n < 2 ^ 64 -> rtc clock_forward (clock_init n) s -> calls s t = Answer v ->
  clock_step s s1 -> calls s1 u = ReadExternal -> calls s u ≠ ReadExternal ->
  rtc clock_forward s1 s2 -> floor s2 u = floor s1 u -> calls s2 u = Answer w -> v <= w.
Proof.
  intros Hn Hr Ht Hstep Hu Hu' Hr2 Hfl Hw.
  destruct (clock_run_inv _ _ Hr (clock_init_inv n Hn)) as [Hi _].
  pose proof (ci_answer s Hi t v Ht) as Hv.
  assert (floor s1 u = internal_counter s /\ clock_inv s1) as [Hf1 Hi1].
  { destruct Hstep as [s m Hm|s t' Ha|s t']; simpl in *.
    - done.
    - call u t'; [|done]. split; [done|by apply begin_call_inv].
    - unfold clock_run in Hu. destruct (enclave_nanos _ _ (calls s t')) as [c p] eqn:E. simpl in Hu.
      call u t'; [|done]. subst p. destruct (calls s t'); simpl in E; repeat case_match; by simplify_eq. }
  destruct (clock_run_inv _ _ Hr2 Hi1) as [Hi2 _].
  pose proof (ci_answer s2 Hi2 u w Hw). lia.
Qed.

(** Thread 1 reads the clock after thread 2 has read 10. *)
Definition clock_runs_to (n : nat) (t : Z) (s : clock) : clock := Nat.iter n (clock_run t) s.
Definition first_read : clock := clock_runs_to 3 2 (begin_call 2 (clock_init 10)).
Definition second_read : clock := clock_runs_to 3 1 (begin_call 1 first_read).

Lemma clock_runs_reach n t s s' :
  rtc clock_forward s s' -> (forall k, (k < n)%nat -> internal_counter (clock_runs_to k t s') < 2 ^ 64 - 1) ->
  rtc clock_forward s (clock_runs_to n t s').
Proof.
  intros Hr. induction n as [|n IH]; intros Hk; [done|]. eapply rtc_r; [apply IH; auto|].
  split; [apply clock_runs|]. apply Hk. lia.
Qed.

Lemma small_runs (f : nat -> Z) n m : forallb (fun k => f k <? m) (seq 0 n) = true -> forall k, (k < n)%nat -> f k < m.
Proof.
  intros H k Hk. rewrite forallb_forall in H. apply Z.ltb_lt, H. apply in_seq. lia.
Qed.

Lemma nanos_monotonic_witness : 10 <= 10.
Proof.
  apply (nanos_monotonic 10 first_read (begin_call 1 first_read) second_read 2 1).
  - lia.
  - apply clock_runs_reach.
    + eapply rtc_l; [|apply rtc_refl]. split; [apply clock_call; by eexists|simpl; lia].
    + apply small_runs. vm_compute. reflexivity.
  - vm_compute. reflexivity.
  - apply clock_call. by eexists.
  - reflexivity.
  - done.
  - apply clock_runs_reach; [apply rtc_refl|]. apply small_runs. vm_compute. reflexivity.
  - reflexivity.
  - vm_compute. reflexivity.
Defined.

(** Two readings can be equal: while the host's time stands still the second
    call returns the same value as the first, because [atomic_fetch_add] returns
    the counter before the addition; only the third one is greater. *)
Theorem nanos_repeats nanos c :
  0 <= c < nanos -> nanos < 2 ^ 64 - 2 ->
  nanos_alone nanos c = (nanos, Answer nanos) /\
  nanos_alone nanos nanos = (nanos + 1, Answer nanos) /\
  nanos_alone nanos (nanos + 1) = (nanos + 2, Answer (nanos + 1)).
Proof.
  intros Hc Hn. unfold nanos_alone. simpl. repeat (bcase; try lia; simpl).
  rewrite !u64_small by lia. split; [done|]. split; [done|]. f_equal. lia.
Qed.

Lemma nanos_repeats_witness :
  nanos_alone 10 0 = (10, Answer 10) /\ nanos_alone 10 10 = (10 + 1, Answer 10) /\
  nanos_alone 10 (10 + 1) = (10 + 2, Answer (10 + 1)).
Proof. apply (nanos_repeats 10 0); lia. Defined.

(** The host can turn the clock back: after it writes the largest time, two
    calls bring the counter to 0, and the next call returns any earlier time
    [e] that the host then writes. *)
Theorem nanos_wraps c e :
  0 <= c < 2 ^ 64 - 1 -> 0 < e < 2 ^ 64 - 1 ->
  nanos_alone (2 ^ 64 - 1) c = (2 ^ 64 - 1, Answer (2 ^ 64 - 1)) /\
  nanos_alone (2 ^ 64 - 1) (2 ^ 64 - 1) = (0, Answer (2 ^ 64 - 1)) /\
  nanos_alone e 0 = (e, Answer e).
Proof. intros Hc He. unfold nanos_alone. simpl. repeat (bcase; try lia; simpl). done. Qed.

Lemma nanos_wraps_witness :
  nanos_alone (2 ^ 64 - 1) 500 = (2 ^ 64 - 1, Answer (2 ^ 64 - 1)) /\
  nanos_alone (2 ^ 64 - 1) (2 ^ 64 - 1) = (0, Answer (2 ^ 64 - 1)) /\
  nanos_alone 7 0 = (7, Answer 7).
Proof. apply (nanos_wraps 500 7); lia. Defined.
