(* ===== verification/EventChannel.v ===== *)
(** * EventChannel: events between the host and the enclave
    (src/enclave/enclave_event_channel.c, src/host_interface/host_event_channel.c)

    Each device has two 64-bit words in shared memory: one counts the host's
    notifications to the enclave, the other the enclave's notifications to the
    host.  A notification adds 2; bit 0 says that the receiver waits.  Every
    atomic access is one step; the two directions are independent. *)

From S2P Require Import Prelude TicketLock.

Definition odd (z : Z) : bool := truthy (Z.land z 1).

Lemma odd_spec z : odd z = Z.odd z.
Proof.
  unfold odd, truthy. change 1 with (Z.ones 1) at 1. rewrite Z.land_ones by lia. change (2 ^ 1) with 2.
  rewrite Zmod_odd. by destruct (Z.odd z).
Qed.

(** ** From the host to the enclave *)

Module ToEnclave.

(** Where the task of the device is in [vio_enclave_process_host_event]: before
    the named access.  [Load new], [Cas new], [Check new], [Sleep new] and [Sub
    new] carry the local variable [new], [Deliver] is after the inner loop. *)
Inductive task_pc : Type :=
| Top
| Load (new : Z)
| Cas (new : Z)
| Check (new : Z)
| Sleep (new : Z)
| Asleep (new : Z)
| Sub (new : Z)
| Deliver
| Ended.

(** The device: the word that the host increments, [evt_processed], the local
    variable [cur], and [_vio_terminate]. *)
Record device : Type := mk_device {
  enclave_evt_channel : Z; evt_processed : Z; cur : Z; pc : task_pc; _vio_terminate : bool }.

Definition with_pc (p : task_pc) (d : device) : device :=
  mk_device (enclave_evt_channel d) (evt_processed d) (cur d) p (_vio_terminate d).
Definition with_channel (c : Z) (d : device) : device :=
  mk_device c (evt_processed d) (cur d) (pc d) (_vio_terminate d).
Definition with_cur (c : Z) (d : device) : device :=
  mk_device (enclave_evt_channel d) (evt_processed d) c (pc d) (_vio_terminate d).
Definition with_processed (e : Z) (d : device) : device :=
  mk_device (enclave_evt_channel d) e (cur d) (pc d) (_vio_terminate d).

(** One access of the task, and whether it delivers an interrupt; None is the
    failure of the assertion.  A failing compare-and-swap stores what it found
    in [cur]. *)
Definition vio_enclave_process_host_event (spurious : bool) (d : device) : option (device * bool) :=
  match pc d with
  | Top => Some (if _vio_terminate d then with_pc Ended d else with_pc (Load (cur d)) d, false)
  | Load new =>
      let c := enclave_evt_channel d in
      Some (if c =? new then with_pc (Cas (u64 (c + 1))) (with_cur c d)
            else with_pc Deliver (with_cur c d), false)
  | Cas new =>
      Some (if negb spurious && (enclave_evt_channel d =? cur d)
            then with_pc (Check new) (with_channel new d)
            else with_pc (Load new) (with_cur (enclave_evt_channel d) d), false)
  | Check new =>
      Some (with_pc (if enclave_evt_channel d =? new then Sleep new else Sub new) d, false)
  | Sleep new => Some (with_pc (if _vio_terminate d then Sub new else Asleep new) d, false)
  | Asleep _ => Some (d, false)
  | Sub new =>
      if odd new then
        let c := u64 (enclave_evt_channel d - 1) in
        Some (with_pc Deliver (with_cur c (with_channel c d)), false)
      else None
  | Deliver =>
      Some (if evt_processed d <? cur d then (with_pc Top (with_processed (cur d) d), true)
            else (with_pc Top d, false))
  | Ended => Some (d, false)
  end.

(** [vio_host_notify_host_event]: adds 2; the result says whether the host also
    wakes the sleeping ethreads. *)
Definition vio_host_notify_host_event (d : device) : device * bool :=
  let c := u64 (enclave_evt_channel d + 2) in (with_channel c d, odd c).

Definition is_sleeping (d : device) : bool := match pc d with Asleep _ => true | _ => false end.

(** [vio_signal_evt_channel]: should the scheduler wake the task? *)
Definition vio_signal_evt_channel (d : device) : bool :=
  odd (enclave_evt_channel d) && (u64 (evt_processed d + 1) <? enclave_evt_channel d) && is_sleeping d.

(** [lthread_wakeup] of the task. *)
Definition wake_task (d : device) : device :=
  match pc d with Asleep new => with_pc (Sub new) d | _ => d end.

(** [vio_enclave_wakeup_event_channel]: the devices with their locks; a device
    whose lock is taken is skipped.  The result is what the scheduler gets. *)
Fixpoint wakeup_devices (l : list (ticketlock * device)) : list (ticketlock * device) * bool :=
  match l with
  | [] => ([], false)
  | (lk, d) :: l' =>
      let '(r, lk1) := ticket_trylock lk in
      if truthy r then let '(l2, ret) := wakeup_devices l' in ((lk, d) :: l2, ret)
      else
        let rc := vio_signal_evt_channel d in
        let d' := if rc && negb (_vio_terminate d) then wake_task d else d in
        let '(l2, ret) := wakeup_devices l' in ((ticket_unlock lk1, d') :: l2, rc || ret)
  end.
Definition vio_enclave_wakeup_event_channel (initialized terminate : bool) (l : list (ticketlock * device)) :
    list (ticketlock * device) * bool :=
  if negb initialized || terminate then (l, false) else wakeup_devices l.

Definition vio_terminate (d : device) : device :=
  mk_device (enclave_evt_channel d) (evt_processed d) (cur d) (pc d) true.

(** ** Runs of one device, with the number of notifications and interrupts *)

Record run_state : Type := mk_run_state { dev : device; notified : Z; irqs : Z }.

Inductive evt_step : run_state -> run_state -> Prop :=
| evt_notify s : evt_step s (mk_run_state (vio_host_notify_host_event (dev s)).1 (notified s + 1) (irqs s))
| evt_task s spurious d b :
    vio_enclave_process_host_event spurious (dev s) = Some (d, b) ->
    evt_step s (mk_run_state d (notified s) (irqs s + int_of_bool b))
| evt_wake s :
    vio_signal_evt_channel (dev s) = true -> evt_step s (mk_run_state (wake_task (dev s)) (notified s) (irqs s))
| evt_terminate s : evt_step s (mk_run_state (vio_terminate (dev s)) (notified s) (irqs s)).

Definition evt_init : run_state := mk_run_state (mk_device 0 0 0 Top false) 0 0.
Definition evt_reachable (s : run_state) : Prop := rtc evt_step evt_init s.

(** *** The invariant *)

Definition waiting_bit (p : task_pc) : Z :=
  match p with Check _ | Sleep _ | Asleep _ | Sub _ => 1 | _ => 0 end.

(** The local variables at each place. *)
Definition locals_ok (n : Z) (d : device) : Prop :=
  match pc d with
  | Top => cur d = evt_processed d
  | Load new => new = evt_processed d /\ cur d = evt_processed d \/ new = evt_processed d + 1
  | Cas new => cur d = evt_processed d /\ new = evt_processed d + 1
  | Check new | Sleep new | Asleep new | Sub new => new = evt_processed d + 1
  | Deliver => evt_processed d <= cur d <= 2 * n /\ Z.even (cur d) = true
  | Ended => True
  end.

Record evt_inv (s : run_state) : Prop := {
  ei_channel : enclave_evt_channel (dev s) = 2 * notified s + waiting_bit (pc (dev s));
  ei_processed : 0 <= evt_processed (dev s) <= 2 * notified s;
  ei_even : Z.even (evt_processed (dev s)) = true;
  ei_irqs : 0 <= 2 * irqs s <= evt_processed (dev s);
  ei_locals : locals_ok (notified s) (dev s)
}.

Definition few (s : run_state) : Prop := notified s < 2 ^ 62.

Lemma even_2n n : Z.even (2 * n) = true.
Proof. rewrite Z.even_mul. done. Qed.

Lemma odd_succ_even z : Z.even z = true -> odd (z + 1) = true.
Proof. intros H. rewrite odd_spec, Z.odd_add, <- Z.negb_even, H. done. Qed.

Lemma even_lt_step a b : Z.even a = true -> Z.even b = true -> a < b -> a + 2 <= b.
Proof.
  rewrite !Z.even_spec. intros [x ->] [y ->]. lia.
Qed.

Lemma task_inv s spurious :
  few s -> evt_inv s ->
  exists d b, vio_enclave_process_host_event spurious (dev s) = Some (d, b) /\
    evt_inv (mk_run_state d (notified s) (irqs s + int_of_bool b)).
Proof.
  unfold few. intros Hf [H1 H2 H3 H4 H5]. unfold vio_enclave_process_host_event, locals_ok in *.
  destruct (dev s) as [ch pr c p tm]; simpl in *.
  destruct p as [|new|new|new|new|new|new| |]; simpl in *.
  - eexists _, _; split; [done|]. destruct tm; split; simpl; try lia; try done. by left.
  - destruct (Z.eqb_spec ch new) as [->|Hne].
    + assert (new = pr) as ->.
      { destruct H5 as [[-> _]|E]; [done|]. exfalso. pose proof (even_2n (notified s)) as He.
        rewrite E in H1. rewrite <- (Z.add_0_r (2 * _)), <- H1, Z.even_add, H3 in He. done. }
      eexists _, _; split; [done|]. rewrite u64_small by lia. split; simpl; try lia; done.
    + eexists _, _; split; [done|]. split; simpl; try lia; try done. unfold locals_ok. simpl. split; [lia|].
      rewrite H1, Z.add_0_r. apply even_2n.
  - destruct H5 as [-> ->]. destruct (negb spurious && (ch =? pr)) eqn:E.
    + eexists _, _; split; [done|]. split; simpl; try lia; try done.
    + eexists _, _; split; [done|]. split; simpl; try lia; try done. by right.
  - eexists _, _; split; [done|]. destruct (ch =? new); split; simpl; try lia; done.
  - eexists _, _; split; [done|]. destruct tm; split; simpl; try lia; done.
  - eexists _, _; split; [done|]. split; simpl; try lia; done.
  - subst new. rewrite odd_succ_even by done. eexists _, _; split; [done|].
    rewrite u64_small by lia. split; simpl; try lia; try done. unfold locals_ok. simpl. split; [lia|].
    rewrite H1, Z.add_simpl_r. apply even_2n.
  - destruct (Z.ltb_spec pr c) as [Hlt|Hle]; eexists _, _; (split; [done|]).
    + destruct H5 as [H5 He]. pose proof (even_lt_step pr c H3 He Hlt). split; simpl; try lia; done.
    + destruct H5 as [H5 He]. split; simpl; try lia; try done. unfold locals_ok. simpl. lia.
  - eexists _, _; split; [done|]. split; simpl; try lia; done.
Qed.

Lemma notify_inv s :
  few (mk_run_state (dev s) (notified s + 1) (irqs s)) -> evt_inv s ->
  evt_inv (mk_run_state (vio_host_notify_host_event (dev s)).1 (notified s + 1) (irqs s)).
Proof.
  unfold few. intros Hf [H1 H2 H3 H4 H5]. simpl in *.
  assert (0 <= waiting_bit (pc (dev s)) <= 1) by (destruct (pc (dev s)); simpl; lia).
  split; simpl; rewrite ?u64_small by lia; try lia; try done.
  unfold locals_ok in *. simpl. destruct (pc (dev s)); try done. destruct H5; split; [lia|done].
Qed.

Lemma wake_inv s : evt_inv s -> evt_inv (mk_run_state (wake_task (dev s)) (notified s) (irqs s)).
Proof.
  intros Hi. pose proof Hi as [H1 H2 H3 H4 H5]. unfold wake_task.
  destruct (pc (dev s)) eqn:E; try (by destruct s).
  unfold locals_ok in H5. rewrite E in *. by split.
Qed.

Lemma evt_step_inv s s' : evt_step s s' -> few s' -> evt_inv s -> evt_inv s'.
Proof.
  intros Hs Hf Hi. destruct Hs as [s|s sp d b E|s _|s].
  - by apply notify_inv.
  - destruct (task_inv s sp Hf Hi) as (d' & b' & E' & Hi'). rewrite E in E'. by simplify_eq.
  - by apply wake_inv.
  - destruct Hi as [H1 H2 H3 H4 H5]. by split.
Qed.

Lemma evt_step_count s s' : evt_step s s' -> notified s <= notified s'.
Proof. intros []; simpl; lia. Qed.

Lemma evt_reachable_inv s : evt_reachable s -> few s -> evt_inv s.
Proof.
  intros Hr. refine (rtc_preserves evt_step (fun s => few s -> evt_inv s) _ _ _ Hr _).
  - intros x y Hs IH Hf. eapply evt_step_inv; [done|done|]. apply IH.
    pose proof (evt_step_count x y Hs). unfold few in *. lia.
  - intros _. by split.
Qed.

(** *** Theorems *)

(** C24. No event is lost: with fewer than 2^62 notifications, whenever the task
    of a device sleeps, the scheduler's test says to wake it exactly if the
    host has sent a notification that no interrupt covers yet; and then, once
    woken, the task delivers an interrupt that covers all notifications. *)
Theorem no_lost_event s new :
  evt_reachable s -> few s -> pc (dev s) = Asleep new ->
  vio_signal_evt_channel (dev s) = (evt_processed (dev s) <? 2 * notified s) /\
  (evt_processed (dev s) < 2 * notified s -> forall spurious,
    exists d1 d2, vio_enclave_process_host_event spurious (wake_task (dev s)) = Some (d1, false) /\
      vio_enclave_process_host_event spurious d1 = Some (d2, true) /\
      evt_processed d2 = 2 * notified s).
Proof.
  intros Hr Hf Hp. pose proof (evt_reachable_inv s Hr Hf) as [H1 H2 H3 H4 H5]. unfold few in Hf.
  unfold locals_ok in H5. rewrite Hp in *. simpl in H1. split.
  - unfold vio_signal_evt_channel, is_sleeping. rewrite Hp, andb_true_r, H1, u64_small by lia.
    rewrite odd_succ_even by apply even_2n. simpl. bcase; try lia; done.
  - intros Hlt sp. unfold wake_task. rewrite Hp. unfold vio_enclave_process_host_event. simpl.
    rewrite H5, odd_succ_even by done. eexists _, _. split; [done|]. simpl. rewrite H1, Z.add_simpl_r.
    rewrite u64_small by lia. rewrite (proj2 (Z.ltb_lt _ _)) by done. done.
Qed.

(** The task never fails its assertion, and there are never more interrupts
    than notifications: each interrupt covers a notification of its own. *)
Theorem interrupts_are_notified s spurious :
  evt_reachable s -> few s ->
  irqs s <= notified s /\ exists r, vio_enclave_process_host_event spurious (dev s) = Some r.
Proof.
  intros Hr Hf. pose proof (evt_reachable_inv s Hr Hf) as Hi. split; [destruct Hi; lia|].
  destruct (task_inv s spurious Hf Hi) as (d & b & E & _). by eexists.
Qed.

(** The task sleeps, and the host has notified it. *)
Definition task_once (s : run_state) : run_state :=
  match vio_enclave_process_host_event false (dev s) with
  | Some (d, b) => mk_run_state d (notified s) (irqs s + int_of_bool b)
  | None => s
  end.
Definition task_runs (n : nat) (s : run_state) : run_state := Nat.iter n task_once s.
Definition slept : run_state := task_runs 5 evt_init.
Definition signalled : run_state :=
  mk_run_state (vio_host_notify_host_event (dev slept)).1 (notified slept + 1) (irqs slept).

Lemma task_runs_reach n s : evt_reachable s -> evt_reachable (task_runs n s).
Proof.
  intros Hr. induction n as [|n IH]; [done|]. change (task_runs (S n) s) with (task_once (task_runs n s)). unfold task_once.
  destruct (vio_enclave_process_host_event false (dev (task_runs n s))) as [[d b]|] eqn:E; [|done].
  eapply rtc_r; [exact IH|by eapply evt_task].
Qed.

Lemma signalled_run : evt_reachable signalled.
Proof. eapply rtc_r; [apply (task_runs_reach 5), rtc_refl|apply evt_notify]. Qed.

Lemma no_lost_event_witness :
  vio_signal_evt_channel (dev signalled) = (evt_processed (dev signalled) <? 2 * notified signalled) /\
  (evt_processed (dev signalled) < 2 * notified signalled -> forall spurious,
    exists d1 d2, vio_enclave_process_host_event spurious (wake_task (dev signalled)) = Some (d1, false) /\
      vio_enclave_process_host_event spurious d1 = Some (d2, true) /\
      evt_processed d2 = 2 * notified signalled).
Proof.
  apply (no_lost_event signalled 1); [apply signalled_run|reflexivity|vm_compute; reflexivity].
Defined.

Lemma interrupts_are_notified_witness :
  irqs signalled <= notified signalled /\
  exists r, vio_enclave_process_host_event true (dev signalled) = Some r.
Proof. apply interrupts_are_notified; [apply signalled_run|reflexivity]. Defined.

End ToEnclave.

(** ** From the enclave to the host *)

Module ToHost.

(** Where the host thread is in [vio_host_process_enclave_event].  [CondWait]:
    about to wait on the condition variable; [Blocked]: waiting. *)
Inductive host_pc : Type :=
| Away | CasWait | CheckEvent (desired : Z) | CondWait (desired : Z) | Blocked | Unmark.

(** [writing]: calls of [vio_enclave_notify_enclave_event] that have added 2 but
    not yet stored their queue, with what they know of the waiting bit;
    [signals]: calls about to signal the condition variable.  [served]: the
    queues that the device task went on to process, the latest first. *)
Record hstate : Type := mk_hstate {
  host_evt_channel : Z; hevt_processed : Z; hpc : host_pc; qidx_p : Z; hnotified : Z;
  writing : list (Z * bool); signals : nat; served : list Z }.

Definition host_at (ch pr : Z) (p : host_pc) (s : hstate) : hstate :=
  mk_hstate ch pr p (qidx_p s) (hnotified s) (writing s) (signals s) (served s).

(** The return to the device task, which processes the queue [qidx_p]. *)
Definition host_return (ch pr : Z) (s : hstate) : hstate :=
  mk_hstate ch pr Away (qidx_p s) (hnotified s) (writing s) (signals s) (qidx_p s :: served s).

(** One access of the host thread; None is the failure of an assertion. *)
Definition vio_host_process_enclave_event (spurious : bool) (s : hstate) : option hstate :=
  let ch := host_evt_channel s in
  let pr := hevt_processed s in
  match hpc s with
  | Away => if odd pr then None else Some (host_at ch pr CasWait s)
  | CasWait =>
      let desired := u64 (pr + 1) in
      Some (if negb spurious && (ch =? pr) then host_at desired pr (CheckEvent desired) s
            else host_return ch ch s)
  | CheckEvent desired =>
      if ch =? desired then Some (host_at ch pr (CondWait desired) s)
      else if odd desired then Some (host_at ch pr Unmark s) else None
  | CondWait desired => if odd desired then Some (host_at ch pr Blocked s) else None
  | Blocked => Some s
  | Unmark => let c := u64 (ch - 1) in Some (host_return c c s)
  end.

(** [pthread_cond_signal]: lost if the thread is not waiting. *)
Definition sgxlkl_host_handle_device_request (s : hstate) : hstate :=
  match hpc s with Blocked => host_at (host_evt_channel s) (hevt_processed s) Unmark s | _ => s end.

Inductive hlabel : Type := Notify | Store | Signal | Host | Timeout | Spurious.

Inductive hstep (timeout_ms : Z) : hlabel -> hstate -> hstate -> Prop :=
| h_notify s q :
    hstep timeout_ms Notify s
      (mk_hstate (u64 (host_evt_channel s + 2)) (hevt_processed s) (hpc s) (qidx_p s) (hnotified s + 1)
         (writing s ++ [(q, odd (host_evt_channel s))]) (signals s) (served s))
| h_store s l1 q b l2 :
    writing s = l1 ++ (q, b) :: l2 ->
    hstep timeout_ms Store s
      (mk_hstate (host_evt_channel s) (hevt_processed s) (hpc s) q (hnotified s) (l1 ++ l2)
         (if b then S (signals s) else signals s) (served s))
| h_signal s n :
    signals s = S n ->
    hstep timeout_ms Signal s
      (sgxlkl_host_handle_device_request
         (mk_hstate (host_evt_channel s) (hevt_processed s) (hpc s) (qidx_p s) (hnotified s) (writing s) n
            (served s)))
| h_host s spurious s' :
    hpc s ≠ Blocked -> vio_host_process_enclave_event spurious s = Some s' -> hstep timeout_ms Host s s'
| h_timeout s :
    hpc s = Blocked -> 0 < timeout_ms ->
    hstep timeout_ms Timeout s (host_at (host_evt_channel s) (hevt_processed s) Unmark s)
| h_spurious s :
    hpc s = Blocked ->
    hstep timeout_ms Spurious s (host_at (host_evt_channel s) (hevt_processed s) Unmark s).

Definition hinit : hstate := mk_hstate 0 0 Away 0 0 [] 0 [].
Definition hreachable (timeout_ms : Z) (s : hstate) : Prop :=
  rtc (fun s s' => exists l, hstep timeout_ms l s s') hinit s.

(** *** The invariant *)

Definition host_bit (p : host_pc) : Z :=
  match p with CheckEvent _ | CondWait _ | Blocked | Unmark => 1 | _ => 0 end.

Record hinv (s : hstate) : Prop := {
  hi_channel : host_evt_channel s = 2 * hnotified s + host_bit (hpc s);
  hi_processed : 0 <= hevt_processed s <= 2 * hnotified s;
  hi_even : Z.even (hevt_processed s) = true;
  hi_desired : forall d, hpc s = CheckEvent d \/ hpc s = CondWait d -> d = hevt_processed s + 1
}.

Definition hfew (s : hstate) : Prop := hnotified s < 2 ^ 62.

Lemma even_not_odd z : Z.even z = true -> odd z = false.
Proof. intros H. rewrite odd_spec, <- Z.negb_even, H. done. Qed.

(** The host thread makes a step, and where it returns it has seen all
    notifications. *)
Lemma host_access_inv s spurious :
  hfew s -> hinv s ->
  exists s', vio_host_process_enclave_event spurious s = Some s' /\ hinv s' /\ hnotified s' = hnotified s /\
    (hpc s ≠ Away -> hpc s' = Away -> hevt_processed s' = 2 * hnotified s).
Proof.
  unfold hfew. intros Hf [H1 H2 H3 H4]. unfold vio_host_process_enclave_event.
  destruct s as [ch pr p qi nt wr sg sv]. simpl in *.
  destruct p as [| |d|d| |]; simpl in *.
  - rewrite even_not_odd by done. eexists. split; [done|]. split; [|done]. split; simpl; try done; try lia.
    intros d [?|?]; done.
  - rewrite u64_small by lia. eexists. split; [done|]. destruct (negb spurious && (ch =? pr)) eqn:E.
    + split; [|split; [done|done]]. split; simpl; try done; try lia. intros d [[= <-]|?]; done.
    + split; [|split; [done|simpl; lia]]. split; simpl; try lia; [rewrite H1, Z.add_0_r; apply ToEnclave.even_2n|].
      intros d [?|?]; done.
  - rewrite (H4 d) by auto. destruct (Z.eqb_spec ch (pr + 1)).
    + eexists. split; [done|]. split; [|done]. split; simpl; try done. intros d' [?|[= <-]]; done.
    + rewrite ToEnclave.odd_succ_even by done. eexists. split; [done|]. split; [|done]. split; simpl; try done.
      intros d' [?|?]; done.
  - rewrite (H4 d), ToEnclave.odd_succ_even by auto. eexists. split; [done|]. split; [|done].
    split; simpl; try done. intros d' [?|?]; done.
  - eexists. split; [done|]. split; [|done]. by split.
  - eexists. split; [done|]. rewrite u64_small by lia. split; [|split; [done|simpl; lia]].
    split; simpl; try lia; [rewrite H1, Z.add_simpl_r; apply ToEnclave.even_2n|]. intros d' [?|?]; done.
Qed.

Lemma unblock_inv s : hinv s -> hpc s = Blocked ->
  hinv (host_at (host_evt_channel s) (hevt_processed s) Unmark s).
Proof.
  intros [H1 H2 H3 H4] Hp. rewrite Hp in H1. split; simpl; try done. intros d [?|?]; done.
Qed.

Lemma hstep_inv timeout_ms l s s' : hstep timeout_ms l s s' -> hfew s' -> hinv s -> hinv s'.
Proof.
  unfold hfew. intros Hs Hf Hi. pose proof Hi as [H1 H2 H3 H4].
  destruct Hs as [s q|s l1 q b l2 _|s n _|s sp s' _ E|s Hp _|s Hp]; simpl in *.
  - assert (0 <= host_bit (hpc s) <= 1) by (destruct (hpc s); simpl; lia).
    split; simpl; rewrite ?u64_small by lia; try done; lia.
  - by split.
  - unfold sgxlkl_host_handle_device_request. simpl. destruct (hpc s) eqn:Hp; try (by split; rewrite ?Hp in *).
    split; simpl; try done. intros d [?|?]; done.
  - assert (hnotified s' = hnotified s) as En.
    { unfold vio_host_process_enclave_event in E.
      destruct (hpc s); simpl in E; repeat case_match; simplify_eq; done. }
    destruct (host_access_inv s sp) as (s1 & E1 & Hi1 & _); [unfold hfew; lia|done|].
    rewrite E in E1. by simplify_eq.
  - by apply unblock_inv.
  - by apply unblock_inv.
Qed.

Lemma hstep_count timeout_ms l s s' : hstep timeout_ms l s s' -> hnotified s <= hnotified s'.
Proof.
  intros Hs. destruct Hs as [s q|s l1 q b l2 _|s n _|s sp s' _ E|s Hp _|s Hp]; simpl; try lia.
  - unfold sgxlkl_host_handle_device_request. simpl. destruct (hpc s); simpl; lia.
  - unfold vio_host_process_enclave_event in E.
    destruct (hpc s); simpl in E; repeat case_match; simplify_eq; simpl; lia.
Qed.

Lemma hreachable_inv timeout_ms s : hreachable timeout_ms s -> hfew s -> hinv s.
Proof.
  intros Hr.
  refine (rtc_preserves (fun s s' => exists l, hstep timeout_ms l s s') (fun s => hfew s -> hinv s) _ _ _ Hr _).
  - intros x y [l Hs] IH Hf. eapply hstep_inv; [done|done|]. apply IH.
    pose proof (hstep_count _ _ _ _ Hs). unfold hfew in *. lia.
  - intros _. split; simpl; try done. intros d [?|?]; done.
Qed.

(** *** Theorems *)

(** The host thread never fails its assertions, and whenever
    [vio_host_process_enclave_event] returns, [evt_processed] covers every
    notification that the enclave has sent so far (fewer than 2^62). *)
Theorem host_return_covers timeout_ms s spurious :
  hreachable timeout_ms s -> hfew s ->
  exists s', vio_host_process_enclave_event spurious s = Some s' /\
    (hpc s ≠ Away -> hpc s' = Away -> hevt_processed s' = 2 * hnotified s').
Proof.
  intros Hr Hf. destruct (host_access_inv s spurious Hf (hreachable_inv timeout_ms s Hr Hf))
    as (s' & E & _ & En & Hret). exists s'. split; [done|]. by rewrite En.
Qed.

(** One more step of a run, by its label. *)
Tactic Notation "hnext" constr(l) uconstr(c) := eapply rtc_l; [exists l; eapply c; done|].

(** C38. A wake-up of the host thread can be lost when it waits without a timeout,
    as the network device does: the enclave's signal comes between the last
    look at the channel and the wait, because it is sent without the mutex.  The
    thread is then blocked although there is a notification it has not seen, and
    only another notification or a spurious wake-up can help. *)
Theorem host_wakeup_lost timeout_ms :
  timeout_ms <= 0 ->
  exists s, hreachable timeout_ms s /\ hpc s = Blocked /\ hevt_processed s < 2 * hnotified s /\
    forall l s', hstep timeout_ms l s s' -> l = Notify \/ l = Spurious.
Proof.
  intros Ht. exists (mk_hstate 3 0 Blocked 1 1 [] 0 []).
  split; [|split; [done|split; [simpl; lia|]]].
  - unfold hreachable.
    hnext Host (h_host timeout_ms hinit false). hnext Host (h_host timeout_ms _ false).
    hnext Host (h_host timeout_ms _ false). hnext Notify (h_notify timeout_ms _ 1).
    hnext Store (h_store timeout_ms _ [] 1 true []). hnext Signal (h_signal timeout_ms _ 0).
    hnext Host (h_host timeout_ms _ false). apply rtc_refl.
  - intros l s' Hs. inversion Hs as [|? l1 q b l2 Hw|? n Hsig|? sp ? Hb|? Hb Hpos|]; subst; simpl in *; auto; try done.
    + by destruct l1.
    + lia.
Qed.

Lemma host_wakeup_lost_witness :
  exists s, hreachable (-1) s /\ hpc s = Blocked /\ hevt_processed s < 2 * hnotified s /\
    forall l s', hstep (-1) l s s' -> l = Notify \/ l = Spurious.
Proof. apply (host_wakeup_lost (-1)). lia. Defined.

(** Notifications for two queues can be merged into one: the queue numbers
    overwrite each other, the host returns once with every notification counted
    as processed, and the first queue is not served. *)
Theorem merged_queue_not_served timeout_ms q1 q2 :
  exists s, hreachable timeout_ms s /\ hnotified s = 2 /\ hevt_processed s = 4 /\
    writing s = [] /\ signals s = 0%nat /\ served s = [q2] /\
    (exists s1, hstep timeout_ms Notify hinit s1 /\ writing s1 = [(q1, false)] /\
       rtc (fun s s' => exists l, hstep timeout_ms l s s') s1 s).
Proof.
  set (s := mk_hstate 4 4 Away q2 2 [] 0 [q2]).
  assert (rtc (fun s s' => exists l, hstep timeout_ms l s s') (mk_hstate 2 0 Away 0 1 [(q1, false)] 0 []) s) as Hr.
  { hnext Notify (h_notify timeout_ms _ q2). hnext Store (h_store timeout_ms _ [] q1 false [(q2, false)]).
    hnext Store (h_store timeout_ms _ [] q2 false []). hnext Host (h_host timeout_ms _ false).
    hnext Host (h_host timeout_ms _ false). apply rtc_refl. }
  exists s. split; [eapply rtc_l; [exists Notify; apply (h_notify timeout_ms hinit q1)|exact Hr]|].
  repeat (split; [done|]). eexists. split; [apply (h_notify timeout_ms hinit q1)|]. split; [done|exact Hr].
Qed.

(** The host waits and the enclave has notified it. *)
Definition host_woken : hstate := mk_hstate 3 0 Unmark 1 1 [] 0 [].

Lemma host_woken_run : hreachable 10 host_woken.
Proof.
  hnext Host (h_host 10 hinit false). hnext Host (h_host 10 _ false). hnext Host (h_host 10 _ false).
  hnext Host (h_host 10 _ false). hnext Notify (h_notify 10 _ 1). hnext Store (h_store 10 _ [] 1 true []).
  hnext Signal (h_signal 10 _ 0). apply rtc_refl.
Qed.

Lemma host_return_covers_witness :
  exists s', vio_host_process_enclave_event false host_woken = Some s' /\
    (hpc host_woken ≠ Away -> hpc s' = Away -> hevt_processed s' = 2 * hnotified s').
Proof. apply (host_return_covers 10); [apply host_woken_run|reflexivity]. Defined.

End ToHost.
