(* ===== verification/HostQueue.v ===== *)
(** * HostQueue: the host side of a virtio queue
    (src/host_interface/virtio.c, src/host_interface/virtio_blkdev.c)

    The driver in the enclave puts chains of descriptors into the available
    ring; the host takes them out, gives them to the device and puts them into
    the used ring.  The rings are lists, an access outside them is a fault; they
    are as the driver left them while the host processes the queue.  The block
    device works on the memory of the enclave and on a disk file, whose system
    calls are parameters. *)

From S2P Require Import Prelude.

Definition LKL_VRING_DESC_F_NEXT : Z := 1.
Definition VIRTIO_REQ_MAX_BUFS : nat := 19.

Record virtq_desc : Type := mk_desc { d_addr : Z; d_len : Z; d_flags : Z; d_next : Z }.

(** [avail_ring] has one entry more than the queue, the used event. *)
Record virtq : Type := mk_virtq {
  num : Z; ready : bool; max_merge_len : Z;
  desc : list virtq_desc; avail_idx : Z; avail_ring : list Z;
  used_idx : Z; used_ring : list (Z * Z); avail_event : Z;
  last_avail_idx : Z; last_used_idx_signaled : Z }.

Definition set_used (u : Z) (r : list (Z * Z)) (q : virtq) : virtq :=
  mk_virtq (num q) (ready q) (max_merge_len q) (desc q) (avail_idx q) (avail_ring q) u r (avail_event q)
    (last_avail_idx q) (last_used_idx_signaled q).
Definition set_last_avail (i : Z) (q : virtq) : virtq :=
  mk_virtq (num q) (ready q) (max_merge_len q) (desc q) (avail_idx q) (avail_ring q) (used_idx q) (used_ring q)
    (avail_event q) i (last_used_idx_signaled q).
Definition set_signaled (i : Z) (q : virtq) : virtq :=
  mk_virtq (num q) (ready q) (max_merge_len q) (desc q) (avail_idx q) (avail_ring q) (used_idx q) (used_ring q)
    (avail_event q) (last_avail_idx q) i.
Definition virtio_set_avail_event (v : Z) (q : virtq) : virtq :=
  mk_virtq (num q) (ready q) (max_merge_len q) (desc q) (avail_idx q) (avail_ring q) (used_idx q) (used_ring q)
    v (last_avail_idx q) (last_used_idx_signaled q).
Definition virtio_set_queue_max_merge_len (len : Z) (q : virtq) : virtq :=
  mk_virtq (num q) (ready q) len (desc q) (avail_idx q) (avail_ring q) (used_idx q) (used_ring q)
    (avail_event q) (last_avail_idx q) (last_used_idx_signaled q).

Definition get {A} (l : list A) (i : Z) : outcome A :=
  match l !! Z.to_nat i with Some x => Done x | None => Failed (BadPointer i) end.

(** An index masked with the size of the queue. *)
Definition masked (q : virtq) (i : Z) : Z := Z.land i (u32 (num q - 1)).

(** ** Requests *)

Record iovec : Type := mk_iovec { iov_base : Z; iov_len : Z }.
Record virtio_req : Type := mk_req { buf : list iovec; total_len : Z }.

Definition vring_desc_at_avail_idx (q : virtq) (idx : Z) : outcome virtq_desc :=
  desc_idx ← get (avail_ring q) (masked q idx); get (desc q) (masked q desc_idx).

(** The array of a request has 32 entries. *)
Definition add_dev_buf_from_vring_desc (req : virtio_req) (d : virtq_desc) : outcome virtio_req :=
  if decide (length (buf req) < 32)%nat then
    Done (mk_req (buf req ++ [mk_iovec (d_addr d) (d_len d)]) (u32 (total_len req + d_len d)))
  else Failed (BadPointer 32).

Definition get_next_desc (q : virtq) (d : virtq_desc) (idx : Z) : outcome (option virtq_desc * Z) :=
  if truthy (max_merge_len q) then
    let idx := u16 (idx + 1) in
    if idx =? avail_idx q then Done (None, idx)
    else d' ← vring_desc_at_avail_idx q idx; Done (Some d', idx)
  else if truthy (Z.land (d_flags d) LKL_VRING_DESC_F_NEXT) then
    d' ← get (desc q) (masked q (d_next d)); Done (Some d', idx)
  else Done (None, idx).

(** The loop that collects the buffers; it ends when the request is full. *)
Fixpoint collect (fuel : nat) (q : virtq) (d : virtq_desc) (idx : Z) (req : virtio_req) : outcome virtio_req :=
  match fuel with
  | O => Failed OutOfFuel
  | S fuel' =>
      req ← add_dev_buf_from_vring_desc req d;
      if truthy (max_merge_len q) && (max_merge_len q <? total_len req) then Done req
      else
        '(next, idx) ← get_next_desc q d idx;
        match next with
        | Some d' => if bool_decide (length (buf req) < VIRTIO_REQ_MAX_BUFS)%nat then collect fuel' q d' idx req
                     else Done req
        | None => Done req
        end
  end.

(** ** Completing a request *)

Definition lkl_vring_need_event (event_idx new_idx old : Z) : bool :=
  u16 (new_idx - event_idx - 1) <? u16 (new_idx - old).

Definition min_len (a b : Z) : Z := if a <? b then a else b.

Definition virtio_add_used (q : virtq) (u a len : Z) : outcome virtq :=
  desc_idx ← get (avail_ring q) (masked q a);
  let i := masked q u in
  if decide (Z.to_nat i < length (used_ring q))%nat then
    Done (set_used (used_idx q) (<[Z.to_nat i := (desc_idx, len)]> (used_ring q)) q)
  else Failed (BadPointer i).

(** One used entry for every buffer until [len] is used up; the results are the
    next used and available indices. *)
Fixpoint add_used_entries (q : virtq) (bufs : list iovec) (u a len : Z) : outcome (virtq * Z * Z) :=
  match bufs with
  | [] => Done (q, u, a)
  | b :: bufs' =>
      let used_len := u16 (if truthy (max_merge_len q) then min_len len (iov_len b) else len) in
      q' ← virtio_add_used q u a used_len;
      let len := u32 (len - used_len) in
      if truthy len then add_used_entries q' bufs' (u16 (u + 1)) (u16 (a + 1)) len
      else Done (q', u16 (u + 1), u16 (a + 1))
  end.

(** The queue and the number of interrupts sent to the enclave. *)
Record hostq : Type := mk_hostq { vq : virtq; sent : Z }.

(** [virtio_req_complete] for the request that began at [idx]. *)
Definition virtio_req_complete (h : hostq) (req : virtio_req) (idx len : Z) : outcome hostq :=
  let q := vq h in
  '(q, u, a) ← add_used_entries q (buf req) (used_idx q) idx len;
  let q := set_last_avail a (set_used u (used_ring q) q) in
  used_event ← get (avail_ring q) (num q);
  if (last_avail_idx q =? avail_idx q) ||
     lkl_vring_need_event used_event (used_idx q) (last_used_idx_signaled q)
  then Done (mk_hostq (set_signaled (used_idx q) q) (sent h + 1))
  else Done (mk_hostq q (sent h)).

(** ** Processing a queue *)

Section Process.
Context {W : Type}.
(** The device's [enqueue]: the queue, its world, and the request with the index
    at which it began. *)
Variable enqueue : hostq -> W -> virtio_req -> Z -> outcome (Z * hostq * W).

Definition virtio_process_one (h : hostq) (w : W) : outcome (Z * hostq * W) :=
  let q := vq h in
  let idx := last_avail_idx q in
  d ← vring_desc_at_avail_idx q idx;
  req ← collect VIRTIO_REQ_MAX_BUFS q d idx (mk_req [] 0);
  enqueue h w req idx.

Definition at_end (q : virtq) : bool := last_avail_idx q =? avail_idx q.

Fixpoint process_loop (fuel : nat) (h : hostq) (w : W) : outcome (hostq * W) :=
  if at_end (vq h) then Done (h, w)
  else
    match fuel with
    | O => Failed OutOfFuel
    | S fuel' =>
        '(r, h, w) ← virtio_process_one h w;
        if r <? 0 then Done (h, w)
        else
          let q := vq h in
          let q := if at_end q then virtio_set_avail_event (avail_idx q) q else q in
          process_loop fuel' (mk_hostq q (sent h)) w
    end.

Definition virtio_process_queue (fuel : nat) (h : hostq) (w : W) : outcome (hostq * W) :=
  if ready (vq h) then process_loop fuel h w else Done (h, w).
End Process.

(** ** The block device *)

Definition LKL_DEV_BLK_TYPE_READ : Z := 0.
Definition LKL_DEV_BLK_TYPE_WRITE : Z := 1.
Definition LKL_DEV_BLK_TYPE_FLUSH : Z := 4.
Definition LKL_DEV_BLK_TYPE_FLUSH_OUT : Z := 5.
Definition LKL_DEV_BLK_STATUS_IOERR : Z := 1.
Definition LKL_DEV_BLK_STATUS_UNSUP : Z := 2.
Definition sizeof_outhdr : Z := 16.
Definition sizeof_trailer : Z := 1.

(** [n] bytes of memory as a little-endian number. *)
Fixpoint little_endian (mem : Z -> Z) (p : Z) (n : nat) : Z :=
  match n with O => 0 | S n' => mem p + 256 * little_endian mem (p + 1) n' end.

Definition store_at (mem : Z -> Z) (p : Z) (l : list Z) : Z -> Z := fun a =>
  if (p <=? a) && (a <? p + Z.of_nat (length l)) then default 0 (l !! Z.to_nat (a - p)) else mem a.

Definition load_from (mem : Z -> Z) (p len : Z) : list Z :=
  map (fun i => mem (p + Z.of_nat i)) (seq 0 (Z.to_nat len)).

Section Block.
Context {D : Type}.
(** The system calls on the disk file: the result, and the bytes read or the new
    contents. *)
Variable pread : D -> Z -> Z -> Z * list Z.
Variable pwrite : D -> list Z -> Z -> Z * D.
Variable fsync : D -> Z * D.

Definition blk_world : Type := (Z -> Z) * D.

(** The operation that a request header asks for: its result and its effects. *)
Definition blk_operation (w : blk_world) (type sector : Z) (data : iovec) : Z * blk_world :=
  let '(mem, disk) := w in
  let offset := s64 (u64 (sector * 512)) in
  if type =? LKL_DEV_BLK_TYPE_READ then
    let '(r, bytes) := pread disk (iov_len data) offset in (s32 r, (store_at mem (iov_base data) bytes, disk))
  else if type =? LKL_DEV_BLK_TYPE_WRITE then
    let '(r, disk') := pwrite disk (load_from mem (iov_base data) (iov_len data)) offset in
    (s32 r, (mem, disk'))
  else if (type =? LKL_DEV_BLK_TYPE_FLUSH) || (type =? LKL_DEV_BLK_TYPE_FLUSH_OUT) then
    let '(r, disk') := fsync disk in (s32 r, (mem, disk'))
  else (LKL_DEV_BLK_STATUS_UNSUP, w).

(** The request before it is completed. *)
Definition blk_serve (w : blk_world) (bufs : list iovec) : blk_world :=
  match bufs with
  | h :: data :: (_ :: _) as bs =>
      match last bs with
      | None => w
      | Some t =>
          let '(mem, disk) := w in
          let mem := store_at mem (iov_base t) [LKL_DEV_BLK_STATUS_IOERR] in
          if negb (iov_len h =? sizeof_outhdr) then (mem, disk)
          else if negb (iov_len t =? sizeof_trailer) then (mem, disk)
          else
            let type := little_endian mem (iov_base h) 4 in
            let sector := little_endian mem (iov_base h + 8) 8 in
            let '(ret, (mem, disk)) := blk_operation (mem, disk) type sector data in
            (store_at mem (iov_base t) [u8 ret], disk)
      end
  | _ => w
  end.

Definition blk_enqueue (h : hostq) (w : blk_world) (req : virtio_req) (idx : Z) :
    outcome (Z * hostq * blk_world) :=
  let w := blk_serve w (buf req) in
  h ← virtio_req_complete h req idx 0; Done (0, h, w).

Definition blk_process_queue (fuel : nat) (h : hostq) (w : blk_world) : outcome (hostq * blk_world) :=
  virtio_process_queue blk_enqueue fuel h w.
End Block.

(** ** Interrupt suppression *)

Lemma u16_range z : 0 <= u16 z < 2 ^ 16.
Proof. apply wrap_range. lia. Qed.

(** [lkl_vring_need_event] with its 16-bit arithmetic: an interrupt is due
    exactly if the event index is one of the used indices from [old] up to, but
    not including, [new_idx], counted modulo 2^16. *)
Theorem need_event_spec event_idx new_idx old :
  0 <= event_idx < 2 ^ 16 -> 0 <= new_idx < 2 ^ 16 -> 0 <= old < 2 ^ 16 ->
  lkl_vring_need_event event_idx new_idx old = true <->
  exists k, 0 <= k < u16 (new_idx - old) /\ event_idx = u16 (old + k).
Proof.
  intros He Hn Ho. unfold lkl_vring_need_event. rewrite Z.ltb_lt. unfold u16, wrap. split.
  - intros H. exists ((event_idx - old) mod 2 ^ 16).
    rewrite Zplus_mod_idemp_r. replace (old + (event_idx - old)) with event_idx by lia.
    rewrite (Z.mod_small event_idx) by lia. split; [|done]. split; [apply Z.mod_pos_bound; lia|].
    destruct (Z_lt_le_dec event_idx old).
    + rewrite (Z.mod_eq (event_idx - old)) by lia. Z.div_mod_to_equations. lia.
    + Z.div_mod_to_equations. lia.
  - intros (k & Hk & ->). Z.div_mod_to_equations. lia.
Qed.

Lemma need_event_spec_witness :
  lkl_vring_need_event 65535 1 65534 = true <-> exists k, 0 <= k < u16 (1 - 65534) /\ 65535 = u16 (65534 + k).
Proof. apply (need_event_spec 65535 1 65534); lia. Defined.
