(* ===== verification/HostQueueProps.v ===== *)
(** * HostQueueProps: what the host does with the available requests

    The block device serves every chain that the driver made available, in
    order, once, returns it through the used ring, and sends an interrupt. *)

From S2P Require Import Prelude HostQueue.

(** ** Queues that the driver set up properly *)

Record queue_ok (k : Z) (q : virtq) : Prop := {
  qo_k : 0 <= k <= 15;
  qo_num : num q = 2 ^ k;
  qo_desc : Z.of_nat (length (desc q)) = num q;
  qo_avail : Z.of_nat (length (avail_ring q)) = num q + 1;
  qo_used : Z.of_nat (length (used_ring q)) = num q;
  qo_avail_idx : 0 <= avail_idx q < 2 ^ 16;
  qo_used_idx : 0 <= used_idx q < 2 ^ 16;
  qo_last : 0 <= last_avail_idx q < 2 ^ 16
}.

(** The part of the queue that belongs to the driver. *)
Record same_driver (q q' : virtq) : Prop := {
  sd_num : num q' = num q;
  sd_ready : ready q' = ready q;
  sd_merge : max_merge_len q' = max_merge_len q;
  sd_desc : desc q' = desc q;
  sd_avail_idx : avail_idx q' = avail_idx q;
  sd_avail_ring : avail_ring q' = avail_ring q
}.

Lemma same_driver_refl q : same_driver q q.
Proof. by split. Qed.

Lemma same_driver_trans q1 q2 q3 : same_driver q1 q2 -> same_driver q2 q3 -> same_driver q1 q3.
Proof. intros [] []. split; congruence. Qed.

Section Index.
Variables (k : Z) (q : virtq).
Hypothesis Hq : queue_ok k q.

Lemma num_range : 1 <= num q <= 2 ^ 15.
Proof.
  destruct Hq as [Hk Hn _ _ _ _ _ _]. rewrite Hn. split.
  - apply (Z.pow_le_mono_r 2 0 k); lia.
  - apply Z.pow_le_mono_r; lia.
Qed.

Lemma masked_spec i : masked q i = i mod num q.
Proof.
  destruct Hq as [Hk Hn _ _ _ _ _ _]. pose proof num_range. unfold masked.
  rewrite u32_small by lia. rewrite Hn. replace (2 ^ k - 1) with (Z.ones k) by (rewrite Z.ones_equiv; lia).
  apply Z.land_ones. lia.
Qed.

Lemma masked_range i : 0 <= masked q i < num q.
Proof. rewrite masked_spec. apply Z.mod_pos_bound. pose proof num_range. lia. Qed.

(** The size of the queue divides 2^16: wrapped indices name the same place. *)
Lemma u16_mod i : u16 i mod num q = i mod num q.
Proof.
  destruct Hq as [Hk Hn _ _ _ _ _ _]. pose proof num_range as Hr. unfold u16, wrap.
  replace (2 ^ 16) with (num q * 2 ^ (16 - k)) by (rewrite Hn, <- Z.pow_add_r by lia; f_equal; lia).
  assert (0 < 2 ^ (16 - k)) by (apply Z.pow_pos_nonneg; lia).
  rewrite Z.rem_mul_r by lia. rewrite Z.mul_comm, Z_mod_plus_full. apply Z.mod_mod. lia.
Qed.

Lemma get_avail i : exists x, get (avail_ring q) (masked q i) = Done x /\
  avail_ring q !! Z.to_nat (i mod num q) = Some x.
Proof.
  pose proof (masked_range i) as Hr. pose proof (qo_avail k q Hq) as Ha.
  unfold get. rewrite masked_spec in *.
  destruct (avail_ring q !! Z.to_nat (i mod num q)) as [x|] eqn:E; [by exists x|].
  apply lookup_ge_None in E. lia.
Qed.

Lemma get_desc i : exists d, get (desc q) (masked q i) = Done d.
Proof.
  pose proof (masked_range i) as Hr. pose proof (qo_desc k q Hq) as Hd. unfold get.
  destruct (desc q !! Z.to_nat (masked q i)) as [d|] eqn:E; [by exists d|].
  apply lookup_ge_None in E. lia.
Qed.

(** ** Collecting a chain *)

Lemma collect_ok fuel d idx req :
  max_merge_len q = 0 -> (1 <= fuel)%nat -> (fuel + length (buf req) = VIRTIO_REQ_MAX_BUFS)%nat ->
  exists req', collect fuel q d idx req = Done req' /\ buf req' ≠ [].
Proof.
  intros Hm. revert d idx req. induction fuel as [|fuel IH]; intros d idx req Hf Hl; [lia|].
  unfold VIRTIO_REQ_MAX_BUFS in Hl. cbn [collect]. unfold add_dev_buf_from_vring_desc.
  rewrite decide_True by lia. cbn [mbind outcome_bind]. rewrite Hm. cbn [truthy negb Z.eqb andb].
  set (req1 := mk_req (buf req ++ [_]) _).
  assert (length (buf req1) = S (length (buf req))) as Hl1 by (simpl; rewrite length_app; simpl; lia).
  assert (buf req1 ≠ []) as Hne by (intros E; by rewrite E in Hl1).
  unfold get_next_desc. rewrite Hm. cbn [truthy negb Z.eqb].
  destruct (truthy (Z.land (d_flags d) LKL_VRING_DESC_F_NEXT)); cbn [mbind outcome_bind]; [|by exists req1].
  destruct (get_desc (d_next d)) as [d' ->]. cbn [mbind outcome_bind].
  case_bool_decide as Hb; [|by exists req1]. unfold VIRTIO_REQ_MAX_BUFS in *. apply IH; lia.
Qed.
End Index.

(** The buffers of the request at an index of the available ring. *)
Definition request_at (q : virtq) (idx : Z) : outcome virtio_req :=
  d ← vring_desc_at_avail_idx q idx; collect VIRTIO_REQ_MAX_BUFS q d idx (mk_req [] 0).

Lemma request_ok k q idx :
  queue_ok k q -> max_merge_len q = 0 -> exists req, request_at q idx = Done req /\ buf req ≠ [].
Proof.
  intros Hq Hm. unfold request_at, vring_desc_at_avail_idx.
  destruct (get_avail k q Hq idx) as (x & -> & _). cbn [mbind outcome_bind].
  destruct (get_desc k q Hq x) as [d ->]. cbn [mbind outcome_bind].
  apply (collect_ok k q Hq); [done|unfold VIRTIO_REQ_MAX_BUFS; lia|done].
Qed.

Lemma desc_at_driver q q' idx :
  same_driver q q' -> vring_desc_at_avail_idx q' idx = vring_desc_at_avail_idx q idx.
Proof. intros [H1 _ _ H4 _ H6]. unfold vring_desc_at_avail_idx, masked. by rewrite H1, H4, H6. Qed.

Lemma collect_driver q q' fuel d idx req :
  same_driver q q' -> collect fuel q' d idx req = collect fuel q d idx req.
Proof.
  intros Hs. revert d idx req. induction fuel as [|fuel IH]; intros d idx req; [done|]. cbn [collect].
  destruct (add_dev_buf_from_vring_desc req d) as [req1|]; [|done]. cbn [mbind outcome_bind].
  pose proof Hs as [H1 H2 H3 H4 H5 H6]. rewrite H3.
  destruct (truthy (max_merge_len q) && _); [done|].
  assert (get_next_desc q' d idx = get_next_desc q d idx) as ->.
  { unfold get_next_desc. rewrite H3, H5, (desc_at_driver q q' _ Hs). unfold masked. by rewrite H1, H4. }
  destruct (get_next_desc q d idx) as [[[d'|] idx']|]; [|done|done]. cbn [mbind outcome_bind].
  case_bool_decide; [apply IH|done].
Qed.

Lemma request_at_driver q q' idx : same_driver q q' -> request_at q' idx = request_at q idx.
Proof.
  intros Hs. unfold request_at. rewrite (desc_at_driver q q' idx Hs).
  destruct (vring_desc_at_avail_idx q idx); [|done]. cbn [mbind outcome_bind]. by apply collect_driver.
Qed.

(** ** One request *)

(** The identifier that the driver put at an index of the available ring. *)
Definition id_at (q : virtq) (idx : Z) : Z := default 0 (avail_ring q !! Z.to_nat (idx mod num q)).

(** The place of an index in the used ring. *)
Definition slot (q : virtq) (u : Z) : nat := Z.to_nat (u mod num q).

Record completed (k : Z) (h h' : hostq) (idx : Z) : Prop := {
  co_ok : queue_ok k (vq h');
  co_driver : same_driver (vq h) (vq h');
  co_used : used_idx (vq h') = u16 (used_idx (vq h) + 1);
  co_last : last_avail_idx (vq h') = u16 (idx + 1);
  co_ring : used_ring (vq h') = <[slot (vq h) (used_idx (vq h)) := (id_at (vq h) idx, 0)]> (used_ring (vq h));
  co_sent : sent h <= sent h';
  co_irq : u16 (idx + 1) = avail_idx (vq h) -> sent h < sent h'
}.

Lemma complete_zero k h req idx :
  queue_ok k (vq h) -> max_merge_len (vq h) = 0 -> buf req ≠ [] ->
  exists h', virtio_req_complete h req idx 0 = Done h' /\ completed k h h' idx.
Proof.
  intros Hq Hm Hb. destruct (buf req) as [|b bufs] eqn:E; [done|].
  pose proof (num_range k _ Hq) as Hn. pose proof (masked_range k _ Hq (used_idx (vq h))) as Hu.
  destruct (get_avail k _ Hq idx) as (x & Hx & Hl).
  unfold virtio_req_complete. rewrite E. cbn [add_used_entries]. rewrite Hm. cbn [truthy negb Z.eqb].
  unfold virtio_add_used. rewrite Hx. cbn [mbind outcome_bind].
  pose proof (masked_spec k _ Hq (used_idx (vq h))) as Hms.
  destruct Hq as [Hk Hnum Hd Ha Hr Hai Hui Hla].
  rewrite decide_True by lia. cbn [mbind outcome_bind].
  change (u32 (0 - u16 0)) with 0. cbn [truthy negb Z.eqb mbind outcome_bind].
  cbn [set_used set_last_avail used_ring num avail_ring]. unfold get at 1.
  destruct (avail_ring (vq h) !! Z.to_nat (num (vq h))) as [ev|] eqn:Hev;
    [|apply lookup_ge_None in Hev; lia].
  cbn [mbind outcome_bind last_avail_idx avail_idx used_idx last_used_idx_signaled].
  assert (completed k h (mk_hostq (set_last_avail (u16 (idx + 1)) (set_used (u16 (used_idx (vq h) + 1))
    (<[Z.to_nat (masked (vq h) (used_idx (vq h))) := (x, 0)]> (used_ring (vq h))) (vq h))) (sent h + 1)) idx) as HC.
  { split; simpl; [|by split|done|done| |lia|lia].
    - split; simpl; try done; try apply u16_range. by rewrite length_insert.
    - unfold id_at, slot. rewrite Hl. simpl. by rewrite Hms. }
  destruct HC as [H1 H2 H3 H4 H5 H6 H7]. simpl in *.
  destruct (_ =? avail_idx (vq h)) eqn:Eq; cbn [orb].
  - eexists. split; [reflexivity|]. split; simpl; try done; try lia; first [by destruct H1|by destruct H2].
  - apply Z.eqb_neq in Eq. destruct (lkl_vring_need_event _ _ _); eexists; (split; [reflexivity|]);
      split; simpl; try done; try lia; first [by destruct H1|by destruct H2].
Qed.

(** ** All available requests *)

(** The number of requests that the driver made available. *)
Definition available (q : virtq) : Z := u16 (avail_idx q - last_avail_idx q).

Lemma available_zero k q : queue_ok k q -> available q = 0 -> last_avail_idx q = avail_idx q.
Proof. intros [_ _ _ _ _ H1 _ H2]. unfold available, u16, wrap. Z.div_mod_to_equations. lia. Qed.

Lemma available_step k q :
  queue_ok k q -> 0 < available q ->
  last_avail_idx q ≠ avail_idx q /\ u16 (avail_idx q - u16 (last_avail_idx q + 1)) = available q - 1.
Proof. intros [_ _ _ _ _ H1 _ H2]. unfold available, u16, wrap. Z.div_mod_to_equations. lia. Qed.

Lemma u16_add_mod k q i j : queue_ok k q -> (u16 i + j) mod num q = (i + j) mod num q.
Proof.
  intros Hq. pose proof (num_range k q Hq). rewrite <- Zplus_mod_idemp_l, (u16_mod k q Hq). apply Zplus_mod_idemp_l.
Qed.

Lemma id_at_driver q q' idx : same_driver q q' -> id_at q' idx = id_at q idx.
Proof. intros [H1 _ _ _ _ H6]. unfold id_at. by rewrite H1, H6. Qed.

(** Two indices less than a queue apart have different places. *)
Lemma slot_apart k q u j :
  queue_ok k q -> 0 < j < num q -> slot q u ≠ slot q (u + j).
Proof.
  intros Hq Hj E. pose proof (num_range k q Hq). unfold slot in E.
  assert (u mod num q = (u + j) mod num q) as E'.
  { apply Z2Nat.inj in E; [done|apply Z.mod_pos_bound; lia..]. }
  assert ((u + j - u) mod num q = 0) as E0 by (rewrite Zminus_mod, E', Z.sub_diag; apply Z.mod_0_l; lia).
  replace (u + j - u) with j in E0 by lia. rewrite Z.mod_small in E0; lia.
Qed.

Record processed (n : Z) (h h' : hostq) : Prop := {
  pr_driver : same_driver (vq h) (vq h');
  pr_last : last_avail_idx (vq h') = avail_idx (vq h);
  pr_used : used_idx (vq h') = u16 (used_idx (vq h) + n);
  pr_entries : forall j, 0 <= j < n ->
    used_ring (vq h') !! slot (vq h) (used_idx (vq h) + j) = Some (id_at (vq h) (last_avail_idx (vq h) + j), 0);
  pr_others : forall i, (forall j, 0 <= j < n -> i ≠ slot (vq h) (used_idx (vq h) + j)) ->
    used_ring (vq h') !! i = used_ring (vq h) !! i;
  pr_sent : sent h <= sent h';
  pr_irq : 0 < n -> sent h < sent h' /\ avail_event (vq h') = avail_idx (vq h)
}.

Section Blk.
Context {D : Type}.
Variable pread : D -> Z -> Z -> Z * list Z.
Variable pwrite : D -> list Z -> Z -> Z * D.
Variable fsync : D -> Z * D.

Definition bufs_at (q : virtq) (idx : Z) : list iovec :=
  match request_at q idx with Done r => buf r | Failed _ => [] end.

(** The requests from [idx] on, served one after the other. *)
Fixpoint serve_all (n : nat) (q : virtq) (idx : Z) (w : blk_world (D := D)) : blk_world :=
  match n with
  | O => w
  | S n' => serve_all n' q (u16 (idx + 1)) (blk_serve pread pwrite fsync w (bufs_at q idx))
  end.

Lemma serve_all_driver n q q' idx w : same_driver q q' -> serve_all n q' idx w = serve_all n q idx w.
Proof.
  intros Hs. revert idx w. induction n as [|n IH]; intros idx w; [done|]. simpl.
  unfold bufs_at. by rewrite (request_at_driver q q' idx Hs), IH.
Qed.

Lemma blk_one k h w :
  queue_ok k (vq h) -> max_merge_len (vq h) = 0 ->
  exists h', virtio_process_one (blk_enqueue pread pwrite fsync) h w =
    Done (0, h', blk_serve pread pwrite fsync w (bufs_at (vq h) (last_avail_idx (vq h)))) /\
    completed k h h' (last_avail_idx (vq h)).
Proof.
  intros Hq Hm. destruct (request_ok k _ (last_avail_idx (vq h)) Hq Hm) as (req & Hreq & Hb).
  destruct (complete_zero k h req (last_avail_idx (vq h)) Hq Hm Hb) as (h' & Hc & HC).
  exists h'. split; [|done]. unfold virtio_process_one, bufs_at, request_at in *.
  destruct (vring_desc_at_avail_idx _ _) as [d|]; [|done]. cbn [mbind outcome_bind] in *.
  rewrite Hreq. cbn [mbind outcome_bind]. unfold blk_enqueue. by rewrite Hc.
Qed.

(** What one more request adds. *)
Lemma processed_cons k n h h1 h2 :
  0 <= n -> n + 1 <= num (vq h) -> queue_ok k (vq h) ->
  completed k h h1 (last_avail_idx (vq h)) -> processed n h1 h2 ->
  (n = 0 -> sent h < sent h2 /\ avail_event (vq h2) = avail_idx (vq h)) -> processed (n + 1) h h2.
Proof.
  intros Hn Hnum Hq [C1 C2 C3 C4 C5 C6 C7] [P1 P2 P3 P4 P5 P6 P7] H0.
  pose proof (sd_num _ _ C2) as N1. pose proof (sd_avail_idx _ _ C2) as N2.
  assert (forall j, slot (vq h1) (used_idx (vq h1) + j) = slot (vq h) (used_idx (vq h) + (j + 1))) as Hs.
  { intros j. unfold slot. rewrite N1, C3, (u16_add_mod k _ _ _ Hq). do 2 f_equal. lia. }
  split.
  - by eapply same_driver_trans.
  - congruence.
  - rewrite P3, C3. unfold u16, wrap. rewrite Zplus_mod_idemp_l. f_equal. lia.
  - intros j Hj. destruct (decide (j = 0)) as [->|Hj0].
    + rewrite P5.
      * rewrite C5, !Z.add_0_r, list_lookup_insert_eq; [done|]. pose proof (qo_used _ _ Hq).
        pose proof (num_range _ _ Hq). unfold slot.
        pose proof (Z.mod_pos_bound (used_idx (vq h)) (num (vq h)) ltac:(lia)). lia.
      * intros j Hj2. rewrite Hs, Z.add_0_r. apply (slot_apart k); [done|lia].
    + replace j with ((j - 1) + 1) at 1 by lia. rewrite <- Hs, P4 by lia.
      rewrite (id_at_driver _ _ _ C2), C4. unfold id_at. rewrite (u16_add_mod k _ _ _ Hq).
      by replace (last_avail_idx (vq h) + 1 + (j - 1)) with (last_avail_idx (vq h) + j) by lia.
  - intros i Hi. rewrite P5, C5, list_lookup_insert_ne; [done| |].
    + intros <-. apply (Hi 0); [lia|]. by rewrite Z.add_0_r.
    + intros j Hj. rewrite Hs. apply Hi. lia.
  - lia.
  - intros _. destruct (decide (n = 0)) as [E|E]; [by apply H0|]. destruct P7 as [P71 P72]; [lia|].
    split; [lia|congruence].
Qed.

Lemma process_all k n h w fuel :
  queue_ok k (vq h) -> max_merge_len (vq h) = 0 -> available (vq h) = Z.of_nat n ->
  Z.of_nat n <= num (vq h) -> (n <= fuel)%nat ->
  exists h', process_loop (blk_enqueue pread pwrite fsync) fuel h w =
    Done (h', serve_all n (vq h) (last_avail_idx (vq h)) w) /\ processed (Z.of_nat n) h h' /\ (n = O -> h' = h).
Proof.
  revert h w fuel. induction n as [|n IH]; intros h w fuel Hq Hm Hn Hnum Hf.
  - pose proof (available_zero k _ Hq Hn) as E. exists h. split.
    + destruct fuel; simpl; unfold at_end; by rewrite E, Z.eqb_refl.
    + split; [|done]. split; try done; try lia.
      rewrite Z.add_0_r. symmetry. apply Z.mod_small. by destruct Hq.
  - destruct fuel as [|fuel]; [lia|]. destruct (available_step k _ Hq) as [Hne Ha]; [lia|].
    destruct (blk_one k h w Hq Hm) as (h1 & Hone & HC). cbn [process_loop]. unfold at_end at 1.
    apply Z.eqb_neq in Hne. rewrite Hne, Hone. cbn [mbind outcome_bind]. change (0 <? 0) with false. cbv iota.
    set (h1' := mk_hostq _ (sent h1)).
    assert (completed k h h1' (last_avail_idx (vq h))) as HC'.
    { destruct HC as [C1 C2 C3 C4 C5 C6 C7]. subst h1'.
      destruct (at_end (vq h1)); split; simpl; try done; first [by destruct C1|by destruct C2]. }
    destruct (IH h1' (blk_serve pread pwrite fsync w (bufs_at (vq h) (last_avail_idx (vq h)))) fuel)
      as (h2 & H2 & HP & Hz); [by destruct HC'| | | |lia|].
    + by rewrite (sd_merge _ _ (co_driver _ _ _ _ HC')).
    + unfold available. rewrite (sd_avail_idx _ _ (co_driver _ _ _ _ HC')), (co_last _ _ _ _ HC'), Ha. lia.
    + rewrite (sd_num _ _ (co_driver _ _ _ _ HC')). lia.
    + exists h2. split; [|split; [|done]].
      * rewrite H2, (serve_all_driver _ _ _ _ _ (co_driver _ _ _ _ HC')), (co_last _ _ _ _ HC'). done.
      * replace (Z.of_nat (S n)) with (Z.of_nat n + 1) by lia. apply (processed_cons k _ h h1' h2); try done; [lia..|].
        intros E. rewrite Hz by lia. assert (u16 (last_avail_idx (vq h) + 1) = avail_idx (vq h)) as Eu.
        { pose proof (u16_range (last_avail_idx (vq h) + 1)). destruct Hq as [_ _ _ _ _ ? _ _].
          revert Ha. rewrite Hn. unfold u16 at 1, wrap. replace (Z.of_nat (S n) - 1) with 0 by lia.
          Z.div_mod_to_equations. lia. }
        split; [by apply (co_irq _ _ _ _ HC')|]. subst h1'. unfold at_end.
        rewrite (co_last _ _ _ _ HC), (sd_avail_idx _ _ (co_driver _ _ _ _ HC)), Eu, Z.eqb_refl. done.
Qed.

(** C17. The block device's queue, with the driver's part of it as the driver
    left it: if the queue has a power of two entries (at most 2^15) and the
    driver made [n] requests available, at most the size of the queue, then
    processing the queue ends within [n] rounds without an access outside the
    rings.  Every request is served exactly once and in order; its identifier is
    in the used ring, in order, at the following places, whose index has advanced
    by [n] modulo 2^16; the other entries are untouched; nothing is left over;
    and if there was a request, the enclave got an interrupt and the host asked
    to be told about the next one. *)
Theorem blk_queue_processed k h w fuel :
  queue_ok k (vq h) -> ready (vq h) = true -> max_merge_len (vq h) = 0 ->
  available (vq h) <= num (vq h) -> (Z.to_nat (available (vq h)) <= fuel)%nat ->
  exists h', blk_process_queue pread pwrite fsync fuel h w =
    Done (h', serve_all (Z.to_nat (available (vq h))) (vq h) (last_avail_idx (vq h)) w) /\
    processed (available (vq h)) h h'.
Proof.
  intros Hq Hr Hm Ha Hf. pose proof (u16_range (avail_idx (vq h) - last_avail_idx (vq h))) as Hu.
  fold (available (vq h)) in Hu.
  destruct (process_all k (Z.to_nat (available (vq h))) h w fuel) as (h' & H1 & H2 & _); try done; [lia..|].
  rewrite Z2Nat.id in H2 by lia. exists h'. unfold blk_process_queue, virtio_process_queue. by rewrite Hr.
Qed.
End Blk.

(** A queue of four entries with one request of three buffers: a read of two
    bytes from sector 0. *)
Definition sample_queue : virtq :=
  mk_virtq 4 true 0
    [mk_desc 100 16 1 1; mk_desc 200 2 3 2; mk_desc 300 1 2 0; mk_desc 0 0 0 0]
    65535 [0; 0; 0; 0; 0] 65534 [(7, 7); (7, 7); (7, 7); (7, 7)] 0 65534 65534.
Definition sample_pread (d : list Z) (len off : Z) : Z * list Z :=
  let l := take (Z.to_nat len) (drop (Z.to_nat off) d) in (Z.of_nat (length l), l).
Definition sample_pwrite (d : list Z) (bytes : list Z) (off : Z) : Z * list Z :=
  (Z.of_nat (length bytes), take (Z.to_nat off) d ++ bytes ++ drop (Z.to_nat off + length bytes) d).
Definition sample_fsync (d : list Z) : Z * list Z := (0, d).

Lemma sample_queue_ok : queue_ok 2 sample_queue.
Proof. by split. Qed.

Lemma blk_queue_processed_witness :
  exists h', blk_process_queue sample_pread sample_pwrite sample_fsync 1 (mk_hostq sample_queue 0)
      (fun _ => 0, [11; 22; 33]) =
    Done (h', serve_all sample_pread sample_pwrite sample_fsync 1 sample_queue 65534 (fun _ => 0, [11; 22; 33])) /\
    processed 1 (mk_hostq sample_queue 0) h'.
Proof.
  apply (blk_queue_processed sample_pread sample_pwrite sample_fsync 2 (mk_hostq sample_queue 0)
    (fun _ => 0, [11; 22; 33]) 1); [apply sample_queue_ok|reflexivity..|vm_compute; discriminate|apply le_n].
Defined.

(** The memory after that: the data, the status. *)
Example sample_read :
  let w := serve_all sample_pread sample_pwrite sample_fsync 1 sample_queue 65534 (fun _ => 0, [11; 22; 33]) in
  (fst w 200, fst w 201, fst w 202, fst w 300) = (11, 22, 0, 2).
Proof. reflexivity. Qed.

(** ** How many used entries a request takes *)

(** A request of a queue without merging takes one used entry if it is
    completed with a length below 2^16; with a larger length, whose upper half
    the 16-bit length of an entry cannot hold, it takes one for each of its
    buffers, and as many available requests are skipped. *)
Theorem used_entries_count k q bufs u a len :
  queue_ok k q -> max_merge_len q = 0 -> bufs ≠ [] -> 0 <= len < 2 ^ 32 ->
  exists q', add_used_entries q bufs u a len =
    Done (q', u16 (u + (if len <? 2 ^ 16 then 1 else Z.of_nat (length bufs))),
              u16 (a + (if len <? 2 ^ 16 then 1 else Z.of_nat (length bufs)))).
Proof.
  intros Hq Hm Hb Hlen. revert q u a len Hq Hm Hlen. induction bufs as [|b bufs IH]; intros q u a len Hq Hm Hlen; [done|].
  cbn [add_used_entries]. rewrite Hm. cbn [truthy negb Z.eqb].
  destruct (get_avail k q Hq a) as (x & Hx & _). unfold virtio_add_used. rewrite Hx. cbn [mbind outcome_bind].
  pose proof (masked_range k q Hq u) as Hu. pose proof (qo_used k q Hq) as Hur. rewrite decide_True by lia.
  cbn [mbind outcome_bind]. set (q' := set_used _ _ q).
  assert (queue_ok k q') as Hq' by (destruct Hq; split; simpl; try done; by rewrite length_insert).
  assert (u32 (len - u16 len) = 2 ^ 16 * (len / 2 ^ 16)) as Hrest.
  { pose proof (Z.div_mod len (2 ^ 16) ltac:(lia)). rewrite u32_small; unfold u16, wrap; [lia|].
    pose proof (Z.mod_pos_bound len (2 ^ 16)). lia. }
  rewrite Hrest. destruct (Z.ltb_spec len (2 ^ 16)) as [Hs|Hs].
  - rewrite Z.div_small by lia. exists q'. done.
  - assert (1 <= len / 2 ^ 16) by (apply Z.div_le_lower_bound; lia).
    assert (2 ^ 16 * (len / 2 ^ 16) <= len) by (apply Z.mul_div_le; lia).
    unfold truthy. rewrite (proj2 (Z.eqb_neq _ _)) by lia. cbn [negb]. destruct bufs as [|b' bufs].
    + exists q'. done.
    + destruct (IH ltac:(done) q' (u16 (u + 1)) (u16 (a + 1)) (2 ^ 16 * (len / 2 ^ 16)) Hq' Hm) as [q2 ->]; [lia|].
      rewrite (proj2 (Z.ltb_ge _ _)) by lia. exists q2. unfold u16, wrap.
      rewrite !Zplus_mod_idemp_l. do 2 f_equal; [f_equal|]; f_equal; simpl length; lia.
Qed.

Lemma used_entries_count_witness :
  exists q', add_used_entries sample_queue [mk_iovec 0 65536; mk_iovec 0 4096] 5 9 69632 = Done (q', 7, 11).
Proof.
  apply (used_entries_count 2 sample_queue [mk_iovec 0 65536; mk_iovec 0 4096] 5 9 69632);
    [apply sample_queue_ok|reflexivity|discriminate|lia].
Defined.

(** ** The status of a block request *)

Lemma store_at_byte mem p b a : store_at mem p [b] a = if a =? p then b else mem a.
Proof.
  unfold store_at. cbn [length Z.of_nat]. change (Z.of_nat 1) with 1. destruct (Z.eqb_spec a p) as [->|Hn].
  - destruct (Z.leb_spec p p), (Z.ltb_spec p (p + 1)); try lia. simpl. by rewrite Z.sub_diag.
  - destruct (Z.leb_spec p a), (Z.ltb_spec a (p + 1)); simpl; try done. lia.
Qed.

(** The status byte of a request of three proper buffers is the low byte of
    the operation's result: a read or write is reported as successful exactly if
    the number of bytes it transferred, or its negative error, is a multiple of
    256, whether or not that is all that was asked for. *)
Theorem blk_status_ok {D} (pread : D -> Z -> Z -> Z * list Z) pwrite fsync mem disk hdr data trl :
  iov_len hdr = sizeof_outhdr -> iov_len trl = sizeof_trailer ->
  let mem1 := store_at mem (iov_base trl) [LKL_DEV_BLK_STATUS_IOERR] in
  let type := little_endian mem1 (iov_base hdr) 4 in
  let offset := s64 (u64 (little_endian mem1 (iov_base hdr + 8) 8 * 512)) in
  let n := if type =? LKL_DEV_BLK_TYPE_READ then fst (pread disk (iov_len data) offset)
           else fst (pwrite disk (load_from mem1 (iov_base data) (iov_len data)) offset) in
  type = LKL_DEV_BLK_TYPE_READ \/ type = LKL_DEV_BLK_TYPE_WRITE ->
  - 2 ^ 31 <= n < 2 ^ 31 ->
  fst (blk_serve pread pwrite fsync (mem, disk) [hdr; data; trl]) (iov_base trl) = 0 <-> n mod 256 = 0.
Proof.
  intros Hh Ht mem1 type offset n Htype Hn. unfold blk_serve. cbn [last]. rewrite Hh, Ht, !Z.eqb_refl. cbn [negb].
  fold mem1. fold type. unfold blk_operation. fold offset. subst n.
  destruct Htype as [E|E]; rewrite E in *; cbn [Z.eqb] in *.
  - change (LKL_DEV_BLK_TYPE_READ =? LKL_DEV_BLK_TYPE_READ) with true in *. cbv iota in *.
    destruct (pread disk (iov_len data) offset) as [r bytes]. cbn [fst] in *.
    rewrite store_at_byte, Z.eqb_refl, s32_small by lia. done.
  - change (LKL_DEV_BLK_TYPE_WRITE =? LKL_DEV_BLK_TYPE_READ) with false in *.
    change (LKL_DEV_BLK_TYPE_WRITE =? LKL_DEV_BLK_TYPE_WRITE) with true. cbv iota in *.
    destruct (pwrite disk _ offset) as [r disk']. cbn [fst] in *.
    rewrite store_at_byte, Z.eqb_refl, s32_small by lia. done.
Qed.

(** A read of 1024 bytes of which the file has 256. *)
Lemma blk_status_ok_witness :
  fst (blk_serve sample_pread sample_pwrite sample_fsync (fun _ => 0, replicate 256 5)
    [mk_iovec 100 16; mk_iovec 200 1024; mk_iovec 2000 1]) 2000 = 0 <-> 256 mod 256 = 0.
Proof.
  apply (blk_status_ok sample_pread sample_pwrite sample_fsync (fun _ => 0) (replicate 256 5)
    (mk_iovec 100 16) (mk_iovec 200 1024) (mk_iovec 2000 1));
    [reflexivity|reflexivity|left; reflexivity|vm_compute; split; [discriminate|reflexivity]].
Defined.
