(* ===== verification/VirtioMmio.v ===== *)
(** * VirtioMmio: the registers of a virtio device
    (src/lkl/virtio.c, src/include/lkl/virtio.h, src/include/shared/virtio_ring_buff.h)

    The kernel in the enclave sees a virtio device as a page of memory-mapped
    registers.  [virtio_read] and [virtio_write] serve the accesses on the
    structure that the enclave shares with the host; [lkl_virtio_dev_setup]
    makes a device known to the kernel.  An access outside the queues or the
    configuration space of the device is a fault. *)

From S2P Require Import Prelude Bitops.

Definition VIRTIO_DEV_MAGIC : Z := 0x74726976.
Definition VIRTIO_DEV_VERSION : Z := 2.
Definition VIRTIO_MMIO_CONFIG : Z := 0x100.
Definition LKL_VIRTIO_CONFIG_S_FEATURES_OK : Z := 8.
Definition LKL_VIRTIO_F_VERSION_1 : Z := 32.
Definition LKL_VIRTIO_RING_F_EVENT_IDX : Z := 29.
Definition BIT (x : Z) : Z := Z.shiftl 1 x.

(** The registers (linux/virtio_mmio.h). *)
Inductive mmio_reg : Type :=
| MAGIC_VALUE | VERSION | DEVICE_ID | VENDOR_ID | DEVICE_FEATURES | DEVICE_FEATURES_SEL
| DRIVER_FEATURES | DRIVER_FEATURES_SEL | QUEUE_SEL | QUEUE_NUM_MAX | QUEUE_NUM | QUEUE_READY
| QUEUE_NOTIFY | INTERRUPT_STATUS | INTERRUPT_ACK | STATUS | QUEUE_DESC_LOW | QUEUE_DESC_HIGH
| QUEUE_AVAIL_LOW | QUEUE_AVAIL_HIGH | QUEUE_USED_LOW | QUEUE_USED_HIGH | CONFIG_GENERATION.

Definition reg_offset (r : mmio_reg) : Z :=
  match r with
  | MAGIC_VALUE => 0x000 | VERSION => 0x004 | DEVICE_ID => 0x008 | VENDOR_ID => 0x00c
  | DEVICE_FEATURES => 0x010 | DEVICE_FEATURES_SEL => 0x014
  | DRIVER_FEATURES => 0x020 | DRIVER_FEATURES_SEL => 0x024
  | QUEUE_SEL => 0x030 | QUEUE_NUM_MAX => 0x034 | QUEUE_NUM => 0x038 | QUEUE_READY => 0x044
  | QUEUE_NOTIFY => 0x050 | INTERRUPT_STATUS => 0x060 | INTERRUPT_ACK => 0x064 | STATUS => 0x070
  | QUEUE_DESC_LOW => 0x080 | QUEUE_DESC_HIGH => 0x084
  | QUEUE_AVAIL_LOW => 0x090 | QUEUE_AVAIL_HIGH => 0x094
  | QUEUE_USED_LOW => 0x0a0 | QUEUE_USED_HIGH => 0x0a4 | CONFIG_GENERATION => 0x0fc
  end.

Definition all_regs : list mmio_reg :=
  [MAGIC_VALUE; VERSION; DEVICE_ID; VENDOR_ID; DEVICE_FEATURES; DEVICE_FEATURES_SEL;
   DRIVER_FEATURES; DRIVER_FEATURES_SEL; QUEUE_SEL; QUEUE_NUM_MAX; QUEUE_NUM; QUEUE_READY;
   QUEUE_NOTIFY; INTERRUPT_STATUS; INTERRUPT_ACK; STATUS; QUEUE_DESC_LOW; QUEUE_DESC_HIGH;
   QUEUE_AVAIL_LOW; QUEUE_AVAIL_HIGH; QUEUE_USED_LOW; QUEUE_USED_HIGH; CONFIG_GENERATION].

(** The register at an offset: the labels of the two [switch] statements. *)
Definition reg_at (offset : Z) : option mmio_reg :=
  snd <$> list_find (fun r => reg_offset r = offset) all_regs.

(** ** Devices *)

Record virtq : Type := mk_virtq {
  num_max : Z; num : Z; ready : Z; desc : Z; avail : Z; used : Z }.

Record virtio_dev : Type := mk_dev {
  device_id : Z; vendor_id : Z; device_features : Z; device_features_sel : Z;
  driver_features : Z; driver_features_sel : Z; queue_sel : Z; queue : list virtq;
  int_status : Z; status : Z; config_gen : Z; config_data : list Z; config_len : Z }.

Definition set_device_features_sel (v : Z) (d : virtio_dev) : virtio_dev :=
  mk_dev (device_id d) (vendor_id d) (device_features d) v (driver_features d) (driver_features_sel d) (queue_sel d)
    (queue d) (int_status d) (status d) (config_gen d) (config_data d) (config_len d).
Definition set_driver_features (v : Z) (d : virtio_dev) : virtio_dev :=
  mk_dev (device_id d) (vendor_id d) (device_features d) (device_features_sel d) v (driver_features_sel d)
    (queue_sel d) (queue d) (int_status d) (status d) (config_gen d) (config_data d) (config_len d).
Definition set_driver_features_sel (v : Z) (d : virtio_dev) : virtio_dev :=
  mk_dev (device_id d) (vendor_id d) (device_features d) (device_features_sel d) (driver_features d) v (queue_sel d)
    (queue d) (int_status d) (status d) (config_gen d) (config_data d) (config_len d).
Definition set_queue_sel (v : Z) (d : virtio_dev) : virtio_dev :=
  mk_dev (device_id d) (vendor_id d) (device_features d) (device_features_sel d) (driver_features d)
    (driver_features_sel d) v (queue d) (int_status d) (status d) (config_gen d) (config_data d) (config_len d).
Definition set_queue (v : list virtq) (d : virtio_dev) : virtio_dev :=
  mk_dev (device_id d) (vendor_id d) (device_features d) (device_features_sel d) (driver_features d)
    (driver_features_sel d) (queue_sel d) v (int_status d) (status d) (config_gen d) (config_data d) (config_len d).
Definition set_int_status (v : Z) (d : virtio_dev) : virtio_dev :=
  mk_dev (device_id d) (vendor_id d) (device_features d) (device_features_sel d) (driver_features d)
    (driver_features_sel d) (queue_sel d) (queue d) v (status d) (config_gen d) (config_data d) (config_len d).
Definition set_dev_status (v : Z) (d : virtio_dev) : virtio_dev :=
  mk_dev (device_id d) (vendor_id d) (device_features d) (device_features_sel d) (driver_features d)
    (driver_features_sel d) (queue_sel d) (queue d) (int_status d) v (config_gen d) (config_data d) (config_len d).
Definition set_config_data (v : list Z) (d : virtio_dev) : virtio_dev :=
  mk_dev (device_id d) (vendor_id d) (device_features d) (device_features_sel d) (driver_features d)
    (driver_features_sel d) (queue_sel d) (queue d) (int_status d) (status d) (config_gen d) v (config_len d).

(** ** Reading *)

Inductive mmio_result : Type :=
| Error (ret : Z)       (* a negative return value, [*res] untouched *)
| Word (val : Z)        (* 0, a 32-bit value in [*res] *)
| Bytes (l : list Z).   (* 0, bytes of the configuration space in [*res] *)

Definition virtio_read_device_features (d : virtio_dev) : Z :=
  if truthy (device_features_sel d) then u32 (Z.shiftr (device_features d) 32) else u32 (device_features d).

Definition selected (d : virtio_dev) : outcome virtq :=
  match queue d !! Z.to_nat (queue_sel d) with
  | Some q => Done q
  | None => Failed (BadPointer (queue_sel d))
  end.

Definition virtio_read (d : virtio_dev) (offset size : Z) : outcome mmio_result :=
  if VIRTIO_MMIO_CONFIG <=? offset then
    let offset := offset - VIRTIO_MMIO_CONFIG in
    if config_len d <? offset + size then Done (Error (- EINVAL))
    else if decide (0 <= size /\ offset + size <= Z.of_nat (length (config_data d))) then
      Done (Bytes (take (Z.to_nat size) (drop (Z.to_nat offset) (config_data d))))
    else Failed (BadPointer offset)
  else if negb (size =? 4) then Done (Error (- EINVAL))
  else
    match reg_at offset with
    | Some MAGIC_VALUE => Done (Word VIRTIO_DEV_MAGIC)
    | Some VERSION => Done (Word VIRTIO_DEV_VERSION)
    | Some DEVICE_ID => Done (Word (device_id d))
    | Some VENDOR_ID => Done (Word (vendor_id d))
    | Some DEVICE_FEATURES => Done (Word (virtio_read_device_features d))
    | Some QUEUE_NUM_MAX => q ← selected d; Done (Word (num_max q))
    | Some QUEUE_READY => q ← selected d; Done (Word (ready q))
    | Some INTERRUPT_STATUS => Done (Word (int_status d))
    | Some STATUS => Done (Word (status d))
    | Some CONFIG_GENERATION => Done (Word (config_gen d))
    | _ => Done (Error (-1))
    end.

(** ** Writing *)

Definition virtio_write_driver_features (d : virtio_dev) (val : Z) : virtio_dev :=
  if truthy (driver_features_sel d) then
    let tmp := Z.land (driver_features d) 0xFFFFFFFF in
    set_driver_features (Z.lor tmp (u64 (Z.shiftl val 32))) d
  else
    let tmp := Z.land (driver_features d) 0xFFFFFFFF00000000 in
    set_driver_features (Z.lor tmp val) d.

Definition blk_check_features (d : virtio_dev) : Z :=
  if driver_features d =? device_features d then 0 else - EINVAL.

Definition set_status (d : virtio_dev) (val : Z) : virtio_dev :=
  let val :=
    if truthy (Z.land val LKL_VIRTIO_CONFIG_S_FEATURES_OK) &&
       (negb (truthy (Z.land (driver_features d) (BIT LKL_VIRTIO_F_VERSION_1))) ||
        negb (truthy (Z.land (driver_features d) (BIT LKL_VIRTIO_RING_F_EVENT_IDX))) ||
        truthy (blk_check_features d))
    then Z.land val (u32 (Z.lnot LKL_VIRTIO_CONFIG_S_FEATURES_OK)) else val in
  set_dev_status val d.

(** The compare-and-exchange loop of [set_ptr_low] and [set_ptr_high]: the value
    the pointer has at each attempt, and whether the exchange fails although it
    is the expected one.  The result is the value that was replaced and the one
    that was stored. *)
Fixpoint cas_loop (desired : Z -> Z) (expected : Z) (attempts : list (Z * bool)) : option (Z * Z) :=
  match attempts with
  | [] => None
  | (cur, spurious) :: rest =>
      if (cur =? expected) && negb spurious then Some (cur, desired expected)
      else cas_loop desired cur rest
  end.

Definition ptr_low (val expected : Z) : Z := Z.lor (Z.land expected 0xFFFFFFFF00000000) val.
Definition ptr_high (val expected : Z) : Z :=
  Z.lor (Z.land expected 0x00000000FFFFFFFF) (u64 (Z.shiftl val 32)).

(** A successful exchange replaces the value of that moment. *)
Lemma cas_loop_atomic f expected attempts cur new :
  cas_loop f expected attempts = Some (cur, new) -> new = f cur.
Proof.
  revert expected. induction attempts as [|[c s] rest IH]; intros expected; simpl; [done|].
  destruct (Z.eqb_spec c expected) as [->|]; [destruct s|]; simpl; intros H; [by eapply IH|congruence|by eapply IH].
Qed.

(** With no other writer one attempt after the last spurious failure is enough. *)
Lemma cas_loop_alone f v n : cas_loop f v (replicate n (v, true) ++ [(v, false)]) = Some (v, f v).
Proof. induction n as [|n IH]; simpl; rewrite Z.eqb_refl; [done|apply IH]. Qed.

Definition with_num (v : Z) (q : virtq) : virtq := mk_virtq (num_max q) v (ready q) (desc q) (avail q) (used q).
Definition with_ready (v : Z) (q : virtq) : virtq := mk_virtq (num_max q) (num q) v (desc q) (avail q) (used q).
Definition with_desc (f : Z -> Z) (q : virtq) : virtq :=
  mk_virtq (num_max q) (num q) (ready q) (f (desc q)) (avail q) (used q).
Definition with_avail (f : Z -> Z) (q : virtq) : virtq :=
  mk_virtq (num_max q) (num q) (ready q) (desc q) (f (avail q)) (used q).
Definition with_used (f : Z -> Z) (q : virtq) : virtq :=
  mk_virtq (num_max q) (num q) (ready q) (desc q) (avail q) (f (used q)).

Definition on_selected (f : virtq -> virtq) (d : virtio_dev) : outcome virtio_dev :=
  q ← selected d; Done (set_queue (<[Z.to_nat (queue_sel d) := f q]> (queue d)) d).

(** The calls of [vio_enclave_notify_enclave_event], by device and queue. *)
Definition notice : Type := Z * Z.
Definition virtio_notify_host_device (d : virtio_dev) (qidx : Z) : notice := (u8 (vendor_id d), qidx).

(** [*(uint32_t * )res] *)
Definition word_of (res : list Z) : Z :=
  match res with
  | b0 :: b1 :: b2 :: b3 :: _ => b0 + 256 * b1 + 65536 * b2 + 16777216 * b3
  | _ => 0
  end.

Definition write_reg (d : virtio_dev) (r : mmio_reg) (val : Z) : outcome (Z * virtio_dev * list notice) :=
  let ok (m : outcome virtio_dev) := d' ← m; Done (0, d', []) in
  match r with
  | DEVICE_FEATURES_SEL => if 1 <? val then Done (- EINVAL, d, []) else Done (0, set_device_features_sel val d, [])
  | DRIVER_FEATURES_SEL => if 1 <? val then Done (- EINVAL, d, []) else Done (0, set_driver_features_sel val d, [])
  | DRIVER_FEATURES => Done (0, virtio_write_driver_features d val, [])
  | QUEUE_SEL => Done (0, set_queue_sel val d, [])
  | QUEUE_NUM => ok (on_selected (with_num val) d)
  | QUEUE_READY => ok (on_selected (with_ready val) d)
  | QUEUE_NOTIFY => Done (0, d, [virtio_notify_host_device d val])
  | INTERRUPT_ACK => Done (0, set_int_status 0 d, [])
  | STATUS => Done (0, set_status d val, [])
  | QUEUE_DESC_LOW => ok (on_selected (with_desc (ptr_low val)) d)
  | QUEUE_DESC_HIGH => ok (on_selected (with_desc (ptr_high val)) d)
  | QUEUE_AVAIL_LOW => ok (on_selected (with_avail (ptr_low val)) d)
  | QUEUE_AVAIL_HIGH => ok (on_selected (with_avail (ptr_high val)) d)
  | QUEUE_USED_LOW => ok (on_selected (with_used (ptr_low val)) d)
  | QUEUE_USED_HIGH => ok (on_selected (with_used (ptr_high val)) d)
  | _ => Done (-1, d, [])
  end.

Definition virtio_write (d : virtio_dev) (offset : Z) (res : list Z) (size : Z) :
    outcome (Z * virtio_dev * list notice) :=
  if VIRTIO_MMIO_CONFIG <=? offset then
    let offset := offset - VIRTIO_MMIO_CONFIG in
    if config_len d <=? offset + size then Done (- EINVAL, d, [])
    else if decide (0 <= size /\ offset + size <= Z.of_nat (length (config_data d))) then
      Done (0, set_config_data (take (Z.to_nat offset) (config_data d) ++ take (Z.to_nat size) res ++
                                drop (Z.to_nat (offset + size)) (config_data d)) d, [])
    else Failed (BadPointer offset)
  else if negb (size =? 4) then Done (- EINVAL, d, [])
  else
    match reg_at offset with
    | Some r => write_reg d r (word_of res)
    | None => Done (-1, d, [])
    end.

(** ** The two halves of a 64-bit value *)

Lemma low_half p : Z.land p 0xFFFFFFFF = p mod 2 ^ 32.
Proof. apply (Z.land_ones p 32). lia. Qed.

Lemma high_half p : 0 <= p < 2 ^ 64 -> Z.land p 0xFFFFFFFF00000000 = p / 2 ^ 32 * 2 ^ 32.
Proof.
  intros Hp. rewrite <- Z.shiftr_div_pow2, <- Z.shiftl_mul_pow2 by lia. apply Z.bits_inj'. intros i Hi.
  rewrite Z.land_spec, Z.shiftl_spec by lia.
  change 0xFFFFFFFF00000000 with (Z.shiftl (Z.ones 32) 32). rewrite Z.shiftl_spec by lia.
  destruct (Z.ltb_spec i 32).
  - rewrite (Z.testbit_neg_r _ (i - 32)) by lia. rewrite (Z.testbit_neg_r _ (i - 32)) by lia. apply andb_false_r.
  - rewrite Z.shiftr_spec by lia. replace (i - 32 + 32) with i by lia.
    destruct (Z.ltb_spec i 64).
    + rewrite Z.ones_spec_low by lia. apply andb_true_r.
    + by rewrite (testbit_above p i Hp) by lia.
Qed.

Lemma join_halves hi lo : 0 <= lo < 2 ^ 32 -> Z.lor (hi * 2 ^ 32) lo = hi * 2 ^ 32 + lo.
Proof.
  intros Hlo. assert (Z.land (hi * 2 ^ 32) lo = 0) as H0.
  { rewrite <- Z.shiftl_mul_pow2 by lia. apply Z.bits_inj'. intros i Hi. rewrite Z.land_spec, Z.bits_0, Z.shiftl_spec by lia.
    destruct (Z.ltb_spec i 32); [by rewrite Z.testbit_neg_r by lia|].
    rewrite <- (Z.mod_small lo (2 ^ 32)) by lia. rewrite Z.mod_pow2_bits_high by lia. apply andb_false_r. }
  rewrite (Z.add_nocarry_lxor _ _ H0). symmetry. apply Z.lxor_lor, H0.
Qed.

Lemma shifted_word v : 0 <= v < 2 ^ 32 -> u64 (Z.shiftl v 32) = v * 2 ^ 32.
Proof. intros Hv. rewrite Z.shiftl_mul_pow2 by lia. apply u64_small. lia. Qed.

Lemma ptr_low_spec v p : 0 <= p < 2 ^ 64 -> 0 <= v < 2 ^ 32 -> ptr_low v p = p / 2 ^ 32 * 2 ^ 32 + v.
Proof. intros Hp Hv. unfold ptr_low. by rewrite high_half, join_halves. Qed.

Lemma ptr_high_spec v p : 0 <= v < 2 ^ 32 -> ptr_high v p = v * 2 ^ 32 + p mod 2 ^ 32.
Proof.
  intros Hv. unfold ptr_high. rewrite shifted_word, low_half by done. rewrite Z.lor_comm.
  apply join_halves, Z.mod_pos_bound. lia.
Qed.

Lemma halves_range hi lo : 0 <= hi < 2 ^ 32 -> 0 <= lo < 2 ^ 32 -> 0 <= hi * 2 ^ 32 + lo < 2 ^ 64.
Proof. lia. Qed.

Lemma ptr_low_range v p : 0 <= p < 2 ^ 64 -> 0 <= v < 2 ^ 32 -> 0 <= ptr_low v p < 2 ^ 64.
Proof.
  intros Hp Hv. rewrite ptr_low_spec by done. apply halves_range; [|done].
  split; [apply Z.div_pos; lia|apply Z.div_lt_upper_bound; lia].
Qed.

Lemma ptr_high_range v p : 0 <= v < 2 ^ 32 -> 0 <= ptr_high v p < 2 ^ 64.
Proof. intros Hv. rewrite ptr_high_spec by done. apply halves_range; [done|apply Z.mod_pos_bound; lia]. Qed.

(** The two halves written one after the other, in either order. *)
Lemma low_over_high hi lo p : 0 <= hi < 2 ^ 32 -> 0 <= lo < 2 ^ 32 -> ptr_low lo (ptr_high hi p) = hi * 2 ^ 32 + lo.
Proof.
  intros Hh Hl. pose proof (ptr_high_range hi p Hh). rewrite ptr_low_spec, ptr_high_spec by done.
  rewrite Z.div_add_l, (Z.div_small (_ mod _)) by (lia || (apply Z.mod_pos_bound; lia)). lia.
Qed.

Lemma high_over_low hi lo p :
  0 <= p < 2 ^ 64 -> 0 <= hi < 2 ^ 32 -> 0 <= lo < 2 ^ 32 -> ptr_high hi (ptr_low lo p) = hi * 2 ^ 32 + lo.
Proof.
  intros Hp Hh Hl. rewrite ptr_high_spec, ptr_low_spec by done.
  rewrite Z.add_comm, Z.add_comm with (n := p / 2 ^ 32 * 2 ^ 32), Z_mod_plus_full, Z.mod_small by done. lia.
Qed.

(** ** Devices whose fields have their C types *)

Definition is_u32 (z : Z) : Prop := 0 <= z < 2 ^ 32.
Definition is_u64 (z : Z) : Prop := 0 <= z < 2 ^ 64.
Definition is_byte (z : Z) : Prop := 0 <= z < 256.

Record virtq_typed (q : virtq) : Prop := {
  vt_num_max : is_u32 (num_max q); vt_num : is_u32 (num q); vt_ready : is_u32 (ready q);
  vt_desc : is_u64 (desc q); vt_avail : is_u64 (avail q); vt_used : is_u64 (used q) }.

Record dev_typed (d : virtio_dev) : Prop := {
  dt_device_id : is_u32 (device_id d); dt_vendor_id : is_u32 (vendor_id d);
  dt_device_features : is_u64 (device_features d); dt_device_sel : 0 <= device_features_sel d <= 1;
  dt_driver_features : is_u64 (driver_features d); dt_driver_sel : 0 <= driver_features_sel d <= 1;
  dt_queue_sel : 0 <= queue_sel d < Z.of_nat (length (queue d));
  dt_queues : Forall virtq_typed (queue d);
  dt_int_status : is_u32 (int_status d); dt_status : is_u32 (status d); dt_config_gen : is_u32 (config_gen d);
  dt_config : Z.of_nat (length (config_data d)) = config_len d; dt_bytes : Forall is_byte (config_data d) }.

(** An access of the driver: an offset, the bytes it writes. *)
Record access : Type := mk_access { a_offset : Z; a_bytes : list Z }.

Definition a_size (a : access) : Z := Z.of_nat (length (a_bytes a)).

(** What a driver may do: bytes, and only queues that exist are selected. *)
Definition access_ok (nqueues : nat) (a : access) : Prop :=
  Forall is_byte (a_bytes a) /\
  (a_offset a = reg_offset QUEUE_SEL -> word_of (a_bytes a) < Z.of_nat nqueues).

Definition apply_access (d : virtio_dev) (a : access) : outcome (Z * virtio_dev * list notice) :=
  virtio_write d (a_offset a) (a_bytes a) (a_size a).

(** A sequence of writes; the return values do not stop the driver. *)
Fixpoint run_accesses (d : virtio_dev) (l : list access) : outcome (virtio_dev * list notice) :=
  match l with
  | [] => Done (d, [])
  | a :: l' =>
      '(_, d, ns) ← apply_access d a;
      '(d, ns') ← run_accesses d l';
      Done (d, ns ++ ns')
  end.

Lemma word_of_range l : Forall is_byte l -> is_u32 (word_of l).
Proof.
  unfold is_byte, is_u32. intros H. destruct l as [|b0 [|b1 [|b2 [|b3 l]]]]; simpl; try lia.
  repeat (apply Forall_cons in H as [? H]). lia.
Qed.

Lemma selected_ok d : dev_typed d -> exists q, selected d = Done q /\ virtq_typed q.
Proof.
  intros Hd. pose proof (dt_queue_sel d Hd). unfold selected.
  destruct (queue d !! Z.to_nat (queue_sel d)) as [q|] eqn:E.
  - exists q. split; [done|]. eapply Forall_lookup_1; [apply (dt_queues d Hd)|done].
  - apply lookup_ge_None in E. lia.
Qed.

(** [write_reg] on a typed device: no fault, and a typed device with the same
    queues. *)
Definition keeps (d : virtio_dev) (m : outcome (Z * virtio_dev * list notice)) : Prop :=
  exists r d' ns, m = Done (r, d', ns) /\ dev_typed d' /\ length (queue d') = length (queue d).

Lemma on_selected_keeps d f :
  dev_typed d -> (forall q, virtq_typed q -> virtq_typed (f q)) ->
  keeps d (d' ← on_selected f d; Done (0, d', [])).
Proof.
  intros Hd Hf. destruct (selected_ok d Hd) as (q & Hs & Hq). unfold on_selected. rewrite Hs. cbn [mbind outcome_bind].
  eexists _, _, _. split; [reflexivity|]. split; [|simpl; by rewrite length_insert].
  destruct Hd. split; simpl; try done; [by rewrite length_insert|]. apply Forall_insert; auto.
Qed.

Lemma lor_mask_range a b : is_u64 a -> is_u64 b -> is_u64 (Z.lor a b).
Proof. apply lor_range. Qed.

Lemma driver_features_typed d v : dev_typed d -> is_u32 v -> dev_typed (virtio_write_driver_features d v).
Proof.
  intros Hd Hv. pose proof (dt_driver_features d Hd) as Hf. unfold virtio_write_driver_features.
  destruct (truthy _); destruct Hd; split; simpl; try done.
  - rewrite Z.lor_comm, shifted_word, low_half by done.
    rewrite join_halves by (apply Z.mod_pos_bound; lia). apply halves_range; [done|apply Z.mod_pos_bound; lia].
  - by apply ptr_low_range.
Qed.

Lemma set_status_typed d v : dev_typed d -> is_u32 v -> dev_typed (set_status d v).
Proof.
  intros Hd Hv. unfold set_status. destruct (_ && _); destruct Hd; split; simpl; try done.
  change (u32 (Z.lnot LKL_VIRTIO_CONFIG_S_FEATURES_OK)) with (2 ^ 32 - 9).
  unfold is_u32 in *. split; [apply Z.land_nonneg; lia|].
  destruct (Z.eq_dec (Z.land v (2 ^ 32 - 9)) 0) as [->|Hn]; [lia|].
  assert (0 <= Z.land v (2 ^ 32 - 9)) by (apply Z.land_nonneg; lia).
  apply Z.log2_lt_pow2; [lia|]. eapply Z.le_lt_trans; [apply Z.log2_land; lia|].
  destruct (Z.eq_dec v 0) as [->|]; [done|]. pose proof (proj1 (Z.log2_lt_pow2 v 32 ltac:(lia)) ltac:(lia)). lia.
Qed.

Lemma keeps_simple d d' r ns :
  dev_typed d' -> length (queue d') = length (queue d) -> keeps d (Done (r, d', ns)).
Proof. intros H1 H2. by exists r, d', ns. Qed.

Lemma write_reg_typed d r v :
  dev_typed d -> is_u32 v -> (r = QUEUE_SEL -> v < Z.of_nat (length (queue d))) -> keeps d (write_reg d r v).
Proof.
  intros Hd Hv Hsel. unfold is_u32 in Hv.
  destruct r; cbn [write_reg]; cbv zeta;
    try (apply on_selected_keeps; [done|]; intros q []; split; simpl; try done;
         first [by apply ptr_low_range|by apply ptr_high_range]);
    try (by apply keeps_simple).
  - destruct (Z.ltb_spec 1 v); apply keeps_simple; try done. destruct Hd; split; simpl; try done. lia.
  - apply keeps_simple; [by apply driver_features_typed|]. unfold virtio_write_driver_features. by destruct (truthy _).
  - destruct (Z.ltb_spec 1 v); apply keeps_simple; try done. destruct Hd; split; simpl; try done. lia.
  - apply keeps_simple; [|done]. specialize (Hsel eq_refl). destruct Hd; split; simpl; try done. lia.
  - apply keeps_simple; [|done]. destruct Hd; split; simpl; try done.
  - apply keeps_simple; [by apply set_status_typed|]. unfold set_status. by destruct (_ && _).
Qed.

Lemma reg_at_some offset r : reg_at offset = Some r -> reg_offset r = offset.
Proof.
  unfold reg_at. destruct (list_find _ all_regs) as [[i r']|] eqn:E; simpl; [|done].
  intros [= ->]. by apply list_find_Some in E as (_ & H & _).
Qed.

Lemma reg_at_offset r : reg_at (reg_offset r) = Some r.
Proof. by destruct r. Qed.

Lemma access_typed d a : dev_typed d -> access_ok (length (queue d)) a -> keeps d (apply_access d a).
Proof.
  intros Hd [Hb Hsel]. pose proof (dt_config d Hd) as Hc. unfold apply_access, virtio_write.
  destruct (Z.leb_spec VIRTIO_MMIO_CONFIG (a_offset a)) as [Ho|Ho].
  - destruct (Z.leb_spec (config_len d) (a_offset a - VIRTIO_MMIO_CONFIG + a_size a)); [by apply keeps_simple|].
    rewrite decide_True by (unfold a_size in *; lia). apply keeps_simple; [|done].
    unfold a_size in *. rewrite (take_ge (a_bytes a)) by lia.
    destruct Hd; split; simpl; try done.
    + rewrite !length_app, length_take, length_drop. lia.
    + apply Forall_app; split; [by apply Forall_take|]. apply Forall_app; split; [done|]. by apply Forall_drop.
  - destruct (negb (a_size a =? 4)); [by apply keeps_simple|].
    destruct (reg_at (a_offset a)) as [r|] eqn:Er; [|by apply keeps_simple].
    apply reg_at_some in Er. apply write_reg_typed; [done|by apply word_of_range|].
    intros ->. by apply Hsel.
Qed.

Lemma read_typed d offset size :
  dev_typed d -> 0 <= size ->
  match virtio_read d offset size with
  | Done (Error e) => e < 0
  | Done (Word v) => is_u32 v
  | Done (Bytes l) => Z.of_nat (length l) = size /\ Forall is_byte l
  | Failed _ => False
  end.
Proof.
  intros Hd Hs. pose proof (dt_config d Hd) as Hc. unfold virtio_read.
  destruct (Z.leb_spec VIRTIO_MMIO_CONFIG offset) as [Ho|Ho].
  - destruct (Z.ltb_spec (config_len d) (offset - VIRTIO_MMIO_CONFIG + size)); [done|].
    rewrite decide_True by lia. rewrite length_take, length_drop. split; [lia|].
    apply Forall_take, Forall_drop, (dt_bytes d Hd).
  - destruct (negb (size =? 4)); [done|]. destruct (selected_ok d Hd) as (q & Hq & [? ? ? _ _ _]).
    destruct (reg_at offset) as [r|]; [|done]. destruct r; try done; rewrite ?Hq; cbn [mbind outcome_bind]; try done;
      try by destruct Hd.
    unfold virtio_read_device_features. destruct (truthy _); apply wrap_range; lia.
Qed.

(** C36. However a driver writes the registers, as long as it selects only
    queues that exist: no write accesses memory outside the queues and the
    configuration space, every field keeps a value of its C type, and every read
    afterwards has a result, 32 bits or exactly the bytes asked for. *)
Theorem registers_typed d l :
  dev_typed d -> Forall (access_ok (length (queue d))) l ->
  exists d' ns, run_accesses d l = Done (d', ns) /\ dev_typed d' /\
    forall offset size, 0 <= size ->
      match virtio_read d' offset size with
      | Done (Error e) => e < 0
      | Done (Word v) => is_u32 v
      | Done (Bytes bs) => Z.of_nat (length bs) = size /\ Forall is_byte bs
      | Failed _ => False
      end.
Proof.
  revert d. induction l as [|a l IH]; intros d Hd Hl.
  - exists d, []. split; [done|]. split; [done|]. intros. by apply read_typed.
  - apply Forall_cons in Hl as [Ha Hl]. destruct (access_typed d a Hd Ha) as (r & d1 & ns & E & Hd1 & Hlen).
    destruct (IH d1 Hd1) as (d2 & ns2 & E2 & Hd2 & Hr); [by rewrite Hlen|].
    exists d2, (ns ++ ns2). cbn [run_accesses]. rewrite E. cbn [mbind outcome_bind]. by rewrite E2.
Qed.

(** A device with one queue and three bytes of configuration space that offers
    the two features every driver must accept. *)
Definition sample_dev : virtio_dev :=
  mk_dev 2 5 (2 ^ 32 + 2 ^ 29) 0 0 0 0 [mk_virtq 256 0 0 0 0 0] 1 0 0 [1; 2; 3] 3.

Lemma sample_dev_typed : dev_typed sample_dev.
Proof.
  split; vm_compute; try done; try (split; done).
  - constructor; [|constructor]. by split.
  - repeat (constructor; [by split|]). constructor.
Qed.

Lemma registers_typed_witness :
  exists d' ns, run_accesses sample_dev [mk_access 0x030 [0; 0; 0; 0]; mk_access 0x101 [9]] = Done (d', ns) /\
    dev_typed d' /\
    forall offset size, 0 <= size ->
      match virtio_read d' offset size with
      | Done (Error e) => e < 0
      | Done (Word v) => is_u32 v
      | Done (Bytes bs) => Z.of_nat (length bs) = size /\ Forall is_byte bs
      | Failed _ => False
      end.
Proof.
  apply (registers_typed sample_dev [mk_access 0x030 [0; 0; 0; 0]; mk_access 0x101 [9]]); [apply sample_dev_typed|].
  repeat constructor; vm_compute; discriminate.
Defined.

(** ** Protocols of the driver *)

Definition bytes_of (w : Z) : list Z := [w mod 256; w / 256 mod 256; w / 65536 mod 256; w / 16777216 mod 256].

(** A 32-bit write to a register. *)
Definition writel (r : mmio_reg) (w : Z) : access := mk_access (reg_offset r) (bytes_of w).

Lemma word_of_bytes w : is_u32 w -> word_of (bytes_of w) = w.
Proof. unfold is_u32. intros Hw. simpl. Z.div_mod_to_equations. lia. Qed.

Lemma apply_writel d r w : is_u32 w -> apply_access d (writel r w) = write_reg d r w.
Proof.
  intros Hw. unfold apply_access, virtio_write, writel. cbn [a_offset a_bytes a_size].
  assert (reg_offset r < VIRTIO_MMIO_CONFIG) as Hr by (by destruct r).
  rewrite (proj2 (Z.leb_gt _ _)) by done. change (a_size (mk_access (reg_offset r) (bytes_of w))) with 4.
  cbn [Z.eqb negb]. change (4 =? 4) with true. cbn [negb]. by rewrite reg_at_offset, word_of_bytes.
Qed.

Lemma truthy_bit a i : 0 <= i -> truthy (Z.land a (BIT i)) = Z.testbit a i.
Proof.
  intros Hi. unfold truthy, BIT. rewrite Z.shiftl_1_l. destruct (Z.testbit a i) eqn:E.
  - apply negb_true_iff, Z.eqb_neq. intros H0. apply (f_equal (fun z => Z.testbit z i)) in H0.
    rewrite Z.land_spec, Z.pow2_bits_true, E, Z.bits_0 in H0 by done. done.
  - apply negb_false_iff, Z.eqb_eq, Z.bits_inj'. intros j Hj. rewrite Z.land_spec, Z.pow2_bits_eqb, Z.bits_0 by done.
    destruct (Z.eqb_spec i j) as [->|]; [by rewrite E|apply andb_false_r].
Qed.

Definition acceptable (d : virtio_dev) : bool :=
  Z.testbit (driver_features d) LKL_VIRTIO_F_VERSION_1 &&
  Z.testbit (driver_features d) LKL_VIRTIO_RING_F_EVENT_IDX && (driver_features d =? device_features d).

(** The status that is stored: bit 3 needs acceptable features. *)
Lemma set_status_bits d v i :
  is_u32 v -> 0 <= i < 32 ->
  Z.testbit (status (set_status d v)) i = Z.testbit v i && ((negb (i =? 3)) || acceptable d).
Proof.
  intros Hv Hi. unfold set_status. cbv zeta.
  assert (truthy (Z.land v LKL_VIRTIO_CONFIG_S_FEATURES_OK) = Z.testbit v 3) as Hok by (apply (truthy_bit v 3); lia).
  rewrite Hok, !truthy_bit by done.
  assert (truthy (blk_check_features d) = negb (driver_features d =? device_features d)) as ->
    by (unfold blk_check_features; by destruct (_ =? _)).
  rewrite <- !negb_andb. fold (acceptable d).
  destruct (Z.testbit v 3 && negb (acceptable d)) eqn:E; cbn [status set_dev_status].
  - apply andb_true_iff in E as [E3 Ea]. apply negb_true_iff in Ea. rewrite Ea, orb_false_r, Z.land_spec. f_equal.
    change (u32 (Z.lnot LKL_VIRTIO_CONFIG_S_FEATURES_OK)) with (Z.ldiff (Z.ones 32) (2 ^ 3)).
    rewrite Z.ldiff_spec, Z.ones_spec_low, Z.pow2_bits_eqb by lia. by rewrite Z.eqb_sym.
  - destruct (Z.eqb_spec i 3) as [->|]; cbn [orb negb]; [|by rewrite andb_true_r].
    revert E. by destruct (Z.testbit v 3), (acceptable d).
Qed.

(** The four writes that set the driver's features. *)
Definition accept_features (hi lo : Z) : list access :=
  [writel DRIVER_FEATURES_SEL 1; writel DRIVER_FEATURES hi; writel DRIVER_FEATURES_SEL 0; writel DRIVER_FEATURES lo].

Lemma run_cons d a l :
  run_accesses d (a :: l) = '(_, d, ns) ← apply_access d a; '(d, ns') ← run_accesses d l; Done (d, ns ++ ns').
Proof. done. Qed.

Lemma accept_features_run d hi lo l :
  is_u64 (driver_features d) -> is_u32 hi -> is_u32 lo ->
  run_accesses d (accept_features hi lo ++ l) =
  run_accesses (set_driver_features_sel 0 (set_driver_features (hi * 2 ^ 32 + lo) d)) l.
Proof.
  intros Hf Hh Hl. unfold accept_features. cbn [app]. rewrite !run_cons.
  rewrite (apply_writel d) by (unfold is_u32; lia). cbn [write_reg]. change (1 <? 1) with false. cbn [mbind outcome_bind].
  rewrite run_cons, apply_writel by done. cbn [write_reg mbind outcome_bind].
  unfold virtio_write_driver_features at 1. cbn [driver_features_sel set_driver_features_sel]. change (truthy 1) with true.
  cbv iota. rewrite run_cons, apply_writel by (unfold is_u32; lia). cbn [write_reg]. change (1 <? 0) with false. cbn [mbind outcome_bind].
  rewrite run_cons, apply_writel by done. cbn [write_reg mbind outcome_bind].
  unfold virtio_write_driver_features. cbn [driver_features_sel set_driver_features_sel set_driver_features driver_features].
  change (truthy 0) with false. cbv iota.
  change (Z.lor (Z.land (driver_features d) 0xFFFFFFFF) _) with (ptr_high hi (driver_features d)).
  change (Z.lor (Z.land (ptr_high hi (driver_features d)) 0xFFFFFFFF00000000) lo)
    with (ptr_low lo (ptr_high hi (driver_features d))).
  rewrite low_over_high by done.
  unfold set_driver_features_sel, set_driver_features; cbn.
  destruct (run_accesses _ l) as [[d' ns]|]; done.
Qed.

(** Feature negotiation: after the driver has written the two halves of the
    features it accepts, a status with FEATURES_OK keeps this bit exactly if the
    features are all that the device offers and contain VERSION_1 and
    EVENT_IDX; the other bits of the status are stored as written. *)
Theorem features_ok_negotiation d hi lo s :
  is_u64 (driver_features d) -> is_u32 hi -> is_u32 lo -> is_u32 s -> Z.testbit s 3 = true ->
  exists d', run_accesses d (accept_features hi lo ++ [writel STATUS s]) = Done (d', []) /\
    driver_features d' = hi * 2 ^ 32 + lo /\
    (Z.testbit (status d') 3 = true <->
       hi * 2 ^ 32 + lo = device_features d /\ Z.testbit (device_features d) 32 = true /\
       Z.testbit (device_features d) 29 = true) /\
    forall i, 0 <= i < 32 -> i ≠ 3 -> Z.testbit (status d') i = Z.testbit s i.
Proof.
  intros Hf Hh Hl Hs H3. rewrite accept_features_run by done. cbn [run_accesses].
  rewrite apply_writel by done. cbn [write_reg mbind outcome_bind]. eexists. split; [reflexivity|].
  split; [unfold set_status; by destruct (_ && _)|]. split.
  - rewrite set_status_bits, H3 by (done || lia). unfold acceptable.
    cbn [driver_features device_features set_driver_features_sel set_driver_features].
    unfold LKL_VIRTIO_F_VERSION_1, LKL_VIRTIO_RING_F_EVENT_IDX. simpl orb. rewrite andb_true_l, !andb_true_iff, Z.eqb_eq.
    split; [intros [[? ?] E]; by rewrite <- E|intros (E & ? & ?); by rewrite E].
  - intros i Hi Hn. rewrite set_status_bits by done. rewrite (proj2 (Z.eqb_neq i 3) Hn). apply andb_true_r.
Qed.

Lemma features_ok_negotiation_witness :
  exists d', run_accesses sample_dev (accept_features 1 (2 ^ 29) ++ [writel STATUS 11]) = Done (d', []) /\
    driver_features d' = 1 * 2 ^ 32 + 2 ^ 29 /\
    (Z.testbit (status d') 3 = true <->
       1 * 2 ^ 32 + 2 ^ 29 = device_features sample_dev /\ Z.testbit (device_features sample_dev) 32 = true /\
       Z.testbit (device_features sample_dev) 29 = true) /\
    forall i, 0 <= i < 32 -> i ≠ 3 -> Z.testbit (status d') i = Z.testbit 11 i.
Proof.
  apply (features_ok_negotiation sample_dev 1 (2 ^ 29) 11); [split; vm_compute; done..|reflexivity].
Defined.

(** A 64-bit address in two writes. *)
Definition write_pair (rlow rhigh : mmio_reg) (p : Z) : list access :=
  [writel rlow (p mod 2 ^ 32); writel rhigh (p / 2 ^ 32)].

Definition setup_queue (i n pdesc pavail pused : Z) : list access :=
  [writel QUEUE_SEL i; writel QUEUE_NUM n] ++
  write_pair QUEUE_DESC_LOW QUEUE_DESC_HIGH pdesc ++ write_pair QUEUE_AVAIL_LOW QUEUE_AVAIL_HIGH pavail ++
  write_pair QUEUE_USED_LOW QUEUE_USED_HIGH pused ++ [writel QUEUE_READY 1].

Lemma halves_u32 p : is_u64 p -> is_u32 (p mod 2 ^ 32) /\ is_u32 (p / 2 ^ 32).
Proof.
  unfold is_u64, is_u32. intros Hp. split; [apply Z.mod_pos_bound; lia|].
  split; [apply Z.div_pos; lia|apply Z.div_lt_upper_bound; lia].
Qed.

Lemma pair_value p old : is_u64 p -> is_u64 old -> ptr_high (p / 2 ^ 32) (ptr_low (p mod 2 ^ 32) old) = p.
Proof.
  intros Hp Ho. destruct (halves_u32 p Hp) as [H1 H2]. rewrite high_over_low by done.
  rewrite (Z.div_mod p (2 ^ 32)) at 3 by lia. lia.
Qed.

Lemma on_selected_spec f d q :
  queue d !! Z.to_nat (queue_sel d) = Some q ->
  on_selected f d = Done (set_queue (<[Z.to_nat (queue_sel d) := f q]> (queue d)) d).
Proof. intros H. unfold on_selected, selected. by rewrite H. Qed.

(** A write that changes the selected queue, and nothing else. *)
Lemma run_queue_write r f d q w l :
  is_u32 w -> (forall d, write_reg d r w = (d' ← on_selected f d; Done (0, d', []))) ->
  queue d !! Z.to_nat (queue_sel d) = Some q ->
  run_accesses d (writel r w :: l) = run_accesses (set_queue (<[Z.to_nat (queue_sel d) := f q]> (queue d)) d) l.
Proof.
  intros Hw Hr Hq. rewrite run_cons, apply_writel, Hr, (on_selected_spec f d q Hq) by done. cbn [mbind outcome_bind].
  by destruct (run_accesses _ l) as [[? ?]|].
Qed.

(** Setting up a queue the way the kernel does: after the queue number, the
    size, and the halves of the three ring addresses, the selected queue has
    exactly these values and is ready; its maximal size, the other queues and the
    rest of the device are as before. *)
Theorem setup_queue_stores d i q n pdesc pavail pused :
  queue d !! Z.to_nat i = Some q -> virtq_typed q -> is_u32 i -> is_u32 n ->
  is_u64 pdesc -> is_u64 pavail -> is_u64 pused ->
  run_accesses d (setup_queue i n pdesc pavail pused) =
  Done (set_queue (<[Z.to_nat i := mk_virtq (num_max q) n 1 pdesc pavail pused]> (queue d)) (set_queue_sel i d), []).
Proof.
  intros Hq [_ _ _ Hd Ha Hu] Hi Hn Hpd Hpa Hpu.
  destruct (halves_u32 _ Hpd) as [Hd1 Hd2], (halves_u32 _ Hpa) as [Ha1 Ha2], (halves_u32 _ Hpu) as [Hu1 Hu2].
  assert (Z.to_nat i < length (queue d))%nat as Hlt by (by eapply lookup_lt_Some).
  unfold setup_queue, write_pair. cbn [app].
  rewrite run_cons, apply_writel by done. cbn [write_reg mbind outcome_bind].
  assert (forall (d : virtio_dev) l, ('(d0, ns') ← run_accesses d l; Done (d0, [] ++ ns')) = run_accesses d l) as Hnil
    by (intros d0 l; by destruct (run_accesses d0 l) as [[? ?]|]).
  rewrite Hnil.
  rewrite (run_queue_write QUEUE_NUM (with_num n) _ q) by done. cbn [queue_sel set_queue set_queue_sel queue].
  repeat (erewrite run_queue_write; [|first [done|unfold is_u32; lia]|reflexivity|cbn [queue_sel set_queue set_queue_sel queue];
    rewrite ?list_insert_insert_eq; apply list_lookup_insert_eq; by rewrite ?length_insert];
    cbn [queue_sel set_queue set_queue_sel queue]; rewrite ?list_insert_insert_eq).
  unfold with_num, with_desc, with_avail, with_used, with_ready. cbn [num_max num ready desc avail used run_accesses].
  rewrite !pair_value by done. done.
Qed.

Lemma setup_queue_stores_witness :
  run_accesses sample_dev (setup_queue 0 128 (2 ^ 40 + 4096) 8192 (2 ^ 63)) =
  Done (set_queue [mk_virtq 256 128 1 (2 ^ 40 + 4096) 8192 (2 ^ 63)] (set_queue_sel 0 sample_dev), []).
Proof.
  apply (setup_queue_stores sample_dev 0 (mk_virtq 256 0 0 0 0 0) 128 (2 ^ 40 + 4096) 8192 (2 ^ 63));
    [reflexivity|by split; vm_compute; split|split; vm_compute; done..].
Defined.

(** ** The configuration space *)

(** The configuration space: a write inside it is read back as it was
    written and changes no other byte; but a write that reaches the last byte is
    rejected, although the same bytes can be read. *)
Theorem config_write_read d offset bs :
  dev_typed d -> 0 <= offset -> offset + Z.of_nat (length bs) <= config_len d ->
  let a := mk_access (VIRTIO_MMIO_CONFIG + offset) bs in
  if offset + Z.of_nat (length bs) <? config_len d then
    exists d', apply_access d a = Done (0, d', []) /\
      virtio_read d' (VIRTIO_MMIO_CONFIG + offset) (Z.of_nat (length bs)) = Done (Bytes bs) /\
      forall i, i < offset \/ offset + Z.of_nat (length bs) <= i -> 0 <= i ->
        config_data d' !! Z.to_nat i = config_data d !! Z.to_nat i
  else apply_access d a = Done (- EINVAL, d, []) /\
    virtio_read d (VIRTIO_MMIO_CONFIG + offset) (Z.of_nat (length bs)) =
      Done (Bytes (take (length bs) (drop (Z.to_nat offset) (config_data d)))).
Proof.
  intros Hd Ho Hlen a. pose proof (dt_config d Hd) as Hc. unfold apply_access, virtio_write, virtio_read, a, a_size.
  cbn [a_offset a_bytes]. rewrite (proj2 (Z.leb_le _ _)) by lia.
  replace (VIRTIO_MMIO_CONFIG + offset - VIRTIO_MMIO_CONFIG) with offset by lia.
  destruct (Z.ltb_spec (offset + Z.of_nat (length bs)) (config_len d)) as [Hin|Hout].
  - rewrite (proj2 (Z.leb_gt _ _)), decide_True by lia. eexists. split; [reflexivity|].
    cbn [config_data config_len set_config_data]. rewrite (take_ge bs) by lia.
    rewrite (proj2 (Z.ltb_ge _ _)) by lia. split.
    + rewrite decide_True by (rewrite !length_app, length_take, length_drop; lia).
      rewrite drop_app_ge by (rewrite length_take; lia). rewrite length_take.
      replace (Z.to_nat offset - _)%nat with O by lia. rewrite drop_0, Nat2Z.id, take_app_le by lia. by rewrite take_ge by lia.
    + intros i Hi Hi0. destruct Hi as [Hi|Hi].
      * rewrite lookup_app_l by (rewrite length_take; lia). by rewrite lookup_take_lt by lia.
      * rewrite lookup_app_r by (rewrite length_take; lia). rewrite length_take, lookup_app_r by lia.
        rewrite lookup_drop. f_equal. lia.
  - rewrite (proj2 (Z.leb_le _ _)) by lia. split; [done|].
    rewrite (proj2 (Z.ltb_ge _ _)), decide_True by lia. by rewrite Nat2Z.id.
Qed.

(** Two bytes at offset 1 of a space of three. *)
Lemma config_write_read_witness :
  apply_access sample_dev (mk_access (VIRTIO_MMIO_CONFIG + 1) [8; 9]) = Done (- EINVAL, sample_dev, []) /\
  virtio_read sample_dev (VIRTIO_MMIO_CONFIG + 1) 2 = Done (Bytes [2; 3]).
Proof.
  apply (config_write_read sample_dev 1 [8; 9]); [apply sample_dev_typed|vm_compute; discriminate..].
Defined.
