(* ===== verification/JsonText.v ===== *)
(** * JsonText: the character, string and number routines of libjson/json.c

    The JSON parser brings its own copies of the C library routines it needs.
    A buffer is a list of bytes ([text]), a pointer into it an offset; reading
    or writing outside the buffer is [Failed (BadPointer p)].  Loops that run
    until a terminating byte are structural recursions on the rest of the
    buffer, so that a missing terminator is a fault of the model, not a
    default value.  The type double is binary64 of [SpecFloat]. *)

From Stdlib Require Import SpecFloat Ascii String.
From S2P Require Import Prelude.

(** ** Buffers *)

Abbreviation text := (list Z).

Definition is_byte (c : Z) : Prop := 0 <= c < 256.
#[export] Instance is_byte_dec c : Decision (is_byte c).
Proof. unfold is_byte. apply _. Defined.

Definition rd (t : text) (p : nat) : outcome Z :=
  match t !! p with Some c => Done c | None => Failed (BadPointer (Z.of_nat p)) end.

Definition wr (t : text) (p : nat) (c : Z) : outcome text :=
  if decide (p < length t)%nat then Done (<[p := u8 c]> t)
  else Failed (BadPointer (Z.of_nat p)).

(** A string literal, without its terminator. *)
Definition bytes (s : string) : text :=
  map (fun a => Z.of_N (N_of_ascii a)) (list_ascii_of_string s).
Definition cstring (s : string) : text := bytes s ++ [0].

(** The bytes of the C string that starts at an offset. *)
Fixpoint until_nul (l : text) : text :=
  match l with [] => [] | c :: l' => if c =? 0 then [] else c :: until_nul l' end.
Definition str_at (t : text) (p : nat) : text := until_nul (drop p t).

(** ** Character classes *)

Definition _tolower (c : Z) : Z := if (65 <=? c) && (c <=? 90) then c - 32 else c.

Definition _isdigit (c : Z) : bool := (48 <=? c) && (c <=? 57).

Definition _isspace (c : Z) : bool :=
  (c =? 32) || (c =? 12) || (c =? 10) || (c =? 13) || (c =? 9) || (c =? 11).

Definition _islower (c : Z) : bool := (97 <=? c) && (c <=? 122).

Definition _isupper (c : Z) : bool := (65 <=? c) && (c <=? 90).

Definition punctuation : text :=
  [32; 33; 34; 35; 36; 37; 38; 39; 40; 41; 42; 43; 44; 45; 46; 47; 58; 59; 60; 61;
   62; 63; 64; 91; 92; 93; 94; 95; 96; 123; 124; 125; 126].

Definition _isprint (c : Z) : bool :=
  if _isdigit c || _islower c || _isupper c then true
  else bool_decide (c ∈ punctuation).

(** ** Memory and strings *)

(** [_memcpy] within one buffer, byte by byte and upwards. *)
Fixpoint _memcpy (t : text) (dest src : nat) (n : nat) : outcome text :=
  match n with
  | O => Done t
  | S n' => c ← rd t src; t' ← wr t dest c; _memcpy t' (S dest) (S src) n'
  end.

(** The downward loop of [_memmove], from the last byte. *)
Fixpoint memmove_down (t : text) (dest src : nat) (n : nat) : outcome text :=
  match n with
  | O => Done t
  | S n' => c ← rd t (src + n'); t' ← wr t (dest + n') c; memmove_down t' dest src n'
  end.

Definition _memmove (t : text) (dest src : nat) (n : nat) : outcome text :=
  if bool_decide (dest ≠ src) && bool_decide (0 < n)%nat then
    if bool_decide (dest <= src)%nat then _memcpy t dest src n
    else memmove_down t dest src n
  else Done t.

(** [_memcmp] of a buffer at an offset with a second buffer at an offset. *)
Fixpoint _memcmp (t : text) (p : nat) (s : text) (q : nat) (n : nat) : outcome Z :=
  match n with
  | O => Done 0
  | S n' =>
      a ← rd t p; b ← rd s q;
      if a <? b then Done (-1) else if a >? b then Done 1
      else _memcmp t (S p) s (S q) n'
  end.

Fixpoint strlen_from (l : text) (p : nat) (n : Z) : outcome Z :=
  match l with
  | [] => Failed (BadPointer (Z.of_nat p))
  | c :: l' => if c =? 0 then Done n else strlen_from l' (S p) (n + 1)
  end.
Definition _strlen (t : text) (p : nat) : outcome Z := strlen_from (drop p t) p 0.

(** [_strcmp]: the difference of the first characters, as signed char, at
    which the strings differ or end. *)
Fixpoint strcmp_from (l1 l2 : text) : outcome Z :=
  match l1, l2 with
  | c1 :: l1', c2 :: l2' =>
      if negb (c1 =? 0) && negb (c2 =? 0) && (c1 =? c2) then strcmp_from l1' l2'
      else Done (s8 c1 - s8 c2)
  | _, _ => Failed (BadPointer 0)
  end.
Definition _strcmp (t1 : text) (p1 : nat) (t2 : text) (p2 : nat) : outcome Z :=
  strcmp_from (drop p1 t1) (drop p2 t2).

(** The copying loop of [_strlcpy] and [_strlcat]: [room] is [end - dest]; the
    result is the buffer with its new end, and the rest of the source. *)
Fixpoint strl_copy (d : text) (dest : nat) (src : text) (room : nat) (n : Z) :
    outcome (text * nat * text * Z) :=
  match src with
  | [] => Failed (BadPointer 0)
  | c :: src' =>
      if (c =? 0) || bool_decide (room = 0%nat) then Done (d, dest, src, n)
      else match room with
           | O => Done (d, dest, src, n)
           | S room' => d' ← wr d dest c; strl_copy d' (S dest) src' room' (n + 1)
           end
  end.

(** [_strlcpy(d + dest, src, size)]; the result is the length of [src]. *)
Definition _strlcpy (d : text) (dest : nat) (src : text) (size : nat) : outcome (text * Z) :=
  match size with
  | O => n ← strlen_from src 0 0; Done (d, n)
  | S room =>
      '(d1, e, rest, n) ← strl_copy d dest src room 0;
      d2 ← wr d1 e 0;
      n' ← strlen_from rest 0 n;
      Done (d2, n')
  end.

(** The first loop of [_strlcat]: to the terminator or the end of the room. *)
Fixpoint strlcat_skip (l : text) (dest : nat) (room : nat) (n : Z) :
    outcome (nat * nat * Z) :=
  match l with
  | [] => Failed (BadPointer (Z.of_nat dest))
  | c :: l' =>
      if c =? 0 then Done (dest, room, n)
      else match room with
           | O => Done (dest, room, n)
           | S room' => strlcat_skip l' (S dest) room' (n + 1)
           end
  end.

Definition _strlcat (d : text) (dest : nat) (src : text) (size : nat) : outcome (text * Z) :=
  match size with
  | O => n ← strlen_from src 0 0; Done (d, n)
  | S room =>
      '(e, room', n) ← strlcat_skip (drop dest d) dest room 0;
      '(d1, e', rest, n1) ← strl_copy d e src room' n;
      d2 ← wr d1 e' 0;
      n' ← strlen_from rest 0 n1;
      Done (d2, n')
  end.

(** ** Numbers *)

(** The table [_digit]. *)
Definition digit_table : list Z :=
  [
   255; 255; 255; 255; 255; 255; 255; 255; 255; 255; 255; 255; 255; 255; 255; 255;
   255; 255; 255; 255; 255; 255; 255; 255; 255; 255; 255; 255; 255; 255; 255; 255;
   255; 255; 255; 255; 255; 255; 255; 255; 255; 255; 255; 255; 255; 255; 255; 255;
   0; 1; 2; 3; 4; 5; 6; 7; 8; 9; 255; 255; 255; 255; 255; 255;
   255; 10; 11; 12; 13; 14; 15; 16; 17; 18; 19; 20; 21; 22; 23; 24;
   25; 26; 27; 28; 29; 30; 31; 32; 33; 34; 35; 255; 255; 255; 255; 255;
   255; 10; 11; 12; 13; 14; 15; 16; 17; 18; 19; 20; 21; 22; 23; 24;
   25; 26; 27; 28; 29; 30; 31; 32; 33; 34; 35; 255; 255; 255; 255; 255;
   255; 255; 255; 255; 255; 255; 255; 255; 255; 255; 255; 255; 255; 255; 255; 255;
   255; 255; 255; 255; 255; 255; 255; 255; 255; 255; 255; 255; 255; 255; 255; 255;
   255; 255; 255; 255; 255; 255; 255; 255; 255; 255; 255; 255; 255; 255; 255; 255;
   255; 255; 255; 255; 255; 255; 255; 255; 255; 255; 255; 255; 255; 255; 255; 255;
   255; 255; 255; 255; 255; 255; 255; 255; 255; 255; 255; 255; 255; 255; 255; 255;
   255; 255; 255; 255; 255; 255; 255; 255; 255; 255; 255; 255; 255; 255; 255; 255;
   255; 255; 255; 255; 255; 255; 255; 255; 255; 255; 255; 255; 255; 255; 255; 255;
   255; 255; 255; 255; 255; 255; 255; 255; 255; 255; 255; 255; 255; 255; 255; 255].

Definition _digit (c : Z) : Z := default 255 (digit_table !! Z.to_nat c).

Definition _isdigit2 (c base : Z) : bool := _digit c <? base.

Definition LONG_MAX : Z := 2 ^ 63 - 1.
Definition ULONG_MAX : Z := 2 ^ 64 - 1.
Definition INT64_MIN : Z := - 2 ^ 63.

(** json_result_t of json.h. *)
Inductive json_result : Type :=
| JSON_OK | JSON_FAILED | JSON_EOF | JSON_BAD_SYNTAX | JSON_UNSUPPORTED
| JSON_BAD_PARAMETER | JSON_UNEXPECTED | JSON_OUT_OF_MEMORY | JSON_TYPE_MISMATCH
| JSON_NESTING_OVERFLOW | JSON_NESTING_UNDERFLOW | JSON_BUFFER_OVERFLOW
| JSON_UNKNOWN_VALUE | JSON_OUT_OF_BOUNDS | JSON_NO_MATCH.

#[export] Instance json_result_eq_dec : EqDecision json_result.
Proof. solve_decision. Defined.

Fixpoint skip_spaces (l : text) (p : nat) : outcome nat :=
  match l with
  | [] => Failed (BadPointer (Z.of_nat p))
  | c :: l' => if _isspace c then skip_spaces l' (S p) else Done p
  end.

(** The digit loop of [_strtol]: the value and the offset after the digits, or
    the offset of the digit that overflows an unsigned long. *)
Inductive digits : Type :=
| DigitsEnd (x : Z) (p : nat)
| DigitsOverflow (p : nat).

Fixpoint strtol_digits (l : text) (p : nat) (base x : Z) : outcome digits :=
  match l with
  | [] => Failed (BadPointer (Z.of_nat p))
  | c :: l' =>
      if negb (c =? 0) && _isdigit2 c base then
        if x >? ULONG_MAX / base then Done (DigitsOverflow p)
        else if _digit c >? ULONG_MAX - u64 (x * base) then Done (DigitsOverflow p)
        else strtol_digits l' (S p) base (u64 (u64 (x * base) + _digit c))
      else Done (DigitsEnd x p)
  end.

(** What a conversion returns: its value, the end pointer (None is NULL) and
    the error it stores in [json_conversion_error], if any. *)
Record conversion : Type := Conversion {
  conv_value : Z;
  conv_end : option nat;
  conv_error : option json_result
}.

(** The base a prefix selects when [base] is 0. *)
Definition deduce_base (t : text) (p : nat) (base : Z) : outcome Z :=
  if negb (base =? 0) then Done base
  else
    c0 ← rd t p;
    if c0 =? 48 then
      c1 ← rd t (S p);
      Done (if (c1 =? 120) || (c1 =? 88) then 16 else 8)
    else Done 10.

(** The offset after a base 16 or base 8 prefix. *)
Definition skip_prefix (t : text) (p : nat) (base : Z) : outcome nat :=
  if base =? 16 then
    c0 ← rd t p;
    if c0 =? 48 then
      c1 ← rd t (S p);
      Done (if (c1 =? 120) || (c1 =? 88) then S (S p) else p)
    else Done p
  else if base =? 8 then
    c0 ← rd t p; Done (if c0 =? 48 then S p else p)
  else Done p.

(** [negative], and the offset after the sign. *)
Definition skip_sign (t : text) (p : nat) : outcome (bool * nat) :=
  c ← rd t p;
  Done (if c =? 43 then (false, S p) else if c =? 45 then (true, S p) else (false, p)).

(** The value [_strtol] returns for the magnitude [x]. *)
Definition apply_sign (negative : bool) (x : Z) : Z :=
  if negative then
    if x >? LONG_MAX then
      if x =? LONG_MAX + 1 then s64 x else 0
    else s64 (u64 (- x))
  else s64 x.

Definition _strtol (t : text) (nptr : option nat) (base : Z) (allow_whitespace : bool) :
    outcome conversion :=
  match nptr with
  | None => Done (Conversion 0 None None)
  | Some np =>
      if base <? 0 then Done (Conversion 0 nptr None)
      else
        c0 ← rd t np;
        if negb allow_whitespace && _isspace c0 then
          Done (Conversion (s64 ULONG_MAX) nptr (Some JSON_BAD_SYNTAX))
        else
          p0 ← (if allow_whitespace then skip_spaces (drop np t) np else Done np);
          '(negative, p1) ← skip_sign t p0;
          base' ← deduce_base t p1 base;
          p2 ← skip_prefix t p1 base';
          r ← strtol_digits (drop p2 t) p2 base' 0;
          match r with
          | DigitsOverflow p => Done (Conversion (s64 ULONG_MAX) (Some p) (Some JSON_OUT_OF_BOUNDS))
          | DigitsEnd x p =>
              if bool_decide (p = np) then Done (Conversion 0 nptr None)
              else Done (Conversion (apply_sign negative x) (Some p) None)
          end
  end.

Definition _strtoul (t : text) (nptr : option nat) (base : Z) (allow_whitespace : bool) :
    outcome conversion :=
  r ← _strtol t nptr base allow_whitespace;
  Done (Conversion (u64 (conv_value r)) (conv_end r) (conv_error r)).

(** [_strtou64]: the number and the return code (true is 0, false is -1). *)
Definition _strtou64 (t : text) (str : option nat) (allow_whitespace : bool) :
    outcome (Z * bool * option json_result) :=
  r ← _strtoul t str 10 allow_whitespace;
  match conv_end r with
  | None => Done (conv_value r, false, conv_error r)
  | Some e => c ← rd t e; Done (conv_value r, c =? 0, conv_error r)
  end.

(** ** Reals

    double is IEEE 754 binary64, rounding to nearest even. *)

Definition double := spec_float.
Definition d_of_Z (z : Z) : double := binary_normalize 53 1024 z 0 false.
Definition d_add : double -> double -> double := SFadd 53 1024.
Definition d_sub : double -> double -> double := SFsub 53 1024.
Definition d_mul : double -> double -> double := SFmul 53 1024.
Definition d_div : double -> double -> double := SFdiv 53 1024.
Definition d_zero : double := S754_zero false.

(** The conversion [(long)x]: truncation; a value out of range (undefined in C)
    gives the "integer indefinite" value of the x86-64 instruction. *)
Definition long_of_d (x : double) : Z :=
  match x with
  | S754_zero _ => 0
  | S754_finite s m e =>
      let a := if 0 <=? e then Zpos m * 2 ^ e else Zpos m / 2 ^ (- e) in
      let z := if s then - a else a in
      if (INT64_MIN <=? z) && (z <=? LONG_MAX) then z else INT64_MIN
  | _ => INT64_MIN
  end.

(** Of two stores to [json_conversion_error], the later one that happens. *)
Definition later_error (e1 e2 : option json_result) : option json_result :=
  match e2 with Some _ => e2 | None => e1 end.

(** A step of [_strtod]: [_strtoul] at [p]; the number, its end, whether there
    were digits, and the error stored. *)
Definition strtod_number (t : text) (p : nat) (allow_whitespace : bool) :
    outcome (Z * nat * bool * option json_result) :=
  r ← _strtoul t (Some p) 10 allow_whitespace;
  let e := default p (conv_end r) in
  Done (conv_value r, e, bool_decide (p ≠ e), conv_error r).

(** The decimal part: [y], the divisor [r], the scanning pointer, [*endptr], the
    error stored, and whether the function returns 0.0 at once. *)
Definition strtod_fraction (t : text) (p : nat) (endp : nat) (have_x allow_whitespace : bool) :
    outcome (Z * Z * nat * nat * option json_result * bool) :=
  c ← rd t p;
  if c =? 46 then
    '(y, e, some, err) ← strtod_number t (S p) allow_whitespace;
    if (some : bool) then
      Done (y, Nat.iter (e - S p) (fun r => u64 (r * 10)) 1, e, e, err, false)
    else if have_x then Done (y, 1, S p, S p, err, false)
    else Done (y, 1, S p, p, err, true)
  else Done (0, 1, p, endp, None, false).

(** The exponent: its magnitude, its sign, [*endptr] and the error stored. *)
Definition strtod_exponent (t : text) (p : nat) (endp : nat) (allow_whitespace : bool) :
    outcome (Z * bool * nat * option json_result) :=
  c ← rd t p;
  if (c =? 101) || (c =? 69) then
    s ← rd t (S p);
    let p' := if (s =? 45) || (s =? 43) then S (S p) else S p in
    '(exp, e, some, err) ← strtod_number t p' allow_whitespace;
    Done (exp, s =? 45, if (some : bool) then e else endp, err)
  else Done (0, false, endp, None).

Definition _strtod (t : text) (nptr : option nat) (allow_whitespace : bool) :
    outcome (double * option nat * option json_result) :=
  match nptr with
  | None => Done (d_zero, None, None)
  | Some np =>
      c0 ← rd t np;
      if negb allow_whitespace && _isspace c0 then Done (d_zero, nptr, Some JSON_FAILED)
      else
        p0 ← (if allow_whitespace then skip_spaces (drop np t) np else Done np);
        '(negative, p1) ← skip_sign t p0;
        '(x, p2, have_x, err1) ← strtod_number t p1 allow_whitespace;
        let end1 := if (have_x : bool) then p2 else np in
        '(y, r, p3, end2, err2, stop) ← strtod_fraction t p2 end1 have_x allow_whitespace;
        if (stop : bool) then Done (d_zero, Some end2, later_error err1 err2)
        else
          '(exp, exp_negative, end3, err3) ← strtod_exponent t p3 end2 allow_whitespace;
          let z := d_add (d_of_Z x) (d_div (d_of_Z y) (d_of_Z r)) in
          let z' := Z.iter exp (fun z => if (exp_negative : bool) then d_div z (d_of_Z 10)
                                         else d_mul z (d_of_Z 10)) z in
          Done (if (negative : bool) then SFopp z' else z', Some end3,
                later_error (later_error err1 err2) err3)
  end.

(** ** Printing numbers *)

(** The digit loop of [_i64tostr], filling the buffer downwards; [room] is the
    number of bytes below the write position. *)
Fixpoint i64_digits (room : nat) (x : Z) (acc : text) : outcome text :=
  match room with
  | O => Failed (BadPointer (-1))
  | S room' =>
      let acc' := (48 + x mod 10) :: acc in
      if truthy (x / 10) then i64_digits room' (x / 10) acc' else Done acc'
  end.

(** [_i64tostr]: the characters of the number (the result string up to its
    terminator).  [size] is the out parameter, [false] for a NULL pointer:
    the branch of INT64_MIN writes through it without a check. *)
Definition _i64tostr (x : Z) (size : bool) : outcome text :=
  if x =? INT64_MIN then
    if size then Done (bytes "-9223372036854775808") else Failed (BadPointer 0)
  else
    let neg := x <? 0 in
    ds ← i64_digits 255 (Z.abs x) [];
    Done (if neg then 45 :: ds else ds).

(** The loop of [_dtostr] meant to remove the trailing zeros: it clears every
    digit '0'. *)
Definition clear_zeros (s : text) : text := map (fun c => if c =? 48 then 0 else c) s.

Definition _dtostr (x : double) : outcome text :=
  let whole := long_of_d x in
  let frac := Nat.iter 10 (fun f => d_mul f (d_of_Z 10)) (d_sub x (d_of_Z whole)) in
  whole_str ← _i64tostr whole false;
  frac_str0 ← _i64tostr (long_of_d frac) false;
  let frac_str := clear_zeros frac_str0 ++ [0] in
  c ← rd frac_str 0;
  '(b0, _) ← _strlcpy (replicate 256 0) 0 (whole_str ++ [0]) 256;
  '(b1, _) ← _strlcat b0 0 (cstring ".") 256;
  '(b2, _) ← (if c =? 0 then _strlcat b1 0 (cstring "0") 256
              else _strlcat b1 0 frac_str 256);
  Done (str_at b2 0).

(** ** Splitting and hexadecimal *)

(** [_split]: the buffer with its separators cleared, and the offsets of the
    tokens; None is the result (size_t)-1.  [l] is the rest of the buffer at
    [p], [cur] the token in progress. *)
Fixpoint split_from (l : text) (p : nat) (sep : Z) (t : text) (tokens : list nat)
    (num_tokens : nat) : outcome (text * option (list nat)) :=
  match l with
  | [] => Failed (BadPointer (Z.of_nat p))
  | c :: l' =>
      if c =? 0 then Done (t, Some tokens)
      else if c =? sep then
        t' ← wr t p 0;
        if bool_decide (length tokens = num_tokens) then Done (t', None)
        else split_from l' (S p) sep t' (tokens ++ [S p]) num_tokens
      else split_from l' (S p) sep t tokens num_tokens
  end.

Definition _split (t : text) (s : nat) (sep : Z) (num_tokens : nat) :
    outcome (text * option (list nat)) :=
  if bool_decide (num_tokens = 0%nat) then Done (t, None)
  else split_from (drop s t) s sep t [s] num_tokens.

Definition _char_to_nibble (c : Z) : Z :=
  let c := _tolower c in
  if (48 <=? c) && (c <=? 57) then c - 48
  else if (97 <=? c) && (c <=? 102) then 10 + (c - 97)
  else 255.

Definition _is_number_char (c : Z) : bool :=
  _isdigit c || (c =? 45) || (c =? 43) || (c =? 101) || (c =? 69) || (c =? 46).

Definition _is_decimal_or_exponent (c : Z) : bool := (c =? 46) || (c =? 101) || (c =? 69).

(** [_hex_str4_to_u32]: None is the return code -1. *)
Definition _hex_str4_to_u32 (t : text) (p : nat) : outcome (option Z) :=
  c0 ← rd t p; c1 ← rd t (p + 1); c2 ← rd t (p + 2); c3 ← rd t (p + 3);
  let n0 := _char_to_nibble c0 in let n1 := _char_to_nibble c1 in
  let n2 := _char_to_nibble c2 in let n3 := _char_to_nibble c3 in
  if truthy (Z.land (Z.lor (Z.lor (Z.lor n0 n1) n2) n3) 240) then Done None
  else Done (Some (Z.lor (Z.lor (Z.lor (Z.shiftl n0 12) (Z.shiftl n1 8)) (Z.shiftl n2 4)) n3)).

(** [_byte_to_hex_string]: the two digits. *)
Definition _byte_to_hex_string (c : Z) : text :=
  let hi := Z.shiftr (Z.land c 240) 4 in
  let lo := Z.land c 15 in
  [if 10 <=? hi then hi - 10 + 65 else hi + 48;
   if 10 <=? lo then lo - 10 + 65 else lo + 48].
