(* ===== verification/VirtioSetup.v ===== *)
(** * VirtioSetup: making virtio devices known to the kernel
    (src/lkl/virtio.c, src/lkl/virtio_netdev.c, src/lkl/virtio_blkdev.c,
    src/lkl/virtio_console.c)

    [lkl_virtio_dev_setup] takes an interrupt number, enters the device's
    interrupt routine into a table, registers the device's memory and, before the
    kernel runs, appends the device to the kernel's command line.  The interrupt
    numbers, the memory regions and the running kernel belong to LKL: what its
    functions return is an argument. *)

From stdpp Require Import strings.
From S2P Require Import Prelude JsonText.

Open Scope Z_scope.

Definition DEVICE_COUNT : nat := 32.
Definition MAX_NET_DEVS : nat := 16.
Definition VIRTIO_MMIO_INT_VRING : Z := 1.
Definition sizeof_devs : nat := 4096.

(** ** The boot string *)

(** Digits of [n] in a base, the most significant first. *)
Fixpoint digits (fuel : nat) (base n : Z) (acc : text) : text :=
  match fuel with
  | O => acc
  | S fuel' =>
      let d := n mod base in
      let acc := (if d <? 10 then 48 + d else 87 + d) :: acc in
      if truthy (n / base) then digits fuel' base (n / base) acc else acc
  end.

(** [%d] and [%lx]. *)
Definition fmt_d (z : Z) : text := if z <? 0 then 45 :: digits 10 10 (- z) [] else digits 10 10 z [].
Definition fmt_lx (z : Z) : text := digits 16 16 z [].

Definition device_entry (mmio_size base irq : Z) : text :=
  bytes " virtio_mmio.device=" ++ fmt_d mmio_size ++ bytes "@0x" ++ fmt_lx base ++ bytes ":" ++ fmt_d irq.

(** ** The state *)

(** The characters before [devs], those from [devs] up to the terminator, the
    table of interrupt routines (by name), the registered network devices (by
    vendor), and what the enclave holds of LKL's interrupts and memory regions. *)
Record setup_state : Type := mk_setup {
  line : text; tail_ : text; num_boot : Z; deliver : list (option Z);
  registered : list Z; registered_idx : Z; irqs : list Z; iomems : list Z }.

Definition set_line (l t : text) (n : Z) (s : setup_state) : setup_state :=
  mk_setup l t n (deliver s) (registered s) (registered_idx s) (irqs s) (iomems s).
Definition set_deliver (v : list (option Z)) (s : setup_state) : setup_state :=
  mk_setup (line s) (tail_ s) (num_boot s) v (registered s) (registered_idx s) (irqs s) (iomems s).
Definition set_registered (v : list Z) (i : Z) (s : setup_state) : setup_state :=
  mk_setup (line s) (tail_ s) (num_boot s) (deliver s) v i (irqs s) (iomems s).
Definition set_held (i m : list Z) (s : setup_state) : setup_state :=
  mk_setup (line s) (tail_ s) (num_boot s) (deliver s) (registered s) (registered_idx s) i m.

(** What the kernel reads as its list of devices. *)
Definition lkl_virtio_devs (s : setup_state) : text := line s ++ tail_ s.

(** What LKL's functions return during a call. *)
Record lkl_answers : Type := mk_answers {
  free_irq : Z;          (* lkl_get_free_irq *)
  iomem : Z;             (* register_iomem *)
  running : bool;        (* lkl_is_running *)
  device_add : Z }.      (* lkl_sys_virtio_mmio_device_add *)

Definition remove_one (x : Z) (l : list Z) : list Z :=
  match list_find (eq x) l with Some (i, _) => delete i l | None => l end.

(** ** Set-up of a device

    The results: the return value, the device's [virtio_mmio_id] if it was
    assigned, and the state. *)
Definition lkl_virtio_dev_setup (a : lkl_answers) (vendor_id mmio_size cb : Z) (s : setup_state) :
    outcome (Z * option Z * setup_state) :=
  let irq := free_irq a in
  if irq <? 0 then Done (1, None, s)
  else
    let s := set_held (irq :: irqs s) (iomems s) s in
    if decide (Z.to_nat vendor_id < length (deliver s))%nat then
      let s := set_deliver (<[Z.to_nat vendor_id := Some cb]> (deliver s)) s in
      let s := set_held (irqs s) (iomem a :: iomems s) s in
      if running a then
        if device_add a <? 0 then Done (-1, None, s)
        else Done (0, Some (u32 (num_boot s + device_add a)), s)
      else
        let avail := (sizeof_devs - length (line s))%nat in
        let entry := device_entry mmio_size (iomem a) irq in
        let num_bytes := length entry in
        let written := take (avail - 1) entry in
        if decide (avail <= num_bytes)%nat then
          let s := set_line (line s) written (num_boot s) s in
          let s := set_held (remove_one irq (irqs s)) (remove_one (iomem a) (iomems s)) s in
          Done (- ENOMEM, None, s)
        else Done (0, Some (num_boot s), set_line (line s ++ written) [] (u32 (num_boot s + 1)) s)
    else Failed (BadPointer vendor_id).

(** [lkl_virtio_deliver_irq]: the routine that is called, if one is. *)
Definition lkl_virtio_deliver_irq (s : setup_state) (dev_id : Z) : outcome (option Z) :=
  match deliver s !! Z.to_nat dev_id with
  | Some cb => Done cb
  | None => Failed (BadPointer dev_id)
  end.

(** ** Network devices *)

(** A store into [registered_devs]. *)
Definition store_registered (vendor : Z) (s : setup_state) : outcome setup_state :=
  if decide (Z.to_nat (registered_idx s) < length (registered s))%nat then
    Done (set_registered (<[Z.to_nat (registered_idx s) := vendor]> (registered s)) (registered_idx s) s)
  else Failed (BadPointer (registered_idx s)).

Definition dev_register (vendor : Z) (s : setup_state) : outcome (Z * setup_state) :=
  if registered_idx s =? Z.of_nat MAX_NET_DEVS then Done (- ENOMEM, s)
  else s ← store_registered vendor s; Done (0, s).

Definition lkl_virtio_netdev_add (a : lkl_answers) (vendor config_len cb : Z) (s : setup_state) :
    outcome (Z * setup_state) :=
  let mmio_size := s32 (0x100 + config_len) in
  s ← store_registered vendor s;
  '(r, _, s) ← lkl_virtio_dev_setup a vendor mmio_size cb s;
  if negb (r =? 0) then Done (-1, s)
  else
    '(r, s) ← dev_register vendor s;
    if r <? 0 then Failed Stopped
    else Done (registered_idx s, set_registered (registered s) (u8 (registered_idx s + 1)) s).

(** The index of the first registered device of a vendor. *)
Fixpoint netdev_index (n : nat) (vendors : list Z) (netdev_id : Z) : outcome Z :=
  match n, vendors with
  | S n', v :: vs => if v =? netdev_id then Done 0 else i ← netdev_index n' vs netdev_id; Done (1 + i)
  | _, _ => Failed Assertion
  end.
Definition get_netdev_instance (s : setup_state) (netdev_id : Z) : outcome Z :=
  netdev_index (Z.to_nat (registered_idx s)) (registered s) netdev_id.

(** ** Disks and the console *)

Definition lkl_virtio_console_add (a : lkl_answers) (vendor config_len cb : Z) (s : setup_state) :
    outcome (Z * setup_state) :=
  '(r, _, s) ← lkl_virtio_dev_setup a vendor (s32 (0x100 + config_len)) cb s; Done (r, s).

(** The root disk and the mounts, in order, each with LKL's answers; the first
    failure ends it. *)
Fixpoint add_each (disks : list (lkl_answers * Z * Z)) (cb : Z) (s : setup_state) : outcome (Z * setup_state) :=
  match disks with
  | [] => Done (0, s)
  | (a, vendor, config_len) :: disks' =>
      '(r, _, s) ← lkl_virtio_dev_setup a vendor (s32 (0x100 + config_len)) cb s;
      if negb (r =? 0) then Done (-1, s) else add_each disks' cb s
  end.
Definition lkl_add_disks (root : lkl_answers * Z * Z) (mounts : list (lkl_answers * Z * Z)) (cb : Z)
    (s : setup_state) : outcome (Z * setup_state) := add_each (root :: mounts) cb s.

(** An interrupt of the device: the status bit, then the device's interrupt. *)
Definition lkl_deliver_irq (int_status irq : Z) : Z * Z := (Z.lor int_status VIRTIO_MMIO_INT_VRING, irq).

(** ** Properties *)

(** The boot string stays inside its array, the tables have their sizes. *)
Record setup_ok (s : setup_state) : Prop := {
  so_room : (length (line s) < sizeof_devs)%nat;
  so_string : (length (lkl_virtio_devs s) < sizeof_devs)%nat;
  so_deliver : length (deliver s) = DEVICE_COUNT;
  so_registered : length (registered s) = MAX_NET_DEVS
}.

Lemma remove_one_head x l : remove_one x (x :: l) = l.
Proof. unfold remove_one. simpl. by destruct (decide (x = x)). Qed.

(** The four ways a set-up can end, for a vendor number inside the table. *)
Inductive setup_result (a : lkl_answers) (vendor mmio_size cb : Z) (s s' : setup_state) : Z -> Prop :=
| SetupNoIrq : free_irq a < 0 -> s' = s -> setup_result a vendor mmio_size cb s s' 1
| SetupRefused : 0 <= free_irq a -> running a = true -> device_add a < 0 ->
    lkl_virtio_devs s' = lkl_virtio_devs s -> line s' = line s ->
    irqs s' = free_irq a :: irqs s -> iomems s' = iomem a :: iomems s ->
    setup_result a vendor mmio_size cb s s' (-1)
| SetupFull : 0 <= free_irq a -> running a = false ->
    (sizeof_devs <= length (line s) + length (device_entry mmio_size (iomem a) (free_irq a)))%nat ->
    line s' = line s ->
    lkl_virtio_devs s' = take (sizeof_devs - 1) (line s ++ device_entry mmio_size (iomem a) (free_irq a)) ->
    irqs s' = irqs s -> iomems s' = iomems s -> setup_result a vendor mmio_size cb s s' (- ENOMEM)
| SetupAdded : 0 <= free_irq a -> irqs s' = free_irq a :: irqs s -> iomems s' = iomem a :: iomems s ->
    deliver s' !! Z.to_nat vendor = Some (Some cb) ->
    (running a = true /\ lkl_virtio_devs s' = lkl_virtio_devs s /\ line s' = line s \/
     running a = false /\ line s' = line s ++ device_entry mmio_size (iomem a) (free_irq a) /\
     lkl_virtio_devs s' = line s') ->
    setup_result a vendor mmio_size cb s s' 0.

Lemma dev_setup_ends a vendor mmio_size cb s :
  setup_ok s -> 0 <= vendor < Z.of_nat DEVICE_COUNT ->
  exists r id s', lkl_virtio_dev_setup a vendor mmio_size cb s = Done (r, id, s') /\ setup_ok s' /\
    registered s' = registered s /\ registered_idx s' = registered_idx s /\
    setup_result a vendor mmio_size cb s s' r.
Proof.
  intros [H1 H2 H3 H4] Hv. unfold lkl_virtio_dev_setup. unfold DEVICE_COUNT in *.
  destruct (Z.ltb_spec (free_irq a) 0); [eexists _, _, _; split; [done|]; split; [by split|]; split_and!; [done..|by constructor]|].
  cbn [deliver set_held]. rewrite decide_True by (rewrite H3; lia).
  cbn [irqs iomems line num_boot set_deliver set_held set_line].
  assert ((<[Z.to_nat vendor := Some cb]> (deliver s)) !! Z.to_nat vendor = Some (Some cb)) as Hl
    by (apply list_lookup_insert_eq; lia).
  destruct (running a) eqn:Er.
  - destruct (Z.ltb_spec (device_add a) 0); eexists _, _, _; (split; [reflexivity|]);
      (split; [split; simpl; try done; by rewrite length_insert|]); (split_and!; [done..|]).
    + by apply SetupRefused.
    + apply SetupAdded; try done. by left.
  - set (e := device_entry mmio_size (iomem a) (free_irq a)). unfold sizeof_devs in *.
    case_decide as Hd; eexists _, _, _; (split; [reflexivity|]).
    + assert (lkl_virtio_devs (set_line (line s) (take (4096 - length (line s) - 1) e) (num_boot s) s) =
        take 4095 (line s ++ e)) as Ht.
      { unfold lkl_virtio_devs. simpl. rewrite take_app, (take_ge (line s)) by lia. do 2 f_equal. lia. }
      split; [|split_and!; [done..|]].
      * split; simpl; [done| |by rewrite length_insert|done]. pose proof (f_equal length Ht) as Hlen.
        rewrite length_take in Hlen. eapply Nat.le_lt_trans; [apply Nat.eq_le_incl, Hlen|unfold sizeof_devs; lia].
      * apply SetupFull; [done|done|unfold sizeof_devs, e in *; lia|done|apply Ht|simpl; apply remove_one_head..].
    + split; [|split_and!; [done..|]].
      * split; simpl; try (by rewrite length_insert); try done; unfold lkl_virtio_devs; cbn [line tail_ set_line set_held set_deliver]; rewrite ?app_nil_r;
          unfold sizeof_devs; rewrite ?length_app, length_take; lia.
      * apply SetupAdded; try done. right. unfold lkl_virtio_devs. simpl. rewrite app_nil_r.
        by rewrite take_ge by lia.
Qed.

(** The entries of the disks, in order. *)
Definition disk_entry (x : lkl_answers * Z * Z) : text :=
  let '(a, vendor, config_len) := x in device_entry (s32 (0x100 + config_len)) (iomem a) (free_irq a).
Definition disk_at_boot (x : lkl_answers * Z * Z) : Prop :=
  let '(a, vendor, config_len) := x in running a = false /\ 0 <= vendor < Z.of_nat DEVICE_COUNT.

Lemma add_each_line disks cb s :
  setup_ok s -> tail_ s = [] -> Forall disk_at_boot disks ->
  exists r s' done_, add_each disks cb s = Done (r, s') /\ setup_ok s' /\ done_ `prefix_of` disks /\
    line s' = line s ++ concat (map disk_entry done_) /\
    (r = 0 /\ done_ = disks /\ tail_ s' = [] \/
     r = -1 /\ exists x rest, disks = done_ ++ x :: rest /\
       (lkl_virtio_devs s' = line s' \/
        lkl_virtio_devs s' = take (sizeof_devs - 1) (line s' ++ disk_entry x))).
Proof.
  revert s. induction disks as [|[[a v] c] disks IH]; intros s Hs Ht Hd.
  - exists 0, s, []. cbn. rewrite app_nil_r. split_and!; try done. by left.
  - apply Forall_cons in Hd as [[Hr Hv] Hd]. cbn [add_each].
    destruct (dev_setup_ends a v (s32 (0x100 + c)) cb s Hs Hv) as (r & id & s1 & -> & Hs1 & _ & _ & HR).
    cbn [mbind outcome_bind].
    assert (lkl_virtio_devs s = line s) as Hl by (unfold lkl_virtio_devs; by rewrite Ht, app_nil_r).
    destruct HR as [Hi ->|? Hrun|? ? ? E1 E2|? ? ? ? [[Hrun _]|(_ & E1 & E2)]]; try congruence.
    + exists (-1), s, []. cbn. rewrite app_nil_r. split_and!; try done; [apply prefix_nil|]. right. split; [done|].
      exists (a, v, c), disks. split; [done|]. by left.
    + exists (-1), s1, []. cbn [map concat]. rewrite app_nil_r. split_and!; try done; [apply prefix_nil|].
      right. split; [done|]. exists (a, v, c), disks. split; [done|]. right. by rewrite E2, E1.
    + cbn [Z.eqb negb].
      assert (tail_ s1 = []) as Ht1.
      { unfold lkl_virtio_devs in E2. rewrite <- (app_nil_r (line s1)) in E2 at 2. by apply app_inv_head in E2. }
      destruct (IH s1 Hs1 Ht1 Hd) as (r & s' & dn & E & Hs' & [k Hp] & El & HC).
      exists r, s', ((a, v, c) :: dn). split_and!; try done.
      * exists k. by rewrite Hp.
      * rewrite El, E1, <- (assoc_L (++)). done.
      * destruct HC as [(-> & -> & ?)|(-> & x & rest & Ed & HC)]; [by left|right]. split; [done|].
        exists x, rest. split; [by rewrite Ed|done].
Qed.

(** The kernel's list of devices: adding the disks before the kernel runs
    never writes outside the array and keeps it terminated.  If it succeeds, the
    list has grown by exactly the entries of all disks in their order; if it
    fails, [line] has grown by those of the disks before the failing one, but if
    the array was full the kernel also reads as much of the failing disk's entry
    as fitted. *)
Theorem add_disks_boot_line root mounts cb s :
  setup_ok s -> tail_ s = [] -> Forall disk_at_boot (root :: mounts) ->
  exists r s' done_, lkl_add_disks root mounts cb s = Done (r, s') /\
    (length (lkl_virtio_devs s') < sizeof_devs)%nat /\ done_ `prefix_of` root :: mounts /\
    line s' = line s ++ concat (map disk_entry done_) /\
    (r = 0 /\ done_ = root :: mounts /\ lkl_virtio_devs s' = line s' \/
     r = -1 /\ exists x rest, root :: mounts = done_ ++ x :: rest /\
       (lkl_virtio_devs s' = line s' \/
        lkl_virtio_devs s' = take (sizeof_devs - 1) (line s' ++ disk_entry x))).
Proof.
  intros Hs Ht Hd. destruct (add_each_line (root :: mounts) cb s Hs Ht Hd) as (r & s' & dn & E & Hs' & Hp & El & HC).
  exists r, s', dn. split_and!; try done; [apply Hs'|].
  destruct HC as [(-> & -> & Ht')|HC]; [left|by right]. split_and!; try done. unfold lkl_virtio_devs.
  by rewrite Ht', app_nil_r.
Qed.

Definition no_devices : setup_state := mk_setup [] [] 0 (replicate 32 None) (replicate 16 0) 0 [] [].
Definition sample_answers : lkl_answers := mk_answers 3 0x1000 false 0.

Lemma no_devices_ok : setup_ok no_devices.
Proof. split; simpl; (done || (unfold sizeof_devs; lia)). Qed.

Lemma add_disks_boot_line_witness :
  exists r s' done_, lkl_add_disks (sample_answers, 0, 60) [] 7 no_devices = Done (r, s') /\
    (length (lkl_virtio_devs s') < sizeof_devs)%nat /\ done_ `prefix_of` [(sample_answers, 0, 60)] /\
    line s' = [] ++ concat (map disk_entry done_) /\
    (r = 0 /\ done_ = [(sample_answers, 0, 60)] /\ lkl_virtio_devs s' = line s' \/
     r = -1 /\ exists x rest, [(sample_answers, 0, 60)] = done_ ++ x :: rest /\
       (lkl_virtio_devs s' = line s' \/
        lkl_virtio_devs s' = take (sizeof_devs - 1) (line s' ++ disk_entry x))).
Proof.
  apply (add_disks_boot_line (sample_answers, 0, 60) [] 7 no_devices); [apply no_devices_ok|reflexivity|].
  constructor; [|constructor]. split; [reflexivity|split; vm_compute; [discriminate|reflexivity]].
Defined.

Example sample_entry : disk_entry (sample_answers, 0, 60) = bytes " virtio_mmio.device=316@0x1000:3".
Proof. reflexivity. Qed.

(** ** Network devices *)

(** The table of network devices: the entries up to the index are those added. *)
Definition added (s : setup_state) : list Z := take (Z.to_nat (registered_idx s)) (registered s).

Lemma netdev_index_found n vendors v :
  (n < length vendors)%nat -> vendors !! n = Some v -> v ∉ take n vendors ->
  netdev_index (S n) vendors v = Done (Z.of_nat n).
Proof.
  revert n. induction vendors as [|w vendors IH]; intros n Hn Hl Hni; simpl in Hn; [lia|].
  destruct n as [|n]; simpl in Hl.
  - injection Hl as ->. simpl. by rewrite Z.eqb_refl.
  - cbn [take] in Hni. apply not_elem_of_cons in Hni as [Hw Hni].
    change (netdev_index (S (S n)) (w :: vendors) v)
      with (if w =? v then Done 0 else i ← netdev_index (S n) vendors v; Done (1 + i)).
    rewrite (proj2 (Z.eqb_neq w v)) by congruence. rewrite IH by (done || lia). cbn [mbind outcome_bind].
    f_equal. lia.
Qed.

(** Adding a network device while fewer than 16 are registered: if LKL
    accepts it, the result is its index, interrupts of its vendor number find
    exactly this device (unless the number was in use), the earlier devices stay;
    the seventeenth is written behind the end of the table before its limit is
    checked. *)
Theorem netdev_add_registers a vendor config_len cb s :
  setup_ok s -> 0 <= vendor < Z.of_nat DEVICE_COUNT -> 0 <= registered_idx s <= Z.of_nat MAX_NET_DEVS ->
  vendor ∉ added s ->
  if registered_idx s =? Z.of_nat MAX_NET_DEVS then
    lkl_virtio_netdev_add a vendor config_len cb s = Failed (BadPointer (Z.of_nat MAX_NET_DEVS))
  else exists r s', lkl_virtio_netdev_add a vendor config_len cb s = Done (r, s') /\ setup_ok s' /\
    (r = -1 /\ added s' = added s \/
     r = registered_idx s /\ registered_idx s' = registered_idx s + 1 /\ added s' = added s ++ [vendor] /\
     get_netdev_instance s' vendor = Done r /\ lkl_virtio_deliver_irq s' vendor = Done (Some cb)).
Proof.
  intros Hs Hv Hi Hn. pose proof Hs as [H1 H2 H3 H4]. unfold lkl_virtio_netdev_add, store_registered.
  rewrite H4. unfold MAX_NET_DEVS in *. destruct (Z.eqb_spec (registered_idx s) (Z.of_nat 16)) as [->|Hne].
  - by rewrite decide_False by lia.
  - rewrite decide_True by lia. cbn [mbind outcome_bind]. set (s0 := set_registered _ _ s).
    assert (setup_ok s0) as Hs0 by (split; simpl; try done; by rewrite length_insert).
    assert (added s0 = added s) as Ha0 by (unfold added, s0; simpl; apply take_insert_ge; lia).
    destruct (dev_setup_ends a vendor (s32 (0x100 + config_len)) cb s0 Hs0 Hv) as (r & id & s1 & -> & Hs1 & E1 & E2 & HR).
    cbn [mbind outcome_bind]. assert (added s1 = added s) as Ha1 by (unfold added in *; by rewrite E1, E2).
    destruct HR as [? ->| | |? ? ? Hdl _]; [eexists _, _; by split_and!; [..|left]|eexists _, _; by split_and!; [..|left]|eexists _, _; by split_and!; [..|left]|].
    cbn [Z.eqb negb]. unfold dev_register, store_registered. rewrite E2. cbn [registered_idx s0 set_registered].
    rewrite (proj2 (Z.eqb_neq _ _)) by done. rewrite (so_registered s1 Hs1), decide_True by (unfold MAX_NET_DEVS; lia).
    cbn [mbind outcome_bind]. change (0 <? 0) with false. cbv iota. cbn [registered_idx registered set_registered].
    assert (<[Z.to_nat (registered_idx s):=vendor]> (registered s1) !! Z.to_nat (registered_idx s) = Some vendor) as Hlk
      by (apply list_lookup_insert_eq; rewrite (so_registered s1 Hs1); unfold MAX_NET_DEVS; lia).
    assert (take (Z.to_nat (registered_idx s)) (<[Z.to_nat (registered_idx s):=vendor]> (registered s1)) = added s) as Htk.
    { rewrite take_insert_ge by lia. rewrite <- Ha1. unfold added. by rewrite E2. }
    eexists _, _. split; [reflexivity|]. split.
    { destruct Hs1 as [? ? ? ?]. split; simpl; try done. by rewrite length_insert. }
    right. rewrite u8_small by lia. cbn [registered_idx set_registered]. split_and!; try done.
    + unfold added at 1. cbn [registered_idx registered set_registered].
      replace (Z.to_nat (registered_idx s + 1)) with (S (Z.to_nat (registered_idx s))) by lia.
      by rewrite (take_S_r _ _ _ Hlk), Htk.
    + unfold get_netdev_instance. cbn [registered_idx registered set_registered].
      replace (Z.to_nat (registered_idx s + 1)) with (S (Z.to_nat (registered_idx s))) by lia.
      rewrite (netdev_index_found _ _ vendor); [f_equal; lia| |done|by rewrite Htk].
      rewrite length_insert, (so_registered s1 Hs1). unfold MAX_NET_DEVS. lia.
    + unfold lkl_virtio_deliver_irq. simpl. by rewrite Hdl.
Qed.

Lemma netdev_add_registers_witness :
  exists r s', lkl_virtio_netdev_add sample_answers 5 12 9 no_devices = Done (r, s') /\ setup_ok s' /\
    (r = -1 /\ added s' = [] \/
     r = 0 /\ registered_idx s' = 0 + 1 /\ added s' = [] ++ [5] /\
     get_netdev_instance s' 5 = Done r /\ lkl_virtio_deliver_irq s' 5 = Done (Some 9)).
Proof.
  apply (netdev_add_registers sample_answers 5 12 9 no_devices);
    [apply no_devices_ok|split; vm_compute; [discriminate|reflexivity]|split; vm_compute; discriminate|apply not_elem_of_nil].
Defined.
