(* ===== verification/VicCrypto.v ===== *)
(** * VicCrypto: hashes, anti-forensic splitting and key derivation
    (src/vicsetup/libvicsetup/crypto.c, hash.c, byteorder.h, round.h)

    The functions of vicsetup on which its LUKS volumes rest.  The algorithms of
    mbedTLS are parameters: a hash function per type with the length of its
    result, and PBKDF2.  Random bytes are arguments of the operations that draw
    them.  Keys are lists of bytes of the length in use. *)

From Stdlib Require Import String.
From S2P Require Import Prelude JsonText.

(** ** Byte order *)

Definition vic_swap_u32 (x : Z) : Z :=
  Z.lor (Z.lor (Z.lor (u32 (Z.shiftl (Z.land x 0x000000FF) 24)) (u32 (Z.shiftl (Z.land x 0x0000FF00) 8)))
               (Z.shiftr (Z.land x 0x00FF0000) 8)) (Z.shiftr (Z.land x 0xFF000000) 24).
Definition vic_swap_u64 (x : Z) : Z :=
  Z.lor (Z.lor (Z.lor (Z.lor (Z.lor (Z.lor (Z.lor
    (u64 (Z.shiftl (Z.land x 0xFF) 56)) (u64 (Z.shiftl (Z.land x 0xFF00) 40)))
    (u64 (Z.shiftl (Z.land x 0xFF0000) 24))) (u64 (Z.shiftl (Z.land x 0xFF000000) 8)))
    (Z.shiftr (Z.land x 0xFF00000000) 8)) (Z.shiftr (Z.land x 0xFF0000000000) 24))
    (Z.shiftr (Z.land x 0xFF000000000000) 40)) (Z.shiftr (Z.land x 0xFF00000000000000) 56).
Definition vic_swap_u16 (x : Z) : Z :=
  Z.lor (u16 (Z.shiftl (Z.land x 0x00FF) 8)) (Z.shiftr (Z.land x 0xFF00) 8).

(** The bytes of an integer in memory. *)
Definition le_bytes (n : nat) (x : Z) : list Z := map (fun i => x / 2 ^ (8 * Z.of_nat i) mod 256) (seq 0 n).
Fixpoint le_value (l : list Z) : Z := match l with [] => 0 | b :: l' => b + 256 * le_value l' end.

Definition vic_round_up (x m : Z) : Z := u64 (u64 (x + m - 1) / m * m).

(** A field of a structure in memory. *)
Definition sub (off n : nat) (l : list Z) : list Z := take n (drop off l).

Lemma le_value_bytes n x : 0 <= x < 2 ^ (8 * Z.of_nat n) -> le_value (le_bytes n x) = x.
Proof.
  unfold le_bytes. revert x. induction n as [|n IH]; intros x Hx.
  - simpl in *. lia.
  - cbn [seq map le_value]. rewrite <- seq_shift, map_map.
    rewrite (map_ext _ (fun i => (x / 256) / 2 ^ (8 * Z.of_nat i) mod 256)).
    + replace (8 * Z.of_nat (S n)) with (8 * Z.of_nat n + 8) in Hx by lia. rewrite Z.pow_add_r in Hx by lia.
      rewrite IH by (split; [apply Z.div_pos; lia|apply Z.div_lt_upper_bound; lia]).
      change (8 * Z.of_nat 0) with 0. rewrite Z.pow_0_r, Z.div_1_r. rewrite (Z.div_mod x 256) at 3 by lia. lia.
    + intros i. rewrite Z.div_div by (try apply Z.pow_nonzero; lia). do 2 f_equal.
      replace (8 * Z.of_nat (S i)) with (8 + 8 * Z.of_nat i) by lia. by rewrite Z.pow_add_r by lia.
Qed.

Lemma le_bytes_length n x : length (le_bytes n x) = n.
Proof. unfold le_bytes. by rewrite length_map, length_seq. Qed.

Lemma le_value_range l : Forall is_byte l -> 0 <= le_value l < 2 ^ (8 * Z.of_nat (length l)).
Proof.
  induction 1 as [|b l Hb _ IH]; [done|]. cbn [le_value length]. unfold is_byte in Hb.
  replace (8 * Z.of_nat (S (length l))) with (8 + 8 * Z.of_nat (length l)) by lia.
  rewrite Z.pow_add_r by lia. lia.
Qed.

(** The bytes of a value are those it was read from. *)
Lemma le_bytes_value l : Forall is_byte l -> le_bytes (length l) (le_value l) = l.
Proof.
  unfold le_bytes. induction 1 as [|b l Hb Hl IH]; [done|]. unfold is_byte in Hb. cbn [length seq map le_value].
  rewrite <- seq_shift, map_map. f_equal.
  - change (8 * Z.of_nat 0) with 0. rewrite Z.pow_0_r, Z.div_1_r. symmetry. apply (Z.mod_unique_pos _ _ (le_value l)); lia.
  - rewrite <- IH at 2. apply map_ext. intros i.
    replace (8 * Z.of_nat (S i)) with (8 + 8 * Z.of_nat i) by lia. rewrite Z.pow_add_r by lia.
    rewrite <- Z.div_div by (try apply Z.pow_nonzero; lia). do 2 f_equal.
    symmetry. apply (Z.div_unique_pos _ _ _ b); lia.
Qed.

Lemma le_bytes_byte n x : Forall is_byte (le_bytes n x).
Proof. unfold le_bytes. apply Forall_map, Forall_forall. intros i _. apply Z.mod_pos_bound. lia. Qed.

(** The bytes of an integer with the most significant one first. *)
Definition be_bytes (n : nat) (x : Z) : list Z := rev (le_bytes n x).

(** A byte of a word, by a mask. *)
Lemma land_byte x m k : 0 <= k -> m = Z.shiftl 255 k -> Z.land x m = Z.shiftl (x / 2 ^ k mod 256) k.
Proof.
  intros Hk ->. apply Z.bits_inj'. intros i Hi. rewrite Z.land_spec, !Z.shiftl_spec by done.
  destruct (Z.ltb_spec i k); [by rewrite !(Z.testbit_neg_r _ (i - k)), andb_false_r by lia|].
  change 255 with (Z.ones 8). change 256 with (2 ^ 8). destruct (Z.ltb_spec (i - k) 8).
  - rewrite Z.ones_spec_low, Z.mod_pow2_bits_low, Z.div_pow2_bits, andb_true_r by lia. f_equal. lia.
  - rewrite Z.ones_spec_high, Z.mod_pow2_bits_high, andb_false_r by lia. done.
Qed.

Lemma concat_field (fs : list (list Z)) i x off :
  fs !! i = Some x -> off = length (concat (take i fs)) -> sub off (length x) (concat fs) = x.
Proof.
  revert i off. induction fs as [|f fs IH]; intros i off Hi ->; [done|]. unfold sub. destruct i as [|i].
  - injection Hi as ->. cbn [take concat length]. rewrite drop_0, take_app_le by done. by apply take_ge.
  - cbn [take concat]. rewrite length_app, drop_app_ge by lia. replace (length f + _ - length f)%nat with
      (length (concat (take i fs))) by lia. exact (IH i _ Hi eq_refl).
Qed.

(** A field of known width at a known offset. *)
Lemma field_sub (fs : list (list Z)) i x off n :
  fs !! i = Some x -> off = length (concat (take i fs)) -> n = length x -> sub off n (concat fs) = x.
Proof. intros Hi Ho ->. exact (concat_field fs i x off Hi Ho). Qed.

(** The offset of a field. *)
Ltac field_off := cbn [take concat]; rewrite ?length_app, ?le_bytes_length; simpl length; lia.

(** ** Strings in arrays *)

(** A string in a character array, and [strcpy] into a zeroed array. *)
Fixpoint cstr (l : list Z) : text := match l with [] => [] | c :: l' => if c =? 0 then [] else c :: cstr l' end.
Definition pad (n : nat) (s : text) : list Z := s ++ replicate (n - length s) 0.

Lemma cstr_zeros l m : Forall (fun c => c ≠ 0) l -> cstr (l ++ replicate m 0) = l.
Proof.
  induction 1 as [|c l Hc Hl IH]; [by destruct m|]. cbn [app cstr]. by rewrite (proj2 (Z.eqb_neq c 0) Hc), IH.
Qed.

(** ** Hash types *)

Inductive vic_hash_type_t : Type :=
| VIC_HASH_NONE | VIC_HASH_SHA1 | VIC_HASH_SHA256 | VIC_HASH_SHA512 | VIC_HASH_RIPEMD160.

Definition VIC_HASH_SPEC_SHA1 : text := bytes "sha1".
Definition VIC_HASH_SPEC_SHA256 : text := bytes "sha256".
Definition VIC_HASH_SPEC_SHA512 : text := bytes "sha512".
Definition VIC_HASH_SPEC_RIPEMD160 : text := bytes "ripemd160".

Definition vic_hash_size (spec : text) : option Z :=
  if decide (spec = VIC_HASH_SPEC_SHA1) then Some 20
  else if decide (spec = VIC_HASH_SPEC_SHA256) then Some 32
  else if decide (spec = VIC_HASH_SPEC_SHA512) then Some 64
  else if decide (spec = VIC_HASH_SPEC_RIPEMD160) then Some 20
  else None.

Definition vic_hash_type (spec : text) : vic_hash_type_t :=
  if decide (spec = VIC_HASH_SPEC_SHA1) then VIC_HASH_SHA1
  else if decide (spec = VIC_HASH_SPEC_SHA256) then VIC_HASH_SHA256
  else if decide (spec = VIC_HASH_SPEC_SHA512) then VIC_HASH_SHA512
  else if decide (spec = VIC_HASH_SPEC_RIPEMD160) then VIC_HASH_RIPEMD160
  else VIC_HASH_NONE.

Definition digest_size (t : vic_hash_type_t) : nat :=
  match t with VIC_HASH_NONE => 0 | VIC_HASH_SHA256 => 32 | VIC_HASH_SHA512 => 64 | _ => 20 end.

(** The algorithms, with what is documented of them. *)
Class Algorithms : Type := {
  mbedtls_hash : vic_hash_type_t -> list Z -> list Z;
  mbedtls_hash_length t l : length (mbedtls_hash t l) = digest_size t;
  (* mbedtls_pkcs5_pbkdf2_hmac, None if it fails: hash, password, salt, iterations, length *)
  pbkdf2_hmac : vic_hash_type_t -> list Z -> list Z -> Z -> nat -> option (list Z);
  pbkdf2_hmac_length t p s i n k : pbkdf2_hmac t p s i n = Some k -> length k = n }.

Section Crypto.
Context `{Algorithms}.

(** [vic_hash_init] fails for no hash and, as this build has no RIPEMD-160, for
    that one; otherwise the four steps hash the concatenation. *)
Definition vic_hash_init (t : vic_hash_type_t) : bool :=
  match t with VIC_HASH_NONE | VIC_HASH_RIPEMD160 => false | _ => true end.
Definition vic_hashv (t : vic_hash_type_t) (vec : list (list Z)) : option (list Z) :=
  if vic_hash_init t then Some (mbedtls_hash t (concat vec)) else None.

(** ** Anti-forensic splitting *)

Definition _compute_xor (lhs rhs : list Z) : list Z := zip_with Z.lxor lhs rhs.

(** The blocks of [data] from the [i]-th on; the last one may be shorter. *)
Fixpoint diffuse_blocks (fuel : nat) (t : vic_hash_type_t) (hash_size : nat) (i : Z) (data : list Z) : list Z :=
  match fuel with
  | O => []
  | S fuel' =>
      let block := take hash_size data in
      let hash := mbedtls_hash t (le_bytes 4 (vic_swap_u32 i) ++ block) in
      take (length block) hash ++ diffuse_blocks fuel' t hash_size (u32 (i + 1)) (drop hash_size data)
  end.

Definition _diffuse (spec : text) (data : list Z) : option (list Z) :=
  match vic_hash_size spec with
  | None => None
  | Some hash_size =>
      let t := vic_hash_type spec in
      if negb (vic_hash_init t) then None
      else
        let bytes := Z.of_nat (length data) in
        let pad := int_of_bool (truthy (bytes mod hash_size)) in
        Some (diffuse_blocks (Z.to_nat (bytes / hash_size + pad)) t (Z.to_nat hash_size) 0 data)
  end.

(** The loop of [vic_afmerge]: every stripe is xored in, all but the last are
    diffused.  The counter [i] has 32 bits, [stripes] has 64. *)
Fixpoint merge_loop (fuel : nat) (spec : text) (key_bytes stripes i : Z) (key split_key : list Z) : outcome (option (list Z)) :=
  match fuel with
  | O => Failed OutOfFuel
  | S fuel' =>
      if i <? stripes then
        let stripe := sub (Z.to_nat (u64 (i * key_bytes))) (Z.to_nat key_bytes) split_key in
        let key := _compute_xor key stripe in
        if u32 (i + 1) =? stripes then merge_loop fuel' spec key_bytes stripes (u32 (i + 1)) key split_key
        else
          match _diffuse spec key with
          | Some key => merge_loop fuel' spec key_bytes stripes (u32 (i + 1)) key split_key
          | None => Done None
          end
      else Done (Some key)
  end.

(** [Done None] for the return of -1.  The fuel is enough for less than 2^32
    stripes; with more the counter never reaches their number, and no fuel is
    ([merge_endless]). *)
Definition vic_afmerge (key_bytes stripes : Z) (spec : text) (split_key : list Z) : outcome (option (list Z)) :=
  merge_loop (S (Z.to_nat (Z.min stripes (2 ^ 32)))) spec key_bytes stripes 0 (replicate (Z.to_nat key_bytes) 0) split_key.

(** The loop of [_gen_split_material] with [n] rounds to go; the offset of a
    stripe is a product of two uint32_t values. *)
Fixpoint split_loop (n : nat) (spec : text) (src : list Z) (keylen i : Z) (prev : list Z) : option (list Z) :=
  match n with
  | O => Some prev
  | S n' =>
      match _diffuse spec (_compute_xor prev (sub (Z.to_nat (u32 (i * keylen))) (Z.to_nat keylen) src)) with
      | Some prev => split_loop n' spec src keylen (u32 (i + 1)) prev
      | None => None
      end
  end.

Definition _gen_split_material (spec : text) (src prev : list Z) (keylen stripes : Z) : option (list Z) :=
  split_loop (Z.to_nat (u32 (stripes - 1))) spec src keylen 0 prev.

Definition sizeof_key : nat := 128.

(** [random]: the [key_size * stripes] bytes that are drawn into the buffer of
    the result.  [stripes] is converted to the uint32_t of the parameter; with 0
    of them the loop would run over the end of the buffer. *)
Definition vic_afsplit (spec : text) (key : list Z) (key_size stripes : Z) (random : list Z) : outcome (option (list Z)) :=
  let stripes := u32 stripes in
  if Z.of_nat sizeof_key <? key_size then Done None
  else if stripes =? 0 then Failed (BadPointer 0)
  else
    match _gen_split_material spec random (replicate (Z.to_nat key_size) 0) key_size stripes with
    | None => Done None
    | Some prev =>
        let last := _compute_xor prev key in
        Done (Some (take (Z.to_nat ((stripes - 1) * key_size)) random ++ last))
    end.

(** ** Key derivation *)

Definition vic_pbkdf2 (password salt : list Z) (iterations : Z) (spec : text) (key_size : Z) : option (list Z) :=
  if decide (password = [] \/ salt = [] \/ key_size = 0) then None
  else if 2 ^ 32 - 1 <? key_size then None
  else
    match vic_hash_type spec with
    | VIC_HASH_NONE => None
    | t => pbkdf2_hmac t password salt iterations (Z.to_nat key_size)
    end.

(** ** Properties *)

Lemma round_up_spec x m :
  0 <= x -> 0 < m -> x + m < 2 ^ 63 ->
  x <= vic_round_up x m < x + m /\ vic_round_up x m mod m = 0.
Proof.
  intros Hx Hm Hs. unfold vic_round_up. rewrite (u64_small (x + m - 1)) by lia.
  pose proof (Z.div_mod (x + m - 1) m ltac:(lia)) as E. pose proof (Z.mod_pos_bound (x + m - 1) m Hm) as Hr.
  assert (0 <= (x + m - 1) / m * m <= x + m - 1) by nia.
  rewrite u64_small by lia. split; [nia|]. apply Z_mod_mult.
Qed.

Lemma hash_size_type spec n :
  vic_hash_size spec = Some n -> vic_hash_init (vic_hash_type spec) = true ->
  n = Z.of_nat (digest_size (vic_hash_type spec)) /\ 0 < n.
Proof. unfold vic_hash_size, vic_hash_type. repeat case_decide; intros; simplify_eq; done. Qed.

Lemma diffuse_blocks_length fuel t n i data :
  (0 < n)%nat -> n = digest_size t -> (length data <= fuel * n)%nat ->
  length (diffuse_blocks fuel t n i data) = length data.
Proof.
  intros Hn Ht. revert i data. induction fuel as [|fuel IH]; intros i data Hl; cbn [diffuse_blocks]; [simpl in *; lia|].
  rewrite length_app, length_take, mbedtls_hash_length, IH, length_take, length_drop by (rewrite length_drop; lia). lia.
Qed.

Lemma diffuse_length spec data d : _diffuse spec data = Some d -> length d = length data.
Proof.
  unfold _diffuse. destruct (vic_hash_size spec) as [n|] eqn:En; [|done].
  destruct (vic_hash_init (vic_hash_type spec)) eqn:Ei; [|done]. cbn [negb]. intros [= <-].
  destruct (hash_size_type spec n En Ei) as [-> Hn]. rewrite Nat2Z.id. apply diffuse_blocks_length; [lia|done|].
  set (b := Z.of_nat (length data)). set (k := digest_size (vic_hash_type spec)) in *.
  apply Nat2Z.inj_le. rewrite Nat2Z.inj_mul. fold b.
  assert (0 <= b / Z.of_nat k) by (apply Z.div_pos; lia).
  rewrite Z2Nat.id by (destruct (truthy _); simpl; lia).
  pose proof (Z.div_mod b (Z.of_nat k) ltac:(lia)). pose proof (Z.mod_pos_bound b (Z.of_nat k) ltac:(lia)).
  unfold truthy. destruct (Z.eqb_spec (b mod Z.of_nat k) 0); simpl; nia.
Qed.

Lemma xor_length a b : length a = length b -> length (_compute_xor a b) = length a.
Proof. intros. unfold _compute_xor. rewrite length_zip_with. lia. Qed.

Lemma xor_cancel a b : length a = length b -> _compute_xor a (_compute_xor a b) = b.
Proof.
  revert b. induction a as [|x a IH]; intros [|y b] Hl; try done. simpl in *.
  unfold _compute_xor in *. simpl. rewrite IH by lia. by rewrite <- Z.lxor_assoc, Z.lxor_nilpotent, Z.lxor_0_l.
Qed.

Lemma diffuse_total spec data :
  vic_hash_size spec <> None -> vic_hash_init (vic_hash_type spec) = true -> exists d, _diffuse spec data = Some d.
Proof. intros Hsz Hi. unfold _diffuse. destruct (vic_hash_size spec); [|done]. rewrite Hi. by eexists. Qed.

(** What both loops compute: the first [n] stripes of [kb] bytes, xored in and
    diffused. *)
Fixpoint mix (spec : text) (n kb : nat) (acc split : list Z) : option (list Z) :=
  match n with
  | O => Some acc
  | S n' =>
      match _diffuse spec (_compute_xor acc (take kb split)) with
      | Some acc' => mix spec n' kb acc' (drop kb split)
      | None => None
      end
  end.

Lemma mix_length spec n kb acc split r :
  length acc = kb -> (n * kb <= length split)%nat -> mix spec n kb acc split = Some r -> length r = kb.
Proof.
  revert acc split. induction n as [|n IH]; intros acc split Ha Hs; cbn [mix]; [by intros [= <-]|].
  destruct (_diffuse spec _) as [d|] eqn:Ed; [|done]. apply diffuse_length in Ed.
  rewrite xor_length in Ed by (rewrite length_take; lia). apply IH; [lia|rewrite length_drop; lia].
Qed.

(** Only the stripes before the last matter for the mixing. *)
Lemma mix_take spec n kb acc l l' :
  take (n * kb) l = take (n * kb) l' -> mix spec n kb acc l = mix spec n kb acc l'.
Proof.
  revert acc l l'. induction n as [|n IH]; intros acc l l' E; [done|]. cbn [mix].
  assert (take kb l = take kb l') as ->.
  { apply (f_equal (take kb)) in E. rewrite !take_take in E. by rewrite !Nat.min_l in E by lia. }
  destruct (_diffuse _ _); [|done]. apply IH.
  apply (f_equal (drop kb)) in E. rewrite !skipn_firstn_comm in E.
  by replace (S n * kb - kb)%nat with (n * kb)%nat in E by lia.
Qed.

Lemma mix_total spec n kb acc l :
  vic_hash_size spec <> None -> vic_hash_init (vic_hash_type spec) = true -> exists r, mix spec n kb acc l = Some r.
Proof.
  intros Hsz Hi. revert acc l. induction n as [|n IH]; intros acc l; [by eexists|]. cbn [mix].
  destruct (diffuse_total spec (_compute_xor acc (take kb l)) Hsz Hi) as [d ->]. apply IH.
Qed.

(** As long as no offset reaches 2^32, splitting mixes all stripes but the last. *)
Lemma split_loop_mix n spec src kb i prev :
  0 <= i -> i + Z.of_nat n < 2 ^ 32 -> (i + Z.of_nat n - 1) * Z.of_nat kb < 2 ^ 32 ->
  split_loop n spec src (Z.of_nat kb) i prev = mix spec n kb prev (drop (Z.to_nat i * kb) src).
Proof.
  revert i prev. induction n as [|n IH]; intros i prev Hi Hn Ho; [done|]. cbn [split_loop mix].
  rewrite Nat2Z.id, !u32_small by nia. unfold sub.
  replace (Z.to_nat (i * Z.of_nat kb)) with (Z.to_nat i * kb)%nat by nia.
  destruct (_diffuse _ _) as [d|]; [|done]. rewrite IH by lia. rewrite drop_drop.
  by replace (Z.to_nat (i + 1) * kb)%nat with (Z.to_nat i * kb + kb)%nat by nia.
Qed.

(** Merging less than 2^32 stripes mixes all but the last and xors the last in. *)
Lemma merge_loop_mix n fuel spec kb stripes i acc split :
  0 <= i -> i + Z.of_nat n + 1 = stripes -> stripes < 2 ^ 32 -> stripes * Z.of_nat kb < 2 ^ 64 -> (S n < fuel)%nat ->
  merge_loop fuel spec (Z.of_nat kb) stripes i acc split =
  Done (match mix spec n kb acc (drop (Z.to_nat i * kb) split) with
        | Some r => Some (_compute_xor r (sub (Z.to_nat (stripes - 1) * kb) kb split))
        | None => None
        end).
Proof.
  intros Hi Hn Hs Ho. revert i acc fuel Hi Hn. induction n as [|n IH]; intros i acc [|fuel] Hi Hn Hf; try lia;
    cbn [merge_loop mix]; rewrite (proj2 (Z.ltb_lt _ _)), Nat2Z.id, u64_small, u32_small by nia.
  - rewrite (proj2 (Z.eqb_eq _ _)) by lia. destruct fuel as [|fuel]; [lia|]. cbn [merge_loop].
    rewrite (proj2 (Z.ltb_ge _ _)) by lia. replace (Z.to_nat (i * Z.of_nat kb)) with (Z.to_nat (stripes - 1) * kb)%nat by nia.
    done.
  - rewrite (proj2 (Z.eqb_neq _ _)) by lia. unfold sub at 1.
    replace (Z.to_nat (i * Z.of_nat kb)) with (Z.to_nat i * kb)%nat by nia.
    destruct (_diffuse _ _) as [d|]; [|done]. rewrite IH by lia. rewrite drop_drop.
    by replace (Z.to_nat (i + 1) * kb)%nat with (Z.to_nat i * kb + kb)%nat by nia.
Qed.

Lemma afmerge_mix spec kb stripes split :
  1 <= stripes < 2 ^ 32 -> stripes * Z.of_nat kb < 2 ^ 64 ->
  vic_afmerge (Z.of_nat kb) stripes spec split =
  Done (match mix spec (Z.to_nat (stripes - 1)) kb (replicate kb 0) split with
        | Some r => Some (_compute_xor r (sub (Z.to_nat (stripes - 1) * kb) kb split))
        | None => None
        end).
Proof.
  intros Hs Ho. unfold vic_afmerge. rewrite Z.min_l, Nat2Z.id by lia.
  by rewrite (merge_loop_mix (Z.to_nat (stripes - 1))) by lia.
Qed.

(** Merging reads no more than the stripes. *)
Lemma afmerge_app spec kb stripes split rest :
  1 <= stripes < 2 ^ 32 -> stripes * Z.of_nat kb < 2 ^ 64 -> stripes * Z.of_nat kb <= Z.of_nat (length split) ->
  vic_afmerge (Z.of_nat kb) stripes spec (split ++ rest) = vic_afmerge (Z.of_nat kb) stripes spec split.
Proof.
  intros Hs Ho Hl. rewrite !afmerge_mix by done. unfold sub.
  assert (Z.to_nat (stripes - 1) * kb + kb <= length split)%nat as Hle by nia.
  rewrite (mix_take _ _ _ _ (split ++ rest) split) by (rewrite take_app_le by lia; done).
  by rewrite drop_app_le, take_app_le by (rewrite ?length_drop; lia).
Qed.

(** From 2^32 stripes on the loop of [vic_afmerge] does not end. *)
Theorem merge_endless fuel spec key_bytes stripes i key split :
  vic_hash_size spec <> None -> vic_hash_init (vic_hash_type spec) = true -> 2 ^ 32 <= stripes -> 0 <= i < 2 ^ 32 ->
  merge_loop fuel spec key_bytes stripes i key split = Failed OutOfFuel.
Proof.
  intros Hsz Hh Hs. revert i key. induction fuel as [|fuel IH]; intros i key Hi; [done|]. cbn [merge_loop].
  assert (0 <= u32 (i + 1) < 2 ^ 32) as Hu by (apply wrap_range; lia).
  rewrite (proj2 (Z.ltb_lt _ _)), (proj2 (Z.eqb_neq _ _)) by lia.
  destruct (diffuse_total spec (_compute_xor key (sub (Z.to_nat (u64 (i * key_bytes))) (Z.to_nat key_bytes) split)) Hsz Hh)
    as [d ->]. by apply IH.
Qed.

(** Offsets of stripes wrap around: of the random bytes of a split of a key of
    128 bytes, those from 4 GiB on are never mixed, so that the last stripe does
    not depend on them, whatever the number of stripes is; merging mixes them. *)
Theorem split_wraps n spec src src' i prev :
  (forall k, 0 <= k < 2 ^ 32 -> src !! Z.to_nat k = src' !! Z.to_nat k) -> 0 <= i ->
  split_loop n spec src 128 i prev = split_loop n spec src' 128 i prev.
Proof.
  intros Hk. revert i prev. induction n as [|n IH]; intros i prev Hi; [done|]. cbn [split_loop].
  assert (u32 (i * 128) + 128 <= 2 ^ 32 /\ 0 <= u32 (i * 128)) as [Hu H0].
  { unfold u32, wrap. change (2 ^ 32) with (2 ^ 25 * 128). rewrite Zmult_mod_distr_r.
    pose proof (Z.mod_pos_bound i (2 ^ 25) ltac:(lia)). lia. }
  assert (sub (Z.to_nat (u32 (i * 128))) (Z.to_nat 128) src = sub (Z.to_nat (u32 (i * 128))) (Z.to_nat 128) src') as ->.
  { unfold sub. apply list_eq. intros j. destruct (decide (j < Z.to_nat 128)%nat).
    - rewrite !lookup_take_lt, !lookup_drop by done.
      replace (Z.to_nat (u32 (i * 128)) + j)%nat with (Z.to_nat (u32 (i * 128) + Z.of_nat j)) by lia. apply Hk. lia.
    - by rewrite !lookup_take_ge by lia. }
  destruct (_diffuse _ _); [|done]. apply IH, wrap_range; lia.
Qed.

(** What was split is merged again. *)
Lemma afmerge_of_split spec key stripes random split :
  1 <= stripes < 2 ^ 32 -> (stripes - 2) * Z.of_nat (length key) < 2 ^ 32 ->
  Z.of_nat (length random) = Z.of_nat (length key) * stripes ->
  vic_afsplit spec key (Z.of_nat (length key)) stripes random = Done (Some split) ->
  length split = length random /\
  take (Z.to_nat (stripes - 1) * length key) split = take (Z.to_nat (stripes - 1) * length key) random /\
  vic_afmerge (Z.of_nat (length key)) stripes spec split = Done (Some key).
Proof.
  intros Hs Ho Hr. set (kb := length key) in *. set (n := Z.to_nat (stripes - 1)).
  assert (length random = n * kb + kb)%nat as Hlen by nia.
  unfold vic_afsplit, _gen_split_material. rewrite (u32_small stripes) by lia.
  destruct (Z.ltb_spec (Z.of_nat sizeof_key) (Z.of_nat kb)) as [|Hkb]; [done|]. unfold sizeof_key in Hkb.
  rewrite (proj2 (Z.eqb_neq _ _)), u32_small, !Nat2Z.id by lia. fold n. rewrite split_loop_mix by nia.
  change (Z.to_nat 0 * kb)%nat with 0%nat. rewrite drop_0.
  replace (Z.to_nat ((stripes - 1) * Z.of_nat kb)) with (n * kb)%nat by nia.
  destruct (mix spec n kb (replicate kb 0) random) as [prev|] eqn:Em; [|done]. intros [= <-].
  assert (length prev = kb) as Hp by (eapply mix_length; [apply length_replicate| |exact Em]; lia).
  assert (length (take (n * kb) random) = (n * kb)%nat) as Ht by (rewrite length_take; lia).
  assert (take (n * kb) (take (n * kb) random ++ _compute_xor prev key) = take (n * kb) random) as Htk
    by (rewrite take_app_le by lia; by rewrite take_take, Nat.min_id).
  split_and!; [|done|].
  - rewrite length_app, Ht, xor_length by (unfold kb in Hp; lia). lia.
  - rewrite afmerge_mix by nia. fold n. rewrite (mix_take spec n kb _ _ random Htk), Em. unfold sub.
    rewrite drop_app_ge by lia. rewrite Ht, Nat.sub_diag, drop_0.
    rewrite take_ge by (rewrite xor_length by (unfold kb in Hp; lia); lia).
    by rewrite xor_cancel by (unfold kb in Hp; lia).
Qed.

Lemma afsplit_total spec key stripes random :
  (length key <= sizeof_key)%nat -> 1 <= stripes < 2 ^ 32 -> (stripes - 2) * Z.of_nat (length key) < 2 ^ 32 ->
  vic_hash_size spec <> None -> vic_hash_init (vic_hash_type spec) = true ->
  exists split, vic_afsplit spec key (Z.of_nat (length key)) stripes random = Done (Some split).
Proof.
  intros Hk Hs Ho Hsz Hi. unfold vic_afsplit, _gen_split_material. rewrite (u32_small stripes) by lia.
  rewrite (proj2 (Z.ltb_ge _ _)), (proj2 (Z.eqb_neq _ _)), u32_small by lia.
  rewrite split_loop_mix by lia.
  destruct (mix_total spec (Z.to_nat (stripes - 1)) (length key) (replicate (Z.to_nat (Z.of_nat (length key))) 0)
    (drop (Z.to_nat 0 * length key) random) Hsz Hi) as [r ->]. by eexists.
Qed.

Lemma pbkdf2_length p sl it spec n k : vic_pbkdf2 p sl it spec n = Some k -> length k = Z.to_nat n.
Proof.
  unfold vic_pbkdf2. case_decide; [done|]. destruct (_ <? n); [done|].
  destruct (vic_hash_type spec); try done; apply pbkdf2_hmac_length.
Qed.

(** C32. Merging undoes splitting: for every hash that is available, every key of
    at most 128 bytes, every number of stripes from 1 to 2^32 - 1 such that the
    offset of the last stripe but one is below 2^32, and whatever the random
    bytes are, [vic_afsplit] produces stripes of the right total length, all but
    the last of them random, and [vic_afmerge] returns and recovers exactly the
    key from them.  (For larger offsets the source computes them modulo 2^32 when
    it splits, but not when it merges, see [split_wraps]; from 2^32 stripes on
    merging does not end, see [merge_endless].) *)
Theorem afmerge_afsplit spec key stripes random :
  (length key <= sizeof_key)%nat -> 1 <= stripes < 2 ^ 32 -> (stripes - 2) * Z.of_nat (length key) < 2 ^ 32 ->
  Z.of_nat (length random) = Z.of_nat (length key) * stripes ->
  vic_hash_size spec <> None -> vic_hash_init (vic_hash_type spec) = true ->
  exists split, vic_afsplit spec key (Z.of_nat (length key)) stripes random = Done (Some split) /\
    length split = length random /\
    take (Z.to_nat (stripes - 1) * length key) split = take (Z.to_nat (stripes - 1) * length key) random /\
    vic_afmerge (Z.of_nat (length key)) stripes spec split = Done (Some key).
Proof.
  intros Hk Hs Ho Hr Hsz Hi. destruct (afsplit_total spec key stripes random Hk Hs Ho Hsz Hi) as [split E].
  exists split. split; [done|]. by apply afmerge_of_split.
Qed.
End Crypto.

(** A toy instance: sums of bytes. *)
Definition byte_sum (l : list Z) : Z := foldr (fun b s => (b + s) mod 256) 0 l.
#[export] Instance toy_algorithms : Algorithms := {
  mbedtls_hash t l := replicate (digest_size t) (byte_sum l);
  mbedtls_hash_length t l := length_replicate (digest_size t) (byte_sum l);
  pbkdf2_hmac t p s i n := Some (replicate n (byte_sum p));
  pbkdf2_hmac_length t p s i n k E :=
    match E in _ = o return match o with Some k => length k = n | None => True end with
    | eq_refl => length_replicate n (byte_sum p) end }.

Lemma afmerge_afsplit_witness :
  exists split, vic_afsplit VIC_HASH_SPEC_SHA1 [1; 2; 3] 3 3 [9; 8; 7; 6; 5; 4; 0; 0; 0] = Done (Some split) /\
    length split = 9%nat /\ take 6 split = [9; 8; 7; 6; 5; 4] /\
    vic_afmerge 3 3 VIC_HASH_SPEC_SHA1 split = Done (Some [1; 2; 3]).
Proof.
  apply (afmerge_afsplit VIC_HASH_SPEC_SHA1 [1; 2; 3] 3 [9; 8; 7; 6; 5; 4; 0; 0; 0]);
    [vm_compute; lia|lia|vm_compute; reflexivity|reflexivity|vm_compute; discriminate|reflexivity].
Defined.

Lemma merge_endless_witness :
  merge_loop 100 VIC_HASH_SPEC_SHA1 3 (2 ^ 32) 0 [0; 0; 0] [1; 2; 3] = Failed OutOfFuel.
Proof. apply merge_endless; [vm_compute; discriminate|reflexivity|lia|lia]. Defined.
