(* ===== verification/Blockdev.v ===== *)
(** * Blockdev: block devices of vicsetup
    (src/vicsetup/libvicsetup/blockdev.c, src/vicsetup/libvicsetup/include/vic.h)

    A block device is a file with a window (offset and size) and a block size.
    Sizes are 64-bit; the file is the list of its bytes.  The device is the
    regular-file case of the code: the size of a special file would come from an
    ioctl.  Writing fails on a device that was not opened for writing; no code
    opens one for writing only.  Pointers passed by the callers are not null. *)

From S2P Require Import Prelude.

Inductive vic_result_t : Type :=
| VIC_OK | VIC_FAILED | VIC_BAD_VERSION | VIC_UNEXPECTED | VIC_BAD_PARAMETER | VIC_BAD_DEVICE
| VIC_OUT_OF_MEMORY | VIC_NOT_FOUND | VIC_OUT_OF_BOUNDS | VIC_KEY_TOO_BIG | VIC_DEVICE_COUNT_FAILED
| VIC_DEVICE_GET_FAILED | VIC_DEVICE_PUT_FAILED | VIC_DEVICE_TOO_SMALL | VIC_HEADER_READ_FAILED
| VIC_KEY_MATERIAL_READ_FAILED | VIC_HEADER_WRITE_FAILED | VIC_KEY_MATERIAL_WRITE_FAILED
| VIC_KEY_LOOKUP_FAILED | VIC_PBKDF2_FAILED | VIC_ENCRYPT_FAILED | VIC_DECRYPT_FAILED
| VIC_AFMERGE_FAILED | VIC_AFSPLIT_FAILED | VIC_EOF | VIC_UNSUPPORTED | VIC_BUFFER_TOO_SMALL
| VIC_UNKNOWN_KEYSLOT_TYPE | VIC_UNKNOWN_KDF_TYPE | VIC_DIGEST_NOT_FOUND | VIC_ARGON2I_FAILED
| VIC_ARGON2ID_FAILED | VIC_UNSUPPORTED_DIGEST_TYPE | VIC_NUM_CPUS_FAILED | VIC_OUT_OF_KEYSLOTS
| VIC_BAD_UUID | VIC_LAST_KEYSLOT | VIC_UNSUPPORTED_INTEGRITY_JOURNALING | VIC_DEVICE_OPEN_FAILED
| VIC_PATH_TOO_LONG | VIC_FAILED_TO_GET_LOOP_DEVICE | VIC_UNSUPPORTED_CIPHER | VIC_READ_FAILED
| VIC_WRITE_FAILED | VIC_STAT_FAILED | VIC_NOT_BLOCK_MULTIPLE | VIC_FILE_TOO_SMALL | VIC_OPEN_FAILED
| VIC_CLOSE_FAILED | VIC_SEEK_FAILED | VIC_IOCTL_FAILED | VIC_BAD_SIGNATURE | VIC_BAD_CIPHER
| VIC_BAD_BLOCK_DEVICE | VIC_BAD_BLOCK_SIZE | VIC_BAD_FLAGS | VIC_BAD_PBKDF_TYPE | VIC_BAD_INTEGRITY_TYPE.
#[export] Instance vic_result_eq_dec : EqDecision vic_result_t.
Proof. solve_decision. Defined.

Record blockdev_t : Type := mk_bd {
  file : list Z; full_size : Z; size : Z; offset : Z; block_size : Z; create : bool; can_write : bool }.

Definition with_file (f : list Z) (s : Z) (bd : blockdev_t) : blockdev_t :=
  mk_bd f (full_size bd) s (offset bd) (block_size bd) (create bd) (can_write bd).

(** ** Opening *)

Definition VIC_RDONLY : Z := 1.
Definition VIC_WRONLY : Z := 2.
Definition VIC_RDWR : Z := 4.
Definition VIC_CREATE : Z := 8.
Definition VIC_TRUNC : Z := 16.
Definition DEFAULT_BLOCK_SIZE : Z := 512.

Definition _is_power_of_two (x : Z) : bool := existsb (fun i => x =? 2 ^ Z.of_nat i) (seq 0 64).

Definition _check_block_multiple (s bs : Z) : bool := negb (truthy (s mod bs)).

(** The combinations of access modes that are refused. *)
Definition bad_flags (flags : Z) : bool :=
  let has f := truthy (Z.land flags f) in
  (has VIC_RDWR && (has VIC_RDONLY || has VIC_WRONLY)) || (has VIC_RDONLY && (has VIC_RDWR || has VIC_WRONLY)) ||
  (has VIC_WRONLY && (has VIC_RDWR || has VIC_RDONLY)).

(** [contents]: the file, if it could be opened. *)
Definition vic_blockdev_open (contents : option (list Z)) (flags bs : Z) : vic_result_t * option blockdev_t :=
  let has f := truthy (Z.land flags f) in
  if bad_flags flags then (VIC_BAD_FLAGS, None)
  else
    let bs := if bs =? 0 then DEFAULT_BLOCK_SIZE else bs in
    if negb (_is_power_of_two bs) then (VIC_BAD_PARAMETER, None)
    else
      match contents with
      | None => (VIC_OPEN_FAILED, None)
      | Some f =>
          let f := if has VIC_TRUNC then [] else f in
          let s := Z.of_nat (length f) in
          if _check_block_multiple s bs then (VIC_OK, Some (mk_bd f s s 0 bs (has VIC_CREATE) (has VIC_RDWR || has VIC_WRONLY)))
          else (VIC_NOT_BLOCK_MULTIPLE, None)
      end.

(** ** The window *)

Definition vic_blockdev_set_offset (bd : blockdev_t) (off : Z) : vic_result_t * blockdev_t :=
  if truthy (off mod block_size bd) then (VIC_BAD_PARAMETER, bd)
  else if size bd <? off then (VIC_BAD_PARAMETER, bd)
  else (VIC_OK, mk_bd (file bd) (full_size bd) (size bd) off (block_size bd) (create bd) (can_write bd)).

Definition vic_blockdev_set_size (bd : blockdev_t) (s : Z) : vic_result_t * blockdev_t :=
  if truthy (s mod block_size bd) then (VIC_BAD_PARAMETER, bd)
  else if full_size bd <? s then (VIC_BAD_PARAMETER, bd)
  else (VIC_OK, mk_bd (file bd) (full_size bd) s (offset bd) (block_size bd) (create bd) (can_write bd)).

Definition vic_blockdev_set_block_size (bd : blockdev_t) (bs : Z) : vic_result_t * blockdev_t :=
  if (bs =? 0) || negb (_is_power_of_two bs) then (VIC_BAD_PARAMETER, bd)
  else if _check_block_multiple (size bd) bs then
    (VIC_OK, mk_bd (file bd) (full_size bd) (size bd) (offset bd) bs (create bd) (can_write bd))
  else (VIC_NOT_BLOCK_MULTIPLE, bd).

Definition vic_blockdev_get_size (bd : blockdev_t) : Z := u64 (size bd - offset bd).
Definition vic_blockdev_get_num_blocks (bd : blockdev_t) : Z := u64 (size bd - offset bd) / block_size bd.

(** ** Reading and writing *)

(** The bytes of a file, and a write that may begin behind its end. *)
Definition read_file (f : list Z) (off n : Z) : list Z := take (Z.to_nat n) (drop (Z.to_nat off) f).
Definition write_file (f : list Z) (off : Z) (data : list Z) : list Z :=
  let o := Z.to_nat off in
  take o (f ++ replicate (o - length f) 0) ++ data ++ drop (o + length data) f.

Definition block_off (bd : blockdev_t) (blkno : Z) : Z := s64 (u64 (blkno * block_size bd + offset bd)).

Definition vic_blockdev_get (bd : blockdev_t) (blkno nblocks : Z) : vic_result_t * list Z :=
  let off := block_off bd blkno in
  let n := u64 (nblocks * block_size bd) in
  if size bd <? u64 (off + n) then (VIC_SEEK_FAILED, [])
  else if off <? 0 then (VIC_SEEK_FAILED, [])
  else
    let data := read_file (file bd) off n in
    if Z.of_nat (length data) =? n then (VIC_OK, data) else (VIC_READ_FAILED, data).

(** [blocks] holds the bytes written, [nblocks] blocks of them. *)
Definition vic_blockdev_put (bd : blockdev_t) (blkno : Z) (blocks : list Z) (nblocks : Z) : vic_result_t * blockdev_t :=
  let off := block_off bd blkno in
  let n := u64 (nblocks * block_size bd) in
  if negb (create bd) && (size bd <? u64 (off + n)) then (VIC_SEEK_FAILED, bd)
  else if off <? 0 then (VIC_SEEK_FAILED, bd)
  else if negb (can_write bd) then (VIC_READ_FAILED, bd)
  else
    let f := write_file (file bd) off (take (Z.to_nat n) blocks) in
    let s := if create bd && (size bd <? u64 (off + n)) then u64 (off + n) else size bd in
    (VIC_OK, with_file f s bd).

(** ** Properties *)

Lemma read_write_same f off data :
  0 <= off -> read_file (write_file f off data) off (Z.of_nat (length data)) = data.
Proof.
  intros Ho. unfold read_file, write_file. set (o := Z.to_nat off).
  assert (length (take o (f ++ replicate (o - length f) 0)) = o) as Hl
    by (rewrite length_take, length_app, length_replicate; lia).
  rewrite drop_app_ge by lia. rewrite Hl, Nat.sub_diag, drop_0, Nat2Z.id, take_app_le by lia.
  by rewrite take_ge by lia.
Qed.

Lemma lookup_read f off n i :
  0 <= off -> 0 <= i < n -> read_file f off n !! Z.to_nat i = f !! Z.to_nat (off + i).
Proof. intros Ho Hi. unfold read_file. rewrite lookup_take_lt, lookup_drop by lia. f_equal. lia. Qed.

(** A byte that is not written. *)
Lemma lookup_write_other f off data a :
  0 <= off <= Z.of_nat (length f) -> 0 <= a -> a < off \/ off + Z.of_nat (length data) <= a ->
  write_file f off data !! Z.to_nat a = f !! Z.to_nat a.
Proof.
  intros Ho Ha Hd. unfold write_file. replace (Z.to_nat off - length f)%nat with O by lia. rewrite app_nil_r.
  destruct Hd as [Hd|Hd].
  - rewrite lookup_app_l by (rewrite length_take; lia). by rewrite lookup_take_lt by lia.
  - rewrite lookup_app_r by (rewrite length_take; lia). rewrite length_take, lookup_app_r by lia.
    rewrite lookup_drop. f_equal. lia.
Qed.

Lemma write_file_length f off data :
  0 <= off -> off + Z.of_nat (length data) <= Z.of_nat (length f) -> length (write_file f off data) = length f.
Proof.
  intros Ho Hl. unfold write_file. replace (Z.to_nat off - length f)%nat with O by lia.
  rewrite app_nil_r, !length_app, length_take, length_drop. lia.
Qed.

(** Reading next to a write. *)
Lemma read_write_other f off data off' n :
  0 <= off -> off + Z.of_nat (length data) <= Z.of_nat (length f) -> 0 <= off' -> 0 <= n ->
  off' + n <= off \/ off + Z.of_nat (length data) <= off' ->
  read_file (write_file f off data) off' n = read_file f off' n.
Proof.
  intros Ho Hl Ho' Hn Hd. apply list_eq. intros i.
  destruct (decide (Z.of_nat i < n)) as [Hi|Hi].
  - replace i with (Z.to_nat (Z.of_nat i)) by lia. rewrite !lookup_read by lia. apply lookup_write_other; lia.
  - unfold read_file. rewrite !lookup_take_ge by lia. done.
Qed.

Lemma power_of_two_spec x : _is_power_of_two x = true <-> exists i, 0 <= i < 64 /\ x = 2 ^ i.
Proof.
  unfold _is_power_of_two. rewrite existsb_exists. split.
  - intros (i & Hi & E). apply in_seq in Hi. apply Z.eqb_eq in E. exists (Z.of_nat i). split; [lia|done].
  - intros (i & Hi & ->). exists (Z.to_nat i). split; [apply in_seq; lia|]. rewrite Z2Nat.id by lia. apply Z.eqb_refl.
Qed.

(** A device whose window lies in its file. *)
Record bd_ok (bd : blockdev_t) : Prop := {
  bo_block : exists i, 0 <= i < 63 /\ block_size bd = 2 ^ i;
  bo_file : Z.of_nat (length (file bd)) = full_size bd;
  bo_full : 0 <= full_size bd < 2 ^ 63;
  bo_size : 0 <= size bd <= full_size bd;
  bo_offset : 0 <= offset bd <= size bd }.

(** The blocks of a device: inside the window, no computation wraps. *)
Lemma block_off_small bd blkno nblocks :
  bd_ok bd -> 0 <= blkno -> 0 <= nblocks -> offset bd + (blkno + nblocks) * block_size bd <= size bd ->
  block_off bd blkno = blkno * block_size bd + offset bd /\
  u64 (nblocks * block_size bd) = nblocks * block_size bd /\
  u64 (block_off bd blkno + nblocks * block_size bd) = blkno * block_size bd + offset bd + nblocks * block_size bd.
Proof.
  intros [(i & Hi & Hbs) Hf Hfull Hs Ho] H1 H2 H3. assert (0 < block_size bd) by (rewrite Hbs; apply Z.pow_pos_nonneg; lia).
  assert (0 <= blkno * block_size bd) by nia. assert (0 <= nblocks * block_size bd) by nia.
  assert (block_off bd blkno = blkno * block_size bd + offset bd) as ->.
  { unfold block_off. rewrite u64_small, s64_small by lia. done. }
  split_and!; [done|apply u64_small; lia|apply u64_small; lia].
Qed.

Lemma put_inside bd blkno nblocks blocks :
  bd_ok bd -> create bd = false -> can_write bd = true -> 0 <= blkno -> 0 <= nblocks ->
  Z.of_nat (length blocks) = nblocks * block_size bd ->
  offset bd + (blkno + nblocks) * block_size bd <= size bd ->
  exists f, vic_blockdev_put bd blkno blocks nblocks = (VIC_OK, with_file f (size bd) bd) /\
    bd_ok (with_file f (size bd) bd) /\
    vic_blockdev_get (with_file f (size bd) bd) blkno nblocks = (VIC_OK, blocks) /\
    forall b n, 0 <= b -> 0 <= n -> offset bd + (b + n) * block_size bd <= size bd ->
      b + n <= blkno \/ blkno + nblocks <= b ->
      vic_blockdev_get (with_file f (size bd) bd) b n = vic_blockdev_get bd b n.
Proof.
  intros Hbd Hc Hwr Hb Hn Hlen Hin. pose proof Hbd as [(i & Hi & Hpow) Hf Hfull Hs Ho].
  assert (0 < block_size bd) as Hpos by (rewrite Hpow; apply Z.pow_pos_nonneg; lia).
  destruct (block_off_small bd blkno nblocks Hbd Hb Hn Hin) as (E1 & E2 & E3).
  unfold vic_blockdev_put. rewrite E2, E3, E1, Hc. cbn [negb andb].
  rewrite (proj2 (Z.ltb_ge _ _)) by lia. rewrite (proj2 (Z.ltb_ge _ 0)) by nia. rewrite Hwr. cbn [negb].
  rewrite (take_ge blocks) by lia. eexists. split; [reflexivity|].
  set (off := blkno * block_size bd + offset bd) in *.
  assert (0 <= off) as Hoff by (unfold off; nia).
  assert (off + Z.of_nat (length blocks) <= Z.of_nat (length (file bd))) as Hfit by (unfold off; lia).
  assert (bd_ok (with_file (write_file (file bd) off blocks) (size bd) bd)) as Hbd'.
  { split; simpl; try done; [by exists i|]. by rewrite write_file_length. }
  split; [done|]. split.
  - destruct (block_off_small _ blkno nblocks Hbd' Hb Hn Hin) as (F1 & F2 & F3).
    unfold vic_blockdev_get. rewrite F2, F3, F1. cbn [size with_file block_size offset file].
    rewrite (proj2 (Z.ltb_ge _ _)) by lia. fold off. rewrite (proj2 (Z.ltb_ge _ 0)) by lia.
    rewrite <- Hlen, read_write_same by done. by rewrite Z.eqb_refl.
  - intros b n Hb0 Hn0 Hw Hd.
    destruct (block_off_small bd b n Hbd Hb0 Hn0 Hw) as (G1 & G2 & G3).
    destruct (block_off_small _ b n Hbd' Hb0 Hn0 Hw) as (F1 & F2 & F3).
    unfold vic_blockdev_get. rewrite F2, F3, F1, G2, G3, G1. cbn [size with_file block_size offset file].
    rewrite read_write_other; [done|done|done|nia|nia|unfold off; nia].
Qed.

(** Reading inside the window succeeds. *)
Lemma get_inside bd blkno nblocks :
  bd_ok bd -> 0 <= blkno -> 0 <= nblocks -> offset bd + (blkno + nblocks) * block_size bd <= size bd ->
  exists data, vic_blockdev_get bd blkno nblocks = (VIC_OK, data) /\
    Z.of_nat (length data) = nblocks * block_size bd.
Proof.
  intros Hbd Hb Hn Hin. pose proof Hbd as [(i & Hi & Hpow) Hf Hfull Hs Ho].
  assert (0 < block_size bd) as Hpos by (rewrite Hpow; apply Z.pow_pos_nonneg; lia).
  destruct (block_off_small bd blkno nblocks Hbd Hb Hn Hin) as (E1 & E2 & E3).
  unfold vic_blockdev_get. rewrite E2, E3, E1. rewrite (proj2 (Z.ltb_ge _ _)) by lia. rewrite (proj2 (Z.ltb_ge _ 0)) by nia.
  assert (Z.of_nat (length (read_file (file bd) (blkno * block_size bd + offset bd) (nblocks * block_size bd))) =
    nblocks * block_size bd) as Hl.
  { unfold read_file. rewrite length_take, length_drop.
    assert (0 <= blkno * block_size bd) by nia. assert (0 <= nblocks * block_size bd) by nia. lia. }
  rewrite Hl, Z.eqb_refl. by eexists.
Qed.

(** Blocks are independent: a block written inside the window is read back
    as it was written, whatever else is in the file; writing keeps the size of
    the file and every block that does not overlap the written ones; a write
    that reaches over the end of the window changes nothing. *)
Theorem blockdev_put_get bd blkno nblocks blocks :
  bd_ok bd -> create bd = false -> can_write bd = true -> 0 <= blkno < 2 ^ 32 -> 0 <= nblocks < 2 ^ 31 -> block_size bd <= 2 ^ 20 ->
  Z.of_nat (length blocks) = nblocks * block_size bd ->
  if offset bd + (blkno + nblocks) * block_size bd <=? size bd then
    exists bd', vic_blockdev_put bd blkno blocks nblocks = (VIC_OK, bd') /\ bd_ok bd' /\
      vic_blockdev_get bd' blkno nblocks = (VIC_OK, blocks) /\
      forall b n, 0 <= b -> 0 <= n -> offset bd + (b + n) * block_size bd <= size bd ->
        b + n <= blkno \/ blkno + nblocks <= b -> vic_blockdev_get bd' b n = vic_blockdev_get bd b n
  else vic_blockdev_put bd blkno blocks nblocks = (VIC_SEEK_FAILED, bd).
Proof.
  intros Hbd Hc Hwr Hb Hn Hbs Hlen. pose proof Hbd as [(i & Hi & Hpow) Hf Hfull Hs Ho].
  assert (0 < block_size bd) as Hpos by (rewrite Hpow; apply Z.pow_pos_nonneg; lia).
  destruct (Z.leb_spec (offset bd + (blkno + nblocks) * block_size bd) (size bd)) as [Hin|Hout].
  - destruct (put_inside bd blkno nblocks blocks Hbd Hc Hwr ltac:(lia) ltac:(lia) Hlen Hin) as (f & H1 & H2 & H3 & H4).
    by eexists.
  - unfold vic_blockdev_put. rewrite Hc. cbn [negb andb].
    assert (u64 (block_off bd blkno + u64 (nblocks * block_size bd)) =
      blkno * block_size bd + offset bd + nblocks * block_size bd) as ->.
    { assert (blkno * block_size bd <= (2 ^ 32 - 1) * 2 ^ 20) by (apply Z.mul_le_mono_nonneg; lia).
      assert (nblocks * block_size bd <= (2 ^ 31 - 1) * 2 ^ 20) by (apply Z.mul_le_mono_nonneg; lia).
      assert (0 <= blkno * block_size bd) by (apply Z.mul_nonneg_nonneg; lia). assert (0 <= nblocks * block_size bd) by (apply Z.mul_nonneg_nonneg; lia).
      unfold block_off. rewrite (u64_small (nblocks * _)) by lia. rewrite (u64_small (blkno * _ + _)) by lia.
      unfold u64, s64, wrap, swrap. Z.div_mod_to_equations. lia. }
    rewrite (proj2 (Z.ltb_lt _ _)) by lia. done.
Qed.

Definition sample_bd : blockdev_t := mk_bd (replicate 24 7) 24 24 8 4 false true.
Lemma sample_bd_ok : bd_ok sample_bd.
Proof. split; simpl; try lia. exists 2. split; [lia|done]. Qed.

Lemma blockdev_put_get_witness :
  exists bd', vic_blockdev_put sample_bd 1 [1; 2; 3; 4] 1 = (VIC_OK, bd') /\ bd_ok bd' /\
    vic_blockdev_get bd' 1 1 = (VIC_OK, [1; 2; 3; 4]) /\
    forall b n, 0 <= b -> 0 <= n -> offset sample_bd + (b + n) * block_size sample_bd <= size sample_bd ->
      b + n <= 1 \/ 1 + 1 <= b -> vic_blockdev_get bd' b n = vic_blockdev_get sample_bd b n.
Proof.
  apply (blockdev_put_get sample_bd 1 1 [1; 2; 3; 4]);
    [apply sample_bd_ok|reflexivity|reflexivity|lia|lia|vm_compute; discriminate|reflexivity].
Defined.

(** The window can be made smaller than its offset; the device then seems to
    have almost 2^64 bytes. *)
Example size_below_offset :
  match vic_blockdev_set_size sample_bd 4 with (r, bd) => (r, vic_blockdev_get_size bd) end = (VIC_OK, 2 ^ 64 - 4).
Proof. reflexivity. Qed.
