(* ===== verification/Uuid.v ===== *)
(** * Uuid: identifiers of volumes (src/vicsetup/libvicsetup/uuid.c)

    UUIDs as 36 characters and as 16 bytes.  Strings are lists of characters
    without the terminator; [sscanf] and [snprintf] are modelled for the formats
    the code uses. *)

From S2P Require Import Prelude JsonText.

(** ** Formats *)

(** [%02x] of a byte. *)
Definition hex_digit (d : Z) : Z := if d <? 10 then 48 + d else 87 + d.
Definition hex2 (b : Z) : text := [hex_digit (b / 16); hex_digit (b mod 16)].

Definition digit_of (c : Z) : option Z :=
  if (48 <=? c) && (c <=? 57) then Some (c - 48)
  else if (97 <=? c) && (c <=? 102) then Some (c - 87)
  else if (65 <=? c) && (c <=? 70) then Some (c - 55)
  else None.
Definition scan_space (c : Z) : bool := (c =? 32) || ((9 <=? c) && (c <=? 13)).

Fixpoint skip_spaces (s : text) : text :=
  match s with c :: s' => if scan_space c then skip_spaces s' else s | [] => [] end.

(** At most [w] hexadecimal digits: the value, their number and the rest. *)
Fixpoint scan_digits (w : nat) (acc : Z) (n : nat) (s : text) : Z * nat * text :=
  match w, s with
  | S w', c :: s' =>
      match digit_of c with Some d => scan_digits w' (acc * 16 + d) (S n) s' | None => (acc, n, s) end
  | _, _ => (acc, n, s)
  end.

(** [%<w>x]: white space, a sign and a prefix 0x are allowed. *)
Definition scan_hex (w : nat) (s : text) : option (Z * text) :=
  let s := skip_spaces s in
  let '(neg, w, s) := match s with
                      | 43 :: s' => (false, w - 1, s')%nat
                      | 45 :: s' => (true, w - 1, s')%nat
                      | _ => (false, w, s) end in
  let '(w, s) := match s with
                 | 48 :: x :: s' => if ((x =? 120) || (x =? 88)) && bool_decide (2 <= w)%nat then (w - 2, s')%nat else (w, s)
                 | _ => (w, s) end in
  let '(v, n, s) := scan_digits w 0 0 s in
  if decide (n = O) then None else Some ((if neg : bool then - v else v), s).

Definition scan_dash (s : text) : option text := match s with 45 :: s' => Some s' | _ => None end.

(** ** Operations *)

(** [sscanf] with "%08x-%04x-%04x-%04x-%012lx" converts all five fields. *)
Definition vic_uuid_valid (uuid : text) : bool :=
  if negb (Nat.eqb (length uuid) 36) then false
  else
    match (
      '(_, s) ← scan_hex 8 uuid; s ← scan_dash s;
      '(_, s) ← scan_hex 4 s; s ← scan_dash s;
      '(_, s) ← scan_hex 4 s; s ← scan_dash s;
      '(_, s) ← scan_hex 4 s; s ← scan_dash s;
      '(_, s) ← scan_hex 12 s; Some s) with
    | Some _ => true
    | None => false
    end.

(** The loop of [vic_uuid_generate] over the random bytes from index [i]. *)
Fixpoint generate_from (i : nat) (bs : list Z) : text :=
  match bs with
  | [] => []
  | b :: bs' =>
      (if bool_decide (i ∈ [4; 6; 8; 10]%nat) then [45] else []) ++ hex2 b ++ generate_from (S i) bs'
  end.
Definition vic_uuid_generate (random : list Z) : text := generate_from 0 random.

Definition vic_uuid_bin2str (binary : list Z) : text :=
  let part a n := concat (map hex2 (take n (drop a binary))) in
  take 39 (part 0%nat 4%nat ++ [45] ++ part 4%nat 2%nat ++ [45] ++ part 6%nat 2%nat ++ [45] ++ part 8%nat 2%nat ++ [45] ++ part 10%nat 6%nat).

(** The loop of [vic_uuid_str2bin]: [fuel] is the length of the string; [src += 2]
    past the terminator, or more than 16 bytes, would be an access outside. *)
Fixpoint str2bin_loop (fuel : nat) (src : text) (dest : list Z) : outcome (option (list Z)) :=
  match src with
  | [] => Done (Some dest)
  | c :: src' =>
      match fuel with
      | O => Failed OutOfFuel
      | S fuel' =>
          let src := if c =? 45 then src' else src in
          match scan_hex 2 src with
          | None => Done None
          | Some (x, _) =>
              if decide (16 <= length dest)%nat then Failed (BadPointer 16)
              else if decide (length src < 2)%nat then Failed (BadPointer 2)
              else str2bin_loop fuel' (drop 2 src) (dest ++ [u8 x])
          end
      end
  end.
Definition vic_uuid_str2bin (str : text) : outcome (option (list Z)) :=
  if vic_uuid_valid str then str2bin_loop (length str) str [] else Done None.

(** ** Properties *)

Lemma hex_digit_of d : 0 <= d < 16 -> digit_of (hex_digit d) = Some d.
Proof. intros Hd. unfold digit_of, hex_digit. bcase; simpl; try lia; f_equal; lia. Qed.

Definition is_byte (b : Z) : Prop := 0 <= b < 256.

(** A hexadecimal character is neither space, sign, dash nor the x of a prefix. *)
Definition plain (c : Z) : Prop := exists d, 0 <= d < 16 /\ c = hex_digit d.

Lemma plain_chars c :
  plain c -> scan_space c = false /\ c ≠ 43 /\ c ≠ 45 /\ (c =? 120) = false /\ (c =? 88) = false /\
  exists d, digit_of c = Some d.
Proof.
  intros (d & Hd & ->). rewrite (hex_digit_of d Hd). unfold hex_digit, scan_space.
  destruct (Z.ltb_spec d 10); split_and!; bcase; simpl; try lia; try done; by eexists.
Qed.

Lemma hex2_plain b : is_byte b -> Forall plain (hex2 b).
Proof.
  unfold is_byte. intros Hb. unfold hex2. repeat constructor; [exists (b / 16)|exists (b mod 16)]; split; try done;
    Z.div_mod_to_equations; lia.
Qed.

Lemma scan_digits_plain l rest w acc n :
  Forall plain l -> (length l <= w)%nat -> (match rest with [] => True | c :: _ => digit_of c = None end \/ length l = w) ->
  exists v, scan_digits w acc n (l ++ rest) = (v, (n + length l)%nat, rest).
Proof.
  revert w acc n. induction l as [|c l IH]; intros w acc n Hl Hw Hr.
  - cbn [app length]. rewrite Nat.add_0_r. destruct w; [by eexists|]. destruct rest as [|c rest]; [by eexists|].
    destruct Hr as [Hr|]; [|done]. cbn [scan_digits]. rewrite Hr. by eexists.
  - apply Forall_cons in Hl as [Hc Hl]. destruct w as [|w]; [simpl in Hw; lia|].
    destruct (plain_chars c Hc) as (_ & _ & _ & _ & _ & d & Hd). cbn [app scan_digits]. rewrite Hd.
    destruct (IH w (acc * 16 + d) (S n) Hl) as [v ->]; [simpl in Hw; lia|by destruct Hr as [|Hr]; [left|right; simpl in Hr; lia]|].
    exists v. do 2 f_equal. simpl. lia.
Qed.

(** [scan_hex] on plain characters takes exactly them. *)
Lemma scan_hex_prefix c c' s :
  plain c -> (match s with x :: _ => plain x \/ digit_of x = None /\ (x =? 120) = false /\ (x =? 88) = false | [] => True end) -> c' = c ->
  forall w, scan_hex w (c :: s) = let '(v, n, s') := scan_digits w 0 0 (c' :: s) in
    if decide (n = O) then None else Some (v, s').
Proof.
  intros Hc Hs -> w. destruct (plain_chars c Hc) as (H1 & H2 & H3 & _). unfold scan_hex. cbn [skip_spaces]. rewrite H1.
  assert ((match c :: s with
           | 43 :: s' => (false, (w - 1)%nat, s')
           | 45 :: s' => (true, (w - 1)%nat, s')
           | _ => (false, w, c :: s) end) = (false, w, c :: s)) as ->.
  { destruct c as [|p|p]; try done. do 6 (destruct p as [p|p|]; try done). }
  assert ((match c :: s with
           | 48 :: x :: s' => if ((x =? 120) || (x =? 88)) && bool_decide (2 <= w)%nat then ((w - 2)%nat, s') else (w, c :: s)
           | _ => (w, c :: s) end) = (w, c :: s)) as ->.
  { destruct s as [|x s]; [destruct c as [|p|p]; try done; do 6 (destruct p as [p|p|]; try done)|].
    assert ((x =? 120) || (x =? 88) = false) as Hx.
    { destruct Hs as [Hx|(_ & -> & ->)]; [|done]. by destruct (plain_chars x Hx) as (_ & _ & _ & -> & -> & _). }
    destruct c as [|p|p]; try done. do 6 (destruct p as [p|p|]; try done). by rewrite Hx. }
  done.
Qed.

Lemma scan_run l rest w :
  Forall plain l -> length l = w -> (1 <= w)%nat -> (match rest with [] => True | c :: _ => c = 45 end) ->
  exists v, scan_hex w (l ++ rest) = Some (v, rest).
Proof.
  intros Hl Hw H1 Hr. destruct l as [|c l]; [simpl in Hw; lia|]. pose proof Hl as [Hc Hl']%Forall_cons.
  cbn [app]. rewrite (scan_hex_prefix c c); [| done | | done].
  - change (c :: l ++ rest) with ((c :: l) ++ rest).
    destruct (scan_digits_plain (c :: l) rest w 0 0 Hl) as [v ->]; [lia|by right|].
    rewrite decide_False by (simpl; lia). by exists v.
  - destruct l as [|x l]; cbn [app].
    + destruct rest as [|x rest]; [done|]. subst x. by right.
    + left. by apply Forall_cons in Hl' as [? _].
Qed.

Lemma scan_byte b rest : is_byte b -> exists s, scan_hex 2 (hex2 b ++ rest) = Some (b, s).
Proof.
  intros Hb. pose proof (hex2_plain b Hb) as Hp. pose proof Hp as [Hc [Hx _]%Forall_cons]%Forall_cons.
  unfold is_byte in Hb. cbn [hex2 app]. rewrite (scan_hex_prefix _ (hex_digit (b / 16))); [|done|by left|done].
  cbn [scan_digits]. rewrite (hex_digit_of (b / 16)) by (Z.div_mod_to_equations; lia).
  rewrite (hex_digit_of (b mod 16)) by (Z.div_mod_to_equations; lia). rewrite decide_False by done.
  eexists. do 2 f_equal. Z.div_mod_to_equations. lia.
Qed.

Lemma str2bin_generated i bs fuel dest :
  Forall is_byte bs -> (length bs <= fuel)%nat -> (length dest + length bs <= 16)%nat ->
  str2bin_loop fuel (generate_from i bs) dest = Done (Some (dest ++ bs)).
Proof.
  revert i fuel dest. induction bs as [|b bs IH]; intros i fuel dest Hb Hf Hd.
  - destruct fuel; simpl; by rewrite app_nil_r.
  - apply Forall_cons in Hb as [Hb Hbs]. destruct fuel as [|fuel]; [simpl in Hf; lia|].
    destruct (scan_byte b (generate_from (S i) bs) Hb) as [s' Hs].
    assert (str2bin_loop (S fuel) (generate_from i (b :: bs)) dest =
      match scan_hex 2 (hex2 b ++ generate_from (S i) bs) with
      | None => Done None
      | Some (x, _) =>
          if decide (16 <= length dest)%nat then Failed (BadPointer 16)
          else if decide (length (hex2 b ++ generate_from (S i) bs) < 2)%nat then Failed (BadPointer 2)
          else str2bin_loop fuel (drop 2 (hex2 b ++ generate_from (S i) bs)) (dest ++ [u8 x])
      end) as ->.
    { cbn [generate_from]. case_bool_decide; cbn [app].
      - cbn [str2bin_loop]. done.
      - cbn [hex2 app str2bin_loop].
        destruct (plain_chars (hex_digit (b / 16))) as (_ & _ & Hne & _);
          [by pose proof (hex2_plain b Hb) as [? _]%Forall_cons|].
        by rewrite (proj2 (Z.eqb_neq _ _) Hne). }
    rewrite Hs. rewrite decide_False by (simpl in Hd; lia). rewrite decide_False by (simpl; lia).
    change (drop 2 (hex2 b ++ generate_from (S i) bs)) with (generate_from (S i) bs). rewrite u8_small by (unfold is_byte in Hb; lia).
    rewrite IH; [|done|simpl in Hf; lia|rewrite length_app; simpl in *; lia]. by rewrite <- (assoc_L (++)).
Qed.

Lemma generate_bin2str bs : length bs = 16%nat -> vic_uuid_generate bs = vic_uuid_bin2str bs.
Proof. intros Hl. do 16 (destruct bs as [|? bs]; [done|]). destruct bs; [reflexivity|done]. Qed.

Lemma generated_length bs : length bs = 16%nat -> length (vic_uuid_generate bs) = 36%nat.
Proof. intros Hl. do 16 (destruct bs as [|? bs]; [done|]). destruct bs; [reflexivity|done]. Qed.

Lemma hexes_plain bs : Forall is_byte bs -> Forall plain (concat (map hex2 bs)).
Proof. induction 1 as [|b bs Hb _ IH]; [constructor|]. cbn [map concat]. apply Forall_app; split; [by apply hex2_plain|done]. Qed.

Lemma generated_valid bs : length bs = 16%nat -> Forall is_byte bs -> vic_uuid_valid (vic_uuid_generate bs) = true.
Proof.
  intros Hl Hb. unfold vic_uuid_valid. rewrite generated_length by done. cbn [Nat.eqb negb].
  rewrite generate_bin2str by done. unfold vic_uuid_bin2str.
  assert (forall a n, Forall plain (concat (map hex2 (take n (drop a bs))))) as Hp
    by (intros; by apply hexes_plain, Forall_take, Forall_drop).
  rewrite take_ge by (do 16 (destruct bs as [|? bs]; [done|]); destruct bs; [simpl; lia|done]).
  assert (forall a n rest w, (a + n <= 16)%nat -> (1 <= n)%nat -> w = (2 * n)%nat ->
    match rest with [] => True | c :: _ => c = 45 end ->
    exists v, scan_hex w (concat (map hex2 (take n (drop a bs))) ++ rest) = Some (v, rest)) as Hscan.
  { intros a n rest w Han Hn -> Hr. apply scan_run; [apply Hp| |lia|done].
    assert (forall l, length (concat (map hex2 l)) = (2 * length l)%nat) as Hlen
      by (induction l as [|x l IHl]; [done|]; simpl; rewrite IHl; lia).
    rewrite Hlen, length_take, length_drop. lia. }
  cbn [app]. destruct (Hscan 0%nat 4%nat (45 :: concat (map hex2 (take 2 (drop 4 bs))) ++ 45 :: concat (map hex2 (take 2 (drop 6 bs))) ++ 45 :: concat (map hex2 (take 2 (drop 8 bs))) ++ 45 :: concat (map hex2 (take 6 (drop 10 bs)))) 8%nat) as [v0 E0]; [lia..|done|].
  rewrite E0. cbn [mbind option_bind scan_dash].
  destruct (Hscan 4%nat 2%nat (45 :: concat (map hex2 (take 2 (drop 6 bs))) ++ 45 :: concat (map hex2 (take 2 (drop 8 bs))) ++ 45 :: concat (map hex2 (take 6 (drop 10 bs)))) 4%nat) as [v1 E1]; [lia..|done|].
  rewrite E1. cbn [mbind option_bind scan_dash].
  destruct (Hscan 6%nat 2%nat (45 :: concat (map hex2 (take 2 (drop 8 bs))) ++ 45 :: concat (map hex2 (take 6 (drop 10 bs)))) 4%nat) as [v2 E2]; [lia..|done|].
  rewrite E2. cbn [mbind option_bind scan_dash].
  destruct (Hscan 8%nat 2%nat (45 :: concat (map hex2 (take 6 (drop 10 bs)))) 4%nat) as [v3 E3]; [lia..|done|].
  rewrite E3. cbn [mbind option_bind scan_dash].
  destruct (Hscan 10%nat 6%nat [] 12%nat) as [v4 E4]; [lia..|done|].
  rewrite app_nil_r in E4. by rewrite E4.
Qed.

(** UUIDs: the string of 16 bytes, whether [vic_uuid_bin2str] or the
    generator prints it, has 36 characters, is accepted as valid, and is read
    back to the same bytes without an access outside the string or the result. *)
Theorem uuid_round_trip bs :
  length bs = 16%nat -> Forall is_byte bs ->
  vic_uuid_generate bs = vic_uuid_bin2str bs /\ length (vic_uuid_bin2str bs) = 36%nat /\
  vic_uuid_valid (vic_uuid_bin2str bs) = true /\ vic_uuid_str2bin (vic_uuid_bin2str bs) = Done (Some bs).
Proof.
  intros Hl Hb. pose proof (generate_bin2str bs Hl) as E. rewrite <- E.
  split; [done|]. split; [by apply generated_length|]. split; [by apply generated_valid|].
  unfold vic_uuid_str2bin. rewrite generated_valid, generated_length by done.
  apply (str2bin_generated 0 bs 36 []); [done|lia|simpl; lia].
Qed.

Lemma uuid_round_trip_witness :
  let bs := [110; 200; 36; 123; 186; 151; 73; 188; 185; 210; 43; 53; 198; 209; 125; 95] in
  vic_uuid_generate bs = vic_uuid_bin2str bs /\ length (vic_uuid_bin2str bs) = 36%nat /\
  vic_uuid_valid (vic_uuid_bin2str bs) = true /\ vic_uuid_str2bin (vic_uuid_bin2str bs) = Done (Some bs).
Proof.
  apply (uuid_round_trip [110; 200; 36; 123; 186; 151; 73; 188; 185; 210; 43; 53; 198; 209; 125; 95]);
    [reflexivity|repeat constructor; vm_compute; discriminate].
Defined.
