(* ===== verification/Verity.v ===== *)
(** * Verity: hash trees of dm-verity
    (src/vicsetup/libvicsetup/verity.c, verity.h)

    [vic_verity_format] writes a hash tree over a data device to a hash device:
    the superblock, then the levels from the root down to the leaves.  Its state
    is the two devices; every step returns the error that the code raises, if
    any, with the devices as they are then.  Sizes are size_t; the sums and
    products of the tree do not exceed the size of the data by more than a block,
    so that wrap-around is left out of them.  Pointers passed by the callers are
    not null. *)

From Stdlib Require Import String.
From S2P Require Import Prelude JsonText VicCrypto Blockdev Uuid.

Definition MIN_HASH_FILE_SIZE : Z := 4096.
Definition MIN_BLKSZ : Z := 512.
Definition MAX_BLKSZ : Z := 4096.
Definition DEFAULT_BLKSZ : Z := 4096.
Definition VIC_VERITY_MAX_SALT_SIZE : Z := 256.

Definition vic_hash_name (t : vic_hash_type_t) : text :=
  match t with
  | VIC_HASH_NONE => []
  | VIC_HASH_SHA1 => VIC_HASH_SPEC_SHA1
  | VIC_HASH_SHA256 => VIC_HASH_SPEC_SHA256
  | VIC_HASH_SHA512 => VIC_HASH_SPEC_SHA512
  | VIC_HASH_RIPEMD160 => VIC_HASH_SPEC_RIPEMD160
  end.

#[export] Instance vic_hash_type_eq_dec : EqDecision vic_hash_type_t.
Proof. solve_decision. Defined.

(** ** The superblock *)

Record vic_verity_sb_t : Type := mk_sb {
  signature : list Z; sb_version : Z; hash_type : Z; sb_uuid : list Z; algorithm : list Z;
  data_block_size : Z; hash_block_size : Z; data_blocks : Z; salt_size : Z; sb_salt : list Z }.

(** The packed structure, of 512 bytes; the padding is zero. *)
Definition sb_fields (sb : vic_verity_sb_t) : list (list Z) :=
  [signature sb; le_bytes 4 (sb_version sb); le_bytes 4 (hash_type sb); sb_uuid sb; algorithm sb;
   le_bytes 4 (data_block_size sb); le_bytes 4 (hash_block_size sb); le_bytes 8 (data_blocks sb);
   le_bytes 2 (salt_size sb); replicate 6 0; sb_salt sb; replicate 168 0].
Definition sb_image (sb : vic_verity_sb_t) : list Z := concat (sb_fields sb).

Definition sb_of (l : list Z) : vic_verity_sb_t :=
  mk_sb (sub 0 8 l) (le_value (sub 8 4 l)) (le_value (sub 12 4 l)) (sub 16 16 l) (sub 32 32 l)
    (le_value (sub 64 4 l)) (le_value (sub 68 4 l)) (le_value (sub 72 8 l)) (le_value (sub 80 2 l)) (sub 88 256 l).

Definition SIGNATURE : list Z := bytes "verity" ++ [0; 0].

(** ** The state and the error monad *)

Record devs : Type := mk_devs { data_dev : blockdev_t; hash_dev : blockdev_t }.

Definition V (A : Type) : Type := devs -> outcome ((vic_result_t + A) * devs).
#[export] Instance v_ret : MRet V := fun A a s => Done (inr a, s).
#[export] Instance v_bind : MBind V := fun A B k m s =>
  match m s with
  | Done (inr a, s') => k a s'
  | Done (inl e, s') => Done (inl e, s')
  | Failed f => Failed f
  end.

(** RAISE, and CHECK of an operation on one of the devices. *)
Definition raise {A} (e : vic_result_t) : V A := fun s => Done (inl e, s).
Definition check_data {A} (op : blockdev_t -> vic_result_t * A) (upd : A -> blockdev_t -> blockdev_t) : V A := fun s =>
  match op (data_dev s) with
  | (VIC_OK, a) => Done (inr a, mk_devs (upd a (data_dev s)) (hash_dev s))
  | (e, a) => Done (inl e, mk_devs (upd a (data_dev s)) (hash_dev s))
  end.
Definition check_hash {A} (op : blockdev_t -> vic_result_t * A) (upd : A -> blockdev_t -> blockdev_t) : V A := fun s =>
  match op (hash_dev s) with
  | (VIC_OK, a) => Done (inr a, mk_devs (data_dev s) (upd a (hash_dev s)))
  | (e, a) => Done (inl e, mk_devs (data_dev s) (upd a (hash_dev s)))
  end.
Definition assert_ (b : bool) : V unit := fun s => if b then Done (inr tt, s) else Failed Assertion.

Definition read_data (i : Z) : V (list Z) := check_data (fun d => vic_blockdev_get d i 1) (fun _ d => d).
Definition read_hash (i : Z) : V (list Z) := check_hash (fun d => vic_blockdev_get d i 1) (fun _ d => d).
Definition write_hash (i : Z) (blk : list Z) : V unit :=
  check_hash (fun d => vic_blockdev_put d i blk 1) (fun d' _ => d') ≫= fun _ => mret tt.

(** ** The shape of the tree *)

(** [while (n > 1)]: the sizes of the levels above one of [n] nodes; the array
    for them has [fuel] places left. *)
Fixpoint interior_levels (fuel : nat) (digests_per_blk n : Z) : outcome (list Z) :=
  if n <=? 1 then Done []
  else
    match fuel with
    | O => Failed (BadPointer 32)
    | S fuel' =>
        let n := vic_round_up n digests_per_blk / digests_per_blk in
        l ← interior_levels fuel' digests_per_blk n;
        Done (n :: l)
    end.

Definition sum_list (l : list Z) : Z := foldr Z.add 0 l.

(** [memcpy(node + node_offset, h, hsize)] *)
Definition copy_into (node : list Z) (node_offset : Z) (h : list Z) : list Z :=
  take (Z.to_nat node_offset) node ++ h ++ drop (Z.to_nat node_offset + length h) node.

(** ** Writing the tree *)

Section Format.
Context `{Algorithms}.
Variables (htype : vic_hash_type_t) (hsize blksz : Z) (salt : list Z).

Definition zeros : list Z := replicate (Z.to_nat blksz) 0.

Definition hash2 (blk : list Z) : V (list Z) :=
  match vic_hashv htype [salt; blk] with
  | None => raise VIC_UNEXPECTED
  | Some h => mret (take (Z.to_nat hsize) h)
  end.

(** [n] zero blocks from block [i] on. *)
Fixpoint fill_zeros (n : nat) (i : Z) : V unit :=
  match n with
  | O => mret tt
  | S n' => _ ← write_hash i zeros; fill_zeros n' (i + 1)
  end.

(** Write a node at a byte offset of the hash device. *)
Definition write_node (off : Z) (node : list Z) : V unit :=
  _ ← assert_ (off mod blksz =? 0);
  write_hash (off / blksz) node.

(** The local variables of the loop over the data blocks. *)
Record leaf_vars : Type := mk_leaf { node : list Z; node_offset : Z; tree_offset : Z; last_node : list Z }.

Fixpoint leaf_loop (n : nat) (i : Z) (v : leaf_vars) : V leaf_vars :=
  match n with
  | O => mret v
  | S n' =>
      blk ← read_data i;
      h ← hash2 blk;
      v ← (if blksz <? node_offset v + hsize then
             _ ← write_node (tree_offset v) (node v);
             mret (mk_leaf zeros 0 (tree_offset v + blksz) (node v))
           else mret v);
      leaf_loop n' (i + 1)
        (mk_leaf (copy_into (node v) (node_offset v) h) (node_offset v + hsize) (tree_offset v) (last_node v))
  end.

Definition write_leaves (nblocks : Z) (offset : Z) (last : list Z) : V (list Z) :=
  v ← leaf_loop (Z.to_nat nblocks) 0 (mk_leaf zeros 0 offset last);
  if 0 <? node_offset v then
    _ ← write_node (tree_offset v) (node v);
    mret (node v)
  else mret (last_node v).

(** The digests of the next nodes, while there are any and they fit. *)
Fixpoint fill_node (num_to_read : nat) (node : list Z) (node_offset read_offset : Z) : V (list Z * nat * Z) :=
  match num_to_read with
  | O => mret (node, O, read_offset)
  | S num' =>
      if node_offset + hsize <=? blksz then
        _ ← assert_ (read_offset mod blksz =? 0);
        blk ← read_hash (read_offset / blksz);
        h ← hash2 blk;
        fill_node num' (copy_into node node_offset h) (node_offset + hsize) (read_offset + blksz)
      else mret (node, num_to_read, read_offset)
  end.

(** One level: [n] nodes over [num_to_read] nodes of the level below. *)
Fixpoint write_level (n : nat) (num_to_read : nat) (read_offset write_offset : Z) (last : list Z) : V (list Z) :=
  match n with
  | O => mret last
  | S n' =>
      '(node, num_to_read, read_offset) ← fill_node num_to_read zeros 0 read_offset;
      _ ← write_node write_offset node;
      write_level n' num_to_read read_offset (write_offset + blksz) node
  end.

(** The levels above the first of the list; [sb] is the size of the superblock. *)
Fixpoint write_interior (nnodes : list Z) (sb : Z) (last : list Z) : V (list Z) :=
  match nnodes with
  | n0 :: ((n1 :: rest) as upper) =>
      last ← write_level (Z.to_nat n1) (Z.to_nat n0) (sum_list upper * blksz + sb) (sum_list rest * blksz + sb) last;
      write_interior upper sb last
  | _ => mret last
  end.

(** Zero blocks for [nblks] blocks, and up to the smallest size of a hash file. *)
Definition clear_hash_file (nblks : Z) : V unit :=
  _ ← fill_zeros (Z.to_nat nblks) 0;
  let hash_file_size := nblks * blksz in
  if hash_file_size <? MIN_HASH_FILE_SIZE
  then fill_zeros (Z.to_nat ((MIN_HASH_FILE_SIZE - hash_file_size) / blksz)) nblks
  else mret tt.
End Format.

(** ** Operations *)

Section Operations.
Context `{Algorithms}.

Definition lift {A} (o : outcome A) : V A := fun s => match o with Done a => Done (inr a, s) | Failed f => Failed f end.

(** [rsalt], [ruuid]: random bytes; [room]: the size of the buffer for the root
    hash; [uninit]: the contents of the local array before. *)
Definition vic_verity_format (hash_algorithm uuid : option text) (salt : option (list Z)) (need_superblock : bool)
    (dbs hbs : Z) (room : Z) (rsalt ruuid uninit : list Z) : V (list Z) :=
  let blksz := if dbs =? 0 then DEFAULT_BLKSZ else dbs in
  _ ← (match salt with
       | Some l => if bool_decide (l = []) || (VIC_VERITY_MAX_SALT_SIZE <? Z.of_nat (length l))
                   then raise VIC_BAD_PARAMETER else mret tt
       | None => mret tt
       end);
  '(htype, hsize) ← (match hash_algorithm with
                     | Some a =>
                         if decide (vic_hash_type a = VIC_HASH_NONE) then raise VIC_BAD_PARAMETER
                         else match vic_hash_size a with
                              | None => raise VIC_BAD_PARAMETER
                              | Some n => mret (vic_hash_type a, n)
                              end
                     | None => mret (VIC_HASH_SHA256, 32)
                     end);
  let salt := match salt with Some l => l | None => take (Z.to_nat hsize) rsalt end in
  uuid_buf ← (match uuid with
              | Some u => if vic_uuid_valid u then mret u else raise VIC_BAD_UUID
              | None => mret (vic_uuid_generate ruuid)
              end);
  let dbs := if dbs =? 0 then DEFAULT_BLKSZ else dbs in
  let hbs := if hbs =? 0 then DEFAULT_BLKSZ else hbs in
  if negb (dbs =? hbs) then raise VIC_FAILED
  else if (blksz <? MIN_BLKSZ) || (MAX_BLKSZ <? blksz) then raise VIC_FAILED
  else
    _ ← check_data (fun d => vic_blockdev_set_block_size d blksz) (fun d' _ => d');
    _ ← check_hash (fun d => vic_blockdev_set_block_size d blksz) (fun d' _ => d');
    size ← (fun s => Done (inr (vic_blockdev_get_size (data_dev s)), s));
    if truthy (size mod blksz) then raise VIC_NOT_BLOCK_MULTIPLE
    else if size <? u64 (blksz * 2) then raise VIC_FILE_TOO_SMALL
    else
      let nblks := size / blksz in
      let digests_per_blk := blksz / hsize in
      let nleaves := vic_round_up nblks digests_per_blk / digests_per_blk in
      upper ← lift (interior_levels 31 digests_per_blk nleaves);
      let nnodes := nleaves :: upper in
      let total_nodes := sum_list nnodes in
      let sb := if need_superblock then 1 else 0 in
      _ ← clear_hash_file blksz (total_nodes + sb);
      nblocks ← (fun s => Done (inr (vic_blockdev_get_num_blocks (data_dev s)), s));
      last ← write_leaves htype hsize blksz salt nblocks ((total_nodes - nleaves) * blksz + sb * blksz) uninit;
      last ← write_interior htype hsize blksz salt nnodes (sb * blksz) last;
      root ← hash2 htype hsize salt last;
      if room <? hsize then raise VIC_BUFFER_TOO_SMALL
      else
        ub ← lift (vic_uuid_str2bin uuid_buf);
        match ub with
        | None => raise VIC_UNEXPECTED
        | Some ub =>
            let b := mk_sb SIGNATURE 1 1 (pad 16 ub) (pad 32 (vic_hash_name htype)) blksz blksz nblks (Z.of_nat (length salt))
                       (pad 256 salt) in
            if need_superblock then
              _ ← write_hash 0 (copy_into (zeros blksz) 0 (sb_image b));
              mret root
            else mret root
        end.

(** [uninit]: the contents of the local array before the block is read into it. *)
Definition vic_verity_read_superblock (dev : blockdev_t) (uninit : list Z) : outcome (vic_result_t + vic_verity_sb_t) :=
  match vic_blockdev_get dev 0 1 with
  | (VIC_OK, block) =>
      if MAX_BLKSZ <? block_size dev then Failed (BadPointer MAX_BLKSZ)
      else
        let sb := sb_of (take 512 (block ++ drop (length block) uninit)) in
        if decide (signature sb = SIGNATURE) then Done (inr sb) else Done (inl VIC_BAD_SIGNATURE)
  | (e, _) => Done (inl e)
  end.

(** The salt of a superblock, whose size is not checked. *)
Definition salt_of (sb : vic_verity_sb_t) : V (list Z) :=
  if VIC_VERITY_MAX_SALT_SIZE <? salt_size sb then lift (Failed (BadPointer VIC_VERITY_MAX_SALT_SIZE))
  else mret (take (Z.to_nat (salt_size sb)) (sb_salt sb)).

(** What is asked of the device mapper. *)
Record verity_target : Type := mk_target {
  vt_data_block_size : Z; vt_hash_block_size : Z; vt_num_blocks : Z; vt_version : Z; vt_hash_offset : Z;
  vt_algorithm : text; vt_root_hash : list Z; vt_salt : list Z }.

Definition vic_verity_open (root_hash uninit : list Z) : V verity_target :=
  if bool_decide (root_hash = []) then raise VIC_BAD_PARAMETER
  else
    data_dev_size ← (fun s => Done (inr (vic_blockdev_get_size (data_dev s)), s));
    sb ← (fun s => match vic_verity_read_superblock (hash_dev s) uninit with
                   | Done r => Done (r, s)
                   | Failed f => Failed f
                   end);
    _ ← check_data (fun d => vic_blockdev_set_block_size d (data_block_size sb)) (fun d' _ => d');
    _ ← check_hash (fun d => vic_blockdev_set_block_size d (hash_block_size sb)) (fun d' _ => d');
    let num_blocks := data_dev_size / data_block_size sb in
    hash_offset ← (fun s => Done (inr (offset (hash_dev s)), s));
    salt ← salt_of sb;
    mret (mk_target (data_block_size sb) (hash_block_size sb) num_blocks (sb_version sb)
            (u32 (hash_offset / hash_block_size sb + 1)) (cstr (algorithm sb)) root_hash salt).

(** The superblock and the root hash that are printed. *)
Definition vic_verity_dump (uninit : list Z) : V (vic_verity_sb_t * list Z) :=
  sb ← (fun s => match vic_verity_read_superblock (hash_dev s) uninit with
                 | Done r => Done (r, s)
                 | Failed f => Failed f
                 end);
  if MAX_BLKSZ <? hash_block_size sb then raise VIC_UNEXPECTED
  else
    blksz ← (fun s => Done (inr (block_size (hash_dev s)), s));
    _ ← (if negb (blksz =? hash_block_size sb)
         then check_hash (fun d => vic_blockdev_set_block_size d (hash_block_size sb)) (fun d' _ => d') ≫= fun _ => mret tt
         else mret tt);
    hash_block ← read_hash 1;
    let a := cstr (algorithm sb) in
    if decide (vic_hash_type a = VIC_HASH_NONE) then raise VIC_UNEXPECTED
    else
      salt ← salt_of sb;
      match vic_hash_size a with
      | None => lift (Failed (BadPointer 64))
      | Some hsize =>
          h ← hash2 (vic_hash_type a) hsize salt (take (Z.to_nat (hash_block_size sb)) hash_block);
          mret (sb, h)
      end.
End Operations.
