(* ===== verification/VerityProps.v ===== *)
(** * VerityProps: the hash tree that is written is the hash tree of the data

    The reference is the tree as a function of the data blocks ([levels_over]);
    [vic_verity_format] writes it, returns its root hash, and the root hash binds
    the data: other data with the same root hash would be a collision. *)

From Stdlib Require Import String.
From S2P Require Import Prelude JsonText VicCrypto Blockdev Uuid Verity.

(** ** Groups *)

Definition chunks {A} (k : nat) (l : list A) : list (list A) :=
  map (fun i => take k (drop (i * k) l)) (seq 0 ((length l + k - 1) / k)).

Lemma chunks_nil {A} k : (0 < k)%nat -> chunks k (@nil A) = [].
Proof. intros Hk. unfold chunks. by rewrite Nat.div_small by (simpl; lia). Qed.

Lemma chunks_short {A} k (l : list A) : (0 < length l <= k)%nat -> chunks k l = [l].
Proof.
  intros Hl. unfold chunks. replace ((length l + k - 1) / k)%nat with 1%nat.
  - cbn [seq map]. rewrite Nat.mul_0_l, drop_0, take_ge by lia. done.
  - apply (Nat.div_unique _ _ 1 (length l - 1)); lia.
Qed.

Lemma chunks_app {A} k (a b : list A) : (0 < k)%nat -> length a = k -> chunks k (a ++ b) = a :: chunks k b.
Proof.
  intros Hk Ha. unfold chunks. rewrite length_app.
  replace ((length a + length b + k - 1) / k)%nat with (S ((length b + k - 1) / k)).
  - cbn [seq map]. rewrite Nat.mul_0_l, drop_0, take_app_le, take_ge by lia. f_equal.
    rewrite <- seq_shift, map_map. apply map_ext. intros i. rewrite drop_app_ge by lia. do 2 f_equal. lia.
  - rewrite Ha. replace (k + length b + k - 1)%nat with (1 * k + (length b + k - 1))%nat by lia.
    rewrite Nat.div_add_l by lia. lia.
Qed.

Lemma chunks_length {A} k (l : list A) : length (chunks k l) = ((length l + k - 1) / k)%nat.
Proof. unfold chunks. by rewrite length_map, length_seq. Qed.

Lemma chunks_concat {A} k (l : list A) : (0 < k)%nat -> concat (chunks k l) = l.
Proof.
  intros Hk. remember (length l) as n eqn:Hn. revert l Hn. induction n as [n IH] using lt_wf_ind. intros l ->.
  destruct (decide (length l <= k)%nat) as [Hs|Hs].
  - destruct l as [|x l]; [by rewrite chunks_nil|]. rewrite chunks_short by (simpl in *; lia). by apply app_nil_r.
  - rewrite <- (take_drop k l) at 1. rewrite chunks_app by (rewrite ?length_take; lia). cbn [concat].
    rewrite (IH (length (drop k l))); [by rewrite take_drop|rewrite length_drop; lia|done].
Qed.

Lemma chunks_bound {A} k (l : list A) c : (0 < k)%nat -> c ∈ chunks k l -> (length c <= k)%nat.
Proof.
  intros Hk Hc. unfold chunks in Hc. apply list_elem_of_In, in_map_iff in Hc as (i & <- & _).
  rewrite length_take. lia.
Qed.

(** Lists with the same shape of equal concatenation are equal. *)
Lemma concat_inj {A} k (a b : list (list A)) :
  Forall (fun x => length x = k) a -> Forall (fun x => length x = k) b -> length a = length b -> concat a = concat b -> a = b.
Proof.
  intros Ha. revert b. induction Ha as [|x a Hx Ha IH]; intros b Hb Hl E; destruct b as [|y b]; try done.
  apply Forall_cons in Hb as [Hy Hb]. cbn [concat] in E.
  apply app_inj_1 in E as [-> E]; [|lia]. f_equal. apply IH; [done|simpl in Hl; lia|done].
Qed.

Lemma concat_length hs (ds : list (list Z)) : Forall (fun d => length d = hs) ds -> length (concat ds) = (length ds * hs)%nat.
Proof. induction 1 as [|d ds Hd _ IH]; [done|]. cbn [concat length]. rewrite length_app, Hd, IH. lia. Qed.

Lemma round_up_div n k : 0 <= n < 2 ^ 63 -> 0 < k < 2 ^ 32 -> vic_round_up n k / k = (n + k - 1) / k.
Proof.
  intros Hn Hk. unfold vic_round_up. rewrite (u64_small (n + k - 1)) by lia.
  pose proof (Z.mul_div_le (n + k - 1) k ltac:(lia)). assert (0 <= (n + k - 1) / k) by (apply Z.div_pos; lia).
  rewrite u64_small by nia. apply Z.div_mul. lia.
Qed.

(** ** The reference tree *)

Section Tree.
Variables (H : list Z -> list Z) (hs bs dpb : nat).

(** A node holds the digests and is filled with zeros. *)
Definition node_of (ds : list (list Z)) : list Z := concat ds ++ replicate (bs - length (concat ds)) 0.
Definition nodes_over (blks : list (list Z)) : list (list Z) := map node_of (chunks dpb (map H blks)).

(** The levels of the tree, the leaves first. *)
Fixpoint levels_over (fuel : nat) (blks : list (list Z)) : list (list (list Z)) :=
  let ns := nodes_over blks in
  ns :: match fuel with
        | O => []
        | S fuel' => if decide (length ns <= 1)%nat then [] else levels_over fuel' ns
        end.
Definition top_level (fuel : nat) (blks : list (list Z)) : list (list Z) := default [] (last (levels_over fuel blks)).
Definition top_node (fuel : nat) (blks : list (list Z)) : list Z := default [] (head (top_level fuel blks)).

Hypothesis Hdpb : (1 < dpb)%nat.
Hypothesis Hfit : (dpb * hs <= bs)%nat.
Hypothesis HH : forall b, length (H b) = hs.

Lemma digests_length blks : Forall (fun d => length d = hs) (map H blks).
Proof. apply Forall_map, Forall_forall. intros b _. apply HH. Qed.

Lemma node_length ds : Forall (fun d => length d = hs) ds -> (length ds <= dpb)%nat -> length (node_of ds) = bs.
Proof.
  intros Hd Hl. unfold node_of. rewrite length_app, length_replicate, (concat_length hs ds Hd). nia.
Qed.

Lemma nodes_length blks : length (nodes_over blks) = ((length blks + dpb - 1) / dpb)%nat.
Proof. unfold nodes_over. by rewrite length_map, chunks_length, length_map. Qed.

Lemma chunk_digests blks c : c ∈ chunks dpb (map H blks) -> Forall (fun d => length d = hs) c.
Proof.
  intros Hc. apply Forall_forall. intros d Hd. pose proof (digests_length blks) as Hf. rewrite Forall_forall in Hf.
  apply Hf. rewrite <- (chunks_concat dpb (map H blks)) by lia. apply list_elem_of_In, in_concat.
  exists c. by rewrite <- !list_elem_of_In.
Qed.

Lemma nodes_over_length blks : Forall (fun n => length n = bs) (nodes_over blks).
Proof.
  apply Forall_map, Forall_forall. intros c Hc. apply node_length; [by eapply chunk_digests|].
  eapply chunks_bound; [|done]. lia.
Qed.

Lemma node_inj ds ds' :
  Forall (fun d => length d = hs) ds -> Forall (fun d => length d = hs) ds' -> length ds = length ds' ->
  node_of ds = node_of ds' -> ds = ds'.
Proof.
  intros H1 H2 Hl E. apply app_inj_1 in E as [E _]; [by eapply concat_inj|].
  rewrite !(concat_length hs) by done. lia.
Qed.

(** Two different blocks of the size of a node with the same digest. *)
Definition collision : Prop := exists x y, length x = bs /\ length y = bs /\ x ≠ y /\ H x = H y.

Lemma digests_bind a b :
  Forall (fun x => length x = bs) a -> Forall (fun x => length x = bs) b -> map H a = map H b -> a = b \/ collision.
Proof.
  intros Ha. revert b. induction Ha as [|x a Hx Ha IH]; intros b Hb E; destruct b as [|y b]; try done; [by left|].
  apply Forall_cons in Hb as [Hy Hb]. injection E as E1 E2.
  destruct (decide (x = y)) as [->|Hne]; [|right; by exists x, y].
  destruct (IH b Hb E2) as [->|?]; [by left|by right].
Qed.

Lemma chunks_same_shape {A} (l l' : list A) i c c' :
  length l = length l' -> chunks dpb l !! i = Some c -> chunks dpb l' !! i = Some c' -> length c = length c'.
Proof.
  intros Hl Hc Hc'. unfold chunks in *. rewrite list_lookup_fmap in Hc, Hc'.
  apply fmap_Some in Hc as (j & Hj & ->). apply fmap_Some in Hc' as (j' & Hj' & ->).
  rewrite <- Hl in Hj'. rewrite Hj in Hj'. injection Hj' as ->. rewrite !length_take, !length_drop. lia.
Qed.

Lemma nodes_bind a b :
  Forall (fun x => length x = bs) a -> Forall (fun x => length x = bs) b -> length a = length b ->
  nodes_over a = nodes_over b -> a = b \/ collision.
Proof.
  intros Ha Hb Hl E. apply digests_bind; [done|done|].
  assert (chunks dpb (map H a) = chunks dpb (map H b)) as Ec.
  { assert (length (map H a) = length (map H b)) as Hm by (by rewrite !length_map).
    apply list_eq. intros i.
    destruct (chunks dpb (map H a) !! i) as [c|] eqn:E1; destruct (chunks dpb (map H b) !! i) as [c'|] eqn:E2.
    - f_equal. assert (nodes_over a !! i = nodes_over b !! i) as En by (by rewrite E).
      unfold nodes_over in En. rewrite !list_lookup_fmap, E1, E2 in En. injection En as En.
      apply node_inj; [| | |done].
      + eapply chunk_digests, list_elem_of_lookup_2; done.
      + eapply chunk_digests, list_elem_of_lookup_2; done.
      + eapply chunks_same_shape; done.
    - apply lookup_lt_Some in E1. apply lookup_ge_None in E2. rewrite chunks_length in E1. rewrite chunks_length in E2. rewrite Hm in E1. lia.
    - apply lookup_lt_Some in E2. apply lookup_ge_None in E1. rewrite chunks_length in E1. rewrite chunks_length in E2. rewrite Hm in E1. lia.
    - done. }
  rewrite <- (chunks_concat dpb (map H a)), <- (chunks_concat dpb (map H b)) by lia. by rewrite Ec.
Qed.

Lemma single_bind a b :
  Forall (fun x => length x = bs) a -> Forall (fun x => length x = bs) b -> length a = 1%nat -> length b = 1%nat ->
  H (default [] (head a)) = H (default [] (head b)) -> a = b \/ collision.
Proof.
  intros Ha Hb L1 L2 E. destruct a as [|x [|]], b as [|y [|]]; try done. simpl in E.
  apply Forall_inv in Ha, Hb. destruct (decide (x = y)) as [->|Hne]; [by left|right; by exists x, y].
Qed.

(** The root binds the data: with the same shape, equal digests of the top node
    mean equal blocks, or a collision. *)
Lemma top_bind fuel a b :
  Forall (fun x => length x = bs) a -> Forall (fun x => length x = bs) b -> length a = length b ->
  length (top_level fuel a) = 1%nat -> H (top_node fuel a) = H (top_node fuel b) -> a = b \/ collision.
Proof.
  revert a b. induction fuel as [|fuel IH]; intros a b Ha Hb Hl Ht E;
    assert (length (nodes_over a) = length (nodes_over b)) as Hn by (by rewrite !nodes_length, Hl).
  - destruct (single_bind (nodes_over a) (nodes_over b)) as [En|?]; try by right.
    + apply nodes_over_length.
    + apply nodes_over_length.
    + exact Ht.
    + by rewrite <- Hn.
    + exact E.
    + by apply nodes_bind.
  - unfold top_node, top_level in *. cbn [levels_over] in *. rewrite <- Hn in E.
    destruct (decide (length (nodes_over a) <= 1)%nat) as [Hs|Hs].
    + destruct (single_bind (nodes_over a) (nodes_over b)) as [En|?]; try by right.
      * apply nodes_over_length.
      * apply nodes_over_length.
      * exact Ht.
      * by rewrite <- Hn.
      * exact E.
      * by apply nodes_bind.
    + assert (forall l x, last (x :: levels_over fuel l) = last (levels_over fuel l)) as El by (intros; by destruct fuel).
      rewrite El in Ht, E. rewrite El in E.
      destruct (IH (nodes_over a) (nodes_over b)) as [En|?]; try done; try by right.
      * apply nodes_over_length.
      * apply nodes_over_length.
      * by apply nodes_bind.
Qed.

(** ** The shape *)

Lemma nodes_count blks : Z.of_nat (length (nodes_over blks)) = (Z.of_nat (length blks) + Z.of_nat dpb - 1) / Z.of_nat dpb.
Proof. rewrite nodes_length, Nat2Z.inj_div. f_equal. lia. Qed.

Lemma nodes_nonempty blks : blks ≠ [] -> (0 < length (nodes_over blks))%nat.
Proof.
  intros Hne. rewrite nodes_length. destruct blks as [|b blks]; [done|]. cbn [length].
  apply Nat.div_str_pos. lia.
Qed.

(** The sizes computed before the tree is written are those of the tree, and the
    array for them is large enough. *)
Lemma levels_sizes fuel blks :
  blks ≠ [] -> Z.of_nat (length blks) < 2 ^ 63 -> Z.of_nat dpb < 2 ^ 32 ->
  Z.of_nat (length blks) <= Z.of_nat dpb ^ Z.of_nat (S fuel) ->
  interior_levels fuel (Z.of_nat dpb) (Z.of_nat (length (nodes_over blks))) =
    Done (map (fun l => Z.of_nat (length l)) (tail (levels_over fuel blks))) /\
  length (top_level fuel blks) = 1%nat.
Proof.
  intros Hne Hb Hd Hf. revert blks Hne Hb Hf. induction fuel as [|fuel IH]; intros blks Hne Hb Hf;
    pose proof (nodes_nonempty blks Hne) as Hpos; pose proof (nodes_count blks) as Hc.
  - assert (length (nodes_over blks) = 1%nat) as H1.
    { rewrite Z.pow_1_r in Hf. assert (Z.of_nat (length (nodes_over blks)) < 2); [|lia].
      rewrite Hc. apply Z.div_lt_upper_bound; lia. }
    unfold top_level. cbn [levels_over interior_levels tail map last default]. by rewrite H1.
  - unfold top_level in *. cbn [levels_over interior_levels tail].
    destruct (decide (length (nodes_over blks) <= 1)%nat) as [Hs|Hs].
    + rewrite (proj2 (Z.leb_le _ _)) by lia. cbn [map last default]. split; [done|]. change (length (nodes_over blks) = 1%nat). lia.
    + rewrite (proj2 (Z.leb_gt _ _)) by lia.
      assert (Z.of_nat (length (nodes_over blks)) <= Z.of_nat (length blks)) as Hle.
      { rewrite Hc. apply Z.div_le_upper_bound; [lia|]. assert (0 < Z.of_nat (length blks)); [|nia].
        destruct blks; [done|simpl; lia]. }
      destruct (IH (nodes_over blks)) as [E1 E2]; [intros En; rewrite En in Hpos; simpl in Hpos; lia|lia| |].
      { rewrite Hc. apply Z.lt_succ_r. apply Z.div_lt_upper_bound; [lia|].
        rewrite Nat2Z.inj_succ, Z.pow_succ_r in Hf by lia. lia. }
      rewrite round_up_div by lia. rewrite <- (nodes_count (nodes_over blks)). rewrite E1. cbn [mbind outcome_bind].
      split; [by destruct fuel|]. by destruct fuel.
Qed.
End Tree.

(** ** Devices *)

(** A device with blocks of [bs] bytes whose window lies in its file. *)
Record win (bs : Z) (d : blockdev_t) : Prop := {
  w_block : block_size d = bs; w_offset : 0 <= offset d <= size d;
  w_file : size d <= Z.of_nat (length (file d)) < 2 ^ 63;
  w_grid : offset d mod bs = 0 /\ size d mod bs = 0 }.

(** The number of blocks that surely are in the window. *)
Definition has_blocks (d : blockdev_t) (n : Z) : Prop := offset d + n * block_size d <= size d.

Lemma block_off_win bs d b :
  win bs d -> 0 < bs -> 0 <= b -> offset d + (b + 1) * bs < 2 ^ 63 ->
  block_off d b = b * bs + offset d /\ u64 (1 * block_size d) = bs /\ u64 (b * bs + offset d + bs) = b * bs + offset d + bs.
Proof.
  intros [Hbs Ho Hf _] Hpos Hb Hmax. unfold block_off. rewrite Hbs. assert (0 <= b * bs) by nia.
  rewrite (u64_small (b * bs + offset d)), s64_small, Z.mul_1_l, !u64_small by lia. done.
Qed.

Lemma get_win bs d b :
  win bs d -> 0 < bs -> 0 <= b -> has_blocks d (b + 1) ->
  vic_blockdev_get d b 1 = (VIC_OK, read_file (file d) (b * bs + offset d) bs) /\
  Z.of_nat (length (read_file (file d) (b * bs + offset d) bs)) = bs.
Proof.
  intros Hw Hpos Hb Hr. pose proof Hw as [Hbs Ho Hf Hgr]. unfold has_blocks in Hr. rewrite Hbs in Hr.
  destruct (block_off_win bs d b Hw Hpos Hb ltac:(lia)) as (E1 & E2 & E3). assert (0 <= b * bs) by nia.
  assert (Z.of_nat (length (read_file (file d) (b * bs + offset d) bs)) = bs) as Hl.
  { unfold read_file. rewrite length_take, length_drop. lia. }
  split; [|done]. unfold vic_blockdev_get. rewrite E2, E1, E3. rewrite (proj2 (Z.ltb_ge _ _)) by lia.
  rewrite (proj2 (Z.ltb_ge _ 0)) by lia. by rewrite Hl, Z.eqb_refl.
Qed.

(** A write may begin inside the file or at its end. *)
Lemma write_file_length_max f off data :
  0 <= off <= Z.of_nat (length f) ->
  Z.of_nat (length (write_file f off data)) = Z.max (Z.of_nat (length f)) (off + Z.of_nat (length data)).
Proof.
  intros Ho. unfold write_file. rewrite !length_app, length_take, length_app, length_replicate, length_drop. lia.
Qed.

Lemma read_write_apart f off data off' n :
  0 <= off <= Z.of_nat (length f) -> 0 <= off' -> off' + n <= Z.of_nat (length f) ->
  off' + n <= off \/ off + Z.of_nat (length data) <= off' ->
  read_file (write_file f off data) off' n = read_file f off' n.
Proof.
  intros Ho Ho' Hn Hd. apply list_eq. intros i. destruct (decide (Z.of_nat i < n)) as [Hi|Hi].
  - replace i with (Z.to_nat (Z.of_nat i)) by lia. rewrite !lookup_read by lia. apply lookup_write_other; lia.
  - unfold read_file. rewrite !lookup_take_ge by lia. done.
Qed.

Definition same_shape (d d' : blockdev_t) : Prop :=
  offset d' = offset d /\ create d' = create d /\ can_write d' = can_write d /\ size d <= size d'.

Lemma same_shape_trans d d1 d2 : same_shape d d1 -> same_shape d1 d2 -> same_shape d d2.
Proof. intros (? & ? & ? & ?) (? & ? & ? & ?). split_and!; [congruence|congruence|congruence|lia]. Qed.

(** A block that is read has the size of a block. *)
Lemma vic_blockdev_get_length d b x : vic_blockdev_get d b 1 = (VIC_OK, x) -> Z.of_nat (length x) = u64 (1 * block_size d).
Proof.
  unfold vic_blockdev_get. repeat case_match; try done. intros [= <-]. by apply Z.eqb_eq.
Qed.

(** Writing block [b]: inside the window, or at its end if the device may grow. *)
Lemma put_win bs d b blk :
  can_write d = true -> win bs d -> 0 < bs -> 0 <= b -> Z.of_nat (length blk) = bs -> offset d + (b + 1) * bs < 2 ^ 63 ->
  has_blocks d (b + 1) \/ (create d = true /\ has_blocks d b) ->
  exists d', vic_blockdev_put d b blk 1 = (VIC_OK, d') /\ win bs d' /\ same_shape d d' /\ has_blocks d' (b + 1) /\
    vic_blockdev_get d' b 1 = (VIC_OK, blk) /\
    forall j, 0 <= j -> j ≠ b -> has_blocks d (j + 1) -> vic_blockdev_get d' j 1 = vic_blockdev_get d j 1.
Proof.
  intros Hcw Hw Hpos Hb Hlen Hmax Hroom. pose proof Hw as [Hbs Ho Hf Hgr]. unfold has_blocks in *. rewrite Hbs in *.
  destruct (block_off_win bs d b Hw Hpos Hb Hmax) as (E1 & E2 & E3). assert (0 <= b * bs) by nia.
  set (off := b * bs + offset d) in *.
  assert (off <= size d) as Hoff by (unfold off; destruct Hroom as [|[_ ?]]; lia).
  set (s := if create d && (size d <? off + bs) then off + bs else size d).
  assert (size d <= s /\ off + bs <= s /\ s <= Z.max (Z.of_nat (length (file d))) (off + bs)) as (S1 & S2 & S3).
  { unfold s. destruct Hroom as [?|[-> ?]]; destruct (Z.ltb_spec (size d) (off + bs)); destruct (create d);
      cbn [andb]; unfold off in *; lia. }
  exists (with_file (write_file (file d) off blk) s d).
  assert (vic_blockdev_put d b blk 1 = (VIC_OK, with_file (write_file (file d) off blk) s d)) as Hput.
  { unfold vic_blockdev_put. rewrite E2, E1, E3. rewrite (proj2 (Z.ltb_ge off 0)), Hcw by lia.
    assert (negb (create d) && (size d <? off + bs) = false) as ->.
    { destruct Hroom as [?|[-> _]]; [|done]. rewrite (proj2 (Z.ltb_ge _ _)) by (unfold off; lia). apply andb_false_r. }
    by rewrite take_ge by lia. }
  pose proof (write_file_length_max (file d) off blk ltac:(lia)) as Hl.
  assert (win bs (with_file (write_file (file d) off blk) s d)) as Hw'.
  { split; [done| | |]; cbn [offset size file with_file]; [lia|rewrite Hl; unfold off in *; lia|]. destruct Hgr as [G1 G2].
    split; [done|]. unfold s. case_match; [|done]. unfold off.
    replace (b * bs + offset d + bs) with (offset d + (b + 1) * bs) by lia. by rewrite Z.mod_add by lia. }
  split_and!; [done|done|by split_and!| | |].
  - cbn [offset block_size size with_file]. rewrite Hbs. unfold off in S2. lia.
  - destruct (get_win bs _ b Hw' Hpos Hb) as [-> _].
    { unfold has_blocks. cbn [offset block_size size with_file]. rewrite Hbs. unfold off in S2. lia. }
    cbn [file offset with_file]. fold off. by rewrite <- Hlen, read_write_same by lia.
  - intros j Hj Hne Hin. destruct (get_win bs d j Hw Hpos Hj) as [-> _]; [unfold has_blocks; by rewrite Hbs|].
    destruct (get_win bs _ j Hw' Hpos Hj) as [-> _].
    { unfold has_blocks. cbn [offset block_size size with_file]. rewrite Hbs. lia. }
    cbn [file offset with_file]. f_equal. apply read_write_apart; [lia|nia|lia|unfold off; nia].
Qed.

(** ** Writing the tree *)

Definition block_digest `{Algorithms} (htype : vic_hash_type_t) (hsize : Z) (salt blk : list Z) : list Z :=
  take (Z.to_nat hsize) (mbedtls_hash htype (salt ++ blk)).

(** The blocks from [q] on are the given ones. *)
Definition written (d : blockdev_t) (q : Z) (ns : list (list Z)) : Prop :=
  forall j n, ns !! j = Some n -> vic_blockdev_get d (q + Z.of_nat j) 1 = (VIC_OK, n).

Lemma written_app d q a b : written d q a -> written d (q + Z.of_nat (length a)) b -> written d q (a ++ b).
Proof.
  intros Ha Hb j n Hj. destruct (decide (j < length a)%nat) as [Hlt|Hge].
  - rewrite lookup_app_l in Hj by done. by apply Ha.
  - rewrite lookup_app_r in Hj by lia. apply Hb in Hj. rewrite <- Hj. f_equal. lia.
Qed.

Lemma written_cons d q n ns : vic_blockdev_get d q 1 = (VIC_OK, n) -> written d (q + 1) ns -> written d q (n :: ns).
Proof.
  intros Hn Hns. change (n :: ns) with ([n] ++ ns). apply written_app; [|exact Hns].
  intros j m Hj. destruct j as [|j]; [|done]. injection Hj as <-. by rewrite Z.add_0_r.
Qed.

(** The number of nodes of levels. *)
Definition count (l : list (list Z)) : Z := Z.of_nat (length l).

Lemma sum_count_nonneg L : 0 <= sum_list (map count L).
Proof. induction L as [|l L IH]; [done|]. cbn [map sum_list foldr]. unfold count at 1. fold (sum_list (map count L)). lia. Qed.

Lemma concat_rev_length L : Z.of_nat (length (concat (rev L))) = sum_list (map count L).
Proof.
  induction L as [|l L IH]; [done|]. cbn [rev map]. rewrite concat_app, length_app. cbn [concat]. rewrite app_nil_r.
  unfold sum_list in *. cbn [foldr]. unfold count at 1. lia.
Qed.

Section Writing.
Context `{Algorithms}.
Variables (htype : vic_hash_type_t) (hsize blksz : Z) (salt : list Z).
Hypothesis Hinit : vic_hash_init htype = true.
Hypothesis Hhsize : hsize = Z.of_nat (digest_size htype).
Hypothesis Hblksz : 512 <= blksz <= 4096.

Let D := block_digest htype hsize salt.
Let hs := digest_size htype.
Let bs := Z.to_nat blksz.
Let dpb := Z.to_nat (blksz / hsize).
Let Node := node_of bs.
Let Nodes := nodes_over D bs dpb.

Lemma sizes : (0 < hs <= 64)%nat /\ (8 <= dpb)%nat /\ (dpb * hs <= bs)%nat /\ Z.of_nat dpb = blksz / hsize /\
  blksz < (Z.of_nat dpb + 1) * hsize.
Proof.
  assert (0 < hs <= 64)%nat as Hh by (unfold hs; destruct htype; simpl in *; try done; lia).
  assert (8 <= blksz / hsize) by (apply Z.div_le_lower_bound; lia).
  pose proof (Z.mul_div_le blksz hsize ltac:(lia)). pose proof (Z.mul_succ_div_gt blksz hsize ltac:(lia)).
  assert (Z.of_nat dpb = blksz / hsize) as E by (unfold dpb; lia). unfold bs. split_and!; nia.
Qed.

Lemma digest_length b : length (D b) = hs.
Proof. unfold D, block_digest, hs. rewrite length_take, mbedtls_hash_length. lia. Qed.

Lemma hash2_total blk s : hash2 htype hsize salt blk s = Done (inr (D blk), s).
Proof. unfold hash2, vic_hashv. rewrite Hinit. cbn [concat]. by rewrite app_nil_r. Qed.

(** A digest is copied behind the others. *)
Lemma copy_node ds h :
  Forall (fun d => length d = hs) ds -> length h = hs -> (length ds < dpb)%nat ->
  copy_into (Node ds) (Z.of_nat (length ds) * hsize) h = Node (ds ++ [h]).
Proof.
  intros Hds Hh Hl. destruct sizes as (Hs & Hd & Hfit & _ & _). unfold copy_into, Node, node_of.
  pose proof (concat_length hs ds Hds) as Hc. rewrite Hhsize. fold hs.
  replace (Z.to_nat (Z.of_nat (length ds) * Z.of_nat hs)) with (length (concat ds)) by lia.
  rewrite take_app_le, take_ge by lia. rewrite drop_app_ge by lia. rewrite concat_app. cbn [concat].
  rewrite app_nil_r, <- app_assoc. do 2 f_equal. rewrite drop_replicate, length_app. f_equal. lia.
Qed.

Lemma node_nil : Node [] = zeros blksz.
Proof. unfold Node, node_of, zeros. cbn [concat length app]. by rewrite Nat.sub_0_r. Qed.

Variable M : Z.
Variable dd : blockdev_t.

(** A hash device with [M] blocks, and what a write changes. *)
Definition room (d : blockdev_t) : Prop := win blksz d /\ has_blocks d M /\ can_write d = true.
Definition changed (d d' : blockdev_t) (a b : Z) : Prop :=
  room d' /\ same_shape d d' /\
  forall j, 0 <= j < M -> ~ (a <= j < b) -> vic_blockdev_get d' j 1 = vic_blockdev_get d j 1.

Lemma changed_refl d a : room d -> changed d d a a.
Proof. intros Hr. split; [done|]. split; [|done]. by split_and!. Qed.

Lemma changed_trans d d1 d2 a b c e l r :
  changed d d1 a b -> changed d1 d2 c e -> l <= a -> l <= c -> b <= r -> e <= r -> changed d d2 l r.
Proof.
  intros (R1 & Sh1 & F1) (R2 & Sh2 & F2) ? ? ? ?. split; [done|]. split.
  - by eapply same_shape_trans.
  - intros j Hj Hn. rewrite F2, F1 by lia. done.
Qed.

Lemma changed_written d d' a b q ns :
  changed d d' a b -> written d q ns -> 0 <= q -> q + Z.of_nat (length ns) <= M ->
  q + Z.of_nat (length ns) <= a \/ b <= q -> written d' q ns.
Proof.
  intros (_ & _ & F) Hw Hq Hm Hd j n Hj. pose proof (lookup_lt_Some _ _ _ Hj).
  rewrite F by lia. by apply Hw.
Qed.

Lemma write_room d b blk :
  room d -> 0 <= b < M -> length blk = bs ->
  exists d', write_hash b blk (mk_devs dd d) = Done (inr tt, mk_devs dd d') /\ changed d d' b (b + 1) /\
    vic_blockdev_get d' b 1 = (VIC_OK, blk).
Proof.
  intros (Hw & Hr & Hcw) Hb Hl. pose proof Hw as [Hbs Ho Hf Hgr]. unfold has_blocks in *. rewrite Hbs in Hr.
  destruct (put_win blksz d b blk Hcw Hw ltac:(lia) ltac:(lia)) as (d' & E & Hw' & Hsh & _ & Hg & Hfr).
  { unfold bs in Hl. lia. }
  { nia. }
  { left. unfold has_blocks. rewrite Hbs. nia. }
  exists d'. split_and!; [|split_and!|done].
  - unfold write_hash, check_hash, mbind, v_bind. cbn [hash_dev data_dev]. by rewrite E.
  - unfold room, has_blocks. destruct Hsh as (-> & _ & -> & ?). rewrite (w_block _ _ Hw'). split_and!; [done|lia|done].
  - done.
  - intros j Hj Hn. apply Hfr; [lia|lia|]. unfold has_blocks. rewrite Hbs. nia.
Qed.

Lemma write_node_room d b node :
  room d -> 0 <= b < M -> length node = bs ->
  exists d', write_node blksz (b * blksz) node (mk_devs dd d) = Done (inr tt, mk_devs dd d') /\
    changed d d' b (b + 1) /\ vic_blockdev_get d' b 1 = (VIC_OK, node).
Proof.
  intros Hr Hb Hl. destruct (write_room d b node Hr Hb Hl) as (d' & E & Hc & Hg). exists d'. split_and!; [|done|done].
  unfold write_node, assert_, mbind, v_bind. rewrite Z.mod_mul, Z.eqb_refl, Z.div_mul by lia. exact E.
Qed.

Lemma read_data_ok d i b : vic_blockdev_get dd i 1 = (VIC_OK, b) -> read_data i (mk_devs dd d) = Done (inr b, mk_devs dd d).
Proof. intros E. unfold read_data, check_data. cbn [data_dev hash_dev]. by rewrite E. Qed.
Lemma read_hash_ok d i b : vic_blockdev_get d i 1 = (VIC_OK, b) -> read_hash i (mk_devs dd d) = Done (inr b, mk_devs dd d).
Proof. intros E. unfold read_hash, check_hash. cbn [data_dev hash_dev]. by rewrite E. Qed.

(** The running sum: [node_offset] leaves room for another digest exactly if the
    node is not full. *)
Lemma full_node (cur : list (list Z)) :
  (length cur <= dpb)%nat ->
  (blksz <? Z.of_nat (length cur) * hsize + hsize) = bool_decide (length cur = dpb) /\
  (Z.of_nat (length cur) * hsize + hsize <=? blksz) = bool_decide (length cur < dpb)%nat.
Proof.
  intros Hl. destruct sizes as (Hh & Hd & Hfit & Hz & Hsucc).
  assert (Z.of_nat dpb * hsize <= blksz) by (unfold bs in *; nia).
  split; case_bool_decide as E; [apply Z.ltb_lt|apply Z.ltb_ge|apply Z.leb_le|apply Z.leb_gt]; nia.
Qed.

Definition holds_data (i : Z) (blks : list (list Z)) : Prop :=
  forall j b, blks !! j = Some b -> vic_blockdev_get dd (i + Z.of_nat j) 1 = (VIC_OK, b).

Lemma holds_data_cons i b blks : holds_data i (b :: blks) -> vic_blockdev_get dd i 1 = (VIC_OK, b) /\ holds_data (i + 1) blks.
Proof.
  intros Hh. split; [rewrite <- (Z.add_0_r i); by apply (Hh 0%nat)|].
  intros j x Hj. rewrite <- (Hh (S j) x Hj). f_equal. lia.
Qed.

Lemma leaf_loop_spec blks i cur q last d :
  holds_data i blks -> room d -> Forall (fun x => length x = hs) cur -> (length cur <= dpb)%nat -> 0 <= q ->
  q + Z.of_nat (length (chunks dpb (cur ++ map D blks))) <= M ->
  exists d' full cur' last',
    leaf_loop htype hsize blksz salt (length blks) i
      (mk_leaf (Node cur) (Z.of_nat (length cur) * hsize) (q * blksz) last) (mk_devs dd d) =
      Done (inr (mk_leaf (Node cur') (Z.of_nat (length cur') * hsize) ((q + Z.of_nat (length full)) * blksz) last'),
            mk_devs dd d') /\
    chunks dpb (cur ++ map D blks) = full ++ chunks dpb cur' /\ (length cur' <= dpb)%nat /\
    Forall (fun x => length x = hs) cur' /\ (cur ++ map D blks ≠ [] -> cur' ≠ []) /\
    changed d d' q (q + Z.of_nat (length full)) /\ written d' q (map Node full).
Proof.
  destruct sizes as (Hhs & Hdpb & Hfit & _ & _).
  revert i cur q last d. induction blks as [|b blks IH]; intros i cur q last d Hdata Hr Hc Hl Hq Hm.
  - exists d, [], cur, last. cbn [length map app leaf_loop]. rewrite app_nil_r, Z.add_0_r.
    split_and!; done.
  - apply holds_data_cons in Hdata as [Hb Hdata]. cbn [length leaf_loop].
    unfold mbind, v_bind. rewrite (read_data_ok d i b Hb), hash2_total. cbn [node_offset node tree_offset last_node].
    destruct (full_node cur Hl) as [-> _]. case_bool_decide as Efull.
    + cbn [map] in Hm. rewrite chunks_app in Hm by lia. cbn [length] in Hm.
      assert (length (Node cur) = bs) as Hnl by (apply (node_length hs bs dpb); [lia|done|done|done]).
      destruct (write_node_room d q (Node cur) Hr ltac:(lia) Hnl) as (d1 & -> & Hch & Hg).
      unfold mret, v_ret. cbn [node_offset node tree_offset last_node].
      pose proof (copy_node [] (D b) (Forall_nil_2 _) (digest_length b) ltac:(simpl; lia)) as Ecopy.
      change (Z.of_nat (length []) * hsize) with 0 in Ecopy. rewrite <- node_nil, Ecopy. cbn [app].
      replace (0 + hsize) with (Z.of_nat (length [D b]) * hsize) by (simpl; lia).
      replace (q * blksz + blksz) with ((q + 1) * blksz) by lia.
      destruct (IH (i + 1) [D b] (q + 1) (Node cur) d1) as (d' & full & cur' & last' & E & Ec & L & Fc & Hne & Hch' & Hw).
      * done.
      * apply Hch.
      * apply Forall_singleton, digest_length.
      * simpl. lia.
      * lia.
      * cbn [app]. lia.
      * exists d', (cur :: full), cur', last'.
        replace (q + Z.of_nat (length (cur :: full))) with (q + 1 + Z.of_nat (length full)) by (simpl; lia).
        split_and!; [exact E| |done|done| | |].
        -- cbn [map]. rewrite chunks_app by lia. rewrite <- app_comm_cons. f_equal. exact Ec.
        -- intros _. by apply Hne.
        -- eapply changed_trans; [exact Hch|exact Hch'|lia..].
        -- cbn [map]. apply written_cons; [|done]. destruct Hch' as (_ & _ & F). rewrite F by lia. done.
    + unfold mret, v_ret. cbn [node_offset node tree_offset last_node].
      rewrite copy_node by (done || apply digest_length || lia).
      replace (Z.of_nat (length cur) * hsize + hsize) with (Z.of_nat (length (cur ++ [D b])) * hsize)
        by (rewrite length_app; simpl; lia).
      cbn [map] in *. assert (cur ++ D b :: map D blks = (cur ++ [D b]) ++ map D blks) as Ea by (by rewrite <- app_assoc).
      rewrite Ea in Hm |- *.
      apply IH; [done|done| | |done|done].
      * apply Forall_app. split; [done|]. apply Forall_singleton, digest_length.
      * rewrite length_app. simpl. lia.
Qed.

Lemma write_leaves_spec blks q last d :
  blks ≠ [] -> holds_data 0 blks -> room d -> 0 <= q -> q + Z.of_nat (length (Nodes blks)) <= M ->
  exists d', write_leaves htype hsize blksz salt (Z.of_nat (length blks)) (q * blksz) last (mk_devs dd d) =
      Done (inr (default [] (list.last (Nodes blks))), mk_devs dd d') /\
    changed d d' q (q + Z.of_nat (length (Nodes blks))) /\ written d' q (Nodes blks).
Proof.
  intros Hne Hdata Hr Hq Hm. destruct sizes as (Hhs & Hdpb & Hfit & _ & _). unfold write_leaves.
  unfold Nodes, nodes_over in *. rewrite length_map in *.
  destruct (leaf_loop_spec blks 0 [] q last d) as (d1 & full & cur & last' & E & Ec & L & Fc & Hn & Hch & Hw);
    [done|done|by constructor|simpl; lia|done|done|].
  cbn [app length] in *. assert (cur ≠ []) as Hcur by (apply Hn; by destruct blks).
  assert (0 < length cur)%nat as Hpos by (destruct cur; [done|simpl; lia]).
  rewrite (chunks_short dpb cur) in Ec by lia. rewrite Ec in Hm |- *. rewrite length_app in Hm |- *. cbn [length] in Hm |- *.
  unfold mbind at 1, v_bind at 1. rewrite Nat2Z.id, <- node_nil. change (Z.of_nat 0 * hsize) with 0 in E. rewrite E.
  cbn [node_offset node tree_offset]. rewrite (proj2 (Z.ltb_lt _ _)) by nia.
  assert (length (Node cur) = bs) as Hnl by (apply (node_length hs bs dpb); [lia|done|done|done]).
  destruct (write_node_room d1 (q + Z.of_nat (length full)) (Node cur)) as (d2 & E2 & Hch2 & Hg); [apply Hch|lia|done|].
  exists d2. unfold mbind, v_bind. rewrite E2. split_and!.
  - rewrite map_app. cbn [map]. by rewrite last_snoc.
  - eapply changed_trans; [exact Hch|exact Hch2|lia..].
  - rewrite map_app. apply written_app.
    + eapply changed_written; [exact Hch2|exact Hw|lia|rewrite length_map; lia|rewrite length_map; lia].
    + rewrite length_map. apply written_cons; [exact Hg|]. by intros j n Hj.
Qed.

(** ** The levels above the leaves *)

(** A node is filled with the digests of the next nodes, as long as they fit. *)
Lemma fill_node_spec ns r ds d :
  written d r ns -> Forall (fun x => length x = hs) ds -> (length ds <= dpb)%nat ->
  let k := Nat.min (length ns) (dpb - length ds) in
  fill_node htype hsize blksz salt (length ns) (Node ds) (Z.of_nat (length ds) * hsize) (r * blksz) (mk_devs dd d) =
  Done (inr (Node (ds ++ map D (take k ns)), (length ns - k)%nat, (r + Z.of_nat k) * blksz), mk_devs dd d).
Proof.
  revert r ds. induction ns as [|n ns IH]; intros r ds Hw Hds Hl; cbv zeta.
  - cbn [length Nat.min take map fill_node Nat.sub]. by rewrite app_nil_r, Z.add_0_r.
  - cbn [length fill_node]. destruct (full_node ds Hl) as [_ ->]. case_bool_decide as Hlt.
    + assert (vic_blockdev_get d r 1 = (VIC_OK, n)) as Hg by (rewrite <- (Z.add_0_r r); by apply (Hw 0%nat)).
      assert (written d (r + 1) ns) as Hw'.
      { intros j x Hj. rewrite <- (Hw (S j) x Hj). f_equal. lia. }
      unfold mbind, v_bind, assert_. rewrite Z.mod_mul, Z.eqb_refl, Z.div_mul by lia.
      rewrite (read_hash_ok d r n Hg), hash2_total.
      rewrite copy_node by (done || apply digest_length).
      replace (Z.of_nat (length ds) * hsize + hsize) with (Z.of_nat (length (ds ++ [D n])) * hsize)
        by (rewrite length_app; simpl; lia).
      replace (r * blksz + blksz) with ((r + 1) * blksz) by lia.
      rewrite IH; [|done| |rewrite length_app; simpl; lia].
      * replace (Nat.min (S (length ns)) (dpb - length ds)) with (S (Nat.min (length ns) (dpb - length (ds ++ [D n]))))
          by (rewrite length_app; cbn [length]; lia).
        cbn [take map Nat.sub]. rewrite <- app_assoc. cbn [app]. do 5 f_equal. lia.
      * apply Forall_app. split; [done|]. apply Forall_singleton, digest_length.
    + replace (Nat.min (S (length ns)) (dpb - length ds)) with O by lia.
      cbn [take map]. by rewrite app_nil_r, Z.add_0_r.
Qed.

Lemma nodes_take ns :
  ns ≠ [] -> Nodes ns = Node (map D (take dpb ns)) :: Nodes (drop dpb ns).
Proof.
  intros Hne. destruct sizes as (_ & Hd & _ & _ & _). unfold Nodes, nodes_over. fold Node.
  destruct (decide (length ns <= dpb)%nat) as [Hs|Hs].
  - rewrite (take_ge ns), (drop_ge ns) by lia. cbn [map]. rewrite chunks_nil by lia.
    rewrite chunks_short; [done|]. rewrite length_map. destruct ns; [done|simpl in *; lia].
  - rewrite <- (take_drop dpb ns) at 1. rewrite map_app, chunks_app; [done|lia|].
    rewrite length_map, length_take. lia.
Qed.

Lemma take_digests ns : Forall (fun x => length x = hs) (map D (take dpb ns)) /\ (length (map D (take dpb ns)) <= dpb)%nat.
Proof. split; [apply (digests_length D hs), digest_length|]. rewrite length_map, length_take. lia. Qed.

(** One level is written: the nodes over [ns], which are behind it on the device. *)
Lemma write_level_spec ns r w last d :
  written d r ns -> room d -> 0 <= w -> w + Z.of_nat (length (Nodes ns)) <= r -> r + Z.of_nat (length ns) <= M ->
  exists d', write_level htype hsize blksz salt (length (Nodes ns)) (length ns) (r * blksz) (w * blksz) last (mk_devs dd d) =
      Done (inr (default last (list.last (Nodes ns))), mk_devs dd d') /\
    changed d d' w (w + Z.of_nat (length (Nodes ns))) /\ written d' w (Nodes ns).
Proof.
  destruct sizes as (Hhs & Hdpb & Hfit & _ & _).
  remember (length ns) as n eqn:Hn. revert ns Hn r w last d. induction n as [n IH] using lt_wf_ind.
  intros ns -> r w last d Hw Hr Hw0 Hwr Hm. destruct (decide (ns = [])) as [->|Hne].
  - exists d. unfold Nodes, nodes_over. cbn [map]. rewrite chunks_nil by lia. cbn [map length write_level list.last default].
    rewrite Z.add_0_r. split_and!; [done|by apply changed_refl|]. by intros j n Hj.
  - rewrite nodes_take in Hwr |- * by done. cbn [length write_level] in Hwr |- *.
    destruct (take_digests ns) as [Hf Hl].
    pose proof (fill_node_spec ns r [] d Hw (Forall_nil_2 _) ltac:(simpl; lia)) as Ef.
    cbn [length app] in Ef. rewrite Nat.sub_0_r in Ef. change (Z.of_nat 0 * hsize) with 0 in Ef.
    set (k := Nat.min (length ns) dpb) in *.
    assert (take k ns = take dpb ns /\ drop k ns = drop dpb ns) as [Etk Edk].
    { unfold k. destruct (decide (length ns <= dpb)%nat);
        [rewrite Nat.min_l, !take_ge, !drop_ge by lia|rewrite Nat.min_r by lia]; done. }
    unfold mbind, v_bind. rewrite <- node_nil, Ef, Etk.
    destruct (write_node_room d w (Node (map D (take dpb ns)))) as (d1 & -> & Hch & Hg);
      [done|lia|by apply (node_length hs bs dpb); [lia|..]|].
    replace (length ns - k)%nat with (length (drop dpb ns)) by (rewrite <- Edk; apply length_drop).
    replace (w * blksz + blksz) with ((w + 1) * blksz) by lia.
    assert (0 < length ns)%nat as Hpos by (destruct ns; [done|simpl; lia]).
    destruct (IH (length (drop dpb ns)) ltac:(rewrite length_drop; lia) (drop dpb ns) eq_refl (r + Z.of_nat k) (w + 1)
      (Node (map D (take dpb ns))) d1) as (d' & E & Hch' & Hw').
    + eapply changed_written; [exact Hch| |lia| |].
      * intros j x Hj. rewrite <- Edk, lookup_drop in Hj. rewrite <- (Hw _ _ Hj). f_equal. lia.
      * rewrite <- Edk, length_drop. lia.
      * right. lia.
    + apply Hch.
    + lia.
    + lia.
    + rewrite <- Edk, length_drop. lia.
    + exists d'. rewrite E. split_and!.
      * do 3 f_equal. rewrite last_cons. by destruct (list.last (Nodes (drop dpb ns))).
      * eapply changed_trans; [exact Hch|exact Hch'|lia..].
      * apply written_cons; [|done]. destruct Hch' as (_ & _ & F). rewrite F by lia. done.
Qed.

Lemma levels_head fuel blks :
  levels_over D bs dpb fuel blks = Nodes blks :: tail (levels_over D bs dpb fuel blks).
Proof. by destruct fuel. Qed.

Lemma nodes_some ns x : ns ≠ [] -> default x (list.last (Nodes ns)) = default [] (list.last (Nodes ns)).
Proof. intros Hne. rewrite nodes_take, last_cons by done. by destruct (list.last (Nodes (drop dpb ns))). Qed.

Lemma write_interior_cons n0 n1 rest sb last :
  write_interior htype hsize blksz salt (n0 :: n1 :: rest) sb last =
  (write_level htype hsize blksz salt (Z.to_nat n1) (Z.to_nat n0) (sum_list (n1 :: rest) * blksz + sb)
     (sum_list rest * blksz + sb) last ≫= fun last => write_interior htype hsize blksz salt (n1 :: rest) sb last).
Proof. done. Qed.

(** The whole tree: the leaves are there, the levels above are written in front of
    them, the last node written is the top one. *)
Lemma write_interior_spec fuel blks sb d :
  let L := levels_over D bs dpb fuel blks in
  blks ≠ [] -> written d (sb + sum_list (map count (tail L))) (Nodes blks) -> room d -> 0 <= sb ->
  sb + sum_list (map count L) <= M ->
  exists d', write_interior htype hsize blksz salt (map count L) (sb * blksz) (default [] (list.last (Nodes blks)))
      (mk_devs dd d) = Done (inr (default [] (list.last (top_level D bs dpb fuel blks))), mk_devs dd d') /\
    changed d d' sb (sb + sum_list (map count (tail L))) /\ written d' sb (concat (rev L)).
Proof.
  destruct sizes as (Hhs & Hdpb & Hfit & _ & _).
  revert blks d. induction fuel as [|fuel IH]; intros blks d; cbv zeta; intros Hne Hw Hr Hsb Hm.
  - cbn [levels_over tail map write_interior rev app concat] in *. fold Nodes in Hw, Hm |- *. unfold top_level.
    cbn [levels_over list.last default]. exists d. change (sum_list []) with 0 in *. rewrite Z.add_0_r in *. fold Nodes.
    split_and!; [done|by apply changed_refl|]. by rewrite app_nil_r.
  - unfold top_level. cbn [levels_over tail] in *. fold Nodes in Hw, Hm |- *.
    destruct (decide (length (Nodes blks) <= 1)%nat) as [Hs|Hs].
    + cbn [map write_interior rev app concat list.last default] in *. exists d. change (sum_list []) with 0 in *.
      rewrite Z.add_0_r in *. split_and!; [done|by apply changed_refl|]. by rewrite app_nil_r.
    + assert (Nodes blks ≠ []) as Hne1 by (intros E; rewrite E in Hs; simpl in Hs; lia).
      set (L := levels_over D bs dpb fuel (Nodes blks)) in *. pose proof (levels_head fuel (Nodes blks)) as EL.
      fold L in EL. rewrite EL in Hw, Hm |- *. cbn [map tail] in *.
      set (up := sum_list (map count (tail L))) in *. pose proof (sum_count_nonneg (tail L)). fold up in H0.
      assert (sum_list (count (Nodes (Nodes blks)) :: map count (tail L)) = count (Nodes (Nodes blks)) + up) as Es by done.
      assert (sum_list (count (Nodes blks) :: count (Nodes (Nodes blks)) :: map count (tail L)) =
        count (Nodes blks) + (count (Nodes (Nodes blks)) + up)) as Es2 by done.
      rewrite Es in *. rewrite Es2 in Hm. unfold count in Hm, Hw.
      destruct (write_level_spec (Nodes blks) (sb + (Z.of_nat (length (Nodes (Nodes blks))) + up)) (sb + up)
        (default [] (list.last (Nodes blks))) d) as (d1 & E1 & Hch1 & Hw1); [exact Hw|exact Hr|lia|lia|lia|].
      destruct (IH (Nodes blks) d1) as (d' & E2 & Hch2 & Hw2).
      * done.
      * fold L. fold up. exact Hw1.
      * apply Hch1.
      * done.
      * fold L. rewrite EL. cbn [map]. change (sum_list _) with (count (Nodes (Nodes blks)) + up). unfold count. lia.
      * fold L in E2, Hch2, Hw2. fold up in Hch2. rewrite EL in E2, Hw2. exists d'.
        unfold top_level in E2. fold L in E2. rewrite EL in E2. split_and!.
        -- rewrite write_interior_cons. unfold mbind, v_bind. unfold count at 1 2. rewrite !Nat2Z.id.
           rewrite Es. fold up. replace ((count (Nodes (Nodes blks)) + up) * blksz + sb * blksz) with
             ((sb + (Z.of_nat (length (Nodes (Nodes blks))) + up)) * blksz) by (unfold count; lia).
           replace (up * blksz + sb * blksz) with ((sb + up) * blksz) by lia.
           rewrite E1. rewrite nodes_some by done. cbn [map tail] in E2. rewrite E2. done.
        -- eapply changed_trans; [exact Hch1|exact Hch2|unfold count; lia..].
        -- change (rev (Nodes blks :: ?l)) with (rev l ++ [Nodes blks]). rewrite concat_app. cbn [concat]. rewrite app_nil_r.
           apply written_app; [cbn [tail] in Hw2; exact Hw2|].
           assert (Z.of_nat (length (concat (rev (Nodes (Nodes blks) :: tail L)))) = count (Nodes (Nodes blks)) + up) as Elen
             by (rewrite concat_rev_length; exact Es).
           rewrite Elen. unfold count.
           eapply changed_written; [exact Hch2| |lia|lia|right; unfold up; lia].
           eapply changed_written; [exact Hch1|exact Hw|lia|lia|right; lia].
Qed.

(** ** Clearing the hash file *)

(** The device has [n] blocks or may grow. *)
Definition fits (d : blockdev_t) (n : Z) : Prop := create d = true \/ has_blocks d n.

Lemma fill_zeros_spec n i d :
  can_write d = true -> win blksz d -> 0 <= i -> has_blocks d i -> fits d (i + Z.of_nat n) -> offset d + (i + Z.of_nat n) * blksz < 2 ^ 63 ->
  exists d', fill_zeros blksz n i (mk_devs dd d) = Done (inr tt, mk_devs dd d') /\ win blksz d' /\ same_shape d d' /\
    has_blocks d' (i + Z.of_nat n).
Proof.
  revert i d. induction n as [|n IH]; intros i d Hcw Hw Hi Hb Hf Hm.
  - exists d. rewrite Z.add_0_r. split_and!; [done|done|by split_and!|done].
  - pose proof Hw as [Hbs Ho Hfl Hgr].
    destruct (put_win blksz d i (zeros blksz) Hcw Hw ltac:(lia) Hi) as (d1 & E & Hw1 & Hs1 & Hb1 & _ & _).
    { unfold zeros. rewrite length_replicate. lia. }
    { nia. }
    { destruct Hf as [Hc|Hh]; [by right|left]. unfold has_blocks in *. rewrite Hbs in *. nia. }
    destruct (IH (i + 1) d1) as (d' & E' & Hw' & Hs' & Hb').
    + destruct Hs1 as (_ & _ & -> & _). done.
    + done.
    + lia.
    + done.
    + destruct Hs1 as (O1 & C1 & _ & S1), Hf as [Hc|Hh]; [left; congruence|right]. unfold has_blocks in *.
      rewrite O1, (w_block _ _ Hw1). rewrite Hbs in Hh. lia.
    + destruct Hs1 as (-> & _). lia.
    + exists d'. split_and!; [|done| |].
      * cbn [fill_zeros]. unfold mbind at 1, v_bind at 1, write_hash, check_hash, mbind, v_bind. cbn [hash_dev data_dev].
        rewrite E. exact E'.
      * by eapply same_shape_trans.
      * replace (i + Z.of_nat (S n)) with (i + 1 + Z.of_nat n) by lia. done.
Qed.

(** The blocks of a hash file for [M] nodes and superblock. *)
Definition hash_blocks : Z := Z.max M (MIN_HASH_FILE_SIZE / blksz).

Lemma clear_hash_file_spec d :
  can_write d = true -> win blksz d -> 0 <= M -> fits d hash_blocks -> offset d + hash_blocks * blksz < 2 ^ 63 ->
  exists d', clear_hash_file blksz M (mk_devs dd d) = Done (inr tt, mk_devs dd d') /\ room d' /\ same_shape d d'.
Proof.
  intros Hcw Hw HM Hf Hm. pose proof Hw as [Hbs Ho Hfl Hgr]. unfold hash_blocks in *.
  assert (forall n, n <= Z.max M (MIN_HASH_FILE_SIZE / blksz) -> fits d n) as Hfits.
  { intros n Hn. destruct Hf as [Hc|Hh]; [by left|right]. unfold has_blocks in *. rewrite Hbs in *. nia. }
  destruct (fill_zeros_spec (Z.to_nat M) 0 d Hcw Hw ltac:(lia)) as (d1 & E1 & Hw1 & Hs1 & Hb1).
  { unfold has_blocks. lia. }
  { apply Hfits. lia. }
  { nia. }
  rewrite Z2Nat.id, Z.add_0_l in Hb1 by done. unfold clear_hash_file, mbind, v_bind. rewrite E1. cbv zeta.
  assert (can_write d1 = true) as Hcw1 by (destruct Hs1 as (_ & _ & -> & _); done).
  destruct (Z.ltb_spec (M * blksz) MIN_HASH_FILE_SIZE) as [Hlt|Hge]; [|by exists d1].
  assert ((MIN_HASH_FILE_SIZE - M * blksz) / blksz = MIN_HASH_FILE_SIZE / blksz - M) as Ediv.
  { replace (MIN_HASH_FILE_SIZE - M * blksz) with (MIN_HASH_FILE_SIZE + - M * blksz) by lia.
    rewrite Z.div_add by lia. lia. }
  assert (M <= MIN_HASH_FILE_SIZE / blksz) by (apply Z.div_le_lower_bound; lia).
  pose proof Hs1 as (O1 & C1 & W1 & S1).
  destruct (fill_zeros_spec (Z.to_nat ((MIN_HASH_FILE_SIZE - M * blksz) / blksz)) M d1 Hcw1 Hw1 HM Hb1) as (d' & E' & Hw' & Hs' & Hb').
  { rewrite Ediv, Z2Nat.id by lia. destruct Hf as [Hc|Hh]; [left; congruence|right].
    unfold has_blocks in *. rewrite O1, (w_block _ _ Hw1). rewrite Hbs in Hh. nia. }
  { rewrite O1, Ediv, Z2Nat.id by lia. nia. }
  exists d'. split_and!; [exact E'| |by eapply same_shape_trans]. destruct Hs' as (O2 & C2 & W2 & S2).
  split_and!; [done| |congruence]. unfold has_blocks in *. rewrite O2, (w_block _ _ Hw') in *. rewrite (w_block _ _ Hw1) in Hb1. lia.
Qed.
End Writing.

(** ** Formatting *)

Lemma bind_ok {A B} (m : V A) (k : A -> V B) s a s' : m s = Done (inr a, s') -> (m ≫= k) s = k a s'.
Proof. intros E. unfold mbind, v_bind. by rewrite E. Qed.

Definition with_block_size (bs : Z) (d : blockdev_t) : blockdev_t :=
  mk_bd (file d) (full_size d) (size d) (offset d) bs (create d) (can_write d).

(** What the parameters of a call stand for. *)
Definition chosen_hash (alg : option text) : vic_hash_type_t :=
  match alg with Some a => vic_hash_type a | None => VIC_HASH_SHA256 end.
Definition chosen_salt (alg : option text) (salt : option (list Z)) (rsalt : list Z) : list Z :=
  match salt with Some l => l | None => take (digest_size (chosen_hash alg)) rsalt end.
Definition chosen_size (bs : Z) : Z := if bs =? 0 then DEFAULT_BLKSZ else bs.

(** The blocks of the data. *)
Definition blocks_of (bs : Z) (d : blockdev_t) : list (list Z) :=
  map (fun i => read_file (file d) (Z.of_nat i * bs + offset d) bs) (seq 0 (Z.to_nat ((size d - offset d) / bs))).

Lemma hash_choice a :
  vic_hash_init (vic_hash_type a) = true ->
  vic_hash_type a ≠ VIC_HASH_NONE /\ vic_hash_size a = Some (Z.of_nat (digest_size (vic_hash_type a))).
Proof. unfold vic_hash_type, vic_hash_size. repeat case_decide; simpl; try done. Qed.

(** A device whose window lies in its file and consists of blocks of [bs] bytes. *)
Record blocks_ok (bs : Z) (d : blockdev_t) : Prop := {
  bk_offset : 0 <= offset d <= size d; bk_file : size d <= Z.of_nat (length (file d)) < 2 ^ 63;
  bk_grid : offset d mod bs = 0 /\ size d mod bs = 0 }.

Lemma set_block_size_ok bs d :
  _is_power_of_two bs = true -> 0 < bs -> blocks_ok bs d ->
  vic_blockdev_set_block_size d bs = (VIC_OK, with_block_size bs d) /\ win bs (with_block_size bs d).
Proof.
  intros Hp Hpos [Ho Hf Hs]. split; [|by split].
  unfold vic_blockdev_set_block_size, _check_block_multiple. rewrite Hp, (proj2 (Z.eqb_neq bs 0)) by lia. cbn [orb negb].
  by rewrite (proj2 Hs).
Qed.

Lemma blocks_of_length bs d : length (blocks_of bs d) = Z.to_nat ((size d - offset d) / bs).
Proof. unfold blocks_of. by rewrite length_map, length_seq. Qed.

Lemma blocks_of_hold bs d : 0 < bs -> blocks_ok bs d -> holds_data (with_block_size bs d) 0 (blocks_of bs d).
Proof.
  intros Hpos Hb j x Hj. unfold blocks_of in Hj. rewrite list_lookup_fmap in Hj. apply fmap_Some in Hj as (i & Hi & ->).
  apply lookup_seq in Hi as [-> Hlt]. destruct Hb as [Ho Hf Hs].
  destruct (get_win bs (with_block_size bs d) (Z.of_nat j)) as [E _]; [by split|done|lia| |exact E].
  unfold has_blocks. cbn [offset block_size size with_block_size].
  pose proof (Z.mul_div_le (size d - offset d) bs Hpos). nia.
Qed.

Lemma blocks_of_sizes bs d : 0 < bs -> blocks_ok bs d -> Forall (fun b => length b = Z.to_nat bs) (blocks_of bs d).
Proof.
  intros Hpos Hb. apply Forall_forall. intros x Hx. apply list_elem_of_lookup_1 in Hx as (j & Hj).
  pose proof (lookup_lt_Some _ _ _ Hj) as Hlt. rewrite blocks_of_length in Hlt.
  pose proof (blocks_of_hold bs d Hpos Hb j x Hj) as E. destruct Hb as [Ho Hf Hs].
  destruct (get_win bs (with_block_size bs d) (0 + Z.of_nat j)) as [E' El]; [by split|done|lia| |].
  - unfold has_blocks. cbn [offset block_size size with_block_size].
    pose proof (Z.mul_div_le (size d - offset d) bs Hpos). nia.
  - rewrite E in E'. injection E' as Ex. cbn [file offset with_block_size] in Ex, El. rewrite Ex. lia.
Qed.

Lemma str2bin_length s b : vic_uuid_str2bin s = Done (Some b) -> (length b <= 16)%nat.
Proof.
  unfold vic_uuid_str2bin. destruct (vic_uuid_valid s); [|done]. generalize (length s) as fuel. intros fuel.
  assert (length (@nil Z) <= 16)%nat as Hl by (simpl; lia). revert Hl. generalize (@nil Z) as dest. revert s.
  induction fuel as [|fuel IH]; intros s dest Hl E; destruct s as [|c s]; cbn [str2bin_loop] in E; [by injection E as <-|done|by injection E as <-|].
  destruct (scan_hex 2 _) as [[x r]|]; [|done]. repeat case_decide; try done.
  apply IH in E; [done|]. rewrite length_app. simpl. lia.
Qed.

(** ** The superblock *)

Record sb_wf (sb : vic_verity_sb_t) : Prop := {
  sw_signature : length (signature sb) = 8%nat; sw_version : 0 <= sb_version sb < 2 ^ 32;
  sw_type : 0 <= hash_type sb < 2 ^ 32; sw_uuid : length (sb_uuid sb) = 16%nat;
  sw_algorithm : length (algorithm sb) = 32%nat; sw_data : 0 <= data_block_size sb < 2 ^ 32;
  sw_hash : 0 <= hash_block_size sb < 2 ^ 32; sw_blocks : 0 <= data_blocks sb < 2 ^ 64;
  sw_salt_size : 0 <= salt_size sb < 2 ^ 16; sw_salt : length (sb_salt sb) = 256%nat }.

Lemma sb_image_length sb : sb_wf sb -> length (sb_image sb) = 512%nat.
Proof.
  intros []. unfold sb_image, sb_fields. cbn [concat]. rewrite !length_app, !length_replicate, !le_bytes_length.
  change (@length Z []) with 0%nat. lia.
Qed.

(** The structure that a block holds is the one it was made of. *)
Lemma sb_of_image sb rest : sb_wf sb -> sb_of (take 512 (sb_image sb ++ rest)) = sb.
Proof.
  intros Hw. pose proof Hw as []. rewrite take_app_le, take_ge by (by rewrite sb_image_length).
  unfold sb_of, sb_image.
  rewrite (field_sub (sb_fields sb) 0 (signature sb)) by (done || (unfold sb_fields; field_off)).
  rewrite (field_sub (sb_fields sb) 1 (le_bytes 4 (sb_version sb))) by (done || (unfold sb_fields; field_off) || (by rewrite le_bytes_length)).
  rewrite (field_sub (sb_fields sb) 2 (le_bytes 4 (hash_type sb))) by (done || (unfold sb_fields; field_off) || (by rewrite le_bytes_length)).
  rewrite (field_sub (sb_fields sb) 3 (sb_uuid sb)) by (done || (unfold sb_fields; field_off)).
  rewrite (field_sub (sb_fields sb) 4 (algorithm sb)) by (done || (unfold sb_fields; field_off)).
  rewrite (field_sub (sb_fields sb) 5 (le_bytes 4 (data_block_size sb))) by (done || (unfold sb_fields; field_off) || (by rewrite le_bytes_length)).
  rewrite (field_sub (sb_fields sb) 6 (le_bytes 4 (hash_block_size sb))) by (done || (unfold sb_fields; field_off) || (by rewrite le_bytes_length)).
  rewrite (field_sub (sb_fields sb) 7 (le_bytes 8 (data_blocks sb))) by (done || (unfold sb_fields; field_off) || (by rewrite le_bytes_length)).
  rewrite (field_sub (sb_fields sb) 8 (le_bytes 2 (salt_size sb))) by (done || (unfold sb_fields; field_off) || (by rewrite le_bytes_length)).
  rewrite (field_sub (sb_fields sb) 10 (sb_salt sb)) by (done || (unfold sb_fields; field_off)).
  rewrite !le_value_bytes by done. by destruct sb.
Qed.

Lemma hash_name_length t : (length (vic_hash_name t) <= 31)%nat.
Proof. destruct t; vm_compute; lia. Qed.

Section Formatting.
Context `{Algorithms}.
Variables (alg uu : option text) (salt : option (list Z)) (need_superblock : bool) (dbs hbs : Z).
Variables (rsalt ruuid uninit ub : list Z) (dd hd : blockdev_t).

Let htype := chosen_hash alg.
Let hsize := Z.of_nat (digest_size htype).
Let slt := chosen_salt alg salt rsalt.
Let blksz := chosen_size dbs.
Let D := block_digest htype hsize slt.
Let dpb := Z.to_nat (blksz / hsize).
Let blks := blocks_of blksz dd.
Let sb : Z := if need_superblock then 1 else 0.

(** The hash tree of the data: its levels, the leaves first, and its root hash. *)
Definition tree_levels : list (list (list Z)) := levels_over D (Z.to_nat blksz) dpb 31 blks.
Definition tree_root : list Z := D (top_node D (Z.to_nat blksz) dpb 31 blks).
Definition tree_nodes : Z := sum_list (map count tree_levels).

(** The superblock that describes it. *)
Definition tree_sb : vic_verity_sb_t :=
  mk_sb SIGNATURE 1 1 (pad 16 ub) (pad 32 (vic_hash_name htype)) blksz blksz (Z.of_nat (length blks)) (Z.of_nat (length slt)) (pad 256 slt).

(** The calls that are accepted. *)
Record accepted : Prop := {
  ac_hash : vic_hash_init htype = true;
  ac_salt : match salt with Some l => l ≠ [] /\ Z.of_nat (length l) <= VIC_VERITY_MAX_SALT_SIZE | None => True end;
  ac_uuid : vic_uuid_str2bin (default (vic_uuid_generate ruuid) uu) = Done (Some ub);
  ac_sizes : chosen_size hbs = blksz;
  ac_blksz : 512 <= blksz <= 4096;
  ac_power : _is_power_of_two blksz = true;
  ac_data : blocks_ok blksz dd;
  ac_two : 2 * blksz <= size dd - offset dd;
  ac_hash_dev : blocks_ok blksz hd;
  ac_mode : can_write hd = true;
  ac_fits : fits (with_block_size blksz hd) (hash_blocks blksz (tree_nodes + sb));
  ac_room : offset hd + hash_blocks blksz (tree_nodes + sb) * blksz < 2 ^ 63 }.

Hypothesis Hok : accepted.

Let dd' := with_block_size blksz dd.

Lemma accepted_sizes :
  (1 < dpb)%nat /\ (dpb * digest_size htype <= Z.to_nat blksz)%nat /\ Z.of_nat dpb = blksz / hsize /\
  0 < Z.of_nat dpb < 2 ^ 32 /\ 8 <= Z.of_nat dpb /\ Z.of_nat (length blks) = (size dd - offset dd) / blksz /\
  2 <= Z.of_nat (length blks) < 2 ^ 63 /\ blks ≠ [].
Proof.
  destruct Hok. destruct (sizes htype hsize blksz slt ac_hash0 eq_refl ac_blksz0) as (H1 & H2 & H3 & H4 & H5).
  assert (Z.of_nat (length blks) = (size dd - offset dd) / blksz) as El.
  { unfold blks. rewrite blocks_of_length, Z2Nat.id; [done|]. apply Z.div_pos; [|lia]. destruct ac_data0. lia. }
  assert (2 <= (size dd - offset dd) / blksz) by (apply Z.div_le_lower_bound; lia).
  assert ((size dd - offset dd) / blksz < 2 ^ 63) by (apply Z.div_lt_upper_bound; destruct ac_data0; nia).
  fold dpb in H2, H3, H4. assert (Z.of_nat dpb < 2 ^ 32). { rewrite H4. apply Z.div_lt_upper_bound; lia. }
  split_and!; try lia; try done. intros E. rewrite E in El. simpl in El. lia.
Qed.

Lemma tree_shape :
  interior_levels 31 (blksz / hsize) (vic_round_up (Z.of_nat (length blks)) (blksz / hsize) / (blksz / hsize)) =
    Done (map count (tail tree_levels)) /\
  vic_round_up (Z.of_nat (length blks)) (blksz / hsize) / (blksz / hsize) = count (nodes_over D (Z.to_nat blksz) dpb blks) /\
  length (top_level D (Z.to_nat blksz) dpb 31 blks) = 1%nat.
Proof.
  destruct accepted_sizes as (H1 & H2 & H3 & H4 & H5 & H6 & H7 & H8).
  destruct (levels_sizes D (digest_size htype) (Z.to_nat blksz) dpb H1 H2 31 blks) as [E1 E2]; [done|lia|lia| |].
  { assert (8 ^ 32 <= Z.of_nat dpb ^ 32) as Hp by (apply Z.pow_le_mono_l; lia).
    change (Z.of_nat 32) with 32. assert (2 ^ 63 <= 8 ^ 32) by (vm_compute; discriminate). lia. }
  rewrite <- H3, round_up_div by lia. unfold count.
  rewrite <- (nodes_count D (digest_size htype) (Z.to_nat blksz) dpb H1 H2 blks).
  split_and!; [exact E1|done|done].
Qed.

Lemma top_single : default [] (list.last (top_level D (Z.to_nat blksz) dpb 31 blks)) = top_node D (Z.to_nat blksz) dpb 31 blks.
Proof. destruct tree_shape as (_ & _ & E). unfold top_node. by destruct (top_level _ _ _ _ _) as [|x [|]]. Qed.

(** The hash file is cleared, the leaves and the levels above are written. *)
Lemma tree_written last :
  exists d1 d2 d3,
    clear_hash_file blksz (tree_nodes + sb) (mk_devs dd' (with_block_size blksz hd)) = Done (inr tt, mk_devs dd' d1) /\
    write_leaves htype hsize blksz slt (Z.of_nat (length blks)) ((sum_list (map count (tail tree_levels)) + sb) * blksz) last
      (mk_devs dd' d1) = Done (inr (default [] (list.last (nodes_over D (Z.to_nat blksz) dpb blks))), mk_devs dd' d2) /\
    write_interior htype hsize blksz slt (map count tree_levels) (sb * blksz)
      (default [] (list.last (nodes_over D (Z.to_nat blksz) dpb blks))) (mk_devs dd' d2) =
      Done (inr (top_node D (Z.to_nat blksz) dpb 31 blks), mk_devs dd' d3) /\
    room blksz (tree_nodes + sb) d3 /\ same_shape hd d3 /\ written d3 sb (concat (rev tree_levels)).
Proof.
  destruct accepted_sizes as (H1 & H2 & H3 & H4 & H5 & H6 & H7 & H8). pose proof Hok as Hok'. destruct Hok'.
  assert (0 <= sb) as Hsb by (unfold sb; case need_superblock; lia).
  pose proof (sum_count_nonneg (tail tree_levels)) as Hn.
  assert (tree_nodes = count (nodes_over D (Z.to_nat blksz) dpb blks) + sum_list (map count (tail tree_levels))) as Et by done.
  assert (0 <= count (nodes_over D (Z.to_nat blksz) dpb blks)) as Hc by (unfold count; lia).
  destruct (set_block_size_ok blksz hd ac_power0 ltac:(lia) ac_hash_dev0) as [_ Hw].
  destruct (clear_hash_file_spec htype hsize blksz ac_blksz0 (tree_nodes + sb) dd' (with_block_size blksz hd) ac_mode0 Hw) as (d1 & E1 & R1 & S1);
    [lia|done|done|].
  destruct (write_leaves_spec htype hsize blksz slt ac_hash0 eq_refl ac_blksz0 (tree_nodes + sb) dd' blks
    (sum_list (map count (tail tree_levels)) + sb) last d1) as (d2 & E2 & C2 & W2); try done.
  { apply blocks_of_hold; [lia|done]. }
  { lia. }
  { fold D dpb. fold (count (nodes_over D (Z.to_nat blksz) dpb blks)). lia. }
  destruct (write_interior_spec htype hsize blksz slt ac_hash0 eq_refl ac_blksz0 (tree_nodes + sb) dd' 31 blks sb d2)
    as (d3 & E3 & C3 & W3); try done.
  { rewrite Z.add_comm. exact W2. }
  { apply C2. }
  { fold D dpb tree_levels. fold tree_nodes. lia. }
  exists d1, d2, d3. split_and!; [exact E1|exact E2|rewrite <- top_single; exact E3|apply C3| |exact W3].
  destruct C2 as (_ & S2 & _), C3 as (_ & S3 & _).
  exact (same_shape_trans _ _ _ S1 (same_shape_trans _ _ _ S2 S3)).
Qed.

Lemma slt_length : (length slt <= 256)%nat.
Proof.
  pose proof (ac_salt Hok) as Hs. revert Hs. unfold slt, chosen_salt, VIC_VERITY_MAX_SALT_SIZE. case salt; [intros l [_ Hl]; lia|].
  intros _. rewrite length_take. case (chosen_hash alg); cbn [digest_size]; lia.
Qed.

Lemma tree_sb_wf : sb_wf tree_sb.
Proof.
  pose proof slt_length. destruct accepted_sizes as (_ & _ & _ & _ & _ & _ & Hb & _). pose proof (ac_blksz Hok).
  assert (length ub <= 16)%nat by (pose proof (ac_uuid Hok) as E; by eapply str2bin_length). pose proof (hash_name_length htype).
  split; unfold tree_sb;
    cbn [signature sb_version hash_type sb_uuid algorithm data_block_size hash_block_size data_blocks salt_size sb_salt];
    try done; try lia; unfold pad; rewrite length_app, length_replicate; lia.
Qed.

Lemma format_done room :
  hsize <= room ->
  exists hd', vic_verity_format alg uu salt need_superblock dbs hbs room rsalt ruuid uninit (mk_devs dd hd) =
      Done (inr tree_root, mk_devs dd' hd') /\
    win blksz hd' /\ same_shape hd hd' /\ written hd' sb (concat (rev tree_levels)) /\
    (need_superblock = true ->
     vic_blockdev_get hd' 0 1 = (VIC_OK, sb_image tree_sb ++ replicate (Z.to_nat blksz - 512) 0)).
Proof.
  intros Hroom. destruct accepted_sizes as (H1 & H2 & H3 & H4 & H5 & H6 & H7 & H8). pose proof Hok as Hok'. destruct Hok'.
  destruct tree_shape as (T1 & T2 & T3). destruct (tree_written uninit) as (d1 & d2 & d3 & E1 & E2 & E3 & (Hw3 & Hb3 & Hcw3) & Hs3 & W3).
  destruct (set_block_size_ok blksz dd ac_power0 ltac:(lia) ac_data0) as [Sd Hwd].
  destruct (set_block_size_ok blksz hd ac_power0 ltac:(lia) ac_hash_dev0) as [Sh Hwh].
  assert (vic_blockdev_get_size dd' = size dd - offset dd) as Esize.
  { unfold vic_blockdev_get_size, dd'. cbn [size offset with_block_size]. apply u64_small. destruct ac_data0. lia. }
  assert ((size dd - offset dd) mod blksz = 0) as Emod.
  { destruct (bk_grid _ _ ac_data0) as [G1 G2]. rewrite Zminus_mod, G1, G2. by rewrite Z.sub_0_r, Zmod_0_l. }
  assert (vic_blockdev_get_num_blocks dd' = Z.of_nat (length blks)) as Enum.
  { unfold vic_blockdev_get_num_blocks. fold (vic_blockdev_get_size dd'). by rewrite Esize, H6. }
  unfold vic_verity_format. fold (chosen_size dbs) (chosen_size hbs). fold blksz.
  rewrite (bind_ok _ _ _ tt (mk_devs dd hd)).
  2: { generalize ac_salt0. case salt; [|done]. intros l [Hl1 Hl2].
       by rewrite bool_decide_false, (proj2 (Z.ltb_ge _ _)) by done. }
  rewrite (bind_ok _ _ _ (htype, hsize) (mk_devs dd hd)).
  2: { generalize ac_hash0. unfold hsize, htype, chosen_hash. case alg; [|done]. intros a Ha.
       destruct (hash_choice a Ha) as [Hne ->]. by rewrite decide_False by done. }
  cbv beta iota.
  replace (match salt with Some l => l | None => take (Z.to_nat hsize) rsalt end) with slt
    by (unfold slt, chosen_salt, hsize, htype; by rewrite Nat2Z.id).
  rewrite (bind_ok _ _ _ (default (vic_uuid_generate ruuid) uu) (mk_devs dd hd)).
  2: { generalize ac_uuid0. case uu; [|done]. intros u. simpl. unfold vic_uuid_str2bin. by destruct (vic_uuid_valid u). }
  rewrite ac_sizes0, Z.eqb_refl. cbn [negb]. unfold MIN_BLKSZ, MAX_BLKSZ.
  rewrite (proj2 (Z.ltb_ge blksz 512)), (proj2 (Z.ltb_ge 4096 blksz)) by lia. cbn [orb].
  rewrite (bind_ok _ _ _ dd' (mk_devs dd' hd)) by (unfold check_data; cbn [data_dev hash_dev]; by rewrite Sd).
  rewrite (bind_ok _ _ _ (with_block_size blksz hd) (mk_devs dd' (with_block_size blksz hd)))
    by (unfold check_hash; cbn [data_dev hash_dev]; by rewrite Sh).
  rewrite (bind_ok _ _ _ (size dd - offset dd) (mk_devs dd' (with_block_size blksz hd))) by (cbn [data_dev]; by rewrite Esize).
  rewrite Emod. cbn [truthy]. change (truthy 0) with false. cbv iota.
  rewrite (u64_small (blksz * 2)), (proj2 (Z.ltb_ge _ _)) by lia. cbv zeta. rewrite <- H6, T2.
  rewrite (bind_ok _ _ _ (map count (tail tree_levels)) (mk_devs dd' (with_block_size blksz hd)))
    by (rewrite T2 in T1; unfold lift; by rewrite T1).
  assert (count (nodes_over D (Z.to_nat blksz) dpb blks) :: map count (tail tree_levels) = map count tree_levels) as EL by done.
  rewrite EL. fold tree_nodes. fold sb.
  rewrite (bind_ok _ _ _ tt (mk_devs dd' d1)) by exact E1.
  rewrite (bind_ok _ _ _ (Z.of_nat (length blks)) (mk_devs dd' d1)) by (cbn [data_dev]; by rewrite Enum).
  replace ((tree_nodes - count (nodes_over D (Z.to_nat blksz) dpb blks)) * blksz + sb * blksz) with
    ((sum_list (map count (tail tree_levels)) + sb) * blksz).
  2: { unfold tree_nodes. rewrite <- EL. change (sum_list (?a :: ?l)) with (a + sum_list l). lia. }
  rewrite (bind_ok _ _ _ _ _ E2), (bind_ok _ _ _ _ _ E3).
  rewrite (bind_ok _ _ _ tree_root (mk_devs dd' d3)) by (apply hash2_total; done).
  rewrite (proj2 (Z.ltb_ge _ _)) by lia.
  rewrite (bind_ok _ _ _ (Some ub) (mk_devs dd' d3)) by (unfold lift; by rewrite ac_uuid0).
  fold tree_sb.
  destruct (Bool.bool_dec need_superblock true) as [En|En].
  - assert (sb = 1) as Esb by (unfold sb; by rewrite En).
    assert (copy_into (zeros blksz) 0 (sb_image tree_sb) = sb_image tree_sb ++ replicate (Z.to_nat blksz - 512) 0) as Ecopy.
    { unfold copy_into, zeros. change (Z.to_nat 0) with O. rewrite (sb_image_length _ tree_sb_wf), drop_replicate. done. }
    destruct (write_room htype hsize blksz ac_blksz0 (tree_nodes + sb) dd' d3 0 (copy_into (zeros blksz) 0 (sb_image tree_sb)))
      as (d4 & E4 & C4 & G4).
    { by split_and!. }
    { pose proof (sum_count_nonneg tree_levels). fold tree_nodes in H0. lia. }
    { rewrite Ecopy, length_app, (sb_image_length _ tree_sb_wf), length_replicate. lia. }
    exists d4. rewrite En. rewrite (bind_ok _ _ _ _ _ E4). destruct C4 as ((Hw4 & Hb4 & Hcw4) & Hs4 & F4). split_and!; [done|done| | |].
    + by eapply same_shape_trans.
    + eapply (changed_written htype hsize blksz ac_blksz0 (tree_nodes + sb) d3 d4 0 1); [by split_and!|done|lia| |lia].
      rewrite concat_rev_length. fold tree_nodes. lia.
    + intros _. rewrite G4. by rewrite Ecopy.
  - exists d3. apply Bool.not_true_is_false in En. rewrite En. split_and!; done.
Qed.

(** ** Reading the tree back *)

Lemma top_first : concat (rev tree_levels) !! 0%nat = Some (top_node D (Z.to_nat blksz) dpb 31 blks).
Proof.
  destruct tree_shape as (_ & _ & E). unfold top_node, top_level in *. fold tree_levels in E |- *.
  destruct (list.last tree_levels) as [l|] eqn:El; [|done]. apply last_Some in El as (L' & ->).
  rewrite rev_app_distr. cbn [rev app concat]. simpl in E |- *. by destruct l as [|x [|]].
Qed.

Lemma hash_name_ok :
  cstr (pad 32 (vic_hash_name htype)) = vic_hash_name htype /\ vic_hash_type (vic_hash_name htype) = htype /\
  vic_hash_size (vic_hash_name htype) = Some hsize /\ htype ≠ VIC_HASH_NONE.
Proof. generalize (ac_hash Hok). unfold hsize. case htype; try done; intros _; vm_compute; done. Qed.

Lemma read_superblock_ok hd' uninit' :
  win blksz hd' ->
  vic_blockdev_get hd' 0 1 = (VIC_OK, sb_image tree_sb ++ replicate (Z.to_nat blksz - 512) 0) ->
  vic_verity_read_superblock hd' uninit' = Done (inr tree_sb).
Proof.
  intros Hw E. unfold vic_verity_read_superblock. rewrite E, (w_block _ _ Hw). pose proof (ac_blksz Hok).
  unfold MAX_BLKSZ. rewrite (proj2 (Z.ltb_ge _ _)) by lia. cbv zeta.
  rewrite <- app_assoc, (sb_of_image tree_sb _ tree_sb_wf). by rewrite decide_True.
Qed.

Lemma salt_ok s : salt_of tree_sb s = Done (inr slt, s).
Proof.
  pose proof slt_length. unfold salt_of, tree_sb, VIC_VERITY_MAX_SALT_SIZE. cbn [salt_size sb_salt].
  rewrite (proj2 (Z.ltb_ge _ _)) by lia. rewrite Nat2Z.id. unfold pad. rewrite take_app_le, take_ge by lia. done.
Qed.

Lemma dump_open_ok hd' uninit' root :
  win blksz hd' -> written hd' 1 (concat (rev tree_levels)) -> root ≠ [] ->
  vic_blockdev_get hd' 0 1 = (VIC_OK, sb_image tree_sb ++ replicate (Z.to_nat blksz - 512) 0) ->
  vic_verity_dump uninit' (mk_devs dd' hd') = Done (inr (tree_sb, tree_root), mk_devs dd' hd') /\
  vic_verity_open root uninit' (mk_devs dd' hd') =
    Done (inr (mk_target blksz blksz (Z.of_nat (length blks)) 1 (u32 (offset hd' / blksz + 1)) (vic_hash_name htype) root slt),
          mk_devs dd' hd').
Proof.
  intros Hw Hwr Hroot E. pose proof (read_superblock_ok hd' uninit' Hw E) as Er. destruct hash_name_ok as (N1 & N2 & N3 & N4).
  destruct accepted_sizes as (H1 & H2 & H3 & H4 & H5 & H6 & H7 & H8). pose proof Hok as Hok'. destruct Hok'.
  assert (vic_blockdev_get hd' 1 1 = (VIC_OK, top_node D (Z.to_nat blksz) dpb 31 blks)) as Eg by (exact (Hwr 0%nat _ top_first)).
  assert (length (top_node D (Z.to_nat blksz) dpb 31 blks) = Z.to_nat blksz) as Etl.
  { pose proof (vic_blockdev_get_length hd' 1 _ Eg) as El. rewrite (w_block _ _ Hw), u64_small in El by lia. lia. }
  split.
  - unfold vic_verity_dump. rewrite (bind_ok _ _ _ tree_sb (mk_devs dd' hd')) by (cbn [hash_dev]; by rewrite Er).
    change (hash_block_size tree_sb) with blksz. unfold MAX_BLKSZ. rewrite (proj2 (Z.ltb_ge _ _)) by lia.
    rewrite (bind_ok _ _ _ blksz (mk_devs dd' hd')) by (cbn [hash_dev]; by rewrite (w_block _ _ Hw)).
    rewrite Z.eqb_refl. cbn [negb]. rewrite (bind_ok _ _ _ tt (mk_devs dd' hd')) by done.
    rewrite (bind_ok _ _ _ _ _ (read_hash_ok dd' hd' 1 _ Eg)). cbv zeta.
    change (algorithm tree_sb) with (pad 32 (vic_hash_name htype)). rewrite N1, N2, decide_False by done.
    rewrite (bind_ok _ _ _ _ _ (salt_ok _)), N3. rewrite take_ge by lia.
    rewrite (bind_ok _ _ _ tree_root (mk_devs dd' hd')) by (apply hash2_total; done). done.
  - unfold vic_verity_open. rewrite bool_decide_false by done.
    rewrite (bind_ok _ _ _ (size dd - offset dd) (mk_devs dd' hd')).
    2: { cbn [data_dev]. unfold vic_blockdev_get_size, dd'. cbn [size offset with_block_size]. rewrite u64_small; [done|].
         destruct ac_data0. lia. }
    rewrite (bind_ok _ _ _ tree_sb (mk_devs dd' hd')) by (cbn [hash_dev]; by rewrite Er).
    change (data_block_size tree_sb) with blksz. change (hash_block_size tree_sb) with blksz.
    rewrite (bind_ok _ _ _ dd' (mk_devs dd' hd')).
    2: { unfold check_data. cbn [data_dev hash_dev].
         destruct (set_block_size_ok blksz dd' ac_power0 ltac:(lia)) as [-> _]; [|done]. by destruct ac_data0. }
    rewrite (bind_ok _ _ _ hd' (mk_devs dd' hd')).
    2: { unfold check_hash. cbn [data_dev hash_dev]. destruct Hw as [Hb Ho Hf Hg].
         destruct (set_block_size_ok blksz hd' ac_power0 ltac:(lia)) as [-> _]; [by split|].
         assert (with_block_size blksz hd' = hd') as -> by (rewrite <- Hb; by destruct hd'). done. }
    rewrite (bind_ok _ _ _ (offset hd') (mk_devs dd' hd')) by done.
    rewrite (bind_ok _ _ _ _ _ (salt_ok _)). rewrite <- H6.
    change (algorithm tree_sb) with (pad 32 (vic_hash_name htype)). by rewrite N1.
Qed.
End Formatting.

(** C20. Formatting writes the hash tree of the data: the call succeeds, returns the
    digest of the top node as root hash, and the hash device holds the
    superblock, if one is wanted, followed by all levels of the tree from the top
    node down to the leaves. *)
Theorem verity_format_builds_tree `{Algorithms} alg uu salt need_superblock dbs hbs room rsalt ruuid uninit ub dd hd :
  accepted alg uu salt need_superblock dbs hbs rsalt ruuid ub dd hd ->
  Z.of_nat (digest_size (chosen_hash alg)) <= room ->
  exists hd', vic_verity_format alg uu salt need_superblock dbs hbs room rsalt ruuid uninit (mk_devs dd hd) =
      Done (inr (tree_root alg salt dbs rsalt dd), mk_devs (with_block_size (chosen_size dbs) dd) hd') /\
    written hd' (if need_superblock then 1 else 0) (concat (rev (tree_levels alg salt dbs rsalt dd))) /\
    (need_superblock = true ->
     vic_blockdev_get hd' 0 1 =
       (VIC_OK, sb_image (tree_sb alg salt dbs rsalt ub dd) ++ replicate (Z.to_nat (chosen_size dbs) - 512) 0)).
Proof.
  intros Hok Hroom.
  destruct (format_done alg uu salt need_superblock dbs hbs rsalt ruuid uninit ub dd hd Hok room Hroom) as (hd' & ? & _ & _ & ? & ?).
  by exists hd'.
Qed.

(** C25. The root hash binds the data: if two devices of the same number of blocks,
    formatted with the same hash, salt and block size, get the same root hash,
    then they hold the same blocks, or two different blocks with the same digest
    are known. *)
Theorem verity_root_binds_data `{Algorithms} alg uu salt sb1 sb2 dbs hbs room rsalt ruuid un1 un2 ub dd1 dd2 hd1 hd2 root s1 s2 :
  accepted alg uu salt sb1 dbs hbs rsalt ruuid ub dd1 hd1 -> accepted alg uu salt sb2 dbs hbs rsalt ruuid ub dd2 hd2 ->
  Z.of_nat (digest_size (chosen_hash alg)) <= room -> size dd1 - offset dd1 = size dd2 - offset dd2 ->
  vic_verity_format alg uu salt sb1 dbs hbs room rsalt ruuid un1 (mk_devs dd1 hd1) = Done (inr root, s1) ->
  vic_verity_format alg uu salt sb2 dbs hbs room rsalt ruuid un2 (mk_devs dd2 hd2) = Done (inr root, s2) ->
  blocks_of (chosen_size dbs) dd1 = blocks_of (chosen_size dbs) dd2 \/
  collision (block_digest (chosen_hash alg) (Z.of_nat (digest_size (chosen_hash alg))) (chosen_salt alg salt rsalt))
    (Z.to_nat (chosen_size dbs)).
Proof.
  intros A1 A2 Hroom Hsz E1 E2.
  destruct (format_done alg uu salt sb1 dbs hbs rsalt ruuid un1 ub dd1 hd1 A1 room Hroom) as (h1 & F1 & _).
  destruct (format_done alg uu salt sb2 dbs hbs rsalt ruuid un2 ub dd2 hd2 A2 room Hroom) as (h2 & F2 & _).
  rewrite F1 in E1. rewrite F2 in E2. injection E1 as R1 _. injection E2 as R2 _.
  destruct (accepted_sizes _ _ _ _ _ _ _ _ _ _ _ A1) as (H1 & H2 & _).
  destruct (tree_shape _ _ _ _ _ _ _ _ _ _ _ A1) as (_ & _ & H3).
  eapply (top_bind _ (digest_size (chosen_hash alg)) _ _ H1 H2).
  - apply (digest_length _ _ (chosen_size dbs)); [done|apply A1].
  - apply blocks_of_sizes; [pose proof (ac_blksz _ _ _ _ _ _ _ _ _ _ _ A1); lia|apply A1].
  - apply blocks_of_sizes; [pose proof (ac_blksz _ _ _ _ _ _ _ _ _ _ _ A2); lia|apply A2].
  - by rewrite !blocks_of_length, Hsz.
  - exact H3.
  - unfold tree_root in *. by rewrite R1.
Qed.

(** What was formatted with a superblock can be inspected and opened: dumping
    prints the superblock and the root hash that formatting returned, and opening
    asks the device mapper for the block size, the number of data blocks, the
    position of the tree, the hash and the salt that formatting used. *)
Theorem verity_dump_open `{Algorithms} alg uu salt dbs hbs room rsalt ruuid uninit un1 ub dd hd root s :
  accepted alg uu salt true dbs hbs rsalt ruuid ub dd hd -> Z.of_nat (digest_size (chosen_hash alg)) <= room ->
  vic_verity_format alg uu salt true dbs hbs room rsalt ruuid uninit (mk_devs dd hd) = Done (inr root, s) ->
  let bs := chosen_size dbs in
  vic_verity_dump un1 s = Done (inr (tree_sb alg salt dbs rsalt ub dd, root), s) /\
  vic_verity_open root un1 s =
    Done (inr (mk_target bs bs ((size dd - offset dd) / bs) 1 (u32 (offset hd / bs + 1)) (vic_hash_name (chosen_hash alg)) root
                 (chosen_salt alg salt rsalt)), s).
Proof.
  intros Hok Hroom E bs. subst bs.
  destruct (format_done alg uu salt true dbs hbs rsalt ruuid uninit ub dd hd Hok room Hroom) as (hd' & F & Hw & (O & _) & W & Hsb).
  rewrite F in E. injection E as <- <-.
  destruct (accepted_sizes _ _ _ _ _ _ _ _ _ _ _ Hok) as (_ & _ & _ & _ & _ & H6 & _).
  rewrite <- O, <- H6. apply (dump_open_ok _ _ _ _ _ _ _ _ _ _ _ Hok); [done|done| |by apply Hsb].
  intros E. apply (f_equal length) in E. revert E. unfold tree_root. rewrite (digest_length _ _ (chosen_size dbs)); [|done|apply Hok].
  pose proof (ac_hash _ _ _ _ _ _ _ _ _ _ _ Hok) as Hi. by destruct (chosen_hash alg).
Qed.

(** ** An example: 17 blocks of 512 bytes, two leaves and a top node *)

Definition sample_data : blockdev_t := mk_bd (replicate (Z.to_nat 8704) 5) 8704 8704 0 512 false false.
Definition sample_hash : blockdev_t := mk_bd [] 0 0 0 512 true true.
(** A device with other data, which the toy hash does not tell apart. *)
Definition other_data : blockdev_t := mk_bd ([4; 6] ++ replicate (Z.to_nat 8702) 5) 8704 8704 0 512 false false.
Definition sample_salt : list Z := [1; 2; 3].
Definition sample_uuid : list Z := replicate 16 3.

Lemma device_accepted bs : Z.of_nat (length bs) = 8704 ->
  accepted None None (Some sample_salt) true 512 512 [] sample_uuid sample_uuid (mk_bd bs 8704 8704 0 512 false false) sample_hash.
Proof.
  intros Hlen.
  assert (forall f c w n, Z.of_nat (length f) = n -> 0 <= n < 2 ^ 63 -> n mod 512 = 0 -> blocks_ok 512 (mk_bd f n n 0 512 c w)) as Hb.
  { intros f c w n Hf Hn Hm. by split; cbn [offset size file]; [lia|lia|]. }
  split.
  - reflexivity.
  - split; [done|vm_compute; discriminate].
  - vm_compute. reflexivity.
  - reflexivity.
  - split; vm_compute; discriminate.
  - reflexivity.
  - apply Hb; [exact Hlen|lia|reflexivity].
  - vm_compute. discriminate.
  - apply Hb; [reflexivity|lia|reflexivity].
  - reflexivity.
  - by left.
  - vm_compute. reflexivity.
Qed.
Lemma sample_accepted :
  accepted None None (Some sample_salt) true 512 512 [] sample_uuid sample_uuid sample_data sample_hash.
Proof. apply device_accepted. vm_compute. reflexivity. Qed.
Lemma other_accepted :
  accepted None None (Some sample_salt) true 512 512 [] sample_uuid sample_uuid other_data sample_hash.
Proof. apply device_accepted. vm_compute. reflexivity. Qed.

Lemma verity_format_builds_tree_witness :
  exists hd', vic_verity_format None None (Some sample_salt) true 512 512 32 [] sample_uuid [] (mk_devs sample_data sample_hash) =
      Done (inr (tree_root None (Some sample_salt) 512 [] sample_data),
            mk_devs (with_block_size (chosen_size 512) sample_data) hd') /\
    written hd' 1 (concat (rev (tree_levels None (Some sample_salt) 512 [] sample_data))) /\
    (true = true ->
     vic_blockdev_get hd' 0 1 =
       (VIC_OK, sb_image (tree_sb None (Some sample_salt) 512 [] sample_uuid sample_data) ++
                replicate (Z.to_nat (chosen_size 512) - 512) 0)).
Proof.
  apply (verity_format_builds_tree None None (Some sample_salt) true 512 512 32 [] sample_uuid [] sample_uuid sample_data sample_hash
    sample_accepted). vm_compute. discriminate.
Defined.

Lemma verity_root_binds_data_witness :
  exists root s s', vic_verity_format None None (Some sample_salt) true 512 512 32 [] sample_uuid [] (mk_devs sample_data sample_hash) =
      Done (inr root, s) /\
    vic_verity_format None None (Some sample_salt) true 512 512 32 [] sample_uuid [] (mk_devs other_data sample_hash) = Done (inr root, s') /\
    (blocks_of (chosen_size 512) sample_data = blocks_of (chosen_size 512) other_data \/
     collision (block_digest VIC_HASH_SHA256 32 sample_salt) 512).
Proof.
  assert (Z.of_nat (digest_size (chosen_hash None)) <= 32) as Hr by (vm_compute; discriminate).
  destruct (format_done None None (Some sample_salt) true 512 512 [] sample_uuid [] sample_uuid sample_data sample_hash
    sample_accepted 32 Hr) as (h1 & F1 & _).
  destruct (format_done None None (Some sample_salt) true 512 512 [] sample_uuid [] sample_uuid other_data sample_hash
    other_accepted 32 Hr) as (h2 & F2 & _).
  assert (tree_root None (Some sample_salt) 512 [] other_data = tree_root None (Some sample_salt) 512 [] sample_data) as E
    by (vm_compute; reflexivity).
  rewrite E in F2. eexists _, _, _. split; [exact F1|]. split; [exact F2|].
  exact (verity_root_binds_data None None (Some sample_salt) true true 512 512 32 [] sample_uuid [] [] sample_uuid sample_data
    other_data sample_hash sample_hash _ _ _ sample_accepted other_accepted Hr eq_refl F1 F2).
Defined.

Lemma verity_dump_open_witness :
  exists root s, vic_verity_format None None (Some sample_salt) true 512 512 32 [] sample_uuid [] (mk_devs sample_data sample_hash) =
      Done (inr root, s) /\
    vic_verity_dump [] s = Done (inr (tree_sb None (Some sample_salt) 512 [] sample_uuid sample_data, root), s) /\
    vic_verity_open root [] s = Done (inr (mk_target 512 512 17 1 1 (bytes "sha256") root sample_salt), s).
Proof.
  assert (Z.of_nat (digest_size (chosen_hash None)) <= 32) as Hr by (vm_compute; discriminate).
  destruct (format_done None None (Some sample_salt) true 512 512 [] sample_uuid [] sample_uuid sample_data sample_hash
    sample_accepted 32 Hr) as (hd' & F & _).
  eexists _, _. split; [exact F|].
  exact (verity_dump_open None None (Some sample_salt) 512 512 32 [] sample_uuid [] [] sample_uuid sample_data sample_hash _ _
    sample_accepted Hr F).
Defined.

(** The tree of the example has the expected shape, and the reference agrees with
    the code when both are evaluated. *)
Example sample_tree :
  map (fun l => length l) (tree_levels None (Some sample_salt) 512 [] sample_data) = [2; 1]%nat /\
  match vic_verity_format None None (Some sample_salt) false 512 512 32 [] sample_uuid [] (mk_devs sample_data sample_hash) with
  | Done (inr root, s) => root = tree_root None (Some sample_salt) 512 [] sample_data /\ size (hash_dev s) = 4096
  | _ => False
  end.
Proof. vm_compute. repeat split. Qed.
