(* ===== verification/Luks1Header.v ===== *)
(** * Luks1Header: the header of a LUKS1 volume
    (src/vicsetup/libvicsetup/luks1.c, luks1.h, lukscommon.h)

    The header as a record, its 592 bytes in memory, the change of byte order
    between memory and disk, and reading and writing it. *)

From S2P Require Import Prelude JsonText VicCrypto Blockdev.

Definition VIC_SECTOR_SIZE : Z := 512.
Definition LUKS_VERSION_1 : Z := 1.
Definition LUKS_MAGIC_1ST : list Z := [76; 85; 75; 83; 0xba; 0xbe].
Definition LUKS_NUM_KEYS : nat := 8.
Definition LUKS_KEY_DISABLED : Z := 0x0000dead.
Definition LUKS_KEY_ENABLED : Z := 0x00ac71f3.
Definition sizeof_hdr : Z := 592.

Record vic_luks_keyslot_t : Type := mk_slot {
  active : Z; iterations : Z; salt : list Z; key_material_offset : Z; stripes : Z }.

Record luks1_hdr_t : Type := mk_hdr {
  magic : list Z; version : Z; cipher_name : list Z; cipher_mode : list Z; hash_spec : list Z;
  payload_offset : Z; key_bytes : Z; mk_digest : list Z; mk_digest_salt : list Z; mk_digest_iter : Z;
  uuid : list Z; keyslots : list vic_luks_keyslot_t }.

(** ** Memory *)

(** The fields in the order of the structures, at the offsets that the source
    asserts. *)
Definition slot_fields (k : vic_luks_keyslot_t) : list (list Z) :=
  [le_bytes 4 (active k); le_bytes 4 (iterations k); salt k; le_bytes 4 (key_material_offset k); le_bytes 4 (stripes k)].
Definition slot_image (k : vic_luks_keyslot_t) : list Z := concat (slot_fields k).

Definition hdr_fields (h : luks1_hdr_t) : list (list Z) :=
  [magic h; le_bytes 2 (version h); cipher_name h; cipher_mode h; hash_spec h; le_bytes 4 (payload_offset h);
   le_bytes 4 (key_bytes h); mk_digest h; mk_digest_salt h; le_bytes 4 (mk_digest_iter h); uuid h;
   concat (map slot_image (keyslots h))].
Definition hdr_image (h : luks1_hdr_t) : list Z := concat (hdr_fields h).

Definition word_at (off : nat) (l : list Z) : Z := le_value (sub off 4 l).

Definition slot_of (l : list Z) : vic_luks_keyslot_t :=
  mk_slot (word_at 0 l) (word_at 4 l) (sub 8 32 l) (word_at 40 l) (word_at 44 l).
Definition hdr_of (l : list Z) : luks1_hdr_t :=
  mk_hdr (sub 0 6 l) (le_value (sub 6 2 l)) (sub 8 32 l) (sub 40 32 l) (sub 72 32 l) (word_at 104 l) (word_at 108 l)
    (sub 112 20 l) (sub 132 32 l) (word_at 164 l) (sub 168 40 l)
    (map (fun i => slot_of (sub (208 + 48 * i) 48 l)) (seq 0 LUKS_NUM_KEYS)).

(** ** Operations *)

Definition swap_slot (k : vic_luks_keyslot_t) : vic_luks_keyslot_t :=
  mk_slot (vic_swap_u32 (active k)) (vic_swap_u32 (iterations k)) (salt k)
    (vic_swap_u32 (key_material_offset k)) (vic_swap_u32 (stripes k)).
Definition _fix_luks1_hdr_byte_order (h : luks1_hdr_t) : luks1_hdr_t :=
  mk_hdr (magic h) (vic_swap_u16 (version h)) (cipher_name h) (cipher_mode h) (hash_spec h)
    (vic_swap_u32 (payload_offset h)) (vic_swap_u32 (key_bytes h)) (mk_digest h) (mk_digest_salt h)
    (vic_swap_u32 (mk_digest_iter h)) (uuid h) (map swap_slot (keyslots h)).

Definition _is_valid_luks1_hdr (h : luks1_hdr_t) (swap : bool) : bool :=
  bool_decide (magic h = LUKS_MAGIC_1ST) &&
  (if swap then vic_swap_u16 (version h) =? LUKS_VERSION_1 else version h =? LUKS_VERSION_1).

Definition _is_valid_device (d : blockdev_t) : bool := block_size d =? VIC_SECTOR_SIZE.

Definition luks1_read_hdr (d : blockdev_t) : option luks1_hdr_t :=
  if negb (_is_valid_device d) then None
  else
    match vic_blockdev_get d 0 2 with
    | (VIC_OK, blocks) =>
        let h := hdr_of (take 592 blocks) in
        if _is_valid_luks1_hdr h true then Some (_fix_luks1_hdr_byte_order h) else None
    | _ => None
    end.

Definition _write_luks1_hdr (d : blockdev_t) (h : luks1_hdr_t) : option blockdev_t :=
  let buf := _fix_luks1_hdr_byte_order h in
  let blocks := hdr_image buf ++ replicate (1024 - length (hdr_image buf)) 0 in
  match vic_blockdev_put d 0 blocks 2 with (VIC_OK, d') => Some d' | _ => None end.

(** ** Integers in memory *)

(** The four bytes of a word, and what [vic_swap_u32] makes of them. *)
Lemma swap_u32_spec x :
  0 <= x < 2 ^ 32 ->
  vic_swap_u32 x = x / 2 ^ 24 + 2 ^ 8 * (x / 2 ^ 16 mod 256) + 2 ^ 16 * (x / 2 ^ 8 mod 256) + 2 ^ 24 * (x mod 256).
Proof.
  intros Hx. unfold vic_swap_u32.
  rewrite (land_byte x 0xFF 0), (land_byte x 0xFF00 8), (land_byte x 0xFF0000 16), (land_byte x 0xFF000000 24) by (lia || done).
  rewrite Z.pow_0_r, Z.div_1_r, Z.shiftl_0_r.
  rewrite (Z.shiftl_shiftl _ 8 8) by lia. change (8 + 8) with 16.
  rewrite !Z.shiftr_shiftl_l by lia. change (16 - 8) with 8. change (24 - 24) with 0. rewrite Z.shiftl_0_r.
  rewrite (Z.mod_small (x / 2 ^ 24)) by (Z.div_mod_to_equations; lia).
  rewrite !Z.shiftl_mul_pow2 by lia.
  set (b0 := x mod 256). set (b1 := x / 2 ^ 8 mod 256). set (b2 := x / 2 ^ 16 mod 256). set (b3 := x / 2 ^ 24).
  assert (0 <= b0 < 256) by (apply Z.mod_pos_bound; lia). assert (0 <= b1 < 256) by (apply Z.mod_pos_bound; lia).
  assert (0 <= b2 < 256) by (apply Z.mod_pos_bound; lia).
  assert (0 <= b3 < 256) by (unfold b3; Z.div_mod_to_equations; lia).
  rewrite !u32_small by lia.
  rewrite <- !Z.lor_assoc. rewrite (lor_above b2 b3 8) by lia. rewrite (lor_above b1 _ 16) by lia. rewrite (lor_above b0 _ 24) by lia. lia.
Qed.

Definition word4 (b0 b1 b2 b3 : Z) : Z := b0 + 2 ^ 8 * b1 + 2 ^ 16 * b2 + 2 ^ 24 * b3.

Lemma word4_range b0 b1 b2 b3 :
  0 <= b0 < 256 -> 0 <= b1 < 256 -> 0 <= b2 < 256 -> 0 <= b3 < 256 -> 0 <= word4 b0 b1 b2 b3 < 2 ^ 32.
Proof. unfold word4. lia. Qed.

Lemma word4_bytes b0 b1 b2 b3 :
  0 <= b0 < 256 -> 0 <= b1 < 256 -> 0 <= b2 < 256 -> 0 <= b3 < 256 ->
  let x := word4 b0 b1 b2 b3 in
  x / 2 ^ 24 = b3 /\ x / 2 ^ 16 mod 256 = b2 /\ x / 2 ^ 8 mod 256 = b1 /\ x mod 256 = b0.
Proof.
  intros H0 H1 H2 H3. cbv zeta. unfold word4. split_and!.
  - symmetry. apply (Z.div_unique_pos _ _ _ (b0 + 2 ^ 8 * b1 + 2 ^ 16 * b2)); lia.
  - rewrite <- (Z.div_unique_pos _ (2 ^ 16) (b2 + 256 * b3) (b0 + 2 ^ 8 * b1)) by lia.
    symmetry. apply (Z.mod_unique_pos _ _ b3); lia.
  - rewrite <- (Z.div_unique_pos _ (2 ^ 8) (b1 + 256 * b2 + 65536 * b3) b0) by lia.
    symmetry. apply (Z.mod_unique_pos _ _ (b2 + 256 * b3)); lia.
  - symmetry. apply (Z.mod_unique_pos _ _ (b1 + 256 * b2 + 65536 * b3)); lia.
Qed.

Lemma word4_exists x :
  0 <= x < 2 ^ 32 -> exists b0 b1 b2 b3, 0 <= b0 < 256 /\ 0 <= b1 < 256 /\ 0 <= b2 < 256 /\ 0 <= b3 < 256 /\
    x = word4 b0 b1 b2 b3.
Proof.
  intros Hx. exists (x mod 256), (x / 256 mod 256), (x / 65536 mod 256), (x / 16777216).
  split_and!; try (apply Z.mod_pos_bound; lia); try (apply Z.div_pos; lia); try (apply Z.div_lt_upper_bound; lia).
  unfold word4. pose proof (Z.div_mod x 256 ltac:(lia)). pose proof (Z.div_mod (x / 256) 256 ltac:(lia)).
  pose proof (Z.div_mod (x / 65536) 256 ltac:(lia)).
  replace (x / 65536) with (x / 256 / 256) in * by (rewrite Z.div_div by lia; done).
  replace (x / 16777216) with (x / 256 / 256 / 256) in * by (rewrite !Z.div_div by lia; done). lia.
Qed.

Lemma swap_word4 b0 b1 b2 b3 :
  0 <= b0 < 256 -> 0 <= b1 < 256 -> 0 <= b2 < 256 -> 0 <= b3 < 256 ->
  vic_swap_u32 (word4 b0 b1 b2 b3) = word4 b3 b2 b1 b0.
Proof.
  intros H0 H1 H2 H3. rewrite swap_u32_spec by (by apply word4_range).
  destruct (word4_bytes b0 b1 b2 b3 H0 H1 H2 H3) as (-> & -> & -> & ->). unfold word4. lia.
Qed.

Lemma swap_u32_range x : 0 <= x < 2 ^ 32 -> 0 <= vic_swap_u32 x < 2 ^ 32.
Proof.
  intros (b0 & b1 & b2 & b3 & H0 & H1 & H2 & H3 & ->)%word4_exists. rewrite swap_word4 by done. by apply word4_range.
Qed.

Lemma swap_u32_involutive x : 0 <= x < 2 ^ 32 -> vic_swap_u32 (vic_swap_u32 x) = x.
Proof. intros (b0 & b1 & b2 & b3 & H0 & H1 & H2 & H3 & ->)%word4_exists. by rewrite !swap_word4. Qed.

(** The version is 1 in memory exactly if its big-endian form is 256. *)
Lemma swap_u16_version : vic_swap_u16 LUKS_VERSION_1 = 256 /\ vic_swap_u16 256 = LUKS_VERSION_1.
Proof. done. Qed.

(** ** The header in memory *)

Definition is_u32 (x : Z) : Prop := 0 <= x < 2 ^ 32.

Record slot_wf (k : vic_luks_keyslot_t) : Prop := {
  sw_active : is_u32 (active k); sw_iterations : is_u32 (iterations k); sw_salt : length (salt k) = 32%nat;
  sw_offset : is_u32 (key_material_offset k); sw_stripes : is_u32 (stripes k) }.

Record hdr_wf (h : luks1_hdr_t) : Prop := {
  hw_magic : length (magic h) = 6%nat; hw_version : 0 <= version h < 2 ^ 16;
  hw_name : length (cipher_name h) = 32%nat; hw_mode : length (cipher_mode h) = 32%nat;
  hw_hash : length (hash_spec h) = 32%nat; hw_payload : is_u32 (payload_offset h);
  hw_key_bytes : is_u32 (key_bytes h); hw_digest : length (mk_digest h) = 20%nat;
  hw_digest_salt : length (mk_digest_salt h) = 32%nat; hw_iter : is_u32 (mk_digest_iter h);
  hw_uuid : length (uuid h) = 40%nat; hw_slots : length (keyslots h) = LUKS_NUM_KEYS;
  hw_slot : Forall slot_wf (keyslots h) }.

Lemma slot_image_length k : slot_wf k -> length (slot_image k) = 48%nat.
Proof. intros []. unfold slot_image, slot_fields. cbn [concat]. rewrite !length_app, !le_bytes_length. simpl. lia. Qed.

Lemma field_word (fs : list (list Z)) i x off :
  fs !! i = Some (le_bytes 4 x) -> off = length (concat (take i fs)) -> is_u32 x -> word_at off (concat fs) = x.
Proof.
  intros Hi Ho Hx. unfold word_at. rewrite (field_sub fs i _ off 4 Hi Ho) by (by rewrite le_bytes_length).
  by apply le_value_bytes.
Qed.

Lemma slot_of_image k : slot_wf k -> slot_of (slot_image k) = k.
Proof.
  intros Hk. pose proof Hk as [H1 H2 H3 H4 H5]. unfold slot_of, slot_image.
  rewrite (field_word (slot_fields k) 0 (active k)) by (done || field_off).
  rewrite (field_word (slot_fields k) 1 (iterations k)) by (done || (unfold slot_fields; field_off)).
  rewrite (field_sub (slot_fields k) 2 (salt k)) by (done || (unfold slot_fields; field_off)).
  rewrite (field_word (slot_fields k) 3 (key_material_offset k)) by (done || (unfold slot_fields; field_off)).
  rewrite (field_word (slot_fields k) 4 (stripes k)) by (done || (unfold slot_fields; field_off)).
  by destruct k.
Qed.

(** The slots, one after the other. *)
Lemma slot_sub ks i k :
  Forall slot_wf ks -> ks !! i = Some k -> sub (48 * i) 48 (concat (map slot_image ks)) = slot_image k.
Proof.
  intros Hw Hi. assert (length (slot_image k) = 48%nat) as Hk
    by (apply slot_image_length; eapply Forall_lookup_1; done).
  apply (field_sub (map slot_image ks) i); [|  |done].
  - change (map slot_image ks) with (slot_image <$> ks). by rewrite list_lookup_fmap, Hi.
  - assert (i < length ks)%nat as Hlt by (by eapply lookup_lt_Some).
    clear Hi Hk. revert i Hlt. induction Hw as [|x ks Hx _ IH]; intros i Hlt; [simpl in Hlt; lia|].
    destruct i as [|i]; [done|]. cbn [map take concat]. rewrite length_app, slot_image_length, <- IH by (done || (simpl in Hlt; lia)).
    lia.
Qed.

Lemma slots_image_length ks : Forall slot_wf ks -> length (concat (map slot_image ks)) = (48 * length ks)%nat.
Proof. induction 1 as [|k ks Hk _ IH]; [done|]. cbn [map concat]. rewrite length_app, slot_image_length, IH by done. simpl. lia. Qed.

Lemma hdr_image_length h : hdr_wf h -> length (hdr_image h) = 592%nat.
Proof.
  intros []. unfold hdr_image, hdr_fields. cbn [concat].
  rewrite !length_app, !le_bytes_length, slots_image_length by done. unfold LUKS_NUM_KEYS in *. simpl. lia.
Qed.

Lemma sub_sub off n a m l : (a + m <= n)%nat -> sub a m (sub off n l) = sub (off + a) m l.
Proof. intros H. unfold sub. rewrite skipn_firstn_comm, take_take, drop_drop. f_equal. lia. Qed.

(** The structure that a memory image holds is the one it was made of. *)
Lemma hdr_of_image h : hdr_wf h -> hdr_of (hdr_image h) = h.
Proof.
  intros Hh. pose proof Hh as [H1 H2 H3 H4 H5 H6 H7 H8 H9 H10 H11 H12 H13]. unfold hdr_of, hdr_image.
  rewrite (field_sub (hdr_fields h) 0 (magic h)) by (done || (unfold hdr_fields; field_off)).
  rewrite (field_sub (hdr_fields h) 1 (le_bytes 2 (version h)) 6 2) by (done || (unfold hdr_fields; field_off) || (by rewrite le_bytes_length)).
  rewrite (field_sub (hdr_fields h) 2 (cipher_name h)) by (done || (unfold hdr_fields; field_off)).
  rewrite (field_sub (hdr_fields h) 3 (cipher_mode h)) by (done || (unfold hdr_fields; field_off)).
  rewrite (field_sub (hdr_fields h) 4 (hash_spec h)) by (done || (unfold hdr_fields; field_off)).
  rewrite (field_word (hdr_fields h) 5 (payload_offset h)) by (done || (unfold hdr_fields; field_off)).
  rewrite (field_word (hdr_fields h) 6 (key_bytes h)) by (done || (unfold hdr_fields; field_off)).
  rewrite (field_sub (hdr_fields h) 7 (mk_digest h)) by (done || (unfold hdr_fields; field_off)).
  rewrite (field_sub (hdr_fields h) 8 (mk_digest_salt h)) by (done || (unfold hdr_fields; field_off)).
  rewrite (field_word (hdr_fields h) 9 (mk_digest_iter h)) by (done || (unfold hdr_fields; field_off)).
  rewrite (field_sub (hdr_fields h) 10 (uuid h)) by (done || (unfold hdr_fields; field_off)).
  rewrite (le_value_bytes 2) by done.
  assert (map (fun i => slot_of (sub (208 + 48 * i) 48 (concat (hdr_fields h)))) (seq 0 LUKS_NUM_KEYS) = keyslots h) as ->;
    [|by destruct h].
  assert (sub 208 384 (concat (hdr_fields h)) = concat (map slot_image (keyslots h))) as Hs.
  { apply (field_sub (hdr_fields h) 11); [done|unfold hdr_fields; field_off|].
    rewrite slots_image_length by done. unfold LUKS_NUM_KEYS in H12. lia. }
  apply list_eq. intros i. change (map ?f ?l) with (f <$> l). rewrite list_lookup_fmap.
  destruct (decide (i < 8)%nat) as [Hi|Hi].
  - rewrite lookup_seq_lt by done. cbn [fmap option_fmap option_map]. rewrite Nat.add_0_l.
    destruct (keyslots h !! i) as [k|] eqn:Ek; [|apply lookup_ge_None in Ek; unfold LUKS_NUM_KEYS in H12; lia].
    rewrite <- (sub_sub 208 384) by lia. rewrite Hs, (slot_sub _ i k) by done.
    rewrite slot_of_image; [done|]. by eapply Forall_lookup_1.
  - rewrite lookup_seq_ge by (unfold LUKS_NUM_KEYS; lia). symmetry. apply lookup_ge_None. unfold LUKS_NUM_KEYS in H12. lia.
Qed.

Lemma swap_slot_wf k : slot_wf k -> slot_wf (swap_slot k).
Proof. intros []. split; simpl; try done; by apply swap_u32_range. Qed.

Lemma swap_slot_involutive k : slot_wf k -> swap_slot (swap_slot k) = k.
Proof. intros []. destruct k. unfold swap_slot. simpl in *. by rewrite !swap_u32_involutive. Qed.

Lemma fix_wf h : hdr_wf h -> version h = LUKS_VERSION_1 -> hdr_wf (_fix_luks1_hdr_byte_order h).
Proof.
  intros [] Hv. split; simpl; try done; try (by apply swap_u32_range).
  - by rewrite Hv.
  - by rewrite length_map.
  - apply Forall_map. eapply Forall_impl; [done|]. intros k Hk. by apply swap_slot_wf.
Qed.

Lemma fix_involutive h :
  hdr_wf h -> version h = LUKS_VERSION_1 -> _fix_luks1_hdr_byte_order (_fix_luks1_hdr_byte_order h) = h.
Proof.
  intros [] Hv. destruct h as [mg v cn cm hs po kb md ms mi uu ks]. unfold _fix_luks1_hdr_byte_order. simpl in *.
  rewrite !swap_u32_involutive by done. rewrite map_map. f_equal; [by rewrite Hv|].
  rewrite <- (map_id ks) at 2. apply map_ext_in. intros k Hk. apply swap_slot_involutive.
  rewrite Forall_forall in *. by apply hw_slot0, list_elem_of_In.
Qed.

(** ** Reading and writing *)

Definition hdr_valid (h : luks1_hdr_t) : Prop := hdr_wf h /\ magic h = LUKS_MAGIC_1ST /\ version h = LUKS_VERSION_1.

(** A volume: a device with 512-byte blocks that has room for the header. *)
Record volume (d : blockdev_t) : Prop := {
  vol_bd : bd_ok d; vol_block : block_size d = 512; vol_create : create d = false; vol_write : can_write d = true;
  vol_room : offset d + 1024 <= size d }.

(** The blocks [b] to [b + n - 1] are inside the device. *)
Definition inside (d : blockdev_t) (b n : Z) : Prop := 0 <= b /\ 0 <= n /\ offset d + (b + n) * 512 <= size d.

Definition block_image (h : luks1_hdr_t) : list Z :=
  let b := hdr_image (_fix_luks1_hdr_byte_order h) in b ++ replicate (1024 - length b) 0.

Lemma block_image_length h : hdr_valid h -> length (block_image h) = 1024%nat.
Proof.
  intros (Hw & _ & Hv). unfold block_image. cbv zeta. rewrite length_app, length_replicate.
  rewrite hdr_image_length by (by apply fix_wf). lia.
Qed.

(** A device that holds the image of a header. *)
Definition holds_header (d : blockdev_t) (h : luks1_hdr_t) : Prop := vic_blockdev_get d 0 2 = (VIC_OK, block_image h).

Lemma read_held d h :
  block_size d = 512 -> hdr_valid h -> holds_header d h -> luks1_read_hdr d = Some h.
Proof.
  intros Hb (Hw & Hm & Hv) Hh. unfold luks1_read_hdr, _is_valid_device. rewrite Hb. cbn [Z.eqb negb].
  change (512 =? VIC_SECTOR_SIZE) with true. cbn [negb]. rewrite Hh. unfold block_image.
  pose proof (fix_wf h Hw Hv) as Hw'. pose proof (hdr_image_length _ Hw') as Hl.
  rewrite take_app_le by lia. rewrite take_ge by lia. rewrite hdr_of_image by done.
  unfold _is_valid_luks1_hdr. cbn [magic version _fix_luks1_hdr_byte_order].
  rewrite bool_decide_true by done. rewrite Hv. change (vic_swap_u16 (vic_swap_u16 LUKS_VERSION_1) =? LUKS_VERSION_1) with true.
  cbn [andb]. by rewrite fix_involutive.
Qed.

Lemma write_header d h :
  volume d -> hdr_valid h ->
  exists f, _write_luks1_hdr d h = Some (with_file f (size d) d) /\ volume (with_file f (size d) d) /\
    holds_header (with_file f (size d) d) h /\
    forall b n, inside d b n -> 2 <= b -> vic_blockdev_get (with_file f (size d) d) b n = vic_blockdev_get d b n.
Proof.
  intros [Hbd Hb Hc Hcw Hr] Hh.
  destruct (put_inside d 0 2 (block_image h) Hbd Hc Hcw) as (f & H1 & H2 & H3 & H4); try lia.
  { rewrite block_image_length by done. rewrite Hb. lia. }
  exists f. unfold _write_luks1_hdr. fold (block_image h). rewrite H1. split_and!; try done.
  intros b n (Hb0 & Hn0 & Hin) H2b. apply H4; [done|done|rewrite Hb; lia|lia].
Qed.

(** ** The format on disk *)

(** The format LUKS1 prescribes: every integer with its most significant byte
    first. *)
Definition disk_slot (k : vic_luks_keyslot_t) : list Z :=
  be_bytes 4 (active k) ++ be_bytes 4 (iterations k) ++ salt k ++ be_bytes 4 (key_material_offset k) ++
  be_bytes 4 (stripes k).
Definition disk_header (h : luks1_hdr_t) : list Z :=
  magic h ++ be_bytes 2 (version h) ++ cipher_name h ++ cipher_mode h ++ hash_spec h ++
  be_bytes 4 (payload_offset h) ++ be_bytes 4 (key_bytes h) ++ mk_digest h ++ mk_digest_salt h ++
  be_bytes 4 (mk_digest_iter h) ++ uuid h ++ concat (map disk_slot (keyslots h)).

Lemma le_bytes_swap x : is_u32 x -> le_bytes 4 (vic_swap_u32 x) = be_bytes 4 x.
Proof.
  assert (forall b0 b1 b2 b3, 0 <= b0 < 256 -> 0 <= b1 < 256 -> 0 <= b2 < 256 -> 0 <= b3 < 256 ->
    le_bytes 4 (word4 b0 b1 b2 b3) = [b0; b1; b2; b3]) as Hb.
  { intros b0 b1 b2 b3 H0 H1 H2 H3. destruct (word4_bytes b0 b1 b2 b3 H0 H1 H2 H3) as (E3 & E2 & E1 & E0).
    unfold le_bytes. cbn [seq map]. change (8 * Z.of_nat 0) with 0. change (8 * Z.of_nat 1) with 8.
    change (8 * Z.of_nat 2) with 16. change (8 * Z.of_nat 3) with 24.
    rewrite Z.pow_0_r, Z.div_1_r, E0, E1, E2, E3, (Z.mod_small b3) by done. done. }
  intros (b0 & b1 & b2 & b3 & H0 & H1 & H2 & H3 & ->)%word4_exists. unfold be_bytes.
  by rewrite swap_word4, !Hb by done.
Qed.

Lemma slot_image_disk k : slot_wf k -> slot_image (swap_slot k) = disk_slot k.
Proof.
  intros []. unfold slot_image, slot_fields, disk_slot, swap_slot.
  cbn [concat active iterations salt key_material_offset stripes]. by rewrite !le_bytes_swap, app_nil_r by done.
Qed.

Lemma hdr_image_disk h : hdr_valid h -> hdr_image (_fix_luks1_hdr_byte_order h) = disk_header h.
Proof.
  intros ([] & _ & Hv). unfold hdr_image, hdr_fields, disk_header, _fix_luks1_hdr_byte_order.
  cbn [magic version cipher_name cipher_mode hash_spec payload_offset key_bytes mk_digest mk_digest_salt mk_digest_iter
    uuid keyslots].
  rewrite Hv, !le_bytes_swap by done. rewrite map_map.
  rewrite (map_ext_in _ disk_slot) by
    (intros k Hk; apply slot_image_disk; rewrite Forall_forall in *; by apply hw_slot0, list_elem_of_In).
  cbn [concat]. by rewrite app_nil_r.
Qed.

(** A header that is written is on the disk in the format of LUKS1, with
    every integer big-endian, and is read back unchanged; it occupies the first two
    blocks, and all other blocks of the device keep their contents. *)
Theorem header_round_trip d h :
  volume d -> hdr_valid h ->
  exists d', _write_luks1_hdr d h = Some d' /\ luks1_read_hdr d' = Some h /\
    vic_blockdev_get d' 0 2 = (VIC_OK, disk_header h ++ replicate 432 0) /\
    forall b n, inside d b n -> 2 <= b -> vic_blockdev_get d' b n = vic_blockdev_get d b n.
Proof.
  intros Hd Hh. destruct (write_header d h Hd Hh) as (f & H1 & H2 & H3 & H4). eexists. split; [done|].
  split; [apply read_held; [|done|done]; apply (vol_block d Hd)|]. split; [|done].
  rewrite H3. unfold block_image. cbv zeta.
  rewrite hdr_image_length by (destruct Hh as (? & _ & ?); by apply fix_wf). by rewrite hdr_image_disk.
Qed.

Definition small_device : blockdev_t := mk_bd (replicate 1536 0) 1536 1536 0 512 false true.
Definition small_slot : vic_luks_keyslot_t := mk_slot LUKS_KEY_DISABLED 1000 (replicate 32 3) 8 4000.
Definition small_header : luks1_hdr_t :=
  mk_hdr LUKS_MAGIC_1ST LUKS_VERSION_1 (replicate 32 1) (replicate 32 2) (replicate 32 3) 4096 32 (replicate 20 4)
    (replicate 32 5) 1000 (replicate 40 6) (replicate 8 small_slot).

Lemma small_header_valid : hdr_valid small_header.
Proof.
  split; [|done]. split; try done; try (vm_compute; split; [discriminate|reflexivity]).
  apply Forall_replicate. split; (reflexivity || (unfold is_u32; simpl; lia) || (vm_compute; split; [discriminate|reflexivity])).
Qed.

Lemma header_round_trip_witness :
  exists d', _write_luks1_hdr small_device small_header = Some d' /\ luks1_read_hdr d' = Some small_header /\
    vic_blockdev_get d' 0 2 = (VIC_OK, disk_header small_header ++ replicate 432 0) /\
    forall b n, inside small_device b n -> 2 <= b -> vic_blockdev_get d' b n = vic_blockdev_get small_device b n.
Proof.
  apply (header_round_trip small_device small_header); [|apply small_header_valid].
  split; [|reflexivity|reflexivity|reflexivity|vm_compute; discriminate].
  split; [exists 9; split; [lia|reflexivity]|reflexivity|vm_compute; split; [discriminate|reflexivity]
    |vm_compute; split; discriminate|vm_compute; split; discriminate].
Defined.
