(* ===== verification/Luks1.v ===== *)
(** * Luks1: LUKS1 volumes
    (src/vicsetup/libvicsetup/luks1.c, luks.c)

    A LUKS1 volume keeps its master key in up to eight key slots: split into
    stripes and encrypted with a key derived from a password.  The ciphers of
    mbedTLS are parameters, whether an allocation succeeds is one too, and random
    bytes are arguments.  Pointers passed by the callers are not null. *)

From Stdlib Require Import String.
From S2P Require Import Prelude JsonText VicCrypto Blockdev Uuid Luks1Header.

Definition LUKS_STRIPES : Z := 4000.
Definition LUKS_ALIGN_KEYSLOTS : Z := 4096.
Definition LUKS_DISK_ALIGNMENT : Z := 1024 * 1024.
Definition LUKS_MIN_MK_ITERATIONS : Z := 1000.
Definition LUKS_MIN_SLOT_ITERATIONS : Z := 1000.
Definition LUKS_DIGEST_SIZE : Z := 20.
Definition DEFAULT_HASH : text := VIC_HASH_SPEC_SHA256.

(** ** Ciphers *)

Inductive cipher_type : Type := AES_128_ECB | AES_256_ECB | AES_128_CBC | AES_256_CBC | AES_128_XTS | AES_256_XTS.

Class Ciphers : Type := {
  (* mbedtls_cipher_crypt: encrypt or decrypt, cipher, key, initialization vector, data *)
  cipher_crypt : bool -> cipher_type -> list Z -> list Z -> list Z -> list Z;
  cipher_crypt_length op t k iv d : length (cipher_crypt op t k iv d) = length d;
  cipher_crypt_inverse t k iv d :
    length d = 16%nat \/ length d = 512%nat -> cipher_crypt false t k iv (cipher_crypt true t k iv d) = d;
  (* mbedtls_aes_crypt_ecb *)
  aes_crypt_ecb : list Z -> list Z -> list Z }.

Definition MODE_ECB : text := bytes "ecb".
Definition MODE_CBC_PLAIN : text := bytes "cbc-plain".
Definition MODE_XTS_PLAIN64 : text := bytes "xts-plain64".
Definition MODE_CBC_ESSIV_SHA256 : text := bytes "cbc-essiv:sha256".
Definition cipher_names : list text := [bytes "aes"; bytes "twofish"; bytes "serpent"; bytes "cast5"; bytes "cast6"].
Definition cipher_modes : list text :=
  [MODE_ECB; MODE_CBC_PLAIN; bytes "cbc-essiv:"; MODE_CBC_ESSIV_SHA256; bytes "cbc-essiv:sha512";
   bytes "cbc-essiv:ripemd160"; MODE_XTS_PLAIN64].
Definition hash_specs : list text :=
  [VIC_HASH_SPEC_SHA1; VIC_HASH_SPEC_SHA256; VIC_HASH_SPEC_SHA512; VIC_HASH_SPEC_RIPEMD160].

Definition listed (l : list text) (s : text) : bool := bool_decide (length s < 32)%nat && bool_decide (s ∈ l).
Definition _valid_cipher_name := listed cipher_names.
Definition _valid_cipher_mode := listed cipher_modes.
Definition _valid_hash_spec := listed hash_specs.

Definition _get_cipher_info (h : luks1_hdr_t) : option cipher_type :=
  if negb (bool_decide (cstr (cipher_name h) = bytes "aes")) then None
  else
    let key_bits := u32 (key_bytes h * 8) in
    let mode := cstr (cipher_mode h) in
    if bool_decide (mode = MODE_ECB) then
      if key_bits =? 128 then Some AES_128_ECB else if key_bits =? 256 then Some AES_256_ECB else None
    else if bool_decide (mode = MODE_CBC_PLAIN) then
      if key_bits =? 128 then Some AES_128_CBC else if key_bits =? 256 then Some AES_256_CBC else None
    else if bool_decide (mode = MODE_XTS_PLAIN64) then
      if key_bits / 2 =? 128 then Some AES_128_XTS else if key_bits / 2 =? 256 then Some AES_256_XTS else None
    else None.

Definition disabled (k : vic_luks_keyslot_t) : Prop := active k = LUKS_KEY_DISABLED.
#[export] Instance disabled_dec k : Decision (disabled k).
Proof. unfold disabled. apply _. Defined.

Section Luks1.
Context `{Algorithms} `{Ciphers}.
(** Whether [calloc] finds that many bytes. *)
Variable calloc : Z -> bool.

Definition _gen_iv (h : luks1_hdr_t) (sector : Z) (key : list Z) : option (list Z) :=
  let mode := cstr (cipher_mode h) in
  if bool_decide (mode = MODE_ECB) then Some (replicate 16 0)
  else if bool_decide (mode = MODE_CBC_PLAIN) then Some (le_bytes 4 sector ++ replicate 12 0)
  else if bool_decide (mode = MODE_XTS_PLAIN64) then Some (le_bytes 8 sector ++ replicate 8 0)
  else
    hash ← vic_hashv VIC_HASH_SHA256 [take (Z.to_nat (key_bytes h)) key];
    Some (aes_crypt_ecb hash (le_bytes 8 sector ++ replicate 8 0)).

(** The blocks from the [i]-th on. *)
Fixpoint crypt_blocks (n : nat) (h : luks1_hdr_t) (op : bool) (t : cipher_type) (key : list Z) (bs : nat)
    (sector : Z) (data : list Z) : option (list Z) :=
  match n with
  | O => Some []
  | S n' =>
      iv ← _gen_iv h sector key;
      rest ← crypt_blocks n' h op t key bs (u64 (sector + 1)) (drop bs data);
      Some (cipher_crypt op t key iv (take bs data) ++ rest)
  end.

(** The output buffer is zeroed before; what is left over of the last block stays
    zero. *)
Definition _crypt (h : luks1_hdr_t) (op : bool) (key data_in : list Z) (sector : Z) : option (list Z) :=
  t ← _get_cipher_info h;
  let bs := if bool_decide (cstr (cipher_mode h) = MODE_ECB) then 16%nat else 512%nat in
  let iters := (length data_in / bs)%nat in
  out ← crypt_blocks iters h op t key bs sector data_in;
  Some (out ++ replicate (length data_in - length out) 0).
Definition _encrypt (h : luks1_hdr_t) := _crypt h true.
Definition _decrypt (h : luks1_hdr_t) := _crypt h false.

(** ** Key material *)

Definition material_blocks (h : luks1_hdr_t) (k : vic_luks_keyslot_t) : Z :=
  u32 (stripes k * key_bytes h) / VIC_SECTOR_SIZE.

Definition _write_key_material (d : blockdev_t) (h : luks1_hdr_t) (k : vic_luks_keyslot_t) (buf : option (list Z)) :
    option blockdev_t :=
  let n := material_blocks h k in
  let data := match buf with
              | Some b => Some b
              | None => let size := u32 (stripes k * key_bytes h) in
                        if calloc size then Some (replicate (Z.to_nat size) 0) else None
              end in
  match data with
  | None => None
  | Some b => match vic_blockdev_put d (key_material_offset k) b n with (VIC_OK, d') => Some d' | _ => None end
  end.

(** The buffer has [stripes * key_bytes] zeroed bytes. *)
Definition _read_key_material (d : blockdev_t) (h : luks1_hdr_t) (k : vic_luks_keyslot_t) : option (list Z) :=
  match vic_blockdev_get d (key_material_offset k) (material_blocks h k) with
  | (VIC_OK, data) =>
      Some (data ++ replicate (Z.to_nat (u32 (stripes k * key_bytes h)) - length data) 0)
  | _ => None
  end.

(** ** A new header *)

(** The key slots from [byte_offset] on, and the offset behind them. *)
Fixpoint init_slots (n : nat) (byte_offset sectors : Z) : list vic_luks_keyslot_t * Z :=
  match n with
  | O => ([], byte_offset)
  | S n' =>
      let o := vic_round_up byte_offset LUKS_ALIGN_KEYSLOTS in
      let k := mk_slot LUKS_KEY_DISABLED 0 (replicate 32 0) (u32 (o / VIC_SECTOR_SIZE)) LUKS_STRIPES in
      let '(ks, e) := init_slots n' (u64 (o + sectors * VIC_SECTOR_SIZE)) sectors in
      (k :: ks, e)
  end.

(** [rsalt], [ruuid]: the random bytes for the digest's salt and the UUID. *)
Definition _initialize_hdr (name mode : text) (mk : list Z) (spec : text) (uu : option text) (mk_iterations : Z)
    (rsalt ruuid : list Z) : option luks1_hdr_t :=
  if negb (_valid_cipher_name name) then None
  else if negb (_valid_cipher_mode mode) then None
  else if decide (mk = []) then None
  else if negb (_valid_hash_spec spec) then None
  else
    let n := Z.of_nat (length mk) in
    let iter := u32 mk_iterations in
    digest ← vic_pbkdf2 mk rsalt iter spec LUKS_DIGEST_SIZE;
    let base := sizeof_hdr / VIC_SECTOR_SIZE + 1 in
    let sectors := LUKS_STRIPES * n / VIC_SECTOR_SIZE + 1 in
    let '(ks, e) := init_slots LUKS_NUM_KEYS (base * VIC_SECTOR_SIZE) sectors in
    let payload := u32 (vic_round_up e LUKS_DISK_ALIGNMENT / VIC_SECTOR_SIZE) in
    uuid ← match uu with
           | Some u => if vic_uuid_valid u then Some (pad 40 u) else None
           | None => Some (pad 40 (vic_uuid_generate ruuid))
           end;
    Some (mk_hdr LUKS_MAGIC_1ST LUKS_VERSION_1 (pad 32 name) (pad 32 mode) (pad 32 spec) payload n digest rsalt iter
            uuid ks).

(** ** Key slots *)

Definition set_slot (h : luks1_hdr_t) (i : nat) (k : vic_luks_keyslot_t) : luks1_hdr_t :=
  mk_hdr (magic h) (version h) (cipher_name h) (cipher_mode h) (hash_spec h) (payload_offset h) (key_bytes h)
    (mk_digest h) (mk_digest_salt h) (mk_digest_iter h) (uuid h) (<[i := k]> (keyslots h)).

(** A call that returns.  ([vic_afsplit] and [vic_afmerge] return for a number of
    stripes that is a uint32_t other than 0.) *)
Definition returned {A} (o : outcome (option A)) : option A := match o with Done r => r | Failed _ => None end.

(** The material of a key slot for a master key and a password. *)
Definition slot_material (h : luks1_hdr_t) (k : vic_luks_keyslot_t) (mk pwd rsplit : list Z) : option (list Z) :=
  let size := u32 (key_bytes h * stripes k) in
  if size =? 0 then None
  else if negb (calloc size) then None
  else
    pkey ← vic_pbkdf2 pwd (salt k) (iterations k) (cstr (hash_spec h)) (key_bytes h);
    plain ← returned (vic_afsplit (cstr (hash_spec h)) mk (key_bytes h) (stripes k) rsplit);
    _encrypt h pkey plain 0.

(** The header with the new slot, its material and its index.  [rsalt], [rsplit]:
    the random salt and stripes. *)
Definition _add_key (h : luks1_hdr_t) (mk pwd : list Z) (slot_iterations : Z) (rsalt rsplit : list Z) :
    option (luks1_hdr_t * list Z * nat) :=
  if Z.of_nat sizeof_key <? key_bytes h then None
  else
    '(i, k) ← list_find disabled (keyslots h);
    let k := mk_slot LUKS_KEY_ENABLED (u32 slot_iterations) rsalt (key_material_offset k) (stripes k) in
    data ← slot_material h k mk pwd rsplit;
    Some (set_slot h i k, data, i).

(** What a key slot holds under a password: the first failure, or a key.  The
    header's [key_bytes] must fit into a vic_key_t ([sizeof_key]); the code does
    not check it here, and writes past its local buffers otherwise. *)
Definition candidate (d : blockdev_t) (h : luks1_hdr_t) (k : vic_luks_keyslot_t) (pwd : list Z) : vic_result_t + list Z :=
  match vic_pbkdf2 pwd (salt k) (iterations k) (cstr (hash_spec h)) (key_bytes h) with
  | None => inl VIC_PBKDF2_FAILED
  | Some pkey =>
      let size := u32 (stripes k * key_bytes h) in
      if negb (calloc size) then inl VIC_OUT_OF_MEMORY
      else
        match _read_key_material d h k with
        | None => inl VIC_KEY_MATERIAL_READ_FAILED
        | Some cipher =>
            match _decrypt h pkey cipher 0 with
            | None => inl VIC_DECRYPT_FAILED
            | Some plain =>
                match returned (vic_afmerge (key_bytes h) (u32 (stripes k)) (cstr (hash_spec h)) plain) with
                | None => inl VIC_AFMERGE_FAILED
                | Some mk => inr mk
                end
            end
        end
  end.

Definition digest_of (h : luks1_hdr_t) (mk : list Z) : option (list Z) :=
  vic_pbkdf2 mk (mk_digest_salt h) (mk_digest_iter h) (cstr (hash_spec h)) LUKS_DIGEST_SIZE.

(** The loop over the key slots, from index [i]. *)
Fixpoint find_slots (d : blockdev_t) (h : luks1_hdr_t) (pwd : list Z) (i : nat) (ks : list vic_luks_keyslot_t) :
    vic_result_t + (nat * list Z) :=
  match ks with
  | [] => inl VIC_NOT_FOUND
  | k :: ks' =>
      if active k =? LUKS_KEY_ENABLED then
        match candidate d h k pwd with
        | inl e => inl e
        | inr mk =>
            match digest_of h mk with
            | None => inl VIC_PBKDF2_FAILED
            | Some dg => if decide (mk_digest h = dg) then inr (i, mk) else find_slots d h pwd (S i) ks'
            end
        end
      else find_slots d h pwd (S i) ks'
  end.
Definition _find_key_by_pwd (d : blockdev_t) (h : luks1_hdr_t) (pwd : list Z) : vic_result_t + (nat * list Z) :=
  find_slots d h pwd 0 (keyslots h).

(** ** The public interface *)

(** [mk]: the key the caller gives, if any; [rkey]: 128 random bytes. *)
Definition luks1_format (d : blockdev_t) (name mode : text) (uu hash : option text) (mk_iterations : Z)
    (mk : option (list Z)) (rkey rsalt ruuid : list Z) : vic_result_t * blockdev_t :=
  if negb (_is_valid_device d) then (VIC_BAD_PARAMETER, d)
  else if match mk with Some k => bool_decide (k = []) | None => false end then (VIC_BAD_PARAMETER, d)
  else if match mk with Some k => bool_decide (sizeof_key < length k)%nat | None => false end then (VIC_KEY_TOO_BIG, d)
  else
    let spec := default DEFAULT_HASH hash in
    let key := match mk with Some k => k | None => rkey end in
    let iter := if mk_iterations <? LUKS_MIN_MK_ITERATIONS then LUKS_MIN_MK_ITERATIONS else mk_iterations in
    match _initialize_hdr name mode key spec uu iter rsalt ruuid with
    | None => (VIC_FAILED, d)
    | Some h =>
        if vic_blockdev_get_num_blocks d <=? payload_offset h then (VIC_DEVICE_TOO_SMALL, d)
        else match _write_luks1_hdr d h with
             | None => (VIC_HEADER_WRITE_FAILED, d)
             | Some d' => (VIC_OK, d')
             end
    end.

Definition luks1_recover_master_key (d : blockdev_t) (pwd : list Z) : vic_result_t + (list Z * Z) :=
  if negb (_is_valid_device d) then inl VIC_BAD_DEVICE
  else
    match luks1_read_hdr d with
    | None => inl VIC_HEADER_READ_FAILED
    | Some h =>
        match _find_key_by_pwd d h pwd with
        | inl e => inl e
        | inr (_, mk) => inr (mk, key_bytes h)
        end
    end.

(** The end of adding a key: the header first, then the material. *)
Definition write_slot (d : blockdev_t) (h : luks1_hdr_t) (i : nat) (data : option (list Z)) : vic_result_t * blockdev_t :=
  match _write_luks1_hdr d h with
  | None => (VIC_HEADER_WRITE_FAILED, d)
  | Some d1 =>
      match keyslots h !! i with
      | None => (VIC_OUT_OF_BOUNDS, d1)
      | Some k =>
          match _write_key_material d1 h k data with
          | None => (VIC_KEY_MATERIAL_WRITE_FAILED, d1)
          | Some d2 => (VIC_OK, d2)
          end
      end
  end.

Definition at_least (n : Z) : Z := if n <? LUKS_MIN_SLOT_ITERATIONS then LUKS_MIN_SLOT_ITERATIONS else n.

Definition luks1_add_key_by_master_key (d : blockdev_t) (slot_iterations : Z) (mk pwd : list Z)
    (rsalt rsplit : list Z) : vic_result_t * blockdev_t :=
  if negb (_is_valid_device d) then (VIC_BAD_DEVICE, d)
  else
    match luks1_read_hdr d with
    | None => (VIC_HEADER_READ_FAILED, d)
    | Some h =>
        if negb (Z.of_nat (length mk) =? key_bytes h) then (VIC_BAD_PARAMETER, d)
        else
          match _add_key h mk pwd (at_least slot_iterations) rsalt rsplit with
          | None => (VIC_FAILED, d)
          | Some (h, data, i) => write_slot d h i (Some data)
          end
    end.

(** [vic_luks_recover_master_key], for a volume whose header is LUKS1. *)
Definition luks1_add_key (d : blockdev_t) (slot_iterations : Z) (pwd new_pwd : list Z) (rsalt rsplit : list Z) :
    vic_result_t * blockdev_t :=
  if negb (_is_valid_device d) then (VIC_BAD_DEVICE, d)
  else
    match luks1_read_hdr d with
    | None => (VIC_HEADER_READ_FAILED, d)
    | Some h =>
        match luks1_recover_master_key d pwd with
        | inl _ => (VIC_FAILED, d)
        | inr (mk, _) =>
            match _add_key h mk new_pwd (at_least slot_iterations) rsalt rsplit with
            | None => (VIC_FAILED, d)
            | Some (h, data, i) => write_slot d h i (Some data)
            end
        end
    end.

Definition disable (k : vic_luks_keyslot_t) : vic_luks_keyslot_t :=
  mk_slot LUKS_KEY_DISABLED (iterations k) (replicate 32 0) (key_material_offset k) (stripes k).

Definition luks1_remove_key (d : blockdev_t) (pwd : list Z) : vic_result_t * blockdev_t :=
  if negb (_is_valid_device d) then (VIC_BAD_DEVICE, d)
  else
    match luks1_read_hdr d with
    | None => (VIC_HEADER_READ_FAILED, d)
    | Some h =>
        match _find_key_by_pwd d h pwd with
        | inl e => (e, d)
        | inr (i, _) =>
            match keyslots h !! i with
            | None => (VIC_OUT_OF_BOUNDS, d)
            | Some k => write_slot d (set_slot h i (disable k)) i None
            end
        end
    end.

Definition luks1_kill_slot (d : blockdev_t) (index : nat) : vic_result_t * blockdev_t :=
  if negb (_is_valid_device d) then (VIC_BAD_DEVICE, d)
  else if decide (LUKS_NUM_KEYS <= index)%nat then (VIC_OUT_OF_BOUNDS, d)
  else
    match luks1_read_hdr d with
    | None => (VIC_HEADER_READ_FAILED, d)
    | Some h =>
        match keyslots h !! index with
        | None => (VIC_OUT_OF_BOUNDS, d)
        | Some k =>
            if active k =? LUKS_KEY_ENABLED then write_slot d (set_slot h index (disable k)) index None else (VIC_OK, d)
        end
    end.

(** The failures between the lookup and the header leave [result] at VIC_OK. *)
Definition luks1_change_key (d : blockdev_t) (old_pwd new_pwd : list Z) (rsalt rsplit : list Z) :
    vic_result_t * blockdev_t :=
  if negb (_is_valid_device d) then (VIC_BAD_DEVICE, d)
  else
    match luks1_read_hdr d with
    | None => (VIC_HEADER_READ_FAILED, d)
    | Some h =>
        match _find_key_by_pwd d h old_pwd with
        | inl e => (e, d)
        | inr (i, mk) =>
            match keyslots h !! i with
            | None => (VIC_OUT_OF_BOUNDS, d)
            | Some k =>
                let k := mk_slot (active k) (iterations k) rsalt (key_material_offset k) (stripes k) in
                match slot_material h k mk new_pwd rsplit with
                | None => (VIC_OK, d)
                | Some data => write_slot d (set_slot h i k) i (Some data)
                end
            end
        end
    end.

(** The offset and the size of the payload, in bytes. *)
Definition luks1_stat (d : blockdev_t) : vic_result_t + (Z * Z) :=
  if negb (_is_valid_device d) then inl VIC_BAD_PARAMETER
  else
    match luks1_read_hdr d with
    | None => inl VIC_HEADER_READ_FAILED
    | Some h =>
        let nbytes := u64 (vic_blockdev_get_num_blocks d * VIC_SECTOR_SIZE) in
        let off := u32 (payload_offset h * VIC_SECTOR_SIZE) in
        inr (off, u64 (nbytes - off))
    end.

(** The name of the cipher for the device mapper. *)
Definition dm_cipher (h : luks1_hdr_t) : option text :=
  let uses n m := bool_decide (cstr (cipher_name h) = n) && bool_decide (cstr (cipher_mode h) = m) in
  if uses (bytes "aes") MODE_CBC_ESSIV_SHA256 then Some (bytes "aes-cbc-essiv:sha256")
  else if uses (bytes "aes") MODE_XTS_PLAIN64 then Some (bytes "aes-xts-plain64")
  else if uses (bytes "twofish") MODE_ECB then Some (bytes "twofish-ecb")
  else if uses (bytes "serpent") MODE_CBC_PLAIN then Some (bytes "serpent-cbc-plain")
  else if uses (bytes "aes") MODE_CBC_PLAIN then Some (bytes "aes-cbc-plain")
  else if uses (bytes "aes") MODE_ECB then Some (bytes "aes-ecb")
  else None.

(** What [luks1_open] asks the device mapper for: sectors, cipher, key, offset. *)
Definition luks1_open (d : blockdev_t) (mk : list Z) : vic_result_t + (Z * text * list Z * Z) :=
  if negb (_is_valid_device d) || bool_decide (mk = []) then inl VIC_BAD_PARAMETER
  else
    match luks1_read_hdr d with
    | None => inl VIC_HEADER_READ_FAILED
    | Some h =>
        let off := payload_offset h in
        let num := vic_blockdev_get_num_blocks d in
        if num <=? off then inl VIC_DEVICE_TOO_SMALL
        else match dm_cipher h with
             | None => inl VIC_UNSUPPORTED_CIPHER
             | Some c => inr (num - off, c, mk, off)
             end
    end.
End Luks1.
