(* ===== verification/Luks1Props.v ===== *)
(** * Luks1Props: what a LUKS1 volume guarantees

    A volume is described by its master key and the passwords of its eight key
    slots.  Every operation of the interface acts on this description: formatting
    makes an empty one, adding, removing and changing a key change one slot and
    keep all others, and every password in it recovers the master key. *)

From Stdlib Require Import String.
From S2P Require Import Prelude JsonText VicCrypto Blockdev Uuid Luks1Header Luks1.

(** ** Where the key slots are *)

Definition area_end (k : vic_luks_keyslot_t) (sectors : Z) : Z := key_material_offset k + sectors.

Lemma mk_slot_wf a i o s :
  0 <= a < 2 ^ 32 -> 0 <= i < 2 ^ 32 -> is_u32 o -> 0 <= s < 2 ^ 32 -> slot_wf (mk_slot a i (replicate 32 0) o s).
Proof. intros. by split. Qed.

(** The slots from [b] on: behind [b], in order, and before the end. *)
Lemma init_slots_layout n b sectors :
  0 <= b -> 0 <= sectors -> b + Z.of_nat n * (4096 + sectors * 512) < 2 ^ 40 ->
  let '(ks, e) := init_slots n b sectors in
  length ks = n /\ b <= e <= b + Z.of_nat n * (4096 + sectors * 512) /\
  Forall (fun k => slot_wf k /\ active k = LUKS_KEY_DISABLED /\ stripes k = LUKS_STRIPES /\
            b <= key_material_offset k * 512 /\ area_end k sectors * 512 <= e) ks /\
  forall i j ki kj, (i < j)%nat -> ks !! i = Some ki -> ks !! j = Some kj ->
    area_end ki sectors <= key_material_offset kj.
Proof.
  revert b. induction n as [|n IH]; intros b Hb Hs Hlim; cbn [init_slots].
  - split_and!; (done || lia || constructor).
  - destruct (round_up_spec b LUKS_ALIGN_KEYSLOTS) as [Ho Hal]; [lia|done|unfold LUKS_ALIGN_KEYSLOTS; lia|].
    set (o := vic_round_up b LUKS_ALIGN_KEYSLOTS) in *. unfold LUKS_ALIGN_KEYSLOTS, VIC_SECTOR_SIZE in *.
    assert (o mod 512 = 0) as H512.
    { apply Z.mod_divide in Hal as [q Hq]; [|lia]. apply Z.mod_divide; [lia|]. exists (q * 8). lia. }
    assert (o = o / 512 * 512) as Eo by (pose proof (Z.div_mod o 512 ltac:(lia)); lia).
    rewrite (u64_small (o + sectors * 512)) by lia. rewrite (u32_small (o / 512)) by lia.
    specialize (IH (o + sectors * 512)). destruct (init_slots n (o + sectors * 512) sectors) as [ks e].
    destruct IH as (H1 & H2 & H3 & H4); [lia|lia|lia|].
    split_and!; [simpl; lia|lia|lia| |].
    + constructor.
      * refine (conj _ (conj eq_refl (conj eq_refl (conj _ _)))).
        -- apply mk_slot_wf; [unfold LUKS_KEY_DISABLED; lia|lia|unfold is_u32; lia|unfold LUKS_STRIPES; lia].
        -- cbn [key_material_offset]. lia.
        -- unfold area_end. cbn [key_material_offset]. lia.
      * eapply Forall_impl; [exact H3|]. cbn beta. intros k (? & ? & ? & ? & ?). split_and!; try done. lia.
    + intros i j ki kj Hij Hi Hj. destruct j as [|j]; [lia|]. destruct i as [|i]; cbn [lookup list_lookup] in *.
      * injection Hi as <-. unfold area_end. simpl.
        rewrite Forall_forall in H3. destruct (H3 kj) as (_ & _ & _ & Hk & _); [by eapply list_elem_of_lookup_2|]. lia.
      * apply (H4 i j); [lia|done|done].
Qed.

(** ** Encryption and decryption *)

Section Props.
Context `{Algorithms} `{Ciphers}.
Variable calloc : Z -> bool.

Lemma crypt_blocks_round_trip n h t key bs sector data c :
  (bs = 16 \/ bs = 512)%nat -> length data = (n * bs)%nat ->
  crypt_blocks n h true t key bs sector data = Some c ->
  length c = (n * bs)%nat /\ crypt_blocks n h false t key bs sector c = Some data.
Proof.
  intros Hbs. revert sector data c. induction n as [|n IH]; intros sector data c Hl; cbn [crypt_blocks].
  - intros [= <-]. destruct data; [done|simpl in Hl; lia].
  - destruct (_gen_iv h sector key) as [iv|]; [|done]. cbn [mbind option_bind].
    destruct (crypt_blocks n h true t key bs (u64 (sector + 1)) (drop bs data)) as [r|] eqn:Er; [|done].
    cbn [mbind option_bind]. intros [= <-].
    destruct (IH (u64 (sector + 1)) (drop bs data) r) as [Hlr Hdr]; [rewrite length_drop; lia|done|].
    assert (length (take bs data) = bs) as Ht by (rewrite length_take; lia).
    assert (length (cipher_crypt true t key iv (take bs data)) = bs) as Hc by (by rewrite cipher_crypt_length).
    split; [rewrite length_app, Hc, Hlr; lia|].
    rewrite drop_app_ge by lia. rewrite Hc, Nat.sub_diag, drop_0, Hdr. cbn [mbind option_bind].
    rewrite take_app_le by lia. rewrite take_ge by lia.
    rewrite cipher_crypt_inverse by (rewrite Ht; lia). by rewrite take_drop.
Qed.

Definition crypt_unit (h : luks1_hdr_t) : nat :=
  if bool_decide (cstr (cipher_mode h) = MODE_ECB) then 16%nat else 512%nat.

Lemma crypt_round_trip h key data c :
  (crypt_unit h | length data)%nat -> _encrypt h key data 0 = Some c ->
  length c = length data /\ _decrypt h key c 0 = Some data.
Proof.
  intros [n Hn]. unfold _encrypt, _decrypt, _crypt. fold (crypt_unit h).
  assert (crypt_unit h = 16 \/ crypt_unit h = 512)%nat as Hu by (unfold crypt_unit; case_bool_decide; lia).
  destruct (_get_cipher_info h) as [t|]; [|done]. cbn [mbind option_bind].
  rewrite Hn, Nat.div_mul by lia. destruct (crypt_blocks n h true t key _ 0 data) as [r|] eqn:Er; [|done].
  cbn [mbind option_bind]. intros [= <-].
  destruct (crypt_blocks_round_trip n h t key (crypt_unit h) 0 data r Hu Hn Er) as [Hl Hd].
  rewrite Hl, Nat.sub_diag. cbn [replicate]. rewrite app_nil_r. split; [done|].
  rewrite Hl, Nat.div_mul by lia. rewrite Hd. cbn [mbind option_bind]. by rewrite Hn, Nat.sub_diag, app_nil_r.
Qed.

(** ** Key slots and the device *)

(** The size of a slot's material is a whole number of blocks. *)
Record geometry (h : luks1_hdr_t) (k : vic_luks_keyslot_t) : Prop := {
  ge_stripes : 1 <= stripes k; ge_key : 1 <= key_bytes h <= 128;
  ge_size : stripes k * key_bytes h < 2 ^ 32; ge_blocks : (512 | stripes k * key_bytes h) }.

Lemma geometry_blocks h k : geometry h k -> material_blocks h k * 512 = stripes k * key_bytes h /\ 0 <= material_blocks h k.
Proof.
  intros [H1 H2 H3 [q Hq]]. unfold material_blocks, VIC_SECTOR_SIZE. rewrite u32_small by nia.
  rewrite Hq, Z.div_mul by lia. nia.
Qed.

(** The device holds a slot's material. *)
Definition holds_material (d : blockdev_t) (h : luks1_hdr_t) (k : vic_luks_keyslot_t) (data : list Z) : Prop :=
  vic_blockdev_get d (key_material_offset k) (material_blocks h k) = (VIC_OK, data).

(** The material of a slot fills its blocks. *)
Lemma crypt_of_material h k mk pwd rsplit data :
  geometry h k -> key_bytes h = Z.of_nat (length mk) -> Z.of_nat (length rsplit) = key_bytes h * stripes k ->
  slot_material calloc h k mk pwd rsplit = Some data ->
  Z.of_nat (length data) = stripes k * key_bytes h /\
  exists pkey plain, vic_pbkdf2 pwd (salt k) (iterations k) (cstr (hash_spec h)) (key_bytes h) = Some pkey /\
    calloc (stripes k * key_bytes h) = true /\ _decrypt h pkey data 0 = Some plain /\
    returned (vic_afmerge (Z.of_nat (length mk)) (u32 (stripes k)) (cstr (hash_spec h)) plain) = Some mk.
Proof.
  intros Hg Hkb Hr Hsm. pose proof Hg as [H1 H2 H3 H4]. revert Hsm. unfold slot_material.
  rewrite (Z.mul_comm (key_bytes h)). rewrite (u32_small (stripes k * key_bytes h)) by nia.
  destruct (Z.eqb_spec (stripes k * key_bytes h) 0); [nia|].
  destruct (calloc (stripes k * key_bytes h)); [|done]. cbn [negb].
  destruct (vic_pbkdf2 pwd (salt k) (iterations k) (cstr (hash_spec h)) (key_bytes h)) as [pkey|]; [|done].
  cbn [mbind option_bind]. rewrite Hkb.
  destruct (vic_afsplit _ mk _ (stripes k) rsplit) as [[plain|]|] eqn:Esp; [|done|done].
  cbn [returned mbind option_bind]. intros Henc.
  destruct (afmerge_of_split (cstr (hash_spec h)) mk (stripes k) rsplit plain) as (Hl & _ & Hm);
    [nia|nia|nia|done|].
  destruct (crypt_round_trip h pkey plain data) as [Hlc Hdec]; [|done|].
  { destruct H4 as [q Hq]. rewrite Hl. unfold crypt_unit.
    assert (0 <= q) by nia. case_bool_decide; [exists (Z.to_nat q * 32)%nat|exists (Z.to_nat q)]; nia. }
  split; [rewrite Hlc, Hl; nia|]. exists pkey, plain. rewrite u32_small, Hm by nia. done.
Qed.

(** A slot whose material was made for a password yields the master key. *)
Lemma candidate_of_material d h k mk pwd rsplit data :
  geometry h k -> key_bytes h = Z.of_nat (length mk) -> Z.of_nat (length rsplit) = key_bytes h * stripes k ->
  slot_material calloc h k mk pwd rsplit = Some data -> holds_material d h k data ->
  Z.of_nat (length data) = stripes k * key_bytes h /\ candidate calloc d h k pwd = inr mk.
Proof.
  intros Hg Hkb Hr Hsm Hhold. pose proof Hg as [H1 H2 H3 H4].
  destruct (crypt_of_material h k mk pwd rsplit data Hg Hkb Hr Hsm) as (Hl & pkey & plain & E1 & E2 & E3 & E4).
  split; [done|]. unfold candidate. rewrite E1, u32_small, E2 by nia. cbn [negb].
  unfold _read_key_material. rewrite Hhold.
  replace (_ - length data)%nat with O by (rewrite u32_small by nia; lia).
  cbn [replicate]. by rewrite app_nil_r, E3, Hkb, E4.
Qed.

(** [candidate] looks only at the slot's blocks and at four fields. *)
Definition same_crypto (h h' : luks1_hdr_t) : Prop :=
  key_bytes h' = key_bytes h /\ hash_spec h' = hash_spec h /\ cipher_name h' = cipher_name h /\
  cipher_mode h' = cipher_mode h.

Lemma crypt_blocks_same h h' n op t key bs sector data :
  same_crypto h h' -> crypt_blocks n h' op t key bs sector data = crypt_blocks n h op t key bs sector data.
Proof.
  intros (E1 & E2 & E3 & E4). revert sector data. induction n as [|n IH]; intros sector data; [done|].
  cbn [crypt_blocks]. unfold _gen_iv. rewrite E1, E4. destruct (if bool_decide _ then _ else _); [|done].
  cbn [mbind option_bind]. by rewrite IH.
Qed.

Lemma candidate_same d d' h h' k pwd :
  same_crypto h h' ->
  vic_blockdev_get d' (key_material_offset k) (material_blocks h k) =
  vic_blockdev_get d (key_material_offset k) (material_blocks h k) ->
  candidate calloc d' h' k pwd = candidate calloc d h k pwd.
Proof.
  intros Hs Hg. pose proof Hs as (E1 & E2 & E3 & E4). unfold candidate, _read_key_material, material_blocks in *.
  rewrite E1, E2, Hg. destruct (vic_pbkdf2 _ _ _ _ _); [|done]. destruct (negb _); [done|].
  destruct (vic_blockdev_get d _ _) as [[] data]; try done.
  unfold _decrypt, _crypt, _get_cipher_info. rewrite E1, E3, E4.
  destruct (if negb _ then _ else _) as [t|]; [|done]. cbn [mbind option_bind].
  by rewrite (crypt_blocks_same h h').
Qed.

(** ** Writing a key slot *)

(** Where the material of a slot lies: behind the header, inside the device. *)
Definition area_ok (d : blockdev_t) (h : luks1_hdr_t) (k : vic_luks_keyslot_t) : Prop :=
  2 <= key_material_offset k /\ inside d (key_material_offset k) (material_blocks h k).

Definition apart (h : luks1_hdr_t) (k k' : vic_luks_keyslot_t) : Prop :=
  key_material_offset k + material_blocks h k <= key_material_offset k' \/
  key_material_offset k' + material_blocks h k' <= key_material_offset k.

Lemma write_slot_spec d h i k data bytes_ :
  volume d -> hdr_valid h -> keyslots h !! i = Some k -> geometry h k -> area_ok d h k ->
  bytes_ = match data with Some b => b | None => replicate (Z.to_nat (stripes k * key_bytes h)) 0 end ->
  Z.of_nat (length bytes_) = stripes k * key_bytes h -> (data = None -> calloc (stripes k * key_bytes h) = true) ->
  exists d', write_slot calloc d h i data = (VIC_OK, d') /\ volume d' /\ holds_header d' h /\
    holds_material d' h k bytes_ /\ size d' = size d /\ offset d' = offset d /\ block_size d' = block_size d /\
    forall b n, inside d b n -> 2 <= b ->
      key_material_offset k + material_blocks h k <= b \/ b + n <= key_material_offset k ->
      vic_blockdev_get d' b n = vic_blockdev_get d b n.
Proof.
  intros Hd Hh Hk Hg [Ha1 Ha2] Hby Hlen Hcal. destruct (geometry_blocks h k Hg) as [Hmb Hmb0].
  destruct (write_header d h Hd Hh) as (f & E1 & V1 & Hold & Hother).
  set (d1 := with_file f (size d) d) in *. unfold write_slot. rewrite E1, Hk.
  pose proof V1 as [Vbd Vbs Vc Vw Vr]. destruct Ha2 as (Hb0 & Hn0 & Hin).
  destruct (put_inside d1 (key_material_offset k) (material_blocks h k) bytes_ Vbd Vc Vw) as (f2 & P1 & P2 & P3 & P4);
    [done|done|rewrite Vbs; lia|rewrite Vbs; simpl; lia|].
  assert (_write_key_material calloc d1 h k data = Some (with_file f2 (size d1) d1)) as ->.
  { unfold _write_key_material. destruct data as [b|]; [subst b; by rewrite P1|].
    rewrite u32_small by (pose proof Hg as [? ? ? ?]; nia). rewrite Hcal by done. subst bytes_. by rewrite P1. }
  eexists. split; [reflexivity|]. split; [by split|]. split_and!; try done.
  - unfold holds_header in *. rewrite P4; [done|lia|lia|rewrite Vbs; lia|lia].
  - intros b n (Hb & Hn & Hi) H2 Hap. rewrite P4; [|done|done|rewrite Vbs; simpl; lia|lia].
    by apply Hother.
Qed.

(** ** The description of a volume *)

(** Slot [k] has password [p] (or none). *)
Definition slot_holds (d : blockdev_t) (h : luks1_hdr_t) (mk : list Z) (k : vic_luks_keyslot_t) (p : option (list Z)) : Prop :=
  match p with
  | None => active k = LUKS_KEY_DISABLED
  | Some pwd => active k = LUKS_KEY_ENABLED /\ candidate calloc d h k pwd = inr mk
  end.

Record describes (d : blockdev_t) (h : luks1_hdr_t) (mk : list Z) (pws : list (option (list Z))) : Prop := {
  de_volume : volume d; de_valid : hdr_valid h; de_held : holds_header d h;
  de_key : key_bytes h = Z.of_nat (length mk); de_digest : digest_of h mk = Some (mk_digest h);
  de_geometry : Forall (geometry h) (keyslots h); de_areas : Forall (area_ok d h) (keyslots h);
  de_apart : forall i j k k', i ≠ j -> keyslots h !! i = Some k -> keyslots h !! j = Some k' -> apart h k k';
  de_slots : Forall2 (slot_holds d h mk) (keyslots h) pws }.

(** A slot with another state, salt or iterations, at the same place. *)
Definition same_place (k k' : vic_luks_keyslot_t) : Prop :=
  key_material_offset k' = key_material_offset k /\ stripes k' = stripes k.

Lemma set_slot_valid h i k : hdr_valid h -> slot_wf k -> hdr_valid (set_slot h i k).
Proof.
  intros ([] & Hm & Hv) Hk. split; [|done]. split; simpl; try done; [by rewrite length_insert|].
  by apply Forall_insert.
Qed.

Lemma same_place_blocks h i k k' : same_place k k' -> material_blocks (set_slot h i k') k' = material_blocks h k.
Proof. intros [_ E]. unfold material_blocks. simpl. by rewrite E. Qed.

(** Replacing slot [i] and its material: the other slots keep their passwords. *)
Lemma describes_write d h mk pws i k k' data bytes_ p :
  describes d h mk pws -> keyslots h !! i = Some k -> same_place k k' -> slot_wf k' ->
  bytes_ = match data with Some b => b | None => replicate (Z.to_nat (stripes k * key_bytes h)) 0 end ->
  Z.of_nat (length bytes_) = stripes k * key_bytes h -> (data = None -> calloc (stripes k * key_bytes h) = true) ->
  (forall d', holds_material d' h k' bytes_ -> slot_holds d' h mk k' p) ->
  exists d', write_slot calloc d (set_slot h i k') i data = (VIC_OK, d') /\
    describes d' (set_slot h i k') mk (<[i := p]> pws) /\ holds_material d' h k' bytes_.
Proof.
  intros [V Hv Hh Hk Hdg Hg Ha Hap Hs] Hi Hsp Hwf Hby Hlen Hcal Hp. pose proof Hsp as [Eo Es].
  assert (i < length (keyslots h))%nat as Hlt by (by eapply lookup_lt_Some).
  assert (geometry h k) as Hgk by (by eapply Forall_lookup_1).
  assert (area_ok d h k) as Hak by (by eapply Forall_lookup_1).
  set (h' := set_slot h i k').
  assert (geometry h' k') as Hg' by (destruct Hgk; split; simpl; by rewrite ?Es).
  assert (material_blocks h' k' = material_blocks h k) as Emb by (by apply same_place_blocks).
  destruct (write_slot_spec d h' i k' data bytes_) as (d' & E & V' & Hh' & Hm' & Sz & Of & Bs & Hoth); try done.
  { by apply set_slot_valid. }
  { simpl. by apply list_lookup_insert_eq. }
  { destruct Hak as [Ha1 Ha2]. split; [by rewrite Eo|]. by rewrite Eo, Emb. }
  { simpl. by rewrite Es. }
  { simpl. by rewrite Es. }
  { simpl. by rewrite Es. }
  assert (same_crypto h h') as Hsc by (by split_and!).
  assert (forall b n, inside d b n -> inside d' b n) as Hins by (intros b n; unfold inside; by rewrite Sz, Of).
  exists d'. split; [done|]. split; [|exact Hm']. split; try done.
  - by apply set_slot_valid.
  - simpl. apply Forall_insert; [eapply Forall_impl; [exact Hg|]; intros x []; by split|done].
  - simpl. apply Forall_insert.
    + eapply Forall_impl; [exact Ha|]. intros x [? ?]. split; [done|]. by apply Hins.
    + destruct Hak as [Ha1 Ha2]. split; [by rewrite Eo|]. apply Hins. by rewrite Eo, Emb.
  - simpl. intros a b ka kb Hab Hka Hkb. unfold apart. change (material_blocks h' ka) with (material_blocks h ka).
    change (material_blocks h' kb) with (material_blocks h kb).
    assert (material_blocks h k' = material_blocks h k) as Emb' by exact Emb.
    destruct (decide (a = i)) as [->|Ha'].
    + rewrite list_lookup_insert_eq in Hka by done. injection Hka as <-.
      rewrite list_lookup_insert_ne in Hkb by done. rewrite Eo, Emb'. by apply (Hap i b).
    + rewrite list_lookup_insert_ne in Hka by done. destruct (decide (b = i)) as [->|Hb'].
      * rewrite list_lookup_insert_eq in Hkb by done. injection Hkb as <-. rewrite Eo, Emb'. by apply (Hap a i).
      * rewrite list_lookup_insert_ne in Hkb by done. by apply (Hap a b).
  - simpl. apply Forall2_same_length_lookup. split; [rewrite !length_insert; by eapply Forall2_length|].
    intros j x q Hx Hq. destruct (decide (j = i)) as [->|Hj].
    + rewrite list_lookup_insert_eq in Hx by done. injection Hx as <-.
      rewrite list_lookup_insert_eq in Hq by (rewrite <- (Forall2_length _ _ _ Hs); done). injection Hq as <-.
      assert (slot_holds d' h mk k' p) as Hsh by (apply Hp; exact Hm').
      destruct p as [pwd|]; [|done]. destruct Hsh as [? Hc]. split; [done|].
      rewrite <- Hc. by apply candidate_same.
    + rewrite list_lookup_insert_ne in Hx by done. rewrite list_lookup_insert_ne in Hq by done.
      assert (slot_holds d h mk x q) as Hsh by (by eapply Forall2_lookup_lr).
      destruct q as [pwd|]; [|done]. destruct Hsh as [? Hc]. split; [done|]. rewrite <- Hc.
      apply candidate_same; [done|].
      assert (area_ok d h x) as [Hx1 Hx2] by (by eapply Forall_lookup_1).
      apply Hoth; [done|done|]. rewrite Eo, Emb. destruct (Hap i j k x ltac:(congruence) Hi Hx) as [|]; lia.
Qed.

(** ** Finding a key *)

(** Under the password, no enabled slot before [i] yields a key with the digest of
    the master key. *)
Definition no_match_before (d : blockdev_t) (h : luks1_hdr_t) (pwd : list Z) (i : nat) : Prop :=
  forall j k, (j < i)%nat -> keyslots h !! j = Some k -> active k = LUKS_KEY_ENABLED ->
  exists c dg, candidate calloc d h k pwd = inr c /\ digest_of h c = Some dg /\ mk_digest h ≠ dg.

Lemma find_slots_skip d h pwd ks n i k :
  ks !! i = Some k ->
  (forall j k', (j < i)%nat -> ks !! j = Some k' -> active k' = LUKS_KEY_ENABLED ->
     exists c dg, candidate calloc d h k' pwd = inr c /\ digest_of h c = Some dg /\ mk_digest h ≠ dg) ->
  active k = LUKS_KEY_ENABLED -> forall mk, candidate calloc d h k pwd = inr mk -> digest_of h mk = Some (mk_digest h) ->
  find_slots calloc d h pwd n ks = inr ((n + i)%nat, mk).
Proof.
  intros Hi Hb He mk Hc Hd. revert n i Hi Hb. induction ks as [|k0 ks IH]; intros n i Hi Hb; [done|]. cbn [find_slots].
  destruct i as [|i]; cbn [lookup list_lookup] in Hi.
  - injection Hi as ->. rewrite He, Z.eqb_refl, Hc, Hd, decide_True by done. by rewrite Nat.add_0_r.
  - assert (find_slots calloc d h pwd (S n) ks = inr ((n + S i)%nat, mk)) as Hrest.
    { replace (n + S i)%nat with (S n + i)%nat by lia. apply IH; [done|].
      intros j k' Hj Hk'. apply (Hb (S j)); [lia|done]. }
    destruct (Z.eqb_spec (active k0) LUKS_KEY_ENABLED) as [E|]; [|done].
    destruct (Hb 0%nat k0 ltac:(lia) eq_refl E) as (c & dg & -> & -> & Hne). by rewrite decide_False.
Qed.

Lemma find_described d h mk pws i pwd :
  describes d h mk pws -> pws !! i = Some (Some pwd) -> no_match_before d h pwd i ->
  exists k, keyslots h !! i = Some k /\ active k = LUKS_KEY_ENABLED /\
    _find_key_by_pwd calloc d h pwd = inr (i, mk).
Proof.
  intros Hde Hp Hn. destruct Hde as [V Hv Hh Hk Hdg Hg Ha Hap Hs].
  destruct (keyslots h !! i) as [k|] eqn:Ek.
  - assert (slot_holds d h mk k (Some pwd)) as [He Hc] by (by eapply Forall2_lookup_lr).
    exists k. split_and!; [done..|]. apply (find_slots_skip d h pwd (keyslots h) 0 i k); done.
  - apply lookup_ge_None in Ek. rewrite (Forall2_length _ _ _ Hs) in Ek. apply lookup_lt_Some in Hp. lia.
Qed.

Lemma described_read d h mk pws : describes d h mk pws -> luks1_read_hdr d = Some h /\ _is_valid_device d = true.
Proof.
  intros [V Hv Hh _ _ _ _ _ _]. split; [by apply read_held; [apply V| |]|].
  unfold _is_valid_device. by rewrite (vol_block d V).
Qed.

(** Every password of a volume recovers its master key, unless under that
    password an earlier slot holds another key with the same digest. *)
Theorem luks1_recover_finds d h mk pws i pwd :
  describes d h mk pws -> pws !! i = Some (Some pwd) -> no_match_before d h pwd i ->
  luks1_recover_master_key calloc d pwd = inr (mk, key_bytes h).
Proof.
  intros Hde Hp Hn. destruct (find_described d h mk pws i pwd Hde Hp Hn) as (k & _ & _ & E).
  destruct (described_read d h mk pws Hde) as [Hr Hv].
  unfold luks1_recover_master_key. rewrite Hv, Hr, E. done.
Qed.

(** ** Adding a key *)

(** What a header needs for its key slots to be written: a cipher, a hash, and
    memory for the stripes. *)
Record usable (h : luks1_hdr_t) : Prop := {
  us_cipher : _get_cipher_info h <> None; us_size : vic_hash_size (cstr (hash_spec h)) <> None;
  us_hash : vic_hash_init (vic_hash_type (cstr (hash_spec h))) = true;
  us_calloc : forall k, k ∈ keyslots h -> calloc (stripes k * key_bytes h) = true }.

Lemma encrypt_total h key data : _get_cipher_info h <> None -> exists c, _encrypt h key data 0 = Some c.
Proof.
  intros Hci. unfold _encrypt, _crypt. destruct (_get_cipher_info h) as [t|] eqn:E; [|done]. cbn [mbind option_bind].
  assert (forall n sector l bs, exists c, crypt_blocks n h true t key bs sector l = Some c) as Htot.
  { induction n as [|n IH]; intros sector l bs; [by eexists|]. cbn [crypt_blocks].
    assert (exists iv, _gen_iv h sector key = Some iv) as [iv ->].
    { unfold _get_cipher_info in E. unfold _gen_iv. destruct (negb _); [done|]. cbv zeta in E.
      repeat (case_bool_decide; [by eexists|]). done. }
    cbn [mbind option_bind]. destruct (IH (u64 (sector + 1)) (drop bs l) bs) as [c ->]. by eexists. }
  destruct (Htot (length data / if bool_decide (cstr (cipher_mode h) = MODE_ECB) then 16 else 512)%nat 0 data
    (if bool_decide (cstr (cipher_mode h) = MODE_ECB) then 16 else 512)%nat) as [c ->]. by eexists.
Qed.

Lemma slot_material_total h k mk pwd pkey rsplit :
  usable h -> geometry h k -> calloc (stripes k * key_bytes h) = true -> key_bytes h = Z.of_nat (length mk) ->
  vic_pbkdf2 pwd (salt k) (iterations k) (cstr (hash_spec h)) (key_bytes h) = Some pkey ->
  exists data, slot_material calloc h k mk pwd rsplit = Some data.
Proof.
  intros [U1 U2 U3 _] [H1 H2 H3 H4] Hc Hkb Hp. unfold slot_material.
  rewrite (Z.mul_comm (key_bytes h)). rewrite (u32_small (stripes k * key_bytes h)) by nia.
  rewrite (proj2 (Z.eqb_neq _ _)), Hc by nia. cbn [negb]. rewrite Hp. cbn [mbind option_bind].
  rewrite Hkb.
  destruct (afsplit_total (cstr (hash_spec h)) mk (stripes k) rsplit) as [split ->];
    [unfold sizeof_key; lia|nia|nia|done|done|]. cbn [returned mbind option_bind]. by apply encrypt_total.
Qed.

Definition new_slot (k : vic_luks_keyslot_t) (iter : Z) (rsalt : list Z) : vic_luks_keyslot_t :=
  mk_slot LUKS_KEY_ENABLED (u32 (at_least iter)) rsalt (key_material_offset k) (stripes k).

Lemma new_slot_wf k iter rsalt : slot_wf k -> length rsalt = 32%nat -> slot_wf (new_slot k iter rsalt).
Proof. intros [] Hr. split; simpl; try done; apply wrap_range; lia. Qed.

(** The first free slot, by the description. *)
Lemma find_free d h mk pws i :
  describes d h mk pws -> pws !! i = Some None -> (forall j, (j < i)%nat -> pws !! j ≠ Some None) ->
  exists k, list_find disabled (keyslots h) = Some (i, k) /\ keyslots h !! i = Some k.
Proof.
  intros [V Hv Hh Hk Hdg Hg Ha Hap Hs] Hi Hb. destruct (keyslots h !! i) as [k|] eqn:Ek.
  - exists k. split; [|done]. apply list_find_Some. split_and!; [done| |].
    + assert (slot_holds d h mk k None) as Hn by (by eapply Forall2_lookup_lr). exact Hn.
    + intros j y Hy Hj Hdis. destruct (pws !! j) as [[p|]|] eqn:Ep.
      * assert (slot_holds d h mk y (Some p)) as [He _] by (by eapply Forall2_lookup_lr).
        unfold disabled in Hdis. rewrite Hdis in He. done.
      * by apply (Hb j).
      * apply lookup_ge_None in Ep. rewrite <- (Forall2_length _ _ _ Hs) in Ep. apply lookup_lt_Some in Hy. lia.
  - apply lookup_ge_None in Ek. rewrite (Forall2_length _ _ _ Hs) in Ek. apply lookup_lt_Some in Hi. lia.
Qed.

(** Adding a key to the description, once the master key is known. *)
Lemma add_described d h mk pws i iter pwd pkey rsalt rsplit :
  describes d h mk pws -> usable h -> pws !! i = Some None -> (forall j, (j < i)%nat -> pws !! j ≠ Some None) ->
  length rsalt = 32%nat -> (forall k, keyslots h !! i = Some k -> Z.of_nat (length rsplit) = key_bytes h * stripes k) ->
  vic_pbkdf2 pwd rsalt (u32 (at_least iter)) (cstr (hash_spec h)) (key_bytes h) = Some pkey ->
  exists h' data d', _add_key calloc h mk pwd (at_least iter) rsalt rsplit = Some (h', data, i) /\
    write_slot calloc d h' i (Some data) = (VIC_OK, d') /\ describes d' h' mk (<[i := Some pwd]> pws).
Proof.
  intros Hde Hu Hi Hb Hrs Hrsp Hp. destruct (find_free d h mk pws i Hde Hi Hb) as (k & Hfind & Hk).
  pose proof Hde as [V Hv Hh Hkb Hdg Hg Ha Hap Hs].
  assert (geometry h k) as Hgk by (by eapply Forall_lookup_1).
  assert (slot_wf k) as Hwk by (destruct Hv as [[] _]; by eapply Forall_lookup_1).
  assert (geometry h (new_slot k iter rsalt)) as Hgn by (by destruct Hgk).
  destruct (slot_material_total h (new_slot k iter rsalt) mk pwd pkey rsplit) as [data Hdata]; try done.
  { exact (us_calloc h Hu k (list_elem_of_lookup_2 _ _ _ Hk)). }
  destruct (describes_write d h mk pws i k (new_slot k iter rsalt) (Some data) data (Some pwd))
    as (d' & Hw & Hde' & _); try done.
  { by apply new_slot_wf. }
  { exact (proj1 (crypt_of_material h (new_slot k iter rsalt) mk pwd rsplit data Hgn Hkb (Hrsp k Hk) Hdata)). }
  { intros d' Hm. split; [done|].
    exact (proj2 (candidate_of_material d' h (new_slot k iter rsalt) mk pwd rsplit data Hgn Hkb (Hrsp k Hk) Hdata Hm)). }
  exists (set_slot h i (new_slot k iter rsalt)), data, d'. split_and!; [|done|done].
  unfold _add_key. rewrite (proj2 (Z.ltb_ge _ _)) by (destruct Hgk; unfold sizeof_key; lia).
  rewrite Hfind. cbn [mbind option_bind]. fold (new_slot k iter rsalt). by rewrite Hdata.
Qed.

(** C5. Adding a key, with the master key or with a password of the volume: the
    first free slot gets the new password, all other passwords stay, and nothing
    else of the volume changes. *)
Theorem luks1_add_refines d h mk pws i iter pwd pkey rsalt rsplit old j :
  describes d h mk pws -> usable h -> pws !! i = Some None -> (forall j, (j < i)%nat -> pws !! j ≠ Some None) ->
  length rsalt = 32%nat -> (forall k, keyslots h !! i = Some k -> Z.of_nat (length rsplit) = key_bytes h * stripes k) ->
  vic_pbkdf2 pwd rsalt (u32 (at_least iter)) (cstr (hash_spec h)) (key_bytes h) = Some pkey ->
  pws !! j = Some (Some old) -> no_match_before d h old j ->
  exists h' d', luks1_add_key_by_master_key calloc d iter mk pwd rsalt rsplit = (VIC_OK, d') /\
    luks1_add_key calloc d iter old pwd rsalt rsplit = (VIC_OK, d') /\
    describes d' h' mk (<[i := Some pwd]> pws).
Proof.
  intros Hde Hu Hi Hb Hrs Hrsp Hp Hj Hn.
  destruct (add_described d h mk pws i iter pwd pkey rsalt rsplit) as (h' & data & d' & E1 & E2 & Hde'); try done.
  destruct (described_read d h mk pws Hde) as [Hr Hv].
  destruct (find_described d h mk pws j old Hde Hj Hn) as (k & _ & _ & Ef).
  exists h', d'. split_and!; [| |done].
  - unfold luks1_add_key_by_master_key. rewrite Hv, Hr. cbn [negb].
    rewrite (de_key _ _ _ _ Hde), Z.eqb_refl. cbn [negb]. by rewrite E1.
  - unfold luks1_add_key, luks1_recover_master_key. rewrite Hv, Hr, Ef. cbn [negb]. by rewrite E1.
Qed.

(** ** Removing and changing a key *)

Lemma disable_wf k : slot_wf k -> slot_wf (disable k).
Proof. intros []. by split. Qed.

(** Removing a password: its slot becomes free and its key material is
    overwritten with zeros; all other passwords stay. *)
Theorem luks1_remove_refines d h mk pws i pwd :
  describes d h mk pws -> usable h -> pws !! i = Some (Some pwd) -> no_match_before d h pwd i ->
  exists k h' d', keyslots h !! i = Some k /\ luks1_remove_key calloc d pwd = (VIC_OK, d') /\
    describes d' h' mk (<[i := None]> pws) /\
    holds_material d' h k (replicate (Z.to_nat (stripes k * key_bytes h)) 0).
Proof.
  intros Hde Hu Hi Hn. destruct (find_described d h mk pws i pwd Hde Hi Hn) as (k & Hk & _ & Ef).
  destruct (described_read d h mk pws Hde) as [Hr Hv]. pose proof Hde as [V Hva Hh Hkb Hdg Hg Ha Hap Hs].
  assert (geometry h k) as Hgk by (by eapply Forall_lookup_1).
  destruct (describes_write d h mk pws i k (disable k) None
    (replicate (Z.to_nat (stripes k * key_bytes h)) 0) None) as (d' & Hw & Hde' & Hm); try done.
  { apply disable_wf. destruct Hva as [[] _]. by eapply Forall_lookup_1. }
  { rewrite length_replicate. destruct Hgk. nia. }
  { intros _. exact (us_calloc h Hu k (list_elem_of_lookup_2 _ _ _ Hk)). }
  exists k, (set_slot h i (disable k)), d'. split_and!; try done.
  unfold luks1_remove_key. rewrite Hv, Hr. cbn [negb]. by rewrite Ef, Hk.
Qed.

(** Changing a password: the slot of the old one gets the new one, all
    others stay.  But if the new password cannot be used (it is empty, the cipher
    is not available, or there is no memory), the result is VIC_OK too, and the
    volume is as before: the old password is still the valid one. *)
Theorem luks1_change_key_spec d h mk pws i old new rsalt rsplit k :
  describes d h mk pws -> pws !! i = Some (Some old) -> no_match_before d h old i ->
  keyslots h !! i = Some k -> length rsalt = 32%nat -> Z.of_nat (length rsplit) = key_bytes h * stripes k ->
  let k' := mk_slot (active k) (iterations k) rsalt (key_material_offset k) (stripes k) in
  match slot_material calloc h k' mk new rsplit with
  | None => luks1_change_key calloc d old new rsalt rsplit = (VIC_OK, d)
  | Some _ => exists h' d', luks1_change_key calloc d old new rsalt rsplit = (VIC_OK, d') /\
                describes d' h' mk (<[i := Some new]> pws)
  end.
Proof.
  intros Hde Hi Hn Hk Hrs Hrsp k'. destruct (find_described d h mk pws i old Hde Hi Hn) as (k0 & Hk0 & He & Ef).
  assert (k0 = k) as -> by congruence. destruct (described_read d h mk pws Hde) as [Hr Hv].
  pose proof Hde as [V Hva Hh Hkb Hdg Hg Ha Hap Hs]. assert (geometry h k) as Hgk by (by eapply Forall_lookup_1).
  assert (geometry h k') as Hgk' by (by destruct Hgk).
  unfold luks1_change_key. rewrite Hv, Hr. cbn [negb]. rewrite Ef, Hk. fold k'.
  destruct (slot_material calloc h k' mk new rsplit) as [data|] eqn:Em; [|done].
  destruct (describes_write d h mk pws i k k' (Some data) data (Some new)) as (d' & Hw & Hde' & _); try done.
  { destruct Hva as [[] _]. assert (slot_wf k) as [] by (by eapply Forall_lookup_1). by split. }
  { exact (proj1 (crypt_of_material h k' mk new rsplit data Hgk' Hkb Hrsp Em)). }
  { intros d' Hm. split; [done|]. exact (proj2 (candidate_of_material d' h k' mk new rsplit data Hgk' Hkb Hrsp Em Hm)). }
  by exists (set_slot h i k'), d'.
Qed.

(** ** Formatting *)

Lemma listed_short (l : list text) x :
  Forall (fun y => (length y < 32)%nat /\ Forall (fun c => c ≠ 0) y) l -> listed l x = true ->
  length (pad 32 x) = 32%nat /\ cstr (pad 32 x) = x.
Proof.
  intros Hl [_ Hx]%andb_true_iff. apply bool_decide_eq_true in Hx. rewrite Forall_forall in Hl.
  destruct (Hl x Hx) as [H1 H2]. unfold pad. rewrite length_app, length_replicate, cstr_zeros by done. split; [lia|done].
Qed.

Ltac all_short := apply (bool_decide_unpack _); vm_compute; exact I.
Lemma names_short : Forall (fun y => (length y < 32)%nat /\ Forall (fun c => c ≠ 0) y) cipher_names.
Proof. all_short. Qed.
Lemma modes_short : Forall (fun y => (length y < 32)%nat /\ Forall (fun c => c ≠ 0) y) cipher_modes.
Proof. all_short. Qed.
Lemma specs_short : Forall (fun y => (length y < 32)%nat /\ Forall (fun c => c ≠ 0) y) hash_specs.
Proof. all_short. Qed.

(** The sectors that the header sets aside for each slot's material. *)
Definition slot_sectors (n : Z) : Z := LUKS_STRIPES * n / VIC_SECTOR_SIZE + 1.

(** What is true of every header that [_initialize_hdr] makes. *)
Record fresh_header (h : luks1_hdr_t) (name mode : text) (mk : list Z) (spec : text) : Prop := {
  fh_valid : hdr_valid h; fh_key : key_bytes h = Z.of_nat (length mk);
  fh_digest : digest_of h mk = Some (mk_digest h);
  fh_name : cstr (cipher_name h) = name; fh_mode : cstr (cipher_mode h) = mode; fh_spec : cstr (hash_spec h) = spec;
  fh_slots : Forall (fun k => active k = LUKS_KEY_DISABLED /\ stripes k = LUKS_STRIPES /\
               2 <= key_material_offset k /\ area_end k (slot_sectors (key_bytes h)) <= payload_offset h) (keyslots h);
  fh_order : forall i j ki kj, (i < j)%nat -> keyslots h !! i = Some ki -> keyslots h !! j = Some kj ->
               area_end ki (slot_sectors (key_bytes h)) <= key_material_offset kj;
  fh_payload : payload_offset h < 10240 }.

Lemma initialize_fresh name mode mk spec uu iter rsalt ruuid h :
  (length mk <= sizeof_key)%nat -> length rsalt = 32%nat -> length ruuid = 16%nat ->
  _initialize_hdr name mode mk spec uu iter rsalt ruuid = Some h -> fresh_header h name mode mk spec.
Proof.
  intros Hmk Hrs Hru. unfold _initialize_hdr, sizeof_key in *.
  destruct (_valid_cipher_name name) eqn:E1; [|done]. destruct (_valid_cipher_mode mode) eqn:E2; [|done]. cbn [negb].
  case_decide as E3; [done|]. destruct (_valid_hash_spec spec) eqn:E4; [|done]. cbn [negb].
  set (n := Z.of_nat (length mk)). destruct (vic_pbkdf2 mk rsalt _ _ _) as [dg|] eqn:Edg; [|done]. cbn [mbind option_bind].
  fold (slot_sectors n).
  assert (1 <= n <= 128) as Hn by (destruct mk; [done|]; simpl in *; lia).
  assert (1 <= slot_sectors n <= 1001) as Hsec.
  { unfold slot_sectors, LUKS_STRIPES, VIC_SECTOR_SIZE. Z.div_mod_to_equations. lia. }
  pose proof (init_slots_layout LUKS_NUM_KEYS (((sizeof_hdr / VIC_SECTOR_SIZE) + 1) * VIC_SECTOR_SIZE) (slot_sectors n)) as HL.
  change ((sizeof_hdr / VIC_SECTOR_SIZE + 1) * VIC_SECTOR_SIZE) with 1024 in *.
  destruct (init_slots LUKS_NUM_KEYS 1024 (slot_sectors n)) as [ks e].
  destruct HL as (L1 & L2 & L3 & L4); [lia|lia|unfold LUKS_NUM_KEYS; lia|]. unfold LUKS_NUM_KEYS in L2.
  destruct (round_up_spec e LUKS_DISK_ALIGNMENT) as [R1 R2]; [lia|done|unfold LUKS_DISK_ALIGNMENT; lia|].
  set (r := vic_round_up e LUKS_DISK_ALIGNMENT) in *. unfold LUKS_DISK_ALIGNMENT in R1, R2.
  assert (r / 512 * 512 = r) as Er.
  { apply Z.mod_divide in R2 as [q Hq]; [|lia]. rewrite Hq. replace (q * (1024 * 1024)) with (q * 2048 * 512) by lia.
    by rewrite Z.div_mul by lia. }
  unfold VIC_SECTOR_SIZE. rewrite (u32_small (r / 512)) by lia.
  assert (forall u, length u = 40%nat ->
    fresh_header (mk_hdr LUKS_MAGIC_1ST LUKS_VERSION_1 (pad 32 name) (pad 32 mode) (pad 32 spec) (r / 512) n dg rsalt
      (u32 iter) u ks) name mode mk spec) as Hfresh.
  { intros u Hu. destruct (listed_short _ _ names_short E1) as [N1 N2].
    destruct (listed_short _ _ modes_short E2) as [M1 M2]. destruct (listed_short _ _ specs_short E4) as [S1 S2].
    split; try done.
    - split; [|done]. split; simpl; try done; try (unfold is_u32; lia); try (apply wrap_range; lia).
      + by rewrite (pbkdf2_length _ _ _ _ _ _ Edg).
      + eapply Forall_impl; [exact L3|]. by intros k (? & _).
    - unfold digest_of. simpl. by rewrite S2.
    - simpl. eapply Forall_impl; [exact L3|]. cbn beta. intros k (? & ? & ? & ? & ?). split_and!; try done; lia.
    - simpl. lia. }
  destruct uu as [u|].
  - destruct (vic_uuid_valid u) eqn:Eu; [|done]. cbn [mbind option_bind]. intros [= <-]. apply Hfresh.
    unfold vic_uuid_valid in Eu. destruct (Nat.eqb_spec (length u) 36); [|done].
    unfold pad. rewrite length_app, length_replicate. lia.
  - cbn [mbind option_bind]. intros [= <-]. apply Hfresh. unfold pad.
    rewrite length_app, length_replicate, generated_length by done. lia.
Qed.

(** The blocks of a slot's material, by the size of the key. *)
Lemma fresh_blocks h k name mode mk spec :
  fresh_header h name mode mk spec -> mk ≠ [] -> (length mk <= sizeof_key)%nat -> stripes k = LUKS_STRIPES ->
  0 <= material_blocks h k <= slot_sectors (key_bytes h).
Proof.
  intros [_ Hk _ _ _ _ _ _ _] Hne Hl Hs. unfold material_blocks, slot_sectors, sizeof_key in *. rewrite Hs, Hk.
  destruct mk as [|b mk]; [done|]. unfold LUKS_STRIPES, VIC_SECTOR_SIZE. simpl length in *.
  rewrite u32_small by lia. split; [apply Z.div_pos; lia|lia].
Qed.

(** A device of at least 5 MB is formatted. *)
Lemma format_described d name mode uu hash iter mk rkey rsalt ruuid dg :
  volume d -> 10240 <= vic_blockdev_get_num_blocks d ->
  _valid_cipher_name name = true -> _valid_cipher_mode mode = true -> _valid_hash_spec (default DEFAULT_HASH hash) = true ->
  mk ≠ [] -> (length mk <= sizeof_key)%nat -> (16 | Z.of_nat (length mk)) -> length rsalt = 32%nat -> length ruuid = 16%nat ->
  (match uu with Some u => vic_uuid_valid u = true | None => True end) ->
  vic_pbkdf2 mk rsalt (u32 (if iter <? LUKS_MIN_MK_ITERATIONS then LUKS_MIN_MK_ITERATIONS else iter))
    (default DEFAULT_HASH hash) LUKS_DIGEST_SIZE = Some dg ->
  exists h d', luks1_format d name mode uu hash iter (Some mk) rkey rsalt ruuid = (VIC_OK, d') /\
    describes d' h mk (replicate LUKS_NUM_KEYS None) /\ fresh_header h name mode mk (default DEFAULT_HASH hash) /\
    Forall (fun k => key_material_offset k + material_blocks h k <= payload_offset h) (keyslots h).
Proof.
  intros Hd Hnum H1 H2 H3 Hne Hl [q Hq] Hrs Hru Huu Hdg. pose proof Hd as [Hbd Hbs Hc _ Hr].
  set (it := if iter <? _ then _ else _) in *. set (spec := default DEFAULT_HASH hash) in *.
  assert (exists h, _initialize_hdr name mode mk spec uu it rsalt ruuid = Some h) as [h Hinit].
  { unfold _initialize_hdr. rewrite H1, H2, H3. cbn [negb]. rewrite decide_False by done. rewrite Hdg.
    cbn [mbind option_bind]. destruct (init_slots _ _ _) as [ks e].
    destruct uu as [u|]; [rewrite Huu|]; cbn [mbind option_bind]; by eexists. }
  pose proof (initialize_fresh name mode mk spec uu it rsalt ruuid h Hl Hrs Hru Hinit) as Hf.
  pose proof Hf as [Fv Fk Fd Fn Fm Fs Fsl Fo Fp].
  destruct (write_header d h Hd Fv) as (f & E1 & V1 & Hold & _). set (d1 := with_file f (size d) d) in *.
  assert (forall k, k ∈ keyslots h -> stripes k = LUKS_STRIPES /\ 2 <= key_material_offset k /\
    key_material_offset k + material_blocks h k <= payload_offset h /\ 0 <= material_blocks h k) as Hslot.
  { intros k Hk. rewrite Forall_forall in Fsl. destruct (Fsl k Hk) as (_ & Hst & H2k & Hend).
    pose proof (fresh_blocks h k name mode mk spec Hf Hne Hl Hst). unfold area_end in Hend. split_and!; try done; lia. }
  exists h, d1. split_and!.
  - unfold luks1_format, _is_valid_device. rewrite Hbs. change (512 =? VIC_SECTOR_SIZE) with true. cbn [negb].
    rewrite bool_decide_false by done. rewrite bool_decide_false by lia. cbv zeta. fold spec it. rewrite Hinit.
    rewrite (proj2 (Z.leb_gt _ _)) by lia. by rewrite E1.
  - split; try done.
    + apply Forall_forall. intros k Hk. destruct (Hslot k Hk) as (Hst & _). unfold sizeof_key in Hl.
      assert (0 < length mk)%nat by (destruct mk; [done|simpl; lia]).
      split; rewrite ?Hst, ?Fk; unfold LUKS_STRIPES; [lia|lia|lia|]. exists (q * 125). lia.
    + apply Forall_forall. intros k Hk. destruct (Hslot k Hk) as (_ & H2k & Hend & Hmb). split; [done|].
      unfold inside. cbn [size offset with_file d1]. split_and!; [lia|done|].
      assert ((key_material_offset k + material_blocks h k) * 512 <= size d - offset d); [|lia].
      assert (vic_blockdev_get_num_blocks d * 512 <= size d - offset d) as Hnb; [|lia].
      unfold vic_blockdev_get_num_blocks. rewrite Hbs. destruct Hbd as [_ _ Hfull Hsz Hof].
      rewrite u64_small by lia. pose proof (Z.mul_div_le (size d - offset d) 512 ltac:(lia)). lia.
    + intros i j ki kj Hij Hi Hj.
      assert (forall x, x ∈ keyslots h -> material_blocks h x <= slot_sectors (key_bytes h)) as Hms
        by (intros x Hx; by apply (fresh_blocks h x name mode mk spec Hf Hne Hl); apply Hslot).
      pose proof (Hms ki (list_elem_of_lookup_2 _ _ _ Hi)). pose proof (Hms kj (list_elem_of_lookup_2 _ _ _ Hj)).
      unfold apart. destruct (decide (i < j)%nat) as [Hlt|Hge].
      * left. pose proof (Fo i j ki kj Hlt Hi Hj). unfold area_end in *. lia.
      * right. pose proof (Fo j i kj ki ltac:(lia) Hj Hi). unfold area_end in *. lia.
    + apply Forall2_same_length_lookup. split.
      * rewrite length_replicate. destruct Fv as [[] _]. done.
      * intros i k p Hk Hp. apply lookup_replicate in Hp as [-> _]. rewrite Forall_forall in Fsl.
        by destruct (Fsl k (list_elem_of_lookup_2 _ _ _ Hk)) as (? & _).
  - exact Hf.
  - apply Forall_forall. intros k Hk. by destruct (Hslot k Hk) as (_ & _ & ? & _).
Qed.

(** Formatting a device of at least 5 MB with a master key of a whole number
    of AES blocks: the result is a volume with this key and no password.  In
    particular the eight areas for key material lie behind the header, do not
    overlap each other, and end before the payload. *)
Theorem luks1_format_describes d name mode uu hash iter mk rkey rsalt ruuid dg :
  volume d -> 10240 <= vic_blockdev_get_num_blocks d ->
  _valid_cipher_name name = true -> _valid_cipher_mode mode = true -> _valid_hash_spec (default DEFAULT_HASH hash) = true ->
  mk ≠ [] -> (length mk <= sizeof_key)%nat -> (16 | Z.of_nat (length mk)) -> length rsalt = 32%nat -> length ruuid = 16%nat ->
  (match uu with Some u => vic_uuid_valid u = true | None => True end) ->
  vic_pbkdf2 mk rsalt (u32 (if iter <? LUKS_MIN_MK_ITERATIONS then LUKS_MIN_MK_ITERATIONS else iter))
    (default DEFAULT_HASH hash) LUKS_DIGEST_SIZE = Some dg ->
  exists h d', luks1_format d name mode uu hash iter (Some mk) rkey rsalt ruuid = (VIC_OK, d') /\
    describes d' h mk (replicate LUKS_NUM_KEYS None) /\
    Forall (fun k => key_material_offset k + material_blocks h k <= payload_offset h) (keyslots h).
Proof.
  intros. destruct (format_described d name mode uu hash iter mk rkey rsalt ruuid dg) as (h & d' & ? & ? & _ & ?); try done.
  by exists h, d'.
Qed.

(** A volume that is formatted without giving a master key is useless: the
    random key is as long as the key buffer, 128 bytes, for which no cipher is
    available, so that no password can ever be added. *)
Theorem default_key_unusable d name mode uu hash iter rkey rsalt ruuid d' iter2 mk pwd rsalt2 rsplit :
  volume d -> length rkey = sizeof_key -> length rsalt = 32%nat -> length ruuid = 16%nat ->
  luks1_format d name mode uu hash iter None rkey rsalt ruuid = (VIC_OK, d') ->
  length mk = length rkey -> luks1_add_key_by_master_key calloc d' iter2 mk pwd rsalt2 rsplit = (VIC_FAILED, d').
Proof.
  intros Hd Hrk Hrs Hru. unfold luks1_format. destruct (negb (_is_valid_device d)); [done|]. cbv zeta.
  destruct (_initialize_hdr _ _ _ _ _ _ _ _) as [h|] eqn:Ei; [|done].
  assert (fresh_header h name mode rkey (default DEFAULT_HASH hash)) as [Fv Fk _ _ _ _ _ _ _]
    by (eapply initialize_fresh; [unfold sizeof_key in *; lia|done|done|exact Ei]).
  destruct (_ <=? payload_offset h); [done|].
  destruct (write_header d h Hd Fv) as (f & -> & V1 & Hold & _). intros [= <-] Hmk.
  unfold luks1_add_key_by_master_key. rewrite (read_held _ h) by (done || apply Hd).
  unfold _is_valid_device. cbn [block_size with_file]. rewrite (vol_block d Hd).
  change (512 =? VIC_SECTOR_SIZE) with true. cbn [negb]. rewrite Fk, Hmk, Z.eqb_refl. cbn [negb].
  assert (_get_cipher_info h = None) as Hci.
  { unfold _get_cipher_info. rewrite Fk, Hrk. unfold sizeof_key.
    change (u32 (Z.of_nat 128 * 8)) with 1024. destruct (negb _); [done|]. cbv zeta.
    destruct (bool_decide (_ = MODE_ECB)); [done|]. destruct (bool_decide (_ = MODE_CBC_PLAIN)); [done|].
    by destruct (bool_decide (_ = MODE_XTS_PLAIN64)). }
  assert (forall k, slot_material calloc h k mk pwd rsplit = None) as Hnone.
  { intros k. unfold slot_material, _encrypt, _crypt. rewrite Hci. destruct (_ =? 0); [done|]. destruct (negb _); [done|].
    destruct (vic_pbkdf2 _ _ _ _ _); [|done]. cbn [mbind option_bind]. by destruct (returned _). }
  unfold _add_key. destruct (_ <? key_bytes h); [done|]. destruct (list_find disabled (keyslots h)) as [[i k]|]; [|done].
  cbn [mbind option_bind]. by rewrite Hnone.
Qed.
End Props.

(** ** A sample volume *)

#[export] Instance toy_ciphers : Ciphers := {
  cipher_crypt op t k iv d := rev d;
  cipher_crypt_length op t k iv d := length_rev d;
  cipher_crypt_inverse t k iv d _ := rev_involutive d;
  aes_crypt_ecb k d := d }.

Definition enough : Z -> bool := fun _ => true.
Definition sample_device : blockdev_t := mk_bd (replicate (Z.to_nat 5242880) 0) 5242880 5242880 0 512 false true.
Definition sample_mk : list Z := replicate 32 5.
Definition sample_salt : list Z := replicate 32 6.
Definition sample_split : list Z := replicate (Z.to_nat 128000) 7.
Definition sample_pwd : list Z := [112; 119].

Lemma sample_volume_ok : volume sample_device.
Proof.
  split; [|done|done|done|change (0 + 1024 <= 5242880); lia]. split; cbn [sample_device file full_size size offset block_size].
  - exists 9. split; [lia|done].
  - rewrite length_replicate, Z2Nat.id; [done|lia].
  - lia.
  - lia.
  - lia.
Qed.

(** The sample device formatted, and a password added. *)
Lemma sample_formatted :
  exists h d, luks1_format sample_device (bytes "aes") MODE_XTS_PLAIN64 None None 0 (Some sample_mk) [] sample_salt
      (replicate 16 9) = (VIC_OK, d) /\
    describes enough d h sample_mk (replicate 8 None) /\ usable enough h /\ key_bytes h = 32 /\
    Forall (fun k => stripes k = LUKS_STRIPES) (keyslots h).
Proof.
  destruct (format_described enough sample_device (bytes "aes") MODE_XTS_PLAIN64 None None 0 sample_mk [] sample_salt
    (replicate 16 9) (replicate 20 (byte_sum sample_mk))) as (h & d & E & Hd & Hf & _);
    [apply sample_volume_ok|change (10240 <= u64 (5242880 - 0) / 512); vm_compute; discriminate|reflexivity|reflexivity|reflexivity|discriminate|vm_compute; lia
    |by exists 2|reflexivity|reflexivity|exact I|reflexivity|].
  exists h, d. destruct Hf as [Fv Fk Fd Fn Fm Fs Fsl Fo Fp].
  split; [exact E|]. split; [exact Hd|]. split; [|split; [exact Fk|]].
  - split; [|by rewrite Fs|by rewrite Fs|done]. unfold _get_cipher_info. by rewrite Fn, Fm, Fk.
  - eapply Forall_impl; [exact Fsl|]. by intros k (_ & ? & _).
Qed.

Lemma sample_with_password :
  exists h d0 d, luks1_format sample_device (bytes "aes") MODE_XTS_PLAIN64 None None 0 (Some sample_mk) [] sample_salt
      (replicate 16 9) = (VIC_OK, d0) /\
    luks1_add_key_by_master_key enough d0 0 sample_mk sample_pwd sample_salt sample_split = (VIC_OK, d) /\
    describes enough d h sample_mk (Some sample_pwd :: replicate 7 None) /\ usable enough h /\ key_bytes h = 32 /\
    Forall (fun k => stripes k = LUKS_STRIPES) (keyslots h).
Proof.
  destruct sample_formatted as (h & d & E & Hd & Hu & Hk & Hst).
  assert (forall k, keyslots h !! 0%nat = Some k -> Z.of_nat (length sample_split) = key_bytes h * stripes k) as Hsp.
  { intros k Hk0. assert (stripes k = LUKS_STRIPES) as -> by (exact (Forall_lookup_1 _ _ _ _ Hst Hk0)).
    unfold sample_split. rewrite length_replicate, Z2Nat.id, Hk by lia. done. }
  destruct (add_described enough d h sample_mk (replicate 8 None) 0 0 sample_pwd (replicate 32 (byte_sum sample_pwd))
    sample_salt sample_split) as (h' & data & d' & E1 & E2 & Hd');
    [exact Hd|exact Hu|reflexivity|intros j Hj; lia|reflexivity|exact Hsp| |].
  { unfold vic_pbkdf2. rewrite decide_False by (intros [|[|]]; [done..|lia]). rewrite Hk.
    destruct Hu as [_ U2 U3 _]. destruct (vic_hash_type (cstr (hash_spec h))); done. }
  destruct (described_read enough d h _ _ Hd) as [Hr Hv].
  assert (exists k, h' = set_slot h 0 k /\ stripes k = LUKS_STRIPES) as (k & -> & Hks).
  { revert E1. unfold _add_key. destruct (_ <? key_bytes h); [done|].
    destruct (list_find disabled (keyslots h)) as [[i k]|] eqn:Ef; [|done]. cbn [mbind option_bind].
    destruct (slot_material _ _ _ _ _ _); [|done]. cbn [mbind option_bind]. intros [= <- _ ->]. eexists. split; [done|].
    apply list_find_Some in Ef as (Hl & _). exact (Forall_lookup_1 _ _ _ _ Hst Hl). }
  exists (set_slot h 0 k), d, d'. split; [exact E|]. split; [|split; [exact Hd'|split; [|split; [exact Hk|]]]].
  - unfold luks1_add_key_by_master_key. rewrite Hv, Hr. cbn [negb]. rewrite (de_key _ _ _ _ _ Hd), Z.eqb_refl. cbn [negb].
    by rewrite E1.
  - destruct Hu as [U1 U2 U3 _]. split; [exact U1|exact U2|exact U3|reflexivity].
  - simpl. by apply Forall_insert.
Qed.

Lemma luks1_recover_finds_witness :
  exists d0 d, luks1_format sample_device (bytes "aes") MODE_XTS_PLAIN64 None None 0 (Some sample_mk) [] sample_salt
      (replicate 16 9) = (VIC_OK, d0) /\
    luks1_add_key_by_master_key enough d0 0 sample_mk sample_pwd sample_salt sample_split = (VIC_OK, d) /\
    luks1_recover_master_key enough d sample_pwd = inr (sample_mk, 32).
Proof.
  destruct sample_with_password as (h & d0 & d & E0 & E & Hd & Hu & Hk & _). exists d0, d. split; [exact E0|].
  split; [exact E|]. rewrite <- Hk.
  apply (luks1_recover_finds enough d h sample_mk (Some sample_pwd :: replicate 7 None) 0 sample_pwd Hd eq_refl).
  intros j k Hj. lia.
Defined.

Lemma luks1_format_describes_witness :
  exists h d', luks1_format sample_device (bytes "aes") MODE_XTS_PLAIN64 None None 0 (Some sample_mk) [] sample_salt
      (replicate 16 9) = (VIC_OK, d') /\
    describes enough d' h sample_mk (replicate LUKS_NUM_KEYS None) /\
    Forall (fun k => key_material_offset k + material_blocks h k <= payload_offset h) (keyslots h).
Proof.
  apply (luks1_format_describes enough sample_device (bytes "aes") MODE_XTS_PLAIN64 None None 0 sample_mk [] sample_salt
    (replicate 16 9) (replicate 20 (byte_sum sample_mk)));
    [apply sample_volume_ok|change (10240 <= u64 (5242880 - 0) / 512); vm_compute; discriminate|reflexivity|reflexivity
    |reflexivity|discriminate|vm_compute; lia|exists 2; reflexivity|reflexivity|reflexivity|exact I|reflexivity].
Defined.

(** A second password, added with the first one. *)
Lemma luks1_add_refines_witness :
  exists h h' d d', describes enough d h sample_mk (Some sample_pwd :: replicate 7 None) /\
    luks1_add_key_by_master_key enough d 2000 sample_mk [120] sample_salt sample_split = (VIC_OK, d') /\
    luks1_add_key enough d 2000 sample_pwd [120] sample_salt sample_split = (VIC_OK, d') /\
    describes enough d' h' sample_mk (Some sample_pwd :: Some [120] :: replicate 6 None).
Proof.
  destruct sample_with_password as (h & d0 & d & E0 & E & Hd & Hu & Hk & Hst).
  destruct (luks1_add_refines enough d h sample_mk (Some sample_pwd :: replicate 7 None) 1 2000 [120]
    (replicate 32 (byte_sum [120])) sample_salt sample_split sample_pwd 0) as (h' & d' & H1 & H2 & H3).
  - exact Hd.
  - exact Hu.
  - reflexivity.
  - intros j Hj. assert (j = O) as -> by lia. discriminate.
  - reflexivity.
  - intros k Hk0. assert (stripes k = LUKS_STRIPES) as -> by (exact (Forall_lookup_1 _ _ _ _ Hst Hk0)).
    unfold sample_split. rewrite length_replicate, Z2Nat.id, Hk by lia. reflexivity.
  - unfold vic_pbkdf2. rewrite decide_False by (intros [|[|]]; [discriminate..|lia]). rewrite Hk.
    destruct Hu as [_ U2 U3 _]. destruct (vic_hash_type (cstr (hash_spec h))); [discriminate|reflexivity..].
  - reflexivity.
  - intros j k Hj. lia.
  - exists h, h', d, d'. split; [exact Hd|]. split; [exact H1|]. split; [exact H2|exact H3].
Defined.

Lemma luks1_remove_refines_witness :
  exists k h h' d d', describes enough d h sample_mk (Some sample_pwd :: replicate 7 None) /\
    keyslots h !! 0%nat = Some k /\ luks1_remove_key enough d sample_pwd = (VIC_OK, d') /\
    describes enough d' h' sample_mk (None :: replicate 7 None) /\
    holds_material d' h k (replicate (Z.to_nat (stripes k * key_bytes h)) 0).
Proof.
  destruct sample_with_password as (h & d0 & d & E0 & E & Hd & Hu & Hk & Hst).
  destruct (luks1_remove_refines enough d h sample_mk (Some sample_pwd :: replicate 7 None) 0 sample_pwd Hd Hu eq_refl)
    as (k & h' & d' & H1 & H2 & H3 & H4); [intros j k Hj; lia|].
  exists k, h, h', d, d'. split; [exact Hd|]. split; [exact H1|]. split; [exact H2|]. split; [exact H3|exact H4].
Defined.

(** An empty new password: nothing happens, and the result is VIC_OK. *)
Lemma luks1_change_key_spec_witness :
  exists h d, describes enough d h sample_mk (Some sample_pwd :: replicate 7 None) /\
    luks1_change_key enough d sample_pwd [] sample_salt sample_split = (VIC_OK, d).
Proof.
  destruct sample_with_password as (h & d0 & d & E0 & E & Hd & Hu & Hk & Hst). exists h, d. split; [exact Hd|].
  destruct (keyslots h !! 0%nat) as [k|] eqn:Hk0.
  - pose proof (luks1_change_key_spec enough d h sample_mk (Some sample_pwd :: replicate 7 None) 0 sample_pwd []
      sample_salt sample_split k Hd eq_refl) as Hspec. cbv zeta in Hspec.
    assert (stripes k = LUKS_STRIPES) as Hs by (exact (Forall_lookup_1 _ _ _ _ Hst Hk0)).
    unfold slot_material in Hspec. cbn [stripes salt iterations] in Hspec. unfold vic_pbkdf2 in Hspec.
    rewrite decide_True in Hspec by (left; reflexivity). cbn [mbind option_bind] in Hspec.
    destruct (u32 (key_bytes h * stripes k) =? 0), (negb (enough (u32 (key_bytes h * stripes k))));
      (apply Hspec; [intros j k' Hj; lia|exact Hk0|reflexivity|
        unfold sample_split; rewrite length_replicate, Z2Nat.id, Hk, Hs by lia; reflexivity]).
  - apply lookup_ge_None in Hk0. pose proof (Forall2_length _ _ _ (de_slots _ _ _ _ _ Hd)) as Hl.
    rewrite Hl in Hk0. cbn [length replicate] in Hk0. lia.
Defined.

Lemma default_key_unusable_witness :
  exists d', luks1_format sample_device (bytes "aes") MODE_XTS_PLAIN64 None None 0 None (replicate sizeof_key 3) sample_salt
      (replicate 16 9) = (VIC_OK, d') /\
    luks1_add_key_by_master_key enough d' 0 (replicate sizeof_key 3) sample_pwd sample_salt sample_split = (VIC_FAILED, d').
Proof.
  destruct (format_described enough sample_device (bytes "aes") MODE_XTS_PLAIN64 None None 0 (replicate sizeof_key 3) []
    sample_salt (replicate 16 9) (replicate 20 (byte_sum (replicate sizeof_key 3)))) as (h & d & E & _ & _ & _);
    [apply sample_volume_ok|change (10240 <= u64 (5242880 - 0) / 512); vm_compute; discriminate|reflexivity|reflexivity
    |reflexivity|discriminate|vm_compute; lia|exists 8; reflexivity|reflexivity|reflexivity|exact I|reflexivity|].
  exists d. assert (luks1_format sample_device (bytes "aes") MODE_XTS_PLAIN64 None None 0 None (replicate sizeof_key 3)
    sample_salt (replicate 16 9) = (VIC_OK, d)) as E' by exact E.
  split; [exact E'|].
  apply (default_key_unusable enough sample_device (bytes "aes") MODE_XTS_PLAIN64 None None 0 (replicate sizeof_key 3)
    sample_salt (replicate 16 9) d 0 (replicate sizeof_key 3) sample_pwd sample_salt sample_split);
    [apply sample_volume_ok|reflexivity|reflexivity|reflexivity|exact E'|reflexivity].
Defined.
