(* ===== verification/JsonParser.v ===== *)
(** * JsonParser: the parser of libjson/json.c

    The parser works in place: it writes terminators over closing quotes and
    shifts strings down over their escape sequences, and the names it keeps in
    its path and the strings it hands to the callback are pointers into the
    text.  The model therefore keeps the text as one shared buffer in the
    state, next to the parser record; the scanner that counts the elements of
    an array is a copy of the parser record over the same buffer.

    Operations are in a monad of state, early return (RAISE, CHECK) and faults.
    The mutually recursive functions take fuel; JsonSafety shows that
    [2 * length + 3] is always enough. *)

From Stdlib Require Import String.
From S2P Require Import Prelude JsonText.

(** ** Data of json.h *)

Definition JSON_MAX_NESTING : nat := 64.

Inductive json_type : Type :=
| JSON_TYPE_NULL | JSON_TYPE_BOOLEAN | JSON_TYPE_INTEGER | JSON_TYPE_REAL | JSON_TYPE_STRING.

Inductive json_reason : Type :=
| JSON_REASON_NONE | JSON_REASON_NAME | JSON_REASON_BEGIN_OBJECT | JSON_REASON_END_OBJECT
| JSON_REASON_BEGIN_ARRAY | JSON_REASON_END_ARRAY | JSON_REASON_VALUE.

(** json_union_t; [U_none] is the NULL pointer. *)
Inductive json_union : Type :=
| U_none
| U_boolean (b : Z)
| U_integer (z : Z)
| U_real (d : double)
| U_string (p : nat).

(** What a union stands for: the string itself in place of its position. *)
Inductive value : Type :=
| VNone
| VBool (b : Z)
| VInt (z : Z)
| VReal (d : double)
| VString (s : text).

Record json_node : Type := Node {
  node_name : option nat;
  node_number : Z;
  node_size : Z;
  node_index : Z
}.

(** The fields of struct _json_parser the code reads; the text itself and the
    callback are outside the record. *)
Record json_parser : Type := Parser {
  ptr : nat;
  end_ : nat;
  scan : bool;
  path : list json_node;
  depth : nat;
  allow_whitespace : bool
}.

Definition sizeof_json_parser : Z := 2136.

Definition with_ptr (q : json_parser) (p : nat) : json_parser :=
  Parser p (end_ q) (scan q) (path q) (depth q) (allow_whitespace q).
Definition with_scan (q : json_parser) (b : bool) : json_parser :=
  Parser (ptr q) (end_ q) b (path q) (depth q) (allow_whitespace q).
Definition with_path (q : json_parser) (l : list json_node) : json_parser :=
  Parser (ptr q) (end_ q) (scan q) l (depth q) (allow_whitespace q).
Definition with_depth (q : json_parser) (d : nat) : json_parser :=
  Parser (ptr q) (end_ q) (scan q) (path q) d (allow_whitespace q).

Section Parser.
(** The callback's data, the callback, and the allocator: whether it grants the
    n-th request of a given size. *)
Context {D : Type}.
Variable callback : json_parser -> text -> json_reason -> json_type -> json_union ->
  json_result * D -> outcome (json_result * (json_result * D)).
Variable ja_malloc : nat -> Z -> bool.

(** ** State and monad

    [conv_err] is the global [json_conversion_error]; [mallocs] numbers the
    allocation requests, [live] counts the blocks not yet freed. *)
Record pstate : Type := PState {
  txt : text;
  prs : json_parser;
  conv_err : json_result;
  mallocs : nat;
  live : Z;
  user : D
}.

Definition set_txt (s : pstate) (t : text) : pstate :=
  PState t (prs s) (conv_err s) (mallocs s) (live s) (user s).
Definition set_prs (s : pstate) (q : json_parser) : pstate :=
  PState (txt s) q (conv_err s) (mallocs s) (live s) (user s).
Definition set_conv (s : pstate) (e : option json_result) : pstate :=
  PState (txt s) (prs s) (default (conv_err s) e) (mallocs s) (live s) (user s).

Definition PM (A : Type) : Type := pstate -> outcome ((json_result + A) * pstate).

#[export] Instance PM_ret : MRet PM := fun A a s => Done (inr a, s).
#[export] Instance PM_bind : MBind PM := fun A B k m s =>
  match m s with
  | Failed f => Failed f
  | Done (inl r, s') => Done (inl r, s')
  | Done (inr a, s') => k a s'
  end.

Definition raise {A} (r : json_result) : PM A := fun s => Done (inl r, s).
Definition lift {A} (o : outcome A) : PM A := fun s =>
  match o with Done a => Done (inr a, s) | Failed f => Failed f end.
Definition get : PM pstate := fun s => Done (inr s, s).
Definition put (s' : pstate) : PM unit := fun _ => Done (inr tt, s').
(** [if (m != JSON_OK) RAISE(r)]. *)
Definition or_raise {A} (m : PM A) (r : json_result) : PM A := fun s =>
  match m s with
  | Done (inl _, s') => Done (inl r, s')
  | o => o
  end.

(** [CHECK] of an operation that reports its result as a value. *)
Definition check (r : json_result) : PM unit :=
  if decide (r = JSON_OK) then mret tt else raise r.

(** ** Small operations *)

Definition _invoke_callback (reason : json_reason) (type : json_type) (un : json_union) : PM unit :=
  s ← get;
  if scan (prs s) then mret tt
  else
    '(r, (e, d)) ← lift (callback (prs s) (txt s) reason type un (conv_err s, user s));
    _ ← put (PState (txt s) (prs s) e (mallocs s) (live s) d);
    check r.

(** The loop of [skip_whitespace] over the rest [l] of the text at [p]. *)
Fixpoint skip_ws (l : text) (p e : nat) (allow : bool) : outcome (json_result * nat) :=
  if decide (p = e) then Done (JSON_OK, p)
  else match l with
       | [] => Failed (BadPointer (Z.of_nat p))
       | c :: l' =>
           if _isspace c then
             if allow then skip_ws l' (S p) e allow else Done (JSON_BAD_SYNTAX, p)
           else Done (JSON_OK, p)
       end.

Definition skip_whitespace : PM unit :=
  s ← get;
  let q := prs s in
  '(r, p) ← lift (skip_ws (drop (ptr q) (txt s)) (ptr q) (end_ q) (allow_whitespace q));
  _ ← put (set_prs s (with_ptr q p));
  check r.

(** [if (ptr == end) RAISE(JSON_EOF); c = *ptr++]. *)
Definition next_char : PM Z :=
  s ← get;
  let q := prs s in
  if decide (ptr q = end_ q) then raise JSON_EOF
  else
    c ← lift (rd (txt s) (ptr q));
    _ ← put (set_prs s (with_ptr q (S (ptr q))));
    mret c.

(** [parser->ptr--]. *)
Definition unget : PM unit :=
  s ← get; put (set_prs s (with_ptr (prs s) (Nat.pred (ptr (prs s))))).

(** [parser->path[parser->depth - 1]] updated by [f]. *)
Definition update_node (f : json_node -> json_node) : PM unit :=
  s ← get;
  let q := prs s in
  match depth q with
  | O => lift (Failed (BadPointer (-1)))
  | S i =>
      match path q !! i with
      | None => lift (Failed (BadPointer (Z.of_nat i)))
      | Some n => put (set_prs s (with_path q (<[i := f n]> (path q))))
      end
  end.

Definition _malloc (size : Z) : PM bool :=
  s ← get;
  let ok := ja_malloc (mallocs s) size in
  _ ← put (PState (txt s) (prs s) (conv_err s) (S (mallocs s))
                  (if ok then live s + 1 else live s) (user s));
  mret ok.

Definition _free : PM unit :=
  s ← get; put (PState (txt s) (prs s) (conv_err s) (mallocs s) (live s - 1) (user s)).

(** ** Strings *)

(** "Find the closing quote": its offset and whether an escape was seen, or the
    error. *)
Fixpoint find_quote (fuel : nat) (t : text) (p e : nat) (escaped : bool) :
    outcome (json_result + nat * bool) :=
  match fuel with
  | O => Failed OutOfFuel
  | S fuel =>
      if decide (p = e) then Done (inl JSON_EOF)
      else
        c ← rd t p;
        if c =? 34 then Done (inr (p, escaped))
        else if c =? 92 then
          c1 ← rd t (S p);
          if c1 =? 117 then
            if Z.of_nat e - Z.of_nat (S p) <? 4 then Done (inl JSON_EOF)
            else find_quote fuel t (S p + 4) e true
          else if decide (S p = e) then Done (inl JSON_EOF)
          else find_quote fuel t (S (S p)) e true
        else find_quote fuel t (S p) e escaped
  end.

(** The character a two-character escape stands for. *)
Definition escape_value (c : Z) : option Z :=
  if c =? 34 then Some 34 else if c =? 92 then Some 92 else if c =? 47 then Some 47
  else if c =? 98 then Some 8 else if c =? 102 then Some 12 else if c =? 110 then Some 10
  else if c =? 114 then Some 13 else if c =? 116 then Some 9 else None.

(** "Process escaped characters": the string from [p], whose terminator is at
    [e], rewritten in place. *)
Fixpoint unescape (fuel : nat) (t : text) (p e : nat) : outcome (json_result * text) :=
  match fuel with
  | O => Failed OutOfFuel
  | S fuel =>
      c ← rd t p;
      if c =? 0 then Done (JSON_OK, t)
      else if c =? 92 then
        let p := S p in
        c1 ← rd t p;
        if c1 =? 0 then Done (JSON_EOF, t)
        else
          match escape_value c1 with
          | Some x =>
              t1 ← wr t (p - 1) x;
              t2 ← _memmove t1 p (p + 1) (e - p);
              unescape fuel t2 p (e - 1)
          | None =>
              if c1 =? 117 then
                let p := S p in
                if Z.of_nat e - Z.of_nat p <? 4 then Done (JSON_EOF, t)
                else
                  h ← _hex_str4_to_u32 t p;
                  match h with
                  | None => Done (JSON_BAD_SYNTAX, t)
                  | Some x =>
                      if 256 <=? x then Done (JSON_UNSUPPORTED, t)
                      else
                        t1 ← wr t (p - 2) x;
                        t2 ← _memmove t1 (p - 1) (p + 4) (e - p - 3);
                        unescape fuel t2 (p - 1) (e - 5)
                  end
              else Done (JSON_FAILED, t)
          end
      else unescape fuel t (S p) e
  end.

Definition _get_string : PM nat :=
  s ← get;
  let q := prs s in
  let start := ptr q in
  f ← lift (find_quote (S (length (txt s))) (txt s) start (end_ q) false);
  match f with
  | inl r => raise r
  | inr (p, escaped) =>
      let q' := with_ptr q (ptr q + (p - start) + 1) in
      _ ← put (set_prs s q');
      if scan q then mret start
      else
        t0 ← lift (wr (txt s) p 0);
        _ ← put (set_txt (set_prs s q') t0);
        if (escaped : bool) then
          '(r, t1) ← lift (unescape (S (length t0)) t0 start p);
          _ ← put (set_txt (set_prs s q') t1);
          _ ← check r;
          mret start
        else mret start
  end.

(** [_expect]: true is the return code 0. *)
Definition _expect (str : text) : PM bool :=
  s ← get;
  let q := prs s in
  if Z.of_nat (length str) <=? Z.of_nat (end_ q) - Z.of_nat (ptr q) then
    r ← lift (_memcmp (txt s) (ptr q) str 0 (length str));
    if r =? 0 then
      _ ← put (set_prs s (with_ptr q (ptr q + length str)));
      mret true
    else mret false
  else mret false.

(** ** Numbers *)

(** The loop of [_get_number]: the end of the number characters, and whether
    they contain no decimal point or exponent. *)
Fixpoint number_span (l : text) (p e : nat) (is_integer : bool) : outcome (nat * bool) :=
  if decide (p = e) then Done (p, is_integer)
  else match l with
       | [] => Failed (BadPointer (Z.of_nat p))
       | c :: l' =>
           if _is_number_char c then
             number_span l' (S p) e (if _is_decimal_or_exponent c then false else is_integer)
           else Done (p, is_integer)
       end.

Definition _get_number : PM (json_type * json_union) :=
  s ← get;
  let q := prs s in
  let start := ptr q in
  '(p, is_integer) ← lift (number_span (drop start (txt s)) start (end_ q) true);
  let s1 := set_prs s (with_ptr q p) in
  _ ← put s1;
  '(type, un, e, err) ← lift (
    if (is_integer : bool) then
      r ← _strtol (txt s) (Some start) 10 (allow_whitespace q);
      Done (JSON_TYPE_INTEGER, U_integer (conv_value r), conv_end r, conv_error r)
    else
      '(d, e, err) ← _strtod (txt s) (Some start) (allow_whitespace q);
      Done (JSON_TYPE_REAL, U_real d, e, err));
  _ ← put (set_conv s1 err);
  match e with
  | None => raise JSON_BAD_SYNTAX
  | Some e =>
      if bool_decide (e ≠ p) || bool_decide (start = e) then raise JSON_BAD_SYNTAX
      else mret (type, un)
  end.

(** ** Values, arrays and objects *)

(** "Insert node". *)
Definition insert_node (name : nat) : PM unit :=
  s ← get;
  '(n, ok, err) ← lift (_strtou64 (txt s) (Some name) (allow_whitespace (prs s)));
  _ ← put (set_conv s err);
  update_node (fun _ => Node (Some name) (if (ok : bool) then n else UINT64_MAX) 0 0).

(** [array] run by a copy of the parser record with [scan] set; the parser
    itself is as before, the buffer is shared. *)
Definition run_scanner (array : PM Z) : PM (json_result + Z) := fun s =>
  match array (set_prs s (with_scan (prs s) true)) with
  | Failed f => Failed f
  | Done (r, s') => Done (inr r, set_prs s' (prs s))
  end.

(** "Scan ahead to determine the size of the array": the scanner is freed
    whatever its result. *)
Definition scan_ahead (array : PM Z) : PM Z :=
  ok ← _malloc sizeof_json_parser;
  if (ok : bool) then
    r ← run_scanner array;
    _ ← _free;
    match r with inl _ => raise JSON_BAD_SYNTAX | inr n => mret n end
  else raise JSON_OUT_OF_MEMORY.

Definition bump_index (index : Z) (n : json_node) : json_node :=
  Node (node_name n) (node_number n) (node_size n) index.
Definition set_size (size : Z) (n : json_node) : json_node :=
  Node (node_name n) (node_number n) size (node_index n).

(** The literals after their first letter. *)
Definition literal (rest : text) (type : json_type) (un : json_union) : PM unit :=
  ok ← _expect rest;
  if (ok : bool) then _invoke_callback JSON_REASON_VALUE type un else raise JSON_BAD_SYNTAX.

(** The start of [_get_object], before its [loop]: the callback, and
    [if (parser->depth++ == JSON_MAX_NESTING)]. *)
Definition begin_object (loop : PM unit) : PM unit :=
  _ ← _invoke_callback JSON_REASON_BEGIN_OBJECT JSON_TYPE_NULL U_none;
  s ← get;
  _ ← put (set_prs s (with_depth (prs s) (S (depth (prs s)))));
  if decide (depth (prs s) = JSON_MAX_NESTING) then raise JSON_NESTING_OVERFLOW
  else loop.

(** [get_array_loop] is the loop of [_get_array] with its [index] and
    [*array_size]; [get_object_loop] that of [_get_object]. *)
Fixpoint _get_value (fuel : nat) : PM unit :=
  match fuel with
  | O => lift (Failed OutOfFuel)
  | S fuel =>
      _ ← skip_whitespace;
      c0 ← next_char;
      let c := _tolower c0 in
      if c =? 102 then literal (bytes "alse") JSON_TYPE_BOOLEAN (U_boolean 0)
      else if c =? 110 then literal (bytes "ull") JSON_TYPE_NULL U_none
      else if c =? 116 then literal (bytes "rue") JSON_TYPE_BOOLEAN (U_boolean 1)
      else if c =? 123 then begin_object (get_object_loop fuel)
      else if c =? 91 then
        size ← scan_ahead (get_array_loop fuel 0 0);
        _ ← update_node (set_size size);
        let un := U_integer (s64 size) in
        _ ← _invoke_callback JSON_REASON_BEGIN_ARRAY JSON_TYPE_INTEGER un;
        _ ← or_raise (get_array_loop fuel 0 0) JSON_BAD_SYNTAX;
        _invoke_callback JSON_REASON_END_ARRAY JSON_TYPE_INTEGER un
      else if c =? 34 then
        str ← or_raise _get_string JSON_BAD_SYNTAX;
        _invoke_callback JSON_REASON_VALUE JSON_TYPE_STRING (U_string str)
      else
        _ ← unget;
        '(type, un) ← or_raise _get_number JSON_BAD_SYNTAX;
        _invoke_callback JSON_REASON_VALUE type un
  end
with get_array_loop (fuel : nat) (index size : Z) : PM Z :=
  match fuel with
  | O => lift (Failed OutOfFuel)
  | S fuel =>
      _ ← skip_whitespace;
      c ← next_char;
      if c =? 44 then get_array_loop fuel index size
      else if c =? 93 then mret size
      else
        _ ← update_node (bump_index index);
        _ ← unget;
        _ ← _get_value fuel;
        get_array_loop fuel (u64 (index + 1)) (u64 (size + 1))
  end
with get_object_loop (fuel : nat) : PM unit :=
  match fuel with
  | O => lift (Failed OutOfFuel)
  | S fuel =>
      _ ← skip_whitespace;
      c ← next_char;
      if c =? 34 then
        name ← _get_string;
        _ ← insert_node name;
        _ ← _invoke_callback JSON_REASON_NAME JSON_TYPE_STRING (U_string name);
        _ ← skip_whitespace;
        c' ← next_char;
        if c' =? 58 then _ ← _get_value fuel; get_object_loop fuel
        else raise JSON_BAD_SYNTAX
      else if c =? 125 then
        s ← get;
        if decide (depth (prs s) = 0%nat) then raise JSON_NESTING_UNDERFLOW
        else
          _ ← _invoke_callback JSON_REASON_END_OBJECT JSON_TYPE_NULL U_none;
          s ← get;
          put (set_prs s (with_depth (prs s) (Nat.pred (depth (prs s)))))
      else get_object_loop fuel
  end.

(** [_get_array]: the loop from index 0; [_get_object]: its start and its
    loop. *)
Definition _get_array (fuel : nat) : PM Z := get_array_loop fuel 0 0.

Definition _get_object (fuel : nat) : PM unit := begin_object (get_object_loop fuel).

(** ** Entry points *)

(** [json_parser_init]: the parameter checks (true is a non-NULL pointer;
    [allocator] has both its functions) and the initial parser. *)
Definition json_parser_init (parser data : bool) (size : nat) (have_callback : bool)
    (allocator ja_malloc_set ja_free_set : bool) (options : option bool) :
    json_result * option json_parser :=
  if negb parser || negb data || bool_decide (size = 0%nat) || negb have_callback then
    (JSON_BAD_PARAMETER, None)
  else if negb allocator || negb ja_malloc_set || negb ja_free_set then (JSON_BAD_PARAMETER, None)
  else (JSON_OK, Some (Parser 0 size false (replicate JSON_MAX_NESTING (Node None 0 0 0)) 0
                              (default false options))).

Definition json_parser_parse (fuel : nat) : PM unit :=
  _ ← skip_whitespace;
  c ← next_char;
  if c =? 123 then _get_object fuel else raise JSON_BAD_SYNTAX.

End Parser.

Arguments pstate : clear implicits.
Arguments PM : clear implicits.
Arguments PState {D} _ _ _ _ _ _.

(** ** Matching the path

    [json_match]: the pattern is copied to a local buffer (or, when it is too
    long, to allocated memory: [granted] says whether there is any), split at
    the dots, and compared element by element with the path. *)
Fixpoint match_path (t : text) (allow : bool) (buf : text) (tokens : list nat)
    (nodes : list json_node) (err : option json_result) :
    outcome (json_result * option json_result) :=
  match tokens, nodes with
  | [], _ => Done (JSON_OK, err)
  | _ :: _, [] => Failed (BadPointer (-1))
  | tok :: tokens', n :: nodes' =>
      h ← _strcmp buf tok (cstring "#") 0;
      if h =? 0 then
        '(_, ok, e) ← _strtou64 t (node_name n) allow;
        if (ok : bool) then match_path t allow buf tokens' nodes' (later_error err e)
        else Done (JSON_TYPE_MISMATCH, later_error err e)
      else
        match node_name n with
        | None => Failed (BadPointer 0)
        | Some name =>
            d ← _strcmp buf tok t name;
            if d =? 0 then match_path t allow buf tokens' nodes' err
            else Done (JSON_NO_MATCH, err)
        end
  end.

Definition json_match (granted : bool) (parser : option json_parser) (t : text)
    (pattern : option text) : outcome (json_result * option json_result) :=
  match parser, pattern with
  | Some q, Some pat =>
      pattern_len ← _strlen pat 0;
      if (256 <=? pattern_len) && negb granted then Done (JSON_OUT_OF_MEMORY, None)
      else
        let size := if pattern_len <? 256 then 256%nat else S (Z.to_nat pattern_len) in
        '(buf, _) ← _strlcpy (replicate size 0) 0 pat (S (Z.to_nat pattern_len));
        '(buf', tokens) ← _split buf 0 46 JSON_MAX_NESTING;
        match tokens with
        | None => Done (JSON_NESTING_OVERFLOW, None)
        | Some tokens =>
            if decide (depth q = length tokens) then
              match_path t (allow_whitespace q) buf' tokens (path q) None
            else Done (JSON_NO_MATCH, None)
        end
  | _, _ => Done (JSON_BAD_PARAMETER, None)
  end.

(** [json_get_array_index]. *)
Definition json_get_array_index (q : json_parser) : outcome Z :=
  match depth q with
  | S (S i) =>
      match path q !! i with
      | Some n => Done (node_index n)
      | None => Failed (BadPointer (Z.of_nat i))
      end
  | _ => Done UINT64_MAX
  end.

Definition json_result_string (r : json_result) : string :=
  match r with
  | JSON_OK => "JSON_OK" | JSON_FAILED => "JSON_FAILED" | JSON_UNEXPECTED => "JSON_UNEXPECTED"
  | JSON_BAD_PARAMETER => "JSON_BAD_PARAMETER" | JSON_OUT_OF_MEMORY => "JSON_OUT_OF_MEMORY"
  | JSON_EOF => "JSON_EOF" | JSON_UNSUPPORTED => "JSON_UNSUPPORTED"
  | JSON_BAD_SYNTAX => "JSON_BAD_SYNTAX" | JSON_TYPE_MISMATCH => "JSON_TYPE_MISMATCH"
  | JSON_NESTING_OVERFLOW => "JSON_NESTING_OVERFLOW"
  | JSON_NESTING_UNDERFLOW => "JSON_NESTING_UNDERFLOW"
  | JSON_BUFFER_OVERFLOW => "JSON_BUFFER_OVERFLOW" | JSON_UNKNOWN_VALUE => "JSON_UNKNOWN_VALUE"
  | JSON_OUT_OF_BOUNDS => "JSON_OUT_OF_BOUNDS" | JSON_NO_MATCH => "JSON_NO_MATCH"
  end.

(** ** Equations of the monad *)

Section Equations.
Context {D : Type}.
Implicit Types s : pstate D.

Lemma bind_eq {A B} (m : PM D A) (k : A -> PM D B) s :
  (m ≫= k) s = match m s with
               | Failed f => Failed f
               | Done (inl r, s') => Done (inl r, s')
               | Done (inr a, s') => k a s'
               end.
Proof. done. Qed.

Lemma bind_get {B} (k : pstate D -> PM D B) s : (get ≫= k) s = k s s.
Proof. done. Qed.

Lemma bind_put {B} (k : unit -> PM D B) s s' : (put s' ≫= k) s = k tt s'.
Proof. done. Qed.

Lemma bind_lift {A B} (o : outcome A) (k : A -> PM D B) a s :
  o = Done a -> (lift o ≫= k) s = k a s.
Proof. by intros ->. Qed.

Lemma bind_assoc {A B C} (m : PM D A) (k : A -> PM D B) (h : B -> PM D C) s :
  ((m ≫= k) ≫= h) s = (m ≫= fun a => k a ≫= h) s.
Proof. rewrite !bind_eq. destruct (m s) as [[[r|a] s']|]; done. Qed.
End Equations.
