(* ===== verification/JsonPrint.v ===== *)
(** * JsonPrint: the printer of libjson/json.c

    The formatting callback of [json_print], the value printer and the path
    dump.  The [write] callback is modelled by the bytes written so far. *)

From Stdlib Require Import String.
From S2P Require Import Prelude JsonText JsonParser.

(** The two characters of an escape, if [_PrintString] uses one. *)
Definition short_escape (c : Z) : option Z :=
  if c =? 34 then Some 34 else if c =? 92 then Some 92 else if c =? 47 then Some 47
  else if c =? 8 then Some 98 else if c =? 12 then Some 102 else if c =? 10 then Some 110
  else if c =? 13 then Some 114 else if c =? 9 then Some 116 else None.

Definition print_char (c : Z) : text :=
  match short_escape c with
  | Some x => [92; x]
  | None => if _isprint c then [c] else bytes "\u00" ++ _byte_to_hex_string c
  end.

Fixpoint print_chars (l : text) (p : nat) : outcome text :=
  match l with
  | [] => Failed (BadPointer (Z.of_nat p))
  | c :: l' => if c =? 0 then Done [] else r ← print_chars l' (S p); Done (print_char c ++ r)
  end.

Definition _PrintString (t : text) (str : nat) : outcome text :=
  r ← print_chars (drop str t) str; Done ([34] ++ r ++ [34]).

(** [json_print_value]; a union without the member its type names does not
    occur: reading it is a fault. *)
Definition json_print_value (t : text) (type : json_type) (un : json_union) : outcome text :=
  match type, un with
  | JSON_TYPE_NULL, _ => Done (bytes "null")
  | JSON_TYPE_BOOLEAN, U_boolean b => Done (if truthy b then bytes "true" else bytes "false")
  | JSON_TYPE_INTEGER, U_integer z => _i64tostr z true
  | JSON_TYPE_REAL, U_real d => _dtostr d
  | JSON_TYPE_STRING, U_string p => _PrintString t p
  | _, _ => Failed (BadPointer 0)
  end.

(** callback_data_t; [out] is what has been written to the stream. *)
Record callback_data : Type := CallbackData {
  cb_depth : Z;
  newline : bool;
  comma : bool;
  out : text
}.

Definition write (d : callback_data) (s : text) : callback_data :=
  CallbackData (cb_depth d) (newline d) (comma d) (out d ++ s).
Definition set_depth (d : callback_data) (n : Z) : callback_data :=
  CallbackData (s32 n) (newline d) (comma d) (out d).
Definition set_newline (d : callback_data) (b : bool) : callback_data :=
  CallbackData (cb_depth d) b (comma d) (out d).
Definition set_comma (d : callback_data) (b : bool) : callback_data :=
  CallbackData (cb_depth d) (newline d) b (out d).

Definition _Indent (d : callback_data) (depth : Z) : callback_data :=
  Nat.iter (Z.to_nat (u64 depth)) (fun d => write d (bytes "  ")) d.

Definition is_end (reason : json_reason) : bool :=
  match reason with JSON_REASON_END_ARRAY | JSON_REASON_END_OBJECT => true | _ => false end.

(** The three steps of the callback before its switch. *)
Definition print_prefix (reason : json_reason) (d : callback_data) : callback_data :=
  let d := if negb (is_end reason) && comma d then write (set_comma d false) (bytes ",") else d in
  let d := if is_end reason then set_depth d (cb_depth d - 1) else d in
  if newline d then
    let d := write (set_newline d false) [10] in _Indent d (cb_depth d)
  else d.

Definition _json_print_callback (q : json_parser) (t : text) (reason : json_reason)
    (type : json_type) (un : json_union) (st : json_result * callback_data) :
    outcome (json_result * (json_result * callback_data)) :=
  let '(err, d0) := st in
  let d := print_prefix reason d0 in
  let open_ b := write (set_comma (set_newline (set_depth d (cb_depth d + 1)) true) false) b in
  let close b := write (set_comma (set_newline d true) true) b in
  d' ← match reason with
       | JSON_REASON_NONE => Done d
       | JSON_REASON_NAME =>
           match un with
           | U_string p =>
               s ← _PrintString t p; Done (set_comma (write (write d s) (bytes ": ")) false)
           | _ => Failed (BadPointer 0)
           end
       | JSON_REASON_BEGIN_OBJECT => Done (open_ (bytes "{"))
       | JSON_REASON_END_OBJECT => Done (close (bytes "}"))
       | JSON_REASON_BEGIN_ARRAY => Done (open_ (bytes "["))
       | JSON_REASON_END_ARRAY => Done (close (bytes "]"))
       | JSON_REASON_VALUE =>
           s ← json_print_value t type un; Done (close s)
       end;
  let d'' := if is_end reason && (cb_depth d' =? 0) then write d' [10] else d' in
  Done (JSON_OK, (err, d'')).

(** [json_print]: [granted n size] is the allocator, its request 0 the copy of
    the text.  The result and what was written. *)
Definition json_print (granted : nat -> Z -> bool) (write_set : bool) (json_data : option text)
    (json_size : nat) (allocator ja_malloc_set ja_free_set : bool) (fuel : nat) :
    outcome (json_result * text) :=
  match json_data with
  | None => Done (JSON_BAD_PARAMETER, [])
  | Some jd =>
      if negb write_set || bool_decide (json_size = 0%nat) then Done (JSON_BAD_PARAMETER, [])
      else if negb allocator || negb ja_malloc_set || negb ja_free_set then
        Done (JSON_BAD_PARAMETER, [])
      else if negb (granted 0%nat (Z.of_nat json_size)) then Done (JSON_OUT_OF_MEMORY, [])
      else if bool_decide (length jd < json_size)%nat then Failed (BadPointer (Z.of_nat (length jd)))
      else
        let data := take json_size jd in
        match json_parser_init true true json_size true allocator ja_malloc_set ja_free_set None with
        | (JSON_OK, Some q) =>
            r ← json_parser_parse _json_print_callback granted fuel
                  (PState data q JSON_OK 1 1 (CallbackData 0 false false []));
            match r with
            | (inl _, s) => Done (JSON_BAD_SYNTAX, out (user s))
            | (inr _, s) =>
                if cb_depth (user s) =? 0 then Done (JSON_OK, out (user s))
                else Done (JSON_BAD_SYNTAX, out (user s))
            end
        | _ => Done (JSON_FAILED, [])
        end
  end.

(** One element of [json_dump_path]; [last] when no dot follows. *)
Definition dump_node (t : text) (n : json_node) (last : bool) : outcome text :=
  match node_name n with
  | None => Failed (BadPointer 0)
  | Some p =>
      len ← _strlen t p;
      size ← (if truthy (node_size n) then
                s ← _i64tostr (s64 (node_size n)) true; Done (bytes "[" ++ s ++ bytes "]")
              else Done []);
      Done (take (Z.to_nat len) (drop p t) ++ size ++ if last then [] else bytes ".")
  end.

Fixpoint dump_nodes (t : text) (nodes : list json_node) (depth : nat) : outcome text :=
  match depth with
  | O => Done []
  | S d =>
      match nodes with
      | [] => Failed (BadPointer (-1))
      | n :: nodes' =>
          a ← dump_node t n (bool_decide (d = 0%nat));
          b ← dump_nodes t nodes' d;
          Done (a ++ b)
      end
  end.

Definition json_dump_path (write_set : bool) (parser : option json_parser) (t : text) :
    outcome text :=
  match parser with
  | Some q =>
      if write_set then s ← dump_nodes t (path q) (depth q); Done (s ++ [10]) else Done []
  | None => Done []
  end.

(** A JSON text with ' written for the double quote. *)
Definition jtext (s : string) : text := map (fun c => if c =? 39 then 34 else c) (bytes s).
