(* ===== verification/JsonNumbers.v ===== *)
(** * JsonNumbers: what the number routines of libjson/json.c compute

    [_strtol] against the value of a decimal string, the round trip of
    [_i64tostr] and [_strtol], and what the printer of reals does. *)

From Stdlib Require Import SpecFloat String.
From S2P Require Import Prelude JsonText.

(** ** Specification: the value of a decimal string *)

Definition is_dec (c : Z) : Prop := 48 <= c <= 57.
Definition accumulate (x : Z) (ds : text) : Z := foldl (fun x c => x * 10 + (c - 48)) x ds.
Definition decimal_value (ds : text) : Z := accumulate 0 ds.

(** The optional minus sign, as characters. *)
Definition minus (neg : bool) : text := if neg then [45] else [].

(** What [_strtol] returns for a magnitude, by cases. *)
Definition strtol_value (neg : bool) (v : Z) : Z :=
  if neg then if v <=? 2 ^ 63 then - v else 0
  else if v <? 2 ^ 63 then v else v - 2 ^ 64.

(** ** The digit table *)

Lemma digit_dec c : is_dec c -> _digit c = c - 48 /\ _isdigit2 c 10 = true /\ (c =? 0) = false.
Proof.
  intros Hc. unfold is_dec in Hc.
  assert (c = 48 \/ c = 49 \/ c = 50 \/ c = 51 \/ c = 52 \/ c = 53 \/ c = 54 \/ c = 55 \/
          c = 56 \/ c = 57) as Hd by lia.
  repeat (destruct Hd as [->|Hd]; [done|]). by subst.
Qed.

Lemma digit_table_big c :
  0 <= c < 256 -> ~ is_dec c -> 10 <= _digit c.
Proof.
  intros Hc Hn.
  assert (forallb (fun i => (10 <=? _digit (Z.of_nat i)) ||
                            ((48 <=? Z.of_nat i) && (Z.of_nat i <=? 57))) (seq 0 256) = true)
    as Hall by (vm_compute; done).
  rewrite forallb_forall in Hall. specialize (Hall (Z.to_nat c)).
  rewrite Z2Nat.id in Hall by lia. unfold is_dec in Hn.
  specialize (Hall ltac:(apply in_seq; lia)). lia.
Qed.

(** A byte that is not a decimal digit ends the digits. *)
Lemma isdigit2_nondec c : 0 <= c < 256 -> ~ is_dec c -> _isdigit2 c 10 = false.
Proof. intros Hc Hn. pose proof (digit_table_big c Hc Hn). unfold _isdigit2. lia. Qed.

(** ** The digit loop *)

Lemma accumulate_cons x c ds : accumulate x (c :: ds) = accumulate (x * 10 + (c - 48)) ds.
Proof. done. Qed.

Lemma accumulate_app x ds ds' : accumulate x (ds ++ ds') = accumulate (accumulate x ds) ds'.
Proof. unfold accumulate. by rewrite foldl_app. Qed.

Lemma accumulate_le x ds : 0 <= x -> Forall is_dec ds -> x <= accumulate x ds.
Proof.
  intros Hx Hds. revert x Hx. induction Hds as [|c ds Hc Hds IH]; intros x Hx; [done|].
  rewrite accumulate_cons. unfold is_dec in Hc.
  specialize (IH (x * 10 + (c - 48)) ltac:(lia)). lia.
Qed.

(** [_strtol]'s two overflow checks together are the exact check. *)
Lemma overflow_exact x c :
  0 <= x <= ULONG_MAX -> is_dec c ->
  (x >? ULONG_MAX / 10) || ((x <=? ULONG_MAX / 10) && (_digit c >? ULONG_MAX - u64 (x * 10)))
  = (ULONG_MAX <? x * 10 + (c - 48)).
Proof.
  intros Hx Hc. destruct (digit_dec c Hc) as (-> & _). unfold is_dec in Hc.
  assert (ULONG_MAX / 10 = 1844674407370955161) as -> by done.
  destruct (x >? 1844674407370955161) eqn:E.
  - unfold ULONG_MAX in *. lia.
  - rewrite u64_small by lia. unfold ULONG_MAX in *. lia.
Qed.

Lemma strtol_digits_step c l p x :
  0 <= x <= ULONG_MAX -> is_dec c ->
  strtol_digits (c :: l) p 10 x =
    if ULONG_MAX <? x * 10 + (c - 48) then Done (DigitsOverflow p)
    else strtol_digits l (S p) 10 (x * 10 + (c - 48)).
Proof.
  intros Hx Hc. cbn [strtol_digits]. rewrite <- (overflow_exact x c Hx Hc).
  pose proof (overflow_exact x c Hx Hc) as Ho.
  destruct (digit_dec c Hc) as (Hd & -> & ->). rewrite Hd in *. simpl.
  assert (ULONG_MAX / 10 = 1844674407370955161) as Hq by done. rewrite Hq in *.
  destruct (x >? 1844674407370955161) eqn:E1; simpl; [done|].
  replace (x <=? 1844674407370955161) with true in * by lia. simpl in *.
  destruct (c - 48 >? ULONG_MAX - u64 (x * 10)) eqn:E2; [done|].
  rewrite (u64_small (x * 10)) in * by lia. unfold ULONG_MAX, is_dec in *.
  by rewrite u64_small by lia.
Qed.

Lemma strtol_digits_end ds c rest p x :
  0 <= x -> Forall is_dec ds -> 0 <= c < 256 -> ~ is_dec c -> accumulate x ds <= ULONG_MAX ->
  strtol_digits (ds ++ c :: rest) p 10 x = Done (DigitsEnd (accumulate x ds) (p + length ds)).
Proof.
  intros Hx Hds Hc Hn. revert p x Hx. induction Hds as [|d ds Hd Hds IH]; intros p x Hx Hle.
  - cbn [app strtol_digits]. rewrite isdigit2_nondec, andb_false_r by done.
    by rewrite Nat.add_0_r.
  - rewrite accumulate_cons in *. pose proof (accumulate_le (x * 10 + (d - 48)) ds) as Hm.
    unfold is_dec in Hd. specialize (Hm ltac:(lia) Hds).
    cbn [app]. rewrite strtol_digits_step by (unfold is_dec; lia).
    replace (ULONG_MAX <? x * 10 + (d - 48)) with false by lia.
    rewrite IH by lia. simpl. do 2 f_equal. lia.
Qed.

Lemma strtol_digits_overflow ds rest p x :
  0 <= x <= ULONG_MAX -> Forall is_dec ds -> ULONG_MAX < accumulate x ds ->
  exists k, (k < length ds)%nat /\
    strtol_digits (ds ++ rest) p 10 x = Done (DigitsOverflow (p + k)).
Proof.
  intros Hx Hds. revert p x Hx. induction Hds as [|d ds Hd Hds IH]; intros p x Hx Hgt.
  - unfold accumulate in Hgt. simpl in Hgt. lia.
  - rewrite accumulate_cons in Hgt. cbn [app]. rewrite strtol_digits_step by done.
    unfold is_dec in Hd. destruct (ULONG_MAX <? x * 10 + (d - 48)) eqn:E.
    + exists 0%nat. simpl. split; [lia|]. by rewrite Nat.add_0_r.
    + destruct (IH (S p) (x * 10 + (d - 48)) ltac:(lia) Hgt) as (k & Hk & ->).
      exists (S k). simpl. split; [lia|]. do 2 f_equal. lia.
Qed.

(** ** [_strtol] on a decimal string *)

Lemma isspace_dec c : is_dec c -> _isspace c = false.
Proof. unfold is_dec, _isspace. lia. Qed.

Lemma strtol_value_apply_sign neg v : 0 <= v <= ULONG_MAX -> apply_sign neg v = strtol_value neg v.
Proof.
  intros Hv. unfold apply_sign, strtol_value, ULONG_MAX, LONG_MAX in *.
  assert (2 ^ 63 = 9223372036854775808 /\ 2 ^ 64 = 18446744073709551616) as [H63 H64] by done.
  assert (forall z, 2 ^ 63 <= z < 2 ^ 64 -> s64 z = z - 2 ^ 64) as Hhi.
  { intros z Hz. unfold s64, swrap. change (2 ^ (64 - 1)) with (2 ^ 63).
    replace (z + 2 ^ 63) with ((z - 2 ^ 63) + 1 * 2 ^ 64) by lia.
    rewrite Z_mod_plus_full, Z.mod_small by lia. lia. }
  destruct neg.
  - destruct (v >? 2 ^ 63 - 1) eqn:E.
    + destruct (v =? 2 ^ 63 - 1 + 1) eqn:E2; destruct (v <=? 2 ^ 63) eqn:E3; try lia.
      rewrite Hhi; lia.
    + replace (v <=? 2 ^ 63) with true by lia.
      destruct (decide (v = 0)) as [->|]; [done|].
      apply s64_u64_small_neg. lia.
  - destruct (v <? 2 ^ 63) eqn:E; [apply s64_small; lia|apply Hhi; lia].
Qed.

(** The scan up to the digits: no space to skip, an optional minus. *)
Lemma strtol_unfold pre neg ds rest allow :
  ds ≠ [] -> Forall is_dec ds ->
  _strtol (pre ++ minus neg ++ ds ++ rest) (Some (length pre)) 10 allow =
    (r ← strtol_digits (ds ++ rest) (length pre + length (minus neg)) 10 0;
     match r with
     | DigitsOverflow p => Done (Conversion (s64 ULONG_MAX) (Some p) (Some JSON_OUT_OF_BOUNDS))
     | DigitsEnd x p =>
         if bool_decide (p = length pre) then Done (Conversion 0 (Some (length pre)) None)
         else Done (Conversion (apply_sign neg x) (Some p) None)
     end).
Proof.
  intros Hne Hds. destruct ds as [|d ds]; [done|]. apply Forall_cons in Hds as [Hd Hds].
  set (t := pre ++ minus neg ++ (d :: ds) ++ rest).
  assert (drop (length pre) t = minus neg ++ (d :: ds) ++ rest) as Hdrop
    by (unfold t; by rewrite drop_app_length).
  assert (drop (length pre + length (minus neg)) t = (d :: ds) ++ rest) as Hdrop2
    by (by rewrite <- drop_drop, Hdrop, drop_app_length).
  set (c0 := if neg then 45 else d).
  assert (rd t (length pre) = Done c0) as Hrd.
  { unfold rd. pose proof (lookup_drop t (length pre) 0) as Hl.
    rewrite Nat.add_0_r, Hdrop in Hl. rewrite <- Hl. by destruct neg. }
  assert (_isspace c0 = false) as Hsp by (subst c0; destruct neg; [done|by apply isspace_dec]).
  unfold _strtol. change (10 <? 0) with false. cbn iota. rewrite Hrd. cbn [mbind outcome_bind].
  rewrite Hsp, andb_false_r. cbn iota.
  assert ((if allow then skip_spaces (drop (length pre) t) (length pre) else Done (length pre))
          = Done (length pre)) as ->.
  { destruct allow; [|done]. rewrite Hdrop. subst c0. destruct neg; cbn; [done|].
    by rewrite Hsp. }
  cbn [mbind outcome_bind]. unfold skip_sign. rewrite Hrd. cbn [mbind outcome_bind].
  assert ((if c0 =? 43 then (false, S (length pre))
           else if c0 =? 45 then (true, S (length pre)) else (false, length pre))
          = (neg, (length pre + length (minus neg))%nat)) as ->.
  { subst c0. unfold is_dec in Hd. destruct neg; simpl; [f_equal; lia|].
    destruct (d =? 43) eqn:?; destruct (d =? 45) eqn:?; try lia. f_equal; lia. }
  cbn [mbind outcome_bind]. unfold deduce_base, skip_prefix.
  cbn [mbind outcome_bind negb Z.eqb Pos.eqb]. by rewrite Hdrop2.
Qed.

(** [_strtol] in base 10 computes the value of the decimal string at its
    argument and stops at the byte after the digits: a value up to 2^64 - 1 is
    converted to long (a negative number below -2^63 becomes 0), and a larger
    value is reported as JSON_OUT_OF_BOUNDS. *)
Theorem strtol_decimal pre neg ds c rest allow :
  ds ≠ [] -> Forall is_dec ds -> 0 <= c < 256 -> ~ is_dec c ->
  let t := pre ++ minus neg ++ ds ++ c :: rest in
  let e := (length pre + length (minus neg) + length ds)%nat in
  (decimal_value ds <= ULONG_MAX ->
   _strtol t (Some (length pre)) 10 allow =
     Done (Conversion (strtol_value neg (decimal_value ds)) (Some e) None)) /\
  (ULONG_MAX < decimal_value ds -> exists k, (k < e)%nat /\
   _strtol t (Some (length pre)) 10 allow = Done (Conversion (-1) (Some k) (Some JSON_OUT_OF_BOUNDS))).
Proof.
  intros Hne Hds Hc Hn t e. unfold t. rewrite strtol_unfold by done. split; intros Hv.
  - rewrite strtol_digits_end by done. cbn [mbind outcome_bind].
    assert (0 <= decimal_value ds) by (apply accumulate_le; [lia|done]).
    rewrite bool_decide_false by (destruct ds; simpl in *; [done|lia]).
    by rewrite strtol_value_apply_sign.
  - destruct (strtol_digits_overflow ds (c :: rest) (length pre + length (minus neg)) 0
                ltac:(done) Hds Hv) as (k & Hk & ->).
    eexists. split; [|done]. unfold e. lia.
Qed.

(** ** Printing and reading back *)

Lemma i64_digits_spec room x acc :
  0 <= x < 10 ^ Z.of_nat room -> (0 < room)%nat ->
  exists ds, i64_digits room x acc = Done (ds ++ acc) /\ ds ≠ [] /\ Forall is_dec ds /\
             decimal_value ds = x.
Proof.
  revert x acc. induction room as [|room IH]; intros x acc Hx Hr; [lia|].
  cbn [i64_digits]. pose proof (Z.mod_pos_bound x 10 ltac:(lia)) as Hm.
  pose proof (Z.div_mod x 10 ltac:(lia)) as Hdm. unfold truthy.
  destruct (x / 10 =? 0) eqn:E; simpl negb; cbn iota.
  - exists [48 + x mod 10]. repeat split; [done|apply Forall_singleton; unfold is_dec; lia|].
    unfold decimal_value, accumulate. simpl. lia.
  - rewrite Nat2Z.inj_succ, Z.pow_succ_r in Hx by lia.
    assert (0 <= x / 10 < 10 ^ Z.of_nat room) as Hx'
      by (split; [apply Z.div_pos; lia|apply Z.div_lt_upper_bound; lia]).
    destruct room as [|room]; [simpl in Hx'; lia|].
    destruct (IH (x / 10) ((48 + x mod 10) :: acc) Hx' ltac:(lia)) as (ds & -> & Hne & Hds & Hv).
    exists (ds ++ [48 + x mod 10]). rewrite <- app_assoc. repeat split.
    + by destruct ds.
    + apply Forall_app. split; [done|]. apply Forall_singleton. unfold is_dec. lia.
    + unfold decimal_value in *. rewrite accumulate_app, Hv. unfold accumulate. simpl. lia.
Qed.

Lemma i64tostr_spec x :
  - 2 ^ 63 <= x < 2 ^ 63 ->
  exists ds, _i64tostr x true = Done (minus (x <? 0) ++ ds) /\ ds ≠ [] /\ Forall is_dec ds /\
             decimal_value ds = Z.abs x.
Proof.
  intros Hx. unfold _i64tostr, INT64_MIN. destruct (x =? - 2 ^ 63) eqn:E.
  - assert (x = - 2 ^ 63) as -> by lia. exists (bytes "9223372036854775808").
    repeat split; [done|]. vm_compute. repeat constructor; congruence.
  - assert (0 <= Z.abs x < 10 ^ Z.of_nat 255) as Hr.
    { split; [lia|]. transitivity (2 ^ 63); [lia|]. by vm_compute. }
    destruct (i64_digits_spec 255 (Z.abs x) [] Hr ltac:(lia)) as (ds & -> & Hne & Hds & Hv).
    exists ds. rewrite app_nil_r. cbn [mbind outcome_bind]. repeat split; try done.
    by destruct (x <? 0).
Qed.

(** The characters of an int64 are read back as that number. *)
Lemma strtol_printed x pre c rest allow :
  - 2 ^ 63 <= x < 2 ^ 63 -> 0 <= c < 256 -> ~ is_dec c ->
  exists ds, _i64tostr x true = Done (minus (x <? 0) ++ ds) /\ ds ≠ [] /\ Forall is_dec ds /\
    _strtol (pre ++ (minus (x <? 0) ++ ds) ++ c :: rest) (Some (length pre)) 10 allow =
      Done (Conversion x (Some (length pre + length (minus (x <? 0)%Z ++ ds))%nat) None).
Proof.
  intros Hx Hc Hn. destruct (i64tostr_spec x Hx) as (ds & Hs & Hne & Hds & Hv).
  exists ds. split; [done|]. split; [done|]. split; [done|]. rewrite <- app_assoc.
  rewrite strtol_unfold, strtol_digits_end; try done;
    change (accumulate 0 ds) with (decimal_value ds); [|rewrite Hv; unfold ULONG_MAX; lia].
  cbn [mbind outcome_bind].
  rewrite bool_decide_false by (destruct ds; simpl in *; [done|lia]).
  rewrite strtol_value_apply_sign by (rewrite Hv; unfold ULONG_MAX; lia).
  rewrite length_app, Nat.add_assoc, Hv. do 2 f_equal. unfold strtol_value.
  destruct (x <? 0) eqn:?; [replace (Z.abs x <=? 2 ^ 63) with true by lia; lia|].
  replace (Z.abs x <? 2 ^ 63) with true by lia. lia.
Qed.

(** Every int64 that [_i64tostr] prints is read back by [_strtol] as the
    same number, wherever the characters stand in a text and whatever non-digit
    follows them; the end pointer is the byte after them and no error is
    stored. *)
Theorem strtol_i64tostr x pre c rest allow :
  - 2 ^ 63 <= x < 2 ^ 63 -> 0 <= c < 256 -> ~ is_dec c ->
  exists s, _i64tostr x true = Done s /\
    _strtol (pre ++ s ++ c :: rest) (Some (length pre)) 10 allow =
      Done (Conversion x (Some (length pre + length s)%nat) None).
Proof.
  intros Hx Hc Hn. destruct (strtol_printed x pre c rest allow Hx Hc Hn) as (ds & Hs & _ & _ & Hr).
  eexists. split; [exact Hs|exact Hr].
Qed.

Lemma strtol_decimal_witness :
  let t := [32] ++ minus true ++ bytes "9223372036854775809" ++ 44 :: [0] in
  let e := (1 + 1 + 19)%nat in
  (decimal_value (bytes "9223372036854775809") <= ULONG_MAX ->
   _strtol t (Some 1%nat) 10 true =
     Done (Conversion (strtol_value true (decimal_value (bytes "9223372036854775809")))
                      (Some e) None)) /\
  (ULONG_MAX < decimal_value (bytes "9223372036854775809") -> exists k, (k < e)%nat /\
   _strtol t (Some 1%nat) 10 true = Done (Conversion (-1) (Some k) (Some JSON_OUT_OF_BOUNDS))).
Proof.
  apply (strtol_decimal [32] true (bytes "9223372036854775809") 44 [0] true).
  - discriminate.
  - repeat constructor; unfold is_dec; simpl; lia.
  - lia.
  - unfold is_dec. lia.
Defined.

Lemma strtol_i64tostr_witness :
  exists s, _i64tostr (-120) true = Done s /\
    _strtol ([91] ++ s ++ 93 :: [0]) (Some 1%nat) 10 false =
      Done (Conversion (-120) (Some (1 + length s)%nat) None).
Proof. apply (strtol_i64tostr (-120) [91] 93 [0] false); unfold is_dec; lia. Defined.

(** The double a decimal string stands for. *)
Definition double_of (s : string) : double :=
  match _strtod (cstring s) (Some 0%nat) true with Done (d, _, _) => d | Failed _ => d_zero end.

(** [_dtostr] does not print the number it is given: the zeros after the
    decimal point are lost, zeros inside the fraction cut it off, the fraction
    of a negative number carries a second sign, and a number beyond the range
    of long makes [_i64tostr] store through the NULL size pointer. *)
Theorem dtostr_unfaithful :
  _dtostr (double_of "1.5") = Done (bytes "1.5") /\
  _dtostr (double_of "1.05") = Done (bytes "1.5") /\
  _dtostr (double_of "0.101") = Done (bytes "0.1") /\
  _dtostr (double_of "-1.5") = Done (bytes "-1.-5") /\
  _dtostr (double_of "1e30") = Failed (BadPointer 0).
Proof. vm_compute. auto. Qed.

(** The decimal digits of an unsigned number. *)
Definition unsigned_digits (z : Z) : text :=
  match i64_digits 255 z [] with Done s => s | Failed _ => [] end.

Lemma i64_digits_dec room x acc ds :
  Forall is_dec acc -> i64_digits room x acc = Done ds -> Forall is_dec ds.
Proof.
  revert x acc. induction room as [|room IH]; intros x acc Ha; [done|]. cbn [i64_digits].
  assert (Forall is_dec ((48 + x mod 10) :: acc)) as Ha'.
  { constructor; [|done]. pose proof (Z.mod_pos_bound x 10 ltac:(lia)). unfold is_dec. lia. }
  destruct (truthy (x / 10)); [by apply IH|]. by intros [= <-].
Qed.

Lemma unsigned_digits_dec z : Forall is_dec (unsigned_digits z).
Proof.
  unfold unsigned_digits. destruct (i64_digits 255 z []) eqn:E; [|constructor].
  eapply i64_digits_dec; [|exact E]. constructor.
Qed.
