(* ===== verification/JsonStrings.v ===== *)
(** * JsonStrings: the strings of libjson/json.c, printed and read back

    [_get_string] decodes a string in place, moving the rest of the string down
    over each escape sequence.  What it promises to whoever writes the string is
    the class [StringEncoding]: any way of writing characters plainly, as a
    short escape or as a \u escape is decoded.  [_PrintString] is an instance
    for exactly the characters whose escape is not written with an upper-case
    hexadecimal digit. *)

From Stdlib Require Import String.
From S2P Require Import Prelude JsonText JsonParser JsonPrint.

(** ** Specification *)

(** A character that survives printing and reading: it has a short escape, is
    printable, or has two decimal hexadecimal digits. *)
Definition reversible (c : Z) : bool :=
  (0 <? c) && (c <? 256) &&
  (match short_escape c with Some _ => true | None => false end
   || _isprint c || ((c / 16 <? 10) && (c mod 16 <? 10))).

(** The three forms of a printed character, with what reading needs of each. *)
Definition form_ok (c : Z) (s : text) : bool :=
  match s with
  | [d] => (d =? c) && negb (c =? 0) && negb (c =? 34) && negb (c =? 92)
  | [b; x] =>
      (b =? 92) && negb (x =? 0) && negb (x =? 117) && bool_decide (escape_value x = Some c)
  | [b; u; h0; h1; h2; h3] =>
      (b =? 92) && (u =? 117) && negb (h3 =? 0) && negb (h3 =? 34) && negb (h3 =? 92) &&
      match _hex_str4_to_u32 [h0; h1; h2; h3] 0 with
      | Done (Some x) => (x =? c) && (x <? 256)
      | _ => false
      end
  | _ => false
  end.

Lemma all_bytes (P : Z -> bool) :
  forallb (fun i => P (Z.of_nat i)) (seq 0 256) = true -> forall c, 0 <= c < 256 -> P c = true.
Proof.
  intros H c Hc. rewrite forallb_forall in H. specialize (H (Z.to_nat c)).
  rewrite Z2Nat.id in H by lia. apply H. apply in_seq. lia.
Qed.

Lemma print_char_form c : reversible c = true -> form_ok c (print_char c) = true.
Proof.
  intros H. assert (0 <= c < 256) as Hc by (unfold reversible in H; lia).
  pose proof (all_bytes (fun c => negb (reversible c) || form_ok c (print_char c))
                ltac:(vm_compute; done) c Hc) as Hall. simpl in Hall. by rewrite H in Hall.
Qed.

(** The case analysis the reading lemmas use. *)
Inductive form (c : Z) : text -> Prop :=
| FormPlain : c ≠ 0 -> c ≠ 34 -> c ≠ 92 -> form c [c]
| FormShort x : x ≠ 0 -> x ≠ 117 -> escape_value x = Some c -> form c [92; x]
| FormHex h0 h1 h2 h3 :
    h3 ≠ 34 -> h3 ≠ 92 -> c < 256 ->
    (forall A B, _hex_str4_to_u32 (A ++ [h0; h1; h2; h3] ++ B) (length A) = Done (Some c)) ->
    form c [92; 117; h0; h1; h2; h3].

(** Reading in the middle of a text. *)
Lemma rd_app A c B : rd (A ++ c :: B) (length A) = Done c.
Proof. unfold rd. by rewrite list_lookup_middle. Qed.

Lemma rd_app_plus A l k c :
  l !! k = Some c -> rd (A ++ l) (length A + k) = Done c.
Proof. intros H. unfold rd. rewrite lookup_app_r by lia.
  replace (length A + k - length A)%nat with k by lia. by rewrite H. Qed.

Lemma hex_app h0 h1 h2 h3 A B :
  _hex_str4_to_u32 (A ++ [h0; h1; h2; h3] ++ B) (length A) = _hex_str4_to_u32 [h0; h1; h2; h3] 0.
Proof.
  unfold _hex_str4_to_u32.
  rewrite (rd_app_plus A _ 1 h1), (rd_app_plus A _ 2 h2), (rd_app_plus A _ 3 h3) by done.
  simpl app. by rewrite rd_app.
Qed.

Lemma print_char_cases c : reversible c = true -> form c (print_char c).
Proof.
  intros H. pose proof (print_char_form c H) as Hf. revert Hf. generalize (print_char c).
  intros [|b [|u [|h0 [|h1 [|h2 [|h3 [|? ?]]]]]]]; simpl form_ok; try done; intros Hf.
  - rewrite !andb_true_iff in Hf. destruct Hf as [[[? ?] ?] ?].
    assert (b = c) as -> by lia. constructor; lia.
  - rewrite !andb_true_iff, bool_decide_eq_true in Hf. destruct Hf as [[[? ?] ?] ?].
    assert (b = 92) as -> by lia. constructor; [lia..|done].
  - rewrite !andb_true_iff in Hf. destruct Hf as [[[[[? ?] ?] ?] ?] Hx].
    assert (b = 92) as -> by lia. assert (u = 117) as -> by lia.
    destruct (_hex_str4_to_u32 _ 0) as [[x|]|] eqn:E; try done.
    assert (x = c) as -> by lia. constructor; [lia..|].
    intros A B. by rewrite hex_app.
Qed.

(** A way to write the characters of a string that the parser can read. *)
Class StringEncoding : Type := {
  encode : Z -> text;
  encodable : Z -> bool;
  encode_form c : encodable c = true -> form c (encode c);
  encode_bytes c : encodable c = true -> Forall is_byte (encode c);
  encodable_byte c : encodable c = true -> 0 < c < 256
}.

(** The characters between the quotes. *)
Definition printed `{StringEncoding} (s : text) : text := flat_map encode s.

Lemma print_char_bytes c : reversible c = true -> Forall is_byte (print_char c).
Proof.
  intros Hc. assert (0 <= c < 256) as Hb by (unfold reversible in Hc; lia).
  pose proof (all_bytes (fun c => forallb (fun x => (0 <=? x) && (x <? 256)) (print_char c))
                ltac:(vm_compute; done) c Hb) as Hall. simpl in Hall.
  rewrite forallb_forall in Hall. apply List.Forall_forall. intros x Hx.
  specialize (Hall x Hx). unfold is_byte. lia.
Qed.

Lemma reversible_byte c : reversible c = true -> 0 < c < 256.
Proof. unfold reversible. lia. Qed.

(** What [_PrintString] writes. *)
#[export] Instance print_string_encoding : StringEncoding := {|
  encode := print_char;
  encodable := reversible;
  encode_form := print_char_cases;
  encode_bytes := print_char_bytes;
  encodable_byte := reversible_byte
|}.

(** ** Moving a part of the buffer down *)

Lemma wr_app A b c B : 0 <= c < 256 -> wr (A ++ b :: B) (length A) c = Done (A ++ c :: B).
Proof.
  intros Hc. unfold wr. rewrite decide_True by (rewrite length_app; simpl; lia).
  rewrite u8_small by done. f_equal. rewrite insert_app_r_alt, Nat.sub_diag by lia. done.
Qed.

(** [_memcpy] over a gap [g]: the block [b] moves down by the length of the gap,
    what followed it stays, and as many bytes as the gap had are left over. *)
Lemma memcpy_down a g b c :
  g ≠ [] -> Forall is_byte b ->
  exists g', length g' = length g /\
    _memcpy (a ++ g ++ b ++ c) (length a) (length a + length g) (length b) = Done (a ++ b ++ g' ++ c).
Proof.
  intros Hg Hb. revert a g Hg. induction Hb as [|y b Hy Hb IH]; intros a g Hg.
  - exists g. done.
  - destruct g as [|x g]; [done|]. cbn [_memcpy length].
    rewrite (rd_app_plus a _ _ y) by (simpl; by rewrite list_lookup_middle).
    cbn [mbind outcome_bind app]. rewrite wr_app by done. cbn [mbind outcome_bind].
    destruct (IH (a ++ [y]) (g ++ [y]) ltac:(by destruct g)) as (g' & Hl & Hm).
    rewrite (length_app a), (length_app g), <- !app_assoc in Hm. rewrite length_app in Hl.
    simpl in Hm, Hl.
    cbn [app] in Hm. exists g'. split; [lia|].
    replace (S (length a + S (length g))) with (length a + 1 + (length g + 1))%nat by lia.
    replace (S (length a)) with (length a + 1)%nat by lia. rewrite Hm. done.
Qed.

Lemma memmove_down_spec a g b c :
  g ≠ [] -> Forall is_byte b ->
  exists g', length g' = length g /\
    _memmove (a ++ g ++ b ++ c) (length a) (length a + length g) (length b) = Done (a ++ b ++ g' ++ c).
Proof.
  intros Hg Hb. unfold _memmove.
  assert (0 < length g)%nat by (destruct g; simpl; [done|lia]).
  rewrite (bool_decide_true (_ ≠ _)) by lia.
  destruct (decide (b = [])) as [->|Hne]; [by exists g|].
  rewrite bool_decide_true by (destruct b; simpl; [done|lia]).
  rewrite bool_decide_true by lia. by apply memcpy_down.
Qed.

(** ** Decoding *)

Section Decoding.
Context `{E : StringEncoding}.

Lemma printed_cons c s : printed (c :: s) = encode c ++ printed s.
Proof. done. Qed.

Lemma printed_bytes s : forallb encodable s = true -> Forall is_byte (printed s).
Proof.
  induction s as [|c s IH]; [constructor|]. cbn [forallb]. rewrite andb_true_iff. intros [Hc Hs].
  rewrite printed_cons. apply Forall_app. split; [by apply encode_bytes|by apply IH].
Qed.

Lemma encodable_nonzero s : forallb encodable s = true -> ~ (0 ∈ s).
Proof.
  intros Hs H0. rewrite forallb_forall in Hs. apply list_elem_of_In in H0.
  pose proof (encodable_byte 0 (Hs 0 H0)). lia.
Qed.

Lemma printed_length s : forallb encodable s = true -> (length s <= length (printed s))%nat.
Proof.
  induction s as [|c s IH]; [done|]. cbn [forallb]. rewrite andb_true_iff. intros [Hc Hs].
  rewrite printed_cons, length_app. specialize (IH Hs).
  destruct (encode_form c Hc); simpl; lia.
Qed.

(** One step of the search, on each form. *)
Lemma find_quote_plain fuel A c B e esc :
  c ≠ 34 -> c ≠ 92 -> (length A < e)%nat ->
  find_quote (S fuel) (A ++ c :: B) (length A) e esc =
  find_quote fuel ((A ++ [c]) ++ B) (length (A ++ [c])) e esc.
Proof.
  intros H1 H2 He. cbn [find_quote]. rewrite decide_False by lia. rewrite rd_app.
  cbn [mbind outcome_bind]. replace (c =? 34) with false by lia. replace (c =? 92) with false by lia.
  rewrite length_app, <- app_assoc. simpl. by rewrite Nat.add_1_r.
Qed.

Lemma find_quote_short fuel A x B e esc :
  x ≠ 117 -> (length A + 1 < e)%nat ->
  find_quote (S fuel) (A ++ 92 :: x :: B) (length A) e esc =
  find_quote fuel ((A ++ [92; x]) ++ B) (length (A ++ [92; x])) e true.
Proof.
  intros H1 He. cbn [find_quote]. rewrite decide_False by lia. rewrite rd_app.
  cbn [mbind outcome_bind Z.eqb Pos.eqb]. rewrite <- (Nat.add_1_r (length A)).
  rewrite (rd_app_plus A _ 1 x) by done. cbn [mbind outcome_bind].
  replace (x =? 117) with false by lia. rewrite decide_False by lia.
  rewrite length_app, <- app_assoc. simpl. do 2 f_equal. lia.
Qed.

Lemma find_quote_hex fuel A h0 h1 h2 h3 B e esc :
  h3 ≠ 34 -> h3 ≠ 92 -> (length A + 6 < e)%nat ->
  find_quote (S (S fuel)) (A ++ 92 :: 117 :: h0 :: h1 :: h2 :: h3 :: B) (length A) e esc =
  find_quote fuel ((A ++ [92; 117; h0; h1; h2; h3]) ++ B)
    (length (A ++ [92; 117; h0; h1; h2; h3])) e true.
Proof.
  intros H1 H2 He.
  transitivity (find_quote (S fuel) ((A ++ [92; 117; h0; h1; h2]) ++ h3 :: B)
                  (length (A ++ [92; 117; h0; h1; h2])) e true).
  - remember (S fuel) as f eqn:Hf. clear Hf. cbn [find_quote]. rewrite decide_False by lia.
    rewrite rd_app. cbn [mbind outcome_bind Z.eqb Pos.eqb]. rewrite <- (Nat.add_1_r (length A)).
    rewrite (rd_app_plus A _ 1 117) by done. cbn [mbind outcome_bind Z.eqb Pos.eqb].
    rewrite (proj2 (Z.ltb_ge _ 4)) by lia.
    rewrite length_app, <- app_assoc. simpl length. cbn [app]. f_equal. lia.
  - rewrite find_quote_plain by (try done; rewrite length_app; simpl; lia).
    by rewrite <- !app_assoc.
Qed.

Lemma find_quote_printed s fuel A B e esc :
  forallb encodable s = true -> (length (printed s) < fuel)%nat ->
  (length A + length (printed s) < e)%nat ->
  exists b, find_quote fuel (A ++ printed s ++ 34 :: B) (length A) e esc
            = Done (inr ((length A + length (printed s))%nat, b)) /\
            (b = false -> esc = false /\ printed s = s).
Proof.
  intros Hs. revert fuel A esc. induction s as [|c s IH]; intros fuel A esc.
  - intros Hf He. destruct fuel as [|fuel]; [simpl in Hf; lia|]. exists esc. cbn [find_quote].
    simpl in He |- *. rewrite decide_False by lia. rewrite rd_app. cbn. by rewrite Nat.add_0_r.
  - cbn [forallb] in Hs. apply andb_true_iff in Hs as [Hc Hs]. rewrite printed_cons.
    destruct (encode_form c Hc) as [? ? ?|x ? ? ?|h0 h1 h2 h3 ? ? ? ?];
      intros Hf He; simpl in Hf, He; rewrite <- app_assoc; cbn [app].
    + destruct fuel as [|fuel]; [lia|]. rewrite find_quote_plain by (done || lia).
      destruct (IH Hs fuel (A ++ [c]) esc) as (b & -> & Hb);
        [lia|rewrite length_app; simpl; lia|].
      exists b. split; [rewrite length_app; simpl; do 3 f_equal; lia|].
      intros Hbf. destruct (Hb Hbf) as [? ->]. done.
    + destruct fuel as [|fuel]; [lia|]. rewrite find_quote_short by (done || lia).
      destruct (IH Hs fuel (A ++ [92; x]) true) as (b & -> & Hb);
        [lia|rewrite length_app; simpl; lia|].
      exists b. split; [rewrite length_app; simpl; do 3 f_equal; lia|].
      intros Hbf. by destruct (Hb Hbf).
    + destruct fuel as [|[|fuel]]; [lia..|]. rewrite find_quote_hex by (done || lia).
      destruct (IH Hs fuel (A ++ [92; 117; h0; h1; h2; h3]) true) as (b & -> & Hb);
        [lia|rewrite length_app; simpl; lia|].
      exists b. split; [rewrite length_app; simpl; do 3 f_equal; lia|].
      intros Hbf. by destruct (Hb Hbf).
Qed.

(** One step of the decoding, on each form: the escape sequence becomes its
    character, the rest of the string moves down. *)
Lemma unescape_plain fuel A c B e :
  c ≠ 0 -> c ≠ 92 ->
  unescape (S fuel) (A ++ c :: B) (length A) e =
  unescape fuel ((A ++ [c]) ++ B) (length (A ++ [c])) e.
Proof.
  intros H1 H2. cbn [unescape]. rewrite rd_app.
  cbn [mbind outcome_bind]. replace (c =? 0) with false by lia. replace (c =? 92) with false by lia.
  rewrite length_app, <- app_assoc. simpl. by rewrite Nat.add_1_r.
Qed.

Lemma unescape_short fuel A x c R B :
  x ≠ 0 -> escape_value x = Some c -> is_byte c -> Forall is_byte R ->
  exists B', unescape (S fuel) (A ++ 92 :: x :: R ++ 0 :: B) (length A) (length A + 2 + length R) =
    unescape fuel ((A ++ [c]) ++ R ++ 0 :: B') (length (A ++ [c])) (length (A ++ [c]) + length R) /\
    exists g, B' = g ++ B /\ length g = 1%nat.
Proof.
  intros Hx0 Hx Hc HR. cbn [unescape]. rewrite rd_app.
  cbn [mbind outcome_bind Z.eqb Pos.eqb]. rewrite <- (Nat.add_1_r (length A)).
  rewrite (rd_app_plus A _ 1 x) by done. cbn [mbind outcome_bind].
  replace (x =? 0) with false by lia. rewrite Hx.
  replace (length A + 1 - 1)%nat with (length A) by lia. rewrite wr_app by done.
  cbn [mbind outcome_bind].
  destruct (memmove_down_spec (A ++ [c]) [x] (R ++ [0]) B) as (g & Hg & Hm); [done| |].
  { apply Forall_app; split; [done|]. apply Forall_singleton. unfold is_byte. lia. }
  rewrite !length_app, <- !app_assoc in Hm. simpl in Hm, Hg.
  replace (length A + 2 + length R - (length A + 1))%nat with (length R + 1)%nat by lia.
  rewrite Hm. cbn [mbind outcome_bind].
  exists (g ++ B). split; [|by exists g].
  rewrite length_app, <- !app_assoc. simpl. f_equal; lia.
Qed.

Lemma unescape_hex fuel A h0 h1 h2 h3 c R B :
  (forall A' B', _hex_str4_to_u32 (A' ++ [h0; h1; h2; h3] ++ B') (length A') = Done (Some c)) ->
  is_byte c -> Forall is_byte R ->
  exists B', unescape (S fuel) (A ++ 92 :: 117 :: h0 :: h1 :: h2 :: h3 :: R ++ 0 :: B) (length A)
               (length A + 6 + length R) =
    unescape fuel ((A ++ [c]) ++ R ++ 0 :: B') (length (A ++ [c])) (length (A ++ [c]) + length R) /\
    exists g, B' = g ++ B /\ length g = 5%nat.
Proof.
  intros Hh Hc HR. cbn [unescape]. rewrite rd_app.
  cbn [mbind outcome_bind Z.eqb Pos.eqb]. rewrite <- (Nat.add_1_r (length A)).
  rewrite (rd_app_plus A _ 1 117) by done.
  cbn [mbind outcome_bind Z.eqb Pos.eqb escape_value].
  replace (S (length A + 1)) with (length A + 2)%nat by lia.
  rewrite (proj2 (Z.ltb_ge _ 4)) by lia.
  specialize (Hh (A ++ [92; 117]) (R ++ 0 :: B)). rewrite length_app, <- app_assoc in Hh.
  simpl in Hh. rewrite Hh. cbn [mbind outcome_bind].
  replace (256 <=? c) with false by (unfold is_byte in Hc; lia).
  replace (length A + 2 - 2)%nat with (length A) by lia. rewrite wr_app by done.
  cbn [mbind outcome_bind].
  destruct (memmove_down_spec (A ++ [c]) [117; h0; h1; h2; h3] (R ++ [0]) B) as (g & Hg & Hm);
    [done| |].
  { apply Forall_app; split; [done|]. apply Forall_singleton. unfold is_byte. lia. }
  rewrite !length_app, <- !app_assoc in Hm. simpl in Hm, Hg.
  replace (length A + 2 - 1)%nat with (length A + 1)%nat by lia.
  replace (length A + 2 + 4)%nat with (length A + 1 + 5)%nat by lia.
  replace (length A + 6 + length R - (length A + 2) - 3)%nat with (length R + 1)%nat by lia.
  rewrite Hm. cbn [mbind outcome_bind].
  exists (g ++ B). split; [|by exists g].
  rewrite length_app, <- !app_assoc. simpl. f_equal; lia.
Qed.

Lemma unescape_printed s fuel A B :
  forallb encodable s = true -> (length s < fuel)%nat ->
  exists g, unescape fuel (A ++ printed s ++ 0 :: B) (length A) (length A + length (printed s))
            = Done (JSON_OK, A ++ s ++ 0 :: g ++ B) /\
            (length g + length s = length (printed s))%nat.
Proof.
  intros Hs. revert fuel A B. induction s as [|c s IH]; intros fuel A B Hf.
  - destruct fuel as [|fuel]; [simpl in Hf; lia|]. exists []. cbn. by rewrite rd_app.
  - cbn [forallb] in Hs. apply andb_true_iff in Hs as [Hc Hs]. rewrite printed_cons.
    assert (is_byte c) as Hb by (pose proof (encodable_byte c Hc); unfold is_byte; lia).
    pose proof (printed_bytes s Hs) as HP. destruct fuel as [|fuel]; [simpl in Hf; lia|].
    simpl in Hf.
    destruct (encode_form c Hc) as [? ? ?|x ? ? ?|h0 h1 h2 h3 ? ? ? ?];
      rewrite <- app_assoc; cbn [app length].
    + rewrite unescape_plain by done. specialize (IH Hs fuel (A ++ [c]) B ltac:(lia)).
      destruct IH as (g & IH & Hg). exists g. split; [|simpl; lia].
      rewrite <- !app_assoc in IH. simpl in IH. rewrite <- IH, length_app, <- app_assoc. simpl.
      f_equal. lia.
    + destruct (unescape_short fuel A x c (printed s) B) as (B' & Hu & g1 & -> & Hg1); try done.
      replace (length A + S (S (length (printed s))))%nat
        with (length A + 2 + length (printed s))%nat by lia. rewrite Hu.
      destruct (IH Hs fuel (A ++ [c]) (g1 ++ B) ltac:(lia)) as (g & -> & Hg).
      exists (g ++ g1). rewrite length_app, <- !app_assoc. split; [done|simpl; lia].
    + destruct (unescape_hex fuel A h0 h1 h2 h3 c (printed s) B) as (B' & Hu & g1 & -> & Hg1);
        try done.
      replace (length A + S (S (S (S (S (S (length (printed s))))))))%nat
        with (length A + 6 + length (printed s))%nat by lia. rewrite Hu.
      destruct (IH Hs fuel (A ++ [c]) (g1 ++ B) ltac:(lia)) as (g & -> & Hg).
      exists (g ++ g1). rewrite length_app, <- !app_assoc. split; [done|simpl; lia].
Qed.

End Decoding.

(** ** Printing and reading back *)

Lemma print_chars_printed A s B p :
  ~ (0 ∈ s) -> print_chars (drop (length A) (A ++ s ++ 0 :: B)) p = Done (printed s).
Proof.
  rewrite drop_app_length. revert p. induction s as [|c s IH]; intros p Hs; [done|].
  apply not_elem_of_cons in Hs as [Hc Hs]. cbn [app print_chars].
  replace (c =? 0) with false by lia. rewrite IH by done. done.
Qed.

Lemma str_at_app A s B : ~ (0 ∈ s) -> str_at (A ++ s ++ 0 :: B) (length A) = s.
Proof.
  intros Hs. unfold str_at. rewrite drop_app_length. induction s as [|c s IH]; [done|].
  apply not_elem_of_cons in Hs as [Hc Hs]. simpl. replace (c =? 0) with false by lia.
  by rewrite IH.
Qed.

Section ReadBack.
Context {D : Type} `{E : StringEncoding}.
Implicit Types s : pstate D.

(** A printed string and its closing quote stand at the parser's pointer. *)
Definition at_printed (s : pstate D) (A str B : text) : Prop :=
  txt s = A ++ printed str ++ 34 :: B /\ ptr (prs s) = length A /\
  (length A + length (printed str) < end_ (prs s))%nat /\ scan (prs s) = false.

Lemma get_string_printed s A str B :
  at_printed s A str B -> forallb encodable str = true ->
  exists g, (length g + length str = length (printed str))%nat /\
    _get_string s = Done (inr (length A),
      set_txt (set_prs s (with_ptr (prs s) (length A + length (printed str) + 1)))
              (A ++ str ++ 0 :: g ++ B)).
Proof.
  intros (Ht & Hp & He & Hscan) Hr.
  destruct (find_quote_printed str (S (length (txt s))) A B (end_ (prs s)) false Hr) as (b & Hq & Hb);
    [rewrite Ht, !length_app; simpl; lia|done|].
  assert (is_byte 0) as H0 by (unfold is_byte; lia).
  assert (wr (txt s) (length A + length (printed str)) 0 = Done (A ++ printed str ++ 0 :: B)) as Hw.
  { rewrite Ht, app_assoc, <- length_app, wr_app by done. by rewrite <- app_assoc. }
  rewrite <- Ht in Hq. unfold _get_string.
  rewrite bind_get, Hp, (bind_lift _ _ _ _ Hq), bind_put, Hscan.
  rewrite (bind_lift _ _ _ _ Hw), bind_put.
  replace (length A + (length A + length (printed str) - length A) + 1)%nat
    with (length A + length (printed str) + 1)%nat by lia.
  destruct b.
  - destruct (unescape_printed str (S (length (A ++ printed str ++ 0 :: B))) A B Hr) as (g & Hu & Hg).
    { pose proof (printed_length str Hr). rewrite !length_app. simpl. lia. }
    exists g. split; [done|]. by rewrite (bind_lift _ _ _ _ Hu), bind_put.
  - destruct (Hb eq_refl) as [_ Hs]. exists []. rewrite Hs. split; [simpl; lia|]. done.
Qed.

End ReadBack.

Section PrintString.
Context {D : Type}.
Implicit Types s : pstate D.

(** C30. A string of reversible characters that [_PrintString] writes between
    its quotes is read back by [_get_string] as the same string: it leaves the
    decoded string, zero-terminated, at the start of the quoted one, moves the
    pointer just past the closing quote, and touches no byte before or after
    it. *)
Theorem get_string_print_string s A str B A' B' :
  at_printed s A str B -> forallb reversible str = true ->
  _PrintString (A' ++ str ++ 0 :: B') (length A') = Done (34 :: printed str ++ [34]) /\
  exists s' g, _get_string s = Done (inr (length A), s') /\
    txt s' = A ++ str ++ 0 :: g ++ B /\ str_at (txt s') (length A) = str /\
    ptr (prs s') = (length A + length (printed str) + 1)%nat /\ length (txt s') = length (txt s).
Proof.
  intros Hat Hr. split.
  - unfold _PrintString. by rewrite print_chars_printed by (by apply encodable_nonzero).
  - destruct (get_string_printed s A str B Hat Hr) as (g & Hg & ->).
    eexists _, g. split; [done|]. cbn [txt set_txt set_prs prs ptr with_ptr].
    rewrite str_at_app by (by apply encodable_nonzero).
    repeat split. destruct Hat as (-> & _). rewrite !length_app. simpl. rewrite !length_app. lia.
Qed.
End PrintString.

(** The parser at the start of a text, not scanning. *)
Definition fresh_parser (t : text) (n : nat) : pstate unit :=
  PState t (Parser 0 n false (replicate JSON_MAX_NESTING (Node None 0 0 0)) 0 true)
         JSON_OK 0 0 tt.

Lemma get_string_print_string_witness :
  let str := bytes "a/b" ++ [10; 1; 34] in
  let t := printed str ++ [34; 44; 0] in
  _PrintString (str ++ [0]) 0 = Done (34 :: printed str ++ [34]) /\
  exists s' g, _get_string (fresh_parser t (length t - 1)) = Done (inr 0%nat, s') /\
    txt s' = str ++ 0 :: g ++ [44; 0] /\ str_at (txt s') 0 = str /\
    ptr (prs s') = (0 + length (printed str) + 1)%nat /\
    length (txt s') = length (txt (fresh_parser t (length t - 1))).
Proof.
  apply (get_string_print_string (fresh_parser _ _) [] (bytes "a/b" ++ [10; 1; 34]) [44; 0]
           [] []).
  - vm_compute. repeat split; lia.
  - vm_compute. reflexivity.
Defined.

(** The characters left out of the round trip are exactly those that are
    printed with an upper-case hexadecimal digit: [_tolower] maps 'A'..'F' to
    '!'..'&', so [_get_string] refuses what [_PrintString] wrote with
    JSON_BAD_SYNTAX. *)
Theorem uppercase_hex_rejected c :
  0 < c < 256 -> reversible c = false ->
  exists s', _get_string (fresh_parser (printed [c] ++ [34; 0]) 7) = Done (inl JSON_BAD_SYNTAX, s').
Proof.
  intros Hc Hr.
  pose proof (all_bytes (fun c => (c =? 0) || reversible c ||
    match _get_string (fresh_parser (@printed print_string_encoding [c] ++ [34; 0]) 7) with
    | Done (inl JSON_BAD_SYNTAX, _) => true | _ => false end) ltac:(vm_compute; done) c ltac:(lia))
    as Hall. simpl in Hall. rewrite Hr in Hall. replace (c =? 0) with false in Hall by lia.
  destruct (_get_string _) as [[[[]|] s']|]; try done. by exists s'.
Qed.

Lemma uppercase_hex_rejected_witness :
  exists s', _get_string (fresh_parser (printed [27] ++ [34; 0]) 7) = Done (inl JSON_BAD_SYNTAX, s').
Proof. apply (uppercase_hex_rejected 27); [lia|reflexivity]. Defined.
