(* ===== verification/JsonSafety.v ===== *)
(** * JsonSafety: the parser of libjson/json.c never leaves its buffers

    For every zero-terminated text, every callback and every allocator, parsing
    returns: no access outside the text or the path, no endless loop, every
    scanner freed, nothing written past the end of the text.  The proofs are in
    a small weakest-precondition calculus for the parser's monad, with an
    exceptional postcondition for RAISE. *)

From Stdlib Require Import SpecFloat String.
From S2P Require Import Prelude JsonText JsonParser.

(** ** Conversions stay within a zero-terminated text *)

Section Terminated.
Variables (t : text) (e : nat).
Hypothesis Hend : t !! e = Some 0.

Lemma rd_upto p : (p <= e)%nat -> exists c, rd t p = Done c /\ t !! p = Some c.
Proof.
  intros Hp. assert (e < length t)%nat by (by eapply lookup_lt_Some).
  destruct (lookup_lt_is_Some_2 t p ltac:(lia)) as [c Hc]. exists c. unfold rd. by rewrite Hc.
Qed.

(** A character other than the terminator is before it. *)
Lemma before_end p c : (p <= e)%nat -> t !! p = Some c -> c ≠ 0 -> (p < e)%nat.
Proof. intros Hp Hc Hn. assert (p ≠ e) by congruence. lia. Qed.

Lemma drop_rest p : (p <= e)%nat -> exists c, t !! p = Some c /\ drop p t = c :: drop (S p) t.
Proof.
  intros Hp. destruct (rd_upto p Hp) as (c & _ & Hc). exists c. split; [done|]. by apply drop_S.
Qed.

Lemma skip_spaces_total p :
  (p <= e)%nat -> exists p', skip_spaces (drop p t) p = Done p' /\ (p <= p' <= e)%nat.
Proof.
  intros Hp. remember (e - p)%nat as n eqn:Hn. revert p Hp Hn.
  induction n as [|n IH]; intros p Hp Hn; destruct (drop_rest p Hp) as (c & Hc & ->);
    cbn [skip_spaces]; destruct (_isspace c) eqn:E; try (by exists p).
  - assert (p = e) by lia. subst. rewrite Hend in Hc. by simplify_eq.
  - destruct (IH (S p)) as (p' & -> & ?); [lia..|]. exists p'. split; [done|lia].
Qed.

Lemma skip_sign_total p :
  (p <= e)%nat -> exists b p', skip_sign t p = Done (b, p') /\ (p <= p' <= e)%nat.
Proof.
  intros Hp. destruct (rd_upto p Hp) as (c & Hr & Hc). unfold skip_sign. rewrite Hr.
  cbn [mbind outcome_bind].
  destruct (c =? 43) eqn:E1; [|destruct (c =? 45) eqn:E2].
  - eexists _, _. split; [done|]. pose proof (before_end p c Hp Hc). lia.
  - eexists _, _. split; [done|]. pose proof (before_end p c Hp Hc). lia.
  - by eexists _, _.
Qed.

Lemma strtol_digits_total p x :
  (p <= e)%nat -> exists r, strtol_digits (drop p t) p 10 x = Done r /\
    match r with DigitsEnd _ p' | DigitsOverflow p' => (p <= p' <= e)%nat end.
Proof.
  intros Hp. remember (e - p)%nat as n eqn:Hn. revert p x Hp Hn.
  induction n as [|n IH]; intros p x Hp Hn; destruct (drop_rest p Hp) as (c & Hc & ->);
    cbn [strtol_digits].
  - assert (p = e) by lia. subst. rewrite Hend in Hc. simplify_eq. simpl.
    eexists. split; [done|]. simpl. lia.
  - destruct (negb (c =? 0) && _isdigit2 c 10); [|eexists; split; [done|]; simpl; lia].
    destruct (x >? ULONG_MAX / 10); [eexists; split; [done|]; simpl; lia|].
    destruct (_digit c >? _); [eexists; split; [done|]; simpl; lia|].
    destruct (IH (S p) (u64 (u64 (x * 10) + _digit c))) as (r & -> & Hr); [lia..|].
    exists r. split; [done|]. destruct r; lia.
Qed.

Lemma skip_leading_total p allow :
  (p <= e)%nat -> exists p', (if (allow : bool) then skip_spaces (drop p t) p else Done p) = Done p' /\
    (p <= p' <= e)%nat.
Proof. intros Hp. destruct allow; [by apply skip_spaces_total|]. by exists p. Qed.

Lemma strtol_total p allow :
  (p <= e)%nat -> exists v e' err, _strtol t (Some p) 10 allow = Done (Conversion v (Some e') err) /\
    (p <= e' <= e)%nat.
Proof.
  intros Hp. destruct (rd_upto p Hp) as (c & Hr & Hc).
  unfold _strtol. change (10 <? 0) with false. cbn iota. rewrite Hr. cbn [mbind outcome_bind].
  destruct (negb allow && _isspace c); [eexists _, _, _; by split|].
  destruct (skip_leading_total p allow Hp) as (p0 & -> & Hp0). cbn [mbind outcome_bind].
  destruct (skip_sign_total p0 ltac:(lia)) as (b & p1 & -> & Hp1). cbn [mbind outcome_bind].
  unfold deduce_base, skip_prefix. cbn [mbind outcome_bind negb Z.eqb Pos.eqb].
  destruct (strtol_digits_total p1 0 ltac:(lia)) as ([x p2|p2] & -> & Hp2);
    cbn [mbind outcome_bind].
  - destruct (bool_decide (p2 = p)); eexists _, _, _; (split; [done|]); lia.
  - eexists _, _, _; (split; [done|]); lia.
Qed.

Lemma strtoul_total p allow :
  (p <= e)%nat -> exists v e' err, _strtoul t (Some p) 10 allow = Done (Conversion v (Some e') err) /\
    (p <= e' <= e)%nat.
Proof.
  intros Hp. destruct (strtol_total p allow Hp) as (v & e' & err & Hs & He').
  unfold _strtoul. rewrite Hs. cbn [mbind outcome_bind]. by eexists _, _, _.
Qed.

Lemma strtou64_total p allow :
  (p <= e)%nat -> exists v ok err, _strtou64 t (Some p) allow = Done (v, ok, err).
Proof.
  intros Hp. destruct (strtoul_total p allow Hp) as (v & e' & err & Hs & He').
  unfold _strtou64. rewrite Hs. cbn [mbind outcome_bind conv_end conv_value conv_error].
  destruct (rd_upto e' ltac:(lia)) as (c & -> & _). cbn [mbind outcome_bind]. by eexists _, _, _.
Qed.

Lemma strtod_number_total p allow :
  (p <= e)%nat -> exists v e' b err, strtod_number t p allow = Done (v, e', b, err) /\
    (p <= e' <= e)%nat.
Proof.
  intros Hp. destruct (strtoul_total p allow Hp) as (v & e' & err & Hs & He').
  unfold strtod_number. rewrite Hs. cbn [mbind outcome_bind]. by eexists _, _, _, _.
Qed.

Lemma strtod_fraction_total p endp b allow :
  (p <= e)%nat -> exists y r p' endp' err stop,
    strtod_fraction t p endp b allow = Done (y, r, p', endp', err, stop) /\ (p <= p' <= e)%nat.
Proof.
  intros Hp. destruct (rd_upto p Hp) as (c & Hr & Hc). unfold strtod_fraction. rewrite Hr.
  cbn [mbind outcome_bind]. destruct (c =? 46) eqn:E.
  - pose proof (before_end p c Hp Hc ltac:(lia)) as Hlt.
    destruct (strtod_number_total (S p) allow ltac:(lia)) as (y & e' & b' & err & -> & He').
    cbn [mbind outcome_bind].
    destruct b'; [|destruct b]; eexists _, _, _, _, _, _; (split; [done|]); lia.
  - eexists _, _, _, _, _, _; (split; [done|]); lia.
Qed.

Lemma strtod_exponent_total p endp allow :
  (p <= e)%nat -> exists x b endp' err, strtod_exponent t p endp allow = Done (x, b, endp', err).
Proof.
  intros Hp. destruct (rd_upto p Hp) as (c & Hr & Hc). unfold strtod_exponent. rewrite Hr.
  cbn [mbind outcome_bind]. destruct ((c =? 101) || (c =? 69)) eqn:E; [|by eexists _, _, _, _].
  pose proof (before_end p c Hp Hc ltac:(lia)) as Hlt.
  destruct (rd_upto (S p) ltac:(lia)) as (s & Hrs & Hs). rewrite Hrs. cbn [mbind outcome_bind].
  set (p' := if (s =? 45) || (s =? 43) then S (S p) else S p).
  assert (p' <= e)%nat as Hp'.
  { subst p'. destruct ((s =? 45) || (s =? 43)) eqn:E2; [|lia].
    pose proof (before_end (S p) s ltac:(lia) Hs ltac:(lia)). lia. }
  destruct (strtod_number_total p' allow Hp') as (y & e' & b' & err & -> & He').
  cbn [mbind outcome_bind]. by eexists _, _, _, _.
Qed.

Lemma strtod_total p allow :
  (p <= e)%nat -> exists d e' err, _strtod t (Some p) allow = Done (d, Some e', err).
Proof.
  intros Hp. destruct (rd_upto p Hp) as (c & Hr & Hc). unfold _strtod. rewrite Hr.
  cbn [mbind outcome_bind]. destruct (negb allow && _isspace c); [by eexists _, _, _|].
  destruct (skip_leading_total p allow Hp) as (p0 & -> & Hp0). cbn [mbind outcome_bind].
  destruct (skip_sign_total p0 ltac:(lia)) as (b & p1 & -> & Hp1). cbn [mbind outcome_bind].
  destruct (strtod_number_total p1 allow ltac:(lia)) as (x & p2 & hx & err1 & -> & Hp2).
  cbn [mbind outcome_bind].
  destruct (strtod_fraction_total p2 (if hx then p2 else p) hx allow ltac:(lia))
    as (y & r & p3 & end2 & err2 & stop & -> & Hp3). cbn [mbind outcome_bind].
  destruct stop; [by eexists _, _, _|].
  destruct (strtod_exponent_total p3 end2 allow ltac:(lia)) as (ex & en & end3 & err3 & ->).
  cbn [mbind outcome_bind]. by eexists _, _, _.
Qed.

(** ** The loops of the parser over a terminated text *)

Lemma skip_ws_total p allow :
  (p <= e)%nat -> exists r p', skip_ws (drop p t) p e allow = Done (r, p') /\ (p <= p' <= e)%nat.
Proof.
  intros Hp. remember (e - p)%nat as n eqn:Hn. revert p Hp Hn.
  induction n as [|n IH]; intros p Hp Hn; destruct (drop_rest p Hp) as (c & Hc & ->);
    cbn [skip_ws]; destruct (decide (p = e)); try (eexists _, _; split; [done|]; lia); [lia|].
  destruct (_isspace c); [|eexists _, _; split; [done|]; lia].
  destruct allow; [|eexists _, _; split; [done|]; lia].
  destruct (IH (S p)) as (r & p' & -> & ?); [lia..|]. eexists _, _. split; [done|lia].
Qed.

Lemma number_span_total p b :
  (p <= e)%nat -> exists p' b', number_span (drop p t) p e b = Done (p', b') /\ (p <= p' <= e)%nat.
Proof.
  intros Hp. remember (e - p)%nat as n eqn:Hn. revert p b Hp Hn.
  induction n as [|n IH]; intros p b Hp Hn; destruct (drop_rest p Hp) as (c & Hc & ->);
    cbn [number_span]; destruct (decide (p = e)); try (eexists _, _; split; [done|]; lia); [lia|].
  destruct (_is_number_char c); [|eexists _, _; split; [done|]; lia].
  destruct (IH (S p) (if _is_decimal_or_exponent c then false else b)) as (p' & b' & -> & ?);
    [lia..|]. eexists _, _. split; [done|lia].
Qed.

Lemma find_quote_total fuel p b :
  (p <= e)%nat -> (e - p < fuel)%nat -> exists r, find_quote fuel t p e b = Done r /\
    match r with inl _ => True | inr (p', _) => (p <= p' < e)%nat end.
Proof.
  revert p b. induction fuel as [|fuel IH]; intros p b Hp Hf; [lia|]. cbn [find_quote].
  destruct (decide (p = e)); [by eexists|].
  destruct (rd_upto p Hp) as (c & -> & Hc). cbn [mbind outcome_bind].
  destruct (c =? 34); [eexists; split; [done|]; simpl; lia|].
  destruct (c =? 92).
  - destruct (rd_upto (S p) ltac:(lia)) as (c1 & -> & Hc1). cbn [mbind outcome_bind].
    destruct (c1 =? 117).
    + destruct (Z.ltb_spec (Z.of_nat e - Z.of_nat (S p)) 4); [by eexists|].
      destruct (IH (S p + 4)%nat true) as (r & -> & Hr); [lia..|]. exists r. split; [done|].
      destruct r as [|[]]; [done|lia].
    + destruct (decide (S p = e)); [by eexists|].
      destruct (IH (S (S p)) true) as (r & -> & Hr); [lia..|]. exists r. split; [done|].
      destruct r as [|[]]; [done|lia].
  - destruct (IH (S p) b) as (r & -> & Hr); [lia..|]. exists r. split; [done|].
    destruct r as [|[]]; [done|lia].
Qed.
End Terminated.

(** ** In-place decoding stays within the string *)

Lemma wr_ok t p c : (p < length t)%nat -> wr t p c = Done (<[p := u8 c]> t).
Proof. intros. unfold wr. by rewrite decide_True. Qed.

(** What is written is a byte. *)
Lemma insert_bytes t p c : Forall is_byte t -> Forall is_byte (<[p := u8 c]> t).
Proof. intros Ht. apply Forall_insert; [done|]. apply wrap_range. lia. Qed.

Lemma wr_bytes t p c t' : wr t p c = Done t' -> Forall is_byte t -> Forall is_byte t'.
Proof. unfold wr. case_decide; [|done]. intros [= <-]. apply insert_bytes. Qed.

Lemma memcpy_bytes n t dest src t' :
  _memcpy t dest src n = Done t' -> Forall is_byte t -> Forall is_byte t'.
Proof.
  revert t dest src. induction n as [|n IH]; intros t dest src; cbn [_memcpy]; [by intros [= <-]|].
  destruct (rd t src) as [c|]; [|done]. cbn. destruct (wr t dest c) as [t1|] eqn:Hw; [|done]. cbn.
  intros Hm Ht. eapply IH; [exact Hm|]. by eapply wr_bytes.
Qed.

(** [_memcpy] downwards: the block is shifted, the rest is unchanged. *)
Lemma memcpy_spec t dest src n :
  (dest < src)%nat -> (src + n <= length t)%nat ->
  exists t', _memcpy t dest src n = Done t' /\ length t' = length t /\
    (forall i, (i < dest \/ dest + n <= i)%nat -> t' !! i = t !! i) /\
    (forall i, (dest <= i < dest + n)%nat -> t' !! i = u8 <$> t !! (i + (src - dest))%nat).
Proof.
  revert t dest src. induction n as [|n IH]; intros t dest src Hd Hs.
  - exists t. repeat split; try done; intros; lia.
  - cbn [_memcpy]. destruct (lookup_lt_is_Some_2 t src ltac:(lia)) as [c Hc].
    unfold rd. rewrite Hc. cbn [mbind outcome_bind]. rewrite wr_ok by lia. cbn [mbind outcome_bind].
    destruct (IH (<[dest := u8 c]> t) (S dest) (S src)) as (t' & -> & Hl & Ho & Hi);
      [lia|rewrite length_insert; lia|].
    exists t'. rewrite length_insert in Hl. split; [done|]. split; [done|]. split.
    + intros i Hi'. by rewrite Ho, list_lookup_insert_ne by lia.
    + intros i Hi'. destruct (decide (i = dest)) as [->|].
      * rewrite Ho, list_lookup_insert_eq by lia.
        replace (dest + (src - dest))%nat with src by lia. by rewrite Hc.
      * by rewrite Hi, list_lookup_insert_ne by lia.
Qed.

Lemma memmove_spec t dest src n :
  (dest < src)%nat -> (src + n <= length t)%nat ->
  exists t', _memmove t dest src n = Done t' /\ length t' = length t /\
    (forall i, (i < dest \/ dest + n <= i)%nat -> t' !! i = t !! i) /\
    (forall i, (dest <= i < dest + n)%nat -> t' !! i = u8 <$> t !! (i + (src - dest))%nat).
Proof.
  intros Hd Hs. unfold _memmove. rewrite (bool_decide_true (dest ≠ src)) by lia.
  destruct (decide (0 < n)%nat).
  - rewrite !bool_decide_true by lia. by apply memcpy_spec.
  - rewrite (bool_decide_false (0 < n)%nat) by lia. exists t. repeat split; try done; intros; lia.
Qed.

Lemma memmove_bytes n t dest src t' :
  (dest < src)%nat -> _memmove t dest src n = Done t' -> Forall is_byte t -> Forall is_byte t'.
Proof.
  intros Hd. unfold _memmove. rewrite (bool_decide_true (dest ≠ src)) by lia.
  destruct (decide (0 < n)%nat).
  - rewrite !bool_decide_true by lia. apply memcpy_bytes.
  - rewrite (bool_decide_false (0 < n)%nat) by lia. by intros [= <-].
Qed.

Lemma hex_total t e p :
  t !! e = Some 0 -> (p + 3 <= e)%nat -> exists h, _hex_str4_to_u32 t p = Done h.
Proof.
  intros He Hp. unfold _hex_str4_to_u32.
  destruct (rd_upto t e He p) as (c0 & -> & _); [lia|].
  destruct (rd_upto t e He (p + 1)) as (c1 & -> & _); [lia|].
  destruct (rd_upto t e He (p + 2)) as (c2 & -> & _); [lia|].
  destruct (rd_upto t e He (p + 3)) as (c3 & -> & _); [lia|].
  cbn [mbind outcome_bind]. destruct (truthy _); by eexists.
Qed.

(** The effect of decoding the string between [p] and its terminator [e]. *)
Definition confined (p e : nat) (t t' : text) : Prop :=
  length t' = length t /\ (forall i, (i < p \/ e < i)%nat -> t' !! i = t !! i) /\
  (Forall is_byte t -> Forall is_byte t').

Lemma confined_refl p e t : confined p e t t.
Proof. done. Qed.

Lemma confined_shift p q e e' t t1 t2 :
  confined p e t t1 -> confined q e' t1 t2 -> (p <= q)%nat -> (e' <= e)%nat -> confined p e t t2.
Proof.
  intros (Hl1 & H1 & B1) (Hl2 & H2 & B2) Hq He. split; [congruence|]. split; [|by auto].
  intros i Hi. rewrite H2 by lia. apply H1. lia.
Qed.

(** Replacing an escape of [k] + 1 characters at [p] by the character [x]: the
    terminator moves down by [k]. *)
Lemma shift_spec t p e k x :
  t !! e = Some 0 -> (0 < k)%nat -> (p + k < e)%nat ->
  exists t1 t2, wr t p x = Done t1 /\
    _memmove t1 (p + 1) (p + 1 + k) (e - (p + k)) = Done t2 /\
    t2 !! (e - k)%nat = Some 0 /\ confined p e t t2.
Proof.
  intros He Hk Hp. assert (e < length t)%nat by (by eapply lookup_lt_Some).
  eexists _. rewrite wr_ok by lia.
  destruct (memmove_spec (<[p := u8 x]> t) (p + 1) (p + 1 + k) (e - (p + k)))
    as (t2 & Hm & Hl & Ho & Hi); [lia|rewrite length_insert; lia|].
  rewrite length_insert in Hl. exists t2. split; [done|]. split; [done|]. split.
  - rewrite Hi by lia. replace (e - k + (p + 1 + k - (p + 1)))%nat with e by lia.
    rewrite list_lookup_insert_ne, He by lia. done.
  - split; [done|]. split; [intros i Hii; by rewrite Ho, list_lookup_insert_ne by lia|].
    intros Ht. eapply memmove_bytes; [|exact Hm|by apply insert_bytes]. lia.
Qed.

Lemma unescape_total fuel t p e :
  t !! e = Some 0 -> (p <= e)%nat -> (e - p < fuel)%nat ->
  exists r t', unescape fuel t p e = Done (r, t') /\ confined p e t t'.
Proof.
  revert t p e. induction fuel as [|fuel IH]; intros t p e He Hp Hf; [lia|]. cbn [unescape].
  destruct (rd_upto t e He p Hp) as (c & -> & Hc). cbn [mbind outcome_bind].
  destruct (c =? 0) eqn:E0; [by eexists _, _|].
  pose proof (before_end t e He p c Hp Hc ltac:(lia)) as Hlt.
  destruct (c =? 92); cbn iota.
  - destruct (rd_upto t e He (S p) ltac:(lia)) as (c1 & -> & Hc1). cbn [mbind outcome_bind].
    destruct (c1 =? 0) eqn:E1; [by eexists _, _|].
    pose proof (before_end t e He (S p) c1 ltac:(lia) Hc1 ltac:(lia)) as Hlt1.
    destruct (escape_value c1) as [x|].
    + destruct (shift_spec t p e 1 x He) as (t1 & t2 & Hw & Hm & He2 & Hc2); [lia..|].
      replace (S p - 1)%nat with p by lia. rewrite Hw. cbn [mbind outcome_bind].
      replace (S p) with (p + 1)%nat by lia.
      replace (e - (p + 1))%nat with (e - (p + 1))%nat by lia. rewrite Hm.
      cbn [mbind outcome_bind].
      destruct (IH t2 (p + 1)%nat (e - 1)%nat He2) as (r & t' & -> & Hc3); [lia..|].
      eexists _, _. split; [done|]. eapply confined_shift; [done..|lia|lia].
    + destruct (c1 =? 117); [|by eexists _, _].
      destruct (Z.ltb_spec (Z.of_nat e - Z.of_nat (S (S p))) 4); [by eexists _, _|].
      destruct (hex_total t e (S (S p)) He) as ([x|] & ->); [lia| |]; cbn [mbind outcome_bind];
        [|by eexists _, _].
      destruct (256 <=? x); [by eexists _, _|].
      destruct (shift_spec t p e 5 x He) as (t1 & t2 & Hw & Hm & He2 & Hc2); [lia..|].
      replace (S (S p) - 2)%nat with p by lia. rewrite Hw. cbn [mbind outcome_bind].
      replace (S (S p) - 1)%nat with (p + 1)%nat by lia.
      replace (S (S p) + 4)%nat with (p + 1 + 5)%nat by lia.
      replace (e - S (S p) - 3)%nat with (e - (p + 5))%nat by lia. rewrite Hm.
      cbn [mbind outcome_bind].
      destruct (IH t2 (p + 1)%nat (e - 5)%nat He2) as (r & t' & -> & Hc3); [lia..|].
      eexists _, _. split; [done|]. eapply confined_shift; [done..|lia|lia].
  - destruct (IH t (S p) e He) as (r & t' & -> & Hc3); [lia..|].
    eexists _, _. split; [done|].
    eapply (confined_shift p (S p) e e t t); [done|done|lia..].
Qed.

(** ** The states of a parse *)

Section Safety.
Context {D : Type}.
Variable callback : json_parser -> text -> json_reason -> json_type -> json_union ->
  json_result * D -> outcome (json_result * (json_result * D)).
Variable ja_malloc : nat -> Z -> bool.
Implicit Types s : pstate D.

(** What the parser promises of the arguments of a callback: the text is
    zero-terminated, the union has the member the type names, and a string
    starts within the text. *)
Definition event_ok (q : json_parser) (t : text) (type : json_type) (un : json_union) : Prop :=
  t !! end_ q = Some 0 /\
  match type, un with
  | JSON_TYPE_NULL, U_none | JSON_TYPE_BOOLEAN, U_boolean _ | JSON_TYPE_INTEGER, U_integer _
  | JSON_TYPE_REAL, U_real _ => True
  | JSON_TYPE_STRING, U_string p => (p <= end_ q)%nat
  | _, _ => False
  end.

(** A callback that returns on every such event. *)
Definition callback_returns : Prop :=
  forall q t reason type un st, event_ok q t type un ->
  exists r st', callback q t reason type un st = Done (r, st').

Hypothesis Hcallback : callback_returns.

(** A well-formed state: the pointer is in the text, the text is terminated, the
    path has its 64 nodes. *)
Definition wf (s : pstate D) : Prop :=
  (ptr (prs s) <= end_ (prs s))%nat /\ txt s !! end_ (prs s) = Some 0 /\
  length (path (prs s)) = JSON_MAX_NESTING.

(** How a part of the parse may change the state: the pointer moves forward,
    only the text in between changes (and nothing at all, when scanning), and
    no block stays allocated. *)
Record after (s s' : pstate D) : Prop := After {
  after_wf : wf s';
  after_end : end_ (prs s') = end_ (prs s);
  after_scan : scan (prs s') = scan (prs s);
  after_allow : allow_whitespace (prs s') = allow_whitespace (prs s);
  after_ptr : (ptr (prs s) <= ptr (prs s'))%nat;
  after_length : length (txt s') = length (txt s);
  after_low : forall i, (i < ptr (prs s))%nat -> txt s' !! i = txt s !! i;
  after_high : forall i, (ptr (prs s') <= i)%nat -> txt s' !! i = txt s !! i;
  after_live : live s' = live s;
  after_pure : scan (prs s) = true -> txt s' = txt s /\ user s' = user s;
  after_bytes : Forall is_byte (txt s) -> Forall is_byte (txt s')
}.

Lemma after_refl s : wf s -> after s s.
Proof. intros. by split. Qed.

Lemma after_trans s1 s2 s3 : after s1 s2 -> after s2 s3 -> after s1 s3.
Proof.
  intros [W1 E1 S1 A1 P1 L1 Lo1 Hi1 V1 U1 B1] [W2 E2 S2 A2 P2 L2 Lo2 Hi2 V2 U2 B2].
  split; try congruence; try lia; auto.
  - intros i Hi. rewrite Lo2 by lia. apply Lo1. lia.
  - intros i Hi. rewrite Hi2 by lia. apply Hi1. lia.
  - intros Hs. destruct (U1 Hs), (U2 ltac:(congruence)). split; congruence.
Qed.

(** Moving the pointer within the text. *)
Lemma after_move s p :
  wf s -> (ptr (prs s) <= p <= end_ (prs s))%nat -> after s (set_prs s (with_ptr (prs s) p)).
Proof. intros (H1 & H2 & H3) Hp. split; simpl; try done; try lia. split; simpl; [lia|done]. Qed.

(** ** Weakest preconditions *)

Definition wp {A} (m : PM D A) (Q : A -> pstate D -> Prop) (E : pstate D -> Prop)
    (s : pstate D) : Prop :=
  match m s with
  | Done (inr a, s') => Q a s'
  | Done (inl _, s') => E s'
  | Failed _ => False
  end.

Lemma wp_bind {A B} (m : PM D A) (k : A -> PM D B) Q E s :
  wp m (fun a s' => wp (k a) Q E s') E s -> wp (m ≫= k) Q E s.
Proof. unfold wp. rewrite bind_eq. by destruct (m s) as [[[r|a] s']|]. Qed.

Lemma wp_mono {A} (m : PM D A) (Q Q' : A -> pstate D -> Prop) (E E' : pstate D -> Prop) s :
  wp m Q E s -> (forall a s', Q a s' -> Q' a s') -> (forall s', E s' -> E' s') -> wp m Q' E' s.
Proof. unfold wp. intros H HQ HE. destruct (m s) as [[[r|a] s']|]; auto. Qed.

Lemma wp_or_raise {A} (m : PM D A) r Q E s : wp m Q E s -> wp (or_raise m r) Q E s.
Proof. unfold wp, or_raise. by destruct (m s) as [[[r'|a] s']|]. Qed.

Lemma wp_lift {A} (o : outcome A) a Q E s : o = Done a -> Q a s -> wp (lift o) Q E s.
Proof. unfold wp, lift. by intros ->. Qed.

Lemma wp_check r (Q : unit -> pstate D -> Prop) (E : pstate D -> Prop) s :
  Q tt s -> E s -> wp (check r) Q E s.
Proof. intros HQ HE. unfold check, wp. by destruct (decide _). Qed.

(** Sequencing parts of a parse: each part starts where the one before ended,
    and an early return anywhere is an early return of the whole. *)
Lemma wp_seq {A B} (m : PM D A) (k : A -> PM D B) Q Q1 s0 s :
  after s0 s -> wp m Q1 (after s) s ->
  (forall a s', Q1 a s' -> wp (k a) Q (after s0) s') ->
  wp (m ≫= k) Q (after s0) s.
Proof.
  intros H0 Hm Hk. apply wp_bind. eapply wp_mono; [exact Hm|exact Hk|].
  intros s' Hs'. by eapply after_trans.
Qed.

(** ** The operations *)

Lemma skip_whitespace_wp s :
  wf s ->
  wp skip_whitespace
     (fun _ s' => exists p, s' = set_prs s (with_ptr (prs s) p) /\
                            (ptr (prs s) <= p <= end_ (prs s))%nat) (after s) s.
Proof.
  intros Hwf. pose proof Hwf as (Hp & He & _). unfold skip_whitespace.
  apply wp_bind. unfold wp at 1. cbn [get].
  destruct (skip_ws_total (txt s) (end_ (prs s)) He (ptr (prs s)) (allow_whitespace (prs s)) Hp)
    as (r & p & Hs & Hr).
  apply wp_bind. eapply wp_lift; [exact Hs|]. apply wp_bind. unfold wp at 1. cbn [put].
  apply wp_check; [by exists p|]. by apply after_move.
Qed.

Lemma next_char_wp s :
  wf s ->
  wp next_char
     (fun c s' => s' = set_prs s (with_ptr (prs s) (S (ptr (prs s)))) /\
                  (ptr (prs s) < end_ (prs s))%nat /\ txt s !! ptr (prs s) = Some c) (after s) s.
Proof.
  intros Hwf. pose proof Hwf as (Hp & He & _). unfold next_char.
  apply wp_bind. unfold wp at 1. cbn [get].
  destruct (decide (ptr (prs s) = end_ (prs s))); [by apply after_refl|].
  destruct (rd_upto _ _ He _ Hp) as (c & Hr & Hc).
  apply wp_bind. eapply wp_lift; [exact Hr|]. unfold wp. rewrite bind_put.
  unfold mret, PM_ret. split; [done|]. split; [lia|done].
Qed.

(** After the white space, a character. *)
Lemma next_token_wp {B} (k : Z -> PM D B) Q s0 s :
  after s0 s ->
  (forall c p, (ptr (prs s) <= p < end_ (prs s))%nat -> txt s !! p = Some c ->
     wp (k c) Q (after s0) (set_prs s (with_ptr (prs s) (S p)))) ->
  wp (skip_whitespace ≫= fun _ => next_char ≫= k) Q (after s0) s.
Proof.
  intros H0 Hk. pose proof (after_wf _ _ H0) as Hwf.
  eapply wp_seq; [exact H0|by apply skip_whitespace_wp|].
  intros _ s' (p & -> & Hp).
  eapply wp_seq; [by eapply after_trans; [|apply after_move]|apply next_char_wp|].
  { by apply (after_wf s), after_move. }
  intros c s' (-> & Hlt & Hc). simpl in *. apply (Hk c p); [lia|done].
Qed.

Lemma invoke_callback_wp reason type un s :
  wf s -> event_ok (prs s) (txt s) type un ->
  wp (_invoke_callback callback reason type un)
     (fun _ s' => after s s' /\ prs s' = prs s /\ txt s' = txt s) (after s) s.
Proof.
  intros Hwf Hev. unfold _invoke_callback. apply wp_bind. unfold wp at 1. cbn [get].
  destruct (scan (prs s)) eqn:Hscan; [by split; [apply after_refl|]|].
  destruct (Hcallback (prs s) (txt s) reason type un (conv_err s, user s) Hev)
    as (r & [e d] & Hc).
  apply wp_bind. eapply wp_lift; [exact Hc|]. apply wp_bind. unfold wp at 1. cbn [put].
  assert (after s (PState (txt s) (prs s) e (mallocs s) (live s) d)) as Ha.
  { split; simpl; try done. congruence. }
  apply wp_check; [|done]. done.
Qed.

Lemma update_node_wp f s :
  wf s -> (1 <= depth (prs s) <= JSON_MAX_NESTING)%nat ->
  wp (update_node f)
     (fun _ s' => exists l, s' = set_prs s (with_path (prs s) l) /\ length l = JSON_MAX_NESTING)
     (after s) s.
Proof.
  intros (Hp & He & Hl) Hd. unfold update_node. apply wp_bind. unfold wp at 1. cbn [get].
  destruct (depth (prs s)) as [|i]; [lia|].
  destruct (lookup_lt_is_Some_2 (path (prs s)) i ltac:(lia)) as [n ->].
  unfold wp. cbn [put]. eexists. split; [done|]. by rewrite length_insert.
Qed.

Lemma after_path s l :
  wf s -> length l = JSON_MAX_NESTING -> after s (set_prs s (with_path (prs s) l)).
Proof. intros (Hp & He & Hl) Hn. by split. Qed.

(** The state after the closing quote at [p], with the text [t]. *)
Lemma after_string s p t :
  wf s -> (ptr (prs s) <= p < end_ (prs s))%nat -> confined (ptr (prs s)) p (txt s) t ->
  scan (prs s) = false ->
  after s (set_txt (set_prs s (with_ptr (prs s) (ptr (prs s) + (p - ptr (prs s)) + 1))) t).
Proof.
  intros (H1 & H2 & H3) Hp (Hl & Hc & Hb) Hscan. split; simpl; try done; try lia.
  - split; simpl; [lia|]. split; [|done]. rewrite Hc by lia. done.
  - intros i Hi. apply Hc. lia.
  - intros i Hi. apply Hc. lia.
  - congruence.
Qed.

Lemma get_string_wp s :
  wf s ->
  wp _get_string
     (fun p s' => p = ptr (prs s) /\ after s s' /\ depth (prs s') = depth (prs s)) (after s) s.
Proof.
  intros Hwf. pose proof Hwf as (Hp & He & Hl). unfold _get_string.
  apply wp_bind. unfold wp at 1. cbn [get].
  assert (end_ (prs s) < length (txt s))%nat by (by eapply lookup_lt_Some).
  destruct (find_quote_total (txt s) (end_ (prs s)) He (S (length (txt s))) (ptr (prs s)) false Hp)
    as (r & Hr & Hq); [lia|].
  apply wp_bind. eapply wp_lift; [exact Hr|]. destruct r as [r|[p escaped]];
    [by apply after_refl|].
  apply wp_bind. unfold wp at 1. cbn [put]. destruct (scan (prs s)) eqn:Hscan.
  { split; [done|]. split; [apply after_move; [done|lia]|done]. }
  apply wp_bind. eapply wp_lift; [apply wr_ok; lia|]. apply wp_bind. unfold wp at 1. cbn [put].
  set (t0 := <[p := u8 0]> (txt s)).
  assert (confined (ptr (prs s)) p (txt s) t0) as Hc0.
  { split; [apply length_insert|]. split; [intros i Hi; apply list_lookup_insert_ne; lia|].
    apply insert_bytes. }
  assert (t0 !! p = Some 0) as Hz by (apply list_lookup_insert_eq; lia).
  destruct escaped; [|split; [done|]; split; [by apply after_string|done]].
  destruct (unescape_total (S (length t0)) t0 (ptr (prs s)) p Hz) as (r & t1 & Hu & Hc1);
    [lia|unfold t0; rewrite length_insert; lia|].
  assert (confined (ptr (prs s)) p (txt s) t1) as Hc
    by (eapply confined_shift; [exact Hc0|exact Hc1|lia..]).
  apply wp_bind. eapply wp_lift; [exact Hu|]. apply wp_bind. unfold wp at 1. cbn [put].
  apply wp_bind. apply wp_check; [|by apply after_string].
  split; [done|]. split; [by apply after_string|done].
Qed.

Lemma memcmp_total t p l n k :
  (p + n <= length t)%nat -> (k + n <= length l)%nat -> exists r, _memcmp t p l k n = Done r.
Proof.
  revert p k. induction n as [|n IH]; intros p k Hp Hk; [by eexists|]. cbn [_memcmp].
  destruct (lookup_lt_is_Some_2 t p ltac:(lia)) as [a Ha].
  destruct (lookup_lt_is_Some_2 l k ltac:(lia)) as [b Hb].
  unfold rd. rewrite Ha, Hb. cbn [mbind outcome_bind].
  destruct (a <? b); [by eexists|]. destruct (a >? b); [by eexists|]. apply IH; lia.
Qed.

Lemma literal_wp str type un s :
  wf s -> match type, un with
          | JSON_TYPE_NULL, U_none | JSON_TYPE_BOOLEAN, U_boolean _ => True
          | _, _ => False
          end ->
  wp (literal callback str type un)
     (fun _ s' => after s s' /\ depth (prs s') = depth (prs s)) (after s) s.
Proof.
  intros Hwf Hty. pose proof Hwf as (Hp & He & Hl).
  assert (end_ (prs s) < length (txt s))%nat by (by eapply lookup_lt_Some).
  unfold literal, _expect. apply wp_bind, wp_bind. unfold wp at 1. cbn [get].
  destruct (Z.leb_spec (Z.of_nat (length str)) (Z.of_nat (end_ (prs s)) - Z.of_nat (ptr (prs s))))
    as [Hle|]; [|by apply after_refl].
  destruct (memcmp_total (txt s) (ptr (prs s)) str (length str) 0) as [r Hr]; [lia..|].
  apply wp_bind. eapply wp_lift; [exact Hr|]. destruct (r =? 0); [|by apply after_refl].
  apply wp_bind. unfold wp at 1. cbn [put]. unfold wp at 1, mret, PM_ret. cbn iota.
  assert (after s (set_prs s (with_ptr (prs s) (ptr (prs s) + length str)))) as Ha
    by (apply after_move; [done|lia]).
  eapply wp_mono; [apply invoke_callback_wp; [by apply (after_wf _ _ Ha)|]|..].
  - split; [done|]. by destruct type, un.
  - intros _ s' (Ha' & Hq & _). split; [by eapply after_trans|by rewrite Hq].
  - intros s' Ha'. by eapply after_trans.
Qed.

Lemma after_conv s err : wf s -> after s (set_conv s err).
Proof. intros. by split. Qed.

Lemma get_number_wp s :
  wf s ->
  wp _get_number
     (fun '(type, un) s' => after s s' /\ depth (prs s') = depth (prs s) /\
        (ptr (prs s) < ptr (prs s'))%nat /\ event_ok (prs s') (txt s') type un) (after s) s.
Proof.
  intros Hwf. pose proof Hwf as (Hp & He & Hl). unfold _get_number.
  apply wp_bind. unfold wp at 1. cbn [get].
  destruct (number_span_total (txt s) (end_ (prs s)) He (ptr (prs s)) true Hp)
    as (p & b & Hs & Hpe).
  apply wp_bind. eapply wp_lift; [exact Hs|]. apply wp_bind. unfold wp at 1. cbn [put].
  set (s1 := set_prs s (with_ptr (prs s) p)).
  assert (after s s1) as Ha by (apply after_move; [done|lia]).
  assert (forall err, after s (set_conv s1 err)) as Hconv
    by (intros err; eapply after_trans; [exact Ha|by apply after_conv, (after_wf _ _ Ha)]).
  assert (exists type un e err,
    (if b then r ← _strtol (txt s) (Some (ptr (prs s))) 10 (allow_whitespace (prs s));
               Done (JSON_TYPE_INTEGER, U_integer (conv_value r), conv_end r, conv_error r)
     else '(d, e, err) ← _strtod (txt s) (Some (ptr (prs s))) (allow_whitespace (prs s));
          Done (JSON_TYPE_REAL, U_real d, e, err)) = Done (type, un, e, err) /\
    forall q t, t !! end_ q = Some 0 -> event_ok q t type un) as (type & un & e & err & Hn & Hev).
  { destruct b.
    - destruct (strtol_total (txt s) (end_ (prs s)) He (ptr (prs s)) (allow_whitespace (prs s)) Hp)
        as (v & e' & err & -> & _). by eexists _, _, _, _.
    - destruct (strtod_total (txt s) (end_ (prs s)) He (ptr (prs s)) (allow_whitespace (prs s)) Hp)
        as (d & e' & err & ->). by eexists _, _, _, _. }
  apply wp_bind. eapply wp_lift; [exact Hn|]. apply wp_bind. unfold wp at 1. cbn [put].
  destruct e as [e|]; [|apply Hconv].
  destruct (bool_decide (e ≠ p)) eqn:E1; [apply Hconv|].
  destruct (bool_decide (ptr (prs s) = e)) eqn:E2; [apply Hconv|].
  apply bool_decide_eq_false in E1, E2. split; [apply Hconv|]. split; [done|].
  split; [simpl; lia|]. by apply Hev.
Qed.

Lemma insert_node_wp name s :
  wf s -> (name <= end_ (prs s))%nat -> (1 <= depth (prs s) <= JSON_MAX_NESTING)%nat ->
  wp (insert_node name)
     (fun _ s' => after s s' /\ depth (prs s') = depth (prs s) /\ ptr (prs s') = ptr (prs s))
     (after s) s.
Proof.
  intros Hwf Hn Hd. pose proof Hwf as (Hp & He & Hl). unfold insert_node.
  apply wp_bind. unfold wp at 1. cbn [get].
  destruct (strtou64_total (txt s) (end_ (prs s)) He name (allow_whitespace (prs s)) Hn)
    as (v & ok & err & Hs).
  apply wp_bind. eapply wp_lift; [exact Hs|]. apply wp_bind. unfold wp at 1. cbn [put].
  pose proof (after_conv s err Hwf) as Ha.
  eapply wp_mono; [apply update_node_wp; [by apply (after_wf _ _ Ha)|done]|..].
  - intros _ s' (l & -> & Hll). split; [|done]. eapply after_trans; [exact Ha|].
    apply after_path; [by apply (after_wf _ _ Ha)|done].
  - intros s' Ha'. by eapply after_trans.
Qed.

(** A scan ahead leaves the parser and the text as they were and frees its
    scanner. *)
Lemma scan_ahead_wp array s :
  wf s ->
  (forall s1, wf s1 -> scan (prs s1) = true -> ptr (prs s1) = ptr (prs s) ->
     end_ (prs s1) = end_ (prs s) -> depth (prs s1) = depth (prs s) ->
     wp array (fun _ => after s1) (after s1) s1) ->
  wp (scan_ahead ja_malloc array) (fun _ s' => after s s' /\ prs s' = prs s) (after s) s.
Proof.
  intros Hwf Harr. pose proof Hwf as (Hp & He & Hl). unfold scan_ahead.
  apply wp_bind. unfold _malloc. apply wp_bind. unfold wp at 1. cbn [get].
  apply wp_bind. unfold wp at 1. cbn [put]. unfold wp at 1, mret, PM_ret. cbn iota.
  destruct (ja_malloc (mallocs s) sizeof_json_parser); [|by split].
  set (s1 := PState (txt s) (prs s) (conv_err s) (S (mallocs s)) (live s + 1) (user s)).
  specialize (Harr (set_prs s1 (with_scan (prs s1) true)) ltac:(done) eq_refl eq_refl eq_refl eq_refl).
  unfold wp in Harr. unfold wp. rewrite bind_eq. unfold run_scanner.
  assert (forall s', after (set_prs s1 (with_scan (prs s1) true)) s' ->
            after s (PState (txt s') (prs s) (conv_err s') (mallocs s') (live s' - 1) (user s')))
    as Hback.
  { intros s' [W E S A P L Lo Hi V U B]. destruct (U eq_refl) as [Ht Hu]. simpl in *.
    split; simpl; try done; try congruence; try lia.
    split; simpl; [done|]. split; [congruence|done]. }
  destruct (array _) as [[[r|n] s']|]; [| |done].
  - exact (Hback s' Harr).
  - split; [exact (Hback s' Harr)|done].
Qed.

(** ** Values, arrays and objects *)

(** The postconditions of the three functions, with fuel for the rest of the
    text. *)
Definition value_ok (f : nat) : Prop := forall s,
  wf s -> (1 <= depth (prs s) <= JSON_MAX_NESTING)%nat ->
  (2 * (end_ (prs s) - ptr (prs s)) + 1 <= f)%nat ->
  wp (_get_value callback ja_malloc f)
     (fun _ s' => after s s' /\ depth (prs s') = depth (prs s) /\ (ptr (prs s) < ptr (prs s'))%nat)
     (after s) s.

Definition array_ok (f : nat) : Prop := forall s i n,
  wf s -> (1 <= depth (prs s) <= JSON_MAX_NESTING)%nat ->
  (2 * (end_ (prs s) - ptr (prs s)) + 2 <= f)%nat ->
  wp (get_array_loop callback ja_malloc f i n)
     (fun _ s' => after s s' /\ depth (prs s') = depth (prs s)) (after s) s.

Definition object_ok (f : nat) : Prop := forall s,
  wf s -> (1 <= depth (prs s) <= JSON_MAX_NESTING)%nat ->
  (2 * (end_ (prs s) - ptr (prs s)) + 2 <= f)%nat ->
  wp (get_object_loop callback ja_malloc f)
     (fun _ s' => after s s' /\ S (depth (prs s')) = depth (prs s)) (after s) s.

Lemma begin_object_wp (loop : PM D unit) s :
  wf s -> (depth (prs s) <= JSON_MAX_NESTING)%nat ->
  (forall s1, wf s1 -> (1 <= depth (prs s1) <= JSON_MAX_NESTING)%nat ->
     ptr (prs s1) = ptr (prs s) -> end_ (prs s1) = end_ (prs s) ->
     wp loop (fun _ s' => after s1 s' /\ S (depth (prs s')) = depth (prs s1)) (after s1) s1) ->
  wp (begin_object callback loop)
     (fun _ s' => after s s' /\ depth (prs s') = depth (prs s)) (after s) s.
Proof.
  intros Hwf Hd Hloop. unfold begin_object.
  eapply wp_seq; [by apply after_refl|apply invoke_callback_wp; [done|by destruct Hwf as (_&?&_)]|].
  intros _ s1 (Ha & Hq & Ht). apply wp_bind. unfold wp at 1. cbn [get].
  apply wp_bind. unfold wp at 1. cbn [put].
  set (s2 := set_prs s1 (with_depth (prs s1) (S (depth (prs s1))))).
  assert (after s1 s2) as Ha2 by (pose proof (after_wf _ _ Ha); by split).
  destruct (decide (depth (prs s1) = JSON_MAX_NESTING)) as [|Hne];
    [by eapply after_trans|].
  eapply wp_mono; [apply (Hloop s2)|..].
  - apply (after_wf _ _ Ha2).
  - simpl. rewrite Hq in *. lia.
  - simpl. by rewrite Hq.
  - simpl. by rewrite Hq.
  - intros _ s' (Ha' & Hd'). simpl in Hd'. rewrite Hq in Hd'. split; [|lia].
    eapply after_trans; [exact Ha|]. by eapply after_trans.
  - intros s' Ha'. eapply after_trans; [exact Ha|]. by eapply after_trans.
Qed.

(** The end of a value: the last callback. *)
Lemma finish_value reason type un s0 s :
  after s0 s -> event_ok (prs s) (txt s) type un ->
  wp (_invoke_callback callback reason type un)
     (fun _ s' => after s0 s' /\ prs s' = prs s) (after s0) s.
Proof.
  intros Ha Hev. eapply wp_mono; [apply invoke_callback_wp; [by apply (after_wf _ _ Ha)|done]|..].
  - intros _ s' (Ha' & Hq & _). split; [by eapply after_trans|done].
  - intros s' Ha'. by eapply after_trans.
Qed.

Lemma terminated s0 s : after s0 s -> txt s !! end_ (prs s) = Some 0.
Proof. intros Ha. by destruct (after_wf _ _ Ha) as (_ & ? & _). Qed.

(** The array branch of [_get_value], after the bracket. *)
Definition array_value (f : nat) : PM D unit :=
  size ← scan_ahead ja_malloc (get_array_loop callback ja_malloc f 0 0);
  _ ← update_node (set_size size);
  _ ← _invoke_callback callback JSON_REASON_BEGIN_ARRAY JSON_TYPE_INTEGER (U_integer (s64 size));
  _ ← or_raise (get_array_loop callback ja_malloc f 0 0) JSON_BAD_SYNTAX;
  _invoke_callback callback JSON_REASON_END_ARRAY JSON_TYPE_INTEGER (U_integer (s64 size)).

Lemma array_value_wp f s :
  array_ok f -> wf s -> (1 <= depth (prs s) <= JSON_MAX_NESTING)%nat ->
  (2 * (end_ (prs s) - ptr (prs s)) + 2 <= f)%nat ->
  wp (array_value f) (fun _ s' => after s s' /\ depth (prs s') = depth (prs s)) (after s) s.
Proof.
  intros HA Hwf Hd Hf. unfold array_value.
  eapply wp_seq; [by apply after_refl|apply scan_ahead_wp; [done|]|].
  { intros s2 Hwf2 _ Hp2 He2 Hd2. eapply wp_mono; [apply HA|..]; try done.
    - by rewrite Hd2.
    - by rewrite Hp2, He2.
    - by intros ? ? []. }
  intros n s2 (Ha2 & Hq2). pose proof (after_wf _ _ Ha2) as Hwf2.
  eapply wp_seq; [exact Ha2|apply update_node_wp; [done|by rewrite Hq2]|].
  intros _ s3 (l & -> & Hl). set (s3 := set_prs s2 (with_path (prs s2) l)).
  assert (after s s3) as Ha3 by (eapply after_trans; [exact Ha2|by apply after_path]).
  apply wp_bind. eapply wp_mono; [apply (finish_value _ _ _ _ _ Ha3)|intros _ s4 [Ha4 Hq4]|done].
  { split; [by apply (terminated _ _ Ha3)|done]. }
  assert (ptr (prs s4) = ptr (prs s) /\ end_ (prs s4) = end_ (prs s) /\
          depth (prs s4) = depth (prs s)) as (Hp4 & He4 & Hd4)
    by (rewrite Hq4; simpl; by rewrite Hq2).
  eapply wp_seq; [exact Ha4|apply wp_or_raise, HA|].
  - apply (after_wf _ _ Ha4).
  - by rewrite Hd4.
  - by rewrite Hp4, He4.
  - intros _ s5 (Ha5 & Hd5). assert (after s s5) as Ha05 by (by eapply after_trans).
    eapply wp_mono; [apply (finish_value _ _ _ _ _ Ha05)|intros _ s6 [Ha6 Hq6]|done].
    + split; [by apply (terminated _ _ Ha05)|done].
    + split; [done|]. rewrite Hq6. congruence.
Qed.

(** The string branch of [_get_value], after the quote. *)
Lemma string_value_wp s :
  wf s ->
  wp (str ← or_raise _get_string JSON_BAD_SYNTAX;
      _invoke_callback callback JSON_REASON_VALUE JSON_TYPE_STRING (U_string str))
     (fun _ s' => after s s' /\ depth (prs s') = depth (prs s)) (after s) s.
Proof.
  intros Hwf. eapply wp_seq; [by apply after_refl|by apply wp_or_raise, get_string_wp|].
  intros str s2 (-> & Ha2 & Hd2).
  eapply wp_mono; [apply (finish_value _ _ _ _ _ Ha2)|intros _ s3 [Ha3 Hq3]|done].
  - split; [by apply (terminated _ _ Ha2)|]. rewrite (after_end _ _ Ha2).
    by destruct Hwf.
  - split; [done|by rewrite Hq3].
Qed.

(** The number branch of [_get_value]. *)
Lemma number_value_wp s :
  wf s ->
  wp ('(type, un) ← or_raise _get_number JSON_BAD_SYNTAX;
      _invoke_callback callback JSON_REASON_VALUE type un)
     (fun _ s' => after s s' /\ depth (prs s') = depth (prs s) /\ (ptr (prs s) < ptr (prs s'))%nat)
     (after s) s.
Proof.
  intros Hwf. eapply wp_seq; [by apply after_refl|by apply wp_or_raise, get_number_wp|].
  intros [type un] s3 (Ha3 & Hd3 & Hlt & Hev).
  eapply wp_mono; [by apply (finish_value _ _ _ _ _ Ha3)|intros _ s4 [Ha4 Hq4]|done].
  by rewrite Hq4.
Qed.

(** A value that starts after the white space at [p] and whose first character
    is consumed. *)
Lemma after_first s p (m : PM D unit) :
  wf s -> (ptr (prs s) <= p < end_ (prs s))%nat ->
  let s1 := set_prs s (with_ptr (prs s) (S p)) in
  (wf s1 -> wp m (fun _ s' => after s1 s' /\ depth (prs s') = depth (prs s1)) (after s1) s1) ->
  wp m (fun _ s' => after s s' /\ depth (prs s') = depth (prs s) /\
                    (ptr (prs s) < ptr (prs s'))%nat) (after s) s1.
Proof.
  intros Hwf Hp s1 Hm. assert (after s s1) as Ha by (apply after_move; [done|lia]).
  eapply wp_mono; [apply Hm, (after_wf _ _ Ha)|..].
  - intros _ s' (Ha' & Hd'). pose proof (after_ptr _ _ Ha') as Hpp. simpl in Hpp.
    split; [by eapply after_trans|]. split; [done|lia].
  - intros s' Ha'. by eapply after_trans.
Qed.

(** [unget] after the character at [p]. *)
Lemma unget_wp {A} (k : unit -> PM D A) Q E s p :
  wp (k tt) Q E (set_prs s (with_ptr (prs s) p)) ->
  wp (unget ≫= k) Q E (set_prs s (with_ptr (prs s) (S p))).
Proof. done. Qed.

Lemma value_step f : array_ok f -> object_ok f -> value_ok (S f).
Proof.
  intros HA HO s Hwf Hd Hf. cbn [_get_value].
  apply (next_token_wp _ _ s s); [by apply after_refl|]. intros c p Hp Hc. cbv zeta.
  destruct (_tolower c =? 102); [by apply after_first; [..|intros; apply literal_wp]|].
  destruct (_tolower c =? 110); [by apply after_first; [..|intros; apply literal_wp]|].
  destruct (_tolower c =? 116); [by apply after_first; [..|intros; apply literal_wp]|].
  destruct (_tolower c =? 123).
  { apply after_first; [done..|intros Hwf1]. apply begin_object_wp; [done|simpl; lia|].
    intros s2 Hwf2 Hd2 Hp2 He2. apply HO; [done..|]. rewrite Hp2, He2. simpl. lia. }
  destruct (_tolower c =? 91).
  { apply after_first; [done..|intros Hwf1].
    apply (array_value_wp f); [done|done|simpl; lia|simpl; lia]. }
  destruct (_tolower c =? 34).
  { apply after_first; [done..|intros Hwf1]. by apply string_value_wp. }
  apply unget_wp. assert (after s (set_prs s (with_ptr (prs s) p))) as Ha
    by (apply after_move; [done|lia]).
  eapply wp_mono; [apply number_value_wp, (after_wf _ _ Ha)|..].
  - intros _ s' (Ha' & Hd' & Hlt). simpl in Hd', Hlt.
    split; [by eapply after_trans|]. split; [done|lia].
  - intros s' Ha'. by eapply after_trans.
Qed.

(** Continuing a loop later in the text. *)
Lemma loop_again {A} (m : PM D A) (Q : pstate D -> Prop) s0 s :
  after s0 s -> wp m (fun _ s' => after s s' /\ Q s') (after s) s ->
  wp m (fun _ s' => after s0 s' /\ Q s') (after s0) s.
Proof.
  intros Ha Hm. eapply wp_mono; [exact Hm|..].
  - intros _ s' [Ha' HQ]. split; [by eapply after_trans|done].
  - intros s' Ha'. by eapply after_trans.
Qed.

Lemma array_step f : value_ok f -> array_ok f -> array_ok (S f).
Proof.
  intros HV HA s i n Hwf Hd Hf. cbn [get_array_loop].
  apply (next_token_wp _ _ s s); [by apply after_refl|]. intros c p Hp Hc.
  set (s1 := set_prs s (with_ptr (prs s) (S p))).
  assert (after s s1) as Ha by (apply after_move; [done|lia]).
  destruct (c =? 44).
  { apply (loop_again _ (fun s' => depth (prs s') = depth (prs s))); [done|].
    apply (HA s1); [by apply (after_wf _ _ Ha)|done|simpl; lia]. }
  destruct (c =? 93); [by split|].
  eapply wp_seq; [exact Ha|apply update_node_wp; [by apply (after_wf _ _ Ha)|done]|].
  intros _ s2 (l & -> & Hl). apply wp_bind. unfold unget. apply wp_bind.
  unfold wp at 1. cbn [get]. unfold wp at 1. cbn [put].
  set (s3 := set_prs (set_prs s1 (with_path (prs s1) l)) _).
  assert (after s s3) as Ha3.
  { eapply after_trans; [apply (after_path s l Hwf Hl)|].
    apply (after_move (set_prs s (with_path (prs s) l)) p); [by destruct Hwf as (?&?&?)|simpl; lia]. }
  eapply wp_seq; [exact Ha3|apply HV; [by apply (after_wf _ _ Ha3)|done|simpl; lia]|].
  intros _ s4 (Ha4 & Hd4 & Hlt). simpl in Hd4, Hlt.
  assert (after s s4) as Ha04 by (by eapply after_trans).
  rewrite <- Hd4.
  apply (loop_again _ (fun s' => depth (prs s') = depth (prs s4))); [done|].
  apply HA; [by apply (after_wf _ _ Ha4)|by rewrite Hd4|]. rewrite (after_end _ _ Ha04).
  destruct (after_wf _ _ Ha04) as (Hle & _). rewrite (after_end _ _ Ha04) in Hle. lia.
Qed.

(** The end of an object: the callback, then [depth--]. *)
Lemma end_object_wp s :
  wf s -> (1 <= depth (prs s))%nat ->
  wp (s0 ← get;
      if decide (depth (prs s0) = 0%nat) then raise JSON_NESTING_UNDERFLOW
      else _ ← _invoke_callback callback JSON_REASON_END_OBJECT JSON_TYPE_NULL U_none;
           s1 ← get;
           put (set_prs s1 (with_depth (prs s1) (Nat.pred (depth (prs s1))))))
     (fun _ s' => after s s' /\ S (depth (prs s')) = depth (prs s)) (after s) s.
Proof.
  intros Hwf Hd. apply wp_bind. unfold wp at 1. cbn [get]. rewrite decide_False by lia.
  eapply wp_seq; [by apply after_refl|apply invoke_callback_wp; [done|by destruct Hwf as (_&?&_)]|].
  intros _ s1 (Ha & Hq & Ht). unfold wp. rewrite bind_get. cbn [put]. simpl. rewrite Hq.
  split; [|lia]. eapply after_trans; [exact Ha|]. pose proof (after_wf _ _ Ha).
  rewrite <- Hq. by split.
Qed.

Lemma object_step f : value_ok f -> object_ok f -> object_ok (S f).
Proof.
  intros HV HO s Hwf Hd Hf. cbn [get_object_loop].
  apply (next_token_wp _ _ s s); [by apply after_refl|]. intros c p Hp Hc.
  set (s1 := set_prs s (with_ptr (prs s) (S p))).
  assert (after s s1) as Ha by (apply after_move; [done|lia]).
  pose proof (after_wf _ _ Ha) as Hwf1.
  destruct (c =? 34).
  - eapply wp_seq; [exact Ha|by apply get_string_wp|].
    intros name s2 (-> & Ha2 & Hd2). simpl in Hd2.
    assert (after s s2) as Ha02 by (by eapply after_trans).
    assert (S p <= end_ (prs s2))%nat by (rewrite (after_end _ _ Ha02); lia).
    eapply wp_seq; [exact Ha02|apply insert_node_wp; [by apply (after_wf _ _ Ha2)|done|]|].
    { by rewrite Hd2. }
    intros _ s3 (Ha3 & Hd3 & Hp3). assert (after s s3) as Ha03 by (by eapply after_trans).
    apply wp_bind. eapply wp_mono; [apply (finish_value _ _ _ _ _ Ha03)|intros _ s4 [Ha4 Hq4]|done].
    { split; [by apply (terminated _ _ Ha03)|]. by rewrite (after_end _ _ Ha3). }
    apply next_token_wp; [done|]. intros c' p' Hp' Hc'.
    destruct (c' =? 58); [|by eapply after_trans; [|apply after_move; [apply (after_wf _ _ Ha4)|lia]]].
    set (s5 := set_prs s4 (with_ptr (prs s4) (S p'))).
    assert (after s4 s5) as Ha45 by (apply after_move; [apply (after_wf _ _ Ha4)|lia]).
    assert (after s s5) as Ha05 by (by eapply after_trans).
    assert (depth (prs s5) = depth (prs s)) as Hd5 by (simpl; rewrite Hq4; congruence).
    pose proof (after_ptr _ _ Ha2) as Hp2. simpl in Hp2.
    assert (S p <= p')%nat by (rewrite Hq4, Hp3 in Hp'; lia).
    assert (S p' <= end_ (prs s))%nat by (rewrite <- (after_end _ _ Ha4); lia).
    eapply wp_seq; [exact Ha05|apply HV; [by apply (after_wf _ _ Ha05)|by rewrite Hd5|]|].
    { rewrite (after_end _ _ Ha05). simpl. lia. }
    intros _ s6 (Ha6 & Hd6 & Hlt). simpl in Hlt.
    assert (after s s6) as Ha06 by (by eapply after_trans).
    rewrite <- Hd5, <- Hd6.
    apply (loop_again _ (fun s' => S (depth (prs s')) = depth (prs s6))); [done|].
    apply HO; [by apply (after_wf _ _ Ha6)|by rewrite Hd6, Hd5|]. rewrite (after_end _ _ Ha06). lia.
  - destruct (c =? 125).
    + apply (loop_again _ (fun s' => S (depth (prs s')) = depth (prs s)) s s1); [done|].
      apply (end_object_wp s1); [done|simpl; lia].
    + apply (loop_again _ (fun s' => S (depth (prs s')) = depth (prs s)) s s1); [done|].
      apply (HO s1); [done|done|simpl; lia].
Qed.

Lemma all_ok f : value_ok f /\ array_ok f /\ object_ok f.
Proof.
  induction f as [|f (HV & HA & HO)].
  - repeat split; intros ?; intros; lia.
  - split; [by apply value_step|]. split; [by apply array_step|by apply object_step].
Qed.

(** ** The entry point *)

Lemma parse_wp n s :
  wf s -> depth (prs s) = 0%nat -> ptr (prs s) = 0%nat -> (2 * end_ (prs s) + 3 <= n)%nat ->
  wp (json_parser_parse callback ja_malloc n)
     (fun _ s' => after s s' /\ depth (prs s') = 0%nat) (after s) s.
Proof.
  intros Hwf Hd Hp Hn. unfold json_parser_parse.
  apply (next_token_wp _ _ s s); [by apply after_refl|]. intros c p Hpe Hc.
  set (s1 := set_prs s (with_ptr (prs s) (S p))).
  assert (after s s1) as Ha by (apply after_move; [done|lia]).
  destruct (c =? 123); [|done].
  apply (loop_again _ (fun s' => depth (prs s') = 0%nat)); [done|]. rewrite <- Hd.
  apply (begin_object_wp _ s1); [by apply (after_wf _ _ Ha)|simpl; lia|].
  intros s2 Hwf2 Hd2 Hp2 He2. apply (proj2 (proj2 (all_ok n))); [done..|].
  rewrite Hp2, He2. simpl. lia.
Qed.
End Safety.

(** A parse that starts with the parser of [json_parser_init]. *)
Definition start_parse {D} (t : text) (n : nat) (allow : bool) (d : D) : pstate D :=
  PState t (Parser 0 n false (replicate JSON_MAX_NESTING (Node None 0 0 0)) 0 allow) JSON_OK 0 0 d.

(** C13. Parsing is safe and terminates: for every text that is zero-terminated
    after its [n] bytes, every callback that returns on the events it is given,
    every allocator and either white-space option, [json_parser_init] followed
    by [json_parser_parse] returns a result. No byte outside the buffer is
    read or written, no node outside the path, and [2 * n + 3] is enough fuel
    whatever the nesting. At the end every scanner has been freed, the text
    has its length, its terminator and what follows it are untouched, and after
    a successful parse the depth is back to 0. *)
Theorem json_parser_parse_safe {D} callback ja_malloc (t : text) n allow (d : D) fuel :
  callback_returns callback -> t !! n = Some 0 -> n ≠ 0%nat -> (2 * n + 3 <= fuel)%nat ->
  exists q, json_parser_init true true n true true true true (Some allow) = (JSON_OK, Some q) /\
  start_parse t n allow d = PState t q JSON_OK 0 0 d /\
  exists r s', json_parser_parse callback ja_malloc fuel (start_parse t n allow d) = Done (r, s') /\
    live s' = 0 /\ length (txt s') = length t /\
    (forall i, (n <= i)%nat -> txt s' !! i = t !! i) /\
    (forall u, r = inr u -> depth (prs s') = 0%nat).
Proof.
  intros Hcb Ht Hn Hf. eexists. split; [unfold json_parser_init; by rewrite bool_decide_false|].
  split; [done|].
  pose proof (parse_wp callback ja_malloc Hcb fuel (start_parse t n allow d)) as H.
  specialize (H ltac:(split; simpl; [lia|done]) eq_refl eq_refl Hf). unfold wp in H.
  destruct (json_parser_parse _ _ _ _) as [[[r|u] s']|]; [| |done].
  - eexists _, _. split; [done|]. destruct H as [W E _ _ _ L _ Hi V _]. simpl in *.
    split_and!; try done. intros i Hin. apply Hi. destruct W as [? _]. lia.
  - destruct H as [[W E _ _ _ L _ Hi V _] Hd]. eexists _, _. split; [done|]. simpl in *.
    split_and!; try done. intros i Hin. apply Hi. destruct W as [? _]. lia.
Qed.

(** A callback that records the reasons it is called with. *)
Definition record_reasons (q : json_parser) (t : text) (reason : json_reason) (type : json_type)
    (un : json_union) (st : json_result * list json_reason) :
    outcome (json_result * (json_result * list json_reason)) :=
  Done (JSON_OK, (st.1, st.2 ++ [reason])).

Lemma record_reasons_returns : callback_returns record_reasons.
Proof. intros q t reason type un st _. by eexists _, _. Qed.

Lemma json_parser_parse_safe_witness :
  let t := [123; 34; 97; 34; 58; 91; 49; 44; 91; 93; 93; 125; 0] in
  exists q, json_parser_init true true 12 true true true true (Some true) = (JSON_OK, Some q) /\
  start_parse t 12 true (@nil json_reason) = PState t q JSON_OK 0 0 [] /\
  exists r s', json_parser_parse record_reasons (fun _ _ => true) 27 (start_parse t 12 true [])
               = Done (r, s') /\
    live s' = 0 /\ length (txt s') = length t /\
    (forall i, (12 <= i)%nat -> txt s' !! i = t !! i) /\
    (forall u, r = inr u -> depth (prs s') = 0%nat).
Proof.
  apply (json_parser_parse_safe record_reasons (fun _ _ => true) _ 12 true [] 27);
    [apply record_reasons_returns|reflexivity|lia|lia].
Defined.
