(* ===== verification/JsonScan.v ===== *)
(** * JsonScan: the array size announced by libjson/json.c is the array's size

    [_get_value] runs a scanner over an array, announces the number of elements
    with JSON_REASON_BEGIN_ARRAY and then parses the array for real.  The two
    passes differ: the real one rewrites the strings in place and calls the
    callback.  A simulation shows that they nevertheless take the same way
    through the text. *)

From Stdlib Require Import SpecFloat String.
From S2P Require Import Prelude JsonText JsonParser JsonSafety.

(** ** Operations that only read from their argument on

    Two texts that agree from [lo] on, the second terminated at [e]. *)

Section Agree.
Variables (t t' : text) (lo e : nat).
Hypothesis Hagree : drop lo t = drop lo t'.
Hypothesis Hend : t !! e = Some 0.

Lemma agree_drop p : (lo <= p)%nat -> drop p t = drop p t'.
Proof.
  intros Hp. replace p with (lo + (p - lo))%nat by lia. by rewrite <- !drop_drop, Hagree.
Qed.

Lemma agree_lookup p : (lo <= p)%nat -> t !! p = t' !! p.
Proof.
  intros Hp. replace p with (lo + (p - lo))%nat by lia. by rewrite <- !lookup_drop, Hagree.
Qed.

Lemma agree_rd p : (lo <= p)%nat -> rd t p = rd t' p.
Proof. intros Hp. unfold rd. by rewrite agree_lookup. Qed.

Lemma agree_sign p : (lo <= p)%nat -> skip_sign t p = skip_sign t' p.
Proof. intros Hp. unfold skip_sign. by rewrite agree_rd. Qed.

Lemma agree_strtol p allow :
  (lo <= p <= e)%nat -> _strtol t (Some p) 10 allow = _strtol t' (Some p) 10 allow.
Proof.
  intros Hp. unfold _strtol. change (10 <? 0) with false. cbn iota.
  rewrite (agree_rd p), (agree_drop p) by lia. rewrite <- (agree_rd p) by lia.
  destruct (rd_upto t e Hend p ltac:(lia)) as (c & -> & _). cbn [mbind outcome_bind].
  destruct (negb allow && _isspace c); [done|].
  destruct (skip_leading_total t e Hend p allow ltac:(lia)) as (p0 & H0 & Hp0).
  rewrite <- (agree_drop p), H0 by lia. cbn [mbind outcome_bind].
  rewrite <- (agree_sign p0) by lia.
  destruct (skip_sign_total t e Hend p0 ltac:(lia)) as (b & p1 & -> & Hp1). cbn [mbind outcome_bind].
  unfold deduce_base, skip_prefix. cbn [mbind outcome_bind negb Z.eqb Pos.eqb].
  by rewrite (agree_drop p1) by lia.
Qed.

Lemma agree_number p allow :
  (lo <= p <= e)%nat -> strtod_number t p allow = strtod_number t' p allow.
Proof. intros Hp. unfold strtod_number, _strtoul. by rewrite agree_strtol. Qed.

Lemma agree_fraction p endp b allow :
  (lo <= p <= e)%nat -> strtod_fraction t p endp b allow = strtod_fraction t' p endp b allow.
Proof.
  intros Hp. unfold strtod_fraction. rewrite <- (agree_rd p) by lia.
  destruct (rd_upto t e Hend p ltac:(lia)) as (c & -> & Hc). cbn [mbind outcome_bind].
  destruct (c =? 46) eqn:E; [|done].
  pose proof (before_end t e Hend p c ltac:(lia) Hc ltac:(lia)).
  by rewrite agree_number by lia.
Qed.

Lemma agree_exponent p endp allow :
  (lo <= p <= e)%nat -> strtod_exponent t p endp allow = strtod_exponent t' p endp allow.
Proof.
  intros Hp. unfold strtod_exponent. rewrite <- (agree_rd p) by lia.
  destruct (rd_upto t e Hend p ltac:(lia)) as (c & -> & Hc). cbn [mbind outcome_bind].
  destruct ((c =? 101) || (c =? 69)) eqn:E; [|done].
  pose proof (before_end t e Hend p c ltac:(lia) Hc ltac:(lia)).
  rewrite <- (agree_rd (S p)) by lia.
  destruct (rd_upto t e Hend (S p) ltac:(lia)) as (s & -> & Hs). cbn [mbind outcome_bind].
  destruct ((s =? 45) || (s =? 43)) eqn:E2; [|by rewrite agree_number by lia].
  pose proof (before_end t e Hend (S p) s ltac:(lia) Hs ltac:(lia)).
  by rewrite agree_number by lia.
Qed.

Lemma agree_strtod p allow :
  (lo <= p <= e)%nat -> _strtod t (Some p) allow = _strtod t' (Some p) allow.
Proof.
  intros Hp. unfold _strtod. rewrite <- (agree_rd p), <- (agree_drop p) by lia.
  destruct (rd_upto t e Hend p ltac:(lia)) as (c & -> & _). cbn [mbind outcome_bind].
  destruct (negb allow && _isspace c); [done|].
  destruct (skip_leading_total t e Hend p allow ltac:(lia)) as (p0 & -> & Hp0).
  cbn [mbind outcome_bind]. rewrite <- (agree_sign p0) by lia.
  destruct (skip_sign_total t e Hend p0 ltac:(lia)) as (b & p1 & -> & Hp1). cbn [mbind outcome_bind].
  rewrite <- (agree_number p1) by lia.
  destruct (strtod_number_total t e Hend p1 allow ltac:(lia)) as (x & p2 & hx & err1 & -> & Hp2).
  cbn [mbind outcome_bind]. rewrite <- (agree_fraction p2) by lia.
  destruct (strtod_fraction_total t e Hend p2 (if hx then p2 else p) hx allow ltac:(lia))
    as (y & r & p3 & end2 & err2 & stop & -> & Hp3). cbn [mbind outcome_bind].
  destruct stop; [done|]. by rewrite (agree_exponent p3) by lia.
Qed.

Lemma agree_memcmp p s k n : (lo <= p)%nat -> _memcmp t p s k n = _memcmp t' p s k n.
Proof.
  revert p k. induction n as [|n IH]; intros p k Hp; [done|]. cbn [_memcmp].
  rewrite agree_rd by done. destruct (rd t' p) as [a|]; [|done]. cbn [mbind outcome_bind].
  destruct (rd s k) as [b|]; [|done]. cbn [mbind outcome_bind].
  destruct (a <? b); [done|]. destruct (a >? b); [done|]. apply IH. lia.
Qed.

Lemma agree_find_quote fuel p q esc :
  (lo <= p)%nat -> find_quote fuel t p q esc = find_quote fuel t' p q esc.
Proof.
  revert p esc. induction fuel as [|fuel IH]; intros p esc Hp; [done|]. cbn [find_quote].
  destruct (decide (p = q)); [done|]. rewrite (agree_rd p) by lia.
  destruct (rd t' p) as [c|]; [|done]. cbn [mbind outcome_bind].
  destruct (c =? 34); [done|]. destruct (c =? 92); [|by apply IH; lia].
  rewrite (agree_rd (S p)) by lia. destruct (rd t' (S p)) as [c1|]; [|done].
  cbn [mbind outcome_bind]. destruct (c1 =? 117).
  - destruct (_ <? 4); [done|]. apply IH. lia.
  - destruct (decide _); [done|]. apply IH. lia.
Qed.
End Agree.

(** ** The simulation *)

Section Scan.
Context {D : Type}.
Variable callback : json_parser -> text -> json_reason -> json_type -> json_union ->
  json_result * D -> outcome (json_result * (json_result * D)).
Variable ja_malloc : nat -> Z -> bool.
(** The allocator grants every scanner. *)
Hypothesis Hmalloc : forall n size, ja_malloc n size = true.
Implicit Types s : pstate D.

(** The scanning state [s'] is at the same place as [s]; the texts agree from
    [lo] on. *)
Record together (lo : nat) (s s' : pstate D) : Prop := Together {
  tg_wf : wf s;
  tg_wf' : wf s';
  tg_scan : scan (prs s') = true;
  tg_ptr : ptr (prs s') = ptr (prs s);
  tg_end : end_ (prs s') = end_ (prs s);
  tg_depth : depth (prs s') = depth (prs s);
  tg_allow : allow_whitespace (prs s') = allow_whitespace (prs s);
  tg_length : length (txt s') = length (txt s);
  tg_lo : (lo <= ptr (prs s))%nat;
  tg_text : drop lo (txt s) = drop lo (txt s')
}.

Definition here (s s' : pstate D) : Prop := together (ptr (prs s)) s s'.

(** A scanning parser changes neither the text nor its own mode. *)
Definition still (s s1 : pstate D) : Prop :=
  scan (prs s1) = scan (prs s) /\ end_ (prs s1) = end_ (prs s) /\
  (scan (prs s) = true -> txt s1 = txt s).

Lemma still_trans s1 s2 s3 : still s1 s2 -> still s2 s3 -> still s1 s3.
Proof.
  intros (A1 & B1 & C1) (A2 & B2 & C2). split; [congruence|]. split; [congruence|].
  intros H. rewrite C2 by congruence. by apply C1.
Qed.

(** From states related by [P]: when [m] succeeds on the left, it succeeds on the
    right with the same value, and the states are together again. *)
Definition sim {A} (P : pstate D -> pstate D -> Prop) (m : PM D A)
    (R : A -> pstate D -> pstate D -> Prop) : Prop :=
  forall s s' a s1, P s s' -> m s = Done (inr a, s1) ->
  exists s1', m s' = Done (inr a, s1') /\ R a s1 s1' /\ still s s1 /\ still s' s1'.

Lemma sim_bind {A B} P (m : PM D A) (k : A -> PM D B) R R' :
  sim P m R -> (forall a, sim (R a) (k a) R') -> sim P (m ≫= k) R'.
Proof.
  intros Hm Hk s s' b s2 HP Hr. rewrite bind_eq in Hr.
  destruct (m s) as [[[r|a] s1]|] eqn:Em; [done| |done].
  destruct (Hm s s' a s1 HP Em) as (s1' & Em' & HR & Hs1 & Hs1').
  destruct (Hk a s1 s1' b s2 HR Hr) as (s2' & Ek & HR' & Hs2 & Hs2').
  exists s2'. rewrite bind_eq, Em'. split; [done|]. split; [done|].
  split; by eapply still_trans.
Qed.

Lemma sim_weaken {A} P (m : PM D A) (R R' : A -> pstate D -> pstate D -> Prop) :
  sim P m R -> (forall a s s', R a s s' -> R' a s s') -> sim P m R'.
Proof.
  intros Hm HR s s' a s1 HP Hr. destruct (Hm s s' a s1 HP Hr) as (s1' & ? & ? & ?). eauto.
Qed.

Lemma sim_raise {A} P r R : sim P (raise r : PM D A) R.
Proof. by intros s s' a s1 _ [=]. Qed.

Lemma sim_ret {A} (P : pstate D -> pstate D -> Prop) (a : A) : sim P (mret a) (fun _ => P).
Proof. intros s s' a' s1 HP [= <- <-]. exists s'. by repeat split. Qed.

Lemma sim_or_raise {A} P (m : PM D A) r R : sim P m R -> sim P (or_raise m r) R.
Proof.
  intros Hm s s' a s1 HP Hr. unfold or_raise in Hr |- *.
  destruct (m s) as [[[r'|a'] s2]|] eqn:Em; [done| |done]. injection Hr as -> ->.
  destruct (Hm s s' a s1 HP Em) as (s1' & -> & ?). eauto.
Qed.

(** One character past the place from which the texts agree. *)
Definition passed (s s' : pstate D) : Prop :=
  exists lo, ptr (prs s) = S lo /\ together lo s s'.

Lemma together_later lo lo' s s' :
  together lo s s' -> (lo <= lo' <= ptr (prs s))%nat -> together lo' s s'.
Proof.
  intros [W W' Sc P E De A L Lo T] Hlo. split; try done; [lia|].
  eapply agree_drop; [exact T|lia].
Qed.

Lemma passed_here s s' : passed s s' -> here s s'.
Proof. intros (lo & Hp & Ht). eapply together_later; [exact Ht|lia]. Qed.

Lemma sim_here {A} (m : PM D A) R : sim here m R -> sim passed m R.
Proof. intros Hm s s' a s1 HP. by apply Hm, passed_here. Qed.

(** Moving both pointers to [p]. *)
Lemma together_move lo s s' p :
  together lo s s' -> (lo <= p <= end_ (prs s))%nat ->
  together lo (set_prs s (with_ptr (prs s) p)) (set_prs s' (with_ptr (prs s') p)).
Proof.
  intros [(W1 & W2 & W3) (W1' & W2' & W3') Sc P E De A L Lo T] Hp.
  split; simpl; try done; try lia; (split; simpl; [lia|done]).
Qed.

Lemma still_prs s q : scan q = scan (prs s) -> end_ q = end_ (prs s) -> still s (set_prs s q).
Proof. by split. Qed.

Lemma skip_whitespace_sim : sim here skip_whitespace (fun _ => here).
Proof.
  intros s s' a s1 HR. pose proof HR as [(W1 & W2 & W3) _ Sc P E De A L Lo T].
  unfold skip_whitespace. rewrite !bind_get, P, E, A, <- T.
  destruct (skip_ws_total (txt s) (end_ (prs s)) W2 (ptr (prs s)) (allow_whitespace (prs s)) W1)
    as (r & p & Hs & Hp).
  rewrite !(bind_lift _ _ _ _ Hs), !bind_put. unfold check. destruct (decide _); [|done].
  intros [= <- <-]. eexists. split; [done|]. split; [|by split; apply still_prs].
  eapply together_later; [apply (together_move _ _ _ p HR); lia|simpl; lia].
Qed.

Lemma next_char_sim : sim here next_char (fun _ => passed).
Proof.
  intros s s' a s1 HR. pose proof HR as [(W1 & W2 & W3) _ Sc P E De A L Lo T].
  unfold next_char. rewrite !bind_get, P, E. destruct (decide _) as [|Hne]; [done|].
  rewrite <- (agree_rd _ _ _ T (ptr (prs s))) by lia.
  destruct (rd_upto _ _ W2 _ W1) as (c & Hr & _).
  rewrite !(bind_lift _ _ _ _ Hr), !bind_put. intros [= <- <-].
  eexists. split; [done|]. split; [|by split; apply still_prs].
  exists (ptr (prs s)). split; [done|]. apply (together_move _ _ _ _ HR). lia.
Qed.

Lemma unget_sim : sim passed unget (fun _ => here).
Proof.
  intros s s' a s1 (lo & Hlo & HR). pose proof HR as [(W1 & W2 & W3) _ Sc P E De A L Lo T].
  unfold unget. rewrite !bind_get, P, Hlo. cbn [put Nat.pred]. intros [= <- <-].
  eexists. split; [done|]. split; [|by split; apply still_prs].
  apply (together_move _ _ _ lo HR). lia.
Qed.

(** After the white space, a character. *)
Lemma next_token_sim {B} (k : Z -> PM D B) R :
  (forall c, sim passed (k c) R) -> sim here (skip_whitespace ≫= fun _ => next_char ≫= k) R.
Proof.
  intros Hk. eapply sim_bind; [apply skip_whitespace_sim|]. intros u.
  by eapply sim_bind; [apply next_char_sim|].
Qed.

Lemma update_node_together f f' s s' lo a s1 :
  together lo s s' -> update_node f s = Done (inr a, s1) ->
  exists s1', update_node f' s' = Done (inr a, s1') /\ together lo s1 s1' /\
    ptr (prs s1) = ptr (prs s) /\ still s s1 /\ still s' s1'.
Proof.
  intros [(W1 & W2 & W3) (W1' & W2' & W3') Sc P E De A L Lo T].
  unfold update_node. rewrite !bind_get, De. destruct (depth (prs s)) as [|i] eqn:Hd; [done|].
  destruct (path (prs s) !! i) as [n|] eqn:Hn; [|done].
  assert (i < JSON_MAX_NESTING)%nat as Hi by (rewrite <- W3; by eapply lookup_lt_Some).
  destruct (lookup_lt_is_Some_2 (path (prs s')) i ltac:(lia)) as [n' ->].
  unfold put. intros [= <- <-]. eexists. split; [done|].
  split; [|by split; [|split; apply still_prs]].
  split; simpl; try done; try (by rewrite Hd);
    (split; [done|]; split; [done|]; simpl; by rewrite length_insert).
Qed.

Lemma update_node_sim f : sim here (update_node f) (fun _ => here).
Proof.
  intros s s' a s1 HR Hu. destruct (update_node_together f f s s' _ a s1 HR Hu)
    as (s1' & Hu' & HR' & Hp & Hs). exists s1'. split; [done|]. split; [|done].
  unfold here. by rewrite Hp.
Qed.

Lemma update_node_passed f : sim passed (update_node f) (fun _ => passed).
Proof.
  intros s s' a s1 (lo & Hlo & HR) Hu. destruct (update_node_together f f s s' _ a s1 HR Hu)
    as (s1' & Hu' & HR' & Hp & Hs). exists s1'. split; [done|]. split; [|done].
  exists lo. split; [congruence|done].
Qed.

Lemma invoke_callback_sim reason type un :
  sim here (_invoke_callback callback reason type un) (fun _ => here).
Proof.
  intros s s' a s1 HR. pose proof HR as [W W' Sc P E De A L Lo T].
  unfold _invoke_callback. rewrite !bind_get, Sc.
  destruct (scan (prs s)) eqn:Hs;
    [intros [= <- <-]; exists s'; split; [done|]; split; [done|]; by split|].
  destruct (callback _ _ _ _ _ _) as [[r [e d]]|] eqn:Hc; [|done].
  rewrite (bind_lift _ _ _ _ eq_refl), bind_put. unfold check. destruct (decide _); [|done].
  intros [= <- <-]. exists s'. split; [done|]. split; [by split|]. by split.
Qed.

Lemma get_string_sim :
  sim here _get_string (fun a s s' => here s s' /\ (a <= end_ (prs s'))%nat).
Proof.
  intros s s' a s1 HR. pose proof HR as [W W' Sc P E De A L Lo T].
  pose proof W as (W1 & W2 & W3).
  assert (end_ (prs s) < length (txt s))%nat by (by eapply lookup_lt_Some).
  destruct (find_quote_total (txt s) (end_ (prs s)) W2 (S (length (txt s)))
              (ptr (prs s)) false W1) as (r & Hq & Hr); [lia|].
  unfold _get_string. rewrite !bind_get, P, E, L.
  rewrite <- (agree_find_quote _ _ _ T _ (ptr (prs s))) by lia.
  rewrite !(bind_lift _ _ _ _ Hq). destruct r as [r|[p escaped]]; [done|].
  rewrite !bind_put, Sc.
  intros Hrun.
  assert (exists t1, a = ptr (prs s) /\
    s1 = set_txt (set_prs s (with_ptr (prs s) (ptr (prs s) + (p - ptr (prs s)) + 1))) t1 /\
    confined (ptr (prs s)) p (txt s) t1 /\ (scan (prs s) = true -> t1 = txt s))
    as (t1 & -> & -> & Hc & Hpure).
  { destruct (scan (prs s)); [injection Hrun as <- <-; by exists (txt s)|].
    rewrite (bind_lift _ _ _ _ (wr_ok (txt s) p 0 ltac:(lia))), bind_put in Hrun.
    set (t0 := <[p := u8 0]> (txt s)) in *.
    assert (confined (ptr (prs s)) p (txt s) t0) as Hc0.
    { split; [apply length_insert|]. split; [intros i Hi; apply list_lookup_insert_ne; lia|].
      apply insert_bytes. }
    destruct escaped; [|injection Hrun as <- <-; by exists t0].
    assert (t0 !! p = Some 0) as Hz by (apply list_lookup_insert_eq; lia).
    destruct (unescape_total (S (length t0)) t0 (ptr (prs s)) p Hz)
      as (r & t1 & Hu & Hc1); [lia|unfold t0; rewrite length_insert; lia|].
    rewrite (bind_lift _ _ _ _ Hu), bind_put in Hrun. unfold check in Hrun.
    rewrite bind_eq in Hrun. destruct (decide _); [|done]. injection Hrun as <- <-.
    exists t1. split; [done|]. split; [done|]. split; [|done].
    eapply confined_shift; [exact Hc0|exact Hc1|lia..]. }
  destruct Hc as (Hl & Hc & _). eexists. split; [done|].
  split; [split; [|simpl; lia]|split; [|by apply still_prs]].
  - split; simpl; try done; try lia.
    + split; simpl; [lia|]. split; [by rewrite Hc by lia|done].
    + split; simpl; [lia|]. destruct W' as (_ & ? & ?). done.
    + apply list_eq. intros i. rewrite !lookup_drop, Hc by lia.
      eapply agree_lookup; [exact T|lia].
  - split; [done|]. split; [done|]. done.
Qed.

Lemma literal_sim str type un : sim here (literal callback str type un) (fun _ => here).
Proof.
  unfold literal. apply (sim_bind _ _ _ (fun _ => here)); [|intros [|]; [apply invoke_callback_sim|apply sim_raise]].
  intros s s' a s1 HR. pose proof HR as [W W' Sc P E De A L Lo T].
  unfold _expect. rewrite !bind_get, P, E.
  destruct (Z.leb_spec (Z.of_nat (length str)) (Z.of_nat (end_ (prs s)) - Z.of_nat (ptr (prs s))));
    [|intros [= <- <-]; exists s'; split; [done|]; split; [done|]; by split].
  rewrite <- (agree_memcmp _ _ _ T (ptr (prs s))) by lia.
  destruct (_memcmp _ _ _ _ _) as [r|] eqn:Hr; [|done].
  rewrite !(bind_lift (Done r) _ r) by done. destruct (r =? 0).
  - rewrite !bind_put. intros [= <- <-]. eexists. split; [done|].
    split; [|by split; apply still_prs].
    eapply together_later; [apply (together_move _ _ _ _ HR)|simpl]; lia.
  - intros [= <- <-]. exists s'. split; [done|]. split; [done|]. by split.
Qed.

Lemma together_conv lo s s' err err' :
  together lo s s' -> together lo (set_conv s err) (set_conv s' err').
Proof. by intros [W W' Sc P E De A L Lo T]. Qed.

Lemma get_number_sim : sim here _get_number (fun _ => here).
Proof.
  intros s s' a s1 HR. pose proof HR as [(W1 & W2 & W3) W' Sc P E De A L Lo T].
  destruct (number_span_total (txt s) (end_ (prs s)) W2 (ptr (prs s)) true W1)
    as (p & b & Hs & Hpe).
  unfold _get_number. rewrite !bind_get, P, E, A, <- T, !(bind_lift _ _ _ _ Hs), !bind_put.
  rewrite <- (agree_strtol _ _ _ _ T W2) by lia. rewrite <- (agree_strtod _ _ _ _ T W2) by lia.
  match goal with |- context [lift ?o] => destruct o as [[[[type un] e] err]|]; [|done] end.
  rewrite !(bind_lift _ _ _ _ eq_refl), !bind_put.
  destruct e as [e|]; [|done]. destruct (_ || _); [done|]. intros [= <- <-].
  eexists. split; [done|]. split; [|by split; split].
  eapply together_later; [apply together_conv, (together_move _ _ _ p HR); lia|simpl; lia].
Qed.

Lemma insert_node_sim name :
  sim (fun s s' => here s s' /\ (name <= end_ (prs s'))%nat) (insert_node name) (fun _ => here).
Proof.
  intros s s' a s1 [HR Hn] Hr. pose proof (tg_wf' _ _ _ HR) as (W1' & W2' & W3').
  unfold insert_node in *. rewrite bind_get in Hr |- *.
  destruct (strtou64_total _ _ W2' name (allow_whitespace (prs s')) Hn) as (v' & ok' & err' & Hs').
  rewrite (bind_lift _ _ _ _ Hs'), bind_put.
  destruct (_strtou64 (txt s) _ _) as [[[v ok] err]|] eqn:Hs; [|done].
  rewrite (bind_lift _ _ _ _ eq_refl), bind_put in Hr.
  destruct (update_node_together _
    (fun _ => Node (Some name) (if ok' then v' else UINT64_MAX) 0 0)
    _ _ _ a s1 (together_conv _ _ _ err err' HR) Hr) as (s1' & Hu & HR' & Hp & Hst & Hst').
  exists s1'. split; [done|]. split; [unfold here; by rewrite Hp|done].
Qed.

(** Two scanners side by side, and back to the parsers that started them. *)
Lemma scan_ahead_sim array :
  sim here array (fun _ => here) -> sim here (scan_ahead ja_malloc array) (fun _ => here).
Proof.
  intros Harr s s' a s1 HR. pose proof HR as [W W' Sc P E De A L Lo T].
  unfold scan_ahead, _malloc. rewrite !bind_assoc, !bind_get, !bind_assoc, !bind_put, !Hmalloc.
  rewrite (bind_eq (mret true)), (bind_eq (mret true) _ (PState _ (prs s') _ _ _ _)).
  unfold mret, PM_ret. cbn iota.
  set (sl := PState (txt s) _ _ _ _ _). set (sr := PState (txt s') _ _ _ _ _).
  rewrite (bind_eq _ _ sl), (bind_eq _ _ sr). unfold run_scanner.
  destruct (array (set_prs sl _)) as [[[r|n] sl1]|] eqn:Hl; [done| |done].
  destruct (Harr (set_prs sl (with_scan (prs sl) true)) (set_prs sr (with_scan (prs sr) true))
              n sl1) as (sr1 & Hr & HR1 & (S1 & E1 & T1) & (S1' & E1' & T1')); [|done|].
  { by split. }
  rewrite Hr. unfold _free. rewrite !(bind_eq (get ≫= _)), !bind_get. cbn [put].
  intros [= <- <-]. eexists. split; [done|].
  specialize (T1 eq_refl). specialize (T1' eq_refl). simpl in T1, T1'.
  destruct W as (W1 & W2 & W3), W' as (W1' & W2' & W3').
  split; [|split; by split].
  split; simpl; try done; rewrite ?T1, ?T1'; try done; by split; [|split]; simpl; rewrite ?T1, ?T1'.
Qed.

(** A change of the depth alone. *)
Lemma together_depth lo s s' d :
  together lo s s' ->
  together lo (set_prs s (with_depth (prs s) d)) (set_prs s' (with_depth (prs s') d)).
Proof. by intros [(? & ? & ?) (? & ? & ?) ? ? ? ? ? ? ? ?]. Qed.

Lemma begin_object_sim (loop : PM D unit) :
  sim here loop (fun _ => here) -> sim here (begin_object callback loop) (fun _ => here).
Proof.
  intros Hloop. unfold begin_object.
  apply (sim_bind _ _ _ (fun _ => here)); [apply invoke_callback_sim|intros u].
  intros s s' a s1 HR. rewrite !bind_get, !bind_put, (tg_depth _ _ _ HR).
  destruct (decide _); [done|]. intros Hr.
  destruct (Hloop (set_prs s (with_depth (prs s) (S (depth (prs s)))))
              (set_prs s' (with_depth (prs s') (S (depth (prs s))))) a s1
              (together_depth _ _ _ _ HR) Hr) as (s1' & Hr' & HR' & Hst & Hst').
  exists s1'. split; [done|]. split; [done|]. split; eapply still_trans; eauto; by split.
Qed.

Lemma end_object_sim :
  sim here (s0 ← get;
      if decide (depth (prs s0) = 0%nat) then raise JSON_NESTING_UNDERFLOW
      else _ ← _invoke_callback callback JSON_REASON_END_OBJECT JSON_TYPE_NULL U_none;
           s1 ← get;
           put (set_prs s1 (with_depth (prs s1) (Nat.pred (depth (prs s1)))))) (fun _ => here).
Proof.
  intros s s' a s1 HR. rewrite !bind_get, (tg_depth _ _ _ HR). destruct (decide _); [done|].
  revert HR. generalize s s' a s1.
  apply (sim_bind here _ _ (fun _ => here)); [apply invoke_callback_sim|].
  intros u s2 s2' a2 s3 HR2. rewrite !bind_get, (tg_depth _ _ _ HR2). unfold put.
  intros [= <- <-]. eexists. split; [done|]. split; [by apply together_depth|]. by split.
Qed.

(** The three functions, by induction on the fuel. *)
Definition parts_sim (f : nat) : Prop :=
  sim here (_get_value callback ja_malloc f) (fun _ => here) /\
  (forall i n, sim here (get_array_loop callback ja_malloc f i n) (fun _ => here)) /\
  sim here (get_object_loop callback ja_malloc f) (fun _ => here).

Lemma value_sim f : parts_sim f -> sim here (_get_value callback ja_malloc (S f)) (fun _ => here).
Proof.
  intros (HV & HA & HO). cbn [_get_value]. apply next_token_sim. intros c. cbv zeta.
  destruct (_tolower c =? 102); [apply sim_here, literal_sim|].
  destruct (_tolower c =? 110); [apply sim_here, literal_sim|].
  destruct (_tolower c =? 116); [apply sim_here, literal_sim|].
  destruct (_tolower c =? 123); [by apply sim_here, begin_object_sim|].
  destruct (_tolower c =? 91).
  { apply sim_here. eapply sim_bind; [by apply scan_ahead_sim|intros n].
    eapply sim_bind; [apply update_node_sim|intros u1].
    eapply sim_bind; [apply invoke_callback_sim|intros u2].
    eapply sim_bind; [by apply sim_or_raise|intros u3]. apply invoke_callback_sim. }
  destruct (_tolower c =? 34).
  { apply sim_here. eapply sim_bind; [apply sim_or_raise, get_string_sim|intros str].
    intros s s' a s1 [HR _]. by apply invoke_callback_sim. }
  eapply sim_bind; [apply unget_sim|intros u].
  eapply sim_bind; [apply sim_or_raise, get_number_sim|intros [type un]].
  apply invoke_callback_sim.
Qed.

Lemma array_sim f i n :
  parts_sim f -> sim here (get_array_loop callback ja_malloc (S f) i n) (fun _ => here).
Proof.
  intros (HV & HA & HO). cbn [get_array_loop]. apply next_token_sim. intros c.
  destruct (c =? 44); [apply sim_here, HA|].
  destruct (c =? 93); [eapply sim_here, sim_ret|].
  eapply sim_bind; [apply update_node_passed|intros u1].
  eapply sim_bind; [apply unget_sim|intros u2].
  eapply sim_bind; [apply HV|intros u3]. apply HA.
Qed.

Lemma object_sim f :
  parts_sim f -> sim here (get_object_loop callback ja_malloc (S f)) (fun _ => here).
Proof.
  intros (HV & HA & HO). cbn [get_object_loop]. apply next_token_sim. intros c.
  apply sim_here. destruct (c =? 34).
  - eapply sim_bind; [apply get_string_sim|intros name].
    eapply sim_bind; [apply insert_node_sim|intros u1].
    eapply sim_bind; [apply invoke_callback_sim|intros u2].
    apply next_token_sim. intros c'. destruct (c' =? 58); [|apply sim_raise].
    apply sim_here. eapply sim_bind; [apply HV|intros u3]. apply HO.
  - destruct (c =? 125); [apply end_object_sim|apply HO].
Qed.

Lemma all_sim f : parts_sim f.
Proof.
  induction f as [|f IH]; [repeat split; intros; by intros ? ? ? ? ? [=]|].
  split; [by apply value_sim|]. split; [intros; by apply array_sim|by apply object_sim].
Qed.
End Scan.

(** The state the scanner works on: a copy of the parser, marked as scanning. *)
Definition scanning {D} (s : pstate D) : pstate D := set_prs s (with_scan (prs s) true).

(** C29. The size that [_get_value] announces for an array is the number of its
    elements: whenever the array at the parser's pointer is parsed successfully
    (with the callback's effects and the strings decoded in place), the scanner
    started at the same place, with the same allocator granting its memory,
    succeeds too, counts the same number of elements and stops at the same
    byte, leaving the text as it was. *)
Theorem scan_counts_elements {D} callback ja_malloc fuel (s s1 : pstate D) n :
  (forall k size, ja_malloc k size = true) -> wf s ->
  _get_array callback ja_malloc fuel s = Done (inr n, s1) ->
  exists s2, run_scanner (_get_array callback ja_malloc fuel) s = Done (inr (inr n), s2) /\
    txt s2 = txt s /\ prs s2 = prs s /\
    exists s3, _get_array callback ja_malloc fuel (scanning s) = Done (inr n, s3) /\ ptr (prs s3) = ptr (prs s1).
Proof.
  intros Hm Hwf Hr.
  destruct (proj1 (proj2 (all_sim callback ja_malloc Hm fuel)) 0 0 s
              (set_prs s (with_scan (prs s) true)) n s1) as (s3 & Hs & HR & _ & Hst);
    [by split|exact Hr|].
  destruct Hst as (_ & _ & Ht). specialize (Ht eq_refl).
  unfold run_scanner. unfold _get_array at 1. rewrite Hs.
  eexists. split; [done|]. split; [exact Ht|]. split; [done|]. exists s3. split; [exact Hs|].
  apply (tg_ptr _ _ _ HR).
Qed.

Lemma scan_counts_elements_witness :
  let t := [49; 44; 34; 92; 110; 34; 44; 91; 93; 93; 0] in
  let s := PState t (Parser 0 10 false (replicate JSON_MAX_NESTING (Node None 0 0 0)) 1 true)
                  JSON_OK 0 0 (@nil json_reason) in
  exists s1, _get_array record_reasons (fun _ _ => true) 30 s = Done (inr 3, s1) /\
  exists s2, run_scanner (_get_array record_reasons (fun _ _ => true) 30) s
             = Done (inr (inr 3), s2) /\
    txt s2 = txt s /\ prs s2 = prs s /\
    exists s3, _get_array record_reasons (fun _ _ => true) 30 (scanning s) = Done (inr 3, s3) /\ ptr (prs s3) = ptr (prs s1).
Proof.
  cbv zeta. eexists. split; [vm_compute; reflexivity|].
  eapply (scan_counts_elements record_reasons (fun _ _ => true) 30).
  - reflexivity.
  - split; [simpl; lia|by split].
  - vm_compute. reflexivity.
Defined.
