(* ===== verification/JsonMatch.v ===== *)
(** * JsonMatch: what a path pattern matches

    [json_match] splits a pattern at its dots in a private copy and compares
    the pieces with the names in the parser's path.  The theorem states the
    match in terms of lists of names. *)

From Stdlib Require Import String.
From S2P Require Import Prelude JsonText JsonParser JsonSafety JsonStrings.

(** ** Specification *)

(** The pieces of a pattern between its dots. *)
Fixpoint split_dots (l : text) : list text :=
  match l with
  | [] => [[]]
  | c :: l' =>
      if c =? 46 then [] :: split_dots l'
      else match split_dots l' with [] => [[c]] | tok :: toks => (c :: tok) :: toks end
  end.

(** A piece matches a node: "#" a name that is a number, anything else itself. *)
Definition node_matches (t : text) (allow : bool) (tok : text) (n : json_node) : Prop :=
  exists p, node_name n = Some p /\
    if decide (tok = bytes "#") then exists v err, _strtou64 t (Some p) allow = Done (v, true, err)
    else str_at t p = tok.

(** The parser's path: the names up to its depth are strings of the text, which
    is zero-terminated at [e]. *)
Definition path_named (q : json_parser) (t : text) (e : nat) : Prop :=
  (depth q <= length (path q))%nat /\ t !! e = Some 0 /\
  Forall (fun n => exists p, node_name n = Some p /\ (p <= e)%nat) (take (depth q) (path q)).

(** ** Comparing strings *)

Lemma until_nul_no0 l : ~ (0 ∈ until_nul l).
Proof.
  induction l as [|c l IH]; [apply not_elem_of_nil|]. simpl. destruct (c =? 0) eqn:E;
    [apply not_elem_of_nil|]. apply not_elem_of_cons. split; [lia|done].
Qed.

Lemma s8_diff a b : is_byte a -> is_byte b -> (s8 a - s8 b =? 0) = (a =? b).
Proof.
  unfold is_byte. intros Ha Hb.
  assert (forall z, 0 <= z < 256 -> s8 z = if z <? 128 then z else z - 256) as Hs.
  { intros z Hz. unfold s8, swrap. change (2 ^ (8 - 1)) with 128. change (2 ^ 8) with 256.
    destruct (z <? 128) eqn:E; [rewrite Z.mod_small by lia; lia|].
    replace (z + 128) with ((z - 128) + 1 * 256) by lia.
    rewrite Z_mod_plus_full, Z.mod_small by lia. lia. }
  rewrite !Hs by done. destruct (a <? 128) eqn:?, (b <? 128) eqn:?; lia.
Qed.

Lemma strcmp_from_spec l1 l2 :
  0 ∈ l1 -> 0 ∈ l2 -> Forall is_byte l1 -> Forall is_byte l2 ->
  exists d, strcmp_from l1 l2 = Done d /\ (d =? 0) = bool_decide (until_nul l1 = until_nul l2).
Proof.
  revert l2. induction l1 as [|a l1 IH]; intros l2 H1 H2 B1 B2; [by apply elem_of_nil in H1|].
  destruct l2 as [|b l2]; [by apply elem_of_nil in H2|].
  apply Forall_cons in B1 as [Ba B1]. apply Forall_cons in B2 as [Bb B2]. cbn [strcmp_from].
  destruct (negb (a =? 0) && negb (b =? 0) && (a =? b)) eqn:E.
  - rewrite !andb_true_iff in E. destruct E as [[Ea Eb] Eab]. assert (a = b) as <- by lia.
    destruct (IH l2) as (d & -> & Hd); try done.
    + apply elem_of_cons in H1 as [?|?]; [lia|done].
    + apply elem_of_cons in H2 as [?|?]; [lia|done].
    + exists d. split; [done|]. rewrite Hd. cbn [until_nul].
      replace (a =? 0) with false by lia. apply bool_decide_ext. split; congruence.
  - eexists. split; [done|]. rewrite s8_diff by done. cbn [until_nul].
    destruct (a =? 0) eqn:Ea, (b =? 0) eqn:Eb; simpl in E.
    + rewrite bool_decide_true by done. lia.
    + rewrite bool_decide_false by done. lia.
    + rewrite bool_decide_false by done. lia.
    + rewrite bool_decide_false by (intros [= ?]; lia). lia.
Qed.

Lemma lookup_0_drop (t : text) p e : (p <= e)%nat -> t !! e = Some 0 -> 0 ∈ drop p t.
Proof.
  intros Hp He. apply (list_elem_of_lookup_2 _ (e - p)). rewrite lookup_drop.
  by replace (p + (e - p))%nat with e by lia.
Qed.

Lemma strcmp_spec t1 p1 e1 t2 p2 e2 :
  (p1 <= e1)%nat -> t1 !! e1 = Some 0 -> (p2 <= e2)%nat -> t2 !! e2 = Some 0 ->
  Forall is_byte t1 -> Forall is_byte t2 ->
  exists d, _strcmp t1 p1 t2 p2 = Done d /\ (d =? 0) = bool_decide (str_at t1 p1 = str_at t2 p2).
Proof.
  intros. apply strcmp_from_spec;
    [by eapply lookup_0_drop|by eapply lookup_0_drop|by apply Forall_drop|by apply Forall_drop].
Qed.

(** ** Copying and splitting the pattern *)

Lemma strlen_from_spec s B p n : ~ (0 ∈ s) -> strlen_from (s ++ 0 :: B) p n = Done (n + Z.of_nat (length s)).
Proof.
  revert p n. induction s as [|c s IH]; intros p n Hs; [simpl; f_equal; lia|].
  apply not_elem_of_cons in Hs as [Hc Hs]. cbn [app strlen_from].
  replace (c =? 0) with false by lia. rewrite IH by done. f_equal. simpl length. lia.
Qed.

Lemma strl_copy_spec s A g B room n :
  ~ (0 ∈ s) -> Forall is_byte s -> length s = length g -> (length s <= room)%nat ->
  strl_copy (A ++ g ++ B) (length A) (s ++ [0]) room n =
    Done (A ++ s ++ B, (length A + length s)%nat, [0], n + Z.of_nat (length s)).
Proof.
  intros Hs Hb. revert A g room n Hs.
  induction Hb as [|c s Hc Hb IH]; intros A g room n Hs Hl Hr.
  - destruct g; [|done]. simpl. do 2 f_equal; [|lia]. repeat f_equal. lia.
  - destruct g as [|x g]; [done|]. destruct room as [|room]; [simpl in Hr; lia|].
    apply not_elem_of_cons in Hs as [H0 Hs]. simpl in Hl, Hr. cbn [app strl_copy].
    replace (c =? 0) with false by lia. rewrite bool_decide_false by lia. cbn [orb].
    rewrite wr_app by done. cbn [mbind outcome_bind].
    specialize (IH (A ++ [c]) g room (n + 1) Hs ltac:(lia) ltac:(lia)).
    rewrite length_app, <- !app_assoc in IH. simpl in IH.
    replace (S (length A)) with (length A + 1)%nat by lia. rewrite IH.
    do 2 f_equal; [|simpl length; lia]. do 2 f_equal. simpl length. lia.
Qed.

Lemma strlcpy_spec s k :
  ~ (0 ∈ s) -> Forall is_byte s -> (length s < k)%nat ->
  exists B, _strlcpy (replicate k 0) 0 (s ++ [0]) (S (length s)) =
    Done (s ++ 0 :: B, Z.of_nat (length s)) /\ Forall is_byte B.
Proof.
  intros Hs Hb Hk. exists (replicate (k - S (length s)) 0).
  assert (is_byte 0) as H0 by (unfold is_byte; lia).
  split; [|apply Forall_replicate; done].
  assert (replicate k 0 = [] ++ replicate (length s) 0 ++ replicate (k - length s) 0) as Hrep
    by (simpl; rewrite <- replicate_add; f_equal; lia).
  cbn [_strlcpy]. rewrite Hrep.
  rewrite (strl_copy_spec s [] (replicate (length s) 0)) by (try done; by rewrite length_replicate).
  cbn [mbind outcome_bind]. simpl length. rewrite Nat.add_0_l.
  replace (k - length s)%nat with (S (k - S (length s))) by lia. cbn [replicate].
  cbn [app]. rewrite wr_app by done. cbn [mbind outcome_bind strlen_from Z.eqb].
  do 2 f_equal.
Qed.

(** The buffer after the split, and where the pieces start. *)
Definition clear_dots (l : text) : text := map (fun c => if c =? 46 then 0 else c) l.
Fixpoint dot_offsets (p : nat) (l : text) : list nat :=
  match l with
  | [] => []
  | c :: l' => if c =? 46 then S p :: dot_offsets (S p) l' else dot_offsets (S p) l'
  end.

Lemma split_from_spec l A B toks n :
  ~ (0 ∈ l) -> (length toks <= n)%nat ->
  exists t' r, split_from (l ++ 0 :: B) (length A) 46 (A ++ l ++ 0 :: B) toks n = Done (t', r) /\
    if decide (length toks + length (dot_offsets (length A) l) <= n)%nat
    then t' = A ++ clear_dots l ++ 0 :: B /\ r = Some (toks ++ dot_offsets (length A) l)
    else r = None.
Proof.
  revert A toks. induction l as [|c l IH]; intros A toks Hl Hn.
  - eexists _, _. split; [done|]. rewrite decide_True by (simpl; lia).
    cbn [dot_offsets]. by rewrite app_nil_r.
  - apply not_elem_of_cons in Hl as [H0 Hl]. cbn [app split_from dot_offsets].
    replace (c =? 0) with false by lia. specialize (IH (A ++ [if c =? 46 then 0 else c])).
    rewrite length_app, Nat.add_1_r in IH. destruct (c =? 46) eqn:E.
    + rewrite wr_app by (unfold is_byte; lia). cbn [mbind outcome_bind].
      destruct (decide (length toks = n)) as [Heq|Hne].
      * rewrite bool_decide_true by done. eexists _, _. split; [done|].
        by rewrite decide_False by (simpl; lia).
      * rewrite bool_decide_false by done.
        destruct (IH (toks ++ [S (length A)]) Hl) as (t' & r & Hr & Hc);
          [rewrite length_app; simpl; lia|].
        rewrite <- !app_assoc in Hr, Hc. cbn [app] in Hr, Hc. exists t', r. split; [exact Hr|].
        rewrite length_app in Hc. simpl in Hc |- *. rewrite E.
        destruct (decide (length toks + 1 + _ <= n)%nat), (decide (length toks + S _ <= n)%nat);
          [by rewrite <- app_assoc in Hc|lia|lia|exact Hc].
    + destruct (IH toks Hl Hn) as (t' & r & Hr & Hc).
      rewrite <- !app_assoc in Hr, Hc. cbn [app] in Hr, Hc. exists t', r. split; [exact Hr|].
      destruct (decide _); [|done]. simpl. by rewrite E.
Qed.

Lemma split_dots_cons l : exists tok toks, split_dots l = tok :: toks.
Proof.
  induction l as [|c l (tok & toks & IH)]; [by eexists _, _|]. simpl.
  destruct (c =? 46); [by eexists _, _|]. rewrite IH. by eexists _, _.
Qed.

(** The strings at the offsets of the split buffer are the pieces. *)
Lemma split_strings l A B :
  ~ (0 ∈ l) ->
  map (str_at (A ++ clear_dots l ++ 0 :: B)) (length A :: dot_offsets (length A) l) = split_dots l.
Proof.
  revert A. induction l as [|c l IH]; intros A Hl.
  - simpl. unfold str_at. by rewrite drop_app_length.
  - apply not_elem_of_cons in Hl as [H0 Hl].
    specialize (IH (A ++ [if c =? 46 then 0 else c]) Hl).
    rewrite length_app, Nat.add_1_r, <- app_assoc in IH. cbn [app] in IH.
    assert (str_at (A ++ clear_dots (c :: l) ++ 0 :: B) (length A) =
            if c =? 46 then [] else c :: str_at (A ++ clear_dots (c :: l) ++ 0 :: B) (S (length A)))
      as Hfirst.
    { unfold str_at. rewrite drop_app_length. cbn [clear_dots map app].
      rewrite <- (Nat.add_1_r (length A)), <- drop_drop, drop_app_length.
      destruct (c =? 46) eqn:E; simpl; [done|]. by replace (c =? 0) with false by lia. }
    cbn [map dot_offsets split_dots]. rewrite Hfirst.
    change (clear_dots (c :: l)) with ((if c =? 46 then 0 else c) :: clear_dots l) in *.
    destruct (c =? 46) eqn:E; cbn [map app] in *; rewrite <- IH; done.
Qed.

(** ** Comparing the pieces *)

Section Path.
Variables (t : text) (e : nat) (buf : text) (be : nat) (allow : bool).
Hypothesis Hend : t !! e = Some 0.
Hypothesis Hbytes : Forall is_byte t.
Hypothesis Hbend : buf !! be = Some 0.
Hypothesis Hbbytes : Forall is_byte buf.

Lemma match_path_spec tokens nodes err :
  Forall (fun k => k <= be)%nat tokens -> length tokens = length nodes ->
  Forall (fun n => exists p, node_name n = Some p /\ (p <= e)%nat) nodes ->
  exists r err', match_path t allow buf tokens nodes err = Done (r, err') /\
    (r = JSON_OK <-> Forall2 (node_matches t allow) (map (str_at buf) tokens) nodes).
Proof.
  intros Htok Hl Hn. revert nodes err Hl Hn.
  induction Htok as [|k tokens Hk Htok IH]; intros [|n nodes] err Hl Hn; try done.
  { eexists _, _. split; [done|]. by split. }
  apply Forall_cons in Hn as [(p & Hp & Hpe) Hn]. cbn [match_path map].
  destruct (strcmp_spec buf k be (cstring "#") 0 1) as (h & -> & Hh); try done; [lia|..].
  { repeat constructor; unfold is_byte; simpl; lia. }
  cbn [mbind outcome_bind]. rewrite Hh, Hp.
  change (str_at (cstring "#") 0) with (bytes "#").
  destruct (decide (str_at buf k = bytes "#")) as [Heq|Hne].
  - rewrite bool_decide_true by done.
    destruct (strtou64_total t e Hend p allow Hpe) as (v & ok & er & Hs). rewrite Hs.
    cbn [mbind outcome_bind]. destruct ok.
    + destruct (IH nodes (later_error err er) ltac:(simpl in Hl; lia) Hn) as (r & err' & -> & Hr).
      eexists _, _. split; [done|]. rewrite Forall2_cons, <- Hr.
      assert (node_matches t allow (str_at buf k) n) as Hm.
      { exists p. split; [done|]. rewrite decide_True by done. by eexists _, _. }
      tauto.
    + eexists _, _. split; [done|]. split; [done|]. rewrite Forall2_cons.
      intros [(p' & Hp' & Hm) _]. rewrite decide_True in Hm by done.
      destruct Hm as (v' & er' & Hm). congruence.
  - rewrite bool_decide_false by done.
    destruct (strcmp_spec buf k be t p e) as (d & -> & Hd); try done.
    cbn [mbind outcome_bind]. rewrite Hd.
    destruct (decide (str_at buf k = str_at t p)) as [Heq|Hne2].
    + rewrite bool_decide_true by done.
      destruct (IH nodes err ltac:(simpl in Hl; lia) Hn) as (r & err' & -> & Hr).
      eexists _, _. split; [done|]. rewrite Forall2_cons, <- Hr.
      assert (node_matches t allow (str_at buf k) n) as Hm.
      { exists p. split; [done|]. by rewrite decide_False. }
      tauto.
    + rewrite bool_decide_false by done. eexists _, _. split; [done|]. split; [done|].
      rewrite Forall2_cons. intros [(p' & Hp' & Hm) _]. rewrite decide_False in Hm by done.
      congruence.
Qed.
End Path.

(** Nodes below the depth of the pattern are not looked at. *)
Lemma match_path_take t allow buf tokens nodes err :
  (length tokens <= length nodes)%nat ->
  match_path t allow buf tokens nodes err =
  match_path t allow buf tokens (take (length tokens) nodes) err.
Proof.
  revert nodes err. induction tokens as [|k tokens IH]; intros nodes err Hl; [done|].
  destruct nodes as [|n nodes]; [simpl in Hl; lia|]. simpl in Hl. cbn [length take match_path].
  destruct (_strcmp buf k _ _) as [h|]; [|done]. cbn [mbind outcome_bind].
  destruct (h =? 0).
  - destruct (_strtou64 _ _ _) as [[[v ok] er]|]; [|done]. cbn [mbind outcome_bind].
    destruct ok; [|done]. apply IH. lia.
  - destruct (node_name n) as [p|]; [|done].
    destruct (_strcmp buf k t p) as [d|]; [|done]. cbn [mbind outcome_bind].
    destruct (d =? 0); [|done]. apply IH. lia.
Qed.

Lemma dot_offsets_bound l p : Forall (fun k => k <= p + length l)%nat (dot_offsets p l).
Proof.
  revert p. induction l as [|c l IH]; intros p; [constructor|]. simpl.
  assert (Forall (fun k => k <= p + S (length l))%nat (dot_offsets (S p) l)) as H.
  { eapply Forall_impl; [apply IH|]. simpl. intros. lia. }
  destruct (c =? 46); [|done]. constructor; [lia|done].
Qed.

Lemma dot_offsets_length l p : S (length (dot_offsets p l)) = length (split_dots l).
Proof.
  revert p. induction l as [|c l IH]; intros p; [done|]. simpl.
  destruct (c =? 46); [simpl; by rewrite IH|]. rewrite (IH (S p)).
  by destruct (split_dots_cons l) as (tok & toks & ->).
Qed.

Lemma clear_dots_bytes l : Forall is_byte l -> Forall is_byte (clear_dots l).
Proof.
  intros Hl. apply Forall_map. eapply Forall_impl; [exact Hl|]. intros c Hc. simpl.
  destruct (c =? 46); [unfold is_byte; lia|done].
Qed.

Lemma match_spec q t e pat granted :
  path_named q t e -> Forall is_byte t -> Forall is_byte pat -> ~ (0 ∈ pat) ->
  (length pat < 256)%nat \/ granted = true ->
  exists r err, json_match granted (Some q) t (Some (pat ++ [0])) = Done (r, err) /\
    (r = JSON_OK <->
     (length (split_dots pat) <= JSON_MAX_NESTING)%nat /\ depth q = length (split_dots pat) /\
     Forall2 (node_matches t (allow_whitespace q)) (split_dots pat) (take (depth q) (path q))).
Proof.
  intros (Hdp & Hend & Hnames) Hbt Hbp H0 Hg. unfold json_match, _strlen. rewrite drop_0.
  rewrite strlen_from_spec by done. cbn [mbind outcome_bind]. rewrite Z.add_0_l.
  assert ((256 <=? Z.of_nat (length pat)) && negb granted = false) as ->
    by (destruct Hg as [?| ->]; [|by rewrite andb_false_r]; apply andb_false_intro1; lia).
  set (k := if Z.of_nat (length pat) <? 256 then 256%nat else _).
  rewrite Nat2Z.id in *. destruct (strlcpy_spec pat k H0 Hbp) as (B & -> & HB).
  { subst k. destruct (Z.ltb_spec (Z.of_nat (length pat)) 256); lia. }
  cbn [mbind outcome_bind]. unfold _split. rewrite drop_0.
  destruct (split_from_spec pat [] B [0%nat] JSON_MAX_NESTING H0) as (t' & r & Hs & Hr);
    [unfold JSON_MAX_NESTING; simpl; lia|]. simpl app in Hs. simpl length in Hs.
  rewrite bool_decide_false, Hs by done.
  cbn [mbind outcome_bind]. pose proof (dot_offsets_length pat 0) as Hlen.
  simpl length in Hr. destruct (decide _) as [Hfit|Hbig].
  - destruct Hr as [-> ->]. cbn [app]. simpl length. rewrite Hlen.
    destruct (decide (depth q = length (split_dots pat))) as [Hd|Hd];
      [|eexists _, _; split; [done|]; split; [done|tauto]].
    pose proof (split_strings pat [] B H0) as Hstr. simpl length in Hstr. cbn [app] in Hstr.
    rewrite match_path_take by (simpl length; lia). simpl length. rewrite Hlen, <- Hd.
    destruct (match_path_spec t e (clear_dots pat ++ 0 :: B) (length pat) (allow_whitespace q)
                Hend Hbt) with (tokens := 0%nat :: dot_offsets 0 pat)
                (nodes := take (depth q) (path q)) (err := @None json_result)
      as (r & err & Hm & Hiff).
    + rewrite lookup_app_r; unfold clear_dots; rewrite length_map; [by rewrite Nat.sub_diag|lia].
    + apply Forall_app; split; [by apply clear_dots_bytes|]. constructor; [unfold is_byte; lia|done].
    + constructor; [lia|]. apply (dot_offsets_bound pat 0).
    + rewrite length_take. simpl length. lia.
    + done.
    + eexists _, _. split; [exact Hm|]. rewrite Hiff, Hstr. split; [|tauto].
      intros H. split; [lia|]. split; [done|done].
  - subst r. eexists _, _. split; [done|]. split; [done|]. intros (? & _). lia.
Qed.

(** [json_match] returns on every pattern, whatever its length (if the copy
    of a long pattern is granted its memory), and reports JSON_OK exactly when
    the pattern, split at its dots, has at most 64 pieces, as many as the
    parser is deep, and each piece matches the name at its place: "#" any
    name that is a number, any other piece that name itself. *)
Theorem json_match_spec q t e pat granted :
  path_named q t e -> Forall is_byte t -> Forall is_byte pat -> ~ (0 ∈ pat) ->
  (length pat < 256)%nat \/ granted = true ->
  exists r err, json_match granted (Some q) t (Some (pat ++ [0])) = Done (r, err) /\
    (r = JSON_OK <->
     (length (split_dots pat) <= JSON_MAX_NESTING)%nat /\ depth q = length (split_dots pat) /\
     Forall2 (node_matches t (allow_whitespace q)) (split_dots pat) (take (depth q) (path q))).
Proof. apply match_spec. Qed.

(** A parser inside the value named 12 of the object "ab". *)
Definition sample_text : text := cstring "ab" ++ cstring "12".
Definition sample_parser : json_parser :=
  Parser 6 6 false
    ([Node (Some 0%nat) 0 0 0; Node (Some 3%nat) 12 0 0] ++ replicate 62 (Node None 0 0 0)) 2 true.

Lemma json_match_spec_witness :
  exists r err, json_match false (Some sample_parser) sample_text (Some (bytes "ab.#" ++ [0]))
                = Done (r, err) /\
    (r = JSON_OK <->
     (length (split_dots (bytes "ab.#")) <= JSON_MAX_NESTING)%nat /\
     depth sample_parser = length (split_dots (bytes "ab.#")) /\
     Forall2 (node_matches sample_text (allow_whitespace sample_parser)) (split_dots (bytes "ab.#"))
             (take (depth sample_parser) (path sample_parser))).
Proof.
  apply (json_match_spec sample_parser sample_text 5 (bytes "ab.#") false).
  - split; [simpl; lia|]. split; [reflexivity|]. repeat constructor; eexists; (split; [done|]); lia.
  - repeat constructor; unfold is_byte; simpl; lia.
  - repeat constructor; unfold is_byte; simpl; lia.
  - vm_compute. intros H. repeat (apply elem_of_cons in H as [H|H]; [lia|]). by apply elem_of_nil in H.
  - left. simpl. lia.
Defined.
