(* ===== verification/JsonComplete.v ===== *)
(** * JsonComplete: every JSON document is parsed, event by event

    [json] is the abstract syntax of the supported JSON (integers, no reals),
    [render] its compact text and [events] the sequence of callbacks a reader
    expects: with each event the value, the names on the path and the array
    indices.  The theorem says that [json_parser_parse] accepts the text of
    every document and produces exactly its events, although it decodes the
    strings in place and scans every array twice. *)

From Stdlib Require Import SpecFloat String.
From S2P Require Import Prelude JsonText JsonParser JsonPrint JsonNumbers JsonStrings JsonSafety.

(** ** Documents *)

#[warnings="-register-all"] Inductive json : Type :=
| JNull
| JBool (b : bool)
| JInt (z : Z)
| JString (s : text)
| JArray (l : list json)
| JObject (l : list (text * json)).

(** The induction principle for documents, with the hypothesis for every element
    and member. *)
Section Induction.
Variable P : json -> Prop.
Hypothesis HN : P JNull.
Hypothesis HB : forall b, P (JBool b).
Hypothesis HI : forall z, P (JInt z).
Hypothesis HS : forall s, P (JString s).
Hypothesis HA : forall l, Forall P l -> P (JArray l).
Hypothesis HO : forall l, Forall (fun m => P m.2) l -> P (JObject l).

Fixpoint json_induction (v : json) : P v :=
  match v with
  | JNull => HN
  | JBool b => HB b
  | JInt z => HI z
  | JString s => HS s
  | JArray l =>
      HA l ((fix all l : Forall P l :=
               match l with [] => Forall_nil_2 _ | x :: l' => Forall_cons_2 _ _ _ (json_induction x) (all l') end) l)
  | JObject l =>
      HO l ((fix all l : Forall (fun m : text * json => P m.2) l :=
               match l with
               | [] => Forall_nil_2 _
               | (k, x) :: l' => Forall_cons_2 _ (k, x) _ (json_induction x) (all l')
               end) l)
  end.
End Induction.

(** The characters of an integer. *)
Definition decimal (z : Z) : text := match _i64tostr z true with Done s => s | Failed _ => [] end.

(** How the strings are written is a parameter: any encoding the parser can
    read. *)
Section Documents.
Context `{Enc : StringEncoding}.

Definition quoted (s : text) : text := 34 :: printed s ++ [34].

(** The compact text of a document; [tl] drops the comma before the first
    element. *)
Fixpoint render (v : json) : text :=
  match v with
  | JNull => bytes "null"
  | JBool b => if b then bytes "true" else bytes "false"
  | JInt z => decimal z
  | JString s => quoted s
  | JArray l => 91 :: tl (flat_map (fun x => 44 :: render x) l) ++ [93]
  | JObject l => 123 :: tl (flat_map (fun '(k, x) => 44 :: quoted k ++ 58 :: render x) l) ++ [125]
  end.

(** How deep its objects are nested. *)
Fixpoint nesting (v : json) : nat :=
  match v with
  | JArray l => list_max (map nesting l)
  | JObject l => S (list_max (map (fun '(_, x) => nesting x) l))
  | _ => 0
  end.

(** Integers are 64-bit, strings are made of encodable characters, arrays have
    fewer than 2^63 elements. *)
Fixpoint supported (v : json) : Prop :=
  match v with
  | JNull | JBool _ => True
  | JInt z => - 2 ^ 63 <= z < 2 ^ 63
  | JString s => forallb encodable s = true
  | JArray l =>
      Z.of_nat (length l) < 2 ^ 63 /\
      (fix all l := match l with [] => True | x :: l' => supported x /\ all l' end) l
  | JObject l =>
      (fix all l := match l with
                    | [] => True
                    | (k, x) :: l' => forallb encodable k = true /\ supported x /\ all l'
                    end) l
  end.

(** The loops of [supported], as functions of their own. *)
Fixpoint all_supported (l : list json) : Prop :=
  match l with [] => True | x :: l' => supported x /\ all_supported l' end.
Fixpoint members_supported (l : list (text * json)) : Prop :=
  match l with
  | [] => True
  | (k, x) :: l' => forallb encodable k = true /\ supported x /\ members_supported l'
  end.
End Documents.

(** ** Events *)

(** A frame: a name on the path and the array index at that name. *)
Definition frame : Type := text * Z.

Record event : Type := Event {
  ev_reason : json_reason;
  ev_type : json_type;
  ev_value : value;
  ev_path : list frame
}.

(** The path with the array index of its last name set. *)
Definition set_index (fr : list frame) (i : Z) : list frame :=
  alter (fun f => (f.1, i)) (Nat.pred (length fr)) fr.

(** The names of the path, without indices. *)
Definition names_only (fr : list frame) : list frame := (fun f => (f.1, 0)) <$> fr.

(** The path that goes with an event: the index at the end of an array is that
    of whatever element came last, and there may be no name at the end of an
    object. *)
Definition path_at (reason : json_reason) (fr : list frame) : list frame :=
  match reason with
  | JSON_REASON_END_OBJECT => []
  | JSON_REASON_END_ARRAY => names_only fr
  | _ => fr
  end.

Definition value_event (fr : list frame) (type : json_type) (v : value) : event :=
  Event JSON_REASON_VALUE type v fr.

Fixpoint events (fr : list frame) (v : json) : list event :=
  match v with
  | JNull => [value_event fr JSON_TYPE_NULL VNone]
  | JBool b => [value_event fr JSON_TYPE_BOOLEAN (VBool (int_of_bool b))]
  | JInt z => [value_event fr JSON_TYPE_INTEGER (VInt z)]
  | JString s => [value_event fr JSON_TYPE_STRING (VString s)]
  | JArray l =>
      let n := VInt (Z.of_nat (length l)) in
      Event JSON_REASON_BEGIN_ARRAY JSON_TYPE_INTEGER n fr ::
      (fix elements i l :=
         match l with [] => [] | x :: l' => events (set_index fr i) x ++ elements (i + 1) l' end) 0 l
      ++ [Event JSON_REASON_END_ARRAY JSON_TYPE_INTEGER n (names_only fr)]
  | JObject l =>
      Event JSON_REASON_BEGIN_OBJECT JSON_TYPE_NULL VNone fr ::
      (fix members l :=
         match l with
         | [] => []
         | (k, x) :: l' =>
             Event JSON_REASON_NAME JSON_TYPE_STRING (VString k) (fr ++ [(k, 0)]) ::
             events (fr ++ [(k, 0)]) x ++ members l'
         end) l
      ++ [Event JSON_REASON_END_OBJECT JSON_TYPE_NULL VNone []]
  end.

(** The loops of [events], as functions of their own. *)
Fixpoint element_events (fr : list frame) (i : Z) (l : list json) : list event :=
  match l with
  | [] => []
  | x :: l' => events (set_index fr i) x ++ element_events fr (i + 1) l'
  end.
Fixpoint member_events (fr : list frame) (l : list (text * json)) : list event :=
  match l with
  | [] => []
  | (k, x) :: l' =>
      Event JSON_REASON_NAME JSON_TYPE_STRING (VString k) (fr ++ [(k, 0)]) ::
      events (fr ++ [(k, 0)]) x ++ member_events fr l'
  end.

Lemma events_array fr l :
  events fr (JArray l) =
    Event JSON_REASON_BEGIN_ARRAY JSON_TYPE_INTEGER (VInt (Z.of_nat (length l))) fr ::
    element_events fr 0 l ++
    [Event JSON_REASON_END_ARRAY JSON_TYPE_INTEGER (VInt (Z.of_nat (length l))) (names_only fr)].
Proof.
  cbn [events]. do 2 f_equal. generalize 0. induction l as [|x l IH]; intros i; [done|].
  cbn [element_events]. by rewrite IH.
Qed.

Lemma events_object fr l :
  events fr (JObject l) =
    Event JSON_REASON_BEGIN_OBJECT JSON_TYPE_NULL VNone fr ::
    member_events fr l ++ [Event JSON_REASON_END_OBJECT JSON_TYPE_NULL VNone []].
Proof.
  cbn [events]. do 2 f_equal. induction l as [|[k x] l IH]; [done|].
  cbn [member_events]. by rewrite IH.
Qed.

(** ** The recording callback

    It copies what the parser's pointers stand for at the time of the call. *)

Definition capture (t : text) (un : json_union) : value :=
  match un with
  | U_none => VNone
  | U_boolean b => VBool b
  | U_integer z => VInt z
  | U_real d => VReal d
  | U_string p => VString (str_at t p)
  end.

Definition node_frame (t : text) (n : json_node) : frame :=
  (match node_name n with Some p => str_at t p | None => [] end, node_index n).

Definition frames_of (q : json_parser) (t : text) : list frame :=
  node_frame t <$> take (depth q) (path q).

(** The number a name stands for, if it is written as the decimal digits of
    one. *)
Definition name_number (s : text) : option Z :=
  let z := decimal_value s in if decide (0 <= z < 2 ^ 63 /\ decimal z = s) then Some z else None.

(** The parser has stored the number of a name with it. *)
Definition numbered (t : text) (n : json_node) : Prop :=
  match node_name n with
  | Some p => match name_number (str_at t p) with Some z => node_number n = z | None => True end
  | None => True
  end.

(** What the parser promises a callback: the text is terminated and made of
    bytes, a string is in it, and (except at the end of an object) so are the
    names on the path, with their numbers.  The recorder stops the run if a call
    breaks that. *)
Definition name_in (e : nat) (n : json_node) : Prop :=
  match node_name n with Some p => (p <= e)%nat | None => False end.

Definition path_in (q : json_parser) : Prop :=
  (depth q <= length (path q))%nat /\ Forall (name_in (end_ q)) (take (depth q) (path q)).

Definition call_ok (q : json_parser) (t : text) (reason : json_reason) (un : json_union) : Prop :=
  t !! end_ q = Some 0 /\ Forall is_byte t /\
  match un with U_string p => (p <= end_ q)%nat | _ => True end /\
  match reason with
  | JSON_REASON_END_OBJECT => True
  | _ => path_in q /\ Forall (numbered t) (take (depth q) (path q))
  end.

#[export] Instance name_in_dec e n : Decision (name_in e n).
Proof. unfold name_in. destruct (node_name n); apply _. Defined.
#[export] Instance path_in_dec q : Decision (path_in q).
Proof. unfold path_in. apply _. Defined.
#[export] Instance numbered_dec t n : Decision (numbered t n).
Proof. unfold numbered. destruct (node_name n); [|apply _]. destruct (name_number _); apply _. Defined.
#[export] Instance call_ok_dec q t reason un : Decision (call_ok q t reason un).
Proof.
  unfold call_ok. repeat apply and_dec; try apply _; [destruct un|destruct reason]; apply _.
Defined.

Definition event_of (q : json_parser) (t : text) (reason : json_reason) (type : json_type)
    (un : json_union) : event :=
  Event reason type (capture t un) (path_at reason (frames_of q t)).

Definition record_event (q : json_parser) (t : text) (reason : json_reason) (type : json_type)
    (un : json_union) (st : json_result * list event) :
    outcome (json_result * (json_result * list event)) :=
  if decide (call_ok q t reason un) then
    Done (JSON_OK, (st.1, st.2 ++ [event_of q t reason type un]))
  else Failed Assertion.

(** ** Paths *)

Lemma names_only_index fr i : names_only (set_index fr i) = names_only fr.
Proof.
  unfold names_only, set_index.
  etransitivity; [apply (list_fmap_alter _ _ id); by apply Forall_true|]. by apply list_alter_id.
Qed.

Lemma set_index_set fr i j : set_index (set_index fr i) j = set_index fr j.
Proof.
  unfold set_index. by rewrite length_alter, list_alter_alter_eq.
Qed.

Lemma set_index_self fr : exists i, set_index fr i = fr.
Proof.
  destruct fr as [|f fr]; [by exists 0|]. destruct (last (f :: fr)) as [[k i]|] eqn:Hl.
  - exists i. unfold set_index. rewrite last_lookup in Hl.
    rewrite <- (list_alter_id id (f :: fr) (Nat.pred (length (f :: fr)))) at 3 by done.
    apply list_alter_ext; [|done]. intros x Hx. rewrite Hl in Hx. by simplify_eq.
  - by apply last_None in Hl.
Qed.

Lemma set_index_snoc fr k i j : set_index (fr ++ [(k, i)]) j = fr ++ [(k, j)].
Proof.
  unfold set_index. rewrite length_app, Nat.add_1_r. cbn [Nat.pred].
  rewrite alter_app_r_alt by lia. by rewrite Nat.sub_diag.
Qed.

(** A node whose name is a string that ends before [lim], with its number. *)
Definition named (t : text) (lim : nat) (n : json_node) : Prop :=
  (exists p k, node_name n = Some p /\ (p <= k < lim)%nat /\ t !! k = Some 0) /\ numbered t n.

(** The first [d] nodes of the path stand for the frames [fr]; a scanner's path
    stands for nothing, its names are not terminated. *)
Definition frames_upto (s : pstate (list event)) (d : nat) (fr : list frame) : Prop :=
  scan (prs s) = false ->
  node_frame (txt s) <$> take d (path (prs s)) = fr /\
  Forall (named (txt s) (ptr (prs s))) (take d (path (prs s))) /\
  Forall is_byte (txt s) /\ (d <= length (path (prs s)))%nat.

Definition frames_ok (s : pstate (list event)) (fr : list frame) : Prop :=
  frames_upto s (depth (prs s)) fr.

Lemma until_nul_agree l l' k :
  l !! k = Some 0 -> (forall i, (i <= k)%nat -> l' !! i = l !! i) -> until_nul l' = until_nul l.
Proof.
  revert l l'. induction k as [|k IH]; intros l l' Hk Ha.
  - pose proof (Ha 0%nat ltac:(lia)) as H0. destruct l as [|c l], l' as [|c' l']; try done.
    simpl in *. simplify_eq. by simplify_eq.
  - pose proof (Ha 0%nat ltac:(lia)) as H0. destruct l as [|c l], l' as [|c' l']; try done.
    simpl in H0. simplify_eq. simpl. destruct (c =? 0); [done|]. f_equal. apply (IH l l' Hk).
    intros i Hi. apply (Ha (S i)). lia.
Qed.

Lemma str_at_agree t t' lim p k :
  (p <= k < lim)%nat -> t !! k = Some 0 -> (forall i, (i < lim)%nat -> t' !! i = t !! i) ->
  str_at t' p = str_at t p.
Proof.
  intros Hk H0 Ha. unfold str_at. apply (until_nul_agree _ _ (k - p)).
  - rewrite lookup_drop. by replace (p + (k - p))%nat with k by lia.
  - intros i Hi. rewrite !lookup_drop. apply Ha. lia.
Qed.

Lemma named_agree t t' lim lim' n :
  named t lim n -> (lim <= lim')%nat -> (forall i, (i < lim)%nat -> t' !! i = t !! i) ->
  named t' lim' n /\ node_frame t' n = node_frame t n.
Proof.
  intros [(p & k & Hn & Hk & H0) Hnum] Hl Ha.
  assert (str_at t' p = str_at t p) as Hs by (by apply (str_at_agree t t' lim p k)). split; [split|].
  - exists p, k. split; [done|]. split; [lia|]. rewrite Ha by lia. done.
  - unfold numbered in *. rewrite Hn in *. by rewrite Hs.
  - unfold node_frame. rewrite Hn. by f_equal.
Qed.

(** Frames survive what the parser does further on in the text. *)
Lemma frames_after s s' d fr :
  frames_upto s d fr -> after s s' -> take d (path (prs s')) = take d (path (prs s)) ->
  frames_upto s' d fr.
Proof.
  intros Hf Ha Hp Hs. rewrite (after_scan _ _ Ha) in Hs. destruct (Hf Hs) as (Hm & Hn & Hb & Hd).
  assert (d <= length (path (prs s')))%nat as Hd'.
  { apply (f_equal length) in Hp. rewrite !length_take in Hp. lia. }
  rewrite Hp. assert (Forall (fun n => named (txt s') (ptr (prs s')) n /\
    node_frame (txt s') n = node_frame (txt s) n) (take d (path (prs s)))) as Hall.
  { eapply Forall_impl; [exact Hn|]. intros n Hnn.
    apply (named_agree _ _ _ _ _ Hnn (after_ptr _ _ Ha) (after_low _ _ Ha)). }
  split; [|split; [eapply Forall_impl; [exact Hall|]; by intros ? []|]].
  2:{ split; [by apply (after_bytes _ _ Ha)|done]. }
  rewrite <- Hm. apply Forall_fmap_ext_1. eapply Forall_impl; [exact Hall|]. by intros ? [].
Qed.

(** ** Running the operations on the text they expect *)

(** The text at the pointer is [l], before the end, and then [tail]. *)
Definition reads (s : pstate (list event)) (l tail : text) : Prop :=
  drop (ptr (prs s)) (txt s) = l ++ tail /\ (ptr (prs s) + length l <= end_ (prs s))%nat.

Definition no_error : pstate (list event) -> Prop := fun _ => False.

Lemma wp_and {D A} (m : PM D A) Q Q' (E E' : pstate D -> Prop) s :
  wp m Q E s -> wp m Q' E' s -> wp m (fun a s' => Q a s' /\ Q' a s') (fun s' => E s' /\ E' s') s.
Proof. unfold wp. destruct (m s) as [[[r|a] s']|]; auto. Qed.

(** A run that is safe and does not fail does both. *)
Lemma wp_safe {D A} (m : PM D A) Q Q' (E : pstate D -> Prop) s :
  wp m Q E s -> wp m Q' (fun _ => False) s ->
  wp m (fun a s' => Q a s' /\ Q' a s') (fun _ => False) s.
Proof. intros H H'. eapply wp_mono; [by apply (wp_and _ _ _ _ _ _ H H')|done|]. by intros ? []. Qed.

Section Runs.
Context `{Enc : StringEncoding}.
Implicit Types s : pstate (list event).

Lemma reads_after s s' a b tail :
  reads s (a ++ b) tail -> after s s' -> ptr (prs s') = (ptr (prs s) + length a)%nat ->
  reads s' b tail.
Proof.
  intros [Hd Hl] Ha Hp. rewrite length_app in Hl. split; [|rewrite Hp, (after_end _ _ Ha); lia].
  transitivity (drop (ptr (prs s')) (txt s)).
  - apply list_eq. intros i. rewrite !lookup_drop. apply (after_high _ _ Ha). lia.
  - rewrite Hp, <- drop_drop, Hd, <- app_assoc. by rewrite drop_app_length.
Qed.

Lemma reads_char s c l tail : reads s (c :: l) tail -> txt s !! ptr (prs s) = Some c.
Proof.
  intros [Hd _]. rewrite <- (Nat.add_0_r (ptr (prs s))), <- lookup_drop, Hd. done.
Qed.

Definition advance (s : pstate (list event)) (n : nat) : pstate (list event) :=
  set_prs s (with_ptr (prs s) (ptr (prs s) + n)).

Lemma advance_after s l tail n : wf s -> reads s l tail -> (n <= length l)%nat -> after s (advance s n).
Proof. intros Hwf [_ Hl] Hn. apply after_move; [done|lia]. Qed.

Lemma token_runs {B} (k : Z -> PM (list event) B) Q s c l tail :
  wf s -> reads s (c :: l) tail -> _isspace c = false ->
  wp (k c) Q no_error (advance s 1) ->
  wp (skip_whitespace ≫= fun _ => next_char ≫= k) Q no_error s.
Proof.
  intros (W1 & W2 & W3) Hr Hc Hk. pose proof Hr as [Hd Hl]. simpl in Hl.
  pose proof (reads_char _ _ _ _ Hr) as H0.
  unfold wp, skip_whitespace. rewrite bind_assoc, bind_get, Hd. cbn [app skip_ws].
  rewrite decide_False, Hc by lia.
  rewrite bind_assoc, (bind_lift _ _ _ _ eq_refl), bind_assoc, bind_put.
  unfold check. rewrite decide_True by done. rewrite bind_eq. unfold mret at 1, PM_ret.
  unfold next_char. rewrite bind_assoc, bind_get. cbn [prs set_prs ptr with_ptr end_ txt].
  rewrite decide_False by lia. unfold rd. rewrite H0.
  rewrite bind_assoc, (bind_lift _ _ _ _ eq_refl), bind_assoc, bind_put.
  unfold wp, advance in Hk. rewrite Nat.add_1_r in Hk. exact Hk.
Qed.

(** The state after a callback. *)
Definition noted (s : pstate (list event)) (reason : json_reason) (type : json_type)
    (un : json_union) : pstate (list event) :=
  if scan (prs s) then s
  else PState (txt s) (prs s) (conv_err s) (mallocs s) (live s)
         (user s ++ [event_of (prs s) (txt s) reason type un]).

Lemma frames_call_ok s fr reason un :
  wf s -> frames_ok s fr ->
  match un with U_string p => (p <= end_ (prs s))%nat | _ => True end ->
  scan (prs s) = false -> call_ok (prs s) (txt s) reason un.
Proof.
  intros (W1 & W2 & W3) Hf Hun Hs. destruct (Hf Hs) as (_ & Hn & Hb & Hd).
  split; [done|]. split; [done|]. split; [done|].
  assert (Forall (numbered (txt s)) (take (depth (prs s)) (path (prs s)))) as Hnum
    by (eapply Forall_impl; [exact Hn|]; by intros n []).
  destruct reason; try done; (split; [|done]; split; [done|]; eapply Forall_impl; [exact Hn|];
    intros n [(p & k & Hp & Hk & _) _]; unfold name_in; rewrite Hp; lia).
Qed.

Lemma callback_runs reason type un Q s :
  (scan (prs s) = false -> call_ok (prs s) (txt s) reason un) ->
  Q tt (noted s reason type un) ->
  wp (_invoke_callback record_event reason type un) Q no_error s.
Proof.
  intros Hok HQ. unfold wp, _invoke_callback. rewrite bind_get. unfold noted in HQ.
  destruct (scan (prs s)); [done|]. unfold record_event. rewrite decide_True by (by apply Hok).
  rewrite (bind_lift _ _ _ _ eq_refl), bind_put. unfold check. by rewrite decide_True.
Qed.

Lemma noted_after s reason type un : wf s -> after s (noted s reason type un).
Proof.
  intros Hwf. unfold noted. destruct (scan (prs s)) eqn:Hs; [by apply after_refl|].
  split; simpl; try done. congruence.
Qed.

Lemma noted_prs s reason type un : prs (noted s reason type un) = prs s.
Proof. unfold noted. by destruct (scan (prs s)). Qed.

Lemma noted_txt s reason type un : txt (noted s reason type un) = txt s.
Proof. unfold noted. by destruct (scan (prs s)). Qed.

(** What a quiet operation over [n] bytes leaves: the path, the depth and the
    events. *)
Definition quiet (s s' : pstate (list event)) (n : nat) : Prop :=
  after s s' /\ ptr (prs s') = (ptr (prs s) + n)%nat /\ path (prs s') = path (prs s) /\
  depth (prs s') = depth (prs s) /\ user s' = user s.

Lemma get_string_runs s str tail :
  wf s -> forallb encodable str = true -> reads s (printed str ++ [34]) tail ->
  wp _get_string (fun a s' => a = ptr (prs s) /\ quiet s s' (length (printed str) + 1) /\
       (scan (prs s) = false -> str_at (txt s') a = str /\
          exists k, (a <= k < ptr (prs s'))%nat /\ txt s' !! k = Some 0)) no_error s.
Proof.
  intros Hwf Hstr [Hd Hl]. pose proof Hwf as (W1 & W2 & W3).
  rewrite length_app in Hl. simpl in Hl. rewrite <- app_assoc in Hd. cbn [app] in Hd.
  set (A := take (ptr (prs s)) (txt s)).
  assert (length A = ptr (prs s)) as HA.
  { unfold A. rewrite length_take. apply lookup_lt_Some in W2. lia. }
  assert (txt s = A ++ printed str ++ 34 :: tail) as Ht
    by (unfold A; by rewrite <- Hd, take_drop).
  assert (wp _get_string (fun a s' =>
    ptr (prs s') = (ptr (prs s) + (length (printed str) + 1))%nat /\
    path (prs s') = path (prs s) /\ user s' = user s /\
    (scan (prs s) = false -> str_at (txt s') a = str /\
       exists k, (a <= k < ptr (prs s'))%nat /\ txt s' !! k = Some 0)) no_error s) as Hrun.
  { destruct (scan (prs s)) eqn:Hs.
    - unfold wp, _get_string. rewrite bind_get, <- HA.
      destruct (find_quote_printed str (S (length (txt s))) A tail (end_ (prs s)) false Hstr)
        as (b & Hq & _); [rewrite Ht, !length_app; simpl; lia|lia|].
      rewrite <- Ht in Hq. rewrite (bind_lift _ _ _ _ Hq), bind_put, Hs.
      simpl. split; [lia|done].
    - destruct (get_string_printed s A str tail) as (g & Hg & Hr); [|done|].
      { split; [done|]. split; [done|]. split; [lia|done]. }
      unfold wp. rewrite Hr. simpl. split; [lia|]. split; [done|]. split; [done|]. intros _.
      rewrite str_at_app by (by apply encodable_nonzero). split; [done|].
      exists (length A + length str)%nat. split.
      + pose proof (printed_length str Hstr). lia.
      + rewrite app_assoc, <- length_app. by apply list_lookup_middle. }
  eapply wp_mono; [apply (wp_safe _ _ _ _ _ (get_string_wp s Hwf) Hrun)| |done].
  intros a s' [(-> & Ha & Hdp) (Hp & Hpa & Hu & Hnm)].
  split; [done|]. split; [split; [done|done]|done].
Qed.

Lemma number_span_runs l c rest p e :
  Forall (fun d => is_dec d \/ d = 45) l -> _is_number_char c = false ->
  (p + length l <= e)%nat ->
  number_span (l ++ c :: rest) p e true = Done ((p + length l)%nat, true).
Proof.
  intros Hl Hc. revert p. induction Hl as [|d l Hd Hl IH]; intros p Hp.
  - simpl in Hp. cbn [app number_span length]. rewrite Nat.add_0_r.
    destruct (decide (p = e)); [done|]. by rewrite Hc.
  - simpl in Hp. cbn [app number_span length]. rewrite decide_False by lia.
    assert (_is_number_char d = true /\ _is_decimal_or_exponent d = false) as [-> ->].
    { unfold _is_number_char, _is_decimal_or_exponent, _isdigit, is_dec in *. lia. }
    rewrite IH by lia. do 2 f_equal. lia.
Qed.

Lemma get_number_runs s z c tail :
  wf s -> - 2 ^ 63 <= z < 2 ^ 63 -> 0 <= c < 256 -> _is_number_char c = false ->
  reads s (decimal z) (c :: tail) ->
  wp _get_number (fun r s' => r = (JSON_TYPE_INTEGER, U_integer z) /\
       quiet s s' (length (decimal z))) no_error s.
Proof.
  intros Hwf Hz Hc Hnc [Hd Hl]. pose proof Hwf as (W1 & W2 & W3).
  set (A := take (ptr (prs s)) (txt s)).
  assert (length A = ptr (prs s)) as HA.
  { unfold A. rewrite length_take. apply lookup_lt_Some in W2. lia. }
  assert (~ is_dec c) as Hdc.
  { unfold _is_number_char, _isdigit, is_dec in *. lia. }
  destruct (strtol_printed z A c tail (allow_whitespace (prs s)) Hz Hc Hdc)
    as (ds & Hs & Hne & Hds & Hr).
  unfold decimal in *. rewrite Hs in *. set (l := minus (z <? 0) ++ ds) in *.
  assert (txt s = A ++ l ++ c :: tail) as Ht by (unfold A; by rewrite <- Hd, take_drop).
  rewrite <- Ht, HA in Hr.
  assert (0 < length l)%nat by (unfold l; rewrite length_app; destruct ds; simpl; [done|lia]).
  assert (Forall (fun d => is_dec d \/ d = 45) l) as Hcs.
  { apply Forall_app. split; [destruct (z <? 0); repeat constructor; by right|].
    eapply Forall_impl; [exact Hds|]. intros; by left. }
  pose proof (number_span_runs l c tail (ptr (prs s)) (end_ (prs s)) Hcs Hnc Hl) as Hsp.
  assert (wp _get_number (fun r s' => r = (JSON_TYPE_INTEGER, U_integer z) /\
    ptr (prs s') = (ptr (prs s) + length l)%nat /\ path (prs s') = path (prs s) /\
    user s' = user s) no_error s) as Hrun.
  { unfold wp, _get_number. rewrite bind_get, Hd, (bind_lift _ _ _ _ Hsp), bind_put, Hr.
    cbn [mbind outcome_bind]. rewrite (bind_lift _ _ _ _ eq_refl), bind_put.
    cbn [conv_end conv_value].
    rewrite bool_decide_false by (intros H'; by apply H').
    rewrite bool_decide_false by lia. done. }
  eapply wp_mono; [apply (wp_safe _ _ _ _ _ (get_number_wp s Hwf) Hrun)| |done].
  intros [ty un] s' [(Ha & Hdp & _ & _) (-> & Hp & Hpa & Hu)].
  split; [done|]. by split; [|split; [|split; [|split]]].
Qed.

Lemma memcmp_same t p l n :
  (n <= length l)%nat -> (forall i, (i < n)%nat -> t !! (p + i)%nat = l !! i) ->
  forall k, (k <= n)%nat -> _memcmp t (p + (n - k)) l (n - k) k = Done 0.
Proof.
  intros Hn Ha k. induction k as [|k IH]; intros Hk; [done|]. cbn [_memcmp].
  destruct (lookup_lt_is_Some_2 l (n - S k) ltac:(lia)) as [c Hc].
  unfold rd. rewrite Ha, Hc by lia. cbn [mbind outcome_bind].
  rewrite Z.ltb_irrefl. replace (c >? c) with false by lia.
  replace (S (p + (n - S k))) with (p + (n - k))%nat by lia.
  replace (S (n - S k)) with (n - k)%nat by lia. apply IH. lia.
Qed.

Lemma literal_runs s str type un fr tail Q :
  wf s -> frames_ok s fr -> match un with U_string _ => False | _ => True end ->
  reads s str tail -> Q tt (noted (advance s (length str)) JSON_REASON_VALUE type un) ->
  wp (literal record_event str type un) Q no_error s.
Proof.
  intros Hwf Hfr Hun [Hd Hl] HQ. unfold literal. apply wp_bind. unfold wp at 1, _expect.
  rewrite bind_get, (proj2 (Z.leb_le _ _)) by lia.
  assert (_memcmp (txt s) (ptr (prs s)) str 0 (length str) = Done 0) as Hm.
  { pose proof (memcmp_same (txt s) (ptr (prs s)) str (length str) ltac:(lia)) as H.
    specialize (H ltac:(intros i Hi; rewrite <- lookup_drop, Hd; by apply lookup_app_l)
                  (length str) ltac:(lia)).
    by rewrite Nat.sub_diag, Nat.add_0_r in H. }
  rewrite (bind_lift _ _ _ _ Hm). change (0 =? 0) with true. cbn iota. rewrite bind_put.
  apply callback_runs; [|done]. pose proof (after_move s (ptr (prs s) + length str) Hwf ltac:(lia)) as Ha.
  apply (frames_call_ok _ fr); [apply (after_wf _ _ Ha)|by apply (frames_after s)|by destruct un].
Qed.

(** ** The path during a run *)

(** Setting the index of the last node. *)
Lemma frames_bump s d fr i n :
  frames_upto s (S d) fr -> path (prs s) !! d = Some n ->
  frames_upto (set_prs s (with_path (prs s) (<[d := bump_index i n]> (path (prs s))))) (S d)
              (set_index fr i).
Proof.
  intros Hf Hn Hs. destruct (Hf Hs) as (Hm & Hall & Hb & Hd). simpl.
  assert (<[d := bump_index i n]> (path (prs s)) = alter (bump_index i) d (path (prs s))) as ->.
  { rewrite list_insert_alter. apply list_alter_ext; [|done]. intros x Hx. by simplify_eq. }
  rewrite take_alter_lt by lia. split.
  - etransitivity; [apply (list_fmap_alter _ _ (fun f : frame => (f.1, i))); by apply Forall_true|].
    rewrite Hm. unfold set_index. f_equal. rewrite <- Hm, length_fmap, length_take.
    apply lookup_lt_Some in Hn. lia.
  - split; [|by rewrite length_alter].
    apply Forall_alter; [done|]. intros x _ [(p & k & Hx) Hnum]. split; [by exists p, k|done].
Qed.

(** Before an element: its index is stored and the character put back. *)
Lemma bump_runs {B} s fr i (k : unit -> PM (list event) B) Q :
  wf s -> (1 <= depth (prs s) <= JSON_MAX_NESTING)%nat -> frames_ok s fr ->
  (forall l, let s' := set_prs s (with_path (prs s) l) in
     after s s' -> frames_ok s' (set_index fr i) -> wp (k tt) Q no_error s') ->
  wp (update_node (bump_index i) ≫= fun _ => unget ≫= k) Q no_error (advance s 1).
Proof.
  intros Hwf Hd Hf HQ. pose proof Hwf as (W1 & W2 & W3). unfold wp, update_node.
  rewrite bind_assoc, bind_get. cbn [advance prs set_prs depth with_ptr path].
  unfold frames_ok in Hf. destruct (depth (prs s)) as [|d] eqn:Hds; [lia|].
  destruct (lookup_lt_is_Some_2 (path (prs s)) d ltac:(lia)) as [n Hn]. rewrite Hn.
  rewrite bind_put. unfold unget. rewrite bind_assoc, bind_get, bind_put.
  cbn [advance prs set_prs depth with_ptr path with_path ptr end_ scan allow_whitespace
       txt conv_err mallocs live user].
  rewrite Nat.add_1_r. cbn [Nat.pred].
  apply (HQ (<[d := bump_index i n]> (path (prs s)))).
  - apply after_path; [done|]. by rewrite length_insert.
  - unfold frames_ok. cbn [prs set_prs depth with_path]. rewrite Hds. by apply frames_bump.
Qed.

(** Setting the size of the last node. *)
Lemma size_runs s fr n Q :
  wf s -> (1 <= depth (prs s) <= JSON_MAX_NESTING)%nat -> frames_ok s fr ->
  (forall l, let s' := set_prs s (with_path (prs s) l) in after s s' -> frames_ok s' fr -> Q tt s') ->
  wp (update_node (set_size n)) Q no_error s.
Proof.
  intros Hwf Hd Hf HQ. pose proof Hwf as (W1 & W2 & W3). unfold wp, update_node. rewrite bind_get.
  unfold frames_ok in Hf. destruct (depth (prs s)) as [|d] eqn:Hds; [lia|].
  destruct (lookup_lt_is_Some_2 (path (prs s)) d ltac:(lia)) as [x Hx]. rewrite Hx. unfold put.
  apply HQ; [apply after_path; [done|by rewrite length_insert]|].
  unfold frames_ok. simpl. rewrite Hds. intros Hs. destruct (Hf Hs) as (Hm & Hall & Hb & Hdl). simpl.
  assert (<[d := set_size n x]> (path (prs s)) = alter (set_size n) d (path (prs s))) as ->.
  { rewrite list_insert_alter. apply list_alter_ext; [|done]. intros y Hy. by simplify_eq. }
  rewrite take_alter_lt by lia. split.
  - rewrite <- Hm. etransitivity; [apply (list_fmap_alter _ _ id); by apply Forall_true|].
    by apply list_alter_id.
  - split; [|by rewrite length_alter].
    apply Forall_alter; [done|]. intros y _ [(p & k & Hy) Hnum]. split; [by exists p, k|done].
Qed.

(** A new name below the frames [fr]. *)
Lemma frames_name s d fr a str num :
  frames_upto s d fr -> (d < length (path (prs s)))%nat ->
  (scan (prs s) = false -> str_at (txt s) a = str /\
     exists k, (a <= k < ptr (prs s))%nat /\ txt s !! k = Some 0) ->
  numbered (txt s) (Node (Some a) num 0 0) ->
  frames_upto (set_prs s (with_path (prs s) (<[d := Node (Some a) num 0 0]> (path (prs s))))) (S d)
              (fr ++ [(str, 0)]).
Proof.
  intros Hf Hd Hstr Hnum Hs. simpl in Hs. destruct (Hf Hs) as (Hm & Hall & Hb & _).
  destruct (Hstr Hs) as [Ha (k & Hk & H0)]. simpl.
  rewrite (take_S_r _ _ (Node (Some a) num 0 0)) by (by apply list_lookup_insert_eq).
  rewrite take_insert_ge by lia. rewrite fmap_app. split.
  - f_equal; [done|]. simpl. unfold node_frame. simpl. by rewrite Ha.
  - split; [|split; [done|rewrite length_insert; lia]].
    apply Forall_app. split; [done|]. apply Forall_singleton. split; [by exists a, k|done].
Qed.

(** A name that is a number is converted to it. *)
Lemma strtou64_number t a k z allow :
  t !! k = Some 0 -> (a <= k)%nat -> name_number (str_at t a) = Some z ->
  _strtou64 t (Some a) allow = Done (z, true, None).
Proof.
  unfold name_number. intros Hk Ha H. destruct (decide _) as [[Hz Hd]|]; [|done]. injection H as Hz'.
  rewrite Hz' in Hz, Hd.
  assert (exists rest, drop a t = str_at t a ++ 0 :: rest) as [rest Hr].
  { assert ((drop a t) !! (k - a)%nat = Some 0) as H0 by (rewrite lookup_drop; by replace (a + (k - a))%nat with k by lia).
    unfold str_at. revert H0. generalize (drop a t), (k - a)%nat. intros l n. revert n.
    induction l as [|c l IH]; intros n Hn; [done|]. simpl. destruct (Z.eqb_spec c 0) as [->|]; [by eexists|].
    destruct n as [|n]; [simpl in Hn; congruence|]. destruct (IH n Hn) as [rest Hrest]. exists rest. simpl. by f_equal. }
  assert (t = take a t ++ str_at t a ++ 0 :: rest) as Ht by (by rewrite <- Hr, take_drop).
  assert (length (take a t) = a) as Hl by (rewrite length_take; apply lookup_lt_Some in Hk; lia).
  destruct (strtol_printed z (take a t) 0 rest allow) as (ds & Hs & _ & _ & Hc); [lia|lia|unfold is_dec; lia|].
  unfold decimal in Hd. rewrite Hs in Hd. rewrite Hd, Hl, <- Ht in Hc.
  unfold _strtou64, _strtoul. rewrite Hc. cbn [mbind outcome_bind conv_value conv_end conv_error].
  rewrite u64_small by lia.
  assert (rd t (a + length (str_at t a)) = Done 0) as ->.
  { unfold rd. rewrite <- lookup_drop, Hr. by rewrite list_lookup_middle. }
  done.
Qed.

Lemma insert_node_runs s d fr a str Q :
  wf s -> depth (prs s) = S d -> (S d <= JSON_MAX_NESTING)%nat -> (a <= end_ (prs s))%nat ->
  frames_upto s d fr ->
  (scan (prs s) = false -> str_at (txt s) a = str /\
     exists k, (a <= k < ptr (prs s))%nat /\ txt s !! k = Some 0) ->
  (forall s', after s s' -> ptr (prs s') = ptr (prs s) -> depth (prs s') = S d ->
     user s' = user s -> txt s' = txt s -> frames_ok s' (fr ++ [(str, 0)]) -> Q tt s') ->
  wp (insert_node a) Q no_error s.
Proof.
  intros Hwf Hd Hle Ha Hf Hstr HQ. pose proof Hwf as (W1 & W2 & W3). unfold wp, insert_node.
  rewrite bind_get.
  destruct (strtou64_total _ _ W2 a (allow_whitespace (prs s)) Ha) as (v & ok & err & Hs).
  rewrite (bind_lift _ _ _ _ Hs), bind_put. unfold update_node. rewrite bind_get.
  cbn [prs set_conv]. rewrite Hd.
  destruct (lookup_lt_is_Some_2 (path (prs s)) d ltac:(lia)) as [n Hn]. rewrite Hn. unfold put.
  apply HQ; try done.
  - split; simpl; try done. split; simpl; [done|]. split; [done|]. by rewrite length_insert.
  - unfold frames_ok. simpl. rewrite Hd.
    intros Hsc. refine (frames_name (set_conv s err) d fr a str _ Hf ltac:(simpl; lia) Hstr _ Hsc).
    unfold numbered. cbn [node_name node_number txt set_conv].
    destruct (name_number _) as [z|] eqn:Hz; [|done]. destruct (Hstr Hsc) as (_ & k & Hk & H0).
    rewrite (strtou64_number _ _ k z _ H0 (proj1 Hk) Hz) in Hs. by injection Hs as <- <- <-.
Qed.

(** A scan ahead that counts [n] elements. *)
Lemma scan_ahead_runs ja_malloc array s n Q :
  (forall k size, ja_malloc k size = true) ->
  (forall s1, prs s1 = with_scan (prs s) true -> txt s1 = txt s ->
     wp array (fun m s2 => m = n /\ after s1 s2) no_error s1) ->
  (forall s', prs s' = prs s -> txt s' = txt s -> user s' = user s -> live s' = live s -> Q n s') ->
  wp (scan_ahead ja_malloc array) Q no_error s.
Proof.
  intros Hm Harr HQ. unfold wp, scan_ahead, _malloc. rewrite bind_assoc, bind_get.
  rewrite bind_assoc, bind_put, Hm, (bind_eq (mret true)). unfold mret, PM_ret. cbn iota.
  set (s1 := PState _ _ _ _ _ _). rewrite bind_eq. unfold run_scanner.
  specialize (Harr (set_prs s1 (with_scan (prs s1) true)) eq_refl eq_refl). unfold wp in Harr.
  destruct (array _) as [[[r|m] s2]|]; [done| |done]. destruct Harr as [-> Ha].
  unfold _free. rewrite bind_eq, bind_get. cbn [put].
  destruct (after_pure _ _ Ha eq_refl) as [Ht Hu]. pose proof (after_live _ _ Ha) as Hl.
  simpl in Ht, Hu, Hl. apply HQ; simpl; try done. lia.
Qed.
End Runs.

(** ** Values, elements and members *)

Section Values.
Context `{Enc : StringEncoding}.

Definition more (l : list json) : text := flat_map (fun x => 44 :: render x) l.
Definition more_members (l : list (text * json)) : text :=
  flat_map (fun '(k, x) => 44 :: quoted k ++ 58 :: render x) l.

(** A character that ends a number. *)
Definition stops (c : Z) : Prop := 0 <= c < 256 /\ _is_number_char c = false.

Lemma more_stops l c rest : stops c -> exists c' rest', more l ++ c :: rest = c' :: rest' /\ stops c'.
Proof. intros Hc. destruct l as [|x l]; simpl; eexists _, _; (split; [done|]); [done|]. by split. Qed.

Lemma more_members_stops l c rest :
  stops c -> exists c' rest', more_members l ++ c :: rest = c' :: rest' /\ stops c'.
Proof.
  intros Hc. destruct l as [|[k x] l]; simpl; eexists _, _; (split; [done|]); [done|]. by split.
Qed.

Lemma more_members_length k x l :
  (length (tl (more_members ((k, x) :: l))) =
   length (printed k) + 3 + length (render x) + length (more_members l))%nat.
Proof.
  change (tl (more_members ((k, x) :: l)))
    with ((quoted k ++ 58 :: render x) ++ more_members l).
  unfold quoted. repeat (rewrite length_app || cbn [length app]). lia.
Qed.

Lemma decimal_form z :
  - 2 ^ 63 <= z < 2 ^ 63 -> exists d l, decimal z = d :: l /\ (is_dec d \/ d = 45).
Proof.
  intros Hz. destruct (i64tostr_spec z Hz) as (ds & Hs & Hne & Hds & _). unfold decimal. rewrite Hs.
  destruct (z <? 0); [eexists _, _; split; [done|]; by right|].
  destruct ds as [|d ds]; [done|]. apply Forall_cons in Hds as [Hd _].
  eexists _, _. split; [done|]. by left.
Qed.

Lemma all_supported_Forall l : all_supported l <-> Forall supported l.
Proof. induction l as [|x l IH]; [by split|]. rewrite Forall_cons, <- IH. done. Qed.

Lemma members_supported_Forall l :
  members_supported l <-> Forall (fun m => forallb encodable m.1 = true /\ supported m.2) l.
Proof.
  induction l as [|[k x] l IH]; [by split|]. rewrite Forall_cons, <- IH. simpl. tauto.
Qed.

(** What holds of the printable characters and of the encoded ones holds of the
    whole text. *)
Section Characters.
Variable P : Z -> Prop.
Hypothesis Pprint : forall c, 32 <= c < 127 -> P c.
Hypothesis Pencode : forall c, encodable c = true -> Forall P (encode c).

Lemma decimal_chars z : - 2 ^ 63 <= z < 2 ^ 63 -> Forall P (decimal z).
Proof.
  intros Hz. destruct (i64tostr_spec z Hz) as (ds & Hs & _ & Hds & _). unfold decimal. rewrite Hs.
  assert (Forall P ds) as Hb
    by (eapply Forall_impl; [exact Hds|]; unfold is_dec; intros; apply Pprint; lia).
  destruct (z <? 0); [|done]. constructor; [apply Pprint; lia|done].
Qed.

Lemma quoted_chars k : forallb encodable k = true -> Forall P (quoted k).
Proof.
  intros Hk. unfold quoted. constructor; [apply Pprint; lia|]. apply Forall_app.
  split; [|constructor; [apply Pprint; lia|constructor]].
  unfold printed. apply forallb_Forall in Hk. induction Hk as [|c k Hc _ IH]; [constructor|].
  cbn [flat_map]. apply Forall_app. split; [by apply Pencode|done].
Qed.

Lemma commas_chars {A} (f : A -> text) l :
  Forall (fun x => Forall P (f x)) l -> Forall P (tl (flat_map (fun x => 44 :: f x) l)).
Proof.
  intros Hl. assert (Forall P (flat_map (fun x => 44 :: f x) l)) as Hm.
  { induction Hl as [|x l Hx _ IH]; [constructor|]. simpl. constructor; [apply Pprint; lia|].
    apply Forall_app. by split. }
  destruct (flat_map _ l); [done|]. by apply Forall_cons in Hm as [_ ?].
Qed.

Lemma bracket_chars b b' l :
  32 <= b < 127 -> 32 <= b' < 127 -> Forall P l -> Forall P (b :: l ++ [b']).
Proof.
  intros. constructor; [by apply Pprint|]. apply Forall_app. split; [done|].
  constructor; [by apply Pprint|constructor].
Qed.

Lemma render_chars v : supported v -> Forall P (render v).
Proof.
  induction v as [|b|z|s|l IH|l IH] using json_induction; intros Hs.
  - change (render JNull) with [110; 117; 108; 108]. repeat (constructor; [apply Pprint; lia|]). constructor.
  - destruct b; [change (render _) with [116; 114; 117; 101]|change (render _) with [102; 97; 108; 115; 101]];
      repeat (constructor; [apply Pprint; lia|]); constructor.
  - by apply decimal_chars.
  - by apply quoted_chars.
  - destruct Hs as [_ Hs]. apply all_supported_Forall in Hs. cbn [render].
    apply bracket_chars; [lia..|]. apply (commas_chars render).
    eapply Forall_impl; [apply Forall_and; split; [exact IH|exact Hs]|]. by intros x [Hx ?]; apply Hx.
  - apply members_supported_Forall in Hs. cbn [render].
    apply bracket_chars; [lia..|].
    assert (forall l, flat_map (fun '(k, x) => 44 :: quoted k ++ 58 :: render x) l =
      flat_map (fun m : text * json => 44 :: quoted m.1 ++ 58 :: render m.2) l) as ->.
    { intros l'. apply flat_map_ext. by intros []. }
    apply (commas_chars (fun m : text * json => quoted m.1 ++ 58 :: render m.2)).
    eapply Forall_impl; [apply Forall_and; split; [exact IH|exact Hs]|].
    intros [k x] [Hx [Hk ?]]. apply Forall_app. split; [by apply quoted_chars|].
    constructor; [apply Pprint; lia|by apply Hx].
Qed.
End Characters.

Lemma render_bytes v : supported v -> Forall is_byte (render v).
Proof. apply render_chars; [unfold is_byte; lia|apply encode_bytes]. Qed.

Lemma render_first v :
  supported v -> exists c l, render v = c :: l /\ c ≠ 44 /\ c ≠ 93 /\ _isspace c = false.
Proof.
  destruct v as [|b|z|str|l|l]; intros Hs; try (eexists _, _; split; [done|]; done).
  - destruct b; eexists _, _; split; done.
  - cbn [render]. destruct (decimal_form z Hs) as (d & l & -> & Hd). eexists _, _. split; [done|].
    unfold is_dec, _isspace in *. split; [lia|]. split; lia.
Qed.

(** What a part of the run over [n] bytes leaves: the same depth, the events
    [evs] added, and the path with perhaps another last index. *)
Definition emits (s s' : pstate (list event)) (evs : list event) : Prop :=
  user s' = if scan (prs s) then user s else user s ++ evs.

Definition finished (s s' : pstate (list event)) (n : nat) (evs : list event) (fr : list frame) :
    Prop :=
  after s s' /\ ptr (prs s') = (ptr (prs s) + n)%nat /\ depth (prs s') = depth (prs s) /\
  emits s s' evs /\ exists j, frames_ok s' (set_index fr j).

Lemma emits_trans s1 s2 s3 e1 e2 :
  after s1 s2 -> emits s1 s2 e1 -> emits s2 s3 e2 -> emits s1 s3 (e1 ++ e2).
Proof.
  intros Ha H1 H2. unfold emits in *. rewrite (after_scan _ _ Ha) in H2. rewrite H2, H1.
  destruct (scan (prs s1)); [done|]. by rewrite app_assoc.
Qed.

Lemma emits_same s s' evs : user s' = user s -> evs = [] -> emits s s' evs.
Proof. intros H ->. unfold emits. rewrite app_nil_r. by destruct (scan (prs s)). Qed.

Lemma noted_emits s reason type un fr :
  frames_ok s fr ->
  emits s (noted s reason type un)
    [Event reason type (capture (txt s) un) (path_at reason fr)].
Proof.
  intros Hf. unfold emits, noted. destruct (scan (prs s)) eqn:Hs; [done|]. simpl.
  destruct (Hf Hs) as [Hm _]. unfold event_of, frames_of. by rewrite Hm.
Qed.

(** A quiet operation followed by the callback of a value. *)
Lemma quiet_value s s1 n type un fr v :
  wf s -> frames_ok s fr -> quiet s s1 n -> (scan (prs s) = false -> capture (txt s1) un = v) ->
  finished s (noted s1 JSON_REASON_VALUE type un) n [value_event fr type v] fr.
Proof.
  intros Hwf Hf (Ha & Hp & Hpa & Hd & Hu) Hv.
  assert (frames_ok s1 fr) as Hf1
    by (unfold frames_ok; rewrite Hd; eapply frames_after; [exact Hf|done|by rewrite Hpa]).
  pose proof (noted_after s1 JSON_REASON_VALUE type un (after_wf _ _ Ha)) as Ha1.
  split; [by eapply after_trans|]. rewrite noted_prs. split; [done|]. split; [done|].
  pose proof (noted_emits s1 JSON_REASON_VALUE type un fr Hf1) as He. simpl in He. split.
  - unfold emits in *. rewrite (after_scan _ _ Ha), Hu in He.
    destruct (scan (prs s)) eqn:Hs; [done|]. rewrite He. do 2 f_equal. unfold value_event.
    by rewrite Hv.
  - destruct (set_index_self fr) as [j Hj]. exists j. rewrite Hj. unfold frames_ok.
    rewrite noted_prs. eapply frames_after; [exact Hf1|done|by rewrite noted_prs].
Qed.

Lemma quiet_call_ok s s1 n fr reason un :
  wf s -> frames_ok s fr -> quiet s s1 n ->
  match un with U_string p => (p <= end_ (prs s1))%nat | _ => True end ->
  scan (prs s1) = false -> call_ok (prs s1) (txt s1) reason un.
Proof.
  intros Hwf Hf (Ha & Hp & Hpa & Hd & Hu). apply (frames_call_ok s1 fr); [apply (after_wf _ _ Ha)|].
  unfold frames_ok. rewrite Hd. eapply frames_after; [exact Hf|done|by rewrite Hpa].
Qed.

Lemma quiet_advance s l tail n : wf s -> reads s l tail -> (n <= length l)%nat -> quiet s (advance s n) n.
Proof. intros Hwf Hr Hn. split; [by eapply advance_after|done]. Qed.

End Values.

Section Main.
Context `{Enc : StringEncoding}.
Variable ja_malloc : nat -> Z -> bool.
Hypothesis Hmalloc : forall n size, ja_malloc n size = true.
Implicit Types s : pstate (list event).

Abbreviation get_value := (_get_value record_event ja_malloc).
Abbreviation array_loop := (get_array_loop record_event ja_malloc).
Abbreviation object_loop := (get_object_loop record_event ja_malloc).

(** The contracts of the three functions on rendered text, with the fuel for
    the rest of the text. *)
Definition value_runs (f : nat) : Prop := forall s v fr c tail,
  wf s -> (1 <= depth (prs s))%nat -> (depth (prs s) + nesting v <= JSON_MAX_NESTING)%nat ->
  (2 * (end_ (prs s) - ptr (prs s)) + 1 <= f)%nat -> supported v ->
  reads s (render v) (c :: tail) -> stops c -> frames_ok s fr ->
  wp (get_value f) (fun _ s' => finished s s' (length (render v)) (events fr v) fr) no_error s.

Definition elements_run (f : nat) (body : list json -> text) : Prop := forall s l i n fr tail,
  wf s -> (1 <= depth (prs s))%nat ->
  (depth (prs s) + list_max (map nesting l) <= JSON_MAX_NESTING)%nat ->
  (2 * (end_ (prs s) - ptr (prs s)) + 2 <= f)%nat -> all_supported l ->
  0 <= i -> i + Z.of_nat (length l) < 2 ^ 63 -> 0 <= n -> n + Z.of_nat (length l) < 2 ^ 63 ->
  reads s (body l ++ [93]) tail -> (exists j, frames_ok s (set_index fr j)) ->
  wp (array_loop f i n)
     (fun m s' => m = n + Z.of_nat (length l) /\
        finished s s' (length (body l) + 1) (element_events fr i l) fr) no_error s.

(** The elements at the start of an array, and those after another element. *)
Definition array_runs (f : nat) : Prop :=
  elements_run f more /\ elements_run f (fun l => tl (more l)).

Lemma finished_trans s s1 s2 n1 n2 e1 e2 fr :
  finished s s1 n1 e1 fr -> finished s1 s2 n2 e2 fr -> finished s s2 (n1 + n2) (e1 ++ e2) fr.
Proof.
  intros (A1 & P1 & D1 & E1 & F1) (A2 & P2 & D2 & E2 & F2).
  split; [by eapply after_trans|]. split; [lia|]. split; [congruence|].
  split; [by eapply emits_trans|done].
Qed.

Lemma finished_reindex s s1 n evs fr j :
  finished s s1 n evs (set_index fr j) -> finished s s1 n evs fr.
Proof.
  intros (A1 & P1 & D1 & E1 & j' & F1). do 4 (split; [done|]). exists j'.
  by rewrite set_index_set in F1.
Qed.

(** A character passed over. *)
Lemma finished_skip s l tail s2 n evs fr :
  wf s -> reads s l tail -> (1 <= length l)%nat -> finished (advance s 1) s2 n evs fr ->
  finished s s2 (1 + n) evs fr.
Proof.
  intros Hwf Hr Hl (A1 & P1 & D1 & E1 & F1).
  pose proof (advance_after s l tail 1 Hwf Hr Hl) as Ha.
  split; [by eapply after_trans|]. simpl in *. split; [lia|]. by split.
Qed.

Lemma frames_advance s l tail d fr n :
  wf s -> reads s l tail -> (n <= length l)%nat -> frames_upto s d fr ->
  frames_upto (advance s n) d fr.
Proof. intros Hwf Hr Hn Hf. eapply frames_after; [exact Hf|by eapply advance_after|done]. Qed.

Lemma reads_advance s a b tail n :
  wf s -> reads s (a ++ b) tail -> n = length a -> reads (advance s n) b tail.
Proof.
  intros Hwf Hr ->. eapply reads_after; [exact Hr| |done].
  eapply advance_after; [done|exact Hr|]. rewrite length_app. lia.
Qed.

Lemma elements_step f : value_runs f -> elements_run f more ->
  elements_run (S f) (fun l => tl (more l)).
Proof.
  intros HV HA s l i n fr tail Hwf Hd1 Hd2 Hf Hsup Hi Hil Hn Hnl Hr (j & Hfr).
  cbn [get_array_loop]. destruct l as [|x l].
  - simpl in Hr. eapply token_runs; [done|exact Hr|done|]. unfold wp, mret, PM_ret. cbn.
    split; [lia|]. pose proof (advance_after s _ _ 1 Hwf Hr ltac:(simpl; lia)) as Ha.
    split; [done|]. split; [done|]. split; [done|]. split; [by apply emits_same|].
    exists j. by eapply frames_advance.
  - destruct Hsup as [Hx Hsup]. cbn [tl more flat_map app] in Hr. fold (more l) in Hr.
    rewrite <- app_assoc in Hr.
    destruct (render_first x Hx) as (c & r & Hc & Hc1 & Hc2 & Hc3).
    assert (reads s (c :: r ++ more l ++ [93]) tail) as Hr'.
    { rewrite Hc in Hr. exact Hr. }
    eapply token_runs; [done|exact Hr'|done|].
    replace (c =? 44) with false by lia. replace (c =? 93) with false by lia.
    pose proof (advance_after s _ _ 1 Hwf Hr' ltac:(simpl; lia)) as Ha.
    change (list_max (map nesting (x :: l)))
      with (nesting x `max` list_max (map nesting l))%nat in Hd2.
    cbn [length] in Hil, Hnl.
    apply (bump_runs _ (set_index fr j) i); [done|lia|done|].
    intros p s2 Ha2 Hf2. rewrite set_index_set in Hf2.
    destruct (more_stops l 93 tail) as (c' & tail' & Hc' & Hst); [done|].
    assert (reads s2 (render x) (c' :: tail')) as Hr2.
    { destruct Hr as [Hr1 Hr2]. rewrite !length_app in Hr2. split; [|simpl; lia].
      simpl. rewrite Hr1, <- Hc', <- !app_assoc. done. }
    apply wp_bind. eapply wp_mono; [apply (HV s2 x (set_index fr i) c' tail')|..]; try done.
    + apply (after_wf _ _ Ha2).
    + simpl. lia.
    + simpl. lia.
    + intros u s4 Hfin. pose proof Hfin as (A4 & P4 & D4 & E4 & j4 & F4).
      rewrite set_index_set in F4.
      assert (reads s4 (more l ++ [93]) tail) as Hr4.
      { eapply (reads_after s s4 (render x)); [exact Hr|by eapply after_trans|exact P4]. }
      assert (length (render x) ≠ 0%nat) by (rewrite Hc; simpl; lia).
      assert (end_ (prs s4) = end_ (prs s)) as He4 by (by rewrite (after_end _ _ A4)).
      simpl in P4, D4. rewrite (u64_small (i + 1)), (u64_small (n + 1)) by lia.
      eapply wp_mono; [apply (HA s4 l (i + 1) (n + 1) fr tail)|..]; try done; try lia.
      * apply (after_wf _ _ A4).
      * destruct Hr as [_ Hrl]. rewrite !length_app in Hrl. lia.
      * by exists j4.
      * intros m s5 [-> H5]. split; [simpl; lia|]. cbn [tl more flat_map app element_events].
        fold (more l). rewrite length_app, <- Nat.add_assoc.
        eapply finished_trans; [|exact H5]. apply (finished_reindex _ _ _ _ _ i).
        destruct Hfin as (A & P & D & E & F).
        split; [by eapply after_trans|]. by split.
Qed.

Lemma comma_step f : elements_run f (fun l => tl (more l)) -> elements_run (S f) more.
Proof.
  intros HA s l i n fr tail Hwf Hd1 Hd2 Hf Hsup Hi Hil Hn Hnl Hr (j & Hfr).
  cbn [get_array_loop]. destruct l as [|x l].
  - simpl in Hr. eapply token_runs; [done|exact Hr|done|]. unfold wp, mret, PM_ret. cbn.
    split; [lia|]. pose proof (advance_after s _ _ 1 Hwf Hr ltac:(simpl; lia)) as Ha.
    split; [done|]. split; [done|]. split; [done|]. split; [by apply emits_same|].
    exists j. by eapply frames_advance.
  - cbn [more flat_map app] in Hr. fold (more l) in Hr.
    eapply token_runs; [done|exact Hr|done|]. cbn [Z.eqb Pos.eqb].
    pose proof (advance_after s _ _ 1 Hwf Hr ltac:(simpl; lia)) as Ha.
    eapply wp_mono; [apply (HA (advance s 1) (x :: l) i n fr tail)|..]; try done.
    + apply (after_wf _ _ Ha).
    + destruct Hr as [_ Hrl]. simpl in *. lia.
    + eapply (reads_advance s [44]); [done|exact Hr|done].
    + exists j. by eapply frames_advance; [..|exact Hfr]; [done|exact Hr|simpl; lia].
    + intros m s5 [-> H5]. split; [done|].
      replace (length (more (x :: l)) + 1)%nat with (1 + (length (tl (more (x :: l))) + 1))%nat
        by (simpl; lia).
      eapply finished_skip; [done|exact Hr|simpl; lia|exact H5].
Qed.

(** ** Members *)

Definition members_post (s : pstate (list event)) (d n : nat) (evs : list event) (fr : list frame)
    (s' : pstate (list event)) : Prop :=
  after s s' /\ ptr (prs s') = (ptr (prs s) + n)%nat /\ depth (prs s') = d /\
  emits s s' (evs ++ [Event JSON_REASON_END_OBJECT JSON_TYPE_NULL VNone []]) /\
  frames_upto s' d fr.

Definition members_run (f : nat) (body : list (text * json) -> text) : Prop :=
  forall s d l fr tail,
  wf s -> depth (prs s) = S d ->
  (S d + list_max (map (fun '(_, x) => nesting x) l) <= JSON_MAX_NESTING)%nat ->
  (2 * (end_ (prs s) - ptr (prs s)) + 2 <= f)%nat -> members_supported l ->
  reads s (body l ++ [125]) tail -> frames_upto s d fr ->
  wp (object_loop f)
     (fun _ s' => members_post s d (length (body l) + 1) (member_events fr l) fr s') no_error s.

Lemma members_post_after s s1 d n1 n2 e1 e2 fr s2 :
  after s s1 -> ptr (prs s1) = (ptr (prs s) + n1)%nat -> emits s s1 e1 ->
  members_post s1 d n2 e2 fr s2 -> members_post s d (n1 + n2) (e1 ++ e2) fr s2.
Proof.
  intros Ha Hp He (A2 & P2 & D2 & E2 & F2). split; [by eapply after_trans|]. split; [lia|].
  split; [done|]. split; [|done]. rewrite <- app_assoc. by eapply emits_trans.
Qed.

Lemma noted_emits_end s :
  emits s (noted s JSON_REASON_END_OBJECT JSON_TYPE_NULL U_none)
    [Event JSON_REASON_END_OBJECT JSON_TYPE_NULL VNone []].
Proof. unfold emits, noted. by destruct (scan (prs s)). Qed.

Lemma frames_prefix s d fr x :
  frames_upto s (S d) (fr ++ [x]) -> (d < length (path (prs s)))%nat -> frames_upto s d fr.
Proof.
  intros Hf Hd Hs. destruct (Hf Hs) as (Hm & Hall & Hb & _).
  destruct (lookup_lt_is_Some_2 (path (prs s)) d Hd) as [n Hn].
  rewrite (take_S_r _ _ n Hn) in Hm, Hall. rewrite fmap_app in Hm. simpl in Hm.
  apply app_inj_tail in Hm as [Hm _]. apply Forall_app in Hall as [Hall _]. split; [done|]. split; [done|]. split; [done|lia].
Qed.

(** The closing brace. *)
Lemma end_object_runs s d fr :
  wf s -> depth (prs s) = S d -> frames_upto s d fr ->
  wp (s0 ← get;
      if decide (depth (prs s0) = 0%nat) then raise JSON_NESTING_UNDERFLOW
      else _ ← _invoke_callback record_event JSON_REASON_END_OBJECT JSON_TYPE_NULL U_none;
           s1 ← get;
           put (set_prs s1 (with_depth (prs s1) (Nat.pred (depth (prs s1))))))
     (fun _ s' => members_post s d 0 [] fr s') no_error s.
Proof.
  intros Hwf Hd Hf. unfold wp. rewrite bind_get, decide_False by lia.
  change (wp (_invoke_callback record_event JSON_REASON_END_OBJECT JSON_TYPE_NULL U_none ≫= fun _ =>
    get ≫= fun s1 => put (set_prs s1 (with_depth (prs s1) (Nat.pred (depth (prs s1))))))
    (fun _ s' => members_post s d 0 [] fr s') no_error s).
  apply wp_bind, callback_runs.
  { intros Hs. destruct Hwf as (_ & ? & _). destruct (Hf Hs) as (_ & _ & ? & _). done. }
  unfold wp. rewrite bind_get. cbn [put].
  set (s1 := noted s JSON_REASON_END_OBJECT JSON_TYPE_NULL U_none).
  assert (after s s1) as Ha by (by apply noted_after).
  assert (after s1 (set_prs s1 (with_depth (prs s1) (Nat.pred (depth (prs s1)))))) as Ha2
    by (pose proof (after_wf _ _ Ha); by split).
  assert (prs s1 = prs s) as Hq by apply noted_prs.
  split; [exact (after_trans _ _ _ Ha Ha2)|]. split; [simpl; rewrite Hq; lia|].
  split; [simpl; by rewrite Hq, Hd|]. split.
  - exact (noted_emits_end s).
  - eapply frames_after; [exact Hf|exact (after_trans _ _ _ Ha Ha2)|]. simpl. by rewrite Hq.
Qed.

Lemma brace_runs f s d fr tail :
  wf s -> depth (prs s) = S d -> reads s [125] tail -> frames_upto s d fr ->
  wp (object_loop (S f)) (fun _ s' => members_post s d 1 [] fr s') no_error s.
Proof.
  intros Hwf Hd Hr Hf. cbn [get_object_loop]. eapply token_runs; [done|exact Hr|done|].
  cbn [Z.eqb Pos.eqb]. pose proof (advance_after s _ _ 1 Hwf Hr ltac:(simpl; lia)) as Ha.
  eapply wp_mono; [apply (end_object_runs (advance s 1) d fr)| |done].
  - apply (after_wf _ _ Ha).
  - done.
  - by eapply frames_advance; [..|exact Hf]; [done|exact Hr|simpl; lia].
  - intros u s' H. apply (members_post_after s (advance s 1) d 1 0 [] [] fr); try done.
    by apply emits_same.
Qed.

Lemma comma_member_step f :
  members_run f (fun l => tl (more_members l)) -> members_run (S f) more_members.
Proof.
  intros HO s d l fr tail Hwf Hd Hn Hf Hsup Hr Hfr. destruct l as [|[k x] l].
  - by eapply brace_runs.
  - cbn [get_object_loop]. cbn [more_members flat_map app] in Hr.
    eapply token_runs; [done|exact Hr|done|]. cbn [Z.eqb Pos.eqb].
    pose proof (advance_after s _ _ 1 Hwf Hr ltac:(simpl; lia)) as Ha.
    eapply wp_mono; [apply (HO (advance s 1) d ((k, x) :: l) fr tail)|..]; try done.
    + apply (after_wf _ _ Ha).
    + destruct Hr as [_ Hrl]. simpl in *. lia.
    + eapply (reads_advance s [44]); [done|exact Hr|done].
    + by eapply frames_advance; [..|exact Hfr]; [done|exact Hr|simpl; lia].
    + intros u s5 H5.
      replace (length (more_members ((k, x) :: l)) + 1)%nat
        with (1 + (length (tl (more_members ((k, x) :: l))) + 1))%nat by (simpl; lia).
      apply (members_post_after s (advance s 1) d 1 _ [] _ fr); try done. by apply emits_same.
Qed.

(** From a member's name to the colon. *)
Lemma name_runs {B} s d fr k rest tail (K : Z -> PM (list event) B) Q :
  wf s -> depth (prs s) = S d -> (S d <= JSON_MAX_NESTING)%nat -> forallb encodable k = true ->
  reads s (printed k ++ [34] ++ 58 :: rest) tail -> frames_upto s d fr ->
  (forall s', after s s' -> reads s' rest tail ->
     ptr (prs s') = (ptr (prs s) + (length (printed k) + 2))%nat -> depth (prs s') = S d ->
     emits s s' [Event JSON_REASON_NAME JSON_TYPE_STRING (VString k) (fr ++ [(k, 0)])] ->
     frames_ok s' (fr ++ [(k, 0)]) -> wp (K 58) Q no_error s') ->
  wp (_get_string ≫= fun name => insert_node name ≫= fun _ =>
      _invoke_callback record_event JSON_REASON_NAME JSON_TYPE_STRING (U_string name) ≫= fun _ =>
      skip_whitespace ≫= fun _ => next_char ≫= K) Q no_error s.
Proof.
  intros Hwf Hd Hle Hk Hr Hf HQ. rewrite app_assoc in Hr. pose proof Hr as [Hr1 Hr2].
  rewrite !length_app in Hr2. simpl in Hr2. apply wp_bind.
  eapply wp_mono; [apply (get_string_runs s k (58 :: rest ++ tail) Hwf Hk)| |done].
  { split; [|rewrite length_app; simpl; lia]. by rewrite Hr1, <- !app_assoc. }
  intros a s1 (-> & (Ha1 & Hp1 & Hpa1 & Hd1 & Hu1) & Hstr). rewrite Hd in Hd1.
  apply wp_bind. apply (insert_node_runs s1 d fr (ptr (prs s)) k); try done.
  { apply (after_wf _ _ Ha1). }
  { rewrite (after_end _ _ Ha1). lia. }
  { eapply frames_after; [exact Hf|done|by rewrite Hpa1]. }
  { intros Hs. rewrite (after_scan _ _ Ha1) in Hs. by apply Hstr. }
  intros s2 Ha2 Hp2 Hd2 Hu2 Ht2 Hf2. apply wp_bind, callback_runs.
  { apply (frames_call_ok _ _ _ _ (after_wf _ _ Ha2) Hf2).
    rewrite (after_end _ _ Ha2), (after_end _ _ Ha1). destruct Hwf as (? & _). done. }
  set (s3 := noted s2 _ _ _).
  assert (after s2 s3) as Ha23 by (apply noted_after, (after_wf _ _ Ha2)).
  assert (after s s3) as Ha3 by (do 2 (eapply after_trans; [eassumption|]); done).
  assert (prs s3 = prs s2) as Hq3 by apply noted_prs.
  assert (reads s3 (58 :: rest) tail) as Hr3.
  { eapply (reads_after s s3); [exact Hr|done|]. rewrite Hq3, Hp2, Hp1, length_app. simpl. lia. }
  eapply token_runs; [by apply (after_wf _ _ Ha3)|exact Hr3|done|].
  pose proof (advance_after s3 _ _ 1 (after_wf _ _ Ha3) Hr3 ltac:(simpl; lia)) as Ha4.
  apply HQ.
  - by eapply after_trans.
  - eapply (reads_advance s3 [58]); [by apply (after_wf _ _ Ha3)|exact Hr3|done].
  - simpl. rewrite Hq3, Hp2, Hp1. lia.
  - simpl. by rewrite Hq3.
  - pose proof (noted_emits s2 JSON_REASON_NAME JSON_TYPE_STRING (U_string (ptr (prs s))) _ Hf2) as He.
    unfold emits in *. simpl in He |- *. rewrite (after_scan _ _ Ha2), (after_scan _ _ Ha1), Hu2, Hu1 in He.
    unfold s3. rewrite He. destruct (scan (prs s)) eqn:Hs; [done|]. rewrite Ht2.
    by destruct (Hstr eq_refl) as [-> _].
  - unfold frames_ok. simpl. rewrite Hq3.
    eapply frames_after; [exact Hf2|by eapply after_trans|]. simpl. by rewrite Hq3.
Qed.

Lemma member_step f :
  value_runs f -> members_run f more_members -> members_run (S f) (fun l => tl (more_members l)).
Proof.
  intros HV HO s d l fr tail Hwf Hd Hn Hf Hsup Hr Hfr. destruct l as [|[k x] l].
  { by eapply brace_runs. }
  destruct Hsup as (Hk & Hx & Hsup).
  change (list_max (map (fun '(_, x) => nesting x) ((k, x) :: l)))
    with (nesting x `max` list_max (map (fun '(_, x) => nesting x) l))%nat in Hn.
  cbn [tl more_members flat_map app] in Hr. fold (more_members l) in Hr.
  assert (reads s (34 :: (printed k ++ [34] ++ 58 :: render x ++ more_members l ++ [125])) tail)
    as Hr'.
  { unfold quoted in Hr. cbn [app] in Hr. by rewrite <- !app_assoc in Hr. }
  cbn [get_object_loop]. eapply token_runs; [done|exact Hr'|done|]. cbn [Z.eqb Pos.eqb].
  pose proof (advance_after s _ _ 1 Hwf Hr' ltac:(simpl; lia)) as Ha1.
  eapply (name_runs (advance s 1) d fr k (render x ++ more_members l ++ [125]) tail);
    [by apply (after_wf _ _ Ha1)|done|lia|done|
     eapply (reads_advance s [34]); [done|exact Hr'|done]|
     by eapply frames_advance; [..|exact Hfr]; [done|exact Hr'|simpl; lia]|].
  intros s2 Ha2 Hr2 Hp2 Hd2 He2 Hf2. cbn [Z.eqb Pos.eqb].
  assert (after s s2) as Ha02 by (by eapply after_trans).
  destruct (more_members_stops l 125 tail) as (c' & tail' & Hc' & Hst); [done|].
  pose proof Hr2 as [Hr2a Hr2b]. rewrite !length_app in Hr2b.
  change (ptr (prs (advance s 1))) with (ptr (prs s) + 1)%nat in Hp2.
  apply wp_bind. eapply wp_mono; [apply (HV s2 x (fr ++ [(k, 0)]) c' tail')|..]; try done.
  - apply (after_wf _ _ Ha2).
  - lia.
  - lia.
  - rewrite (after_end _ _ Ha02). lia.
  - split; [|lia]. by rewrite Hr2a, <- Hc', <- !app_assoc.
  - intros u s4 (A4 & P4 & D4 & E4 & j4 & F4). rewrite set_index_snoc in F4.
    unfold frames_ok in F4. rewrite D4, Hd2 in F4.
    assert (after s s4) as Ha04 by (by eapply after_trans).
    assert (frames_upto s4 d fr) as F4'.
    { eapply frames_prefix; [exact F4|]. destruct (after_wf _ _ A4) as (_ & _ & ->). lia. }
    destruct (render_first x Hx) as (c & r & Hc & _).
    assert (length (render x) ≠ 0%nat) by (rewrite Hc; simpl; lia).
    eapply wp_mono; [apply (HO s4 d l fr tail)|..]; try done.
    + apply (after_wf _ _ A4).
    + congruence.
    + lia.
    + rewrite (after_end _ _ Ha04). destruct Hr' as [_ Hrl]. cbn [length] in Hrl. lia.
    + by eapply reads_after.
    + intros u' s5 H5. cbn [member_events].
      replace (length (tl (more_members ((k, x) :: l))) + 1)%nat
        with ((1 + (length (printed k) + 2) + length (render x)) + (length (more_members l) + 1))%nat
        by (rewrite more_members_length; lia).
      rewrite app_comm_cons.
      apply (members_post_after s s4); [done|lia| |exact H5].
      eapply (emits_trans s s2 s4 [_]); [done|exact He2|exact E4].
Qed.

(** ** Values *)

(** An array, after its bracket. *)
Lemma array_runs_value f s l fr tail :
  array_runs f -> wf s -> (1 <= depth (prs s))%nat ->
  (depth (prs s) + nesting (JArray l) <= JSON_MAX_NESTING)%nat ->
  (2 * (end_ (prs s) - ptr (prs s)) + 2 <= f)%nat -> supported (JArray l) ->
  reads s (tl (more l) ++ [93]) tail -> frames_ok s fr ->
  wp (array_value record_event ja_malloc f)
     (fun _ s' => finished s s' (length (tl (more l)) + 1) (events fr (JArray l)) fr) no_error s.
Proof.
  intros [_ HA] Hwf Hd1 Hd2 Hf [Hlen Hsup] Hr Hfr. cbn [nesting] in Hd2.
  destruct (set_index_self fr) as [j Hj].
  unfold array_value. apply wp_bind. apply (scan_ahead_runs _ _ s (Z.of_nat (length l)) _ Hmalloc).
  { intros s1 Hq1 Ht1. eapply wp_mono; [apply (HA s1 l 0 0 fr tail)|..]; try done; try lia;
      rewrite ?Hq1; try done.
    - destruct Hwf as (? & ? & ?). split; rewrite Hq1; simpl; [done|]. by rewrite Ht1.
    - split; rewrite Hq1; [rewrite Ht1|]; apply Hr.
    - exists j. intros Hs. by rewrite Hq1 in Hs.
    - intros m s2 (-> & Ha & _). split; [lia|done]. }
  intros s1 Hq1 Ht1 Hu1 Hl1.
  assert (after s s1) as Ha1.
  { destruct Hwf as (? & ? & ?). split; rewrite ?Hq1, ?Ht1; try done.
    split; rewrite ?Hq1, ?Ht1; done. }
  assert (frames_ok s1 fr) as Hf1
    by (unfold frames_ok; rewrite Hq1; eapply frames_after; [exact Hfr|done|by rewrite Hq1]).
  apply wp_bind. apply (size_runs s1 fr); [by apply (after_wf _ _ Ha1)|rewrite Hq1; lia|done|].
  intros p s2 Ha2 Hf2. apply wp_bind, callback_runs;
    [by apply (frames_call_ok _ fr _ _ (after_wf _ _ Ha2))|]. rewrite s64_small by lia.
  set (s3 := noted s2 _ _ _).
  assert (after s2 s3) as Ha23 by (apply noted_after, (after_wf _ _ Ha2)).
  assert (prs s3 = prs s2) as Hq3 by apply noted_prs.
  assert (after s s3) as Ha3 by (do 2 (eapply after_trans; [eassumption|]); done).
  assert (frames_ok s3 fr) as Hf3
    by (unfold frames_ok; rewrite Hq3; eapply frames_after; [exact Hf2|done|by rewrite Hq3]).
  assert (ptr (prs s3) = ptr (prs s) /\ depth (prs s3) = depth (prs s)) as [Hp3 Hd3]
    by (rewrite Hq3; simpl; by rewrite Hq1).
  apply wp_bind, wp_or_raise. eapply wp_mono; [apply (HA s3 l 0 0 fr tail)|..]; try done; try lia.
  - apply (after_wf _ _ Ha3).
  - rewrite (after_end _ _ Ha3), Hp3. lia.
  - eapply (reads_after s s3 []); [exact Hr|done|]. rewrite Hp3. simpl. lia.
  - exists j. by rewrite Hj.
  - intros m s4 (_ & A4 & P4 & D4 & E4 & j4 & F4). apply callback_runs;
      [by apply (frames_call_ok _ (set_index fr j4) _ _ (after_wf _ _ A4))|].
    set (s5 := noted s4 _ _ _).
    assert (after s4 s5) as Ha45 by (apply noted_after, (after_wf _ _ A4)).
    assert (prs s5 = prs s4) as Hq5 by apply noted_prs.
    assert (after s s4) as Ha4 by (by eapply after_trans).
    split; [by eapply after_trans|]. split; [rewrite Hq5, P4, Hp3; done|].
    split; [rewrite Hq5; congruence|]. split.
    + rewrite events_array, app_comm_cons.
      eapply (emits_trans s s4); [done| |].
      2:{ rewrite <- (names_only_index fr j4).
          apply (noted_emits s4 JSON_REASON_END_ARRAY JSON_TYPE_INTEGER
                   (U_integer (Z.of_nat (length l))) _ F4). }
      eapply (emits_trans s s3 _ [_]); [done| |exact E4].
      pose proof (noted_emits s2 JSON_REASON_BEGIN_ARRAY JSON_TYPE_INTEGER
                    (U_integer (Z.of_nat (length l))) fr Hf2) as He.
      unfold emits in *. rewrite (after_scan _ _ Ha2), (after_scan _ _ Ha1) in He. simpl in He.
      rewrite Hu1 in He. exact He.
    + exists j4. unfold frames_ok. rewrite Hq5.
      eapply frames_after; [exact F4|done|by rewrite Hq5].
Qed.

(** An object, after its brace. *)
Lemma object_runs_value f s l fr tail :
  members_run f (fun l => tl (more_members l)) -> wf s ->
  (depth (prs s) + nesting (JObject l) <= JSON_MAX_NESTING)%nat ->
  (2 * (end_ (prs s) - ptr (prs s)) + 2 <= f)%nat -> supported (JObject l) ->
  reads s (tl (more_members l) ++ [125]) tail -> frames_ok s fr ->
  wp (begin_object record_event (object_loop f))
     (fun _ s' => finished s s' (length (tl (more_members l)) + 1) (events fr (JObject l)) fr)
     no_error s.
Proof.
  intros HO Hwf Hd Hf Hsup Hr Hfr. cbn [nesting] in Hd. unfold begin_object.
  apply wp_bind, callback_runs; [by apply (frames_call_ok _ fr)|]. set (s1 := noted s _ _ _).
  assert (after s s1) as Ha1 by (by apply noted_after).
  assert (prs s1 = prs s) as Hq1 by apply noted_prs.
  apply wp_bind. unfold wp at 1. cbn [get]. apply wp_bind. unfold wp at 1. cbn [put].
  rewrite decide_False by (rewrite Hq1; lia).
  set (s2 := set_prs s1 (with_depth (prs s1) (S (depth (prs s1))))).
  assert (after s1 s2) as Ha12 by (pose proof (after_wf _ _ Ha1); by split).
  assert (after s s2) as Ha2 by (by eapply after_trans).
  assert (ptr (prs s2) = ptr (prs s)) as Hp2 by (simpl; by rewrite Hq1).
  assert (frames_upto s2 (depth (prs s)) fr) as Hf2
    by (eapply frames_after; [exact Hfr|done|simpl; by rewrite Hq1]).
  eapply wp_mono; [apply (HO s2 (depth (prs s)) l fr tail)|..]; try done.
  - apply (after_wf _ _ Ha2).
  - simpl. by rewrite Hq1.
  - lia.
  - rewrite (after_end _ _ Ha2), Hp2. lia.
  - eapply (reads_after s s2 []); [exact Hr|done|]. rewrite Hp2. simpl. lia.
  - intros u s3 (A3 & P3 & D3 & E3 & F3). split; [by eapply after_trans|].
    split; [rewrite P3, Hp2; done|]. split; [done|]. split.
    + rewrite events_object. eapply (emits_trans s s2 _ [_]); [done| |exact E3].
      exact (noted_emits s JSON_REASON_BEGIN_OBJECT JSON_TYPE_NULL U_none fr Hfr).
    + destruct (set_index_self fr) as [j Hj]. exists j. unfold frames_ok. by rewrite Hj, D3.
Qed.

(** A literal value, from its first letter. *)
Lemma literal_value s c rest c' tail type un fr v :
  wf s -> reads s (c :: rest) (c' :: tail) -> frames_ok s fr ->
  match un with U_string _ => False | _ => True end -> capture (txt s) un = v ->
  wp (literal record_event rest type un)
     (fun _ s' => finished s s' (length (c :: rest)) [value_event fr type v] fr) no_error
     (advance s 1).
Proof.
  intros Hwf Hr Hfr Hun Hv. pose proof (advance_after s _ _ 1 Hwf Hr ltac:(simpl; lia)) as Ha1.
  assert (reads (advance s 1) rest (c' :: tail)) as Hr1
    by (eapply (reads_advance s [c]); [done|exact Hr|done]).
  eapply (literal_runs _ _ _ _ fr); [apply (after_wf _ _ Ha1)|by apply (frames_after s)|done|exact Hr1|].
  assert (advance (advance s 1) (length rest) = advance s (length (c :: rest))) as ->.
  { unfold advance, set_prs, with_ptr. simpl. do 2 f_equal. lia. }
  apply quiet_value; [done|done| |done].
  eapply quiet_advance; [done|exact Hr|done].
Qed.

Lemma finished_first s l tail s2 n evs fr :
  wf s -> reads s l tail -> (1 <= length l)%nat -> finished (advance s 1) s2 n evs fr ->
  finished s s2 (S n) evs fr.
Proof. intros. by eapply finished_skip. Qed.

(** An integer, from its first character. *)
Lemma number_value s z c tail fr :
  wf s -> - 2 ^ 63 <= z < 2 ^ 63 -> stops c -> reads s (decimal z) (c :: tail) -> frames_ok s fr ->
  wp (unget ≫= fun _ => or_raise _get_number JSON_BAD_SYNTAX ≫= fun '(type, un) =>
        _invoke_callback record_event JSON_REASON_VALUE type un)
     (fun _ s' => finished s s' (length (decimal z)) [value_event fr JSON_TYPE_INTEGER (VInt z)] fr)
     no_error (advance s 1).
Proof.
  intros Hwf Hz [Hst1 Hst2] Hr Hfr. unfold advance. rewrite Nat.add_1_r. apply unget_wp.
  assert (set_prs s (with_ptr (prs s) (ptr (prs s))) = s) as -> by (by destruct s as [? []]).
  apply wp_bind, wp_or_raise. eapply wp_mono; [by apply (get_number_runs s z c tail)| |done].
  intros r s1 (-> & Hq). apply callback_runs; [|by apply quiet_value].
  by eapply (quiet_call_ok s s1 _ fr).
Qed.

(** A string, after its quote. *)
Lemma string_value s str c tail fr :
  wf s -> forallb encodable str = true -> reads s (quoted str) (c :: tail) -> frames_ok s fr ->
  wp (or_raise _get_string JSON_BAD_SYNTAX ≫= fun p =>
        _invoke_callback record_event JSON_REASON_VALUE JSON_TYPE_STRING (U_string p))
     (fun _ s' => finished s s' (length (quoted str))
                    [value_event fr JSON_TYPE_STRING (VString str)] fr) no_error (advance s 1).
Proof.
  intros Hwf Hsup Hr Hfr. unfold quoted in Hr.
  assert (reads (advance s 1) (printed str ++ [34]) (c :: tail)) as Hr1
    by (eapply (reads_advance s [34]); [done|exact Hr|done]).
  pose proof (advance_after s _ _ 1 Hwf Hr ltac:(simpl; lia)) as Ha1.
  apply wp_bind, wp_or_raise.
  eapply wp_mono; [apply (get_string_runs (advance s 1) str _ (after_wf _ _ Ha1) Hsup Hr1)| |done].
  intros a s2 (-> & Hq & Hstr). apply callback_runs.
  { eapply (quiet_call_ok (advance s 1) s2 _ fr _ _ (after_wf _ _ Ha1)); [|exact Hq|].
    - by apply (frames_after s).
    - destruct Hq as (Ha2 & _). rewrite (after_end _ _ Ha2).
      destruct (after_wf _ _ Ha1) as (? & _). done. }
  unfold quoted. cbn [length]. rewrite length_app. cbn [length].
  eapply finished_first; [done|exact Hr|simpl; lia|].
  apply quiet_value; [by apply (after_wf _ _ Ha1)| |done|].
  - by eapply frames_advance; [..|exact Hfr]; [done|exact Hr|simpl; lia].
  - intros Hs. destruct (Hstr Hs) as [Hx _]. cbn [capture]. by rewrite Hx.
Qed.

Lemma value_runs_step f :
  array_runs f -> members_run f (fun l => tl (more_members l)) -> value_runs (S f).
Proof.
  intros HA HO s v fr c tail Hwf Hd1 Hd2 Hf Hsup Hr Hst Hfr. cbn [_get_value].
  destruct v as [|b|z|str|l|l]; cbn [render] in Hr.
  - eapply token_runs; [done|exact Hr|done|]. by eapply literal_value.
  - destruct b; (eapply token_runs; [done|exact Hr|done|]); by eapply literal_value.
  - destruct (decimal_form z Hsup) as (d & l & Hd & Hdig).
    eapply token_runs; [done|rewrite Hd in Hr; exact Hr|unfold is_dec, _isspace in *; lia|].
    assert (_tolower d = d) as -> by (unfold is_dec, _tolower in *; destruct (_ && _) eqn:?; lia).
    unfold is_dec in Hdig.
    replace (d =? 102) with false by lia. replace (d =? 110) with false by lia.
    replace (d =? 116) with false by lia. replace (d =? 123) with false by lia.
    replace (d =? 91) with false by lia. replace (d =? 34) with false by lia.
    by apply (number_value s z c tail fr).
  - eapply token_runs; [done|exact Hr|done|]. by apply (string_value s str c tail fr).
  - fold (more l) in Hr. eapply token_runs; [done|exact Hr|done|].
    pose proof (advance_after s _ _ 1 Hwf Hr ltac:(simpl; lia)) as Ha1.
    eapply wp_mono; [apply (array_runs_value f (advance s 1) l fr (c :: tail))|..]; try done.
    + apply (after_wf _ _ Ha1).
    + destruct Hr as [_ Hrl]. simpl in *. lia.
    + eapply (reads_advance s [91]); [done|exact Hr|done].
    + by eapply frames_advance; [..|exact Hfr]; [done|exact Hr|simpl; lia].
    + intros u s2 Hfin. cbn [render]. fold (more l). cbn [length]. rewrite length_app. cbn [length].
      eapply finished_first; [done|exact Hr|simpl; lia|exact Hfin].
  - fold (more_members l) in Hr. eapply token_runs; [done|exact Hr|done|].
    pose proof (advance_after s _ _ 1 Hwf Hr ltac:(simpl; lia)) as Ha1.
    eapply wp_mono; [apply (object_runs_value f (advance s 1) l fr (c :: tail))|..]; try done.
    + apply (after_wf _ _ Ha1).
    + destruct Hr as [_ Hrl]. simpl in *. lia.
    + eapply (reads_advance s [123]); [done|exact Hr|done].
    + by eapply frames_advance; [..|exact Hfr]; [done|exact Hr|simpl; lia].
    + intros u s2 Hfin. cbn [render]. fold (more_members l). cbn [length]. rewrite length_app.
      cbn [length]. eapply finished_first; [done|exact Hr|simpl; lia|exact Hfin].
Qed.

Lemma all_run f :
  value_runs f /\ array_runs f /\ members_run f more_members /\
  members_run f (fun l => tl (more_members l)).
Proof.
  induction f as [|f (HV & [HA HA'] & HO & HO')].
  - split; [intros ?; intros; lia|]. split; [split; intros ?; intros; lia|].
    split; intros ?; intros; lia.
  - split; [by apply value_runs_step|]. split; [split; [by apply comma_step|by apply elements_step]|].
    split; [by apply comma_member_step|by apply member_step].
Qed.
End Main.

(** The document may be followed by other text. *)
Lemma parse_complete `{StringEncoding} ja_malloc ms rest allow fuel :
  (forall n size, ja_malloc n size = true) -> supported (JObject ms) ->
  (nesting (JObject ms) <= JSON_MAX_NESTING)%nat -> Forall is_byte rest ->
  let t := render (JObject ms) ++ rest in
  (2 * length t + 3 <= fuel)%nat ->
  exists s', json_parser_parse record_event ja_malloc fuel
               (start_parse (t ++ [0]) (length t) allow []) = Done (inr tt, s') /\
    user s' = events [] (JObject ms) /\ depth (prs s') = 0%nat.
Proof.
  intros Hm Hsup Hn Hrest t Hf. set (s := start_parse (t ++ [0]) (length t) allow []).
  assert (wf s) as Hwf.
  { split; [simpl; lia|]. split; [|done]. simpl. by apply list_lookup_middle. }
  assert (reads s (123 :: tl (more_members ms) ++ [125]) (rest ++ [0])) as Hr.
  { split; [simpl; unfold t; by rewrite <- !app_assoc|].
    change (length (render (JObject ms)) <= length t)%nat. unfold t. rewrite length_app. lia. }
  assert (wp (json_parser_parse record_event ja_malloc fuel)
    (fun _ s' => user s' = events [] (JObject ms) /\ depth (prs s') = 0%nat) no_error s) as Hrun.
  { unfold json_parser_parse. eapply token_runs; [done|exact Hr|done|].
    pose proof (advance_after s _ _ 1 Hwf Hr ltac:(simpl; lia)) as Ha1.
    eapply wp_mono; [apply (object_runs_value ja_malloc fuel (advance s 1) ms [] (rest ++ [0]))|..]; try done.
    - apply (all_run ja_malloc Hm fuel).
    - apply (after_wf _ _ Ha1).
    - change (end_ (prs (advance s 1))) with (length t). change (ptr (prs (advance s 1))) with 1%nat. lia.
    - eapply (reads_advance s [123]); [done|exact Hr|done].
    - intros _. split; [done|]. split; [constructor|]. split; [|simpl; lia].
      apply Forall_app. split; [|repeat constructor; lia].
      apply Forall_app. split; [by apply render_bytes|done].
    - by intros u s' (_ & _ & Hd & He & _). }
  unfold wp in Hrun. destruct (json_parser_parse _ _ _ _) as [[[r|[]] s']|]; [done| |done].
  by exists s'.
Qed.

(** C14. The parser is complete: for every supported document nested at most 64
    objects deep, [json_parser_parse] accepts its text under either white-space
    option and reports exactly the document's events, in order, each with the
    value, the names on the path and the array indices the document has
    there. *)
Theorem json_parser_parse_complete `{StringEncoding} ja_malloc ms allow fuel :
  (forall n size, ja_malloc n size = true) -> supported (JObject ms) ->
  (nesting (JObject ms) <= JSON_MAX_NESTING)%nat ->
  let t := render (JObject ms) in
  (2 * length t + 3 <= fuel)%nat ->
  exists s', json_parser_parse record_event ja_malloc fuel
               (start_parse (t ++ [0]) (length t) allow []) = Done (inr tt, s') /\
    user s' = events [] (JObject ms).
Proof.
  intros Hm Hs Hn t Hf.
  destruct (parse_complete ja_malloc ms [] allow fuel Hm Hs Hn) as (s' & Hp & Hu & _); [constructor|by rewrite app_nil_r|].
  rewrite app_nil_r in Hp. by exists s'.
Qed.

Lemma json_parser_parse_complete_witness :
  let ms := [(bytes "a", JArray [JInt (-1); JString [10]; JArray []; JObject [(bytes "b", JNull)]]);
             (bytes "c/d", JBool true)] in
  let t := render (JObject ms) in
  exists s', json_parser_parse record_event (fun _ _ => true) (2 * length t + 3)
               (start_parse (t ++ [0]) (length t) false []) = Done (inr tt, s') /\
    user s' = events [] (JObject ms).
Proof.
  apply (json_parser_parse_complete (fun _ _ => true)).
  - reflexivity.
  - vm_compute. repeat split; congruence.
  - vm_compute. lia.
  - apply le_n.
Defined.
