(* ===== verification/JsonFollow.v ===== *)
(** * JsonFollow: the parser with any callback that follows the events

    JsonComplete runs the parser with a callback that records events.  Here a
    callback of another component is attached instead: if on every call it acts
    as a function [step] of the event, then on every document the parse returns
    and leaves what [step] makes of the document's events, in order.  The
    component is verified against [EventReader], without the parser.  The proof
    is a simulation: the two runs have the same parser and text at all times. *)

From S2P Require Import Prelude JsonText JsonParser JsonStrings JsonSafety JsonComplete.

(** ** The interface *)

(** A callback [cb] on data [D] that does [step] on every event; None is an
    event it does not accept. *)
Class EventReader {D : Type}
    (cb : json_parser -> text -> json_reason -> json_type -> json_union ->
          json_result * D -> outcome (json_result * (json_result * D)))
    (step : event -> D -> option D) : Prop :=
  reader_step : forall q t reason type un e d d',
    call_ok q t reason un -> step (event_of q t reason type un) d = Some d' ->
    exists e', cb q t reason type un (e, d) = Done (JSON_OK, (e', d')).

(** The events one after the other. *)
Definition steps {D} (step : event -> D -> option D) (evs : list event) (d : D) : option D :=
  foldl (fun od ev => d ← od; step ev d) (Some d) evs.

Lemma foldl_none {D} (step : event -> D -> option D) evs :
  foldl (fun od ev => d ← od; step ev d) None evs = None.
Proof. by induction evs. Qed.

Lemma steps_app {D} (step : event -> D -> option D) evs evs' d :
  steps step (evs ++ evs') d = steps step evs d ≫= steps step evs'.
Proof.
  unfold steps. rewrite foldl_app. destruct (foldl _ _ evs); [done|]. apply foldl_none.
Qed.

Lemma steps_cons {D} (step : event -> D -> option D) ev evs d :
  steps step (ev :: evs) d = step ev d ≫= steps step evs.
Proof. apply (steps_app step [ev] evs). Qed.

Section Follow.
Context {D : Type}.
Variable cb : json_parser -> text -> json_reason -> json_type -> json_union ->
  json_result * D -> outcome (json_result * (json_result * D)).
Variable step : event -> D -> option D.
Context `{Reader : !EventReader cb step}.
Variable ja_malloc : nat -> Z -> bool.
Variable d0 : D.

(** ** Related states and runs *)

(** The recorder's state and the other one: the data are what the events so far
    make of [d0].  The conversion error, which the parser only sets, may
    differ. *)
Record related (s : pstate (list event)) (s' : pstate D) : Prop := Related {
  rel_prs : prs s' = prs s;
  rel_txt : txt s' = txt s;
  rel_mallocs : mallocs s' = mallocs s;
  rel_live : live s' = live s;
  rel_user : steps step (user s) d0 = Some (user s')
}.

(** The recorder's run [m] only adds events, and if all of them are accepted the
    other run [m'] ends the same way in a related state. *)
Definition follows {A} (m : PM (list event) A) (m' : PM D A) (s : pstate (list event)) (s' : pstate D) :
    Prop :=
  match m s with
  | Failed _ => True
  | Done (r, s1) =>
      user s `prefix_of` user s1 /\
      (related s s' -> is_Some (steps step (user s1) d0) ->
       exists s1', m' s' = Done (r, s1') /\ related s1 s1')
  end.

Definition simulated {A} (m : PM (list event) A) (m' : PM D A) : Prop :=
  forall s s', follows m m' s s'.

Lemma steps_prefix evs evs' :
  evs `prefix_of` evs' -> is_Some (steps step evs' d0) -> is_Some (steps step evs d0).
Proof.
  intros [l ->] [d Hd]. rewrite steps_app in Hd. destruct (steps step evs d0); [done|done].
Qed.

Lemma simulated_bind {A B} (m : PM (list event) A) m' (k : A -> PM (list event) B) k' :
  simulated m m' -> (forall a, simulated (k a) (k' a)) -> simulated (m ≫= k) (m' ≫= k').
Proof.
  intros Hm Hk s s'. unfold follows. rewrite bind_eq. specialize (Hm s s'). unfold follows in Hm.
  destruct (m s) as [[[r|a] s1]|]; [| |done].
  - destruct Hm as [Hp Hm]. split; [done|]. intros HR HS. destruct (Hm HR HS) as (s1' & E & HR1).
    exists s1'. by rewrite bind_eq, E.
  - destruct Hm as [Hp Hm]. pose proof (fun s1' => Hk a s1 s1') as Hk1. unfold follows in Hk1.
    destruct (k a s1) as [[r s2]|] eqn:Ek; [|done].
    assert (user s1 `prefix_of` user s2) as Hp2 by apply (Hk1 s').
    split; [by etransitivity|]. intros HR HS.
    destruct (Hm HR) as (s1' & E & HR1); [by eapply steps_prefix|].
    destruct (Hk1 s1') as [_ Hk2]. destruct (Hk2 HR1 HS) as (s2' & E2 & HR2).
    exists s2'. by rewrite bind_eq, E.
Qed.

Lemma simulated_ret {A} (a : A) : simulated (mret a) (mret a).
Proof. intros s s'. split; [done|]. intros HR _. by exists s'. Qed.

Lemma simulated_raise {A} r : simulated (raise (A := A) r) (raise r).
Proof. intros s s'. split; [done|]. intros HR _. by exists s'. Qed.

Lemma simulated_lift {A} (o : outcome A) : simulated (lift o) (lift o).
Proof.
  intros s s'. unfold follows, lift. destruct o; [|done]. split; [done|]. intros HR _. by exists s'.
Qed.

Lemma simulated_check r : simulated (check r) (check r).
Proof. unfold check. destruct (decide _); [apply simulated_ret|apply simulated_raise]. Qed.

Lemma simulated_or_raise {A} (m : PM (list event) A) m' r :
  simulated m m' -> simulated (or_raise m r) (or_raise m' r).
Proof.
  intros Hm s s'. specialize (Hm s s'). unfold follows, or_raise in *.
  destruct (m s) as [[[r'|a] s1]|]; [| |done]; destruct Hm as [Hp Hm]; (split; [done|]);
    intros HR HS; destruct (Hm HR HS) as (s1' & -> & HR1); by eexists.
Qed.

(** ** Operations that do not call back *)

Definition same (s : pstate (list event)) (s' : pstate D) : Prop :=
  prs s' = prs s /\ txt s' = txt s /\ mallocs s' = mallocs s /\ live s' = live s.

(** They do the same to both states and nothing to the data. *)
Definition local {A} (m : PM (list event) A) (m' : PM D A) : Prop :=
  forall s s', same s s' ->
  match m s with
  | Failed _ => True
  | Done (r, s1) =>
      user s1 = user s /\ exists s1', m' s' = Done (r, s1') /\ same s1 s1' /\ user s1' = user s'
  end.

Lemma local_simulated {A} (m : PM (list event) A) m' : local m m' -> simulated m m'.
Proof.
  intros H s s'. unfold follows. destruct (m s) as [[r s1]|] eqn:Em; [|done]. split.
  - pose proof (H s (PState (txt s) (prs s) (conv_err s) (mallocs s) (live s) d0)) as Hs.
    rewrite Em in Hs. destruct Hs as [-> _]; [done|reflexivity].
  - intros [H1 H2 H3 H4 H5] _. pose proof (H s s') as Hs. rewrite Em in Hs.
    destruct Hs as [Hu (s1' & E & (? & ? & ? & ?) & Hu')]; [done|].
    exists s1'. split; [done|]. split; try done. by rewrite Hu, Hu'.
Qed.

Ltac local_op :=
  intros [t q e m l u] [t' q' e' m' l' u'] (E1 & E2 & E3 & E4); cbn in E1, E2, E3, E4; subst;
  cbv [mbind PM_bind mret PM_ret get put lift raise check unget] in *;
  cbn [prs txt conv_err mallocs live user set_prs set_txt set_conv];
  repeat (case_match; simplify_eq; try done);
  try (split; [done|]; eexists; split; [done|]; split; done).

Lemma skip_whitespace_local : local skip_whitespace skip_whitespace.
Proof. unfold skip_whitespace. local_op. Qed.

Lemma next_char_local : local next_char next_char.
Proof. unfold next_char. local_op. Qed.

Lemma unget_local : local unget unget.
Proof. local_op. Qed.

Lemma update_node_local f : local (update_node f) (update_node f).
Proof. unfold update_node. local_op. Qed.

Lemma malloc_local size : local (_malloc ja_malloc size) (_malloc ja_malloc size).
Proof. unfold _malloc. local_op. Qed.

Lemma free_local : local _free _free.
Proof. unfold _free. local_op. Qed.

Lemma get_string_local : local _get_string _get_string.
Proof. unfold _get_string. local_op. Qed.

Lemma expect_local str : local (_expect str) (_expect str).
Proof. unfold _expect. local_op. Qed.

Lemma get_number_local : local _get_number _get_number.
Proof. unfold _get_number. local_op. Qed.

Lemma insert_node_local name : local (insert_node name) (insert_node name).
Proof. unfold insert_node, update_node. local_op. Qed.

(** ** Operations that call back *)

Lemma steps_snoc evs ev d :
  steps step evs d0 = Some d -> is_Some (steps step (evs ++ [ev]) d0) ->
  exists d', step ev d = Some d' /\ steps step (evs ++ [ev]) d0 = Some d'.
Proof.
  rewrite steps_app. intros -> [d' Hd']. exists d'. split; [|done].
  unfold steps in Hd'. simpl in Hd'. exact Hd'.
Qed.

Lemma callback_simulated reason type un :
  simulated (_invoke_callback record_event reason type un) (_invoke_callback cb reason type un).
Proof.
  intros s s'. unfold follows, _invoke_callback. rewrite bind_get.
  destruct (scan (prs s)) eqn:Hscan.
  { split; [done|]. intros HR _. exists s'. split; [|done]. rewrite bind_get, (rel_prs _ _ HR), Hscan.
    done. }
  unfold record_event. destruct (decide (call_ok (prs s) (txt s) reason un)) as [Hok|]; [|done].
  rewrite (bind_lift _ _ _ _ eq_refl), bind_put. unfold check. rewrite decide_True by done.
  cbn [user]. split; [by eexists|]. intros [R1 R2 R3 R4 R5] HS.
  destruct (steps_snoc _ _ _ R5 HS) as (d' & Hd' & Hs').
  rewrite bind_get, R1, R2, Hscan.
  destruct (reader_step (prs s) (txt s) reason type un (conv_err s') (user s') d' Hok Hd') as (e' & Hc).
  rewrite (bind_lift _ _ _ _ Hc), bind_put. rewrite decide_True by done. eexists. split; [done|].
  by split.
Qed.

Lemma literal_simulated str type un :
  simulated (literal record_event str type un) (literal cb str type un).
Proof.
  unfold literal. apply simulated_bind; [apply local_simulated, expect_local|].
  intros []; [apply callback_simulated|apply simulated_raise].
Qed.

(** The scanner's copy of the parser makes no calls; what it leaves of the text
    is shared. *)
Lemma run_scanner_simulated array array' :
  simulated array array' -> simulated (run_scanner array) (run_scanner array').
Proof.
  intros H s s'. unfold follows, run_scanner.
  specialize (H (set_prs s (with_scan (prs s) true)) (set_prs s' (with_scan (prs s') true))).
  unfold follows in H. destruct (array _) as [[r s1]|]; [|done]. destruct H as [Hp H].
  split; [done|]. intros [R1 R2 R3 R4 R5] HS.
  assert (related (set_prs s (with_scan (prs s) true)) (set_prs s' (with_scan (prs s') true))) as HR
    by (split; simpl; try done; by rewrite R1).
  destruct (H HR HS) as (s1' & -> & [Q1 Q2 Q3 Q4 Q5]). eexists. split; [done|]. by split.
Qed.

Lemma scan_ahead_simulated array array' :
  simulated array array' -> simulated (scan_ahead ja_malloc array) (scan_ahead ja_malloc array').
Proof.
  intros H. unfold scan_ahead. apply simulated_bind; [apply local_simulated, malloc_local|].
  intros []; [|apply simulated_raise]. apply simulated_bind; [by apply run_scanner_simulated|].
  intros r. apply simulated_bind; [apply local_simulated, free_local|]. intros _.
  destruct r; [apply simulated_raise|apply simulated_ret].
Qed.

Lemma begin_object_simulated loop loop' :
  simulated loop loop' -> simulated (begin_object record_event loop) (begin_object cb loop').
Proof.
  intros H. unfold begin_object. apply simulated_bind; [apply callback_simulated|]. intros _ s s'.
  set (s1 := set_prs s (with_depth (prs s) (S (depth (prs s))))).
  set (s1' := set_prs s' (with_depth (prs s') (S (depth (prs s'))))).
  unfold follows. rewrite bind_get, bind_put.
  assert (related s s' -> related s1 s1') as HR1.
  { intros [R1 R2 R3 R4 R5]. split; simpl; try done. by rewrite R1. }
  destruct (decide (depth (prs s) = JSON_MAX_NESTING)) as [Hd|Hd].
  - split; [done|]. intros HR _. exists s1'. split; [|by apply HR1].
    unfold s1'. rewrite bind_get, bind_put, (rel_prs _ _ HR). by rewrite decide_True.
  - specialize (H s1 s1'). unfold follows in H. fold s1. destruct (loop s1) as [[r s2]|]; [|done].
    destruct H as [Hp H]. split; [done|]. intros HR HS. destruct (H (HR1 HR) HS) as (s2' & E & HR2).
    exists s2'. split; [|done]. rewrite bind_get, bind_put, (rel_prs _ _ HR), decide_False by done.
    unfold s1' in E. by rewrite (rel_prs _ _ HR) in E.
Qed.

Definition end_object {E} (callback : json_parser -> text -> json_reason -> json_type -> json_union ->
    json_result * E -> outcome (json_result * (json_result * E))) : PM E unit :=
  s ← get;
  if decide (depth (prs s) = 0%nat) then raise JSON_NESTING_UNDERFLOW
  else
    _ ← _invoke_callback callback JSON_REASON_END_OBJECT JSON_TYPE_NULL U_none;
    s ← get;
    put (set_prs s (with_depth (prs s) (Nat.pred (depth (prs s))))).

Definition drop_level {E} : PM E unit :=
  s ← get; put (set_prs s (with_depth (prs s) (Nat.pred (depth (prs s))))).

Lemma drop_level_local : local drop_level drop_level.
Proof. unfold drop_level. local_op. Qed.

Lemma end_object_simulated : simulated (end_object record_event) (end_object cb).
Proof.
  intros s s'. pose proof (simulated_bind _ _ (fun _ => drop_level) (fun _ => drop_level)
    (callback_simulated JSON_REASON_END_OBJECT JSON_TYPE_NULL U_none)
    (fun _ => local_simulated _ _ drop_level_local) s s') as H.
  unfold follows in *. unfold end_object. rewrite bind_get.
  destruct (decide (depth (prs s) = 0%nat)) as [Hd|Hd].
  - split; [done|]. intros HR _. exists s'. split; [|done].
    rewrite bind_get, (rel_prs _ _ HR). by rewrite decide_True.
  - unfold drop_level in H.
    destruct ((_invoke_callback record_event _ _ _ ≫= _) s) as [[r s1]|]; [|done].
    destruct H as [Hp H]. split; [done|]. intros HR HS. destruct (H HR HS) as (s1' & E & HR1).
    exists s1'. split; [|done]. rewrite bind_get, (rel_prs _ _ HR). by rewrite decide_False.
Qed.

(** ** The three functions *)

Ltac locally := apply simulated_bind; [apply local_simulated|intros ?].

Lemma all_simulated fuel :
  simulated (_get_value record_event ja_malloc fuel) (_get_value cb ja_malloc fuel) /\
  (forall i n, simulated (get_array_loop record_event ja_malloc fuel i n)
                         (get_array_loop cb ja_malloc fuel i n)) /\
  simulated (get_object_loop record_event ja_malloc fuel) (get_object_loop cb ja_malloc fuel).
Proof.
  induction fuel as [|fuel (IHv & IHa & IHo)]; [split; [|split]; intros; apply simulated_lift|].
  split; [|split].
  - cbn [_get_value]. locally; [apply skip_whitespace_local|]. locally; [apply next_char_local|].
    repeat (case_match; [first [apply literal_simulated|by apply begin_object_simulated|idtac]|]).
    + apply simulated_bind; [by apply scan_ahead_simulated|intros size].
      locally; [apply update_node_local|]. apply simulated_bind; [apply callback_simulated|intros _].
      apply simulated_bind; [by apply simulated_or_raise|intros _]. apply callback_simulated.
    + apply simulated_bind; [apply simulated_or_raise, local_simulated, get_string_local|intros p].
      apply callback_simulated.
    + locally; [apply unget_local|].
      apply simulated_bind; [apply simulated_or_raise, local_simulated, get_number_local|].
      intros [type un]. apply callback_simulated.
  - intros i n. cbn [get_array_loop].
    locally; [apply skip_whitespace_local|]. locally; [apply next_char_local|].
    case_match; [apply IHa|]. case_match; [apply simulated_ret|].
    locally; [apply update_node_local|]. locally; [apply unget_local|].
    apply simulated_bind; [done|intros _]. apply IHa.
  - cbn [get_object_loop].
    locally; [apply skip_whitespace_local|]. locally; [apply next_char_local|].
    case_match; [|case_match; [apply end_object_simulated|done]].
    locally; [apply get_string_local|]. locally; [apply insert_node_local|].
    apply simulated_bind; [apply callback_simulated|intros _].
    locally; [apply skip_whitespace_local|]. locally; [apply next_char_local|].
    case_match; [|apply simulated_raise]. by apply simulated_bind; [|intros _].
Qed.

Lemma parse_simulated fuel :
  simulated (json_parser_parse record_event ja_malloc fuel) (json_parser_parse cb ja_malloc fuel).
Proof.
  unfold json_parser_parse. locally; [apply skip_whitespace_local|]. locally; [apply next_char_local|].
  case_match; [|apply simulated_raise]. apply begin_object_simulated, all_simulated.
Qed.
End Follow.

(** The parse of a document, which other text may follow, with a reader whose
    [step] accepts all its events. *)
Lemma parse_follows `{StringEncoding} {D} cb (step : event -> D -> option D) `{!EventReader cb step}
    ja_malloc ms rest allow fuel d d' :
  (forall n size, ja_malloc n size = true) -> supported (JObject ms) ->
  (nesting (JObject ms) <= JSON_MAX_NESTING)%nat -> Forall is_byte rest ->
  let t := render (JObject ms) ++ rest in
  (2 * length t + 3 <= fuel)%nat ->
  steps step (events [] (JObject ms)) d = Some d' ->
  exists s', json_parser_parse cb ja_malloc fuel (start_parse (t ++ [0]) (length t) allow d) =
               Done (inr tt, s') /\ user s' = d' /\ depth (prs s') = 0%nat.
Proof.
  intros Hm Hs Hn Hr t Hf Hd.
  destruct (parse_complete ja_malloc ms rest allow fuel Hm Hs Hn Hr Hf) as (s1 & Hp & Hu & Hd1).
  pose proof (parse_simulated cb step ja_malloc d fuel (start_parse (t ++ [0]) (length t) allow [])
                (start_parse (t ++ [0]) (length t) allow d)) as H1.
  unfold follows in H1. fold t in Hp. rewrite Hp in H1. destruct H1 as [_ H1].
  destruct H1 as (s' & E & [R1 R2 R3 R4 R5]); [by split|rewrite Hu; by eexists|].
  exists s'. split; [done|]. rewrite Hu, Hd in R5. split; [by simplify_eq|by rewrite R1].
Qed.

(** ** What a callback reads through the parser's pointers *)

(** A C string of the text: it must have an end. *)
Definition c_string (t : text) (p : nat) : outcome text :=
  if decide (0 ∈ drop p t) then Done (str_at t p) else Failed (BadPointer (Z.of_nat (length t))).

Definition read_union (t : text) (un : json_union) : outcome value :=
  match un with
  | U_none => Done VNone
  | U_boolean b => Done (VBool b)
  | U_integer z => Done (VInt z)
  | U_real d => Done (VReal d)
  | U_string p => s ← c_string t p; Done (VString s)
  end.

Lemma c_string_ok t p e : t !! e = Some 0 -> (p <= e)%nat -> c_string t p = Done (str_at t p).
Proof.
  intros He Hp. unfold c_string. rewrite decide_True; [done|].
  apply (list_elem_of_lookup_2 _ (e - p)). rewrite lookup_drop. by replace (p + (e - p))%nat with e by lia.
Qed.

Lemma read_union_ok q t reason un :
  call_ok q t reason un -> read_union t un = Done (capture t un).
Proof.
  intros (He & _ & Hun & _). destruct un; try done. simpl. by rewrite (c_string_ok _ _ _ He Hun).
Qed.

Lemma frames_length q t : path_in q -> length (frames_of q t) = depth q.
Proof. intros [Hd _]. unfold frames_of. rewrite length_fmap, length_take. lia. Qed.

Lemma frames_lookup q t i : (i < depth q)%nat -> path_in q ->
  exists n, path q !! i = Some n /\ frames_of q t !! i = Some (node_frame t n).
Proof.
  intros Hi [Hd _]. destruct (lookup_lt_is_Some_2 (path q) i ltac:(lia)) as [n Hn]. exists n.
  split; [done|]. unfold frames_of. rewrite list_lookup_fmap, lookup_take_lt by done. by rewrite Hn.
Qed.
