(* ===== verification/Env.v ===== *)
(** * Env: strings, sizes and hexadecimal (src/shared/env.c, src/shared/string_list.c)

    The helpers that the configuration code of host and enclave shares.  The
    C library's [strtoul] and [strtoull] are modelled as the C standard defines
    them for the C locale; the environment is a parameter. *)

From Stdlib Require Import String.
From S2P Require Import Prelude JsonText JsonNumbers JsonStrings.

(** ** [strtoul] of the C library *)

(** The value of a digit or letter, as [_digit] has it, if below [base]. *)
Definition digit_in (base c : Z) : bool := _digit c <? base.

(** The digits: their value without bound, how many, and the rest. *)
Fixpoint take_digits (base : Z) (l : text) (x : Z) (n : nat) : Z * nat :=
  match l with
  | c :: l' => if digit_in base c then take_digits base l' (x * base + _digit c) (S n) else (x, n)
  | [] => (x, n)
  end.

Fixpoint drop_spaces (l : text) : text :=
  match l with c :: l' => if _isspace c then drop_spaces l' else l | [] => [] end.

(** [strtoul(str, &endptr, base)] for base 10 or 16: the value, the number of
    characters before [endptr], and whether ERANGE is set. *)
Definition c_strtoul (str : text) (base : Z) : Z * nat * bool :=
  let l1 := drop_spaces str in
  let '(neg, l2) := match l1 with
                    | c :: l' => if c =? 45 then (true, l') else if c =? 43 then (false, l') else (false, l1)
                    | [] => (false, l1)
                    end in
  let l3 := match l2 with
            | c0 :: c1 :: c2 :: l' =>
                if (base =? 16) && (c0 =? 48) && ((c1 =? 120) || (c1 =? 88)) && digit_in 16 c2
                then c2 :: l' else l2
            | _ => l2
            end in
  let '(x, n) := take_digits base l3 0 0 in
  if bool_decide (n = 0%nat) then (0, 0%nat, false)
  else
    let used := (length str - length l3 + n)%nat in
    if ULONG_MAX <? x then (ULONG_MAX, used, true)
    else (if neg then u64 (- x) else x, used, false).

(** ** env.c *)

(** [hex_to_int]: characters that are no digits count as 0. *)
Definition hex_nibble (c : Z) : Z :=
  if (48 <=? c) && (c <=? 57) then Z.land (c - 48) 255
  else if (97 <=? c) && (c <=? 102) then Z.land (10 + (c - 97)) 255
  else if (65 <=? c) && (c <=? 70) then Z.land (10 + (c - 65)) 255
  else 0.

Fixpoint hex_to_int_from (t : text) (p : nat) (num_digits : nat) (r : Z) : outcome Z :=
  match num_digits with
  | O => Done r
  | S n => c ← rd t p; hex_to_int_from t (S p) n (Z.lor (u64 (Z.shiftl r 4)) (hex_nibble c))
  end.
Definition hex_to_int (t : text) (digits num_digits : nat) : outcome Z :=
  hex_to_int_from t digits num_digits 0.

(** The multiplier of a unit suffix. *)
Definition unit_multiplier (c : Z) : Z :=
  if (c =? 71) || (c =? 103) then 1024 * 1024 * 1024
  else if (c =? 77) || (c =? 109) then 1024 * 1024
  else if (c =? 75) || (c =? 107) then 1024
  else 1.

(** [size_str_to_uint64] of the C string [str]. *)
Definition size_str_to_uint64 (str : text) (def max : Z) : Z :=
  let '(r0, used, erange) := c_strtoul str 10 in
  let r := if (r0 =? ULONG_MAX) && erange then def else r0 in
  let m := unit_multiplier (default 0 (str !! used)) in
  if ULONG_MAX / m <? r then max
  else let r' := u64 (r * m) in if max <? r' then max else r'.

Section Getenv.
Variable getenv : text -> option text.

Definition getenv_uint64 (var : text) (def max : Z) : Z :=
  match getenv var with None => def | Some v => size_str_to_uint64 v def max end.

Definition getenv_str (var : text) (def : option text) : option text :=
  match getenv var with Some v => Some v | None => def end.

(** [strncmp(val, "0", 1)] compares the first character, or the terminator. *)
Definition getenv_bool (var : text) (def : bool) : bool :=
  match getenv var with
  | None => def
  | Some v =>
      let c := default 0 (head v) in
      if def then negb (c =? 48) else c =? 49
  end.
End Getenv.

(** [next_pow2]; the loop never ends once the shift has produced 0. *)
Fixpoint next_pow2_loop (fuel : nat) (n x : Z) : outcome Z :=
  match fuel with
  | O => Failed OutOfFuel
  | S fuel => if n <? x then next_pow2_loop fuel (u64 (Z.shiftl n 1)) x else Done n
  end.
Definition next_pow2 (fuel : nat) (x : Z) : outcome Z := next_pow2_loop fuel 1 x.

(** [hex_to_bytes]: None is the return code -1 with errno EINVAL, or ENOMEM when
    no memory is [granted].  [buf] is "xx": an odd length is read as the empty
    string, since [buf[0]] is set to the terminator. *)
Fixpoint hex_pairs (l : text) : option (list Z) :=
  match l with
  | [] => Some []
  | a :: b :: l' =>
      let '(v, used, _) := c_strtoul (until_nul [a; b]) 16 in
      if bool_decide (used = 2%nat) then
        match hex_pairs l' with Some r => Some (u8 v :: r) | None => None end
      else None
  | [_] => None
  end.
Definition hex_to_bytes (granted : bool) (hex : text) : option (list Z) :=
  if negb granted then None
  else if Z.odd (Z.of_nat (length hex)) then
    let buf := [0; default 0 (head hex)] in
    let '(v, used, _) := c_strtoul (until_nul buf) 16 in
    if bool_decide (used = 2%nat) then
      match hex_pairs (tail hex) with Some r => Some r | None => None end
    else None
  else hex_pairs hex.

(** ["%02x"]. *)
Definition hex_char (d : Z) : Z := if d <? 10 then 48 + d else 97 + (d - 10).
Definition two_hex (b : Z) : text := [hex_char (b / 16); hex_char (b mod 16)].

(** [bytes_to_hex]: the string written, None for a NULL result. *)
Definition bytes_to_hex (str_size : nat) (data : option (list Z)) : option text :=
  match data with
  | None => None
  | Some d =>
      if bool_decide (str_size < 2 * length d + 1)%nat then None else Some (flat_map two_hex d)
  end.

(** ** string_list.c

    A list of C strings; [granted] says whether the node gets its memory.  The
    elements are compared by contents: the shortcut for equal pointers cannot
    differ from it. *)

Definition string_list_add (granted : bool) (l : list text) (str : text) : list text :=
  if granted then str :: l else l.
Fixpoint string_list_contains (l : list text) (str : text) : bool :=
  match l with
  | [] => false
  | e :: l' => if bool_decide (e = str) then true else string_list_contains l' str
  end.
Fixpoint string_list_len (l : list text) : Z :=
  match l with [] => 0 | _ :: l' => 1 + string_list_len l' end.

(** ** Properties *)

Lemma hex_char_range d : 0 <= d < 16 -> is_byte (hex_char d) /\ hex_nibble (hex_char d) = d.
Proof.
  intros Hd. assert (forallb (fun i => (hex_nibble (hex_char (Z.of_nat i)) =? Z.of_nat i) &&
    ((0 <=? hex_char (Z.of_nat i)) && (hex_char (Z.of_nat i) <? 256))) (seq 0 16) = true) as H
    by (vm_compute; done).
  rewrite forallb_forall in H. specialize (H (Z.to_nat d)). rewrite Z2Nat.id in H by lia.
  specialize (H ltac:(apply in_seq; lia)). unfold is_byte. lia.
Qed.

(** A digit more, at 64 bits. *)
Lemma lor_nibble r d : 0 <= r < 2 ^ 60 -> 0 <= d < 16 -> Z.lor (u64 (Z.shiftl r 4)) d = 16 * r + d.
Proof.
  intros Hr Hd. rewrite Z.shiftl_mul_pow2 by lia. rewrite u64_small by lia.
  change (2 ^ 4) with 16. pose proof (Z.add_lor_land (r * 16) d).
  enough (Z.land (r * 16) d = 0) by lia.
  apply Z.bits_inj'. intros n Hn. rewrite Z.land_spec, Z.bits_0.
  destruct (Z.ltb_spec n 4).
  - change 16 with (2 ^ 4). by rewrite Z.mul_pow2_bits_low by lia.
  - rewrite (Z.bits_above_log2 d n); [by rewrite andb_false_r|lia|].
    destruct (decide (d = 0)) as [->|]; [simpl; lia|].
    apply Z.log2_lt_pow2; [lia|]. apply Z.lt_le_trans with (2 ^ 4); [lia|].
    apply Z.pow_le_mono_r; lia.
Qed.

(** Reading back the hexadecimal form of the bytes, two characters at a time,
    gives the bytes: the loop of JHEXBUF in sgxlkl_enclave_config.c. *)
Definition decode_hex (t : text) (n : nat) : list (outcome Z) :=
  map (fun i => hex_to_int t (2 * i) 2) (seq 0 n).

Lemma hex_pair t p b :
  is_byte b -> t !! p = Some (hex_char (b / 16)) -> t !! S p = Some (hex_char (b mod 16)) ->
  hex_to_int t p 2 = Done b.
Proof.
  intros Hb H0 H1. unfold is_byte in Hb.
  pose proof (Z.div_mod b 16 ltac:(lia)). pose proof (Z.mod_pos_bound b 16 ltac:(lia)).
  assert (0 <= b / 16 < 16) by (split; [apply Z.div_pos; lia|apply Z.div_lt_upper_bound; lia]).
  unfold hex_to_int. cbn [hex_to_int_from]. unfold rd. rewrite H0. cbn [mbind outcome_bind].
  rewrite H1. cbn [mbind outcome_bind].
  rewrite (proj2 (hex_char_range (b / 16) ltac:(lia))), (proj2 (hex_char_range (b mod 16) ltac:(lia))).
  rewrite (lor_nibble 0 (b / 16)) by lia. rewrite lor_nibble by lia. f_equal. lia.
Qed.

(** The hexadecimal form that [bytes_to_hex] writes is read back as the same
    bytes by [hex_to_int] on each pair of characters, whatever follows it. *)
Theorem bytes_to_hex_round_trip d size rest :
  Forall is_byte d -> (2 * length d + 1 <= size)%nat ->
  exists h, bytes_to_hex size (Some d) = Some h /\
    decode_hex (h ++ rest) (length d) = map Done d.
Proof.
  intros Hd Hs. exists (flat_map two_hex d). unfold bytes_to_hex.
  split; [by rewrite bool_decide_false by lia|]. clear Hs. unfold decode_hex.
  assert (forall pre : text, (forall k, (2 * k = length pre)%nat ->
    map (fun i => hex_to_int (pre ++ flat_map two_hex d ++ rest) (2 * i) 2) (seq k (length d))
    = map Done d)) as H.
  { induction Hd as [|b d Hb Hd IH]; intros pre k Hk; [done|].
    cbn [length seq map flat_map]. f_equal.
    - rewrite Hk. apply hex_pair; [done|..]; rewrite lookup_app_r by lia.
      + by rewrite Nat.sub_diag.
      + by replace (S (length pre) - length pre)%nat with 1%nat by lia.
    - rewrite <- (IH (pre ++ two_hex b) (S k)) by (rewrite length_app; simpl; lia).
      by rewrite <- !app_assoc. }
  apply (H [] 0%nat). done.
Qed.

Lemma bytes_to_hex_round_trip_witness :
  exists h, bytes_to_hex 7 (Some [0; 171; 255]) = Some h /\
    decode_hex (h ++ [0]) 3 = map Done [0; 171; 255].
Proof.
  apply (bytes_to_hex_round_trip [0; 171; 255] 7 [0]); [|simpl; lia].
  repeat constructor; unfold is_byte; lia.
Defined.

(** [hex_to_bytes] accepts no string of odd length. *)
Lemma hex_to_bytes_odd granted hex :
  Z.odd (Z.of_nat (length hex)) = true -> hex_to_bytes granted hex = None.
Proof. intros H. unfold hex_to_bytes. rewrite H. by destruct granted. Qed.

Lemma next_pow2_zero fuel x : 0 < x -> next_pow2_loop fuel 0 x = Failed OutOfFuel.
Proof.
  intros Hx. induction fuel as [|fuel IH]; [done|]. cbn [next_pow2_loop].
  replace (0 <? x) with true by lia. exact IH.
Qed.

Lemma next_pow2_small k j x :
  (j + k = 63)%nat -> x <= 2 ^ 63 -> j = 0%nat \/ 2 ^ (Z.of_nat j - 1) < x ->
  exists i, (j <= i <= 63)%nat /\ next_pow2_loop (S k) (2 ^ Z.of_nat j) x = Done (2 ^ Z.of_nat i) /\
    x <= 2 ^ Z.of_nat i /\ (i = 0%nat \/ 2 ^ (Z.of_nat i - 1) < x).
Proof.
  revert j. induction k as [|k IH]; intros j Hj Hx Hlow; cbn [next_pow2_loop].
  - assert (j = 63%nat) as -> by lia. change (Z.of_nat 63) with 63 in *.
    replace (2 ^ 63 <? x) with false by lia. exists 63%nat. split; [lia|]. split; [done|].
    by split.
  - destruct (Z.ltb_spec (2 ^ Z.of_nat j) x); [|exists j; split; [lia|]; split; [done|]; by split].
    assert (u64 (Z.shiftl (2 ^ Z.of_nat j) 1) = 2 ^ Z.of_nat (S j)) as ->.
    { rewrite Z.shiftl_mul_pow2, <- Z.pow_add_r by lia.
      replace (Z.of_nat j + 1) with (Z.of_nat (S j)) by lia. apply u64_small.
      split; [lia|]. apply Z.pow_lt_mono_r; lia. }
    destruct (IH (S j)) as (i & Hi & Hl & Hr); [lia|done| |].
    { right. by replace (Z.of_nat (S j) - 1) with (Z.of_nat j) by lia. }
    exists i. split; [lia|]. by split.
Qed.

Lemma next_pow2_large k j x fuel :
  (j + k = 63)%nat -> 2 ^ 63 < x -> next_pow2_loop fuel (2 ^ Z.of_nat j) x = Failed OutOfFuel.
Proof.
  revert j fuel. induction k as [|k IH]; intros j fuel Hj Hx; (destruct fuel as [|fuel]; [done|]);
    cbn [next_pow2_loop].
  - assert (j = 63%nat) as -> by lia. change (Z.of_nat 63) with 63.
    replace (2 ^ 63 <? x) with true by lia.
    change (u64 (Z.shiftl (2 ^ 63) 1)) with 0. apply next_pow2_zero. lia.
  - assert (2 ^ Z.of_nat j < x) by
      (apply Z.le_lt_trans with (2 ^ 63); [apply Z.pow_le_mono_r; lia|done]).
    replace (2 ^ Z.of_nat j <? x) with true by lia.
    assert (u64 (Z.shiftl (2 ^ Z.of_nat j) 1) = 2 ^ Z.of_nat (S j)) as ->.
    { rewrite Z.shiftl_mul_pow2, <- Z.pow_add_r by lia.
      replace (Z.of_nat j + 1) with (Z.of_nat (S j)) by lia. apply u64_small.
      split; [lia|]. apply Z.pow_lt_mono_r; lia. }
    apply IH; [lia|done].
Qed.

(** [next_pow2] returns the least power of two that is at least its argument
    for every argument up to 2^63, after at most 64 rounds; for a larger
    argument the loop never ends, because the shift wraps around to 0. *)
Theorem next_pow2_spec x :
  0 <= x < 2 ^ 64 ->
  (x <= 2 ^ 63 -> exists i, (i <= 63)%nat /\ next_pow2 64 x = Done (2 ^ Z.of_nat i) /\
     x <= 2 ^ Z.of_nat i /\ forall j, (j < i)%nat -> 2 ^ Z.of_nat j < x) /\
  (2 ^ 63 < x -> forall fuel, next_pow2 fuel x = Failed OutOfFuel).
Proof.
  intros Hx. split; intros Hb.
  - destruct (next_pow2_small 63 0 x ltac:(lia) Hb ltac:(by left)) as (i & Hi & Hl & Hle & Hlow).
    exists i. split; [lia|]. split; [exact Hl|]. split; [done|]. intros j Hj.
    destruct Hlow as [->|Hlow]; [lia|].
    apply Z.le_lt_trans with (2 ^ (Z.of_nat i - 1)); [apply Z.pow_le_mono_r; lia|done].
  - intros fuel. by apply (next_pow2_large 63 0).
Qed.

Lemma next_pow2_spec_witness :
  (1000 <= 2 ^ 63 -> exists i, (i <= 63)%nat /\ next_pow2 64 1000 = Done (2 ^ Z.of_nat i) /\
     1000 <= 2 ^ Z.of_nat i /\ forall j, (j < i)%nat -> 2 ^ Z.of_nat j < 1000) /\
  (2 ^ 63 < 1000 -> forall fuel, next_pow2 fuel 1000 = Failed OutOfFuel).
Proof. apply (next_pow2_spec 1000). lia. Defined.
