(* ===== verification/EnclaveConfig.v ===== *)
(** * EnclaveConfig: the enclave configuration (sgxlkl_enclave_config_t)

    The structures come from a header that the build generates from
    tools/schemas/enclave-config.schema.json; both the serializer of the host
    (src/main-oe/serialize_enclave_config.c) and the reader of the enclave
    (src/shared/sgxlkl_enclave_config.c) work on them.  A pointer to a string is
    an [option]; an array with its length is a list, and so is a key with its
    length.  The enumerations and their names are what [GeneratedConfig] says of
    the generated code. *)

From Stdlib Require Import String.
From S2P Require Import Prelude JsonText.

(** ** The structures *)

Record wg_peer_config : Type := WgPeer {
  peer_key : option text; peer_allowed_ips : option text; peer_endpoint : option text }.

Record wg_config : Type := Wg {
  wg_ip : option text; wg_listen_port : Z; wg_key : option text; wg_peers : list wg_peer_config }.

Record root_config : Type := Root {
  root_key : option (list Z); root_key_id : option text; root_roothash : option text;
  root_roothash_offset : Z; root_readonly : bool; root_overlay : bool }.

Record mount_config : Type := Mount {
  mnt_destination : text; mnt_key : option (list Z); mnt_key_id : option text; mnt_fresh_key :
  bool; mnt_roothash : option text; mnt_roothash_offset : Z; mnt_readonly : bool; mnt_create :
  bool; mnt_size : Z }.

Record image_sizes_config : Type := ImageSizes {
  num_heap_pages : Z; num_stack_pages : Z }.

Record io_config : Type := Io {
  io_console : bool; io_block : bool; io_network : bool }.

(** A letter of the names of the enumerations. *)
Definition name_letter (c : Z) : bool := ((97 <=? c) && (c <=? 122)) || (c =? 95).

(** The generated code: an enumeration is converted to its name and back;
    another name stops the program. *)
Class GeneratedConfig : Type := {
  sgxlkl_enclave_mode_t : Type;
  sgxlkl_enclave_mmap_files_t : Type;
  sgxlkl_exit_status_mode_t : Type;
  sgxlkl_enclave_mode_t_to_string : sgxlkl_enclave_mode_t -> text;
  sgxlkl_enclave_mmap_files_t_to_string : sgxlkl_enclave_mmap_files_t -> text;
  sgxlkl_exit_status_mode_t_to_string : sgxlkl_exit_status_mode_t -> text;
  string_to_sgxlkl_enclave_mode_t : text -> outcome sgxlkl_enclave_mode_t;
  string_to_sgxlkl_enclave_mmap_files_t : text -> outcome sgxlkl_enclave_mmap_files_t;
  string_to_sgxlkl_exit_status_mode_t : text -> outcome sgxlkl_exit_status_mode_t;
  SGXLKL_ENCLAVE_CONFIG_T_VERSION : Z;
  mode_string m :
    string_to_sgxlkl_enclave_mode_t (sgxlkl_enclave_mode_t_to_string m) = Done m;
  mmap_files_string m :
    string_to_sgxlkl_enclave_mmap_files_t (sgxlkl_enclave_mmap_files_t_to_string m) = Done m;
  exit_status_string m :
    string_to_sgxlkl_exit_status_mode_t (sgxlkl_exit_status_mode_t_to_string m) = Done m;
  mode_letters m : forallb name_letter (sgxlkl_enclave_mode_t_to_string m) = true;
  mmap_files_letters m : forallb name_letter (sgxlkl_enclave_mmap_files_t_to_string m) = true;
  exit_status_letters m : forallb name_letter (sgxlkl_exit_status_mode_t_to_string m) = true;
  version_range : 0 <= SGXLKL_ENCLAVE_CONFIG_T_VERSION < 10 ^ 16
}.

Section Config.
Context `{Gen : GeneratedConfig}.

Record enclave_config : Type := EnclaveConfig {
  mode : sgxlkl_enclave_mode_t; stacksize : Z; mmap_files : sgxlkl_enclave_mmap_files_t;
  oe_heap_pagecount : Z; net_ip4 : option text; net_gw4 : option text; net_mask4 : option text;
  hostname : option text; tap_mtu : Z; hostnet : bool; wg : wg_config; max_user_threads : Z;
  espins : Z; esleep : Z; ethreads : Z; clock_res : list text; fsgsbase : bool; verbose : bool;
  kernel_verbose : bool; kernel_cmd : option text; sysctl : option text; swiotlb : bool; cwd :
  option text; args : list (option text); env : list (option text); host_import_env : list
  (option text); root : root_config; mounts : list mount_config; exit_status :
  sgxlkl_exit_status_mode_t; image_sizes : image_sizes_config; io : io_config }.

(** ** Assigning a field *)

Definition set_mode (v : sgxlkl_enclave_mode_t) (c : enclave_config) : enclave_config :=
  EnclaveConfig v (stacksize c) (mmap_files c) (oe_heap_pagecount c) (net_ip4 c) (net_gw4 c)
    (net_mask4 c) (hostname c) (tap_mtu c) (hostnet c) (wg c) (max_user_threads c) (espins c)
    (esleep c) (ethreads c) (clock_res c) (fsgsbase c) (verbose c) (kernel_verbose c) (kernel_cmd
    c) (sysctl c) (swiotlb c) (cwd c) (args c) (env c) (host_import_env c) (root c) (mounts c)
    (exit_status c) (image_sizes c) (io c).
Definition set_stacksize (v : Z) (c : enclave_config) : enclave_config :=
  EnclaveConfig (mode c) v (mmap_files c) (oe_heap_pagecount c) (net_ip4 c) (net_gw4 c) (net_mask4
    c) (hostname c) (tap_mtu c) (hostnet c) (wg c) (max_user_threads c) (espins c) (esleep c)
    (ethreads c) (clock_res c) (fsgsbase c) (verbose c) (kernel_verbose c) (kernel_cmd c) (sysctl
    c) (swiotlb c) (cwd c) (args c) (env c) (host_import_env c) (root c) (mounts c) (exit_status
    c) (image_sizes c) (io c).
Definition set_mmap_files (v : sgxlkl_enclave_mmap_files_t) (c : enclave_config) :
    enclave_config :=
  EnclaveConfig (mode c) (stacksize c) v (oe_heap_pagecount c) (net_ip4 c) (net_gw4 c) (net_mask4
    c) (hostname c) (tap_mtu c) (hostnet c) (wg c) (max_user_threads c) (espins c) (esleep c)
    (ethreads c) (clock_res c) (fsgsbase c) (verbose c) (kernel_verbose c) (kernel_cmd c) (sysctl
    c) (swiotlb c) (cwd c) (args c) (env c) (host_import_env c) (root c) (mounts c) (exit_status
    c) (image_sizes c) (io c).
Definition set_oe_heap_pagecount (v : Z) (c : enclave_config) : enclave_config :=
  EnclaveConfig (mode c) (stacksize c) (mmap_files c) v (net_ip4 c) (net_gw4 c) (net_mask4 c)
    (hostname c) (tap_mtu c) (hostnet c) (wg c) (max_user_threads c) (espins c) (esleep c)
    (ethreads c) (clock_res c) (fsgsbase c) (verbose c) (kernel_verbose c) (kernel_cmd c) (sysctl
    c) (swiotlb c) (cwd c) (args c) (env c) (host_import_env c) (root c) (mounts c) (exit_status
    c) (image_sizes c) (io c).
Definition set_net_ip4 (v : option text) (c : enclave_config) : enclave_config :=
  EnclaveConfig (mode c) (stacksize c) (mmap_files c) (oe_heap_pagecount c) v (net_gw4 c)
    (net_mask4 c) (hostname c) (tap_mtu c) (hostnet c) (wg c) (max_user_threads c) (espins c)
    (esleep c) (ethreads c) (clock_res c) (fsgsbase c) (verbose c) (kernel_verbose c) (kernel_cmd
    c) (sysctl c) (swiotlb c) (cwd c) (args c) (env c) (host_import_env c) (root c) (mounts c)
    (exit_status c) (image_sizes c) (io c).
Definition set_net_gw4 (v : option text) (c : enclave_config) : enclave_config :=
  EnclaveConfig (mode c) (stacksize c) (mmap_files c) (oe_heap_pagecount c) (net_ip4 c) v
    (net_mask4 c) (hostname c) (tap_mtu c) (hostnet c) (wg c) (max_user_threads c) (espins c)
    (esleep c) (ethreads c) (clock_res c) (fsgsbase c) (verbose c) (kernel_verbose c) (kernel_cmd
    c) (sysctl c) (swiotlb c) (cwd c) (args c) (env c) (host_import_env c) (root c) (mounts c)
    (exit_status c) (image_sizes c) (io c).
Definition set_net_mask4 (v : option text) (c : enclave_config) : enclave_config :=
  EnclaveConfig (mode c) (stacksize c) (mmap_files c) (oe_heap_pagecount c) (net_ip4 c) (net_gw4
    c) v (hostname c) (tap_mtu c) (hostnet c) (wg c) (max_user_threads c) (espins c) (esleep c)
    (ethreads c) (clock_res c) (fsgsbase c) (verbose c) (kernel_verbose c) (kernel_cmd c) (sysctl
    c) (swiotlb c) (cwd c) (args c) (env c) (host_import_env c) (root c) (mounts c) (exit_status
    c) (image_sizes c) (io c).
Definition set_hostname (v : option text) (c : enclave_config) : enclave_config :=
  EnclaveConfig (mode c) (stacksize c) (mmap_files c) (oe_heap_pagecount c) (net_ip4 c) (net_gw4
    c) (net_mask4 c) v (tap_mtu c) (hostnet c) (wg c) (max_user_threads c) (espins c) (esleep c)
    (ethreads c) (clock_res c) (fsgsbase c) (verbose c) (kernel_verbose c) (kernel_cmd c) (sysctl
    c) (swiotlb c) (cwd c) (args c) (env c) (host_import_env c) (root c) (mounts c) (exit_status
    c) (image_sizes c) (io c).
Definition set_tap_mtu (v : Z) (c : enclave_config) : enclave_config :=
  EnclaveConfig (mode c) (stacksize c) (mmap_files c) (oe_heap_pagecount c) (net_ip4 c) (net_gw4
    c) (net_mask4 c) (hostname c) v (hostnet c) (wg c) (max_user_threads c) (espins c) (esleep c)
    (ethreads c) (clock_res c) (fsgsbase c) (verbose c) (kernel_verbose c) (kernel_cmd c) (sysctl
    c) (swiotlb c) (cwd c) (args c) (env c) (host_import_env c) (root c) (mounts c) (exit_status
    c) (image_sizes c) (io c).
Definition set_hostnet (v : bool) (c : enclave_config) : enclave_config :=
  EnclaveConfig (mode c) (stacksize c) (mmap_files c) (oe_heap_pagecount c) (net_ip4 c) (net_gw4
    c) (net_mask4 c) (hostname c) (tap_mtu c) v (wg c) (max_user_threads c) (espins c) (esleep c)
    (ethreads c) (clock_res c) (fsgsbase c) (verbose c) (kernel_verbose c) (kernel_cmd c) (sysctl
    c) (swiotlb c) (cwd c) (args c) (env c) (host_import_env c) (root c) (mounts c) (exit_status
    c) (image_sizes c) (io c).
Definition set_wg (v : wg_config) (c : enclave_config) : enclave_config :=
  EnclaveConfig (mode c) (stacksize c) (mmap_files c) (oe_heap_pagecount c) (net_ip4 c) (net_gw4
    c) (net_mask4 c) (hostname c) (tap_mtu c) (hostnet c) v (max_user_threads c) (espins c)
    (esleep c) (ethreads c) (clock_res c) (fsgsbase c) (verbose c) (kernel_verbose c) (kernel_cmd
    c) (sysctl c) (swiotlb c) (cwd c) (args c) (env c) (host_import_env c) (root c) (mounts c)
    (exit_status c) (image_sizes c) (io c).
Definition set_max_user_threads (v : Z) (c : enclave_config) : enclave_config :=
  EnclaveConfig (mode c) (stacksize c) (mmap_files c) (oe_heap_pagecount c) (net_ip4 c) (net_gw4
    c) (net_mask4 c) (hostname c) (tap_mtu c) (hostnet c) (wg c) v (espins c) (esleep c) (ethreads
    c) (clock_res c) (fsgsbase c) (verbose c) (kernel_verbose c) (kernel_cmd c) (sysctl c)
    (swiotlb c) (cwd c) (args c) (env c) (host_import_env c) (root c) (mounts c) (exit_status c)
    (image_sizes c) (io c).
Definition set_espins (v : Z) (c : enclave_config) : enclave_config :=
  EnclaveConfig (mode c) (stacksize c) (mmap_files c) (oe_heap_pagecount c) (net_ip4 c) (net_gw4
    c) (net_mask4 c) (hostname c) (tap_mtu c) (hostnet c) (wg c) (max_user_threads c) v (esleep c)
    (ethreads c) (clock_res c) (fsgsbase c) (verbose c) (kernel_verbose c) (kernel_cmd c) (sysctl
    c) (swiotlb c) (cwd c) (args c) (env c) (host_import_env c) (root c) (mounts c) (exit_status
    c) (image_sizes c) (io c).
Definition set_esleep (v : Z) (c : enclave_config) : enclave_config :=
  EnclaveConfig (mode c) (stacksize c) (mmap_files c) (oe_heap_pagecount c) (net_ip4 c) (net_gw4
    c) (net_mask4 c) (hostname c) (tap_mtu c) (hostnet c) (wg c) (max_user_threads c) (espins c) v
    (ethreads c) (clock_res c) (fsgsbase c) (verbose c) (kernel_verbose c) (kernel_cmd c) (sysctl
    c) (swiotlb c) (cwd c) (args c) (env c) (host_import_env c) (root c) (mounts c) (exit_status
    c) (image_sizes c) (io c).
Definition set_ethreads (v : Z) (c : enclave_config) : enclave_config :=
  EnclaveConfig (mode c) (stacksize c) (mmap_files c) (oe_heap_pagecount c) (net_ip4 c) (net_gw4
    c) (net_mask4 c) (hostname c) (tap_mtu c) (hostnet c) (wg c) (max_user_threads c) (espins c)
    (esleep c) v (clock_res c) (fsgsbase c) (verbose c) (kernel_verbose c) (kernel_cmd c) (sysctl
    c) (swiotlb c) (cwd c) (args c) (env c) (host_import_env c) (root c) (mounts c) (exit_status
    c) (image_sizes c) (io c).
Definition set_clock_res (v : list text) (c : enclave_config) : enclave_config :=
  EnclaveConfig (mode c) (stacksize c) (mmap_files c) (oe_heap_pagecount c) (net_ip4 c) (net_gw4
    c) (net_mask4 c) (hostname c) (tap_mtu c) (hostnet c) (wg c) (max_user_threads c) (espins c)
    (esleep c) (ethreads c) v (fsgsbase c) (verbose c) (kernel_verbose c) (kernel_cmd c) (sysctl
    c) (swiotlb c) (cwd c) (args c) (env c) (host_import_env c) (root c) (mounts c) (exit_status
    c) (image_sizes c) (io c).
Definition set_fsgsbase (v : bool) (c : enclave_config) : enclave_config :=
  EnclaveConfig (mode c) (stacksize c) (mmap_files c) (oe_heap_pagecount c) (net_ip4 c) (net_gw4
    c) (net_mask4 c) (hostname c) (tap_mtu c) (hostnet c) (wg c) (max_user_threads c) (espins c)
    (esleep c) (ethreads c) (clock_res c) v (verbose c) (kernel_verbose c) (kernel_cmd c) (sysctl
    c) (swiotlb c) (cwd c) (args c) (env c) (host_import_env c) (root c) (mounts c) (exit_status
    c) (image_sizes c) (io c).
Definition set_verbose (v : bool) (c : enclave_config) : enclave_config :=
  EnclaveConfig (mode c) (stacksize c) (mmap_files c) (oe_heap_pagecount c) (net_ip4 c) (net_gw4
    c) (net_mask4 c) (hostname c) (tap_mtu c) (hostnet c) (wg c) (max_user_threads c) (espins c)
    (esleep c) (ethreads c) (clock_res c) (fsgsbase c) v (kernel_verbose c) (kernel_cmd c) (sysctl
    c) (swiotlb c) (cwd c) (args c) (env c) (host_import_env c) (root c) (mounts c) (exit_status
    c) (image_sizes c) (io c).
Definition set_kernel_verbose (v : bool) (c : enclave_config) : enclave_config :=
  EnclaveConfig (mode c) (stacksize c) (mmap_files c) (oe_heap_pagecount c) (net_ip4 c) (net_gw4
    c) (net_mask4 c) (hostname c) (tap_mtu c) (hostnet c) (wg c) (max_user_threads c) (espins c)
    (esleep c) (ethreads c) (clock_res c) (fsgsbase c) (verbose c) v (kernel_cmd c) (sysctl c)
    (swiotlb c) (cwd c) (args c) (env c) (host_import_env c) (root c) (mounts c) (exit_status c)
    (image_sizes c) (io c).
Definition set_kernel_cmd (v : option text) (c : enclave_config) : enclave_config :=
  EnclaveConfig (mode c) (stacksize c) (mmap_files c) (oe_heap_pagecount c) (net_ip4 c) (net_gw4
    c) (net_mask4 c) (hostname c) (tap_mtu c) (hostnet c) (wg c) (max_user_threads c) (espins c)
    (esleep c) (ethreads c) (clock_res c) (fsgsbase c) (verbose c) (kernel_verbose c) v (sysctl c)
    (swiotlb c) (cwd c) (args c) (env c) (host_import_env c) (root c) (mounts c) (exit_status c)
    (image_sizes c) (io c).
Definition set_sysctl (v : option text) (c : enclave_config) : enclave_config :=
  EnclaveConfig (mode c) (stacksize c) (mmap_files c) (oe_heap_pagecount c) (net_ip4 c) (net_gw4
    c) (net_mask4 c) (hostname c) (tap_mtu c) (hostnet c) (wg c) (max_user_threads c) (espins c)
    (esleep c) (ethreads c) (clock_res c) (fsgsbase c) (verbose c) (kernel_verbose c) (kernel_cmd
    c) v (swiotlb c) (cwd c) (args c) (env c) (host_import_env c) (root c) (mounts c) (exit_status
    c) (image_sizes c) (io c).
Definition set_swiotlb (v : bool) (c : enclave_config) : enclave_config :=
  EnclaveConfig (mode c) (stacksize c) (mmap_files c) (oe_heap_pagecount c) (net_ip4 c) (net_gw4
    c) (net_mask4 c) (hostname c) (tap_mtu c) (hostnet c) (wg c) (max_user_threads c) (espins c)
    (esleep c) (ethreads c) (clock_res c) (fsgsbase c) (verbose c) (kernel_verbose c) (kernel_cmd
    c) (sysctl c) v (cwd c) (args c) (env c) (host_import_env c) (root c) (mounts c) (exit_status
    c) (image_sizes c) (io c).
Definition set_cwd (v : option text) (c : enclave_config) : enclave_config :=
  EnclaveConfig (mode c) (stacksize c) (mmap_files c) (oe_heap_pagecount c) (net_ip4 c) (net_gw4
    c) (net_mask4 c) (hostname c) (tap_mtu c) (hostnet c) (wg c) (max_user_threads c) (espins c)
    (esleep c) (ethreads c) (clock_res c) (fsgsbase c) (verbose c) (kernel_verbose c) (kernel_cmd
    c) (sysctl c) (swiotlb c) v (args c) (env c) (host_import_env c) (root c) (mounts c)
    (exit_status c) (image_sizes c) (io c).
Definition set_args (v : list (option text)) (c : enclave_config) : enclave_config :=
  EnclaveConfig (mode c) (stacksize c) (mmap_files c) (oe_heap_pagecount c) (net_ip4 c) (net_gw4
    c) (net_mask4 c) (hostname c) (tap_mtu c) (hostnet c) (wg c) (max_user_threads c) (espins c)
    (esleep c) (ethreads c) (clock_res c) (fsgsbase c) (verbose c) (kernel_verbose c) (kernel_cmd
    c) (sysctl c) (swiotlb c) (cwd c) v (env c) (host_import_env c) (root c) (mounts c)
    (exit_status c) (image_sizes c) (io c).
Definition set_env (v : list (option text)) (c : enclave_config) : enclave_config :=
  EnclaveConfig (mode c) (stacksize c) (mmap_files c) (oe_heap_pagecount c) (net_ip4 c) (net_gw4
    c) (net_mask4 c) (hostname c) (tap_mtu c) (hostnet c) (wg c) (max_user_threads c) (espins c)
    (esleep c) (ethreads c) (clock_res c) (fsgsbase c) (verbose c) (kernel_verbose c) (kernel_cmd
    c) (sysctl c) (swiotlb c) (cwd c) (args c) v (host_import_env c) (root c) (mounts c)
    (exit_status c) (image_sizes c) (io c).
Definition set_host_import_env (v : list (option text)) (c : enclave_config) : enclave_config :=
  EnclaveConfig (mode c) (stacksize c) (mmap_files c) (oe_heap_pagecount c) (net_ip4 c) (net_gw4
    c) (net_mask4 c) (hostname c) (tap_mtu c) (hostnet c) (wg c) (max_user_threads c) (espins c)
    (esleep c) (ethreads c) (clock_res c) (fsgsbase c) (verbose c) (kernel_verbose c) (kernel_cmd
    c) (sysctl c) (swiotlb c) (cwd c) (args c) (env c) v (root c) (mounts c) (exit_status c)
    (image_sizes c) (io c).
Definition set_root (v : root_config) (c : enclave_config) : enclave_config :=
  EnclaveConfig (mode c) (stacksize c) (mmap_files c) (oe_heap_pagecount c) (net_ip4 c) (net_gw4
    c) (net_mask4 c) (hostname c) (tap_mtu c) (hostnet c) (wg c) (max_user_threads c) (espins c)
    (esleep c) (ethreads c) (clock_res c) (fsgsbase c) (verbose c) (kernel_verbose c) (kernel_cmd
    c) (sysctl c) (swiotlb c) (cwd c) (args c) (env c) (host_import_env c) v (mounts c)
    (exit_status c) (image_sizes c) (io c).
Definition set_mounts (v : list mount_config) (c : enclave_config) : enclave_config :=
  EnclaveConfig (mode c) (stacksize c) (mmap_files c) (oe_heap_pagecount c) (net_ip4 c) (net_gw4
    c) (net_mask4 c) (hostname c) (tap_mtu c) (hostnet c) (wg c) (max_user_threads c) (espins c)
    (esleep c) (ethreads c) (clock_res c) (fsgsbase c) (verbose c) (kernel_verbose c) (kernel_cmd
    c) (sysctl c) (swiotlb c) (cwd c) (args c) (env c) (host_import_env c) (root c) v (exit_status
    c) (image_sizes c) (io c).
Definition set_exit_status (v : sgxlkl_exit_status_mode_t) (c : enclave_config) : enclave_config :=
  EnclaveConfig (mode c) (stacksize c) (mmap_files c) (oe_heap_pagecount c) (net_ip4 c) (net_gw4
    c) (net_mask4 c) (hostname c) (tap_mtu c) (hostnet c) (wg c) (max_user_threads c) (espins c)
    (esleep c) (ethreads c) (clock_res c) (fsgsbase c) (verbose c) (kernel_verbose c) (kernel_cmd
    c) (sysctl c) (swiotlb c) (cwd c) (args c) (env c) (host_import_env c) (root c) (mounts c) v
    (image_sizes c) (io c).
Definition set_image_sizes (v : image_sizes_config) (c : enclave_config) : enclave_config :=
  EnclaveConfig (mode c) (stacksize c) (mmap_files c) (oe_heap_pagecount c) (net_ip4 c) (net_gw4
    c) (net_mask4 c) (hostname c) (tap_mtu c) (hostnet c) (wg c) (max_user_threads c) (espins c)
    (esleep c) (ethreads c) (clock_res c) (fsgsbase c) (verbose c) (kernel_verbose c) (kernel_cmd
    c) (sysctl c) (swiotlb c) (cwd c) (args c) (env c) (host_import_env c) (root c) (mounts c)
    (exit_status c) v (io c).
Definition set_io (v : io_config) (c : enclave_config) : enclave_config :=
  EnclaveConfig (mode c) (stacksize c) (mmap_files c) (oe_heap_pagecount c) (net_ip4 c) (net_gw4
    c) (net_mask4 c) (hostname c) (tap_mtu c) (hostnet c) (wg c) (max_user_threads c) (espins c)
    (esleep c) (ethreads c) (clock_res c) (fsgsbase c) (verbose c) (kernel_verbose c) (kernel_cmd
    c) (sysctl c) (swiotlb c) (cwd c) (args c) (env c) (host_import_env c) (root c) (mounts c)
    (exit_status c) (image_sizes c) v.
End Config.

Definition set_peer_key (v : option text) (c : wg_peer_config) : wg_peer_config :=
  WgPeer v (peer_allowed_ips c) (peer_endpoint c).
Definition set_peer_allowed_ips (v : option text) (c : wg_peer_config) : wg_peer_config :=
  WgPeer (peer_key c) v (peer_endpoint c).
Definition set_peer_endpoint (v : option text) (c : wg_peer_config) : wg_peer_config :=
  WgPeer (peer_key c) (peer_allowed_ips c) v.

Definition set_wg_ip (v : option text) (c : wg_config) : wg_config :=
  Wg v (wg_listen_port c) (wg_key c) (wg_peers c).
Definition set_wg_listen_port (v : Z) (c : wg_config) : wg_config :=
  Wg (wg_ip c) v (wg_key c) (wg_peers c).
Definition set_wg_key (v : option text) (c : wg_config) : wg_config :=
  Wg (wg_ip c) (wg_listen_port c) v (wg_peers c).
Definition set_wg_peers (v : list wg_peer_config) (c : wg_config) : wg_config :=
  Wg (wg_ip c) (wg_listen_port c) (wg_key c) v.

Definition set_root_key (v : option (list Z)) (c : root_config) : root_config :=
  Root v (root_key_id c) (root_roothash c) (root_roothash_offset c) (root_readonly c)
    (root_overlay c).
Definition set_root_key_id (v : option text) (c : root_config) : root_config :=
  Root (root_key c) v (root_roothash c) (root_roothash_offset c) (root_readonly c) (root_overlay
    c).
Definition set_root_roothash (v : option text) (c : root_config) : root_config :=
  Root (root_key c) (root_key_id c) v (root_roothash_offset c) (root_readonly c) (root_overlay c).
Definition set_root_roothash_offset (v : Z) (c : root_config) : root_config :=
  Root (root_key c) (root_key_id c) (root_roothash c) v (root_readonly c) (root_overlay c).
Definition set_root_readonly (v : bool) (c : root_config) : root_config :=
  Root (root_key c) (root_key_id c) (root_roothash c) (root_roothash_offset c) v (root_overlay c).
Definition set_root_overlay (v : bool) (c : root_config) : root_config :=
  Root (root_key c) (root_key_id c) (root_roothash c) (root_roothash_offset c) (root_readonly c)
    v.

Definition set_mnt_destination (v : text) (c : mount_config) : mount_config :=
  Mount v (mnt_key c) (mnt_key_id c) (mnt_fresh_key c) (mnt_roothash c) (mnt_roothash_offset c)
    (mnt_readonly c) (mnt_create c) (mnt_size c).
Definition set_mnt_key (v : option (list Z)) (c : mount_config) : mount_config :=
  Mount (mnt_destination c) v (mnt_key_id c) (mnt_fresh_key c) (mnt_roothash c)
    (mnt_roothash_offset c) (mnt_readonly c) (mnt_create c) (mnt_size c).
Definition set_mnt_key_id (v : option text) (c : mount_config) : mount_config :=
  Mount (mnt_destination c) (mnt_key c) v (mnt_fresh_key c) (mnt_roothash c) (mnt_roothash_offset
    c) (mnt_readonly c) (mnt_create c) (mnt_size c).
Definition set_mnt_fresh_key (v : bool) (c : mount_config) : mount_config :=
  Mount (mnt_destination c) (mnt_key c) (mnt_key_id c) v (mnt_roothash c) (mnt_roothash_offset c)
    (mnt_readonly c) (mnt_create c) (mnt_size c).
Definition set_mnt_roothash (v : option text) (c : mount_config) : mount_config :=
  Mount (mnt_destination c) (mnt_key c) (mnt_key_id c) (mnt_fresh_key c) v (mnt_roothash_offset c)
    (mnt_readonly c) (mnt_create c) (mnt_size c).
Definition set_mnt_roothash_offset (v : Z) (c : mount_config) : mount_config :=
  Mount (mnt_destination c) (mnt_key c) (mnt_key_id c) (mnt_fresh_key c) (mnt_roothash c) v
    (mnt_readonly c) (mnt_create c) (mnt_size c).
Definition set_mnt_readonly (v : bool) (c : mount_config) : mount_config :=
  Mount (mnt_destination c) (mnt_key c) (mnt_key_id c) (mnt_fresh_key c) (mnt_roothash c)
    (mnt_roothash_offset c) v (mnt_create c) (mnt_size c).
Definition set_mnt_create (v : bool) (c : mount_config) : mount_config :=
  Mount (mnt_destination c) (mnt_key c) (mnt_key_id c) (mnt_fresh_key c) (mnt_roothash c)
    (mnt_roothash_offset c) (mnt_readonly c) v (mnt_size c).
Definition set_mnt_size (v : Z) (c : mount_config) : mount_config :=
  Mount (mnt_destination c) (mnt_key c) (mnt_key_id c) (mnt_fresh_key c) (mnt_roothash c)
    (mnt_roothash_offset c) (mnt_readonly c) (mnt_create c) v.

Definition set_num_heap_pages (v : Z) (c : image_sizes_config) : image_sizes_config :=
  ImageSizes v (num_stack_pages c).
Definition set_num_stack_pages (v : Z) (c : image_sizes_config) : image_sizes_config :=
  ImageSizes (num_heap_pages c) v.

Definition set_io_console (v : bool) (c : io_config) : io_config :=
  Io v (io_block c) (io_network c).
Definition set_io_block (v : bool) (c : io_config) : io_config :=
  Io (io_console c) v (io_network c).
Definition set_io_network (v : bool) (c : io_config) : io_config :=
  Io (io_console c) (io_block c) v.

(** ** The generated code for the schema of the repository *)

Inductive mode_enum : Type := UNKNOWN_MODE | SW_DEBUG_MODE | HW_DEBUG_MODE | HW_RELEASE_MODE.
Inductive mmap_files_enum : Type :=
| ENCLAVE_MMAP_FILES_NONE | ENCLAVE_MMAP_FILES_PRIVATE | ENCLAVE_MMAP_FILES_SHARED.
Inductive exit_status_enum : Type := EXIT_STATUS_FULL | EXIT_STATUS_BINARY | EXIT_STATUS_NONE.

(** A conversion from a name by comparing it with the names in turn. *)
Fixpoint by_name {A} (names : list (string * A)) (s : text) : outcome A :=
  match names with
  | [] => Failed Stopped
  | (n, v) :: names' => if bool_decide (s = bytes n) then Done v else by_name names' s
  end.

Definition mode_names : list (string * mode_enum) :=
  [("unknown", UNKNOWN_MODE); ("sw_debug", SW_DEBUG_MODE); ("hw_debug", HW_DEBUG_MODE);
   ("hw_release", HW_RELEASE_MODE)]%string.
Definition mmap_files_names : list (string * mmap_files_enum) :=
  [("none", ENCLAVE_MMAP_FILES_NONE); ("private", ENCLAVE_MMAP_FILES_PRIVATE);
   ("shared", ENCLAVE_MMAP_FILES_SHARED)]%string.
Definition exit_status_names : list (string * exit_status_enum) :=
  [("full", EXIT_STATUS_FULL); ("binary", EXIT_STATUS_BINARY); ("none", EXIT_STATUS_NONE)]%string.

#[local] Obligation Tactic := first [by intros []|done].
#[export, program] Instance schema_config : GeneratedConfig := {|
  sgxlkl_enclave_mode_t := mode_enum;
  sgxlkl_enclave_mmap_files_t := mmap_files_enum;
  sgxlkl_exit_status_mode_t := exit_status_enum;
  sgxlkl_enclave_mode_t_to_string m :=
    bytes match m with
          | UNKNOWN_MODE => "unknown" | SW_DEBUG_MODE => "sw_debug"
          | HW_DEBUG_MODE => "hw_debug" | HW_RELEASE_MODE => "hw_release"
          end;
  sgxlkl_enclave_mmap_files_t_to_string m :=
    bytes match m with
          | ENCLAVE_MMAP_FILES_NONE => "none" | ENCLAVE_MMAP_FILES_PRIVATE => "private"
          | ENCLAVE_MMAP_FILES_SHARED => "shared"
          end;
  sgxlkl_exit_status_mode_t_to_string m :=
    bytes match m with
          | EXIT_STATUS_FULL => "full" | EXIT_STATUS_BINARY => "binary" | EXIT_STATUS_NONE => "none"
          end;
  string_to_sgxlkl_enclave_mode_t := by_name mode_names;
  string_to_sgxlkl_enclave_mmap_files_t := by_name mmap_files_names;
  string_to_sgxlkl_exit_status_mode_t := by_name exit_status_names;
  SGXLKL_ENCLAVE_CONFIG_T_VERSION := 1
|}.

(** A configuration with an argument, a clock of each kind and an encrypted
    disk. *)
Definition sample_config : enclave_config (Gen := schema_config) :=
  EnclaveConfig SW_DEBUG_MODE 65536 ENCLAVE_MMAP_FILES_SHARED 8192
    (Some (bytes "10.0.1.1")) None (Some (bytes "24")) (Some (bytes "lkl")) 1500 false
    (Wg (Some (bytes "10.0.2.1")) 51820 None []) 256 500 16000 1
    (replicate 8 (bytes "0000000000000001")) true false false (Some (bytes "mem=32M")) None true
    (Some (bytes "/")) [Some (bytes "/app/hello"); Some [34]] [Some (bytes "A=1")] []
    (Root (Some [1; 254]) None (Some (bytes "ab")) 4096 false false)
    [Mount (bytes "/data") (Some [7]) None false None 0 true false 0]
    EXIT_STATUS_FULL (ImageSizes 262144 0) (Io true true false).
