(* ===== verification/Serialize.v ===== *)
(** * Serialize: the enclave configuration as JSON text (src/main-oe/serialize_enclave_config.c)

    The host builds a tree of json_obj_t nodes from the enclave configuration,
    sorts every object by its keys and prints the tree into a growing buffer.
    The slots of an array or object that have not been assigned are NULL
    ([None]).  A failing allocation stops the program, as do the other uses of
    FAIL ([Stopped]): the model follows the runs that have had their memory.
    [free_json], which only releases the tree, is not modelled. *)

From Stdlib Require Import String.
From S2P Require Import Prelude JsonText JsonParser JsonPrint JsonNumbers JsonStrings Env EnclaveConfig.

(** ** json_obj_t *)

(** The union [value]. *)
Inductive obj_value : Type :=
| OString (s : option text)
| OBoolean (b : bool).

#[warnings="-register-all"] Inductive json_obj : Type :=
| JObj (key : option text) (type : json_type) (val : obj_value)
       (array objects : option (list (option json_obj))) (size : nat).

Definition obj_key (o : json_obj) : option text := let '(JObj k _ _ _ _ _) := o in k.

Definition create_json_obj (key : option text) (type : json_type)
    (array objects : option (list (option json_obj))) (size : nat) : json_obj :=
  JObj key type (OString None) array objects size.

Definition create_json_string (key : option text) (value : option text) : json_obj :=
  JObj key JSON_TYPE_STRING (OString value) None None 0.

Definition create_json_objects (key : option text) (len : nat) : json_obj :=
  create_json_obj key JSON_TYPE_NULL None (Some (replicate len None)) len.

Definition create_json_array (key : option text) (len : nat) : json_obj :=
  create_json_obj key JSON_TYPE_NULL (Some (replicate len None)) None len.

(** [r->objects[i] = o] and [r->array[i] = o]: a fault if the pointer is NULL or
    the slot outside it. *)
Definition set_slot (l : option (list (option json_obj))) (i : nat) (o : json_obj) :
    outcome (option (list (option json_obj))) :=
  match l with
  | None => Failed (BadPointer (8 * Z.of_nat i))
  | Some l => if decide (i < length l)%nat then Done (Some (<[i := Some o]> l))
              else Failed (BadPointer (Z.of_nat i))
  end.

Definition set_object (r : json_obj) (i : nat) (o : json_obj) : outcome json_obj :=
  let '(JObj k ty v arr objs n) := r in
  objs' ← set_slot objs i o; Done (JObj k ty v arr objs' n).
Definition set_array (r : json_obj) (i : nat) (o : json_obj) : outcome json_obj :=
  let '(JObj k ty v arr objs n) := r in
  arr' ← set_slot arr i o; Done (JObj k ty v arr' objs n).

(** Assigning a row of slots from [i] on. *)
Fixpoint set_objects (r : json_obj) (i : nat) (os : list json_obj) : outcome json_obj :=
  match os with [] => Done r | o :: os' => r' ← set_object r i o; set_objects r' (S i) os' end.
Fixpoint set_arrays (r : json_obj) (i : nat) (os : list json_obj) : outcome json_obj :=
  match os with [] => Done r | o :: os' => r' ← set_array r i o; set_arrays r' (S i) os' end.

(** ** Encoding values *)

(** [encode_hex_string]: a buffer and its size are the list of its bytes.  The
    string has room for the digits and the terminator, [bytes_to_hex] cannot
    refuse it. *)
Definition encode_hex_string (key : option text) (buf : option (list Z)) : json_obj :=
  match buf with
  | Some b =>
      if bool_decide (0 < length b)%nat then
        create_json_string key (bytes_to_hex (2 * length b + 1) (Some b))
      else create_json_string key (Some [])
  | None => create_json_string key (Some [])
  end.

Definition encode_boolean (key : option text) (value : bool) : json_obj :=
  JObj key JSON_TYPE_BOOLEAN (OBoolean value) None None 0.

(** [encode_int]: the buffer has 17 bytes, snprintf cuts the number off after
    16 characters. *)
Definition encode_int (key : option text) (value : Z) : json_obj :=
  create_json_string key (Some (take 16 (unsigned_digits value))).
Definition encode_uint32 (key : option text) (value : Z) : json_obj := encode_int key value.
Definition encode_uint64 (key : option text) (value : Z) : json_obj := encode_int key value.

Definition encode_string_array (key : option text) (strings : list (option text)) : outcome json_obj :=
  set_arrays (create_json_array key (length strings)) 0 (map (create_json_string None) strings).

(** ** Encoding the parts of the configuration *)

Fixpoint encode_clock_res_from (r : json_obj) (i : nat) (clock_res : list text) : outcome json_obj :=
  match clock_res with
  | [] => Done r
  | c :: cs =>
      o ← set_object (create_json_objects None 1) 0
            (create_json_string (Some (bytes "resolution")) (Some c));
      r' ← set_array r i o; encode_clock_res_from r' (S i) cs
  end.
Definition encode_clock_res (key : text) (clock_res : list text) : outcome json_obj :=
  encode_clock_res_from (create_json_array (Some key) 8) 0 clock_res.

Definition encode_root (key : text) (root : root_config) : outcome json_obj :=
  set_objects (create_json_objects (Some key) 6) 0
    [encode_hex_string (Some (bytes "key")) (root_key root);
     create_json_string (Some (bytes "key_id")) (root_key_id root);
     create_json_string (Some (bytes "roothash")) (root_roothash root);
     encode_uint64 (Some (bytes "roothash_offset")) (root_roothash_offset root);
     encode_boolean (Some (bytes "readonly")) (root_readonly root);
     encode_boolean (Some (bytes "overlay")) (root_overlay root)].

Definition encode_mount (m : mount_config) : outcome json_obj :=
  set_objects (create_json_objects None 9) 0
    [create_json_string (Some (bytes "destination")) (Some (mnt_destination m));
     encode_hex_string (Some (bytes "key")) (mnt_key m);
     create_json_string (Some (bytes "key_id")) (mnt_key_id m);
     encode_boolean (Some (bytes "fresh_key")) (mnt_fresh_key m);
     create_json_string (Some (bytes "roothash")) (mnt_roothash m);
     encode_uint64 (Some (bytes "roothash_offset")) (mnt_roothash_offset m);
     encode_boolean (Some (bytes "readonly")) (mnt_readonly m);
     encode_boolean (Some (bytes "create")) (mnt_create m);
     encode_uint64 (Some (bytes "size")) (mnt_size m)].

Fixpoint encode_mounts_from (r : json_obj) (i : nat) (mounts : list mount_config) : outcome json_obj :=
  match mounts with
  | [] => Done r
  | m :: ms => o ← encode_mount m; r' ← set_array r i o; encode_mounts_from r' (S i) ms
  end.
Definition encode_mounts (key : text) (mounts : list mount_config) : outcome json_obj :=
  encode_mounts_from (create_json_array (Some key) (length mounts)) 0 mounts.

(** The peers are stored through [objects], which [create_json_array] leaves
    NULL. *)
Fixpoint encode_wg_peers_from (r : json_obj) (i : nat) (peers : list wg_peer_config) :
    outcome json_obj :=
  match peers with
  | [] => Done r
  | p :: ps =>
      o ← set_objects (create_json_objects None 3) 0
            [create_json_string (Some (bytes "key")) (peer_key p);
             create_json_string (Some (bytes "allowed_ips")) (peer_allowed_ips p);
             create_json_string (Some (bytes "endpoint")) (peer_endpoint p)];
      r' ← set_object r i o; encode_wg_peers_from r' (S i) ps
  end.
Definition encode_wg_peers (key : text) (peers : list wg_peer_config) : outcome json_obj :=
  encode_wg_peers_from (create_json_array (Some key) (length peers)) 0 peers.

Definition encode_wg (key : text) (wg : wg_config) : outcome json_obj :=
  peers ← encode_wg_peers (bytes "peers") (wg_peers wg);
  set_objects (create_json_objects (Some key) 4) 0
    [create_json_string (Some (bytes "ip")) (wg_ip wg);
     encode_uint32 (Some (bytes "listen_port")) (wg_listen_port wg);
     create_json_string (Some (bytes "key")) (wg_key wg);
     peers].

Definition encode_image_sizes (key : text) (sizes : image_sizes_config) : outcome json_obj :=
  set_objects (create_json_objects (Some key) 2) 0
    [encode_uint64 (Some (bytes "num_heap_pages")) (num_heap_pages sizes);
     encode_uint64 (Some (bytes "num_stack_pages")) (num_stack_pages sizes)].

Definition encode_io (key : text) (io : io_config) : outcome json_obj :=
  set_objects (create_json_objects (Some key) 3) 0
    [encode_boolean (Some (bytes "console")) (io_console io);
     encode_boolean (Some (bytes "block")) (io_block io);
     encode_boolean (Some (bytes "network")) (io_network io)].

(** ** print_to_buffer and print_json *)

(** The buffer with the position in it; its size is the length of [data]. *)
Record pbuf : Type := PBuf { pb_data : list Z; pb_pos : nat }.

Definition empty_buffer : pbuf := PBuf [] 0.

Section Print.
(** What the bytes that realloc adds hold. *)
Variable grown : nat -> Z.

Definition reallocate (d : list Z) (size : nat) : list Z :=
  take size d ++ map grown (seq (length d) (size - length d)).

(** [memcpy] of [string] and its terminator: a fault if they do not fit. *)
Definition print_to_buffer (string : text) (b : pbuf) : outcome pbuf :=
  let buffer_size := length (pb_data b) in
  let len := S (length string) in
  let remaining := (buffer_size - pb_pos b)%nat in
  let data :=
    if bool_decide (remaining <= len)%nat then
      let min := (buffer_size + len - remaining)%nat in
      reallocate (pb_data b) (if bool_decide (buffer_size * 2 < min)%nat then min else buffer_size * 2)
    else pb_data b in
  if decide (pb_pos b + len <= length data)%nat then
    Done (PBuf (take (pb_pos b) data ++ string ++ 0 :: drop (pb_pos b + len) data)
               (pb_pos b + length string))
  else Failed (BadPointer (Z.of_nat (length data))).

(** The loop over the quotes of a string; [strchr] finds the next one. *)
Fixpoint print_quotes (fuel : nat) (remaining : text) (b : pbuf) : outcome pbuf :=
  match fuel with
  | O => Failed OutOfFuel
  | S fuel' =>
      match list_find (fun c => c = 34) remaining with
      | None => print_to_buffer remaining b
      | Some (quotes, _) =>
          b1 ← print_to_buffer (take quotes remaining) b;
          b2 ← print_to_buffer [92; 34] b1;
          print_quotes fuel' (drop (S quotes) remaining) b2
      end
  end.

Definition print_key (key : option text) (b : pbuf) : outcome pbuf :=
  match key with
  | Some k =>
      b1 ← print_to_buffer [34] b; b2 ← print_to_buffer k b1; print_to_buffer [34; 58] b2
  | None => Done b
  end.

Definition print_string (value : option text) (b : pbuf) : outcome pbuf :=
  match value with
  | None => print_to_buffer (bytes "null") b
  | Some s =>
      b1 ← print_to_buffer [34] b;
      b2 ← print_quotes (S (length s)) s b1;
      print_to_buffer [34] b2
  end.

Definition print_comma (first : bool) (b : pbuf) : outcome pbuf :=
  if first then Done b else print_to_buffer [44] b.

(** [print_json]; the loops read the first [size] slots. *)
Fixpoint print_json (obj : json_obj) (b : pbuf) : outcome pbuf :=
  let '(JObj key type val array objects size) := obj in
  let slots :=
    fix slots (n : nat) (first : bool) (l : list (option json_obj)) (b : pbuf) {struct l} :
        outcome pbuf :=
      match n, l with
      | O, _ => Done b
      | S _, [] => Failed (BadPointer 0)
      | S _, None :: _ => Failed (BadPointer 0)
      | S n', Some o :: l' =>
          b1 ← print_comma first b; b2 ← print_json o b1; slots n' false l' b2
      end in
  b0 ← print_key key b;
  match type, val, array, objects with
  | JSON_TYPE_BOOLEAN, OBoolean v, _, _ =>
      print_to_buffer (if v then bytes "true" else bytes "false") b0
  | JSON_TYPE_STRING, OString v, _, _ => print_string v b0
  | JSON_TYPE_BOOLEAN, _, _, _ | JSON_TYPE_STRING, _, _, _ => Failed (BadPointer 0)
  | _, _, Some l, _ =>
      b1 ← print_to_buffer [91] b0; b2 ← slots size true l b1; print_to_buffer [93] b2
  | _, _, None, Some l =>
      b1 ← print_to_buffer [123] b0; b2 ← slots size true l b1; print_to_buffer [125] b2
  | JSON_TYPE_NULL, _, None, None =>
      match key with Some _ => print_to_buffer (bytes "null") b0 | None => Failed Stopped end
  | _, _, None, None => Failed Stopped
  end.
End Print.

(** ** sort_json *)

Definition is_json_object (obj : json_obj) : bool :=
  match obj with JObj _ JSON_TYPE_NULL _ None (Some _) _ => true | _ => false end.

Definition is_json_array (obj : json_obj) : bool :=
  match obj with JObj _ JSON_TYPE_NULL _ (Some _) None _ => true | _ => false end.

(** [strcmp] of the C library, on the characters before the terminators: its
    sign. *)
Fixpoint c_strcmp (a b : text) : Z :=
  match a, b with
  | [], [] => 0
  | [], _ :: _ => -1
  | _ :: _, [] => 1
  | x :: a', y :: b' => if x =? y then c_strcmp a' b' else if x <? y then -1 else 1
  end.

(** The loop that sorts the entries: after an exchange it steps back ([i -= 2],
    then [i++], which wrap around together at [i = 1]). *)
Fixpoint sort_entries (fuel size i : nat) (l : list (option json_obj)) :
    outcome (list (option json_obj)) :=
  match fuel with
  | O => Failed OutOfFuel
  | S fuel' =>
      if decide (i < size)%nat then
        match i with
        | O => sort_entries fuel' size 1 l
        | S j =>
            match l !! j, l !! i with
            | Some (Some p), Some (Some q) =>
                match obj_key p, obj_key q with
                | Some last, Some cur =>
                    let cmp := c_strcmp last cur in
                    if cmp <? 0 then sort_entries fuel' size (S i) l
                    else if cmp =? 0 then Failed Stopped
                    else sort_entries fuel' size j (<[i := Some p]> (<[j := Some q]> l))
                | _, _ => Failed Stopped
                end
            | _, _ => Failed (BadPointer (Z.of_nat i))
            end
        end
      else Done l
  end.

(** The fuel is enough for any order of the entries: see [sort_entries_spec]. *)
Definition sort_fuel (size : nat) : nat := S (size * size).

Fixpoint sort_json (obj : json_obj) : outcome json_obj :=
  let '(JObj key type val array objects size) := obj in
  let slots :=
    fix slots (n : nat) (l : list (option json_obj)) {struct l} :
        outcome (list (option json_obj)) :=
      match n, l with
      | O, _ => Done l
      | S _, [] => Failed (BadPointer 0)
      | S _, None :: _ => Failed (BadPointer 0)
      | S n', Some o :: l' =>
          o' ← sort_json o; l'' ← slots n' l'; Done (Some o' :: l'')
      end in
  if is_json_object obj && bool_decide (0 < size)%nat then
    match objects with
    | Some l =>
        l1 ← slots size l;
        l2 ← sort_entries (sort_fuel size) size 0 l1;
        Done (JObj key type val array (Some l2) size)
    | None => Done obj
    end
  else if is_json_array obj then
    match array with
    | Some l => l1 ← slots size l; Done (JObj key type val (Some l1) objects size)
    | None => Done obj
    end
  else Done obj.

(** ** serialize_enclave_config *)

Section Config.
Context `{Gen : GeneratedConfig}.

(** [root->size = cnt]. *)
Definition set_count (r : json_obj) (n : nat) : json_obj :=
  let '(JObj k ty v arr objs _) := r in JObj k ty v arr objs n.

(** The macros that encode one member under its name. *)
Definition FPFBOOL (N : string) (v : bool) : json_obj := encode_boolean (Some (bytes N)) v.
Definition FPFU32 (N : string) (v : Z) : json_obj := encode_uint32 (Some (bytes N)) v.
Definition FPFU64 (N : string) (v : Z) : json_obj := encode_uint64 (Some (bytes N)) v.
Definition FPFS (N : string) (v : option text) : json_obj := create_json_string (Some (bytes N)) v.
Definition FPFSS (N : string) (v : text) : json_obj := create_json_string (Some (bytes N)) (Some v).

(** The root object before it is sorted: sizeof(sgxlkl_enclave_config_t) slots,
    of which the members take the first ones. *)
Definition root_object (config : enclave_config) : outcome json_obj :=
  wg' ← encode_wg (bytes "wg") (wg config);
  clock_res' ← encode_clock_res (bytes "clock_res") (clock_res config);
  args' ← encode_string_array (Some (bytes "args")) (args config);
  env' ← encode_string_array (Some (bytes "env")) (env config);
  import' ← encode_string_array (Some (bytes "host_import_env")) (host_import_env config);
  root' ← encode_root (bytes "root") (root config);
  mounts' ← encode_mounts (bytes "mounts") (mounts config);
  sizes' ← encode_image_sizes (bytes "image_sizes") (image_sizes config);
  io' ← encode_io (bytes "io") (io config);
  let members :=
    [FPFU64 "format_version" SGXLKL_ENCLAVE_CONFIG_T_VERSION;
     FPFSS "mode" (sgxlkl_enclave_mode_t_to_string (mode config));
     FPFU64 "stacksize" (stacksize config);
     FPFSS "mmap_files" (sgxlkl_enclave_mmap_files_t_to_string (mmap_files config));
     FPFU64 "oe_heap_pagecount" (oe_heap_pagecount config);
     FPFS "net_ip4" (net_ip4 config);
     FPFS "net_gw4" (net_gw4 config);
     FPFS "net_mask4" (net_mask4 config);
     FPFS "hostname" (hostname config);
     FPFU32 "tap_mtu" (tap_mtu config);
     FPFBOOL "hostnet" (hostnet config);
     wg';
     FPFU64 "max_user_threads" (max_user_threads config);
     FPFU64 "espins" (espins config);
     FPFU64 "esleep" (esleep config);
     FPFU64 "ethreads" (ethreads config);
     clock_res';
     FPFBOOL "fsgsbase" (fsgsbase config);
     FPFBOOL "verbose" (verbose config);
     FPFBOOL "kernel_verbose" (kernel_verbose config);
     FPFS "kernel_cmd" (kernel_cmd config);
     FPFS "sysctl" (sysctl config);
     FPFBOOL "swiotlb" (swiotlb config);
     FPFS "cwd" (cwd config);
     args'; env'; import'; root'; mounts';
     FPFSS "exit_status" (sgxlkl_exit_status_mode_t_to_string (exit_status config));
     sizes'; io'] in
  r ← set_objects (create_json_objects None 464) 0 members;
  Done (set_count r (length members)).

(** [serialize_enclave_config]: the buffer starts out as [b] (NULL and 0 at the
    only call). *)
Definition serialize_enclave_config (grown : nat -> Z) (config : enclave_config) (b : pbuf) :
    outcome pbuf :=
  root ← root_object config;
  root' ← sort_json root;
  print_json grown root' (PBuf (pb_data b) 0).
End Config.
