(* ===== verification/SerializeSort.v ===== *)
(** * SerializeSort: sort_json orders the members of every object

    [obj_of] is the tree that stands for a document.  The exchange sort of
    [sort_json] is compared with a reference sort by keys, on every object of
    the tree: on members with different names it ends with the unique sorted
    order, on members two of which have the same name it stops the program.
    The number of rounds is bounded with the number of inversions. *)

From Stdlib Require Import String.
From stdpp Require Import sorting.
From S2P Require Import Prelude JsonText JsonParser JsonPrint JsonStrings JsonComplete Env Serialize.

(** ** The order of keys *)

Lemma strcmp_refl a : c_strcmp a a = 0.
Proof. induction a as [|x a IH]; [done|]. simpl. by rewrite Z.eqb_refl. Qed.

Lemma strcmp_eq a b : c_strcmp a b = 0 -> a = b.
Proof.
  revert b. induction a as [|x a IH]; intros [|y b]; try done. simpl.
  destruct (Z.eqb_spec x y) as [->|]; [intros H; by rewrite (IH b H)|]. by case_match.
Qed.

Lemma strcmp_swap a b : c_strcmp b a = - c_strcmp a b.
Proof.
  revert b. induction a as [|x a IH]; intros [|y b]; try done. simpl.
  rewrite (Z.eqb_sym y x). destruct (Z.eqb_spec x y); [apply IH|].
  destruct (Z.ltb_spec x y), (Z.ltb_spec y x); lia.
Qed.

Lemma strcmp_trans a b c : c_strcmp a b < 0 -> c_strcmp b c < 0 -> c_strcmp a c < 0.
Proof.
  revert b c. induction a as [|x a IH]; intros [|y b] [|z c]; simpl; try lia.
  destruct (Z.eqb_spec x y), (Z.eqb_spec y z), (Z.eqb_spec x z); subst; try lia; try apply IH;
    repeat case_match; try lia.
Qed.

Section Members.
Context {A : Type}.
Implicit Types (m : text * A) (l : list (text * A)).

(** Members in the order the keys are to have. *)
Definition before m m' : Prop := c_strcmp m.1 m'.1 < 0.
#[local] Instance before_dec m m' : Decision (before m m') := decide (c_strcmp m.1 m'.1 < 0).

Lemma before_asym m m' : before m m' -> ~ before m' m.
Proof. unfold before. rewrite (strcmp_swap m.1). lia. Qed.

Lemma before_total m m' : m.1 ≠ m'.1 -> ~ before m m' -> before m' m.
Proof.
  unfold before. intros Hne Hn. rewrite (strcmp_swap m.1 m'.1).
  destruct (Z.eq_dec (c_strcmp m.1 m'.1) 0) as [H0|]; [by apply strcmp_eq in H0|lia].
Qed.

#[local] Instance before_trans : Transitive before.
Proof. intros m1 m2 m3. apply strcmp_trans. Qed.

(** ** Inversions *)

(** The members of [l] that come before [m]. *)
Definition smaller m l : nat := length (filter (fun x => before x m) l).

Fixpoint inversions l : nat :=
  match l with [] => 0 | m :: l' => smaller m l' + inversions l' end.

Lemma smaller_perm m l l' : l ≡ₚ l' -> smaller m l = smaller m l'.
Proof. intros H. unfold smaller. by rewrite H. Qed.

Lemma inversions_exchange l1 p q l2 :
  before q p -> inversions (l1 ++ p :: q :: l2) = S (inversions (l1 ++ q :: p :: l2)).
Proof.
  intros H. induction l1 as [|m l1 IH].
  - simpl. unfold smaller. rewrite !filter_cons.
    rewrite (decide_True _ _ H), (decide_False _ _ (before_asym _ _ H)). simpl. lia.
  - simpl. rewrite IH. rewrite (smaller_perm m _ (l1 ++ q :: p :: l2)); [lia|].
    by rewrite (Permutation_swap p q).
Qed.

Lemma inversions_bound l : (2 * inversions l + length l <= length l * length l)%nat.
Proof.
  induction l as [|m l IH]; [done|]. simpl.
  assert (smaller m l <= length l)%nat by apply length_filter. nia.
Qed.

(** The reference: insertion sort. *)
Fixpoint insert_member m l : list (text * A) :=
  match l with
  | [] => [m]
  | x :: l' => if decide (before x m) then x :: insert_member m l' else m :: l
  end.
Definition sort_members l : list (text * A) := foldr insert_member [] l.

Lemma insert_member_perm m l : insert_member m l ≡ₚ m :: l.
Proof.
  induction l as [|x l IH]; [done|]. simpl. case_decide; [|done].
  rewrite IH. apply Permutation_swap.
Qed.

Lemma sort_members_perm l : sort_members l ≡ₚ l.
Proof. induction l as [|m l IH]; [done|]. simpl. by rewrite insert_member_perm, IH. Qed.

Lemma insert_member_sorted m l :
  m.1 ∉ l.*1 -> StronglySorted before l -> StronglySorted before (insert_member m l).
Proof.
  intros Hm. induction 1 as [|x l Hl IH Hx]; [by repeat constructor|]. simpl in *.
  apply not_elem_of_cons in Hm as [Hne Hm]. case_decide as Hb.
  - constructor; [by apply IH|]. rewrite insert_member_perm. by constructor.
  - assert (before m x) as Hmx by (by apply before_total).
    constructor; [by constructor|]. constructor; [done|].
    eapply Forall_impl; [exact Hx|]. intros y Hy. by apply (before_trans m x y).
Qed.

Lemma sort_members_sorted l : NoDup l.*1 -> StronglySorted before (sort_members l).
Proof.
  induction l as [|m l IH]; [constructor|]. rewrite fmap_cons, NoDup_cons. intros [Hm Hl].
  simpl. apply insert_member_sorted; [|by apply IH]. by rewrite sort_members_perm.
Qed.

Lemma before_sorted_NoDup l : StronglySorted before l -> NoDup l.*1.
Proof.
  induction 1 as [|m l Hl IH Hm]; [constructor|]. rewrite fmap_cons. constructor; [|done].
  intros ((k & v) & Hk & Hin)%list_elem_of_fmap. rewrite Forall_forall in Hm.
  specialize (Hm _ Hin). unfold before in Hm. simpl in Hk. rewrite Hk, strcmp_refl in Hm. lia.
Qed.

(** There is one order. *)
Lemma sorted_unique l l' :
  StronglySorted before l -> StronglySorted before l' -> l ≡ₚ l' -> l = l'.
Proof.
  intros H H' Hp. eapply (StronglySorted_unique_strong before); try done.
  intros x y _ _ Hxy Hyx. by destruct (before_asym x y).
Qed.

Lemma sort_members_eq l l' :
  l ≡ₚ l' -> StronglySorted before l' -> l' = sort_members l.
Proof.
  intros Hp Hs. assert (NoDup l.*1) as Hd by (rewrite Hp; by apply before_sorted_NoDup).
  apply sorted_unique; [done|by apply sort_members_sorted|]. by rewrite sort_members_perm.
Qed.

Lemma sorted_snoc l m : StronglySorted before l -> (forall x, last l = Some x -> before x m) ->
  StronglySorted before (l ++ [m]).
Proof.
  intros Hs. induction Hs as [|x l Hs IH Hx]; intros Hl; [by repeat constructor|].
  simpl. constructor.
  - apply IH. intros y Hy. apply Hl. destruct l; [done|]. done.
  - apply Forall_app. split; [done|]. constructor; [|done].
    destruct (last l) as [y|] eqn:El.
    + apply (before_trans x y m); [|apply Hl; destruct l; [done|exact El]].
      apply last_Some in El as [l' ->]. by apply Forall_app in Hx as [_ [? _]%Forall_cons].
    + apply last_None in El as ->. by apply Hl.
Qed.
End Members.

(** ** The tree of a document *)

(** A number has no tree of its own: every number is encoded as a string, and
    [print_json] refuses a node of that type. *)
Fixpoint obj_of (key : option text) (v : json) : json_obj :=
  match v with
  | JNull => create_json_string key None
  | JBool b => encode_boolean key b
  | JString s => create_json_string key (Some s)
  | JInt _ => create_json_obj key JSON_TYPE_INTEGER None None 0
  | JArray l =>
      JObj key JSON_TYPE_NULL (OString None) (Some (map (fun x => Some (obj_of None x)) l)) None
        (length l)
  | JObject l =>
      JObj key JSON_TYPE_NULL (OString None) None
        (Some (map (fun '(k, x) => Some (obj_of (Some k) x)) l)) (length l)
  end.

Definition slot (m : text * json) : option json_obj := let '(k, x) := m in Some (obj_of (Some k) x).

Lemma obj_of_key key v : obj_key (obj_of key v) = key.
Proof. by destruct v. Qed.

(** ** The sorting loop *)

(** One round on a list cut at the two members it compares. *)
Lemma sort_entries_round fuel l1 p q l2 rest :
  let l := map slot (l1 ++ p :: q :: l2) ++ rest in
  let i := S (length l1) in
  let n := length (l1 ++ p :: q :: l2) in
  sort_entries (S fuel) n i l =
    if c_strcmp p.1 q.1 <? 0 then sort_entries fuel n (S i) l
    else if c_strcmp p.1 q.1 =? 0 then Failed Stopped
    else sort_entries fuel n (length l1) (map slot (l1 ++ q :: p :: l2) ++ rest).
Proof.
  destruct p as [k x], q as [k' x']. intros l i n. cbn [sort_entries].
  rewrite decide_True by (unfold n, i; rewrite length_app; simpl; lia).
  unfold i, l. rewrite !map_app. cbn [map fst slot]. rewrite <- !app_assoc. cbn [app].
  assert (length l1 = length (map slot l1)) as Hlen by (by rewrite length_map).
  rewrite Hlen. rewrite list_lookup_middle by done.
  rewrite (lookup_app_r _ _ (S _)) by lia. replace (S _ - _)%nat with 1%nat by lia. cbn [lookup list_lookup].
  rewrite !obj_of_key. destruct (_ <? 0); [done|]. destruct (_ =? 0); [done|]. f_equal.
  rewrite (insert_app_r_alt _ _ (length _)) by lia. rewrite Nat.sub_diag. cbn.
  rewrite (insert_app_r_alt _ _ (S _)) by lia. by replace (S _ - _)%nat with 1%nat by lia.
Qed.

(** The loop ends within the fuel: each round moves on or undoes an inversion. *)
Lemma sort_entries_from fuel (ms : list (text * json)) i rest :
  (i <= length ms)%nat -> StronglySorted before (take i ms) ->
  (2 * inversions ms + (length ms - i) < fuel)%nat ->
  sort_entries fuel (length ms) i (map slot ms ++ rest) =
    if decide (NoDup ms.*1) then Done (map slot (sort_members ms) ++ rest) else Failed Stopped.
Proof.
  revert ms i. induction fuel as [|fuel IH]; intros ms i Hi Hs Hf; [lia|].
  destruct (decide (i < length ms)%nat) as [Hlt|].
  2:{ cbn [sort_entries]. rewrite decide_False by done. rewrite take_ge in Hs by lia.
      rewrite decide_True by (by apply before_sorted_NoDup).
      by rewrite <- (sort_members_eq ms ms). }
  destruct i as [|j].
  { cbn [sort_entries]. rewrite decide_True by done. rewrite IH; [done|lia| |lia].
    destruct ms; [simpl in *; lia|]. simpl. rewrite take_0. by repeat constructor. }
  destruct (lookup_lt_is_Some_2 ms j ltac:(lia)) as [p Hp].
  destruct (lookup_lt_is_Some_2 ms (S j) ltac:(lia)) as [q Hq].
  assert (exists l1 l2, ms = l1 ++ p :: q :: l2 /\ length l1 = j) as (l1 & l2 & -> & <-).
  { exists (take j ms), (drop (S (S j)) ms). split; [|rewrite length_take; lia].
    rewrite <- (take_drop j ms) at 1. f_equal. rewrite (drop_S _ _ _ Hp), (drop_S _ _ _ Hq). done. }
  rewrite sort_entries_round. 
  destruct (Z.ltb_spec (c_strcmp p.1 q.1) 0) as [Hb|Hb]; [|destruct (Z.eqb_spec (c_strcmp p.1 q.1) 0) as [H0|H0]].
  - apply IH; [lia| |lia]. rewrite (take_S_r _ _ _ Hq). apply sorted_snoc; [done|].
    intros x Hx. rewrite (take_S_r _ _ _ Hp), last_snoc in Hx. by simplify_eq.
  - apply strcmp_eq in H0. rewrite decide_False; [done|]. intros Hd.
    rewrite fmap_app, NoDup_app in Hd. destruct Hd as (_ & _ & Hd). simpl in Hd.
    rewrite H0 in Hd. apply NoDup_cons in Hd as [Hd _]. apply Hd. constructor.
  - assert (before q p) as Hqp by (unfold before; rewrite strcmp_swap; lia).
    assert ((l1 ++ q :: p :: l2) ≡ₚ (l1 ++ p :: q :: l2)) as Hperm by (by rewrite (Permutation_swap p q)).
    rewrite (inversions_exchange _ _ _ _ Hqp) in Hf.
    rewrite <- (Permutation_length Hperm) in Hf |- *.
    rewrite IH; [| | |lia].
    + destruct (decide (NoDup (l1 ++ q :: p :: l2).*1)) as [Hd|Hd].
      * rewrite decide_True by (by rewrite <- Hperm). f_equal. f_equal. f_equal.
        apply sort_members_eq; [|by apply sort_members_sorted].
        by rewrite sort_members_perm, Hperm.
      * rewrite decide_False; [done|]. by rewrite <- Hperm.
    + rewrite length_app. lia.
    + rewrite take_app_length. rewrite (take_S_r _ _ p) in Hs by (by apply list_lookup_middle).
      rewrite take_app_length in Hs. by eapply StronglySorted_app_1_l.
Qed.

Lemma sort_entries_spec (ms : list (text * json)) rest :
  sort_entries (sort_fuel (length ms)) (length ms) 0 (map slot ms ++ rest) =
    if decide (NoDup ms.*1) then Done (map slot (sort_members ms) ++ rest) else Failed Stopped.
Proof.
  apply sort_entries_from; [lia|rewrite take_0; constructor|].
  pose proof (inversions_bound ms). unfold sort_fuel. lia.
Qed.

(** ** The whole tree *)

(** The document with the members of every object in order. *)
Fixpoint sort_doc (v : json) : json :=
  match v with
  | JArray l => JArray (map sort_doc l)
  | JObject l => JObject (sort_members (map (fun '(k, x) => (k, sort_doc x)) l))
  | _ => v
  end.

Definition sort_member (m : text * json) : text * json := let '(k, x) := m in (k, sort_doc x).

(** No object has two members of the same name. *)
Fixpoint distinct (v : json) : bool :=
  match v with
  | JArray l => forallb distinct l
  | JObject l => bool_decide (NoDup l.*1) && forallb (fun '(_, x) => distinct x) l
  | _ => true
  end.

Definition distinct_member (m : text * json) : bool := let '(_, x) := m in distinct x.

(** The loop of [sort_json] over the slots, as a function of its own. *)
Fixpoint sort_slots (n : nat) (l : list (option json_obj)) {struct l} :
    outcome (list (option json_obj)) :=
  match n, l with
  | O, _ => Done l
  | S _, [] => Failed (BadPointer 0)
  | S _, None :: _ => Failed (BadPointer 0)
  | S n', Some o :: l' => o' ← sort_json o; l'' ← sort_slots n' l'; Done (Some o' :: l'')
  end.

(** An object with spare slots behind its members. *)
Definition object_tree (key : option text) (ms : list (text * json)) (rest : list (option json_obj)) :
    json_obj :=
  JObj key JSON_TYPE_NULL (OString None) None (Some (map slot ms ++ rest)) (length ms).

Lemma obj_of_object key ms : obj_of key (JObject ms) = object_tree key ms [].
Proof. unfold object_tree. by rewrite app_nil_r. Qed.

Lemma sort_json_object key ms rest :
  sort_json (object_tree key ms rest) =
    if bool_decide (0 < length ms)%nat then
      l1 ← sort_slots (length ms) (map slot ms ++ rest);
      l2 ← sort_entries (sort_fuel (length ms)) (length ms) 0 l1;
      Done (JObj key JSON_TYPE_NULL (OString None) None (Some l2) (length ms))
    else Done (object_tree key ms rest).
Proof. reflexivity. Qed.

Lemma sort_json_array key l :
  sort_json (obj_of key (JArray l)) =
    (l1 ← sort_slots (length l) (map (fun x => Some (obj_of None x)) l);
     Done (JObj key JSON_TYPE_NULL (OString None) (Some l1) None (length l))).
Proof. reflexivity. Qed.

Definition sorts (v : json) : Prop :=
  forall key, sort_json (obj_of key v) =
    if distinct v then Done (obj_of key (sort_doc v)) else Failed Stopped.

Lemma sort_slots_elements l :
  Forall sorts l ->
  sort_slots (length l) (map (fun x => Some (obj_of None x)) l) =
    if forallb distinct l then Done (map (fun x => Some (obj_of None x)) (map sort_doc l))
    else Failed Stopped.
Proof.
  induction 1 as [|x l Hx _ IH]; [done|]. cbn [length map sort_slots forallb]. rewrite (Hx None).
  destruct (distinct x); [|done]. cbn. rewrite IH. by destruct (forallb _ _).
Qed.

Lemma sort_slots_members ms rest :
  Forall (fun m => sorts m.2) ms ->
  sort_slots (length ms) (map slot ms ++ rest) =
    if forallb distinct_member ms then Done (map slot (map sort_member ms) ++ rest)
    else Failed Stopped.
Proof.
  induction 1 as [|[k x] ms Hx _ IH]; [by destruct rest|].
  specialize (Hx (Some k)). cbn [snd] in Hx.
  cbn [length map app sort_slots slot forallb distinct_member]. rewrite Hx.
  destruct (distinct x); [|done]. cbn. rewrite IH. by destruct (forallb _ _).
Qed.

Lemma sort_member_names ms : (map sort_member ms).*1 = ms.*1.
Proof. induction ms as [|[k x] ms IH]; [done|]. cbn. by rewrite <- IH. Qed.

Lemma sort_members_length {A} (ms : list (text * A)) : length (sort_members ms) = length ms.
Proof. apply Permutation_length, sort_members_perm. Qed.

(** An object whose members are sorted is sorted. *)
Lemma sort_object key ms rest :
  Forall (fun m => sorts m.2) ms ->
  sort_json (object_tree key ms rest) =
    if distinct (JObject ms) then Done (object_tree key (sort_members (map sort_member ms)) rest)
    else Failed Stopped.
Proof.
  intros Hms. rewrite sort_json_object. destruct ms as [|m ms]; [done|].
  rewrite bool_decide_eq_true_2 by (simpl; lia). rewrite sort_slots_members by done.
  cbn [distinct]. change (fun '(_, x) => distinct x) with distinct_member.
  rewrite andb_comm. destruct (forallb _ _); [|done]. cbn [mbind outcome_bind andb].
  rewrite <- (length_map sort_member (m :: ms)) at 1 2. rewrite sort_entries_spec, sort_member_names.
  unfold object_tree. rewrite sort_members_length, length_map.
  destruct (decide _) as [Hd|Hd]; [by rewrite bool_decide_eq_true_2|by rewrite bool_decide_eq_false_2].
Qed.

Lemma sort_json_tree v : sorts v.
Proof.
  induction v as [|b|z|s|l IH|l IH] using json_induction; intros key; try done.
  - rewrite sort_json_array, sort_slots_elements by done. cbn [distinct sort_doc].
    destruct (forallb distinct l); [|done]. cbn [mbind outcome_bind obj_of]. by rewrite length_map.
  - rewrite obj_of_object, sort_object by done. cbn [sort_doc].
    change (fun '(k, x) => (k, sort_doc x)) with sort_member. by rewrite obj_of_object.
Qed.

(** [sort_doc] is what its name says: every object's members are in strictly
    increasing order and no member is lost. *)
Fixpoint in_order (v : json) : Prop :=
  match v with
  | JArray l => (fix all l := match l with [] => True | x :: l' => in_order x /\ all l' end) l
  | JObject l =>
      StronglySorted before l /\
      (fix all l := match l with [] => True | (_, x) :: l' => in_order x /\ all l' end) l
  | _ => True
  end.

#[warnings="-register-all"] Inductive reordered : json -> json -> Prop :=
| ReSame v : reordered v v
| ReArray l l' : Forall2 reordered l l' -> reordered (JArray l) (JArray l')
| ReObject l l' l'' :
    Forall2 (fun m m' => m.1 = m'.1 /\ reordered m.2 m'.2) l l' -> l' ≡ₚ l'' ->
    reordered (JObject l) (JObject l'').

Lemma in_order_array l : in_order (JArray l) <-> Forall in_order l.
Proof.
  induction l as [|x l IH]; [split; [constructor|done]|].
  rewrite Forall_cons, <- IH. done.
Qed.

Lemma in_order_object l :
  in_order (JObject l) <-> StronglySorted before l /\ Forall (fun m => in_order m.2) l.
Proof.
  cbn [in_order]. apply and_iff_compat_l. induction l as [|[k x] l IH]; [split; [constructor|done]|].
  rewrite Forall_cons, <- IH. done.
Qed.

Lemma sort_doc_reordered v : reordered v (sort_doc v).
Proof.
  induction v as [|b|z|s|l IH|l IH] using json_induction; try constructor.
  - apply Forall2_fmap_r, Forall_Forall2_diag. exact IH.
  - eapply ReObject; [|symmetry; apply sort_members_perm].
    change (fun '(k, x) => (k, sort_doc x)) with sort_member.
    apply Forall2_fmap_r, Forall_Forall2_diag. eapply Forall_impl; [exact IH|].
    by intros [k x] Hx.
Qed.

Lemma sort_doc_in_order v : distinct v = true -> in_order (sort_doc v).
Proof.
  induction v as [|b|z|s|l IH|l IH] using json_induction; try done.
  - cbn [distinct sort_doc]. rewrite in_order_array, forallb_Forall. intros Hl.
    apply Forall_fmap. eapply Forall_impl; [apply Forall_and; split; [exact IH|exact Hl]|].
    intros x [Hx Hd]. by apply Hx.
  - cbn [distinct sort_doc]. rewrite andb_true_iff, bool_decide_eq_true. intros [Hn Hl].
    change (fun '(k, x) => (k, sort_doc x)) with sort_member. rewrite in_order_object. split.
    + apply sort_members_sorted. by rewrite sort_member_names.
    + rewrite sort_members_perm. apply forallb_Forall in Hl. apply Forall_fmap.
      eapply Forall_impl; [apply Forall_and; split; [exact IH|exact Hl]|].
      intros [k x] [Hx Hd]. by apply Hx.
Qed.

(** [sort_json] on the tree of any document: it always ends, and either two
    members of some object have the same name and the program stops, or the
    result is the tree of the document with the same contents in which every
    object's members are in strictly increasing order of their names. *)
Theorem sort_json_spec key v :
  if distinct v then
    sort_json (obj_of key v) = Done (obj_of key (sort_doc v)) /\
    in_order (sort_doc v) /\ reordered v (sort_doc v)
  else sort_json (obj_of key v) = Failed Stopped.
Proof.
  pose proof (sort_json_tree v key) as H. destruct (distinct v) eqn:Hd; [|done].
  split; [done|]. split; [by apply sort_doc_in_order|apply sort_doc_reordered].
Qed.
