(* ===== verification/SerializePrint.v ===== *)
(** * SerializePrint: print_json writes the compact text of the document

    [prints m s] says that the operation [m] on the buffer appends the text [s]
    and its terminator, whatever was in the buffer, without an access outside
    it.  The text of a tree is the rendering of its document under the string
    encoding [quote_encoding], which escapes quotes only. *)

From Stdlib Require Import String.
From S2P Require Import Prelude JsonText JsonParser JsonPrint JsonStrings JsonComplete Env.
From S2P Require Import Serialize SerializeSort.

(** ** The encoding of strings *)

Definition quote_char (c : Z) : text := if c =? 34 then [92; 34] else [c].
(** A backslash is written as it is, and so starts an escape for the reader. *)
Definition quotable (c : Z) : bool := (0 <? c) && (c <? 256) && negb (c =? 92).

Lemma quote_char_form c : quotable c = true -> form c (quote_char c).
Proof.
  unfold quotable, quote_char. intros H. destruct (Z.eqb_spec c 34) as [->|]; [|constructor; lia].
  by constructor.
Qed.

Lemma quote_char_bytes c : quotable c = true -> Forall is_byte (quote_char c).
Proof.
  unfold quotable, quote_char, is_byte. intros H.
  destruct (Z.eqb_spec c 34) as [->|]; repeat constructor; lia.
Qed.

Lemma quotable_byte c : quotable c = true -> 0 < c < 256.
Proof. unfold quotable. lia. Qed.

Definition quote_encoding : StringEncoding := {|
  encode := quote_char;
  encodable := quotable;
  encode_form := quote_char_form;
  encode_bytes := quote_char_bytes;
  encodable_byte := quotable_byte
|}.
#[local] Existing Instance quote_encoding | 0.

(** ** Appending to the buffer *)

Definition buffer_ok (b : pbuf) : Prop := (pb_pos b <= length (pb_data b))%nat.

(** What was written before stays, then comes [s] with its terminator. *)
Definition appended (b : pbuf) (s : text) (b' : pbuf) : Prop :=
  pb_pos b' = (pb_pos b + length s)%nat /\
  exists tail, pb_data b' = take (pb_pos b) (pb_data b) ++ s ++ 0 :: tail.

Definition prints (m : pbuf -> outcome pbuf) (s : text) : Prop :=
  forall b, buffer_ok b -> exists b', m b = Done b' /\ buffer_ok b' /\ appended b s b'.

Lemma appended_ok b s b' : buffer_ok b -> appended b s b' -> buffer_ok b'.
Proof.
  intros Hb [Hp [tail Hd]]. unfold buffer_ok in *. rewrite Hp, Hd, !length_app, length_take. simpl. lia.
Qed.

Lemma appended_app b b1 b2 s1 s2 :
  buffer_ok b -> appended b s1 b1 -> appended b1 s2 b2 -> appended b (s1 ++ s2) b2.
Proof.
  intros Hb [Hp1 [t1 Hd1]] [Hp2 [t2 Hd2]]. unfold buffer_ok in Hb. split.
  - rewrite Hp2, Hp1, length_app. lia.
  - exists t2. rewrite Hd2, Hp1, Hd1. rewrite (app_assoc (take _ _) s1), take_app_length'.
    + by rewrite <- !app_assoc.
    + rewrite length_app, length_take. lia.
Qed.

Lemma prints_seq m1 m2 s1 s2 :
  prints m1 s1 -> prints m2 s2 -> prints (fun b => m1 b ≫= m2) (s1 ++ s2).
Proof.
  intros H1 H2 b Hb. destruct (H1 b Hb) as (b1 & -> & Hb1 & Ha1).
  destruct (H2 b1 Hb1) as (b2 & E2 & Hb2 & Ha2). exists b2. split; [exact E2|].
  split; [done|]. by apply (appended_app _ b1).
Qed.

Lemma prints_ext m m' s s' : (forall b, m' b = m b) -> s' = s -> prints m s -> prints m' s'.
Proof. intros Hm -> H b Hb. rewrite Hm. by apply H. Qed.

Lemma prints_eq m s s' : s' = s -> prints m s -> prints m s'.
Proof. by intros ->. Qed.

Section Print.
Variable grown : nat -> Z.
Abbreviation print_to_buffer := (print_to_buffer grown).
Abbreviation print_json := (print_json grown).

Lemma reallocate_length d n : (length d <= n)%nat -> length (reallocate grown d n) = n.
Proof. intros H. unfold reallocate. rewrite length_app, length_take, length_map, length_seq. lia. Qed.

Lemma reallocate_take d n p : (p <= length d <= n)%nat -> take p (reallocate grown d n) = take p d.
Proof.
  intros H. unfold reallocate. rewrite (take_ge d) by lia. apply take_app_le. lia.
Qed.

(** The growth of the buffer always makes room. *)
Lemma print_to_buffer_prints s : prints (print_to_buffer s) s.
Proof.
  intros b Hb. unfold Serialize.print_to_buffer, buffer_ok in *. 
  set (size := length (pb_data b)) in *. set (len := S (length s)).
  set (d := if bool_decide _ then _ else pb_data b).
  assert ((pb_pos b + len <= length d)%nat /\ take (pb_pos b) d = take (pb_pos b) (pb_data b)) as [Hl Ht].
  { unfold d. case_bool_decide; [|split; [fold size; lia|done]].
    rewrite reallocate_length, reallocate_take by (fold size; case_bool_decide; lia).
    split; [case_bool_decide; lia|done]. }
  rewrite decide_True by done. eexists. split; [done|].
  assert (appended b s (PBuf (take (pb_pos b) d ++ s ++ 0 :: drop (pb_pos b + len) d) (pb_pos b + length s))).
  { split; [done|]. simpl. rewrite Ht. by eexists. }
  split; [by eapply appended_ok|done].
Qed.

(** ** Strings *)

Lemma printed_plain s : Forall (fun c => c ≠ 34) s -> printed s = s.
Proof.
  induction 1 as [|c s Hc _ IH]; [done|]. change (printed (c :: s)) with (quote_char c ++ printed s).
  rewrite IH. unfold quote_char. by destruct (Z.eqb_spec c 34).
Qed.

Lemma printed_app s1 s2 : printed (s1 ++ s2) = printed s1 ++ printed s2.
Proof. apply flat_map_app. Qed.

Lemma print_quotes_prints fuel s : (length s < fuel)%nat -> prints (print_quotes grown fuel s) (printed s).
Proof.
  revert s. induction fuel as [|fuel IH]; intros s Hf; [lia|]. cbn [print_quotes].
  destruct (list_find (fun c => c = 34) s) as [[i c]|] eqn:Hq.
  - apply list_find_Some in Hq as (Hi & -> & Hb). pose proof (lookup_lt_Some _ _ _ Hi).
    assert (printed s = printed (take i s) ++ [92; 34] ++ printed (drop (S i) s)) as ->.
    { rewrite <- (take_drop_middle s i 34 Hi) at 1. rewrite printed_app. done. }
    rewrite printed_plain.
    + apply prints_seq; [apply print_to_buffer_prints|].
      apply prints_seq; [apply print_to_buffer_prints|]. apply IH. rewrite length_drop. lia.
    + apply Forall_lookup. intros j x [Hj Hx]%lookup_take_Some. by apply (Hb j).
  - apply list_find_None in Hq. rewrite printed_plain by done. apply print_to_buffer_prints.
Qed.

Lemma print_string_prints s : prints (print_string grown (Some s)) (quoted s).
Proof.
  unfold print_string, quoted. change (34 :: printed s ++ [34]) with ([34] ++ printed s ++ [34]).
  apply prints_seq; [apply print_to_buffer_prints|].
  apply prints_seq; [apply print_quotes_prints; lia|apply print_to_buffer_prints].
Qed.

(** ** Trees *)

(** Keys are written as they are: they must have no quote.  Numbers have no
    tree. *)
Definition plain (k : text) : bool := forallb (fun c => negb (c =? 34)) k.

Fixpoint printable (v : json) : bool :=
  match v with
  | JInt _ => false
  | JArray l => forallb printable l
  | JObject l => forallb (fun '(k, x) => plain k && printable x) l
  | _ => true
  end.

Lemma plain_printed k : plain k = true -> printed k = k.
Proof.
  unfold plain. rewrite forallb_Forall. intros H. apply printed_plain.
  eapply Forall_impl; [exact H|]. simpl. intros c Hc ->. by vm_compute in Hc.
Qed.

Definition key_text (key : option text) : text :=
  match key with Some k => [34] ++ k ++ [34; 58] | None => [] end.

(** The loop of [print_json] over the slots, as a function of its own. *)
Fixpoint print_slots (n : nat) (first : bool) (l : list (option json_obj)) (b : pbuf) {struct l} :
    outcome pbuf :=
  match n, l with
  | O, _ => Done b
  | S _, [] => Failed (BadPointer 0)
  | S _, None :: _ => Failed (BadPointer 0)
  | S n', Some o :: l' =>
      b1 ← print_comma grown first b; b2 ← print_json o b1; print_slots n' false l' b2
  end.

Definition print_members (bracket bracket' : Z) (n : nat) (l : list (option json_obj)) (b : pbuf) :
    outcome pbuf :=
  b1 ← print_to_buffer [bracket] b; b2 ← print_slots n true l b1; print_to_buffer [bracket'] b2.

Lemma print_json_array key l b :
  print_json (obj_of key (JArray l)) b =
    (b0 ← print_key grown key b; print_members 91 93 (length l) (map (fun x => Some (obj_of None x)) l) b0).
Proof. reflexivity. Qed.

Lemma print_json_object key ms rest b :
  print_json (object_tree key ms rest) b =
    (b0 ← print_key grown key b; print_members 123 125 (length ms) (map slot ms ++ rest) b0).
Proof. reflexivity. Qed.

Lemma print_key_prints key m s :
  prints m s -> prints (fun b => print_key grown key b ≫= m) (key_text key ++ s).
Proof.
  intros H. destruct key as [k|]; [|exact H]. apply prints_seq; [|done]. unfold key_text, print_key.
  repeat (apply prints_seq; [apply print_to_buffer_prints|]). apply print_to_buffer_prints.
Qed.

(** The slots hold trees that print [ss]. *)
Definition slots_print (os : list json_obj) (ss : list text) : Prop :=
  Forall2 (fun o s => prints (print_json o) s) os ss.

Lemma print_slots_more os ss rest m s :
  slots_print os ss -> prints m s ->
  prints (fun b => print_slots (length os) false (map Some os ++ rest) b ≫= m)
    (flat_map (fun s => 44 :: s) ss ++ s).
Proof.
  intros H Hm. induction H as [|o s1 os ss Ho Hss IH].
  - destruct rest; exact Hm.
  - eapply prints_ext; [| |exact (prints_seq _ _ [44] _ (print_to_buffer_prints [44])
                                    (prints_seq _ _ s1 _ Ho IH))].
    + intros b. cbn [length map app print_slots print_comma].
      destruct (print_to_buffer [44] b) as [b1|]; [|done]. cbn.
      by destruct (print_json o b1).
    + cbn [flat_map]. simpl. by rewrite <- app_assoc.
Qed.

Lemma print_slots_first os ss rest m s :
  slots_print os ss -> prints m s ->
  prints (fun b => print_slots (length os) true (map Some os ++ rest) b ≫= m)
    (tl (flat_map (fun s => 44 :: s) ss) ++ s).
Proof.
  intros H Hm. destruct H as [|o s1 os ss Ho Hss].
  - destruct rest; exact Hm.
  - eapply prints_ext; [| |apply (prints_seq _ _ s1 _ Ho (print_slots_more os ss rest m s Hss Hm))].
    + intros b. cbn [length map app print_slots print_comma]. cbn.
      by destruct (print_json o b).
    + simpl. by rewrite <- app_assoc.
Qed.

Lemma print_members_prints bracket bracket' os ss rest :
  slots_print os ss ->
  prints (print_members bracket bracket' (length os) (map Some os ++ rest))
    (bracket :: tl (flat_map (fun s => 44 :: s) ss) ++ [bracket']).
Proof.
  intros H. unfold print_members.
  apply (prints_seq _ _ [bracket] _ (print_to_buffer_prints _)).
  apply print_slots_first; [done|]. apply print_to_buffer_prints.
Qed.

Definition prints_doc (v : json) : Prop :=
  printable v = true -> forall key, prints (print_json (obj_of key v)) (key_text key ++ render v).

Definition member_text (m : text * json) : text := let '(k, x) := m in quoted k ++ 58 :: render x.

Lemma print_object key ms rest :
  Forall (fun m => prints_doc m.2) ms -> printable (JObject ms) = true ->
  prints (print_json (object_tree key ms rest)) (key_text key ++ render (JObject ms)).
Proof.
  intros Hms Hp. eapply prints_ext; [intros b; apply print_json_object|done|].
  apply print_key_prints. cbn [printable] in Hp. rewrite forallb_Forall in Hp.
  set (os := map (fun '(k, x) => obj_of (Some k) x) ms).
  assert (map slot ms = map Some os) as Hslot
    by (unfold os; rewrite map_map; apply map_ext; by intros []).
  rewrite Hslot. replace (length ms) with (length os) by (unfold os; by rewrite length_map).
  eapply prints_eq; [|apply (print_members_prints 123 125 os (map member_text ms) rest)].
  - cbn [render]. do 3 f_equal. clear. induction ms as [|[k x] ms IH]; [done|]. cbn [flat_map map].
    by rewrite IH.
  - apply Forall2_fmap, Forall_Forall2_diag.
    eapply Forall_impl; [apply Forall_and; split; [exact Hms|exact Hp]|].
    intros [k x] [Hx [Hk Hx']%andb_true_iff]. eapply prints_eq; [|apply (Hx Hx' (Some k))].
    cbn [member_text key_text]. unfold quoted. rewrite plain_printed by done.
    simpl. by rewrite <- !app_assoc.
Qed.

Lemma print_json_tree v : prints_doc v.
Proof.
  induction v as [|b|z|s|l IH|l IH] using json_induction; intros Hp key.
  - apply print_key_prints, print_to_buffer_prints.
  - apply print_key_prints. cbn [render]. destruct b; apply print_to_buffer_prints.
  - done.
  - apply print_key_prints, print_string_prints.
  - eapply prints_ext; [intros b; apply print_json_array|done|]. apply print_key_prints.
    rewrite <- (map_map (obj_of None) Some), <- (app_nil_r (map Some _)).
    replace (length l) with (length (map (obj_of None) l)) by apply length_map.
    eapply prints_eq; [|apply (print_members_prints 91 93 _ (map render l) [])].
    + cbn [render]. do 3 f_equal. clear. induction l as [|x l IH]; [done|]. cbn [flat_map map].
      by rewrite IH.
    + apply Forall2_fmap, Forall_Forall2_diag. cbn [printable] in Hp. rewrite forallb_Forall in Hp.
      eapply Forall_impl; [apply Forall_and; split; [exact IH|exact Hp]|].
      intros x [Hx Hx']. apply (Hx Hx' None).
  - rewrite obj_of_object. by apply print_object.
Qed.
End Print.

(** [print_json] on the tree of any document whose member names have no
    quote, into a buffer of any size and contents: it writes exactly the compact
    text of the document, with its terminator, growing the buffer as it goes,
    and never writes outside the buffer. *)
Theorem print_json_renders grown v b :
  printable v = true -> buffer_ok b ->
  exists b' tail, print_json grown (obj_of None v) b = Done b' /\
    pb_data b' = take (pb_pos b) (pb_data b) ++ render v ++ 0 :: tail /\
    pb_pos b' = (pb_pos b + length (render v))%nat.
Proof.
  intros Hv Hb. destruct (print_json_tree grown v Hv None b Hb) as (b' & E & _ & Hp & tail & Hd).
  by exists b', tail.
Qed.

Lemma print_json_renders_witness :
  let v := JObject [(bytes "a", JArray [JString [34; 200]; JNull; JBool true]); (bytes "b", JObject [])] in
  exists b' tail, print_json (fun _ => 7) (obj_of None v) (PBuf [1; 2; 3] 2) = Done b' /\
    pb_data b' = [1; 2] ++ render v ++ 0 :: tail /\ pb_pos b' = (2 + length (render v))%nat.
Proof.
  apply (print_json_renders (fun _ => 7) _ (PBuf [1; 2; 3] 2)); [reflexivity|]. unfold buffer_ok. simpl. lia.
Defined.
