(* ===== verification/SerializeConfig.v ===== *)
(** * SerializeConfig: the text of a configuration

    [config_members] is the document of a configuration.  The encoding functions
    build its tree, without a fault unless there are WireGuard peers, and
    [serialize_enclave_config] writes the text of the document with its members
    in order. *)

From Stdlib Require Import String.
From S2P Require Import Prelude JsonText JsonParser JsonPrint JsonNumbers JsonStrings JsonSafety.
From S2P Require Import JsonComplete Env EnclaveConfig Serialize SerializeSort SerializePrint.
#[local] Existing Instance quote_encoding | 0.

(** ** Documents of the parts *)

Definition string_doc (s : option text) : json :=
  match s with Some s => JString s | None => JNull end.
Definition int_doc (z : Z) : json := JString (take 16 (unsigned_digits z)).
Definition hex_doc (b : option (list Z)) : json :=
  JString (match b with Some b => flat_map two_hex b | None => [] end).

Definition strings_doc (l : list (option text)) : json := JArray (map string_doc l).

Definition clock_res_doc (l : list text) : json :=
  JArray (map (fun c => JObject [(bytes "resolution", JString c)]) l).

Definition root_doc (r : root_config) : json :=
  JObject
    [(bytes "key", hex_doc (root_key r));
     (bytes "key_id", string_doc (root_key_id r));
     (bytes "roothash", string_doc (root_roothash r));
     (bytes "roothash_offset", int_doc (root_roothash_offset r));
     (bytes "readonly", JBool (root_readonly r));
     (bytes "overlay", JBool (root_overlay r))].

Definition mount_doc (m : mount_config) : json :=
  JObject
    [(bytes "destination", JString (mnt_destination m));
     (bytes "key", hex_doc (mnt_key m));
     (bytes "key_id", string_doc (mnt_key_id m));
     (bytes "fresh_key", JBool (mnt_fresh_key m));
     (bytes "roothash", string_doc (mnt_roothash m));
     (bytes "roothash_offset", int_doc (mnt_roothash_offset m));
     (bytes "readonly", JBool (mnt_readonly m));
     (bytes "create", JBool (mnt_create m));
     (bytes "size", int_doc (mnt_size m))].

Definition mounts_doc (l : list mount_config) : json := JArray (map mount_doc l).

(** A configuration without peers. *)
Definition wg_doc (w : wg_config) : json :=
  JObject
    [(bytes "ip", string_doc (wg_ip w));
     (bytes "listen_port", int_doc (wg_listen_port w));
     (bytes "key", string_doc (wg_key w));
     (bytes "peers", JArray [])].

Definition image_sizes_doc (s : image_sizes_config) : json :=
  JObject
    [(bytes "num_heap_pages", int_doc (num_heap_pages s));
     (bytes "num_stack_pages", int_doc (num_stack_pages s))].

Definition io_doc (i : io_config) : json :=
  JObject
    [(bytes "console", JBool (io_console i));
     (bytes "block", JBool (io_block i));
     (bytes "network", JBool (io_network i))].

(** ** The encoding functions build the trees of the documents *)

Lemma encode_hex_string_doc key b : encode_hex_string key b = obj_of key (hex_doc b).
Proof.
  destruct b as [b|]; [|done]. unfold encode_hex_string, hex_doc, bytes_to_hex.
  rewrite (bool_decide_false (2 * length b + 1 < _)%nat) by lia.
  case_bool_decide; [done|]. by destruct b; [|simpl in *; lia].
Qed.

Lemma encode_int_doc key z : encode_int key z = obj_of key (int_doc z).
Proof. done. Qed.

Lemma create_json_string_doc key s : create_json_string key s = obj_of key (string_doc s).
Proof. by destruct s. Qed.

Lemma set_slot_next pre rest o :
  set_slot (Some (pre ++ None :: rest)) (length pre) o = Done (Some (pre ++ Some o :: rest)).
Proof.
  unfold set_slot. rewrite decide_True by (rewrite length_app; simpl; lia).
  rewrite insert_app_r_alt, Nat.sub_diag by lia. done.
Qed.

(** The elements of an array assigned one after the other. *)
Section Fill.
Context {A : Type}.
Variables (fill : json_obj -> nat -> list A -> outcome json_obj) (doc : A -> json).
Hypothesis fill_nil : forall r i, fill r i [] = Done r.
Hypothesis fill_cons : forall r i x l,
  fill r i (x :: l) = (r' ← set_array r i (obj_of None (doc x)); fill r' (S i) l).

Lemma fill_array key (l : list A) :
  fill (create_json_array key (length l)) 0 l = Done (obj_of key (JArray (map doc l))).
Proof.
  assert (forall pre n, fill (JObj key JSON_TYPE_NULL (OString None) (Some (pre ++ replicate (length l) None)) None n)
            (length pre) l =
          Done (JObj key JSON_TYPE_NULL (OString None) (Some (pre ++ map (fun x => Some (obj_of None (doc x))) l)) None n))
    as H.
  { induction l as [|x l IH]; intros pre n; [by rewrite fill_nil|].
    rewrite fill_cons. cbn [length replicate set_array]. rewrite set_slot_next. cbn [mbind outcome_bind].
    specialize (IH (pre ++ [Some (obj_of None (doc x))]) n).
    rewrite length_app, Nat.add_1_r, <- !app_assoc in IH. exact IH. }
  specialize (H [] (length l)). cbn [app length] in H. unfold create_json_array, create_json_obj.
  rewrite H. cbn [obj_of]. by rewrite map_map, length_map.
Qed.
End Fill.

Lemma set_arrays_map key (l : list (option text)) :
  set_arrays (create_json_array key (length l)) 0 (map (create_json_string None) l) =
    Done (obj_of key (strings_doc l)).
Proof.
  apply (fill_array (fun r i l => set_arrays r i (map (create_json_string None) l)) string_doc).
  - done.
  - intros r i x l'. cbn [map set_arrays]. by rewrite create_json_string_doc.
Qed.

Lemma encode_clock_res_doc key l :
  length l = 8%nat -> encode_clock_res key l = Done (obj_of (Some key) (clock_res_doc l)).
Proof.
  intros Hl. unfold encode_clock_res. rewrite <- Hl. by apply fill_array.
Qed.

Lemma encode_root_doc key r : encode_root key r = Done (obj_of (Some key) (root_doc r)).
Proof. unfold encode_root. by rewrite encode_hex_string_doc, !create_json_string_doc. Qed.

Lemma encode_mount_doc m : encode_mount m = Done (obj_of None (mount_doc m)).
Proof. unfold encode_mount. by rewrite encode_hex_string_doc, !create_json_string_doc. Qed.

Lemma encode_mounts_doc key l : encode_mounts key l = Done (obj_of (Some key) (mounts_doc l)).
Proof.
  unfold encode_mounts, mounts_doc. apply fill_array; [done|]. intros r i x l'.
  cbn [encode_mounts_from]. by rewrite encode_mount_doc.
Qed.

Lemma encode_wg_doc key w :
  wg_peers w = [] -> encode_wg key w = Done (obj_of (Some key) (wg_doc w)).
Proof.
  intros Hp. unfold encode_wg. rewrite Hp, !create_json_string_doc. done.
Qed.

(** With peers, the first one is stored through a NULL pointer. *)
Lemma encode_wg_fails key w :
  wg_peers w ≠ [] -> exists p, encode_wg key w = Failed (BadPointer p).
Proof. intros Hp. unfold encode_wg. destruct (wg_peers w) as [|x l]; [done|]. by eexists. Qed.

Lemma encode_image_sizes_doc key s :
  encode_image_sizes key s = Done (obj_of (Some key) (image_sizes_doc s)).
Proof. done. Qed.

Lemma encode_io_doc key i : encode_io key i = Done (obj_of (Some key) (io_doc i)).
Proof. done. Qed.

(** Assigning the members of an object with slots to spare. *)
Lemma set_objects_fill key ty v arr n os :
  forall pre spare,
  set_objects (JObj key ty v arr (Some (pre ++ replicate (length os + spare) None)) n) (length pre) os =
    Done (JObj key ty v arr (Some (pre ++ map Some os ++ replicate spare None)) n).
Proof.
  induction os as [|o os IH]; intros pre spare; [done|].
  cbn [length Nat.add replicate set_objects set_object]. rewrite set_slot_next.
  cbn [mbind outcome_bind]. specialize (IH (pre ++ [Some o]) spare).
  rewrite length_app, Nat.add_1_r, <- !app_assoc in IH. exact IH.
Qed.

(** ** Sorting keeps what printing and parsing need *)

Lemma forallb_perm {A} (f : A -> bool) l l' : l ≡ₚ l' -> forallb f l = forallb f l'.
Proof. intros H. apply eq_true_iff_eq. by rewrite !forallb_Forall, H. Qed.

Lemma list_max_perm l l' : l ≡ₚ l' -> list_max l = list_max l'.
Proof. induction 1; simpl in *; lia. Qed.

Lemma forallb_map_ext {A} (f : A -> bool) (g : A -> A) l :
  Forall (fun x => f (g x) = f x) l -> forallb f (map g l) = forallb f l.
Proof. induction 1 as [|x l Hx _ IH]; [done|]. simpl. by rewrite Hx, IH. Qed.

Lemma printable_sort v : printable (sort_doc v) = printable v.
Proof.
  induction v as [|b|z|s|l IH|l IH] using json_induction; try done.
  - apply (forallb_map_ext printable sort_doc _ IH).
  - cbn [sort_doc printable]. rewrite (forallb_perm _ _ _ (sort_members_perm _)).
    apply (forallb_map_ext _ sort_member). eapply Forall_impl; [exact IH|].
    intros [k x] Hx. simpl in *. by rewrite Hx.
Qed.

Lemma list_max_map_ext {A} (f : A -> nat) (g : A -> A) l :
  Forall (fun x => f (g x) = f x) l -> list_max (map f (map g l)) = list_max (map f l).
Proof. induction 1 as [|x l Hx _ IH]; [done|]. simpl in *. by rewrite Hx, IH. Qed.

Lemma nesting_sort v : nesting (sort_doc v) = nesting v.
Proof.
  induction v as [|b|z|s|l IH|l IH] using json_induction; try done.
  - apply (list_max_map_ext nesting sort_doc _ IH).
  - cbn [sort_doc nesting]. f_equal.
    rewrite (list_max_perm _ _ (Permutation_map _ (sort_members_perm _))).
    apply (list_max_map_ext (fun '(_, x) => nesting x) sort_member).
    eapply Forall_impl; [exact IH|]. by intros [k x] Hx.
Qed.

Lemma supported_sort v : supported v -> supported (sort_doc v).
Proof.
  induction v as [|b|z|s|l IH|l IH] using json_induction; try done.
  - intros [Hl Hs]. apply all_supported_Forall in Hs. cbn [sort_doc]. split; [by rewrite length_map|].
    apply all_supported_Forall, Forall_map.
    eapply Forall_impl; [apply Forall_and; split; [exact IH|exact Hs]|]. by intros x [Hx ?]; apply Hx.
  - intros Hs. apply members_supported_Forall in Hs. apply members_supported_Forall.
    rewrite sort_members_perm. apply Forall_map.
    eapply Forall_impl; [apply Forall_and; split; [exact IH|exact Hs]|].
    intros [k x] [Hx [Hk Hs']]. split; [done|]. by apply Hx.
Qed.

(** ** The text of a configuration *)

Section Config.
Context `{Gen : GeneratedConfig}.
Implicit Types c : enclave_config.

Definition config_members c : list (text * json) :=
  [(bytes "format_version", int_doc SGXLKL_ENCLAVE_CONFIG_T_VERSION);
   (bytes "mode", JString (sgxlkl_enclave_mode_t_to_string (mode c)));
   (bytes "stacksize", int_doc (stacksize c));
   (bytes "mmap_files", JString (sgxlkl_enclave_mmap_files_t_to_string (mmap_files c)));
   (bytes "oe_heap_pagecount", int_doc (oe_heap_pagecount c));
   (bytes "net_ip4", string_doc (net_ip4 c));
   (bytes "net_gw4", string_doc (net_gw4 c));
   (bytes "net_mask4", string_doc (net_mask4 c));
   (bytes "hostname", string_doc (hostname c));
   (bytes "tap_mtu", int_doc (tap_mtu c));
   (bytes "hostnet", JBool (hostnet c));
   (bytes "wg", wg_doc (wg c));
   (bytes "max_user_threads", int_doc (max_user_threads c));
   (bytes "espins", int_doc (espins c));
   (bytes "esleep", int_doc (esleep c));
   (bytes "ethreads", int_doc (ethreads c));
   (bytes "clock_res", clock_res_doc (clock_res c));
   (bytes "fsgsbase", JBool (fsgsbase c));
   (bytes "verbose", JBool (verbose c));
   (bytes "kernel_verbose", JBool (kernel_verbose c));
   (bytes "kernel_cmd", string_doc (kernel_cmd c));
   (bytes "sysctl", string_doc (sysctl c));
   (bytes "swiotlb", JBool (swiotlb c));
   (bytes "cwd", string_doc (cwd c));
   (bytes "args", strings_doc (args c));
   (bytes "env", strings_doc (env c));
   (bytes "host_import_env", strings_doc (host_import_env c));
   (bytes "root", root_doc (root c));
   (bytes "mounts", mounts_doc (mounts c));
   (bytes "exit_status", JString (sgxlkl_exit_status_mode_t_to_string (exit_status c)));
   (bytes "image_sizes", image_sizes_doc (image_sizes c));
   (bytes "io", io_doc (io c))].

Lemma root_object_tree c :
  wg_peers (wg c) = [] -> length (clock_res c) = 8%nat ->
  root_object c = Done (object_tree None (config_members c) (replicate 432 None)).
Proof.
  intros Hp Hc. unfold root_object. rewrite (encode_wg_doc _ _ Hp), (encode_clock_res_doc _ _ Hc).
  unfold encode_string_array. rewrite !set_arrays_map, encode_root_doc, encode_mounts_doc.
  rewrite encode_image_sizes_doc, encode_io_doc. cbn [mbind outcome_bind].
  set (os := [_; _; _; _; _; _; _; _; _; _; _; _; _; _; _; _; _; _; _; _; _; _; _; _; _; _; _; _; _; _; _; _]).
  assert (map Some os = map slot (config_members c)) as Hos.
  { unfold os, FPFS, FPFSS. rewrite !create_json_string_doc. reflexivity. }
  assert (length os = 32%nat) as Hlen by done.
  pose proof (set_objects_fill None JSON_TYPE_NULL (OString None) None 464 os [] 432) as H.
  rewrite Hlen in H. cbn [app length Nat.add] in H. unfold create_json_objects, create_json_obj.
  change (replicate 464 (@None json_obj)) with (replicate (32 + 432) (@None json_obj)).
  cbn [Nat.add]. rewrite H. cbn [mbind outcome_bind set_count]. unfold object_tree.
  by rewrite Hos, Hlen.
Qed.

Definition config_doc c : json := JObject (config_members c).

Lemma mount_doc_distinct m : distinct (mount_doc m) = true.
Proof. by destruct m as [? ? [] ? []]. Qed.

Lemma string_doc_distinct s : distinct (string_doc s) = true.
Proof. by destruct s. Qed.

Lemma config_doc_distinct c : distinct (config_doc c) = true.
Proof.
  cbn [config_doc distinct]. apply andb_true_intro. split.
  - apply bool_decide_eq_true_2. apply (bool_decide_unpack (NoDup (config_members c).*1)).
    vm_compute. exact I.
  - repeat (apply andb_true_intro; split); try done; try apply string_doc_distinct.
    all: apply forallb_Forall, Forall_map, Forall_true; intros x; try done;
      first [apply string_doc_distinct|apply mount_doc_distinct].
Qed.

Lemma mount_doc_printable m : printable (mount_doc m) = true.
Proof. by destruct m as [? ? [] ? []]. Qed.

Lemma string_doc_printable s : printable (string_doc s) = true.
Proof. by destruct s. Qed.

Lemma config_doc_printable c : printable (config_doc c) = true.
Proof.
  cbn [config_doc printable].
  repeat (apply andb_true_intro; split); try done; try apply string_doc_printable.
  all: apply forallb_Forall, Forall_map, Forall_true; intros x; try done;
    first [apply string_doc_printable|apply mount_doc_printable].
Qed.

Lemma list_max_le l n : Forall (fun x => x <= n)%nat l -> (list_max l <= n)%nat.
Proof. induction 1; simpl in *; lia. Qed.

Lemma string_doc_nesting s : nesting (string_doc s) = 0%nat.
Proof. by destruct s. Qed.

Lemma config_doc_nesting c : (nesting (config_doc c) <= JSON_MAX_NESTING)%nat.
Proof.
  cbn [config_doc nesting]. etransitivity; [apply le_n_S, (list_max_le _ 1)|unfold JSON_MAX_NESTING; lia].
  repeat (apply Forall_cons; split); try apply Forall_nil_2; try done;
    cbn [nesting wg_doc root_doc image_sizes_doc io_doc int_doc map list_max foldr];
    rewrite ?string_doc_nesting; try (simpl; lia).
  all: apply list_max_le; do 2 apply Forall_map; apply Forall_true; intros x;
    cbn [nesting mount_doc map list_max foldr]; rewrite ?string_doc_nesting; simpl; lia.
Qed.

(** ** What can be serialized *)

Definition quotable_text (s : text) : Prop := forallb quotable s = true.
Definition quotable_string (s : option text) : Prop :=
  match s with Some s => quotable_text s | None => True end.
Definition key_bytes (k : option (list Z)) : Prop :=
  match k with Some b => Forall is_byte b | None => True end.

Record mount_serializable (m : mount_config) : Prop := {
  ser_destination : quotable_text (mnt_destination m);
  ser_mnt_key : key_bytes (mnt_key m);
  ser_mnt_key_id : quotable_string (mnt_key_id m);
  ser_mnt_roothash : quotable_string (mnt_roothash m)
}.

(** The strings have no backslash, there are no peers and 8 clocks. *)
Record serializable c : Prop := {
  ser_net_ip4 : quotable_string (net_ip4 c);
  ser_net_gw4 : quotable_string (net_gw4 c);
  ser_net_mask4 : quotable_string (net_mask4 c);
  ser_hostname : quotable_string (hostname c);
  ser_wg_ip : quotable_string (wg_ip (wg c));
  ser_wg_key : quotable_string (wg_key (wg c));
  ser_peers : wg_peers (wg c) = [];
  ser_clocks : length (clock_res c) = 8%nat;
  ser_clock_res : Forall quotable_text (clock_res c);
  ser_kernel_cmd : quotable_string (kernel_cmd c);
  ser_sysctl : quotable_string (sysctl c);
  ser_cwd : quotable_string (cwd c);
  ser_args : Forall quotable_string (args c) /\ Z.of_nat (length (args c)) < 2 ^ 63;
  ser_env : Forall quotable_string (env c) /\ Z.of_nat (length (env c)) < 2 ^ 63;
  ser_import : Forall quotable_string (host_import_env c) /\
               Z.of_nat (length (host_import_env c)) < 2 ^ 63;
  ser_root_key : key_bytes (root_key (root c));
  ser_root_key_id : quotable_string (root_key_id (root c));
  ser_root_roothash : quotable_string (root_roothash (root c));
  ser_mounts : Forall mount_serializable (mounts c) /\ Z.of_nat (length (mounts c)) < 2 ^ 63
}.

Lemma object_supported l :
  Forall (fun m => forallb encodable m.1 = true /\ supported m.2) l -> supported (JObject l).
Proof. intros H. by apply members_supported_Forall in H. Qed.

Lemma array_supported l :
  Z.of_nat (length l) < 2 ^ 63 -> Forall supported l -> supported (JArray l).
Proof. intros Hl H. split; [done|]. by apply all_supported_Forall in H. Qed.

Lemma quotable_impl (P : Z -> Prop) s :
  (forall x, P x -> quotable x = true) -> Forall P s -> quotable_text s.
Proof. intros H Hs. apply forallb_Forall. eapply Forall_impl; [exact Hs|done]. Qed.

Lemma string_doc_supported s : quotable_string s -> supported (string_doc s).
Proof. by destruct s. Qed.

Lemma int_doc_supported z : supported (int_doc z).
Proof.
  apply (quotable_impl is_dec); [|apply Forall_take, unsigned_digits_dec].
  unfold is_dec, quotable. intros. lia.
Qed.

Lemma hex_char_quotable d : 0 <= d < 16 -> quotable (hex_char d) = true.
Proof. unfold hex_char, quotable. intros. destruct (Z.ltb_spec d 10); lia. Qed.

Lemma hex_doc_supported b : key_bytes b -> supported (hex_doc b).
Proof.
  destruct b as [b|]; [|done]. simpl. intros Hb. apply forallb_Forall.
  induction Hb as [|x b Hx _ IH]; [constructor|]. unfold is_byte in Hx. cbn [flat_map two_hex app].
  constructor; [|constructor; [|exact IH]]; apply hex_char_quotable.
  - split; [apply Z.div_pos; lia|apply Z.div_lt_upper_bound; lia].
  - apply Z.mod_pos_bound. lia.
Qed.

Lemma letters_quotable s : forallb name_letter s = true -> quotable_text s.
Proof.
  rewrite forallb_Forall. apply quotable_impl. unfold name_letter, quotable. lia.
Qed.

Lemma strings_doc_supported l :
  Forall quotable_string l /\ Z.of_nat (length l) < 2 ^ 63 -> supported (strings_doc l).
Proof.
  intros [Hl Hn]. apply array_supported; [by rewrite length_map|]. apply Forall_map.
  eapply Forall_impl; [exact Hl|]. apply string_doc_supported.
Qed.

Create HintDb supported discriminated.
#[local] Hint Resolve string_doc_supported int_doc_supported hex_doc_supported : supported.

(** An object, member by member. *)
Ltac members_supported :=
  apply object_supported; repeat (apply Forall_cons; split); try apply Forall_nil_2;
  (split; [done|]); cbn [snd]; auto with supported; try done.

Lemma mount_doc_supported m : mount_serializable m -> supported (mount_doc m).
Proof. intros []. unfold mount_doc. members_supported. Qed.

Lemma wg_doc_supported w :
  quotable_string (wg_ip w) -> quotable_string (wg_key w) -> supported (wg_doc w).
Proof. intros. unfold wg_doc. members_supported. Qed.

Lemma root_doc_supported r :
  key_bytes (root_key r) -> quotable_string (root_key_id r) -> quotable_string (root_roothash r) ->
  supported (root_doc r).
Proof. intros. unfold root_doc. members_supported. Qed.

Lemma clock_res_doc_supported l :
  length l = 8%nat -> Forall quotable_text l -> supported (clock_res_doc l).
Proof.
  intros Hl Hq. apply array_supported; [rewrite length_map; lia|]. apply Forall_map.
  eapply Forall_impl; [exact Hq|]. intros x Hx. by split.
Qed.

Lemma mounts_doc_supported l :
  Forall mount_serializable l /\ Z.of_nat (length l) < 2 ^ 63 -> supported (mounts_doc l).
Proof.
  intros [Hm Hn]. apply array_supported; [by rewrite length_map|]. apply Forall_map.
  eapply Forall_impl; [exact Hm|]. apply mount_doc_supported.
Qed.

Lemma image_sizes_doc_supported s : supported (image_sizes_doc s).
Proof. unfold image_sizes_doc. members_supported. Qed.

Lemma name_supported s : forallb name_letter s = true -> supported (JString s).
Proof. apply letters_quotable. Qed.

#[local] Hint Resolve wg_doc_supported root_doc_supported clock_res_doc_supported mounts_doc_supported
  image_sizes_doc_supported strings_doc_supported name_supported mode_letters mmap_files_letters
  exit_status_letters : supported.

Lemma config_doc_supported c : serializable c -> supported (config_doc c).
Proof. intros []. unfold config_doc, config_members. members_supported. Qed.

(** ** serialize_enclave_config *)

Definition sorted_members c : list (text * json) := sort_members (map sort_member (config_members c)).

Lemma config_sorted c : sort_doc (config_doc c) = JObject (sorted_members c).
Proof. done. Qed.

Lemma sorted_supported c : serializable c -> supported (JObject (sorted_members c)).
Proof. intros Hs. rewrite <- config_sorted. by apply supported_sort, config_doc_supported. Qed.

Lemma sorted_nesting c : (nesting (JObject (sorted_members c)) <= JSON_MAX_NESTING)%nat.
Proof. rewrite <- config_sorted, nesting_sort. apply config_doc_nesting. Qed.

Lemma serialize_text grown c b :
  serializable c ->
  exists b' tail, serialize_enclave_config grown c b = Done b' /\
    pb_data b' = render (sort_doc (config_doc c)) ++ 0 :: tail.
Proof.
  intros Hs. unfold serialize_enclave_config.
  rewrite root_object_tree by apply Hs. cbn [mbind outcome_bind].
  rewrite sort_object by (apply Forall_true; intros; apply sort_json_tree).
  change (JObject (config_members c)) with (config_doc c). rewrite config_doc_distinct.
  cbn [mbind outcome_bind].
  destruct (print_object grown None (sorted_members c) (replicate 432 None)) with (b := PBuf (pb_data b) 0)
    as (b' & E & _ & _ & tail & Hd).
  - apply Forall_true. intros. apply print_json_tree.
  - rewrite <- config_sorted, printable_sort. apply config_doc_printable.
  - unfold buffer_ok. simpl. lia.
  - exists b', tail. split; [exact E|]. by rewrite Hd, config_sorted.
Qed.

(** The serializer: on a configuration with 8 clocks, without peers, whose
    strings have no backslash, starting from any buffer, it writes the compact
    text of the configuration's document with the members of every object in
    order, and its terminator, without a fault; and the JSON parser accepts that
    text and reports the events of that document. *)
Theorem serialize_config_parses grown c b ja_malloc allow fuel :
  serializable c -> (forall n size, ja_malloc n size = true) ->
  let doc := sort_doc (config_doc c) in
  (2 * length (render doc) + 3 <= fuel)%nat ->
  in_order doc /\
  (exists b' tail, serialize_enclave_config grown c b = Done b' /\ pb_data b' = render doc ++ 0 :: tail) /\
  exists s', json_parser_parse record_event ja_malloc fuel
      (start_parse (render doc ++ [0]) (length (render doc)) allow []) = Done (inr tt, s') /\
    user s' = events [] doc.
Proof.
  intros Hs Hm doc Hf. split; [apply sort_doc_in_order, config_doc_distinct|].
  split; [by apply serialize_text|]. unfold doc in *. rewrite config_sorted in *.
  destruct (parse_complete ja_malloc (sorted_members c) [] allow fuel Hm) as (s' & Hp & Hu & _);
    [by apply sorted_supported|apply sorted_nesting|constructor|by rewrite app_nil_r|].
  rewrite app_nil_r in Hp. by exists s'.
Qed.

Definition has_peers c : Prop := wg_peers (wg c) ≠ [].

(** A configuration with WireGuard peers cannot be serialized: the first
    peer is stored through the [objects] pointer of an array node, which is
    NULL. *)
Theorem serialize_with_peers_faults grown c b :
  has_peers c -> exists p, serialize_enclave_config grown c b = Failed (BadPointer p).
Proof.
  intros Hp. destruct (encode_wg_fails (bytes "wg") (wg c) Hp) as [p E]. exists p.
  unfold serialize_enclave_config, root_object. by rewrite E.
Qed.

End Config.

(** ** The sample *)

Lemma sample_serializable : serializable (Gen := schema_config) sample_config.
Proof.
  constructor; try done; try (split; [|done]); repeat (apply Forall_cons; split);
    try apply Forall_nil_2; try done; simpl; unfold is_byte; try lia.
  constructor; try done. repeat constructor; unfold is_byte; lia.
Qed.

Lemma serialize_config_parses_witness :
  let doc := sort_doc (config_doc (Gen := schema_config) sample_config) in
  in_order doc /\
  (exists b' tail, serialize_enclave_config (Gen := schema_config) (fun _ => 7) sample_config empty_buffer = Done b' /\
    pb_data b' = render doc ++ 0 :: tail) /\
  exists s', json_parser_parse record_event (fun _ _ => true) (2 * length (render doc) + 3)
      (start_parse (render doc ++ [0]) (length (render doc)) true []) = Done (inr tt, s') /\
    user s' = events [] doc.
Proof.
  apply (serialize_config_parses (Gen := schema_config)).
  - apply sample_serializable.
  - done.
  - apply le_n.
Defined.

Lemma serialize_with_peers_faults_witness :
  let c := set_wg (Gen := schema_config) (Wg None 51820 None [WgPeer None None None]) sample_config in
  exists p, serialize_enclave_config (Gen := schema_config) (fun _ => 7) c empty_buffer = Failed (BadPointer p).
Proof. apply (serialize_with_peers_faults (Gen := schema_config)). done. Defined.
