(* ===== verification/ConfigReader.v ===== *)
(** * ConfigReader: reading the enclave configuration (src/shared/sgxlkl_enclave_config.c)

    The enclave parses the configuration text with libjson; its callback finds
    the handler of each value by the names on the parser's path and stores the
    value.  All the callback asks of the parser is collected in [asks]; the
    handlers are written against it.  A failing allocation stops the program;
    [sgxlkl_free_enclave_config], which only releases memory, is not
    modelled. *)

From Stdlib Require Import SpecFloat String.
From S2P Require Import Prelude JsonText JsonParser JsonFollow Env EnclaveConfig Serialize.

Definition MAX_SGXLKL_ETHREADS : Z := 1024.
Definition MAX_SGXLKL_MAX_USER_THREADS : Z := 65536.
Definition SGXLKL_DISK_MNT_MAX_PATH_LEN : nat := 255.
Definition INT32_MAX : Z := 2 ^ 31 - 1.
Definition UINT32_MAX : Z := 2 ^ 32 - 1.

(** ** What the callback asks of the parser *)

(** What the handlers see of a value. *)
Record view : Type := View {
  v_index : Z;                        (* path[depth - 1].index *)
  v_array_index : outcome Z;          (* json_get_array_index *)
  v_type : json_type;
  v_value : value                     (* what [un] points to *)
}.

Record asks : Type := Asks {
  a_match : string -> outcome bool;   (* MATCH(PATH) *)
  a_path : text -> outcome text;      (* make_path, given the contents of its buffer *)
  a_view : view
}.

Fixpoint join_dots (l : list text) : text :=
  match l with [] => [] | [s] => s | s :: l' => s ++ 46 :: join_dots l' end.

Fixpoint path_names (t : text) (l : list json_node) : outcome (list text) :=
  match l with
  | [] => Done []
  | n :: l' =>
      match node_name n with
      | None => Failed (BadPointer 0)
      | Some p => s ← c_string t p; ss ← path_names t l'; Done (s :: ss)
      end
  end.

(** [make_path]: the names joined in the static buffer [tmp] of 1024 bytes, which
    keeps its contents when there are no names. *)
Definition make_path (q : json_parser) (t : text) (tmp : text) : outcome text :=
  if decide (depth q = 0%nat) then Done tmp
  else if decide (depth q <= length (path q))%nat then
    names ← path_names t (take (depth q) (path q));
    let r := join_dots names in
    if decide (length r < 1024)%nat then Done r else Failed (BadPointer 1024)
  else Failed (BadPointer (Z.of_nat (length (path q)))).

(** [parser->path[parser->depth - 1].index]; outside every object, a read in
    front of the array whose value is not used. *)
Definition current_index (q : json_parser) : Z :=
  match depth q with
  | O => 0
  | S i => match path q !! i with Some n => node_index n | None => 0 end
  end.

(** MATCH: none of the patterns has a "#", so no conversion error is set. *)
Definition match_pattern (q : json_parser) (t : text) (pattern : string) : outcome bool :=
  '(r, _) ← json_match false (Some q) t (Some (cstring pattern)); Done (bool_decide (r = JSON_OK)).

Definition parser_asks (q : json_parser) (t : text) (type : json_type) (v : value) : asks :=
  Asks (match_pattern q t) (make_path q t) (View (current_index q) (json_get_array_index q) type v).

(** ** Numbers *)

(** [(uint64_t)real]: truncation (a value out of range is undefined in C). *)
Definition u64_of_d (x : double) : Z :=
  match x with
  | S754_finite false m e =>
      let a := if 0 <=? e then Zpos m * 2 ^ e else Zpos m / 2 ^ (- e) in
      if a <=? ULONG_MAX then a else u64 (long_of_d x)
  | _ => u64 (long_of_d x)
  end.

(** The decoding functions: the result, the value stored when it is JSON_OK, and
    the new conversion error. *)
Definition decode_safe_uint64_t (type : json_type) (v : value) :
    outcome (json_result * Z * option json_result) :=
  match v with
  | VNone => Done (JSON_BAD_PARAMETER, 0, None)
  | _ =>
      match type, v with
      | JSON_TYPE_STRING, VString s =>
          let first := default 0 (head s) in
          if bool_decide (1 < length s)%nat && ((first <=? 48) || (57 <? first)) then Failed Stopped
          else
            r ← _strtoul (s ++ [0]) (Some 0%nat) 10 false;
            let e := default JSON_OK (conv_error r) in
            Done (e, conv_value r, Some e)
      | JSON_TYPE_STRING, _ => Failed (BadPointer 0)
      | _, _ => Failed Stopped
      end
  end.

Definition decode_any_uint64_t (type : json_type) (v : value) :
    outcome (json_result * Z * option json_result) :=
  match type, v with
  | JSON_TYPE_STRING, VString s =>
      r ← _strtoul (s ++ [0]) (Some 0%nat) 10 true;
      let e := default JSON_OK (conv_error r) in
      Done (e, conv_value r, Some e)
  | JSON_TYPE_INTEGER, VInt z => Done (JSON_OK, u64 z, None)
  | JSON_TYPE_REAL, VReal d => Done (JSON_OK, u64_of_d d, None)
  | JSON_TYPE_NULL, _ => Done (JSON_OK, 0, None)
  | JSON_TYPE_BOOLEAN, _ => Done (JSON_UNKNOWN_VALUE, 0, None)
  | _, _ => Failed (BadPointer 0)
  end.

Definition decode_uint64_t (enforce_format : bool) (type : json_type) (v : value) :
    outcome (json_result * Z * option json_result) :=
  if enforce_format then decode_safe_uint64_t type v else decode_any_uint64_t type v.

Definition decode_uint32_t (enforce_format : bool) (type : json_type) (v : value) :
    outcome (json_result * Z * option json_result) :=
  '(r, tmp, e) ← decode_uint64_t enforce_format type v;
  if decide (r = JSON_OK) then
    if UINT32_MAX <? tmp then Done (JSON_OUT_OF_BOUNDS, 0, e) else Done (JSON_OK, tmp, e)
  else Done (r, 0, e).

(** The loop of JHEXBUF: half as many bytes as there are characters. *)
Fixpoint hex_loop (s : text) (i n : nat) : outcome (list Z) :=
  match n with
  | O => Done []
  | S n' =>
      x ← hex_to_int (s ++ [0]) (2 * i) 2; l ← hex_loop s (S i) n'; Done (u8 x :: l)
  end.

Section Reader.
Context `{Gen : GeneratedConfig}.

(** ** The state of the reader: json_callback_data_t and the static variables
    [last_path] and [tmp] *)

Record reader : Type := Reader {
  rd_config : enclave_config;
  rd_seen : list text;
  rd_enforce : bool;
  rd_last : option text;
  rd_tmp : text
}.

Definition with_config (c : enclave_config) (d : reader) : reader :=
  Reader c (rd_seen d) (rd_enforce d) (rd_last d) (rd_tmp d).
Definition with_last (p : text) (d : reader) : reader :=
  Reader (rd_config d) (rd_seen d) (rd_enforce d) (Some p) p.

(** A result of the callback: the code, the conversion error if it was set, and
    the data. *)
Definition answer : Type := json_result * option json_result * reader.
Definition handler : Type := view -> reader -> outcome answer.

(** SEEN. *)
Definition note_seen (a : asks) (d : reader) : outcome reader :=
  p ← a_path a (rd_tmp d);
  Done (Reader (rd_config d) (string_list_add true (rd_seen d) p) (rd_enforce d) (rd_last d) p).

(** ** The macros *)

Definition update (f : enclave_config -> outcome enclave_config) (d : reader) : outcome answer :=
  c ← f (rd_config d); Done (JSON_OK, None, with_config c d).

Definition JSTRING (set : view -> option text -> enclave_config -> outcome enclave_config) : handler :=
  fun a d =>
  match v_type a, v_value a with
  | JSON_TYPE_STRING, VString s => update (set a (Some s)) d
  | JSON_TYPE_NULL, VNone => update (set a None) d
  | JSON_TYPE_STRING, _ | JSON_TYPE_NULL, _ => Failed (BadPointer 0)
  | _, _ => Failed Stopped
  end.

(** JPATHT with a string. *)
Definition JSTRINGT (set : view -> text -> enclave_config -> outcome enclave_config) : handler :=
  fun a d =>
  match v_type a, v_value a with
  | JSON_TYPE_STRING, VString s => update (set a s) d
  | JSON_TYPE_STRING, _ => Failed (BadPointer 0)
  | _, _ => Failed Stopped
  end.

Definition JBOOL (set : view -> bool -> enclave_config -> outcome enclave_config) : handler :=
  fun a d =>
  match v_type a, v_value a with
  | JSON_TYPE_BOOLEAN, VBool b => update (set a (truthy b)) d
  | JSON_TYPE_BOOLEAN, _ => Failed (BadPointer 0)
  | _, _ => Failed Stopped
  end.

Definition JU64 (set : view -> Z -> enclave_config -> outcome enclave_config) : handler :=
  fun a d =>
  '(r, v, e) ← decode_uint64_t (rd_enforce d) (v_type a) (v_value a);
  if decide (r = JSON_OK) then
    c ← set a v (rd_config d); Done (JSON_OK, e, with_config c d)
  else Done (r, e, d).

Definition JU32 (set : view -> Z -> enclave_config -> outcome enclave_config) : handler :=
  fun a d =>
  '(r, v, e) ← decode_uint32_t (rd_enforce d) (v_type a) (v_value a);
  if decide (r = JSON_OK) then
    c ← set a v (rd_config d); Done (JSON_OK, e, with_config c d)
  else Done (r, e, d).

(** JHEXBUF: a null clears the key and is then refused. *)
Definition JHEXBUF (set : view -> option (list Z) -> enclave_config -> outcome enclave_config) : handler :=
  fun a d =>
  match v_type a, v_value a with
  | JSON_TYPE_STRING, VString s =>
      if decide (length s = 0%nat) then update (set a None) d
      else b ← hex_loop s 0 (length s / 2); update (set a (Some b)) d
  | JSON_TYPE_NULL, _ => c ← set a None (rd_config d); Done (JSON_UNKNOWN_VALUE, None, with_config c d)
  | JSON_TYPE_STRING, _ => Failed (BadPointer 0)
  | _, _ => Failed Stopped
  end.

(** ** Places in the configuration *)

Definition field {A} (set : A -> enclave_config -> enclave_config) :
    view -> A -> enclave_config -> outcome enclave_config :=
  fun _ v c => Done (set v c).

Definition wg_field {A} (set : A -> wg_config -> wg_config) :
    view -> A -> enclave_config -> outcome enclave_config :=
  fun _ v c => Done (set_wg (set v (wg c)) c).

Definition root_field {A} (set : A -> root_config -> root_config) :
    view -> A -> enclave_config -> outcome enclave_config :=
  fun _ v c => Done (set_root (set v (root c)) c).

Definition sizes_field {A} (set : A -> image_sizes_config -> image_sizes_config) :
    view -> A -> enclave_config -> outcome enclave_config :=
  fun _ v c => Done (set_image_sizes (set v (image_sizes c)) c).

Definition io_field {A} (set : A -> io_config -> io_config) :
    view -> A -> enclave_config -> outcome enclave_config :=
  fun _ v c => Done (set_io (set v (io c)) c).

(** An element of an array: outside it the access is a fault. *)
Definition at_index {A} (i : Z) (f : A -> A) (l : list A) : outcome (list A) :=
  match l !! Z.to_nat i with
  | Some x => Done (<[Z.to_nat i := f x]> l)
  | None => Failed (BadPointer i)
  end.

(** [_mount]. *)
Definition mount_field {A} (set : A -> mount_config -> mount_config) :
    view -> A -> enclave_config -> outcome enclave_config :=
  fun a v c =>
  i ← v_array_index a;
  if i =? UINT64_MAX then Failed Stopped
  else l ← at_index i (set v) (mounts c); Done (set_mounts l c).

Definition peer_field {A} (set : A -> wg_peer_config -> wg_peer_config) :
    view -> A -> enclave_config -> outcome enclave_config :=
  fun a v c =>
  l ← at_index (v_index a) (set v) (wg_peers (wg c)); Done (set_wg (set_wg_peers l (wg c)) c).

Definition element (get : enclave_config -> list (option text))
    (set : list (option text) -> enclave_config -> enclave_config) :
    view -> text -> enclave_config -> outcome enclave_config :=
  fun a s c => l ← at_index (v_index a) (fun _ => Some s) (get c); Done (set l c).

Definition enumeration {A} (convert : text -> outcome A) (set : A -> enclave_config -> enclave_config) :
    view -> text -> enclave_config -> outcome enclave_config :=
  fun _ s c => v ← convert s; Done (set v c).

Definition clock_item (a : view) (s : text) (c : enclave_config) : outcome enclave_config :=
  if decide (length s = 16%nat) then
    i ← v_array_index a;
    if i =? UINT64_MAX then Failed Stopped
    else if 8 <=? i then Failed Stopped
    else l ← at_index i (fun _ => s) (clock_res c); Done (set_clock_res l c)
  else Failed Stopped.

Definition format_version : handler := fun a d =>
  '(r, v, e) ← decode_uint64_t (rd_enforce d) (v_type a) (v_value a);
  if decide (r = JSON_OK) then
    if v =? SGXLKL_ENCLAVE_CONFIG_T_VERSION then Done (JSON_OK, e, d) else Failed Stopped
  else Done (r, e, d).

(** The destination of a mount: the type is not checked. *)
Definition destination : handler := fun a d =>
  match v_value a with
  | VString s =>
      if decide (SGXLKL_DISK_MNT_MAX_PATH_LEN < length s)%nat then Failed Stopped
      else update (mount_field set_mnt_destination a s) d
  | _ => Failed (BadPointer 0)
  end.

(** ** The values, in the order of the code *)

Definition handlers : list (string * handler) :=
  [("format_version", format_version);
   ("stacksize", JU64 (field set_stacksize));
   ("mmap_files", JSTRINGT (enumeration string_to_sgxlkl_enclave_mmap_files_t set_mmap_files));
   ("oe_heap_pagecount", JU64 (field set_oe_heap_pagecount));
   ("net_ip4", JSTRING (field set_net_ip4));
   ("net_gw4", JSTRING (field set_net_gw4));
   ("net_mask4", JSTRING (field set_net_mask4));
   ("hostname", JSTRING (field set_hostname));
   ("tap_mtu", JU32 (field set_tap_mtu));
   ("hostnet", JBOOL (field set_hostnet));
   ("wg.ip", JSTRING (wg_field set_wg_ip));
   ("wg.listen_port", JU32 (wg_field set_wg_listen_port));
   ("wg.key", JSTRING (wg_field set_wg_key));
   ("wg.peers.key", JSTRING (peer_field set_peer_key));
   ("wg.peers.allowed_ips", JSTRING (peer_field set_peer_allowed_ips));
   ("wg.peers.endpoint", JSTRING (peer_field set_peer_endpoint));
   ("max_user_threads", JU64 (field set_max_user_threads));
   ("ethreads", JU64 (field set_ethreads));
   ("espins", JU64 (field set_espins));
   ("esleep", JU64 (field set_esleep));
   ("clock_res.resolution", JSTRINGT clock_item);
   ("mode", JSTRINGT (enumeration string_to_sgxlkl_enclave_mode_t set_mode));
   ("fsgsbase", JBOOL (field set_fsgsbase));
   ("verbose", JBOOL (field set_verbose));
   ("kernel_verbose", JBOOL (field set_kernel_verbose));
   ("kernel_cmd", JSTRING (field set_kernel_cmd));
   ("sysctl", JSTRING (field set_sysctl));
   ("swiotlb", JBOOL (field set_swiotlb));
   ("cwd", JSTRING (field set_cwd));
   ("args", JSTRINGT (element args set_args));
   ("env", JSTRINGT (element env set_env));
   ("host_import_env", JSTRINGT (element host_import_env set_host_import_env));
   ("exit_status", JSTRINGT (enumeration string_to_sgxlkl_exit_status_mode_t set_exit_status));
   ("root.key", JHEXBUF (root_field set_root_key));
   ("root.key_id", JSTRING (root_field set_root_key_id));
   ("root.readonly", JBOOL (root_field set_root_readonly));
   ("root.roothash", JSTRING (root_field set_root_roothash));
   ("root.roothash_offset", JU64 (root_field set_root_roothash_offset));
   ("root.overlay", JBOOL (root_field set_root_overlay));
   ("mounts.create", JBOOL (mount_field set_mnt_create));
   ("mounts.fresh_key", JBOOL (mount_field set_mnt_fresh_key));
   ("mounts.key", JHEXBUF (mount_field set_mnt_key));
   ("mounts.key_id", JSTRING (mount_field set_mnt_key_id));
   ("mounts.destination", destination);
   ("mounts.readonly", JBOOL (mount_field set_mnt_readonly));
   ("mounts.roothash", JSTRING (mount_field set_mnt_roothash));
   ("mounts.roothash_offset", JU64 (mount_field set_mnt_roothash_offset));
   ("mounts.size", JU64 (mount_field set_mnt_size));
   ("image_sizes.num_heap_pages", JU64 (sizes_field set_num_heap_pages));
   ("image_sizes.num_stack_pages", JU64 (sizes_field set_num_stack_pages));
   ("io.console", JBOOL (io_field set_io_console));
   ("io.block", JBOOL (io_field set_io_block));
   ("io.network", JBOOL (io_field set_io_network))]%string.

(** The first pattern that matches; an element without one stops the program. *)
Fixpoint first_match (a : asks) (hs : list (string * handler)) (d : reader) : outcome answer :=
  match hs with
  | [] => Failed Stopped
  | (p, h) :: hs' =>
      m ← a_match a p;
      if (m : bool) then d' ← note_seen a d; h (a_view a) d' else first_match a hs' d
  end.

(** ** Arrays *)

Definition zero_mount : mount_config := Mount [] None None false None 0 false false 0.
Definition zero_peer : wg_peer_config := WgPeer None None None.

(** ALLOC_ARRAY: [calloc] of as many elements as were counted. *)
Definition arrays : list (string * (nat -> enclave_config -> enclave_config)) :=
  [("args", fun n => set_args (replicate n None));
   ("env", fun n => set_env (replicate n None));
   ("mounts", fun n => set_mounts (replicate n zero_mount));
   ("host_import_env", fun n => set_host_import_env (replicate n None));
   ("wg.peers", fun n c => set_wg (set_wg_peers (replicate n zero_peer) (wg c)) c);
   ("clock_res", fun n c => c)]%string.

Fixpoint begin_array (a : asks) (n : nat)
    (l : list (string * (nat -> enclave_config -> enclave_config))) (d : reader) : outcome answer :=
  match l with
  | [] => Failed Stopped
  | (p, alloc) :: l' =>
      m ← a_match a p;
      if (m : bool) then Done (JSON_OK, None, with_config (alloc n (rd_config d)) d)
      else begin_array a n l' d
  end.

(** ** json_read_callback *)

Definition note_path (a : asks) (d : reader) : outcome answer :=
  if rd_enforce d then
    p ← a_path a (rd_tmp d); Done (JSON_OK, None, with_last p d)
  else Done (JSON_OK, None, d).

(** The paths of the values must not decrease. *)
Definition check_order (a : asks) (d : reader) : outcome reader :=
  if rd_enforce d then
    cur_path ← a_path a (rd_tmp d);
    match rd_last d with
    | Some last_path =>
        if 0 <? c_strcmp last_path cur_path then Failed Stopped else Done (with_last cur_path d)
    | None => Done (with_last cur_path d)
    end
  else Done d.

Definition read_event (a : asks) (reason : json_reason) (d : reader) : outcome answer :=
  match reason with
  | JSON_REASON_NONE => Failed Stopped
  | JSON_REASON_NAME | JSON_REASON_END_OBJECT => Done (JSON_OK, None, d)
  | JSON_REASON_BEGIN_OBJECT | JSON_REASON_END_ARRAY => note_path a d
  | JSON_REASON_BEGIN_ARRAY =>
      match v_value (a_view a) with
      | VInt n => begin_array a (Z.to_nat n) arrays d
      | _ => Failed (BadPointer 0)
      end
  | JSON_REASON_VALUE => d1 ← check_order a d; first_match a handlers d1
  end.

Definition json_read_callback (q : json_parser) (t : text) (reason : json_reason) (type : json_type)
    (un : json_union) (st : json_result * reader) : outcome (json_result * (json_result * reader)) :=
  v ← read_union t un;
  '(r, e, d) ← read_event (parser_asks q t type v) reason st.2;
  Done (r, (default st.1 e, d)).

(** ** Checks *)

(** A NULL array and an empty one are refused alike. *)
Definition check_config (cfg : enclave_config) : outcome unit :=
  if bool_decide (args cfg = []) then Failed Stopped
  else if MAX_SGXLKL_ETHREADS <? ethreads cfg then Failed Stopped
  else if MAX_SGXLKL_MAX_USER_THREADS <? max_user_threads cfg then Failed Stopped
  else if INT32_MAX <? tap_mtu cfg then Failed Stopped
  else if INT32_MAX <? Z.of_nat (length (args cfg)) then Failed Stopped
  else if INT32_MAX <? Z.of_nat (length (env cfg)) then Failed Stopped
  else if INT32_MAX <? Z.of_nat (length (host_import_env cfg)) then Failed Stopped
  else Done tt.

Definition check_required_elements (seen : list text) : outcome unit :=
  if string_list_contains seen (bytes "args") then Done tt else Failed Stopped.

Definition is_encrypted (cfg : mount_config) : bool :=
  match mnt_key cfg, mnt_key_id cfg with None, None => mnt_fresh_key cfg | _, _ => true end.

(** ** sgxlkl_read_enclave_config

    [junk] is the byte after the copy of the text, which is not terminated;
    [dflt] is sgxlkl_enclave_config_default, and the static variables are as
    before the first call. *)
Definition sgxlkl_read_enclave_config (dflt : enclave_config) (ja_malloc : nat -> Z -> bool)
    (junk : Z) (fuel : nat) (from : option text) (enforce_format : bool) : outcome enclave_config :=
  match from with
  | None => Failed Stopped
  | Some from =>
      let data := Reader dflt [] enforce_format None [] in
      match json_parser_init true true (length from) true true true true (Some (negb enforce_format)) with
      | (JSON_OK, Some parser) =>
          '(r, s) ← json_parser_parse json_read_callback ja_malloc fuel
                      (PState (from ++ [junk]) parser JSON_OK 0 0 data);
          match r with
          | inl _ => Failed Stopped
          | inr _ =>
              if decide (depth (prs s) = 0%nat) then
                _ ← (if enforce_format then check_required_elements (rd_seen (user s)) else Done tt);
                _ ← check_config (rd_config (user s));
                Done (rd_config (user s))
              else Failed Stopped
          end
      | _ => Failed Stopped
      end
  end.
End Reader.
