(* ===== verification/ConfigRead.v ===== *)
(** * ConfigRead: the callback as a function of the event

    [json_read_callback] asks the parser for matches, paths and indices; the
    answers are functions of the event, so that the reader is an [EventReader]
    whose steps are [config_step]. *)

From Stdlib Require Import String.
From S2P Require Import Prelude JsonText JsonParser JsonStrings JsonSafety JsonMatch.
From S2P Require Import JsonComplete JsonFollow Env EnclaveConfig Serialize ConfigReader.

(** ** The answers to an event *)

Definition names (fr : list frame) : list text := fr.*1.

Definition event_match (fr : list frame) (pattern : string) : outcome bool :=
  Done (bool_decide (split_dots (bytes pattern) = names fr)).

Definition event_path (fr : list frame) (tmp : text) : outcome text :=
  match fr with
  | [] => Done tmp
  | _ =>
      let r := join_dots (names fr) in
      if decide (length r < 1024)%nat then Done r else Failed (BadPointer 1024)
  end.

Definition event_index (fr : list frame) : Z :=
  match last fr with Some f => f.2 | None => 0 end.

Definition event_array_index (fr : list frame) : outcome Z :=
  match length fr with
  | S (S i) => match fr !! i with Some f => Done f.2 | None => Done UINT64_MAX end
  | _ => Done UINT64_MAX
  end.

Definition event_asks (ev : event) : asks :=
  let fr := ev_path ev in
  Asks (event_match fr) (event_path fr)
       (View (event_index fr) (event_array_index fr) (ev_type ev) (ev_value ev)).

(** ** They are the parser's answers *)

Lemma path_names_ok t e l :
  t !! e = Some 0 -> Forall (name_in e) l -> path_names t l = Done (names (node_frame t <$> l)).
Proof.
  intros He. induction 1 as [|n l Hn _ IH]; [done|]. cbn [path_names]. unfold name_in in Hn.
  unfold names, node_frame in *. cbn [fmap list_fmap]. destruct (node_name n) as [p|]; [|done].
  rewrite (c_string_ok t p e) by done. cbn [mbind outcome_bind]. by rewrite IH.
Qed.

Lemma make_path_ok q t tmp :
  t !! end_ q = Some 0 -> path_in q -> make_path q t tmp = event_path (frames_of q t) tmp.
Proof.
  intros He Hp. pose proof (frames_length q t Hp) as Hl. destruct Hp as [Hd Hn]. unfold make_path.
  rewrite (path_names_ok t (end_ q)) by done. unfold event_path.
  change (node_frame t <$> take (depth q) (path q)) with (frames_of q t) in *.
  destruct (decide (depth q = 0%nat)) as [H0|H0].
  - destruct (frames_of q t); [done|simpl in Hl; lia].
  - rewrite decide_True by done. destruct (frames_of q t); [simpl in Hl; lia|]. done.
Qed.

Lemma current_index_ok q t : path_in q -> current_index q = event_index (frames_of q t).
Proof.
  intros Hp. unfold current_index, event_index. rewrite last_lookup, (frames_length q t Hp).
  destruct (depth q) as [|i] eqn:Hd.
  - pose proof (frames_length q t Hp) as Hl. rewrite Hd in Hl. by destruct (frames_of q t).
  - destruct (frames_lookup q t i ltac:(lia) Hp) as (n & Hn & Hf). cbn [Nat.pred]. by rewrite Hn, Hf.
Qed.

Lemma array_index_ok q t :
  path_in q -> json_get_array_index q = event_array_index (frames_of q t).
Proof.
  intros Hp. unfold json_get_array_index, event_array_index. rewrite (frames_length q t Hp).
  destruct (depth q) as [|[|i]] eqn:Hd; try done.
  destruct (frames_lookup q t i ltac:(lia) Hp) as (n & Hn & Hf). unfold frame in *. by rewrite Hn, Hf.
Qed.

(** A pattern of plain names. *)
Definition pattern_ok (p : string) : bool :=
  forallb (fun c => (0 <? c) && (c <? 256)) (bytes p) && bool_decide (length (bytes p) < 256)%nat &&
  forallb (fun tok => negb (bool_decide (tok = bytes "#"))) (split_dots (bytes p)) &&
  bool_decide (length (split_dots (bytes p)) <= JSON_MAX_NESTING)%nat.

Lemma match_pattern_ok q t p :
  t !! end_ q = Some 0 -> Forall is_byte t -> path_in q -> pattern_ok p = true ->
  match_pattern q t p = event_match (frames_of q t) p.
Proof.
  intros He Hb Hp Hok. pose proof (frames_length q t Hp) as Hl. pose proof Hp as [Hd Hn].
  unfold pattern_ok in Hok. rewrite !andb_true_iff, !bool_decide_eq_true, !forallb_Forall in Hok.
  destruct Hok as [[[Hc Hlen] Hhash] Hmax].
  destruct (match_spec q t (end_ q) (bytes p) false) as (r & err & Hm & Hr).
  - split; [done|]. split; [done|]. eapply Forall_impl; [exact Hn|]. intros n Hin. unfold name_in in Hin.
    destruct (node_name n) as [k|]; [|done]. by exists k.
  - done.
  - eapply Forall_impl; [exact Hc|]. unfold is_byte. simpl. lia.
  - intros Hin. rewrite Forall_forall in Hc. specialize (Hc 0 Hin). by vm_compute in Hc.
  - by left.
  - unfold match_pattern, cstring. rewrite Hm. cbn [mbind outcome_bind]. unfold event_match. f_equal.
    apply bool_decide_ext. rewrite Hr. unfold names, frames_of. split.
    + intros (_ & _ & H2). revert H2 Hhash. generalize (take (depth q) (path q)), (split_dots (bytes p)).
      intros l toks. induction 1 as [|tok n toks l (k & Hk & Htok) _ IH]; intros Hh; [done|].
      apply Forall_cons in Hh as [Ht Hh]. apply negb_true_iff, bool_decide_eq_false in Ht.
      rewrite decide_False in Htok by done. cbn [fmap list_fmap]. unfold node_frame at 1. rewrite Hk.
      cbn [fst]. by rewrite Htok, <- IH.
    + intros Heq. split; [done|].
      split; [rewrite Heq; unfold frames_of in Hl; rewrite length_fmap; by rewrite <- Hl at 1|].
      rewrite Heq in Hhash |- *. clear Heq Hl. revert Hn Hhash. generalize (take (depth q) (path q)).
      induction 1 as [|n l Hin _ IH]; intros Hh; [constructor|]. cbn [fmap list_fmap] in *.
      apply Forall_cons in Hh as [Ht Hh]. apply negb_true_iff, bool_decide_eq_false in Ht.
      constructor; [|by apply IH]. unfold name_in, node_frame in *.
      destruct (node_name n) as [k|] eqn:Hk; [|done]. exists k. split; [done|].
      by rewrite decide_False.
Qed.

Section Reader.
Context `{Gen : GeneratedConfig}.

(** ** The callback follows the events *)

Definition config_step (ev : event) (d : reader) : option reader :=
  match read_event (event_asks ev) (ev_reason ev) d with
  | Done (JSON_OK, _, d') => Some d'
  | _ => None
  end.

(** Two sources of answers that agree on the patterns of the code. *)
Record agree (a a' : asks) : Prop := Agree {
  agree_match p : pattern_ok p = true -> a_match a p = a_match a' p;
  agree_path tmp : a_path a tmp = a_path a' tmp;
  agree_view : a_view a = a_view a'
}.

Lemma parser_agrees q t reason type un :
  call_ok q t reason un -> path_in q ->
  agree (parser_asks q t type (capture t un))
        (Asks (event_match (frames_of q t)) (event_path (frames_of q t))
              (View (event_index (frames_of q t)) (event_array_index (frames_of q t)) type (capture t un))).
Proof.
  intros (He & Hb & _) Hp. split; simpl.
  - intros p Hok. by apply match_pattern_ok.
  - intros tmp. by apply make_path_ok.
  - by rewrite (current_index_ok q t Hp), (array_index_ok q t Hp).
Qed.

Lemma first_match_agree a a' hs d :
  agree a a' -> forallb pattern_ok hs.*1 = true -> first_match a hs d = first_match a' hs d.
Proof.
  intros [Hm Hp Hv]. induction hs as [|[p h] hs IH]; [done|].
  cbn [fmap list_fmap forallb fst first_match]. rewrite andb_true_iff. intros [Hok Hhs].
  rewrite Hm by done. destruct (a_match a' p) as [[]|]; try done; cbn [mbind outcome_bind].
  - unfold note_seen. by rewrite Hp, Hv.
  - by apply IH.
Qed.

Lemma begin_array_agree a a' n l d :
  agree a a' -> forallb pattern_ok l.*1 = true -> begin_array a n l d = begin_array a' n l d.
Proof.
  intros [Hm Hp Hv]. induction l as [|[p f] l IH]; [done|].
  cbn [fmap list_fmap forallb fst begin_array]. rewrite andb_true_iff. intros [Hok Hl].
  rewrite Hm by done. destruct (a_match a' p) as [[]|]; try done. by apply IH.
Qed.

Lemma read_event_agree a a' reason d : agree a a' -> read_event a reason d = read_event a' reason d.
Proof.
  intros Ha. pose proof Ha as [_ Hp Hv]. destruct reason; try done; cbn [read_event].
  - unfold note_path. by rewrite Hp.
  - rewrite Hv. destruct (v_value _); try done. apply begin_array_agree; [done|by vm_compute].
  - unfold note_path. by rewrite Hp.
  - unfold check_order. rewrite Hp.
    destruct (if rd_enforce d then _ else _); [|done]. cbn [mbind outcome_bind].
    apply first_match_agree; [done|by vm_compute].
Qed.

(** At the end of an array the reader looks at the names only. *)
Lemma event_path_names fr tmp : event_path (names_only fr) tmp = event_path fr tmp.
Proof.
  destruct fr as [|f fr]; [done|]. unfold event_path. cbn [names_only fmap list_fmap].
  unfold names. cbn [fmap list_fmap fst]. by rewrite <- list_fmap_compose.
Qed.

#[export] Instance config_reader : EventReader json_read_callback config_step.
Proof.
  intros q t reason type un e d d' Hok Hs. unfold json_read_callback.
  rewrite (read_union_ok q t reason un) by done. cbn [mbind outcome_bind snd].
  unfold config_step in Hs. cbn [event_of ev_reason] in Hs.
  assert (read_event (parser_asks q t type (capture t un)) reason d =
          read_event (event_asks (event_of q t reason type un)) reason d) as ->.
  { pose proof Hok as (_ & _ & _ & Hpath). destruct reason; try done.
    all: rewrite (read_event_agree _ _ _ _ (parser_agrees q t _ type un Hok (proj1 Hpath))); try done.
    cbn [read_event]. unfold note_path. cbn [a_path event_asks event_of ev_path path_at].
    by rewrite event_path_names. }
  destruct (read_event _ _ _) as [[[[] oe] d1]|]; try done. injection Hs as ->. by eexists.
Qed.
End Reader.
