(* ===== verification/ConfigRoundTrip.v ===== *)
(** * ConfigRoundTrip: a configuration that is serialized is read back

    The reader run, in its strict mode, over the events of the document that the
    serializer writes.  [goes] is the judgement for a part of the events: from
    one configuration and last path to the next.  There is one rule for each
    kind of value and for objects and arrays; the theorem strings them together
    over the members in order. *)

From Stdlib Require Import String.
From S2P Require Import Prelude JsonText JsonParser JsonNumbers JsonStrings JsonSafety JsonMatch.
From S2P Require Import JsonComplete JsonFollow Env EnclaveConfig Serialize SerializeSort.
From S2P Require Import SerializePrint SerializeConfig ConfigReader ConfigRead.
#[local] Existing Instance quote_encoding | 0.

(** ** Numbers *)

Lemma digits_head room x acc d l :
  0 < x -> i64_digits room x acc = Done (d :: l) -> (48 < d <= 57) .
Proof.
  revert x acc. induction room as [|room IH]; intros x acc Hx; [done|]. cbn [i64_digits].
  unfold truthy. destruct (Z.eqb_spec (x / 10) 0) as [E|E]; cbn [negb].
  - intros [= <- <-]. pose proof (Z.mod_pos_bound x 10 ltac:(lia)).
    pose proof (Z.div_mod x 10 ltac:(lia)). lia.
  - apply IH. pose proof (Z.div_pos x 10). lia.
Qed.

Lemma digits_length n room x acc ds :
  0 <= x < 10 ^ Z.of_nat (S n) -> i64_digits room x acc = Done ds ->
  (length ds <= S n + length acc)%nat.
Proof.
  revert room x acc. induction n as [|n IH]; intros [|room] x acc Hx; try done; cbn [i64_digits].
  - replace (x / 10) with 0 by (symmetry; apply Z.div_small; simpl in Hx; lia). cbn.
    intros [= <-]. simpl. lia.
  - unfold truthy. destruct (x / 10 =? 0); cbn [negb]; [intros [= <-]; simpl; lia|].
    intros H. apply IH in H; [simpl in H; lia|].
    rewrite (Nat2Z.inj_succ (S n)), Z.pow_succ_r in Hx by lia.
    split; [apply Z.div_pos; lia|apply Z.div_lt_upper_bound; lia].
Qed.

(** The range in which no digit is cut off. *)
Definition short (z : Z) : Prop := 0 <= z < 10 ^ 16.

Lemma short_digits z :
  short z -> exists ds, unsigned_digits z = ds /\ _i64tostr z true = Done ds /\ (length ds <= 16)%nat /\
    ((1 < length ds)%nat -> 48 < default 0 (head ds) <= 57).
Proof.
  unfold short. intros Hz. assert (- 2 ^ 63 <= z < 2 ^ 63) as Hr by lia.
  unfold unsigned_digits, _i64tostr, INT64_MIN.
  replace (z =? - 2 ^ 63) with false by lia. rewrite Z.abs_eq by lia.
  destruct (i64_digits_spec 255 z []) as (ds & Hd & _); [split; [lia|]|lia|].
  { apply (Z.lt_trans _ (10 ^ 16)); [lia|by vm_compute]. }
  rewrite app_nil_r in Hd. rewrite Hd. cbn [mbind outcome_bind].
  replace (z <? 0) with false by lia. exists ds. split; [done|]. split; [done|].
  split; [by apply (digits_length 15 255 z [] ds) in Hd; [simpl in Hd; lia|]|].
  intros Hl. destruct ds as [|d ds]; [simpl in Hl; lia|]. simpl.
  destruct (Z.eq_dec z 0) as [->|]; [|by eapply digits_head; [|exact Hd]; lia].
  vm_compute in Hd. injection Hd as <- <-. simpl in Hl. lia.
Qed.

(** What the serializer writes for a number is decoded to that number. *)
Lemma decode_short z :
  short z ->
  decode_safe_uint64_t JSON_TYPE_STRING (VString (take 16 (unsigned_digits z))) =
    Done (JSON_OK, z, Some JSON_OK).
Proof.
  intros Hz. destruct (short_digits z Hz) as (ds & -> & Hs & Hlen & Hhead). unfold short in Hz.
  rewrite take_ge by lia. unfold decode_safe_uint64_t. cbn iota.
  assert (bool_decide (1 < length ds)%nat && ((default 0 (head ds) <=? 48) || (57 <? default 0 (head ds)))
          = false) as ->.
  { case_bool_decide as Hl; [|done]. specialize (Hhead Hl). simpl. lia. }
  destruct (strtol_printed z [] 0 [] false) as (ds' & Hs' & _ & _ & Hr); [lia|lia|unfold is_dec; lia|].
  rewrite Hs in Hs'. injection Hs' as Hds. rewrite <- Hds in Hr. cbn [app length] in Hr.
  unfold _strtoul. rewrite Hr. cbn [mbind outcome_bind conv_value conv_error default].
  rewrite u64_small by lia. done.
Qed.

(** Hexadecimal text is decoded to the bytes. *)
Lemma two_hex_length b : length (flat_map two_hex b) = (2 * length b)%nat.
Proof. induction b as [|x b IH]; [done|]. simpl in *. lia. Qed.

Lemma two_hex_lookup pre x l i :
  (i < 2)%nat -> (flat_map two_hex (pre ++ x :: l) ++ [0]) !! (2 * length pre + i)%nat = two_hex x !! i.
Proof.
  intros Hi. rewrite flat_map_app, <- app_assoc. cbn [flat_map].
  rewrite lookup_app_r; rewrite two_hex_length; [|lia].
  replace (2 * length pre + i - 2 * length pre)%nat with i by lia.
  rewrite <- app_assoc. by apply lookup_app_l.
Qed.

Lemma hex_loop_ok b :
  Forall is_byte b -> hex_loop (flat_map two_hex b) 0 (length (flat_map two_hex b) / 2) = Done b.
Proof.
  intros Hb. rewrite two_hex_length, Nat.mul_comm, Nat.div_mul by done.
  assert (forall (pre l : list Z), Forall is_byte l ->
    hex_loop (flat_map two_hex (pre ++ l)) (length pre) (length l) = Done l) as H.
  { intros pre l Hf. revert pre. induction Hf as [|x l Hx _ IH]; intros pre; [done|].
    cbn [length hex_loop].
    specialize (IH (pre ++ [x])). rewrite length_app, Nat.add_1_r, <- app_assoc in IH. cbn [app] in IH.
    rewrite (hex_pair _ _ x Hx).
    - cbn [mbind outcome_bind]. rewrite IH. cbn [mbind outcome_bind].
      rewrite u8_small by exact Hx. done.
    - rewrite <- (Nat.add_0_r (2 * _)). by rewrite two_hex_lookup by lia.
    - rewrite <- Nat.add_1_r. by rewrite two_hex_lookup by lia. }
  apply (H [] b Hb).
Qed.

Section RoundTrip.
Context `{Gen : GeneratedConfig}.
Implicit Types (c : enclave_config) (fr : list frame) (evs : list event).

(** ** The judgement *)

(** From configuration [c] and last path [lp] the events [evs] lead to [c'] and
    [lp'], and the paths [ks] have been seen. *)
Definition goes evs (lp : text) c (lp' : text) c' (ks : list text) : Prop :=
  forall sn tmp, exists sn' tmp',
  steps config_step evs (Reader c sn true (Some lp) tmp) = Some (Reader c' sn' true (Some lp') tmp') /\
  forall x, x ∈ sn \/ x ∈ ks -> x ∈ sn'.

Lemma goes_nil lp c : goes [] lp c lp c [].
Proof. intros sn tmp. exists sn, tmp. split; [done|]. intros x [H|H]; [done|by apply not_elem_of_nil in H]. Qed.

Lemma goes_app e1 e2 lp c lp1 c1 k1 lp2 c2 k2 :
  goes e1 lp c lp1 c1 k1 -> goes e2 lp1 c1 lp2 c2 k2 -> goes (e1 ++ e2) lp c lp2 c2 (k1 ++ k2).
Proof.
  intros H1 H2 sn tmp. destruct (H1 sn tmp) as (sn1 & tmp1 & E1 & K1).
  destruct (H2 sn1 tmp1) as (sn2 & tmp2 & E2 & K2). exists sn2, tmp2.
  rewrite steps_app, E1. split; [done|]. intros x. rewrite elem_of_app. intros H.
  apply K2. destruct H as [H|[H|H]]; [left; apply K1; by left|left; apply K1; by right|by right].
Qed.

Lemma goes_ev ev evs lp c lp1 c1 k1 lp2 c2 k2 :
  goes [ev] lp c lp1 c1 k1 -> goes evs lp1 c1 lp2 c2 k2 -> goes (ev :: evs) lp c lp2 c2 (k1 ++ k2).
Proof. apply (goes_app [ev] evs). Qed.

Lemma goes_step ev lp c lp' c' ks :
  (forall sn tmp, exists sn' tmp',
     config_step ev (Reader c sn true (Some lp) tmp) = Some (Reader c' sn' true (Some lp') tmp') /\
     forall x, x ∈ sn \/ x ∈ ks -> x ∈ sn') ->
  goes [ev] lp c lp' c' ks.
Proof. intros H sn tmp. destruct (H sn tmp) as (sn' & tmp' & E & K). exists sn', tmp'. by split. Qed.

Lemma goes_weaken evs lp c lp' c' ks ks' :
  (forall x, x ∈ ks' -> x ∈ ks) -> goes evs lp c lp' c' ks -> goes evs lp c lp' c' ks'.
Proof.
  intros Hk H sn tmp. destruct (H sn tmp) as (sn' & tmp' & E & K). exists sn', tmp'.
  split; [done|]. intros x [Hx|Hx]; apply K; auto.
Qed.

(** ** Values *)

(** The handler of a path. *)
Fixpoint find_handler (ns : list text) (hs : list (string * handler)) : option handler :=
  match hs with
  | [] => None
  | (p, h) :: hs' => if bool_decide (split_dots (bytes p) = ns) then Some h else find_handler ns hs'
  end.

(** The path of a frame list that is not empty. *)
Definition has_path fr (p : text) : bool :=
  bool_decide (fr ≠ []) && bool_decide (join_dots (names fr) = p) && bool_decide (length p < 1024)%nat.

Lemma has_path_ok fr p tmp : has_path fr p = true -> event_path fr tmp = Done p.
Proof.
  unfold has_path. rewrite !andb_true_iff, !bool_decide_eq_true. intros [[Hf Hj] Hl].
  unfold event_path. destruct fr; [done|]. by rewrite Hj, decide_True.
Qed.

Definition view_of fr (ty : json_type) (v : value) : view :=
  View (event_index fr) (event_array_index fr) ty v.

Lemma first_match_find ev hs d h :
  find_handler (names (ev_path ev)) hs = Some h ->
  first_match (event_asks ev) hs d =
    (d' ← note_seen (event_asks ev) d; h (a_view (event_asks ev)) d').
Proof.
  induction hs as [|[p h'] hs IH]; [done|]. cbn [find_handler first_match a_match event_asks].
  unfold event_match. cbn [mbind outcome_bind]. case_bool_decide; [by intros [= ->]|done].
Qed.

Lemma value_goes fr ty v lp cur h c c' :
  has_path fr cur = true -> (0 <? c_strcmp lp cur) = false ->
  find_handler (names fr) handlers = Some h ->
  (forall sn, exists e, h (view_of fr ty v) (Reader c sn true (Some cur) cur) =
                        Done (JSON_OK, e, Reader c' sn true (Some cur) cur)) ->
  goes [value_event fr ty v] lp c cur c' [cur].
Proof.
  intros Hp Hlt Hh Hrun. apply goes_step. intros sn tmp. exists (cur :: sn), cur.
  destruct (Hrun (cur :: sn)) as [e E]. split.
  - unfold config_step. cbn [ev_reason value_event read_event]. unfold check_order.
    cbn [rd_enforce rd_last rd_tmp a_path event_asks ev_path value_event].
    rewrite (has_path_ok fr cur tmp Hp). cbn [mbind outcome_bind]. rewrite Hlt. cbn [mbind outcome_bind].
    rewrite (first_match_find (value_event fr ty v) _ _ h Hh).
    unfold note_seen. cbn [a_path event_asks ev_path value_event with_last rd_tmp].
    rewrite (has_path_ok fr cur cur Hp). cbn [mbind outcome_bind].
    unfold with_last, string_list_add. cbn [rd_config rd_seen rd_enforce rd_last].
    unfold view_of in E. unfold event_asks, value_event. cbn [a_view ev_path ev_type ev_value].
    by rewrite E.
  - intros x [H|H]; [by right|]. apply list_elem_of_singleton in H as ->. left.
Qed.

(** The places of the values: where a rule applies. *)
Section Rules.
Variables (fr : list frame) (lp cur : text) (c c' : enclave_config).
Hypothesis Hpath : has_path fr cur = true.
Hypothesis Hlast : (0 <? c_strcmp lp cur) = false.

Lemma int_goes set z :
  find_handler (names fr) handlers = Some (JU64 set) -> short z ->
  set (view_of fr JSON_TYPE_STRING (VString (take 16 (unsigned_digits z)))) z c = Done c' ->
  goes (events fr (int_doc z)) lp c cur c' [cur].
Proof.
  intros Hh Hz Hset. eapply value_goes; [done|done|exact Hh|]. intros sn. eexists.
  unfold JU64, decode_uint64_t. cbn [rd_enforce v_type v_value view_of]. rewrite (decode_short z Hz).
  cbn [mbind outcome_bind]. rewrite decide_True by done. cbn [rd_config]. rewrite Hset. done.
Qed.

Lemma int32_goes set z :
  find_handler (names fr) handlers = Some (JU32 set) -> 0 <= z < 2 ^ 32 ->
  set (view_of fr JSON_TYPE_STRING (VString (take 16 (unsigned_digits z)))) z c = Done c' ->
  goes (events fr (int_doc z)) lp c cur c' [cur].
Proof.
  intros Hh Hz Hset. eapply value_goes; [done|done|exact Hh|]. intros sn. eexists.
  unfold JU32, decode_uint32_t, decode_uint64_t. cbn [rd_enforce v_type v_value view_of].
  rewrite (decode_short z) by (unfold short; lia).
  cbn [mbind outcome_bind]. rewrite decide_True by done. unfold UINT32_MAX.
  rewrite (proj2 (Z.ltb_ge _ z)) by lia. cbn [mbind outcome_bind]. rewrite decide_True by done.
  cbn [rd_config]. rewrite Hset. done.
Qed.

Lemma string_goes set s :
  find_handler (names fr) handlers = Some (JSTRING set) ->
  set (view_of fr (match s with Some _ => JSON_TYPE_STRING | None => JSON_TYPE_NULL end)
               (match s with Some s => VString s | None => VNone end)) s c = Done c' ->
  goes (events fr (string_doc s)) lp c cur c' [cur].
Proof.
  intros Hh Hset. destruct s as [s|]; (eapply value_goes; [done|done|exact Hh|]); intros sn; eexists;
    unfold JSTRING, update; cbn [v_type v_value view_of rd_config]; rewrite Hset; done.
Qed.

Lemma text_goes set s :
  find_handler (names fr) handlers = Some (JSTRINGT set) ->
  set (view_of fr JSON_TYPE_STRING (VString s)) s c = Done c' ->
  goes (events fr (JString s)) lp c cur c' [cur].
Proof.
  intros Hh Hset. eapply value_goes; [done|done|exact Hh|]. intros sn. eexists.
  unfold JSTRINGT, update. cbn [v_type v_value view_of rd_config]. rewrite Hset. done.
Qed.

Lemma bool_goes set b :
  find_handler (names fr) handlers = Some (JBOOL set) ->
  set (view_of fr JSON_TYPE_BOOLEAN (VBool (int_of_bool b))) b c = Done c' ->
  goes (events fr (JBool b)) lp c cur c' [cur].
Proof.
  intros Hh Hset. eapply value_goes; [done|done|exact Hh|]. intros sn. eexists.
  unfold JBOOL, update. cbn [v_type v_value view_of rd_config].
  replace (truthy (int_of_bool b)) with b by (by destruct b). rewrite Hset. done.
Qed.

(** A key is NULL or has bytes. *)
Definition key_ok (k : option (list Z)) : Prop :=
  match k with Some b => b ≠ [] /\ Forall is_byte b | None => True end.

Lemma hex_goes set b :
  find_handler (names fr) handlers = Some (JHEXBUF set) -> key_ok b ->
  set (view_of fr JSON_TYPE_STRING
         (VString (match b with Some b => flat_map two_hex b | None => [] end))) b c = Done c' ->
  goes (events fr (hex_doc b)) lp c cur c' [cur].
Proof.
  intros Hh Hb Hset. eapply value_goes; [done|done|exact Hh|]. intros sn. eexists.
  unfold JHEXBUF, update. cbn [v_type v_value view_of]. destruct b as [b|].
  - destruct Hb as [Hne Hb]. rewrite decide_False by (rewrite two_hex_length; destruct b; [done|simpl; lia]).
    rewrite (hex_loop_ok b Hb). cbn [mbind outcome_bind rd_config]. rewrite Hset. done.
  - rewrite decide_True by done. cbn [rd_config]. rewrite Hset. done.
Qed.
End Rules.

(** ** Objects and arrays *)

Lemma name_goes fr k lp c : goes [Event JSON_REASON_NAME JSON_TYPE_STRING (VString k) fr] lp c lp c [].
Proof.
  apply goes_step. intros sn tmp. exists sn, tmp. split; [done|].
  intros x [H|H]; [done|by apply not_elem_of_nil in H].
Qed.

Lemma member_goes fr k x ms lp c lp1 c1 k1 lp2 c2 k2 :
  goes (events (fr ++ [(k, 0)]) x) lp c lp1 c1 k1 -> goes (member_events fr ms) lp1 c1 lp2 c2 k2 ->
  goes (member_events fr ((k, x) :: ms)) lp c lp2 c2 (k1 ++ k2).
Proof.
  intros H1 H2. cbn [member_events]. rewrite <- (app_nil_l (k1 ++ k2)).
  eapply goes_ev; [apply name_goes|]. by eapply goes_app.
Qed.

Lemma object_goes fr p ms lp c lp' c' ks :
  has_path fr p = true -> goes (member_events fr ms) p c lp' c' ks ->
  goes (events fr (JObject ms)) lp c lp' c' ks.
Proof.
  intros Hp Hms. rewrite events_object. rewrite <- (app_nil_l ks).
  eapply goes_ev; [|rewrite <- (app_nil_r ks); eapply goes_app; [exact Hms|]].
  - apply goes_step. intros sn tmp. exists sn, p. split.
    + unfold config_step. cbn [ev_reason read_event]. unfold note_path.
      cbn [rd_enforce rd_tmp a_path event_asks ev_path]. by rewrite (has_path_ok fr p tmp Hp).
    + intros x [H|H]; [done|by apply not_elem_of_nil in H].
  - apply goes_step. intros sn tmp. exists sn, tmp. split; [done|].
    intros x [H|H]; [done|by apply not_elem_of_nil in H].
Qed.

Fixpoint find_array (ns : list text) (l : list (string * (nat -> enclave_config -> enclave_config))) :
    option (nat -> enclave_config -> enclave_config) :=
  match l with
  | [] => None
  | (p, f) :: l' => if bool_decide (split_dots (bytes p) = ns) then Some f else find_array ns l'
  end.

Lemma begin_array_find ev n l d f :
  find_array (names (ev_path ev)) l = Some f ->
  begin_array (event_asks ev) n l d = Done (JSON_OK, None, with_config (f n (rd_config d)) d).
Proof.
  induction l as [|[p f'] l IH]; [done|]. cbn [find_array begin_array a_match event_asks].
  unfold event_match. cbn [mbind outcome_bind]. case_bool_decide; [by intros [= ->]|done].
Qed.

Lemma array_goes fr p f l lp c lp' c' ks :
  has_path fr p = true -> find_array (names fr) arrays = Some f ->
  goes (element_events fr 0 l) lp (f (length l) c) lp' c' ks ->
  goes (events fr (JArray l)) lp c p c' ks.
Proof.
  intros Hp Hf Hl. rewrite events_array. rewrite <- (app_nil_l ks).
  eapply goes_ev; [|rewrite <- (app_nil_r ks); eapply goes_app; [exact Hl|]].
  - apply goes_step. intros sn tmp. exists sn, tmp. split.
    + unfold config_step. cbn [ev_reason read_event]. cbn [v_value a_view event_asks ev_value].
      rewrite (begin_array_find _ _ _ _ f) by done. rewrite Nat2Z.id. done.
    + intros x [H|H]; [done|by apply not_elem_of_nil in H].
  - apply goes_step. intros sn tmp. exists sn, p. split.
    + unfold config_step. cbn [ev_reason read_event]. unfold note_path.
      cbn [rd_enforce rd_tmp a_path event_asks ev_path].
      rewrite event_path_names, (has_path_ok fr p tmp Hp). done.
    + intros x [H|H]; [done|by apply not_elem_of_nil in H].
Qed.

(** ** The documents in order *)

Definition root_sorted (r : root_config) : json :=
  JObject
    [(bytes "key", hex_doc (root_key r));
     (bytes "key_id", string_doc (root_key_id r));
     (bytes "overlay", JBool (root_overlay r));
     (bytes "readonly", JBool (root_readonly r));
     (bytes "roothash", string_doc (root_roothash r));
     (bytes "roothash_offset", int_doc (root_roothash_offset r))].

Definition mount_sorted (m : mount_config) : json :=
  JObject
    [(bytes "create", JBool (mnt_create m));
     (bytes "destination", JString (mnt_destination m));
     (bytes "fresh_key", JBool (mnt_fresh_key m));
     (bytes "key", hex_doc (mnt_key m));
     (bytes "key_id", string_doc (mnt_key_id m));
     (bytes "readonly", JBool (mnt_readonly m));
     (bytes "roothash", string_doc (mnt_roothash m));
     (bytes "roothash_offset", int_doc (mnt_roothash_offset m));
     (bytes "size", int_doc (mnt_size m))].

Definition wg_sorted (w : wg_config) : json :=
  JObject
    [(bytes "ip", string_doc (wg_ip w));
     (bytes "key", string_doc (wg_key w));
     (bytes "listen_port", int_doc (wg_listen_port w));
     (bytes "peers", JArray [])].

Definition io_sorted (i : io_config) : json :=
  JObject
    [(bytes "block", JBool (io_block i));
     (bytes "console", JBool (io_console i));
     (bytes "network", JBool (io_network i))].

Lemma string_doc_sorted s : sort_doc (string_doc s) = string_doc s.
Proof. by destruct s. Qed.

Lemma strings_doc_sorted l : sort_doc (strings_doc l) = strings_doc l.
Proof.
  unfold strings_doc. cbn [sort_doc]. rewrite map_map. f_equal. apply map_ext. apply string_doc_sorted.
Qed.

Lemma clock_res_doc_sorted l : sort_doc (clock_res_doc l) = clock_res_doc l.
Proof. unfold clock_res_doc. cbn [sort_doc]. rewrite map_map. done. Qed.

Lemma root_doc_sorted r : sort_doc (root_doc r) = root_sorted r.
Proof.
  destruct r as [key key_id roothash off ro ov]. unfold root_doc, root_sorted.
  cbn [sort_doc map root_key root_key_id root_roothash root_roothash_offset root_readonly root_overlay].
  rewrite !string_doc_sorted. reflexivity.
Qed.

Lemma mount_doc_sorted m : sort_doc (mount_doc m) = mount_sorted m.
Proof.
  unfold mount_doc, mount_sorted. cbn [sort_doc map]. rewrite !string_doc_sorted. reflexivity.
Qed.

Lemma wg_doc_sorted w : sort_doc (wg_doc w) = wg_sorted w.
Proof.
  unfold wg_doc, wg_sorted. cbn [sort_doc map]. rewrite !string_doc_sorted. reflexivity.
Qed.

(** The members of the whole document. *)
Definition members_in_order c : list (text * json) :=
  [(bytes "args", strings_doc (args c));
   (bytes "clock_res", clock_res_doc (clock_res c));
   (bytes "cwd", string_doc (cwd c));
   (bytes "env", strings_doc (env c));
   (bytes "esleep", int_doc (esleep c));
   (bytes "espins", int_doc (espins c));
   (bytes "ethreads", int_doc (ethreads c));
   (bytes "exit_status", JString (sgxlkl_exit_status_mode_t_to_string (exit_status c)));
   (bytes "format_version", int_doc SGXLKL_ENCLAVE_CONFIG_T_VERSION);
   (bytes "fsgsbase", JBool (fsgsbase c));
   (bytes "host_import_env", strings_doc (host_import_env c));
   (bytes "hostname", string_doc (hostname c));
   (bytes "hostnet", JBool (hostnet c));
   (bytes "image_sizes", image_sizes_doc (image_sizes c));
   (bytes "io", io_sorted (io c));
   (bytes "kernel_cmd", string_doc (kernel_cmd c));
   (bytes "kernel_verbose", JBool (kernel_verbose c));
   (bytes "max_user_threads", int_doc (max_user_threads c));
   (bytes "mmap_files", JString (sgxlkl_enclave_mmap_files_t_to_string (mmap_files c)));
   (bytes "mode", JString (sgxlkl_enclave_mode_t_to_string (mode c)));
   (bytes "mounts", JArray (map mount_sorted (mounts c)));
   (bytes "net_gw4", string_doc (net_gw4 c));
   (bytes "net_ip4", string_doc (net_ip4 c));
   (bytes "net_mask4", string_doc (net_mask4 c));
   (bytes "oe_heap_pagecount", int_doc (oe_heap_pagecount c));
   (bytes "root", root_sorted (root c));
   (bytes "stacksize", int_doc (stacksize c));
   (bytes "swiotlb", JBool (swiotlb c));
   (bytes "sysctl", string_doc (sysctl c));
   (bytes "tap_mtu", int_doc (tap_mtu c));
   (bytes "verbose", JBool (verbose c));
   (bytes "wg", wg_sorted (wg c))].

Lemma mounts_doc_sorted l : sort_doc (mounts_doc l) = JArray (map mount_sorted l).
Proof.
  unfold mounts_doc. cbn [sort_doc]. rewrite map_map. f_equal. apply map_ext, mount_doc_sorted.
Qed.

Lemma sorted_members_eq c : sorted_members c = members_in_order c.
Proof.
  unfold sorted_members, config_members, members_in_order. cbn [map sort_member].
  rewrite !string_doc_sorted, !strings_doc_sorted, clock_res_doc_sorted, root_doc_sorted,
    mounts_doc_sorted, wg_doc_sorted. reflexivity.
Qed.

(** ** Arrays, element by element *)

Lemma at_index_middle {A} (f : A -> A) pre x rest :
  at_index (Z.of_nat (length pre)) f (pre ++ x :: rest) = Done (pre ++ f x :: rest).
Proof.
  unfold at_index. rewrite Nat2Z.id, list_lookup_middle by done. f_equal.
  rewrite insert_app_r_alt, Nat.sub_diag by lia. done.
Qed.

Section Strings.
Variables (k : text) (get : enclave_config -> list (option text))
  (set : list (option text) -> enclave_config -> enclave_config).
Hypothesis Hhandler : find_handler [k] handlers = Some (JSTRINGT (element get set)).
Hypothesis Hget : forall l c, get (set l c) = l.
Hypothesis Hset : forall l l' c, set l (set l' c) = set l c.
Hypothesis Hk : has_path [(k, 0)] k = true.

Lemma strings_from l pre lp c :
  Forall is_Some l -> (0 <? c_strcmp lp k) = false ->
  exists lp', goes (element_events [(k, 0)] (Z.of_nat (length pre)) (map string_doc l)) lp
    (set (pre ++ replicate (length l) None) c) lp' (set (pre ++ l) c)
    (match l with [] => [] | _ => [k] end).
Proof.
  revert pre lp. induction l as [|x l IH]; intros pre lp Hl Hlp; [exists lp; apply goes_nil|].
  apply Forall_cons in Hl as [[str ->] Hl].
  destruct (IH (pre ++ [Some str]) k Hl) as [lp' Hgo]; [by rewrite strcmp_refl|]. exists lp'.
  rewrite length_app, Nat2Z.inj_add in Hgo. rewrite <- !app_assoc in Hgo. cbn [app length] in Hgo.
  cbn [map element_events string_doc].
  apply (goes_weaken _ _ _ _ _ ([k] ++ match l with [] => [] | _ => [k] end));
    [intros y Hy; apply elem_of_app; by left|].
  eapply goes_app; [|exact Hgo].
  change (set_index [(k, 0)] (Z.of_nat (length pre))) with [(k, Z.of_nat (length pre))].
  eapply text_goes; [exact Hk|done|exact Hhandler|]. unfold element.
  cbn [v_index view_of event_index last snd]. rewrite Hget. cbn [length replicate].
  rewrite at_index_middle. cbn [mbind outcome_bind]. by rewrite Hset.
Qed.

Lemma strings_goes l lp c :
  find_array [k] arrays = Some (fun n => set (replicate n None)) ->
  Forall is_Some l -> (0 <? c_strcmp lp k) = false ->
  goes (events [(k, 0)] (strings_doc l)) lp c k (set l c) (match l with [] => [] | _ => [k] end).
Proof.
  intros Ha Hl Hlp. destruct (strings_from l [] lp c Hl Hlp) as [lp' Hgo].
  eapply array_goes; [exact Hk|exact Ha|]. rewrite length_map. exact Hgo.
Qed.
End Strings.

(** The mounts. *)
Record mount_readable (m : mount_config) : Prop := {
  rd_destination : (length (mnt_destination m) <= SGXLKL_DISK_MNT_MAX_PATH_LEN)%nat;
  rd_mnt_key : key_ok (mnt_key m);
  rd_mnt_offset : short (mnt_roothash_offset m);
  rd_mnt_size : short (mnt_size m)
}.

Lemma mount_field_at {A} (set : A -> mount_config -> mount_config) k1 k2 j ty w v pre x rest c :
  Z.of_nat (length pre) < 2 ^ 63 ->
  mount_field set (view_of [(k1, Z.of_nat (length pre)); (k2, j)] ty w) v
    (set_mounts (pre ++ x :: rest) c) = Done (set_mounts (pre ++ set v x :: rest) c).
Proof.
  intros Hl. unfold mount_field.
  cbn [v_array_index view_of event_array_index length lookup list_lookup snd mbind outcome_bind].
  unfold UINT64_MAX. rewrite (proj2 (Z.eqb_neq _ _)) by lia.
  change (mounts (set_mounts (pre ++ x :: rest) c)) with (pre ++ x :: rest).
  by rewrite at_index_middle.
Qed.

Lemma destination_goes i k2 str lp cur c c' :
  let fr := [(bytes "mounts", i); (k2, 0)] in
  has_path fr cur = true -> (0 <? c_strcmp lp cur) = false ->
  find_handler (names fr) handlers = Some destination ->
  (length str <= SGXLKL_DISK_MNT_MAX_PATH_LEN)%nat ->
  mount_field set_mnt_destination (view_of fr JSON_TYPE_STRING (VString str)) str c = Done c' ->
  goes (events fr (JString str)) lp c cur c' [cur].
Proof.
  intros fr Hp Hlt Hh Hlen Hset. eapply value_goes; [done|done|exact Hh|]. intros sn. eexists.
  unfold destination, update.
  change (v_value (view_of fr JSON_TYPE_STRING (VString str))) with (VString str). cbn iota.
  rewrite decide_False by lia. cbn [rd_config]. rewrite Hset. done.
Qed.

Ltac place := first [exact eq_refl|reflexivity].

Lemma mount_goes m pre rest lp c :
  mount_readable m -> Z.of_nat (length pre) < 2 ^ 63 ->
  goes (events [(bytes "mounts", Z.of_nat (length pre))] (mount_sorted m)) lp
    (set_mounts (pre ++ zero_mount :: rest) c) (bytes "mounts.size") (set_mounts (pre ++ m :: rest) c) [].
Proof.
  intros [] Hpre. apply (object_goes _ (bytes "mounts")); [place|].
  eapply goes_weaken; [intros y Hy; by apply not_elem_of_nil in Hy|].
  eapply member_goes; [eapply (bool_goes _ _ (bytes "mounts.create")); [place|place|place|by apply mount_field_at]|].
  eapply member_goes; [eapply (destination_goes _ _ _ _ (bytes "mounts.destination")); [place|place|place|done|by apply mount_field_at]|].
  eapply member_goes; [eapply (bool_goes _ _ (bytes "mounts.fresh_key")); [place|place|place|by apply mount_field_at]|].
  eapply member_goes; [eapply (hex_goes _ _ (bytes "mounts.key")); [place|place|place|done|by apply mount_field_at]|].
  eapply member_goes; [eapply (string_goes _ _ (bytes "mounts.key_id")); [place|place|place|by apply mount_field_at]|].
  eapply member_goes; [eapply (bool_goes _ _ (bytes "mounts.readonly")); [place|place|place|by apply mount_field_at]|].
  eapply member_goes; [eapply (string_goes _ _ (bytes "mounts.roothash")); [place|place|place|by apply mount_field_at]|].
  eapply member_goes; [eapply (int_goes _ _ (bytes "mounts.roothash_offset")); [place|place|place|done|by apply mount_field_at]|].
  eapply member_goes; [eapply (int_goes _ _ (bytes "mounts.size")); [place|place|place|done|by apply mount_field_at]|].
  destruct m. apply goes_nil.
Qed.

Lemma mounts_from l pre lp c :
  Forall mount_readable l -> Z.of_nat (length pre + length l) < 2 ^ 63 ->
  exists lp', goes (element_events [(bytes "mounts", 0)] (Z.of_nat (length pre)) (map mount_sorted l)) lp
    (set_mounts (pre ++ replicate (length l) zero_mount) c) lp' (set_mounts (pre ++ l) c) [].
Proof.
  revert pre lp. induction l as [|m l IH]; intros pre lp Hl Hn; [exists lp; apply goes_nil|].
  apply Forall_cons in Hl as [Hm Hl]. simpl in Hn.
  destruct (IH (pre ++ [m]) (bytes "mounts.size") Hl) as [lp' Hgo]; [rewrite length_app; simpl; lia|].
  exists lp'. rewrite length_app, Nat2Z.inj_add in Hgo. rewrite <- !app_assoc in Hgo.
  cbn [map element_events length replicate].
  eapply (goes_app _ _ _ _ _ _ []); [|exact Hgo]. by apply mount_goes; [|lia].
Qed.

Lemma mounts_goes l lp c :
  Forall mount_readable l -> Z.of_nat (length l) < 2 ^ 63 ->
  goes (events [(bytes "mounts", 0)] (JArray (map mount_sorted l))) lp c (bytes "mounts")
    (set_mounts l c) [].
Proof.
  intros Hl Hn. destruct (mounts_from l [] lp c Hl Hn) as [lp' Hgo].
  eapply array_goes; [place|place|]. rewrite length_map. exact Hgo.
Qed.

(** The clocks: the array is part of the configuration. *)
Lemma clocks_from l pre rest lp c :
  length rest = length l -> (length pre + length l <= 8)%nat -> Forall (fun r => length r = 16%nat) l ->
  exists lp', goes (element_events [(bytes "clock_res", 0)] (Z.of_nat (length pre))
      (map (fun r => JObject [(bytes "resolution", JString r)]) l)) lp
    (set_clock_res (pre ++ rest) c) lp' (set_clock_res (pre ++ l) c) [].
Proof.
  revert pre rest lp. induction l as [|r l IH]; intros pre [|r0 rest] lp Hr Hn Hl; try done;
    [exists lp; apply goes_nil|].
  apply Forall_cons in Hl as [Hrl Hl]. simpl in Hr, Hn.
  destruct (IH (pre ++ [r]) rest (bytes "clock_res.resolution")) as [lp' Hgo];
    [lia|rewrite length_app; simpl; lia|done|].
  exists lp'. rewrite length_app, Nat2Z.inj_add in Hgo. rewrite <- !app_assoc in Hgo.
  cbn [map element_events]. eapply (goes_app _ _ _ _ _ _ []); [|exact Hgo].
  change (set_index [(bytes "clock_res", 0)] (Z.of_nat (length pre)))
    with [(bytes "clock_res", Z.of_nat (length pre))].
  apply (object_goes _ (bytes "clock_res")); [place|].
  eapply goes_weaken; [intros y Hy; by apply not_elem_of_nil in Hy|].
  eapply member_goes; [|apply goes_nil].
  eapply (text_goes _ _ (bytes "clock_res.resolution")); [place|place|place|].
  unfold clock_item. rewrite decide_True by done.
  cbn [v_array_index view_of event_array_index length lookup list_lookup snd app mbind outcome_bind].
  unfold UINT64_MAX. rewrite (proj2 (Z.eqb_neq _ _)) by lia. rewrite (proj2 (Z.leb_gt 8 _)) by lia.
  change (clock_res (set_clock_res (pre ++ r0 :: rest) c)) with (pre ++ r0 :: rest).
  by rewrite at_index_middle.
Qed.

Lemma clocks_goes l lp c :
  length l = 8%nat -> length (clock_res c) = 8%nat -> Forall (fun r => length r = 16%nat) l ->
  goes (events [(bytes "clock_res", 0)] (clock_res_doc l)) lp c (bytes "clock_res") (set_clock_res l c) [].
Proof.
  intros Hl Hc Hr. destruct (clocks_from l [] (clock_res c) lp c) as [lp' Hgo]; [lia|simpl; lia|done|].
  eapply array_goes; [place|place|]. cbn [app length] in Hgo.
  by destruct c.
Qed.

(** ** The whole configuration *)

Lemma version_goes lp c :
  (0 <? c_strcmp lp (bytes "format_version")) = false ->
  goes (events [(bytes "format_version", 0)] (int_doc SGXLKL_ENCLAVE_CONFIG_T_VERSION)) lp c
    (bytes "format_version") c [bytes "format_version"].
Proof.
  intros Hlp. eapply (value_goes _ _ _ _ _ format_version); [place|done|place|]. intros sn. eexists.
  unfold format_version, decode_uint64_t. cbn [rd_enforce v_type v_value view_of].
  rewrite decode_short by apply version_range. cbn [mbind outcome_bind].
  rewrite decide_True by done. rewrite Z.eqb_refl. done.
Qed.

(** What the reader accepts and can hold. *)
Record readable c : Prop := {
  rd_args : Forall is_Some (args c) /\ args c ≠ [] /\ Z.of_nat (length (args c)) <= INT32_MAX;
  rd_env : Forall is_Some (env c) /\ Z.of_nat (length (env c)) <= INT32_MAX;
  rd_import : Forall is_Some (host_import_env c) /\
              Z.of_nat (length (host_import_env c)) <= INT32_MAX;
  rd_clocks : Forall (fun r => length r = 16%nat) (clock_res c);
  rd_esleep : short (esleep c);
  rd_espins : short (espins c);
  rd_ethreads : 0 <= ethreads c <= MAX_SGXLKL_ETHREADS;
  rd_heap : short (num_heap_pages (image_sizes c));
  rd_stack : short (num_stack_pages (image_sizes c));
  rd_user_threads : 0 <= max_user_threads c <= MAX_SGXLKL_MAX_USER_THREADS;
  rd_mounts : Forall mount_readable (mounts c);
  rd_pagecount : short (oe_heap_pagecount c);
  rd_root_key : key_ok (root_key (root c));
  rd_root_offset : short (root_roothash_offset (root c));
  rd_stacksize : short (stacksize c);
  rd_tap_mtu : 0 <= tap_mtu c <= INT32_MAX;
  rd_listen_port : 0 <= wg_listen_port (wg c) < 2 ^ 32
}.

Lemma image_sizes_goes (s : image_sizes_config) lp c :
  short (num_heap_pages s) -> short (num_stack_pages s) ->
  goes (events [(bytes "image_sizes", 0)] (image_sizes_doc s)) lp c (bytes "image_sizes.num_stack_pages") (set_image_sizes s c) [].
Proof.
  intros. eapply goes_weaken; [intros y Hy; by apply not_elem_of_nil in Hy|].
  apply (object_goes _ (bytes "image_sizes")); [place|].
  eapply member_goes; [eapply (int_goes _ _ (bytes "image_sizes.num_heap_pages")); [place|place|place|done|place]|].
  eapply member_goes; [eapply (int_goes _ _ (bytes "image_sizes.num_stack_pages")); [place|place|place|done|place]|].
  destruct s, c as [? ? ? ? ? ? ? ? ? ? ? ? ? ? ? ? ? ? ? ? ? ? ? ? ? ? ? ? ? [] ?]. apply goes_nil.
Qed.

Lemma io_goes (i : io_config) lp c :
  goes (events [(bytes "io", 0)] (io_sorted i)) lp c (bytes "io.network") (set_io i c) [].
Proof.
  intros. eapply goes_weaken; [intros y Hy; by apply not_elem_of_nil in Hy|].
  apply (object_goes _ (bytes "io")); [place|].
  eapply member_goes; [eapply (bool_goes _ _ (bytes "io.block")); [place|place|place|place]|].
  eapply member_goes; [eapply (bool_goes _ _ (bytes "io.console")); [place|place|place|place]|].
  eapply member_goes; [eapply (bool_goes _ _ (bytes "io.network")); [place|place|place|place]|].
  destruct i, c as [? ? ? ? ? ? ? ? ? ? ? ? ? ? ? ? ? ? ? ? ? ? ? ? ? ? ? ? ? ? []]. apply goes_nil.
Qed.

Lemma root_goes (r : root_config) lp c :
  key_ok (root_key r) -> short (root_roothash_offset r) ->
  goes (events [(bytes "root", 0)] (root_sorted r)) lp c (bytes "root.roothash_offset") (set_root r c) [].
Proof.
  intros. eapply goes_weaken; [intros y Hy; by apply not_elem_of_nil in Hy|].
  apply (object_goes _ (bytes "root")); [place|].
  eapply member_goes; [eapply (hex_goes _ _ (bytes "root.key")); [place|place|place|done|place]|].
  eapply member_goes; [eapply (string_goes _ _ (bytes "root.key_id")); [place|place|place|place]|].
  eapply member_goes; [eapply (bool_goes _ _ (bytes "root.overlay")); [place|place|place|place]|].
  eapply member_goes; [eapply (bool_goes _ _ (bytes "root.readonly")); [place|place|place|place]|].
  eapply member_goes; [eapply (string_goes _ _ (bytes "root.roothash")); [place|place|place|place]|].
  eapply member_goes; [eapply (int_goes _ _ (bytes "root.roothash_offset")); [place|place|place|done|place]|].
  destruct r, c as [? ? ? ? ? ? ? ? ? ? ? ? ? ? ? ? ? ? ? ? ? ? ? ? ? ? [] ? ? ? ?]. apply goes_nil.
Qed.

Lemma wg_goes (w : wg_config) lp c :
  0 <= wg_listen_port w < 2 ^ 32 -> wg_peers w = [] ->
  goes (events [(bytes "wg", 0)] (wg_sorted w)) lp c (bytes "wg.peers") (set_wg w c) [].
Proof.
  intros. eapply goes_weaken; [intros y Hy; by apply not_elem_of_nil in Hy|].
  apply (object_goes _ (bytes "wg")); [place|].
  eapply member_goes; [eapply (string_goes _ _ (bytes "wg.ip")); [place|place|place|place]|].
  eapply member_goes; [eapply (string_goes _ _ (bytes "wg.key")); [place|place|place|place]|].
  eapply member_goes; [eapply (int32_goes _ _ (bytes "wg.listen_port")); [place|place|place|done|place]|].
  eapply member_goes; [eapply (array_goes _ (bytes "wg.peers")); [place|place|apply goes_nil]|].
  destruct w as [? ? ? peers], c as [? ? ? ? ? ? ? ? ? ? [] ? ? ? ? ? ? ? ? ? ? ? ? ? ? ? ? ? ? ? ?]; simpl in *; subst peers. apply goes_nil.
Qed.

Lemma config_goes c dflt :
  readable c -> wg_peers (wg c) = [] -> length (clock_res c) = 8%nat ->
  length (clock_res dflt) = 8%nat -> Z.of_nat (length (mounts c)) < 2 ^ 63 ->
  exists ks, goes (member_events [] (members_in_order c)) [] dflt (bytes "wg.peers") c ks /\
             bytes "args" ∈ ks.
Proof.
  intros [[Ha [Hne ?]] [He ?] [Hi ?]] Hp Hc Hd Hm.
  assert (short (ethreads c)) by (unfold short, MAX_SGXLKL_ETHREADS in *; lia).
  assert (short (max_user_threads c)) by (unfold short, MAX_SGXLKL_MAX_USER_THREADS in *; lia).
  assert (0 <= tap_mtu c < 2 ^ 32) by (unfold INT32_MAX in *; lia).
  eexists. split; [unfold members_in_order|].
  - eapply member_goes; [eapply (strings_goes (bytes "args") args set_args); [place|done|done|place|place|done|place]|].
    eapply member_goes; [eapply clocks_goes; [done|done|done]|].
    eapply member_goes; [eapply (string_goes _ _ (bytes "cwd")); [place|place|place|place]|].
    eapply member_goes; [eapply (strings_goes (bytes "env") env set_env); [place|done|done|place|place|done|place]|].
    eapply member_goes; [eapply (int_goes _ _ (bytes "esleep")); [place|place|place|done|place]|].
    eapply member_goes; [eapply (int_goes _ _ (bytes "espins")); [place|place|place|done|place]|].
    eapply member_goes; [eapply (int_goes _ _ (bytes "ethreads")); [place|place|place|done|place]|].
    eapply member_goes; [eapply (text_goes _ _ (bytes "exit_status")); [place|place|place|unfold enumeration; by rewrite exit_status_string]|].
    eapply member_goes; [apply version_goes; place|].
    eapply member_goes; [eapply (bool_goes _ _ (bytes "fsgsbase")); [place|place|place|place]|].
    eapply member_goes; [eapply (strings_goes (bytes "host_import_env") host_import_env set_host_import_env); [place|done|done|place|place|done|place]|].
    eapply member_goes; [eapply (string_goes _ _ (bytes "hostname")); [place|place|place|place]|].
    eapply member_goes; [eapply (bool_goes _ _ (bytes "hostnet")); [place|place|place|place]|].
    eapply member_goes; [by apply image_sizes_goes|].
    eapply member_goes; [by apply io_goes|].
    eapply member_goes; [eapply (string_goes _ _ (bytes "kernel_cmd")); [place|place|place|place]|].
    eapply member_goes; [eapply (bool_goes _ _ (bytes "kernel_verbose")); [place|place|place|place]|].
    eapply member_goes; [eapply (int_goes _ _ (bytes "max_user_threads")); [place|place|place|done|place]|].
    eapply member_goes; [eapply (text_goes _ _ (bytes "mmap_files")); [place|place|place|unfold enumeration; by rewrite mmap_files_string]|].
    eapply member_goes; [eapply (text_goes _ _ (bytes "mode")); [place|place|place|unfold enumeration; by rewrite mode_string]|].
    eapply member_goes; [apply mounts_goes; [done|done]|].
    eapply member_goes; [eapply (string_goes _ _ (bytes "net_gw4")); [place|place|place|place]|].
    eapply member_goes; [eapply (string_goes _ _ (bytes "net_ip4")); [place|place|place|place]|].
    eapply member_goes; [eapply (string_goes _ _ (bytes "net_mask4")); [place|place|place|place]|].
    eapply member_goes; [eapply (int_goes _ _ (bytes "oe_heap_pagecount")); [place|place|place|done|place]|].
    eapply member_goes; [by apply root_goes|].
    eapply member_goes; [eapply (int_goes _ _ (bytes "stacksize")); [place|place|place|done|place]|].
    eapply member_goes; [eapply (bool_goes _ _ (bytes "swiotlb")); [place|place|place|place]|].
    eapply member_goes; [eapply (string_goes _ _ (bytes "sysctl")); [place|place|place|place]|].
    eapply member_goes; [eapply (int32_goes _ _ (bytes "tap_mtu")); [place|place|place|done|place]|].
    eapply member_goes; [eapply (bool_goes _ _ (bytes "verbose")); [place|place|place|place]|].
    eapply member_goes; [by apply wg_goes|].
    destruct c. apply goes_nil.
  - apply elem_of_app. left. destruct (args c); [done|]. left.
Qed.

Lemma quote_char_nonzero (ch : Z) : quotable ch = true -> Forall (fun x => x ≠ 0) (quote_char ch).
Proof. unfold quotable, quote_char. intros H. destruct (ch =? 34); repeat constructor; lia. Qed.

Lemma render_nonzero v : supported v -> ~ (0 ∈ render v).
Proof.
  intros Hs H0. assert (Forall (fun x => x ≠ 0) (render v)) as Hr
    by (apply render_chars; [lia|apply quote_char_nonzero|done]).
  rewrite Forall_forall in Hr. by apply (Hr 0 H0).
Qed.

Lemma string_list_contains_elem l x : x ∈ l -> string_list_contains l x = true.
Proof.
  induction 1 as [x l|x y l _ IH]; cbn [string_list_contains]; [by rewrite bool_decide_eq_true_2|].
  by case_bool_decide.
Qed.

Lemma check_config_ok c : readable c -> check_config c = Done tt.
Proof.
  intros [[Ha [Hne ?]] [He ?] [Hi ?]]. unfold check_config.
  rewrite bool_decide_eq_false_2 by done.
  repeat (rewrite (proj2 (Z.ltb_ge _ _)) by lia). done.
Qed.

(** All the events of the document, from the start of the reader. *)
Lemma config_steps c dflt :
  serializable c -> readable c -> length (clock_res dflt) = 8%nat ->
  exists sn tmp, steps config_step (events [] (JObject (sorted_members c)))
      (Reader dflt [] true None []) = Some (Reader c sn true (Some (bytes "wg.peers")) tmp) /\
    bytes "args" ∈ sn.
Proof.
  intros Hs Hr Hd. rewrite sorted_members_eq, events_object.
  destruct (config_goes c dflt Hr (ser_peers _ Hs) (ser_clocks _ Hs) Hd (proj2 (ser_mounts _ Hs)))
    as (ks & Hgo & Hk).
  destruct (Hgo [] []) as (sn & tmp & E & K). exists sn, tmp. split; [|by apply K; right].
  rewrite steps_cons. change (config_step _ (Reader dflt [] true None []))
    with (Some (Reader dflt [] true (Some []) [])). cbn [mbind option_bind].
  by rewrite steps_app, E.
Qed.

(** C4. The round trip, for the configurations that the host can write and the
    enclave can hold.  The conditions are ([serializable], [readable]): there are no
    WireGuard peers (with one the launcher crashes, [serialize_with_peers_faults]);
    64-bit integers are below 10^16 (the digits of larger ones are cut off,
    [encode_int_exact]) and the others within their limits (ethreads at most
    1024, user threads at most 65536, tap_mtu and the numbers of arguments and
    variables at most INT32_MAX, the port below 2^32); strings have neither a null
    nor a backslash; arguments, of which there is at least one, and variables
    are not NULL; there are 8 clocks of 16 characters; keys are NULL or not empty;
    mount points have at most 255 bytes.  Then the serializer writes a
    zero-terminated text, and the reader in its strict mode, which wants the
    members sorted, accepts that text and returns the configuration itself,
    whatever the default configuration was (if memory is available and the byte
    after the reader's copy of the text is 0). *)
Theorem config_round_trip grown c dflt b ja_malloc :
  serializable c -> readable c -> length (clock_res dflt) = 8%nat ->
  (forall n size, ja_malloc n size = true) ->
  exists b' t tail, serialize_enclave_config grown c b = Done b' /\
    pb_data b' = t ++ 0 :: tail /\ ~ (0 ∈ t) /\
    forall fuel, (2 * length t + 3 <= fuel)%nat ->
    sgxlkl_read_enclave_config dflt ja_malloc 0 fuel (Some t) true = Done c.
Proof.
  intros Hs Hr Hd Hm. destruct (serialize_text grown c b Hs) as (b' & tail & E & Hdata).
  rewrite config_sorted in Hdata. set (t := render (JObject (sorted_members c))) in *.
  exists b', t, tail. split; [done|]. split; [done|].
  split; [by apply render_nonzero, sorted_supported|]. intros fuel Hf.
  destruct (config_steps c dflt Hs Hr Hd) as (sn & tmp & Hst & Hargs).
  edestruct (parse_follows json_read_callback config_step ja_malloc (sorted_members c) [] false fuel)
    as (s' & Hp & Hu & Hdep);
    [done|by apply sorted_supported|apply sorted_nesting|constructor|by rewrite app_nil_r|exact Hst|].
  rewrite app_nil_r in Hp. fold t in Hp. unfold sgxlkl_read_enclave_config, json_parser_init.
  assert (length t ≠ 0%nat) as Hne by done.
  rewrite bool_decide_eq_false_2 by done. cbn [negb orb default].
  change (PState (t ++ [0]) _ JSON_OK 0 0 _) with
    (start_parse (t ++ [0]) (length t) false (Reader dflt [] true None [])).
  rewrite Hp. cbn [mbind outcome_bind]. rewrite decide_True by done. rewrite Hu. cbn [rd_seen rd_config].
  unfold check_required_elements. rewrite string_list_contains_elem by done. cbn [mbind outcome_bind].
  by rewrite check_config_ok.
Qed.
End RoundTrip.

Lemma sample_readable : readable (Gen := schema_config) sample_config.
Proof.
  constructor; unfold short, MAX_SGXLKL_ETHREADS, MAX_SGXLKL_MAX_USER_THREADS, INT32_MAX; simpl; try lia;
    repeat split; try done; repeat (apply Forall_cons; split); try apply Forall_nil_2; try done;
    simpl; unfold is_byte; try lia.
  constructor; unfold short, SGXLKL_DISK_MNT_MAX_PATH_LEN; simpl; try lia.
  split; [done|]. repeat constructor; unfold is_byte; lia.
Qed.

Lemma config_round_trip_witness :
  exists b' t tail,
    serialize_enclave_config (Gen := schema_config) (fun _ => 7) sample_config empty_buffer = Done b' /\
    pb_data b' = t ++ 0 :: tail /\ ~ (0 ∈ t) /\
    forall fuel, (2 * length t + 3 <= fuel)%nat ->
    sgxlkl_read_enclave_config (Gen := schema_config)
      (set_mounts (Gen := schema_config) [] sample_config) (fun _ _ => true) 0 fuel (Some t) true =
      Done sample_config.
Proof.
  apply (config_round_trip (Gen := schema_config)).
  - apply sample_serializable.
  - apply sample_readable.
  - done.
  - done.
Defined.

(** ** Numbers that are cut off *)

Lemma accumulate_bound ds x :
  0 <= x -> Forall is_dec ds -> accumulate x ds < (x + 1) * 10 ^ Z.of_nat (length ds).
Proof.
  intros Hx Hds. revert x Hx. induction Hds as [|d ds Hd _ IH]; intros x Hx; [simpl; lia|].
  rewrite accumulate_cons. unfold is_dec in Hd.
  specialize (IH (x * 10 + (d - 48)) ltac:(lia)). cbn [length].
  rewrite Nat2Z.inj_succ, Z.pow_succ_r by lia.
  assert (0 < 10 ^ Z.of_nat (length ds)) by (apply Z.pow_pos_nonneg; lia). nia.
Qed.

(** The object is a string of decimal digits with value [z]. *)
Definition holds_number (o : json_obj) (z : Z) : Prop :=
  exists key ds, o = create_json_string key (Some ds) /\ Forall is_dec ds /\ decimal_value ds = z.

(** [encode_int] keeps 16 characters: for every uint64_t, the decimal number
    it writes is the value exactly when the value has at most 16 digits. *)
Theorem encode_int_exact key z :
  0 <= z < 2 ^ 64 -> holds_number (encode_int key z) z <-> z < 10 ^ 16.
Proof.
  intros Hz. pose proof (unsigned_digits_dec z) as Hdec. split.
  - intros (key' & ds & E & _ & <-). unfold encode_int, create_json_string in E. injection E as _ <-.
    unfold decimal_value.
    eapply Z.lt_le_trans; [apply accumulate_bound; [lia|by apply Forall_take]|].
    rewrite Z.add_0_l, Z.mul_1_l. apply Z.pow_le_mono_r; [lia|]. rewrite length_take. lia.
  - intros Hs. exists key, (take 16 (unsigned_digits z)). split; [done|]. split; [by apply Forall_take|].
    destruct (short_digits z) as (ds & -> & Hd & Hl & _); [unfold short; lia|].
    rewrite take_ge by lia. destruct (i64tostr_spec z ltac:(lia)) as (ds' & Hd' & _ & _ & Hv).
    rewrite Hd in Hd'. injection Hd' as ->. replace (z <? 0) with false in * by lia. simpl.
    rewrite Hv. lia.
Qed.

Lemma encode_int_exact_witness :
  holds_number (encode_int None 18446744073709551615) 18446744073709551615 <->
  18446744073709551615 < 10 ^ 16.
Proof. apply (encode_int_exact None 18446744073709551615). lia. Defined.
