(* ===== verification/ConfigFaults.v ===== *)
(** * ConfigFaults: documents that the reader does not handle

    Two documents on which sgxlkl_read_enclave_config
    (src/shared/sgxlkl_enclave_config.c) goes wrong: an array inside an array,
    and a list of WireGuard peers.  Both are parsed correctly; the reader takes
    the wrong index or the wrong length for them. *)

From Stdlib Require Import String.
From S2P Require Import Prelude JsonText JsonParser JsonSafety JsonComplete Env EnclaveConfig.
From S2P Require Import Serialize SerializePrint ConfigReader.
#[local] Existing Instance quote_encoding | 0.

Section Faults.
Context `{Gen : GeneratedConfig}.

(** An empty array as the first of two arguments. *)
Definition nested_args_doc : json :=
  JObject [(bytes "args", JArray [JArray []; JString (bytes "x")])].

(** Two peers with a key each. *)
Definition two_peers_doc (k1 k2 : text) : json :=
  JObject [(bytes "args", JArray [JString (bytes "x")]);
           (bytes "wg", JObject
              [(bytes "peers", JArray [JObject [(bytes "key", JString k1)];
                                       JObject [(bytes "key", JString k2)]])])].

Definition read_doc (dflt : enclave_config) (enforce_format : bool) (doc : json) : outcome enclave_config :=
  sgxlkl_read_enclave_config dflt (fun _ _ => true) 0 (2 * length (render doc) + 3)
    (Some (render doc)) enforce_format.

(** An array inside the array of arguments replaces that array by one of its
    own length: the next argument is then written behind the end of it, in
    either mode and whatever the default configuration is. *)
Theorem nested_array_overruns dflt enforce_format :
  read_doc dflt enforce_format nested_args_doc = Failed (BadPointer 1).
Proof. destruct enforce_format; vm_compute; reflexivity. Qed.

(** The peers of the document after it was read. *)
Definition peers_read (o : outcome enclave_config) : option (list wg_peer_config) :=
  match o with Done c => Some (wg_peers (wg c)) | Failed _ => None end.
End Faults.

(** The values of a peer are stored at the index of the innermost name,
    which is 0, not at the index of the peer: of two peers the second overwrites
    the first, and the second slot stays empty. *)
Theorem peers_share_a_slot enforce_format :
  peers_read (Gen := schema_config)
    (read_doc (Gen := schema_config) sample_config enforce_format
       (two_peers_doc (bytes "first") (bytes "second")))
  = Some [WgPeer (Some (bytes "second")) None None; zero_peer].
Proof. destruct enforce_format; vm_compute; reflexivity. Qed.
