(* ===== verification/Luks2Header.v ===== *)
(** * Luks2Header: the binary header of a LUKS2 volume
    (src/vicsetup/libvicsetup/luks2.c, luks2.h, byteorder.h)

    A volume starts with two copies of a header: 4096 bytes, the integers
    big-endian, followed by the JSON area.  Here are the binary headers, the
    checksum over both parts, and the functions that move them to and from the
    device. *)

From Stdlib Require Import String.
From S2P Require Import Prelude JsonText VicCrypto Blockdev Luks1Header.

Definition LUKS_VERSION_2 : Z := 2.
Definition _magic_1st : list Z := LUKS_MAGIC_1ST.
Definition _magic_2nd : list Z := [83; 75; 85; 76; 0xba; 0xbe].
Definition DEFAULT_HDR_SIZE : Z := 16384.
Definition sizeof_luks2_hdr : Z := 4096.

Record luks2_hdr_t : Type := mk_hdr2 {
  h_magic : list Z; h_version : Z; h_hdr_size : Z; h_seqid : Z; h_label : list Z; h_csum_alg : list Z;
  h_salt : list Z; h_uuid : list Z; h_subsystem : list Z; h_hdr_offset : Z; h_padding : list Z; h_csum : list Z;
  h_padding4096 : list Z }.

(** ** Memory *)

Definition hdr2_fields (h : luks2_hdr_t) : list (list Z) :=
  [h_magic h; le_bytes 2 (h_version h); le_bytes 8 (h_hdr_size h); le_bytes 8 (h_seqid h); h_label h; h_csum_alg h;
   h_salt h; h_uuid h; h_subsystem h; le_bytes 8 (h_hdr_offset h); h_padding h; h_csum h; h_padding4096 h].
Definition hdr2_image (h : luks2_hdr_t) : list Z := concat (hdr2_fields h).

Definition hdr2_of (l : list Z) : luks2_hdr_t :=
  mk_hdr2 (sub 0 6 l) (le_value (sub 6 2 l)) (le_value (sub 8 8 l)) (le_value (sub 16 8 l)) (sub 24 48 l) (sub 72 32 l)
    (sub 104 64 l) (sub 168 40 l) (sub 208 48 l) (le_value (sub 256 8 l)) (sub 264 184 l) (sub 448 64 l)
    (sub 512 3584 l).

Definition with_csum (c : list Z) (h : luks2_hdr_t) : luks2_hdr_t :=
  mk_hdr2 (h_magic h) (h_version h) (h_hdr_size h) (h_seqid h) (h_label h) (h_csum_alg h) (h_salt h) (h_uuid h)
    (h_subsystem h) (h_hdr_offset h) (h_padding h) c (h_padding4096 h).
Definition with_seqid (n : Z) (h : luks2_hdr_t) : luks2_hdr_t :=
  mk_hdr2 (h_magic h) (h_version h) (h_hdr_size h) n (h_label h) (h_csum_alg h) (h_salt h) (h_uuid h)
    (h_subsystem h) (h_hdr_offset h) (h_padding h) (h_csum h) (h_padding4096 h).

(** ** Operations *)

Definition _is_valid_luks2_hdr (h : luks2_hdr_t) (swap : bool) : bool :=
  (bool_decide (h_magic h = _magic_1st) || bool_decide (h_magic h = _magic_2nd)) &&
  (if swap then vic_swap_u16 (h_version h) =? LUKS_VERSION_2 else h_version h =? LUKS_VERSION_2).

Definition _fix_luks2_hdr_byte_order (h : luks2_hdr_t) : luks2_hdr_t :=
  mk_hdr2 (h_magic h) (vic_swap_u16 (h_version h)) (vic_swap_u64 (h_hdr_size h)) (vic_swap_u64 (h_seqid h)) (h_label h)
    (h_csum_alg h) (h_salt h) (h_uuid h) (h_subsystem h) (vic_swap_u64 (h_hdr_offset h)) (h_padding h) (h_csum h)
    (h_padding4096 h).

(** The offsets at which the secondary header can be, and the size of the JSON
    area that goes with each, in kilobytes. *)
Definition _sec_hdr_offsets : list (Z * Z) :=
  [(16384, 12); (32768, 28); (65536, 60); (131072, 124); (262144, 252); (524288, 508); (1048576, 1020);
   (2097152, 2044); (4194304, 4092)].

Definition _read_binary_hdr (dev : blockdev_t) (primary : bool) : option luks2_hdr_t :=
  let blkno := if primary then 0 else DEFAULT_HDR_SIZE / VIC_SECTOR_SIZE in
  match vic_blockdev_get dev blkno (sizeof_luks2_hdr / VIC_SECTOR_SIZE) with
  | (VIC_OK, blocks) =>
      let h := hdr2_of blocks in
      if _is_valid_luks2_hdr h true then Some (_fix_luks2_hdr_byte_order h) else None
  | _ => None
  end.

Definition _write_binary_hdr (dev : blockdev_t) (h : luks2_hdr_t) (primary : bool) : option blockdev_t :=
  let blkno := if primary then 0 else h_hdr_size h / VIC_SECTOR_SIZE in
  let blocks := hdr2_image (_fix_luks2_hdr_byte_order h) in
  match vic_blockdev_put dev blkno blocks (sizeof_luks2_hdr / VIC_SECTOR_SIZE) with
  | (VIC_OK, dev) => Some dev
  | _ => None
  end.

Definition _read_json_area (dev : blockdev_t) (h : luks2_hdr_t) (json_size : Z) : option (list Z) :=
  let blkno := u64 (sizeof_luks2_hdr + h_hdr_offset h) / VIC_SECTOR_SIZE in
  match vic_blockdev_get dev blkno (json_size / VIC_SECTOR_SIZE) with
  | (VIC_OK, data) => Some data
  | _ => None
  end.

Definition _write_json_area (dev : blockdev_t) (h : luks2_hdr_t) (json_data : list Z) (json_size : Z) : option blockdev_t :=
  let blkno := u64 (sizeof_luks2_hdr + h_hdr_offset h) / VIC_SECTOR_SIZE in
  match vic_blockdev_put dev blkno json_data (json_size / VIC_SECTOR_SIZE) with
  | (VIC_OK, dev) => Some dev
  | _ => None
  end.

Section Checksum.
Context `{Algorithms}.

(** The hash of the header, with a zero checksum, and of the JSON area. *)
Definition _calculate_csum (h : luks2_hdr_t) (json_data : list Z) : option (list Z) :=
  if bool_decide (json_data = []) then None
  else
    match vic_hash_size (cstr (h_csum_alg h)), vic_hash_type (cstr (h_csum_alg h)) with
    | None, _ | _, VIC_HASH_NONE => None
    | Some _, t => vic_hashv t [hdr2_image (_fix_luks2_hdr_byte_order (with_csum (replicate 64 0) h)); json_data]
    end.

(** [memcmp] of a hash with the start of the stored checksum. *)
Definition csum_matches (h : luks2_hdr_t) (hash : list Z) : bool := bool_decide (take (length hash) (h_csum h) = hash).
End Checksum.

(** ** Integers in memory *)

Lemma swap_u64_spec x : 0 <= x < 2 ^ 64 -> vic_swap_u64 x = le_value (be_bytes 8 x).
Proof.
  intros Hx. unfold vic_swap_u64, be_bytes, le_bytes. cbn [seq map rev app le_value].
  repeat match goal with |- context [8 * Z.of_nat ?n] => let v := eval cbv in (8 * Z.of_nat n) in
    change (8 * Z.of_nat n) with v end.
  rewrite (land_byte x 0xFF 0), (land_byte x 0xFF00 8), (land_byte x 0xFF0000 16), (land_byte x 0xFF000000 24),
    (land_byte x 0xFF00000000 32), (land_byte x 0xFF0000000000 40), (land_byte x 0xFF000000000000 48),
    (land_byte x 0xFF00000000000000 56) by (lia || done).
  rewrite Z.shiftl_0_r, (Z.shiftl_shiftl _ 8 40), (Z.shiftl_shiftl _ 16 24), (Z.shiftl_shiftl _ 24 8) by lia.
  rewrite !Z.shiftr_shiftl_l by lia.
  assert (forall y, 0 <= y mod 256 < 256) as Hb by (intros; apply Z.mod_pos_bound; lia).
  generalize (Hb (x / 2 ^ 0)), (Hb (x / 2 ^ 8)), (Hb (x / 2 ^ 16)), (Hb (x / 2 ^ 24)),
    (Hb (x / 2 ^ 32)), (Hb (x / 2 ^ 40)), (Hb (x / 2 ^ 48)), (Hb (x / 2 ^ 56)).
  generalize (x / 2 ^ 0 mod 256), (x / 2 ^ 8 mod 256), (x / 2 ^ 16 mod 256), (x / 2 ^ 24 mod 256),
    (x / 2 ^ 32 mod 256), (x / 2 ^ 40 mod 256), (x / 2 ^ 48 mod 256), (x / 2 ^ 56 mod 256).
  intros b0 b1 b2 b3 b4 b5 b6 b7 H0 H1 H2 H3 H4 H5 H6 H7.
  change (8 + 40) with 48. change (16 + 24) with 40. change (24 + 8) with 32. change (32 - 8) with 24.
  change (40 - 24) with 16. change (48 - 40) with 8. change (56 - 56) with 0. rewrite Z.shiftl_0_r.
  rewrite !Z.shiftl_mul_pow2 by lia. rewrite !u64_small by lia. rewrite <- !Z.lor_assoc.
  rewrite (lor_above b6 b7 8) by lia. rewrite (lor_above b5 _ 16) by lia. rewrite (lor_above b4 _ 24) by lia.
  rewrite (lor_above b3 _ 32) by lia. rewrite (lor_above b2 _ 40) by lia. rewrite (lor_above b1 _ 48) by lia.
  rewrite (lor_above b0 _ 56) by lia. lia.
Qed.

Lemma be_bytes_byte n x : Forall is_byte (be_bytes n x).
Proof. apply Forall_rev, le_bytes_byte. Qed.
Lemma be_bytes_length n x : length (be_bytes n x) = n.
Proof. unfold be_bytes. by rewrite length_rev, le_bytes_length. Qed.

Lemma swap_u64_range x : 0 <= x < 2 ^ 64 -> 0 <= vic_swap_u64 x < 2 ^ 64.
Proof.
  intros Hx. rewrite swap_u64_spec by done. pose proof (le_value_range (be_bytes 8 x) (be_bytes_byte 8 x)) as H.
  by rewrite be_bytes_length in H.
Qed.

(** On disk the bytes are those of the integer in the opposite order. *)
Lemma le_bytes_swap_u64 x : 0 <= x < 2 ^ 64 -> le_bytes 8 (vic_swap_u64 x) = be_bytes 8 x.
Proof.
  intros Hx. rewrite swap_u64_spec by done. rewrite <- (be_bytes_length 8 x) at 1. apply le_bytes_value, be_bytes_byte.
Qed.

Lemma swap_u64_involutive x : 0 <= x < 2 ^ 64 -> vic_swap_u64 (vic_swap_u64 x) = x.
Proof.
  intros Hx. rewrite (swap_u64_spec (vic_swap_u64 x)) by (by apply swap_u64_range).
  unfold be_bytes. rewrite le_bytes_swap_u64 by done. unfold be_bytes. rewrite rev_involutive. by apply le_value_bytes.
Qed.

(** ** The header in memory *)

Definition is_u64 (x : Z) : Prop := 0 <= x < 2 ^ 64.

Record hdr2_wf (h : luks2_hdr_t) : Prop := {
  w2_magic : length (h_magic h) = 6%nat; w2_version : 0 <= h_version h < 2 ^ 16; w2_size : is_u64 (h_hdr_size h);
  w2_seqid : is_u64 (h_seqid h); w2_label : length (h_label h) = 48%nat; w2_alg : length (h_csum_alg h) = 32%nat;
  w2_salt : length (h_salt h) = 64%nat; w2_uuid : length (h_uuid h) = 40%nat;
  w2_subsystem : length (h_subsystem h) = 48%nat; w2_offset : is_u64 (h_hdr_offset h);
  w2_padding : length (h_padding h) = 184%nat; w2_csum : length (h_csum h) = 64%nat;
  w2_padding4096 : length (h_padding4096 h) = 3584%nat }.

Lemma hdr2_image_length h : hdr2_wf h -> length (hdr2_image h) = 4096%nat.
Proof. intros []. unfold hdr2_image, hdr2_fields. cbn [concat]. rewrite !length_app, !le_bytes_length. cbn [length]. lia. Qed.

Lemma field_long (fs : list (list Z)) i x off :
  fs !! i = Some (le_bytes 8 x) -> off = length (concat (take i fs)) -> is_u64 x -> le_value (sub off 8 (concat fs)) = x.
Proof.
  intros Hi Ho Hx. rewrite (field_sub fs i _ off 8 Hi Ho) by (by rewrite le_bytes_length). by apply le_value_bytes.
Qed.

(** The offset of a field of the header. *)
Ltac field_off2 := unfold hdr2_fields; cbn [take concat]; rewrite ?length_app, ?le_bytes_length; cbn [length]; lia.

Lemma hdr2_of_image h : hdr2_wf h -> hdr2_of (hdr2_image h) = h.
Proof.
  intros Hh. pose proof Hh as [H1 H2 H3 H4 H5 H6 H7 H8 H9 H10 H11 H12 H13]. unfold hdr2_of, hdr2_image.
  rewrite (field_sub (hdr2_fields h) 0 (h_magic h)) by (done || field_off2).
  rewrite (field_sub (hdr2_fields h) 1 (le_bytes 2 (h_version h)) 6 2) by (done || field_off2 || (by rewrite le_bytes_length)).
  rewrite (field_long (hdr2_fields h) 2 (h_hdr_size h)) by (done || field_off2).
  rewrite (field_long (hdr2_fields h) 3 (h_seqid h)) by (done || field_off2).
  rewrite (field_sub (hdr2_fields h) 4 (h_label h)) by (done || field_off2).
  rewrite (field_sub (hdr2_fields h) 5 (h_csum_alg h)) by (done || field_off2).
  rewrite (field_sub (hdr2_fields h) 6 (h_salt h)) by (done || field_off2).
  rewrite (field_sub (hdr2_fields h) 7 (h_uuid h)) by (done || field_off2).
  rewrite (field_sub (hdr2_fields h) 8 (h_subsystem h)) by (done || field_off2).
  rewrite (field_long (hdr2_fields h) 9 (h_hdr_offset h)) by (done || field_off2).
  rewrite (field_sub (hdr2_fields h) 10 (h_padding h)) by (done || field_off2).
  rewrite (field_sub (hdr2_fields h) 11 (h_csum h)) by (done || field_off2).
  rewrite (field_sub (hdr2_fields h) 12 (h_padding4096 h)) by (done || field_off2).
  rewrite (le_value_bytes 2) by done. by destruct h.
Qed.

(** The headers that are written. *)
Definition hdr2_valid (h : luks2_hdr_t) : Prop :=
  hdr2_wf h /\ (h_magic h = _magic_1st \/ h_magic h = _magic_2nd) /\ h_version h = LUKS_VERSION_2.

Lemma fix2_wf h : hdr2_wf h -> h_version h = LUKS_VERSION_2 -> hdr2_wf (_fix_luks2_hdr_byte_order h).
Proof. intros [] Hv. split; simpl; try done; try (by apply swap_u64_range). by rewrite Hv. Qed.

Lemma fix2_involutive h :
  hdr2_wf h -> h_version h = LUKS_VERSION_2 -> _fix_luks2_hdr_byte_order (_fix_luks2_hdr_byte_order h) = h.
Proof.
  intros [] Hv. destruct h. unfold _fix_luks2_hdr_byte_order. simpl in *. rewrite !swap_u64_involutive by done.
  f_equal. by rewrite Hv.
Qed.

(** The format LUKS2 prescribes. *)
Definition disk_hdr2 (h : luks2_hdr_t) : list Z :=
  h_magic h ++ be_bytes 2 (h_version h) ++ be_bytes 8 (h_hdr_size h) ++ be_bytes 8 (h_seqid h) ++ h_label h ++
  h_csum_alg h ++ h_salt h ++ h_uuid h ++ h_subsystem h ++ be_bytes 8 (h_hdr_offset h) ++ h_padding h ++ h_csum h ++
  h_padding4096 h.

Lemma hdr2_image_disk h :
  hdr2_wf h -> h_version h = LUKS_VERSION_2 -> hdr2_image (_fix_luks2_hdr_byte_order h) = disk_hdr2 h.
Proof.
  intros [] Hv. unfold hdr2_image, hdr2_fields, disk_hdr2, _fix_luks2_hdr_byte_order.
  cbn [h_magic h_version h_hdr_size h_seqid h_label h_csum_alg h_salt h_uuid h_subsystem h_hdr_offset h_padding h_csum
    h_padding4096].
  rewrite Hv, !le_bytes_swap_u64 by done. cbn [concat]. by rewrite app_nil_r.
Qed.

(** ** Headers on a device *)

Definition holds_hdr2 (d : blockdev_t) (b : Z) (h : luks2_hdr_t) : Prop := vic_blockdev_get d b 8 = (VIC_OK, disk_hdr2 h).

Lemma read_held2 d (primary : bool) h :
  hdr2_valid h -> holds_hdr2 d (if primary then 0 else 32) h -> _read_binary_hdr d primary = Some h.
Proof.
  intros (Hw & Hm & Hv) Hh. unfold holds_hdr2 in Hh. rewrite <- hdr2_image_disk in Hh by done.
  unfold _read_binary_hdr. change (DEFAULT_HDR_SIZE / VIC_SECTOR_SIZE) with 32.
  change (sizeof_luks2_hdr / VIC_SECTOR_SIZE) with 8. rewrite Hh. cbv zeta.
  rewrite hdr2_of_image by (by apply fix2_wf). unfold _is_valid_luks2_hdr.
  assert (bool_decide (h_magic (_fix_luks2_hdr_byte_order h) = _magic_1st) ||
          bool_decide (h_magic (_fix_luks2_hdr_byte_order h) = _magic_2nd) = true) as ->.
  { apply orb_true_iff. simpl. destruct Hm as [-> | ->]; [left|right]; by apply bool_decide_true. }
  cbn [h_version _fix_luks2_hdr_byte_order]. rewrite Hv.
  change (vic_swap_u16 (vic_swap_u16 LUKS_VERSION_2) =? LUKS_VERSION_2) with true. cbn [andb].
  by rewrite fix2_involutive.
Qed.

(** ** Writing areas of blocks *)

Definition keeps (d d' : blockdev_t) (b n : Z) : Prop :=
  forall b' n', inside d b' n' -> b' + n' <= b \/ b + n <= b' -> vic_blockdev_get d' b' n' = vic_blockdev_get d b' n'.

(** A device that can be written in blocks of 512 bytes. *)
Record writable (d : blockdev_t) : Prop := { wr_ok : bd_ok d; wr_block : block_size d = 512; wr_create : create d = false;
  wr_write : can_write d = true }.

(** The same device with other contents. *)
Definition same_dev (d d' : blockdev_t) : Prop :=
  writable d' /\ offset d' = offset d /\ size d' = size d /\ full_size d' = full_size d.

Lemma put_blocks d b n data :
  writable d -> inside d b n -> Z.of_nat (length data) = n * 512 ->
  exists d', vic_blockdev_put d b data n = (VIC_OK, d') /\ same_dev d d' /\
    vic_blockdev_get d' b n = (VIC_OK, data) /\ keeps d d' b n.
Proof.
  intros [Hbd Hb Hc Hwr] (H0 & Hn & Hin) Hl.
  destruct (put_inside d b n data Hbd Hc Hwr H0 Hn) as (f & E & Hok & Hget & Hk); [by rewrite Hb|by rewrite Hb|].
  eexists. split; [exact E|]. split; [by split|]. split; [done|].
  intros b' n' (? & ? & ?) Hd. apply Hk; [done|done|by rewrite Hb|lia].
Qed.

Lemma same_dev_refl d : writable d -> same_dev d d.
Proof. done. Qed.
Lemma same_dev_trans d1 d2 d3 : same_dev d1 d2 -> same_dev d2 d3 -> same_dev d1 d3.
Proof. intros (_ & ? & ? & ?) (? & ? & ? & ?). split; [done|]. split_and!; congruence. Qed.
Lemma same_dev_inside d d' b n : same_dev d d' -> inside d b n -> inside d' b n.
Proof. intros (_ & Ho & Hs & _) (? & ? & ?). unfold inside. rewrite Ho, Hs. done. Qed.

Lemma write_binary d h (primary : bool) :
  let b := if primary then 0 else h_hdr_size h / 512 in
  writable d -> hdr2_valid h -> inside d b 8 ->
  exists d', _write_binary_hdr d h primary = Some d' /\ same_dev d d' /\ holds_hdr2 d' b h /\ keeps d d' b 8.
Proof.
  intros b Hd (Hw & Hm & Hv) Hin.
  destruct (put_blocks d b 8 (disk_hdr2 h) Hd Hin) as (d' & E & Hs & Hg & Hk).
  { rewrite <- hdr2_image_disk, hdr2_image_length by (done || by apply fix2_wf). done. }
  exists d'. unfold _write_binary_hdr. rewrite hdr2_image_disk by done.
  change (sizeof_luks2_hdr / VIC_SECTOR_SIZE) with 8. fold b. unfold VIC_SECTOR_SIZE in *. fold b. rewrite E. done.
Qed.

Lemma write_json d h data n :
  writable d -> is_u64 (4096 + h_hdr_offset h) -> (512 | h_hdr_offset h) -> 0 <= n ->
  let b := 8 + h_hdr_offset h / 512 in
  inside d b n -> Z.of_nat (length data) = n * 512 ->
  exists d', _write_json_area d h data (n * 512) = Some d' /\ same_dev d d' /\ keeps d d' b n /\
    _read_json_area d' h (n * 512) = Some data /\ vic_blockdev_get d' b n = (VIC_OK, data).
Proof.
  intros Hd Ho [q Hq] Hn b Hin Hl.
  destruct (put_blocks d b n data Hd Hin Hl) as (d' & E & Hs & Hg & Hk). exists d'.
  unfold _write_json_area, _read_json_area, sizeof_luks2_hdr, VIC_SECTOR_SIZE. rewrite u64_small by done.
  rewrite Z.div_mul by done. replace ((4096 + h_hdr_offset h) / 512) with b.
  - rewrite E, Hg. done.
  - unfold b. rewrite Hq. rewrite Z.div_mul by done. replace (4096 + q * 512) with ((8 + q) * 512) by lia.
    by rewrite Z.div_mul.
Qed.
