(* ===== verification/Luks2Json.v ===== *)
(** * Luks2Json: the JSON area of a LUKS2 volume (src/vicsetup/libvicsetup/luks2.c, luks2.h)

    The objects that describe a volume (keyslots, segments, digests, config),
    the callback that reads them from the parser's events and the functions that
    write them.  Character arrays hold a C string and are modelled by it.  The
    base 64 code of mbedTLS is a parameter. *)

From Stdlib Require Import String.
From S2P Require Import Prelude JsonText JsonParser JsonPrint JsonNumbers JsonComplete JsonFollow VicCrypto.

Definition LUKS2_NUM_KEYSLOTS : Z := 64.
Definition LUKS2_NUM_SEGMENTS : Z := 1.
Definition LUKS2_NUM_DIGESTS : Z := 65.
Definition LUKS_SALT_SIZE : nat := 32.
(** The sizes of the character arrays are all 32. *)
Definition LUKS2_TYPE_SIZE : nat := 32.

(** ** Objects *)

Record luks2_kdf_t : Type := mk_kdf {
  kdf_type : text; kdf_salt : list Z; kdf_hash : text; kdf_iterations : Z; kdf_time : Z; kdf_memory : Z; kdf_cpus : Z }.
Record luks2_af_t : Type := mk_af { af_type : text; af_hash : text; af_stripes : Z }.
Record luks2_area_t : Type := mk_area {
  area_type : text; area_encryption : text; area_key_size : Z; area_offset : Z; area_size : Z }.
Record luks2_keyslot_t : Type := mk_keyslot {
  ks_type : text; ks_key_size : Z; ks_kdf : luks2_kdf_t; ks_af : luks2_af_t; ks_area : luks2_area_t }.

Record luks2_integrity_t : Type := mk_integrity {
  int_type : text; journal_encryption : text; journal_integrity : text }.
Record luks2_segment_t : Type := mk_segment {
  seg_type : text; seg_offset : Z; seg_iv_tweak : Z; seg_size : Z; seg_encryption : text; seg_sector_size : Z;
  seg_integrity : luks2_integrity_t }.

Record luks2_digest_t : Type := mk_digest2 {
  dig_type : text; dig_keyslots : list Z; dig_segments : list Z; dig_hash : text; dig_iterations : Z;
  dig_salt : list Z; dig_digest : list Z }.

Record luks2_config_t : Type := mk_config2 { cfg_json_size : Z; cfg_keyslots_size : Z }.

(** The part of luks2_ext_hdr_t that the JSON area represents. *)
Record luks2_objects : Type := mk_objects {
  keyslots2 : list luks2_keyslot_t; segments2 : list luks2_segment_t; digests2 : list luks2_digest_t;
  config2 : luks2_config_t }.

(** Zeroed memory. *)
Definition zero_keyslot : luks2_keyslot_t :=
  mk_keyslot [] 0 (mk_kdf [] (replicate 32 0) [] 0 0 0 0) (mk_af [] [] 0) (mk_area [] [] 0 0 0).
Definition zero_segment : luks2_segment_t := mk_segment [] 0 0 0 [] 0 (mk_integrity [] [] []).
Definition zero_digest : luks2_digest_t :=
  mk_digest2 [] (replicate 64 0) (replicate 1 0) [] 0 (replicate 32 0) (replicate 64 0).
Definition zero_objects : luks2_objects :=
  mk_objects (replicate 64 zero_keyslot) (replicate 1 zero_segment) (replicate 65 zero_digest) (mk_config2 0 0).

(** Assignments to members. *)
Definition set_ks_type v k := mk_keyslot v (ks_key_size k) (ks_kdf k) (ks_af k) (ks_area k).
Definition set_ks_key_size v k := mk_keyslot (ks_type k) v (ks_kdf k) (ks_af k) (ks_area k).
Definition set_kdf (f : luks2_kdf_t -> luks2_kdf_t) k := mk_keyslot (ks_type k) (ks_key_size k) (f (ks_kdf k)) (ks_af k) (ks_area k).
Definition set_af (f : luks2_af_t -> luks2_af_t) k := mk_keyslot (ks_type k) (ks_key_size k) (ks_kdf k) (f (ks_af k)) (ks_area k).
Definition set_area (f : luks2_area_t -> luks2_area_t) k := mk_keyslot (ks_type k) (ks_key_size k) (ks_kdf k) (ks_af k) (f (ks_area k)).

Definition set_kdf_type v := set_kdf (fun k => mk_kdf v (kdf_salt k) (kdf_hash k) (kdf_iterations k) (kdf_time k) (kdf_memory k) (kdf_cpus k)).
Definition set_kdf_salt v := set_kdf (fun k => mk_kdf (kdf_type k) v (kdf_hash k) (kdf_iterations k) (kdf_time k) (kdf_memory k) (kdf_cpus k)).
Definition set_kdf_hash v := set_kdf (fun k => mk_kdf (kdf_type k) (kdf_salt k) v (kdf_iterations k) (kdf_time k) (kdf_memory k) (kdf_cpus k)).
Definition set_kdf_iterations v := set_kdf (fun k => mk_kdf (kdf_type k) (kdf_salt k) (kdf_hash k) v (kdf_time k) (kdf_memory k) (kdf_cpus k)).
Definition set_kdf_time v := set_kdf (fun k => mk_kdf (kdf_type k) (kdf_salt k) (kdf_hash k) (kdf_iterations k) v (kdf_memory k) (kdf_cpus k)).
Definition set_kdf_memory v := set_kdf (fun k => mk_kdf (kdf_type k) (kdf_salt k) (kdf_hash k) (kdf_iterations k) (kdf_time k) v (kdf_cpus k)).
Definition set_kdf_cpus v := set_kdf (fun k => mk_kdf (kdf_type k) (kdf_salt k) (kdf_hash k) (kdf_iterations k) (kdf_time k) (kdf_memory k) v).
Definition set_af_type v := set_af (fun a => mk_af v (af_hash a) (af_stripes a)).
Definition set_af_hash v := set_af (fun a => mk_af (af_type a) v (af_stripes a)).
Definition set_af_stripes v := set_af (fun a => mk_af (af_type a) (af_hash a) v).
Definition set_area_type v := set_area (fun a => mk_area v (area_encryption a) (area_key_size a) (area_offset a) (area_size a)).
Definition set_area_encryption v := set_area (fun a => mk_area (area_type a) v (area_key_size a) (area_offset a) (area_size a)).
Definition set_area_key_size v := set_area (fun a => mk_area (area_type a) (area_encryption a) v (area_offset a) (area_size a)).
Definition set_area_offset v := set_area (fun a => mk_area (area_type a) (area_encryption a) (area_key_size a) v (area_size a)).
Definition set_area_size v := set_area (fun a => mk_area (area_type a) (area_encryption a) (area_key_size a) (area_offset a) v).

Definition set_seg_type v s := mk_segment v (seg_offset s) (seg_iv_tweak s) (seg_size s) (seg_encryption s) (seg_sector_size s) (seg_integrity s).
Definition set_seg_offset v s := mk_segment (seg_type s) v (seg_iv_tweak s) (seg_size s) (seg_encryption s) (seg_sector_size s) (seg_integrity s).
Definition set_seg_iv_tweak v s := mk_segment (seg_type s) (seg_offset s) v (seg_size s) (seg_encryption s) (seg_sector_size s) (seg_integrity s).
Definition set_seg_size v s := mk_segment (seg_type s) (seg_offset s) (seg_iv_tweak s) v (seg_encryption s) (seg_sector_size s) (seg_integrity s).
Definition set_seg_encryption v s := mk_segment (seg_type s) (seg_offset s) (seg_iv_tweak s) (seg_size s) v (seg_sector_size s) (seg_integrity s).
Definition set_seg_sector_size v s := mk_segment (seg_type s) (seg_offset s) (seg_iv_tweak s) (seg_size s) (seg_encryption s) v (seg_integrity s).
Definition set_integrity (f : luks2_integrity_t -> luks2_integrity_t) s :=
  mk_segment (seg_type s) (seg_offset s) (seg_iv_tweak s) (seg_size s) (seg_encryption s) (seg_sector_size s) (f (seg_integrity s)).
Definition set_int_type v := set_integrity (fun i => mk_integrity v (journal_encryption i) (journal_integrity i)).
Definition set_journal_encryption v := set_integrity (fun i => mk_integrity (int_type i) v (journal_integrity i)).
Definition set_journal_integrity v := set_integrity (fun i => mk_integrity (int_type i) (journal_encryption i) v).

Definition set_dig_type v d := mk_digest2 v (dig_keyslots d) (dig_segments d) (dig_hash d) (dig_iterations d) (dig_salt d) (dig_digest d).
Definition set_dig_keyslots v d := mk_digest2 (dig_type d) v (dig_segments d) (dig_hash d) (dig_iterations d) (dig_salt d) (dig_digest d).
Definition set_dig_segments v d := mk_digest2 (dig_type d) (dig_keyslots d) v (dig_hash d) (dig_iterations d) (dig_salt d) (dig_digest d).
Definition set_dig_hash v d := mk_digest2 (dig_type d) (dig_keyslots d) (dig_segments d) v (dig_iterations d) (dig_salt d) (dig_digest d).
Definition set_dig_iterations v d := mk_digest2 (dig_type d) (dig_keyslots d) (dig_segments d) (dig_hash d) v (dig_salt d) (dig_digest d).
Definition set_dig_salt v d := mk_digest2 (dig_type d) (dig_keyslots d) (dig_segments d) (dig_hash d) (dig_iterations d) v (dig_digest d).
Definition set_dig_digest v d := mk_digest2 (dig_type d) (dig_keyslots d) (dig_segments d) (dig_hash d) (dig_iterations d) (dig_salt d) v.

Definition at_keyslot (i : Z) (f : luks2_keyslot_t -> luks2_keyslot_t) (o : luks2_objects) : luks2_objects :=
  mk_objects (alter f (Z.to_nat i) (keyslots2 o)) (segments2 o) (digests2 o) (config2 o).
Definition at_segment (i : Z) (f : luks2_segment_t -> luks2_segment_t) (o : luks2_objects) : luks2_objects :=
  mk_objects (keyslots2 o) (alter f (Z.to_nat i) (segments2 o)) (digests2 o) (config2 o).
Definition at_digest (i : Z) (f : luks2_digest_t -> luks2_digest_t) (o : luks2_objects) : luks2_objects :=
  mk_objects (keyslots2 o) (segments2 o) (alter f (Z.to_nat i) (digests2 o)) (config2 o).
Definition set_config (c : luks2_config_t) (o : luks2_objects) : luks2_objects :=
  mk_objects (keyslots2 o) (segments2 o) (digests2 o) c.

(** ** Numbers in strings *)

Fixpoint skip_isspace (s : text) : text :=
  match s with c :: s' => if (c =? 32) || ((9 <=? c) && (c <=? 13)) then skip_isspace s' else s | [] => [] end.
Fixpoint span_digits (s : text) : text * text :=
  match s with
  | c :: s' => if (48 <=? c) && (c <=? 57) then let '(ds, r) := span_digits s' in (c :: ds, r) else ([], s)
  | [] => ([], [])
  end.

(** [strtoull(s, &end, 10)]: the value and the string at [end]. *)
Definition strtoull (s : text) : Z * text :=
  let s1 := skip_isspace s in
  let '(neg, s2) := match s1 with c :: s' => if c =? 45 then (true, s') else if c =? 43 then (false, s') else (false, s1)
                                 | [] => (false, s1) end in
  match span_digits s2 with
  | ([], _) => (0, s)
  | (ds, rest) =>
      let v := decimal_value ds in
      (if 2 ^ 64 - 1 <? v then 2 ^ 64 - 1 else if (neg : bool) then u64 (- v) else v, rest)
  end.

(** The number and whether the return value is 0. *)
Definition _strtou64 (s : text) : Z * bool := let '(x, rest) := strtoull s in (x, bool_decide (rest = [])).

Definition _valid_pbkdf_type (s : text) : bool :=
  bool_decide (s = bytes "pbkdf2") || bool_decide (s = bytes "argon2i") || bool_decide (s = bytes "argon2id").

(** ** Base 64 *)

Definition base64_char (c : Z) : Prop :=
  48 <= c <= 57 \/ 65 <= c <= 90 \/ 97 <= c <= 122 \/ c = 43 \/ c = 47 \/ c = 61.

(** What is documented of mbedtls_base64_encode and mbedtls_base64_decode: the
    text is in the alphabet, and decoding undoes encoding. *)
Class Base64 : Type := {
  base64_encode : list Z -> text;
  base64_decode : text -> option (list Z);
  base64_encode_chars b : Forall base64_char (base64_encode b);
  base64_round_trip b : Forall is_byte b -> base64_decode (base64_encode b) = Some b }.

#[export] Instance json_type_eq_dec : EqDecision json_type.
Proof. solve_decision. Defined.

Section Json.
Context `{Base64}.

(** ** The handlers *)

(** What a handler is given: the number of the second name on the path, the type
    and the value. *)
Definition handler : Type := Z -> json_type -> value -> luks2_objects -> outcome (json_result * luks2_objects).

Section Fields.
Context {R : Type}.
(** The array of objects: its size and the assignment to one of them. *)
Variable count : Z.
Variable at_ : Z -> (R -> R) -> luks2_objects -> luks2_objects.

Definition guarded (want : json_type) (body : handler) : handler := fun i type v o =>
  if bool_decide (type <> want) || (count <=? i) then Done (JSON_TYPE_MISMATCH, o) else body i type v o.

Definition with_string (body : text -> Z -> luks2_objects -> outcome (json_result * luks2_objects)) : handler :=
  guarded JSON_TYPE_STRING (fun i _ v o =>
    match v with VString s => body s i o | _ => Failed (BadPointer 0) end).

(** vic_strlcpy and the test of its result. *)
Definition copy_string (set : text -> R -> R) (s : text) (i : Z) (o : luks2_objects) : json_result * luks2_objects :=
  let o' := at_ i (set (take (LUKS2_TYPE_SIZE - 1) s)) o in
  if decide (LUKS2_TYPE_SIZE <= length s)%nat then (JSON_BUFFER_OVERFLOW, o') else (JSON_OK, o').

Definition string_field (set : text -> R -> R) : handler :=
  with_string (fun s i o => Done (copy_string set s i o)).

Definition integer_field (set : Z -> R -> R) : handler :=
  guarded JSON_TYPE_INTEGER (fun i _ v o =>
    match v with VInt z => Done (JSON_OK, at_ i (set (u64 z)) o) | _ => Failed (BadPointer 0) end).

Definition u64_field (set : Z -> R -> R) : handler :=
  with_string (fun s i o =>
    let '(x, ok) := _strtou64 s in
    Done (if (ok : bool) then JSON_OK else JSON_TYPE_MISMATCH, at_ i (set x) o)).

(** The string must be [want]. *)
Definition only (want : text) (set : text -> R -> R) : handler :=
  with_string (fun s i o =>
    if bool_decide (s = want) then Done (copy_string set s i o) else Done (JSON_UNSUPPORTED, o)).

(** A salt: base 64 of exactly 32 bytes (what a failed call leaves in the object
    is not looked at). *)
Definition salt_field (set : list Z -> R -> R) : handler :=
  with_string (fun s i o =>
    match base64_decode s with
    | Some b => if decide (length b = LUKS_SALT_SIZE) then Done (JSON_OK, at_ i (set b) o) else Done (JSON_TYPE_MISMATCH, o)
    | None => Done (JSON_TYPE_MISMATCH, o)
    end).
End Fields.

Definition keyslot_handlers : list (string * handler) :=
  let c := LUKS2_NUM_KEYSLOTS in let k := at_keyslot in
  [("keyslots.#.type", string_field c k set_ks_type);
   ("keyslots.#.key_size", integer_field c k set_ks_key_size)]%string.

Definition kdf_type_field : handler :=
  with_string LUKS2_NUM_KEYSLOTS (fun s i o =>
    let '(r, o) := copy_string at_keyslot set_kdf_type s i o in
    Done (if decide (r = JSON_OK) then if _valid_pbkdf_type s then JSON_OK else JSON_UNSUPPORTED else r, o)).

Definition kdf_handlers : list (string * handler) :=
  let c := LUKS2_NUM_KEYSLOTS in let k := at_keyslot in
  [("keyslots.#.kdf.type", kdf_type_field);
   ("keyslots.#.kdf.time", integer_field c k set_kdf_time);
   ("keyslots.#.kdf.memory", integer_field c k set_kdf_memory);
   ("keyslots.#.kdf.hash", string_field c k set_kdf_hash);
   ("keyslots.#.kdf.iterations", integer_field c k set_kdf_iterations);
   ("keyslots.#.kdf.cpus", integer_field c k set_kdf_cpus);
   ("keyslots.#.kdf.salt", salt_field c k set_kdf_salt)]%string.

Definition af_handlers : list (string * handler) :=
  let c := LUKS2_NUM_KEYSLOTS in let k := at_keyslot in
  [("keyslots.#.af.type", string_field c k set_af_type);
   ("keyslots.#.af.hash", string_field c k set_af_hash);
   ("keyslots.#.af.stripes", integer_field c k set_af_stripes)]%string.

Definition area_handlers : list (string * handler) :=
  let c := LUKS2_NUM_KEYSLOTS in let k := at_keyslot in
  [("keyslots.#.area.type", string_field c k set_area_type);
   ("keyslots.#.area.encryption", string_field c k set_area_encryption);
   ("keyslots.#.area.key_size", integer_field c k set_area_key_size);
   ("keyslots.#.area.offset", u64_field c k set_area_offset);
   ("keyslots.#.area.size", u64_field c k set_area_size)]%string.

Definition segment_size_field : handler :=
  with_string LUKS2_NUM_SEGMENTS (fun s i o =>
    if bool_decide (s = bytes "dynamic") then Done (JSON_OK, at_segment i (set_seg_size (2 ^ 64 - 1)) o)
    else
      let '(x, ok) := _strtou64 s in
      Done (if (ok : bool) then JSON_OK else JSON_TYPE_MISMATCH, at_segment i (set_seg_size x) o)).

Definition segment_handlers : list (string * handler) :=
  let c := LUKS2_NUM_SEGMENTS in let s := at_segment in
  [("segments.#.type", string_field c s set_seg_type);
   ("segments.#.offset", u64_field c s set_seg_offset);
   ("segments.#.iv_tweak", u64_field c s set_seg_iv_tweak);
   ("segments.#.size", segment_size_field);
   ("segments.#.encryption", string_field c s set_seg_encryption);
   ("segments.#.sector_size", integer_field c s set_seg_sector_size);
   ("segments.#.integrity.type", string_field c s set_int_type);
   ("segments.#.integrity.journal_encryption", only c s (bytes "none") set_journal_encryption);
   ("segments.#.integrity.journal_integrity", only c s (bytes "none") set_journal_integrity)]%string.

(** An entry of one of the lists of a digest. *)
Definition mark_field (get : luks2_digest_t -> list Z) (set : list Z -> luks2_digest_t -> luks2_digest_t) (size : Z) :
    handler :=
  with_string LUKS2_NUM_DIGESTS (fun s i o =>
    let '(n, ok) := _strtou64 s in
    if negb ok then Done (JSON_TYPE_MISMATCH, o)
    else if size <=? n then Done (JSON_OUT_OF_BOUNDS, o)
    else Done (JSON_OK, at_digest i (fun d => set (<[Z.to_nat n := 1]> (get d)) d) o)).

(** The digest: as long as its hash says, which must have been read before. *)
Definition digest_field : handler :=
  with_string LUKS2_NUM_DIGESTS (fun s i o =>
    match base64_decode s, digests2 o !! Z.to_nat i with
    | Some b, Some d =>
        if decide (length b <= 64)%nat then
          if bool_decide (vic_hash_size (dig_hash d) = Some (Z.of_nat (length b))) then
            Done (JSON_OK, at_digest i (fun d => set_dig_digest (b ++ drop (length b) (dig_digest d)) d) o)
          else Done (JSON_TYPE_MISMATCH, o)
        else Done (JSON_TYPE_MISMATCH, o)
    | _, _ => Done (JSON_TYPE_MISMATCH, o)
    end).

Definition digest_handlers : list (string * handler) :=
  let c := LUKS2_NUM_DIGESTS in let d := at_digest in
  [("digests.#.type", only c d (bytes "pbkdf2") set_dig_type);
   ("digests.#.keyslots", mark_field dig_keyslots set_dig_keyslots 64);
   ("digests.#.segments", mark_field dig_segments set_dig_segments 1);
   ("digests.#.hash", string_field c d set_dig_hash);
   ("digests.#.iterations", integer_field c d set_dig_iterations);
   ("digests.#.salt", salt_field c d set_dig_salt);
   ("digests.#.digest", digest_field)]%string.

(** The type is not checked: a value that is not a string is taken for a
    pointer. *)
Definition config_field (set : Z -> luks2_config_t -> luks2_config_t) : handler := fun _ _ v o =>
  match v with
  | VString s =>
      let '(x, ok) := _strtou64 s in
      Done (if (ok : bool) then JSON_OK else JSON_TYPE_MISMATCH, set_config (set x (config2 o)) o)
  | _ => Failed (BadPointer 0)
  end.

Definition config_handlers : list (string * handler) :=
  [("config.json_size", config_field (fun x c => mk_config2 x (cfg_keyslots_size c)));
   ("config.keyslots_size", config_field (fun x c => mk_config2 (cfg_json_size c) x))]%string.

Definition handlers2 : list (string * handler) :=
  keyslot_handlers ++ kdf_handlers ++ af_handlers ++ area_handlers ++ segment_handlers ++ digest_handlers ++
  config_handlers.

(** ** The callback *)

(** json_callback_data_t.  Its [path] is written and never read. *)
Record callback2 : Type := mk_callback2 { cb_objects : luks2_objects; cb_level : nat }.

(** parser->path[1].number *)
Definition second_number (q : json_parser) : Z := match path q !! 1%nat with Some n => node_number n | None => 0 end.

(** The chain of [json_match]es. *)
Fixpoint first_handler (q : json_parser) (t : text) (type : json_type) (v : value) (hs : list (string * handler))
    (st : json_result * callback2) : outcome (json_result * (json_result * callback2)) :=
  match hs with
  | [] => Done (JSON_UNKNOWN_VALUE, st)
  | (p, h) :: hs' =>
      '(r, err) ← json_match false (Some q) t (Some (cstring p));
      let e := default st.1 err in
      if decide (r = JSON_OK) then
        '(r, o) ← h (second_number q) type v (cb_objects st.2); Done (r, (e, mk_callback2 o (cb_level st.2)))
      else first_handler q t type v hs' (e, st.2)
  end.

Definition _json_read_callback (q : json_parser) (t : text) (reason : json_reason) (type : json_type) (un : json_union)
    (st : json_result * callback2) : outcome (json_result * (json_result * callback2)) :=
  let d := st.2 in
  let enter n := (st.1, mk_callback2 (cb_objects d) n) in
  match reason with
  | JSON_REASON_NONE => Failed Assertion
  | JSON_REASON_NAME => if decide (cb_level d = 0%nat) then Failed Assertion else Done (JSON_OK, st)
  | JSON_REASON_BEGIN_OBJECT =>
      if decide (cb_level d = 64%nat) then Done (JSON_NESTING_OVERFLOW, st) else Done (JSON_OK, enter (S (cb_level d)))
  | JSON_REASON_END_OBJECT =>
      match cb_level d with O => Done (JSON_NESTING_UNDERFLOW, st) | S n => Done (JSON_OK, enter n) end
  | JSON_REASON_BEGIN_ARRAY | JSON_REASON_END_ARRAY => Done (JSON_OK, st)
  | JSON_REASON_VALUE => v ← read_union t un; first_handler q t type v handlers2 st
  end.

(** ** Writing *)

(** What is printed between the parts: nothing, or a space and a newline. *)
Record traits_t : Type := mk_traits { sp : text; nl : text }.

(** "%lu" and "%zu" *)
Definition lu (x : Z) : text := unsigned_digits x.
Definition q_ : text := [34].

Definition _indent (n : nat) (t : traits_t) : text := concat (replicate n (sp t ++ sp t)).

Definition _put_str_field (name : string) (v comma : text) (t : traits_t) : outcome text :=
  s ← json_print_value (v ++ [0]) JSON_TYPE_STRING (U_string 0);
  Done (q_ ++ bytes name ++ q_ ++ [58] ++ sp t ++ s ++ comma ++ nl t).

(** The buffer has 128 bytes. *)
Definition _put_base64_field (name : string) (data : list Z) (comma : text) (t : traits_t) : outcome text :=
  if 128 <? 4 * ((Z.of_nat (length data) + 2) / 3) + 1 then Failed Assertion
  else
    s ← json_print_value (base64_encode data ++ [0]) JSON_TYPE_STRING (U_string 0);
    Done (q_ ++ bytes name ++ q_ ++ [58] ++ sp t ++ s ++ comma ++ nl t).

(** [fprintf(os, "\"name\":%s%lu,%s", ...)] and the same with the number in
    quotes. *)
Definition put_number (name : string) (x : Z) (comma : text) (t : traits_t) : text :=
  q_ ++ bytes name ++ q_ ++ [58] ++ sp t ++ lu x ++ comma ++ nl t.
Definition put_quoted (name : string) (x : Z) (comma : text) (t : traits_t) : text :=
  q_ ++ bytes name ++ q_ ++ [58] ++ sp t ++ q_ ++ lu x ++ q_ ++ comma ++ nl t.
Definition put_open (name : text) (bracket : Z) (t : traits_t) : text := q_ ++ name ++ q_ ++ [58] ++ sp t ++ [bracket] ++ nl t.

Definition _dump_kdf (p : luks2_keyslot_t) (indent : nat) (t : traits_t) : outcome text :=
  let k := ks_kdf p in
  f1 ← _put_str_field "type" (kdf_type k) [44] t;
  f2 ← (if bool_decide (kdf_type k = bytes "pbkdf2") then
          h ← _put_str_field "hash" (kdf_hash k) [44] t;
          Done (_indent (S indent) t ++ put_number "iterations" (kdf_iterations k) [44] t ++ _indent (S indent) t ++ h)
        else if bool_decide (kdf_type k = bytes "argon2i") || bool_decide (kdf_type k = bytes "argon2id") then
          Done (_indent (S indent) t ++ put_number "time" (kdf_time k) [44] t ++
                _indent (S indent) t ++ put_number "memory" (kdf_memory k) [44] t ++
                _indent (S indent) t ++ put_number "cpus" (kdf_cpus k) [44] t)
        else Done []);
  f3 ← _put_base64_field "salt" (kdf_salt k) [] t;
  Done (_indent indent t ++ put_open (bytes "kdf") 123 t ++ _indent (S indent) t ++ f1 ++ f2 ++ _indent (S indent) t ++ f3 ++
        _indent indent t ++ [125; 44] ++ nl t).

Definition _dump_af (p : luks2_keyslot_t) (indent : nat) (t : traits_t) : outcome text :=
  let a := ks_af p in
  f1 ← _put_str_field "type" (af_type a) [44] t;
  f2 ← _put_str_field "hash" (af_hash a) [44] t;
  Done (_indent indent t ++ put_open (bytes "af") 123 t ++ _indent (S indent) t ++ f1 ++ _indent (S indent) t ++ f2 ++
        _indent (S indent) t ++ put_number "stripes" (af_stripes a) [] t ++ _indent indent t ++ [125; 44] ++ nl t).

Definition _dump_area (p : luks2_keyslot_t) (indent : nat) (t : traits_t) : outcome text :=
  let a := ks_area p in
  f1 ← _put_str_field "type" (area_type a) [44] t;
  f2 ← _put_str_field "encryption" (area_encryption a) [44] t;
  Done (_indent indent t ++ put_open (bytes "area") 123 t ++ _indent (S indent) t ++ f1 ++ _indent (S indent) t ++ f2 ++
        _indent (S indent) t ++ put_number "key_size" (area_key_size a) [44] t ++
        _indent (S indent) t ++ put_quoted "offset" (area_offset a) [44] t ++
        _indent (S indent) t ++ put_quoted "size" (area_size a) [] t ++ _indent indent t ++ [125] ++ nl t).

Definition _dump_keyslot (p : luks2_keyslot_t) (index : nat) (indent : nat) (comma : text) (t : traits_t) : outcome text :=
  f1 ← _put_str_field "type" (ks_type p) [44] t;
  f2 ← _dump_kdf p (S indent) t;
  f3 ← _dump_af p (S indent) t;
  f4 ← _dump_area p (S indent) t;
  Done (_indent indent t ++ put_open (lu (Z.of_nat index)) 123 t ++ _indent (S indent) t ++ f1 ++
        _indent (S indent) t ++ put_number "key_size" (ks_key_size p) [44] t ++ f2 ++ f3 ++ f4 ++
        _indent indent t ++ [125] ++ comma ++ nl t).

Definition _dump_segment (p : luks2_segment_t) (index : nat) (indent : nat) (comma : text) (t : traits_t) : outcome text :=
  let i := seg_integrity p in
  f1 ← _put_str_field "type" (seg_type p) [44] t;
  f2 ← _put_str_field "encryption" (seg_encryption p) [44] t;
  f3 ← (if bool_decide (int_type i = []) then Done []
        else
          g1 ← _put_str_field "type" (int_type i) [44] t;
          g2 ← _put_str_field "journal_encryption" (journal_encryption i) [44] t;
          g3 ← _put_str_field "journal_integrity" (journal_integrity i) [] t;
          Done (_indent (S indent) t ++ put_open (bytes "integrity") 123 t ++ _indent (S (S indent)) t ++ g1 ++
                _indent (S (S indent)) t ++ g2 ++ _indent (S (S indent)) t ++ g3 ++ _indent (S indent) t ++ [125] ++ nl t));
  Done (_indent indent t ++ put_open (lu (Z.of_nat index)) 123 t ++ _indent (S indent) t ++ f1 ++
        _indent (S indent) t ++ put_quoted "offset" (seg_offset p) [44] t ++
        _indent (S indent) t ++ put_quoted "iv_tweak" (seg_iv_tweak p) [44] t ++
        _indent (S indent) t ++
        (if seg_size p =? 2 ^ 64 - 1 then q_ ++ bytes "size" ++ q_ ++ [58] ++ sp t ++ q_ ++ bytes "dynamic" ++ q_ ++ [44] ++ nl t
         else put_quoted "size" (seg_size p) [44] t) ++
        _indent (S indent) t ++ f2 ++
        _indent (S indent) t ++ put_number "sector_size" (seg_sector_size p) (if bool_decide (int_type i = []) then [] else [44]) t ++
        f3 ++ _indent indent t ++ [125] ++ comma ++ nl t).

(** The positions of the entries that are set. *)
Definition marked (l : list Z) : list nat := filter (fun i => default 0 (l !! i) <> 0) (seq 0 (length l)).

(** The loops that print a comma after every item but the last. *)
Fixpoint comma_loop {A} (print : A -> text -> outcome text) (l : list A) : outcome text :=
  match l with
  | [] => Done []
  | x :: l' =>
      s ← print x (match l' with [] => [] | _ => [44] end);
      r ← comma_loop print l';
      Done (s ++ r)
  end.

Definition _dump_marks (name : string) (l : list Z) (indent : nat) (t : traits_t) : outcome text :=
  s ← comma_loop (fun i comma => Done (_indent (S indent) t ++ q_ ++ lu (Z.of_nat i) ++ q_ ++ comma ++ nl t)) (marked l);
  Done (_indent indent t ++ put_open (bytes name) 91 t ++ s ++ _indent indent t ++ [93; 44] ++ nl t).

Definition _dump_digest (p : luks2_digest_t) (index : nat) (indent : nat) (comma : text) (t : traits_t) : outcome text :=
  f1 ← _put_str_field "type" (dig_type p) [44] t;
  f2 ← _dump_marks "keyslots" (dig_keyslots p) (S indent) t;
  f3 ← _dump_marks "segments" (dig_segments p) (S indent) t;
  f4 ← _put_str_field "hash" (dig_hash p) [44] t;
  f5 ← _put_base64_field "salt" (dig_salt p) [44] t;
  match vic_hash_size (dig_hash p) with
  | None => Failed Assertion
  | Some digest_size =>
      f6 ← _put_base64_field "digest" (take (Z.to_nat digest_size) (dig_digest p)) [] t;
      Done (_indent indent t ++ put_open (lu (Z.of_nat index)) 123 t ++ _indent (S indent) t ++ f1 ++ f2 ++ f3 ++
            _indent (S indent) t ++ f4 ++
            _indent (S indent) t ++ put_number "iterations" (dig_iterations p) [44] t ++
            _indent (S indent) t ++ f5 ++ _indent (S indent) t ++ f6 ++ _indent indent t ++ [125] ++ comma ++ nl t)
  end.

(** The objects of an array that are in use, with their indices. *)
Definition used {R} (type : R -> text) (l : list R) : list (nat * R) :=
  filter (fun p => type p.2 <> []) (imap (fun i x => (i, x)) l).

(** One of the members of the document that hold numbered objects. *)
Definition _dump_section {R} (name : string) (type : R -> text)
    (dump : R -> nat -> nat -> text -> traits_t -> outcome text) (l : list R) (indent : nat) (t : traits_t) : outcome text :=
  s ← comma_loop (fun p comma => dump p.2 p.1 (S indent) comma t) (used type l);
  Done (_indent indent t ++ put_open (bytes name) 123 t ++ s ++ _indent indent t ++ [125; 44] ++ nl t).

Definition _dump_json_objects (o : luks2_objects) (indent : nat) (t : traits_t) : outcome text :=
  f1 ← _dump_section "keyslots" ks_type _dump_keyslot (keyslots2 o) (S indent) t;
  let f2 := _indent (S indent) t ++ put_open (bytes "tokens") 123 t ++ _indent (S indent) t ++ [125; 44] ++ nl t in
  f3 ← _dump_section "segments" seg_type _dump_segment (segments2 o) (S indent) t;
  f4 ← _dump_section "digests" dig_type _dump_digest (digests2 o) (S indent) t;
  let f5 := _indent (S indent) t ++ put_open (bytes "config") 123 t ++
            _indent (S (S indent)) t ++ put_quoted "json_size" (cfg_json_size (config2 o)) [44] t ++
            _indent (S (S indent)) t ++ put_quoted "keyslots_size" (cfg_keyslots_size (config2 o)) [] t ++
            _indent (S indent) t ++ [125] ++ nl t in
  Done (_indent indent t ++ [123] ++ nl t ++ f1 ++ f2 ++ f3 ++ f4 ++ f5 ++ _indent indent t ++ [125] ++ nl t).

(** [_to_json] (the stream in memory can always grow). *)
Definition _to_json (o : luks2_objects) : outcome text := _dump_json_objects o 0 (mk_traits [] []).
End Json.
