(* ===== verification/Luks2Doc.v ===== *)
(** * Luks2Doc: the JSON area is the text of a document

    The document of a volume's objects, what objects can be stored in one, and
    the theorem that [_to_json] writes its compact text. *)

From Stdlib Require Import String.
From S2P Require Import Prelude JsonText JsonParser JsonPrint JsonNumbers JsonStrings JsonComplete VicCrypto Luks2Json.

(** ** Documents *)

Definition number_doc (x : Z) : json := JString (lu x).

Section Documents.
Context `{Base64}.

Definition kdf_params (k : luks2_kdf_t) : list (text * json) :=
  if bool_decide (kdf_type k = bytes "pbkdf2") then
    [(bytes "iterations", JInt (kdf_iterations k)); (bytes "hash", JString (kdf_hash k))]
  else [(bytes "time", JInt (kdf_time k)); (bytes "memory", JInt (kdf_memory k)); (bytes "cpus", JInt (kdf_cpus k))].

Definition kdf_doc (k : luks2_kdf_t) : json :=
  JObject ((bytes "type", JString (kdf_type k)) :: kdf_params k ++ [(bytes "salt", JString (base64_encode (kdf_salt k)))]).
Definition af_doc (a : luks2_af_t) : json :=
  JObject [(bytes "type", JString (af_type a)); (bytes "hash", JString (af_hash a)); (bytes "stripes", JInt (af_stripes a))].
Definition area_doc (a : luks2_area_t) : json :=
  JObject [(bytes "type", JString (area_type a)); (bytes "encryption", JString (area_encryption a));
           (bytes "key_size", JInt (area_key_size a)); (bytes "offset", number_doc (area_offset a));
           (bytes "size", number_doc (area_size a))].
Definition keyslot_doc (k : luks2_keyslot_t) : json :=
  JObject [(bytes "type", JString (ks_type k)); (bytes "key_size", JInt (ks_key_size k)); (bytes "kdf", kdf_doc (ks_kdf k));
           (bytes "af", af_doc (ks_af k)); (bytes "area", area_doc (ks_area k))].

Definition integrity_members (i : luks2_integrity_t) : list (text * json) :=
  if bool_decide (int_type i = []) then []
  else [(bytes "integrity", JObject [(bytes "type", JString (int_type i));
           (bytes "journal_encryption", JString (journal_encryption i));
           (bytes "journal_integrity", JString (journal_integrity i))])].
Definition segment_doc (s : luks2_segment_t) : json :=
  JObject ([(bytes "type", JString (seg_type s)); (bytes "offset", number_doc (seg_offset s));
            (bytes "iv_tweak", number_doc (seg_iv_tweak s));
            (bytes "size", if seg_size s =? 2 ^ 64 - 1 then JString (bytes "dynamic") else number_doc (seg_size s));
            (bytes "encryption", JString (seg_encryption s)); (bytes "sector_size", JInt (seg_sector_size s))] ++
           integrity_members (seg_integrity s)).

Definition marks_doc (l : list Z) : json := JArray (map (fun i => number_doc (Z.of_nat i)) (marked l)).
Definition hash_bytes (h : text) : nat := match vic_hash_size h with Some n => Z.to_nat n | None => 0 end.
Definition digest_doc (d : luks2_digest_t) : json :=
  JObject [(bytes "type", JString (dig_type d)); (bytes "keyslots", marks_doc (dig_keyslots d));
           (bytes "segments", marks_doc (dig_segments d)); (bytes "hash", JString (dig_hash d));
           (bytes "iterations", JInt (dig_iterations d)); (bytes "salt", JString (base64_encode (dig_salt d)));
           (bytes "digest", JString (base64_encode (take (hash_bytes (dig_hash d)) (dig_digest d))))].

Definition config_doc2 (c : luks2_config_t) : json :=
  JObject [(bytes "json_size", number_doc (cfg_json_size c)); (bytes "keyslots_size", number_doc (cfg_keyslots_size c))].

(** Objects by their number. *)
Definition numbered_members {R} (doc : R -> json) (l : list (nat * R)) : list (text * json) :=
  map (fun p => (lu (Z.of_nat p.1), doc p.2)) l.

Definition objects_members (o : luks2_objects) : list (text * json) :=
  [(bytes "keyslots", JObject (numbered_members keyslot_doc (used ks_type (keyslots2 o))));
   (bytes "tokens", JObject []);
   (bytes "segments", JObject (numbered_members segment_doc (used seg_type (segments2 o))));
   (bytes "digests", JObject (numbered_members digest_doc (used dig_type (digests2 o))));
   (bytes "config", config_doc2 (config2 o))].

(** ** What can be stored *)

(** A string that fits its array and is printed and read faithfully. *)
Definition text_ok (s : text) : Prop := (length s < 32)%nat /\ forallb reversible s = true.
(** An integer that is written as a number: libjson's integers are signed. *)
Definition int_ok (x : Z) : Prop := 0 <= x < 2 ^ 63.
(** An integer that is written as a string. *)
Definition long_ok (x : Z) : Prop := 0 <= x < 2 ^ 64.
Definition bytes_ok (n : nat) (b : list Z) : Prop := length b = n /\ Forall is_byte b.

Record kdf_ok (k : luks2_kdf_t) : Prop := {
  ko_type : _valid_pbkdf_type (kdf_type k) = true; ko_salt : bytes_ok 32 (kdf_salt k); ko_hash : text_ok (kdf_hash k);
  ko_iterations : int_ok (kdf_iterations k); ko_time : int_ok (kdf_time k); ko_memory : int_ok (kdf_memory k);
  ko_cpus : int_ok (kdf_cpus k);
  (* only the parameters of the type are kept *)
  ko_params : if bool_decide (kdf_type k = bytes "pbkdf2") then kdf_time k = 0 /\ kdf_memory k = 0 /\ kdf_cpus k = 0
              else kdf_iterations k = 0 /\ kdf_hash k = [] }.

Record keyslot_ok (k : luks2_keyslot_t) : Prop := {
  so_type : text_ok (ks_type k) /\ ks_type k <> []; so_key_size : int_ok (ks_key_size k); so_kdf : kdf_ok (ks_kdf k);
  so_af_type : text_ok (af_type (ks_af k)); so_af_hash : text_ok (af_hash (ks_af k));
  so_stripes : int_ok (af_stripes (ks_af k));
  so_area_type : text_ok (area_type (ks_area k)); so_encryption : text_ok (area_encryption (ks_area k));
  so_area_key : int_ok (area_key_size (ks_area k)); so_offset : long_ok (area_offset (ks_area k));
  so_size : long_ok (area_size (ks_area k)) }.

Record segment_ok (s : luks2_segment_t) : Prop := {
  go_type : text_ok (seg_type s) /\ seg_type s <> []; go_offset : long_ok (seg_offset s);
  go_tweak : long_ok (seg_iv_tweak s); go_size : long_ok (seg_size s); go_encryption : text_ok (seg_encryption s);
  go_sector : int_ok (seg_sector_size s); go_int_type : text_ok (int_type (seg_integrity s));
  go_integrity : if bool_decide (int_type (seg_integrity s) = []) then seg_integrity s = mk_integrity [] [] []
                 else journal_encryption (seg_integrity s) = bytes "none" /\
                      journal_integrity (seg_integrity s) = bytes "none" }.

Definition marks_ok (n : nat) (l : list Z) : Prop := length l = n /\ Forall (fun x => x = 0 \/ x = 1) l.

Record digest_ok (d : luks2_digest_t) : Prop := {
  do_type : dig_type d = bytes "pbkdf2"; do_keyslots : marks_ok 64 (dig_keyslots d);
  do_segments : marks_ok 1 (dig_segments d); do_hash : text_ok (dig_hash d) /\ vic_hash_size (dig_hash d) <> None;
  do_iterations : int_ok (dig_iterations d); do_salt : bytes_ok 32 (dig_salt d);
  do_digest : bytes_ok 64 (dig_digest d) /\
    drop (hash_bytes (dig_hash d)) (dig_digest d) = replicate (64 - hash_bytes (dig_hash d)) 0 }.

(** Every object is in use and well formed, or zero. *)
Record objects_ok (o : luks2_objects) : Prop := {
  oo_keyslots : length (keyslots2 o) = 64%nat /\ Forall (fun k => k = zero_keyslot \/ keyslot_ok k) (keyslots2 o);
  oo_segments : length (segments2 o) = 1%nat /\ Forall (fun s => s = zero_segment \/ segment_ok s) (segments2 o);
  oo_digests : length (digests2 o) = 65%nat /\ Forall (fun d => d = zero_digest \/ digest_ok d) (digests2 o);
  oo_json_size : long_ok (cfg_json_size (config2 o)); oo_keyslots_size : long_ok (cfg_keyslots_size (config2 o)) }.

(** ** Text *)

Abbreviation compact := (mk_traits [] []).

Lemma indent_compact n : _indent n compact = [].
Proof. unfold _indent. simpl. induction n as [|n IH]; [done|]. simpl. done. Qed.

(** Characters that are written as they are. *)
Definition plain_char (c : Z) : bool := bool_decide (print_char c = [c]).

Lemma quoted_plain k : forallb plain_char k = true -> quoted k = q_ ++ k ++ q_.
Proof.
  intros Hk. unfold quoted, q_. cbn [app]. do 2 f_equal. induction k as [|c k IH]; [done|]. cbn [forallb] in Hk.
  rewrite andb_true_iff in Hk. destruct Hk as [Hc Hk]. change (printed (c :: k)) with (print_char c ++ printed k).
  rewrite IH by done. unfold plain_char in Hc. rewrite bool_decide_eq_true in Hc. by rewrite Hc.
Qed.

Lemma digit_plain c : is_dec c -> plain_char c = true.
Proof.
  unfold is_dec. intros Hc. assert (0 <= c < 256) as Hb by lia.
  pose proof (all_bytes (fun c => negb ((48 <=? c) && (c <=? 57)) || plain_char c) ltac:(vm_compute; done) c Hb) as Hall.
  cbv beta in Hall. apply orb_true_iff in Hall as [Hall|Hall]; [lia|done].
Qed.

Lemma lu_plain x : forallb plain_char (lu x) = true.
Proof.
  apply forallb_forall. intros c Hc. apply digit_plain. pose proof (unsigned_digits_dec x) as Hd.
  rewrite Forall_forall in Hd. by apply Hd, list_elem_of_In.
Qed.

Lemma lu_reversible x : forallb reversible (lu x) = true.
Proof.
  apply forallb_forall. intros c Hc. pose proof (unsigned_digits_dec x) as Hd. rewrite Forall_forall in Hd.
  specialize (Hd c (proj2 (list_elem_of_In _ _) Hc)). unfold is_dec in Hd.
  pose proof (all_bytes (fun c => negb ((48 <=? c) && (c <=? 57)) || reversible c) ltac:(vm_compute; done) c ltac:(lia)) as Hall.
  cbv beta in Hall. apply orb_true_iff in Hall as [Hall|Hall]; [lia|done].
Qed.

Lemma base64_reversible b : forallb reversible (base64_encode b) = true.
Proof.
  apply forallb_forall. intros c Hc. pose proof (base64_encode_chars b) as Hd. rewrite Forall_forall in Hd.
  specialize (Hd c (proj2 (list_elem_of_In _ _) Hc)). unfold base64_char in Hd.
  pose proof (all_bytes (fun c => negb ((48 <=? c) && (c <=? 57) || (65 <=? c) && (c <=? 90) || (97 <=? c) && (c <=? 122)
    || (c =? 43) || (c =? 47) || (c =? 61)) || reversible c) ltac:(vm_compute; done) c ltac:(lia)) as Hall.
  cbv beta in Hall. apply orb_true_iff in Hall as [Hall|Hall]; [lia|done].
Qed.

(** An unsigned number below 2^63 is written as libjson writes the integer. *)
Lemma lu_decimal x : int_ok x -> lu x = decimal x.
Proof.
  unfold int_ok. intros Hx. unfold lu, unsigned_digits, decimal, _i64tostr, INT64_MIN.
  replace (x =? - 2 ^ 63) with false by lia. rewrite Z.abs_eq by lia.
  destruct (i64_digits_spec 255 x []) as (ds & Hd & _); [split; [lia|]|lia|].
  { apply (Z.lt_trans _ (2 ^ 63)); [lia|by vm_compute]. }
  rewrite Hd. cbn [mbind outcome_bind]. by replace (x <? 0) with false by lia.
Qed.

Lemma name_number_lu x : int_ok x -> name_number (lu x) = Some x.
Proof.
  intros Hx. pose proof (lu_decimal x Hx) as Hd. unfold int_ok in Hx. unfold name_number.
  destruct (i64tostr_spec x ltac:(lia)) as (ds & Hs & _ & _ & Hv). unfold decimal in Hd. rewrite Hs in Hd.
  replace (x <? 0) with false in * by lia. cbn [minus app] in *.
  assert (decimal_value (lu x) = x) as E by (rewrite Hd, Hv; lia). rewrite E.
  rewrite decide_True; [done|]. split; [done|]. by rewrite <- lu_decimal.
Qed.

Lemma print_string_text s : forallb reversible s = true -> json_print_value (s ++ [0]) JSON_TYPE_STRING (U_string 0) = Done (quoted s).
Proof.
  intros Hs. unfold json_print_value, _PrintString.
  pose proof (print_chars_printed [] s [] 0 (encodable_nonzero s Hs)) as Hp. cbn [app length] in Hp.
  rewrite Hp. done.
Qed.

Lemma put_str_text name v comma :
  forallb plain_char (bytes name) = true -> forallb reversible v = true ->
  _put_str_field name v comma compact = Done (quoted (bytes name) ++ 58 :: render (JString v) ++ comma).
Proof.
  intros Hn Hv. unfold _put_str_field. rewrite print_string_text by done. cbn [mbind outcome_bind sp nl].
  rewrite (quoted_plain (bytes name)) by done. cbn [render]. rewrite app_nil_r, <- !app_assoc. done.
Qed.

Lemma put_base64_text name b comma :
  forallb plain_char (bytes name) = true -> (length b <= 64)%nat ->
  _put_base64_field name b comma compact = Done (quoted (bytes name) ++ 58 :: render (JString (base64_encode b)) ++ comma).
Proof.
  intros Hn Hb. unfold _put_base64_field. rewrite (proj2 (Z.ltb_ge _ _)) by (Z.div_mod_to_equations; lia).
  rewrite print_string_text by apply base64_reversible. cbn [mbind outcome_bind sp nl].
  rewrite (quoted_plain (bytes name)) by done. cbn [render]. rewrite app_nil_r, <- !app_assoc. done.
Qed.

Lemma put_number_text name x comma :
  forallb plain_char (bytes name) = true -> int_ok x ->
  put_number name x comma compact = quoted (bytes name) ++ 58 :: render (JInt x) ++ comma.
Proof.
  intros Hn Hx. unfold put_number. rewrite lu_decimal by done. rewrite (quoted_plain (bytes name)) by done. cbn [sp nl render].
  rewrite app_nil_r, <- !app_assoc. done.
Qed.

Lemma put_quoted_text name x comma :
  forallb plain_char (bytes name) = true ->
  put_quoted name x comma compact = quoted (bytes name) ++ 58 :: render (number_doc x) ++ comma.
Proof.
  intros Hn. unfold put_quoted, number_doc. cbn [render]. rewrite !quoted_plain by (done || apply lu_plain). cbn [sp nl].
  rewrite app_nil_r, <- !app_assoc. done.
Qed.

Lemma put_open_text name b : forallb plain_char name = true -> put_open name b compact = quoted name ++ [58; b].
Proof. intros Hn. unfold put_open. rewrite quoted_plain by done. cbn [sp nl]. by rewrite app_nil_r, <- !app_assoc. Qed.

Lemma comma_loop_text {A} (print : A -> text -> outcome text) (body : A -> text) l :
  Forall (fun x => forall c, print x c = Done (body x ++ c)) l ->
  comma_loop print l = Done (tl (flat_map (fun x => 44 :: body x) l)).
Proof.
  induction 1 as [|x l Hx _ IH]; [done|]. cbn [comma_loop]. rewrite Hx, IH. cbn [mbind outcome_bind flat_map tl].
  f_equal. rewrite <- app_assoc. f_equal. by destruct l.
Qed.

(** ** Objects *)

(** The fields of an object, then the two texts with their parts in order. *)
Ltac same_text := rewrite ?indent_compact;
  repeat first [rewrite app_nil_r | rewrite <- app_assoc | progress cbn [render flat_map map tl sp nl app]]; try done.
Ltac fields :=
  repeat first [rewrite put_str_text by (done || assumption) | rewrite put_base64_text by (done || lia)
    | rewrite put_number_text by (done || assumption) | rewrite put_quoted_text by done | rewrite put_open_text by done
    | progress cbn [mbind outcome_bind]].

Lemma pbkdf_type_reversible s : _valid_pbkdf_type s = true -> forallb reversible s = true.
Proof.
  unfold _valid_pbkdf_type. rewrite !orb_true_iff, !bool_decide_eq_true.
  intros [[-> | ->] | ->]; by vm_compute.
Qed.

Lemma dump_kdf_text p n :
  kdf_ok (ks_kdf p) -> _dump_kdf p n compact = Done (quoted (bytes "kdf") ++ 58 :: render (kdf_doc (ks_kdf p)) ++ [44]).
Proof.
  intros [Ht [Hs _] [_ Hh] Hi Hti Hm Hc Hp]. pose proof (pbkdf_type_reversible _ Ht) as Htr.
  unfold _dump_kdf, kdf_doc, kdf_params. cbv zeta. fields.
  destruct (bool_decide (kdf_type (ks_kdf p) = bytes "pbkdf2")) eqn:E1; fields; [f_equal; same_text|].
  assert (bool_decide (kdf_type (ks_kdf p) = bytes "argon2i") || bool_decide (kdf_type (ks_kdf p) = bytes "argon2id") = true) as ->.
  { unfold _valid_pbkdf_type in Ht. rewrite E1 in Ht. exact Ht. }
  fields. f_equal. same_text.
Qed.

Lemma dump_af_text p n :
  text_ok (af_type (ks_af p)) -> text_ok (af_hash (ks_af p)) -> int_ok (af_stripes (ks_af p)) ->
  _dump_af p n compact = Done (quoted (bytes "af") ++ 58 :: render (af_doc (ks_af p)) ++ [44]).
Proof. intros [_ H1] [_ H2] H3. unfold _dump_af, af_doc. cbv zeta. fields. f_equal. same_text. Qed.

Lemma dump_area_text p n :
  text_ok (area_type (ks_area p)) -> text_ok (area_encryption (ks_area p)) -> int_ok (area_key_size (ks_area p)) ->
  _dump_area p n compact = Done (quoted (bytes "area") ++ 58 :: render (area_doc (ks_area p))).
Proof. intros [_ H1] [_ H2] H3. unfold _dump_area, area_doc. cbv zeta. fields. f_equal. same_text. Qed.

Lemma dump_keyslot_text k i n c :
  keyslot_ok k ->
  _dump_keyslot k i n c compact = Done ((quoted (lu (Z.of_nat i)) ++ 58 :: render (keyslot_doc k)) ++ c).
Proof.
  intros [[[_ H1] _] H2 H3 H4 H5 H6 H7 H8 H9 H10 H11]. unfold _dump_keyslot.
  rewrite dump_kdf_text, dump_af_text, dump_area_text by done. fields. rewrite put_open_text by apply lu_plain.
  f_equal. unfold keyslot_doc. cbn [render flat_map tl]. rewrite !indent_compact, ?app_nil_r.
  generalize (render (kdf_doc (ks_kdf k))), (render (af_doc (ks_af k))), (render (area_doc (ks_area k))). intros r1 r2 r3.
  same_text.
Qed.

Lemma dump_segment_text s i n c :
  segment_ok s ->
  _dump_segment s i n c compact = Done ((quoted (lu (Z.of_nat i)) ++ 58 :: render (segment_doc s)) ++ c).
Proof.
  intros [[[_ H1] _] H2 H3 H4 [_ H5] H6 [_ H7] H8]. unfold _dump_segment. cbv zeta. fields.
  assert ((if seg_size s =? 2 ^ 64 - 1 then q_ ++ bytes "size" ++ q_ ++ [58] ++ sp compact ++ q_ ++ bytes "dynamic" ++ q_ ++ [44] ++ nl compact
           else quoted (bytes "size") ++ 58 :: render (number_doc (seg_size s)) ++ [44]) =
          quoted (bytes "size") ++ 58 :: render (if seg_size s =? 2 ^ 64 - 1 then JString (bytes "dynamic") else number_doc (seg_size s)) ++ [44]) as ->.
  { destruct (seg_size s =? 2 ^ 64 - 1); [|done]. by vm_compute. }
  unfold segment_doc, integrity_members.
  generalize (if seg_size s =? 2 ^ 64 - 1 then JString (bytes "dynamic") else number_doc (seg_size s)). intros size.
  destruct (bool_decide (int_type (seg_integrity s) = [])).
  - fields. rewrite put_open_text by apply lu_plain. f_equal. same_text.
  - destruct H8 as [-> ->]. fields. rewrite put_open_text by apply lu_plain. f_equal. same_text.
Qed.

Lemma flat_map_map {A B C} (f : B -> list C) (g : A -> B) l : flat_map f (map g l) = flat_map (fun x => f (g x)) l.
Proof. by rewrite !flat_map_concat_map, map_map. Qed.

Lemma dump_marks_text name l n :
  forallb plain_char (bytes name) = true ->
  _dump_marks name l n compact = Done (quoted (bytes name) ++ 58 :: render (marks_doc l) ++ [44]).
Proof.
  intros Hn. unfold _dump_marks. rewrite (comma_loop_text _ (fun i => render (number_doc (Z.of_nat i)))).
  - cbn [mbind outcome_bind]. rewrite put_open_text by done. f_equal. unfold marks_doc. cbn [render].
    rewrite flat_map_map, indent_compact, <- !app_assoc. cbn [app nl]. by rewrite <- app_assoc.
  - apply Forall_forall. intros i _ c. rewrite indent_compact. unfold number_doc. cbn [render nl app].
    rewrite quoted_plain by apply lu_plain. by rewrite app_nil_r, <- !app_assoc.
Qed.

Lemma hash_bytes_bound h : (hash_bytes h <= 64)%nat.
Proof. unfold hash_bytes, vic_hash_size. repeat case_decide; lia. Qed.

Lemma dump_digest_text d i n c :
  digest_ok d ->
  _dump_digest d i n c compact = Done ((quoted (lu (Z.of_nat i)) ++ 58 :: render (digest_doc d)) ++ c).
Proof.
  intros [H1 H2 H3 [[_ H4] H5] H6 [H7 _] _]. unfold _dump_digest. pose proof (hash_bytes_bound (dig_hash d)) as Hb.
  unfold digest_doc. unfold hash_bytes in *. destruct (vic_hash_size (dig_hash d)) as [z|]; [|done].
  rewrite !dump_marks_text by done. rewrite (put_str_text "type") by (done || (rewrite H1; by vm_compute)). fields.
  rewrite put_base64_text by (done || (rewrite length_take; lia)). fields. rewrite put_open_text by apply lu_plain. f_equal.
  generalize (marks_doc (dig_keyslots d)), (marks_doc (dig_segments d)). intros m1 m2. same_text.
Qed.

(** A member that holds numbered objects. *)
Lemma dump_section_text {R} name type (dump : R -> nat -> nat -> text -> traits_t -> outcome text) doc (l : list R) n :
  forallb plain_char (bytes name) = true ->
  Forall (fun p => forall i n c, dump p.2 i n c compact = Done ((quoted (lu (Z.of_nat i)) ++ 58 :: render (doc p.2)) ++ c))
    (used type l) ->
  _dump_section name type dump l n compact =
    Done (quoted (bytes name) ++ 58 :: render (JObject (numbered_members doc (used type l))) ++ [44]).
Proof.
  intros Hn Hl. unfold _dump_section.
  rewrite (comma_loop_text _ (fun p => quoted (lu (Z.of_nat p.1)) ++ 58 :: render (doc p.2))).
  - cbn [mbind outcome_bind]. rewrite put_open_text by done. f_equal. unfold numbered_members. cbn [render].
    rewrite flat_map_map, indent_compact, <- !app_assoc. cbn [app nl]. by rewrite <- app_assoc.
  - eapply Forall_impl; [exact Hl|]. intros p Hp c. apply Hp.
Qed.

(** The objects in use are well formed. *)
Lemma used_ok {R} (type : R -> text) zero (ok : R -> Prop) l :
  type zero = [] -> Forall (fun x => x = zero \/ ok x) l -> Forall (fun p => ok p.2) (used type l).
Proof.
  intros Hz Hl. apply Forall_forall. intros [i x] Hp. unfold used in Hp. rewrite list_elem_of_filter in Hp.
  destruct Hp as [Ht Hp]. apply list_elem_of_lookup in Hp as [j Hj]. rewrite list_lookup_imap in Hj.
  destruct (l !! j) as [y|] eqn:Hy; [|done]. simpl in Hj. simplify_eq. simpl in *.
  destruct (Forall_lookup_1 _ _ _ _ Hl Hy) as [->|]; done.
Qed.

(** The JSON area holds the compact text of the document. *)
Lemma to_json_text o : objects_ok o -> _to_json o = Done (render (JObject (objects_members o))).
Proof.
  intros [[_ Hk] [_ Hs] [_ Hd] Hj Hz]. unfold _to_json, _dump_json_objects.
  rewrite (dump_section_text _ _ _ keyslot_doc), (dump_section_text _ _ _ segment_doc),
    (dump_section_text _ _ _ digest_doc); try done.
  - fields. f_equal. unfold objects_members, config_doc2.
    generalize (JObject (numbered_members keyslot_doc (used ks_type (keyslots2 o)))),
      (JObject (numbered_members segment_doc (used seg_type (segments2 o)))),
      (JObject (numbered_members digest_doc (used dig_type (digests2 o)))). intros d1 d2 d3. same_text.
  - eapply Forall_impl; [apply (used_ok dig_type zero_digest digest_ok); done|]. intros p Hp i n c. by apply dump_digest_text.
  - eapply Forall_impl; [apply (used_ok seg_type zero_segment segment_ok); done|]. intros p Hp i n c. by apply dump_segment_text.
  - eapply Forall_impl; [apply (used_ok ks_type zero_keyslot keyslot_ok); done|]. intros p Hp i n c. by apply dump_keyslot_text.
Qed.
End Documents.
