(* ===== verification/Luks2Read.v ===== *)
(** * Luks2Read: the JSON area is read back

    [_json_read_callback] as a function of the events ([json2_step]), and the
    round trip: the objects that [_to_json] writes are the ones that the callback
    builds from the parser's events. *)

From Stdlib Require Import String.
From S2P Require Import Prelude JsonText JsonParser JsonPrint JsonNumbers JsonStrings JsonSafety JsonMatch JsonComplete.
From S2P Require Import JsonFollow VicCrypto Luks2Json Luks2Doc.

(** ** Matching the names of an event *)

Definition hash_sign : text := bytes "#".

Definition token_matches (tok name : text) : bool :=
  if bool_decide (tok = hash_sign) then bool_decide (name_number name <> None) else bool_decide (name = tok).
Fixpoint names_match (toks names : list text) : bool :=
  match toks, names with
  | [], [] => true
  | tok :: toks', name :: names' => token_matches tok name && names_match toks' names'
  | _, _ => false
  end.

(** The patterns of the callback: two names, or more with "#" in the second
    place. *)
Definition pattern2_ok (p : string) : bool :=
  forallb (fun c => (0 <? c) && (c <? 256)) (bytes p) && bool_decide (length (bytes p) < 256)%nat &&
  bool_decide (length (split_dots (bytes p)) <= JSON_MAX_NESTING)%nat &&
  match split_dots (bytes p) with
  | [a; b] => negb (bool_decide (a = hash_sign)) && negb (bool_decide (b = hash_sign))
  | a :: b :: toks =>
      negb (bool_decide (a = hash_sign)) && bool_decide (b = hash_sign) &&
      forallb (fun tok => negb (bool_decide (tok = hash_sign))) toks
  | _ => false
  end.

(** Paths with a number in the second place, where the patterns have "#". *)
Definition numbered_path (names : list text) : bool :=
  match names with [_; _] => true | _ :: s :: _ => bool_decide (name_number s <> None) | _ => false end.

Lemma matches_iff toks (P : text -> json_node -> Prop) (nodes : list json_node) (name : json_node -> text) :
  (forall j tok n, toks !! j = Some tok -> nodes !! j = Some n -> P tok n <-> token_matches tok (name n) = true) ->
  Forall2 P toks nodes <-> names_match toks (name <$> nodes) = true.
Proof.
  revert nodes. induction toks as [|tok toks IH]; intros [|n nodes] Hp; cbn [names_match fmap list_fmap].
  - by split.
  - split; [|done]. inversion 1.
  - split; [|done]. inversion 1.
  - rewrite Forall2_cons, andb_true_iff, (Hp 0%nat tok n) by done. rewrite IH; [done|]. intros j. apply (Hp (S j)).
Qed.

Lemma names_match_length toks names : names_match toks names = true -> length toks = length names.
Proof.
  revert names. induction toks as [|tok toks IH]; intros [|n names]; cbn [names_match]; try done.
  rewrite andb_true_iff. intros [_ Hm]. simpl. f_equal. by apply IH.
Qed.

(** Where a pattern has "#" the path has a number. *)
Lemma hash_is_number p names j name :
  pattern2_ok p = true -> numbered_path names = true -> length (split_dots (bytes p)) = length names ->
  split_dots (bytes p) !! j = Some hash_sign -> names !! j = Some name -> name_number name <> None.
Proof.
  intros Hp Hn Hl Hj Hname. unfold pattern2_ok in Hp. rewrite !andb_true_iff in Hp. destruct Hp as [_ Hp].
  destruct (split_dots (bytes p)) as [|a [|b [|d toks]]]; try done; simpl in Hl.
  - rewrite andb_true_iff, !negb_true_iff, !bool_decide_eq_false in Hp. destruct Hp as [Ha Hb].
    destruct j as [|[|j]]; simpl in Hj; try congruence. done.
  - rewrite !andb_true_iff, negb_true_iff, bool_decide_eq_false, forallb_Forall in Hp. destruct Hp as [[Ha _] Ht].
    destruct names as [|n0 [|n1 [|n2 names]]]; try done. simpl in Hn. rewrite bool_decide_eq_true in Hn.
    destruct j as [|[|j]]; simpl in Hj, Hname; [congruence|by simplify_eq|].
    pose proof (Forall_lookup_1 _ (d :: toks) j _ Ht Hj) as Hx. by vm_compute in Hx.
Qed.

Lemma node_matches_token t allow e tok n :
  t !! e = Some 0 -> name_in e n -> (tok = hash_sign -> name_number (node_frame t n).1 <> None) ->
  node_matches t allow tok n <-> token_matches tok (node_frame t n).1 = true.
Proof.
  intros He Hin Hz. unfold name_in in Hin. unfold node_matches, token_matches, node_frame in *.
  destruct (node_name n) as [k|]; [|done]. cbn [fst] in *. fold hash_sign.
  destruct (decide (tok = hash_sign)) as [Ht|Ht].
  - rewrite (bool_decide_eq_true_2 _ Ht), bool_decide_eq_true. split; [intros _; by apply Hz|]. intros _.
    exists k. split; [done|].
    destruct (name_number (str_at t k)) as [z|] eqn:Ez; [|by destruct (Hz Ht)].
    by eexists _, _; apply (strtou64_number t k e z allow He Hin).
  - rewrite (bool_decide_eq_false_2 _ Ht), bool_decide_eq_true. split.
    + intros (k' & Hk & Hs). by injection Hk as <-.
    + intros <-. by exists k.
Qed.

Lemma match_names_ok q t p :
  t !! end_ q = Some 0 -> Forall is_byte t -> path_in q -> pattern2_ok p = true ->
  numbered_path (frames_of q t).*1 = true ->
  exists r err, json_match false (Some q) t (Some (cstring p)) = Done (r, err) /\
    (r = JSON_OK <-> names_match (split_dots (bytes p)) (frames_of q t).*1 = true).
Proof.
  intros He Hb Hp Hok Hnum. pose proof (frames_length q t Hp) as Hl. pose proof Hp as [Hd Hn].
  pose proof Hok as Hok'. unfold pattern2_ok in Hok'.
  rewrite !andb_true_iff, !bool_decide_eq_true, !forallb_Forall in Hok'. destruct Hok' as [[[Hc Hlen] Hmax] _].
  assert (length (split_dots (bytes p)) = depth q ->
    Forall2 (node_matches t (allow_whitespace q)) (split_dots (bytes p)) (take (depth q) (path q)) <->
    names_match (split_dots (bytes p)) (frames_of q t).*1 = true) as Hiff.
  { intros Hdp. assert ((frames_of q t).*1 = (fun n => (node_frame t n).1) <$> take (depth q) (path q)) as Hf
      by (unfold frames_of; by rewrite <- list_fmap_compose).
    rewrite Hf in Hnum |- *. apply matches_iff. intros j tok n Hj Hj'.
    apply (node_matches_token _ _ (end_ q)); [done|by apply (Forall_lookup_1 _ _ _ _ Hn Hj')|].
    intros ->. apply (hash_is_number p _ j _ Hok Hnum); [|done|by rewrite list_lookup_fmap, Hj'].
    rewrite length_fmap, length_take, Hdp. lia. }
  destruct (match_spec q t (end_ q) (bytes p) false) as (r & err & Hm & Hr).
  - split; [done|]. split; [done|]. eapply Forall_impl; [exact Hn|]. intros n Hin. unfold name_in in Hin.
    destruct (node_name n) as [k|]; [|done]. by exists k.
  - done.
  - eapply Forall_impl; [exact Hc|]. unfold is_byte. simpl. lia.
  - intros Hin. rewrite Forall_forall in Hc. specialize (Hc 0 Hin). by vm_compute in Hc.
  - by left.
  - exists r, err. split; [exact Hm|]. rewrite Hr. split.
    + intros (_ & Hdp & H2). by apply Hiff.
    + intros Hmt. pose proof (names_match_length _ _ Hmt) as Hlm. rewrite length_fmap in Hlm.
      pose proof (eq_trans Hlm Hl) as Hlm'.
      split; [done|]. split; [done|]. by apply Hiff.
Qed.

Section Read.
Context `{Base64}.

(** ** The callback as a function of the event *)

(** The number of the second name: only the handlers of longer paths use it. *)
Definition event_number (names : list text) : Z :=
  match names with _ :: s :: _ => default 0 (name_number s) | _ => 0 end.

Fixpoint find_names (names : list text) (hs : list (string * handler)) : option handler :=
  match hs with
  | [] => None
  | (p, h) :: hs' => if names_match (split_dots (bytes p)) names then Some h else find_names names hs'
  end.

Definition value_step (ev : event) (o : luks2_objects) : option luks2_objects :=
  let names := (ev_path ev).*1 in
  if numbered_path names then
    h ← find_names names handlers2;
    match h (event_number names) (ev_type ev) (ev_value ev) o with Done (JSON_OK, o') => Some o' | _ => None end
  else None.

Definition json2_step (ev : event) (d : callback2) : option callback2 :=
  let enter n := Some (mk_callback2 (cb_objects d) n) in
  match ev_reason ev with
  | JSON_REASON_NONE => None
  | JSON_REASON_NAME => if decide (cb_level d = 0%nat) then None else Some d
  | JSON_REASON_BEGIN_OBJECT => if decide (cb_level d = 64%nat) then None else enter (S (cb_level d))
  | JSON_REASON_END_OBJECT => match cb_level d with O => None | S n => enter n end
  | JSON_REASON_BEGIN_ARRAY | JSON_REASON_END_ARRAY => Some d
  | JSON_REASON_VALUE => o ← value_step ev (cb_objects d); Some (mk_callback2 o (cb_level d))
  end.

(** On a path of two names the handlers do not look at the number. *)
Definition short_path_handlers (hs : list (string * handler)) : Prop :=
  Forall (fun ph => length (split_dots (bytes ph.1)) = 2%nat -> forall i j, ph.2 i = ph.2 j) hs.

Lemma handlers2_short : short_path_handlers handlers2.
Proof.
  unfold short_path_handlers, handlers2. repeat (apply Forall_cons; split; [cbn [fst snd]; intros Hl; (done || by vm_compute in Hl)|]).
  apply Forall_nil_2.
Qed.

Lemma find_names_in names hs h :
  find_names names hs = Some h -> exists p, (p, h) ∈ hs /\ names_match (split_dots (bytes p)) names = true.
Proof.
  induction hs as [|[p h'] hs IH]; [done|]. cbn [find_names]. destruct (names_match _ _) eqn:E.
  - intros [= <-]. exists p. split; [left|done].
  - intros Hf. destruct (IH Hf) as (p' & Hp & Hm). exists p'. split; [by right|done].
Qed.

Lemma first_handler_finds q t type v hs e d h :
  t !! end_ q = Some 0 -> Forall is_byte t -> path_in q -> numbered_path (frames_of q t).*1 = true ->
  forallb pattern2_ok hs.*1 = true -> find_names (frames_of q t).*1 hs = Some h ->
  exists e', first_handler q t type v hs (e, d) =
    ('(r, o) ← h (second_number q) type v (cb_objects d); Done (r, (e', mk_callback2 o (cb_level d)))).
Proof.
  intros He Hb Hp Hn. revert e. induction hs as [|[p h'] hs IH]; intros e; [done|].
  cbn [fmap list_fmap forallb fst find_names first_handler]. rewrite andb_true_iff. intros [Hok Hhs] Hf.
  destruct (match_names_ok q t p He Hb Hp Hok Hn) as (r & err & -> & Hr). cbn [mbind outcome_bind fst snd].
  destruct (names_match _ _) eqn:Em.
  - injection Hf as ->. rewrite decide_True by (by apply Hr). by eexists.
  - rewrite decide_False by (intros Hx; apply Hr in Hx; congruence). by apply IH.
Qed.

Lemma second_number_event q t :
  path_in q -> Forall (numbered t) (take (depth q) (path q)) -> numbered_path (frames_of q t).*1 = true ->
  (2 < depth q)%nat -> second_number q = event_number (frames_of q t).*1.
Proof.
  intros Hp Hnum Hn Hd. destruct (frames_lookup q t 0 ltac:(lia) Hp) as (n0 & _ & F0).
  destruct (frames_lookup q t 1 ltac:(lia) Hp) as (n1 & Hn1 & F1). destruct (frames_lookup q t 2 ltac:(lia) Hp) as (n2 & _ & F2).
  unfold second_number. rewrite Hn1. pose proof Hp as [Hdl Hin].
  assert (take (depth q) (path q) !! 1%nat = Some n1) as Ht by (rewrite lookup_take_lt by lia; done).
  pose proof (Forall_lookup_1 _ _ _ _ Hnum Ht) as Hnn. pose proof (Forall_lookup_1 _ _ _ _ Hin Ht) as Hi1.
  destruct (frames_of q t) as [|f0 [|f1 [|f2 fr]]]; try done. cbn in F1. injection F1 as ->.
  cbn [fmap list_fmap numbered_path event_number] in *. rewrite bool_decide_eq_true in Hn.
  unfold numbered, name_in, node_frame in *. destruct (node_name n1) as [k|]; [|done]. cbn [fst] in *.
  destruct (name_number (str_at t k)) as [z|]; [done|done].
Qed.

#[export] Instance json2_reader : EventReader _json_read_callback json2_step.
Proof.
  intros q t reason type un e d d' Hok Hs. pose proof Hok as (He & Hb & _ & Hpath).
  unfold json2_step in Hs. cbn [event_of ev_reason] in Hs. unfold _json_read_callback. cbn [fst snd].
  destruct reason; try done.
  - case_decide; [done|]. injection Hs as <-. by eexists.
  - case_decide; [done|]. injection Hs as <-. by eexists.
  - destruct (cb_level d); [done|]. injection Hs as <-. by eexists.
  - injection Hs as <-. by eexists.
  - injection Hs as <-. by eexists.
  - rewrite (read_union_ok q t JSON_REASON_VALUE un) by done. cbn [mbind outcome_bind].
    destruct (value_step _ _) as [o|] eqn:Ev; [|done]. cbn [mbind option_bind] in Hs. injection Hs as <-.
    unfold value_step in Ev. cbn [event_of ev_path ev_type ev_value path_at] in Ev.
    destruct (numbered_path (frames_of q t).*1) eqn:En; [|done].
    destruct (find_names (frames_of q t).*1 handlers2) as [h|] eqn:Eh; [|done]. cbn [mbind option_bind] in Ev.
    destruct Hpath as [Hp Hnum].
    destruct (first_handler_finds q t type (capture t un) handlers2 e d h He Hb Hp En) as [e' ->];
      [by vm_compute|done|]. exists e'.
    assert (h (second_number q) = h (event_number (frames_of q t).*1)) as ->.
    { destruct (find_names_in _ _ _ Eh) as (p & Hin & Hm). pose proof (names_match_length _ _ Hm) as Hlen.
      rewrite length_fmap in Hlen. pose proof (eq_trans Hlen (frames_length q t Hp)) as Hlen'. destruct (decide (depth q = 2%nat)) as [H2|H2].
      - pose proof handlers2_short as Hsh. unfold short_path_handlers in Hsh. rewrite Forall_forall in Hsh.
        apply (Hsh (p, h) Hin). cbn [fst]. congruence.
      - f_equal. apply second_number_event; try done.
        assert (length (frames_of q t).*1 = depth q) as Hl by (rewrite length_fmap; by apply frames_length).
        destruct (frames_of q t).*1 as [|a [|b l]]; try done. simpl in Hl. lia. }
    destruct (h _ _ _ _) as [[[] o']|]; try done. by injection Ev as ->.
Qed.

(** ** Reading the parts of the document *)

(** The events [evs] inside an object, with room for [n] more levels, take the
    objects [o] to [o']. *)
Definition goes2 (n : nat) (evs : list event) (o o' : luks2_objects) : Prop :=
  forall lev, (1 <= lev)%nat -> (lev + n <= 64)%nat ->
  steps json2_step evs (mk_callback2 o lev) = Some (mk_callback2 o' lev).

Lemma goes2_nil n o : goes2 n [] o o.
Proof. by intros lev. Qed.

Lemma goes2_app n e1 e2 o o1 o2 : goes2 n e1 o o1 -> goes2 n e2 o1 o2 -> goes2 n (e1 ++ e2) o o2.
Proof. intros H1 H2 lev Hl Hn. rewrite steps_app, H1 by done. cbn [mbind option_bind]. by apply H2. Qed.

Lemma value_goes2 n fr ty v h o o' :
  numbered_path fr.*1 = true -> find_names fr.*1 handlers2 = Some h ->
  h (event_number fr.*1) ty v o = Done (JSON_OK, o') -> goes2 n [value_event fr ty v] o o'.
Proof.
  intros Hn Hf Hh lev Hl _. unfold steps. cbn [foldl mbind option_bind]. unfold json2_step.
  cbn [ev_reason value_event cb_objects cb_level]. unfold value_step. cbn [ev_path ev_type ev_value value_event].
  rewrite Hn, Hf. cbn [mbind option_bind]. by rewrite Hh.
Qed.

Lemma name_step ty v fr o lev :
  (1 <= lev)%nat -> json2_step (Event JSON_REASON_NAME ty v fr) (mk_callback2 o lev) = Some (mk_callback2 o lev).
Proof. intros Hl. unfold json2_step. cbn [ev_reason cb_level]. by rewrite decide_False by lia. Qed.
Lemma begin_step ty v fr o lev :
  (lev < 64)%nat -> json2_step (Event JSON_REASON_BEGIN_OBJECT ty v fr) (mk_callback2 o lev) = Some (mk_callback2 o (S lev)).
Proof. intros Hl. unfold json2_step. cbn [ev_reason cb_level]. by rewrite decide_False by lia. Qed.

Lemma member_goes2 n fr k x ms o o1 o2 :
  goes2 n (events (fr ++ [(k, 0)]) x) o o1 -> goes2 n (member_events fr ms) o1 o2 ->
  goes2 n (member_events fr ((k, x) :: ms)) o o2.
Proof.
  intros H1 H2 lev Hl Hn. cbn [member_events]. rewrite steps_cons, name_step by done.
  cbn [mbind option_bind]. rewrite steps_app, H1 by done. by apply H2.
Qed.

Lemma members_goes2 n fr ms o o' : goes2 n (member_events fr ms) o o' -> goes2 (S n) (events fr (JObject ms)) o o'.
Proof.
  intros Hm lev Hl Hn. rewrite events_object, steps_cons, begin_step by lia. cbn [mbind option_bind]. rewrite steps_app, Hm by lia. done.
Qed.

Lemma array_goes2 n fr l o o' : goes2 n (element_events fr 0 l) o o' -> goes2 n (events fr (JArray l)) o o'.
Proof.
  intros Hm lev Hl Hn. rewrite events_array, steps_cons. change (json2_step _ (mk_callback2 o lev)) with (Some (mk_callback2 o lev)).
  cbn [mbind option_bind].
  rewrite steps_app, Hm by done. done.
Qed.

(** ** Numbers *)

Lemma strtou64_lu x : long_ok x -> _strtou64 (lu x) = (x, true).
Proof.
  intros Hx. unfold long_ok in Hx. unfold lu, unsigned_digits.
  destruct (i64_digits_spec 255 x []) as (ds & -> & Hne & Hds & Hv); [split; [lia|]|lia|].
  { apply (Z.lt_trans _ (2 ^ 64)); [lia|by vm_compute]. }
  rewrite app_nil_r. destruct ds as [|d ds]; [done|].
  assert (forall l, Forall is_dec l -> span_digits l = (l, [])) as Hspan.
  { induction 1 as [|c l Hc _ IH]; [done|]. unfold is_dec in Hc. cbn [span_digits].
    replace ((48 <=? c) && (c <=? 57)) with true by lia. by rewrite IH. }
  pose proof Hds as Hd0. apply Forall_cons in Hd0 as [Hd _]. unfold is_dec in Hd.
  unfold _strtou64, strtoull. cbn [skip_isspace].
  replace ((d =? 32) || (9 <=? d) && (d <=? 13)) with false by lia.
  replace (d =? 45) with false by lia. replace (d =? 43) with false by lia.
  rewrite Hspan by done. cbv beta iota zeta. rewrite Hv. rewrite (proj2 (Z.ltb_ge _ _)) by lia. done.
Qed.

(** ** Fields of numbered objects *)

(** Any number leads to the same handler. *)
Lemma match_numbered p a s rest z :
  pattern2_ok p = true -> name_number s = Some z -> rest <> [] ->
  names_match (split_dots (bytes p)) (a :: s :: rest) = names_match (split_dots (bytes p)) (a :: bytes "0" :: rest).
Proof.
  intros Hp Hs Hr. unfold pattern2_ok in Hp. rewrite !andb_true_iff in Hp. destruct Hp as [_ Hp].
  destruct (split_dots (bytes p)) as [|t0 [|t1 [|t2 toks]]]; try done.
  - cbn [names_match]. destruct rest; [done|]. cbn [names_match]. by rewrite !andb_false_r.
  - rewrite !andb_true_iff, !bool_decide_eq_true in Hp. destruct Hp as [[_ ->] _]. cbn [names_match].
    assert (token_matches hash_sign s = token_matches hash_sign (bytes "0")) as ->; [|done].
    unfold token_matches. rewrite (bool_decide_eq_true_2 (hash_sign = hash_sign)) by done.
    rewrite bool_decide_eq_true_2 by (by rewrite Hs). by vm_compute.
Qed.

Lemma find_numbered hs a s rest z :
  forallb pattern2_ok hs.*1 = true -> name_number s = Some z -> rest <> [] ->
  find_names (a :: s :: rest) hs = find_names (a :: bytes "0" :: rest) hs.
Proof.
  intros Hok Hs Hr. induction hs as [|[p h] hs IH]; [done|]. cbn [fmap list_fmap forallb fst find_names] in *.
  rewrite andb_true_iff in Hok. destruct Hok as [Hp Hok]. by rewrite (match_numbered p a s rest z), IH.
Qed.

Section Fields.
Context {R : Type}.
Variables (count : Z) (at_ : Z -> (R -> R) -> luks2_objects -> luks2_objects).
Hypothesis at_at : forall i f g o, at_ i f (at_ i g o) = at_ i (fun x => f (g x)) o.
Variables (n i : nat) (fr : list frame) (a : text) (rest : list text).
Hypothesis Hi : Z.of_nat i < count /\ count <= 65.
Hypothesis Hfr : fr.*1 = a :: lu (Z.of_nat i) :: rest.
Hypothesis Hrest : rest <> [].

(** The object [x] in its place. *)
Definition holding (x : R) (o : luks2_objects) : luks2_objects := at_ (Z.of_nat i) (fun _ => x) o.

Lemma index_number : name_number (lu (Z.of_nat i)) = Some (Z.of_nat i).
Proof. apply name_number_lu. unfold int_ok. lia. Qed.

Lemma field_goes2 ty v h (x y : R) o :
  find_names (a :: bytes "0" :: rest) handlers2 = Some h ->
  h (Z.of_nat i) ty v (holding x o) = Done (JSON_OK, holding y o) ->
  goes2 n [value_event fr ty v] (holding x o) (holding y o).
Proof.
  intros Hf Hh. apply (value_goes2 _ _ _ _ h); rewrite Hfr.
  - cbn [numbered_path]. rewrite index_number. destruct rest; [done|]. by apply bool_decide_eq_true_2.
  - rewrite <- Hf. apply (find_numbered _ _ _ _ (Z.of_nat i)); [by vm_compute|apply index_number|done].
  - cbn [event_number]. by rewrite index_number.
Qed.

Lemma guard_passes want body v o : guarded count want body (Z.of_nat i) want v o = body (Z.of_nat i) want v o.
Proof.
  unfold guarded. rewrite bool_decide_eq_false_2 by (intros Hx; by apply Hx). by rewrite (proj2 (Z.leb_gt _ _)) by lia.
Qed.

Lemma copy_fits set s x o :
  text_ok s -> copy_string at_ set s (Z.of_nat i) (holding x o) = (JSON_OK, holding (set s x) o).
Proof.
  intros [Hl _]. unfold copy_string, LUKS2_TYPE_SIZE. rewrite decide_False by lia. rewrite take_ge by lia.
  unfold holding. by rewrite at_at.
Qed.

Lemma string_goes2 set s x o :
  find_names (a :: bytes "0" :: rest) handlers2 = Some (string_field count at_ set) -> text_ok s ->
  goes2 n (events fr (JString s)) (holding x o) (holding (set s x) o).
Proof.
  intros Hf Hs. eapply field_goes2; [exact Hf|]. unfold string_field, with_string. rewrite guard_passes.
  by rewrite copy_fits.
Qed.

Lemma integer_goes2 set z x o :
  find_names (a :: bytes "0" :: rest) handlers2 = Some (integer_field count at_ set) -> int_ok z ->
  goes2 n (events fr (JInt z)) (holding x o) (holding (set z x) o).
Proof.
  unfold int_ok. intros Hf Hz. eapply field_goes2; [exact Hf|]. unfold integer_field. rewrite guard_passes.
  rewrite u64_small by lia. unfold holding. by rewrite at_at.
Qed.

Lemma number_goes2 set z x o :
  find_names (a :: bytes "0" :: rest) handlers2 = Some (u64_field count at_ set) -> long_ok z ->
  goes2 n (events fr (number_doc z)) (holding x o) (holding (set z x) o).
Proof.
  intros Hf Hz. eapply field_goes2; [exact Hf|]. unfold u64_field, with_string. rewrite guard_passes.
  rewrite strtou64_lu by done. unfold holding. by rewrite at_at.
Qed.

Lemma only_goes2 set s x o :
  find_names (a :: bytes "0" :: rest) handlers2 = Some (only count at_ s set) -> text_ok s ->
  goes2 n (events fr (JString s)) (holding x o) (holding (set s x) o).
Proof.
  intros Hf Hs. eapply field_goes2; [exact Hf|]. unfold only, with_string. rewrite guard_passes.
  rewrite bool_decide_eq_true_2 by done. by rewrite copy_fits.
Qed.

Lemma salt_goes2 set b x o :
  find_names (a :: bytes "0" :: rest) handlers2 = Some (salt_field count at_ set) -> bytes_ok 32 b ->
  goes2 n (events fr (JString (base64_encode b))) (holding x o) (holding (set b x) o).
Proof.
  intros Hf [Hl Hb]. eapply field_goes2; [exact Hf|]. unfold salt_field, with_string. rewrite guard_passes.
  rewrite base64_round_trip by done. rewrite decide_True by done. unfold holding. by rewrite at_at.
Qed.
End Fields.

(** ** Keyslots *)

Lemma at_keyslot_twice i f g o : at_keyslot i f (at_keyslot i g o) = at_keyslot i (fun x => f (g x)) o.
Proof. unfold at_keyslot. simpl. by rewrite list_alter_alter_eq. Qed.
Lemma at_segment_twice i f g o : at_segment i f (at_segment i g o) = at_segment i (fun x => f (g x)) o.
Proof. unfold at_segment. simpl. by rewrite list_alter_alter_eq. Qed.
Lemma at_digest_twice i f g o : at_digest i f (at_digest i g o) = at_digest i (fun x => f (g x)) o.
Proof. unfold at_digest. simpl. by rewrite list_alter_alter_eq. Qed.

(** The place of a field: the path, and the handler it leads to. *)
Lemma none_ok : text_ok (bytes "none").
Proof. split; [simpl; lia|by vm_compute]. Qed.
Lemma pbkdf2_ok : text_ok (bytes "pbkdf2").
Proof. split; [simpl; lia|by vm_compute]. Qed.
Ltac place2 := first [reflexivity | exact eq_refl | done | assumption | apply none_ok | apply pbkdf2_ok].

Section Keyslot.
Variables (i : nat) (o : luks2_objects).
Hypothesis Hi : Z.of_nat i < LUKS2_NUM_KEYSLOTS.
Abbreviation slot := (fun k => holding at_keyslot i k o).
Abbreviation path_to := (fun l => (bytes "keyslots", 0) :: (lu (Z.of_nat i), 0) :: map (fun k => (k, 0)) l).

Lemma slot_bound : Z.of_nat i < LUKS2_NUM_KEYSLOTS /\ LUKS2_NUM_KEYSLOTS <= 65.
Proof. unfold LUKS2_NUM_KEYSLOTS in *. lia. Qed.

Tactic Notation "slot_field" uconstr(rule) :=
  eapply member_goes2; [eapply rule; [apply at_keyslot_twice|apply slot_bound|reflexivity|done|place2|place2]|].

Lemma kdf_goes2 n k x :
  kdf_ok k ->
  goes2 (S n) (events (path_to [bytes "kdf"]) (kdf_doc k)) (slot (set_kdf (fun _ => mk_kdf [] (replicate 32 0) [] 0 0 0 0) x))
    (slot (set_kdf (fun _ => k) x)).
Proof.
  intros [Ht Hs Hh Hit Hti Hm Hc Hp]. unfold kdf_doc. apply members_goes2.
  eapply member_goes2.
  { eapply field_goes2; [apply slot_bound|reflexivity|done|place2|].
    unfold kdf_type_field, with_string. rewrite guard_passes by apply slot_bound.
    rewrite (copy_fits at_keyslot at_keyslot_twice i set_kdf_type).
    - rewrite decide_True by done. by rewrite Ht.
    - split; [|by apply pbkdf_type_reversible]. unfold _valid_pbkdf_type in Ht.
      rewrite !orb_true_iff, !bool_decide_eq_true in Ht. destruct Ht as [[-> | ->] | ->]; vm_compute; lia. }
  unfold kdf_params. destruct (bool_decide (kdf_type k = bytes "pbkdf2")).
  - cbn [app]. slot_field integer_goes2. slot_field string_goes2. slot_field salt_goes2.
    destruct Hp as (H1 & H2 & H3). destruct k, x. simpl in *. subst. apply goes2_nil.
  - cbn [app]. slot_field integer_goes2. slot_field integer_goes2. slot_field integer_goes2. slot_field salt_goes2.
    destruct Hp as (H1 & H2). destruct k, x. simpl in *. subst. apply goes2_nil.
Qed.

Lemma keyslot_goes2 k :
  keyslot_ok k -> goes2 2 (events (path_to []) (keyslot_doc k)) (slot zero_keyslot) (slot k).
Proof.
  intros [[Ht _] Hk Hkdf Hat Hah Has Hart Hare Hark Haro Hars]. unfold keyslot_doc. apply members_goes2.
  slot_field string_goes2. slot_field integer_goes2.
  eapply member_goes2; [apply (kdf_goes2 0 (ks_kdf k) (set_ks_key_size (ks_key_size k) (set_ks_type (ks_type k) zero_keyslot))); done|].
  eapply member_goes2; [apply members_goes2|].
  { slot_field string_goes2. slot_field string_goes2. slot_field integer_goes2. apply goes2_nil. }
  eapply member_goes2; [apply members_goes2|].
  { slot_field string_goes2. slot_field string_goes2. slot_field integer_goes2. slot_field number_goes2.
    slot_field number_goes2. apply goes2_nil. }
  destruct k as [? ? ? [] []]. apply goes2_nil.
Qed.
End Keyslot.

(** ** Segments *)

Section Segment.
Variables (i : nat) (o : luks2_objects).
Hypothesis Hi : Z.of_nat i < LUKS2_NUM_SEGMENTS.
Abbreviation segment := (fun k => holding at_segment i k o).
Abbreviation path_to := (fun l => (bytes "segments", 0) :: (lu (Z.of_nat i), 0) :: map (fun k => (k, 0)) l).

Lemma segment_bound : Z.of_nat i < LUKS2_NUM_SEGMENTS /\ LUKS2_NUM_SEGMENTS <= 65.
Proof. unfold LUKS2_NUM_SEGMENTS in *. lia. Qed.

Tactic Notation "segment_field" uconstr(rule) :=
  eapply member_goes2; [eapply rule; [apply at_segment_twice|apply segment_bound|reflexivity|done|place2|place2]|].

Lemma segment_size_goes2 n z x :
  long_ok z ->
  goes2 n (events (path_to [bytes "size"]) (if z =? 2 ^ 64 - 1 then JString (bytes "dynamic") else number_doc z))
    (segment x) (segment (set_seg_size z x)).
Proof.
  intros Hz. destruct (Z.eqb_spec z (2 ^ 64 - 1)) as [->|].
  - eapply field_goes2; [apply segment_bound|reflexivity|done|place2|].
    unfold segment_size_field, with_string. rewrite guard_passes by apply segment_bound.
    rewrite bool_decide_eq_true_2 by done. unfold holding. by rewrite at_segment_twice.
  - eapply field_goes2; [apply segment_bound|reflexivity|done|place2|].
    unfold segment_size_field, with_string. rewrite guard_passes by apply segment_bound.
    rewrite bool_decide_eq_false_2, strtou64_lu by (done || (intros Hd; pose proof (strtou64_lu z Hz) as Hs;
      rewrite Hd in Hs; vm_compute in Hs; congruence)).
    unfold holding. by rewrite at_segment_twice.
Qed.

Lemma segment_goes2 s :
  segment_ok s -> goes2 2 (events (path_to []) (segment_doc s)) (segment zero_segment) (segment s).
Proof.
  intros [[Ht _] Ho Hv Hz He Hs Hit Hin]. unfold segment_doc. apply members_goes2. cbn [app].
  segment_field string_goes2. segment_field number_goes2. segment_field number_goes2.
  eapply member_goes2; [by apply segment_size_goes2|]. segment_field string_goes2. segment_field integer_goes2.
  unfold integrity_members. destruct (bool_decide (int_type (seg_integrity s) = [])).
  - destruct s. simpl in *. subst. apply goes2_nil.
  - destruct Hin as [Hje Hji]. rewrite Hje, Hji. eapply member_goes2; [apply members_goes2|].
    { segment_field string_goes2. segment_field only_goes2. segment_field only_goes2. apply goes2_nil. }
    destruct s as [? ? ? ? ? ? []]. simpl in *. subst. apply goes2_nil.
Qed.
End Segment.

(** ** Digests *)

Lemma set_index_names fr j : (set_index fr j).*1 = fr.*1.
Proof.
  unfold set_index. etransitivity; [apply (list_fmap_alter _ _ id); by apply Forall_true|]. by apply list_alter_id.
Qed.

Definition mark_all (l : list Z) (js : list nat) : list Z := foldl (fun l j => <[j := 1]> l) l js.

Lemma mark_all_lookup js l p :
  mark_all l js !! p = if decide (p ∈ js /\ (p < length l)%nat) then Some 1 else l !! p.
Proof.
  revert l. induction js as [|j js IH]; intros l; cbn [mark_all foldl].
  - rewrite decide_False; [done|]. intros [Hx _]. by apply elem_of_nil in Hx.
  - change (foldl (fun l j => <[j:=1]> l) (<[j:=1]> l) js) with (mark_all (<[j:=1]> l) js). rewrite IH, length_insert.
    destruct (decide (p = j)) as [->|Hne].
    + destruct (decide (j < length l)%nat) as [Hj|Hj].
      * rewrite list_lookup_insert_eq by done. destruct (decide (j ∈ j :: js /\ _)) as [_|Hn]; [by case_match|].
        destruct Hn. split; [left|done].
      * rewrite !decide_False by tauto. rewrite list_insert_ge by lia. done.
    + rewrite list_lookup_insert_ne by done.
      destruct (decide (p ∈ js /\ (p < length l)%nat)) as [[H1 H2]|Hn].
      * by rewrite decide_True by (split; [by right|done]).
      * rewrite decide_False; [done|]. rewrite elem_of_cons. tauto.
Qed.

Lemma mark_marked n l : marks_ok n l -> mark_all (replicate n 0) (marked l) = l.
Proof.
  intros [Hl Hm]. apply list_eq. intros p. rewrite mark_all_lookup, length_replicate.
  assert (p ∈ marked l <-> l !! p = Some 1) as Hin.
  { unfold marked. rewrite list_elem_of_filter, elem_of_seq. destruct (l !! p) as [x|] eqn:Hp.
    - pose proof (lookup_lt_Some _ _ _ Hp). destruct (Forall_lookup_1 _ _ _ _ Hm Hp) as [-> | ->]; simpl; [|split; [done|lia]].
      split; [by intros [[] _]|done].
    - simpl. split; [by intros [[] _]|done]. }
  destruct (decide (p ∈ marked l /\ _)) as [[Hx _]|Hn]; [by symmetry; apply Hin|].
  destruct (l !! p) as [x|] eqn:Hp.
  - pose proof (lookup_lt_Some _ _ _ Hp). destruct (Forall_lookup_1 _ _ _ _ Hm Hp) as [-> | ->].
    + apply lookup_replicate_2. lia.
    + destruct Hn. split; [by apply Hin|lia].
  - apply lookup_ge_None in Hp. apply lookup_ge_None. rewrite length_replicate. lia.
Qed.

Section Digest.
Variables (i : nat) (o : luks2_objects).
Hypothesis Hi : Z.of_nat i < LUKS2_NUM_DIGESTS.
Hypothesis Hlen : length (digests2 o) = 65%nat.
Abbreviation digest := (fun k => holding at_digest i k o).
Abbreviation path_to := (fun l => (bytes "digests", 0) :: (lu (Z.of_nat i), 0) :: map (fun k => (k, 0)) l).

Lemma digest_bound : Z.of_nat i < LUKS2_NUM_DIGESTS /\ LUKS2_NUM_DIGESTS <= 65.
Proof. unfold LUKS2_NUM_DIGESTS in *. lia. Qed.

Tactic Notation "digest_field" uconstr(rule) :=
  eapply member_goes2; [eapply rule; [apply at_digest_twice|apply digest_bound|reflexivity|done|place2|place2]|].

Section Marks.
Variables (k : text) (size : Z) (get : luks2_digest_t -> list Z) (set : list Z -> luks2_digest_t -> luks2_digest_t).
Hypothesis Hhandler : find_names [bytes "digests"; bytes "0"; k] handlers2 = Some (mark_field get set size).
Hypothesis Hget : forall l d, get (set l d) = l.
Hypothesis Hset : forall l l' d, set l (set l' d) = set l d.
Hypothesis Hsize : 0 <= size <= 64.

Lemma marks_from js n idx l x :
  Forall (fun j => Z.of_nat j < size) js ->
  goes2 n (element_events (path_to [k]) idx (map (fun j => number_doc (Z.of_nat j)) js))
    (digest (set l x)) (digest (set (mark_all l js) x)).
Proof.
  intros Hjs. revert idx l. induction Hjs as [|j js Hj _ IH]; intros idx l; [apply goes2_nil|].
  cbn [map element_events mark_all foldl]. eapply goes2_app; [|apply IH].
  eapply field_goes2; [apply digest_bound|by rewrite set_index_names|done|exact Hhandler|].
  unfold mark_field, with_string. rewrite guard_passes by apply digest_bound.
  rewrite strtou64_lu by (unfold long_ok; lia). cbn [negb]. rewrite (proj2 (Z.leb_gt _ _)) by lia.
  unfold holding. rewrite at_digest_twice, Nat2Z.id, Hget, Hset. done.
Qed.

Lemma marks_goes2 n l x :
  marks_ok (Z.to_nat size) l ->
  goes2 n (events (path_to [k]) (marks_doc l)) (digest (set (replicate (Z.to_nat size) 0) x)) (digest (set l x)).
Proof.
  intros Hl. unfold marks_doc. apply array_goes2. rewrite <- (mark_marked _ _ Hl) at 2. apply marks_from.
  apply Forall_forall. intros j Hj. unfold marked in Hj. rewrite list_elem_of_filter, elem_of_seq in Hj.
  destruct Hl as [Hl _]. lia.
Qed.
End Marks.

Lemma digest_field_goes2 n b h x :
  dig_hash x = h ->
  bytes_ok 64 b -> drop (hash_bytes h) b = replicate (64 - hash_bytes h) 0 ->
  vic_hash_size h <> None -> dig_digest x = replicate 64 0 ->
  goes2 n (events (path_to [bytes "digest"]) (JString (base64_encode (take (hash_bytes h) b))))
    (digest x) (digest (set_dig_digest b x)).
Proof.
  intros <- [Hl Hb] Hd Hh Hz. pose proof (hash_bytes_bound (dig_hash x)) as Hbound.
  assert (length (take (hash_bytes (dig_hash x)) b) = hash_bytes (dig_hash x)) as Hlb by (rewrite length_take; lia).
  eapply field_goes2; [apply digest_bound|reflexivity|done|place2|].
  unfold digest_field, with_string. rewrite guard_passes by apply digest_bound.
  rewrite base64_round_trip by (by apply Forall_take). unfold holding, at_digest at 1. cbn [digests2].
  unfold LUKS2_NUM_DIGESTS in Hi. rewrite Nat2Z.id.
  destruct (lookup_lt_is_Some_2 (digests2 o) i ltac:(lia)) as [y Hy].
  rewrite (list_lookup_alter_eq _ _ i), Hy. cbn [fmap option_fmap option_map]. rewrite decide_True by lia.
  assert (vic_hash_size (dig_hash x) = Some (Z.of_nat (hash_bytes (dig_hash x)))) as Hsz.
  { unfold hash_bytes. unfold vic_hash_size in *. repeat case_decide; done. }
  rewrite bool_decide_eq_true_2 by (by rewrite Hlb). rewrite at_digest_twice. rewrite Hlb, Hz.
  rewrite drop_replicate, <- Hd, take_drop. done.
Qed.

Lemma digest_goes2 d :
  digest_ok d -> goes2 2 (events (path_to []) (digest_doc d)) (digest zero_digest) (digest d).
Proof.
  intros [Ht Hk Hs [Hh Hhs] Hi' Hsalt [Hd Hdz]]. unfold digest_doc. apply members_goes2. rewrite Ht.
  digest_field only_goes2.
  eapply member_goes2; [apply (marks_goes2 (bytes "keyslots") 64 dig_keyslots set_dig_keyslots eq_refl (fun _ _ => eq_refl)
    (fun _ _ _ => eq_refl) ltac:(lia) 1 _ (set_dig_type (bytes "pbkdf2") zero_digest)); done|].
  eapply member_goes2; [apply (marks_goes2 (bytes "segments") 1 dig_segments set_dig_segments eq_refl (fun _ _ => eq_refl)
    (fun _ _ _ => eq_refl) ltac:(lia) 1 _ (set_dig_keyslots (dig_keyslots d) (set_dig_type (bytes "pbkdf2") zero_digest))); done|].
  digest_field string_goes2. digest_field integer_goes2. digest_field salt_goes2.
  eapply member_goes2; [apply digest_field_goes2; done|].
  destruct d. simpl in *. subst. apply goes2_nil.
Qed.
End Digest.

(** ** Numbered objects *)

Definition used_from {R} (type : R -> text) (n : nat) (l : list R) : list (nat * R) :=
  filter (fun p => type p.2 <> []) (imap (fun i x => ((n + i)%nat, x)) l).

Lemma used_from_cons {R} (type : R -> text) n x (l : list R) :
  used_from type n (x :: l) =
    (if decide (type x <> []) then [(n, x)] else []) ++ used_from type (S n) l.
Proof.
  unfold used_from. cbn [imap]. rewrite Nat.add_0_r, filter_cons. cbn [snd].
  assert (imap ((fun i y => ((n + i)%nat, y)) ∘ S) l = imap (fun i y => ((S n + i)%nat, y)) l) as ->.
  { apply imap_ext. intros i y _. simpl. f_equal. lia. }
  by case_decide.
Qed.

Section Numbered.
Context {R : Type}.
Variables (k : text) (count : nat) (type : R -> text) (zero : R) (ok : R -> Prop) (doc : R -> json).
Variables (at_ : Z -> (R -> R) -> luks2_objects -> luks2_objects) (put : list R -> luks2_objects -> luks2_objects).
Hypothesis at_put : forall i f l o, at_ i f (put l o) = put (alter f (Z.to_nat i) l) o.
Hypothesis zero_type : type zero = [].
Hypothesis ok_type : forall x, ok x -> type x <> [].
Variable o : luks2_objects.
Hypothesis object_goes2 : forall i l x, (i < count)%nat -> length l = count -> ok x ->
  goes2 2 (events [(k, 0); (lu (Z.of_nat i), 0)] (doc x)) (holding at_ i zero (put l o)) (holding at_ i x (put l o)).

Lemma holding_middle pre x y rest :
  holding at_ (length pre) y (put (pre ++ x :: rest) o) = put (pre ++ y :: rest) o.
Proof.
  unfold holding. rewrite at_put, Nat2Z.id. f_equal. rewrite alter_app_r_alt by lia. by rewrite Nat.sub_diag.
Qed.

Lemma numbered_from l pre :
  Forall (fun x => x = zero \/ ok x) l -> (length pre + length l)%nat = count ->
  goes2 2 (member_events [(k, 0)] (numbered_members doc (used_from type (length pre) l)))
    (put (pre ++ replicate (length l) zero) o) (put (pre ++ l) o).
Proof.
  intros Hl. revert pre. induction Hl as [|x l Hx _ IH]; intros pre Hn; [apply goes2_nil|].
  simpl in Hn. specialize (IH (pre ++ [x])). rewrite length_app, Nat.add_1_r, <- !app_assoc in IH. cbn [app] in IH.
  rewrite used_from_cons. destruct (decide (type x <> [])) as [Ht|Ht].
  - assert (ok x) as Hok by (by destruct Hx as [->|]; [|done]). cbn [app numbered_members map fst snd length replicate].
    eapply member_goes2; [|apply IH; lia]. cbn [app].
    rewrite <- (holding_middle pre zero x (replicate (length l) zero)).
    rewrite <- (holding_middle pre zero zero (replicate (length l) zero)) at 1.
    apply object_goes2; [lia| |done]. rewrite length_app. cbn [length]. rewrite length_replicate. lia.
  - assert (x = zero) as -> by (destruct Hx as [|Hx]; [done|by destruct (Ht (ok_type x Hx))]).
    cbn [app length replicate]. apply IH. lia.
Qed.

Lemma numbered_goes2 l :
  Forall (fun x => x = zero \/ ok x) l -> length l = count ->
  goes2 3 (events [(k, 0)] (JObject (numbered_members doc (used type l)))) (put (replicate count zero) o) (put l o).
Proof.
  intros Hl Hn. apply members_goes2. pose proof (numbered_from l [] Hl Hn) as Hgo. cbn [app length] in Hgo.
  by rewrite Hn in Hgo.
Qed.
End Numbered.

Definition put_keyslots (l : list luks2_keyslot_t) (o : luks2_objects) := mk_objects l (segments2 o) (digests2 o) (config2 o).
Definition put_segments (l : list luks2_segment_t) (o : luks2_objects) := mk_objects (keyslots2 o) l (digests2 o) (config2 o).
Definition put_digests (l : list luks2_digest_t) (o : luks2_objects) := mk_objects (keyslots2 o) (segments2 o) l (config2 o).

Lemma config_goes2 n c o :
  long_ok (cfg_json_size c) -> long_ok (cfg_keyslots_size c) ->
  goes2 (S n) (events [(bytes "config", 0)] (config_doc2 c)) o (set_config c o).
Proof.
  intros H1 H2. unfold config_doc2. apply members_goes2.
  eapply member_goes2; [eapply value_goes2; [reflexivity|reflexivity|unfold config_field; rewrite strtou64_lu by done; reflexivity]|].
  eapply member_goes2; [eapply value_goes2; [reflexivity|reflexivity|unfold config_field; rewrite strtou64_lu by done; reflexivity]|].
  destruct c. apply goes2_nil.
Qed.

(** All the members of the document. *)
Lemma objects_goes2 o : objects_ok o -> goes2 3 (member_events [] (objects_members o)) zero_objects o.
Proof.
  intros [[Hkl Hk] [Hsl Hs] [Hdl Hd] Hj Hz]. destruct o as [ks ss ds c].
  cbn [keyslots2 segments2 digests2 config2] in *. unfold objects_members.
  eapply member_goes2; [apply (numbered_goes2 (bytes "keyslots") 64 ks_type zero_keyslot keyslot_ok keyslot_doc at_keyslot
    put_keyslots ltac:(done) eq_refl (fun x Hx => proj2 (so_type x Hx)) zero_objects); [|done|done]|].
  { intros i l x Hi _ Hx. apply keyslot_goes2; [unfold LUKS2_NUM_KEYSLOTS; lia|done]. }
  eapply member_goes2; [apply members_goes2, goes2_nil|].
  eapply member_goes2; [apply (numbered_goes2 (bytes "segments") 1 seg_type zero_segment segment_ok segment_doc at_segment
    put_segments ltac:(done) eq_refl (fun x Hx => proj2 (go_type x Hx)) (put_keyslots ks zero_objects)); [|done|done]|].
  { intros i l x Hi _ Hx. apply segment_goes2; [unfold LUKS2_NUM_SEGMENTS; lia|done]. }
  eapply member_goes2; [apply (numbered_goes2 (bytes "digests") 65 dig_type zero_digest digest_ok digest_doc at_digest
    put_digests ltac:(done) eq_refl) with (o := put_segments ss (put_keyslots ks zero_objects)); [| |done|done]|].
  { intros x Hx. by rewrite (do_type x Hx). }
  { intros i l x Hi Hl Hx. apply digest_goes2; [unfold LUKS2_NUM_DIGESTS; lia|done|done]. }
  eapply member_goes2; [by apply config_goes2|]. apply goes2_nil.
Qed.

(** All the events, from the start of the reader. *)
Lemma objects_steps o :
  objects_ok o ->
  steps json2_step (events [] (JObject (objects_members o))) (mk_callback2 zero_objects 0) = Some (mk_callback2 o 0).
Proof.
  intros Ho. rewrite events_object, steps_cons, begin_step by lia. cbn [mbind option_bind].
  rewrite steps_app, (objects_goes2 o Ho 1%nat) by lia. done.
Qed.

(** ** The document is one that libjson supports *)

Lemma object2_supported ms : Forall (fun m => forallb reversible m.1 = true /\ supported m.2) ms -> supported (JObject ms).
Proof. intros Hm. by apply (members_supported_Forall ms). Qed.

Lemma text_supported s : text_ok s -> supported (JString s).
Proof. by intros []. Qed.
Lemma int_supported z : int_ok z -> supported (JInt z).
Proof. unfold int_ok. simpl. lia. Qed.
Lemma number_supported z : supported (number_doc z).
Proof. apply lu_reversible. Qed.
Lemma base64_supported b : supported (JString (base64_encode b)).
Proof. apply base64_reversible. Qed.

(** A member: its name is plain. *)
Ltac supports := repeat (apply Forall_cons; split; [split; [by vm_compute|]|]); try apply Forall_nil_2;
  try first [by apply text_supported | by apply int_supported | apply number_supported | apply base64_supported].

Lemma keyslot_supported k : keyslot_ok k -> supported (keyslot_doc k).
Proof.
  intros [[Ht _] Hk [Hkt Hks Hkh Hki Hkti Hkm Hkc _] Hat Hah Has Hart Hare Hark Haro Hars].
  apply object2_supported. supports.
  - apply object2_supported. unfold kdf_params. destruct (bool_decide _); cbn [app]; supports;
      by apply pbkdf_type_reversible.
  - apply object2_supported. supports.
  - apply object2_supported. supports.
Qed.

Lemma segment_supported s : segment_ok s -> supported (segment_doc s).
Proof.
  intros [[Ht _] Ho Hv Hz He Hs Hit Hin]. apply object2_supported. unfold integrity_members. cbn [app]. supports.
  - destruct (_ =? _); [by vm_compute|apply number_supported].
  - destruct (bool_decide _); supports. apply object2_supported. destruct Hin as [-> ->]. supports;
      apply text_supported, none_ok.
Qed.

Lemma marks_supported n l : marks_ok n l -> (n <= 64)%nat -> supported (marks_doc l).
Proof.
  intros [Hl _] Hn. unfold marks_doc. split.
  - rewrite length_map. unfold marked. pose proof (length_filter (fun i => default 0 (l !! i) <> 0) (seq 0 (length l))) as Hf.
    rewrite length_seq in Hf. lia.
  - apply (all_supported_Forall (map _ (marked l))). apply Forall_map, Forall_forall. intros i _. apply number_supported.
Qed.

Lemma digest_supported d : digest_ok d -> supported (digest_doc d).
Proof.
  intros [Ht Hk Hs [Hh Hhs] Hi' Hsalt _]. apply object2_supported. supports.
  - rewrite Ht. apply text_supported, pbkdf2_ok.
  - by apply (marks_supported 64).
  - apply (marks_supported 1); [done|lia].
Qed.

Lemma numbered_supported {R} (doc : R -> json) (l : list (nat * R)) :
  Forall (fun p => supported (doc p.2)) l -> supported (JObject (numbered_members doc l)).
Proof.
  intros Hl. apply object2_supported. unfold numbered_members. apply Forall_map. eapply Forall_impl; [exact Hl|].
  intros p Hp. split; [apply lu_reversible|done].
Qed.

Lemma objects_supported o : objects_ok o -> supported (JObject (objects_members o)).
Proof.
  intros [[_ Hk] [_ Hs] [_ Hd] _ _]. apply object2_supported. supports.
  - apply numbered_supported. eapply Forall_impl; [apply (used_ok ks_type zero_keyslot keyslot_ok); done|].
    intros p. apply keyslot_supported.
  - done.
  - apply numbered_supported. eapply Forall_impl; [apply (used_ok seg_type zero_segment segment_ok); done|].
    intros p. apply segment_supported.
  - apply numbered_supported. eapply Forall_impl; [apply (used_ok dig_type zero_digest digest_ok); done|].
    intros p. apply digest_supported.
  - apply object2_supported. supports.
Qed.

Lemma object_nesting n ms : Forall (fun m => nesting m.2 <= n)%nat ms -> (nesting (JObject ms) <= S n)%nat.
Proof.
  intros Hm. cbn [nesting]. apply le_n_S, list_max_le. apply List.Forall_map. eapply Forall_impl; [exact Hm|]. by intros [].
Qed.

Lemma numbered_nesting {R} n (doc : R -> json) l :
  (forall x, nesting (doc x) <= n)%nat -> (nesting (JObject (numbered_members doc l)) <= S n)%nat.
Proof. intros Hd. apply object_nesting, Forall_map, Forall_forall. intros p _. apply Hd. Qed.

Ltac shallow := repeat (apply Forall_cons; split; [simpl; lia|]); try apply Forall_nil_2.

Lemma objects_nesting o : (nesting (JObject (objects_members o)) <= JSON_MAX_NESTING)%nat.
Proof.
  assert (forall k, nesting (keyslot_doc k) <= 2)%nat as Hk.
  { intros k. apply object_nesting. shallow. apply Forall_cons. split; [|shallow]. apply object_nesting.
    unfold kdf_params. destruct (bool_decide _); cbn [app]; shallow. }
  assert (forall s, nesting (segment_doc s) <= 2)%nat as Hs.
  { intros s. apply object_nesting. unfold integrity_members. destruct (_ =? _), (bool_decide _); cbn [app]; shallow. }
  assert (forall d, nesting (digest_doc d) <= 2)%nat as Hd.
  { intros d. apply object_nesting.
    assert (forall l, nesting (marks_doc l) <= 1)%nat as Hm.
    { intros l. unfold marks_doc. cbn [nesting]. apply list_max_le, List.Forall_map, List.Forall_map, List.Forall_forall.
      intros i _. simpl. lia. }
    apply Forall_cons; split; [simpl; lia|]. apply Forall_cons; split; [apply Hm|]. apply Forall_cons; split; [apply Hm|].
    shallow. }
  etransitivity; [apply (object_nesting 3)|unfold JSON_MAX_NESTING; lia].
  apply Forall_cons; split; [by apply numbered_nesting|]. apply Forall_cons; split; [simpl; lia|].
  apply Forall_cons; split; [by apply numbered_nesting|]. apply Forall_cons; split; [by apply numbered_nesting|]. shallow.
Qed.

(** The text that [_to_json] writes, with anything after it, is parsed to the
    objects. *)
Lemma objects_parsed o rest ja_malloc allow fuel :
  (forall n size, ja_malloc n size = true) -> objects_ok o -> Forall is_byte rest ->
  let t := render (JObject (objects_members o)) ++ rest in
  (2 * length t + 3 <= fuel)%nat ->
  exists s', json_parser_parse _json_read_callback ja_malloc fuel
      (start_parse (t ++ [0]) (length t) allow (mk_callback2 zero_objects 0)) = Done (inr tt, s') /\
    user s' = mk_callback2 o 0.
Proof.
  intros Hm Ho Hr t Hf.
  edestruct (parse_follows _json_read_callback json2_step ja_malloc (objects_members o) rest allow fuel)
    as (s' & Hp & Hu & _); [done|by apply objects_supported|apply objects_nesting|done|done|by apply objects_steps|].
  by exists s'.
Qed.
End Read.
