(* ===== verification/Luks2.v ===== *)
(** * Luks2: LUKS2 volumes (src/vicsetup/libvicsetup/luks2.c, integrity.c)

    Reading and rewriting the two headers of a volume, its key slots, and the
    operations on volumes.  An operation works on the device and ends with a
    result or a fault ([VM]); what is written before an error stays written.
    Argon2, the ciphers and the hashes are parameters, and so is what
    dm-integrity does to a volume that is formatted with integrity protection;
    random bytes are arguments.  Pointers passed by the callers are not null,
    except where the code gives null a meaning. *)

From Stdlib Require Import String.
From S2P Require Import Prelude JsonText JsonParser VicCrypto Blockdev Uuid Luks1Header Luks1.
From S2P Require Import Luks2Header Luks2Json.

Definition DEFAULT_AF_STRIPES : Z := 4000.
Definition DEFAULT_KDF_TYPE : text := bytes "argon2i".
Definition DEFAULT_KDF_HASH : text := bytes "sha256".
Definition DEFAULT_KDF_ITERATIONS : Z := 1000.
Definition DEFAULT_KDF_TIME : Z := 4.
Definition DEFAULT_KDF_MEMORY : Z := 744976.
Definition DEFAULT_KDF_CPUS : Z := 1.
Definition OVERHEAD_BYTES : Z := 16777216.
Definition MIN_DEVICE_BYTES : Z := 17825792.
Definition LUKS_DEFAULT_CIPHER : text := bytes "aes-xts-plain64".

#[export] Instance hash_type_eq_dec : EqDecision vic_hash_type_t.
Proof. solve_decision. Defined.

(** luks2_ext_hdr_t *)
Record luks2_ext_hdr_t : Type := mk_ext {
  phdr : luks2_hdr_t; shdr : luks2_hdr_t; objects : luks2_objects; ext_json_size : Z; ext_json_data : list Z }.

(** sizeof(luks2_ext_hdr_t) *)
Definition sizeof_luks2_ext_hdr : Z := 45000.

Definition ext_segment (e : luks2_ext_hdr_t) : luks2_segment_t := default zero_segment (segments2 (objects e) !! 0%nat).
Definition _get_integrity_type (e : luks2_ext_hdr_t) : text := int_type (seg_integrity (ext_segment e)).
Definition _get_encryption (e : luks2_ext_hdr_t) : text := seg_encryption (ext_segment e).

(** ** Results and effects *)

Definition VM (A : Type) : Type := blockdev_t -> outcome ((vic_result_t + A) * blockdev_t).
#[export] Instance VM_ret : MRet VM := fun A a d => Done (inr a, d).
#[export] Instance VM_bind : MBind VM := fun A B k m d =>
  match m d with
  | Failed f => Failed f
  | Done (inl r, d') => Done (inl r, d')
  | Done (inr a, d') => k a d'
  end.
(** RAISE; [throw VIC_OK] is a jump to the end with the result still VIC_OK. *)
Definition throw {A} (r : vic_result_t) : VM A := fun d => Done (inl r, d).
Definition device : VM blockdev_t := fun d => Done (inr d, d).
Definition or_throw {A} (o : option A) (r : vic_result_t) : VM A := match o with Some a => mret a | None => throw r end.
Definition of_sum {A} (s : vic_result_t + A) : VM A := match s with inr a => mret a | inl r => throw r end.
Definition lift_vm {A} (o : outcome A) : VM A := fun d => match o with Done a => Done (inr a, d) | Failed f => Failed f end.
(** CHECK of a call: every result but VIC_OK ends the caller. *)
Definition check {A} (m : VM A) : VM unit := fun d =>
  match m d with
  | Done (inl r, d') => if decide (r = VIC_OK) then Done (inr tt, d') else Done (inl r, d')
  | Done (inr _, d') => Done (inr tt, d')
  | Failed f => Failed f
  end.
(** A change of the device that may fail. *)
Definition change (f : blockdev_t -> option blockdev_t) (r : vic_result_t) : VM unit := fun d =>
  match f d with Some d' => Done (inr tt, d') | None => Done (inl r, d) end.

(** ** Integrity (integrity.c) *)

Definition vic_integrity_valid (s : text) : bool :=
  bool_decide (s ∈ [bytes "aead"; bytes "hmac(sha256)"; bytes "hmac(sha512)"; bytes "cmac(aes)"; bytes "poly1305"]).
Definition vic_integrity_tag_size (s : text) : option Z :=
  if bool_decide (s = bytes "aead") then Some 16
  else if bool_decide (s = bytes "hmac(sha256)") then Some 32
  else if bool_decide (s = bytes "hmac(sha512)") then Some 64
  else if bool_decide (s = bytes "cmac(aes)") then Some 16
  else if bool_decide (s = bytes "poly1305") then Some 16
  else None.
Definition vic_integrity_key_size (s : text) : Z :=
  if bool_decide (s = bytes "hmac(sha256)") then 32 else if bool_decide (s = bytes "hmac(sha512)") then 64 else 0.

(** The fields of vic_integrity_sb_t that are used. *)
Record vic_integrity_sb_t : Type := mk_sb { sb_magic : list Z; provided_data_sectors : Z }.
Definition integrity_magic : list Z := bytes "integrt" ++ [0].
Definition vic_integrity_read_sb (dev : blockdev_t) (off : Z) : vic_result_t + vic_integrity_sb_t :=
  if negb (block_size dev =? VIC_SECTOR_SIZE) then inl VIC_BAD_BLOCK_SIZE
  else
    match vic_blockdev_get dev (off / VIC_SECTOR_SIZE) 1 with
    | (VIC_OK, blk) =>
        let sb := mk_sb (sub 0 8 blk) (le_value (sub 16 8 blk)) in
        if bool_decide (sb_magic sb = integrity_magic) then inr sb else inl VIC_BAD_SIGNATURE
    | _ => inl VIC_FAILED
    end.

(** Argon2: the variant (true is argon2id), password, salt, time, memory, lanes
    and length. *)
Class Argon2 : Type := {
  argon2_ctx : bool -> list Z -> list Z -> Z -> Z -> Z -> nat -> option (list Z);
  argon2_ctx_length v p s t m c n k : argon2_ctx v p s t m c n = Some k -> length k = n }.

Section Luks2.
Context `{Algorithms} `{Ciphers} `{Argon2} `{Base64}.
(** Whether [calloc] and [malloc] find that many bytes, and the JSON parser's
    allocations; the byte after the parser's copy of the JSON area; what an
    uninitialized vic_key_t on the stack holds. *)
Variable calloc : Z -> bool.
Variable ja_malloc : nat -> Z -> bool.
Variable junk : Z.
Variable stack : list Z.

Definition vic_argon2 (id : bool) (pwd salt : list Z) (time memory cpus key_size : Z) : option (list Z) :=
  argon2_ctx id pwd salt (u32 time) (u32 memory) (u32 cpus) (Z.to_nat (u32 key_size)).

(** ** Ciphers *)

Definition _get_cipher_info (encryption : text) (key_bytes : Z) : option cipher_type :=
  if bool_decide (encryption = bytes "aes-xts-plain64") then
    let key_bits := u64 (key_bytes * 8) in
    if key_bits / 2 =? 128 then Some AES_128_XTS else if key_bits / 2 =? 256 then Some AES_256_XTS else None
  else None.

Definition _gen_iv (encryption : text) (key_bytes sector : Z) (key : list Z) : option (list Z) :=
  if bool_decide (encryption = bytes "aes-xts-plain64") then Some (le_bytes 8 sector ++ replicate 8 0)
  else
    hash ← vic_hashv VIC_HASH_SHA256 [take (Z.to_nat key_bytes) key];
    Some (aes_crypt_ecb hash (le_bytes 8 sector ++ replicate 8 0)).

Fixpoint crypt_sectors (n : nat) (op : bool) (t : cipher_type) (encryption : text) (key_bytes : Z) (key : list Z)
    (sector : Z) (data : list Z) : option (list Z) :=
  match n with
  | O => Some []
  | S n' =>
      iv ← _gen_iv encryption key_bytes sector key;
      rest ← crypt_sectors n' op t encryption key_bytes key (u64 (sector + 1)) (drop 512 data);
      Some (cipher_crypt op t key iv (take 512 data) ++ rest)
  end.

(** The output buffer is zeroed before. *)
Definition _crypt (op : bool) (encryption : text) (key_bytes : Z) (key data_in : list Z) (sector : Z) : option (list Z) :=
  t ← _get_cipher_info encryption key_bytes;
  out ← crypt_sectors (length data_in / 512) op t encryption key_bytes key sector data_in;
  Some (out ++ replicate (length data_in - length out) 0).
Definition _encrypt := _crypt true.
Definition _decrypt := _crypt false.

(** ** Key material *)

Definition _read_key_material (dev : blockdev_t) (off sz : Z) : option (list Z) :=
  match vic_blockdev_get dev (off / VIC_SECTOR_SIZE) (sz / VIC_SECTOR_SIZE) with
  | (VIC_OK, data) => Some (data ++ replicate (Z.to_nat sz - length data) 0)
  | _ => None
  end.

Definition _write_key_material (ks : luks2_keyslot_t) (buf : option (list Z)) (dev : blockdev_t) : option blockdev_t :=
  let a := ks_area ks in
  let data := match buf with
              | Some b => Some b
              | None => if calloc (area_size a) then Some (replicate (Z.to_nat (area_size a)) 0) else None
              end in
  match data with
  | None => None
  | Some b =>
      match vic_blockdev_put dev (area_offset a / VIC_SECTOR_SIZE) b (area_size a / VIC_SECTOR_SIZE) with
      | (VIC_OK, dev) => Some dev
      | _ => None
      end
  end.

(** ** Reading the header *)

Definition parse_json (json_data : list Z) : outcome (option luks2_objects) :=
  match json_parser_init true true (length json_data) true true true true (Some true) with
  | (JSON_OK, Some parser) =>
      '(r, s) ← json_parser_parse _json_read_callback ja_malloc (2 * length json_data + 3)
                  (PState (json_data ++ [junk]) parser JSON_OK 0 0 (mk_callback2 zero_objects 0));
      match r with
      | inl _ => Done None
      | inr _ => Done (if decide (cb_level (user s) = 0%nat) then Some (cb_objects (user s)) else None)
      end
  | _ => Done None
  end.

(** "Verify the check sum". *)
Definition csum_ok (h : luks2_hdr_t) (json_data : list Z) : bool :=
  match _calculate_csum h json_data with Some hash => csum_matches h hash | None => false end.

(** "Read and verify the secondary header". *)
Definition read_secondary (dev : blockdev_t) (hdr : luks2_hdr_t) (json_data : list Z) (json_size : Z) : option luks2_hdr_t :=
  s ← _read_binary_hdr dev false;
  if negb (csum_ok s json_data) then None
  else if negb (bool_decide (h_magic s = _magic_2nd)) then None
  else if negb (h_version s =? h_version hdr) then None
  else if negb (h_hdr_size s =? h_hdr_size hdr) then None
  else if negb (h_seqid s =? h_seqid hdr) then None
  else if negb (bool_decide (cstr (h_label s) = cstr (h_label hdr))) then None
  else if negb (bool_decide (cstr (h_csum_alg s) = cstr (h_csum_alg hdr))) then None
  else if negb (bool_decide (cstr (h_uuid s) = cstr (h_uuid hdr))) then None
  else if negb (bool_decide (cstr (h_subsystem s) = cstr (h_subsystem hdr))) then None
  else if negb (h_hdr_offset s =? h_hdr_size hdr) then None
  else if negb (json_size =? h_hdr_size s - sizeof_luks2_hdr) then None
  else if negb (calloc json_size) then None
  else
    data ← _read_json_area dev s json_size;
    if bool_decide (data = json_data) then Some s else None.

Definition luks2_read_hdr (dev : blockdev_t) : outcome (option luks2_ext_hdr_t) :=
  if negb (_is_valid_device dev) then Done None
  else
    match _read_binary_hdr dev true with
    | None => Done None
    | Some hdr =>
        let json_size := h_hdr_size hdr - sizeof_luks2_hdr in
        if negb (h_version hdr =? LUKS_VERSION_2) then Done None
        else if h_hdr_size hdr <? 16384 then Done None
        else if h_hdr_size hdr <? sizeof_luks2_hdr + 12 * 1024 then Done None
        else if negb (calloc (sizeof_luks2_ext_hdr + json_size)) then Done None
        else
          match list_find (fun p => p.1 = h_hdr_size hdr) _sec_hdr_offsets with
          | None => Done None
          | Some (_, (_, json_kbytes)) =>
              if negb (json_kbytes =? json_size / 1024) then Done None
              else
                match _read_json_area dev hdr json_size with
                | None => Done None
                | Some json_data =>
                    if bool_decide (vic_hash_type (cstr (h_csum_alg hdr)) = VIC_HASH_NONE) then Done None
                    else if negb (csum_ok hdr json_data) then Done None
                    else if negb (calloc json_size) then Done None
                    else
                      o ← parse_json json_data;
                      match o with
                      | None => Done None
                      | Some o =>
                          match read_secondary dev hdr json_data json_size with
                          | None => Done None
                          | Some s => Done (Some (mk_ext hdr s o json_size json_data))
                          end
                      end
                end
          end
    end.

Definition read_ext : VM luks2_ext_hdr_t :=
  dev ← device; r ← lift_vm (luks2_read_hdr dev); or_throw r VIC_HEADER_READ_FAILED.

Definition valid_device (r : vic_result_t) : VM unit := dev ← device; if _is_valid_device dev then mret tt else throw r.

(** ** Finding a key *)

Definition _find_digest (o : luks2_objects) (keyslot_index : nat) : option luks2_digest_t :=
  snd <$> list_find (fun d => default 0 (dig_keyslots d !! keyslot_index) <> 0) (digests2 o).

(** The key that the password gives: into a vic_key_t of 128 bytes. *)
Definition derive_key (ks : luks2_keyslot_t) (pwd : list Z) : outcome (vic_result_t + list Z) :=
  let k := ks_kdf ks in let n := area_key_size (ks_area ks) in
  let store r e := match r with
                   | None => Done (inl e)
                   | Some key => if decide (sizeof_key < length key)%nat then Failed (BadPointer (Z.of_nat sizeof_key))
                                 else Done (inr (key ++ drop (length key) stack))
                   end in
  if bool_decide (kdf_type k = bytes "pbkdf2") then
    store (vic_pbkdf2 pwd (kdf_salt k) (kdf_iterations k) (kdf_hash k) n) VIC_PBKDF2_FAILED
  else if bool_decide (kdf_type k = bytes "argon2i") then
    store (vic_argon2 false pwd (kdf_salt k) (kdf_time k) (kdf_memory k) (kdf_cpus k) n) VIC_ARGON2I_FAILED
  else if bool_decide (kdf_type k = bytes "argon2id") then
    store (vic_argon2 true pwd (kdf_salt k) (kdf_time k) (kdf_memory k) (kdf_cpus k) n) VIC_ARGON2I_FAILED
  else Done (inr stack).

(** The key in use: the first [area.key_size] bytes of the vic_key_t. *)
Definition key_in_use (n : Z) (key : list Z) : list Z := take (Z.to_nat n) key.

(** [vic_afmerge] of the stripes in [plain] into a vic_key_t. *)
Definition merge_stripes (ks : luks2_keyslot_t) (plain : list Z) : outcome (vic_result_t + list Z) :=
  if Z.of_nat sizeof_key <? ks_key_size ks then Failed (BadPointer (Z.of_nat sizeof_key))
  else if Z.of_nat (length plain) <? ks_key_size ks * af_stripes (ks_af ks) then Failed (BadPointer (Z.of_nat (length plain)))
  else
    r ← vic_afmerge (ks_key_size ks) (af_stripes (ks_af ks)) (af_hash (ks_af ks)) plain;
    match r with
    | None => Done (inl VIC_AFMERGE_FAILED)
    | Some mk => Done (inr mk)
    end.

(** What a key slot holds under a password. *)
Definition candidate (dev : blockdev_t) (ks : luks2_keyslot_t) (pwd : list Z) : outcome (vic_result_t + list Z) :=
  let a := ks_area ks in
  if negb (bool_decide (ks_type ks = bytes "luks2")) then Done (inl VIC_UNKNOWN_KEYSLOT_TYPE)
  else
    r ← derive_key ks pwd;
    match r with
    | inl e => Done (inl e)
    | inr key =>
        if negb (calloc (area_size a)) then Done (inl VIC_OUT_OF_MEMORY)
        else
          match _read_key_material dev (area_offset a) (area_size a) with
          | None => Done (inl VIC_KEY_MATERIAL_READ_FAILED)
          | Some cipher =>
              match _decrypt (area_encryption a) (area_key_size a) (key_in_use (area_key_size a) key) cipher 0 with
              | None => Done (inl VIC_DECRYPT_FAILED)
              | Some plain => merge_stripes ks plain
              end
          end
    end.

(** The digest of a candidate: whether it is the one in the header. *)
Definition digest_matches (d : luks2_digest_t) (mk : list Z) : vic_result_t + bool :=
  match vic_hash_size (dig_hash d) with
  | None => inl VIC_UNEXPECTED
  | Some n =>
      if bool_decide (dig_type d = bytes "pbkdf2") then
        match vic_pbkdf2 mk (dig_salt d) (dig_iterations d) (dig_hash d) n with
        | None => inl VIC_PBKDF2_FAILED
        | Some x => inr (bool_decide (take (Z.to_nat n) (dig_digest d) = x))
        end
      else inl VIC_UNSUPPORTED
  end.
Definition check_digest (o : luks2_objects) (i : nat) (mk : list Z) : vic_result_t + bool :=
  match _find_digest o i with None => inl VIC_DIGEST_NOT_FOUND | Some d => digest_matches d mk end.

(** The loop over the key slots, from index [i]. *)
Fixpoint find_keyslots (dev : blockdev_t) (o : luks2_objects) (pwd : list Z) (i : nat) (l : list luks2_keyslot_t) :
    outcome (vic_result_t + (nat * list Z)) :=
  match l with
  | [] => Done (inl VIC_NOT_FOUND)
  | ks :: l' =>
      if bool_decide (ks_type ks = []) then find_keyslots dev o pwd (S i) l'
      else
        r ← candidate dev ks pwd;
        match r with
        | inl e => Done (inl e)
        | inr mk =>
            match check_digest o i mk with
            | inl e => Done (inl e)
            | inr true => Done (inr (i, mk))
            | inr false => find_keyslots dev o pwd (S i) l'
            end
        end
  end.

(** The index and the key (of the slot's [key_size]). *)
Definition _find_key_by_pwd (e : luks2_ext_hdr_t) (pwd : list Z) : VM (nat * list Z) :=
  dev ← device; r ← lift_vm (find_keyslots dev (objects e) pwd 0 (keyslots2 (objects e))); of_sum r.

Definition luks2_recover_master_key (pwd : list Z) : VM (list Z) :=
  _ ← valid_device VIC_BAD_DEVICE;
  e ← read_ext;
  '(_, mk) ← _find_key_by_pwd e pwd;
  mret mk.

(** ** New key slots and headers *)

Definition strlcpy (n : nat) (s : text) : text := take (n - 1) s.

Definition _init_keyslot (keyslot_cipher : text) (key_size area_key : Z) (pbkdf_type : text) (pbkdf2_hash : option text)
    (pbkdf2_iterations argon2_time argon2_memory argon2_cpus : Z) (index : nat) (rsalt : list Z) : option luks2_keyslot_t :=
  let asize := vic_round_up (u64 (DEFAULT_AF_STRIPES * key_size)) 4096 in
  let aoffset := u64 (DEFAULT_HDR_SIZE * 2 + u64 (asize * Z.of_nat index)) in
  if key_size =? 0 then None
  else if negb (_valid_pbkdf_type pbkdf_type) then None
  else
    let hash := default DEFAULT_KDF_HASH pbkdf2_hash in
    match vic_hash_size hash with
    | None => None
    | Some _ =>
        let pb := bool_decide (pbkdf_type = bytes "pbkdf2") in
        let ar := bool_decide (take 7 pbkdf_type = bytes "argon2i") in
        let or_default (x d : Z) := if truthy x then x else d in
        if decide (32 <= length pbkdf_type)%nat then None
        else if pb && bool_decide (32 <= length hash)%nat then None
        else
          Some (mk_keyslot (bytes "luks2") key_size
            (mk_kdf pbkdf_type rsalt (if pb then hash else [])
               (if pb then or_default pbkdf2_iterations DEFAULT_KDF_ITERATIONS else 0)
               (if negb pb && ar then or_default argon2_time DEFAULT_KDF_TIME else 0)
               (if negb pb && ar then or_default argon2_memory DEFAULT_KDF_MEMORY else 0)
               (if negb pb && ar then or_default argon2_cpus DEFAULT_KDF_CPUS else 0))
            (mk_af (bytes "luks1") (strlcpy 32 hash) DEFAULT_AF_STRIPES)
            (mk_area (bytes "raw") (strlcpy 32 keyslot_cipher) area_key aoffset asize))
    end.

(** A header with its checksum. *)
Definition set_csum (h : luks2_hdr_t) (hash : list Z) : luks2_hdr_t := with_csum (hash ++ replicate (64 - length hash) 0) h.

(** The JSON area: the text and zeros. *)
Definition json_area (o : luks2_objects) (json_size : Z) : outcome (option (list Z)) :=
  json ← _to_json o;
  Done (if json_size <=? Z.of_nat (length json) then None
        else Some (json ++ replicate (Z.to_nat json_size - length json) 0)).

(** [rsalt], [rdsalt]: the random salts of the header and of the digest.  A
    result of VIC_OK without a header is the jump after a failed checksum. *)
Definition _initialize_hdr (label subsystem : option text) (key : list Z) (cipher uuid hash : text) (iterations : Z)
    (integrity : option text) (rsalt rdsalt : list Z) : outcome (vic_result_t + luks2_ext_hdr_t) :=
  let hdr_size := DEFAULT_HDR_SIZE in
  let hdr := mk_hdr2 LUKS_MAGIC_1ST LUKS_VERSION_2 hdr_size 1 (pad 48 (strlcpy 48 (default [] label)))
               (pad 32 DEFAULT_HASH) rsalt (pad 40 uuid) (pad 48 (strlcpy 48 (default [] subsystem))) 0
               (replicate 184 0) (replicate 64 0) (replicate 3584 0) in
  let keyslots_size := OVERHEAD_BYTES - 2 * hdr_size in
  let offset := 2 * hdr_size + keyslots_size in
  if negb (calloc (sizeof_luks2_ext_hdr + (DEFAULT_HDR_SIZE - sizeof_hdr))) then Done (inl VIC_OUT_OF_MEMORY)
  else
  match match integrity with
        | None => inr (mk_integrity [] [] [])
        | Some i => if negb (vic_integrity_valid i) then inl VIC_BAD_INTEGRITY_TYPE
                    else if decide (32 <= length i)%nat then inl VIC_BUFFER_TOO_SMALL
                    else inr (mk_integrity i (bytes "none") (bytes "none"))
        end with
  | inl e => Done (inl e)
  | inr i =>
      let s := mk_segment (bytes "crypt") offset 0 (2 ^ 64 - 1) (strlcpy 32 cipher) VIC_SECTOR_SIZE i in
      match vic_hash_size hash with
      | None => Done (inl VIC_UNEXPECTED)
      | Some n =>
          match vic_pbkdf2 key rdsalt iterations (strlcpy 32 hash) n with
          | None => Done (inl VIC_PBKDF2_FAILED)
          | Some x =>
              let d := mk_digest2 (bytes "pbkdf2") (replicate 64 0) [1] (strlcpy 32 hash) iterations rdsalt
                         (x ++ replicate (64 - length x) 0) in
              let json_size := hdr_size - sizeof_luks2_hdr in
              let o := mk_objects (replicate 64 zero_keyslot) [s] (d :: replicate 64 zero_digest)
                         (mk_config2 json_size keyslots_size) in
              a ← json_area o json_size;
              match a with
              | None => Done (inl VIC_FAILED)
              | Some data =>
                  match _calculate_csum hdr data with
                  | None => Done (inl VIC_OK)
                  | Some c => Done (inr (mk_ext (set_csum hdr c) (hdr2_of (replicate 4096 0)) o json_size data))
                  end
              end
          end
      end
  end.

(** The material of a key slot for a key and a password; [rsplit]: the random
    stripes. *)
Definition _generate_key_material (ks : luks2_keyslot_t) (key pwd rsplit : list Z) : outcome (vic_result_t + list Z) :=
  let a := ks_area ks in
  if negb (calloc (area_size a)) then Done (inl VIC_OUT_OF_MEMORY)
  else
    r ← derive_key ks pwd;
    match r with
    | inl e => Done (inl e)
    | inr pkey =>
        r ← vic_afsplit (af_hash (ks_af ks)) (take (Z.to_nat (ks_key_size ks)) key) (ks_key_size ks)
              (af_stripes (ks_af ks)) rsplit;
        match r with
        | None => Done (inl VIC_AFSPLIT_FAILED)
        | Some split =>
            if decide (Z.to_nat (area_size a) < length split)%nat then Failed (BadPointer (area_size a))
            else
              let plain := split ++ replicate (Z.to_nat (area_size a) - length split) 0 in
              match _encrypt (area_encryption a) (area_key_size a) (key_in_use (area_key_size a) pkey) plain 0 with
              | None => Done (inl VIC_ENCRYPT_FAILED)
              | Some cipher => Done (inr cipher)
              end
        end
    end.

Definition _get_payload_size_in_sectors (dev : blockdev_t) (payload_offset : Z) : vic_result_t + Z :=
  let n := vic_blockdev_get_num_blocks dev in
  if n <=? payload_offset then inl VIC_DEVICE_TOO_SMALL else inr (n - payload_offset).

(** ** Writing the header *)

(** [_write_binary_hdr] and [_write_json_area] of one of the headers. *)
Definition put_part (h : luks2_hdr_t) (primary : bool) (data : list Z) (json_size : Z) : VM unit :=
  _ ← change (fun dev => _write_binary_hdr dev h primary) VIC_FAILED;
  change (fun dev => _write_json_area dev h data json_size) VIC_FAILED.

(** The same with a new checksum. *)
Definition write_part (h : luks2_hdr_t) (primary : bool) (data : list Z) (json_size : Z) : VM luks2_hdr_t :=
  match _calculate_csum h data with
  | None => throw VIC_OK
  | Some c => _ ← put_part (set_csum h c) primary data json_size; mret (set_csum h c)
  end.

Definition _write_hdr (e : luks2_ext_hdr_t) : VM luks2_ext_hdr_t :=
  a ← lift_vm (json_area (objects e) (ext_json_size e));
  data ← or_throw a VIC_FAILED;
  p ← write_part (with_seqid (u64 (h_seqid (phdr e) + 1)) (phdr e)) true data (ext_json_size e);
  s ← write_part (with_seqid (u64 (h_seqid (shdr e) + 1)) (shdr e)) false data (ext_json_size e);
  mret (mk_ext p s (objects e) (ext_json_size e) data).

(** The secondary header of a new volume. *)
Definition secondary_of (h : luks2_hdr_t) : luks2_hdr_t :=
  mk_hdr2 _magic_2nd (h_version h) (h_hdr_size h) (h_seqid h) (h_label h) (h_csum_alg h) (h_salt h) (h_uuid h)
    (h_subsystem h) (h_hdr_size h) (h_padding h) (h_csum h) (h_padding4096 h).

(** What the device mapper does with a volume that has integrity protection. *)
Variable format_integrity : luks2_ext_hdr_t -> list Z -> VM unit.

(** [mk]: the caller's key, if any; [rkey]: 128 random bytes. *)
Definition luks2_format (label subsystem cipher uuid hash : option text) (iterations : Z) (mk : option (list Z))
    (integrity : option text) (rkey rsalt rdsalt ruuid : list Z) : VM unit :=
  _ ← valid_device VIC_BAD_PARAMETER;
  _ ← (if match uuid with Some u => negb (vic_uuid_valid u) | None => false end then throw VIC_BAD_UUID else mret tt);
  let uuid := match uuid with Some u => u | None => vic_uuid_generate ruuid end in
  let hash := default DEFAULT_HASH hash in
  _ ← (if match mk with Some k => bool_decide (k = []) | None => false end then throw VIC_BAD_PARAMETER else mret tt);
  _ ← (if match mk with Some k => bool_decide (sizeof_key < length k)%nat | None => false end then throw VIC_KEY_TOO_BIG
       else mret tt);
  let key := match mk with Some k => k | None => rkey end in
  let cipher := default LUKS_DEFAULT_CIPHER cipher in
  let iterations := if iterations <? LUKS_MIN_MK_ITERATIONS then LUKS_MIN_MK_ITERATIONS else iterations in
  dev ← device;
  let n := vic_blockdev_get_num_blocks dev in
  _ ← (if u64 (n * VIC_SECTOR_SIZE) <? MIN_DEVICE_BYTES then throw VIC_DEVICE_TOO_SMALL else mret tt);
  r ← lift_vm (_initialize_hdr label subsystem key cipher uuid hash iterations integrity rsalt rdsalt);
  (* after VIC_OK without a header the null pointer is used *)
  e ← match r with inl VIC_OK => lift_vm (Failed (BadPointer 0)) | _ => of_sum r end;
  _ ← (if n <=? seg_offset (ext_segment e) / VIC_SECTOR_SIZE then throw VIC_DEVICE_TOO_SMALL else mret tt);
  _ ← put_part (phdr e) true (ext_json_data e) (ext_json_size e);
  s ← write_part (secondary_of (phdr e)) false (ext_json_data e) (ext_json_size e);
  match integrity with None => mret tt | Some _ => format_integrity e key end.

(** ** Key slots *)

Definition _find_free_keyslot (o : luks2_objects) : option nat := fst <$> list_find (fun k => ks_type k = []) (keyslots2 o).

Definition with_objects (o : luks2_objects) (e : luks2_ext_hdr_t) : luks2_ext_hdr_t :=
  mk_ext (phdr e) (shdr e) o (ext_json_size e) (ext_json_data e).
(** [ext->keyslots[i] = ks] and [ext->digests[0].keyslots[i] = m]. *)
Definition put_keyslot (i : nat) (ks : luks2_keyslot_t) (m : Z) (o : luks2_objects) : luks2_objects :=
  at_digest 0 (fun d => set_dig_keyslots (<[i := m]> (dig_keyslots d)) d) (at_keyslot (Z.of_nat i) (fun _ => ks) o).

Record vic_kdf_t : Type := mk_vic_kdf {
  vk_hash : option text; vk_iterations : Z; vk_time : Z; vk_memory : Z; vk_cpus : Z }.

Definition _get_default_kdf (kdf_type : text) : option vic_kdf_t :=
  if bool_decide (kdf_type = bytes "pbkdf2") then Some (mk_vic_kdf (Some (bytes "sha256")) DEFAULT_KDF_ITERATIONS 0 0 0)
  else if bool_decide (take 7 kdf_type = bytes "argon2i") then
    Some (mk_vic_kdf None 0 DEFAULT_KDF_TIME DEFAULT_KDF_MEMORY DEFAULT_KDF_CPUS)
  else None.

(** "Handle kdf". *)
Definition handle_kdf (kdf_type : option text) (kdf : option vic_kdf_t) : vic_result_t + (text * vic_kdf_t) :=
  let t := default DEFAULT_KDF_TYPE kdf_type in
  if negb (_valid_pbkdf_type t) then inl VIC_BAD_PARAMETER
  else match kdf with
       | Some k => inr (t, k)
       | None => match _get_default_kdf t with Some k => inr (t, k) | None => inl VIC_BAD_PARAMETER end
       end.

(** "Generate and write the key material". *)
Definition write_material (ks : luks2_keyslot_t) (key pwd rsplit : list Z) : VM unit :=
  r ← lift_vm (_generate_key_material ks key pwd rsplit);
  data ← of_sum r;
  change (_write_key_material ks (Some data)) VIC_KEY_MATERIAL_WRITE_FAILED.

(** "Add a new key slot" and what follows: the header first, then the
    material. *)
Definition add_keyslot (e : luks2_ext_hdr_t) (keyslot_cipher kdf_type : text) (kdf : vic_kdf_t) (key pwd : list Z)
    (rsalt rsplit : list Z) : VM unit :=
  let key_size := Z.of_nat (length key) in
  let area_key := u64 (key_size - vic_integrity_key_size (_get_integrity_type e)) in
  i ← or_throw (_find_free_keyslot (objects e)) VIC_OUT_OF_KEYSLOTS;
  ks ← or_throw (_init_keyslot keyslot_cipher key_size area_key kdf_type (vk_hash kdf) (vk_iterations kdf) (vk_time kdf)
                   (vk_memory kdf) (vk_cpus kdf) i rsalt) VIC_FAILED;
  _ ← check (_write_hdr (with_objects (put_keyslot i ks 1 (objects e)) e));
  write_material ks key pwd rsplit.

Definition luks2_add_key (keyslot_cipher kdf_type : option text) (kdf : option vic_kdf_t) (pwd new_pwd : list Z)
    (rsalt rsplit : list Z) : VM unit :=
  _ ← valid_device VIC_BAD_PARAMETER;
  '(t, kdf) ← of_sum (handle_kdf kdf_type kdf);
  e ← read_ext;
  '(i, key) ← _find_key_by_pwd e pwd;
  let cipher := default (area_encryption (ks_area (default zero_keyslot (keyslots2 (objects e) !! i)))) keyslot_cipher in
  add_keyslot e cipher t kdf key new_pwd rsalt rsplit.

Definition luks2_add_key_by_master_key (keyslot_cipher : text) (kdf_type : option text) (kdf : option vic_kdf_t)
    (master_key pwd : list Z) (rsalt rsplit : list Z) : VM unit :=
  _ ← valid_device VIC_BAD_PARAMETER;
  '(t, kdf) ← of_sum (handle_kdf kdf_type kdf);
  e ← read_ext;
  add_keyslot e keyslot_cipher t kdf master_key pwd rsalt rsplit.

Definition luks2_change_key (old_pwd new_pwd rsplit : list Z) : VM unit :=
  _ ← valid_device VIC_BAD_PARAMETER;
  e ← read_ext;
  '(i, key) ← _find_key_by_pwd e old_pwd;
  _ ← check (_write_hdr e);
  write_material (default zero_keyslot (keyslots2 (objects e) !! i)) key new_pwd rsplit.

(** The number of key slots in use. *)
Definition count_keyslots (o : luks2_objects) : nat := length (filter (fun k => ks_type k <> []) (keyslots2 o)).

Definition luks2_remove_key (pwd : list Z) : VM unit :=
  _ ← valid_device VIC_BAD_PARAMETER;
  e ← read_ext;
  '(i, _) ← _find_key_by_pwd e pwd;
  _ ← (if decide (count_keyslots (objects e) = 1%nat) then throw VIC_LAST_KEYSLOT else mret tt);
  let ks := zero_keyslot in
  _ ← check (_write_hdr (with_objects (put_keyslot i ks 0 (objects e)) e));
  change (_write_key_material ks None) VIC_KEY_MATERIAL_WRITE_FAILED.

(** The version, the offset and the size of the payload. *)
Definition luks2_stat : VM (Z * Z * Z) :=
  _ ← valid_device VIC_BAD_PARAMETER;
  e ← read_ext;
  dev ← device;
  let nbytes := u64 (vic_blockdev_get_num_blocks dev * VIC_SECTOR_SIZE) in
  let off := seg_offset (ext_segment e) in
  mret (LUKS_VERSION_1, off, u64 (nbytes - off)).
End Luks2.
