(* ===== verification/Luks2Props.v ===== *)
(** * Luks2Props: LUKS2 volumes keep what is written to them

    The header that [_write_hdr] writes is the one that [luks2_read_hdr] reads,
    with all its objects; what formatting, adding, changing and removing keys do
    to a volume. *)

From Stdlib Require Import String.
From S2P Require Import Prelude JsonText JsonParser JsonPrint JsonNumbers JsonStrings JsonSafety JsonComplete VicCrypto.
From S2P Require Import Blockdev Uuid Luks1Header Luks1 Luks1Props Luks2Header Luks2Json Luks2Doc Luks2Read Luks2.

(** ** Volumes *)

Definition hash_usable (alg : text) : Prop := vic_hash_size alg <> None /\ vic_hash_init (vic_hash_type alg) = true.

(** The headers of a volume agree: one at the start, one after 16 kilobytes. *)
Record ext_ok `{Base64} (e : luks2_ext_hdr_t) : Prop := {
  eo_phdr : hdr2_valid (phdr e); eo_shdr : hdr2_valid (shdr e); eo_magic : h_magic (shdr e) = _magic_2nd;
  eo_psize : h_hdr_size (phdr e) = DEFAULT_HDR_SIZE; eo_ssize : h_hdr_size (shdr e) = DEFAULT_HDR_SIZE;
  eo_poff : h_hdr_offset (phdr e) = 0; eo_soff : h_hdr_offset (shdr e) = DEFAULT_HDR_SIZE;
  eo_seqid : h_seqid (shdr e) = h_seqid (phdr e); eo_label : h_label (shdr e) = h_label (phdr e);
  eo_alg : h_csum_alg (shdr e) = h_csum_alg (phdr e); eo_uuid : h_uuid (shdr e) = h_uuid (phdr e);
  eo_subsystem : h_subsystem (shdr e) = h_subsystem (phdr e);
  eo_hash : hash_usable (cstr (h_csum_alg (phdr e))); eo_json : ext_json_size e = 12288 }.

(** The objects can be stored in the JSON area. *)
Definition storable `{Base64} (o : luks2_objects) : Prop :=
  objects_ok o /\ Z.of_nat (length (render (JObject (objects_members o)))) < 12288.

(** A device with room for the headers. *)
Definition volume2 (d : blockdev_t) : Prop := writable d /\ inside d 0 64.

(** A step that succeeds, and one that fails. *)
Lemma vm_ok {A B} (m : VM A) (k : A -> VM B) d a d' : m d = Done (inr a, d') -> (m ≫= k) d = k a d'.
Proof. intros E. unfold mbind, VM_bind. by rewrite E. Qed.
Lemma vm_error {A B} (m : VM A) (k : A -> VM B) d r d' : m d = Done (inl r, d') -> (m ≫= k) d = Done (inl r, d').
Proof. intros E. unfold mbind, VM_bind. by rewrite E. Qed.

Lemma check_ok {A B} (m : VM A) (k : unit -> VM B) d a d' : m d = Done (inr a, d') -> (check m ≫= k) d = k tt d'.
Proof. intros E. apply vm_ok. unfold check. by rewrite E. Qed.
Lemma check_error {A B} (m : VM A) (k : unit -> VM B) d r d' :
  m d = Done (inl r, d') -> r <> VIC_OK -> (check m ≫= k) d = Done (inl r, d').
Proof. intros E Hr. apply vm_error. unfold check. rewrite E. by rewrite decide_False. Qed.

(** A list of zeros is not looked into. *)
#[local] Opaque replicate.

Section Write.
Context `{Algorithms} `{Base64}.

(** ** Checksums *)

Lemma csum_length h data c : _calculate_csum h data = Some c -> (length c <= 64)%nat.
Proof.
  unfold _calculate_csum. destruct (bool_decide _); [done|].
  destruct (vic_hash_size _); [|done]. unfold vic_hashv.
  destruct (vic_hash_type _) eqn:E; cbn [vic_hash_init]; try done; intros [= <-]; rewrite mbedtls_hash_length; simpl; lia.
Qed.

Lemma csum_total h data :
  hash_usable (cstr (h_csum_alg h)) -> data <> [] -> exists c, _calculate_csum h data = Some c.
Proof.
  intros [Hs Hi] Hd. unfold _calculate_csum. rewrite bool_decide_eq_false_2 by done.
  destruct (vic_hash_size _); [|done]. unfold vic_hashv. destruct (vic_hash_type _); cbn [vic_hash_init] in *; try done; by eexists.
Qed.

(** The stored checksum does not matter for the checksum. *)
Lemma csum_with_csum h c data : _calculate_csum (with_csum c h) data = _calculate_csum h data.
Proof. done. Qed.

Lemma set_csum_ok h data c : _calculate_csum h data = Some c -> csum_ok (set_csum h c) data = true.
Proof.
  intros Hc. unfold csum_ok, set_csum. rewrite csum_with_csum, Hc. unfold csum_matches. cbn [h_csum with_csum].
  apply bool_decide_eq_true_2. by rewrite take_app_le, take_ge by lia.
Qed.

Lemma set_csum_valid h data c : hdr2_valid h -> _calculate_csum h data = Some c -> hdr2_valid (set_csum h c).
Proof.
  intros ([] & Hm & Hv) Hc. apply csum_length in Hc. split; [|done].
  split; try done. cbn [h_csum set_csum with_csum]. rewrite length_app, length_replicate. lia.
Qed.

(** ** Writing one of the headers *)

(** What is at [b]: a header with its checksum, and the JSON area. *)
Definition part_at (d : blockdev_t) (b : Z) (h : luks2_hdr_t) (data : list Z) : Prop :=
  holds_hdr2 d b h /\ vic_blockdev_get d (b + 8) 24 = (VIC_OK, data).

Lemma keeps_sub d d' b n b' n' :
  keeps d d' b n -> inside d b' n' -> b' + n' <= b \/ b + n <= b' -> vic_blockdev_get d' b' n' = vic_blockdev_get d b' n'.
Proof. intros Hk. apply Hk. Qed.

Lemma keeps_trans d1 d2 d3 b n b1 n1 b2 n2 :
  same_dev d1 d2 -> keeps d1 d2 b1 n1 -> keeps d2 d3 b2 n2 -> b <= b1 -> b1 + n1 <= b + n -> b <= b2 -> b2 + n2 <= b + n ->
  keeps d1 d3 b n.
Proof.
  intros Hs H1 H2 ? ? ? ? b' n' Hin Hd. rewrite H2; [|by eapply same_dev_inside|lia]. apply H1; [done|lia].
Qed.

Lemma put_part_ok d h (primary : bool) data :
  let b := if primary then 0 else 32 in
  volume2 d -> hdr2_valid h -> h_hdr_size h = DEFAULT_HDR_SIZE -> h_hdr_offset h = b * 512 ->
  Z.of_nat (length data) = 12288 ->
  exists d', put_part h primary data 12288 d = Done (inr tt, d') /\ same_dev d d' /\ part_at d' b h data /\ keeps d d' b 32.
Proof.
  intros b [Hw Hin] Hv Hsz Hoff Hl. unfold put_part.
  assert (inside d b 8 /\ inside d (b + 8) 24) as [Hi1 Hi2] by (unfold inside in *; destruct primary; unfold b; lia).
  destruct (write_binary d h primary Hw Hv) as (d1 & E1 & S1 & P1 & K1).
  { rewrite Hsz. unfold b in Hi1. by destruct primary. }
  rewrite Hsz in P1, K1.
  replace (if primary then 0 else DEFAULT_HDR_SIZE / 512) with b in P1, K1 by (by destruct primary).
  destruct (write_json d1 h data 24) as (d2 & E2 & S2 & K2 & _ & P2).
  { by destruct S1. }
  { rewrite Hoff. unfold is_u64. destruct primary; unfold b; lia. }
  { rewrite Hoff. by exists b. }
  { lia. }
  { rewrite Hoff, Z.div_mul by done. eapply same_dev_inside; [exact S1|]. by replace (8 + b) with (b + 8) by lia. }
  { lia. }
  rewrite Hoff, Z.div_mul in K2, P2 by done. replace (8 + b) with (b + 8) in K2, P2 by lia.
  exists d2. split.
  { rewrite (vm_ok _ _ d tt d1) by (unfold change; by rewrite E1). unfold change. change 12288 with (24 * 512). by rewrite E2. }
  split; [by eapply same_dev_trans|]. split.
  - split; [|done]. unfold holds_hdr2 in *. rewrite (K2 b 8); [done|by eapply same_dev_inside|lia].
  - eapply (keeps_trans d d1 d2 b 32 b 8 (b + 8) 24); try done; lia.
Qed.

Lemma write_part_ok d h (primary : bool) data :
  let b := if primary then 0 else 32 in
  volume2 d -> hdr2_valid h -> h_hdr_size h = DEFAULT_HDR_SIZE -> h_hdr_offset h = b * 512 ->
  hash_usable (cstr (h_csum_alg h)) -> Z.of_nat (length data) = 12288 ->
  exists d' c, write_part h primary data 12288 d = Done (inr (set_csum h c), d') /\ _calculate_csum h data = Some c /\
    same_dev d d' /\ part_at d' b (set_csum h c) data /\ keeps d d' b 32.
Proof.
  intros b V Hv Hsz Hoff Hu Hl. destruct (csum_total h data Hu) as [c Hc]; [by intros ->|].
  destruct (put_part_ok d (set_csum h c) primary data V (set_csum_valid h data c Hv Hc) Hsz Hoff Hl) as (d' & E & ? & ? & ?).
  exists d', c. unfold write_part. by rewrite Hc, (vm_ok _ _ _ _ _ E).
Qed.

(** ** The JSON area *)

(** What is stored for objects: the text and zeros. *)
Definition area_of (o : luks2_objects) : list Z :=
  let t := render (JObject (objects_members o)) in t ++ replicate (Z.to_nat 12288 - length t) 0.

Lemma area_length o : storable o -> Z.of_nat (length (area_of o)) = 12288.
Proof. intros [_ Hl]. unfold area_of. rewrite length_app, length_replicate. lia. Qed.

Lemma json_area_ok o :
  objects_ok o ->
  json_area o 12288 =
    Done (if 12288 <=? Z.of_nat (length (render (JObject (objects_members o)))) then None else Some (area_of o)).
Proof. intros Ho. unfold json_area. by rewrite to_json_text. Qed.

Variable calloc : Z -> bool.
Variable ja_malloc : nat -> Z -> bool.
Hypothesis calloc_true : forall n, calloc n = true.
Hypothesis malloc_true : forall n sz, ja_malloc n sz = true.

(** The byte behind the parser's copy of the area is taken to be zero. *)
Lemma parse_area o : storable o -> parse_json ja_malloc 0 (area_of o) = Done (Some o).
Proof.
  intros Hs. pose proof (area_length o Hs) as Hl. destruct Hs as [Ho Hf].
  destruct (objects_parsed o (replicate (Z.to_nat 12288 - length (render (JObject (objects_members o)))) 0) ja_malloc true
    (2 * length (area_of o) + 3)) as (s' & Hp & Hu); [done|done|apply Forall_replicate; done|done|].
  unfold parse_json, json_parser_init. rewrite bool_decide_eq_false_2 by lia. cbn [negb orb from_option id].
  fold (area_of o) in Hp. unfold start_parse in Hp. rewrite Hp. cbn [mbind outcome_bind]. rewrite Hu. done.
Qed.

(** ** Reading the headers *)

(** The headers of [e] are on the device. *)
Record stored (d : blockdev_t) (e : luks2_ext_hdr_t) : Prop := {
  st_volume : volume2 d; st_ext : ext_ok e; st_objects : storable (objects e); st_data : ext_json_data e = area_of (objects e);
  st_primary : part_at d 0 (phdr e) (area_of (objects e)); st_secondary : part_at d 32 (shdr e) (area_of (objects e));
  st_pcsum : csum_ok (phdr e) (area_of (objects e)) = true; st_scsum : csum_ok (shdr e) (area_of (objects e)) = true }.

Lemma read_area d h b data :
  h_hdr_offset h = b * 512 -> 0 <= b <= 32 -> vic_blockdev_get d (b + 8) 24 = (VIC_OK, data) ->
  _read_json_area d h 12288 = Some data.
Proof.
  intros Ho Hb Hg. unfold _read_json_area, sizeof_luks2_hdr, VIC_SECTOR_SIZE. rewrite Ho, u64_small by lia.
  change (12288 / 512) with 24. replace (4096 + b * 512) with ((b + 8) * 512) by lia. rewrite Z.div_mul by done. by rewrite Hg.
Qed.

Lemma read_secondary_stored d e :
  stored d e -> read_secondary calloc d (phdr e) (area_of (objects e)) 12288 = Some (shdr e).
Proof.
  intros [[Hw Hin] [P1 P2 P3 P4 P5 P6 P7 P8 P9 P10 P11 P12 [Hs Hi] P14] Ho Hd [Hp Hpj] [Hs2 Hsj] C1 C2].
  unfold read_secondary. rewrite (read_held2 d false (shdr e)) by done. cbn [mbind option_bind].
  rewrite C2, bool_decide_true by done. destruct P1 as (_ & _ & ->), P2 as (_ & _ & ->).
  rewrite P4, P5, P7, P8, P9, P10, P11, P12, !Z.eqb_refl, !bool_decide_true by done. cbn [negb].
  change (12288 =? DEFAULT_HDR_SIZE - sizeof_luks2_hdr) with true. rewrite calloc_true. cbn [negb].
  rewrite (read_area d (shdr e) 32 (area_of (objects e))) by (done || lia). cbn [mbind option_bind].
  by rewrite bool_decide_true.
Qed.

Lemma read_stored d e : stored d e -> luks2_read_hdr calloc ja_malloc 0 d = Done (Some e).
Proof.
  intros Hst. pose proof (read_secondary_stored d e Hst) as Hsec.
  destruct Hst as [[Hw Hin] [P1 P2 P3 P4 P5 P6 P7 P8 P9 P10 P11 P12 [Hs Hi] P14] Ho Hd [Hp Hpj] [Hs2 Hsj] C1 C2].
  unfold luks2_read_hdr. unfold _is_valid_device. rewrite (wr_block d Hw). cbn [negb VIC_SECTOR_SIZE Z.eqb].
  rewrite (read_held2 d true (phdr e)) by done. cbv zeta. destruct P1 as (_ & _ & ->). rewrite P4. cbn [negb].
  rewrite !calloc_true. change (DEFAULT_HDR_SIZE - sizeof_luks2_hdr) with 12288.
  rewrite (read_area d (phdr e) 0 (area_of (objects e))) by (done || lia).
  change (negb (LUKS_VERSION_2 =? LUKS_VERSION_2)) with false. change (DEFAULT_HDR_SIZE <? 16384) with false.
  change (DEFAULT_HDR_SIZE <? sizeof_luks2_hdr + 12 * 1024) with false.
  change (list_find (fun p => p.1 = DEFAULT_HDR_SIZE) _sec_hdr_offsets) with (Some (0%nat, (16384, 12))).
  change (12 =? 12288 / 1024) with true. cbn [negb].
  rewrite bool_decide_eq_false_2 by (intros E; by rewrite E in Hi). rewrite C1. cbn [negb].
  rewrite parse_area by done. cbn [mbind outcome_bind]. rewrite Hsec. destruct e. simpl in *. by subst.
Qed.

(** ** Writing both headers *)

(** The headers that [_write_hdr] leaves behind: the next sequence number and new
    checksums. *)
Definition next_ext (e e' : luks2_ext_hdr_t) : Prop :=
  objects e' = objects e /\
  exists c1 c2, phdr e' = set_csum (with_seqid (u64 (h_seqid (phdr e) + 1)) (phdr e)) c1 /\
    shdr e' = set_csum (with_seqid (u64 (h_seqid (shdr e) + 1)) (shdr e)) c2.

Lemma with_seqid_valid h n : hdr2_valid h -> hdr2_valid (with_seqid (u64 n) h).
Proof. intros ([] & Hm & Hv). split; [|done]. split; try done. apply wrap_range. lia. Qed.

Lemma ext_ok_next e e' :
  ext_ok e -> next_ext e e' -> hdr2_valid (phdr e') -> hdr2_valid (shdr e') -> ext_json_size e' = 12288 -> ext_ok e'.
Proof.
  intros [P1 P2 P3 P4 P5 P6 P7 P8 P9 P10 P11 P12 P13 P14] (_ & c1 & c2 & E1 & E2) V1 V2 Hj.
  split; try done; rewrite ?E1, ?E2; try done. cbn [h_seqid set_csum with_csum with_seqid]. by rewrite P8.
Qed.

Definition json_fits (o : luks2_objects) : Prop := Z.of_nat (length (render (JObject (objects_members o)))) < 12288.

Lemma write_hdr_ok d e :
  volume2 d -> ext_ok e -> storable (objects e) ->
  exists d' e', _write_hdr e d = Done (inr e', d') /\ stored d' e' /\ next_ext e e' /\ same_dev d d' /\ keeps d d' 0 64.
Proof.
  intros V He Hs. pose proof He as [P1 P2 P3 P4 P5 P6 P7 P8 P9 P10 P11 P12 P13 P14].
  pose proof (area_length _ Hs) as Hl.
  destruct (write_part_ok d (with_seqid (u64 (h_seqid (phdr e) + 1)) (phdr e)) true (area_of (objects e)))
    as (d1 & c1 & E1 & C1 & S1 & Pt1 & K1); [done|by apply with_seqid_valid|done|done|done|done|].
  assert (volume2 d1) as V1 by (destruct V as [? ?], S1 as (? & ? & ?); split; [done|by eapply same_dev_inside]).
  destruct (write_part_ok d1 (with_seqid (u64 (h_seqid (shdr e) + 1)) (shdr e)) false (area_of (objects e)))
    as (d2 & c2 & E2 & C2 & S2 & Pt2 & K2);
    [done|by apply with_seqid_valid|done|done|cbn [h_csum_alg with_seqid]; by rewrite P10|done|].
  exists d2. eexists. split_and!.
  - unfold _write_hdr, lift_vm. rewrite P14, json_area_ok by apply Hs. destruct Hs as [_ Hf].
    rewrite (proj2 (Z.leb_gt _ _)) by exact Hf.
    unfold mbind, VM_bind at 1. cbv beta iota. unfold VM_bind at 1, or_throw at 1, mret, VM_ret at 1. cbv beta iota.
    unfold VM_bind at 1. rewrite E1. unfold VM_bind at 1. rewrite E2. reflexivity.
  - assert (volume2 d2) as V2 by (destruct V1 as [? ?], S2 as (? & ? & ?); split; [done|by eapply same_dev_inside]).
    assert (inside d1 0 8 /\ inside d1 8 24) as [I1 I2] by (destruct V1 as [_ ?]; unfold inside in *; lia).
    split; cbn [phdr shdr objects ext_json_size ext_json_data]; try done.
    + eapply ext_ok_next; [exact He|by split; [|eexists _, _]|..]; cbn [phdr shdr]; try done;
        eapply set_csum_valid; try done; by apply with_seqid_valid.
    + destruct Pt1 as [G1 G2]. split; unfold holds_hdr2 in *; rewrite K2; (done || lia).
    + by apply set_csum_ok.
    + by apply set_csum_ok.
  - split; [done|]. by eexists _, _.
  - by eapply same_dev_trans.
  - eapply (keeps_trans d d1 d2 0 64 0 32 32 32); try done; lia.
Qed.

(** Objects that do not fit are refused before anything is written. *)
Lemma write_hdr_full d e :
  ext_ok e -> objects_ok (objects e) -> ~ json_fits (objects e) -> _write_hdr e d = Done (inl VIC_FAILED, d).
Proof.
  intros He Ho Hf. unfold _write_hdr, lift_vm. rewrite (eo_json e He), json_area_ok by done.
  by rewrite (proj2 (Z.leb_le _ _)) by (unfold json_fits in Hf; lia).
Qed.

(** C12. What is written is read: rewriting the headers of a volume succeeds when
    the objects fit into the JSON area, and then [luks2_read_hdr] returns both
    headers, with the next sequence number and valid checksums, and the same
    objects. Nothing behind the first 32 kilobytes changes. *)
Theorem luks2_header_round_trip d e :
  volume2 d -> ext_ok e -> storable (objects e) ->
  exists d' e', _write_hdr e d = Done (inr e', d') /\ luks2_read_hdr calloc ja_malloc 0 d' = Done (Some e') /\
    next_ext e e' /\ keeps d d' 0 64.
Proof.
  intros V He Hs. destruct (write_hdr_ok d e V He Hs) as (d' & e' & E & St & N & _ & K).
  exists d', e'. split; [done|]. split; [by apply read_stored|]. done.
Qed.
End Write.

(** ** Reading any device *)

Section Read.
Context `{Algorithms} `{Base64}.
Variable calloc : Z -> bool.
Variable ja_malloc : nat -> Z -> bool.
Variable junk : Z.

(** The stored checksum is that of the header and the JSON area. *)
Definition csum_valid (h : luks2_hdr_t) (data : list Z) : Prop :=
  exists c, _calculate_csum h data = Some c /\ take (length c) (h_csum h) = c.

Lemma csum_ok_valid h data : csum_ok h data = true -> csum_valid h data.
Proof.
  unfold csum_ok, csum_matches. destruct (_calculate_csum h data) as [c|] eqn:Ec; [|done].
  rewrite bool_decide_eq_true. intros E. by exists c.
Qed.

(** What a successful reading of the headers has verified. *)
Record verified (d : blockdev_t) (e : luks2_ext_hdr_t) : Prop := {
  vf_primary : _read_binary_hdr d true = Some (phdr e); vf_secondary : _read_binary_hdr d false = Some (shdr e);
  vf_json : _read_json_area d (phdr e) (ext_json_size e) = Some (ext_json_data e);
  vf_json2 : _read_json_area d (shdr e) (ext_json_size e) = Some (ext_json_data e);
  vf_csum : csum_valid (phdr e) (ext_json_data e); vf_csum2 : csum_valid (shdr e) (ext_json_data e);
  vf_size : ext_json_size e = h_hdr_size (phdr e) - 4096; vf_sizes : h_hdr_size (phdr e) ∈ map fst _sec_hdr_offsets;
  vf_seqid : h_seqid (shdr e) = h_seqid (phdr e); vf_uuid : cstr (h_uuid (shdr e)) = cstr (h_uuid (phdr e));
  vf_magic : h_magic (shdr e) = _magic_2nd; vf_offset : h_hdr_offset (shdr e) = h_hdr_size (phdr e);
  vf_objects : parse_json ja_malloc junk (ext_json_data e) = Done (Some (objects e)) }.

(** A check that is passed. *)
Lemma passed {A} (b : bool) (x : option A) y : (if negb b then None else x) = Some y -> b = true /\ x = Some y.
Proof. by destruct b. Qed.
Lemma passed_done {A} (b : bool) (x : outcome (option A)) y :
  (if negb b then Done None else x) = Done (Some y) -> b = true /\ x = Done (Some y).
Proof. by destruct b. Qed.

Lemma read_secondary_verified d h data n s :
  read_secondary calloc d h data n = Some s ->
  _read_binary_hdr d false = Some s /\ csum_ok s data = true /\ h_magic s = _magic_2nd /\ h_hdr_size s = h_hdr_size h /\
  h_seqid s = h_seqid h /\ cstr (h_uuid s) = cstr (h_uuid h) /\ h_hdr_offset s = h_hdr_size h /\
  _read_json_area d s n = Some data.
Proof.
  unfold read_secondary. destruct (_read_binary_hdr d false) as [s'|]; [|done]. cbn [mbind option_bind].
  intros E. apply passed in E as [Hc E]. apply passed in E as [Hm E]. apply passed in E as [_ E].
  apply passed in E as [Hsz E]. apply passed in E as [Hsq E]. apply passed in E as [_ E]. apply passed in E as [_ E].
  apply passed in E as [Hu E]. apply passed in E as [_ E]. apply passed in E as [Ho E]. apply passed in E as [_ E].
  apply passed in E as [_ E].
  destruct (_read_json_area d s' n) as [data'|] eqn:Ej; [|done]. cbn [mbind option_bind] in E. case_bool_decide; [|done].
  injection E as ->. subst data'. rewrite bool_decide_eq_true in Hm, Hu. apply Z.eqb_eq in Hsz, Hsq, Ho. by split_and!.
Qed.

(** A reading of the headers that succeeds, of any device whatever, has
    verified them: the two headers and the two JSON areas are those of the
    device, the checksums are right, the copies agree, and the objects are
    those that the JSON area describes. In particular a volume with one damaged
    copy cannot be read. *)
Theorem luks2_read_verified d e : luks2_read_hdr calloc ja_malloc junk d = Done (Some e) -> verified d e.
Proof.
  unfold luks2_read_hdr. intros [_ E]%passed_done. destruct (_read_binary_hdr d true) as [h|] eqn:Eh; [|done]. cbv zeta in E.
  apply passed_done in E as [_ E]. destruct (h_hdr_size h <? 16384); [done|]. destruct (h_hdr_size h <? _); [done|].
  apply passed_done in E as [_ E]. destruct (list_find _ _sec_hdr_offsets) as [[i [o k]]|] eqn:Ef; [|done].
  apply passed_done in E as [_ E]. destruct (_read_json_area d h _) as [data|] eqn:Ej; [|done].
  destruct (bool_decide _); [done|]. apply passed_done in E as [Ec E]. apply passed_done in E as [_ E].
  destruct (parse_json ja_malloc junk data) as [[ob|]|] eqn:Ep; cbn [mbind outcome_bind] in E; [|done..].
  destruct (read_secondary calloc d h data _) as [s|] eqn:Es; [|done]. injection E as <-.
  apply read_secondary_verified in Es as (E1 & E2 & E3 & E4 & E5 & E6 & E7 & E8).
  apply list_find_Some in Ef as (Hl & Hsz & _). cbn [fst] in Hsz.
  split; try done; try (by apply csum_ok_valid). cbn [phdr]. rewrite <- Hsz. apply (list_elem_of_lookup_2 _ i). by rewrite list_lookup_fmap, Hl.
Qed.
End Read.

(** ** A sample volume *)

(** An encoding in the alphabet: two digits for every byte. *)
Fixpoint undigits (s : text) : option (list Z) :=
  match s with
  | [] => Some []
  | a :: b :: s' => x ← digit_of a; y ← digit_of b; r ← undigits s'; Some (x * 16 + y :: r)
  | _ => None
  end.

Lemma digits_chars b : Forall base64_char (flat_map (fun x => hex2 (x mod 256)) b).
Proof.
  apply Forall_flat_map, Forall_forall. intros x _. unfold hex2.
  assert (forall y, 0 <= y < 16 -> base64_char (hex_digit y)) as Hd.
  { intros y Hy. unfold hex_digit, base64_char. destruct (Z.ltb_spec y 10); lia. }
  pose proof (Z.mod_pos_bound x 256 ltac:(lia)). constructor; [apply Hd; Z.div_mod_to_equations; lia|].
  constructor; [apply Hd; Z.div_mod_to_equations; lia|constructor].
Qed.

Lemma digits_undigits b : Forall is_byte b -> undigits (flat_map (fun x => hex2 (x mod 256)) b) = Some b.
Proof.
  induction 1 as [|x b Hx Hb IH]; [done|]. unfold is_byte in Hx. cbn [flat_map hex2 app undigits].
  rewrite !(Z.mod_small x 256) by lia. rewrite !hex_digit_of by (Z.div_mod_to_equations; lia). cbn [mbind option_bind]. rewrite IH.
  cbn [mbind option_bind]. f_equal. f_equal. Z.div_mod_to_equations. lia.
Qed.

#[export] Instance toy_base64 : Base64 := {
  base64_encode b := flat_map (fun x => hex2 (x mod 256)) b;
  base64_decode := undigits;
  base64_encode_chars := digits_chars;
  base64_round_trip := digits_undigits }.

(** A device of 17 megabytes. *)
Definition sample_device2 : blockdev_t := mk_bd (replicate (Z.to_nat 17825792) 0) 17825792 17825792 0 512 false true.
Definition sample_hdr2 : luks2_hdr_t :=
  mk_hdr2 _magic_1st 2 16384 1 (replicate 48 0) (pad 32 DEFAULT_HASH) (replicate 64 1) (replicate 40 0) (replicate 48 0) 0
    (replicate 184 0) (replicate 64 0) (replicate 3584 0).
Definition sample_ext : luks2_ext_hdr_t := mk_ext sample_hdr2 (secondary_of sample_hdr2) zero_objects 12288 [].

Lemma sample_volume2 : volume2 sample_device2.
Proof.
  split; [|unfold inside; cbn [sample_device2 offset size]; lia]. split; [|done|done|done].
  split; cbn [sample_device2 block_size file full_size size offset]; [exists 9; split; [lia|done]| |lia|lia|lia].
  rewrite length_replicate, Z2Nat.id by lia. done.
Qed.

Lemma sample_ext_ok : ext_ok sample_ext.
Proof.
  assert (hdr2_wf sample_hdr2) as Hw.
  { constructor; cbn [sample_hdr2 h_magic h_version h_hdr_size h_seqid h_label h_csum_alg h_salt h_uuid h_subsystem h_hdr_offset
      h_padding h_csum h_padding4096]; rewrite ?length_replicate; done. }
  split; try done.
  - split; [done|]. split; [by left|done].
  - split; [|split; [by right|done]]. destruct Hw. split; done.
Qed.

Lemma zero_storable : storable zero_objects.
Proof.
  split; [|vm_compute; reflexivity]. split; cbn [zero_objects keyslots2 segments2 digests2 config2 cfg_json_size cfg_keyslots_size];
    rewrite ?length_replicate; try done; split; try done; apply Forall_replicate; by left.
Qed.

Definition enough_json (n : nat) (size : Z) : bool := true.

Lemma luks2_header_round_trip_witness :
  exists d' e', _write_hdr sample_ext sample_device2 = Done (inr e', d') /\
    luks2_read_hdr enough enough_json 0 d' = Done (Some e') /\ next_ext sample_ext e' /\ keeps sample_device2 d' 0 64.
Proof.
  apply (luks2_header_round_trip enough enough_json (fun _ => eq_refl) (fun _ _ => eq_refl) sample_device2 sample_ext
    sample_volume2 sample_ext_ok zero_storable).
Defined.

Lemma luks2_read_verified_witness :
  exists d e, luks2_read_hdr enough enough_json 0 d = Done (Some e) /\ verified enough_json 0 d e.
Proof.
  destruct (write_hdr_ok sample_device2 sample_ext sample_volume2 sample_ext_ok zero_storable) as (d & e & _ & St & _).
  pose proof (read_stored enough enough_json (fun _ => eq_refl) (fun _ _ => eq_refl) d e St) as E.
  exists d, e. split; [exact E|]. apply (luks2_read_verified enough enough_json 0 d e E).
Defined.
