(* ===== verification/Luks2Keys.v ===== *)
(** * Luks2Keys: the passwords of a LUKS2 volume

    A volume is described by its master key and the passwords of its 64 key
    slots, as in Luks1Props.  Here are the description, where the key slots are,
    and that the key material made for a password yields the master key. *)

From Stdlib Require Import String.
From S2P Require Import Prelude JsonText JsonParser JsonPrint JsonNumbers JsonStrings JsonSafety JsonComplete VicCrypto.
From S2P Require Import Blockdev Uuid Luks1Header Luks1 Luks2Header Luks2Json Luks2Doc Luks2Read Luks2 Luks2Props.

#[local] Opaque replicate.

Section Keys.
Context `{Algorithms} `{Ciphers} `{Argon2} `{Base64}.
Variable calloc : Z -> bool.
Variable ja_malloc : nat -> Z -> bool.
Variable stack : list Z.
Hypothesis calloc_true : forall n, calloc n = true.
Hypothesis malloc_true : forall n sz, ja_malloc n sz = true.

(** ** Encryption *)

Lemma crypt_sectors_round_trip n t enc kb key sector data c :
  length data = (n * 512)%nat -> crypt_sectors n true t enc kb key sector data = Some c ->
  length c = (n * 512)%nat /\ crypt_sectors n false t enc kb key sector c = Some data.
Proof.
  revert sector data c. induction n as [|n IH]; intros sector data c Hl; cbn [crypt_sectors].
  - intros [= <-]. destruct data; [done|simpl in Hl; lia].
  - destruct (Luks2._gen_iv enc kb sector key) as [iv|]; [|done]. cbn [mbind option_bind].
    destruct (crypt_sectors n true _ _ _ _ _ _) as [r|] eqn:Er; [|done]. cbn [mbind option_bind]. intros [= <-].
    destruct (IH (u64 (sector + 1)) (drop 512 data) r) as [Hlr Hdr]; [rewrite length_drop; lia|done|].
    assert (length (take 512 data) = 512%nat) as Ht by (rewrite length_take; lia).
    assert (length (cipher_crypt true t key iv (take 512 data)) = 512%nat) as Hc by (by rewrite cipher_crypt_length).
    split; [rewrite length_app, Hc, Hlr; lia|].
    rewrite drop_app_ge by lia. rewrite Hc, Nat.sub_diag, drop_0, Hdr. cbn [mbind option_bind].
    rewrite take_app_le by lia. rewrite take_ge by lia.
    rewrite cipher_crypt_inverse by (rewrite Ht; lia). by rewrite take_drop.
Qed.

Lemma crypt2_round_trip enc kb key data c :
  (512 | length data)%nat -> Luks2._encrypt enc kb key data 0 = Some c ->
  length c = length data /\ Luks2._decrypt enc kb key c 0 = Some data.
Proof.
  intros [n Hn]. unfold Luks2._encrypt, Luks2._decrypt, Luks2._crypt.
  destruct (Luks2._get_cipher_info enc kb) as [t|]; [|done]. cbn [mbind option_bind].
  rewrite Hn, Nat.div_mul by lia. destruct (crypt_sectors n true _ _ _ _ _ _) as [r|] eqn:Er; [|done].
  cbn [mbind option_bind]. intros [= <-].
  destruct (crypt_sectors_round_trip n t enc kb key 0 data r Hn Er) as [Hl Hd].
  rewrite Hl, Nat.sub_diag. change (replicate 0 0) with (@nil Z). rewrite app_nil_r. split; [done|].
  rewrite Hl, Nat.div_mul by lia. rewrite Hd. cbn [mbind option_bind]. by rewrite Hn, Nat.sub_diag, app_nil_r.
Qed.

Lemma encrypt2_total enc kb key data :
  Luks2._get_cipher_info enc kb <> None -> exists c, Luks2._encrypt enc kb key data 0 = Some c.
Proof.
  intros Hci. unfold Luks2._encrypt, Luks2._crypt. destruct (Luks2._get_cipher_info enc kb) as [t|] eqn:E; [|done].
  cbn [mbind option_bind].
  assert (forall n sector l, exists c, crypt_sectors n true t enc kb key sector l = Some c) as Htot.
  { induction n as [|n IH]; intros sector l; [by eexists|]. cbn [crypt_sectors]. unfold Luks2._gen_iv.
    unfold Luks2._get_cipher_info in E. case_bool_decide; [|done].
    cbn [mbind option_bind]. destruct (IH (u64 (sector + 1)) (drop 512 l)) as [c ->]. by eexists. }
  destruct (Htot (length data / 512)%nat 0 data) as [c ->]. by eexists.
Qed.

(** ** Where the key slots are *)

(** The bytes of a slot for a key: 4000 stripes, rounded up to pages. *)
Definition area_bytes (mk : list Z) : Z := vic_round_up (4000 * Z.of_nat (length mk)) 4096.

Definition key_length (mk : list Z) : Prop := (1 <= length mk <= 128)%nat.

Lemma area_bytes_spec mk :
  key_length mk -> 4000 * Z.of_nat (length mk) <= area_bytes mk < 4000 * Z.of_nat (length mk) + 4096 /\
    exists q, 0 < q <= 126 /\ area_bytes mk = q * 4096.
Proof.
  intros [Hl Hu]. destruct (round_up_spec (4000 * Z.of_nat (length mk)) 4096) as [Hr Hm]; [lia..|].
  fold (area_bytes mk) in Hr, Hm. split; [done|]. apply Z.mod_divide in Hm as [q Hq]; [|done]. exists q. lia.
Qed.

(** The first block and the number of blocks of slot [i]. *)
Definition slot_block (mk : list Z) (i : nat) : Z := 64 + Z.of_nat i * (area_bytes mk / 512).
Definition slot_blocks (mk : list Z) : Z := area_bytes mk / 512.

(** Slot [i] as [_init_keyslot] lays it out, for the master key [mk]. *)
Record slot_at (mk : list Z) (i : nat) (ks : luks2_keyslot_t) : Prop := {
  sa_type : ks_type ks = bytes "luks2"; sa_key : ks_key_size ks = Z.of_nat (length mk);
  sa_stripes : af_stripes (ks_af ks) = DEFAULT_AF_STRIPES; sa_size : area_size (ks_area ks) = area_bytes mk;
  sa_offset : area_offset (ks_area ks) = 32768 + Z.of_nat i * area_bytes mk }.

Lemma slot_at_blocks mk i ks :
  key_length mk -> slot_at mk i ks ->
  area_offset (ks_area ks) / 512 = slot_block mk i /\ area_size (ks_area ks) / 512 = slot_blocks mk /\
  slot_blocks mk * 512 = area_bytes mk.
Proof.
  intros Hk [_ _ _ Hs Ho]. destruct (area_bytes_spec mk Hk) as [_ (q & Hq & E)].
  unfold slot_block, slot_blocks. rewrite Hs, Ho, E. replace (q * 4096) with (q * 8 * 512) by lia.
  rewrite !Z.div_mul by lia. replace (32768 + Z.of_nat i * (q * 8 * 512)) with ((64 + Z.of_nat i * (q * 8)) * 512) by lia.
  by rewrite Z.div_mul.
Qed.

(** ** Key material *)

Abbreviation derive := (derive_key stack).
Abbreviation candidate := (Luks2.candidate calloc stack).
Abbreviation generate := (_generate_key_material calloc stack).

(** The stripes, padded to the area. *)
Lemma stripes_padded mk i ks rsplit split :
  key_length mk -> slot_at mk i ks -> Z.of_nat (length rsplit) = Z.of_nat (length mk) * DEFAULT_AF_STRIPES ->
  vic_afsplit (af_hash (ks_af ks)) mk (Z.of_nat (length mk)) DEFAULT_AF_STRIPES rsplit = Done (Some split) ->
  Z.of_nat (length split) <= area_bytes mk /\
  forall n, merge_stripes ks (split ++ replicate n 0) = Done (inr mk).
Proof.
  intros Hk Hs Hr Esp. pose proof Hs as [_ Hks Hst _ _]. destruct (area_bytes_spec mk Hk) as [Hb _].
  unfold DEFAULT_AF_STRIPES in *.
  assert (1 <= Z.of_nat (length mk) <= 128) as Hmk by (unfold key_length in Hk; lia).
  destruct (afmerge_of_split (af_hash (ks_af ks)) mk 4000 rsplit split) as (Hl & _ & Hm); [lia|lia|lia|exact Esp|].
  split; [lia|]. intros n. unfold merge_stripes. rewrite Hks, Hst.
  rewrite (proj2 (Z.ltb_ge _ _)) by (unfold key_length, sizeof_key in *; lia).
  rewrite (proj2 (Z.ltb_ge _ _)) by (rewrite length_app; lia).
  rewrite afmerge_app, Hm by lia. done.
Qed.

Lemma material_read d mk i ks data :
  key_length mk -> slot_at mk i ks -> vic_blockdev_get d (slot_block mk i) (slot_blocks mk) = (VIC_OK, data) ->
  Z.of_nat (length data) = area_bytes mk ->
  Luks2._read_key_material d (area_offset (ks_area ks)) (area_size (ks_area ks)) = Some data.
Proof.
  intros Hk Hs Hg Hl. destruct (slot_at_blocks mk i ks Hk Hs) as (E1 & E2 & _).
  unfold Luks2._read_key_material, VIC_SECTOR_SIZE. rewrite E1, E2, Hg, (sa_size _ _ _ Hs).
  replace (_ - length data)%nat with O by lia. change (replicate 0 0) with (@nil Z). by rewrite app_nil_r.
Qed.

(** A slot with the material that was made for a password yields the master
    key. *)
Lemma candidate_of_material2 d mk i ks pwd rsplit data :
  key_length mk -> slot_at mk i ks -> Z.of_nat (length rsplit) = Z.of_nat (length mk) * DEFAULT_AF_STRIPES ->
  generate ks mk pwd rsplit = Done (inr data) ->
  Z.of_nat (length data) = area_bytes mk /\
  (vic_blockdev_get d (slot_block mk i) (slot_blocks mk) = (VIC_OK, data) -> candidate d ks pwd = Done (inr mk)).
Proof.
  intros Hk Hs Hr. pose proof Hs as [Ht Hks Hst Hsz Hof]. destruct (area_bytes_spec mk Hk) as [_ (q & Hq & Eq)].
  unfold _generate_key_material, Luks2.candidate. rewrite !calloc_true, Ht, bool_decide_true by done. cbn [negb].
  destruct (derive ks pwd) as [[e|pkey]|]; cbn [mbind outcome_bind]; [done| |done].
  rewrite Hks, Hst, Nat2Z.id, take_ge by done.
  destruct (vic_afsplit _ mk _ _ rsplit) as [[split|]|] eqn:Esp; cbn [mbind outcome_bind]; [|done|done].
  destruct (stripes_padded mk i ks rsplit split Hk Hs Hr Esp) as [Hle Hm].
  rewrite Hsz. rewrite decide_False by lia. set (plain := split ++ _).
  assert (Z.of_nat (length plain) = area_bytes mk) as Hpl by (unfold plain; rewrite length_app, length_replicate; lia).
  destruct (Luks2._encrypt _ _ _ plain 0) as [c|] eqn:Ec; [|done]. intros [= <-].
  destruct (crypt2_round_trip (area_encryption (ks_area ks)) (area_key_size (ks_area ks))
    (key_in_use (area_key_size (ks_area ks)) pkey) plain c) as [Hlc Hd]; [exists (Z.to_nat (q * 8)); lia|exact Ec|].
  split; [lia|]. intros Hg. rewrite <- Hsz, (material_read d mk i ks c) by (done || lia). rewrite Hd. apply Hm.
Qed.

(** A slot that can be written: a cipher for its key, a hash for its stripes. *)
Record usable2 (ks : luks2_keyslot_t) : Prop := {
  u2_cipher : Luks2._get_cipher_info (area_encryption (ks_area ks)) (area_key_size (ks_area ks)) <> None;
  u2_hash : hash_usable (af_hash (ks_af ks)) }.

Lemma material_total mk i ks pwd pkey rsplit :
  key_length mk -> slot_at mk i ks -> usable2 ks -> Z.of_nat (length rsplit) = Z.of_nat (length mk) * DEFAULT_AF_STRIPES ->
  derive ks pwd = Done (inr pkey) -> exists data, generate ks mk pwd rsplit = Done (inr data).
Proof.
  intros Hk Hs [U1 [U2 U3]] Hr Hd. pose proof Hs as [Ht Hks Hst Hsz Hof]. unfold _generate_key_material.
  rewrite calloc_true, Hd. cbn [negb mbind outcome_bind]. rewrite Hks, Hst, Nat2Z.id, take_ge by done.
  destruct (afsplit_total (af_hash (ks_af ks)) mk DEFAULT_AF_STRIPES rsplit) as [split Esp];
    [unfold key_length, sizeof_key in *; lia|unfold DEFAULT_AF_STRIPES; lia|unfold key_length, DEFAULT_AF_STRIPES in *; lia|done|done|].
  rewrite Esp. cbn [mbind outcome_bind].
  destruct (stripes_padded mk i ks rsplit split Hk Hs Hr Esp) as [Hle Hm].
  rewrite decide_False by lia. edestruct encrypt2_total as [c ->]; [done|by eexists].
Qed.

(** [candidate] looks only at the slot's blocks. *)
Lemma candidate2_same d d' mk i ks pwd :
  key_length mk -> slot_at mk i ks ->
  vic_blockdev_get d' (slot_block mk i) (slot_blocks mk) = vic_blockdev_get d (slot_block mk i) (slot_blocks mk) ->
  candidate d' ks pwd = candidate d ks pwd.
Proof.
  intros Hk Hs Hg. destruct (slot_at_blocks mk i ks Hk Hs) as (E1 & E2 & _).
  unfold Luks2.candidate, Luks2._read_key_material, VIC_SECTOR_SIZE. by rewrite E1, E2, Hg.
Qed.

(** ** Names that fit *)

Lemma hash_text h : vic_hash_size h <> None -> text_ok h.
Proof. unfold vic_hash_size. repeat case_decide; subst; (done || (intros _; by vm_compute; split; [lia|])). Qed.
Lemma pbkdf_text t : _valid_pbkdf_type t = true -> text_ok t /\ (length t < 32)%nat.
Proof.
  unfold _valid_pbkdf_type. repeat case_bool_decide; subst; intros; try done; (split; [split; [|done]|]; vm_compute; lia).
Qed.
Lemma cipher2_name c n : Luks2._get_cipher_info c n <> None -> c = bytes "aes-xts-plain64".
Proof. unfold Luks2._get_cipher_info. by case_bool_decide. Qed.

Lemma strlcpy_text s : (length s < 32)%nat -> strlcpy 32 s = s.
Proof. intros Hs. unfold strlcpy. apply take_ge. lia. Qed.

(** ** Volumes and their passwords *)

Definition used_mark (p : option (list Z)) : Z := match p with Some _ => 1 | None => 0 end.

(** What slot [i] holds: nothing, or a password that yields the master key. *)
Definition slot_holds2 (d : blockdev_t) (mk : list Z) (i : nat) (ks : luks2_keyslot_t) (p : option (list Z)) : Prop :=
  match p with
  | None => ks = zero_keyslot
  | Some pwd => slot_at mk i ks /\ inside d (slot_block mk i) (slot_blocks mk) /\ candidate d ks pwd = Done (inr mk)
  end.

Record describes2 (d : blockdev_t) (e : luks2_ext_hdr_t) (mk : list Z) (pws : list (option (list Z))) : Prop := {
  d2_stored : stored d e; d2_key : key_length mk; d2_length : length pws = 64%nat;
  d2_digest : exists dg, digests2 (objects e) !! 0%nat = Some dg /\ digest_matches dg mk = inr true /\
    dig_keyslots dg = map used_mark pws;
  d2_slots : forall i p, pws !! i = Some p -> exists ks, keyslots2 (objects e) !! i = Some ks /\ slot_holds2 d mk i ks p }.
End Keys.
