(* ===== verification/Luks2Format.v ===== *)
(** * Luks2Format: new LUKS2 volumes, and sample volumes

    [luks2_format] makes a volume without passwords; a key made by the default
    has a length for which no cipher exists.  At the end a volume is formatted
    and used with concrete algorithms. *)

From Stdlib Require Import String.
From S2P Require Import Prelude JsonText JsonParser JsonPrint JsonNumbers JsonStrings JsonSafety JsonComplete VicCrypto.
From S2P Require Import Blockdev Uuid Luks1Header Luks1 Luks1Props Luks2Header Luks2Json Luks2Doc Luks2Read Luks2 Luks2Props Luks2Keys.

#[local] Opaque replicate.

Section Format.
Context `{Algorithms} `{Ciphers} `{Argon2} `{Base64}.
Variable calloc : Z -> bool.
Variable ja_malloc : nat -> Z -> bool.
Variable stack : list Z.
Hypothesis calloc_true : forall n, calloc n = true.
Hypothesis malloc_true : forall n sz, ja_malloc n sz = true.

(** The objects of a new volume: one segment, one digest of the key. *)
Definition new_objects (cipher hash : text) (iterations : Z) (rdsalt digest : list Z) : luks2_objects :=
  mk_objects (replicate 64 zero_keyslot)
    [mk_segment (bytes "crypt") OVERHEAD_BYTES 0 (2 ^ 64 - 1) cipher 512 (mk_integrity [] [] [])]
    (mk_digest2 (bytes "pbkdf2") (replicate 64 0) [1] hash iterations rdsalt (digest ++ replicate (64 - length digest) 0)
       :: replicate 64 zero_digest)
    (mk_config2 12288 (OVERHEAD_BYTES - 2 * DEFAULT_HDR_SIZE)).

(** What a new volume needs. *)
Record format_ok (cipher hash : text) (iterations : Z) (key rsalt rdsalt digest : list Z) : Prop := {
  fo_key : key_length key; fo_cipher : text_ok cipher; fo_hash : hash_usable hash; fo_iterations : int_ok iterations;
  fo_rsalt : length rsalt = 64%nat; fo_rdsalt : bytes_ok 32 rdsalt; fo_bytes : Forall is_byte digest;
  fo_digest : exists n, vic_hash_size hash = Some n /\ vic_pbkdf2 key rdsalt iterations hash n = Some digest }.

Lemma digest_fits cipher hash iterations key rsalt rdsalt digest :
  format_ok cipher hash iterations key rsalt rdsalt digest ->
  length digest = hash_bytes hash /\ (hash_bytes hash <= 64)%nat.
Proof.
  intros [_ _ _ _ _ _ _ (n & Hn & Hp)]. unfold hash_bytes. rewrite Hn. split; [by eapply pbkdf2_length|].
  unfold vic_hash_size in Hn. repeat case_decide; simplify_eq; lia.
Qed.

Lemma new_objects_ok cipher hash iterations key rsalt rdsalt digest :
  format_ok cipher hash iterations key rsalt rdsalt digest -> objects_ok (new_objects cipher hash iterations rdsalt digest).
Proof.
  intros F. destruct (digest_fits _ _ _ _ _ _ _ F) as [Hl Hb]. destruct F as [F1 F2 F3 F4 F5 F6 F7 F8].
  split; cbn [keyslots2 segments2 digests2 config2 new_objects cfg_json_size cfg_keyslots_size];
    try (unfold long_ok, OVERHEAD_BYTES, DEFAULT_HDR_SIZE; lia).
  - split; [by rewrite length_replicate|]. apply Forall_replicate. by left.
  - split; [done|]. constructor; [|constructor]. right.
    constructor; cbn [seg_type seg_offset seg_iv_tweak seg_size seg_encryption seg_sector_size seg_integrity int_type];
      unfold long_ok, int_ok, OVERHEAD_BYTES; try lia; try done.
    + split; [|done]. split; [vm_compute; lia|done].
    + split; [vm_compute; lia|done].
  - split; [cbn [length]; by rewrite length_replicate|]. constructor; [right|apply Forall_replicate; by left].
    assert (forall k b, Forall is_byte (replicate k b) <-> (k = 0%nat \/ is_byte b)) as Hrep.
    { intros [|k] b; [split; [by left|constructor]|]. split; [intros HF; right; by inversion HF|].
      intros [?|?]; [done|by apply Forall_replicate]. }
    constructor; cbn [dig_type dig_keyslots dig_segments dig_hash dig_iterations dig_salt dig_digest]; try done.
    + split; [by rewrite length_replicate|apply Forall_replicate; by left].
    + split; [done|]. constructor; [by right|constructor].
    + split; [apply hash_text, F3|apply F3].
    + split.
      * split; [rewrite length_app, length_replicate; lia|]. apply Forall_app. split; [done|]. apply Hrep. right. done.
      * rewrite drop_app_ge by lia. by rewrite Hl, Nat.sub_diag, drop_0.
Qed.

Lemma new_digest_matches cipher hash iterations key rsalt rdsalt digest :
  format_ok cipher hash iterations key rsalt rdsalt digest ->
  digest_matches (mk_digest2 (bytes "pbkdf2") (replicate 64 0) [1] hash iterations rdsalt
    (digest ++ replicate (64 - length digest) 0)) key = inr true.
Proof.
  intros F. destruct (digest_fits _ _ _ _ _ _ _ F) as [Hl Hb]. destruct F as [_ _ _ _ _ _ _ (n & Hn & Hp)].
  unfold digest_matches. cbn [dig_hash dig_type dig_salt dig_iterations dig_digest]. rewrite Hn, bool_decide_true, Hp by done.
  rewrite bool_decide_true; [done|]. unfold hash_bytes in Hl. rewrite Hn in Hl.
  rewrite take_app_le, take_ge by lia. done.
Qed.

(** The primary header of a new volume, before its checksum. *)
Record new_hdr (h : luks2_hdr_t) : Prop := {
  nh_valid : hdr2_valid h; nh_magic : h_magic h = _magic_1st; nh_size : h_hdr_size h = DEFAULT_HDR_SIZE;
  nh_offset : h_hdr_offset h = 0; nh_alg : cstr (h_csum_alg h) = DEFAULT_HASH }.

Lemma padded_label (o : option text) : length (pad 48 (strlcpy 48 (default [] o))) = 48%nat.
Proof. unfold pad, strlcpy. rewrite length_app, length_replicate, length_take. lia. Qed.

Lemma initialize_ok label subsystem key cipher uuid hash iterations rsalt rdsalt digest :
  format_ok cipher hash iterations key rsalt rdsalt digest -> (length uuid <= 40)%nat ->
  let o := new_objects cipher hash iterations rdsalt digest in
  let run := _initialize_hdr calloc label subsystem key cipher uuid hash iterations None rsalt rdsalt in
  (json_fits o -> exists h c, run = Done (inr (mk_ext (set_csum h c) (hdr2_of (replicate 4096 0)) o 12288 (area_of o))) /\
     new_hdr h /\ _calculate_csum h (area_of o) = Some c /\ h_uuid h = pad 40 uuid) /\
  (~ json_fits o -> run = Done (inl VIC_FAILED)).
Proof.
  intros F Hu o run. pose proof (new_objects_ok _ _ _ _ _ _ _ F) as Ho. fold o in Ho.
  pose proof F as [F1 [F2 F2'] F3 F4 F5 F6 F7 (n & F8 & F9)]. pose proof (hash_text _ (proj1 F3)) as [Hh _].
  set (h := mk_hdr2 LUKS_MAGIC_1ST LUKS_VERSION_2 DEFAULT_HDR_SIZE 1 (pad 48 (strlcpy 48 (default [] label)))
               (pad 32 DEFAULT_HASH) rsalt (pad 40 uuid) (pad 48 (strlcpy 48 (default [] subsystem))) 0
               (replicate 184 0) (replicate 64 0) (replicate 3584 0)).
  assert (new_hdr h) as Hn.
  { split; try done. split; [|split; [by left|done]].
    constructor; cbn [h h_magic h_version h_hdr_size h_seqid h_label h_csum_alg h_salt h_uuid h_subsystem h_hdr_offset h_padding
      h_csum h_padding4096]; rewrite ?length_replicate; try done; try apply padded_label.
    unfold pad. rewrite length_app, length_replicate. lia. }
  assert (run = match (if 12288 <=? Z.of_nat (length (render (JObject (objects_members o)))) then None else Some (area_of o)) with
                | None => Done (inl VIC_FAILED)
                | Some data => match _calculate_csum h data with
                               | None => Done (inl VIC_OK)
                               | Some c => Done (inr (mk_ext (set_csum h c) (hdr2_of (replicate 4096 0)) o 12288 data))
                               end end) as Er.
  { unfold run, _initialize_hdr. rewrite calloc_true, F8, !strlcpy_text, F9 by done. cbn [negb]. cbv zeta.
    match goal with |- context [json_area ?a ?b] => change (json_area a b) with (json_area o 12288) end.
    rewrite json_area_ok by exact Ho. reflexivity. }
  rewrite Er. unfold json_fits. split; intros Hf.
  - rewrite (proj2 (Z.leb_gt _ _)) by exact Hf. destruct (csum_total h (area_of o)) as [c Hc].
    { rewrite (nh_alg h Hn). by split. }
    { intros E. pose proof (area_length o (conj Ho Hf)) as Hl. by rewrite E in Hl. }
    rewrite Hc. exists h, c. split; [reflexivity|]. split; [exact Hn|]. by split.
  - by rewrite (proj2 (Z.leb_le _ _)) by lia.
Qed.

(** The secondary header agrees with the primary one. *)
Lemma secondary_ok h c s2 o :
  new_hdr h -> hdr2_valid (set_csum h c) -> hdr2_valid (set_csum (secondary_of (set_csum h c)) s2) ->
  ext_ok (mk_ext (set_csum h c) (set_csum (secondary_of (set_csum h c)) s2) o 12288 (area_of o)).
Proof.
  intros [Hv Hm Hs Ho Ha] V1 V2.
  split; cbn [phdr shdr ext_json_size set_csum with_csum secondary_of h_magic h_hdr_size h_hdr_offset h_seqid h_label h_csum_alg
    h_uuid h_subsystem]; try done. rewrite Ha. by split.
Qed.

(** Both headers of a new volume. *)
Lemma write_new d h c o :
  volume2 d -> storable o -> new_hdr h -> _calculate_csum h (area_of o) = Some c ->
  exists d1 d2 s, put_part (set_csum h c) true (area_of o) 12288 d = Done (inr tt, d1) /\
    write_part (secondary_of (set_csum h c)) false (area_of o) 12288 d1 = Done (inr s, d2) /\
    stored d2 (mk_ext (set_csum h c) s o 12288 (area_of o)) /\ same_dev d d2 /\ keeps d d2 0 64.
Proof.
  intros V Hst Hn Hc. pose proof Hn as [Hv Hm Hs Ho Ha]. pose proof (set_csum_valid h _ c Hv Hc) as Hv'.
  pose proof (area_length o Hst) as Hl.
  destruct (put_part_ok d (set_csum h c) true (area_of o)) as (d1 & E1 & S1 & P1 & K1); try done.
  assert (volume2 d1) as V1 by (destruct V as [? ?], S1 as (? & ? & ?); split; [done|by eapply same_dev_inside]).
  assert (hdr2_valid (secondary_of (set_csum h c))) as Hv2.
  { destruct Hv' as ([] & _ & Hver). split; [|split; [by right|done]]. split; try done. }
  destruct (write_part_ok d1 (secondary_of (set_csum h c)) false (area_of o)) as (d2 & c2 & E2 & C2 & S2 & P2 & K2); try done.
  { cbn [h_csum_alg secondary_of set_csum with_csum]. rewrite Ha. by split. }
  exists d1, d2, (set_csum (secondary_of (set_csum h c)) c2). split; [done|]. split; [done|].
  assert (inside d1 0 8 /\ inside d1 8 24) as [I1 I2] by (destruct V1 as [_ ?]; unfold inside in *; lia).
  split; [|split; [by eapply same_dev_trans|eapply (keeps_trans d d1 d2 0 64 0 32 32 32); try done; lia]].
  constructor; cbn [phdr shdr objects ext_json_data]; try done.
  - destruct V1 as [? ?]. split; [apply S2|by eapply same_dev_inside].
  - apply secondary_ok; [done|done|by eapply set_csum_valid].
  - destruct P1 as [G1 G2]. split; unfold holds_hdr2 in *; rewrite K2; (done || lia).
  - by apply set_csum_ok.
  - by apply set_csum_ok.
Qed.

Variable format_integrity : luks2_ext_hdr_t -> list Z -> VM unit.

(** The checks pass, and the headers are made and written. *)
Lemma format_run d label subsystem cipher uuid hash iter key rkey rsalt rdsalt ruuid :
  volume2 d -> MIN_DEVICE_BYTES <= vic_blockdev_get_num_blocks d * 512 -> key_length key ->
  match uuid with Some u => vic_uuid_valid u = true | None => True end ->
  luks2_format calloc format_integrity label subsystem cipher uuid hash iter (Some key) None rkey rsalt rdsalt ruuid d =
    (r ← lift_vm (_initialize_hdr calloc label subsystem key (default LUKS_DEFAULT_CIPHER cipher)
       (match uuid with Some u => u | None => vic_uuid_generate ruuid end) (default DEFAULT_HASH hash)
       (if iter <? LUKS_MIN_MK_ITERATIONS then LUKS_MIN_MK_ITERATIONS else iter) None rsalt rdsalt);
     e ← match r with inl VIC_OK => lift_vm (Failed (BadPointer 0)) | _ => of_sum r end;
     _ ← (if vic_blockdev_get_num_blocks d <=? seg_offset (ext_segment e) / VIC_SECTOR_SIZE then throw VIC_DEVICE_TOO_SMALL
          else mret tt);
     _ ← put_part (phdr e) true (ext_json_data e) (ext_json_size e);
     s ← write_part (secondary_of (phdr e)) false (ext_json_data e) (ext_json_size e);
     (mret tt : VM unit)) d.
Proof.
  intros V Hsz [Hk1 Hk2] Hu.
  assert (Hn : 0 <= vic_blockdev_get_num_blocks d * 512 < 2 ^ 64).
  { unfold vic_blockdev_get_num_blocks. destruct V as [[_ -> _ _] _]. pose proof (u64_range (size d - offset d)) as Hr.
    pose proof (Z.div_mod (u64 (size d - offset d)) 512). pose proof (Z.mod_pos_bound (u64 (size d - offset d)) 512). lia. }
  unfold luks2_format. erewrite (vm_ok (valid_device _)).
  2:{ unfold valid_device, device, mbind, VM_bind, _is_valid_device. destruct V as [[_ Hb _ _] _]. by rewrite Hb. }
  erewrite vm_ok by (destruct uuid as [u|]; [rewrite Hu|]; reflexivity). cbv zeta.
  rewrite (bool_decide_eq_false_2 (key = [])) by (intros ->; simpl in Hk1; lia). erewrite vm_ok by reflexivity.
  rewrite (bool_decide_eq_false_2 (sizeof_key < length key)%nat) by (unfold sizeof_key; lia). erewrite vm_ok by reflexivity.
  erewrite (vm_ok device) by reflexivity.
  change (vic_blockdev_get_num_blocks d * VIC_SECTOR_SIZE) with (vic_blockdev_get_num_blocks d * 512).
  rewrite (u64_small (vic_blockdev_get_num_blocks d * 512)) by lia.
  rewrite (proj2 (Z.ltb_ge (vic_blockdev_get_num_blocks d * 512) MIN_DEVICE_BYTES)) by done.
  erewrite vm_ok by reflexivity. reflexivity.
Qed.

Lemma format_described2 d label subsystem cipher uuid hash iter key rkey rsalt rdsalt ruuid digest :
  volume2 d -> MIN_DEVICE_BYTES <= vic_blockdev_get_num_blocks d * 512 -> length ruuid = 16%nat ->
  match uuid with Some u => vic_uuid_valid u = true | None => True end ->
  let iterations := if iter <? LUKS_MIN_MK_ITERATIONS then LUKS_MIN_MK_ITERATIONS else iter in
  let c := default LUKS_DEFAULT_CIPHER cipher in let h := default DEFAULT_HASH hash in
  format_ok c h iterations key rsalt rdsalt digest ->
  let o := new_objects c h iterations rdsalt digest in
  let run := luks2_format calloc format_integrity label subsystem cipher uuid hash iter (Some key) None rkey rsalt rdsalt ruuid d in
  (json_fits o -> exists d' e', run = Done (inr tt, d') /\ objects e' = o /\ describes2 calloc stack d' e' key (replicate 64 None) /\
     keeps d d' 0 64 /\ same_dev d d' /\
     h_uuid (phdr e') = pad 40 (match uuid with Some u => u | None => vic_uuid_generate ruuid end)) /\
  (~ json_fits o -> run = Done (inl VIC_FAILED, d)).
Proof.
  intros V Hsz Hru Hu iterations c h F o run.
  assert (Hul : (length (match uuid with Some u => u | None => vic_uuid_generate ruuid end) <= 40)%nat).
  { destruct uuid as [u|]; [|rewrite generated_length by done; lia].
    unfold vic_uuid_valid in Hu. destruct (Nat.eqb_spec (length u) 36) as [-> |]; [lia|done]. }
  destruct (initialize_ok label subsystem key c _ h iterations rsalt rdsalt digest F Hul) as [Hfit Hfull].
  pose proof (fo_key _ _ _ _ _ _ _ F) as [Hk1 Hk2]. pose proof (new_objects_ok _ _ _ _ _ _ _ F) as Hook.
  assert (Erun := format_run d label subsystem cipher uuid hash iter key rkey rsalt rdsalt ruuid V Hsz (conj Hk1 Hk2) Hu).
  fold run iterations c h in Erun. rewrite Erun. split; intros Hf.
  - destruct (Hfit Hf) as (h0 & c0 & E0 & Hn0 & Hc0 & Hu0).
    destruct (write_new d h0 c0 o V (conj Hook Hf) Hn0 Hc0) as (d1 & d2 & s & E1 & E2 & S2 & Sd & K2).
    exists d2, (mk_ext (set_csum h0 c0) s o 12288 (area_of o)). split; [|split; [done|split; [|by split_and!]]].
    + erewrite (vm_ok (lift_vm _)) by (unfold lift_vm; rewrite E0; reflexivity).
      erewrite vm_ok by reflexivity. cbn [ext_segment objects segments2 new_objects phdr ext_json_data ext_json_size].
      rewrite (proj2 (Z.leb_gt _ _)); [erewrite vm_ok by reflexivity|].
      * rewrite (vm_ok _ _ _ _ _ E1). by rewrite (vm_ok _ _ _ _ _ E2).
      * change (32768 < vic_blockdev_get_num_blocks d). unfold MIN_DEVICE_BYTES in Hsz. lia.
    + split; [exact S2|exact (conj Hk1 Hk2)|by rewrite length_replicate| |].
      * eexists. split; [reflexivity|]. split; [by eapply new_digest_matches|].
        cbn [dig_keyslots]. by rewrite fmap_replicate.
      * intros i p Hp. apply lookup_replicate in Hp as [-> Hi]. exists zero_keyslot. split; [|done].
        cbn [objects keyslots2 new_objects]. by apply lookup_replicate.
  - erewrite (vm_ok (lift_vm _)) by (unfold lift_vm; rewrite (Hfull Hf); reflexivity). reflexivity.
Qed.
(** C23. Formatting a device of at least 17 megabytes with a given key, without
    integrity protection: if the first objects fit into the JSON area, both
    headers are written, they hold exactly these objects, and the device is a
    volume with this master key and no passwords; nothing behind the headers
    changes. If they do not fit nothing is written. *)
Theorem luks2_format_describes d label subsystem cipher uuid hash iter key rkey rsalt rdsalt ruuid digest :
  volume2 d -> MIN_DEVICE_BYTES <= vic_blockdev_get_num_blocks d * 512 -> length ruuid = 16%nat ->
  match uuid with Some u => vic_uuid_valid u = true | None => True end ->
  let iterations := if iter <? LUKS_MIN_MK_ITERATIONS then LUKS_MIN_MK_ITERATIONS else iter in
  let c := default LUKS_DEFAULT_CIPHER cipher in let h := default DEFAULT_HASH hash in
  format_ok c h iterations key rsalt rdsalt digest ->
  let o := new_objects c h iterations rdsalt digest in
  let run := luks2_format calloc format_integrity label subsystem cipher uuid hash iter (Some key) None rkey rsalt rdsalt ruuid d in
  (json_fits o -> exists d' e', run = Done (inr tt, d') /\ objects e' = o /\ describes2 calloc stack d' e' key (replicate 64 None) /\
     keeps d d' 0 64) /\
  (~ json_fits o -> run = Done (inl VIC_FAILED, d)).
Proof.
  intros V Hsz Hru Hu iterations c h F o run.
  destruct (format_described2 d label subsystem cipher uuid hash iter key rkey rsalt rdsalt ruuid digest V Hsz Hru Hu F)
    as [Hf Hn]. split; [|exact Hn].
  intros Hfit. destruct (Hf Hfit) as (d' & e' & E & Ho & Hd & Hk & _). by exists d', e'.
Qed.
End Format.

(** ** A sample volume *)

#[export] Instance toy_argon2 : Argon2 := {
  argon2_ctx v p s t m c n := Some (replicate n (byte_sum p));
  argon2_ctx_length v p s t m c n k E :=
    match E in _ = o return match o with Some k => length k = n | None => True end with
    | eq_refl => length_replicate n (byte_sum p) end }.

Definition sample_key2 : list Z := replicate 32 5.
Definition sample_stack : list Z := replicate 128 77.
Definition no_integrity (e : luks2_ext_hdr_t) (key : list Z) : VM unit := throw VIC_FAILED.
Definition sample_format : VM unit :=
  luks2_format enough no_integrity (Some (bytes "data")) None None None None 0 (Some sample_key2) None [] (replicate 64 1)
    (replicate 32 2) (replicate 16 9).
Definition sample_objects : luks2_objects :=
  new_objects LUKS_DEFAULT_CIPHER DEFAULT_HASH 1000 (replicate 32 2) (replicate 32 (byte_sum sample_key2)).

Lemma sample_format_ok :
  format_ok LUKS_DEFAULT_CIPHER DEFAULT_HASH 1000 sample_key2 (replicate 64 1) (replicate 32 2)
    (replicate 32 (byte_sum sample_key2)).
Proof.
  constructor; try done; try (by apply Forall_replicate).
  - unfold key_length, sample_key2. rewrite length_replicate. lia.
  - split; [vm_compute; lia|done].
  - split; [by rewrite length_replicate|by apply Forall_replicate].
  - exists 32. split; [done|]. unfold vic_pbkdf2. rewrite decide_False by (intros [|[|]]; [done..|lia]). done.
Qed.

Lemma sample_blocks : MIN_DEVICE_BYTES <= vic_blockdev_get_num_blocks sample_device2 * 512.
Proof. change (17825792 <= u64 (17825792 - 0) / 512 * 512). vm_compute. discriminate. Qed.

Lemma luks2_format_describes_witness :
  exists d' e', sample_format sample_device2 = Done (inr tt, d') /\ objects e' = sample_objects /\
    describes2 enough sample_stack d' e' sample_key2 (replicate 64 None) /\ keeps sample_device2 d' 0 64.
Proof.
  apply (proj1 (luks2_format_describes enough sample_stack (fun _ => eq_refl) no_integrity sample_device2
    (Some (bytes "data")) None None None None 0 sample_key2 [] (replicate 64 1) (replicate 32 2) (replicate 16 9)
    (replicate 32 (byte_sum sample_key2)) sample_volume2 sample_blocks (length_replicate 16 9) I sample_format_ok)).
  vm_compute. reflexivity.
Defined.
