(* ===== verification/Luks2Volumes.v ===== *)
(** * Luks2Volumes: what a LUKS2 volume guarantees

    Adding, changing and removing a password change one slot of the description
    of a volume and keep the others, and every password recovers the master key.
    The key material of a removed slot stays on the device. *)

From Stdlib Require Import String.
From S2P Require Import Prelude JsonText JsonParser JsonPrint JsonNumbers JsonStrings JsonSafety JsonComplete VicCrypto.
From S2P Require Import Blockdev Uuid Luks1Header Luks1 Luks1Props Luks2Header Luks2Json Luks2Doc Luks2Read Luks2 Luks2Props.
From S2P Require Import Luks2Keys Luks2Format.

#[local] Opaque replicate.

Section Volumes.
Context `{Algorithms} `{Ciphers} `{Argon2} `{Base64}.
Variable calloc : Z -> bool.
Variable ja_malloc : nat -> Z -> bool.
Variable stack : list Z.
Hypothesis calloc_true : forall n, calloc n = true.
Hypothesis malloc_true : forall n sz, ja_malloc n sz = true.

Abbreviation derive := (derive_key stack).
Abbreviation candidate := (Luks2.candidate calloc stack).
Abbreviation describes2 := (Luks2Keys.describes2 calloc stack).
Abbreviation slot_holds2 := (Luks2Keys.slot_holds2 calloc stack).

(** Under [pwd], no slot before the [i]-th yields a key with the volume's
    digest. *)
Definition no_match_before2 (d : blockdev_t) (e : luks2_ext_hdr_t) (pwd : list Z) (i : nat) : Prop :=
  forall j ks, (j < i)%nat -> keyslots2 (objects e) !! j = Some ks -> ks_type ks <> [] ->
    exists c, candidate d ks pwd = Done (inr c) /\ check_digest (objects e) j c = inr false.

Lemma find_keyslots_skip d o pwd l n i ks mk :
  l !! i = Some ks ->
  (forall j k, (j < i)%nat -> l !! j = Some k -> ks_type k <> [] ->
     exists c, candidate d k pwd = Done (inr c) /\ check_digest o (n + j) c = inr false) ->
  ks_type ks <> [] -> candidate d ks pwd = Done (inr mk) -> check_digest o (n + i) mk = inr true ->
  find_keyslots calloc stack d o pwd n l = Done (inr ((n + i)%nat, mk)).
Proof.
  revert n i. induction l as [|k l IH]; intros n i Hi Hb Ht Hc Hd; [done|]. cbn [find_keyslots].
  destruct i as [|i].
  - injection Hi as ->. rewrite bool_decide_eq_false_2 by done. rewrite Hc. cbn [mbind outcome_bind].
    rewrite Nat.add_0_r in *. by rewrite Hd.
  - assert (find_keyslots calloc stack d o pwd (S n) l = Done (inr ((n + S i)%nat, mk))) as Hl.
    { replace (n + S i)%nat with (S n + i)%nat in * by lia. apply IH; try done.
      intros j k' Hj Hk' Hu. destruct (Hb (S j) k') as (c & ? & ?); [lia|done|done|]. exists c.
      by replace (S n + j)%nat with (n + S j)%nat by lia. }
    case_bool_decide; [done|]. destruct (Hb 0%nat k) as (c & -> & E); [lia|done|done|]. cbn [mbind outcome_bind].
    rewrite Nat.add_0_r in E. by rewrite E.
Qed.

Lemma find_digest_described d e mk pws i pwd :
  describes2 d e mk pws -> pws !! i = Some (Some pwd) -> check_digest (objects e) i mk = inr true.
Proof.
  intros [_ _ _ (dg & Hdg & Hm & Hk) _] Hi. unfold check_digest, _find_digest.
  destruct (digests2 (objects e)) as [|dg' l]; [done|]. injection Hdg as ->. cbn [list_find].
  rewrite decide_True; [done|]. rewrite Hk, list_lookup_fmap, Hi. done.
Qed.

Lemma find_described2 d e mk pws i pwd :
  describes2 d e mk pws -> pws !! i = Some (Some pwd) -> no_match_before2 d e pwd i ->
  _find_key_by_pwd calloc stack e pwd d = Done (inr (i, mk), d).
Proof.
  intros Hde Hi Hn. pose proof (find_digest_described _ _ _ _ _ _ Hde Hi) as Hdg.
  destruct (d2_slots _ _ _ _ _ _ Hde i (Some pwd) Hi) as (ks & Hks & Ha & Hin & Hc).
  unfold Luks2._find_key_by_pwd, mbind, VM_bind, device, lift_vm.
  rewrite (find_keyslots_skip d (objects e) pwd (keyslots2 (objects e)) 0 i ks mk); try done.
  by rewrite (sa_type _ _ _ Ha).
Qed.

Lemma described_valid d e mk pws r : describes2 d e mk pws -> valid_device r d = Done (inr tt, d).
Proof.
  intros Hde. destruct (st_volume _ _ (d2_stored _ _ _ _ _ _ Hde)) as [Hw _].
  unfold valid_device, device, mbind, VM_bind, _is_valid_device. by rewrite (wr_block d Hw).
Qed.

Lemma described_read2 d e mk pws : describes2 d e mk pws -> read_ext calloc ja_malloc 0 d = Done (inr e, d).
Proof.
  intros Hde. unfold read_ext, device, mbind, VM_bind, lift_vm.
  by rewrite (read_stored calloc ja_malloc calloc_true malloc_true d e (d2_stored _ _ _ _ _ _ Hde)).
Qed.

(** C22. Every password of a LUKS2 volume recovers its master key, unless under
    that password an earlier slot fails or yields another key with the volume's
    digest: [luks2_recover_master_key] reads and checks both headers, decrypts
    and merges the key material of the slot and finds the digest. *)
Theorem luks2_recover_finds d e mk pws i pwd :
  describes2 d e mk pws -> pws !! i = Some (Some pwd) -> no_match_before2 d e pwd i ->
  luks2_recover_master_key calloc ja_malloc 0 stack pwd d = Done (inr mk, d).
Proof.
  intros Hde Hi Hn. unfold luks2_recover_master_key.
  rewrite (vm_ok _ _ _ _ _ (described_valid d e mk pws _ Hde)), (vm_ok _ _ _ _ _ (described_read2 d e mk pws Hde)).
  by rewrite (vm_ok _ _ _ _ _ (find_described2 d e mk pws i pwd Hde Hi Hn)).
Qed.

(** ** Replacing a slot *)

Lemma matching_digest_ok dg mk : dg = zero_digest \/ digest_ok dg -> digest_matches dg mk = inr true -> digest_ok dg.
Proof. intros [-> |Hd] Hm; [|done]. done. Qed.

Lemma put_keyslot_ok o i ks m dg :
  objects_ok o -> ks = zero_keyslot \/ keyslot_ok ks -> m = 0 \/ m = 1 -> digests2 o !! 0%nat = Some dg -> digest_ok dg ->
  objects_ok (put_keyslot i ks m o).
Proof.
  intros [[K1 K2] S [D1 D2] J1 J2] Hks Hm Hdg Hok. split; try done.
  - cbn [keyslots2 put_keyslot at_digest at_keyslot]. rewrite length_alter. split; [done|].
    apply Forall_alter; [done|]. by intros.
  - cbn [digests2 put_keyslot at_digest at_keyslot]. rewrite length_alter. split; [done|].
    apply Forall_alter; [done|]. intros x Hx _. change (Z.to_nat 0) with 0%nat in Hx. rewrite Hdg in Hx. injection Hx as <-.
    right. destruct Hok as [? [? ?] ? ? ? ? ?]. split; try done. split; cbn [dig_keyslots set_dig_keyslots].
    + by rewrite length_insert.
    + by apply Forall_insert.
Qed.

Lemma slots_apart mk i j :
  key_length mk -> i <> j -> slot_block mk j + slot_blocks mk <= slot_block mk i \/ slot_block mk i + slot_blocks mk <= slot_block mk j.
Proof.
  intros Hk Hij. destruct (area_bytes_spec mk Hk) as [_ (q & Hq & E)]. unfold slot_block, slot_blocks. rewrite E.
  replace (q * 4096) with (q * 8 * 512) by lia. rewrite Z.div_mul by lia. nia.
Qed.

Lemma slot_block_64 mk i : key_length mk -> 64 <= slot_block mk i /\ 0 < slot_blocks mk.
Proof.
  intros Hk. destruct (area_bytes_spec mk Hk) as [_ (q & Hq & E)]. unfold slot_block, slot_blocks. rewrite E.
  replace (q * 4096) with (q * 8 * 512) by lia. rewrite Z.div_mul by lia. nia.
Qed.

(** What is written behind the headers does not matter for them. *)
Lemma stored_kept d d' e b n : stored d e -> same_dev d d' -> keeps d d' b n -> 64 <= b \/ b + n <= 0 -> stored d' e.
Proof.
  intros [[Hw Hin] He Ho Hd [G1 G2] [G3 G4] C1 C2] Hs Hk Hb.
  assert (forall b' n', 0 <= b' -> 0 <= n' -> b' + n' <= 64 -> vic_blockdev_get d' b' n' = vic_blockdev_get d b' n') as Hg.
  { intros b' n' ???. apply Hk; [unfold inside in *; lia|lia]. }
  split; try done.
  - split; [apply Hs|by eapply same_dev_inside].
  - split; unfold holds_hdr2; rewrite Hg; (done || lia).
  - split; unfold holds_hdr2; rewrite Hg; (done || lia).
Qed.

(** The description after slot [i] was replaced and the headers were rewritten. *)
Lemma describes2_put d d' e e' mk pws i ks p :
  describes2 d e mk pws -> (i < 64)%nat -> stored d' e' -> objects e' = put_keyslot i ks (used_mark p) (objects e) ->
  slot_holds2 d' mk i ks p -> same_dev d d' ->
  (forall j, j <> i -> inside d (slot_block mk j) (slot_blocks mk) ->
     vic_blockdev_get d' (slot_block mk j) (slot_blocks mk) = vic_blockdev_get d (slot_block mk j) (slot_blocks mk)) ->
  describes2 d' e' mk (<[i := p]> pws).
Proof.
  intros [Hst Hk Hl (dg & Hdg & Hm & Hmk) Hs] Hi Hst' Ho Hh Hsd Hb. split; try done.
  - by rewrite length_insert.
  - exists (set_dig_keyslots (<[i := used_mark p]> (dig_keyslots dg)) dg). rewrite Ho.
    cbn [digests2 put_keyslot at_digest at_keyslot]. change (Z.to_nat 0) with 0%nat.
    rewrite list_lookup_alter_eq, Hdg. split; [done|]. split; [done|]. cbn [dig_keyslots set_dig_keyslots].
    rewrite Hmk. symmetry. apply list_fmap_insert.
  - intros j p' Hj. rewrite Ho. cbn [keyslots2 put_keyslot at_digest at_keyslot]. rewrite Nat2Z.id.
    destruct (decide (j = i)) as [-> |Hne].
    + rewrite list_lookup_insert_eq in Hj by lia. injection Hj as <-. exists ks.
      destruct (Hs i (pws !!! i)) as (k0 & Hk0 & _); [by apply list_lookup_lookup_total_lt; lia|].
      by rewrite list_lookup_alter_eq, Hk0.
    + rewrite list_lookup_insert_ne in Hj by done. rewrite list_lookup_alter_ne by done.
      destruct (Hs j p' Hj) as (k & Hkj & Hh'). exists k. split; [done|]. destruct p' as [pwd|]; [|done].
      destruct Hh' as (Ha & Hin & Hc). split; [done|]. split; [by eapply same_dev_inside|].
      rewrite <- Hc. eapply candidate2_same; [done|done|]. by apply Hb.
Qed.

(** ** Adding a key *)

(** What a new slot needs: a hash, parameters and a cipher name that can be
    stored, and a key that is longer than what the integrity algorithm takes. *)
Record new_slot_ok (e : luks2_ext_hdr_t) (mk : list Z) (cipher t : text) (k : vic_kdf_t) (rsalt : list Z) : Prop := {
  ns_type : _valid_pbkdf_type t = true; ns_hash : hash_usable (default DEFAULT_KDF_HASH (vk_hash k));
  ns_params : int_ok (vk_iterations k) /\ int_ok (vk_time k) /\ int_ok (vk_memory k) /\ int_ok (vk_cpus k);
  ns_salt : bytes_ok 32 rsalt; ns_integrity : vic_integrity_key_size (_get_integrity_type e) <= Z.of_nat (length mk);
  ns_cipher : text_ok cipher }.

Definition new_keyslot (e : luks2_ext_hdr_t) (mk : list Z) (cipher t : text) (k : vic_kdf_t) (i : nat) (rsalt : list Z) :
    option luks2_keyslot_t :=
  _init_keyslot cipher (Z.of_nat (length mk)) (u64 (Z.of_nat (length mk) - vic_integrity_key_size (_get_integrity_type e)))
    t (vk_hash k) (vk_iterations k) (vk_time k) (vk_memory k) (vk_cpus k) i rsalt.

Lemma or_default_ok x d : int_ok x -> int_ok d -> int_ok (if truthy x then x else d).
Proof. by destruct (truthy x). Qed.

(** The parameters of the function are kept, the others are zero. *)
Lemma new_kdf_ok t k rsalt :
  _valid_pbkdf_type t = true -> text_ok (default DEFAULT_KDF_HASH (vk_hash k)) ->
  int_ok (vk_iterations k) /\ int_ok (vk_time k) /\ int_ok (vk_memory k) /\ int_ok (vk_cpus k) -> bytes_ok 32 rsalt ->
  let pb := bool_decide (t = bytes "pbkdf2") in
  let ar := bool_decide (take 7 t = bytes "argon2i") in
  let or_default (x d : Z) := if truthy x then x else d in
  kdf_ok (mk_kdf t rsalt (if pb then default DEFAULT_KDF_HASH (vk_hash k) else [])
    (if pb then or_default (vk_iterations k) DEFAULT_KDF_ITERATIONS else 0)
    (if negb pb && ar then or_default (vk_time k) DEFAULT_KDF_TIME else 0)
    (if negb pb && ar then or_default (vk_memory k) DEFAULT_KDF_MEMORY else 0)
    (if negb pb && ar then or_default (vk_cpus k) DEFAULT_KDF_CPUS else 0)).
Proof.
  intros Ht Hh (P1 & P2 & P3 & P4) Hs pb ar od.
  assert (text_ok []) as T0 by (split; [vm_compute; lia|done]).
  assert (int_ok 0) as I0 by (unfold int_ok; lia).
  assert (forall x d, int_ok x -> int_ok d -> int_ok (od x d)) as Hod by (intros x d ??; by apply or_default_ok).
  split; cbn [kdf_type kdf_salt kdf_hash kdf_iterations kdf_time kdf_memory kdf_cpus]; try done.
  - by destruct pb.
  - destruct pb; [apply Hod; [done|unfold int_ok, DEFAULT_KDF_ITERATIONS; lia]|done].
  - destruct (negb pb && ar); [apply Hod; [done|unfold int_ok, DEFAULT_KDF_TIME; lia]|done].
  - destruct (negb pb && ar); [apply Hod; [done|unfold int_ok, DEFAULT_KDF_MEMORY; lia]|done].
  - destruct (negb pb && ar); [apply Hod; [done|unfold int_ok, DEFAULT_KDF_CPUS; lia]|done].
  - fold pb. by destruct pb.
Qed.

Lemma new_keyslot_spec e mk cipher t k i rsalt :
  key_length mk -> (i < 64)%nat -> new_slot_ok e mk cipher t k rsalt ->
  exists ks, new_keyslot e mk cipher t k i rsalt = Some ks /\ slot_at mk i ks /\ keyslot_ok ks /\
    hash_usable (af_hash (ks_af ks)).
Proof.
  intros Hk Hi [Ht Hh (P1 & P2 & P3 & P4) Hs Hg Hc]. pose proof Hk as [Hk1 Hk2].
  destruct (area_bytes_spec mk Hk) as [_ (q & Hq & E)].
  assert (0 <= vic_integrity_key_size (_get_integrity_type e)) by (unfold vic_integrity_key_size; repeat case_bool_decide; lia).
  pose proof (hash_text _ (proj1 Hh)) as [Hl1 Hl2]. pose proof (pbkdf_text t Ht) as [[_ Ht2] Ht3].
  unfold new_keyslot, _init_keyslot. rewrite (u64_small (Z.of_nat (length mk) - _)) by lia.
  unfold DEFAULT_AF_STRIPES. rewrite (u64_small (4000 * _)) by (clear -Hk1 Hk2; lia). fold (area_bytes mk).
  assert (0 <= area_bytes mk * Z.of_nat i <= 126 * 4096 * 64) by nia. rewrite (u64_small (area_bytes mk * _)) by lia.
  change (DEFAULT_HDR_SIZE * 2) with 32768. rewrite (u64_small (32768 + _)) by lia.
  rewrite (proj2 (Z.eqb_neq _ _)) by lia. rewrite Ht. cbn [negb].
  destruct (vic_hash_size (default DEFAULT_KDF_HASH (vk_hash k))) eqn:Eh; [|by destruct Hh].
  rewrite decide_False by lia. rewrite (bool_decide_eq_false_2 (32 <= _)%nat) by lia. rewrite andb_false_r.
  eexists. split; [reflexivity|]. destruct Hc as [Hc1 Hc2]. rewrite !strlcpy_text by done.
  split; [split; cbn [ks_type ks_key_size af_stripes ks_af area_size ks_area area_offset]; (done || lia)|].
  split; [|exact Hh].
  assert (text_ok []) as T0 by (split; [vm_compute; lia|done]).
  constructor; cbn [ks_type ks_key_size ks_kdf ks_af ks_area af_type af_hash af_stripes area_type area_encryption
    area_key_size area_offset area_size]; unfold int_ok, long_ok in *.
  all: try lia.
  all: try (split; [vm_compute; lia|done]).
  - by apply new_kdf_ok.
  - by split.
  - by split.
Qed.

(** The first free slot, by the description. *)
Lemma find_free2 d e mk pws i :
  describes2 d e mk pws -> pws !! i = Some None -> (forall j, (j < i)%nat -> pws !! j <> Some None) ->
  _find_free_keyslot (objects e) = Some i.
Proof.
  intros [_ _ Hl _ Hs] Hi Hb. unfold _find_free_keyslot.
  destruct (Hs i None Hi) as (k & Hk & ->).
  replace (list_find _ (keyslots2 (objects e))) with (Some (i, zero_keyslot)); [done|]. symmetry.
  apply list_find_Some. split_and!; [done|done|]. intros j k Hkj Hj Ht.
  assert (j < length pws)%nat as Hjl by (apply lookup_lt_Some in Hi; lia).
  destruct (lookup_lt_is_Some_2 _ _ Hjl) as [[pwd|] Hp]; [|by apply (Hb j)].
  destruct (Hs j (Some pwd) Hp) as (k' & Hk' & Ha & _). rewrite Hkj in Hk'. injection Hk' as <-.
  by rewrite (sa_type _ _ _ Ha) in Ht.
Qed.

(** Writing a slot's material. *)
Lemma write_material_ok d mk i ks pwd pkey rsplit :
  key_length mk -> slot_at mk i ks -> usable2 ks -> Z.of_nat (length rsplit) = Z.of_nat (length mk) * DEFAULT_AF_STRIPES ->
  derive ks pwd = Done (inr pkey) -> writable d -> inside d (slot_block mk i) (slot_blocks mk) ->
  exists d', write_material calloc stack ks mk pwd rsplit d = Done (inr tt, d') /\ same_dev d d' /\
    keeps d d' (slot_block mk i) (slot_blocks mk) /\ candidate d' ks pwd = Done (inr mk).
Proof.
  intros Hk Ha Hu Hr Hd Hw Hin. destruct (material_total calloc stack calloc_true mk i ks pwd pkey rsplit Hk Ha Hu Hr Hd) as [data Hg].
  destruct (slot_at_blocks mk i ks Hk Ha) as (E1 & E2 & E3).
  destruct (candidate_of_material2 calloc stack calloc_true d mk i ks pwd rsplit data Hk Ha Hr Hg) as [Hl _].
  destruct (put_blocks d (slot_block mk i) (slot_blocks mk) data Hw Hin) as (d' & E & Hs & Hget & Hkp); [lia|].
  exists d'. split_and!; [|done|done|].
  - unfold write_material, mbind, VM_bind, lift_vm. rewrite Hg. unfold of_sum, change, mret, VM_ret, Luks2._write_key_material.
    unfold VIC_SECTOR_SIZE. by rewrite E1, E2, E.
  - by apply (candidate_of_material2 calloc stack calloc_true d' mk i ks pwd rsplit data Hk Ha Hr Hg).
Qed.

(** Adding a slot: the headers are written before the key material. *)
Lemma add_header d e mk pws i cipher t k pwd rsalt rsplit ks :
  describes2 d e mk pws -> pws !! i = Some None -> (forall j, (j < i)%nat -> pws !! j <> Some None) ->
  new_slot_ok e mk cipher t k rsalt -> new_keyslot e mk cipher t k i rsalt = Some ks ->
  let o' := put_keyslot i ks 1 (objects e) in
  (json_fits o' -> exists d1 e1, add_keyslot calloc stack e cipher t k mk pwd rsalt rsplit d =
       write_material calloc stack ks mk pwd rsplit d1 /\
     stored d1 e1 /\ objects e1 = o' /\ same_dev d d1 /\ keeps d d1 0 64 /\ h_uuid (phdr e1) = h_uuid (phdr e)) /\
  (~ json_fits o' -> add_keyslot calloc stack e cipher t k mk pwd rsalt rsplit d = Done (inl VIC_FAILED, d)).
Proof.
  intros Hde Hi Hb Hn Hnk o'. pose proof Hde as [Hst Hk Hl (dg & Hdg & Hm & Hmk) Hs].
  assert (i < 64)%nat as Hi64 by (apply lookup_lt_Some in Hi; lia).
  destruct (new_keyslot_spec e mk cipher t k i rsalt Hk Hi64 Hn) as (ks' & E & Ha & Hok & Hu).
  rewrite Hnk in E. injection E as <-.
  assert (objects_ok o') as Ho'.
  { eapply put_keyslot_ok; [apply Hst|by right|by right|exact Hdg|]. eapply matching_digest_ok; [|exact Hm].
    destruct (oo_digests _ (proj1 (st_objects _ _ Hst))) as [_ HF]. by eapply Forall_lookup_1 in HF. }
  unfold add_keyslot. rewrite (find_free2 d e mk pws i Hde Hi Hb). cbv zeta. unfold new_keyslot in Hnk.
  erewrite vm_ok by reflexivity. rewrite Hnk. erewrite vm_ok by reflexivity. fold o'.
  assert (ext_ok (with_objects o' e)) as He by (by destruct (st_ext _ _ Hst)).
  split; intros Hf.
  - destruct (write_hdr_ok d (with_objects o' e)) as (d1 & e1 & E1 & S1 & [No (c1 & c2 & Hp & _)] & Sd & K1); [apply Hst|done|by split|].
    rewrite (check_ok _ _ _ _ _ E1). exists d1, e1. split_and!; try done. by rewrite Hp.
  - eapply check_error; [by apply write_hdr_full|done].
Qed.

Lemma add_described2 d e mk pws i cipher t k pwd pkey rsalt rsplit ks :
  describes2 d e mk pws -> pws !! i = Some None -> (forall j, (j < i)%nat -> pws !! j <> Some None) ->
  new_slot_ok e mk cipher t k rsalt -> new_keyslot e mk cipher t k i rsalt = Some ks -> usable2 ks ->
  Z.of_nat (length rsplit) = Z.of_nat (length mk) * DEFAULT_AF_STRIPES -> derive ks pwd = Done (inr pkey) ->
  inside d (slot_block mk i) (slot_blocks mk) ->
  let o' := put_keyslot i ks 1 (objects e) in
  (json_fits o' -> exists d' e', add_keyslot calloc stack e cipher t k mk pwd rsalt rsplit d = Done (inr tt, d') /\
     objects e' = o' /\ describes2 d' e' mk (<[i := Some pwd]> pws) /\ same_dev d d' /\ h_uuid (phdr e') = h_uuid (phdr e)) /\
  (~ json_fits o' -> add_keyslot calloc stack e cipher t k mk pwd rsalt rsplit d = Done (inl VIC_FAILED, d)).
Proof.
  intros Hde Hi Hb Hn Hnk Hu Hr Hdk Hin o'. pose proof (d2_key _ _ _ _ _ _ Hde) as Hk.
  pose proof (d2_length _ _ _ _ _ _ Hde) as Hl.
  assert (i < 64)%nat as Hi64 by (apply lookup_lt_Some in Hi; lia).
  destruct (new_keyslot_spec e mk cipher t k i rsalt Hk Hi64 Hn) as (ks' & E & Ha & _ & _).
  rewrite Hnk in E. injection E as <-.
  destruct (add_header d e mk pws i cipher t k pwd rsalt rsplit ks Hde Hi Hb Hn Hnk) as [Hfit Hfull].
  split; [|exact Hfull]. intros Hf. destruct (Hfit Hf) as (d1 & e1 & -> & S1 & No & Sd & K1 & Huu).
  destruct (write_material_ok d1 mk i ks pwd pkey rsplit Hk Ha Hu Hr Hdk) as (d2 & E2 & S2 & K2 & Hc);
    [apply Sd|by eapply same_dev_inside|].
  exists d2, e1. split; [done|]. split; [done|]. split; [|split; [by eapply same_dev_trans|done]].
  apply (describes2_put d d2 e e1 mk pws i ks (Some pwd)); try done.
  - eapply stored_kept; [exact S1|exact S2|exact K2|left; apply slot_block_64, Hk].
  - split; [done|]. split; [|done]. eapply same_dev_inside; [exact S2|]. by eapply same_dev_inside.
  - by eapply same_dev_trans.
  - intros j Hj Hjin. destruct (slot_block_64 mk j Hk) as [??]. rewrite K2.
    + apply K1; [done|lia].
    + by eapply same_dev_inside.
    + by apply slots_apart.
Qed.

Lemma by_master_key_adds d e mk pws cipher kt kd t k pwd rsalt rsplit :
  describes2 d e mk pws -> handle_kdf kt kd = inr (t, k) ->
  luks2_add_key_by_master_key calloc ja_malloc 0 stack cipher kt kd mk pwd rsalt rsplit d =
  add_keyslot calloc stack e cipher t k mk pwd rsalt rsplit d.
Proof.
  intros Hde Hkd. unfold luks2_add_key_by_master_key. rewrite (vm_ok _ _ _ _ _ (described_valid d e mk pws _ Hde)), Hkd.
  cbn [of_sum]. erewrite vm_ok by reflexivity. cbv beta iota. by rewrite (vm_ok _ _ _ _ _ (described_read2 d e mk pws Hde)).
Qed.

(** C6. Adding a password to the first free slot [i] of a described volume, for
    valid parameters of the new slot and the right number of random bytes, by the
    master key.  There are three outcomes.  If the objects still fit into the
    JSON area, there are a cipher and a hash for the slot ([usable2]) and a key is
    derived from the password, the operation succeeds, and the device holds the
    volume with the new password in slot [i] and all other passwords.  If the
    objects fit, but no key material can be made (no cipher, no hash, or the
    derivation fails), the operation fails with that error after the headers have
    been written: the device then lists the slot, whose material was not
    written (what follows from this is [luks2_failed_add_blocks]).  If the
    objects do not fit, the operation fails and nothing has been written.  And
    adding with an old password of slot [j] does the same, provided that this
    password is in the volume and that no slot before the [j]-th keeps it from
    being found ([no_match_before2]). *)
Theorem luks2_add_refines d e mk pws i cipher kt kd t k pwd rsalt rsplit ks :
  describes2 d e mk pws -> pws !! i = Some None -> (forall j, (j < i)%nat -> pws !! j <> Some None) ->
  handle_kdf kt kd = inr (t, k) -> new_slot_ok e mk cipher t k rsalt -> new_keyslot e mk cipher t k i rsalt = Some ks ->
  Z.of_nat (length rsplit) = Z.of_nat (length mk) * DEFAULT_AF_STRIPES -> inside d (slot_block mk i) (slot_blocks mk) ->
  let by_key := luks2_add_key_by_master_key calloc ja_malloc 0 stack cipher kt kd mk pwd rsalt rsplit d in
  let o' := put_keyslot i ks 1 (objects e) in
  (forall pkey, json_fits o' -> usable2 ks -> derive ks pwd = Done (inr pkey) ->
     exists d' e', by_key = Done (inr tt, d') /\ objects e' = o' /\ describes2 d' e' mk (<[i := Some pwd]> pws)) /\
  (forall err, json_fits o' -> _generate_key_material calloc stack ks mk pwd rsplit = Done (inl err) ->
     exists d' e', by_key = Done (inl err, d') /\ luks2_read_hdr calloc ja_malloc 0 d' = Done (Some e') /\ objects e' = o') /\
  (~ json_fits o' -> by_key = Done (inl VIC_FAILED, d)) /\
  (forall old j, pws !! j = Some (Some old) -> no_match_before2 d e old j ->
     luks2_add_key calloc ja_malloc 0 stack (Some cipher) kt kd old pwd rsalt rsplit d = by_key).
Proof.
  intros Hde Hi Hb Hkd Hn Hnk Hr Hin by_key o'.
  assert (by_key = add_keyslot calloc stack e cipher t k mk pwd rsalt rsplit d) as Ek by exact (by_master_key_adds _ _ _ _ _ _ _ _ _ _ _ _ Hde Hkd).
  rewrite Ek. clear by_key Ek. destruct (add_header d e mk pws i cipher t k pwd rsalt rsplit ks Hde Hi Hb Hn Hnk) as [Hfit Hfull].
  split_and!.
  - intros pkey Hf Hu Hdk.
    destruct (add_described2 d e mk pws i cipher t k pwd pkey rsalt rsplit ks Hde Hi Hb Hn Hnk Hu Hr Hdk Hin) as [Ha _].
    destruct (Ha Hf) as (d' & e' & ? & ? & ? & _). by exists d', e'.
  - intros err Hf Hg. destruct (Hfit Hf) as (d1 & e1 & Eadd & S1 & No & _). exists d1, e1. rewrite Eadd.
    split_and!; [|exact (read_stored calloc ja_malloc calloc_true malloc_true d1 e1 S1)|done].
    unfold write_material, mbind, VM_bind, lift_vm. by rewrite Hg.
  - exact Hfull.
  - intros old j Hj Hno. unfold luks2_add_key. rewrite (vm_ok _ _ _ _ _ (described_valid d e mk pws _ Hde)), Hkd.
    cbn [of_sum]. erewrite vm_ok by reflexivity. cbv beta iota. rewrite (vm_ok _ _ _ _ _ (described_read2 d e mk pws Hde)).
    by rewrite (vm_ok _ _ _ _ _ (find_described2 d e mk pws j old Hde Hj Hno)).
Qed.

(** Without a cipher there is no key material, and none can be read. *)
Lemma material_no_cipher mk i ks pwd pkey rsplit :
  key_length mk -> slot_at mk i ks -> hash_usable (af_hash (ks_af ks)) ->
  Luks2._get_cipher_info (area_encryption (ks_area ks)) (area_key_size (ks_area ks)) = None ->
  Z.of_nat (length rsplit) = Z.of_nat (length mk) * DEFAULT_AF_STRIPES -> derive ks pwd = Done (inr pkey) ->
  _generate_key_material calloc stack ks mk pwd rsplit = Done (inl VIC_ENCRYPT_FAILED).
Proof.
  intros Hk Hs [U2 U3] Hci Hr Hd. pose proof Hs as [Ht Hks Hst Hsz Hof]. unfold _generate_key_material.
  rewrite calloc_true, Hd. cbn [negb mbind outcome_bind]. rewrite Hks, Hst, Nat2Z.id, take_ge by done.
  destruct (afsplit_total (af_hash (ks_af ks)) mk DEFAULT_AF_STRIPES rsplit) as [split Esp];
    [unfold key_length, sizeof_key in *; lia|unfold DEFAULT_AF_STRIPES; lia|unfold key_length, DEFAULT_AF_STRIPES in *; lia|done|done|].
  rewrite Esp. cbn [mbind outcome_bind].
  destruct (stripes_padded mk i ks rsplit split Hk Hs Hr Esp) as [Hle _].
  rewrite decide_False by lia. unfold Luks2._encrypt, Luks2._crypt. by rewrite Hci.
Qed.

Lemma candidate_no_cipher d mk i ks pwd pkey :
  key_length mk -> slot_at mk i ks -> writable d -> inside d (slot_block mk i) (slot_blocks mk) ->
  Luks2._get_cipher_info (area_encryption (ks_area ks)) (area_key_size (ks_area ks)) = None ->
  derive ks pwd = Done (inr pkey) -> candidate d ks pwd = Done (inl VIC_DECRYPT_FAILED).
Proof.
  intros Hk Hs Hw Hin Hci Hd. destruct (slot_at_blocks mk i ks Hk Hs) as (E1 & E2 & _). unfold Luks2.candidate.
  rewrite (sa_type _ _ _ Hs), bool_decide_true, Hd by done. cbn [negb mbind outcome_bind]. rewrite calloc_true. cbn [negb].
  destruct (get_inside d (slot_block mk i) (slot_blocks mk)) as (data & Hg & _);
    [apply Hw|apply Hin|apply Hin|rewrite (wr_block d Hw); apply Hin|].
  unfold Luks2._read_key_material, VIC_SECTOR_SIZE. rewrite E1, E2, Hg. unfold Luks2._decrypt, Luks2._crypt. by rewrite Hci.
Qed.

(** A key that cannot be added blocks the volume: when there is no cipher for
    the new slot, or for the length of the key, the key material fails after
    the headers have been written; the device then lists the slot, and if it is
    the first one, no password at all recovers the master key any more. *)
Theorem luks2_failed_add_blocks d e mk pws cipher kt kd t k pwd pkey rsalt rsplit ks :
  describes2 d e mk pws -> pws !! 0%nat = Some None ->
  handle_kdf kt kd = inr (t, k) -> new_slot_ok e mk cipher t k rsalt -> new_keyslot e mk cipher t k 0 rsalt = Some ks ->
  Luks2._get_cipher_info (area_encryption (ks_area ks)) (area_key_size (ks_area ks)) = None ->
  Z.of_nat (length rsplit) = Z.of_nat (length mk) * DEFAULT_AF_STRIPES -> derive ks pwd = Done (inr pkey) ->
  inside d (slot_block mk 0) (slot_blocks mk) -> json_fits (put_keyslot 0 ks 1 (objects e)) ->
  exists d' e', luks2_add_key_by_master_key calloc ja_malloc 0 stack cipher kt kd mk pwd rsalt rsplit d =
      Done (inl VIC_ENCRYPT_FAILED, d') /\
    luks2_read_hdr calloc ja_malloc 0 d' = Done (Some e') /\ keyslots2 (objects e') !! 0%nat = Some ks /\
    forall p x, derive ks p = Done (inr x) ->
      luks2_recover_master_key calloc ja_malloc 0 stack p d' = Done (inl VIC_DECRYPT_FAILED, d').
Proof.
  intros Hde Hi Hkd Hn Hnk Hci Hr Hdk Hin Hf. pose proof (d2_key _ _ _ _ _ _ Hde) as Hk.
  destruct (new_keyslot_spec e mk cipher t k 0 rsalt Hk ltac:(lia) Hn) as (ks' & E & Ha & _ & Hh).
  rewrite Hnk in E. injection E as <-.
  destruct (add_header d e mk pws 0 cipher t k pwd rsalt rsplit ks Hde Hi ltac:(lia) Hn Hnk) as [Hfit _].
  destruct (Hfit Hf) as (d1 & e1 & Eadd & S1 & No & Sd & K1). exists d1, e1.
  pose proof (read_stored calloc ja_malloc calloc_true malloc_true d1 e1 S1) as Er.
  assert (keyslots2 (objects e1) !! 0%nat = Some ks) as Hks.
  { rewrite No. cbn [keyslots2 put_keyslot at_digest at_keyslot]. change (Z.to_nat (Z.of_nat 0)) with 0%nat.
    rewrite list_lookup_alter_eq. by destruct (d2_slots _ _ _ _ _ _ Hde 0%nat None Hi) as (k0 & -> & _). }
  split_and!; [|done|done|].
  - rewrite (by_master_key_adds _ _ _ _ _ _ _ _ _ _ _ _ Hde Hkd), Eadd. unfold write_material, mbind, VM_bind, lift_vm.
    rewrite (material_no_cipher mk 0 ks pwd pkey rsplit) by done. done.
  - intros p x Hp. unfold luks2_recover_master_key.
    assert (valid_device VIC_BAD_DEVICE d1 = Done (inr tt, d1)) as Hv.
    { destruct (st_volume _ _ S1) as [Hw _]. unfold valid_device, device, mbind, VM_bind, _is_valid_device.
      by rewrite (wr_block d1 Hw). }
    rewrite (vm_ok _ _ _ _ _ Hv). unfold read_ext. erewrite (vm_ok _ _ d1) by (unfold device, mbind, VM_bind, lift_vm; by rewrite Er).
    apply vm_error. unfold Luks2._find_key_by_pwd, mbind, VM_bind, device, lift_vm.
    destruct (keyslots2 (objects e1)) as [|k0 l]; [done|]. injection Hks as ->. cbn [find_keyslots].
    rewrite (sa_type _ _ _ Ha), bool_decide_eq_false_2 by done. 
    rewrite (candidate_no_cipher d1 mk 0 ks p x); try done; [apply Sd|by eapply same_dev_inside].
Qed.

(** ** Changing a password *)

Lemma put_same o i ks dg m :
  keyslots2 o !! i = Some ks -> digests2 o !! 0%nat = Some dg -> dig_keyslots dg !! i = Some m -> put_keyslot i ks m o = o.
Proof.
  intros Hk Hd Hm. destruct o as [l s ds c]. cbn [keyslots2 digests2] in *.
  unfold put_keyslot, at_digest, at_keyslot. cbn [keyslots2 digests2 segments2 config2]. rewrite Nat2Z.id. f_equal.
  - etrans; [apply (list_alter_ext _ id)|by apply list_alter_id]; [|done]. intros x. rewrite Hk. by intros [= ->].
  - etrans; [apply (list_alter_ext _ id)|by apply list_alter_id]; [|done]. intros x. change (Z.to_nat 0) with 0%nat.
    rewrite Hd. intros [= ->]. rewrite list_insert_id by done. by destruct x.
Qed.

(** Changing a password: the headers are written again with the next
    sequence number, the objects are the same, and the slot's material is made
    for the new password, with the old salt. The other passwords stay. *)
Theorem luks2_change_key_spec d e mk pws i old new pkey rsplit ks :
  describes2 d e mk pws -> pws !! i = Some (Some old) -> no_match_before2 d e old i ->
  keyslots2 (objects e) !! i = Some ks -> usable2 ks ->
  Z.of_nat (length rsplit) = Z.of_nat (length mk) * DEFAULT_AF_STRIPES -> derive ks new = Done (inr pkey) ->
  exists d' e', luks2_change_key calloc ja_malloc 0 stack old new rsplit d = Done (inr tt, d') /\
    objects e' = objects e /\ h_seqid (phdr e') = u64 (h_seqid (phdr e) + 1) /\
    describes2 d' e' mk (<[i := Some new]> pws).
Proof.
  intros Hde Hi Hn Hks Hu Hr Hdk. pose proof Hde as [Hst Hk Hl (dg & Hdg & Hm & Hmk) Hs].
  assert (i < 64)%nat as Hi64 by (apply lookup_lt_Some in Hi; lia).
  destruct (Hs i (Some old) Hi) as (ks' & Hks' & Ha & Hin & Hc). rewrite Hks in Hks'. injection Hks' as <-.
  destruct (write_hdr_ok d e) as (d1 & e1 & E1 & S1 & [No (c1 & c2 & Np & _)] & Sd & K1); [apply Hst..|].
  destruct (write_material_ok d1 mk i ks new pkey rsplit Hk Ha Hu Hr Hdk) as (d2 & E2 & S2 & K2 & Hc2);
    [apply Sd|by eapply same_dev_inside|].
  exists d2, e1. split_and!; [| done | by rewrite Np |].
  - unfold luks2_change_key. rewrite (vm_ok _ _ _ _ _ (described_valid d e mk pws _ Hde)).
    rewrite (vm_ok _ _ _ _ _ (described_read2 d e mk pws Hde)).
    rewrite (vm_ok _ _ _ _ _ (find_described2 d e mk pws i old Hde Hi Hn)).
    rewrite (check_ok _ _ _ _ _ E1). by rewrite Hks.
  - apply (describes2_put d d2 e e1 mk pws i ks (Some new)); try done.
    + eapply stored_kept; [exact S1|exact S2|exact K2|left; apply slot_block_64, Hk].
    + rewrite No. symmetry. eapply put_same; [done|exact Hdg|]. by rewrite Hmk, list_lookup_fmap, Hi.
    + split; [done|]. split; [|done]. eapply same_dev_inside; [exact S2|]. by eapply same_dev_inside.
    + by eapply same_dev_trans.
    + intros j Hj Hjin. destruct (slot_block_64 mk j Hk) as [??]. rewrite K2.
      * apply K1; [done|lia].
      * by eapply same_dev_inside.
      * by apply slots_apart.
Qed.

(** ** The size of the text *)

Definition text_size (v : json) : nat := length (render v).
Definition member_size (m : text * json) : nat := 2 + length (quoted m.1) + text_size m.2.
Definition members_size (l : list (text * json)) : nat := sum_list_with member_size l.

Lemma object_size l : text_size (JObject l) = (2 + pred (members_size l))%nat.
Proof.
  unfold text_size, members_size. cbn [render length]. rewrite length_app. cbn [length].
  assert (length (flat_map (fun '(k, x) => 44 :: quoted k ++ 58 :: render x) l) = sum_list_with member_size l) as <-.
  { induction l as [|[k x] l IH]; [done|]. cbn [flat_map sum_list_with]. rewrite length_app, IH. unfold member_size, text_size.
    cbn [fst snd length]. rewrite length_app. cbn [length]. lia. }
  destruct (flat_map _ _); simpl; lia.
Qed.

Lemma array_size l : text_size (JArray l) = (2 + pred (sum_list_with (fun x => S (text_size x)) l))%nat.
Proof.
  change (text_size (JArray l)) with (length (render (JArray l))). cbn [render length]. rewrite length_app. cbn [length].
  assert (length (flat_map (fun x => 44 :: render x) l) = sum_list_with (fun x => S (text_size x)) l) as <-.
  { induction l as [|x l IH]; [done|]. cbn [flat_map sum_list_with]. rewrite length_app, IH. cbn [length]. unfold text_size. lia. }
  destruct (flat_map _ _); simpl; lia.
Qed.

Lemma sum_sublist {A} (f : A -> nat) l1 l2 : l1 `sublist_of` l2 -> (sum_list_with f l1 <= sum_list_with f l2)%nat.
Proof. induction 1; simpl; lia. Qed.

Lemma filter_sublist_impl {A} (P Q : A -> Prop) `{forall x, Decision (P x)} `{forall x, Decision (Q x)} l :
  (forall x, x ∈ l -> P x -> Q x) -> filter P l `sublist_of` filter Q l.
Proof.
  induction l as [|x l IH]; intros Hi; [constructor|].
  assert (filter P l `sublist_of` filter Q l) as Hl by (apply IH; intros y Hy; apply Hi; by right).
  destruct (decide (P x)) as [HP|HP].
  - rewrite !filter_cons_True by (first [done|apply Hi; [left|done]]). by constructor.
  - rewrite filter_cons_False by done. destruct (decide (Q x)).
    + rewrite filter_cons_True by done. by constructor.
    + by rewrite filter_cons_False.
Qed.

(** Zeroing an object removes it from the document. *)
Lemma used_zeroed {R} (type : R -> text) (zero : R) l i :
  type zero = [] -> used type (alter (fun _ => zero) i l) `sublist_of` used type l.
Proof.
  intros Hz. unfold used. change (fun (j : nat) (x : R) => (j, x)) with (fun (j : nat) (x : R) => (id j : nat, x)).
  generalize (id : nat -> nat) as f. revert i.
  induction l as [|x l IH]; intros i f; [destruct i; apply sublist_nil|].
  destruct i as [|i]; cbn [alter list_alter imap].
  - rewrite filter_cons_False by (intros Hn; by apply Hn). case (decide (type x <> [])) as [Hx|Hx].
    + rewrite filter_cons_True by done. by constructor.
    + by rewrite filter_cons_False.
  - case (decide (type x <> [])) as [Hx|Hx].
    + rewrite !filter_cons_True by done. constructor. apply (IH i (f ∘ S)).
    + rewrite !filter_cons_False by done. apply (IH i (f ∘ S)).
Qed.

Lemma marked_zeroed l i : marked (<[i := 0]> l) `sublist_of` marked l.
Proof.
  unfold marked. rewrite length_insert. apply filter_sublist_impl. intros j _.
  destruct (decide (j = i)) as [-> |Hj]; [|by rewrite list_lookup_insert_ne].
  destruct (decide (i < length l)%nat); [by rewrite list_lookup_insert_eq|by rewrite list_insert_ge by lia].
Qed.

Lemma digest_doc_size d (i : nat) : (text_size (digest_doc (set_dig_keyslots (<[i := 0%Z]> (dig_keyslots d)) d)) <= text_size (digest_doc d))%nat.
Proof.
  unfold digest_doc. rewrite !object_size. unfold members_size. cbn [sum_list_with]. unfold member_size. cbn [fst snd].
  cbn [dig_type dig_keyslots dig_segments dig_hash dig_iterations dig_salt dig_digest set_dig_keyslots].
  assert (text_size (marks_doc (<[i:=0%Z]> (dig_keyslots d))) <= text_size (marks_doc (dig_keyslots d)))%nat; [|lia].
  unfold marks_doc. rewrite !array_size.
  pose proof (sum_sublist (fun x => S (text_size (number_doc (Z.of_nat x)))) _ _ (marked_zeroed (dig_keyslots d) i)) as Hs.
  assert (forall l, sum_list_with (fun x => S (text_size x)) (map (fun i => number_doc (Z.of_nat i)) l) =
    sum_list_with (fun x => S (text_size (number_doc (Z.of_nat x)))) l) as Hm by (induction l; simpl; lia).
  rewrite !Hm. lia.
Qed.

(** Removing a slot never makes the document longer. *)
Lemma remove_fits o i dg :
  digests2 o !! 0%nat = Some dg -> json_fits o -> json_fits (put_keyslot i zero_keyslot 0 o).
Proof.
  intros Hdg. unfold json_fits. cut (text_size (JObject (objects_members (put_keyslot i zero_keyslot 0%Z o))) <=
    text_size (JObject (objects_members o)))%nat; [unfold text_size; lia|].
  destruct o as [l s ds c]. cbn [digests2] in Hdg. destruct ds as [|dg' ds]; [done|]. injection Hdg as ->.
  unfold objects_members, put_keyslot, at_digest, at_keyslot. cbn [keyslots2 segments2 digests2 config2]. rewrite Nat2Z.id.
  rewrite !object_size. unfold members_size. cbn [sum_list_with]. unfold member_size. cbn [fst snd].
  enough (text_size (JObject (numbered_members keyslot_doc (used ks_type (alter (fun _ => zero_keyslot) i l)))) <=
    text_size (JObject (numbered_members keyslot_doc (used ks_type l))))%nat as Hks.
  - enough (text_size (JObject (numbered_members digest_doc (used dig_type
      (alter (fun d => set_dig_keyslots (<[i:=0%Z]> (dig_keyslots d)) d) (Z.to_nat 0%Z) (dg :: ds))))) <=
      text_size (JObject (numbered_members digest_doc (used dig_type (dg :: ds)))))%nat as Hd; [lia|].
    rewrite !object_size. unfold members_size, used. change (Z.to_nat 0) with 0%nat. cbn [alter list_alter imap].
    destruct (decide (dig_type dg <> [])).
    + rewrite !filter_cons_True by done. cbn [numbered_members map sum_list_with]. unfold member_size at 1 3. cbn [fst snd].
      pose proof (digest_doc_size dg i). lia.
    + by rewrite !filter_cons_False.
  - rewrite !object_size. unfold members_size, numbered_members.
    pose proof (sum_sublist (fun p => member_size (lu (Z.of_nat p.1), keyslot_doc p.2)) _ _
      (used_zeroed ks_type zero_keyslot l i eq_refl)) as Hs.
    assert (forall L, sum_list_with member_size (map (fun p => (lu (Z.of_nat p.1), keyslot_doc p.2)) L) =
      sum_list_with (fun p => member_size (lu (Z.of_nat p.1), keyslot_doc p.2)) L) as Hm by (induction L; simpl; lia).
    rewrite !Hm. lia.
Qed.

(** ** Removing a password *)

Lemma filter_one {A} (P : A -> Prop) `{forall x, Decision (P x)} l x : x ∈ l -> P x -> (1 <= length (filter P l))%nat.
Proof.
  intros Hx HP. destruct (filter P l) eqn:E; [|simpl; lia]. exfalso. apply (not_elem_of_nil x). rewrite <- E.
  by apply list_elem_of_filter.
Qed.

Lemma filter_two {A} (P : A -> Prop) `{forall x, Decision (P x)} l i j x y :
  l !! i = Some x -> l !! j = Some y -> (i < j)%nat -> P x -> P y -> (2 <= length (filter P l))%nat.
Proof.
  intros Hx Hy Hij HPx HPy. rewrite <- (take_drop j l), filter_app, length_app.
  assert (1 <= length (filter P (take j l)))%nat.
  { apply (filter_one P _ x); [|done]. eapply (list_elem_of_lookup_2 _ i). by rewrite lookup_take_lt. }
  assert (1 <= length (filter P (drop j l)))%nat; [|lia].
  apply (filter_one P _ y); [|done]. eapply (list_elem_of_lookup_2 _ 0). by rewrite lookup_drop, Nat.add_0_r.
Qed.

Lemma slot_used d e mk pws i pwd :
  describes2 d e mk pws -> pws !! i = Some (Some pwd) ->
  exists ks, keyslots2 (objects e) !! i = Some ks /\ ks_type ks <> [] /\ slot_at mk i ks /\ candidate d ks pwd = Done (inr mk) /\
    inside d (slot_block mk i) (slot_blocks mk).
Proof.
  intros Hde Hi. destruct (d2_slots _ _ _ _ _ _ Hde i (Some pwd) Hi) as (ks & Hks & Ha & Hin & Hc). exists ks.
  split_and!; try done. by rewrite (sa_type _ _ _ Ha).
Qed.

(** The number of key slots in use is that of the passwords. *)
Lemma count_described d e mk pws i j old other :
  describes2 d e mk pws -> pws !! i = Some (Some old) -> pws !! j = Some (Some other) -> i <> j ->
  count_keyslots (objects e) <> 1%nat.
Proof.
  intros Hde Hi Hj Hij. destruct (slot_used _ _ _ _ _ _ Hde Hi) as (k1 & Hk1 & U1 & _).
  destruct (slot_used _ _ _ _ _ _ Hde Hj) as (k2 & Hk2 & U2 & _). unfold count_keyslots.
  destruct (decide (i < j)%nat).
  - pose proof (filter_two (fun k => ks_type k <> []) _ i j k1 k2 Hk1 Hk2 ltac:(done) U1 U2). lia.
  - pose proof (filter_two (fun k => ks_type k <> []) _ j i k2 k1 Hk2 Hk1 ltac:(lia) U2 U1). lia.
Qed.

(** Without a slot and without data nothing is overwritten. *)
Lemma write_no_material d :
  writable d -> 0 <= offset d <= size d ->
  exists d', Luks2._write_key_material calloc zero_keyslot None d = Some d' /\ same_dev d d' /\ keeps d d' 0 0.
Proof.
  intros Hw Ho. destruct (put_blocks d 0 0 [] Hw) as (d' & E & Hs & _ & Hk); [unfold inside; lia|done|].
  exists d'. split; [|done]. unfold Luks2._write_key_material. cbn [ks_area zero_keyslot area_size area_offset].
  rewrite calloc_true. change (replicate (Z.to_nat 0) 0) with (@nil Z). change (0 / VIC_SECTOR_SIZE) with 0. by rewrite E.
Qed.

(** Removing a password: its slot becomes free in both headers and all other
    passwords stay, but the key material is not overwritten, because the slot
    has been zeroed when its area is to be written: all blocks behind the
    headers keep their contents, and the old slot still yields the master key
    under the removed password. *)
Theorem luks2_remove_keeps_material d e mk pws i pwd j other :
  describes2 d e mk pws -> pws !! i = Some (Some pwd) -> no_match_before2 d e pwd i ->
  pws !! j = Some (Some other) -> i <> j ->
  exists ks d' e', keyslots2 (objects e) !! i = Some ks /\
    luks2_remove_key calloc ja_malloc 0 stack pwd d = Done (inr tt, d') /\ describes2 d' e' mk (<[i := None]> pws) /\
    keeps d d' 0 64 /\ candidate d' ks pwd = Done (inr mk).
Proof.
  intros Hde Hi Hn Hj Hij. destruct (slot_used _ _ _ _ _ _ Hde Hi) as (ks & Hks & _ & Ha & Hc & Hin).
  pose proof Hde as [Hst Hk Hl (dg & Hdg & Hm & Hmk) Hs].
  assert (i < 64)%nat as Hi64 by (apply lookup_lt_Some in Hi; lia).
  set (o' := put_keyslot i zero_keyslot 0 (objects e)).
  assert (storable o') as Ho'.
  { destruct (st_objects _ _ Hst) as [Hok Hf]. split; [|by eapply remove_fits].
    eapply put_keyslot_ok; [done|by left|by left|exact Hdg|]. eapply matching_digest_ok; [|exact Hm].
    destruct (oo_digests _ Hok) as [_ HF]. by eapply Forall_lookup_1 in HF. }
  destruct (write_hdr_ok d (with_objects o' e)) as (d1 & e1 & E1 & S1 & [No _] & Sd & K1);
    [apply Hst|by destruct (st_ext _ _ Hst)|done|].
  destruct (write_no_material d1) as (d2 & E2 & S2 & K2); [apply Sd| |].
  { destruct Sd as (_ & -> & -> & _). destruct (st_volume _ _ Hst) as [[Hbd _ _] (_ & _ & ?)]. destruct Hbd. lia. }
  assert (same_dev d d2) as Hsd by (by eapply same_dev_trans).
  assert (keeps d d2 0 64) as K.
  { intros b n Hb Hd. rewrite K2; [by apply K1|by eapply same_dev_inside|]. destruct Hb as (? & ? & _). lia. }
  assert (stored d2 e1) as S3 by (eapply stored_kept; [exact S1|exact S2|exact K2|lia]).
  destruct (slot_block_64 mk i Hk) as [??].
  exists ks, d2, e1. split_and!; try done.
  - unfold luks2_remove_key. rewrite (vm_ok _ _ _ _ _ (described_valid d e mk pws _ Hde)).
    rewrite (vm_ok _ _ _ _ _ (described_read2 d e mk pws Hde)).
    rewrite (vm_ok _ _ _ _ _ (find_described2 d e mk pws i pwd Hde Hi Hn)). cbv beta iota.
    destruct (decide (count_keyslots (objects e) = 1%nat)) as [Hcnt|_];
      [by apply (count_described d e mk pws i j pwd other Hde Hi Hj Hij) in Hcnt|].
    erewrite vm_ok by reflexivity. cbv zeta. fold o'. rewrite (check_ok _ _ _ _ _ E1). unfold change. by rewrite E2.
  - apply (describes2_put d d2 e e1 mk pws i zero_keyslot None); try done.
    intros b Hb Hbin. destruct (slot_block_64 mk b Hk) as [??]. apply K; [done|lia].
  - rewrite <- Hc. eapply candidate2_same; [done|done|]. apply K; [done|lia].
Qed.
End Volumes.

(** ** A sample volume *)

Definition sample_kdf : vic_kdf_t := mk_vic_kdf None 0 4 744976 1.
Definition sample_slot_of (cipher : text) (i : nat) : luks2_keyslot_t :=
  mk_keyslot (bytes "luks2") 32 (mk_kdf (bytes "argon2i") sample_salt [] 0 4 744976 1)
    (mk_af (bytes "luks1") (bytes "sha256") 4000)
    (mk_area (bytes "raw") cipher 32 (32768 + 131072 * Z.of_nat i) 131072).

Definition sample_slot2 : nat -> luks2_keyslot_t := sample_slot_of LUKS_DEFAULT_CIPHER.

Lemma sample_new_keyslot_of e cipher i :
  segments2 (objects e) = segments2 sample_objects -> (i < 64)%nat -> text_ok cipher ->
  new_keyslot e sample_key2 cipher (bytes "argon2i") sample_kdf i sample_salt = Some (sample_slot_of cipher i) /\
  new_slot_ok e sample_key2 cipher (bytes "argon2i") sample_kdf sample_salt.
Proof.
  intros Hs Hi Hc. assert (_get_integrity_type e = []) as Hg by (unfold _get_integrity_type, ext_segment; by rewrite Hs).
  split.
  - unfold new_keyslot, _init_keyslot. rewrite Hg. change (Z.of_nat (length sample_key2)) with 32.
    change (vic_round_up (u64 (DEFAULT_AF_STRIPES * 32)) 4096) with 131072.
    rewrite (u64_small (131072 * Z.of_nat i)) by lia. rewrite (u64_small (DEFAULT_HDR_SIZE * 2 + _)) by (unfold DEFAULT_HDR_SIZE; lia).
    rewrite (strlcpy_text cipher) by apply Hc. reflexivity.
  - split; rewrite ?Hg; try done.
    split; unfold sample_salt; [by rewrite length_replicate|by apply Forall_replicate].
Qed.

Lemma sample_new_keyslot e i :
  segments2 (objects e) = segments2 sample_objects -> (i < 64)%nat ->
  new_keyslot e sample_key2 LUKS_DEFAULT_CIPHER (bytes "argon2i") sample_kdf i sample_salt = Some (sample_slot2 i) /\
  new_slot_ok e sample_key2 LUKS_DEFAULT_CIPHER (bytes "argon2i") sample_kdf sample_salt.
Proof. intros Hs Hi. apply sample_new_keyslot_of; [done|done|]. split; [vm_compute; lia|done]. Qed.

Lemma sample_usable i : usable2 (sample_slot2 i).
Proof. split; [discriminate|split; [discriminate|reflexivity]]. Qed.

Lemma sample_inside d i :
  same_dev sample_device2 d -> (i < 64)%nat -> inside d (slot_block sample_key2 i) (slot_blocks sample_key2).
Proof.
  intros (_ & Ho & Hs & _) Hi. unfold inside, slot_block, slot_blocks. rewrite Ho, Hs.
  change (area_bytes sample_key2) with 131072. cbn [sample_device2 offset size]. change (131072 / 512) with 256. lia.
Qed.

(** The sample device, formatted and with a first password. *)
Lemma sample_with_password2 :
  exists d e, describes2 enough sample_stack d e sample_key2 (Some sample_pwd :: replicate 63 None) /\
    same_dev sample_device2 d /\ objects e = put_keyslot 0 (sample_slot2 0) 1 sample_objects.
Proof.
  destruct (format_described2 enough sample_stack (fun _ => eq_refl) no_integrity sample_device2
    (Some (bytes "data")) None None None None 0 sample_key2 [] (replicate 64 1) (replicate 32 2) (replicate 16 9)
    (replicate 32 (byte_sum sample_key2)) sample_volume2 sample_blocks (length_replicate 16 9) I sample_format_ok) as [Hf _].
  destruct Hf as (d & e & _ & Ho & Hd & _ & Hs & _); [vm_compute; reflexivity|].
  destruct (sample_new_keyslot e 0) as [Hk Hn]; [by rewrite Ho|lia|].
  destruct (add_described2 enough sample_stack (fun _ => eq_refl) d e sample_key2 (replicate 64 None) 0 LUKS_DEFAULT_CIPHER
    (bytes "argon2i") sample_kdf sample_pwd (replicate 32 (byte_sum sample_pwd) ++ drop 32 sample_stack) sample_salt sample_split
    (sample_slot2 0)) as [Ha _].
  { exact Hd. } { reflexivity. } { intros j Hj; lia. } { exact Hn. } { exact Hk. } { apply sample_usable. }
  { unfold sample_split. rewrite length_replicate, Z2Nat.id by lia. reflexivity. }
  { reflexivity. }
  { by apply sample_inside; [|lia]. }
  rewrite Ho in Ha. destruct Ha as (d' & e' & E & Ho' & Hd' & Hs' & _); [vm_compute; reflexivity|].
  exists d', e'. split; [exact Hd'|]. split; [by eapply same_dev_trans|exact Ho'].
Qed.

Lemma luks2_recover_finds_witness :
  exists d e, describes2 enough sample_stack d e sample_key2 (Some sample_pwd :: replicate 63 None) /\
    luks2_recover_master_key enough enough_json 0 sample_stack sample_pwd d = Done (inr sample_key2, d).
Proof.
  destruct sample_with_password2 as (d & e & Hd & _ & _). exists d, e. split; [exact Hd|].
  apply (luks2_recover_finds enough enough_json sample_stack (fun _ => eq_refl) (fun _ _ => eq_refl) d e sample_key2
    (Some sample_pwd :: replicate 63 None) 0 sample_pwd Hd eq_refl).
  intros j k Hj. lia.
Defined.

(** A second password, added with the first one. *)
Lemma luks2_add_refines_witness :
  exists d d' e', luks2_add_key enough enough_json 0 sample_stack (Some LUKS_DEFAULT_CIPHER) None (Some sample_kdf) sample_pwd
      [120] sample_salt sample_split d = Done (inr tt, d') /\
    describes2 enough sample_stack d' e' sample_key2 (Some sample_pwd :: Some [120] :: replicate 62 None).
Proof.
  destruct sample_with_password2 as (d & e & Hd & Hs & Ho).
  destruct (sample_new_keyslot e 1) as [Hk Hn]; [rewrite Ho; reflexivity|lia|].
  destruct (luks2_add_refines enough enough_json sample_stack (fun _ => eq_refl) (fun _ _ => eq_refl) d e sample_key2
    (Some sample_pwd :: replicate 63 None) 1 LUKS_DEFAULT_CIPHER None (Some sample_kdf) (bytes "argon2i") sample_kdf [120]
    sample_salt sample_split (sample_slot2 1)) as (Hf & _ & _ & E).
  - exact Hd.
  - reflexivity.
  - intros j Hj. assert (j = O) as -> by lia. discriminate.
  - reflexivity.
  - exact Hn.
  - exact Hk.
  - unfold sample_split. rewrite length_replicate, Z2Nat.id by lia. reflexivity.
  - apply sample_inside; [exact Hs|lia].
  - destruct (Hf (replicate 32 (byte_sum [120]) ++ drop 32 sample_stack)) as (d' & e' & E' & _ & Hd');
      [rewrite Ho; vm_compute; reflexivity|apply sample_usable|reflexivity|].
    exists d, d', e'. split; [|exact Hd']. rewrite (E sample_pwd 0%nat); [exact E'|reflexivity|].
    intros j k Hj. lia.
Defined.

Lemma luks2_change_key_spec_witness :
  exists d d' e', luks2_change_key enough enough_json 0 sample_stack sample_pwd [121] sample_split d = Done (inr tt, d') /\
    describes2 enough sample_stack d' e' sample_key2 (Some [121] :: replicate 63 None).
Proof.
  destruct sample_with_password2 as (d & e & Hd & Hs & Ho).
  destruct (luks2_change_key_spec enough enough_json sample_stack (fun _ => eq_refl) (fun _ _ => eq_refl) d e sample_key2
    (Some sample_pwd :: replicate 63 None) 0 sample_pwd [121] (replicate 32 (byte_sum [121]) ++ drop 32 sample_stack)
    sample_split (sample_slot2 0)) as (d' & e' & E & _ & _ & Hd').
  - exact Hd.
  - reflexivity.
  - intros j k Hj. lia.
  - rewrite Ho. reflexivity.
  - apply sample_usable.
  - unfold sample_split. rewrite length_replicate, Z2Nat.id by lia. reflexivity.
  - reflexivity.
  - exists d, d', e'. split; [exact E|exact Hd'].
Defined.

(** The first of two passwords is removed. *)
Lemma luks2_remove_keeps_material_witness :
  exists ks d d' e', luks2_remove_key enough enough_json 0 sample_stack sample_pwd d = Done (inr tt, d') /\
    describes2 enough sample_stack d' e' sample_key2 (None :: Some [120] :: replicate 62 None) /\ keeps d d' 0 64 /\
    Luks2.candidate enough sample_stack d' ks sample_pwd = Done (inr sample_key2).
Proof.
  destruct sample_with_password2 as (d0 & e0 & Hd0 & Hs0 & Ho).
  destruct (sample_new_keyslot e0 1) as [Hk Hn]; [rewrite Ho; reflexivity|lia|].
  destruct (add_described2 enough sample_stack (fun _ => eq_refl) d0 e0 sample_key2 (Some sample_pwd :: replicate 63 None) 1
    LUKS_DEFAULT_CIPHER (bytes "argon2i") sample_kdf [120] (replicate 32 (byte_sum [120]) ++ drop 32 sample_stack) sample_salt
    sample_split (sample_slot2 1)) as [Ha _].
  { exact Hd0. } { reflexivity. } { intros j Hj. assert (j = O) as -> by lia. discriminate. } { exact Hn. } { exact Hk. } { apply sample_usable. }
  { unfold sample_split. rewrite length_replicate, Z2Nat.id by lia. reflexivity. }
  { reflexivity. }
  { apply sample_inside; [exact Hs0|lia]. }
  destruct Ha as (d & e & _ & _ & Hd & _); [rewrite Ho; vm_compute; reflexivity|].
  destruct (luks2_remove_keeps_material enough enough_json sample_stack (fun _ => eq_refl) (fun _ _ => eq_refl) d e sample_key2
    (Some sample_pwd :: Some [120] :: replicate 62 None) 0 sample_pwd 1 [120]) as (ks & d' & e' & _ & E & Hd' & Hk' & Hc).
  - exact Hd.
  - reflexivity.
  - intros j k Hj. lia.
  - reflexivity.
  - discriminate.
  - exists ks, d, d', e'. split; [exact E|]. split; [exact Hd'|]. split; [exact Hk'|exact Hc].
Defined.

(** A cipher that LUKS1 supports and LUKS2 does not. *)
Lemma luks2_failed_add_blocks_witness :
  exists d d', luks2_add_key_by_master_key enough enough_json 0 sample_stack (bytes "aes-cbc-plain") None (Some sample_kdf)
      sample_key2 sample_pwd sample_salt sample_split d = Done (inl VIC_ENCRYPT_FAILED, d') /\
    luks2_recover_master_key enough enough_json 0 sample_stack sample_pwd d' = Done (inl VIC_DECRYPT_FAILED, d').
Proof.
  destruct (format_described2 enough sample_stack (fun _ => eq_refl) no_integrity sample_device2
    (Some (bytes "data")) None None None None 0 sample_key2 [] (replicate 64 1) (replicate 32 2) (replicate 16 9)
    (replicate 32 (byte_sum sample_key2)) sample_volume2 sample_blocks (length_replicate 16 9) I sample_format_ok) as [Hf _].
  destruct Hf as (d & e & _ & Ho & Hd & _ & Hs & _); [vm_compute; reflexivity|].
  destruct (sample_new_keyslot_of e (bytes "aes-cbc-plain") 0) as [Hk Hn];
    [rewrite Ho; reflexivity|lia|split; [vm_compute; lia|reflexivity]|].
  destruct (luks2_failed_add_blocks enough enough_json sample_stack (fun _ => eq_refl) (fun _ _ => eq_refl) d e sample_key2
    (replicate 64 None) (bytes "aes-cbc-plain") None (Some sample_kdf) (bytes "argon2i") sample_kdf sample_pwd
    (replicate 32 (byte_sum sample_pwd) ++ drop 32 sample_stack) sample_salt sample_split (sample_slot_of (bytes "aes-cbc-plain") 0))
    as (d' & e' & E & _ & _ & Hp).
  - exact Hd.
  - reflexivity.
  - reflexivity.
  - exact Hn.
  - exact Hk.
  - reflexivity.
  - unfold sample_split. rewrite length_replicate, Z2Nat.id by lia. reflexivity.
  - reflexivity.
  - apply sample_inside; [exact Hs|lia].
  - rewrite Ho. vm_compute. reflexivity.
  - exists d, d'. split; [exact E|]. apply (Hp sample_pwd (replicate 32 (byte_sum sample_pwd) ++ drop 32 sample_stack)).
    reflexivity.
Defined.
