(* ===== verification/DeviceMapper.v ===== *)
(** * DeviceMapper: the targets of the device mapper
    (src/vicsetup/libvicsetup/dm.c, loop.c, hexdump.c)

    The code describes a target in a line of text and hands it to the kernel
    with libdevmapper.  The host is a record of its files and of the devices
    that are mapped; libdevmapper with the kernel, and the loop devices, are
    classes with the laws the code relies on.  Pointers passed by the callers
    are not null. *)

From Stdlib Require Import String.
From stdpp Require Import gmap.
From S2P Require Import Prelude JsonText Blockdev Uuid Luks1Header Luks2Json Luks2.

(** ** The host *)

(** A file or block device: whether it is a block device, whether it may be
    written, and its contents. *)
Record node : Type := mk_node { n_block : bool; n_writable : bool; n_data : list Z }.

(** A mapped device. *)
Record dm_device : Type := mk_dm {
  dd_start : Z; dd_size : Z; dd_type : text; dd_params : text; dd_uuid : option text; dd_readonly : bool }.

(** [runs]: how many tasks were run; a device that is busy now may be free later. *)
Record host : Type := mk_host { files : gmap text node; mapper : gmap text dm_device; runs : nat }.

Definition PATH_MAX : Z := 4096.
Definition DM_UUID_LEN : Z := 129.
Definition mapper_path (name : text) : text := bytes "/dev/mapper/" ++ name.

(** ** libdevmapper *)

Inductive dm_task_type : Type := DM_DEVICE_CREATE | DM_DEVICE_REMOVE.
Record dm_task : Type := mk_task {
  t_type : dm_task_type; t_name : text; t_uuid : option text; t_target : option (Z * Z * text * text); t_ro : bool;
  t_secure : bool }.

Definition with_uuid (u : text) (t : dm_task) : dm_task :=
  mk_task (t_type t) (t_name t) (Some u) (t_target t) (t_ro t) (t_secure t).
Definition with_target (start size : Z) (type params : text) (t : dm_task) : dm_task :=
  mk_task (t_type t) (t_name t) (t_uuid t) (Some (start, size, type, params)) (t_ro t) (t_secure t).

(** The device that a task with a target creates. *)
Definition device_of (t : dm_task) : option dm_device :=
  '(start, size, type, params) ← t_target t; Some (mk_dm start size type params (t_uuid t) (t_ro t)).
(** dm-integrity writes to the device below it. *)
Definition writes_below (t : dm_task) : bool :=
  match t_target t with Some (_, _, type, _) => bool_decide (type = bytes "integrity") | None => false end.

Class DeviceMapper : Type := {
  (* whether dm_task_create finds memory, and whether the call that made the task this one succeeds *)
  dm_task_create : dm_task_type -> bool;
  dm_task_set : dm_task -> bool;
  dm_task_run : dm_task -> host -> bool * host;
  (* dm_task_get_info: the flag exists *)
  dm_task_get_info : dm_task -> host -> option bool;
  dm_run_maps t h h' : t_type t = DM_DEVICE_CREATE -> dm_task_run t h = (true, h') -> mapper h' !! t_name t = device_of t;
  dm_run_unmaps t h h' : t_type t = DM_DEVICE_REMOVE -> dm_task_run t h = (true, h') -> mapper h' !! t_name t = None;
  dm_run_failed t h h' : dm_task_run t h = (false, h') -> mapper h' = mapper h;
  dm_run_others t h r h' n : dm_task_run t h = (r, h') -> n <> t_name t -> mapper h' !! n = mapper h !! n;
  dm_run_files t h r h' p :
    dm_task_run t h = (r, h') -> writes_below t = false -> p <> mapper_path (t_name t) -> files h' !! p = files h !! p }.

(** ** Results and effects *)

Definition HM (A : Type) : Type := host -> outcome ((vic_result_t + A) * host).
#[export] Instance HM_ret : MRet HM := fun A a h => Done (inr a, h).
#[export] Instance HM_bind : MBind HM := fun A B k m h =>
  match m h with
  | Failed f => Failed f
  | Done (inl r, h') => Done (inl r, h')
  | Done (inr a, h') => k a h'
  end.
(** RAISE *)
Definition hraise {A} (r : vic_result_t) : HM A := fun h => Done (inl r, h).
Definition the_host : HM host := fun h => Done (inr h, h).
Definition of_answer {A} (s : vic_result_t + A) : HM A := match s with inr a => mret a | inl r => hraise r end.
Definition of_outcome {A} (o : outcome (vic_result_t + A)) : HM A := fun h =>
  match o with Done s => Done (s, h) | Failed f => Failed f end.
(** A call of libdevmapper that answers zero for a failure. *)
Definition dm_call (ok : bool) : HM unit := if ok then mret tt else hraise VIC_FAILED.

(** ** Loop devices (loop.c) *)

Inductive set_fd_answer : Type := Attached | Busy | Refused.
Record loop_info64 : Type := mk_loop_info { lo_file_name : text; lo_offset : Z; lo_autoclear : bool }.
Definition LO_NAME_SIZE : Z := 64.

Class LoopDevices : Type := {
  (* LOOP_CTL_GET_FREE and LOOP_SET_FD at the n-th attempt *)
  loop_get_free : nat -> option Z;
  loop_set_fd : nat -> text -> set_fd_answer;
  (* the device is there and is a block device; it opens, for reading only or not *)
  loop_is_block : text -> bool;
  loop_open : text -> bool -> bool;
  (* LOOP_SET_STATUS64, and LOOP_GET_STATUS64 after it *)
  loop_set_status : text -> loop_info64 -> bool;
  loop_get_status : text -> loop_info64 -> option loop_info64 }.

Section Loop.
Context `{LoopDevices}.

Definition _get_free_loop_device (attempt : nat) : option text :=
  index ← loop_get_free attempt;
  let dev := bytes "/dev/loop" ++ lu (u32 index) in
  if loop_is_block dev then Some dev else None.

(** "Associate the file with the next free loop device", at most [fuel] times. *)
Fixpoint find_loop (fuel attempt : nat) (readonly : bool) : outcome (option text) :=
  match fuel with
  | O => Failed OutOfFuel
  | S fuel' =>
      match _get_free_loop_device attempt with
      | None => Done None
      | Some dev =>
          if negb (loop_open dev readonly) then Done None
          else match loop_set_fd attempt dev with
               | Attached => Done (Some dev)
               | Busy => find_loop fuel' (S attempt) readonly
               | Refused => Done None
               end
      end
  end.

(** "Set the status info for this loop device" and "Verify". *)
Definition loop_status (dev path : text) (off : Z) (autoclear : bool) : bool :=
  let info := mk_loop_info path off autoclear in
  if LO_NAME_SIZE <=? Z.of_nat (length path) then false
  else if negb (loop_set_status dev info) then false
  else match loop_get_status dev info with
       | None => false
       | Some i => negb (autoclear && negb (lo_autoclear i)) && (lo_offset i =? off) && bool_decide (lo_file_name i = path)
       end.

(** A file that may not be written is attached for reading only. *)
Definition vic_loop_attach (fuel : nat) (path : text) (off : Z) (readonly autoclear : bool) (h : host) : outcome (option text) :=
  match files h !! path with
  | None => Done None
  | Some n =>
      let readonly := readonly || negb (n_writable n) in
      dev ← find_loop fuel 0 readonly;
      match dev with
      | None => Done None
      | Some dev => Done (if loop_status dev path off autoclear then Some dev else None)
      end
  end.

(** [vic_loop_map], and the same steps in [vic_dm_create_crypt] and
    [vic_dm_create_integrity]. *)
Definition vic_loop_map (fuel : nat) (path : text) (readonly : bool) : HM text :=
  h ← the_host;
  match files h !! path with
  | None => hraise VIC_FAILED
  | Some n =>
      if n_block n then
        if PATH_MAX <=? Z.of_nat (length path) then hraise VIC_PATH_TOO_LONG else mret path
      else
        match vic_loop_attach fuel path 0 readonly false h with
        | Failed f => fun _ => Failed f
        | Done None => hraise VIC_FAILED_TO_GET_LOOP_DEVICE
        | Done (Some dev) => mret dev
        end
  end.
End Loop.

(** ** Formats *)

(** The digits of "%x", and "%0<w>x". *)
Fixpoint hex_from (fuel : nat) (x : Z) (acc : text) : text :=
  match fuel with
  | O => acc
  | S fuel' => let acc := hex_digit (x mod 16) :: acc in if x / 16 =? 0 then acc else hex_from fuel' (x / 16) acc
  end.
Definition hexw (w : nat) (x : Z) : text := let s := hex_from 16 x [] in replicate (w - length s) 48 ++ s.

(** [sscanf] with "%08x-%04x-%04x-%04x-%012lx". *)
Definition scan_uuid (uuid : text) : option (Z * Z * Z * Z * Z) :=
  '(x1, s) ← scan_hex 8 uuid; s ← scan_dash s;
  '(x2, s) ← scan_hex 4 s; s ← scan_dash s;
  '(x3, s) ← scan_hex 4 s; s ← scan_dash s;
  '(x4, s) ← scan_hex 4 s; s ← scan_dash s;
  '(x5, _) ← scan_hex 12 s;
  Some (u32 x1, u32 x2, u32 x3, u32 x4, u64 x5).

Definition _format_dev_uuid (prefix uuid dm_name : text) : vic_result_t + text :=
  if negb (vic_uuid_valid uuid) then inl VIC_BAD_PARAMETER
  else
    match scan_uuid uuid with
    | None => inl VIC_BAD_UUID
    | Some (x1, x2, x3, x4, x5) =>
        let s := prefix ++ [45] ++ hexw 8 x1 ++ hexw 4 x2 ++ hexw 4 x3 ++ hexw 4 x4 ++ hexw 12 x5 ++ [45] ++ dm_name in
        if DM_UUID_LEN <=? Z.of_nat (length s) then inl VIC_BUFFER_TOO_SMALL else inr s
    end.

(** Two digits for every byte; without bytes there is no memory. *)
Definition hex_bytes (data : list Z) : text := concat (map hex2 data).

Definition sep : text := [32].
Definition params_of (room : Z) (s : text) : vic_result_t + text :=
  if room <=? Z.of_nat (length s) then inl VIC_BUFFER_TOO_SMALL else inr s.

(** "Format the params" of dm-crypt. *)
Definition crypt_params (integrity cipher hexkey : text) (iv_offset : Z) (dev : text) (off : Z) : vic_result_t + text :=
  if bool_decide (integrity = []) then
    params_of 1024 (cipher ++ sep ++ hexkey ++ sep ++ lu iv_offset ++ sep ++ dev ++ sep ++ lu off)
  else
    match vic_integrity_tag_size integrity with
    | None => inl VIC_UNEXPECTED
    | Some tag_size =>
        if negb (bool_decide (cipher = bytes "aes-xts-plain64")) then inl VIC_UNSUPPORTED_CIPHER
        else
          let capi := take 255 (bytes "capi:authenc(" ++ integrity ++ bytes ",xts(aes))-plain64") in
          params_of 1024 (capi ++ sep ++ hexkey ++ sep ++ lu iv_offset ++ sep ++ dev ++ sep ++ lu off ++
            bytes " 1 integrity:" ++ lu tag_size ++ bytes ":aead")
    end.

(** Of dm-integrity; the block size is fixed. *)
Definition integrity_params (dev : text) (off : Z) (mode : Z) (integrity : text) : vic_result_t + text :=
  match vic_integrity_tag_size integrity with
  | None => inl VIC_UNEXPECTED
  | Some tag_size =>
      params_of 1024 (dev ++ sep ++ lu off ++ sep ++ lu tag_size ++ sep ++ [mode] ++ bytes " 1 block_size:" ++ lu 512)
  end.

(** Of dm-verity; every field is followed by a space. *)
Definition verity_params (version : Z) (data_dev hash_dev : text) (data_block_size hash_block_size num_blocks hash_offset : Z)
    (hash_alg root_digest salt : text) : vic_result_t + text :=
  params_of 2048 (lu version ++ sep ++ data_dev ++ sep ++ hash_dev ++ sep ++ lu data_block_size ++ sep ++
    lu hash_block_size ++ sep ++ lu num_blocks ++ sep ++ lu hash_offset ++ sep ++ hash_alg ++ sep ++ root_digest ++ sep ++
    salt ++ sep).

(** ** Targets *)

Section Targets.
Context `{DeviceMapper} `{LoopDevices}.
(** Whether [malloc] finds that many bytes; how often a loop device is asked
    for. *)
Variable malloc : Z -> bool.
Variable fuel : nat.

(** "Run the task" and "Verify that the target now exists". *)
Definition run_task (t : dm_task) : HM bool := fun h => let '(r, h') := dm_task_run t h in Done (inr r, h').
Definition create_device (t : dm_task) : HM unit :=
  ok ← run_task t;
  _ ← dm_call ok;
  h ← the_host;
  dm_call (match dm_task_get_info t h with Some true => true | _ => false end).

(** A task for a new device with this name. *)
Definition new_task (type : dm_task_type) (name : text) : HM dm_task :=
  _ ← dm_call (dm_task_create type);
  let t := mk_task type name None None false false in
  _ ← dm_call (dm_task_set t);
  mret t.

Definition vic_dm_create_crypt (prefix name path uuid : text) (start size : Z) (integrity cipher : text) (key : list Z)
    (iv_offset off : Z) : HM unit :=
  if bool_decide (key = []) then hraise VIC_BAD_PARAMETER
  else
    dev ← vic_loop_map fuel path false;
    _ ← (if malloc (Z.of_nat (length key) * 2 + 1) then mret tt else hraise VIC_OUT_OF_MEMORY);
    params ← of_answer (crypt_params integrity cipher (hex_bytes key) iv_offset dev off);
    t ← new_task DM_DEVICE_CREATE name;
    dev_uuid ← of_answer (_format_dev_uuid prefix uuid name);
    let t := with_uuid dev_uuid t in
    _ ← dm_call (dm_task_set t);
    let t := with_target start size (bytes "crypt") params t in
    _ ← dm_call (dm_task_set t);
    create_device t.

Definition vic_dm_create_integrity (name path : text) (start size off : Z) (mode : Z) (integrity : text) : HM unit :=
  dev ← vic_loop_map fuel path false;
  params ← of_answer (integrity_params dev off mode integrity);
  t ← new_task DM_DEVICE_CREATE name;
  let t := with_target start size (bytes "integrity") params t in
  _ ← dm_call (dm_task_set t);
  create_device t.

Definition vic_bin_to_ascii (data : list Z) : vic_result_t + text :=
  if bool_decide (data = []) then inl VIC_BAD_PARAMETER
  else if negb (malloc (2 * Z.of_nat (length data) + 1)) then inl VIC_OUT_OF_MEMORY
  else inr (hex_bytes data).

Definition vic_dm_create_verity (dm_name data_dev hash_dev : text) (data_block_size hash_block_size num_blocks version
    hash_offset : Z) (hash_alg : text) (root_digest salt : list Z) : HM unit :=
  if (data_block_size =? 0) || (hash_block_size =? 0) || (num_blocks =? 0) || bool_decide (root_digest = []) ||
     bool_decide (salt = []) then hraise VIC_BAD_PARAMETER
  else
    data_path ← vic_loop_map fuel data_dev true;
    hash_path ← vic_loop_map fuel hash_dev true;
    root_ascii ← of_answer (vic_bin_to_ascii root_digest);
    salt_ascii ← of_answer (vic_bin_to_ascii salt);
    let size := u64 (num_blocks * data_block_size) / VIC_SECTOR_SIZE in
    params ← of_answer (verity_params version data_path hash_path data_block_size hash_block_size num_blocks hash_offset
                          hash_alg root_ascii salt_ascii);
    t ← new_task DM_DEVICE_CREATE dm_name;
    let t := mk_task (t_type t) (t_name t) None None false true in
    _ ← dm_call (dm_task_set t);
    let t := mk_task (t_type t) (t_name t) None None true true in
    _ ← dm_call (dm_task_set t);
    let t := with_target 0 size (bytes "verity") params t in
    _ ← dm_call (dm_task_set t);
    create_device t.

(** "Wait until the device is not busy": at most ten runs, whose failures are not
    reported. *)
Fixpoint retry_run (n : nat) (t : dm_task) : HM unit :=
  match n with
  | O => mret tt
  | S n' => ok ← run_task t; if ok : bool then mret tt else retry_run n' t
  end.
Definition vic_dm_remove (name : text) : HM unit :=
  t ← new_task DM_DEVICE_REMOVE name;
  retry_run 10 t.
End Targets.
