(* ===== verification/DeviceMapperProps.v ===== *)
(** * DeviceMapperProps: what is mapped

    The line of text for dm-crypt can be read back: its words are the cipher, the
    key in hexadecimal, and the numbers and the device that were asked for.  A
    device that is created is mapped with this line, and nothing else changes. *)

From Stdlib Require Import String.
From stdpp Require Import gmap.
From S2P Require Import Prelude JsonText JsonNumbers Blockdev Uuid Luks1Header Luks2Json Luks2 Luks2Props.
From S2P Require Import DeviceMapper.

(** ** Reading a line *)

(** The words between single spaces. *)
Fixpoint words (s : text) : list text :=
  match s with
  | [] => [[]]
  | c :: s' => if c =? 32 then [] :: words s' else match words s' with w :: ws => (c :: w) :: ws | [] => [[c]] end
  end.

Definition spaceless (s : text) : Prop := Forall (fun c => c <> 32) s.

Lemma words_cons w s : spaceless w -> words (w ++ sep ++ s) = w :: words s.
Proof. induction 1 as [|c w Hc _ IH]; [done|]. cbn [app words]. rewrite (proj2 (Z.eqb_neq c 32)) by done. by rewrite IH. Qed.
Lemma words_last w : spaceless w -> words w = [w].
Proof. induction 1 as [|c w Hc _ IH]; [done|]. cbn [words]. rewrite (proj2 (Z.eqb_neq c 32)) by done. by rewrite IH. Qed.

Lemma lu_spaceless x : spaceless (lu x).
Proof. eapply Forall_impl; [apply unsigned_digits_dec|]. unfold is_dec. simpl. lia. Qed.
Lemma lu_value x : 0 <= x < 2 ^ 64 -> decimal_value (lu x) = x.
Proof.
  intros Hx. unfold lu, unsigned_digits. destruct (i64_digits_spec 255 x []) as (ds & -> & _ & _ & Hv); [|lia|by rewrite app_nil_r].
  split; [lia|]. apply Z.lt_le_trans with (2 ^ 64); [lia|]. vm_compute. discriminate.
Qed.

Lemma digits_room room x acc ds : i64_digits room x acc = Done ds -> (length ds <= room + length acc)%nat.
Proof.
  revert x acc. induction room as [|room IH]; intros x acc; [done|]. cbn [i64_digits]. case_match; [|by intros [= <-]; simpl; lia].
  intros E%IH. simpl in E. lia.
Qed.
Lemma lu_length x : 0 <= x < 2 ^ 64 -> (length (lu x) <= 20)%nat.
Proof.
  intros Hx. unfold lu, unsigned_digits.
  destruct (i64_digits_spec 20 x []) as (ds & E & _ & _ & _); [|lia|].
  { split; [lia|]. apply Z.lt_le_trans with (2 ^ 64); [lia|]. vm_compute. discriminate. }
  pose proof (digits_room _ _ _ _ E) as Hl. rewrite app_nil_r in *.
  assert (forall m n y acc r, i64_digits n y acc = Done r -> (n <= m)%nat -> i64_digits m y acc = Done r) as Hmono.
  { clear. induction m as [|m IH]; intros n y acc r E Hn; [by destruct n; [|lia]|]. destruct n as [|n]; [done|].
    cbn [i64_digits] in *. case_match; [|done]. eapply IH; [done|lia]. }
  rewrite (Hmono 255%nat 20%nat x [] ds E) by lia. simpl in Hl. lia.
Qed.

Lemma hex_bytes_spaceless key : Forall is_byte key -> spaceless (hex_bytes key).
Proof.
  intros Hk. eapply Forall_impl; [by apply hexes_plain|]. intros c (d & Hd & ->). unfold hex_digit. bcase; lia.
Qed.
Lemma hex_bytes_read key : Forall is_byte key -> undigits (hex_bytes key) = Some key.
Proof.
  intros Hk. etrans; [|exact (digits_undigits key Hk)]. f_equal. unfold hex_bytes. clear -Hk.
  induction Hk as [|x key Hx _ IH]; [done|]. cbn [map concat flat_map]. unfold is_byte in Hx. by rewrite IH, Z.mod_small by lia.
Qed.

(** What dm-crypt is asked for. *)
Record crypt_table : Type := mk_crypt { ct_cipher : text; ct_key : list Z; ct_iv_offset : Z; ct_device : text; ct_offset : Z }.
Definition read_crypt (s : text) : option crypt_table :=
  match words s with
  | [cipher; key; iv; dev; off] => k ← undigits key; Some (mk_crypt cipher k (decimal_value iv) dev (decimal_value off))
  | _ => None
  end.

Lemma crypt_line cipher key iv dev off :
  spaceless cipher -> spaceless dev -> Forall is_byte key -> 0 <= iv < 2 ^ 64 -> 0 <= off < 2 ^ 64 ->
  read_crypt (cipher ++ sep ++ hex_bytes key ++ sep ++ lu iv ++ sep ++ dev ++ sep ++ lu off) =
    Some (mk_crypt cipher key iv dev off).
Proof.
  intros Hc Hd Hk Hiv Ho. unfold read_crypt.
  rewrite words_cons by done. rewrite words_cons by (by apply hex_bytes_spaceless). rewrite words_cons by apply lu_spaceless.
  rewrite words_cons by done. rewrite words_last by apply lu_spaceless. rewrite hex_bytes_read by done. cbn [mbind option_bind].
  by rewrite !lu_value.
Qed.

(** The line for dm-crypt without integrity protection can be read back: for
    a cipher and a device whose names have no spaces, a key and 64-bit offsets,
    the line fits into the buffer of 1024 characters and its words give exactly
    these again, or it does not fit and the code reports the small buffer. *)
Theorem crypt_params_round_trip cipher key iv dev off :
  spaceless cipher -> spaceless dev -> Forall is_byte key -> 0 <= iv < 2 ^ 64 -> 0 <= off < 2 ^ 64 ->
  match crypt_params [] cipher (hex_bytes key) iv dev off with
  | inr s => read_crypt s = Some (mk_crypt cipher key iv dev off) /\ Z.of_nat (length s) < 1024
  | inl r => r = VIC_BUFFER_TOO_SMALL
  end.
Proof.
  intros Hc Hd Hk Hiv Ho. unfold crypt_params. rewrite bool_decide_true by done. unfold params_of.
  destruct (Z.leb_spec 1024 (Z.of_nat (length (cipher ++ sep ++ hex_bytes key ++ sep ++ lu iv ++ sep ++ dev ++ sep ++ lu off))));
    [done|]. split; [|done]. by apply crypt_line.
Qed.

Lemma crypt_params_round_trip_witness :
  match crypt_params [] (bytes "aes-xts-plain64") (hex_bytes [1; 254; 16]) 0 (bytes "/dev/vdb") 32768 with
  | inr s => read_crypt s = Some (mk_crypt (bytes "aes-xts-plain64") [1; 254; 16] 0 (bytes "/dev/vdb") 32768) /\ Z.of_nat (length s) < 1024
  | inl r => r = VIC_BUFFER_TOO_SMALL
  end.
Proof.
  apply (crypt_params_round_trip (bytes "aes-xts-plain64") [1; 254; 16] 0 (bytes "/dev/vdb") 32768);
    [repeat constructor; discriminate..| | |]; [repeat constructor; unfold is_byte; lia|lia|lia].
Defined.

(** ** Creating a device *)

Lemma hm_ok {A B} (m : HM A) (k : A -> HM B) h a h' : m h = Done (inr a, h') -> (m ≫= k) h = k a h'.
Proof. intros E. unfold mbind, HM_bind. by rewrite E. Qed.
Lemma hm_error {A B} (m : HM A) (k : A -> HM B) h r h' : m h = Done (inl r, h') -> (m ≫= k) h = Done (inl r, h').
Proof. intros E. unfold mbind, HM_bind. by rewrite E. Qed.

(** A host whose device mapper does what it is asked for. *)
Definition mapper_works `{DeviceMapper} : Prop :=
  (forall t, dm_task_create t = true) /\ (forall t, dm_task_set t = true) /\ (forall t h, fst (dm_task_run t h) = true) /\
  (forall t h, dm_task_get_info t h = Some true).

Lemma hex_from_length n x acc : (length (hex_from n x acc) <= n + length acc)%nat.
Proof.
  revert x acc. induction n as [|n IH]; intros x acc; cbn [hex_from]; [lia|]. case_match; [simpl; lia|].
  etrans; [apply IH|]. simpl. lia.
Qed.

Lemma hexw_length w x : (length (hexw w x) <= Nat.max w 16)%nat.
Proof. unfold hexw. pose proof (hex_from_length 16 x []) as Hl. rewrite length_app, length_replicate. change (length (@nil Z)) with 0%nat in Hl. lia. Qed.

Lemma scan_valid uuid : vic_uuid_valid uuid = true -> scan_uuid uuid <> None.
Proof.
  unfold vic_uuid_valid, scan_uuid. case_match; [done|].
  destruct (scan_hex 8 uuid) as [[? s1]|]; [|done]. cbn [mbind option_bind].
  destruct (scan_dash s1) as [s2|]; [|done]. cbn [mbind option_bind].
  destruct (scan_hex 4 s2) as [[? s3]|]; [|done]. cbn [mbind option_bind].
  destruct (scan_dash s3) as [s4|]; [|done]. cbn [mbind option_bind].
  destruct (scan_hex 4 s4) as [[? s5]|]; [|done]. cbn [mbind option_bind].
  destruct (scan_dash s5) as [s6|]; [|done]. cbn [mbind option_bind].
  destruct (scan_hex 4 s6) as [[? s7]|]; [|done]. cbn [mbind option_bind].
  destruct (scan_dash s7) as [s8|]; [|done]. cbn [mbind option_bind].
  by destruct (scan_hex 12 s8) as [[? ?]|].
Qed.

(** The name under which a volume is known to the device mapper fits. *)
Lemma dev_uuid_fits prefix uuid name :
  vic_uuid_valid uuid = true -> (length prefix <= 12)%nat -> (length name <= 32)%nat ->
  exists u, _format_dev_uuid prefix uuid name = inr u.
Proof.
  intros Hv Hp Hn. unfold _format_dev_uuid. rewrite Hv. cbn [negb].
  pose proof (scan_valid uuid Hv) as Hs. destruct (scan_uuid uuid) as [[[[[x1 x2] x3] x4] x5]|]; [|done].
  pose proof (hexw_length 8 x1). pose proof (hexw_length 4 x2). pose proof (hexw_length 4 x3). pose proof (hexw_length 4 x4).
  pose proof (hexw_length 12 x5).
  rewrite (proj2 (Z.leb_gt _ _)); [by eexists|]. rewrite !length_app. unfold DM_UUID_LEN. simpl (length [45]). lia.
Qed.

Section Create.
Context `{DeviceMapper} `{LoopDevices}.
Variable malloc : Z -> bool.
Variable fuel : nat.
Hypothesis malloc_works : forall n, malloc n = true.
Hypothesis works : mapper_works.

(** Only the named device changes, and no other file. *)
Definition only_maps (h h' : host) (name : text) : Prop :=
  (forall n, n <> name -> mapper h' !! n = mapper h !! n) /\
  (forall p, p <> mapper_path name -> files h' !! p = files h !! p).

Lemma dm_call_ok h : dm_call true h = Done (inr tt, h).
Proof. done. Qed.

Lemma new_task_ok type name h : new_task type name h = Done (inr (mk_task type name None None false false), h).
Proof. destruct works as (W1 & W2 & _). unfold new_task. rewrite W1, W2. done. Qed.

Lemma create_device_ok t h :
  t_type t = DM_DEVICE_CREATE -> writes_below t = false ->
  exists h', create_device t h = Done (inr tt, h') /\ mapper h' !! t_name t = device_of t /\ only_maps h h' (t_name t).
Proof.
  intros Ht Hw. destruct works as (_ & _ & W3 & W4). destruct (dm_task_run t h) as [r h'] eqn:E.
  assert (r = true) as -> by (pose proof (W3 t h) as W; by rewrite E in W).
  exists h'. split_and!.
  - unfold create_device. erewrite hm_ok by (unfold run_task; rewrite E; reflexivity). erewrite hm_ok by apply dm_call_ok.
    erewrite hm_ok by reflexivity. by rewrite W4.
  - by eapply dm_run_maps.
  - split; [intros n; by eapply dm_run_others|intros p; by eapply dm_run_files].
Qed.

(** A block device is used as it is. *)
Lemma loop_map_block path ro h n :
  files h !! path = Some n -> n_block n = true -> Z.of_nat (length path) < PATH_MAX ->
  vic_loop_map fuel path ro h = Done (inr path, h).
Proof.
  intros Hf Hb Hl. unfold vic_loop_map. erewrite hm_ok by reflexivity. rewrite Hf, Hb. by rewrite (proj2 (Z.leb_gt _ _)).
Qed.

(** dm-crypt on a block device: the device is mapped, and the line of text it is
    mapped with says what was asked for. *)
Lemma create_crypt_ok prefix name path uuid size cipher key off h n :
  files h !! path = Some n -> n_block n = true -> spaceless path -> (length path <= 64)%nat ->
  spaceless cipher -> (length cipher <= 64)%nat -> Forall is_byte key -> (1 <= length key <= 128)%nat -> 0 <= off < 2 ^ 64 ->
  vic_uuid_valid uuid = true -> (length prefix <= 12)%nat -> (length name <= 32)%nat ->
  exists h' u params, vic_dm_create_crypt malloc fuel prefix name path uuid 0 size [] cipher key 0 off h = Done (inr tt, h') /\
    mapper h' !! name = Some (mk_dm 0 size (bytes "crypt") params (Some u) false) /\
    read_crypt params = Some (mk_crypt cipher key 0 path off) /\ only_maps h h' name.
Proof.
  intros Hf Hb Hp Hpl Hc Hcl Hk Hkl Ho Hu Hpre Hname. pose proof works as (_ & W2 & _).
  set (params := cipher ++ sep ++ hex_bytes key ++ sep ++ lu 0 ++ sep ++ path ++ sep ++ lu off).
  destruct (dev_uuid_fits prefix uuid name Hu Hpre Hname) as [u Eu].
  set (t := with_target 0 size (bytes "crypt") params (with_uuid u (mk_task DM_DEVICE_CREATE name None None false false))).
  destruct (create_device_ok t h eq_refl eq_refl) as (h' & E & Hm & Ho').
  exists h', u, params. split; [|split; [exact Hm|split; [by apply crypt_line|exact Ho']]].
  unfold vic_dm_create_crypt. rewrite bool_decide_false by (intros ->; simpl in Hkl; lia).
  rewrite (hm_ok _ _ _ _ _ (loop_map_block path false h n Hf Hb ltac:(unfold PATH_MAX; lia))).
  rewrite malloc_works. erewrite hm_ok by reflexivity.
  assert (crypt_params [] cipher (hex_bytes key) 0 path off = inr params) as ->.
  { unfold crypt_params. rewrite bool_decide_true by done. unfold params_of. fold params. rewrite (proj2 (Z.leb_gt _ _)); [done|].
    assert (length (hex_bytes key) = 2 * length key)%nat as Hh.
    { clear. unfold hex_bytes. induction key as [|x key IH]; [done|]. cbn [map concat]. rewrite length_app, IH. simpl. lia. }
    pose proof (lu_length off Ho). unfold params. rewrite !length_app, Hh. change (length (lu 0)) with 1%nat.
    change (length sep) with 1%nat. lia. }
  erewrite hm_ok by reflexivity. rewrite (hm_ok _ _ _ _ _ (new_task_ok _ _ _)). rewrite Eu. erewrite hm_ok by reflexivity.
  cbv zeta. rewrite !W2. erewrite hm_ok by apply dm_call_ok. erewrite hm_ok by apply dm_call_ok. exact E.
Qed.
End Create.
