(* ===== verification/LuksOpen.v ===== *)
(** * LuksOpen: volumes of either version, and opening them
    (src/vicsetup/libvicsetup/luks.c, luks1.c, luks2.c, verity.c)

    The operations of luks.c look at the header of the device and call those of
    the version.  Opening a volume asks the device mapper for a device that
    decrypts its payload.  The path of a block device is an argument next to the
    device; its descriptor has the contents of the file. *)

From Stdlib Require Import String.
From stdpp Require Import gmap.
From S2P Require Import Prelude JsonText VicCrypto Blockdev Uuid Verity Luks1Header Luks1 Luks2Header Luks2Json Luks2 DeviceMapper.

Definition LUKS_CIPHER_NAME_SIZE : nat := 32.
Definition LUKS_CIPHER_MODE_SIZE : nat := 32.

(** What the headers of both versions have in common. *)
Record vic_luks_hdr_t : Type := mk_luks_hdr { lh_magic : list Z; lh_version : Z; lh_uuid : list Z }.

Definition vic_luks_read_hdr (d : blockdev_t) : option vic_luks_hdr_t :=
  if negb (_is_valid_device d) then None
  else
    match vic_blockdev_get d 0 1 with
    | (VIC_OK, block) =>
        let magic := sub 0 6 block in
        if negb (bool_decide (magic = LUKS_MAGIC_1ST)) && negb (bool_decide (magic = _magic_2nd)) then None
        else Some (mk_luks_hdr magic (vic_swap_u16 (le_value (sub 6 2 block))) (sub 168 40 block))
    | _ => None
    end.

(** The name and the mode of a cipher: the text before and after the first dash. *)
Fixpoint at_dash (s : text) : option (text * text) :=
  match s with
  | [] => None
  | c :: s' => if c =? 45 then Some ([], s') else '(a, b) ← at_dash s'; Some (c :: a, b)
  end.
Definition _split_cipher (cipher : text) : vic_result_t + (text * text) :=
  match at_dash cipher with
  | None => inl VIC_BAD_CIPHER
  | Some (name, mode) =>
      if decide (LUKS_CIPHER_NAME_SIZE <= length name)%nat then inl VIC_BAD_CIPHER
      else inr (strlcpy LUKS_CIPHER_NAME_SIZE name, strlcpy LUKS_CIPHER_MODE_SIZE mode)
  end.

(** An operation of LUKS1 on the device. *)
Definition on_luks1 (op : blockdev_t -> vic_result_t * blockdev_t) : VM unit := fun d =>
  match op d with (VIC_OK, d') => Done (inr tt, d') | (r, d') => Done (inl r, d') end.

(** [open] with the flags of [vic_blockdev_open]: every file may be read. *)
Definition open_contents (h : host) (path : text) (flags : Z) : option (list Z) :=
  n ← files h !! path;
  if truthy (Z.land flags (Z.lor VIC_RDWR VIC_WRONLY)) && negb (n_writable n) then None else Some (n_data n).
Definition open_blockdev (path : text) (flags bs : Z) : HM blockdev_t :=
  h ← the_host;
  match vic_blockdev_open (open_contents h path flags) flags bs with
  | (VIC_OK, Some d) => mret d
  | (r, _) => hraise r
  end.

Definition vic_blockdev_get_size_from_path (path : text) (h : host) : option Z :=
  n ← files h !! path; Some (Z.of_nat (length (n_data n))).

(** The key in a file; a file that is too long gives VIC_OK and no key. *)
Definition vic_luks_load_key (h : host) (path : text) : vic_result_t + option (list Z) :=
  match files h !! path with
  | None => inl VIC_FAILED
  | Some n => if decide (sizeof_key < length (n_data n))%nat then inr None else inr (Some (n_data n))
  end.

Section Open.
Context `{Algorithms} `{Ciphers} `{Argon2} `{Base64} `{DeviceMapper} `{LoopDevices}.
(** As in the other files on volumes; [fuel]: how often a loop device is asked for. *)
Variable calloc : Z -> bool.
Variable ja_malloc : nat -> Z -> bool.
Variable junk : Z.
Variable stack : list Z.
Variable fuel : nat.
Variable format_integrity : luks2_ext_hdr_t -> list Z -> VM unit.

(** ** Either version *)

(** The version decides. *)
Definition by_version {A} (v1 v2 : VM A) : VM A :=
  _ ← valid_device VIC_BAD_PARAMETER;
  dev ← device;
  hdr ← or_throw (vic_luks_read_hdr dev) VIC_FAILED;
  if lh_version hdr =? LUKS_VERSION_1 then v1
  else if lh_version hdr =? LUKS_VERSION_2 then v2
  else throw VIC_BAD_VERSION.

Definition vic_luks_recover_master_key (pwd : list Z) : VM (list Z) :=
  by_version (dev ← device; r ← of_sum (luks1_recover_master_key calloc dev pwd); mret (fst r))
    (luks2_recover_master_key calloc ja_malloc junk stack pwd).

Definition vic_luks_format (version : Z) (cipher uuid hash : option text) (mk_iterations : Z) (mk : option (list Z))
    (integrity : option text) (rkey rsalt rdsalt ruuid : list Z) : VM unit :=
  let cipher := default LUKS_DEFAULT_CIPHER cipher in
  if version =? LUKS_VERSION_1 then
    '(name, mode) ← of_sum (_split_cipher cipher);
    on_luks1 (fun d => luks1_format d name mode uuid hash mk_iterations mk rkey rdsalt ruuid)
  else if version =? LUKS_VERSION_2 then
    luks2_format calloc format_integrity None None (Some cipher) uuid hash mk_iterations mk integrity rkey rsalt rdsalt ruuid
  else throw VIC_BAD_VERSION.

(** LUKS1 has only PBKDF2. *)
Definition pbkdf2_only (kdf_type : option text) : VM unit :=
  match kdf_type with
  | Some t => if bool_decide (t = bytes "pbkdf2") then mret tt else throw VIC_BAD_PARAMETER
  | None => mret tt
  end.
Definition kdf_iterations_of (kdf : option vic_kdf_t) : Z := match kdf with Some k => vk_iterations k | None => 0 end.

Definition vic_luks_add_key (keyslot_cipher kdf_type : option text) (kdf : option vic_kdf_t) (pwd new_pwd : list Z)
    (rsalt rsplit : list Z) : VM unit :=
  by_version
    (_ ← pbkdf2_only kdf_type;
     on_luks1 (fun d => luks1_add_key calloc d (kdf_iterations_of kdf) pwd new_pwd rsalt rsplit))
    (luks2_add_key calloc ja_malloc junk stack keyslot_cipher kdf_type kdf pwd new_pwd rsalt rsplit).

Definition vic_luks_add_key_by_master_key (keyslot_cipher : text) (kdf_type : option text) (kdf : option vic_kdf_t)
    (master_key pwd : list Z) (rsalt rsplit : list Z) : VM unit :=
  by_version
    (_ ← pbkdf2_only kdf_type;
     on_luks1 (fun d => luks1_add_key_by_master_key calloc d (kdf_iterations_of kdf) master_key pwd rsalt rsplit))
    (luks2_add_key_by_master_key calloc ja_malloc junk stack keyslot_cipher kdf_type kdf master_key pwd rsalt rsplit).

Definition vic_luks_remove_key (pwd : list Z) : VM unit :=
  by_version (on_luks1 (fun d => luks1_remove_key calloc d pwd)) (luks2_remove_key calloc ja_malloc junk stack pwd).

Definition vic_luks_change_key (old_pwd new_pwd rsalt rsplit : list Z) : VM unit :=
  by_version (on_luks1 (fun d => luks1_change_key calloc d old_pwd new_pwd rsalt rsplit))
    (luks2_change_key calloc ja_malloc junk stack old_pwd new_pwd rsplit).

(** The version (always 1), the offset and the size of the payload. *)
Definition vic_luks_stat : VM (Z * Z * Z) :=
  by_version (dev ← device; '(off, sz) ← of_sum (luks1_stat dev); mret (LUKS_VERSION_1, off, sz))
    (luks2_stat calloc ja_malloc junk).

(** ** Opening *)

Definition luks1_open (d : blockdev_t) (path name : text) (mk : list Z) : HM unit :=
  match Luks1.luks1_open d mk, luks1_read_hdr d with
  | inl e, _ => hraise e
  | inr (size, cipher, key, off), Some hdr =>
      vic_dm_create_crypt calloc fuel (bytes "CRYPT-LUKS1") name path (cstr (uuid hdr)) 0 size [] cipher key 0 off
  | inr _, None => hraise VIC_HEADER_READ_FAILED
  end.

Definition _open_integrity_device (d : blockdev_t) (path : text) (e : luks2_ext_hdr_t) (name : text) (mode : Z) : HM unit :=
  sb ← of_answer (vic_integrity_read_sb d (seg_offset (ext_segment e)));
  vic_dm_create_integrity fuel name path 0 (provided_data_sectors sb) (seg_offset (ext_segment e) / VIC_SECTOR_SIZE) mode
    (_get_integrity_type e).

Definition _open_integrity_luks2_device (d : blockdev_t) (e : luks2_ext_hdr_t) (name path : text) (key : list Z) : HM unit :=
  h ← the_host;
  match vic_blockdev_get_size_from_path path h with
  | None => hraise VIC_FAILED
  | Some size =>
      _ ← of_answer (vic_integrity_read_sb d (seg_offset (ext_segment e)));
      vic_dm_create_crypt calloc fuel (bytes "CRYPT-LUKS2") name path (cstr (h_uuid (phdr e))) 0 (size / VIC_SECTOR_SIZE)
        (_get_integrity_type e) (_get_encryption e) key 0 0
  end.

(** From "Get the payload offset in sectors" on: the device for the payload, on
    top of one for its integrity if the volume has that. *)
Definition open_payload (d : blockdev_t) (e : luks2_ext_hdr_t) (path name : text) (mk : list Z) : HM unit :=
  let off := seg_offset (ext_segment e) / VIC_SECTOR_SIZE in
  size ← of_answer (_get_payload_size_in_sectors d off);
  if bool_decide (_get_integrity_type e = []) then
    vic_dm_create_crypt calloc fuel (bytes "CRYPT-LUKS2") name path (cstr (h_uuid (phdr e))) 0 size
      (_get_integrity_type e) (_get_encryption e) mk 0 off
  else
    let name_dif := name ++ bytes "_dif" in
    if PATH_MAX <=? Z.of_nat (length name_dif) then hraise VIC_BUFFER_TOO_SMALL
    else
      _ ← _open_integrity_device d path e name_dif 74 (* J *);
      _open_integrity_luks2_device d e name (take 4095 (mapper_path name_dif)) mk.

Definition luks2_open (d : blockdev_t) (path name : text) (mk : list Z) : HM unit :=
  if negb (_is_valid_device d) || bool_decide (mk = []) then hraise VIC_BAD_PARAMETER
  else
    r ← (fun h => match luks2_read_hdr calloc ja_malloc junk d with
                  | Failed f => Failed f
                  | Done o => Done (inr o, h)
                  end : outcome ((vic_result_t + option luks2_ext_hdr_t) * host));
    match r with
    | None => hraise VIC_HEADER_READ_FAILED
    | Some e => open_payload d e path name mk
    end.

(** [hdr]: the header the caller has, if any.  It is freed in every case. *)
Definition luks2_open_by_passphrase (d : blockdev_t) (hdr : option luks2_ext_hdr_t) (path name : text) (pwd : list Z) : HM unit :=
  if negb (_is_valid_device d) || bool_decide (pwd = []) then hraise VIC_BAD_PARAMETER
  else
    r ← match hdr with
        | Some e => mret (Some e)
        | None => fun h => match luks2_read_hdr calloc ja_malloc junk d with
                           | Failed f => Failed f
                           | Done o => Done (inr o, h)
                           end
        end;
    match r with
    | None => hraise VIC_HEADER_READ_FAILED
    | Some e =>
        '(_, mk) ← of_outcome (find_keyslots calloc stack d (objects e) pwd 0 (keyslots2 (objects e)));
        open_payload d e path name mk
    end.

(** [vic_verity_open] for two devices and their paths; the blocks of the devices
    change their size. *)
Definition vic_verity_open (dm_name data_path hash_path : text) (root_hash uninit : list Z) (s : devs) :
    host -> outcome ((vic_result_t + unit) * devs * host) := fun h =>
  match Verity.vic_verity_open root_hash uninit s with
  | Failed f => Failed f
  | Done (inl e, s') => Done (inl e, s', h)
  | Done (inr t, s') =>
      match vic_dm_create_verity calloc fuel dm_name data_path hash_path (vt_data_block_size t) (vt_hash_block_size t)
              (vt_num_blocks t) (vt_version t) (vt_hash_offset t) (vt_algorithm t) (vt_root_hash t) (vt_salt t) h with
      | Failed f => Failed f
      | Done (r, h') => Done (r, s', h')
      end
  end.

Definition vic_luks_open (path name : text) (mk : list Z) : HM unit :=
  d ← open_blockdev path VIC_RDWR VIC_SECTOR_SIZE;
  if negb (_is_valid_device d) then hraise VIC_BAD_PARAMETER
  else
    match vic_luks_read_hdr d with
    | None => hraise VIC_FAILED
    | Some hdr =>
        if lh_version hdr =? LUKS_VERSION_1 then luks1_open d path name mk
        else if lh_version hdr =? LUKS_VERSION_2 then luks2_open d path name mk
        else hraise VIC_BAD_VERSION
    end.

Definition vic_luks_close (name : text) : HM unit :=
  _ ← vic_dm_remove name;
  let name_dif := name ++ bytes "_dif" in
  if PATH_MAX <=? Z.of_nat (length name_dif) then hraise VIC_BUFFER_TOO_SMALL
  else
    h ← the_host;
    match files h !! take 4095 (mapper_path name_dif) with
    | Some _ => vic_dm_remove name_dif
    | None => mret tt
    end.
End Open.
