(* ===== verification/Cryptsetup.v ===== *)
(** * Cryptsetup: the interface of libcryptsetup
    (src/vicsetup/libvicsetup/libcryptsetup.c)

    A handle keeps the device, the kind of volume, the volume key and the headers
    that were read.  Operations change the handle and the host and answer zero
    or an error number ([CM]); pointers of the handle to what was freed are kept
    as such, and using one is a fault.  Contents of a file are those of the host:
    a descriptor has them when it is used. *)

From Stdlib Require Import String.
From stdpp Require Import gmap.
From S2P Require Import Prelude JsonText VicCrypto Blockdev Uuid Verity Luks1Header Luks1 Luks2Header Luks2Json Luks2 DeviceMapper.
From S2P Require Import LuksOpen.

Definition EIO : Z := 5.
Definition ENOENT : Z := 2.
Definition ENOSYS : Z := 38.
Definition EOVERFLOW : Z := 75.
Definition ENOTSUP : Z := 95.
Definition MAGIC : Z := 0xa8ea23c6.
Definition CRYPT_LUKS1 : text := bytes "LUKS1".
Definition CRYPT_LUKS2 : text := bytes "LUKS2".
Definition CRYPT_VERITY : text := bytes "VERITY".
Definition CRYPT_INTEGRITY : text := bytes "INTEGRITY".
Definition CRYPT_ANY_SLOT : Z := -1.
Definition CRYPT_ACTIVATE_READONLY : Z := 1.
Definition CRYPT_PBKDF_NO_BENCHMARK : Z := 2.

(** A pointer of the handle. *)
Inductive ptr (A : Type) : Type := Null | Live (a : A) | Freed.
Arguments Null {A}.
Arguments Live {A} a.
Arguments Freed {A}.
Definition is_null {A} (p : ptr A) : bool := match p with Null => true | _ => false end.

Record crypt_pbkdf_type : Type := mk_pbkdf {
  pb_type : option text; pb_hash : option text; time_ms : Z; pb_iterations : Z; max_memory_kb : Z; parallel_threads : Z }.

Record crypt_params_luks1 : Type := mk_params1 { p1_hash : option text; p1_data_alignment : Z; p1_data_device : option text }.
(** [p2_integrity_params]: whether the pointer is set. *)
Record crypt_params_luks2 : Type := mk_params2 {
  p2_pbkdf : option crypt_pbkdf_type; p2_integrity : option text; p2_integrity_params : bool; p2_data_alignment : Z;
  p2_data_device : option text; p2_sector_size : Z; p2_label : option text; p2_subsystem : option text }.
Record crypt_params_verity : Type := mk_params_verity {
  pv_data_device : option text; pv_hash_device : option text; pv_fec_device : option text; pv_data_block_size : Z;
  pv_hash_block_size : Z; pv_data_size : Z; pv_hash_area_offset : Z }.
(** What the callers pass as [void* params]. *)
Inductive crypt_params : Type :=
| NoParams
| Luks1Params (p : crypt_params_luks1)
| Luks2Params (p : crypt_params_luks2)
| VerityParams (p : crypt_params_verity).

(** struct crypt_device.  [volume_key] is a vic_key_t of 128 bytes; the hash
    device comes with its path. *)
Record crypt_device : Type := mk_cd {
  cd_magic : Z; type : text; dm_name : text; bd : ptr blockdev_t; hbd : ptr (blockdev_t * text); path : text; readonly : bool;
  volume_key : list Z; volume_key_size : Z; luks1_hdr : ptr luks1_hdr_t; luks2_cipher : text; luks2_pbkdf : crypt_pbkdf_type;
  luks2_hdr : ptr luks2_ext_hdr_t; verity_sb : option vic_verity_sb_t }.

Definition no_pbkdf : crypt_pbkdf_type := mk_pbkdf None None 0 0 0 0.
Definition set_type (t : text) (c : crypt_device) : crypt_device :=
  mk_cd (cd_magic c) t (dm_name c) (bd c) (hbd c) (path c) (readonly c) (volume_key c) (volume_key_size c) (luks1_hdr c)
    (luks2_cipher c) (luks2_pbkdf c) (luks2_hdr c) (verity_sb c).
Definition set_dm_name (n : text) (c : crypt_device) : crypt_device :=
  mk_cd (cd_magic c) (type c) n (bd c) (hbd c) (path c) (readonly c) (volume_key c) (volume_key_size c) (luks1_hdr c)
    (luks2_cipher c) (luks2_pbkdf c) (luks2_hdr c) (verity_sb c).
Definition set_bd (b : ptr blockdev_t) (ro : bool) (c : crypt_device) : crypt_device :=
  mk_cd (cd_magic c) (type c) (dm_name c) b (hbd c) (path c) ro (volume_key c) (volume_key_size c) (luks1_hdr c)
    (luks2_cipher c) (luks2_pbkdf c) (luks2_hdr c) (verity_sb c).
Definition set_hash (b : ptr (blockdev_t * text)) (sb : option vic_verity_sb_t) (c : crypt_device) : crypt_device :=
  mk_cd (cd_magic c) (type c) (dm_name c) (bd c) b (path c) (readonly c) (volume_key c) (volume_key_size c) (luks1_hdr c)
    (luks2_cipher c) (luks2_pbkdf c) (luks2_hdr c) sb.
Definition set_key (k : list Z) (n : Z) (c : crypt_device) : crypt_device :=
  mk_cd (cd_magic c) (type c) (dm_name c) (bd c) (hbd c) (path c) (readonly c) k n (luks1_hdr c)
    (luks2_cipher c) (luks2_pbkdf c) (luks2_hdr c) (verity_sb c).
Definition set_luks1 (p : ptr luks1_hdr_t) (c : crypt_device) : crypt_device :=
  mk_cd (cd_magic c) (type c) (dm_name c) (bd c) (hbd c) (path c) (readonly c) (volume_key c) (volume_key_size c) p
    (luks2_cipher c) (luks2_pbkdf c) (luks2_hdr c) (verity_sb c).
Definition set_luks2 (cipher : text) (pb : crypt_pbkdf_type) (p : ptr luks2_ext_hdr_t) (c : crypt_device) : crypt_device :=
  mk_cd (cd_magic c) (type c) (dm_name c) (bd c) (hbd c) (path c) (readonly c) (volume_key c) (volume_key_size c) (luks1_hdr c)
    cipher pb p (verity_sb c).

(** ** Results and effects *)

Record cstate : Type := mk_cstate { cd : crypt_device; on_host : host }.
Definition CM (A : Type) : Type := cstate -> outcome ((Z + A) * cstate).
#[export] Instance CM_ret : MRet CM := fun A a s => Done (inr a, s).
#[export] Instance CM_bind : MBind CM := fun A B k m s =>
  match m s with
  | Failed f => Failed f
  | Done (inl r, s') => Done (inl r, s')
  | Done (inr a, s') => k a s'
  end.
(** ERAISE, and ECHECK of an error number. *)
Definition eraise {A} (e : Z) : CM A := fun s => Done (inl (- e), s).
Definition echeck (r : Z) : CM unit := if r =? 0 then mret tt else eraise r.
(** ECHECK of a function that answers a negative number: it is negated again. *)
Definition echeck_call (m : CM unit) : CM unit := fun s =>
  match m s with Done (inl r, s') => Done (inl (- r), s') | r => r end.
Definition handle : CM crypt_device := fun s => Done (inr (cd s), s).
Definition update (f : crypt_device -> crypt_device) : CM unit := fun s => Done (inr tt, mk_cstate (f (cd s)) (on_host s)).
Definition einval_unless (b : bool) : CM unit := if b then mret tt else eraise EINVAL.
Definition fault_at {A} (p : Z) : CM A := fun _ => Failed (BadPointer p).

(** STRLCPY into an array of [n] characters: the text that is stored and what
    the macro answers. *)
Definition STRLCPY (n : nat) (s : text) : text * Z := (strlcpy n s, if decide (n <= length s)%nat then EOVERFLOW else 0).

(** Whether an operation on the host succeeded. *)
Definition call_host {A} (m : HM A) : CM (vic_result_t + A) := fun s =>
  match m (on_host s) with Failed f => Failed f | Done (r, h) => Done (inr r, mk_cstate (cd s) h) end.

(** The descriptor, with the present contents of the file. *)
Definition refresh (h : host) (p : text) (d : blockdev_t) : blockdev_t :=
  match files h !! p with Some n => with_file (n_data n) (size d) d | None => d end.
Definition use_bd : CM blockdev_t := fun s =>
  match bd (cd s) with
  | Live d => Done (inr (refresh (on_host s) (path (cd s)) d), s)
  | _ => Failed (BadPointer 0)
  end.
(** What was written through the descriptor is in the file. *)
Definition store_bd (d : blockdev_t) (s : cstate) : cstate :=
  let h := on_host s in let p := path (cd s) in
  mk_cstate (set_bd (Live d) (readonly (cd s)) (cd s))
    (mk_host (alter (fun n => mk_node (n_block n) (n_writable n) (file d)) p (files h)) (mapper h) (runs h)).
Definition call_device {A} (m : VM A) : CM (vic_result_t + A) := fun s =>
  match use_bd s with
  | Failed f => Failed f
  | Done (inl e, s') => Done (inl e, s')
  | Done (inr d, s') => match m d with Failed f => Failed f | Done (r, d') => Done (inr r, store_bd d' s') end
  end.
(** ERAISE unless the result is VIC_OK. *)
Definition or_eraise {A} (r : vic_result_t + A) (e : Z) : CM unit :=
  match r with inl VIC_OK | inr _ => mret tt | inl _ => eraise e end.

Definition _valid_cd (c : crypt_device) : bool := cd_magic c =? MAGIC.
Definition _is_luks1 (t : text) : bool := bool_decide (t = CRYPT_LUKS1).
Definition _is_luks2 (t : text) : bool := bool_decide (t = CRYPT_LUKS2).
Definition _is_verity (t : text) : bool := bool_decide (t = CRYPT_VERITY).
Definition _is_integrity (t : text) : bool := bool_decide (t = CRYPT_INTEGRITY).
Definition _valid_type (t : text) : bool := _is_luks1 t || _is_luks2 t || _is_verity t || _is_integrity t.

Section Cryptsetup.
Context `{Algorithms} `{Ciphers} `{Argon2} `{Base64} `{DeviceMapper} `{LoopDevices}.
Variable calloc : Z -> bool.
Variable ja_malloc : nat -> Z -> bool.
Variable junk : Z.
Variable stack : list Z.
Variable fuel : nat.
Variable format_integrity : luks2_ext_hdr_t -> list Z -> VM unit.
(** sizeof(struct crypt_device) *)
Definition sizeof_crypt_device : Z := 9304.

(** ** Handles *)

Definition crypt_init (device : text) (h : host) : Z + crypt_device :=
  if PATH_MAX <=? Z.of_nat (length device) then inl (- EINVAL)
  else if negb (calloc sizeof_crypt_device) then inl (- ENOMEM)
  else
    match vic_blockdev_open (open_contents h device VIC_RDONLY) VIC_RDONLY 0 with
    | (VIC_OK, Some d) =>
        inr (mk_cd MAGIC [] [] (Live d) Null device true (replicate 128 0) 0 Null [] no_pbkdf Null None)
    | _ => inl (- ENOENT)
    end.

(** The device is closed before it is opened again; if that fails the handle
    keeps a pointer to the closed one. *)
Definition _force_open_for_write : CM unit :=
  c ← handle;
  if readonly c then
    match bd c with
    | Freed => fault_at 0
    | Null => eraise EIO
    | Live _ =>
        _ ← update (set_bd Freed true);
        r ← call_host (open_blockdev (path c) VIC_RDWR 0);
        match r with
        | inl _ => eraise EIO
        | inr d => update (set_bd (Live d) false)
        end
    end
  else mret tt.

(** Only the devices are closed, the headers are not freed. *)
Definition crypt_free (c : crypt_device) : outcome unit :=
  match bd c, hbd c with Freed, _ | _, Freed => Failed (BadPointer 0) | _, _ => Done tt end.

Definition free_ptr {A} (p : ptr A) : CM unit := match p with Freed => fault_at 0 | _ => mret tt end.
Definition close_mapped : CM unit :=
  c ← handle;
  if bool_decide (dm_name c = []) then mret tt
  else
    r ← call_host (vic_luks_close (dm_name c));
    _ ← or_eraise r ENOSYS;
    update (set_dm_name []).

(** With a handle; [name] is only checked.  Without one ([deactivate_name]) the
    name is closed. *)
Definition crypt_deactivate_by_name (flags : Z) : CM unit :=
  if truthy flags then eraise ENOTSUP
  else
    c ← handle;
    if _is_luks1 (type c) then
      _ ← close_mapped;
      _ ← free_ptr (luks1_hdr c);
      update (set_luks1 Null)
    else if _is_luks2 (type c) then
      _ ← close_mapped;
      _ ← free_ptr (luks2_hdr c);
      update (set_luks2 [] no_pbkdf Null)
    else if _is_verity (type c) then
      (if bool_decide (dm_name c = []) then mret tt
       else _ ← call_host (vic_dm_remove (dm_name c)); update (set_dm_name []));;
      update (fun c => set_hash (hbd c) None c)
    else eraise EINVAL.

(** Without a handle. *)
Definition deactivate_name (name : text) (flags : Z) (h : host) : outcome (Z * host) :=
  if truthy flags then Done (- ENOTSUP, h)
  else match vic_luks_close name h with
       | Failed f => Failed f
       | Done (inl VIC_OK, h') | Done (inr _, h') => Done (0, h')
       | Done (inl _, h') => Done (- ENOSYS, h')
       end.

(** ** Formatting *)

Definition _set_pbkdf_type (pb : crypt_pbkdf_type) : CM unit :=
  _ ← update (fun c => set_luks2 (luks2_cipher c) pb (luks2_hdr c) c);
  _ ← (match pb_type pb with Some t => echeck (snd (STRLCPY 32 t)) | None => mret tt end);
  match pb_hash pb with Some t => echeck (snd (STRLCPY 64 t)) | None => mret tt end.

(** Random bytes for a format: the volume key, the salts and the UUID. *)
Record format_random : Type := mk_random { r_key : list Z; r_salt : list Z; r_digest_salt : list Z; r_uuid : list Z }.

Definition format_luks1 (cipher_name cipher_mode : text) (uuid : option text) (key : list Z) (params : crypt_params)
    (rnd : format_random) : CM unit :=
  hash ← match params with
         | NoParams => mret None
         | Luks1Params p =>
             if truthy (p1_data_alignment p) || bool_decide (p1_data_device p <> None) then eraise ENOTSUP else mret (p1_hash p)
         | _ => fault_at 0
         end;
  r ← call_device (on_luks1 (fun d =>
        luks1_format d cipher_name cipher_mode uuid hash 0 (Some key) [] (r_digest_salt rnd) (r_uuid rnd)));
  or_eraise r EINVAL.

(** "if (p)": the label, the subsystem, the hash and the iterations. *)
Definition luks2_params (p : crypt_params_luks2) : CM (option text * option text * option text * Z) :=
  if p2_integrity_params p then eraise ENOTSUP
  else if truthy (p2_data_alignment p) then eraise ENOTSUP
  else if bool_decide (p2_data_device p <> None) then eraise ENOTSUP
  else if truthy (p2_sector_size p) && negb (p2_sector_size p =? VIC_SECTOR_SIZE) then eraise ENOTSUP
  else if match p2_integrity p with Some i => negb (vic_integrity_valid i) | None => false end then eraise EINVAL
  else
    match p2_pbkdf p with
    | None => mret (p2_label p, p2_subsystem p, None, 0)
    | Some pb => _ ← echeck_call (_set_pbkdf_type pb); mret (p2_label p, p2_subsystem p, pb_hash pb, pb_iterations pb)
    end.

(** Without parameters a null pointer is read for the integrity. *)
Definition format_luks2 (cipher_name cipher_mode : text) (uuid : option text) (key : list Z) (params : crypt_params)
    (rnd : format_random) : CM unit :=
  '(label, subsystem, hash, iterations) ←
    match params with
    | NoParams => mret (None, None, None, 0)
    | Luks2Params p => luks2_params p
    | _ => fault_at 0
    end;
  let cipher := cipher_name ++ [45] ++ cipher_mode in
  _ ← einval_unless (Z.of_nat (length cipher) <? 128);
  let '(stored, r) := STRLCPY 32 cipher in
  _ ← update (fun c => set_luks2 stored (luks2_pbkdf c) (luks2_hdr c) c);
  _ ← echeck r;
  match params with
  | Luks2Params p =>
      r ← call_device (luks2_format calloc format_integrity label subsystem (Some cipher) uuid hash iterations (Some key)
            (p2_integrity p) [] (r_salt rnd) (r_digest_salt rnd) (r_uuid rnd));
      or_eraise r EINVAL
  | _ => fault_at 0
  end.

Definition crypt_format (type_ : option text) (cipher_name cipher_mode : text) (uuid : option text) (key : option (list Z))
    (key_size : Z) (params : crypt_params) (rnd : format_random) : CM unit :=
  let t := default CRYPT_LUKS1 type_ in
  c ← handle;
  _ ← einval_unless (_valid_cd c && _valid_type t);
  _ ← einval_unless (negb (key_size =? 0) && (key_size <=? Z.of_nat sizeof_key));
  let n := Z.to_nat key_size in
  let k := take n (match key with Some k => k | None => r_key rnd end) in
  _ ← update (set_key (k ++ drop n (volume_key c)) key_size);
  _ ← echeck_call _force_open_for_write;
  let '(stored, r) := STRLCPY 16 t in
  _ ← update (set_type stored);
  _ ← echeck r;
  if bool_decide (t = CRYPT_LUKS1) then format_luks1 cipher_name cipher_mode uuid k params rnd
  else if bool_decide (t = CRYPT_LUKS2) then format_luks2 cipher_name cipher_mode uuid k params rnd
  else eraise EINVAL.

(** ** Key slots *)

(** [key]: the caller's volume key, if any; [rsalt], [rsplit]: the random salt
    and stripes.  An empty passphrase is a null pointer or a size of zero. *)
Definition crypt_keyslot_add_by_key (keyslot : Z) (key : option (list Z)) (key_size : Z) (passphrase : list Z) (flags : Z)
    (rsalt rsplit : list Z) : CM unit :=
  c ← handle;
  _ ← einval_unless (_valid_cd c);
  _ ← (if keyslot =? CRYPT_ANY_SLOT then mret tt else eraise ENOTSUP);
  _ ← einval_unless (match key with None => key_size =? 0 | Some _ => true end);
  let k := match key with
           | Some k => take (Z.to_nat key_size) k
           | None => take (Z.to_nat (volume_key_size c)) (volume_key c)
           end in
  _ ← einval_unless (negb (bool_decide (passphrase = [])));
  _ ← einval_unless (negb (truthy (Z.land flags (Z.lnot CRYPT_PBKDF_NO_BENCHMARK))));
  _ ← einval_unless (_valid_type (type c));
  if _is_luks1 (type c) then
    r ← call_device (on_luks1 (fun d => luks1_add_key_by_master_key calloc d 0 k passphrase rsalt rsplit));
    or_eraise r EINVAL
  else if _is_luks2 (type c) then
    let pb := luks2_pbkdf c in
    let kdf := mk_vic_kdf (pb_hash pb) (pb_iterations pb) (time_ms pb) (max_memory_kb pb) (parallel_threads pb) in
    r ← call_device (luks2_add_key_by_master_key calloc ja_malloc junk stack (luks2_cipher c) (pb_type pb) (Some kdf) k passphrase
          rsalt rsplit);
    or_eraise r EINVAL
  else eraise EINVAL.

(** ** Loading *)

(** An operation on the descriptor alone. *)
Definition on_bd (op : blockdev_t -> vic_result_t * blockdev_t) (e : Z) : CM unit :=
  d ← use_bd;
  let '(r, d') := op d in
  _ ← update (fun c => set_bd (Live d') (readonly c) c);
  if decide (r = VIC_OK) then mret tt else eraise e.

(** "Handle the hash device": [uninit] is what the block on the stack holds. *)
Definition load_hash_device (p : crypt_params_verity) (hash_path : text) (uninit : list Z) : CM unit :=
  r ← call_host (open_blockdev hash_path VIC_RDONLY 0);
  match r with
  | inl _ => eraise ENOENT
  | inr d =>
      match vic_blockdev_set_block_size d (pv_hash_block_size p) with
      | (VIC_OK, d) =>
          match (if truthy (pv_hash_area_offset p) then vic_blockdev_set_offset d (pv_hash_area_offset p) else (VIC_OK, d)) with
          | (VIC_OK, d) =>
              match vic_verity_read_superblock d uninit with
              | Failed f => fun _ => Failed f
              | Done (inl _) => eraise EIO
              | Done (inr sb) =>
                  if negb (data_block_size sb =? pv_hash_block_size p) then eraise ENOTSUP
                  else if truthy (pv_hash_block_size p) && negb (pv_hash_block_size p =? hash_block_size sb) then eraise EINVAL
                  else update (set_hash (Live (d, hash_path)) (Some sb))
              end
          | _ => eraise EINVAL
          end
      | _ => eraise EINVAL
      end
  end.

Definition _crypt_load_verity (params : crypt_params) (uninit : list Z) : CM unit :=
  match params with
  | VerityParams p =>
      match pv_data_device p, pv_hash_device p with
      | Some data_path, Some hash_path =>
          c ← handle;
          if bool_decide (pv_fec_device p <> None) then eraise ENOTSUP
          else if negb (bool_decide (data_path = path c)) then eraise EINVAL
          else
            _ ← on_bd (fun d => vic_blockdev_set_block_size d (pv_data_block_size p)) EINVAL;
            _ ← (if truthy (pv_data_size p) then
                   on_bd (fun d => vic_blockdev_set_size d (u64 (pv_data_size p * pv_data_block_size p))) EIO
                 else mret tt);
            load_hash_device p hash_path uninit
      | _, _ => eraise EINVAL
      end
  | NoParams => eraise EINVAL
  | _ => fault_at 0
  end.

(** The type stays set if the header cannot be read. *)
Definition crypt_load (requested_type : option text) (params : crypt_params) (uninit : list Z) : CM unit :=
  c ← handle;
  _ ← einval_unless (_valid_cd c && negb (is_null (bd c)));
  _ ← (if bool_decide (type c = []) then mret tt else eraise EBUSY);
  let t := default CRYPT_LUKS1 requested_type in
  if bool_decide (t = CRYPT_LUKS1) then
    _ ← update (set_type t);
    d ← use_bd;
    match luks1_read_hdr d with
    | None => eraise EIO
    | Some h => update (set_luks1 (Live h))
    end
  else if bool_decide (t = CRYPT_LUKS2) then
    _ ← update (set_type t);
    d ← use_bd;
    match luks2_read_hdr calloc ja_malloc junk d with
    | Failed f => fun _ => Failed f
    | Done None => eraise EIO
    | Done (Some e) => update (fun c => set_luks2 (luks2_cipher c) (luks2_pbkdf c) (Live e) c)
    end
  else if bool_decide (t = CRYPT_VERITY) then
    _ ← update (set_type t);
    echeck_call (_crypt_load_verity params uninit)
  else eraise ENOTSUP.

(** ** Activating *)

Definition set_mapped (name : text) : CM unit :=
  let '(stored, r) := STRLCPY (Z.to_nat PATH_MAX) name in
  _ ← update (set_dm_name stored);
  echeck r.

(** The flags, and the device for writing unless it is activated for reading. *)
Definition activate_flags (flags : Z) : CM unit :=
  _ ← einval_unless (negb (truthy (Z.land flags (Z.lnot CRYPT_ACTIVATE_READONLY))));
  if truthy (Z.land flags CRYPT_ACTIVATE_READONLY) then mret tt else echeck_call _force_open_for_write.

(** [luks2_open_by_passphrase] frees the header of the handle, which keeps its
    pointer to it. *)
Definition open_by_passphrase (name : text) (passphrase : list Z) : CM unit :=
  c ← handle;
  d ← use_bd;
  let hdr := match luks2_hdr c with Live e => Some e | _ => None end in
  match luks2_hdr c with
  | Freed => fault_at 0
  | p =>
      r ← call_host (luks2_open_by_passphrase calloc ja_malloc junk stack fuel d hdr (path c) name passphrase);
      _ ← update (fun c => set_luks2 (luks2_cipher c) (luks2_pbkdf c) (match p with Null => Null | _ => Freed end) c);
      or_eraise r EIO
  end.

Definition crypt_activate_by_passphrase (name : text) (keyslot : Z) (passphrase : list Z) (flags : Z) : CM unit :=
  c ← handle;
  _ ← einval_unless (_valid_cd c && negb (is_null (bd c)) && negb (bool_decide (passphrase = [])));
  _ ← einval_unless (negb (bool_decide (type c = [])));
  _ ← einval_unless (bool_decide (dm_name c = []));
  _ ← (if keyslot =? CRYPT_ANY_SLOT then mret tt else eraise ENOTSUP);
  if _is_luks1 (type c) then
    _ ← activate_flags flags;
    d ← use_bd;
    match luks1_recover_master_key calloc d passphrase with
    | inl _ => eraise EIO
    | inr (key, _) =>
        r ← call_host (luks1_open calloc fuel d (path c) name key);
        _ ← or_eraise r EIO;
        set_mapped name
    end
  else if _is_luks2 (type c) then
    _ ← activate_flags flags;
    _ ← open_by_passphrase name passphrase;
    set_mapped name
  else eraise ENOTSUP.

(** A LUKS device is opened, and an error reported. *)
Definition open_by_key (op : blockdev_t -> text -> text -> list Z -> HM unit) (name : text) (key : list Z) (flags : Z) : CM unit :=
  _ ← activate_flags flags;
  c ← handle;
  d ← use_bd;
  r ← call_host (op d (path c) name key);
  _ ← or_eraise r EIO;
  _ ← set_mapped name;
  eraise ENOTSUP.

(** The block sizes of the devices may change. *)
Definition open_verity (name : text) (root uninit : list Z) : CM unit := fun s =>
  match bd (cd s), hbd (cd s) with
  | Freed, _ | _, Freed => Failed (BadPointer 0)
  | Live _, Live (hd, hash_path) =>
      match use_bd s with
      | Done (inr dd, _) =>
          let hd := refresh (on_host s) hash_path hd in
          match vic_verity_open calloc fuel name (path (cd s)) hash_path root uninit (mk_devs dd hd) (on_host s) with
          | Failed f => Failed f
          | Done (r, v, h) =>
              let c := set_hash (Live (hash_dev v, hash_path)) (verity_sb (cd s)) (set_bd (Live (data_dev v)) (readonly (cd s)) (cd s)) in
              or_eraise r EIO (mk_cstate c h)
          end
      | Done (inl e, s') => Done (inl e, s')
      | Failed f => Failed f
      end
  | _, _ => eraise EINVAL s
  end.

Definition crypt_activate_by_volume_key (name : text) (key : list Z) (key_size : Z) (flags : Z) (uninit : list Z) : CM unit :=
  c ← handle;
  _ ← einval_unless (_valid_cd c && negb (is_null (bd c)) && negb (key_size =? 0));
  _ ← einval_unless (key_size <=? Z.of_nat sizeof_key);
  _ ← einval_unless (negb (bool_decide (type c = [])));
  _ ← einval_unless (bool_decide (dm_name c = []));
  let k := take (Z.to_nat key_size) key in
  if _is_luks1 (type c) then open_by_key (luks1_open calloc fuel) name k flags
  else if _is_luks2 (type c) then open_by_key (luks2_open calloc ja_malloc junk fuel) name k flags
  else if _is_verity (type c) then open_verity name k uninit
  else eraise ENOTSUP.

Definition crypt_get_volume_key_size (c : crypt_device) : outcome Z :=
  if negb (_valid_cd c) then Done 0
  else if _is_luks1 (type c) then
    match luks1_hdr c with Freed => Failed (BadPointer 0) | Null => Done 0 | Live h => Done (s32 (key_bytes h)) end
  else if _is_luks2 (type c) then
    match luks2_hdr c with
    | Freed => Failed (BadPointer 0)
    | Null => Done 0
    | Live e => Done (s32 (ks_key_size (default zero_keyslot (keyslots2 (objects e) !! 0%nat))))
    end
  else if _is_verity (type c) then
    Done (match verity_sb c with
          | Some sb => match vic_hash_size (cstr (algorithm sb)) with Some n => s32 n | None => 0 end
          | None => 0
          end)
  else Done 0.

(** What an operation answers: zero or the error. *)
Definition answer (m : CM unit) (s : cstate) : outcome (Z * cstate) :=
  match m s with Failed f => Failed f | Done (inl e, s') => Done (e, s') | Done (inr _, s') => Done (0, s') end.
End Cryptsetup.
