(* ===== verification/Disks.v ===== *)
(** * Disks: encrypted and verified disks, and mounting them
    (src/lkl/setup.c)

    The calls that create and activate a disk with libcryptsetup, and the
    sequence of system calls that mounts the disks.  The LKL kernel is a
    parameter that answers every call, and the calls with their answers are
    recorded; every message of [sgxlkl_fail] is the end ([Stopped]).  Tracing is
    left out. *)

From Stdlib Require Import String SpecFloat.
From stdpp Require Import gmap.
From S2P Require Import Prelude JsonText Env EnclaveConfig VicCrypto Blockdev Verity Luks1Header Luks1 Luks2Header Luks2Json Luks2 DeviceMapper.
From S2P Require Import LuksOpen Cryptsetup.

(** ** The kernel *)

Inductive lkl_call : Type :=
| SysAccess (p : text) (mode : Z)
| SysMkdir (p : text) (perm : Z)
| SysChmod (p : text) (perm : Z)
| SysRmdir (p : text)
| SysMount (dev p fs : text) (flags : Z) (data : option text)
| SysUmount (p : text) (flags : Z)
| SysUnlink (p : text)
| SysMknod (p : text) (mode dev : Z)
| SysChroot (p : text)
| SysChdir (p : text)
| SysSync
| MakeExt4Dev (dev : text) (block_size num_blocks : Z)
| AddDisks (num_mounts : nat)
(* of the start and the end of the kernel *)
| RegisterSyscallOverrides
| InitEventChannel
| ConsoleAdd
| NetdevAdd
| InitSwiotlb
| StartKernel (cmdline : text)
| AddEntropy (bits : Z) (data : list Z)
| ClockSettime (sec nsec : Z)
| Sysctl (p v : text)
| NetdevIfindex (id : Z)
| IfnameIfindex (name : text)
| IfSetIpv4 (index addr mask : Z)
| IfUp (index : Z)
| SetGateway (addr : Z)
| IfSetMtu (index mtu : Z)
| WgAddDevice (name : text)
| WgSetDevice (key : list Z) (port first_peer : Z)
| Sethostname (name : text)
| NetdevRemove
| SysHalt
| TerminateSchedulers
| ShutdownNotification
| VioTerminate
| TerminateThisScheduler.

Abbreviation calls := (list (lkl_call * Z)).

(** An entry of a directory: its name, and whether it is a block device with
    which number, if [stat] finds it. *)
Record dirent : Type := mk_dirent { d_name : text; d_stat : option (bool * Z) }.

(** What the kernel answers after some calls: a number, and the entries of a
    directory with whether reading them ended without an error. *)
Class LklKernel : Type := {
  lkl_answer : calls -> lkl_call -> Z;
  lkl_listing : calls -> text -> option (list dirent * bool) }.

Definition LKL_ENOENT : Z := 2.
Definition LKL_EEXIST : Z := 17.
Definition LKL_MS_RDONLY : Z := 1.
Definition LKL_S_IFBLK : Z := 0x6000.
Definition LKL_S_IFCHR : Z := 0x2000.
Definition LKL_MKDEV (ma mi : Z) : Z := Z.lor (Z.shiftl ma 8) mi.

(** [disk_state]: the flag [mounted] of every disk. *)
Record dstate : Type := mk_dstate { history : calls; disk_host : host; mounted : list bool }.
Definition DM (A : Type) : Type := dstate -> outcome (A * dstate).
#[export] Instance DM_ret : MRet DM := fun A a s => Done (a, s).
#[export] Instance DM_bind : MBind DM := fun A B k m s => match m s with Failed f => Failed f | Done (a, s') => k a s' end.
Definition sgxlkl_fail {A} : DM A := fun _ => Failed Stopped.

(** ** Disks *)

(** disk_config_t; [dc_key] is the key with its length. *)
Record disk_config_t : Type := mk_disk {
  dc_create : bool; dc_destination : text; dc_key : option (list Z); dc_key_id : option text; dc_fresh_key : bool;
  dc_readonly : bool; dc_roothash : option text; dc_roothash_offset : Z; dc_size : Z; dc_overlay : bool }.
Definition is_encrypted_cfg (c : disk_config_t) : bool :=
  bool_decide (dc_key c <> None) || bool_decide (dc_key_id c <> None) || dc_fresh_key c.

Definition CREATED_DISK_KEY_LENGTH : Z := 512.
Definition CREATED_DISK_EXT4_BLOCK_SIZE : Z := 4096.
(** The double 0.15. *)
Definition CREATED_DISK_ENCRYPTION_OVERHEAD : double := S754_finite false 5404319552844595 (-55).
Definition MIN_LUKS2_ITERATIONS : Z := 1000.

(** Random bytes of the library for creating a disk. *)
Record create_random : Type := mk_create_random { cr_format : format_random; cr_slot_salt : list Z; cr_slot_split : list Z }.

Section Disks.
Context `{Algorithms} `{Ciphers} `{Argon2} `{Base64} `{DeviceMapper} `{LoopDevices} `{LklKernel}.
Variable calloc : Z -> bool.
Variable ja_malloc : nat -> Z -> bool.
Variable junk : Z.
Variable stack : list Z.
Variable fuel : nat.
Variable format_integrity : luks2_ext_hdr_t -> list Z -> VM unit.
(** The block on the stack before a superblock is read into it. *)
Variable uninit : list Z.

(** An operation of libcryptsetup that has to answer zero. *)
Definition must (m : CM unit) (s : cstate) : outcome cstate :=
  match m s with Failed f => Failed f | Done (inl _, _) => Failed Stopped | Done (inr _, s') => Done s' end.
Definition start_handle (disk_path : text) (h : host) : outcome cstate :=
  match crypt_init calloc disk_path h with inl _ => Failed Stopped | inr c => Done (mk_cstate c h) end.

Definition disk_pbkdf : crypt_pbkdf_type := mk_pbkdf (Some (bytes "pbkdf2")) (Some (bytes "sha256")) 0 MIN_LUKS2_ITERATIONS 0 0.
Definition disk_params : crypt_params := Luks2Params (mk_params2 (Some disk_pbkdf) None false 0 None 512 None None).

Definition lkl_create_crypto_disk_thread (disk_path : text) (key : list Z) (rnd : create_random) (h : host) : outcome host :=
  s ← start_handle disk_path h;
  s ← must (crypt_format calloc format_integrity (Some CRYPT_LUKS2) (bytes "aes") (bytes "xts-plain64") None None 64 disk_params
              (cr_format rnd)) s;
  s ← must (crypt_keyslot_add_by_key calloc ja_malloc junk stack CRYPT_ANY_SLOT None 0 key 0 (cr_slot_salt rnd)
              (cr_slot_split rnd)) s;
  _ ← crypt_free (cd s);
  Done (on_host s).

Definition lkl_activate_crypto_disk_thread (disk_path crypt_name : text) (readonly : bool) (key : list Z) (h : host) :
    outcome host :=
  s ← start_handle disk_path h;
  s ← must (crypt_load calloc ja_malloc junk (Some CRYPT_LUKS2) NoParams uninit) s;
  s ← must (crypt_activate_by_passphrase calloc ja_malloc junk stack fuel crypt_name CRYPT_ANY_SLOT key
              (if readonly then CRYPT_ACTIVATE_READONLY else 0)) s;
  _ ← crypt_free (cd s);
  Done (on_host s).

(** The data and the hash tree are on the same device. *)
Definition verity_disk_params (disk_path : text) (roothash_offset : Z) : crypt_params :=
  VerityParams (mk_params_verity (Some disk_path) (Some disk_path) None 512 512 (roothash_offset / 512) roothash_offset).

Definition lkl_activate_verity_disk_thread (disk_path crypt_name : text) (readonly : bool) (roothash : text) (roothash_offset : Z)
    (h : host) : outcome host :=
  s ← start_handle disk_path h;
  s ← must (crypt_load calloc ja_malloc junk (Some CRYPT_VERITY) (verity_disk_params disk_path roothash_offset) uninit) s;
  hash_size ← crypt_get_volume_key_size (cd s);
  match hex_to_bytes (calloc (Z.of_nat (length roothash) / 2 + 1)) roothash with
  | Some volume_hash_bytes =>
      if negb (Z.of_nat (length volume_hash_bytes) =? hash_size) then Failed Stopped
      else
        s ← must (crypt_activate_by_volume_key calloc ja_malloc junk fuel crypt_name volume_hash_bytes hash_size
                    (if readonly then CRYPT_ACTIVATE_READONLY else 0) uninit) s;
        _ ← crypt_free (cd s);
        Done (on_host s)
  | None => Failed Stopped
  end.

(** ** System calls *)

Definition sys (c : lkl_call) : DM Z := fun s =>
  let r := lkl_answer (history s) c in Done (r, mk_dstate (history s ++ [(c, r)]) (disk_host s) (mounted s)).
(** A call whose failure is the end. *)
Definition sys_ok (c : lkl_call) : DM unit := e ← sys c; if e =? 0 then mret tt else sgxlkl_fail.
Definition on_disk_host (f : host -> outcome host) : DM unit := fun s =>
  match f (disk_host s) with Failed e => Failed e | Done h => Done (tt, mk_dstate (history s) h (mounted s)) end.

Definition lkl_prepare_rootfs (dirname : text) (perm : Z) : DM unit :=
  err ← sys (SysAccess dirname 0);
  if err <? 0 then
    err ← (if err =? - LKL_ENOENT then sys (SysMkdir dirname perm) else mret err);
    if err <? 0 then sgxlkl_fail else mret tt
  else _ ← sys (SysChmod dirname perm); mret tt.

(** The loop over the entries of the directory; both names have 512 characters. *)
Fixpoint copy_nodes (l : list dirent) (srcdir dstdir : text) : DM unit :=
  match l with
  | [] => mret tt
  | e :: l' =>
      match d_stat e with
      | None => sgxlkl_fail
      | Some (blk, rdev) =>
          if (blk : bool) then
            let dst := take 512 (dstdir ++ d_name e) in
            _ ← sys (SysUnlink dst);
            _ ← sys_ok (SysMknod dst (Z.lor LKL_S_IFBLK 384) rdev);
            copy_nodes l' srcdir dstdir
          else copy_nodes l' srcdir dstdir
      end
  end.
Definition with_slash (dir : text) : text := if bool_decide (list.last dir = Some 47) then dir else dir ++ [47].
Definition lkl_copy_blkdev_nodes (srcdir dstdir : text) : DM unit := fun s =>
  match lkl_listing (history s) srcdir with
  | None => Failed Stopped
  | Some (l, ok) => (_ ← copy_nodes l (with_slash srcdir) (with_slash dstdir); if ok : bool then mret tt else sgxlkl_fail) s
  end.

Definition lkl_mount_devtmpfs (mntpoint : text) : DM unit :=
  sys_ok (SysMount (bytes "devtmpfs") mntpoint (bytes "devtmpfs") 0 None).
Definition mount_tmpfs (p : string) (data : string) : DM unit :=
  sys_ok (SysMount (bytes "tmpfs") (bytes p) (bytes "tmpfs") 0 (Some (bytes data))).
Definition lkl_mount_shmtmpfs : DM unit := mount_tmpfs "/dev/shm" "mode=1777,rw".
Definition lkl_mount_tmpfs : DM unit := mount_tmpfs "/tmp" "mode=1777".
Definition lkl_mount_mntfs : DM unit := mount_tmpfs "/mnt" "mode=0777".
Definition lkl_mount_sysfs : DM unit := sys_ok (SysMount (bytes "none") (bytes "/sys") (bytes "sysfs") 0 None).
Definition lkl_mount_runfs : DM unit := mount_tmpfs "/run" "mode=0700".
Definition lkl_mount_procfs : DM unit := sys_ok (SysMount (bytes "proc") (bytes "/proc") (bytes "proc") 0 None).
Definition lkl_mount_overlay_tmpfs (mnt_point : text) : DM unit :=
  sys_ok (SysMount (bytes "tmpfs") mnt_point (bytes "tmpfs") 0 (Some (bytes "mode=0777"))).
(** The options have 200 characters. *)
Definition lkl_mount_overlayfs (lower_dir upper_dir work_dir mnt_point : text) : DM unit :=
  let opts := take 199 (bytes "lowerdir=" ++ lower_dir ++ bytes ",upperdir=" ++ upper_dir ++ bytes ",workdir=" ++ work_dir) in
  sys_ok (SysMount (bytes "overlay") mnt_point (bytes "overlay") 0 (Some opts)).

Definition mknod (p : string) (perm : Z) (ma mi : Z) : DM unit :=
  _ ← sys (SysUnlink (bytes p)); sys_ok (SysMknod (bytes p) (Z.lor LKL_S_IFCHR perm) (LKL_MKDEV ma mi)).
Definition lkl_mknods : DM unit :=
  _ ← mknod "/dev/null" 438 1 3; _ ← mknod "/dev/zero" 438 1 5; _ ← mknod "/dev/random" 292 1 8; mknod "/dev/urandom" 292 1 9.

Definition lkl_mount_virtual : DM unit :=
  _ ← lkl_mount_devtmpfs (bytes "/dev");
  _ ← lkl_prepare_rootfs (bytes "/proc") 448;
  _ ← lkl_mount_procfs;
  _ ← lkl_prepare_rootfs (bytes "/sys") 448;
  _ ← lkl_mount_sysfs;
  _ ← lkl_prepare_rootfs (bytes "/run") 448;
  _ ← lkl_mount_runfs;
  lkl_mknods.

(** What it returns when the directory cannot be made is the answer of the call
    before. *)
Definition lkl_mount_blockdev (dev_str mnt_point fs_type : text) (flags : Z) : DM Z :=
  err ← sys (SysAccess (bytes "/mnt") 7);
  err ← (if err =? - LKL_ENOENT then sys (SysMkdir (bytes "/mnt") 493) else mret err);
  if err <? 0 then mret err
  else
    mkdir_err ← sys (SysMkdir mnt_point 493);
    if (mkdir_err <? 0) && negb (mkdir_err =? - LKL_EEXIST) then mret err
    else
      err ← sys (SysMount dev_str mnt_point fs_type flags (Some []));
      if err <? 0 then
        _ ← (if 0 <=? mkdir_err then sys (SysRmdir mnt_point) else mret 0);
        mret err
      else mret err.

(** ** Mounting a disk *)

(** The size of the file system on a new disk: for an encrypted disk 85 per cent,
    rounded up to blocks. *)
Definition fs_size_of (size : Z) (encrypted : bool) : Z :=
  if encrypted then
    let s := long_of_d (d_mul (d_of_Z size) (d_sub (d_of_Z 1) CREATED_DISK_ENCRYPTION_OVERHEAD)) in
    u64 (u64 (s + CREATED_DISK_EXT4_BLOCK_SIZE - 1) / CREATED_DISK_EXT4_BLOCK_SIZE * CREATED_DISK_EXT4_BLOCK_SIZE)
  else size.

Definition raw_path (device : Z) : text := bytes "/dev/vd" ++ [device].
Definition crypt_name_of (device : Z) : text := bytes "crypt" ++ [device].
Definition verity_name_of (device : Z) : text := bytes "verity" ++ [device].

(** "if (disk->roothash != NULL)": the path to go on with, and whether the disk
    is for reading only. *)
Definition activate_verity (disk : disk_config_t) (device : Z) : DM (text * bool) :=
  match dc_roothash disk with
  | None => mret (raw_path device, dc_readonly disk)
  | Some roothash =>
      _ ← on_disk_host (lkl_activate_verity_disk_thread (raw_path device) (verity_name_of device) (dc_readonly disk) roothash
            (dc_roothash_offset disk));
      mret (mapper_path (verity_name_of device), true)
  end.

(** "if (is_encrypted_cfg(disk))".  The copy of the configuration that the
    threads get was made before a fresh key is generated: its key is [dc_key]. *)
Definition activate_crypto (disk : disk_config_t) (device : Z) (dev_str : text) (readonly : bool) (rnd : create_random) : DM text :=
  if is_encrypted_cfg disk then
    let key := default [] (dc_key disk) in
    _ ← (if dc_create disk then on_disk_host (lkl_create_crypto_disk_thread dev_str key rnd) else mret tt);
    _ ← on_disk_host (lkl_activate_crypto_disk_thread dev_str (crypt_name_of device) readonly key);
    mret (mapper_path (crypt_name_of device))
  else mret dev_str.

(** "if (disk->create && disk->fresh_key)" allocates the key, and the bytes are
    not used. *)
Definition fresh_key (disk : disk_config_t) : DM unit :=
  if dc_create disk && dc_fresh_key disk then
    if calloc (CREATED_DISK_KEY_LENGTH / 8) then mret tt else sgxlkl_fail
  else mret tt.

Definition lkl_mount_disk (disk : disk_config_t) (device : Z) (mnt_point : text) (disk_index : nat) (rnd : create_random) : DM unit :=
  _ ← fresh_key disk;
  '(dev_str, readonly) ← activate_verity disk device;
  dev_str ← activate_crypto disk device dev_str readonly rnd;
  _ ← (if dc_create disk then
         let fs_size := fs_size_of (dc_size disk) (is_encrypted_cfg disk) in
         sys_ok (MakeExt4Dev dev_str CREATED_DISK_EXT4_BLOCK_SIZE (fs_size / CREATED_DISK_EXT4_BLOCK_SIZE))
       else mret tt);
  err ← lkl_mount_blockdev dev_str mnt_point (bytes "ext4") (if (readonly : bool) then LKL_MS_RDONLY else 0);
  if err <? 0 then sgxlkl_fail
  else fun s => Done (tt, mk_dstate (history s) (disk_host s) (<[disk_index := true]> (mounted s))).

(** ** The root disk *)

(** disk_dm_verity_root_hash: 32 bytes that are set in the image of the enclave. *)
Variable disk_dm_verity_root_hash : list Z.

(** The root hash of the configuration has to be the embedded one, unless that
    is all 0xff. *)
Definition check_root_hash (roothash : option text) : DM unit :=
  if forallb (fun b => b =? 255) disk_dm_verity_root_hash then mret tt
  else
    match bytes_to_hex (2 * length disk_dm_verity_root_hash + 1) (Some disk_dm_verity_root_hash) with
    | None => sgxlkl_fail
    | Some buf => if bool_decide (roothash = Some buf) then mret tt else sgxlkl_fail
    end.

Definition root_disk (root : root_config) : disk_config_t :=
  mk_disk false (bytes "/") (root_key root) (root_key_id root) false (root_readonly root) (root_roothash root)
    (root_roothash_offset root) 0 (root_overlay root).

(** A writable file system in memory over the root disk: the new root. *)
Definition mount_overlay (mnt_point : text) : DM unit :=
  _ ← lkl_prepare_rootfs (bytes "/mnt/oda-upper") 493;
  _ ← lkl_mount_overlay_tmpfs (bytes "/mnt/oda-upper");
  _ ← lkl_prepare_rootfs (bytes "/mnt/oda-upper/upper") 493;
  _ ← lkl_prepare_rootfs (bytes "/mnt/oda-upper/work") 493;
  _ ← lkl_prepare_rootfs (bytes "/mnt/oda") 493;
  lkl_mount_overlayfs mnt_point (bytes "/mnt/oda-upper/upper") (bytes "/mnt/oda-upper/work") (bytes "/mnt/oda").

(** The file systems of the kernel go to the new root, which becomes the root. *)
Definition enter_root (new_root : text) : DM unit :=
  let new_dev := new_root ++ bytes "/dev/" in
  _ ← lkl_prepare_rootfs new_dev 448;
  _ ← lkl_mount_devtmpfs new_dev;
  _ ← lkl_copy_blkdev_nodes (bytes "/dev/") new_dev;
  _ ← sys (SysUmount (bytes "/proc") 0);
  _ ← sys (SysUmount (bytes "/sys") 0);
  _ ← sys (SysUmount (bytes "/run") 0);
  _ ← sys (SysUmount (bytes "/dev") 0);
  _ ← sys_ok (SysChroot new_root);
  _ ← sys_ok (SysChdir (bytes "/"));
  _ ← lkl_prepare_rootfs (bytes "/") 493;
  _ ← lkl_prepare_rootfs (bytes "/dev") 493;
  _ ← lkl_prepare_rootfs (bytes "/dev/shm") 511;
  _ ← lkl_prepare_rootfs (bytes "/mnt") 493;
  _ ← lkl_prepare_rootfs (bytes "/tmp") 511;
  _ ← lkl_prepare_rootfs (bytes "/sys") 493;
  _ ← lkl_prepare_rootfs (bytes "/run") 493;
  _ ← lkl_prepare_rootfs (bytes "/proc") 493;
  _ ← lkl_mount_shmtmpfs;
  _ ← lkl_mount_tmpfs;
  _ ← lkl_mount_mntfs;
  _ ← lkl_mount_sysfs;
  _ ← lkl_mount_runfs;
  lkl_mount_procfs.

Definition lkl_mount_root_disk (root : root_config) (rnd : create_random) : DM unit :=
  let mnt_point := bytes "/mnt/vda" in
  _ ← check_root_hash (root_roothash root);
  _ ← lkl_mount_disk (root_disk root) 97 mnt_point 0 rnd;
  _ ← (if root_overlay root then mount_overlay mnt_point else mret tt);
  enter_root (if root_overlay root then bytes "/mnt/oda" else mnt_point).

(** ** All disks *)

Definition mount_disk (m : mount_config) : disk_config_t :=
  mk_disk (mnt_create m) (mnt_destination m) (mnt_key m) (mnt_key_id m) (mnt_fresh_key m) (mnt_readonly m) (mnt_roothash m)
    (mnt_roothash_offset m) (mnt_size m) false.

(** The disks from index [i] of [mounts]; after the 26th disk the function
    returns, and [true] says that it did not. *)
Fixpoint mount_from (i : nat) (mounts : list mount_config) (rnd : nat -> create_random) : DM bool :=
  match mounts with
  | [] => mret true
  | m :: mounts' =>
      let dsk_idx := S i in
      if bool_decide (mnt_destination m = bytes "/") then fun _ => Failed Assertion
      else if 122 <? 97 + Z.of_nat dsk_idx then mret false
      else
        _ ← lkl_mount_disk (mount_disk m) (97 + Z.of_nat dsk_idx) (mnt_destination m) dsk_idx (rnd dsk_idx);
        mount_from (S i) mounts' rnd
  end.

Definition lkl_mount_disks (root : root_config) (mounts : list mount_config) (cwd : option text) (rnd : nat -> create_random) : DM unit :=
  err ← sys (AddDisks (length mounts));
  if negb (err =? 0) then sgxlkl_fail
  else
    _ ← lkl_mount_root_disk root (rnd 0%nat);
    all ← mount_from 0 mounts rnd;
    if (all : bool) then match cwd with Some d => sys_ok (SysChdir d) | None => mret tt end else mret tt.

(** ** Unmounting (lkl_terminate) *)

(** [lkl_umount_timeout] with its flags is recorded as one call. *)
Definition MNT_DETACH : Z := 2.

(** "Unmount mounts": from the last one down; the flag that is looked at is that
    of the disk before. *)
Fixpoint unmount_from (n : nat) (mounts : list mount_config) (root_ro : bool) : DM unit :=
  match n with
  | O => mret tt
  | S i =>
      fun s =>
        match mounts !! i with
        | Some m =>
            if default false (mounted s !! i) then
              (_ ← sys (SysUmount (mnt_destination m) 0);
               _ ← (if root_ro then mret 0 else sys (SysRmdir (mnt_destination m)));
               unmount_from i mounts root_ro) s
            else unmount_from i mounts root_ro s
        | None => Failed (BadPointer 0)
        end
  end.
(** The file systems of a kernel that terminates. *)
Definition unmount_all (root : root_config) (mounts : list mount_config) : DM unit :=
  _ ← sys (SysChdir (bytes "/"));
  _ ← unmount_from (length mounts) mounts (root_readonly root);
  _ ← sys SysSync;
  _ ← sys (SysUmount (bytes "/") MNT_DETACH);
  mret tt.
End Disks.
