(* ===== verification/DiskProps.v ===== *)
(** * DiskProps: a created disk can be activated

    The life of an encrypted disk: [lkl_create_crypto_disk_thread] formats it and
    adds the key, and [lkl_activate_crypto_disk_thread] with this key maps its
    payload with the volume key. *)

From Stdlib Require Import String.
From stdpp Require Import gmap.
From S2P Require Import Prelude JsonText JsonParser VicCrypto Blockdev Uuid Luks1Header Luks1 Luks2Header Luks2Json Luks2Doc Luks2.
From S2P Require Import Luks1Props Luks2Props Luks2Keys Luks2Format Luks2Volumes DeviceMapper DeviceMapperProps LuksOpen Cryptsetup Disks.

#[local] Opaque replicate.

(** ** Handles *)

Lemma cm_ok {A B} (m : CM A) (k : A -> CM B) s a s' : m s = Done (inr a, s') -> (m ≫= k) s = k a s'.
Proof. intros E. unfold mbind, CM_bind. by rewrite E. Qed.

Lemma must_ok m s s' : m s = Done (inr tt, s') -> must m s = Done s'.
Proof. intros E. unfold must. by rewrite E. Qed.

(** The device that [vic_blockdev_open] makes of a file. *)
Definition opened (data : list Z) (w : bool) : blockdev_t :=
  mk_bd data (Z.of_nat (length data)) (Z.of_nat (length data)) 0 512 false w.

(** A block device of the host that holds a number of sectors. *)
Record disk_node (h : host) (p : text) (n : node) : Prop := {
  dn_node : files h !! p = Some n; dn_block : n_block n = true; dn_writable : n_writable n = true;
  dn_sectors : Z.of_nat (length (n_data n)) mod 512 = 0; dn_size : Z.of_nat (length (n_data n)) < 2 ^ 63;
  dn_path : (length p <= 64)%nat; dn_name : spaceless p }.

Lemma opened_refresh h p d n w :
  files h !! p = Some n -> d = opened (n_data n) w -> refresh h p d = d.
Proof. intros Hf ->. unfold refresh. by rewrite Hf. Qed.

Lemma open_read h p n :
  disk_node h p n -> vic_blockdev_open (open_contents h p VIC_RDONLY) VIC_RDONLY 0 = (VIC_OK, Some (opened (n_data n) false)).
Proof.
  intros D. unfold open_contents. rewrite (dn_node _ _ _ D). cbn [mbind option_bind].
  change (truthy (Z.land VIC_RDONLY (Z.lor VIC_RDWR VIC_WRONLY))) with false. cbn [andb].
  unfold vic_blockdev_open. change (bad_flags VIC_RDONLY) with false. change (0 =? 0) with true. cbv iota zeta.
  change (negb (_is_power_of_two DEFAULT_BLOCK_SIZE)) with false. change (truthy (Z.land VIC_RDONLY VIC_TRUNC)) with false.
  cbv iota. unfold _check_block_multiple, DEFAULT_BLOCK_SIZE. by rewrite (dn_sectors _ _ _ D).
Qed.

Lemma open_write h p n :
  disk_node h p n -> open_blockdev p VIC_RDWR 0 h = Done (inr (opened (n_data n) true), h).
Proof.
  intros D. unfold open_blockdev, open_contents. erewrite hm_ok by reflexivity. rewrite (dn_node _ _ _ D). cbn [mbind option_bind].
  rewrite (dn_writable _ _ _ D). rewrite andb_false_r.
  unfold vic_blockdev_open. change (bad_flags VIC_RDWR) with false. change (0 =? 0) with true. cbv iota zeta.
  change (negb (_is_power_of_two DEFAULT_BLOCK_SIZE)) with false. change (truthy (Z.land VIC_RDWR VIC_TRUNC)) with false.
  cbv iota. unfold _check_block_multiple, DEFAULT_BLOCK_SIZE. by rewrite (dn_sectors _ _ _ D).
Qed.

Lemma opened_ok h p n : disk_node h p n -> bd_ok (opened (n_data n) true).
Proof.
  intros D. pose proof (dn_size _ _ _ D). split; cbn [opened block_size file full_size size offset]; try lia.
  exists 9. split; [lia|done].
Qed.
Lemma opened_writable h p n : disk_node h p n -> writable (opened (n_data n) true).
Proof. intros D. split; try done. by eapply opened_ok. Qed.

(** A device that was written through the handle, opened again. *)
Lemma same_dev_opened data d : same_dev (opened data true) d -> d = opened (file d) true.
Proof.
  intros ([[_ Hf _ _ _] Hb Hc Hw] & Ho & Hs & Hfs). destruct d as [f fs s o b c w].
  cbn [file full_size size offset block_size create can_write opened] in *. unfold opened. by rewrite Hf, <- Hfs in *; simplify_eq.
Qed.

(** The host after the file was written. *)
Definition written_host (h : host) (p : text) (f : list Z) : host :=
  mk_host (alter (fun n => mk_node (n_block n) (n_writable n) f) p (files h)) (mapper h) (runs h).

Lemma written_node h p n f :
  disk_node h p n -> length f = length (n_data n) -> disk_node (written_host h p f) p (mk_node (n_block n) (n_writable n) f).
Proof.
  intros [] Hl. split; cbn [files written_host n_block n_writable n_data]; rewrite ?Hl; try done.
  by rewrite lookup_alter_eq, dn_node0.
Qed.

Lemma call_device_ok {A} (m : VM A) s d r d' n w :
  bd (cd s) = Live d -> files (on_host s) !! path (cd s) = Some n -> d = opened (n_data n) w -> m d = Done (r, d') ->
  call_device m s = Done (inr r, mk_cstate (set_bd (Live d') (readonly (cd s)) (cd s)) (written_host (on_host s) (path (cd s)) (file d'))).
Proof.
  intros Hb Hf Hd Hm. unfold call_device, use_bd. rewrite Hb, (opened_refresh _ _ _ n w Hf Hd), Hm. done.
Qed.

Lemma force_open_ok c h n :
  readonly c = true -> bd c = Live (opened (n_data n) false) -> disk_node h (path c) n ->
  _force_open_for_write (mk_cstate c h) = Done (inr tt, mk_cstate (set_bd (Live (opened (n_data n) true)) false c) h).
Proof.
  intros Hr Hb D. unfold _force_open_for_write. erewrite cm_ok by reflexivity. cbn [cd]. rewrite Hr, Hb.
  erewrite cm_ok by reflexivity. erewrite cm_ok by (unfold call_host; cbn [on_host cd]; rewrite (open_write _ _ _ D); reflexivity).
  done.
Qed.

Section Life.
Context `{Algorithms} `{Ciphers} `{Argon2} `{Base64} `{DeviceMapper} `{LoopDevices} `{LklKernel}.
Variable calloc : Z -> bool.
Variable ja_malloc : nat -> Z -> bool.
Variable stack : list Z.
Variable fuel : nat.
Variable format_integrity : luks2_ext_hdr_t -> list Z -> VM unit.
Variable uninit : list Z.
Hypothesis calloc_true : forall n, calloc n = true.
Hypothesis malloc_true : forall n sz, ja_malloc n sz = true.

Definition new_handle (p : text) (d : blockdev_t) : crypt_device :=
  mk_cd MAGIC [] [] (Live d) Null p true (replicate 128 0) 0 Null [] no_pbkdf Null None.

Lemma start_ok h p n :
  disk_node h p n -> start_handle calloc p h = Done (mk_cstate (new_handle p (opened (n_data n) false)) h).
Proof.
  intros D. unfold start_handle, crypt_init. rewrite calloc_true. cbn [negb]. rewrite (open_read _ _ _ D).
  rewrite (proj2 (Z.leb_gt _ _)) by (pose proof (dn_path _ _ _ D); unfold PATH_MAX; lia). done.
Qed.

Abbreviation describes2 := (Luks2Keys.describes2 calloc stack).
Definition disk_cipher : text := bytes "aes-xts-plain64".
Definition volume_key_of (rnd : create_random) : list Z := take 64 (r_key (cr_format rnd)).
Definition disk_objects (rnd : create_random) (digest : list Z) : luks2_objects :=
  new_objects disk_cipher (bytes "sha256") 1000 (r_digest_salt (cr_format rnd)) digest.

(** The handle between formatting and adding the key. *)
Definition formatted_handle (p : text) (rnd : create_random) (d : blockdev_t) : crypt_device :=
  mk_cd MAGIC CRYPT_LUKS2 [] (Live d) Null p false (volume_key_of rnd ++ drop 64 (replicate 128 0)) 64 Null disk_cipher disk_pbkdf
    Null None.

(** What the random bytes have to be: a key of 64 bytes, salts, a UUID; [digest]
    is that of the key. *)
Record random_ok (rnd : create_random) (digest : list Z) : Prop := {
  ro_key : (64 <= length (r_key (cr_format rnd)))%nat; ro_bytes : Forall is_byte (r_key (cr_format rnd));
  ro_uuid : length (r_uuid (cr_format rnd)) = 16%nat; ro_uuid_bytes : Forall is_byte (r_uuid (cr_format rnd));
  ro_format : format_ok disk_cipher (bytes "sha256") 1000 (volume_key_of rnd) (r_salt (cr_format rnd))
                (r_digest_salt (cr_format rnd)) digest;
  ro_fits : json_fits (disk_objects rnd digest);
  ro_slot_salt : bytes_ok 32 (cr_slot_salt rnd); ro_split : Z.of_nat (length (cr_slot_split rnd)) = 64 * 4000 }.

Lemma format_disk_ok h p n rnd digest :
  disk_node h p n -> MIN_DEVICE_BYTES <= Z.of_nat (length (n_data n)) -> random_ok rnd digest ->
  exists d e,
    crypt_format calloc format_integrity (Some CRYPT_LUKS2) (bytes "aes") (bytes "xts-plain64") None None 64 disk_params
      (cr_format rnd) (mk_cstate (new_handle p (opened (n_data n) false)) h) =
      Done (inr tt, mk_cstate (formatted_handle p rnd d) (written_host h p (file d))) /\
    describes2 d e (volume_key_of rnd) (replicate 64 None) /\ objects e = disk_objects rnd digest /\
    same_dev (opened (n_data n) true) d /\ h_uuid (phdr e) = pad 40 (vic_uuid_generate (r_uuid (cr_format rnd))).
Proof.
  intros D Hsz R. pose proof R as [R1 R2 R3 R4 R5 R6 _ _].
  assert (inside (opened (n_data n) true) 0 64) as Hin.
  { unfold inside, opened. cbn [offset size]. unfold MIN_DEVICE_BYTES in Hsz. lia. }
  assert (vic_blockdev_get_num_blocks (opened (n_data n) true) * 512 = Z.of_nat (length (n_data n))) as Hnb.
  { unfold vic_blockdev_get_num_blocks. cbn [size offset block_size opened]. pose proof (dn_size _ _ _ D).
    rewrite u64_small by lia. rewrite Z.sub_0_r. pose proof (dn_sectors _ _ _ D).
    pose proof (Z.div_mod (Z.of_nat (length (n_data n))) 512). lia. }
  destruct (format_described2 calloc stack calloc_true format_integrity (opened (n_data n) true) None None (Some disk_cipher) None
    (Some (bytes "sha256")) 1000 (volume_key_of rnd) [] (r_salt (cr_format rnd)) (r_digest_salt (cr_format rnd))
    (r_uuid (cr_format rnd)) digest) as [Hf _].
  { split; [by eapply opened_writable|done]. }
  { lia. } { done. } { done. } { exact R5. }
  destruct (Hf R6) as (d & e & E & Ho & Hd & _ & Hs & Hu). exists d, e. split; [|done].
  unfold crypt_format. erewrite cm_ok by reflexivity. erewrite cm_ok by reflexivity. erewrite cm_ok by reflexivity.
  cbv zeta. erewrite cm_ok by reflexivity.
  erewrite cm_ok.
  2:{ unfold echeck_call. cbn [cd on_host]. rewrite (force_open_ok _ h n); [reflexivity|reflexivity|reflexivity|exact D]. }
  change (STRLCPY 16 (default CRYPT_LUKS1 (Some CRYPT_LUKS2))) with (CRYPT_LUKS2, 0). cbv iota.
  erewrite cm_ok by reflexivity. erewrite cm_ok by reflexivity.
  change (bool_decide (default CRYPT_LUKS1 (Some CRYPT_LUKS2) = CRYPT_LUKS1)) with false.
  change (bool_decide (default CRYPT_LUKS1 (Some CRYPT_LUKS2) = CRYPT_LUKS2)) with true. cbv iota.
  unfold format_luks2. unfold disk_params at 1. erewrite cm_ok by reflexivity. cbv beta iota zeta.
  erewrite cm_ok by reflexivity. change (STRLCPY 32 (bytes "aes" ++ [45] ++ bytes "xts-plain64")) with (disk_cipher, 0). cbv iota.
  erewrite cm_ok by reflexivity. erewrite cm_ok by reflexivity. unfold disk_params.
  erewrite cm_ok.
  2:{ eapply (call_device_ok _ _ (opened (n_data n) true) _ d n true); [reflexivity|exact (dn_node _ _ _ D)|reflexivity|exact E]. }
  reflexivity.
Qed.

(** ** Adding the key *)

Definition disk_kdf : vic_kdf_t := mk_vic_kdf (Some (bytes "sha256")) 1000 0 0 0.
Definition disk_slot (rsalt : list Z) : luks2_keyslot_t :=
  mk_keyslot (bytes "luks2") 64 (mk_kdf (bytes "pbkdf2") rsalt (bytes "sha256") 1000 0 0 0)
    (mk_af (bytes "luks1") (bytes "sha256") 4000) (mk_area (bytes "raw") disk_cipher 64 32768 258048).
Definition keyed_objects (rnd : create_random) (digest : list Z) : luks2_objects :=
  put_keyslot 0 (disk_slot (cr_slot_salt rnd)) 1 (disk_objects rnd digest).

Lemma volume_key_length rnd digest : random_ok rnd digest -> length (volume_key_of rnd) = 64%nat.
Proof. intros []. unfold volume_key_of. rewrite length_take. lia. Qed.

Lemma disk_new_slot e mk rsalt :
  length mk = 64%nat -> _get_integrity_type e = [] -> new_keyslot e mk disk_cipher (bytes "pbkdf2") disk_kdf 0 rsalt = Some (disk_slot rsalt).
Proof. intros Hl Hi. unfold new_keyslot. rewrite Hl, Hi. reflexivity. Qed.

Lemma disk_slot_derive rsalt pwd pk :
  vic_pbkdf2 pwd rsalt 1000 (bytes "sha256") 64 = Some pk ->
  derive_key stack (disk_slot rsalt) pwd = Done (inr (pk ++ drop (length pk) stack)).
Proof.
  intros E. pose proof (pbkdf2_length _ _ _ _ _ _ E) as Hl. unfold derive_key. cbv zeta.
  cbn [disk_slot ks_kdf ks_area kdf_type kdf_salt kdf_iterations kdf_hash area_key_size]. rewrite bool_decide_true by done.
  rewrite E. rewrite decide_False; [done|]. rewrite Hl. unfold sizeof_key. lia.
Qed.

Lemma add_disk_key_ok h p n d e rnd digest key pk :
  disk_node h p n -> MIN_DEVICE_BYTES <= Z.of_nat (length (n_data n)) -> d = opened (n_data n) true -> random_ok rnd digest ->
  describes2 d e (volume_key_of rnd) (replicate 64 None) -> objects e = disk_objects rnd digest ->
  key <> [] -> vic_pbkdf2 key (cr_slot_salt rnd) 1000 (bytes "sha256") 64 = Some pk -> json_fits (keyed_objects rnd digest) ->
  exists d' e',
    crypt_keyslot_add_by_key calloc ja_malloc 0 stack CRYPT_ANY_SLOT None 0 key 0 (cr_slot_salt rnd) (cr_slot_split rnd)
      (mk_cstate (formatted_handle p rnd d) h) =
      Done (inr tt, mk_cstate (formatted_handle p rnd d') (written_host h p (file d'))) /\
    describes2 d' e' (volume_key_of rnd) (Some key :: replicate 63 None) /\ objects e' = keyed_objects rnd digest /\
    same_dev d d' /\ h_uuid (phdr e') = h_uuid (phdr e).
Proof.
  intros D Hsz Hd R Hde Ho Hk Hpk Hfit. pose proof (volume_key_length _ _ R) as Hvl. pose proof R as [_ _ _ _ R5 _ R7 R8].
  assert (_get_integrity_type e = []) as Hit by (unfold _get_integrity_type, ext_segment; by rewrite Ho).
  destruct (add_described2 calloc stack calloc_true d e (volume_key_of rnd) (replicate 64 None) 0 disk_cipher (bytes "pbkdf2")
    disk_kdf key (pk ++ drop (length pk) stack) (cr_slot_salt rnd) (cr_slot_split rnd) (disk_slot (cr_slot_salt rnd))) as [Ha _].
  { exact Hde. } { reflexivity. } { intros j Hj. lia. }
  { split; [done|apply (fo_hash _ _ _ _ _ _ _ R5)| |done| |].
    - unfold int_ok. cbn [vk_iterations vk_time vk_memory vk_cpus disk_kdf]. lia.
    - rewrite Hit, Hvl. vm_compute. discriminate.
    - split; [vm_compute; lia|done]. }
  { by apply disk_new_slot. }
  { split; [done|apply (fo_hash _ _ _ _ _ _ _ R5)]. }
  { by rewrite Hvl. }
  { by apply disk_slot_derive. }
  { unfold inside, slot_block, slot_blocks, area_bytes. rewrite Hvl, Hd. cbn [offset size opened].
    change (vic_round_up (4000 * Z.of_nat 64) 4096) with 258048. change (258048 / 512) with 504. unfold MIN_DEVICE_BYTES in Hsz. lia. }
  rewrite Ho in Ha. destruct (Ha Hfit) as (d' & e' & E & Ho' & Hd' & Hs' & Hu'). exists d', e'. split; [|done].
  unfold crypt_keyslot_add_by_key. erewrite cm_ok by reflexivity. erewrite cm_ok by reflexivity. erewrite cm_ok by reflexivity.
  erewrite cm_ok by reflexivity. cbv zeta. rewrite (bool_decide_eq_false_2 (key = [])) by done.
  erewrite cm_ok by reflexivity. erewrite cm_ok by reflexivity. erewrite cm_ok by reflexivity.
  cbn [cd]. change (_is_luks1 (type (formatted_handle p rnd d))) with false. change (_is_luks2 (type (formatted_handle p rnd d))) with true.
  cbv iota. cbn [luks2_pbkdf luks2_cipher formatted_handle pb_hash pb_iterations pb_type time_ms max_memory_kb parallel_threads disk_pbkdf
    volume_key volume_key_size]. rewrite take_app_le, take_ge by (rewrite Hvl; vm_compute; lia).
  erewrite cm_ok.
  2:{ eapply (call_device_ok _ _ d _ d' n true); [reflexivity|exact (dn_node _ _ _ D)|exact Hd|].
      unfold luks2_add_key_by_master_key. rewrite (vm_ok _ _ _ _ _ (described_valid calloc stack d e _ _ _ Hde)).
      erewrite vm_ok by reflexivity. cbv beta iota.
      rewrite (vm_ok _ _ _ _ _ (described_read2 calloc ja_malloc stack calloc_true malloc_true d e _ _ Hde)). exact E. }
  reflexivity.
Qed.

(** ** Activating *)

(** Reading does not depend on the mode of the descriptor. *)
Lemma read_mode data : luks2_read_hdr calloc ja_malloc 0 (opened data false) = luks2_read_hdr calloc ja_malloc 0 (opened data true).
Proof. reflexivity. Qed.
Lemma candidate_mode data w ks pwd : candidate calloc stack (opened data w) ks pwd = candidate calloc stack (opened data true) ks pwd.
Proof. reflexivity. Qed.
Lemma find_mode data w o pwd i l :
  find_keyslots calloc stack (opened data w) o pwd i l = find_keyslots calloc stack (opened data true) o pwd i l.
Proof.
  revert i. induction l as [|ks l IH]; intros i; [done|]. cbn [find_keyslots]. rewrite candidate_mode.
  case_bool_decide; [done|]. destruct (candidate calloc stack (opened data true) ks pwd) as [[?|?]|]; [done| |done].
  cbn [mbind outcome_bind]. destruct (check_digest o i _) as [|[]]; done.
Qed.

Lemma first_slot_found d e mk key pws :
  describes2 d e mk (Some key :: pws) -> find_keyslots calloc stack d (objects e) key 0 (keyslots2 (objects e)) = Done (inr (0%nat, mk)).
Proof.
  intros Hde. pose proof (find_digest_described calloc stack d e mk _ 0 key Hde eq_refl) as Hdg.
  destruct (d2_slots _ _ _ _ _ _ Hde 0%nat (Some key) eq_refl) as (ks & Hks & Ha & Hin & Hc).
  apply (find_keyslots_skip calloc stack d (objects e) key (keyslots2 (objects e)) 0 0 ks mk); try done.
  - intros j k Hj. lia.
  - by rewrite (sa_type _ _ _ Ha).
Qed.

Hypothesis works : mapper_works.

(** The mapping of a disk: its payload, with the volume key. *)
Definition maps_disk (h : host) (name p : text) (mk : list Z) (sectors : Z) : Prop :=
  exists u params, mapper h !! name = Some (mk_dm 0 (sectors - 32768) (bytes "crypt") params (Some u) false) /\
    read_crypt params = Some (mk_crypt disk_cipher mk 0 p 32768).

Lemma open_payload_ok h p n e mk name w :
  disk_node h p n -> MIN_DEVICE_BYTES <= Z.of_nat (length (n_data n)) -> Forall is_byte mk -> (1 <= length mk <= 128)%nat ->
  ext_segment e = mk_segment (bytes "crypt") OVERHEAD_BYTES 0 (2 ^ 64 - 1) disk_cipher 512 (mk_integrity [] [] []) ->
  vic_uuid_valid (cstr (h_uuid (phdr e))) = true -> (length name <= 32)%nat ->
  exists h', open_payload calloc fuel (opened (n_data n) w) e p name mk h = Done (inr tt, h') /\
    maps_disk h' name p mk (Z.of_nat (length (n_data n)) / 512) /\ only_maps h h' name.
Proof.
  intros D Hsz Hb Hl Hs Hu Hn. unfold open_payload, _get_integrity_type, _get_encryption. rewrite Hs.
  cbn [seg_offset seg_integrity int_type seg_encryption]. change (OVERHEAD_BYTES / VIC_SECTOR_SIZE) with 32768. cbv zeta.
  assert (_get_payload_size_in_sectors (opened (n_data n) w) 32768 = inr (Z.of_nat (length (n_data n)) / 512 - 32768)) as ->.
  { unfold _get_payload_size_in_sectors, vic_blockdev_get_num_blocks. cbn [size offset block_size opened].
    pose proof (dn_size _ _ _ D). rewrite u64_small, Z.sub_0_r by lia. rewrite (proj2 (Z.leb_gt _ _)); [done|].
    apply Z.div_lt_upper_bound in Hsz || idtac. unfold MIN_DEVICE_BYTES in Hsz.
    pose proof (Z.div_le_mono 17825792 (Z.of_nat (length (n_data n))) 512 ltac:(lia) Hsz). change (17825792 / 512) with 34816 in *. lia. }
  erewrite hm_ok by reflexivity. rewrite bool_decide_true by done.
  destruct (create_crypt_ok calloc fuel calloc_true works (bytes "CRYPT-LUKS2") name p (cstr (h_uuid (phdr e)))
    (Z.of_nat (length (n_data n)) / 512 - 32768) disk_cipher mk 32768 h n) as (h' & u & params & E & Hm & Hr & Ho); try done.
  - apply D.
  - apply D.
  - apply D.
  - apply D.
  - by repeat constructor.
  - vm_compute. lia.
  - vm_compute. lia.
  - exists h'. split; [exact E|]. split; [by exists u, params|done].
Qed.

Lemma activate_disk_ok h p n e mk key pws name ro :
  disk_node h p n -> MIN_DEVICE_BYTES <= Z.of_nat (length (n_data n)) -> describes2 (opened (n_data n) true) e mk (Some key :: pws) ->
  key <> [] -> Forall is_byte mk ->
  ext_segment e = mk_segment (bytes "crypt") OVERHEAD_BYTES 0 (2 ^ 64 - 1) disk_cipher 512 (mk_integrity [] [] []) ->
  vic_uuid_valid (cstr (h_uuid (phdr e))) = true -> (length name <= 32)%nat ->
  exists h', lkl_activate_crypto_disk_thread calloc ja_malloc 0 stack fuel uninit p name ro key h = Done h' /\
    maps_disk h' name p mk (Z.of_nat (length (n_data n)) / 512) /\ only_maps h h' name.
Proof.
  intros D Hsz Hde Hk Hb Hs Hu Hn.
  destruct (open_payload_ok h p n e mk name (negb ro) D Hsz Hb (d2_key _ _ _ _ _ _ Hde) Hs Hu Hn) as (h' & E & Hm & Ho).
  exists h'. split; [|done].
  unfold lkl_activate_crypto_disk_thread. rewrite (start_ok h p n D). cbn [mbind outcome_bind].
  set (c1 := set_luks2 [] no_pbkdf (Live e) (set_type CRYPT_LUKS2 (new_handle p (opened (n_data n) false)))).
  assert (crypt_load calloc ja_malloc 0 (Some CRYPT_LUKS2) NoParams uninit
    (mk_cstate (new_handle p (opened (n_data n) false)) h) = Done (inr tt, mk_cstate c1 h)) as El.
  { unfold crypt_load. erewrite cm_ok by reflexivity. erewrite cm_ok by reflexivity. erewrite cm_ok by reflexivity. cbv zeta.
    change (bool_decide (default CRYPT_LUKS1 (Some CRYPT_LUKS2) = CRYPT_LUKS1)) with false.
    change (bool_decide (default CRYPT_LUKS1 (Some CRYPT_LUKS2) = CRYPT_LUKS2)) with true. cbv iota.
    erewrite cm_ok by reflexivity.
    erewrite cm_ok.
    2:{ unfold use_bd. cbn [cd on_host set_type new_handle bd path].
        rewrite (opened_refresh h p _ n false (dn_node _ _ _ D) eq_refl). reflexivity. }
    rewrite read_mode, (read_stored calloc ja_malloc calloc_true malloc_true _ e (d2_stored _ _ _ _ _ _ Hde)). reflexivity. }
  rewrite (must_ok _ _ _ El). cbn [mbind outcome_bind].
  set (c2 := set_bd (Live (opened (n_data n) (negb ro))) ro c1).
  assert (activate_flags (if ro then CRYPT_ACTIVATE_READONLY else 0) (mk_cstate c1 h) = Done (inr tt, mk_cstate c2 h)) as Ef.
  { unfold activate_flags. destruct ro.
    - by erewrite cm_ok by reflexivity.
    - erewrite cm_ok by reflexivity. change (truthy (Z.land 0 CRYPT_ACTIVATE_READONLY)) with false. cbv iota.
      unfold echeck_call. rewrite (force_open_ok c1 h n); [reflexivity|reflexivity|reflexivity|exact D]. }
  assert (open_by_passphrase calloc ja_malloc 0 stack fuel name key (mk_cstate c2 h) =
    Done (inr tt, mk_cstate (set_luks2 [] no_pbkdf Freed c2) h')) as Eo.
  { unfold open_by_passphrase. erewrite cm_ok by reflexivity.
    erewrite cm_ok.
    2:{ unfold use_bd. cbn [cd on_host c2 c1 set_bd set_luks2 set_type new_handle bd path].
        rewrite (opened_refresh h p _ n (negb ro) (dn_node _ _ _ D) eq_refl). reflexivity. }
    cbn [cd luks2_hdr c2 c1 set_bd set_luks2 path set_type new_handle].
    erewrite cm_ok.
    2:{ unfold call_host. cbn [on_host cd]. unfold luks2_open_by_passphrase.
        change (_is_valid_device (opened (n_data n) (negb ro))) with true. cbn [negb orb].
        rewrite (bool_decide_eq_false_2 (key = [])) by done. erewrite hm_ok by reflexivity. cbv beta iota.
        rewrite find_mode, (first_slot_found _ _ _ _ _ Hde). erewrite hm_ok by reflexivity. cbv beta iota.
        rewrite E. reflexivity. }
    erewrite cm_ok by reflexivity. reflexivity. }
  assert (crypt_activate_by_passphrase calloc ja_malloc 0 stack fuel name CRYPT_ANY_SLOT key
    (if ro then CRYPT_ACTIVATE_READONLY else 0) (mk_cstate c1 h) =
    Done (inr tt, mk_cstate (set_dm_name (strlcpy (Z.to_nat PATH_MAX) name) (set_luks2 [] no_pbkdf Freed c2)) h')) as Ea.
  { unfold crypt_activate_by_passphrase. erewrite cm_ok by reflexivity. rewrite (bool_decide_eq_false_2 (key = [])) by done.
    erewrite cm_ok by reflexivity. erewrite cm_ok by reflexivity. erewrite cm_ok by reflexivity. erewrite cm_ok by reflexivity.
    cbn [cd]. change (_is_luks1 (type c1)) with false. change (_is_luks2 (type c1)) with true. cbv iota.
    rewrite (cm_ok _ _ _ _ _ Ef), (cm_ok _ _ _ _ _ Eo). unfold set_mapped, STRLCPY. rewrite decide_False by (unfold PATH_MAX; lia).
    erewrite cm_ok by reflexivity. reflexivity. }
  rewrite (must_ok _ _ _ Ea). reflexivity.
Qed.

Lemma generated_text bs : Forall is_byte bs -> Forall (fun c => c <> 0) (vic_uuid_generate bs).
Proof.
  unfold vic_uuid_generate. generalize 0%nat. intros i Hb. revert i. induction Hb as [|b bs Hb _ IH]; intros i; [constructor|].
  cbn [generate_from]. rewrite !Forall_app. split; [case_bool_decide; by repeat constructor|]. split; [|apply IH].
  eapply Forall_impl; [by apply hex2_plain|]. intros c (x & Hx & ->). unfold hex_digit. bcase; lia.
Qed.

Lemma disk_uuid_valid rnd digest :
  random_ok rnd digest -> vic_uuid_valid (cstr (pad 40 (vic_uuid_generate (r_uuid (cr_format rnd))))) = true.
Proof.
  intros [_ _ R3 R4 _ _ _ _]. unfold pad. rewrite cstr_zeros by (by apply generated_text). by apply generated_valid.
Qed.

Lemma same_dev_length data d : same_dev (opened data true) d -> length (file d) = length data.
Proof. intros ([[_ Hf _ _ _] _ _ _] & _ & _ & Hfs). cbn [full_size opened] in Hfs. lia. Qed.

(** The disk after it was created: a volume with the given key. *)
Lemma create_disk_ok h p n rnd digest key pk :
  disk_node h p n -> MIN_DEVICE_BYTES <= Z.of_nat (length (n_data n)) -> random_ok rnd digest -> key <> [] ->
  vic_pbkdf2 key (cr_slot_salt rnd) 1000 (bytes "sha256") 64 = Some pk -> json_fits (keyed_objects rnd digest) ->
  exists f e h', lkl_create_crypto_disk_thread calloc ja_malloc 0 stack format_integrity p key rnd h = Done h' /\
    disk_node h' p (mk_node true true f) /\ length f = length (n_data n) /\
    describes2 (opened f true) e (volume_key_of rnd) (Some key :: replicate 63 None) /\ objects e = keyed_objects rnd digest /\
    h_uuid (phdr e) = pad 40 (vic_uuid_generate (r_uuid (cr_format rnd))) /\ mapper h' = mapper h /\
    forall q, q <> p -> files h' !! q = files h !! q.
Proof.
  intros D Hsz R Hk Hpk Hfit.
  destruct (format_disk_ok h p n rnd digest D Hsz R) as (d & e & E1 & Hd & Ho & Hs & Hu).
  pose proof (same_dev_length _ _ Hs) as Hl. pose proof (same_dev_opened _ _ Hs) as Hop.
  pose proof (written_node h p n (file d) D Hl) as D1.
  destruct (add_disk_key_ok _ p _ d e rnd digest key pk D1) as (d' & e' & E2 & Hd' & Ho' & Hs' & Hu'); try done.
  { cbn [n_data]. by rewrite Hl. }
  pose proof (same_dev_trans _ _ _ Hs Hs') as Hs2. pose proof (same_dev_length _ _ Hs2) as Hl2.
  pose proof (written_node _ p _ (file d') D1 ltac:(cbn [n_data]; lia)) as D2. cbn [n_block n_writable] in D2.
  rewrite (dn_block _ _ _ D), (dn_writable _ _ _ D) in D2.
  exists (file d'), e'. eexists. split; [|split; [exact D2|]].
  { unfold lkl_create_crypto_disk_thread. rewrite (start_ok h p n D). cbn [mbind outcome_bind].
    rewrite (must_ok _ _ _ E1). cbn [mbind outcome_bind]. rewrite (must_ok _ _ _ E2). reflexivity. }
  split_and!; [done|by rewrite <- (same_dev_opened _ _ Hs2)|done|congruence|done|].
  intros q Hq. cbn [files written_host]. by rewrite !lookup_alter_ne.
Qed.

(** C9. An encrypted disk that SGX-LKL creates can be activated with its key:
    on a block device of at least 17 megabytes, [lkl_create_crypto_disk_thread]
    formats a LUKS2 volume with a random volume key and adds the disk's key, and
    [lkl_activate_crypto_disk_thread] with this key, for writing or for reading
    only, finds the volume key again and maps the payload: the device mapper has
    a dm-crypt device of this name with exactly this key, cipher, offset and size.
    No other mapped device and no other file changes. *)
Theorem created_disk_activates h p n rnd digest key pk name ro :
  disk_node h p n -> MIN_DEVICE_BYTES <= Z.of_nat (length (n_data n)) -> random_ok rnd digest -> key <> [] ->
  vic_pbkdf2 key (cr_slot_salt rnd) 1000 (bytes "sha256") 64 = Some pk -> json_fits (keyed_objects rnd digest) ->
  (length name <= 32)%nat -> p <> mapper_path name ->
  exists h1 h2, lkl_create_crypto_disk_thread calloc ja_malloc 0 stack format_integrity p key rnd h = Done h1 /\
    lkl_activate_crypto_disk_thread calloc ja_malloc 0 stack fuel uninit p name ro key h1 = Done h2 /\
    maps_disk h2 name p (volume_key_of rnd) (Z.of_nat (length (n_data n)) / 512) /\
    (forall n', n' <> name -> mapper h2 !! n' = mapper h !! n') /\
    (forall q, q <> p -> q <> mapper_path name -> files h2 !! q = files h !! q).
Proof.
  intros D Hsz R Hk Hpk Hfit Hn Hpm.
  destruct (create_disk_ok h p n rnd digest key pk D Hsz R Hk Hpk Hfit) as (f & e & h1 & E1 & D1 & Hl & Hd & Ho & Hu & Hm & Hf).
  destruct (activate_disk_ok h1 p (mk_node true true f) e (volume_key_of rnd) key (replicate 63 None) name ro D1)
    as (h2 & E2 & M2 & O1 & O2); try done.
  { cbn [n_data]. by rewrite Hl. }
  { apply Forall_take, R. }
  { unfold ext_segment. by rewrite Ho. }
  { rewrite Hu. by eapply disk_uuid_valid. }
  exists h1, h2. cbn [n_data] in M2. rewrite Hl in M2. split_and!; [done|done|done| |].
  - intros n' Hne. by rewrite O1, Hm.
  - intros q Hq Hqm. by rewrite O2, Hf.
Qed.
End Life.

(** ** A sample disk *)

(** A device mapper that does what it is asked for. *)
Definition toy_run (t : dm_task) (h : host) : bool * host :=
  (true, mk_host (files h)
     (match t_type t with
      | DM_DEVICE_CREATE => partial_alter (fun _ => device_of t) (t_name t) (mapper h)
      | DM_DEVICE_REMOVE => delete (t_name t) (mapper h)
      end) (S (runs h))).

#[export, refine] Instance toy_mapper : DeviceMapper := {
  dm_task_create _ := true; dm_task_set _ := true; dm_task_run := toy_run; dm_task_get_info _ _ := Some true }.
Proof.
  - intros t h h' Ht [= <-]. cbn [mapper]. rewrite Ht. apply lookup_partial_alter_eq.
  - intros t h h' Ht [= <-]. cbn [mapper]. rewrite Ht. apply lookup_delete_eq.
  - intros t h h' E. discriminate E.
  - intros t h r h' n [= _ <-] Hn. cbn [mapper]. destruct (t_type t); [by rewrite lookup_partial_alter_ne|by rewrite lookup_delete_ne].
  - intros t h r h' q [= _ <-] _ _. done.
Defined.
#[export] Instance toy_loops : LoopDevices := {
  loop_get_free _ := None; loop_set_fd _ _ := Refused; loop_is_block _ := false; loop_open _ _ := false;
  loop_set_status _ _ := false; loop_get_status _ _ := None }.

Lemma toy_mapper_works : mapper_works.
Proof. split_and!; intros; reflexivity. Qed.

Definition sample_path : text := bytes "/dev/vdb".
Definition sample_node : node := mk_node true true (replicate (Z.to_nat 17825792) 0).
Definition sample_host : host := mk_host {[ sample_path := sample_node ]} ∅ 0.
Definition sample_random : create_random :=
  mk_create_random (mk_random (replicate 128 5) (replicate 64 1) (replicate 32 2) (replicate 16 9)) (replicate 32 6)
    (replicate (Z.to_nat 256000) 7).
Definition sample_digest : list Z := replicate 32 (byte_sum (replicate 64 5)).

Lemma sample_disk_node : disk_node sample_host sample_path sample_node.
Proof.
  assert (Z.of_nat (length (n_data sample_node)) = 17825792) as Hl.
  { cbn [n_data sample_node]. rewrite length_replicate, Z2Nat.id by lia. reflexivity. }
  split; rewrite ?Hl.
  - apply lookup_singleton_eq.
  - reflexivity.
  - reflexivity.
  - reflexivity.
  - lia.
  - vm_compute. lia.
  - by repeat constructor.
Qed.

Lemma sample_random_ok : random_ok sample_random sample_digest.
Proof.
  split; cbn [sample_random cr_format r_key r_uuid r_salt r_digest_salt cr_slot_salt cr_slot_split].
  - rewrite length_replicate. lia.
  - by apply Forall_replicate.
  - apply length_replicate.
  - by apply Forall_replicate.
  - constructor; try done; try (by apply Forall_replicate).
    + split; vm_compute; lia.
    + split; [vm_compute; lia|done].
    + split; [by rewrite length_replicate|by apply Forall_replicate].
    + exists 32. split; [done|]. unfold vic_pbkdf2. rewrite decide_False by (intros [|[|]]; [done..|lia]). done.
  - vm_compute. reflexivity.
  - split; [by rewrite length_replicate|by apply Forall_replicate].
  - rewrite length_replicate, Z2Nat.id by lia. reflexivity.
Qed.

Lemma created_disk_activates_witness :
  exists h1 h2,
    lkl_create_crypto_disk_thread enough enough_json 0 sample_stack no_integrity sample_path [112; 119] sample_random sample_host = Done h1 /\
    lkl_activate_crypto_disk_thread enough enough_json 0 sample_stack 1 [] sample_path (bytes "cryptb") false [112; 119] h1 = Done h2 /\
    maps_disk h2 (bytes "cryptb") sample_path (volume_key_of sample_random) (Z.of_nat (length (n_data sample_node)) / 512) /\
    (forall n', n' <> bytes "cryptb" -> mapper h2 !! n' = mapper sample_host !! n') /\
    (forall q, q <> sample_path -> q <> mapper_path (bytes "cryptb") -> files h2 !! q = files sample_host !! q).
Proof.
  apply (created_disk_activates enough enough_json sample_stack 1 no_integrity [] (fun _ => eq_refl) (fun _ _ => eq_refl)
    toy_mapper_works sample_host sample_path sample_node sample_random sample_digest [112; 119] (replicate 64 (byte_sum [112; 119]))
    (bytes "cryptb") false sample_disk_node).
  - cbn [sample_node n_data]. rewrite length_replicate, Z2Nat.id by lia. unfold MIN_DEVICE_BYTES. lia.
  - exact sample_random_ok.
  - discriminate.
  - reflexivity.
  - vm_compute. reflexivity.
  - vm_compute. lia.
  - discriminate.
Defined.
