(* ===== verification/HandleFaults.v ===== *)
(** * HandleFaults: what a handle of libcryptsetup still points to

    [luks2_open_by_passphrase] frees the header that the handle keeps, and a
    device that cannot be opened for writing is closed first.  In both cases the
    handle keeps its pointer, and the next operation uses it. *)

From Stdlib Require Import String.
From stdpp Require Import gmap.
From S2P Require Import Prelude JsonText VicCrypto Blockdev Luks1Header Luks1 Luks2Header Luks2Json Luks2 DeviceMapper.
From S2P Require Import Luks1Props Luks2Props Luks2Format DeviceMapperProps LuksOpen Cryptsetup Disks DiskProps.

Section Faults.
Context `{Algorithms} `{Ciphers} `{Argon2} `{Base64} `{DeviceMapper} `{LoopDevices}.
Variable calloc : Z -> bool.
Variable ja_malloc : nat -> Z -> bool.
Variable junk : Z.
Variable stack : list Z.
Variable fuel : nat.

(** A handle after [crypt_load] of a LUKS2 volume. *)
Record loaded (c : crypt_device) (e : luks2_ext_hdr_t) : Prop := {
  lo_magic : cd_magic c = MAGIC; lo_type : type c = CRYPT_LUKS2; lo_unmapped : dm_name c = [];
  lo_bd : exists d, bd c = Live d; lo_hdr : luks2_hdr c = Live e }.

Abbreviation activate := (crypt_activate_by_passphrase calloc ja_malloc junk stack fuel).

(** A handle whose device may be activated. *)
Record unmapped (c : crypt_device) : Prop := {
  um_magic : cd_magic c = MAGIC; um_type : type c = CRYPT_LUKS2; um_name : dm_name c = []; um_bd : exists d, bd c = Live d }.
Lemma loaded_unmapped c e : loaded c e -> unmapped c.
Proof. by intros []. Qed.

(** From the checks to the opening of the volume. *)
Lemma activate_unmapped c h name key :
  unmapped c -> key <> [] ->
  activate name CRYPT_ANY_SLOT key CRYPT_ACTIVATE_READONLY (mk_cstate c h) =
    (_ ← open_by_passphrase calloc ja_malloc junk stack fuel name key; set_mapped name) (mk_cstate c h).
Proof.
  intros [L1 L2 L3 [d L4]] Hk. unfold crypt_activate_by_passphrase. erewrite cm_ok by reflexivity. cbn [cd].
  unfold _valid_cd. rewrite L1, L2, L3, L4, (bool_decide_eq_false_2 (key = [])) by done.
  erewrite cm_ok by reflexivity. erewrite cm_ok by reflexivity. erewrite cm_ok by reflexivity. erewrite cm_ok by reflexivity.
  change (_is_luks1 CRYPT_LUKS2) with false. change (_is_luks2 CRYPT_LUKS2) with true. cbv iota.
  by erewrite cm_ok by reflexivity.
Qed.

(** Opening frees the header, whatever it answers. *)
Lemma open_frees c h e d name key r s' :
  luks2_hdr c = Live e -> bd c = Live d ->
  open_by_passphrase calloc ja_malloc junk stack fuel name key (mk_cstate c h) = Done (r, s') ->
  cd s' = set_luks2 (luks2_cipher c) (luks2_pbkdf c) Freed c.
Proof.
  intros Hh Hb. unfold open_by_passphrase. erewrite cm_ok by reflexivity.
  erewrite cm_ok by (unfold use_bd; cbn [cd]; rewrite Hb; reflexivity). cbn [cd on_host]. rewrite Hh.
  destruct (luks2_open_by_passphrase calloc ja_malloc junk stack fuel (refresh h (path c) d) (Some e) (path c) name key h)
    as [[a h']|f] eqn:E.
  - erewrite cm_ok by (unfold call_host; cbn [on_host cd]; rewrite E; reflexivity).
    erewrite cm_ok by reflexivity. cbn [cd on_host]. destruct a as [[]|?]; intros Ea; by injection Ea as <- <-.
  - unfold mbind at 1, CM_bind at 1, call_host. cbn [on_host cd]. rewrite E. done.
Qed.

Lemma freed_size c : cd_magic c = MAGIC -> type c = CRYPT_LUKS2 -> luks2_hdr c = Freed -> crypt_get_volume_key_size c = Failed (BadPointer 0).
Proof. intros Hm Ht Hh. unfold crypt_get_volume_key_size, _valid_cd. by rewrite Hm, Ht, Hh. Qed.
Lemma freed_deactivate c h :
  type c = CRYPT_LUKS2 -> dm_name c = [] -> luks2_hdr c = Freed -> crypt_deactivate_by_name 0 (mk_cstate c h) = Failed (BadPointer 0).
Proof.
  intros Ht Hn Hh. unfold crypt_deactivate_by_name. change (truthy 0) with false. cbv iota. erewrite cm_ok by reflexivity. cbn [cd].
  rewrite Ht. change (_is_luks1 CRYPT_LUKS2) with false. change (_is_luks2 CRYPT_LUKS2) with true. cbv iota.
  erewrite cm_ok by (unfold close_mapped; erewrite cm_ok by reflexivity; cbn [cd]; rewrite Hn; reflexivity). by rewrite Hh.
Qed.
Lemma freed_activate c h name key :
  unmapped c -> luks2_hdr c = Freed -> key <> [] ->
  activate name CRYPT_ANY_SLOT key CRYPT_ACTIVATE_READONLY (mk_cstate c h) = Failed (BadPointer 0).
Proof.
  intros U Hh Hk. rewrite activate_unmapped by done. destruct U as [_ _ _ [d Hb]]. unfold mbind at 1, CM_bind at 1.
  unfold open_by_passphrase. erewrite cm_ok by reflexivity.
  erewrite cm_ok by (unfold use_bd; cbn [cd]; rewrite Hb; reflexivity). cbn [cd]. by rewrite Hh.
Qed.

(** C26. A LUKS2 volume that was loaded and is activated with a passphrase,
    rightly or wrongly: the header is freed and the handle still points to it.
    The size of the volume key is then read from freed memory, and after a wrong
    passphrase both another try and deactivating the handle use the freed header
    (or free it a second time), whatever passphrase is given. *)
Theorem passphrase_frees_header c h e name key r s' :
  loaded c e -> key <> [] -> activate name CRYPT_ANY_SLOT key CRYPT_ACTIVATE_READONLY (mk_cstate c h) = Done (r, s') ->
  luks2_hdr (cd s') = Freed /\
  crypt_get_volume_key_size (cd s') = Failed (BadPointer 0) /\
  (r = inl (- EIO) -> crypt_deactivate_by_name 0 s' = Failed (BadPointer 0) /\
     forall name' key', key' <> [] ->
       activate name' CRYPT_ANY_SLOT key' CRYPT_ACTIVATE_READONLY s' = Failed (BadPointer 0)).
Proof.
  intros L Hk. pose proof (loaded_unmapped _ _ L) as U. rewrite (activate_unmapped c h name key U Hk).
  destruct L as [L1 L2 L3 [d L4] L5].
  destruct (open_by_passphrase calloc ja_malloc junk stack fuel name key (mk_cstate c h)) as [[a s1]|f] eqn:E;
    [|unfold mbind, CM_bind; by rewrite E].
  pose proof (open_frees c h e d name key a s1 L5 L4 E) as Hc. unfold mbind at 1, CM_bind at 1. rewrite E.
  destruct s1 as [c1 h1]. cbn [cd] in Hc. destruct a as [e0|[]].
  - intros Ea. injection Ea as <- <-. cbn [cd]. subst c1. split; [done|]. split; [exact (freed_size (set_luks2 _ _ Freed c) L1 L2 eq_refl)|]. intros _.
    split; [exact (freed_deactivate (set_luks2 _ _ Freed c) _ L2 L3 eq_refl)|]. intros name' key' Hk'.
    apply freed_activate; [|reflexivity|exact Hk']. split; [exact L1|exact L2|exact L3|by exists d].
  - intros Ea. assert (r = inr tt \/ r = inl (- EOVERFLOW)) as Hr.
    { revert Ea. unfold set_mapped, STRLCPY. case_decide; intros Ea; injection Ea as <- _; auto. }
    assert (exists nm, cd s' = set_dm_name nm c1) as [nm ->].
    { revert Ea. unfold set_mapped, STRLCPY. case_decide; intros Ea; injection Ea as _ <-; by eexists. }
    subst c1. split; [done|]. split; [exact (freed_size (set_dm_name nm (set_luks2 _ _ Freed c)) L1 L2 eq_refl)|]. by destruct Hr as [-> | ->].
Qed.

(** A new handle: the device is open for reading. *)
Lemma init_handle p h c :
  crypt_init calloc p h = inr c -> cd_magic c = MAGIC /\ readonly c = true /\ path c = p /\ hbd c = Null /\ exists d, bd c = Live d.
Proof.
  unfold crypt_init. case_match; [done|]. case_match; [done|].
  destruct (vic_blockdev_open (open_contents h p VIC_RDONLY) VIC_RDONLY 0) as [[] [d|]]; try done.
  intros [= <-]. cbn. split_and!; try done. by exists d.
Qed.

Lemma open_refused h p n : files h !! p = Some n -> n_writable n = false -> open_contents h p VIC_RDWR = None.
Proof. intros E Hw. unfold open_contents. by rewrite E; cbn [mbind option_bind]; rewrite Hw. Qed.

Lemma force_open_refused c h n :
  readonly c = true -> (exists d, bd c = Live d) -> files h !! path c = Some n -> n_writable n = false ->
  _force_open_for_write (mk_cstate c h) = Done (inl (- EIO), mk_cstate (set_bd Freed true c) h).
Proof.
  intros Hr [d Hb] Hn Hw. unfold _force_open_for_write. erewrite cm_ok by reflexivity. cbn [cd]. rewrite Hr, Hb.
  erewrite cm_ok by reflexivity. erewrite cm_ok.
  2:{ unfold call_host. cbn [on_host cd]. unfold open_blockdev. erewrite hm_ok by reflexivity.
      rewrite (open_refused h (path c) n Hn Hw). reflexivity. }
  reflexivity.
Qed.

(** Formatting a file that may only be read: [_force_open_for_write] closes
    the device of the handle and cannot open it for writing.  [crypt_format]
    answers the positive number EIO, where every error of the interface is
    negative, and [crypt_free], which has to follow, closes the device a second
    time. *)
Theorem readonly_file_dangles format_integrity p h n c t cipher_name cipher_mode uuid key key_size params rnd :
  files h !! p = Some n -> n_writable n = false -> crypt_init calloc p h = inr c ->
  _valid_type (default CRYPT_LUKS1 t) = true -> 0 < key_size <= Z.of_nat sizeof_key ->
  exists s', answer (crypt_format calloc format_integrity t cipher_name cipher_mode uuid key key_size params rnd) (mk_cstate c h) =
      Done (EIO, s') /\
    0 < EIO /\ on_host s' = h /\ crypt_free c = Done tt /\ crypt_free (cd s') = Failed (BadPointer 0).
Proof.
  intros Hn Hw Hc Ht Hk. destruct (init_handle _ _ _ Hc) as (Hm & Hr & Hp & Hh & d & Hb). unfold answer, crypt_format.
  rewrite <- Hp in Hn. eexists. split; [|split; [done|]].
  - erewrite cm_ok by reflexivity. erewrite cm_ok by (cbn [cd]; unfold _valid_cd; rewrite Hm, Ht; reflexivity).
    erewrite cm_ok by (rewrite (proj2 (Z.eqb_neq key_size 0)), (proj2 (Z.leb_le _ _)) by lia; reflexivity).
    erewrite cm_ok by reflexivity. unfold echeck_call. cbn [cd on_host].
    unfold mbind at 1, CM_bind at 1. erewrite force_open_refused; [reflexivity|exact Hr|by exists d|exact Hn|done].
  - cbn [on_host cd]. split; [done|]. unfold crypt_free. cbn [bd hbd set_bd]. by rewrite Hb, Hh.
Qed.
End Faults.

Definition sample_handle : crypt_device :=
  mk_cd MAGIC CRYPT_LUKS2 [] (Live (mk_bd [] 0 0 0 512 false false)) Null (bytes "/dev/vdb") true (replicate 128 0) 0 Null []
    no_pbkdf (Live sample_ext) None.
Definition empty_host : host := mk_host ∅ ∅ 0.

Lemma passphrase_frees_header_witness :
  exists s', crypt_activate_by_passphrase enough enough_json 0 sample_stack 1 (bytes "cryptb") CRYPT_ANY_SLOT [112; 119]
      CRYPT_ACTIVATE_READONLY (mk_cstate sample_handle empty_host) = Done (inl (- EIO), s') /\
    crypt_deactivate_by_name 0 s' = Failed (BadPointer 0).
Proof.
  eexists. split; [vm_compute; reflexivity|].
  eapply (passphrase_frees_header enough enough_json 0 sample_stack 1 sample_handle empty_host sample_ext (bytes "cryptb") [112; 119]).
  - split; [reflexivity|reflexivity|reflexivity|by eexists|reflexivity].
  - discriminate.
  - vm_compute. reflexivity.
  - reflexivity.
Defined.

Lemma readonly_file_dangles_witness :
  exists c s', crypt_init enough sample_path (mk_host {[ sample_path := mk_node false false (replicate 512 0) ]} ∅ 0) = inr c /\
    answer (crypt_format enough no_integrity (Some CRYPT_LUKS2) (bytes "aes") (bytes "xts-plain64") None None 64 NoParams
      (cr_format sample_random)) (mk_cstate c (mk_host {[ sample_path := mk_node false false (replicate 512 0) ]} ∅ 0)) = Done (EIO, s') /\
    crypt_free (cd s') = Failed (BadPointer 0).
Proof.
  assert (exists c, crypt_init enough sample_path (mk_host {[ sample_path := mk_node false false (replicate 512 0) ]} ∅ 0) = inr c)
    as [c Hc] by (eexists; vm_compute; reflexivity).
  destruct (readonly_file_dangles enough no_integrity sample_path (mk_host {[ sample_path := mk_node false false (replicate 512 0) ]} ∅ 0)
    (mk_node false false (replicate 512 0)) c (Some CRYPT_LUKS2) (bytes "aes") (bytes "xts-plain64") None None 64 NoParams
    (cr_format sample_random)) as (s' & E & _ & _ & _ & F).
  - apply lookup_singleton_eq.
  - reflexivity.
  - exact Hc.
  - reflexivity.
  - unfold sizeof_key. lia.
  - exists c, s'. split; [exact Hc|]. split; [exact E|exact F].
Defined.
