(* ===== verification/MountProps.v ===== *)
(** * MountProps: only verified disks are mounted (src/lkl/setup.c)

    Which names of the device mapper an operation may change, and which system
    calls are made, are found by rules for the parts of each operation ([keeps],
    [cm_keeps], [dm_steps]).  With them: when [lkl_mount_disks] returns, the
    disks with a root hash are mapped by dm-verity with this root hash, and the
    file systems that were mounted are on these devices. *)

From Stdlib Require Import String.
From stdpp Require Import gmap.
From S2P Require Import Prelude JsonText Env EnclaveConfig VicCrypto Blockdev Verity Luks1Header Luks1 Luks2Header Luks2Json Luks2 DeviceMapper.
From S2P Require Import Luks1Props Luks2Props Luks2Format DeviceMapperProps LuksOpen Cryptsetup Disks DiskProps.

Create HintDb keeps.

(** ** Names of the device mapper *)

(** Devices with a name in [Q] stay as they are. *)
Definition same_names (Q : text -> Prop) (h h' : host) : Prop := forall n, Q n -> mapper h' !! n = mapper h !! n.
Lemma same_names_refl Q h : same_names Q h h.
Proof. by intros n. Qed.
Lemma same_names_trans Q h1 h2 h3 : same_names Q h1 h2 -> same_names Q h2 h3 -> same_names Q h1 h3.
Proof. intros A B n Hn. by rewrite B, A. Qed.
Lemma same_names_eq Q h h' : mapper h' = mapper h -> same_names Q h h'.
Proof. intros E n _. by rewrite E. Qed.
#[export] Hint Resolve same_names_refl : keeps.

Definition keeps {A} (Q : text -> Prop) (m : HM A) : Prop := forall h r h', m h = Done (r, h') -> same_names Q h h'.

Lemma keeps_bind {A B} Q (m : HM A) (k : A -> HM B) : keeps Q m -> (forall a, keeps Q (k a)) -> keeps Q (m ≫= k).
Proof.
  intros Hm Hk h r h'. unfold mbind, HM_bind. destruct (m h) as [[[e|a] h1]|f] eqn:E; [|intros Ek|done].
  - intros [= <- <-]. by eapply Hm.
  - eapply same_names_trans; [by eapply Hm|by eapply Hk].
Qed.
Lemma keeps_ret {A} Q (a : A) : keeps Q (mret a : HM A).
Proof. by intros h r h' [= <- <-]. Qed.
Lemma keeps_raise {A} Q e : keeps Q (hraise e : HM A).
Proof. by intros h r h' [= <- <-]. Qed.
Lemma keeps_host Q : keeps Q the_host.
Proof. by intros h r h' [= <- <-]. Qed.
Lemma keeps_answer {A} Q (s : vic_result_t + A) : keeps Q (of_answer s).
Proof. destruct s; [apply keeps_raise|apply keeps_ret]. Qed.
Lemma keeps_outcome {A} Q (o : outcome (vic_result_t + A)) : keeps Q (of_outcome o).
Proof. intros h r h'. unfold of_outcome. destruct o; [|done]. by intros [= <- <-]. Qed.
Lemma keeps_call Q b : keeps Q (dm_call b).
Proof. destruct b; [apply keeps_ret|apply keeps_raise]. Qed.
Lemma keeps_pure {A} Q (o : outcome A) : keeps Q (fun h => match o with Failed f => Failed f | Done a => Done (inr a, h) end : outcome ((vic_result_t + A) * host)).
Proof. intros h r h'. destruct o; [|done]. by intros [= <- <-]. Qed.
Lemma keeps_failed {A} Q f : keeps Q (fun _ => Failed f : outcome ((vic_result_t + A) * host)).
Proof. by intros h r h'. Qed.
#[export] Hint Resolve keeps_ret keeps_raise keeps_host keeps_answer keeps_outcome keeps_call keeps_pure keeps_failed : keeps.

Lemma keeps_new_task {A} `{DeviceMapper} Q type name (k : dm_task -> HM A) :
  keeps Q (k (mk_task type name None None false false)) -> keeps Q (new_task type name ≫= k).
Proof.
  intros Hk h r h'. unfold mbind at 1, HM_bind at 1, new_task. destruct (dm_task_create type); [|by intros [= <- <-]].
  erewrite hm_ok by reflexivity. destruct (dm_task_set _); [|by intros [= <- <-]].
  erewrite hm_ok by reflexivity. by apply Hk.
Qed.

(** Case analysis down to the parts. *)
Ltac keeps_step :=
  match goal with
  | |- keeps _ (new_task _ _ ≫= _) => apply keeps_new_task
  | |- keeps _ (_ ≫= _) => apply keeps_bind; [|intros ?]
  | |- keeps _ (if ?b then _ else _) => destruct b
  | |- keeps _ (let '(_, _) := ?p in _) => destruct p
  | |- keeps _ (match ?p with _ => _ end) => destruct p
  | |- keeps _ _ => solve [auto with keeps]
  end.
Ltac keeps := repeat (cbv zeta; keeps_step).

Section Names.
Context `{Algorithms} `{Ciphers} `{Argon2} `{Base64} `{DeviceMapper} `{LoopDevices}.
Variable calloc : Z -> bool.
Variable ja_malloc : nat -> Z -> bool.
Variable junk : Z.
Variable stack : list Z.
Variable fuel : nat.
Variable Q : text -> Prop.

Lemma keeps_loop_map path ro : keeps Q (vic_loop_map fuel path ro).
Proof. unfold vic_loop_map. keeps. Qed.
Lemma keeps_run t : ~ Q (t_name t) -> keeps Q (run_task t).
Proof.
  intros Hq h r h'. unfold run_task. destruct (dm_task_run t h) as [b h1] eqn:E. intros [= <- <-] n Hn.
  eapply dm_run_others; [done|]. by intros ->.
Qed.
Hint Resolve keeps_loop_map keeps_run : keeps.
Lemma keeps_create t : ~ Q (t_name t) -> keeps Q (create_device t).
Proof. intros Hq. unfold create_device. keeps. Qed.
Hint Resolve keeps_create : keeps.
Lemma keeps_create_crypt prefix name path uuid start sz integrity cipher key iv off :
  ~ Q name -> keeps Q (vic_dm_create_crypt calloc fuel prefix name path uuid start sz integrity cipher key iv off).
Proof. intros Hq. unfold vic_dm_create_crypt. keeps. Qed.
Lemma keeps_create_integrity name path start sz off mode integrity :
  ~ Q name -> keeps Q (vic_dm_create_integrity fuel name path start sz off mode integrity).
Proof. intros Hq. unfold vic_dm_create_integrity. keeps. Qed.
Lemma keeps_create_verity name dd hd dbs hbs nb ver ho alg root salt :
  ~ Q name -> keeps Q (vic_dm_create_verity calloc fuel name dd hd dbs hbs nb ver ho alg root salt).
Proof. intros Hq. unfold vic_dm_create_verity. keeps. Qed.
Hint Resolve keeps_create_crypt keeps_create_integrity keeps_create_verity : keeps.

(** Opening a volume changes the device of the name, and that for its integrity. *)
Lemma keeps_open_payload d e path name mk :
  ~ Q name -> ~ Q (name ++ bytes "_dif") -> keeps Q (open_payload calloc fuel d e path name mk).
Proof. intros Hn Hd. unfold open_payload, _open_integrity_device, _open_integrity_luks2_device. keeps. Qed.
Hint Resolve keeps_open_payload : keeps.
Lemma keeps_open_passphrase d hdr path name pwd :
  ~ Q name -> ~ Q (name ++ bytes "_dif") ->
  keeps Q (luks2_open_by_passphrase calloc ja_malloc junk stack fuel d hdr path name pwd).
Proof. intros Hn Hd. unfold luks2_open_by_passphrase. keeps. Qed.
Hint Resolve keeps_open_passphrase : keeps.

(** The same for operations on a handle. *)
Definition cm_keeps {A} (m : CM A) : Prop := forall s r s', m s = Done (r, s') -> same_names Q (on_host s) (on_host s').

Lemma cm_keeps_bind {A B} (m : CM A) (k : A -> CM B) : cm_keeps m -> (forall a, cm_keeps (k a)) -> cm_keeps (m ≫= k).
Proof.
  intros Hm Hk s r s'. unfold mbind, CM_bind. destruct (m s) as [[[e|a] s1]|f] eqn:E; [|intros Ek|done].
  - intros [= <- <-]. by eapply Hm.
  - eapply same_names_trans; [by eapply Hm|by eapply Hk].
Qed.
Lemma cm_keeps_ret {A} (a : A) : cm_keeps (mret a : CM A).
Proof. by intros s r s' [= <- <-]. Qed.
Lemma cm_keeps_raise {A} e : cm_keeps (eraise e : CM A).
Proof. by intros s r s' [= <- <-]. Qed.
Lemma cm_keeps_echeck e : cm_keeps (echeck e).
Proof. unfold echeck. case_match; [apply cm_keeps_ret|apply cm_keeps_raise]. Qed.
Lemma cm_keeps_unless b : cm_keeps (einval_unless b).
Proof. unfold einval_unless. case_match; [apply cm_keeps_ret|apply cm_keeps_raise]. Qed.
Lemma cm_keeps_echeck_call m : cm_keeps m -> cm_keeps (echeck_call m).
Proof. intros Hm s r s'. unfold echeck_call. destruct (m s) as [[[e|[]] s1]|f] eqn:E; [| |done]; intros [= <- <-]; by eapply Hm. Qed.
Lemma cm_keeps_handle : cm_keeps handle.
Proof. by intros s r s' [= <- <-]. Qed.
Lemma cm_keeps_update f : cm_keeps (update f).
Proof. by intros s r s' [= <- <-]. Qed.
Lemma cm_keeps_fault {A} p : cm_keeps (fault_at p : CM A).
Proof. by intros s r s'. Qed.
Lemma cm_keeps_failed {A} f : cm_keeps (fun _ => Failed f : outcome ((Z + A) * cstate)).
Proof. by intros s r s'. Qed.
Lemma cm_keeps_use_bd : cm_keeps use_bd.
Proof. intros s r s'. unfold use_bd. case_match; try done. by intros [= <- <-]. Qed.
Lemma cm_keeps_host {A} (m : HM A) : keeps Q m -> cm_keeps (call_host m).
Proof. intros Hm s r s'. unfold call_host. destruct (m (on_host s)) as [[a h]|f] eqn:E; [|done]. intros [= <- <-]. by eapply Hm. Qed.
Lemma cm_keeps_device {A} (m : VM A) : cm_keeps (call_device m).
Proof.
  intros s r s'. unfold call_device, use_bd. destruct (bd (cd s)) as [|d|]; try done.
  destruct (m _) as [[a d']|f]; [|done]. intros [= <- <-]. by apply same_names_eq.
Qed.
Lemma cm_keeps_or_raise {A} (r : vic_result_t + A) e : cm_keeps (or_eraise r e).
Proof. unfold or_eraise. repeat case_match; try apply cm_keeps_ret; apply cm_keeps_raise. Qed.
Hint Resolve cm_keeps_ret cm_keeps_raise cm_keeps_echeck cm_keeps_unless cm_keeps_echeck_call cm_keeps_handle cm_keeps_update : keeps.
Hint Resolve cm_keeps_fault cm_keeps_failed cm_keeps_use_bd cm_keeps_host cm_keeps_device cm_keeps_or_raise : keeps.

Ltac cm_keeps_step :=
  match goal with
  | |- cm_keeps (_ ≫= _) => apply cm_keeps_bind; [|intros ?]
  | |- cm_keeps (if ?b then _ else _) => destruct b
  | |- cm_keeps (let '(_, _) := ?p in _) => destruct p
  | |- cm_keeps (match ?p with _ => _ end) => destruct p
  | |- cm_keeps (echeck_call _) => apply cm_keeps_echeck_call
  | |- cm_keeps (call_host _) => apply cm_keeps_host; keeps
  | |- cm_keeps _ => solve [auto with keeps]
  end.
Ltac cm_keeps := repeat (cbv zeta; cm_keeps_step).

Lemma cm_keeps_force : cm_keeps _force_open_for_write.
Proof. unfold _force_open_for_write, open_blockdev. cm_keeps. Qed.
Hint Resolve cm_keeps_force : keeps.

Lemma cm_keeps_format fi t cn cm uuid key ks params rnd : cm_keeps (crypt_format calloc fi t cn cm uuid key ks params rnd).
Proof. unfold crypt_format, format_luks1, format_luks2, luks2_params, _set_pbkdf_type. cm_keeps. Qed.
Lemma cm_keeps_add_key slot key ks pw flags rsalt rsplit :
  cm_keeps (crypt_keyslot_add_by_key calloc ja_malloc junk stack slot key ks pw flags rsalt rsplit).
Proof. unfold crypt_keyslot_add_by_key. cm_keeps. Qed.
Lemma cm_keeps_load t params uninit : cm_keeps (crypt_load calloc ja_malloc junk t params uninit).
Proof. unfold crypt_load, _crypt_load_verity, on_bd, load_hash_device, open_blockdev. cm_keeps. Qed.
Lemma cm_keeps_activate name slot pw flags :
  ~ Q name -> ~ Q (name ++ bytes "_dif") ->
  cm_keeps (crypt_activate_by_passphrase calloc ja_malloc junk stack fuel name slot pw flags).
Proof.
  intros Hn Hd. unfold crypt_activate_by_passphrase, activate_flags, open_by_passphrase, set_mapped, luks1_open.
  cm_keeps.
Qed.
Hint Resolve cm_keeps_format cm_keeps_add_key cm_keeps_load cm_keeps_activate : keeps.

Lemma must_keeps m s s' : cm_keeps m -> must m s = Done s' -> same_names Q (on_host s) (on_host s').
Proof. intros Hm. unfold must. destruct (m s) as [[[e|[]] s1]|f] eqn:E; try done. intros [= <-]. by eapply Hm. Qed.
Lemma start_host p h s : start_handle calloc p h = Done s -> on_host s = h.
Proof. unfold start_handle. case_match; [done|]. by intros [= <-]. Qed.

Lemma keeps_create_disk fi p key rnd h h' :
  lkl_create_crypto_disk_thread calloc ja_malloc junk stack fi p key rnd h = Done h' -> same_names Q h h'.
Proof.
  unfold lkl_create_crypto_disk_thread. destruct (start_handle calloc p h) as [s|] eqn:E1; [|done]. cbn [mbind outcome_bind].
  destruct (must _ s) as [s1|] eqn:E2; [|done]. cbn [mbind outcome_bind].
  destruct (must _ s1) as [s2|] eqn:E3; [|done]. cbn [mbind outcome_bind].
  destruct (crypt_free _); [|done]. cbn [mbind outcome_bind]. intros [= <-]. rewrite <- (start_host _ _ _ E1).
  apply must_keeps in E2, E3; auto with keeps. by eapply same_names_trans.
Qed.
Lemma keeps_activate_disk uninit p name ro key h h' :
  ~ Q name -> ~ Q (name ++ bytes "_dif") ->
  lkl_activate_crypto_disk_thread calloc ja_malloc junk stack fuel uninit p name ro key h = Done h' -> same_names Q h h'.
Proof.
  intros Hn Hd. unfold lkl_activate_crypto_disk_thread. destruct (start_handle calloc p h) as [s|] eqn:E1; [|done]. cbn [mbind outcome_bind].
  destruct (must _ s) as [s1|] eqn:E2; [|done]. cbn [mbind outcome_bind].
  destruct (must _ s1) as [s2|] eqn:E3; [|done]. cbn [mbind outcome_bind].
  destruct (crypt_free _); [|done]. cbn [mbind outcome_bind]. intros [= <-]. rewrite <- (start_host _ _ _ E1).
  apply must_keeps in E2, E3; auto with keeps. by eapply same_names_trans.
Qed.
End Names.

(** ** The device of a verified disk *)

(** The named device is mapped by dm-verity with this root hash. *)
Definition verity_mapped (h : host) (name : text) (root : list Z) : Prop :=
  exists version data hash dbs hbs blocks off alg salt params,
    verity_params version data hash dbs hbs blocks off alg (hex_bytes root) (hex_bytes salt) = inr params /\
    mapper h !! name = Some (mk_dm 0 (u64 (blocks * dbs) / VIC_SECTOR_SIZE) (bytes "verity") params None true).

Lemma hm_inv {A B} (m : HM A) (k : A -> HM B) h b h' :
  (m ≫= k) h = Done (inr b, h') -> exists a h1, m h = Done (inr a, h1) /\ k a h1 = Done (inr b, h').
Proof. unfold mbind, HM_bind. destruct (m h) as [[[e|a] h1]|f]; try done. intros E. by exists a, h1. Qed.

Ltac hm_inv E := let a := fresh "a" in let h1 := fresh "h" in let E1 := fresh "E" in apply hm_inv in E as (a & h1 & E1 & E).

Lemma answer_inv {A} (r : vic_result_t + A) h a h' : of_answer r h = Done (inr a, h') -> r = inr a /\ h' = h.
Proof. destruct r; [done|]. by intros [= <- <-]. Qed.
Lemma call_inv b h u h' : dm_call b h = Done (inr u, h') -> b = true /\ h' = h.
Proof. destruct b; [|done]. by intros [= <- <-]. Qed.

Lemma v_inv {A B} (m : V A) (k : A -> V B) s b s' :
  (m ≫= k) s = Done (inr b, s') -> exists a s1, m s = Done (inr a, s1) /\ k a s1 = Done (inr b, s').
Proof. unfold mbind, v_bind. destruct (m s) as [[[e|a] h1]|f]; try done. intros E. by exists a, h1. Qed.
Ltac v_inv E := let a := fresh "a" in let v1 := fresh "v" in let E1 := fresh "E" in apply v_inv in E as (a & v1 & E1 & E).

Lemma cm_inv {A B} (m : CM A) (k : A -> CM B) s b s' :
  (m ≫= k) s = Done (inr b, s') -> exists a s1, m s = Done (inr a, s1) /\ k a s1 = Done (inr b, s').
Proof. unfold mbind, CM_bind. destruct (m s) as [[[e|a] h1]|f]; try done. intros E. by exists a, h1. Qed.
Ltac cm_inv E := let a := fresh "a" in let s1 := fresh "s" in let E1 := fresh "E" in apply cm_inv in E as (a & s1 & E1 & E).

(** An error is never VIC_OK. *)
Definition true_error {A} (r : vic_result_t + A) : Prop := r <> inl VIC_OK.
Definition hm_errors {A} (m : HM A) : Prop := forall h r h', m h = Done (r, h') -> true_error r.
Definition v_errors {A} (m : V A) : Prop := forall s r s', m s = Done (r, s') -> true_error r.
Lemma hm_errors_bind {A B} (m : HM A) (k : A -> HM B) : hm_errors m -> (forall a, hm_errors (k a)) -> hm_errors (m ≫= k).
Proof.
  intros Hm Hk h r h'. unfold mbind, HM_bind. destruct (m h) as [[[e|a] h1]|f] eqn:E; [|by apply Hk|done].
  intros [= <- <-] [= ->]. by eapply Hm.
Qed.
Lemma v_errors_bind {A B} (m : V A) (k : A -> V B) : v_errors m -> (forall a, v_errors (k a)) -> v_errors (m ≫= k).
Proof.
  intros Hm Hk h r h'. unfold mbind, v_bind. destruct (m h) as [[[e|a] h1]|f] eqn:E; [|by apply Hk|done].
  intros [= <- <-] [= ->]. by eapply Hm.
Qed.
Lemma hm_errors_ret {A} (a : A) : hm_errors (mret a : HM A).
Proof. by intros h r h' [= <- <-]. Qed.
Lemma hm_errors_raise {A} e : e <> VIC_OK -> hm_errors (hraise e : HM A).
Proof. intros He h r h' [= <- <-] [=]. done. Qed.
Lemma hm_errors_call b : hm_errors (dm_call b).
Proof. destruct b; [apply hm_errors_ret|by apply hm_errors_raise]. Qed.
Lemma hm_errors_answer {A} (r : vic_result_t + A) : true_error r -> hm_errors (of_answer r).
Proof. destruct r as [e|a]; intros Hr; [apply hm_errors_raise; by intros ->|apply hm_errors_ret]. Qed.
Lemma hm_errors_host : hm_errors the_host.
Proof. by intros h r h' [= <- <-]. Qed.
Lemma hm_errors_run `{DeviceMapper} t : hm_errors (run_task t).
Proof. intros h r h'. unfold run_task. destruct (dm_task_run t h). by intros [= <- <-]. Qed.
Lemma hm_errors_failed {A} f : hm_errors (fun _ => Failed f : outcome ((vic_result_t + A) * host)).
Proof. by intros h r h'. Qed.
Lemma true_error_ok {A} (a : A) : true_error (inr a).
Proof. done. Qed.
Lemma true_error_inl {A} e : e <> VIC_OK -> true_error (inl e : vic_result_t + A).
Proof. intros He [=]. done. Qed.
Create HintDb errors.
#[export] Hint Resolve hm_errors_ret hm_errors_raise hm_errors_call hm_errors_answer hm_errors_host hm_errors_run hm_errors_failed : errors.
#[export] Hint Resolve true_error_ok true_error_inl : errors.
#[export] Hint Extern 1 (_ <> VIC_OK) => discriminate : errors.
Ltac errors := repeat (cbv zeta; match goal with
  | |- hm_errors (_ ≫= _) => apply hm_errors_bind; [|intros ?]
  | |- v_errors (_ ≫= _) => apply v_errors_bind; [|intros ?]
  | |- hm_errors (of_answer _) => apply hm_errors_answer
  | |- hm_errors (match ?p with _ => _ end) => destruct p
  | |- v_errors (match ?p with _ => _ end) => destruct p
  | |- true_error (match ?p with _ => _ end) => destruct p
  | |- _ => solve [auto with errors]
  end).

Lemma check_data_errors {A} op (upd : A -> blockdev_t -> blockdev_t) : v_errors (check_data op upd).
Proof. intros s r s'. unfold check_data. destruct (op (data_dev s)) as [[] a]; by intros [= <- <-] ?. Qed.
Lemma check_hash_errors {A} op (upd : A -> blockdev_t -> blockdev_t) : v_errors (check_hash op upd).
Proof. intros s r s'. unfold check_hash. destruct (op (hash_dev s)) as [[] a]; by intros [= <- <-] ?. Qed.
Lemma v_errors_ret {A} (a : A) : v_errors (mret a : V A).
Proof. by intros s r s' [= <- <-]. Qed.
Lemma v_errors_get {A} (f : devs -> A) : v_errors (fun s => Done (inr (f s), s)).
Proof. by intros s r s' [= <- <-]. Qed.
Lemma read_superblock_errors uninit : v_errors (fun s => match vic_verity_read_superblock (hash_dev s) uninit with
  | Done r => Done (r, s) | Failed f => Failed f end).
Proof.
  intros s r s'. unfold vic_verity_read_superblock. destruct (vic_blockdev_get (hash_dev s) 0 1) as [[] b]; try by intros [= <- <-] ?.
  destruct (MAX_BLKSZ <? block_size (hash_dev s)); [done|]. cbv zeta. case_decide; by intros [= <- <-] ?.
Qed.
Lemma salt_errors sb : v_errors (salt_of sb).
Proof. intros s r s'. unfold salt_of. case_match; [done|]. by intros [= <- <-]. Qed.
#[export] Hint Resolve check_data_errors check_hash_errors v_errors_ret v_errors_get read_superblock_errors salt_errors : errors.

Section Verity.
Context `{Algorithms} `{Ciphers} `{Argon2} `{Base64} `{DeviceMapper} `{LoopDevices}.
Variable calloc : Z -> bool.
Variable ja_malloc : nat -> Z -> bool.
Variable junk : Z.
Variable fuel : nat.

Lemma create_device_maps t h h' :
  t_type t = DM_DEVICE_CREATE -> create_device t h = Done (inr tt, h') -> mapper h' !! t_name t = device_of t.
Proof.
  intros Ht E. unfold create_device in E. hm_inv E. hm_inv E. hm_inv E. apply call_inv in E as [_ ->], E1 as [-> ->].
  injection E2 as _ <-. unfold run_task in E0. destruct (dm_task_run t h) as [b h3] eqn:Er. injection E0 as -> <-.
  by eapply dm_run_maps.
Qed.

Lemma bin_to_ascii_inv b s : vic_bin_to_ascii calloc b = inr s -> s = hex_bytes b.
Proof. unfold vic_bin_to_ascii. case_match; [done|]. case_match; [done|]. by intros [= <-]. Qed.
Lemma new_task_inv ty name h t h' : new_task ty name h = Done (inr t, h') -> t = mk_task ty name None None false false.
Proof. intros E. unfold new_task in E. hm_inv E. cbv zeta in E. hm_inv E. by injection E as <- _. Qed.

Lemma create_verity_maps name dd hd dbs hbs nb ver ho alg root salt h h' :
  vic_dm_create_verity calloc fuel name dd hd dbs hbs nb ver ho alg root salt h = Done (inr tt, h') -> verity_mapped h' name root.
Proof.
  unfold vic_dm_create_verity. case_match; [done|]. intros E. hm_inv E. hm_inv E. hm_inv E. hm_inv E. cbv zeta in E. hm_inv E.
  hm_inv E. hm_inv E. hm_inv E. hm_inv E. apply answer_inv in E2 as [->%bin_to_ascii_inv _], E3 as [->%bin_to_ascii_inv _], E4 as [Hp _].
  apply new_task_inv in E5 as ->. apply create_device_maps in E; [|done]. cbn in E.
  exists ver, a, a0, dbs, hbs, nb, ho, alg, salt, a3. by split.
Qed.

(** What is mapped is the root hash that was given. *)
Lemma open_keeps_root root uninit v t v' : Verity.vic_verity_open root uninit v = Done (inr t, v') -> vt_root_hash t = root.
Proof.
  unfold Verity.vic_verity_open. case_match; [done|]. intros E.
  v_inv E. v_inv E. v_inv E. v_inv E. cbv zeta in E. v_inv E. v_inv E. by injection E as <- _.
Qed.

Lemma create_verity_errors name dd hd dbs hbs nb ver ho alg root salt :
  hm_errors (vic_dm_create_verity calloc fuel name dd hd dbs hbs nb ver ho alg root salt).
Proof.
  unfold vic_dm_create_verity, vic_loop_map, create_device, new_task, verity_params, params_of, vic_bin_to_ascii. errors.
Qed.
Lemma verity_open_errors root uninit : v_errors (Verity.vic_verity_open root uninit).
Proof. unfold Verity.vic_verity_open. case_match; [by intros s r s' [= <- <-] ?|]. errors. Qed.

Lemma open_verity_maps name root uninit s s' :
  open_verity calloc fuel name root uninit s = Done (inr tt, s') -> verity_mapped (on_host s') name root.
Proof.
  unfold open_verity. destruct (bd (cd s)) as [|d|] eqn:Eb; [by destruct (hbd (cd s))| |done].
  destruct (hbd (cd s)) as [|[hd hp]|]; [done| |done]. unfold use_bd. rewrite Eb. cbv beta iota zeta.
  destruct (vic_verity_open calloc fuel name _ _ _ _ _ _) as [[[r v] h]|f] eqn:E; [|done].
  intros Er. unfold vic_verity_open in E.
  destruct (Verity.vic_verity_open _ _ _) as [[[e|t] v1]|f] eqn:Eo; [|clear -E Er Eo|done].
  { injection E as <- <- <-. destruct e; try done. exfalso. by eapply verity_open_errors. }
  destruct (vic_dm_create_verity _ _ _ _ _ _ _ _ _ _ _ _ _ _) as [[[e|[]] h1]|f] eqn:Ec; [| |done].
  { injection E as <- <- <-. destruct e; try done. exfalso. by eapply create_verity_errors. }
  injection E as <- <- <-. injection Er as <-. apply create_verity_maps in Ec. by rewrite (open_keeps_root _ _ _ _ _ Eo) in Ec.
Qed.

Lemma unless_inv {A} b (k : unit -> CM A) s a s' :
  (einval_unless b ≫= k) s = Done (inr a, s') -> b = true /\ k tt s = Done (inr a, s').
Proof. destruct b; [|done]. intros E. by split. Qed.

(** LUKS volumes cannot be activated with their key. *)
Lemma open_by_key_fails op name key flags s s' : open_by_key op name key flags s <> Done (inr tt, s').
Proof. intros E. unfold open_by_key in E. do 6 cm_inv E. done. Qed.
Lemma activate_key_maps name key flags uninit s s' :
  crypt_activate_by_volume_key calloc ja_malloc junk fuel name key (Z.of_nat (length key)) flags uninit s = Done (inr tt, s') ->
  verity_mapped (on_host s') name key.
Proof.
  intros E. unfold crypt_activate_by_volume_key in E. do 5 cm_inv E. cbv zeta in E.
  destruct (_is_luks1 _); [by apply open_by_key_fails in E|]. destruct (_is_luks2 _); [by apply open_by_key_fails in E|].
  destruct (_is_verity _); [|done]. apply open_verity_maps in E. by rewrite Nat2Z.id, firstn_all in E.
Qed.

Lemma verity_open_names Q name dp hp root uninit v h r v' h' :
  ~ Q name -> vic_verity_open calloc fuel name dp hp root uninit v h = Done (r, v', h') -> same_names Q h h'.
Proof.
  intros Hq. unfold vic_verity_open. destruct (Verity.vic_verity_open root uninit v) as [[[e|t] v1]|f]; [by intros [= _ _ <-]| |done].
  destruct (vic_dm_create_verity _ _ _ _ _ _ _ _ _ _ _ _ _ _) as [[r1 h1]|f] eqn:E; [|done]. intros [= _ _ <-].
  by eapply keeps_create_verity.
Qed.
Lemma or_eraise_host {A} (a : vic_result_t + A) e s r s' : or_eraise a e s = Done (r, s') -> s' = s.
Proof. destruct a as [[]|]; by intros [= _ <-]. Qed.
Lemma open_verity_names Q name root uninit s r s' :
  ~ Q name -> open_verity calloc fuel name root uninit s = Done (r, s') -> same_names Q (on_host s) (on_host s').
Proof.
  intros Hq. unfold open_verity, use_bd. destruct (bd (cd s)) as [|d|], (hbd (cd s)) as [|[hd hp]|]; try done; try by intros [= _ <-].
  destruct (vic_verity_open calloc fuel name _ _ _ _ _ _) as [[[a v] h]|f] eqn:E; [|done].
  intros ->%or_eraise_host. by eapply verity_open_names.
Qed.
Lemma activate_key_names Q name key n flags uninit s s' :
  ~ Q name -> crypt_activate_by_volume_key calloc ja_malloc junk fuel name key n flags uninit s = Done (inr tt, s') ->
  same_names Q (on_host s) (on_host s').
Proof.
  intros Hq E. unfold crypt_activate_by_volume_key in E.
  apply cm_inv in E as (c & s1 & [= <- <-] & E). 
  apply unless_inv in E as [_ E], E as [_ E], E as [_ E], E as [_ E].
  cbv zeta in E.
  destruct (_is_luks1 _); [by apply open_by_key_fails in E|]. destruct (_is_luks2 _); [by apply open_by_key_fails in E|].
  destruct (_is_verity _); [|done]. by eapply open_verity_names.
Qed.

(** The root hash of the configuration is mapped. *)
Lemma activate_verity_maps uninit p name ro roothash off h h' :
  lkl_activate_verity_disk_thread calloc ja_malloc junk fuel uninit p name ro roothash off h = Done h' ->
  exists root, hex_to_bytes true roothash = Some root /\ verity_mapped h' name root.
Proof.
  unfold lkl_activate_verity_disk_thread. destruct (start_handle calloc p h) as [s|]; [|done]. cbn [mbind outcome_bind].
  destruct (must _ s) as [s1|]; [|done]. cbn [mbind outcome_bind].
  destruct (crypt_get_volume_key_size _) as [sz|]; [|done]. cbn [mbind outcome_bind].
  destruct (hex_to_bytes _ roothash) as [root|] eqn:Er; [|done].
  destruct (Z.eqb_spec (Z.of_nat (length root)) sz) as [<-|]; [|done]. cbn [negb].
  destruct (must _ s1) as [s2|] eqn:E2; [|done]. cbn [mbind outcome_bind]. destruct (crypt_free _); [|done]. cbn [mbind outcome_bind].
  intros [= <-]. exists root. split.
  { revert Er. unfold hex_to_bytes. by destruct (calloc _). }
  unfold must in E2. destruct (crypt_activate_by_volume_key _ _ _ _ _ _ _ _ _ s1) as [[[e|[]] s3]|f] eqn:E; try done. injection E2 as <-.
  by eapply activate_key_maps.
Qed.
Lemma keeps_verity_thread P uninit p name ro rh off h h' :
  ~ P name -> lkl_activate_verity_disk_thread calloc ja_malloc junk fuel uninit p name ro rh off h = Done h' -> same_names P h h'.
Proof.
  intros Hq. unfold lkl_activate_verity_disk_thread. destruct (start_handle calloc p h) as [s|] eqn:E1; [|done]. cbn [mbind outcome_bind].
  destruct (must _ s) as [s1|] eqn:E2; [|done]. cbn [mbind outcome_bind].
  destruct (crypt_get_volume_key_size _) as [sz|]; [|done]. cbn [mbind outcome_bind].
  destruct (hex_to_bytes _ rh) as [root|]; [|done]. case_match; [done|].
  destruct (must _ s1) as [s2|] eqn:E3; [|done]. cbn [mbind outcome_bind]. destruct (crypt_free _); [|done]. cbn [mbind outcome_bind].
  intros [= <-]. rewrite <- (start_host _ _ _ _ E1). eapply same_names_trans.
  - eapply must_keeps; [|exact E2]. apply cm_keeps_load.
  - unfold must in E3. destruct (crypt_activate_by_volume_key _ _ _ _ _ _ _ _ _ s1) as [[[e|[]] s3]|f] eqn:E; try done. injection E3 as <-.
    by eapply activate_key_names.
Qed.
End Verity.

(** ** System calls *)

(** What is mounted where, with which flags. *)
Definition disk_device (disk : disk_config_t) (device : Z) : text :=
  if is_encrypted_cfg disk then mapper_path (crypt_name_of device)
  else if bool_decide (dc_roothash disk <> None) then mapper_path (verity_name_of device)
  else raw_path device.
Definition mount_flags (disk : disk_config_t) : Z :=
  if dc_readonly disk || bool_decide (dc_roothash disk <> None) then LKL_MS_RDONLY else 0.
(** [disks]: every disk with its mount point; the first one is /dev/vda. *)
Definition letter (i : nat) : Z := 97 + Z.of_nat i.
Definition disk_mount (disks : list (disk_config_t * text)) (dev p : text) (flags : Z) : Prop :=
  exists i disk, disks !! i = Some (disk, p) /\ dev = disk_device disk (letter i) /\ flags = mount_flags disk.
Definition allowed (disks : list (disk_config_t * text)) (c : lkl_call) : Prop :=
  match c with SysMount dev p fs flags _ => fs = bytes "ext4" -> disk_mount disks dev p flags | _ => True end.

(** Flags of mounted disks stay set. *)
Definition grows (a b : list bool) : Prop := length b = length a /\ forall i : nat, a !! i = Some true -> b !! i = Some true.
(** From one state to another: only such calls, and other names stay. *)
Definition steps (P : lkl_call -> Prop) (Q : text -> Prop) (s s' : dstate) : Prop :=
  same_names Q (disk_host s) (disk_host s') /\ grows (mounted s) (mounted s') /\
  exists l, history s' = history s ++ l /\ Forall (fun c => P (fst c)) l.
Definition dm_steps {A} (P : lkl_call -> Prop) (Q : text -> Prop) (m : DM A) : Prop :=
  forall s a s', m s = Done (a, s') -> steps P Q s s'.

Lemma steps_quiet P Q s s' :
  same_names Q (disk_host s) (disk_host s') -> grows (mounted s) (mounted s') -> history s' = history s -> steps P Q s s'.
Proof. intros S G E. split; [done|]. split; [done|]. exists []. by rewrite app_nil_r. Qed.
Lemma grows_refl a : grows a a.
Proof. by split. Qed.
Lemma steps_refl P Q s : steps P Q s s.
Proof. apply steps_quiet; [apply same_names_refl|apply grows_refl|done]. Qed.
Lemma steps_trans P Q s1 s2 s3 : steps P Q s1 s2 -> steps P Q s2 s3 -> steps P Q s1 s3.
Proof.
  intros (A & [L G] & l & E & F) (A' & [L' G'] & l' & E' & F'). split; [by eapply same_names_trans|].
  split; [split; [by rewrite L'|auto]|]. exists (l ++ l'). rewrite E', E, app_assoc. split; [done|]. by apply Forall_app.
Qed.
Lemma grows_set a i : grows a (<[i := true]> a).
Proof.
  split; [apply length_insert|]. intros j Hj. destruct (decide (i = j)) as [->|]; [|by rewrite list_lookup_insert_ne].
  apply list_lookup_insert_eq. by eapply lookup_lt_Some.
Qed.
#[export] Instance steps_preorder P Q : PreOrder (steps P Q).
Proof. split; [exact (steps_refl P Q)|exact (steps_trans P Q)]. Qed.

Lemma dm_steps_bind {A B} P Q (m : DM A) (k : A -> DM B) : dm_steps P Q m -> (forall a, dm_steps P Q (k a)) -> dm_steps P Q (m ≫= k).
Proof.
  intros Hm Hk s b s'. unfold mbind, DM_bind. destruct (m s) as [[a s1]|f] eqn:E; [|done]. intros Ek.
  etrans; [by eapply Hm|by eapply Hk].
Qed.
Lemma dm_steps_ret {A} P Q (a : A) : dm_steps P Q (mret a : DM A).
Proof. intros s b s' [= <- <-]. reflexivity. Qed.
Lemma dm_steps_fail {A} P Q : dm_steps P Q (sgxlkl_fail : DM A).
Proof. by intros s b s'. Qed.
Create HintDb steps.
#[export] Hint Resolve dm_steps_ret dm_steps_fail : steps.

Section Calls.
Context `{LklKernel}.
Variable disks : list (disk_config_t * text).
Variable Q : text -> Prop.
Abbreviation confined := (dm_steps (allowed disks) Q).

Lemma only_sys c : allowed disks c -> confined (sys c).
Proof.
  intros Hc s a s' [= <- <-]. split; [apply same_names_refl|]. split; [apply grows_refl|]. exists [(c, lkl_answer (history s) c)].
  split; [done|]. by apply Forall_singleton.
Qed.
Hint Resolve only_sys : steps.
Hint Extern 1 (allowed _ _) => first [exact I | discriminate | intros _; assumption] : steps.

Ltac part_step :=
  match goal with
  | |- dm_steps _ _ (_ ≫= _) => apply dm_steps_bind; [|intros ?]
  | |- dm_steps _ _ (match ?p with _ => _ end) => destruct p
  | |- dm_steps _ _ _ => solve [auto with steps]
  end.
Ltac by_parts := repeat (cbv zeta; part_step).

Lemma only_sys_ok c : allowed disks c -> confined (sys_ok c).
Proof. intros Hc. unfold sys_ok. by_parts. Qed.
Hint Resolve only_sys_ok : steps.
Lemma only_prepare d perm : confined (lkl_prepare_rootfs d perm).
Proof. unfold lkl_prepare_rootfs. by_parts. Qed.
Lemma only_tmpfs p data : confined (mount_tmpfs p data).
Proof. unfold mount_tmpfs. by_parts. Qed.
Lemma only_devtmpfs p : confined (lkl_mount_devtmpfs p).
Proof. unfold lkl_mount_devtmpfs. by_parts. Qed.
Hint Resolve only_prepare only_tmpfs only_devtmpfs : steps.
Lemma only_overlay p : confined (mount_overlay p).
Proof. unfold mount_overlay, lkl_mount_overlay_tmpfs, lkl_mount_overlayfs. by_parts. Qed.
Lemma only_copy_nodes l src dst : confined (copy_nodes l src dst).
Proof. induction l as [|e l IH]; cbn [copy_nodes]; [apply dm_steps_ret|]. by_parts. Qed.
Hint Resolve only_overlay only_copy_nodes : steps.
Lemma only_copy src dst : confined (lkl_copy_blkdev_nodes src dst).
Proof.
  intros s a s'. unfold lkl_copy_blkdev_nodes. destruct (lkl_listing (history s) src) as [[l ok]|]; [|done].
  revert s a s'. change (confined (_ ← copy_nodes l (with_slash src) (with_slash dst); if ok : bool then mret tt else sgxlkl_fail)). by_parts.
Qed.
Hint Resolve only_copy : steps.
Lemma only_enter_root d : confined (enter_root d).
Proof.
  unfold enter_root, lkl_mount_shmtmpfs, lkl_mount_tmpfs, lkl_mount_mntfs, lkl_mount_sysfs, lkl_mount_runfs, lkl_mount_procfs. by_parts.
Qed.
Hint Resolve only_enter_root : steps.

(** Mounting a file system on its device. *)
Lemma only_blockdev dev p flags :
  disk_mount disks dev p flags -> confined (lkl_mount_blockdev dev p (bytes "ext4") flags).
Proof. intros Hd. unfold lkl_mount_blockdev. by_parts. Qed.
Lemma only_root_file_systems (overlay : bool) p d : confined (_ ← (if overlay then mount_overlay p else mret tt); enter_root d).
Proof. by_parts. Qed.
End Calls.

(** ** A disk *)

Lemma name_dif i j : crypt_name_of i ++ bytes "_dif" <> crypt_name_of j.
Proof. intros E%(f_equal length). rewrite length_app in E. simpl in E. lia. Qed.

(** The names that belong to the disk at a letter. *)
Definition owned (device : Z) (n : text) : Prop :=
  n = verity_name_of device \/ n = crypt_name_of device \/ n = crypt_name_of device ++ bytes "_dif".

Lemma owned_verity d d' : owned d (verity_name_of d') -> d' = d.
Proof. intros [E|[E|E]]; [by injection E|discriminate E..]. Qed.

Lemma verity_mapped_names Q h h' name root : same_names Q h h' -> Q name -> verity_mapped h name root -> verity_mapped h' name root.
Proof. intros S Hq (v & d & hs & dbs & hbs & b & o & al & sa & pa & E & M). exists v, d, hs, dbs, hbs, b, o, al, sa, pa. by rewrite S. Qed.

(** ** The embedded root hash *)

(** The hexadecimal form of bytes is read back. *)
Definition pair_reads (b : Z) : bool := bool_decide (c_strtoul (until_nul (two_hex b)) 16 = (b, 2%nat, false)).
Lemma two_hex_reads b : 0 <= b < 256 -> c_strtoul (until_nul (two_hex b)) 16 = (b, 2%nat, false).
Proof.
  intros Hb. assert (forallb (fun n => pair_reads (Z.of_nat n)) (seq 0 256) = true) as F by (vm_compute; reflexivity).
  rewrite forallb_forall in F. specialize (F (Z.to_nat b)). rewrite Z2Nat.id in F by lia.
  apply (bool_decide_eq_true_1 _). apply F. apply in_seq. lia.
Qed.
Lemma hex_round d : Forall (fun b => 0 <= b < 256) d -> hex_to_bytes true (flat_map two_hex d) = Some d.
Proof.
  intros Hd. unfold hex_to_bytes. cbn [negb].
  assert (Z.odd (Z.of_nat (length (flat_map two_hex d))) = false) as ->.
  { assert (length (flat_map two_hex d) = 2 * length d)%nat as ->; [clear; induction d as [|b d IH]; simpl; lia|].
    rewrite Nat2Z.inj_mul. by rewrite Z.odd_mul. }
  induction Hd as [|b d Hb _ IH]; [done|]. cbn [flat_map]. unfold two_hex at 1. cbn [app hex_pairs].
  change [hex_char (b / 16); hex_char (b mod 16)] with (two_hex b). rewrite two_hex_reads by done.
  rewrite IH. by rewrite u8_small by lia.
Qed.

Lemma dm_inv {A B} (m : DM A) (k : A -> DM B) s b s' : (m ≫= k) s = Done (b, s') -> exists a s1, m s = Done (a, s1) /\ k a s1 = Done (b, s').
Proof. unfold mbind, DM_bind. destruct (m s) as [[a h1]|f]; try done. intros E. by exists a, h1. Qed.
Lemma dm_ok {A B} (m : DM A) (k : A -> DM B) s a s' : m s = Done (a, s') -> (m ≫= k) s = k a s'.
Proof. intros E. unfold mbind, DM_bind. by rewrite E. Qed.

Section Mounting.
Context `{Algorithms} `{Ciphers} `{Argon2} `{Base64} `{DeviceMapper} `{LoopDevices} `{LklKernel}.
Variable calloc : Z -> bool.
Variable ja_malloc : nat -> Z -> bool.
Variable junk : Z.
Variable stack : list Z.
Variable fuel : nat.
Variable format_integrity : luks2_ext_hdr_t -> list Z -> VM unit.
Variable uninit : list Z.
Abbreviation mount_disk_at := (lkl_mount_disk calloc ja_malloc junk stack fuel format_integrity uninit).

(** The root hash of a disk, if it has one, is enforced. *)
Definition verified (h : host) (disk : disk_config_t) (device : Z) : Prop :=
  forall rh, dc_roothash disk = Some rh -> exists root, hex_to_bytes true rh = Some root /\ verity_mapped h (verity_name_of device) root.

Lemma verified_names h h' disk device :
  same_names (fun n => n = verity_name_of device) h h' -> verified h disk device -> verified h' disk device.
Proof. intros S V rh Hr. destruct (V rh Hr) as (root & Hx & M). exists root. split; [done|]. by eapply verity_mapped_names. Qed.


Lemma on_host_steps P Q f s a s' :
  on_disk_host f s = Done (a, s') -> (forall h', f (disk_host s) = Done h' -> same_names Q (disk_host s) h') -> steps P Q s s'.
Proof.
  unfold on_disk_host. destruct (f (disk_host s)) as [h'|] eqn:E; [|done]. intros [= _ <-] Hf.
  apply steps_quiet; [by apply Hf|apply grows_refl|done].
Qed.

(** "if (disk->roothash != NULL)" *)
Lemma activate_verity_steps P disk device s dev ro s' :
  activate_verity calloc ja_malloc junk fuel uninit disk device s = Done ((dev, ro), s') ->
  steps P (fun n => ~ owned device n) s s' /\ verified (disk_host s') disk device /\
  dev = (if bool_decide (dc_roothash disk <> None) then mapper_path (verity_name_of device) else raw_path device) /\
  ro = dc_readonly disk || bool_decide (dc_roothash disk <> None).
Proof.
  unfold activate_verity, verified. destruct (dc_roothash disk) as [rh|] eqn:Er.
  - intros E. apply dm_inv in E as (? & s1 & E1 & [= <- <- <-]). rewrite orb_true_r. split_and!; [| |done..].
    + eapply on_host_steps; [exact E1|]. intros h' Eh. eapply keeps_verity_thread; [|exact Eh]. intros Ho. apply Ho. by left.
    + intros ? [= <-]. unfold on_disk_host in E1. destruct (lkl_activate_verity_disk_thread _ _ _ _ _ _ _ _ _ _ _) eqn:Et; [|done].
      injection E1 as _ <-. by eapply activate_verity_maps.
  - intros [= <- <- <-]. rewrite orb_false_r. split_and!; [reflexivity|done..].
Qed.

(** "if (is_encrypted_cfg(disk))": the device for verification stays. *)
Lemma activate_crypto_steps P disk device dev ro rnd s dev' s' :
  activate_crypto calloc ja_malloc junk stack fuel format_integrity uninit disk device dev ro rnd s = Done (dev', s') ->
  steps P (fun n => ~ (n = crypt_name_of device \/ n = crypt_name_of device ++ bytes "_dif")) s s' /\
  dev' = (if is_encrypted_cfg disk then mapper_path (crypt_name_of device) else dev).
Proof.
  unfold activate_crypto. destruct (is_encrypted_cfg disk); [|intros [= <- <-]; by split].
  cbv zeta. intros E. apply dm_inv in E as (? & s1 & E1 & E). apply dm_inv in E as (? & s2 & E2 & [= <- <-]). split; [|done].
  transitivity s1.
  - destruct (dc_create disk); [|injection E1 as _ <-; reflexivity]. eapply on_host_steps; [exact E1|]. intros h'. apply keeps_create_disk.
  - eapply on_host_steps; [exact E2|]. intros h'. apply keeps_activate_disk; intros Ho; apply Ho; auto.
Qed.

Lemma steps_weaken P (Q Q' : text -> Prop) s s' : (forall n, Q' n -> Q n) -> steps P Q s s' -> steps P Q' s s'.
Proof. intros Hq (S & C). split; [|done]. intros n Hn. by apply S, Hq. Qed.

(** A disk that was mounted: its root hash is enforced, and its flag is set. *)
Definition mounted_ok (s : dstate) (disk : disk_config_t) (i : nat) : Prop :=
  verified (disk_host s) disk (letter i) /\ ((i < length (mounted s))%nat -> mounted s !! i = Some true).
Lemma mounted_ok_steps P Q s s' disk i :
  steps P Q s s' -> Q (verity_name_of (letter i)) -> mounted_ok s disk i -> mounted_ok s' disk i.
Proof.
  intros (S & [L G] & _) Hq [V F]. split; [eapply verified_names; [|exact V]; intros n ->; by apply S|].
  rewrite L. intros Hi. by apply G, F.
Qed.

Lemma mount_disk_steps disks i disk p rnd s s' :
  disks !! i = Some (disk, p) -> mount_disk_at disk (letter i) p i rnd s = Done (tt, s') ->
  steps (allowed disks) (fun n => ~ owned (letter i) n) s s' /\ mounted_ok s' disk i.
Proof.
  intros Hi E. unfold lkl_mount_disk in E.
  apply dm_inv in E as (? & s1 & E1 & E). apply dm_inv in E as ([dev ro] & s2 & E2 & E). apply dm_inv in E as (dev' & s3 & E3 & E).
  apply dm_inv in E as (? & s4 & E4 & E). apply dm_inv in E as (err & s5 & E5 & E).
  assert (s1 = s) as ->. { unfold fresh_key in E1. destruct (_ && _); [destruct (calloc _); [|done]|]; by injection E1 as _ <-. }
  apply (activate_verity_steps (allowed disks)) in E2 as (S2 & V2 & Hd & Hr). apply (activate_crypto_steps (allowed disks)) in E3 as (S3 & Hd').
  assert (disk_mount disks dev' p (if ro then LKL_MS_RDONLY else 0)) as Hm.
  { exists i, disk. split; [done|]. split; [by rewrite Hd', Hd|by rewrite Hr]. }
  destruct (err <? 0); [done|]. injection E as <-.
  assert (forall Q, steps (allowed disks) Q s3 (mk_dstate (history s5) (disk_host s5) (<[i := true]> (mounted s5)))) as S4.
  { intros Q. transitivity s4.
    - destruct (dc_create disk); [|injection E4 as _ <-; reflexivity]. eapply (only_sys_ok disks Q); [|exact E4]. exact I.
    - transitivity s5; [eapply (only_blockdev disks Q); [exact Hm|exact E5]|].
      apply steps_quiet; [apply same_names_refl|apply grows_set|done]. }
  split; [|split].
  - transitivity s2; [done|]. transitivity s3; [|apply S4]. eapply steps_weaken; [|exact S3].
    intros n Hn [->| ->]; apply Hn; unfold owned; auto.
  - eapply verified_names; [|exact V2]. eapply same_names_trans; [|exact (proj1 (S4 _))]. intros n ->. apply (proj1 S3).
    intros [E'|E']; discriminate E'.
  - cbn [mounted]. rewrite length_insert. intros Hl. by apply list_lookup_insert_eq.
Qed.

(** The disks that were configured, with their mount points. *)
Definition all_disks (root : root_config) (mounts : list mount_config) : list (disk_config_t * text) :=
  (root_disk root, bytes "/mnt/vda") :: ((fun m => (mount_disk m, mnt_destination m)) <$> mounts).
Variable embedded : list Z.
Abbreviation mount_root := (lkl_mount_root_disk calloc ja_malloc junk stack fuel format_integrity uninit embedded).

(** The hash in the image of the enclave, unless it is all 0xff. *)
Definition root_hash_matches (root : root_config) : Prop :=
  forallb (fun b => b =? 255) embedded = false -> root_roothash root = Some (flat_map two_hex embedded).

Lemma check_root_hash_ok rh s u s' :
  check_root_hash embedded rh s = Done (u, s') ->
  s' = s /\ (forallb (fun b => b =? 255) embedded = false -> rh = Some (flat_map two_hex embedded)).
Proof.
  unfold check_root_hash. destruct (forallb _ embedded); [by intros [= _ <-]|]. unfold bytes_to_hex.
  rewrite bool_decide_false by lia. case_bool_decide as Hr; [|done]. by intros [= _ <-].
Qed.

Lemma root_disk_steps root mounts rnd s s' :
  mount_root root rnd s = Done (tt, s') ->
  steps (allowed (all_disks root mounts)) (fun n => ~ owned (letter 0) n) s s' /\ mounted_ok s' (root_disk root) 0 /\ root_hash_matches root.
Proof.
  intros E. unfold lkl_mount_root_disk in E. cbv zeta in E. apply dm_inv in E as (? & s1 & E1 & E). apply dm_inv in E as ([] & s2 & E2 & E).
  apply check_root_hash_ok in E1 as [-> Hr]. apply (mount_disk_steps (all_disks root mounts) 0) in E2 as [S2 V2]; [|done].
  assert (forall Q, steps (allowed (all_disks root mounts)) Q s2 s') as S3.
  { intros Q. eapply only_root_file_systems. exact E. }
  split; [transitivity s2; [exact S2|apply S3]|]. split; [|exact Hr].
  eapply mounted_ok_steps; [exact (S3 (fun _ => True))|done|exact V2].
Qed.

Lemma letter_inj i j : letter i = letter j -> i = j.
Proof. unfold letter. lia. Qed.

(** The disks from an index on: names of the disks before stay. *)
Definition from_on (i : nat) (n : text) : Prop := forall k, (i <= k)%nat -> ~ owned (letter k) n.
Lemma from_on_verity i k : (k < i)%nat -> from_on i (verity_name_of (letter k)).
Proof. intros Hk j Hj Ho%owned_verity%letter_inj. lia. Qed.

Lemma mount_from_steps disks mounts rnd : forall i s b s',
  (forall k m, mounts !! k = Some m -> disks !! (S i + k)%nat = Some (mount_disk m, mnt_destination m)) ->
  mount_from calloc ja_malloc junk stack fuel format_integrity uninit i mounts rnd s = Done (b, s') ->
  steps (allowed disks) (from_on (S i)) s s' /\
  forall k m, mounts !! k = Some m -> (S i + k < 26)%nat -> mounted_ok s' (mount_disk m) (S i + k).
Proof.
  induction mounts as [|m mounts IH]; intros i s b s' Hd E; cbn [mount_from] in E.
  { injection E as _ <-. split; [reflexivity|]. intros k m Hk. by rewrite lookup_nil in Hk. }
  case_bool_decide; [done|]. destruct (Z.ltb_spec 122 (97 + Z.of_nat (S i))) as [Hi|Hi].
  { injection E as _ <-. split; [reflexivity|]. intros k m' _ Hk. lia. }
  apply dm_inv in E as ([] & s1 & E1 & E).
  apply (mount_disk_steps disks (S i)) in E1 as [S1 V1]; [|rewrite <- (Nat.add_0_r (S i)); by apply Hd].
  apply IH in E as [S2 V2].
  - split.
    + transitivity s1.
      * eapply steps_weaken; [|exact S1]. intros n Hn. by apply Hn.
      * eapply steps_weaken; [|exact S2]. intros n Hn k Hk. apply Hn. lia.
    + intros [|k] m' Hk Hlt.
      * injection Hk as <-. rewrite Nat.add_0_r. eapply mounted_ok_steps; [exact S2| |exact V1]. apply from_on_verity. lia.
      * replace (S i + S k)%nat with (S (S i) + k)%nat by lia. apply V2; [done|lia].
  - intros k m' Hk. replace (S (S i) + k)%nat with (S i + S k)%nat by lia. by apply Hd.
Qed.

(** All disks that were mounted. *)
Lemma mount_disks_steps root mounts cwd rnd s s' :
  lkl_mount_disks calloc ja_malloc junk stack fuel format_integrity uninit embedded root mounts cwd rnd s = Done (tt, s') ->
  root_hash_matches root /\
  (forall i disk p, all_disks root mounts !! i = Some (disk, p) -> (i < 26)%nat -> mounted_ok s' disk i) /\
  steps (allowed (all_disks root mounts)) (fun _ => False) s s'.
Proof.
  intros E. unfold lkl_mount_disks in E. apply dm_inv in E as (err & s1 & E1 & E). case_match; [done|].
  apply dm_inv in E as ([] & s2 & E2 & E). apply dm_inv in E as (b & s3 & E3 & E).
  apply (root_disk_steps root mounts) in E2 as (S2 & V2 & Hr).
  apply (mount_from_steps (all_disks root mounts)) in E3 as [S3 V3].
  2:{ intros k m Hk. change (((fun m => (mount_disk m, mnt_destination m)) <$> mounts) !! k = Some (mount_disk m, mnt_destination m)).
      by rewrite list_lookup_fmap, Hk. }
  assert (forall Q, steps (allowed (all_disks root mounts)) Q s3 s') as S4.
  { intros Q. destruct b; [|injection E as <-; reflexivity]. destruct cwd as [d|]; [|injection E as <-; reflexivity].
    eapply (only_sys_ok _ Q); [|exact E]. exact I. }
  split; [done|]. split.
  - intros i disk p Hi Hlt. eapply mounted_ok_steps; [exact (S4 (fun _ => True))|done|]. destruct i as [|k].
    + injection Hi as <- <-. eapply mounted_ok_steps; [exact S3| |exact V2]. apply (from_on_verity 1 0). lia.
    + change (((fun m => (mount_disk m, mnt_destination m)) <$> mounts) !! k = Some (disk, p)) in Hi. rewrite list_lookup_fmap in Hi.
      destruct (mounts !! k) as [m|] eqn:Hk; [|done]. injection Hi as <- <-. by apply (V3 k).
  - transitivity s1; [eapply only_sys; [|exact E1]; exact I|].
    transitivity s2; [eapply steps_weaken; [|exact S2]; done|]. transitivity s3; [eapply steps_weaken; [|exact S3]; done|apply S4].
Qed.

(** C8. Only verified disks are mounted.  When [lkl_mount_disks] returns: if the
    root hash embedded in the enclave image is not all 0xff (which is the default
    of the source, and for which the code compares nothing), the root hash of the
    configuration is the embedded one, and dm-verity maps the root disk with
    the embedded bytes; each of the first 26 disks (those whose names end in a
    letter of their own) with a root hash is mapped by dm-verity with exactly the
    bytes of this root hash, and still is at the end; and every ext4 file system that was mounted is a configured disk at its
    mount point, on the mapped device of the disk if it has a root hash or a key,
    and for reading only if it has a root hash.  This is so whatever the kernel
    and the device mapper answer. *)
Theorem disks_verified root mounts cwd rnd s s' :
  Forall (fun b => 0 <= b < 256) embedded ->
  lkl_mount_disks calloc ja_malloc junk stack fuel format_integrity uninit embedded root mounts cwd rnd s = Done (tt, s') ->
  (forallb (fun b => b =? 255) embedded = false ->
     root_roothash root = Some (flat_map two_hex embedded) /\ verity_mapped (disk_host s') (bytes "veritya") embedded) /\
  (forall i disk p, all_disks root mounts !! i = Some (disk, p) -> (i < 26)%nat -> verified (disk_host s') disk (letter i)) /\
  exists l, history s' = history s ++ l /\
    forall dev p flags data r, (SysMount dev p (bytes "ext4") flags data, r) ∈ l -> disk_mount (all_disks root mounts) dev p flags.
Proof.
  intros Hb E. destruct (mount_disks_steps _ _ _ _ _ _ E) as (Hr & V & _ & _ & l & Hl & Hf). split; [|split].
  - intros H255. specialize (Hr H255). split; [done|].
    destruct (V 0%nat (root_disk root) (bytes "/mnt/vda") eq_refl ltac:(lia)) as [V0 _]. destruct (V0 _ Hr) as (r & Hx & M).
    rewrite hex_round in Hx by done. by injection Hx as <-.
  - intros i disk p Hi Hlt. by eapply V.
  - exists l. split; [done|]. intros dev p flags data r Hin. rewrite Forall_forall in Hf. by apply (Hf _ Hin).
Qed.
End Mounting.

Definition small_sb : Verity.vic_verity_sb_t :=
  Verity.mk_sb Verity.SIGNATURE 1 1 (replicate 16 3) (pad 32 (bytes "sha256")) 512 512 1 32 (replicate 256 4).
Definition small_root : text := flat_map two_hex (replicate 32 171).
#[export] Instance toy_kernel : LklKernel := { lkl_answer _ _ := 0; lkl_listing _ _ := Some ([], true) }.
Definition small_host : host := mk_host {[ bytes "/dev/vda" := mk_node true false (replicate 512 8 ++ Verity.sb_image small_sb) ]} ∅ 0.
Definition small_random (i : nat) : create_random := mk_create_random (mk_random [] [] [] []) [] [].
Definition small_config : root_config := Root None None (Some small_root) 512 false true.

Lemma disks_verified_witness :
  exists s', lkl_mount_disks enough enough_json 0 [] 1 no_integrity [] (replicate 32 171) small_config [] None small_random
      (mk_dstate [] small_host [false]) = Done (tt, s') /\
    verity_mapped (disk_host s') (bytes "veritya") (replicate 32 171).
Proof.
  eexists. split; [vm_compute; reflexivity|].
  eapply (disks_verified enough enough_json 0 [] 1 no_integrity [] (replicate 32 171) small_config [] None small_random
    (mk_dstate [] small_host [false])).
  - repeat constructor; lia.
  - vm_compute. reflexivity.
  - reflexivity.
Defined.
