(* ===== verification/MountFaults.v ===== *)
(** * MountFaults: disks that are not mounted (src/lkl/setup.c)

    Two ways in which mounting a disk goes wrong: a disk that is to be created
    with a fresh key gets no key at all, and a mount point that cannot be made is
    taken for a mounted disk. *)

From Stdlib Require Import String.
From stdpp Require Import gmap.
From S2P Require Import Prelude JsonText Env EnclaveConfig VicCrypto Blockdev Luks1Header Luks1 Luks2Header Luks2Json Luks2 DeviceMapper.
From S2P Require Import Luks1Props Luks2Props Luks2Format DeviceMapperProps LuksOpen Cryptsetup Disks DiskProps MountProps.

Section Faults.
Context `{Algorithms} `{Ciphers} `{Argon2} `{Base64} `{DeviceMapper} `{LoopDevices} `{LklKernel}.
Variable calloc : Z -> bool.
Variable ja_malloc : nat -> Z -> bool.
Variable junk : Z.
Variable stack : list Z.
Variable fuel : nat.
Variable format_integrity : luks2_ext_hdr_t -> list Z -> VM unit.
Variable uninit : list Z.
Abbreviation mount := (lkl_mount_disk calloc ja_malloc junk stack fuel format_integrity uninit).

(** No key slot is added for an empty key. *)
Lemma add_no_key slot key ks flags rsalt rsplit s s' :
  crypt_keyslot_add_by_key calloc ja_malloc junk stack slot key ks [] flags rsalt rsplit s <> Done (inr tt, s').
Proof.
  intros E. unfold crypt_keyslot_add_by_key in E. do 4 cm_inv E. cbv zeta in E. cm_inv E. by rewrite bool_decide_eq_true_2 in E4.
Qed.
Lemma create_no_key p rnd h h' : lkl_create_crypto_disk_thread calloc ja_malloc junk stack format_integrity p [] rnd h <> Done h'.
Proof.
  unfold lkl_create_crypto_disk_thread. destruct (start_handle calloc p h) as [s|]; [|done]. cbn [mbind outcome_bind].
  destruct (must _ s) as [s1|]; [|done]. cbn [mbind outcome_bind]. unfold must.
  destruct (crypt_keyslot_add_by_key _ _ _ _ _ _ _ _ _ _ _ s1) as [[[e|[]] s2]|f] eqn:E; [done| |done]. by apply add_no_key in E.
Qed.

(** C40. A disk that is to be created with a fresh key is never mounted.  The key
    is generated into the configuration after the threads got their copy of it,
    so the thread that creates the disk has no key, and adding the key slot ends
    the program, whatever the device, the kernel and the memory are like. *)
Theorem fresh_key_disk_stops disk device mnt_point idx rnd s s' :
  dc_create disk = true -> dc_fresh_key disk = true -> dc_key disk = None ->
  mount disk device mnt_point idx rnd s <> Done (tt, s').
Proof.
  intros Hc Hf Hk E. unfold lkl_mount_disk in E. apply dm_inv in E as (? & s1 & _ & E). apply dm_inv in E as ([dev ro] & s2 & _ & E).
  apply dm_inv in E as (dev' & s3 & E3 & _). unfold activate_crypto, is_encrypted_cfg in E3. rewrite Hc, Hf, Hk, orb_true_r in E3.
  cbv zeta in E3. apply dm_inv in E3 as (? & s4 & E4 & _). unfold on_disk_host in E4.
  destruct (lkl_create_crypto_disk_thread _ _ _ _ _ _ _ _ _) eqn:Et; [|done]. by apply create_no_key in Et.
Qed.

(** A mount point that cannot be made.  The answer of the call before is
    returned for it: [lkl_mount_disk] returns as if the disk were mounted, and
    records it as mounted, but the file system was not mounted. *)
Theorem unmade_mount_point disk device mnt_point idx rnd s e :
  dc_create disk = false -> is_encrypted_cfg disk = false -> dc_roothash disk = None ->
  lkl_answer (history s) (SysAccess (bytes "/mnt") 7) = 0 ->
  lkl_answer (history s ++ [(SysAccess (bytes "/mnt") 7, 0)]) (SysMkdir mnt_point 493) = e -> e < 0 -> e <> - LKL_EEXIST ->
  mount disk device mnt_point idx rnd s =
    Done (tt, mk_dstate (history s ++ [(SysAccess (bytes "/mnt") 7, 0); (SysMkdir mnt_point 493, e)]) (disk_host s)
                (<[idx := true]> (mounted s))).
Proof.
  intros Hc He Hr Ha Hm Hneg Hex. unfold lkl_mount_disk, fresh_key, activate_verity, activate_crypto. rewrite Hc, He, Hr. cbn [andb].
  do 4 (erewrite dm_ok by reflexivity; cbv beta iota).
  erewrite dm_ok.
  2:{ unfold lkl_mount_blockdev. erewrite dm_ok by (unfold sys; rewrite Ha; reflexivity).
      cbv beta. erewrite dm_ok by reflexivity. cbv beta. change (0 <? 0) with false. cbv iota. erewrite dm_ok by (unfold sys; cbn [history]; rewrite Hm; reflexivity).
      rewrite (proj2 (Z.ltb_lt e 0)), (proj2 (Z.eqb_neq e _)) by done. reflexivity. }
  cbn. by rewrite <- app_assoc.
Qed.
End Faults.

Definition plain_disk : disk_config_t := mk_disk false (bytes "/data") None None false false None 0 0 false.
Definition fresh_disk : disk_config_t := mk_disk true (bytes "/data") None None true false None 0 17825792 false.
(** A kernel whose root file system cannot be written. *)
Definition readonly_kernel : LklKernel :=
  {| lkl_answer _ c := match c with SysMkdir _ _ => -30 | _ => 0 end; lkl_listing _ _ := Some ([], true) |}.

Lemma fresh_key_disk_stops_witness :
  ~ exists s', lkl_mount_disk enough enough_json 0 sample_stack 1 no_integrity [] fresh_disk 98 (bytes "/data") 1 (small_random 0)
    (mk_dstate [] small_host [false; false]) = Done (tt, s').
Proof. intros [s' E]. revert E. by apply (fresh_key_disk_stops enough enough_json 0 sample_stack 1 no_integrity [] fresh_disk). Defined.

Lemma unmade_mount_point_witness :
  lkl_mount_disk (H5 := readonly_kernel) enough enough_json 0 sample_stack 1 no_integrity [] plain_disk 98 (bytes "/data") 1
    (small_random 0) (mk_dstate [] small_host [true; false]) =
  Done (tt, mk_dstate [(SysAccess (bytes "/mnt") 7, 0); (SysMkdir (bytes "/data") 493, -30)] small_host [true; true]).
Proof.
  by apply (unmade_mount_point (H5 := readonly_kernel) enough enough_json 0 sample_stack 1 no_integrity [] plain_disk 98 (bytes "/data") 1
    (small_random 0) (mk_dstate [] small_host [true; false]) (-30)).
Defined.
