(* ===== verification/WireGuard.v ===== *)
(** * WireGuard: keys and peers of the tunnel
    (src/wireguard/wireguard_util.c, the keys of src/wireguard/wireguard.c)

    Keys in base 64, and the peers of the configuration, which become a linked
    list in memory: [store] has the peers at their addresses, and those that were
    allocated and not written have the contents that the memory had before.  The
    conversion of addresses, the resolver and the netlink interface are
    parameters. *)

From Stdlib Require Import String.
From stdpp Require Import gmap.
From S2P Require Import Prelude JsonText Env EnclaveConfig.

(** ** Keys *)

(** [encode_base64] of one group of six bits. *)
Definition encode_sextet (x : Z) : Z :=
  x + 65 + Z.land (Z.shiftr (25 - x) 8) 6 - Z.land (Z.shiftr (51 - x) 8) 75 - Z.land (Z.shiftr (61 - x) 8) 15
  + Z.land (Z.shiftr (62 - x) 8) 3.
Definition encode_base64 (a b c : Z) : text :=
  map encode_sextet
    [Z.land (Z.shiftr a 2) 63; Z.land (Z.lor (Z.shiftl a 4) (Z.shiftr b 4)) 63; Z.land (Z.lor (Z.shiftl b 2) (Z.shiftr c 6)) 63;
     Z.land c 63].

(** The last group has two bytes, and its last character is overwritten. *)
Fixpoint encode_key (key : list Z) : text :=
  match key with
  | a :: b :: c :: key' => encode_base64 a b c ++ encode_key key'
  | [a; b] => take 3 (encode_base64 a b 0) ++ [61]
  | _ => []
  end.
Definition wg_key_to_base64 (key : list Z) : text := encode_key key.

(** One character of [decode_base64]: its value, or -1; a char is signed. *)
Definition in_range (lo hi c : Z) : Z := Z.shiftr (Z.land (lo - 1 - c) (c - (hi + 1))) 8.
Definition decode_char (c : Z) : Z :=
  let c := s8 c in
  -1 + Z.land (in_range 65 90 c) (c - 64) + Z.land (in_range 97 122 c) (c - 70) + Z.land (in_range 48 57 c) (c + 5)
  + Z.land (in_range 43 43 c) 63 + Z.land (in_range 47 47 c) 64.
Definition decode_base64 (c0 c1 c2 c3 : Z) : Z :=
  s32 (Z.lor (Z.lor (Z.lor (Z.shiftl (decode_char c0) 18) (Z.shiftl (decode_char c1) 12)) (Z.shiftl (decode_char c2) 6)) (decode_char c3)).

(** The sign of a group, and its three bytes. *)
Definition sign_of (v : Z) : Z := Z.shiftr (u32 v) 31.
Definition three_bytes (v : Z) : list Z := [Z.land (Z.shiftr v 16) 255; Z.land (Z.shiftr v 8) 255; Z.land v 255].

(** The characters before the last one, "="; [ret] becomes nonzero for a
    character that is none of base 64 and for bits that are left over. *)
Fixpoint decode_key (l : text) (ret : Z) : Z * list Z :=
  match l with
  | [c0; c1; c2] =>
      let v := decode_base64 c0 c1 c2 65 in (Z.lor ret (u8 (Z.lor (sign_of v) (Z.land v 255))), take 2 (three_bytes v))
  | c0 :: c1 :: c2 :: c3 :: l' =>
      let v := decode_base64 c0 c1 c2 c3 in
      let '(r, key) := decode_key l' (Z.lor ret (u8 (sign_of v))) in (r, three_bytes v ++ key)
  | _ => (ret, [])
  end.

Definition B64_LENGTH : nat := 44.
(** The error, and the key that was written if the length is right. *)
Definition wg_key_from_base64 (base64 : text) : Z * option (list Z) :=
  if negb (bool_decide (length base64 = B64_LENGTH)) || negb (default 0 (base64 !! 43%nat) =? 61) then (- EINVAL, None)
  else
    let '(ret, key) := decode_key (take 43 base64) 0 in
    (- Z.land EINVAL (Z.lnot (Z.shiftr (ret - 1) 8)), Some key).

(** [wg_generate_private_key] normalizes 32 random bytes. *)
Definition normalize_key (z : list Z) : list Z :=
  alter (fun b => Z.land b 248) 0%nat (alter (fun b => Z.lor (Z.land b 127) 64) 31%nat z).

(** ** Theorems on keys *)

Lemma decode_encode_char x : 0 <= x < 64 -> decode_char (encode_sextet x) = x /\ 43 <= encode_sextet x <= 122.
Proof.
  intros Hx. assert (forallb (fun n => let x := Z.of_nat n in (decode_char (encode_sextet x) =? x) && (43 <=? encode_sextet x) &&
    (encode_sextet x <=? 122)) (seq 0 64) = true) as F by (vm_compute; reflexivity).
  rewrite forallb_forall in F. specialize (F (Z.to_nat x)). cbv zeta in F. rewrite Z2Nat.id in F by lia.
  assert (In (Z.to_nat x) (seq 0 64)) as I by (apply in_seq; lia). specialize (F I). rewrite !andb_true_iff in F. lia.
Qed.
Lemma encode_decode_char c : 0 <= c < 256 -> decode_char c = -1 \/ 0 <= decode_char c < 64 /\ encode_sextet (decode_char c) = c.
Proof.
  intros Hc. assert (forallb (fun n => let c := Z.of_nat n in let v := decode_char c in
    (v =? -1) || ((0 <=? v) && (v <? 64) && (encode_sextet v =? c))) (seq 0 256) = true) as F by (vm_compute; reflexivity).
  rewrite forallb_forall in F. specialize (F (Z.to_nat c)). cbv zeta in F. rewrite Z2Nat.id in F by lia.
  assert (In (Z.to_nat c) (seq 0 256)) as I by (apply in_seq; lia). specialize (F I).
  rewrite orb_true_iff, !andb_true_iff in F. lia.
Qed.

(** Four groups of six bits make a number of 24 bits. *)
Lemma join_sextets v0 v1 v2 v3 :
  0 <= v0 < 64 -> 0 <= v1 < 64 -> 0 <= v2 < 64 -> 0 <= v3 < 64 ->
  s32 (Z.lor (Z.lor (Z.lor (Z.shiftl v0 18) (Z.shiftl v1 12)) (Z.shiftl v2 6)) v3) = v0 * 2 ^ 18 + v1 * 2 ^ 12 + v2 * 2 ^ 6 + v3.
Proof.
  intros H0 H1 H2 H3. rewrite !Z.shiftl_mul_pow2 by lia.
  rewrite (lor_above v0 (v1 * 2 ^ 12) 18) by lia.
  replace (v0 * 2 ^ 18 + v1 * 2 ^ 12) with ((v0 * 2 ^ 6 + v1) * 2 ^ 12) by lia. rewrite (lor_above _ (v2 * 2 ^ 6) 12) by lia.
  replace ((v0 * 2 ^ 6 + v1) * 2 ^ 12 + v2 * 2 ^ 6) with ((v0 * 2 ^ 12 + v1 * 2 ^ 6 + v2) * 2 ^ 6) by lia. rewrite lor_above by lia.
  rewrite s32_small by lia. lia.
Qed.

(** The groups of three bytes, and back. *)
Definition sextets (a b c : Z) : list Z := [a / 4; a mod 4 * 16 + b / 16; b mod 16 * 4 + c / 64; c mod 64].
Lemma encode_sextets a b c :
  0 <= a < 256 -> 0 <= b < 256 -> 0 <= c < 256 -> encode_base64 a b c = map encode_sextet (sextets a b c).
Proof.
  intros Ha Hb Hc. unfold encode_base64, sextets. change 63 with (Z.ones 6). rewrite !Z.land_ones, !Z.shiftr_div_pow2 by lia.
  rewrite !Z.shiftl_mul_pow2 by lia. rewrite lor_above by (Z.div_mod_to_equations; lia).
  rewrite lor_above by (Z.div_mod_to_equations; lia). repeat f_equal; Z.div_mod_to_equations; lia.
Qed.
Lemma sextets_range a b c : 0 <= a < 256 -> 0 <= b < 256 -> 0 <= c < 256 -> Forall (fun x => 0 <= x < 64) (sextets a b c).
Proof. intros Ha Hb Hc. repeat constructor; Z.div_mod_to_equations; lia. Qed.

Lemma decode_group x0 x1 x2 x3 :
  0 <= x0 < 64 -> 0 <= x1 < 64 -> 0 <= x2 < 64 -> 0 <= x3 < 64 ->
  decode_base64 (encode_sextet x0) (encode_sextet x1) (encode_sextet x2) (encode_sextet x3) =
    x0 * 2 ^ 18 + x1 * 2 ^ 12 + x2 * 2 ^ 6 + x3.
Proof.
  intros H0 H1 H2 H3. unfold decode_base64. rewrite !(fun x H => proj1 (decode_encode_char x H)) by done. by apply join_sextets.
Qed.
Lemma sextets_value a b c :
  0 <= a < 256 -> 0 <= b < 256 -> 0 <= c < 256 ->
  a / 4 * 2 ^ 18 + (a mod 4 * 16 + b / 16) * 2 ^ 12 + (b mod 16 * 4 + c / 64) * 2 ^ 6 + c mod 64 = a * 65536 + b * 256 + c.
Proof. intros. Z.div_mod_to_equations. lia. Qed.

Lemma three_bytes_value a b c :
  0 <= a < 256 -> 0 <= b < 256 -> 0 <= c < 256 -> three_bytes (a * 65536 + b * 256 + c) = [a; b; c].
Proof.
  intros Ha Hb Hc. unfold three_bytes. change 255 with (Z.ones 8). rewrite !Z.land_ones, !Z.shiftr_div_pow2 by lia.
  repeat f_equal; Z.div_mod_to_equations; lia.
Qed.
Lemma sign_small v : 0 <= v < 2 ^ 31 -> sign_of v = 0.
Proof. intros Hv. unfold sign_of. rewrite u32_small, Z.shiftr_div_pow2 by lia. apply Z.div_small. lia. Qed.

(** A group is read back. *)
Lemma decode_encode_group a b c :
  0 <= a < 256 -> 0 <= b < 256 -> 0 <= c < 256 ->
  exists c0 c1 c2 c3, encode_base64 a b c = [c0; c1; c2; c3] /\ decode_base64 c0 c1 c2 c3 = a * 65536 + b * 256 + c /\
    (c = 0 -> c3 = 65).
Proof.
  intros Ha Hb Hc. rewrite encode_sextets by done. do 4 eexists. split; [reflexivity|].
  pose proof (sextets_range a b c Ha Hb Hc) as F. inversion F as [|x0 ? R0 F1]. inversion F1 as [|x1 ? R1 F2].
  inversion F2 as [|x2 ? R2 F3]. inversion F3 as [|x3 ? R3 _]. subst. split; [|by intros ->].
  rewrite decode_group by done. by apply sextets_value.
Qed.

Ltac forall_lia := repeat (apply Forall_cons; split; [unfold is_byte in *; lia|]); apply Forall_nil_2.

Lemma decode_key_step c0 c1 c2 c3 c4 l ret :
  decode_key (c0 :: c1 :: c2 :: c3 :: c4 :: l) ret =
    (let v := decode_base64 c0 c1 c2 c3 in
     let '(r, key) := decode_key (c4 :: l) (Z.lor ret (u8 (sign_of v))) in (r, three_bytes v ++ key)).
Proof. done. Qed.

Lemma decode_encode_key n : forall key ret,
  length key = (3 * n + 2)%nat -> Forall is_byte key ->
  exists l, encode_key key = l ++ [61] /\ length l = (4 * n + 3)%nat /\ decode_key l ret = (ret, key).
Proof.
  induction n as [|n IH]; intros key ret Hl Hb.
  - destruct key as [|a [|b [|]]]; try done. inversion Hb as [|? ? Ha Hb']. inversion Hb' as [|? ? Hb1 _]. subst.
    destruct (decode_encode_group a b 0 Ha Hb1 ltac:(lia)) as (c0 & c1 & c2 & c3 & E & Ed & E3). specialize (E3 eq_refl). subst c3.
    exists [c0; c1; c2]. split; [cbn [encode_key]; by rewrite E|]. split; [done|]. cbn [decode_key]. rewrite Ed.
    unfold is_byte in *. rewrite sign_small by lia. rewrite three_bytes_value by lia. cbn [take].
    assert (Z.land (a * 65536 + b * 256 + 0) 255 = 0) as ->.
    { change 255 with (Z.ones 8). rewrite Z.land_ones by lia. Z.div_mod_to_equations. lia. }
    by rewrite Z.lor_0_r.
  - destruct key as [|a [|b [|c key]]]; try (simpl in Hl; lia). rewrite !Forall_cons in Hb. destruct Hb as (Ha & Hb & Hc & Hk).
    destruct (decode_encode_group a b c Ha Hb Hc) as (c0 & c1 & c2 & c3 & E & Ed & _).
    destruct (IH key ret ltac:(simpl in Hl; lia) Hk) as (l & E1 & El & Ek).
    exists (c0 :: c1 :: c2 :: c3 :: l). split.
    { destruct key; [simpl in Hl; lia|]. cbn [encode_key]. cbn [encode_key] in E1. by rewrite E, E1. }
    split; [simpl; lia|]. destruct l as [|c4 l]; [simpl in El; lia|]. rewrite decode_key_step, Ed. cbv zeta.
    unfold is_byte in *. rewrite sign_small by lia. change (u8 0) with 0. rewrite Z.lor_0_r, Ek, three_bytes_value by lia. done.
Qed.

(** ** Only the encodings of keys are accepted *)

Lemma sign_bit z : sign_of (s32 z) = Z.b2z (Z.testbit z 31).
Proof.
  unfold sign_of, s32, swrap, u32, wrap. rewrite Zminus_mod_idemp_l, Z.shiftr_div_pow2 by lia.
  replace (z + 2 ^ (32 - 1) - 2 ^ (32 - 1)) with z by lia. rewrite Z.testbit_spec' by lia. change (2 ^ 31) with 2147483648.
  change (2 ^ 32) with 4294967296. Z.div_mod_to_equations. lia.
Qed.
Lemma sextet_sign c k :
  0 <= c < 256 -> 0 <= k <= 18 ->
  Z.testbit (Z.shiftl (decode_char c) k) 31 = (decode_char c =? -1).
Proof.
  intros Hc Hk. rewrite Z.shiftl_spec by lia. destruct (encode_decode_char c Hc) as [->|[Hr _]].
  - by rewrite Z.bits_m1 by lia.
  - rewrite (proj2 (Z.eqb_neq _ _)) by lia. rewrite <- (Z.mod_small (decode_char c) (2 ^ 6)) by lia. apply Z.mod_pow2_bits_high. lia.
Qed.

(** A group without a sign has four characters of base 64. *)
Lemma group_accepted c0 c1 c2 c3 :
  is_byte c0 -> is_byte c1 -> is_byte c2 -> is_byte c3 -> sign_of (decode_base64 c0 c1 c2 c3) = 0 ->
  exists x0 x1 x2 x3, [c0; c1; c2; c3] = map encode_sextet [x0; x1; x2; x3] /\ Forall (fun x => 0 <= x < 64) [x0; x1; x2; x3] /\
    decode_base64 c0 c1 c2 c3 = x0 * 2 ^ 18 + x1 * 2 ^ 12 + x2 * 2 ^ 6 + x3.
Proof.
  unfold is_byte. intros H0 H1 H2 H3. unfold decode_base64. rewrite sign_bit, !Z.lor_spec, !sextet_sign by lia.
  rewrite <- (Z.shiftl_0_r (decode_char c3)) at 1. rewrite sextet_sign by lia.
  destruct (encode_decode_char c0 H0) as [->|[R0 E0]]; [done|]. destruct (encode_decode_char c1 H1) as [->|[R1 E1]]; [by rewrite orb_true_r|].
  destruct (encode_decode_char c2 H2) as [->|[R2 E2]]; [by rewrite orb_true_r|].
  destruct (encode_decode_char c3 H3) as [->|[R3 E3]]; [by rewrite orb_true_r|]. intros _.
  exists (decode_char c0), (decode_char c1), (decode_char c2), (decode_char c3). cbn [map]. rewrite E0, E1, E2, E3.
  split; [done|]. split; [by forall_lia|]. by apply join_sextets.
Qed.

(** The bytes of a group encode to its characters. *)
Lemma bytes_of_sextets x0 x1 x2 x3 :
  0 <= x0 < 64 -> 0 <= x1 < 64 -> 0 <= x2 < 64 -> 0 <= x3 < 64 ->
  exists a b c, three_bytes (x0 * 2 ^ 18 + x1 * 2 ^ 12 + x2 * 2 ^ 6 + x3) = [a; b; c] /\ Forall is_byte [a; b; c] /\
    encode_base64 a b c = map encode_sextet [x0; x1; x2; x3] /\
    (Z.land (x0 * 2 ^ 18 + x1 * 2 ^ 12 + x2 * 2 ^ 6 + x3) 255 = c).
Proof.
  intros H0 H1 H2 H3. set (a := x0 * 4 + x1 / 16). set (b := x1 mod 16 * 16 + x2 / 4). set (c := x2 mod 4 * 64 + x3).
  assert (x0 * 2 ^ 18 + x1 * 2 ^ 12 + x2 * 2 ^ 6 + x3 = a * 65536 + b * 256 + c) as -> by (unfold a, b, c; Z.div_mod_to_equations; lia).
  assert (0 <= a < 256) by (unfold a; Z.div_mod_to_equations; lia). assert (0 <= b < 256) by (unfold b; Z.div_mod_to_equations; lia).
  assert (0 <= c < 256) by (unfold c; Z.div_mod_to_equations; lia).
  exists a, b, c. split; [by apply three_bytes_value|]. split; [by forall_lia|]. split.
  - rewrite encode_sextets by done. f_equal. unfold sextets, a, b, c. repeat f_equal; Z.div_mod_to_equations; lia.
  - change 255 with (Z.ones 8). rewrite Z.land_ones by lia. Z.div_mod_to_equations. lia.
Qed.

Lemma sign_range v : sign_of v = 0 \/ sign_of v = 1.
Proof.
  unfold sign_of. pose proof (wrap_range 32 v ltac:(lia)) as Hr. fold (u32 v) in Hr. rewrite Z.shiftr_div_pow2 by lia.
  Z.div_mod_to_equations. lia.
Qed.
Lemma u8_sign v : u8 (sign_of v) = 0 -> sign_of v = 0.
Proof. destruct (sign_range v) as [-> | ->]; [done|]. vm_compute. done. Qed.

Lemma last_group_sign v : u8 (Z.lor (sign_of v) (Z.land v 255)) = 0 -> sign_of v = 0 /\ Z.land v 255 = 0.
Proof.
  change 255 with (Z.ones 8). rewrite Z.land_ones by lia. pose proof (Z.mod_pos_bound v (2 ^ 8) ltac:(lia)).
  destruct (sign_range v) as [-> | ->].
  - rewrite Z.lor_0_l, u8_small by lia. done.
  - intros E. exfalso. assert (Z.testbit (u8 (Z.lor 1 (v mod 2 ^ 8))) 0 = true) as B; [|by rewrite E in B].
    unfold u8, wrap. rewrite Z.mod_pow2_bits_low by lia. by rewrite Z.lor_spec.
Qed.

Lemma decode_key_accepts n : forall l ret key,
  length l = (4 * n + 3)%nat -> Forall is_byte l -> decode_key l ret = (0, key) ->
  ret = 0 /\ length key = (3 * n + 2)%nat /\ Forall is_byte key /\ encode_key key = l ++ [61].
Proof.
  induction n as [|n IH]; intros l ret key Hl Hb E.
  - destruct l as [|c0 [|c1 [|c2 [|]]]]; try done. rewrite !Forall_cons in Hb. destruct Hb as (H0 & H1 & H2 & _).
    cbn [decode_key] in E. apply pair_equal_spec in E as [E <-]. apply Z.lor_eq_0_iff in E as [-> [Es El]%last_group_sign].
    destruct (group_accepted c0 c1 c2 65 H0 H1 H2 ltac:(unfold is_byte; lia) Es) as (x0 & x1 & x2 & x3 & Ec & Hx & Ev).
    rewrite !Forall_cons in Hx. destruct Hx as (X0 & X1 & X2 & X3 & _).
    destruct (bytes_of_sextets x0 x1 x2 x3 X0 X1 X2 X3) as (a & b & c & E3 & Hby & Ee & Ecc). rewrite Ev in El |- *. rewrite El in Ecc.
    rewrite E3. rewrite !Forall_cons in Hby. destruct Hby as (A & B & _). cbn [take].
    split; [done|]. split; [done|]. split; [by forall_lia|]. cbn [encode_key]. rewrite Ecc, Ee, <- Ec. done.
  - destruct l as [|c0 [|c1 [|c2 [|c3 [|c4 l]]]]]; try (simpl in Hl; lia). rewrite decode_key_step in E. cbv zeta in E.
    rewrite 4!Forall_cons in Hb. destruct Hb as (H0 & H1 & H2 & H3 & Hb).
    destruct (decode_key (c4 :: l) _) as [r key'] eqn:E1. apply pair_equal_spec in E as [-> <-].
    apply (IH (c4 :: l)) in E1 as (Er & El & Hk & Ek); [|simpl in Hl |- *; lia|done].
    apply Z.lor_eq_0_iff in Er as [-> Es%u8_sign].
    destruct (group_accepted c0 c1 c2 c3 H0 H1 H2 H3 Es) as (x0 & x1 & x2 & x3 & Ec & Hx & Ev).
    rewrite !Forall_cons in Hx. destruct Hx as (X0 & X1 & X2 & X3 & _).
    destruct (bytes_of_sextets x0 x1 x2 x3 X0 X1 X2 X3) as (a & b & c & E3 & Hby & Ee & _). rewrite Ev, E3.
    split; [done|]. split; [simpl; lia|]. split; [by apply Forall_app|].
    destruct key' as [|k0 key']; [done|]. cbn [app]. change (encode_base64 a b c ++ encode_key (k0 :: key') = [c0; c1; c2; c3] ++ (c4 :: l) ++ [61]).
    by rewrite Ee, <- Ec, Ek.
Qed.

Lemma lor_byte a b : is_byte a -> is_byte b -> is_byte (Z.lor a b).
Proof.
  unfold is_byte. intros Ha Hb. rewrite <- (Z.mod_small a (2 ^ 8)), <- (Z.mod_small b (2 ^ 8)) by lia.
  rewrite <- !Z.land_ones, <- Z.land_lor_distr_l, Z.land_ones by lia. apply Z.mod_pos_bound. lia.
Qed.
Lemma u8_byte v : is_byte (u8 v).
Proof. apply (wrap_range 8). lia. Qed.
Lemma decode_key_ret n : forall l ret, length l = (4 * n + 3)%nat -> is_byte ret -> is_byte (fst (decode_key l ret)).
Proof.
  induction n as [|n IH]; intros l ret Hl Hr.
  - destruct l as [|c0 [|c1 [|c2 [|]]]]; try done. apply lor_byte; [done|apply u8_byte].
  - destruct l as [|c0 [|c1 [|c2 [|c3 [|c4 l]]]]]; try (simpl in Hl; lia). rewrite decode_key_step. cbv zeta.
    pose proof (IH (c4 :: l) (Z.lor ret (u8 (sign_of (decode_base64 c0 c1 c2 c3)))) ltac:(simpl in Hl |- *; lia)
      ltac:(apply lor_byte; [done|apply u8_byte])) as Hi.
    by destruct (decode_key (c4 :: l) _).
Qed.

(** C33. Keys in base 64: a text is accepted with a key exactly if it is the
    encoding of this key of 32 bytes.  In particular every key is read back, no
    text with another length, another last character, a character that is not of
    base 64 or bits that are left over is accepted. *)
Theorem wg_key_round_trip base64 key :
  Forall is_byte base64 ->
  wg_key_from_base64 base64 = (0, Some key) <-> length key = 32%nat /\ Forall is_byte key /\ wg_key_to_base64 key = base64.
Proof.
  intros Hb. unfold wg_key_from_base64, wg_key_to_base64. split.
  - case_bool_decide as Hl; [|done]. cbn [negb orb]. destruct (Z.eqb_spec (default 0 (base64 !! 43%nat)) 61) as [Hq|]; [|done].
    cbn [negb]. destruct (decode_key (take 43 base64) 0) as [ret key'] eqn:E. intros [= Er ->].
    assert (ret = 0) as ->.
    { pose proof (decode_key_ret 10 (take 43 base64) 0 ltac:(by rewrite length_take, Hl) ltac:(unfold is_byte; lia)) as Hr. rewrite E in Hr. cbn [fst] in Hr.
      destruct (decide (ret = 0)) as [|Hne]; [done|]. exfalso. unfold is_byte in Hr. rewrite Z.shiftr_div_pow2, Z.div_small in Er by lia. discriminate Er. }
    apply (decode_key_accepts 10) in E as (_ & El & Hk & Ek).
    + split; [done|]. split; [done|]. rewrite Ek. destruct (base64 !! 43%nat) as [c|] eqn:Ec; [|done]. cbn in Hq. subst c.
      rewrite <- (take_S_r _ _ _ Ec). apply take_ge. by rewrite Hl.
    + by rewrite length_take, Hl.
    + by apply Forall_take.
  - intros (Hl & Hk & <-). destruct (decode_encode_key 10 key 0 Hl Hk) as (l & E & El & Ed).
    rewrite E. rewrite bool_decide_true by (rewrite length_app, El; done). cbn [negb orb].
    rewrite lookup_app_r by lia. rewrite El. cbn. rewrite take_app_length' by lia. by rewrite Ed.
Qed.

Lemma wg_key_round_trip_witness :
  Forall is_byte (wg_key_to_base64 (replicate 32 9)) /\
  (wg_key_from_base64 (wg_key_to_base64 (replicate 32 9)) = (0, Some (replicate 32 9)) <->
   length (replicate 32 9) = 32%nat /\ Forall is_byte (replicate 32 9) /\
   wg_key_to_base64 (replicate 32 9) = wg_key_to_base64 (replicate 32 9)).
Proof.
  assert (Forall is_byte (wg_key_to_base64 (replicate 32 9))) as H.
  { apply (bool_decide_unpack (Forall (fun b => 0 <= b < 256) (wg_key_to_base64 (replicate 32 9)))). exact I. }
  split; [exact H|]. exact (wg_key_round_trip (wg_key_to_base64 (replicate 32 9)) (replicate 32 9) H).
Defined.
