(* ===== verification/WireGuardPeers.v ===== *)
(** * WireGuardPeers: the peers of the configuration
    (src/wireguard/wireguard_util.c)

    The peers are an array in memory that becomes a linked list: [store] has the
    peers at their addresses, and a peer that was allocated and not written has
    the contents that the memory had before.  The conversion of addresses, the
    resolver and the netlink interface are parameters. *)

From Stdlib Require Import String.
From stdpp Require Import gmap.
From S2P Require Import Prelude JsonText JsonNumbers Env EnclaveConfig WireGuard.

(** ** Data *)

Inductive family : Type := AF_INET | AF_INET6.
Record wg_allowedip : Type := mk_allowedip { ai_family : family; ai_ip : list Z; ai_cidr : Z }.
Definition WGPEER_REPLACE_ALLOWEDIPS : Z := 2.
Definition WGPEER_HAS_PUBLIC_KEY : Z := 4.
(** [p_next]: the address of the next peer, or 0. *)
Record wg_peer : Type := mk_peer {
  p_flags : Z; p_public_key : list Z; p_allowedips : list wg_allowedip; p_endpoint : option (list Z); p_next : Z }.
Definition set_next (a : Z) (p : wg_peer) : wg_peer := mk_peer (p_flags p) (p_public_key p) (p_allowedips p) (p_endpoint p) a.
Record wg_device : Type := mk_device { first_peer : Z; last_peer : Z }.

(** The addresses that a name resolves to: the family, the length and the bytes. *)
Record addrinfo : Type := mk_addrinfo { r_family : option family; r_addrlen : Z; r_addr : list Z }.
(** inet_pton, and getaddrinfo at the n-th attempt: an error is permanent or not. *)
Class Resolver : Type := {
  inet_pton : family -> text -> option (list Z);
  getaddrinfo : nat -> text -> text -> bool + addrinfo }.

(** strsep: the text before the first [c], and the rest if there is one. *)
Fixpoint strsep (c : Z) (s : text) : text * option text :=
  match s with
  | [] => ([], None)
  | x :: s' => if x =? c then ([], Some s') else let '(a, b) := strsep c s' in (x :: a, b)
  end.
(** The text before the last [c] and the text after it. *)
Fixpoint at_last (c : Z) (s : text) : option (text * text) :=
  match s with
  | [] => None
  | x :: s' =>
      match at_last c s' with
      | Some (a, b) => Some (x :: a, b)
      | None => if x =? c then Some ([], s') else None
      end
  end.

Section Peers.
Context `{Resolver}.
(** Whether [calloc] of an allowed address finds memory. *)
Variable calloc : bool.

(** ** Parsing *)

Definition wgu_parse_ip (value : text) : option (family * list Z) :=
  if bool_decide (58 ∈ value) then ip ← inet_pton AF_INET6 value; Some (AF_INET6, ip)
  else ip ← inet_pton AF_INET value; Some (AF_INET, ip).

Definition max_cidr (f : family) : Z := match f with AF_INET => 32 | AF_INET6 => 128 end.
Definition parse_cidr (f : family) (mask : option text) : option Z :=
  match mask with
  | None => Some (max_cidr f)
  | Some m =>
      if negb (_isdigit (default 0 (head m))) then None
      else
        let '(cidr, used, _) := c_strtoul m 10 in
        if negb (bool_decide (used = length m)) || (max_cidr f <? cidr) then None else Some (u8 cidr)
  end.
Definition parse_entry (entry : text) : option wg_allowedip :=
  let '(ip, mask) := strsep 47 entry in
  if negb calloc then None
  else '(f, a) ← wgu_parse_ip ip; cidr ← parse_cidr f mask; Some (mk_allowedip f a cidr).

(** The loop over the entries; [n]: the length of the text. *)
Fixpoint parse_entries (n : nat) (s : text) : option (list wg_allowedip) :=
  let '(entry, rest) := strsep 44 s in
  a ← parse_entry entry;
  match rest, n with
  | None, _ => Some [a]
  | Some s', S n' => l ← parse_entries n' s'; Some (a :: l)
  | Some _, O => None
  end.
Definition wgu_parse_allowedips (value : text) : option (list wg_allowedip) :=
  if bool_decide (value = []) then Some [] else parse_entries (length value) value.

(** The host and the port. *)
Definition split_endpoint (value : text) : option (text * text) :=
  match value with
  | [] => None
  | 91 :: s =>
      match strsep 93 s with
      | (_, None) => None
      | (host, Some s') => match s' with 58 :: (_ :: _) as port => Some (host, tail port) | _ => None end
      end
  | _ => match at_last 58 value with Some (host, (_ :: _) as port) => Some (host, port) | _ => None end
  end.

(** "timeout": microseconds. *)
Fixpoint resolve (fuel attempt : nat) (timeout : Z) (host port : text) : outcome (option addrinfo) :=
  match fuel with
  | O => Failed OutOfFuel
  | S fuel' =>
      match getaddrinfo attempt host port with
      | inr r => Done (Some r)
      | inl permanent =>
          let timeout := u32 (u32 (timeout * 3) / 2) in
          if permanent || (90000000 <=? timeout) then Done None else resolve fuel' (S attempt) timeout host port
      end
  end.
Definition RESOLVE_FUEL : nat := 12.
Definition wgu_parse_endpoint (value : text) : outcome (option (list Z)) :=
  match split_endpoint value with
  | None => Done None
  | Some (host, port) =>
      r ← resolve RESOLVE_FUEL 0 1000000 host port;
      match r with
      | Some a =>
          Done (match r_family a with
                | Some AF_INET => if r_addrlen a =? 16 then Some (r_addr a) else None
                | Some AF_INET6 => if r_addrlen a =? 28 then Some (r_addr a) else None
                | None => None
                end)
      | None => Done None
      end
  end.

(** ** Adding peers *)

Definition sizeof_peer : Z := 160.
Abbreviation store := (gmap Z wg_peer).

(** The last peer is written through its address. *)
Definition wgu_add_peer (dev : wg_device) (m : store) (new_peer : Z) : outcome (wg_device * store) :=
  if first_peer dev =? 0 then Done (mk_device new_peer new_peer, m)
  else
    match m !! last_peer dev with
    | None => Failed (BadPointer (last_peer dev))
    | Some p => Done (mk_device (first_peer dev) new_peer, <[last_peer dev := set_next new_peer p]> m)
    end.

(** [base]: the address of the array, or 0 if there is no memory; [old]: its
    contents before. *)
Variable base : Z.
Variable old : nat -> wg_peer.
Definition present (o : option text) : option text := match o with Some [] => None | o => o end.

(** The peers from index [i] on, or the error. *)
Fixpoint configure (i : nat) (peers : list wg_peer_config) : outcome (Z + list wg_peer) :=
  match peers with
  | [] => Done (inr [])
  | c :: peers' =>
      match present (peer_key c), present (peer_allowed_ips c) with
      | Some k, Some ips =>
          if base =? 0 then Failed (BadPointer 0)
          else
            match wg_key_from_base64 k with
            | (ret, Some key) =>
                if truthy ret then Done (inl ret)
                else
                  match wgu_parse_allowedips ips with
                  | None => Done (inl (- EINVAL))
                  | Some l =>
                      ep ← match present (peer_endpoint c) with
                           | None => Done (inr None)
                           | Some e => r ← wgu_parse_endpoint e;
                                       Done (match r with Some a => inr (Some a) | None => inl (- EINVAL) end)
                           end;
                      match ep with
                      | inl e => Done (inl e)
                      | inr ep =>
                          rest ← configure (S i) peers';
                          Done (match rest with
                                | inl e => inl e
                                | inr ps => inr (mk_peer (Z.lor WGPEER_HAS_PUBLIC_KEY WGPEER_REPLACE_ALLOWEDIPS) key l ep 0 :: ps)
                                end)
                      end
                  end
            | (ret, None) => Done (inl ret)
            end
      | _, _ =>
          rest ← configure (S i) peers';
          Done (match rest with inl e => inl e | inr ps => inr (old i :: ps) end)
      end
  end.

Definition peer_at (i : nat) : Z := base + Z.of_nat i * sizeof_peer.
Fixpoint store_peers (i : nat) (ps : list wg_peer) (m : store) : store :=
  match ps with [] => m | p :: ps' => store_peers (S i) ps' (<[peer_at i := p]> m) end.

(** The second loop: every element of the array. *)
Fixpoint add_from (i n : nat) (dev : wg_device) (m : store) : outcome (wg_device * store) :=
  match n with
  | O => Done (dev, m)
  | S n' => '(dev, m) ← wgu_add_peer dev m (peer_at i); add_from (S i) n' dev m
  end.

(** [wgu_add_peers] as the program calls it, with [set_device] 0. *)
Definition wgu_add_peers (dev : wg_device) (m : store) (peers : list wg_peer_config) : outcome (Z * wg_device * store) :=
  r ← configure 0 peers;
  match r with
  | inl e => Done (e, dev, m)
  | inr ps =>
      '(dev, m) ← add_from 0 (length peers) dev (if base =? 0 then m else store_peers 0 ps m);
      Done (0, dev, m)
  end.

(** What walking over the list sees. *)
Fixpoint walk (fuel : nat) (m : store) (a : Z) : outcome (list wg_peer) :=
  if a =? 0 then Done []
  else match fuel with
       | O => Failed OutOfFuel
       | S fuel' => match m !! a with
                    | None => Failed (BadPointer a)
                    | Some p => l ← walk fuel' m (p_next p); Done (p :: l)
                    end
       end.
End Peers.

(** ** The resolver is asked at most twelve times *)

Lemma resolve_returns `{Resolver} host port : exists r, resolve RESOLVE_FUEL 0 1000000 host port = Done r.
Proof.
  unfold RESOLVE_FUEL. do 12 (cbn [resolve]; destruct (getaddrinfo _ host port) as [[]|]; [by eexists| |by eexists]).
  eexists. vm_compute. reflexivity.
Qed.

(** ** The list that is built *)

Section Linking.
Context (base : Z) (base_positive : 0 < base).
Abbreviation at_ i := (peer_at base i).

Lemma peer_at_inj i j : at_ i = at_ j -> i = j.
Proof using. unfold peer_at, sizeof_peer. lia. Qed.
Lemma peer_at_nonzero i : at_ i <> 0.
Proof. unfold peer_at, sizeof_peer. lia. Qed.

Lemma store_peers_other ps : forall i m a, (forall k, (i <= k)%nat -> a <> at_ k) -> store_peers base i ps m !! a = m !! a.
Proof using.
  induction ps as [|p ps IH]; intros i m a Ha; cbn [store_peers]; [done|]. rewrite IH by (intros k Hk; apply Ha; lia).
  apply lookup_insert_ne. intros E. by apply (Ha i).
Qed.
Lemma store_peers_at ps : forall i k m p, ps !! k = Some p -> store_peers base i ps m !! at_ (i + k) = Some p.
Proof using.
  induction ps as [|q ps IH]; intros i [|k] m p Hk; cbn [store_peers lookup] in *; try done.
  - injection Hk as ->. rewrite Nat.add_0_r, store_peers_other; [apply lookup_insert_eq|]. intros j Hj E%peer_at_inj. lia.
  - replace (i + S k)%nat with (S i + k)%nat by lia. by apply IH.
Qed.

(** The peers with the addresses of the next ones; the last keeps its own. *)
Fixpoint relink (i : nat) (ps : list wg_peer) : list wg_peer :=
  match ps with
  | [] => []
  | [p] => [p]
  | p :: ps' => set_next (at_ (S i)) p :: relink (S i) ps'
  end.

(** Adding to a list whose last peer is before them. *)
Lemma add_from_spec ps : forall i p dev m,
  first_peer dev <> 0 -> last_peer dev = at_ i -> (forall k q, (p :: ps) !! k = Some q -> m !! at_ (i + k) = Some q) ->
  exists m', add_from base (S i) (length ps) dev m = Done (mk_device (first_peer dev) (at_ (i + length ps)), m') /\
    (forall k q, relink i (p :: ps) !! k = Some q -> m' !! at_ (i + k) = Some q) /\
    (forall a, (forall k, (i <= k)%nat -> a <> at_ k) -> m' !! a = m !! a).
Proof.
  induction ps as [|q ps IH]; intros i p dev m Hf Hl Hm.
  - exists m. cbn [add_from length]. destruct dev as [f l]. cbn in *. subst l. rewrite Nat.add_0_r. split; [done|]. by split.
  - cbn [add_from length]. unfold wgu_add_peer at 1. rewrite (proj2 (Z.eqb_neq _ _)) by done. rewrite Hl.
    pose proof (Hm 0%nat p eq_refl) as H0. rewrite Nat.add_0_r in H0. rewrite H0. cbn [mbind outcome_bind].
    destruct (IH (S i) q (mk_device (first_peer dev) (at_ (S i))) (<[at_ i := set_next (at_ (S i)) p]> m)) as (m' & E & Hr & Ho); [done|done| |].
    { intros k q' Hk. rewrite lookup_insert_ne by (intros E%peer_at_inj; lia).
      replace (S i + k)%nat with (i + S k)%nat by lia. by apply Hm. }
    exists m'. split; [|split].
    + rewrite E. by replace (S i + length ps)%nat with (i + S (length ps))%nat by lia.
    + intros [|k] q' Hk.
      * cbn in Hk. injection Hk as <-. rewrite Nat.add_0_r, Ho; [apply lookup_insert_eq|]. intros k Hk E'%peer_at_inj. lia.
      * replace (i + S k)%nat with (S i + k)%nat by lia. by apply Hr.
    + intros a Ha. rewrite Ho by (intros k Hk; apply Ha; lia). apply lookup_insert_ne. intros E'. by apply (Ha i).
Qed.

(** Walking over them, and on to where the last one points. *)
Lemma walk_relinked ps : forall i p m fuel l,
  (forall k q, relink i (p :: ps) !! k = Some q -> m !! at_ (i + k) = Some q) ->
  walk fuel m (p_next (default p (list.last ps))) = Done l ->
  walk (S (length ps) + fuel) m (at_ i) = Done (relink i (p :: ps) ++ l).
Proof.
  induction ps as [|q ps IH]; intros i p m fuel l Hm Hw.
  - cbn [length Nat.add walk relink]. rewrite (proj2 (Z.eqb_neq _ _)) by apply peer_at_nonzero.
    pose proof (Hm 0%nat p eq_refl) as H0. rewrite Nat.add_0_r in H0. rewrite H0. cbn in Hw |- *. by rewrite Hw.
  - change (S (length (q :: ps)) + fuel)%nat with (S (S (length ps) + fuel)). cbn [walk].
    rewrite (proj2 (Z.eqb_neq _ _)) by apply peer_at_nonzero.
    pose proof (Hm 0%nat _ eq_refl) as H0. rewrite Nat.add_0_r in H0. rewrite H0. cbn [set_next p_next].
    rewrite (IH (S i) q m fuel l); [done| |].
    + intros k q' Hk. replace (S i + k)%nat with (i + S k)%nat by lia. by apply Hm.
    + rewrite last_cons in Hw. by destruct (list.last ps).
Qed.

(** What the first loop leaves in the array. *)
Context `{Resolver}.
Variable old : nat -> wg_peer.
(** Both the key and the addresses are there. *)
Definition complete (c : wg_peer_config) : Prop := present (peer_key c) <> None /\ present (peer_allowed_ips c) <> None.
Definition configured (c : wg_peer_config) (p : wg_peer) : Prop :=
  exists k ips key l ep, present (peer_key c) = Some k /\ present (peer_allowed_ips c) = Some ips /\
    wg_key_from_base64 k = (0, Some key) /\ wgu_parse_allowedips true ips = Some l /\
    match present (peer_endpoint c) with Some e => wgu_parse_endpoint e = Done ep /\ ep <> None | None => ep = None end /\
    p = mk_peer (WGPEER_HAS_PUBLIC_KEY + WGPEER_REPLACE_ALLOWEDIPS) key l ep 0.
Definition array_peer (i : nat) (c : wg_peer_config) (p : wg_peer) : Prop := complete c /\ configured c p \/ ~ complete c /\ p = old i.

Lemma configure_array peers : forall i ps,
  configure true base old i peers = Done (inr ps) ->
  length ps = length peers /\ forall k c p, peers !! k = Some c -> ps !! k = Some p -> array_peer (i + k) c p.
Proof using base_positive.
  induction peers as [|c peers IH]; intros i ps E; cbn [configure] in E; [by injection E as <-|].
  assert (forall p, (forall rest, configure true base old (S i) peers = Done (inr rest) -> array_peer i c p) ->
    (rest ← configure true base old (S i) peers; Done (match rest with inl e => inl e | inr ps => inr (p :: ps) end)) = Done (inr ps) ->
    length ps = length (c :: peers) /\ forall k c' p', (c :: peers) !! k = Some c' -> ps !! k = Some p' -> array_peer (i + k) c' p') as Hrest.
  { intros p Hp Er. destruct (configure true base old (S i) peers) as [[e|rest]|f] eqn:Ec; try done. injection Er as <-.
    destruct (IH (S i) rest Ec) as [Hl Ha]. split; [simpl; by rewrite Hl|]. intros [|k] c' p' Hc Hp'.
    - injection Hc as <-. injection Hp' as <-. rewrite Nat.add_0_r. by eapply Hp.
    - replace (i + S k)%nat with (S i + k)%nat by lia. by apply Ha. }
  destruct (present (peer_key c)) as [k|] eqn:Ek; [|apply (Hrest (old i)); [|exact E]; intros _ _; right; split; [|done]; intros [C _]; by rewrite Ek in C].
  destruct (present (peer_allowed_ips c)) as [ips|] eqn:Ei;
    [|apply (Hrest (old i)); [|exact E]; intros _ _; right; split; [|done]; intros [_ C]; by rewrite Ei in C].
  rewrite (proj2 (Z.eqb_neq base 0)) in E by lia.
  destruct (wg_key_from_base64 k) as [ret [key|]] eqn:Ew; [|done]. unfold truthy in E. destruct (Z.eqb_spec ret 0) as [->|]; [|done]. cbn [negb] in E.
  destruct (wgu_parse_allowedips true ips) as [l|] eqn:El; [|done].
  assert (complete c) as C by (split; congruence).
  destruct (present (peer_endpoint c)) as [e|] eqn:Ee.
  - destruct (wgu_parse_endpoint e) as [[a|]|f] eqn:Er; try done. cbn [mbind outcome_bind] in E.
    apply (Hrest _) in E; [done|]. intros _ _. left. split; [done|]. exists k, ips, key, l, (Some a). by rewrite Ee.
  - cbn [mbind outcome_bind] in E. apply (Hrest _) in E; [done|]. intros _ _. left. split; [done|]. exists k, ips, key, l, None. by rewrite Ee.
Qed.

Lemma key_refused k r : wg_key_from_base64 k = (r, None) -> r <> 0.
Proof. unfold wg_key_from_base64. case_match; [by intros [= <-]|]. by destruct (decode_key _ _). Qed.

(** Zero is not an error. *)
Lemma configure_error peers : forall i e, configure true base old i peers = Done (inl e) -> e <> 0.
Proof using.
  induction peers as [|c peers IH]; intros i e E; cbn [configure] in E; [done|].
  assert (forall p, (rest ← configure true base old (S i) peers; Done (match rest with inl e => inl e | inr ps => inr (p :: ps) end)) = Done (inl e) ->
    e <> 0) as Hrest.
  { intros p Er. destruct (configure true base old (S i) peers) as [[e'|rest]|f] eqn:Ec; try done. injection Er as <-. by eapply IH. }
  destruct (present (peer_key c)) as [k|]; [|by eapply Hrest]. destruct (present (peer_allowed_ips c)) as [ips|]; [|by eapply Hrest].
  destruct (base =? 0); [done|]. destruct (wg_key_from_base64 k) as [ret [key|]] eqn:Ew.
  2:{ injection E as <-. by eapply key_refused. }
  unfold truthy in E. destruct (Z.eqb_spec ret 0) as [->|Hret]; cbn [negb] in E; [|by injection E as <-].
  destruct (wgu_parse_allowedips true ips); [|by injection E as <-]. destruct (present (peer_endpoint c)) as [ep|]; [|by eapply Hrest].
  destruct (wgu_parse_endpoint ep) as [[a|]|f]; try done; cbn [mbind outcome_bind] in E; [by eapply Hrest|by injection E as <-].
Qed.

(** C34. The list of peers that is handed to WireGuard.  When [wgu_add_peers]
    returns 0 for a new device, walking over its list gives one peer for every
    peer of the configuration, in order: a complete one has the key and the
    addresses that were configured; one that was skipped for a missing key or
    missing addresses is in the list all the same, as what was in the memory of
    the array before.  If the last peer was skipped the walk goes on to the
    address which that memory has in place of the next peer. *)
Theorem peers_linked peers m dev' m' :
  peers <> [] -> wgu_add_peers true base old (mk_device 0 0) m peers = Done (0, dev', m') ->
  exists ps, length ps = length peers /\
    (forall k c p, peers !! k = Some c -> ps !! k = Some p -> array_peer k c p) /\
    forall fuel l, walk fuel m' (p_next (default (old 0) (list.last ps))) = Done l ->
      walk (length peers + fuel) m' (first_peer dev') = Done (relink 0 ps ++ l).
Proof using base_positive.
  intros Hne E. unfold wgu_add_peers in E. destruct (configure true base old 0 peers) as [[e|ps]|f] eqn:Ec; try done.
  { exfalso. injection E as -> _ _. by apply configure_error in Ec. }
  destruct (configure_array peers 0 ps Ec) as [Hl Ha]. cbn [mbind outcome_bind] in E. rewrite (proj2 (Z.eqb_neq base 0)) in E by lia.
  exists ps. split; [done|]. split; [exact Ha|]. intros fuel l Hw.
  destruct ps as [|p ps]; [by destruct peers|]. rewrite <- Hl in E |- *. cbn [length add_from] in E. unfold wgu_add_peer at 1 in E.
  cbn [first_peer Z.eqb mbind outcome_bind] in E.
  destruct (add_from_spec ps 0 p (mk_device (peer_at base 0) (peer_at base 0)) (store_peers base 0 (p :: ps) m)) as (m1 & E1 & Hr & _).
  - apply peer_at_nonzero.
  - done.
  - intros k q Hk. by apply store_peers_at.
  - rewrite E1 in E. injection E as <- <-. cbn [first_peer]. cbn [length]. apply walk_relinked; [exact Hr|].
    revert Hw. rewrite last_cons. by destruct (list.last ps).
Qed.
End Linking.

(** A resolver that takes the characters for the address. *)
#[export] Instance toy_resolver : Resolver := { inet_pton _ s := Some s; getaddrinfo _ _ _ := inl true }.
Definition sample_peer : wg_peer_config := WgPeer (Some (wg_key_to_base64 (replicate 32 9))) (Some (bytes "10.0.0.1/24")) None.
Definition keyless_peer : wg_peer_config := WgPeer None (Some (bytes "10.0.0.2")) None.
Definition old_memory (i : nat) : wg_peer := mk_peer 171 (replicate 32 171) [] None 0.

Lemma peers_linked_witness :
  exists dev m ps, wgu_add_peers true 4096 old_memory (mk_device 0 0) ∅ [sample_peer; keyless_peer] = Done (0, dev, m) /\
    length ps = 2%nat /\ walk 2 m (first_peer dev) = Done (relink 4096 0 ps) /\ list.last ps = Some (old_memory 1).
Proof.
  assert (exists dev m, wgu_add_peers true 4096 old_memory (mk_device 0 0) ∅ [sample_peer; keyless_peer] = Done (0, dev, m))
    as (dev & m & E) by (do 2 eexists; vm_compute; reflexivity).
  destruct (peers_linked 4096 ltac:(lia) old_memory [sample_peer; keyless_peer] ∅ dev m ltac:(done) E) as (ps & Hl & Ha & Hw).
  destruct ps as [|p1 [|p2 [|p3 ps]]]; [discriminate Hl|discriminate Hl| |discriminate Hl].
  destruct (Ha 1%nat keyless_peer p2 eq_refl eq_refl) as [[[C _] _]|[_ ->]]; [destruct (C eq_refl)|].
  exists dev, m, [p1; old_memory 1]. split; [exact E|]. split; [reflexivity|]. split; [|reflexivity].
  exact (Hw 0%nat [] eq_refl).
Defined.
