(* ===== verification/KernelStart.v ===== *)
(** * KernelStart: the start and the end of the kernel (src/lkl/setup.c)

    What the enclave does before the first process runs, from registering the
    system calls to the name of the host, and what it does when the program
    ends.  The calls are recorded like those of Disks; random numbers, files of
    the kernel and addresses are parameters. *)

From Stdlib Require Import String.
From stdpp Require Import gmap.
From S2P Require Import Prelude JsonText JsonNumbers Env EnclaveConfig VicCrypto DeviceMapper Disks WireGuard WireGuardPeers.

(** ** Times *)

Record timespec : Type := mk_timespec { tv_sec : Z; tv_nsec : Z }.
Definition timespec_diff (end_ start : timespec) : timespec :=
  if (tv_sec start <=? tv_sec end_) || ((tv_sec start =? tv_sec end_) && (tv_nsec start <? tv_nsec end_)) then
    mk_timespec (tv_sec end_ - tv_sec start - (if tv_nsec end_ <? tv_nsec start then 1 else 0))
      (Z.rem (1000000000 + tv_nsec end_ - tv_nsec start) 1000000000)
  else mk_timespec 0 0.

(** ** Numbers *)

(** atoi: [strtol], which stops at the bounds of long, cut to int. *)
Definition atoi (s : text) : Z :=
  let l1 := drop_spaces s in
  let '(neg, l2) := match l1 with
                    | c :: l' => if c =? 45 then (true, l') else if c =? 43 then (false, l') else (false, l1)
                    | [] => (false, l1)
                    end in
  let '(x, _) := take_digits 10 l2 0 0 in
  s32 (if neg then Z.max (- x) (- 2 ^ 63) else Z.min x (2 ^ 63 - 1)).

(** ** The command line of the kernel *)

Definition BOOTARGS_LEN : Z := 128.
Definition BOOTARGS_CONSOLE_OPTION : text := bytes "console=hvc0".
Definition BOOTARGS_QUIET_OPTION : text := bytes "quiet".
Definition boot_line (kernel_cmd : text) (kernel_verbose : bool) : text :=
  kernel_cmd ++ [32] ++ BOOTARGS_CONSOLE_OPTION ++ (if kernel_verbose then [] else [32] ++ BOOTARGS_QUIET_OPTION).
(** What the options take, with a blank each. *)
Definition flen (kernel_verbose : bool) : Z :=
  Z.of_nat (length BOOTARGS_CONSOLE_OPTION) + 1 + (if kernel_verbose then 0 else Z.of_nat (length BOOTARGS_QUIET_OPTION) + 1).
Definition bootargs (kernel_cmd : text) (kernel_verbose : bool) : option text :=
  if BOOTARGS_LEN - flen kernel_verbose <? Z.of_nat (length kernel_cmd) then None
  else Some (take (Z.to_nat (BOOTARGS_LEN - 1)) (boot_line kernel_cmd kernel_verbose)).

(** ** Settings of the kernel *)

Fixpoint skip_blanks (s : text) : text :=
  match s with c :: s' => if c =? 32 then skip_blanks s' else s | [] => [] end.

Section Start.
Context `{LklKernel} `{Resolver}.

Definition lift_outcome {A} (o : outcome A) : DM A := fun s => match o with Failed f => Failed f | Done a => Done (a, s) end.

(** The loop of [do_sysctl]: settings end at a semicolon; a warning ends it. *)
Fixpoint sysctl_loop (fuel : nat) (s : text) : DM unit :=
  match s with
  | [] => mret tt
  | _ =>
      match fuel with
      | O => fun _ => Failed OutOfFuel
      | S fuel' =>
          match strsep 61 (skip_blanks s) with
          | (_, None) => mret tt
          | (path, Some rest) =>
              let '(val, next) := strsep 59 rest in
              r ← sys (Sysctl path val);
              if truthy r then mret tt else sysctl_loop fuel' (default [] next)
          end
      end
  end.
Definition do_sysctl (sysctl : option text) : DM unit :=
  match sysctl with Some s => sysctl_loop (length s) s | None => mret tt end.

(** ** Entropy *)

(** [poolsize]: the first line of the file, if it can be read; [rdrand]: the
    n-th random number; [old]: bytes of the buffer that are not written. *)
Variable poolsize : option text.
Variable malloc : Z -> bool.
Variable rdrand : nat -> Z.
Variable old : list Z.

Definition init_random : DM unit :=
  match poolsize with
  | None => mret tt
  | Some line =>
      let n := Z.quot (atoi (take 7 line)) 8 in
      if negb (malloc (8 + n)) then mret tt
      else
        let words := Z.to_nat (Z.quot n 8) in
        let data := flat_map (fun i => le_bytes 8 (rdrand i)) (seq 0 words) in
        _ ← sys (AddEntropy (s32 (n * 8)) (data ++ drop (length data) (take (Z.to_nat n) old)));
        mret tt
  end.

(** The time of the host, in memory outside of the enclave. *)
Variable timer_dev_outside : bool.
Variable init_walltime : timespec.
Definition init_enclave_clock : DM unit :=
  if negb timer_dev_outside then sgxlkl_fail
  else sys_ok (ClockSettime (tv_sec init_walltime) (tv_nsec init_walltime)).

(** ** Network *)

(** The bytes of the address as a number of the machine. *)
Definition _parse_ip4 (str : option text) : DM Z :=
  match str with
  | None => fun _ => Failed (BadPointer 0)
  | Some s => match inet_pton AF_INET s with Some a => mret (le_value a) | None => sgxlkl_fail end
  end.
(** A call whose negative answer is the end. *)
Definition sys_nonneg (c : lkl_call) : DM unit := r ← sys c; if r <? 0 then sgxlkl_fail else mret tt.

Context `{Gen : GeneratedConfig}.

Definition lkl_poststart_net (cfg : enclave_config) (mtu : Z) (net_dev_id : Z) : DM unit :=
  _ ← (if 0 <=? net_dev_id then
         ifidx ← sys (NetdevIfindex net_dev_id);
         ip4 ← _parse_ip4 (net_ip4 cfg);
         match net_mask4 cfg with
         | None => fun _ => Failed (BadPointer 0)
         | Some mask =>
             _ ← sys_nonneg (IfSetIpv4 ifidx ip4 (atoi mask));
             _ ← sys_nonneg (IfUp ifidx);
             _ ← match net_gw4 cfg with
                 | Some gw => gw4 ← _parse_ip4 (Some gw); sys_nonneg (SetGateway gw4)
                 | None => mret tt
                 end;
             if truthy mtu then _ ← sys (IfSetMtu ifidx mtu); mret tt else mret tt
         end
       else mret tt);
  sys_nonneg (IfUp 1).

(** The private key is zero if the text of the key has the wrong length; the
    result of reading it, and that of adding the peers, are not looked at. *)
Variable random_key : list Z.
Variable peer_base : Z.
Variable peer_memory : nat -> wg_peer.
Definition wg_private_key (key : option text) : list Z :=
  match key with
  | Some k => default (replicate 32 0) (snd (wg_key_from_base64 k))
  | None => normalize_key random_key
  end.
Definition init_wireguard (cfg : enclave_config) : DM unit :=
  let key := wg_private_key (wg_key (wg cfg)) in
  '(_, dev, _) ← lift_outcome (wgu_add_peers true peer_base peer_memory (mk_device 0 0) ∅ (wg_peers (wg cfg)));
  r ← sys (WgAddDevice (bytes "wg0"));
  if r <? 0 then mret tt
  else
    r ← sys (WgSetDevice key (u16 (wg_listen_port (wg cfg))) (first_peer dev));
    if r <? 0 then mret tt
    else
      ifidx ← sys (IfnameIfindex (bytes "wg0"));
      ip ← _parse_ip4 (wg_ip (wg cfg));
      _ ← sys (IfSetIpv4 ifidx ip 24);
      _ ← sys (IfUp ifidx);
      mret tt.

(** ** Starting *)

(** The switches of sgxlkl_trace_... . *)
Record trace_flags : Type := mk_trace {
  tr_lkl : bool; tr_internal : bool; tr_ignored : bool; tr_unsupported : bool; tr_redirect : bool; tr_mmap : bool;
  tr_signal : bool; tr_thread : bool; tr_disk : bool }.
Variable getenv : text -> option text.
Definition traced : trace_flags :=
  let on v := getenv_bool getenv (bytes v) false in
  let all := on "SGXLKL_TRACE_SYSCALL"%string in
  mk_trace (all || on "SGXLKL_TRACE_LKL_SYSCALL"%string) (all || on "SGXLKL_TRACE_INTERNAL_SYSCALL"%string)
    (all || on "SGXLKL_TRACE_IGNORED_SYSCALL"%string) (all || on "SGXLKL_TRACE_UNSUPPORTED_SYSCALL"%string)
    (on "SGXLKL_TRACE_REDIRECT_SYSCALL"%string) (on "SGXLKL_TRACE_MMAP"%string) (on "SGXLKL_TRACE_SIGNAL"%string)
    (on "SGXLKL_TRACE_THREAD"%string) (on "SGXLKL_TRACE_DISK"%string).

(** The shared memory has a network device; the bounce buffer is outside. *)
Variable has_net : bool.
Variable swiotlb_outside : bool.

Definition lkl_start_init (cfg : enclave_config) : DM trace_flags :=
  _ ← sys RegisterSyscallOverrides;
  _ ← sys InitEventChannel;
  _ ← sys ConsoleAdd;
  net_dev_id ← (if has_net then sys NetdevAdd else mret (-1));
  match kernel_cmd cfg with
  | None => fun _ => Failed (BadPointer 0)
  | Some cmd =>
      match bootargs cmd (kernel_verbose cfg) with
      | None => sgxlkl_fail
      | Some cmdline =>
          _ ← (if swiotlb cfg then if swiotlb_outside then _ ← sys InitSwiotlb; mret tt else sgxlkl_fail else mret tt);
          _ ← sys_nonneg (StartKernel cmdline);
          _ ← lkl_mount_virtual;
          _ ← init_random;
          _ ← init_enclave_clock;
          _ ← do_sysctl (sysctl cfg);
          _ ← (if hostnet cfg then mret tt else lkl_poststart_net cfg (s32 (tap_mtu cfg)) net_dev_id);
          _ ← init_wireguard cfg;
          match hostname cfg with
          | None => fun _ => Failed (BadPointer 0)
          | Some name => _ ← sys (Sethostname name); mret traced
          end
      end
  end.

(** ** Terminating *)

(** The exit status that the host sees. *)
Definition exposed_status (mode : sgxlkl_exit_status_mode_t) (status : Z) : outcome Z :=
  let name := sgxlkl_exit_status_mode_t_to_string mode in
  if bool_decide (name = bytes "full") then Done status
  else if bool_decide (name = bytes "binary") then Done (if status =? 0 then 0 else 1)
  else if bool_decide (name = bytes "none") then Done 0
  else Failed Assertion.

Definition lkl_terminate (cfg : enclave_config) (status : Z) : DM Z :=
  _ ← sys TerminateSchedulers;
  exit ← lift_outcome (exposed_status (exit_status cfg) status);
  _ ← unmount_all (root cfg) (mounts cfg);
  _ ← sys NetdevRemove;
  _ ← sys_nonneg SysHalt;
  _ ← sys ShutdownNotification;
  _ ← sys VioTerminate;
  _ ← sys TerminateThisScheduler;
  mret exit.
End Start.

(** [lkl_access_ok]: zero bytes may be anywhere. *)
Definition lkl_access_ok (is_within_enclave : Z -> Z -> bool) (addr size : Z) : bool :=
  if negb (truthy size) then true else is_within_enclave addr size.
