(* ===== verification/KernelStartProps.v ===== *)
(** * KernelStartProps: theorems on the start and the end of the kernel

    The settings of the kernel are made in order; the command line is cut by one
    character at the limit that is checked; and the file systems that
    [lkl_mount_disks] mounted are unmounted in the opposite order. *)

From Stdlib Require Import String.
From stdpp Require Import gmap.
From S2P Require Import Prelude JsonText Env EnclaveConfig VicCrypto Luks2 DeviceMapper Disks WireGuardPeers MountProps KernelStart.
From S2P Require Import LuksOpen Cryptsetup Luks2Header Luks2Json Luks1 Luks1Header Blockdev Luks1Props Luks2Props Luks2Format DiskProps.

(** ** Times *)

Definition nanos (t : timespec) : Z := tv_sec t * 1000000000 + tv_nsec t.
Definition valid_time (t : timespec) : Prop := 0 <= tv_nsec t < 1000000000.

(** The difference of two times, if the first is not before the second; if it is,
    it is zero only if the seconds differ: within a second the result is minus
    one second and some nanoseconds, where the comment promises zero. *)
Theorem timespec_diff_spec end_ start :
  valid_time end_ -> valid_time start ->
  (nanos start <= nanos end_ -> nanos (timespec_diff end_ start) = nanos end_ - nanos start /\ valid_time (timespec_diff end_ start)) /\
  (nanos end_ < nanos start ->
     timespec_diff end_ start =
       if tv_sec end_ =? tv_sec start then mk_timespec (-1) (1000000000 + tv_nsec end_ - tv_nsec start) else mk_timespec 0 0).
Proof.
  unfold valid_time, nanos. intros He Hs. unfold timespec_diff. split; intros Hn.
  - assert ((tv_sec start <=? tv_sec end_) = true) as -> by (apply Z.leb_le; lia). cbn [orb tv_sec tv_nsec].
    destruct (Z.ltb_spec (tv_nsec end_) (tv_nsec start)).
    + rewrite Z.rem_small by lia. lia.
    + rewrite Z.rem_mod_nonneg by lia. Z.div_mod_to_equations. lia.
  - destruct (Z.eqb_spec (tv_sec end_) (tv_sec start)) as [E|E].
    + rewrite E, Z.leb_refl. cbn [orb]. rewrite (proj2 (Z.ltb_lt _ _)) by lia. rewrite Z.rem_small by lia. f_equal. lia.
    + rewrite (proj2 (Z.leb_gt _ _)), (proj2 (Z.eqb_neq _ _)) by lia. done.
Qed.

(** ** The command line *)

Lemma boot_line_length cmd v : Z.of_nat (length (boot_line cmd v)) = Z.of_nat (length cmd) + flen v.
Proof. unfold boot_line, flen. rewrite !length_app. destruct v; simpl; lia. Qed.

(** The command line of the kernel.  It is refused if it cannot fit into the
    buffer of 128 characters, and is complete if it is shorter than that; at the
    limit itself, which the check accepts, the terminator takes the place of its
    last character. *)
Theorem bootargs_spec cmd v :
  let limit := BOOTARGS_LEN - flen v in
  (limit < Z.of_nat (length cmd) -> bootargs cmd v = None) /\
  (Z.of_nat (length cmd) < limit -> bootargs cmd v = Some (boot_line cmd v)) /\
  (Z.of_nat (length cmd) = limit -> bootargs cmd v = Some (removelast (boot_line cmd v)) /\ length (boot_line cmd v) = 128%nat).
Proof.
  cbv zeta. pose proof (boot_line_length cmd v) as Hl. unfold bootargs. unfold BOOTARGS_LEN in *. split; [|split]; intros Hc.
  - by rewrite (proj2 (Z.ltb_lt _ _)).
  - rewrite (proj2 (Z.ltb_ge _ _)) by lia. f_equal. apply take_ge. lia.
  - rewrite (proj2 (Z.ltb_ge _ _)) by lia. assert (length (boot_line cmd v) = 128%nat) as H128 by lia. split; [|done].
    f_equal. rewrite removelast_firstn_len, H128. done.
Qed.

(** ** Settings *)

Section Settings.
Context `{LklKernel}.

Lemma skip_blanks_length s : (length (skip_blanks s) <= length s)%nat.
Proof. induction s as [|c s IH]; [done|]. cbn [skip_blanks]. case_match; simpl; lia. Qed.
Lemma strsep_length c s a b : strsep c s = (a, Some b) -> (length a + length b < length s)%nat.
Proof.
  revert a b. induction s as [|x s IH]; intros a b; [done|]. cbn [strsep]. destruct (x =? c).
  - intros [= <- <-]. simpl. lia.
  - destruct (strsep c s) as [a' b'] eqn:E. intros [= <- ->]. specialize (IH _ _ eq_refl). simpl. lia.
Qed.

(** Whatever the text is, the loop ends. *)
Lemma sysctl_returns fuel : forall s st, (length s <= fuel)%nat -> exists st', sysctl_loop fuel s st = Done (tt, st').
Proof.
  induction fuel as [|fuel IH]; intros s st Hl; [destruct s; [by eexists|simpl in Hl; lia]|].
  destruct s as [|c s]; [by eexists|]. cbn [sysctl_loop]. set (t := c :: s) in *.
  destruct (strsep 61 (skip_blanks t)) as [path [rest|]] eqn:E; [|by eexists].
  destruct (strsep 59 rest) as [val next] eqn:E2. unfold mbind, DM_bind, sys. case_match; [by eexists|]. apply IH.
  apply strsep_length in E. pose proof (skip_blanks_length t). destruct next as [next|]; [|simpl; lia]. apply strsep_length in E2. simpl in *. lia.
Qed.

(** Settings with blanks before them. *)
Record setting : Type := mk_setting { st_blanks : nat; st_path : text; st_value : text }.
Definition setting_ok (x : setting) : Prop := Forall (fun c => c <> 61) (st_path x) /\ head (st_path x) <> Some 32 /\ Forall (fun c => c <> 59) (st_value x).
Definition setting_text (x : setting) : text := replicate (st_blanks x) 32 ++ st_path x ++ [61] ++ st_value x.
(** [semicolon]: also after the last one. *)
Fixpoint settings_text (semicolon : bool) (l : list setting) : text :=
  match l with
  | [] => []
  | [x] => setting_text x ++ (if semicolon then [59] else [])
  | x :: l' => setting_text x ++ [59] ++ settings_text semicolon l'
  end.
(** The calls for settings, up to one that fails. *)
Fixpoint settings_calls (h : calls) (l : list setting) : calls :=
  match l with
  | [] => []
  | x :: l' =>
      let c := Sysctl (st_path x) (st_value x) in
      let r := lkl_answer h c in
      (c, r) :: (if truthy r then [] else settings_calls (h ++ [(c, r)]) l')
  end.

Lemma strsep_found c a b : Forall (fun x => x <> c) a -> strsep c (a ++ [c] ++ b) = (a, Some b).
Proof.
  induction 1 as [|x a Hx _ IH]; cbn [app strsep]; [by rewrite Z.eqb_refl|]. rewrite (proj2 (Z.eqb_neq _ _)) by done.
  cbn [app] in IH. by rewrite IH.
Qed.
Lemma strsep_none c a : Forall (fun x => x <> c) a -> strsep c a = (a, None).
Proof. induction 1 as [|x a Hx _ IH]; cbn [strsep]; [done|]. rewrite (proj2 (Z.eqb_neq _ _)) by done. by rewrite IH. Qed.
Lemma skip_replicate k s : head s <> Some 32 -> skip_blanks (replicate k 32 ++ s) = s.
Proof.
  intros Hs. induction k as [|k IH]; [|done]. destruct s as [|c s]; [done|]. cbn [replicate app skip_blanks].
  rewrite (proj2 (Z.eqb_neq _ _)); [done|]. intros ->. by apply Hs.
Qed.

(** One setting of the text. *)
Lemma sysctl_step fuel x rest st :
  setting_ok x -> (rest = [] \/ exists r, rest = [59] ++ r) ->
  sysctl_loop (S fuel) (setting_text x ++ rest) st =
    (r ← sys (Sysctl (st_path x) (st_value x)); if truthy r then mret tt else sysctl_loop fuel (tail rest)) st.
Proof.
  intros (H1 & H2 & H3) Hr. set (t := setting_text x ++ rest).
  assert (skip_blanks t = st_path x ++ [61] ++ st_value x ++ rest) as Hs.
  { unfold t, setting_text. rewrite <- !app_assoc. apply skip_replicate. destruct (st_path x); [done|exact H2]. }
  assert (t <> []) as Ht. { intros E. rewrite E in Hs. by destruct (st_path x). }
  destruct t as [|c t]; [done|]. cbn [sysctl_loop]. rewrite Hs, strsep_found by done.
  destruct Hr as [->|[r ->]]; [by rewrite app_nil_r, strsep_none|by rewrite strsep_found].
Qed.

Lemma settings_run semicolon l : forall fuel st, Forall setting_ok l -> (length (settings_text semicolon l) <= fuel)%nat ->
  sysctl_loop fuel (settings_text semicolon l) st =
    Done (tt, mk_dstate (history st ++ settings_calls (history st) l) (disk_host st) (mounted st)).
Proof.
  induction l as [|x l IH]; intros fuel st Hok Hl.
  - cbn [settings_text settings_calls]. rewrite app_nil_r. destruct st. by destruct fuel.
  - apply Forall_cons in Hok as [Hx Hok].
    assert (exists rest, settings_text semicolon (x :: l) = setting_text x ++ rest /\ (rest = [] \/ exists r, rest = [59] ++ r) /\
      tail rest = settings_text semicolon l) as (rest & E & Hr & Ht).
    { destruct l as [|y l]; cbn [settings_text]; [destruct semicolon|]; eexists; (split; [reflexivity|]); eauto. }
    rewrite E in Hl |- *. destruct fuel as [|fuel].
    { exfalso. unfold setting_text in Hl. rewrite !length_app in Hl. simpl in Hl. lia. }
    rewrite sysctl_step by done. unfold mbind, DM_bind, sys. cbn [settings_calls].
    destruct (truthy (lkl_answer (history st) (Sysctl (st_path x) (st_value x)))) eqn:Er; [done|].
    rewrite Ht, IH; [|done|].
    + cbn [history disk_host mounted]. by rewrite <- app_assoc.
    + rewrite length_app in Hl. rewrite <- Ht. unfold setting_text in Hl. rewrite !length_app in Hl.
      destruct rest; simpl in Hl |- *; lia.
Qed.

(** The settings of the configuration.  For a text of settings of the form
    "path=value" with semicolons between them, and blanks before them,
    [do_sysctl] asks the kernel for exactly these settings in this order, up to
    the first that the kernel refuses, and always returns. *)
Theorem do_sysctl_spec semicolon l st :
  Forall setting_ok l ->
  do_sysctl (Some (settings_text semicolon l)) st =
    Done (tt, mk_dstate (history st ++ settings_calls (history st) l) (disk_host st) (mounted st)).
Proof. intros Hok. by apply settings_run. Qed.
End Settings.

(** ** Unmounting *)

(** What is unmounted by some calls. *)
Definition umounts (l : calls) : list text := omap (fun c => match fst c with SysUmount p _ => Some p | _ => None end) l.

Section Unmounting.
Context `{Algorithms} `{Ciphers} `{Argon2} `{Base64} `{DeviceMapper} `{LoopDevices} `{LklKernel}.

Lemma unmount_from_all mounts ro n : forall s, (n <= length mounts)%nat -> (forall i, (i < n)%nat -> mounted s !! i = Some true) ->
  exists l s', unmount_from n mounts ro s = Done (tt, s') /\ history s' = history s ++ l /\ mounted s' = mounted s /\
    umounts l = mnt_destination <$> rev (take n mounts).
Proof.
  induction n as [|n IH]; intros s Hn Hf; cbn [unmount_from]; [exists [], s; by rewrite app_nil_r|].
  destruct (lookup_lt_is_Some_2 mounts n ltac:(lia)) as [m Hm]. rewrite Hm, (Hf n) by lia. cbn [default].
  set (c := SysUmount (mnt_destination m) 0). set (r := lkl_answer (history s) c).
  set (s1 := mk_dstate (history s ++ [(c, r)]) (disk_host s) (mounted s)).
  assert (exists l2 s2 a, (if ro then mret 0 else sys (SysRmdir (mnt_destination m))) s1 = Done (a, s2) /\
      history s2 = history s1 ++ l2 /\ mounted s2 = mounted s /\ umounts l2 = []) as (l2 & s2 & a & E2 & Hh2 & Hm2 & Hu2).
  { destruct ro; [exists [], s1, 0; by rewrite app_nil_r|]. do 3 eexists. split; [reflexivity|]. done. }
  destruct (IH s2) as (l3 & s3 & E3 & Hh3 & Hm3 & Hu3); [lia|intros i Hi; rewrite Hm2; apply Hf; lia|].
  exists ([(c, r)] ++ l2 ++ l3), s3. split; [|split; [|split]].
  - erewrite dm_ok by reflexivity. cbv beta. fold c r s1. by rewrite (dm_ok _ _ _ _ _ E2).
  - rewrite Hh3, Hh2. cbn [s1 history]. by rewrite !app_assoc.
  - by rewrite Hm3, Hm2.
  - unfold umounts in *. rewrite !omap_app, Hu2, Hu3. rewrite (take_S_r _ _ _ Hm), rev_app_distr. done.
Qed.

(** C10. Every file system that was mounted is unmounted, in the opposite order.
    After [lkl_mount_disks] has returned for at most 25 disks besides the root
    disk, the end of the kernel unmounts exactly the mount points of all of them,
    the last one first, and then detaches the root, whatever the calls answer and
    whatever was done in between. *)
Theorem mounts_unmounted calloc ja_malloc junk stack fuel format_integrity uninit embedded root mounts cwd rnd s s1 s2 :
  lkl_mount_disks calloc ja_malloc junk stack fuel format_integrity uninit embedded root mounts cwd rnd s = Done (tt, s1) ->
  (length mounts <= 25)%nat -> length (mounted s) = S (length mounts) -> mounted s2 = mounted s1 ->
  exists s3 l, unmount_all root mounts s2 = Done (tt, s3) /\ history s3 = history s2 ++ l /\
    umounts l = (mnt_destination <$> rev mounts) ++ [bytes "/"].
Proof.
  intros E Hn Hl Hs. destruct (mount_disks_steps _ _ _ _ _ _ _ _ _ _ _ _ _ _ E) as (_ & V & _ & [L _] & _).
  assert (forall i, (i < length mounts)%nat -> mounted s1 !! i = Some true) as Hf.
  { intros i Hi. destruct (lookup_lt_is_Some_2 (all_disks root mounts) i) as [[d p] Hd]; [cbn [all_disks length]; rewrite length_fmap; lia|].
    apply (V i d p Hd); lia. }
  unfold unmount_all. set (s4 := mk_dstate (history s2 ++ [(SysChdir (bytes "/"), lkl_answer (history s2) (SysChdir (bytes "/")))])
    (disk_host s2) (mounted s2)).
  destruct (unmount_from_all mounts (root_readonly root) (length mounts) s4) as (l & s5 & E5 & Hh & _ & Hu); [done|by cbn [s4 mounted]; rewrite Hs|].
  do 2 eexists. split; [|split].
  - erewrite dm_ok by reflexivity. cbv beta. fold s4. rewrite (dm_ok _ _ _ _ _ E5). reflexivity.
  - cbn [history]. rewrite Hh. cbn [s4 history]. rewrite <- !app_assoc. reflexivity.
  - unfold umounts in *. rewrite !omap_app, Hu, firstn_all. reflexivity.
Qed.
End Unmounting.

(** ** Samples *)

Definition sample_settings : list setting :=
  [mk_setting 0 (bytes "kernel.panic") (bytes "1"); mk_setting 2 (bytes "net.core.somaxconn") (bytes "128")].
Lemma do_sysctl_spec_witness :
  do_sysctl (Some (bytes "kernel.panic=1;  net.core.somaxconn=128")) (mk_dstate [] small_host []) =
    Done (tt, mk_dstate [(Sysctl (bytes "kernel.panic") (bytes "1"), 0); (Sysctl (bytes "net.core.somaxconn") (bytes "128"), 0)] small_host []).
Proof.
  refine (do_sysctl_spec false sample_settings (mk_dstate [] small_host []) _).
  assert (forall x, In x sample_settings -> setting_ok x) as Hok; [|by apply List.Forall_forall].
  intros x [<-|[<-|[]]]; (split; [|split]); [|discriminate| | |discriminate|];
    cbn; repeat (apply Forall_cons; split; [lia|]); apply Forall_nil_2; exact I.
Defined.

Definition data_mount : mount_config := Mount (bytes "/data") None None false None 0 false false 0.
Lemma mounts_unmounted_witness :
  exists s1 s3 l, lkl_mount_disks enough enough_json 0 [] 1 no_integrity [] (replicate 32 171) small_config [data_mount] None small_random
      (mk_dstate [] small_host [false; false]) = Done (tt, s1) /\
    unmount_all small_config [data_mount] s1 = Done (tt, s3) /\ history s3 = history s1 ++ l /\ umounts l = [bytes "/data"; bytes "/"].
Proof.
  assert (exists s1, lkl_mount_disks enough enough_json 0 [] 1 no_integrity [] (replicate 32 171) small_config [data_mount] None small_random
    (mk_dstate [] small_host [false; false]) = Done (tt, s1)) as [s1 E] by (eexists; vm_compute; reflexivity).
  destruct (mounts_unmounted enough enough_json 0 [] 1 no_integrity [] (replicate 32 171) small_config [data_mount] None small_random
    (mk_dstate [] small_host [false; false]) s1 s1 E) as (s3 & l & E3 & Hh & Hu).
  - cbn [length]. lia.
  - reflexivity.
  - reflexivity.
  - exists s1, s3, l. split; [exact E|]. split; [exact E3|]. split; [exact Hh|exact Hu].
Defined.
