(* ===== verification/HostNet.v ===== *)
(** * HostNet: the network device and the console of the host
    (src/host_interface/virtio_netdev.c, src/host_interface/virtio_console.c)

    Both serve the queues of HostQueue: buffers of the enclave are written to a
    file, or filled from one.  The files (the tap interface with its control
    pipe, standard input and output) are parameters that answer the system calls;
    a call that was interrupted is repeated before it answers. *)

From S2P Require Import Prelude HostQueue.

(** ** Scattered buffers *)

(** The kernel refuses lengths that are negative as numbers with a sign. *)
Definition iov_valid (bufs : list iovec) : bool := forallb (fun b => iov_len b <? 2 ^ 63) bufs.
Definition gather (mem : Z -> Z) (bufs : list iovec) : list Z := flat_map (fun b => load_from mem (iov_base b) (iov_len b)) bufs.
Fixpoint scatter (mem : Z -> Z) (bufs : list iovec) (data : list Z) : Z -> Z :=
  match bufs with
  | [] => mem
  | b :: bufs' =>
      let n := Z.to_nat (iov_len b) in scatter (store_at mem (iov_base b) (take n data)) bufs' (drop n data)
  end.

Section Devices.
Context {D : Type}.
(** The answer (a count, or a negative error) with the file afterwards; what is
    read has at most the size that is asked for. *)
Variable f_writev : D -> list Z -> Z * D.
Variable f_readv : D -> Z -> (Z + list Z) * D.
(** One byte for the control pipe. *)
Variable pipe_write : D -> Z * D.

Definition net_world : Type := (Z -> Z) * D.
Definition capacity (bufs : list iovec) : Z := Z.of_nat (sum_list_with (fun b => Z.to_nat (iov_len b)) bufs).

Definition writev (w : net_world) (bufs : list iovec) : Z * net_world :=
  let '(mem, d) := w in
  if iov_valid bufs then let '(r, d') := f_writev d (gather mem bufs) in (s32 r, (mem, d')) else (- EINVAL, w).
Definition readv (w : net_world) (bufs : list iovec) : Z * net_world :=
  let '(mem, d) := w in
  if iov_valid bufs then
    match f_readv d (capacity bufs) with
    | (inl e, d') => (e, (mem, d'))
    | (inr data, d') => (s32 (Z.of_nat (length data)), (scatter mem bufs data, d'))
    end
  else (- EINVAL, w).

(** ** The network device *)

Definition RX_QUEUE_IDX : Z := 0.
Definition TX_QUEUE_IDX : Z := 1.
Definition sizeof_net_hdr : Z := 12.
Definition VIRTIO_NET_F_GUEST_CSUM : Z := 1.
Definition VIRTIO_NET_HDR_F_DATA_VALID : Z := 2.
Definition VIRTIO_NET_HDR_GSO_NONE : Z := 0.

(** The tap interface is full or empty: a byte in the pipe wakes the poll thread. *)
Definition again (strict : bool) (w : net_world) : outcome net_world :=
  let '(mem, d) := w in
  let '(r, d') := pipe_write d in
  if (if strict then r <=? 0 else r <? 0) && negb (r =? - EBADF) then Failed Stopped else Done (mem, d').
Definition virtio_net_fd_net_tx (w : net_world) (iov : list iovec) : outcome (Z * net_world) :=
  let '(ret, w) := writev w iov in
  if ret <? 0 then
    if ret =? - EAGAIN then w ← again true w; Done (-1, w)
    else if ret =? - EBADF then Done (-1, w)
    else Failed Stopped
  else Done (ret, w).
Definition virtio_net_fd_net_rx (w : net_world) (iov : list iovec) : outcome (Z * net_world) :=
  let '(ret, w) := readv w iov in
  if ret <? 0 then if ret =? - EAGAIN then w ← again false w; Done (-1, w) else Done (-1, w)
  else Done (ret, w).

(** The header of the first buffer without its bytes. *)
Definition skip_header (bufs : list iovec) : list iovec :=
  match bufs with
  | b :: bufs' => mk_iovec (iov_base b + sizeof_net_hdr) (u64 (iov_len b - sizeof_net_hdr)) :: bufs'
  | [] => []
  end.

(** "for (i = 0, len = ret; len > 0; i++)" *)
Fixpoint count_buffers (bufs : list iovec) (i : nat) (len : Z) : outcome nat :=
  if 0 <? len then
    match bufs with
    | [] => Failed (BadPointer (Z.of_nat i))
    | b :: bufs' => count_buffers bufs' (S i) (s32 (len - iov_len b))
    end
  else Done i.

Variable has_vnet_hdr : bool.
Variable device_features : Z.

(** What is written to the header at [h] after [ret] bytes were read. *)
Definition set_header (mem : Z -> Z) (h : Z) (n : nat) : Z -> Z :=
  let mem := if has_vnet_hdr then mem else store_at mem h [0; VIRTIO_NET_HDR_GSO_NONE] in
  let mem := store_at mem (h + 10) [u8 (Z.of_nat n); u8 (Z.of_nat n / 256)] in
  if Z.testbit device_features VIRTIO_NET_F_GUEST_CSUM then store_at mem h [Z.lor (mem h) VIRTIO_NET_HDR_F_DATA_VALID] else mem.

Definition net_enqueue (q : Z) (h : hostq) (w : net_world) (req : virtio_req) (idx : Z) : outcome (Z * hostq * net_world) :=
  match buf req with
  | [] => Failed (BadPointer 0)
  | b0 :: _ =>
      let iov := if has_vnet_hdr then buf req else skip_header (buf req) in
      let finish ret w :=
        let ret := if has_vnet_hdr then ret else s32 (ret + sizeof_net_hdr) in
        h ← virtio_req_complete h req idx (u32 ret); Done (0, h, w) in
      if q =? TX_QUEUE_IDX then
        '(ret, w) ← virtio_net_fd_net_tx w iov;
        if ret <? 0 then Done (-1, h, w) else finish ret w
      else if q =? RX_QUEUE_IDX then
        '(ret, w) ← virtio_net_fd_net_rx w iov;
        if ret <? 0 then Done (-1, h, w)
        else if has_vnet_hdr && (total_len req =? u32 ret) then Failed Stopped
        else
          n ← count_buffers iov 0 ret;
          let '(mem, d) := w in
          finish ret (set_header mem (iov_base b0) n, d)
      else Failed Stopped
  end.
Definition net_process_queue (q : Z) (fuel : nat) (h : hostq) (w : net_world) : outcome (hostq * net_world) :=
  virtio_process_queue (net_enqueue q) fuel h w.

(** What the poll of the interface and of the pipe returns. *)
Record poll_answer : Type := mk_poll { tap_in : bool; tap_out : bool; pipe_in : bool; pipe_hup : bool }.
(** [pipe_read]: the answer of read, if the pipe has something. *)
Inductive poll_result : Type := PollHup | PollEvents (rx tx : bool).
Definition virtio_net_fd_net_poll (a : poll_answer) (pipe_read : Z) : poll_result :=
  if pipe_hup a then PollHup
  else if pipe_in a && (pipe_read =? 0) then PollHup
  else PollEvents (tap_in a) (tap_out a).

(** One round of [poll_thread] on both queues; [None]: the thread ends. *)
Definition poll_round (fuel : nat) (r : poll_result) (rx tx : hostq) (w : net_world) : outcome (option (hostq * hostq * net_world)) :=
  match r with
  | PollHup => Done None
  | PollEvents do_rx do_tx =>
      '(rx, w) ← (if (do_rx : bool) then net_process_queue RX_QUEUE_IDX fuel rx w else Done (rx, w));
      '(tx, w) ← (if (do_tx : bool) then net_process_queue TX_QUEUE_IDX fuel tx w else Done (tx, w));
      Done (Some (rx, tx, w))
  end.

(** ** The console *)

Definition console_enqueue (q : Z) (h : hostq) (w : net_world) (req : virtio_req) (idx : Z) : outcome (Z * hostq * net_world) :=
  let '(ret, w) := if q =? RX_QUEUE_IDX then readv w (buf req) else writev w (buf req) in
  let bytes := if ret <=? 0 then 0 else ret in
  h ← virtio_req_complete h req idx (u32 bytes);
  Done (if 0 <=? ret then 0 else -1, h, w).
Definition console_process_queue (q : Z) (fuel : nat) (h : hostq) (w : net_world) : outcome (hostq * net_world) :=
  virtio_process_queue (console_enqueue q) fuel h w.
End Devices.

(** Both devices accept only the features that they offer. *)
Definition net_check_features (driver_features device_features : Z) : Z :=
  if driver_features =? device_features then 0 else - EINVAL.

(** ** Features and addresses *)

Definition BIT (n : Z) : Z := Z.shiftl 1 n.
(** The features that [netdev_init] offers. *)
Definition netdev_features (swiotlb tap_offload : bool) : Z :=
  Z.lor (Z.lor (Z.lor (BIT 5) (Z.lor (BIT 32) (BIT 29))) (if swiotlb then BIT 33 else 0))
    (if tap_offload then fold_left Z.lor (map BIT [0; 1; 11; 7; 12; 8; 15]) 0 else 0).
(** A random address of the network: a local one, for one station. *)
Definition mac_of (random : list Z) : list Z :=
  match random with b :: l => Z.land (Z.lor b 2) 254 :: l | [] => [] end.
(** The merged length of the receiving queue. *)
Definition rx_queue (features : Z) (q : virtq) : virtq :=
  if Z.testbit features 15 then virtio_set_queue_max_merge_len 65536 q else q.
