(* ===== verification/HostNetProps.v ===== *)
(** * HostNetProps: packets in merged buffers

    With offloading the host puts a packet into as many available buffers as it
    needs, writes their number into the header of the packet, and returns each of
    them with the bytes it holds.  The driver, which goes by this number and by
    the used ring, gets the packet. *)

From S2P Require Import Prelude HostQueue HostQueueProps HostNet.

(** ** The buffers of the driver *)

Definition desc_at (q : virtq) (idx : Z) : virtq_desc :=
  default (mk_desc 0 0 0 0) (desc q !! Z.to_nat (id_at q idx mod num q)).
Definition desc_buf (q : virtq) (idx : Z) : iovec := mk_iovec (d_addr (desc_at q idx)) (d_len (desc_at q idx)).
Fixpoint buffers (q : virtq) (idx : Z) (m : nat) : list iovec :=
  match m with O => [] | S m' => desc_buf q idx :: buffers q (idx + 1) m' end.

(** What the driver takes from [n] used entries from [u] on. *)
Definition used_at (q : virtq) (u : Z) : Z * Z := default (0, 0) (used_ring q !! slot q u).
Definition entry_addr (q : virtq) (u : Z) : Z :=
  d_addr (default (mk_desc 0 0 0 0) (desc q !! Z.to_nat (fst (used_at q u) mod num q))).
Fixpoint entries (q : virtq) (mem : Z -> Z) (u : Z) (n : nat) : list Z :=
  match n with
  | O => []
  | S n' => load_from mem (entry_addr q u) (snd (used_at q u)) ++ entries q mem (u + 1) n'
  end.
Definition num_buffers (q : virtq) (mem : Z -> Z) (u : Z) : Z := little_endian mem (entry_addr q u + 10) 2.
Definition received (q : virtq) (mem : Z -> Z) (u : Z) : list Z := entries q mem u (Z.to_nat (num_buffers q mem u)).

(** ** The lengths of the used entries *)

Fixpoint used_lens (bufs : list iovec) (len : Z) : list Z :=
  match bufs with
  | [] => []
  | b :: bufs' => if len <=? iov_len b then [len] else iov_len b :: used_lens bufs' (len - iov_len b)
  end.
Definition total (bufs : list iovec) : Z := foldr (fun b s => iov_len b + s) 0 bufs.
Definition small (b : iovec) : Prop := 12 <= iov_len b < 65536.
Definition apart (a b : iovec) : Prop := iov_base a + iov_len a <= iov_base b \/ iov_base b + iov_len b <= iov_base a.

Lemma used_lens_length bufs : forall len, (length (used_lens bufs len) <= length bufs)%nat.
Proof. induction bufs as [|b bufs IH]; intros len; simpl; [lia|]. destruct (len <=? iov_len b); simpl; [lia|]. specialize (IH (len - iov_len b)). lia. Qed.

Lemma total_nonneg bufs : Forall small bufs -> 0 <= total bufs.
Proof. induction 1 as [|b bufs Hb _ IH]; simpl; [lia|]. unfold small in Hb. lia. Qed.

Lemma capacity_total bufs : Forall small bufs -> capacity bufs = total bufs.
Proof.
  unfold capacity. induction 1 as [|b bufs Hb _ IH]; [done|]. cbn [sum_list_with total foldr]. fold (total bufs).
  unfold small in Hb. lia.
Qed.

Lemma count_used_lens bufs : forall i len, Forall small bufs -> 0 < len <= total bufs -> total bufs < 2 ^ 31 ->
  count_buffers bufs i len = Done (i + length (used_lens bufs len))%nat.
Proof.
  induction bufs as [|b bufs IH]; intros i len HF Hl Ht; simpl in Hl, Ht; [lia|]. fold (total bufs) in *.
  apply Forall_cons in HF as [Hb HF]. unfold small in Hb. pose proof (total_nonneg bufs HF). cbn [count_buffers used_lens].
  rewrite (proj2 (Z.ltb_lt 0 len)) by lia. rewrite s32_small by lia. destruct (Z.leb_spec len (iov_len b)).
  - destruct bufs; cbn [count_buffers]; rewrite (proj2 (Z.ltb_ge 0 _)) by lia; f_equal; simpl; lia.
  - rewrite IH; [|done|lia|lia]. f_equal. simpl. lia.
Qed.

(** The used entries from [u] on, for the available ones from [a] on. *)
Record merged (q q' : virtq) (u a : Z) (lens : list Z) : Prop := {
  mg_driver : same_driver q q';
  mg_used : length (used_ring q') = length (used_ring q);
  mg_idx : used_idx q' = used_idx q;
  mg_last : last_avail_idx q' = last_avail_idx q;
  mg_signaled : last_used_idx_signaled q' = last_used_idx_signaled q;
  mg_entries : forall j len, lens !! j = Some len -> used_ring q' !! slot q (u + Z.of_nat j) = Some (id_at q (a + Z.of_nat j), len);
  mg_others : forall i, (forall j, (j < length lens)%nat -> i <> slot q (u + Z.of_nat j)) -> used_ring q' !! i = used_ring q !! i
}.

Lemma slot_u16 k q u j : queue_ok k q -> slot q (u16 u + j) = slot q (u + j).
Proof. intros Hq. unfold slot. by rewrite (u16_add_mod k). Qed.
Lemma id_at_u16 k q u j : queue_ok k q -> id_at q (u16 u + j) = id_at q (u + j).
Proof. intros Hq. unfold id_at. by rewrite (u16_add_mod k). Qed.

Lemma add_used_merged k bufs : forall q u a len,
  queue_ok k q -> max_merge_len q <> 0 -> Forall small bufs -> 0 < len <= total bufs -> total bufs < 2 ^ 31 ->
  Z.of_nat (length bufs) <= num q ->
  exists q', add_used_entries q bufs u a len =
      Done (q', u16 (u + Z.of_nat (length (used_lens bufs len))), u16 (a + Z.of_nat (length (used_lens bufs len)))) /\
    merged q q' u a (used_lens bufs len).
Proof.
  induction bufs as [|b bufs IH]; intros q u a len Hq Hm HF Hl Ht Hn; simpl in Hl, Ht; [lia|]. fold (total bufs) in *.
  apply Forall_cons in HF as [Hb HF]. unfold small in Hb. pose proof (total_nonneg bufs HF) as H0. cbn [add_used_entries used_lens].
  assert (truthy (max_merge_len q) = true) as -> by (unfold truthy; by rewrite (proj2 (Z.eqb_neq _ _) Hm)).
  destruct (get_avail k q Hq a) as (x & Hx & Hid). unfold virtio_add_used. rewrite Hx. cbn [mbind outcome_bind].
  pose proof (masked_range k q Hq u) as Hu. pose proof (qo_used k q Hq) as Hur. rewrite decide_True by lia.
  cbn [mbind outcome_bind]. set (ul := u16 _). set (q1 := set_used _ _ q).
  assert (ul = Z.min len (iov_len b)) as Hul.
  { unfold ul, min_len. destruct (Z.ltb_spec len (iov_len b)); rewrite u16_small by lia; lia. }
  assert (queue_ok k q1) as Hq1 by (destruct Hq; split; simpl; try done; by rewrite length_insert).
  assert (x = id_at q a) as -> by (unfold id_at; by rewrite Hid).
  assert (Z.to_nat (masked q u) = slot q u) as Hs by (unfold slot; by rewrite (masked_spec k)).
  assert (merged q q1 u a [ul]) as HM1.
  { split; try done; simpl; [by rewrite length_insert| |].
    - intros [|j] l [= <-]. rewrite !Z.add_0_r, Hs, list_lookup_insert_eq; [done|lia].
    - intros i Hi. rewrite list_lookup_insert_ne; [done|]. rewrite Hs. intros <-. apply (Hi O); [lia|]. by rewrite Z.add_0_r. }
  destruct (Z.leb_spec len (iov_len b)) as [Hle|Hgt].
  - replace (Z.min len (iov_len b)) with len in Hul by lia. rewrite Hul, Z.sub_diag. change (u32 0) with 0. cbn [truthy Z.eqb negb].
    exists q1. split; [done|]. by rewrite <- Hul.
  - replace (Z.min len (iov_len b)) with (iov_len b) in Hul by lia. rewrite Hul. rewrite u32_small by lia.
    unfold truthy at 1. rewrite (proj2 (Z.eqb_neq _ _)) by lia. cbn [negb].
    destruct (IH q1 (u16 (u + 1)) (u16 (a + 1)) (len - iov_len b) Hq1 Hm HF) as (q2 & -> & HM2); [lia|lia|simpl in Hn |- *; lia|].
    exists q2. split.
    { unfold u16, wrap. rewrite !Zplus_mod_idemp_l. do 2 f_equal; [f_equal|]; f_equal; simpl length; lia. }
    destruct HM1 as [A1 A2 A3 A4 A5 A6 A7], HM2 as [B1 B2 B3 B4 B5 B6 B7].
    assert (forall j, slot q1 (u16 (u + 1) + j) = slot q (u + (1 + j))) as Hsl.
    { intros j. change (slot q1) with (slot q). rewrite (slot_u16 k q _ _ Hq). f_equal. lia. }
    split; [by eapply same_driver_trans|congruence..| |].
    + intros [|j] l; cbn [lookup list_lookup].
      * intros [= <-]. rewrite B7.
        { rewrite A6 with (len := ul); [by rewrite Hul|done]. }
        intros j Hj. rewrite Hsl. replace (u + Z.of_nat 0) with u by lia. apply (slot_apart k); [done|].
        pose proof (used_lens_length bufs (len - iov_len b)). simpl in Hn. lia.
      * intros Hj. specialize (B6 j l Hj). rewrite Hsl in B6. replace (u + Z.of_nat (S j)) with (u + (1 + Z.of_nat j)) by lia.
        rewrite B6. change (id_at q1) with (id_at q). rewrite (id_at_u16 k q _ _ Hq). do 3 f_equal. lia.
    + intros i Hi. rewrite B7.
      * apply A7. intros j Hj. simpl in Hj. replace j with O by lia. apply Hi. simpl. lia.
      * intros j Hj. rewrite Hsl. specialize (Hi (S j)). simpl in Hi. replace (u + (1 + Z.of_nat j)) with (u + Z.of_nat (S j)) by lia.
        apply Hi. lia.
Qed.

(** ** What the buffers hold *)

Lemma load_ext mem mem' p len : (forall a, p <= a < p + len -> mem a = mem' a) -> load_from mem p len = load_from mem' p len.
Proof.
  intros H. unfold load_from. apply map_ext_in. intros i Hi. apply in_seq in Hi. apply H. lia.
Qed.

Lemma load_lookup mem p len i : (i < Z.to_nat len)%nat -> load_from mem p len !! i = Some (mem (p + Z.of_nat i)).
Proof. intros H. unfold load_from. rewrite list_lookup_fmap, lookup_seq_lt by done. done. Qed.
Lemma load_length mem p len : length (load_from mem p len) = Z.to_nat len.
Proof. unfold load_from. by rewrite length_map, length_seq. Qed.
Lemma load_stored mem p l : load_from (store_at mem p l) p (Z.of_nat (length l)) = l.
Proof.
  apply list_eq_same_length with (n := length l); [done|rewrite load_length; lia|].
  intros i x y Hi. rewrite load_lookup by lia. intros [= <-] Hy. unfold store_at.
  rewrite (proj2 (Z.leb_le _ _)), (proj2 (Z.ltb_lt _ _)) by lia. cbn [andb].
  replace (Z.to_nat (p + Z.of_nat i - p)) with i by lia. by rewrite Hy.
Qed.
Lemma load_drop mem mem' p n len : 0 <= n <= len -> (forall a, p + n <= a < p + len -> mem a = mem' a) ->
  drop (Z.to_nat n) (load_from mem p len) = drop (Z.to_nat n) (load_from mem' p len).
Proof.
  intros Hn H. apply list_eq. intros i. rewrite !lookup_drop.
  destruct (decide (Z.to_nat n + i < Z.to_nat len)%nat) as [Hi|Hi].
  - rewrite !load_lookup by done. f_equal. apply H. lia.
  - by rewrite !lookup_ge_None_2 by (rewrite load_length; lia).
Qed.
Lemma store_other mem p l a : a < p \/ p + Z.of_nat (length l) <= a -> store_at mem p l a = mem a.
Proof.
  intros H. unfold store_at. destruct (Z.leb_spec p a), (Z.ltb_spec a (p + Z.of_nat (length l))); simpl; try done. lia.
Qed.

(** An address of none of the buffers. *)
Definition outside (bufs : list iovec) (a : Z) : Prop := Forall (fun b => a < iov_base b \/ iov_base b + iov_len b <= a) bufs.

Lemma scatter_other bufs : forall mem data a, Forall small bufs -> outside bufs a -> scatter mem bufs data a = mem a.
Proof.
  induction bufs as [|b bufs IH]; intros mem data a HF Ha; [done|].
  apply Forall_cons in HF as [Hb HF]. apply Forall_cons in Ha as [Ha1 Ha]. unfold small in Hb. cbn [scatter].
  rewrite IH by done. apply store_other. rewrite length_take. lia.
Qed.

(** The bytes of the buffers, each up to its used length. *)
Fixpoint contents (mem : Z -> Z) (bufs : list iovec) (lens : list Z) : list Z :=
  match bufs, lens with b :: bufs', l :: lens' => load_from mem (iov_base b) l ++ contents mem bufs' lens' | _, _ => [] end.

Lemma contents_ext mem mem' bufs : forall len, Forall small bufs -> 0 <= len ->
  (forall b, In b bufs -> forall a, iov_base b <= a < iov_base b + iov_len b -> mem a = mem' a) ->
  contents mem bufs (used_lens bufs len) = contents mem' bufs (used_lens bufs len).
Proof.
  induction bufs as [|b bufs IH]; intros len HF Hl H; [done|]. apply Forall_cons in HF as [Hb HF]. cbn [used_lens].
  destruct (Z.leb_spec len (iov_len b)); cbn [contents].
  - f_equal; [|by destruct bufs]. apply load_ext. intros a Ha. apply (H b); [by left|lia].
  - f_equal; [|apply IH; [done|lia|intros b' Hb'; apply H; by right]].
    apply load_ext. intros a Ha. apply (H b); [by left|lia].
Qed.

Lemma in_apart_outside b bufs a : Forall (apart b) bufs -> iov_base b <= a < iov_base b + iov_len b -> outside bufs a.
Proof. intros H Ha. eapply Forall_impl; [exact H|]. unfold apart. simpl. intros x Hx. lia. Qed.

Lemma scatter_contents bufs : forall mem data, Forall small bufs -> ForallOrdPairs apart bufs ->
  Z.of_nat (length data) <= total bufs ->
  contents (scatter mem bufs data) bufs (used_lens bufs (Z.of_nat (length data))) = data.
Proof.
  induction bufs as [|b bufs IH]; intros mem data HF HA Hd; simpl in Hd.
  { destruct data; [done|simpl in Hd; lia]. }
  fold (total bufs) in Hd. apply Forall_cons in HF as [Hb HF]. inversion HA as [|? ? HA1 HA2]; subst. unfold small in Hb.
  cbn [used_lens scatter]. set (n := Z.to_nat (iov_len b)).
  assert (forall d mem0 len, 0 <= len <= iov_len b -> load_from (scatter mem0 bufs d) (iov_base b) len = load_from mem0 (iov_base b) len) as Hfirst.
  { intros d mem0 len Hlen. apply load_ext. intros a Ha. apply scatter_other; [done|]. apply (in_apart_outside b); [done|lia]. }
  destruct (Z.leb_spec (Z.of_nat (length data)) (iov_len b)) as [Hle|Hgt]; cbn [contents].
  - rewrite Hfirst by lia. rewrite take_ge by lia. rewrite load_stored. destruct bufs; cbn [contents]; by rewrite app_nil_r.
  - rewrite Hfirst by lia. replace (iov_len b) with (Z.of_nat (length (take n data))) at 1 by (rewrite length_take; lia).
    rewrite load_stored. replace (Z.of_nat (length data) - iov_len b) with (Z.of_nat (length (drop n data))) by (rewrite length_drop; lia).
    rewrite IH; [apply take_drop|done|done|rewrite length_drop; lia].
Qed.

(** ** Collecting the available buffers *)

Lemma vring_desc_ok k q idx : queue_ok k q -> vring_desc_at_avail_idx q idx = Done (desc_at q idx).
Proof.
  intros Hq. unfold vring_desc_at_avail_idx, desc_at. destruct (get_avail k q Hq idx) as (x & -> & Hid). cbn [mbind outcome_bind].
  assert (id_at q idx = x) as -> by (unfold id_at; by rewrite Hid). unfold get. rewrite (masked_spec k q Hq).
  pose proof (qo_desc k q Hq). pose proof (num_range k q Hq). pose proof (Z.mod_pos_bound x (num q) ltac:(lia)).
  destruct (desc q !! Z.to_nat (x mod num q)) eqn:E; [done|]. apply lookup_ge_None in E. lia.
Qed.
Lemma desc_at_u16 k q i : queue_ok k q -> desc_at q (u16 i) = desc_at q i.
Proof. intros Hq. unfold desc_at. pose proof (id_at_u16 k q i 0 Hq) as E. rewrite !Z.add_0_r in E. by rewrite E. Qed.
Lemma desc_buf_u16 k q i : queue_ok k q -> desc_buf q (u16 i) = desc_buf q i.
Proof. intros Hq. unfold desc_buf. by rewrite (desc_at_u16 k). Qed.
Lemma buffers_u16 k q m i : queue_ok k q -> buffers q (u16 i + 1) m = buffers q (i + 1) m.
Proof.
  intros Hq. generalize 1 as j. induction m as [|m IH]; intros j; [done|]. cbn [buffers]. rewrite <- !Z.add_assoc, IH. f_equal.
  unfold desc_buf, desc_at. by rewrite (id_at_u16 k).
Qed.
Lemma buffers_in q m : forall i b, In b (buffers q i m) -> exists j, 0 <= j < Z.of_nat m /\ b = desc_buf q (i + j).
Proof.
  induction m as [|m IH]; intros i b; [done|]. intros [<-|H]; [exists 0; split; [lia|by rewrite Z.add_0_r]|].
  apply IH in H as (j & Hj & ->). exists (j + 1). split; [lia|]. f_equal. lia.
Qed.
Lemma buffers_length q m : forall i, length (buffers q i m) = m.
Proof. induction m as [|m IH]; intros i; [done|]. simpl. by rewrite IH. Qed.

Lemma collect_merged k q fuel : queue_ok k q -> max_merge_len q <> 0 -> forall rest idx req,
  (1 <= fuel)%nat -> (fuel + length (buf req) = VIRTIO_REQ_MAX_BUFS)%nat ->
  0 <= idx < 2 ^ 16 -> u16 (avail_idx q - idx) = 1 + Z.of_nat rest -> 0 <= total_len req ->
  Forall small (buffers q idx (S rest)) -> total_len req + 65536 * Z.of_nat fuel < 2 ^ 31 ->
  exists m, (m <= rest)%nat /\ (S m <= fuel)%nat /\
    collect fuel q (desc_at q idx) idx req =
      Done (mk_req (buf req ++ buffers q idx (S m)) (total_len req + total (buffers q idx (S m)))).
Proof.
  intros Hq Hm. induction fuel as [|fuel IH]; intros rest idx req Hf Hl Hidx Hr Ht HF Hb; [lia|].
  unfold VIRTIO_REQ_MAX_BUFS in Hl. cbn [collect]. unfold add_dev_buf_from_vring_desc. rewrite decide_True by lia.
  cbn [mbind outcome_bind]. assert (truthy (max_merge_len q) = true) as HT by (unfold truthy; by rewrite (proj2 (Z.eqb_neq _ _) Hm)).
  rewrite HT. cbn [andb buf total_len]. cbn [buffers] in HF. apply Forall_cons in HF as [Hs HF]. unfold small, desc_buf in Hs. cbn [iov_len] in Hs.
  rewrite u32_small by lia. fold (desc_buf q idx).
  assert (Done (mk_req (buf req ++ [desc_buf q idx]) (total_len req + d_len (desc_at q idx))) =
    Done (mk_req (buf req ++ buffers q idx 1) (total_len req + total (buffers q idx 1)))) as Hstop by (cbn [buffers total foldr]; do 2 f_equal; simpl; lia).
  destruct (max_merge_len q <? _); [exists O; split; [lia|split; [lia|exact Hstop]]|].
  unfold get_next_desc. rewrite HT. destruct (Z.eqb_spec (u16 (idx + 1)) (avail_idx q)) as [Ee|Ee]; cbn [mbind outcome_bind].
  { exists O. split; [lia|split; [lia|exact Hstop]]. }
  rewrite (vring_desc_ok k) by done. cbn [mbind outcome_bind]. case_bool_decide as Hc; [|exists O; split; [lia|split; [lia|exact Hstop]]].
  cbn [buf] in Hc. rewrite length_app in Hc. simpl in Hc. unfold VIRTIO_REQ_MAX_BUFS in Hc.
  assert (u16 (avail_idx q - u16 (idx + 1)) = Z.of_nat rest) as Hr'.
  { pose proof (qo_avail_idx k q Hq). clear - Hr Hidx H. unfold u16, wrap in *. Z.div_mod_to_equations. lia. }
  destruct rest as [|rest].
  { destruct Ee. pose proof (qo_avail_idx k q Hq). clear - Hr' Hidx H. unfold u16, wrap in *. Z.div_mod_to_equations. lia. }
  destruct (IH rest (u16 (idx + 1)) (mk_req (buf req ++ [desc_buf q idx]) (total_len req + d_len (desc_at q idx)))) as (m & Hm1 & Hm2 & Hm3).
  - lia.
  - cbn [buf]. rewrite length_app. simpl. unfold VIRTIO_REQ_MAX_BUFS. lia.
  - apply u16_range.
  - lia.
  - cbn [total_len]. lia.
  - cbn [buffers] in HF |- *. rewrite (buffers_u16 k), (desc_buf_u16 k) by done. exact HF.
  - cbn [total_len]. lia.
  - exists (S m). split; [lia|]. split; [lia|]. rewrite Hm3. cbn [buf total_len]. do 2 f_equal.
    + rewrite <- app_assoc. f_equal. cbn [buffers app]. by rewrite (buffers_u16 k), (desc_buf_u16 k).
    + cbn [buffers total foldr]. rewrite (buffers_u16 k), (desc_buf_u16 k) by done. change (iov_len (desc_buf q idx)) with (d_len (desc_at q idx)). lia.
Qed.

(** ** One packet *)

Lemma buffers_app q m n : forall i, buffers q i (m + n) = buffers q i m ++ buffers q (i + Z.of_nat m) n.
Proof.
  induction m as [|m IH]; intros i; [simpl; by rewrite Z.add_0_r|]. cbn [Nat.add buffers app]. rewrite IH. do 3 f_equal. lia.
Qed.
Lemma ord_pairs_prefix {A} (R : A -> A -> Prop) l1 l2 : ForallOrdPairs R (l1 ++ l2) -> ForallOrdPairs R l1.
Proof.
  induction l1 as [|x l1 IH]; [constructor|]. cbn [app]. inversion 1 as [|? ? H1 H2]; subst. constructor; [|by apply IH].
  by apply Forall_app in H1 as [H1 _].
Qed.

(** The used entries lead to the buffers. *)
Lemma entries_contents q q' mem u a : forall m j rest, same_driver q q' ->
  (forall i len, (j ++ rest) !! i = Some len -> used_at q' (u + Z.of_nat i) = (id_at q (a + Z.of_nat i), len)) ->
  (length rest <= m)%nat ->
  entries q' mem (u + Z.of_nat (length j)) (length rest) = contents mem (buffers q (a + Z.of_nat (length j)) m) rest.
Proof.
  induction m as [|m IH]; intros j rest Hs Hu Hm.
  - destruct rest; [done|simpl in Hm; lia].
  - destruct rest as [|len rest]; [done|]. cbn [length entries buffers contents].
    specialize (Hu (length j) len) as Hj. rewrite list_lookup_middle in Hj by done. specialize (Hj eq_refl).
    unfold entry_addr. rewrite Hj. cbn [fst snd]. rewrite (sd_desc _ _ Hs), (sd_num _ _ Hs). f_equal.
    specialize (IH (j ++ [len]) rest Hs). rewrite length_app in IH. cbn [length] in IH.
    replace (Z.of_nat (length j + 1)) with (Z.of_nat (length j) + 1) in IH by lia. rewrite !Z.add_assoc in IH. apply IH; [|simpl in Hm; lia].
    intros i l. rewrite <- app_assoc. apply Hu.
Qed.

Lemma header_contents mem mem' b bufs len :
  small b -> Forall small bufs -> Forall (apart b) bufs -> 12 <= len ->
  (forall a, ~ (iov_base b <= a < iov_base b + 12) -> mem' a = mem a) ->
  drop 12 (contents mem' (b :: bufs) (used_lens (b :: bufs) len)) = drop 12 (contents mem (b :: bufs) (used_lens (b :: bufs) len)).
Proof.
  intros Hb HF HA Hl H. unfold small in Hb.
  assert (forall l, 12 <= l -> drop 12 (load_from mem' (iov_base b) l) = drop 12 (load_from mem (iov_base b) l)) as Hd.
  { intros l Hl0. apply (load_drop mem' mem (iov_base b) 12 l); [lia|]. intros a Ha. apply H. lia. }
  cbn [used_lens]. destruct (Z.leb_spec len (iov_len b)); cbn [contents].
  - rewrite !drop_app_le by (rewrite load_length; lia). rewrite Hd by lia. f_equal. by destruct bufs.
  - rewrite !drop_app_le by (rewrite load_length; lia). rewrite Hd by lia. f_equal. apply contents_ext; [done|lia|].
    intros b' Hb' a Ha. apply H. rewrite Forall_forall in HA. specialize (HA b'). rewrite list_elem_of_In in HA. specialize (HA Hb').
    unfold apart in HA. lia.
Qed.

Section Packet.
Context {D : Type}.
Variable f_writev : D -> list Z -> Z * D.
Variable f_readv : D -> Z -> (Z + list Z) * D.
Variable pipe_write : D -> Z * D.
Variable features : Z.
Abbreviation enqueue := (net_enqueue f_writev f_readv pipe_write true features RX_QUEUE_IDX).

Lemma set_header_other mem h n a : ~ (h <= a < h + 12) -> set_header true features mem h n a = mem a.
Proof.
  intros H. unfold set_header. cbv iota zeta. destruct (Z.testbit features _).
  - rewrite store_at_byte. destruct (Z.eqb_spec a h); [lia|]. apply store_other. simpl. lia.
  - apply store_other. simpl. lia.
Qed.
Lemma set_header_num mem h n : Z.of_nat n < 65536 -> little_endian (set_header true features mem h n) (h + 10) 2 = Z.of_nat n.
Proof.
  intros Hn. assert (forall i, (i < 2)%nat -> set_header true features mem h n (h + 10 + Z.of_nat i) =
    store_at mem (h + 10) [u8 (Z.of_nat n); u8 (Z.of_nat n / 256)] (h + 10 + Z.of_nat i)) as Hset.
  { intros i Hi. unfold set_header. cbv iota zeta. destruct (Z.testbit features _); [|done]. rewrite store_at_byte.
    destruct (Z.eqb_spec (h + 10 + Z.of_nat i) h); [lia|done]. }
  cbn [little_endian]. pose proof (Hset 0%nat ltac:(lia)) as H0. pose proof (Hset 1%nat ltac:(lia)) as H1.
  rewrite Z.add_0_r in H0. change (Z.of_nat 1) with 1 in H1. rewrite H0, H1. unfold store_at. cbn [length].
  rewrite !(proj2 (Z.leb_le _ _)), !(proj2 (Z.ltb_lt _ _)) by lia. cbn [andb].
  replace (Z.to_nat (h + 10 - (h + 10))) with 0%nat by lia. replace (Z.to_nat (h + 10 + 1 - (h + 10))) with 1%nat by lia.
  cbn. unfold u8, wrap. change (2 ^ 8) with 256. rewrite (Z.mod_small (Z.of_nat n / 256)).
  - pose proof (Z.div_mod (Z.of_nat n) 256 ltac:(lia)). lia.
  - split; [apply Z.div_pos; lia|apply Z.div_lt_upper_bound; lia].
Qed.

(** The available buffers of the receiving queue. *)
Record rx_ready (k : Z) (q : virtq) : Prop := {
  rr_ok : queue_ok k q;
  rr_merge : max_merge_len q <> 0;
  rr_some : 0 < available q <= num q;
  rr_small : Forall small (buffers q (last_avail_idx q) (Z.to_nat (available q)));
  rr_apart : ForallOrdPairs apart (buffers q (last_avail_idx q) (Z.to_nat (available q)))
}.

Lemma rx_request k q : rx_ready k q -> exists m, (S m <= Z.to_nat (available q))%nat /\ (S m <= 19)%nat /\
  request_at q (last_avail_idx q) = Done (mk_req (buffers q (last_avail_idx q) (S m)) (total (buffers q (last_avail_idx q) (S m)))).
Proof.
  intros [Hq Hm Ha HF HA]. unfold request_at. rewrite (vring_desc_ok k) by done. cbn [mbind outcome_bind].
  destruct (collect_merged k q VIRTIO_REQ_MAX_BUFS Hq Hm (Z.to_nat (available q) - 1) (last_avail_idx q) (mk_req [] 0)) as (m & H1 & H2 & H3).
  - unfold VIRTIO_REQ_MAX_BUFS. lia.
  - done.
  - by destruct Hq.
  - fold (available q). lia.
  - done.
  - by replace (S (Z.to_nat (available q) - 1)) with (Z.to_nat (available q)) by lia.
  - done.
  - exists m. split; [lia|]. split; [exact H2|]. rewrite H3. done.
Qed.

(** What completing a request does to a queue with merging. *)
Lemma complete_merged k h req idx len :
  queue_ok k (vq h) -> max_merge_len (vq h) <> 0 -> Forall small (buf req) -> 0 < len <= total (buf req) -> total (buf req) < 2 ^ 31 ->
  Z.of_nat (length (buf req)) <= num (vq h) ->
  exists h' q', virtio_req_complete h req idx len = Done h' /\ merged (vq h) q' (used_idx (vq h)) idx (used_lens (buf req) len) /\
    used_ring (vq h') = used_ring q' /\ same_driver (vq h) (vq h') /\
    used_idx (vq h') = u16 (used_idx (vq h) + Z.of_nat (length (used_lens (buf req) len))) /\
    last_avail_idx (vq h') = u16 (idx + Z.of_nat (length (used_lens (buf req) len))).
Proof.
  intros Hq Hm HF Hl Ht Hn. unfold virtio_req_complete.
  destruct (add_used_merged k (buf req) (vq h) (used_idx (vq h)) idx len Hq Hm HF Hl Ht Hn) as (q' & -> & HM).
  cbn [mbind outcome_bind]. pose proof (mg_driver _ _ _ _ _ HM) as Hs. destruct Hs as [S1 S2 S3 S4 S5 S6].
  cbn [set_last_avail set_used avail_ring num]. unfold get at 1. rewrite S1, S6.
  destruct (avail_ring (vq h) !! Z.to_nat (num (vq h))) as [ev|] eqn:Hev.
  2:{ apply lookup_ge_None in Hev. pose proof (qo_avail k _ Hq). pose proof (num_range k _ Hq). lia. }
  cbn [mbind outcome_bind]. match goal with |- context [if ?c then _ else _] => destruct c end;
    (eexists; exists q'; split; [reflexivity|]; split; [exact HM|]; by repeat split).
Qed.

Lemma used_at_merged k q q' u a lens i len :
  queue_ok k q -> merged q q' u a lens -> lens !! i = Some len -> used_at q' (u + Z.of_nat i) = (id_at q (a + Z.of_nat i), len).
Proof.
  intros Hq HM Hi. unfold used_at. assert (slot q' = slot q) as -> by (unfold slot; by rewrite (sd_num _ _ (mg_driver _ _ _ _ _ HM))).
  by rewrite (mg_entries _ _ _ _ _ HM _ _ Hi).
Qed.

(** C18. Receiving a packet with merged buffers: the network device, on a queue
    of at least one and at most as many available buffers as it has entries,
    buffers that have place for the header, are below 64 KiB and apart from each
    other, reads a packet of the tap interface that is at least as long as its
    header and shorter than the buffers that were collected.  Then it returns as
    many buffers as the number in the packet's header says, at least one and not
    more than there were, the indices of both rings advance by this number, and
    the bytes that the driver finds through the used entries are the packet,
    behind the header. *)
Theorem packet_received k h mem d req data d' :
  let q := vq h in
  rx_ready k q -> request_at q (last_avail_idx q) = Done req ->
  f_readv d (capacity (buf req)) = (inr data, d') -> 12 <= Z.of_nat (length data) < capacity (buf req) ->
  exists h' mem', virtio_process_one enqueue h (mem, d) = Done (0, h', (mem', d')) /\
    let n := num_buffers (vq h') mem' (used_idx q) in
    1 <= n <= available q /\ used_idx (vq h') = u16 (used_idx q + n) /\ last_avail_idx (vq h') = u16 (last_avail_idx q + n) /\
    drop 12 (received (vq h') mem' (used_idx q)) = drop 12 data.
Proof.
  intros q HR Hreq Hread Hlen. destruct (rx_request k q HR) as (m & Hm1 & Hm2 & Hreq'). rewrite Hreq in Hreq'.
  assert (req = mk_req (buffers q (last_avail_idx q) (S m)) (total (buffers q (last_avail_idx q) (S m)))) as -> by congruence. clear Hreq'.
  destruct HR as [Hq Hmerge Ha HF HA]. set (bufs := buffers q (last_avail_idx q) (S m)) in *. cbn [buf] in *.
  replace (Z.to_nat (available q)) with (S m + (Z.to_nat (available q) - S m))%nat in HF, HA by lia.
  rewrite buffers_app in HF, HA. fold bufs in HF, HA. apply Forall_app in HF as [HF _]. apply ord_pairs_prefix in HA.
  rewrite (capacity_total bufs HF) in Hlen, Hread.
  assert (Z.of_nat (length bufs) = Z.of_nat (S m)) as Hlb by (unfold bufs; by rewrite buffers_length).
  assert (forall l, Forall small l -> total l <= 65536 * Z.of_nat (length l)) as Hcap.
  { induction 1 as [|b l Hb _ IH]; simpl; [lia|]. fold (total l). unfold small in Hb. lia. }
  specialize (Hcap bufs HF). assert (total bufs < 2 ^ 31) as Ht by lia.
  set (len := Z.of_nat (length data)) in *. set (n := length (used_lens bufs len)).
  assert (1 <= n <= S m)%nat as Hn.
  { pose proof (used_lens_length bufs len) as Hul. fold n in Hul. apply Nat2Z.inj in Hlb. split; [|rewrite <- Hlb; exact Hul].
    unfold n, bufs. cbn [buffers used_lens]. destruct (_ <=? _); simpl; lia. }
  destruct (complete_merged k h (mk_req bufs (total bufs)) (last_avail_idx q) len Hq Hmerge HF) as (h' & q' & Hc & HM & Hr1 & Hr2 & Hr3 & Hr4);
    [cbn [buf]; lia|done|cbn [buf]; fold q; lia|]. cbn [buf] in *. fold n in Hr3, Hr4. fold q in HM.
  set (b0 := desc_buf q (last_avail_idx q)). set (mem2 := scatter mem bufs data).
  exists h', (set_header true features mem2 (iov_base b0) n).
  assert (used_at (vq h') = used_at q') as Hua.
  { unfold used_at, slot. rewrite Hr1. by rewrite (sd_num _ _ Hr2), (sd_num _ _ (mg_driver _ _ _ _ _ HM)). }
  assert (forall i l, used_lens bufs len !! i = Some l ->
    used_at (vq h') (used_idx q + Z.of_nat i) = (id_at q (last_avail_idx q + Z.of_nat i), l)) as Hents.
  { intros i l Hi. rewrite Hua. by apply (used_at_merged k q q' _ _ (used_lens bufs len)). }
  assert (num_buffers (vq h') (set_header true features mem2 (iov_base b0) n) (used_idx q) = Z.of_nat n) as Hnum.
  { unfold num_buffers. destruct (used_lens bufs len) as [|l0 ls] eqn:El; [subst n; simpl in Hn; lia|].
    specialize (Hents 0%nat l0 eq_refl). rewrite !Z.add_0_r in Hents. unfold entry_addr. rewrite Hents. cbn [fst].
    rewrite (sd_desc _ _ Hr2), (sd_num _ _ Hr2). fold q. change (d_addr _) with (iov_base b0). apply set_header_num. lia. }
  split; [|cbv zeta; rewrite Hnum; split; [lia|split; [exact Hr3|split; [exact Hr4|]]]].
  - unfold virtio_process_one. fold q. unfold request_at in Hreq.
    destruct (vring_desc_at_avail_idx q (last_avail_idx q)) as [dd|]; [|done]. cbn [mbind outcome_bind] in *. rewrite Hreq. cbn [mbind outcome_bind].
    unfold net_enqueue, bufs at 1. cbn [buf buffers]. fold b0. change (RX_QUEUE_IDX =? TX_QUEUE_IDX) with false.
    change (RX_QUEUE_IDX =? RX_QUEUE_IDX) with true. cbv iota zeta. cbn [buf]. unfold virtio_net_fd_net_rx, readv.
    assert (iov_valid bufs = true) as ->.
    { unfold iov_valid. apply forallb_forall. rewrite Forall_forall in HF. intros b Hb. apply Z.ltb_lt. apply list_elem_of_In in Hb. specialize (HF b Hb).
      unfold small in HF. lia. }
    rewrite (capacity_total bufs HF), Hread. fold len. rewrite s32_small by lia. cbv beta iota. rewrite (proj2 (Z.ltb_ge len 0)) by lia.
    cbn [mbind outcome_bind]. rewrite (proj2 (Z.ltb_ge len 0)) by lia. cbn [total_len]. rewrite u32_small by lia.
    rewrite (proj2 (Z.eqb_neq _ _)) by lia. cbn [andb]. rewrite count_used_lens by (done || lia). cbn [mbind outcome_bind Nat.add].
    fold n mem2. by rewrite Hc.
  - assert (len <= total bufs) as Hle by lia. unfold received. rewrite Hnum, Nat2Z.id.
    pose proof (entries_contents q (vq h') (set_header true features mem2 (iov_base b0) n) (used_idx q) (last_avail_idx q)
      (S m) [] (used_lens bufs len) Hr2 Hents ltac:(lia)) as He.
    cbn [length Z.of_nat] in He. rewrite !Z.add_0_r in He. fold n bufs in He. rewrite He.
    unfold bufs in HF, HA |- *. cbn [buffers] in HF, HA |- *. fold b0 in HF, HA |- *.
    apply Forall_cons in HF as [HF0 HF1]. inversion HA as [|? ? HA0 HA1]; subst.
    rewrite (header_contents mem2); [|done..|lia|by apply set_header_other].
    unfold mem2, len. f_equal. apply (scatter_contents (b0 :: _)); [by constructor|by constructor|]. exact Hle.
Qed.
End Packet.

(** A queue of four entries with three available buffers of 16 bytes, and a
    packet of 20 bytes on the interface. *)
Definition rx_sample : virtq :=
  mk_virtq 4 true 65536 [mk_desc 1000 16 2 0; mk_desc 2000 16 2 0; mk_desc 3000 16 2 0; mk_desc 0 0 0 0]
    2 [1; 0; 0; 2; 0] 65535 [(7, 7); (7, 7); (7, 7); (7, 7)] 0 65535 65535.
Definition packet_sample : list Z := replicate 12 0 ++ [1; 2; 3; 4; 5; 6; 7; 8].
Definition tap_readv (tap : list (list Z)) (size : Z) : (Z + list Z) * list (list Z) :=
  match tap with p :: tap' => (inr (take (Z.to_nat size) p), tap') | [] => (inl (- EAGAIN), []) end.
Definition tap_writev (tap : list (list Z)) (p : list Z) : Z * list (list Z) := (Z.of_nat (length p), tap).
Definition sample_pipe (tap : list (list Z)) : Z * list (list Z) := (1, tap).

Lemma rx_sample_ready : rx_ready 2 rx_sample.
Proof.
  split; [by split|done|by split; vm_compute| |].
  - change (Forall small [mk_iovec 3000 16; mk_iovec 2000 16; mk_iovec 1000 16]). repeat constructor; done.
  - change (ForallOrdPairs apart [mk_iovec 3000 16; mk_iovec 2000 16; mk_iovec 1000 16]). unfold apart.
    repeat constructor; simpl; lia.
Qed.

Lemma packet_received_witness :
  exists h' mem', virtio_process_one (net_enqueue tap_writev tap_readv sample_pipe true 2 RX_QUEUE_IDX)
      (mk_hostq rx_sample 0) (fun _ => 0, [packet_sample]) = Done (0, h', (mem', [])) /\
    let n := num_buffers (vq h') mem' 65535 in
    1 <= n <= 3 /\ used_idx (vq h') = u16 (65535 + n) /\ last_avail_idx (vq h') = u16 (65535 + n) /\
    drop 12 (received (vq h') mem' 65535) = [1; 2; 3; 4; 5; 6; 7; 8].
Proof.
  refine (packet_received tap_writev tap_readv sample_pipe 2 2 (mk_hostq rx_sample 0) (fun _ => 0) [packet_sample]
    (mk_req [mk_iovec 3000 16; mk_iovec 2000 16; mk_iovec 1000 16] 48) packet_sample [] rx_sample_ready _ _ _).
  - vm_compute. reflexivity.
  - vm_compute. reflexivity.
  - vm_compute. split; [discriminate|reflexivity].
Defined.

(** ** What the console completes *)

(** The console gives every request back to the driver, also one whose write
    failed: with no bytes, as if there had been nothing to write. *)
Lemma console_completes {D} f_writev f_readv q h w req idx r h' w' :
  console_enqueue (D := D) f_writev f_readv q h w req idx = Done (r, h', w') ->
  exists len, virtio_req_complete h req idx len = Done h' /\ (r = -1 -> len = 0).
Proof.
  unfold console_enqueue. destruct (if q =? RX_QUEUE_IDX then _ else _) as [ret w1]. cbv zeta.
  destruct (virtio_req_complete _ _ _ _) as [h1|] eqn:E; [|done]. cbn [mbind outcome_bind]. intros [= <- <- <-].
  eexists. split; [exact E|]. destruct (Z.leb_spec 0 ret), (Z.leb_spec ret 0); try done. lia.
Qed.
