(* ===== verification/HostConfig.v ===== *)
(** * HostConfig: the configuration of the host (src/main-oe/sgxlkl_host_config.c)

    The structures come from a header that the build generates from
    tools/schemas/host-config.schema.json.  The callback asks the parser the same
    questions as that of the enclave ([asks] of ConfigReader).  What is read is
    compared with a function of the document. *)

From Stdlib Require Import String.
From S2P Require Import Prelude JsonText JsonParser JsonStrings JsonSafety JsonMatch JsonComplete JsonFollow.
From S2P Require Import Env EnclaveConfig Serialize ConfigReader ConfigRead.

(** ** The structures *)

Record host_root_config : Type := HostRoot {
  hr_image_path : option text; hr_key : option text; hr_overlay : bool; hr_readonly : bool; hr_verity : option text;
  hr_verity_offset : option text }.
Record host_mount_config : Type := HostMount { hm_image_path : option text; hm_destination : option text; hm_readonly : bool }.
Record host_config : Type := HostConfig {
  h_root : host_root_config; h_mounts : list host_mount_config; h_verbose : bool; h_ethreads_affinity : option text;
  h_tap_device : option text; h_tap_offload : bool }.

Definition hset_root (r : host_root_config) (c : host_config) : host_config :=
  HostConfig r (h_mounts c) (h_verbose c) (h_ethreads_affinity c) (h_tap_device c) (h_tap_offload c).
Definition hset_mounts (l : list host_mount_config) (c : host_config) : host_config :=
  HostConfig (h_root c) l (h_verbose c) (h_ethreads_affinity c) (h_tap_device c) (h_tap_offload c).
Definition hset_verbose (b : bool) (c : host_config) : host_config :=
  HostConfig (h_root c) (h_mounts c) b (h_ethreads_affinity c) (h_tap_device c) (h_tap_offload c).
Definition hset_affinity (s : option text) (c : host_config) : host_config :=
  HostConfig (h_root c) (h_mounts c) (h_verbose c) s (h_tap_device c) (h_tap_offload c).
Definition hset_tap_device (s : option text) (c : host_config) : host_config :=
  HostConfig (h_root c) (h_mounts c) (h_verbose c) (h_ethreads_affinity c) s (h_tap_offload c).
Definition hset_tap_offload (b : bool) (c : host_config) : host_config :=
  HostConfig (h_root c) (h_mounts c) (h_verbose c) (h_ethreads_affinity c) (h_tap_device c) b.
Definition hr_set_image_path (s : option text) (r : host_root_config) : host_root_config :=
  HostRoot s (hr_key r) (hr_overlay r) (hr_readonly r) (hr_verity r) (hr_verity_offset r).
Definition hr_set_key (s : option text) (r : host_root_config) : host_root_config :=
  HostRoot (hr_image_path r) s (hr_overlay r) (hr_readonly r) (hr_verity r) (hr_verity_offset r).
Definition hr_set_overlay (b : bool) (r : host_root_config) : host_root_config :=
  HostRoot (hr_image_path r) (hr_key r) b (hr_readonly r) (hr_verity r) (hr_verity_offset r).
Definition hr_set_readonly (b : bool) (r : host_root_config) : host_root_config :=
  HostRoot (hr_image_path r) (hr_key r) (hr_overlay r) b (hr_verity r) (hr_verity_offset r).
Definition hr_set_verity (s : option text) (r : host_root_config) : host_root_config :=
  HostRoot (hr_image_path r) (hr_key r) (hr_overlay r) (hr_readonly r) s (hr_verity_offset r).
Definition hr_set_verity_offset (s : option text) (r : host_root_config) : host_root_config :=
  HostRoot (hr_image_path r) (hr_key r) (hr_overlay r) (hr_readonly r) (hr_verity r) s.
Definition hm_set_image_path (s : option text) (m : host_mount_config) : host_mount_config :=
  HostMount s (hm_destination m) (hm_readonly m).
Definition hm_set_destination (s : option text) (m : host_mount_config) : host_mount_config :=
  HostMount (hm_image_path m) s (hm_readonly m).
Definition hm_set_readonly (b : bool) (m : host_mount_config) : host_mount_config :=
  HostMount (hm_image_path m) (hm_destination m) b.

(** ** The callback *)

Definition host_handler : Type := view -> host_config -> outcome host_config.

(** JSTRING and JBOOL of this file; another type is the end. *)
Definition host_string (set : view -> option text -> host_config -> outcome host_config) : host_handler := fun a c =>
  match v_type a, v_value a with
  | JSON_TYPE_STRING, VString s => set a (Some s) c
  | JSON_TYPE_NULL, VNone => set a None c
  | JSON_TYPE_STRING, _ | JSON_TYPE_NULL, _ => Failed (BadPointer 0)
  | _, _ => Failed Stopped
  end.
Definition host_bool (set : view -> bool -> host_config -> outcome host_config) : host_handler := fun a c =>
  match v_type a, v_value a with
  | JSON_TYPE_BOOLEAN, VBool b => set a (truthy b) c
  | JSON_TYPE_BOOLEAN, _ => Failed (BadPointer 0)
  | _, _ => Failed Stopped
  end.
Definition host_field {A} (set : A -> host_config -> host_config) : view -> A -> host_config -> outcome host_config :=
  fun _ v c => Done (set v c).
Definition host_root_field {A} (set : A -> host_root_config -> host_root_config) : view -> A -> host_config -> outcome host_config :=
  fun _ v c => Done (hset_root (set v (h_root c)) c).
(** MOUNT(): the index is not compared with the length of the array. *)
Definition host_mount_field {A} (set : A -> host_mount_config -> host_mount_config) :
    view -> A -> host_config -> outcome host_config := fun a v c =>
  i ← v_array_index a;
  if i =? UINT64_MAX then Failed Stopped
  else l ← at_index i (set v) (h_mounts c); Done (hset_mounts l c).

Definition host_values : list (string * host_handler) :=
  [("root.image_path", host_string (host_root_field hr_set_image_path));
   ("root.key", host_string (host_root_field hr_set_key));
   ("root.overlay", host_bool (host_root_field hr_set_overlay));
   ("root.readonly", host_bool (host_root_field hr_set_readonly));
   ("root.verity", host_string (host_root_field hr_set_verity));
   ("root.verity_offset", host_string (host_root_field hr_set_verity_offset));
   ("mounts.image_path", host_string (host_mount_field hm_set_image_path));
   ("mounts.destination", host_string (host_mount_field hm_set_destination));
   ("mounts.readonly", host_bool (host_mount_field hm_set_readonly));
   ("verbose", host_bool (host_field hset_verbose));
   ("ethreads_affinity", host_string (host_field hset_affinity));
   ("tap_device", host_string (host_field hset_tap_device));
   ("tap_offload", host_bool (host_field hset_tap_offload))]%string.

(** The configuration, and the buffer of [make_path]. *)
Definition host_reader : Type := host_config * text.

(** The first pattern that matches; without one there is a warning with the
    path. *)
Fixpoint host_value (a : asks) (l : list (string * host_handler)) (d : host_reader) : outcome host_reader :=
  match l with
  | [] => p ← a_path a d.2; Done (d.1, p)
  | (p, h) :: l' =>
      m ← a_match a p;
      if (m : bool) then c ← h (a_view a) d.1; Done (c, d.2) else host_value a l' d
  end.

Definition zero_host_mount : host_mount_config := HostMount None None false.
Definition read_host_event (a : asks) (reason : json_reason) (d : host_reader) : outcome host_reader :=
  match reason with
  | JSON_REASON_BEGIN_ARRAY =>
      m ← a_match a "mounts";
      if (m : bool) then
        match v_value (a_view a) with
        | VInt n => Done (hset_mounts (replicate (Z.to_nat n) zero_host_mount) d.1, d.2)
        | _ => Failed (BadPointer 0)
        end
      else Done d
  | JSON_REASON_VALUE => host_value a host_values d
  | _ => Done d
  end.

Definition parse_host_config_entry (q : json_parser) (t : text) (reason : json_reason) (type : json_type)
    (un : json_union) (st : json_result * host_reader) : outcome (json_result * (json_result * host_reader)) :=
  v ← read_union t un;
  d ← read_host_event (parser_asks q t type v) reason st.2;
  Done (JSON_OK, (st.1, d)).

(** [sgxlkl_read_host_config]: -1 or 0, and the configuration.  [junk]: the byte
    after the copy of the text, which is not terminated. *)
Definition sgxlkl_read_host_config (ja_malloc : nat -> Z -> bool) (junk : Z) (fuel : nat) (from : text) (config : host_config) :
    outcome (Z * host_config) :=
  match json_parser_init true true (length from) true true true true (Some true) with
  | (JSON_OK, Some parser) =>
      '(r, s) ← json_parser_parse parse_host_config_entry ja_malloc fuel
                  (PState (from ++ [junk]) parser JSON_OK 0 0 (config, []));
      match r with
      | inl _ => Done (-1, (user s).1)
      | inr _ => Done (if decide (depth (prs s) = 0%nat) then 0 else -1, (user s).1)
      end
  | _ => Done (-1, config)
  end.

(** [host_config_from_file]: the whole file is read; its text ends at the first
    null. *)
Definition host_config_from_file (ja_malloc : nat -> Z -> bool) (junk : Z) (fuel : nat) (file : option text) (config : host_config) :
    outcome host_config :=
  match file with
  | None => Failed Stopped
  | Some buf =>
      '(r, c) ← sgxlkl_read_host_config ja_malloc junk fuel (until_nul buf) config;
      if r <? 0 then Failed Stopped else Done c
  end.

(** ** The configuration that a document describes *)

Definition str_value (x : json) : option (option text) :=
  match x with JNull => Some None | JString s => Some (Some s) | _ => None end.
Definition bool_value (x : json) : option bool := match x with JBool b => Some b | _ => None end.
(** A member with another name: not an object or an array, and the warning has
    room for its path. *)
Definition ignored (k : text) (x : json) : bool :=
  bool_decide (length k < 1000)%nat && match x with JArray _ | JObject _ => false | _ => true end.

Definition root_member (r : host_root_config) (m : text * json) : option host_root_config :=
  let '(k, x) := m in
  if decide (k = bytes "image_path") then s ← str_value x; Some (hr_set_image_path s r)
  else if decide (k = bytes "key") then s ← str_value x; Some (hr_set_key s r)
  else if decide (k = bytes "overlay") then b ← bool_value x; Some (hr_set_overlay b r)
  else if decide (k = bytes "readonly") then b ← bool_value x; Some (hr_set_readonly b r)
  else if decide (k = bytes "verity") then s ← str_value x; Some (hr_set_verity s r)
  else if decide (k = bytes "verity_offset") then s ← str_value x; Some (hr_set_verity_offset s r)
  else if ignored k x then Some r else None.
Definition mount_member (d : host_mount_config) (m : text * json) : option host_mount_config :=
  let '(k, x) := m in
  if decide (k = bytes "image_path") then s ← str_value x; Some (hm_set_image_path s d)
  else if decide (k = bytes "destination") then s ← str_value x; Some (hm_set_destination s d)
  else if decide (k = bytes "readonly") then b ← bool_value x; Some (hm_set_readonly b d)
  else if ignored k x then Some d else None.
(** The members one after the other, the last one counts. *)
Definition members {A} (member : A -> text * json -> option A) (a : A) (l : list (text * json)) : option A :=
  foldl (fun oa m => a ← oa; member a m) (Some a) l.
Definition mount_value (x : json) : option host_mount_config :=
  match x with JObject l => members mount_member zero_host_mount l | _ => None end.
Definition config_member (c : host_config) (m : text * json) : option host_config :=
  let '(k, x) := m in
  if decide (k = bytes "root") then
    match x with JObject l => r ← members root_member (h_root c) l; Some (hset_root r c) | _ => None end
  else if decide (k = bytes "mounts") then
    match x with JArray l => ms ← mapM mount_value l; Some (hset_mounts ms c) | _ => None end
  else if decide (k = bytes "verbose") then b ← bool_value x; Some (hset_verbose b c)
  else if decide (k = bytes "ethreads_affinity") then s ← str_value x; Some (hset_affinity s c)
  else if decide (k = bytes "tap_device") then s ← str_value x; Some (hset_tap_device s c)
  else if decide (k = bytes "tap_offload") then b ← bool_value x; Some (hset_tap_offload b c)
  else if ignored k x then Some c else None.
Definition described (l : list (text * json)) (c : host_config) : option host_config := members config_member c l.

(** ** The callback follows the events *)

Definition host_step (ev : event) (d : host_reader) : option host_reader :=
  match read_host_event (event_asks ev) (ev_reason ev) d with Done d' => Some d' | Failed _ => None end.

Lemma host_value_agree a a' l d : agree a a' -> forallb pattern_ok l.*1 = true -> host_value a l d = host_value a' l d.
Proof.
  intros [Hm Hp Hv]. induction l as [|[p h] l IH]; cbn [fmap list_fmap forallb fst host_value]; [by rewrite Hp|].
  rewrite andb_true_iff. intros [Hok Hl]. rewrite Hm by done. destruct (a_match a' p) as [[]|]; try done; cbn [mbind outcome_bind].
  - by rewrite Hv.
  - by apply IH.
Qed.
Lemma read_host_event_agree a a' reason d : agree a a' -> read_host_event a reason d = read_host_event a' reason d.
Proof.
  intros Ha. pose proof Ha as [Hm _ Hv]. destruct reason; try done; cbn [read_host_event].
  - rewrite Hm by (by vm_compute). by rewrite Hv.
  - apply host_value_agree; [done|by vm_compute].
Qed.

#[export] Instance host_config_reader : EventReader parse_host_config_entry host_step.
Proof.
  intros q t reason type un e d d' Hok Hs. unfold parse_host_config_entry.
  rewrite (read_union_ok q t reason un) by done. cbn [mbind outcome_bind snd].
  unfold host_step in Hs. cbn [event_of ev_reason] in Hs.
  assert (read_host_event (parser_asks q t type (capture t un)) reason d =
          read_host_event (event_asks (event_of q t reason type un)) reason d) as ->.
  { pose proof Hok as (_ & _ & _ & Hpath). destruct reason; try done.
    all: by rewrite (read_host_event_agree _ _ _ _ (parser_agrees q t _ type un Hok (proj1 Hpath))). }
  destruct (read_host_event _ _ _) as [d1|]; [|done]. injection Hs as ->. by eexists.
Qed.

(** ** Reading what a document describes *)

(** From configuration [c] the events lead to [c']. *)
Definition leads (evs : list event) (c c' : host_config) : Prop :=
  forall tmp, exists tmp', steps host_step evs (c, tmp) = Some (c', tmp').

Lemma leads_nil c : leads [] c c.
Proof. intros tmp. by exists tmp. Qed.
Lemma leads_app e1 e2 c c1 c2 : leads e1 c c1 -> leads e2 c1 c2 -> leads (e1 ++ e2) c c2.
Proof.
  intros H1 H2 tmp. destruct (H1 tmp) as [t1 E1]. destruct (H2 t1) as [t2 E2]. exists t2. by rewrite steps_app, E1.
Qed.
Lemma leads_cons ev evs c c1 c2 : leads [ev] c c1 -> leads evs c1 c2 -> leads (ev :: evs) c c2.
Proof. apply (leads_app [ev] evs). Qed.
Lemma leads_step ev c c' : (forall tmp, exists tmp', host_step ev (c, tmp) = Some (c', tmp')) -> leads [ev] c c'.
Proof. intros H tmp. destruct (H tmp) as [tmp' E]. exists tmp'. by rewrite steps_cons, E. Qed.

Fixpoint find_value (ns : list text) (l : list (string * host_handler)) : option host_handler :=
  match l with [] => None | (p, h) :: l' => if bool_decide (split_dots (bytes p) = ns) then Some h else find_value ns l' end.

Lemma host_value_find ev l d : host_value (event_asks ev) l d =
  match find_value (names (ev_path ev)) l with
  | Some h => c ← h (a_view (event_asks ev)) d.1; Done (c, d.2)
  | None => p ← event_path (ev_path ev) d.2; Done (d.1, p)
  end.
Proof.
  induction l as [|[p h] l IH]; [done|]. cbn [host_value find_value a_match event_asks].
  unfold event_match. cbn [mbind outcome_bind]. case_bool_decide; [done|exact IH].
Qed.

Definition seen (fr : list frame) (ty : json_type) (v : value) : view := View (event_index fr) (event_array_index fr) ty v.

Lemma value_leads fr ty v h c c' :
  find_value (names fr) host_values = Some h -> h (seen fr ty v) c = Done c' -> leads [value_event fr ty v] c c'.
Proof.
  intros Hf Hh. apply leads_step. intros tmp. exists tmp. unfold host_step. cbn [ev_reason value_event read_host_event].
  rewrite host_value_find. cbn [ev_path value_event]. rewrite Hf. unfold event_asks. cbn [a_view ev_path ev_type ev_value value_event fst].
  unfold seen in Hh. rewrite Hh. done.
Qed.

(** A member that no handler takes. *)
Lemma unknown_leads fr k x c :
  find_value (names (fr ++ [(k, 0)])) host_values = None -> (length (join_dots (names (fr ++ [(k, 0%Z)]))) < 1024)%nat ->
  ignored k x = true -> leads (events (fr ++ [(k, 0)]) x) c c.
Proof.
  intros Hf Hp Hi. assert (forall ty v, leads [value_event (fr ++ [(k, 0)]) ty v] c c) as H.
  { intros ty v. apply leads_step. intros tmp. exists (join_dots (names (fr ++ [(k, 0)]))). unfold host_step. cbn [ev_reason value_event read_host_event].
    rewrite host_value_find. cbn [ev_path value_event]. rewrite Hf. unfold event_path.
    destruct (fr ++ [(k, 0)]) eqn:E; [by destruct fr|]. rewrite decide_True by exact Hp. reflexivity. }
  unfold ignored in Hi. apply andb_true_iff in Hi as [_ Hi]. destruct x; try done; apply H.
Qed.

Lemma str_leads fr x set s c c' :
  str_value x = Some s -> find_value (names fr) host_values = Some (host_string set) ->
  (forall ty v, set (seen fr ty v) s c = Done c') -> leads (events fr x) c c'.
Proof.
  intros Hs Hf Hset. destruct x; try done; injection Hs as <-; apply (value_leads _ _ _ _ _ _ Hf); apply Hset.
Qed.
Lemma bool_leads fr x set b c c' :
  bool_value x = Some b -> find_value (names fr) host_values = Some (host_bool set) ->
  (forall ty v, set (seen fr ty v) b c = Done c') -> leads (events fr x) c c'.
Proof.
  intros Hs Hf Hset. destruct x as [|b0| | | |]; try done. injection Hs as ->. apply (value_leads _ _ _ _ _ _ Hf).
  unfold host_bool. cbn [v_type v_value seen]. replace (truthy (int_of_bool b)) with b by (by destruct b). apply Hset.
Qed.

(** Members, given what one of them does. *)
Lemma members_lead {A} (member : A -> text * json -> option A) (put : A -> host_config) fr l : forall a a',
  (forall a a' k x, In (k, x) l -> member a (k, x) = Some a' -> leads (events (fr ++ [(k, 0)]) x) (put a) (put a')) ->
  members member a l = Some a' -> leads (member_events fr l) (put a) (put a').
Proof.
  induction l as [|[k x] l IH]; intros a a' Hm Hl; [injection Hl as ->; apply leads_nil|].
  unfold members in Hl. cbn [foldl] in Hl. cbn [mbind option_bind] in Hl.
  destruct (member a (k, x)) as [a1|] eqn:E.
  - cbn [member_events]. eapply leads_cons; [apply leads_step; intros tmp; by exists tmp|].
    eapply leads_app; [apply (Hm a a1); [by left|done]|]. apply IH; [|done]. intros b b' k' x' Hin. apply Hm. by right.
  - exfalso. clear -Hl. induction l as [|m l IHl]; [done|]. apply IHl. exact Hl.
Qed.
Lemma object_leads {A} (member : A -> text * json -> option A) (put : A -> host_config) fr l a a' :
  (forall a a' k x, In (k, x) l -> member a (k, x) = Some a' -> leads (events (fr ++ [(k, 0)]) x) (put a) (put a')) ->
  members member a l = Some a' -> leads (events fr (JObject l)) (put a) (put a').
Proof.
  intros Hm Hl. rewrite events_object. eapply leads_cons; [apply leads_step; intros tmp; by exists tmp|].
  eapply leads_app; [by eapply members_lead|]. apply leads_step. intros tmp. by exists tmp.
Qed.

Lemma find_value_none ns l : Forall (fun p => split_dots (bytes p.1) <> ns) l -> find_value ns l = None.
Proof. induction 1 as [|[p h] l Hp _ IH]; [done|]. cbn [find_value]. rewrite bool_decide_false by done. exact IH. Qed.

(** A member with the name of the current case. *)
Ltac known_str := destruct (str_value _) as [s|] eqn:Es; [|done]; cbn [mbind option_bind];
  intros [= <-]; eapply str_leads; [exact Es|exact eq_refl|intros ty v].
Ltac known_bool := destruct (bool_value _) as [b|] eqn:Es; [|done]; cbn [mbind option_bind];
  intros [= <-]; eapply bool_leads; [exact Es|exact eq_refl|intros ty v].
(** The other names: none of the patterns has them. *)
Ltac unknown := apply unknown_leads; [apply find_value_none|..|assumption];
  [repeat constructor; cbn [fst]; intros E; vm_compute in E; congruence|].

Lemma ignored_length k x : ignored k x = true -> (length k < 1000)%nat.
Proof. unfold ignored. rewrite andb_true_iff, bool_decide_eq_true. tauto. Qed.

Lemma root_member_leads c r r' k x :
  root_member r (k, x) = Some r' -> leads (events ([(bytes "root", 0)] ++ [(k, 0)]) x) (hset_root r c) (hset_root r' c).
Proof.
  unfold root_member. case_decide as H1; [subst k; known_str; reflexivity|]. case_decide as H2; [subst k; known_str; reflexivity|].
  case_decide as H3; [subst k; known_bool; reflexivity|]. case_decide as H4; [subst k; known_bool; reflexivity|].
  case_decide as H5; [subst k; known_str; reflexivity|]. case_decide as H6; [subst k; known_str; reflexivity|].
  destruct (ignored k x) eqn:Hi; [|done]. intros [= <-]. pose proof (ignored_length k x Hi).
  vm_compute in H1, H2, H3, H4, H5, H6. unknown. cbn [names fmap list_fmap fst app join_dots]. rewrite length_app. simpl. lia.
Qed.

Lemma host_mount_field_at {A} (set : A -> host_mount_config -> host_mount_config) k1 k2 j ty w v pre x rest c :
  Z.of_nat (length pre) < 2 ^ 63 ->
  host_mount_field set (seen [(k1, Z.of_nat (length pre)); (k2, j)] ty w) v (hset_mounts (pre ++ x :: rest) c) =
    Done (hset_mounts (pre ++ set v x :: rest) c).
Proof.
  intros Hl. unfold host_mount_field.
  cbn [v_array_index seen event_array_index length lookup list_lookup snd mbind outcome_bind].
  unfold UINT64_MAX. rewrite (proj2 (Z.eqb_neq _ _)) by lia.
  change (h_mounts (hset_mounts (pre ++ x :: rest) c)) with (pre ++ x :: rest).
  unfold at_index. rewrite Nat2Z.id, list_lookup_middle by done. cbn [mbind outcome_bind].
  rewrite insert_app_r_alt, Nat.sub_diag by lia. done.
Qed.

Lemma mount_member_leads c pre rest d d' k x :
  Z.of_nat (length pre) < 2 ^ 63 -> mount_member d (k, x) = Some d' ->
  leads (events ([(bytes "mounts", Z.of_nat (length pre))] ++ [(k, 0)]) x)
    (hset_mounts (pre ++ d :: rest) c) (hset_mounts (pre ++ d' :: rest) c).
Proof.
  intros Hl. unfold mount_member. case_decide as H1; [subst k; known_str; by apply host_mount_field_at|].
  case_decide as H2; [subst k; known_str; by apply host_mount_field_at|].
  case_decide as H3; [subst k; known_bool; by apply host_mount_field_at|].
  destruct (ignored k x) eqn:Hi; [|done]. intros [= <-]. pose proof (ignored_length k x Hi).
  vm_compute in H1, H2, H3. unknown. cbn [names fmap list_fmap fst app join_dots]. rewrite length_app. simpl. lia.
Qed.

Lemma mounts_lead c l : forall pre ms, mapM mount_value l = Some ms -> Z.of_nat (length pre + length l) < 2 ^ 63 ->
  leads (element_events [(bytes "mounts", 0)] (Z.of_nat (length pre)) l)
    (hset_mounts (pre ++ replicate (length l) zero_host_mount) c) (hset_mounts (pre ++ ms) c).
Proof.
  induction l as [|x l IH]; intros pre ms Hms Hl; [injection Hms as <-; apply leads_nil|].
  cbn [mapM mbind option_bind] in Hms. destruct (mount_value x) as [m|] eqn:Em; [|done]. cbn [mbind option_bind] in Hms.
  destruct (mapM mount_value l) as [ms'|] eqn:Es; [|done]. injection Hms as <-. cbn [element_events length replicate]. simpl in Hl.
  eapply leads_app.
  - unfold mount_value in Em. destruct x as [| | | | |ml]; try done.
    apply (object_leads mount_member (fun d => hset_mounts (pre ++ d :: replicate (length l) zero_host_mount) c)
      [(bytes "mounts", Z.of_nat (length pre))] ml); [|exact Em].
    intros a a' k x _ Ha. apply mount_member_leads; [lia|exact Ha].
  - replace (Z.of_nat (length pre) + 1) with (Z.of_nat (length (pre ++ [m]))) by (rewrite length_app; simpl; lia).
    specialize (IH (pre ++ [m]) ms' eq_refl). rewrite <- !app_assoc in IH. apply IH. rewrite length_app. simpl. lia.
Qed.

Lemma config_member_leads `{StringEncoding} c c' k x :
  supported x -> config_member c (k, x) = Some c' -> leads (events ([] ++ [(k, 0)]) x) c c'.
Proof.
  intros Hs. unfold config_member. case_decide as H1; [subst k|case_decide as H2; [subst k|]].
  - destruct x as [| | | | |l]; try done. destruct (members root_member (h_root c) l) as [r|] eqn:E; [|done].
    intros [= <-]. replace c with (hset_root (h_root c) c) at 1 by (by destruct c).
    apply (object_leads root_member (fun r => hset_root r c)); [|exact E].
    intros a a' k x _ Ha. by apply root_member_leads.
  - destruct x as [| | | |l|]; try done. destruct (mapM mount_value l) as [ms|] eqn:E; [|done]. intros [= <-].
    rewrite events_array.
    apply (leads_cons _ _ c (hset_mounts (replicate (Z.to_nat (Z.of_nat (length l))) zero_host_mount) c));
      [apply leads_step; intros tmp; by exists tmp|].
    eapply leads_app; [|apply leads_step; intros tmp; by exists tmp]. rewrite Nat2Z.id.
    apply (mounts_lead c l [] ms E). destruct Hs as [Hs _]. simpl. lia.
  - case_decide as H3; [subst k; known_bool; reflexivity|]. case_decide as H4; [subst k; known_str; reflexivity|].
    case_decide as H5; [subst k; known_str; reflexivity|]. case_decide as H6; [subst k; known_bool; reflexivity|].
    destruct (ignored k x) eqn:Hi; [|done]. intros [= <-]. pose proof (ignored_length k x Hi).
    vm_compute in H1, H2, H3, H4, H5, H6. unknown. cbn [names fmap list_fmap fst app join_dots]. lia.
Qed.

(** C19. Reading the configuration of the host: for every document that describes
    a configuration ([described]), its text is read without an error and without
    an access outside the arrays, and gives exactly the configuration that it
    describes, on top of the one there was before.  A document describes a
    configuration if the members of the schema have values of their types and
    every other member is a scalar (not an object or an array) whose name has
    less than 1000 bytes; the members can come in any order and be repeated.
    The document is supported by the parser and nested no deeper than its limit,
    memory is available, and the byte after the parser's copy of the text is 0.
    (A longer name of another member overflows the static buffer of
    [make_path]: [host_long_path_overflows].) *)
Theorem host_config_read `{StringEncoding} ja_malloc fuel l c c' :
  (forall n size, ja_malloc n size = true) -> supported (JObject l) -> (nesting (JObject l) <= JSON_MAX_NESTING)%nat ->
  described l c = Some c' -> (2 * length (render (JObject l)) + 3 <= fuel)%nat ->
  sgxlkl_read_host_config ja_malloc 0 fuel (render (JObject l)) c = Done (0, c').
Proof.
  intros Hm Hs Hn Hd Hf. set (t := render (JObject l)) in *.
  assert (leads (events [] (JObject l)) c c') as Hl.
  { apply (object_leads config_member (fun c => c) [] l c c'); [|exact Hd]. intros a a' k x Hin Ha.
    apply config_member_leads; [|exact Ha]. pose proof (proj1 (members_supported_Forall l) Hs) as Hall.
    rewrite Forall_forall in Hall. apply (proj2 (Hall (k, x) (proj2 (list_elem_of_In _ _) Hin))). }
  destruct (Hl []) as [tmp Hst].
  edestruct (parse_follows parse_host_config_entry host_step ja_malloc l [] true fuel)
    as (s' & Hp & Hu & Hdep); [done|done|done|constructor|by rewrite app_nil_r|exact Hst|].
  rewrite app_nil_r in Hp. fold t in Hp. unfold sgxlkl_read_host_config, json_parser_init.
  rewrite bool_decide_eq_false_2 by done. cbn [negb orb default].
  change (PState (t ++ [0]) _ JSON_OK 0 0 _) with (start_parse (t ++ [0]) (length t) true (c, @nil Z)).
  unfold host_reader in *. rewrite Hp. cbn [mbind outcome_bind]. rewrite decide_True by done. by rewrite Hu.
Qed.

(** The warning for a member that no handler takes writes its path into a static
    array of 1024 bytes, whatever the length of the path is. *)
Theorem host_long_path_overflows fr k ty v c tmp :
  find_value (names (fr ++ [(k, 0)])) host_values = None -> (1024 <= length (join_dots (names (fr ++ [(k, 0%Z)]))))%nat ->
  read_host_event (event_asks (value_event (fr ++ [(k, 0)]) ty v)) JSON_REASON_VALUE (c, tmp) = Failed (BadPointer 1024).
Proof.
  intros Hf Hp. cbn [read_host_event]. rewrite host_value_find. cbn [ev_path value_event]. rewrite Hf. unfold event_path.
  destruct (fr ++ [(k, 0)]) eqn:E; [by destruct fr|]. rewrite decide_False by lia. reflexivity.
Qed.

(** A document with members out of order, a repeated and an unknown one. *)
Definition host_sample : list (text * json) :=
  [(bytes "verbose", JBool true);
   (bytes "mounts", JArray [JObject [(bytes "destination", JString (bytes "/data")); (bytes "image_path", JString (bytes "d.img"))];
                            JObject [(bytes "readonly", JBool true)]]);
   (bytes "comment", JInt 7);
   (bytes "root", JObject [(bytes "image_path", JString (bytes "root.img")); (bytes "key", JNull)]);
   (bytes "verbose", JBool false)].
Definition host_before : host_config := HostConfig (HostRoot None None false true None None) [] true None (Some (bytes "tap0")) true.

Lemma host_config_read_witness :
  sgxlkl_read_host_config (fun _ _ => true) 0 2000 (render (JObject host_sample)) host_before =
    Done (0, HostConfig (HostRoot (Some (bytes "root.img")) None false true None None)
      [HostMount (Some (bytes "d.img")) (Some (bytes "/data")) false; HostMount None None true] false None (Some (bytes "tap0")) true).
Proof.
  refine (host_config_read (fun _ _ => true) 2000 host_sample host_before _ _ _ _ _ _).
  - reflexivity.
  - vm_compute. repeat split; congruence.
  - apply (bool_decide_unpack (nesting (JObject host_sample) <= JSON_MAX_NESTING)%nat). exact I.
  - vm_compute. reflexivity.
  - apply (bool_decide_unpack (2 * length (render (JObject host_sample)) + 3 <= 2000)%nat). exact I.
Defined.

(** Names of 1023 and of 1024 bytes. *)
Example host_name_1023 :
  sgxlkl_read_host_config (fun _ _ => true) 0 3000 (render (JObject [(replicate 1023 120, JInt 7)])) host_before = Done (0, host_before).
Proof. vm_compute. reflexivity. Qed.
Example host_name_1024 :
  sgxlkl_read_host_config (fun _ _ => true) 0 3000 (render (JObject [(replicate 1024 120, JInt 7)])) host_before =
    Failed (BadPointer 1024).
Proof. vm_compute. reflexivity. Qed.
