(* ===== verification/EnclaveStart.v ===== *)
(** * EnclaveStart: how the enclave starts (src/enclave/enclave_init.c,
    src/enclave/enclave_oe.c)

    From the shared memory of the host to the stack of the first process.  The
    arrays of the host are taken not to change while they are copied.  An
    allocation that fails stops the program, and is left out; the addresses it
    gives and random numbers are parameters. *)

From Stdlib Require Import String.
From stdpp Require Import gmap.
From S2P Require Import Prelude JsonText JsonFollow Env EnclaveConfig EnclaveMem MpmcQueue VicCrypto Luks2 DeviceMapper Disks.

(** ** The shared memory *)

(** sgxlkl_shared_memory_t.  A name of the host and an entry of its environment
    can be null. *)
Record shared_memory : Type := mk_shm {
  virtio_net_dev_mem : Z; virtio_console_mem : Z; evt_channel_num : Z; enc_dev_config : Z; virtio_swiotlb : Z;
  virtio_swiotlb_size : Z; timer_dev_mem : Z; num_virtio_blk_dev : Z; virtio_blk_dev_mem : list Z;
  virtio_blk_dev_names : list (option text); shm_env : option (list (option text)) }.

Definition get_at {A} (l : list A) (i : nat) : outcome A :=
  match l !! i with Some x => Done x | None => Failed (BadPointer (Z.of_nat i)) end.

(** The loop that copies the block devices. *)
Fixpoint copy_devices (n i : nat) (host : shared_memory) : outcome (list Z * list (option text)) :=
  match n with
  | O => Done ([], [])
  | S n' =>
      m ← get_at (virtio_blk_dev_mem host) i;
      name ← get_at (virtio_blk_dev_names host) i;
      match name with
      | None => Failed (BadPointer 0)
      | Some s => '(ms, names) ← copy_devices n' (S i) host; Done (m :: ms, Some s :: names)
      end
  end.

(** "while (host->env[henvc++] != 0)": the entries with the null at the end. *)
Fixpoint count_env (env : list (option text)) : outcome nat :=
  match env with
  | [] => Failed (BadPointer 0)
  | None :: _ => Done 1%nat
  | Some _ :: env' => n ← count_env env'; Done (S n)
  end.

Section Start.
Context `{Gen : GeneratedConfig}.

(** [oe_strdup] of null is null. *)
Definition _copy_shared_memory (cfg : enclave_config) (host : shared_memory) : outcome shared_memory :=
  '(n, (ms, names)) ← (if io_block (io cfg) then
                         l ← copy_devices (Z.to_nat (num_virtio_blk_dev host)) 0 host; Done (num_virtio_blk_dev host, l)
                       else Done (0, ([], [])));
  env ← match shm_env host with
        | None => Done None
        | Some env => henvc ← count_env env; Done (Some (take henvc env ++ [None]))
        end;
  Done (mk_shm (if io_network (io cfg) then virtio_net_dev_mem host else 0)
          (if io_console (io cfg) then virtio_console_mem host else 0) (evt_channel_num host) (enc_dev_config host)
          (virtio_swiotlb host) (virtio_swiotlb_size host) (timer_dev_mem host) n ms names env).

(** ** The environment of the host *)

(** [_strncmp], on texts that end with a null. *)
Fixpoint _strncmp (x y : text) (n : nat) : Z :=
  match n with
  | O => 0
  | S n' =>
      let a := s8 (default 0 (head x)) in
      let b := s8 (default 0 (head y)) in
      if negb (a =? 0) && negb (b =? 0) && truthy (Z.of_nat n') && (a =? b) then _strncmp (tail x) (tail y) n'
      else if a =? b then 0 else if a <? b then -1 else 1
  end.

(** The character at an index of a text that ends with a null. *)
Definition char_at (s : text) (n : nat) : outcome Z := get_at (s ++ [0]) n.

(** Entries are added to [imported_env], which has [room] of them. *)
Fixpoint import_name (room : nat) (name : text) (env : list (option text)) (imported : list text) : outcome (list text) :=
  match env with
  | [] => Failed (BadPointer 0)
  | None :: _ => Done imported
  | Some p :: env' =>
      if _strncmp name p (length name) =? 0 then
        c ← char_at p (length name);
        if c =? 61 then
          if bool_decide (length imported < room)%nat then import_name room name env' (imported ++ [p])
          else Failed (BadPointer (Z.of_nat room))
        else import_name room name env' imported
      else import_name room name env' imported
  end.
Fixpoint import_names (room : nat) (names : list (option text)) (env : list (option text)) (imported : list text) : outcome (list text) :=
  match names with
  | [] => Done imported
  | None :: names' => match env with Some _ :: _ => Failed (BadPointer 0) | _ => import_names room names' env imported end
  | Some name :: names' => imported ← import_name room name env imported; import_names room names' env imported
  end.
Definition import_env (cfg : enclave_config) (shm : shared_memory) : outcome (list text) :=
  match shm_env shm with
  | None => Done []
  | Some env => import_names (length (host_import_env cfg)) (host_import_env cfg) env []
  end.

(** ** The stack of the first process *)

Definition AUXV_ENTRIES : nat := 13.
Definition at_platform : text := bytes "x86_64".
Definition AT_NULL : Z := 0.
Definition AT_PAGESZ : Z := 6.
Definition AT_UID : Z := 11.
Definition AT_EUID : Z := 12.
Definition AT_GID : Z := 13.
Definition AT_EGID : Z := 14.
Definition AT_PLATFORM : Z := 15.
Definition AT_HWCAP : Z := 16.
Definition AT_CLKTCK : Z := 17.
Definition AT_SECURE : Z := 23.
Definition AT_RANDOM : Z := 25.
Definition AT_EXECFN : Z := 31.
(** The entry of SGX-LKL. *)
Variable AT_HW_MODE : Z.

(** The bytes, where the next one goes, the array of pointers, and its index. *)
Record elf_stack : Type := mk_elf { es_data : list Z; es_buf : nat; es_out : list Z; es_j : nat }.

Definition write_at {A} (l : list A) (p : nat) (new : list A) : outcome (list A) :=
  if bool_decide (p + length new <= length l)%nat then Done (take p l ++ new ++ drop (p + length new) l)
  else Failed (BadPointer (Z.of_nat (length l))).

(** The address of the bytes; a null in the list of arguments is followed. *)
Variable data_base : Z.
Definition ADD_STRING (o : option text) (s : elf_stack) : outcome elf_stack :=
  match o with
  | None => Failed (BadPointer 0)
  | Some str =>
      data ← write_at (es_data s) (es_buf s) (str ++ [0]);
      out ← write_at (es_out s) (es_j s) [data_base + Z.of_nat (es_buf s)];
      Done (mk_elf data (es_buf s + length str + 1) out (S (es_j s)))
  end.
Fixpoint add_strings (l : list (option text)) (s : elf_stack) : outcome elf_stack :=
  match l with [] => Done s | o :: l' => s ← ADD_STRING o s; add_strings l' s end.
Definition add_null (s : elf_stack) : outcome elf_stack :=
  out ← write_at (es_out s) (es_j s) [0]; Done (mk_elf (es_data s) (es_buf s) out (S (es_j s))).

Definition auxv_entries (pn platform random hw_mode : Z) : list Z :=
  [AT_CLKTCK; 100; AT_EXECFN; pn; AT_HWCAP; 0; AT_EGID; 0; AT_EUID; 0; AT_GID; 0; AT_PAGESZ; 0; AT_PLATFORM; platform;
   AT_SECURE; 0; AT_UID; 0; AT_RANDOM; random; AT_HW_MODE; hw_mode; AT_NULL; 0].
(** [rd0], [rd1]: the random numbers. *)
Definition init_auxv (sw_debug_mode : bool) (rd0 rd1 pn : Z) (s : elf_stack) : outcome elf_stack :=
  data ← write_at (es_data s) (es_buf s) (le_bytes 8 rd0 ++ le_bytes 8 rd1);
  out ← write_at (es_out s) (es_j s) (replicate (2 * AUXV_ENTRIES) 0);
  data ← write_at data (es_buf s + 16) (at_platform ++ [0]);
  let platform := data_base + Z.of_nat (es_buf s + 16) in
  out ← write_at out (es_j s) (auxv_entries pn platform (data_base + Z.of_nat (es_buf s)) (if sw_debug_mode then 0 else 1));
  Done (mk_elf data (es_buf s) out (es_j s)).

(** The bytes that a list of strings takes. *)
Fixpoint string_bytes (l : list (option text)) : outcome nat :=
  match l with
  | [] => Done O
  | None :: _ => Failed (BadPointer 0)
  | Some s :: l' => n ← string_bytes l'; Done (length s + 1 + n)%nat
  end.

(** elf64_stack_t: [argv], [envp] and [auxv] as indices of the array. *)
Record elf64_stack : Type := mk_stack { st_argc : nat; st_argv : nat; st_envp : nat; st_auxv : nat; st_out : list Z; st_data : list Z }.
Definition out_at (out : list Z) (i : nat) : outcome Z := get_at out i.

Definition _prepare_elf_stack (cfg : enclave_config) (shm : shared_memory) (sw_debug_mode : bool) (rd0 rd1 : Z) : outcome elf64_stack :=
  imported ← import_env cfg shm;
  let imported := Some <$> imported in
  a ← string_bytes (args cfg);
  e ← string_bytes (env cfg);
  i ← string_bytes imported;
  let num_ptrs := (length (args cfg) + 1 + (length (env cfg) + 1) + (length imported + 1) + 2 * AUXV_ENTRIES)%nat in
  let num_bytes := (a + e + i + (length at_platform + 1) + 16)%nat in
  s ← add_strings (args cfg) (mk_elf (replicate num_bytes 0) 0 (replicate num_ptrs 0) 0);
  let argc := es_j s in
  s ← add_null s;
  let envp := es_j s in
  s ← add_strings (env cfg) s;
  s ← add_strings imported s;
  s ← add_null s;
  let auxv := es_j s in
  pn ← out_at (es_out s) 0;
  s ← init_auxv sw_debug_mode rd0 rd1 pn s;
  let j := (auxv + 2 * AUXV_ENTRIES)%nat in
  last ← out_at (es_out s) j;
  mode ← out_at (es_out s) (j - 4);
  if bool_decide (j + 1 = num_ptrs)%nat && (last =? 0) && (mode =? AT_HW_MODE) then
    Done (mk_stack argc 0 envp auxv (es_out s) (es_data s))
  else Failed Assertion.

(** ** The disks *)

(** The index of the first device with the name of a mount; the name of every
    device before it is followed. *)
Fixpoint find_disk (destination : text) (names : list (option text)) (j : Z) : outcome Z :=
  match names with
  | [] => Failed Stopped
  | None :: _ => Failed (BadPointer 0)
  | Some name :: names' => if bool_decide (destination = name) then Done j else find_disk destination names' (j + 1)
  end.
Fixpoint find_disks (mounts : list mount_config) (names : list (option text)) : outcome (list Z) :=
  match mounts with
  | [] => Done []
  | m :: mounts' =>
      if bool_decide (mnt_destination m = bytes "/") then Failed Stopped
      else j ← find_disk (mnt_destination m) names 0; l ← find_disks mounts' names; Done (j :: l)
  end.
(** [host_disk_index] of every disk, the root disk first. *)
Definition disk_indices (cfg : enclave_config) (shm : shared_memory) : outcome (list Z) :=
  l ← find_disks (mounts cfg) (take (Z.to_nat (num_virtio_blk_dev shm)) (virtio_blk_dev_names shm)); Done (0 :: l).

(** The device that [lkl_add_disks] sets up as the n-th disk. *)
Definition nth_device (shm : shared_memory) (indices : list Z) (n : nat) : outcome Z :=
  i ← get_at indices n; get_at (virtio_blk_dev_mem shm) (Z.to_nat i).

Definition find_and_mount_disks (lkl_mount_disks : root_config -> list mount_config -> option text -> DM unit)
    (cfg : enclave_config) (shm : shared_memory) : DM (list Z) := fun s =>
  match disk_indices cfg shm with
  | Failed f => Failed f
  | Done indices =>
      '(_, s') ← lkl_mount_disks (root cfg) (mounts cfg) (cwd cfg)
        (mk_dstate (history s) (disk_host s) (replicate (length (mounts cfg) + 1) false));
      Done (indices, s')
  end.

(** ** Sizes (__libc_init_enclave) *)

(** The heap of Open Enclave is at the start of the heap, the one of SGX-LKL
    behind it: its base and the number of its pages. *)
Definition split_heap (cfg : enclave_config) (heap_base heap_size : Z) : outcome (Z * Z) :=
  let oe_allotted_heapsize := u64 (oe_heap_pagecount cfg * PAGE_SIZE) in
  if heap_size <=? oe_allotted_heapsize then Failed Stopped
  else Done (u64 (heap_base + oe_allotted_heapsize), (heap_size - oe_allotted_heapsize) / PAGE_SIZE).

(** The resolution of a clock: two numbers of eight hexadecimal digits. *)
Definition clock_time (resolution : text) : outcome (Z * Z) :=
  sec ← hex_to_int (resolution ++ [0]) 0 8; nsec ← hex_to_int (resolution ++ [0]) 8 8; Done (s64 sec, s64 nsec).
Fixpoint clock_times (n : nat) (l : list text) : outcome (list (Z * Z)) :=
  match n with
  | O => Done []
  | S n' =>
      match l with
      | [] => Failed (BadPointer 0)
      | r :: l' => t ← clock_time r; ts ← clock_times n' l'; Done (t :: ts)
      end
  end.

(** The run queue of the scheduler. *)
Definition next_power_of_2 (n : Z) : outcome Z := next_pow2 64 n.
Definition scheduler_queue (cfg : enclave_config) (memory : Z -> cell_t) : outcome mpmcq :=
  bytes ← next_power_of_2 (u64 (max_user_threads cfg * sizeof_cell_t));
  match newmpmcq bytes memory with Some q => Done q | None => Failed Assertion end.
End Start.
