(* ===== verification/EnclaveStartProps.v ===== *)
(** * EnclaveStartProps: what the first process of the enclave gets

    The stack with its arguments, environment and auxiliary vector; the variables
    that are imported from the host, which decides how many there are; the
    devices of the disks. *)

From Stdlib Require Import String.
From stdpp Require Import gmap.
From S2P Require Import Prelude JsonText JsonFollow Env EnclaveConfig EnclaveMem MpmcQueue VicCrypto Luks2 DeviceMapper Disks EnclaveStart.

(** ** Variables of the host *)

(** The characters of a text before its terminator. *)
Definition c_text (s : text) : Prop := Forall (fun c => 0 < c < 256) s.

Lemma s8_inj a b : 0 <= a < 256 -> 0 <= b < 256 -> s8 a = s8 b -> a = b.
Proof. unfold s8, swrap, wrap. intros. revert H1. cbn. repeat case_match; Z.div_mod_to_equations; lia. Qed.

Lemma strncmp_end a x n : s8 a <> 0 -> _strncmp (a :: x) [] (S n) <> 0.
Proof.
  intros H. change (_strncmp (a :: x) [] (S n)) with
    (if negb (s8 a =? 0) && false && truthy (Z.of_nat n) && (s8 a =? 0) then _strncmp x [] n
     else if s8 a =? 0 then 0 else if s8 a <? 0 then -1 else 1).
  rewrite andb_false_r. cbn [andb]. rewrite (proj2 (Z.eqb_neq _ _) H). by destruct (s8 a <? 0).
Qed.
Lemma strncmp_cons a x b y n : s8 a <> 0 -> s8 b <> 0 ->
  _strncmp (a :: x) (b :: y) (S n) =
    if truthy (Z.of_nat n) && (s8 a =? s8 b) then _strncmp x y n else if s8 a =? s8 b then 0 else if s8 a <? s8 b then -1 else 1.
Proof.
  intros Ha Hb. change (_strncmp (a :: x) (b :: y) (S n)) with
    (if negb (s8 a =? 0) && negb (s8 b =? 0) && truthy (Z.of_nat n) && (s8 a =? s8 b) then _strncmp x y n
     else if s8 a =? s8 b then 0 else if s8 a <? s8 b then -1 else 1).
  by rewrite (proj2 (Z.eqb_neq _ _) Ha), (proj2 (Z.eqb_neq _ _) Hb).
Qed.

Lemma strncmp_prefix x : forall y, c_text x -> c_text y -> _strncmp x y (length x) = 0 <-> x `prefix_of` y.
Proof.
  induction x as [|a x IH]; intros y Hx Hy; [split; [intros _; apply prefix_nil|done]|].
  apply Forall_cons in Hx as [Ha Hx].
  assert (s8 a <> 0) as Hn by (intros E; apply (s8_inj a 0) in E; lia). cbn [length]. destruct y as [|b y].
  - split; [intros E; by apply strncmp_end in E|]. intros H. by apply prefix_nil_inv in H.
  - apply Forall_cons in Hy as [Hb Hy].
    assert (s8 b <> 0) as Hn' by (intros E; apply (s8_inj b 0) in E; lia). rewrite strncmp_cons by done.
    destruct (Z.eqb_spec (s8 a) (s8 b)) as [E|E].
    + apply s8_inj in E; [|lia..]. subst b. rewrite andb_true_r. destruct x as [|c x].
      * split; [|done]. intros _. by exists y.
      * change (truthy (Z.of_nat (length (c :: x)))) with true. cbv iota. rewrite IH by done.
        split; [by intros; apply prefix_cons|]. intros H. by apply prefix_cons_inv_2 in H.
    + rewrite andb_false_r. split; [destruct (s8 a <? s8 b); done|]. intros H. apply prefix_cons_inv_1 in H. congruence.
Qed.

(** An entry of the environment that sets the variable. *)
Definition sets (name entry : text) : Prop := (name ++ [61]) `prefix_of` entry.
#[global] Instance sets_dec name entry : Decision (sets name entry).
Proof. unfold sets. apply _. Defined.

Lemma sets_spec name p : c_text name -> c_text p ->
  (_strncmp name p (length name) = 0 -> exists c, char_at p (length name) = Done c /\ (c = 61 <-> sets name p)) /\
  (_strncmp name p (length name) <> 0 -> ~ sets name p).
Proof.
  intros Hn Hp. rewrite strncmp_prefix by done. split.
  - intros [q ->]. unfold char_at, get_at, sets. rewrite <- app_assoc, lookup_app_r, Nat.sub_diag by lia.
    destruct q as [|c q]; cbn [lookup list_lookup app]; eexists; (split; [done|]).
    + split; [done|]. intros H. apply prefix_length in H. rewrite !length_app in H. simpl in H. lia.
    + split; [intros ->; apply prefix_app, prefix_cons, prefix_nil|]. intros H. apply prefix_app_inv, prefix_cons_inv_1 in H. done.
  - intros H1 H2. apply H1. etrans; [|exact H2]. by exists [61].
Qed.

(** The entries that an array of [room] places can take. *)
Definition fitting (room : nat) (l : list text) : outcome (list text) :=
  if bool_decide (length l <= room)%nat then Done l else Failed (BadPointer (Z.of_nat room)).
Lemma fitting_app room l1 l2 : (room < length l1)%nat -> fitting room (l1 ++ l2) = Failed (BadPointer (Z.of_nat room)).
Proof. intros. unfold fitting. rewrite bool_decide_false; [done|]. rewrite length_app. lia. Qed.

Lemma import_name_spec room name env rest : c_text name -> Forall c_text env -> forall imported, (length imported <= room)%nat ->
  import_name room name ((Some <$> env) ++ None :: rest) imported = fitting room (imported ++ filter (sets name) env).
Proof.
  intros Hn. induction 1 as [|p env Hp _ IH]; intros imported Hr.
  - cbn [fmap list_fmap app import_name]. rewrite filter_nil, app_nil_r. unfold fitting. by rewrite bool_decide_true.
  - cbn [fmap list_fmap app import_name]. destruct (sets_spec name p Hn Hp) as [H1 H2].
    destruct (Z.eqb_spec (_strncmp name p (length name)) 0) as [E|E].
    + destruct (H1 E) as (c & -> & Hc). cbn [mbind outcome_bind]. destruct (Z.eqb_spec c 61) as [E'|E'].
      * rewrite filter_cons_True by tauto. case_bool_decide as Hl.
        -- rewrite IH by (rewrite length_app; simpl; lia). by rewrite <- app_assoc.
        -- change (imported ++ p :: filter (sets name) env) with (imported ++ [p] ++ filter (sets name) env).
           rewrite app_assoc. symmetry. apply fitting_app. rewrite length_app. simpl. lia.
      * rewrite filter_cons_False by tauto. by apply IH.
    + rewrite filter_cons_False by auto. by apply IH.
Qed.

(** The variables, in the order of their names, every entry that sets them. *)
Definition picked (names env : list text) : list text := names ≫= (fun name => filter (sets name) env).

Lemma import_names_spec room names env rest : Forall c_text names -> Forall c_text env ->
  forall imported, (length imported <= room)%nat ->
  import_names room (Some <$> names) ((Some <$> env) ++ None :: rest) imported = fitting room (imported ++ picked names env).
Proof.
  intros Hn He. induction Hn as [|name names Hn _ IH]; intros imported Hr.
  - cbn [fmap list_fmap import_names picked mbind list_bind]. rewrite app_nil_r. unfold fitting. by rewrite bool_decide_true.
  - cbn [fmap list_fmap import_names]. rewrite import_name_spec by done.
    change (picked (name :: names) env) with (filter (sets name) env ++ picked names env). rewrite app_assoc.
    destruct (decide (length (imported ++ filter (sets name) env) <= room)%nat) as [H|H].
    + unfold fitting at 1. rewrite bool_decide_true by done. cbn [mbind outcome_bind]. by apply IH.
    + unfold fitting at 1. rewrite bool_decide_false by done. cbn [mbind outcome_bind]. symmetry. apply fitting_app. lia.
Qed.

Lemma count_env_spec env rest : count_env ((Some <$> env) ++ None :: rest) = Done (S (length env)).
Proof. induction env as [|p env IH]; [done|]. cbn [fmap list_fmap app count_env] in *. by rewrite IH. Qed.

Lemma copied_env env rest : take (S (length env)) ((Some <$> env) ++ None :: rest) ++ [None] = (Some <$> env) ++ None :: [@None text].
Proof.
  rewrite take_app, length_fmap, firstn_all2 by (rewrite length_fmap; lia).
  replace (S (length env) - length env)%nat with 1%nat by lia. by rewrite <- app_assoc.
Qed.

Lemma copy_devices_spec n host names : forall i,
  (i + n <= length (virtio_blk_dev_mem host))%nat -> (i + n <= length names)%nat -> virtio_blk_dev_names host = Some <$> names ->
  copy_devices n i host = Done (take n (drop i (virtio_blk_dev_mem host)), Some <$> take n (drop i names)).
Proof.
  induction n as [|n IH]; intros i Hm Hn Hh; [done|]. cbn [copy_devices]. unfold get_at.
  destruct (lookup_lt_is_Some_2 (virtio_blk_dev_mem host) i ltac:(lia)) as [m Em].
  destruct (lookup_lt_is_Some_2 names i ltac:(lia)) as [s Es].
  rewrite Em. cbn [mbind outcome_bind]. rewrite Hh, list_lookup_fmap, Es. cbn [fmap option_fmap option_map mbind outcome_bind].
  rewrite IH by (done || lia). by rewrite (drop_S _ m i Em), (drop_S _ s i Es).
Qed.

(** ** The stack *)

Definition data_of (l : list text) : list Z := l ≫= (fun s => s ++ [0]).
Lemma data_of_app l1 l2 : data_of (l1 ++ l2) = data_of l1 ++ data_of l2.
Proof. apply bind_app. Qed.

Lemma write_at_app {A} (pre old new post : list A) :
  length old = length new -> write_at (pre ++ old ++ post) (length pre) new = Done (pre ++ new ++ post).
Proof.
  intros H. unfold write_at. rewrite bool_decide_true by (rewrite !length_app; lia). f_equal.
  rewrite take_app_length, <- H. by rewrite (app_assoc pre old post), <- length_app, drop_app_length.
Qed.
(** Writing into the part that is still zero. *)
Lemma write_zeros (pre new : list Z) n k p :
  p = length pre -> n = (length new + k)%nat -> write_at (pre ++ replicate n 0) p new = Done (pre ++ new ++ replicate k 0).
Proof. intros -> ->. rewrite replicate_add. apply write_at_app, length_replicate. Qed.

Section Stack.
Context `{Gen : GeneratedConfig}.
Variables AT_HW_MODE data_base : Z.
#[local] Abbreviation add_strings := (EnclaveStart.add_strings data_base).
#[local] Abbreviation add_null := EnclaveStart.add_null.

(** The addresses of strings from an index of the bytes on. *)
Fixpoint ptrs (p : nat) (l : list text) : list Z :=
  match l with [] => [] | s :: l' => data_base + Z.of_nat p :: ptrs (p + (length s + 1)) l' end.
Lemma ptrs_length l : forall p, length (ptrs p l) = length l.
Proof. induction l as [|s l IH]; intros p; [done|]. cbn [ptrs length]. by rewrite IH. Qed.

Lemma ptrs_app l1 l2 : forall p, ptrs p (l1 ++ l2) = ptrs p l1 ++ ptrs (p + length (data_of l1)) l2.
Proof.
  induction l1 as [|s l1 IH]; intros p; [by rewrite Nat.add_0_r|]. cbn [ptrs app]. rewrite IH.
  change (data_of (s :: l1)) with ((s ++ [0]) ++ data_of l1). rewrite !length_app. simpl. do 3 f_equal; lia.
Qed.

(** The strings and pointers written so far, and the zeros behind them. *)
Definition built (strs : list Z) (m : nat) (outs : list Z) (k : nat) : elf_stack :=
  mk_elf (strs ++ replicate m 0) (length strs) (outs ++ replicate k 0) (length outs).

Lemma add_string_built s strs m outs k n :
  n = (length s + 1 + m)%nat ->
  ADD_STRING data_base (Some s) (built strs n outs (S k)) =
    Done (built (strs ++ s ++ [0]) m (outs ++ [data_base + Z.of_nat (length strs)]) k).
Proof.
  intros ->. unfold ADD_STRING, built. cbn [es_data es_buf es_out es_j].
  rewrite (write_zeros strs (s ++ [0]) _ m) by (done || (rewrite length_app; simpl; lia)). cbn [mbind outcome_bind].
  rewrite (write_zeros outs [_] _ k) by done. cbn [mbind outcome_bind]. rewrite <- !app_assoc, !length_app. simpl.
  do 2 f_equal; lia.
Qed.
Lemma add_strings_built l : forall strs m outs k n o,
  n = (length (data_of l) + m)%nat -> o = (length l + k)%nat ->
  add_strings (Some <$> l) (built strs n outs o) = Done (built (strs ++ data_of l) m (outs ++ ptrs (length strs) l) k).
Proof.
  induction l as [|s l IH]; intros strs m outs k n o -> ->; [by cbn; rewrite !app_nil_r|].
  cbn [fmap list_fmap EnclaveStart.add_strings length Nat.add].
  change (data_of (s :: l)) with ((s ++ [0]) ++ data_of l).
  rewrite (add_string_built s strs (length (data_of l) + m)) by (rewrite !length_app; simpl; lia). cbn [mbind outcome_bind].
  rewrite (IH _ m _ k) by lia. do 2 f_equal; rewrite <- !app_assoc; [done|]. cbn [ptrs app]. by rewrite !length_app.
Qed.
Lemma add_null_built strs m outs k : add_null (built strs m outs (S k)) = Done (built strs m (outs ++ [0]) k).
Proof.
  unfold EnclaveStart.add_null, built. cbn [es_data es_buf es_out es_j].
  rewrite (write_zeros outs [0] _ k) by done. cbn [mbind outcome_bind]. rewrite <- !app_assoc, !length_app. simpl.
  do 2 f_equal; lia.
Qed.
Lemma string_bytes_spec l : string_bytes (Some <$> l) = Done (length (data_of l)).
Proof.
  induction l as [|s l IH]; [done|]. cbn [fmap list_fmap string_bytes]. rewrite IH. cbn [mbind outcome_bind]. f_equal.
  change (data_of (s :: l)) with ((s ++ [0]) ++ data_of l). rewrite !length_app. simpl. lia.
Qed.

Definition random_bytes (rd0 rd1 : Z) : list Z := le_bytes 8 rd0 ++ le_bytes 8 rd1.
Lemma init_auxv_built sw rd0 rd1 pn strs outs k :
  exists s, init_auxv AT_HW_MODE data_base sw rd0 rd1 pn (built strs 23 outs (26 + k)) = Done s /\
    es_data s = strs ++ random_bytes rd0 rd1 ++ at_platform ++ [0] /\
    es_out s = outs ++ auxv_entries AT_HW_MODE pn (data_base + Z.of_nat (length strs + 16)) (data_base + Z.of_nat (length strs))
                 (if sw then 0 else 1) ++ replicate k 0.
Proof.
  assert (length (random_bytes rd0 rd1) = 16%nat) as Hr by (unfold random_bytes; by rewrite length_app, !le_bytes_length).
  unfold init_auxv, built. cbn [es_data es_buf es_out es_j]. fold (random_bytes rd0 rd1).
  rewrite (write_zeros strs (random_bytes rd0 rd1) 23 7) by (done || (rewrite Hr; done)). cbn [mbind outcome_bind].
  rewrite (write_zeros outs (replicate 26 0) (26 + k) k) by (done || (by rewrite length_replicate)). cbn [mbind outcome_bind].
  rewrite (app_assoc strs), (write_zeros (strs ++ random_bytes rd0 rd1) (at_platform ++ [0]) 7 0) by
    (done || (rewrite length_app, Hr; done)). cbn [mbind outcome_bind].
  rewrite write_at_app by (by rewrite length_replicate). cbn [mbind outcome_bind].
  eexists. split; [done|]. cbn [es_data es_out]. split; [|done]. by rewrite app_nil_r, <- app_assoc.
Qed.

(** The contents of the two arrays. *)
Definition stack_data (a e : list text) (rd0 rd1 : Z) : list Z := data_of a ++ data_of e ++ random_bytes rd0 rd1 ++ at_platform ++ [0].
Definition name_address (a : list text) : Z := match a with [] => 0 | _ => data_base + 0 end.
Definition stack_auxv (a e : list text) (sw : bool) : list Z :=
  let n := length (data_of a ++ data_of e) in
  auxv_entries AT_HW_MODE (name_address a) (data_base + Z.of_nat (n + 16)) (data_base + Z.of_nat n) (if sw then 0 else 1).
Definition stack_out (a e : list text) (sw : bool) : list Z :=
  ptrs 0 a ++ [0] ++ ptrs (length (data_of a)) e ++ [0] ++ stack_auxv a e sw ++ [0].

Lemma first_argument a e rest : get_at ((ptrs 0 a ++ [0]) ++ ptrs (length (data_of a)) e ++ rest) 0 = Done (name_address a).
Proof. by destruct a. Qed.

Lemma prepare_elf_stack_spec cfg shm sw rd0 rd1 a e i :
  args cfg = Some <$> a -> env cfg = Some <$> e -> import_env cfg shm = Done i ->
  _prepare_elf_stack AT_HW_MODE data_base cfg shm sw rd0 rd1 =
    Done (mk_stack (length a) 0 (length a + 1) (length a + 1 + length (e ++ i) + 1) (stack_out a (e ++ i) sw) (stack_data a (e ++ i) rd0 rd1)).
Proof.
  intros Ha He Hi. unfold _prepare_elf_stack. rewrite Ha, He, Hi. cbn [mbind outcome_bind]. rewrite !string_bytes_spec.
  cbn [mbind outcome_bind]. rewrite !length_fmap.
  match goal with |- context [mk_elf (replicate ?x 0) 0 (replicate ?y 0) 0] =>
    change (mk_elf (replicate x 0) 0 (replicate y 0) 0) with (built [] x [] y) end.
  rewrite (add_strings_built a [] (length (data_of e) + (length (data_of i) + 23)) [] (S (length e + (length i + S (26 + 1))))) by
    (change (length at_platform) with 6%nat; unfold AUXV_ENTRIES; lia).
  cbn [mbind outcome_bind]. rewrite add_null_built. cbn [mbind outcome_bind].
  rewrite (add_strings_built e _ (length (data_of i) + 23) _ (length i + S (26 + 1))) by done. cbn [mbind outcome_bind].
  rewrite (add_strings_built i _ 23 _ (S (26 + 1))) by done. cbn [mbind outcome_bind].
  rewrite add_null_built. cbn [mbind outcome_bind app]. 
  set (strs := (data_of a ++ data_of e) ++ data_of i). 
  match goal with |- context [built _ 23 ?o _] => set (outs := o) end.
  assert (outs = ptrs 0 a ++ [0] ++ ptrs (length (data_of a)) (e ++ i) ++ [0]) as Ho.
  { unfold outs. rewrite ptrs_app, length_app. by rewrite <- !app_assoc. }
  assert (length outs = length a + 1 + length (e ++ i) + 1)%nat as Hl.
  { rewrite Ho, !length_app, !ptrs_length, length_app. simpl. lia. }
  unfold out_at. assert (get_at (es_out (built strs 23 outs (26 + 1))) 0 = Done (name_address a)) as ->.
  { cbn [es_out built]. rewrite Ho. rewrite <- !app_assoc. by destruct a. }
  cbn [mbind outcome_bind]. destruct (init_auxv_built sw rd0 rd1 (name_address a) strs outs 1) as (s & -> & Hd & Hs).
  cbn [mbind outcome_bind]. change (es_j (built strs 23 outs (26 + 1))) with (length outs). unfold AUXV_ENTRIES.
  assert (strs = data_of a ++ data_of (e ++ i)) as Est by (unfold strs; by rewrite data_of_app, app_assoc).
  rewrite Hs. unfold get_at. rewrite (lookup_app_r outs), (lookup_app_r outs) by lia.
  replace (length outs + 2 * 13 - length outs)%nat with 26%nat by lia.
  replace (length outs + 2 * 13 - 4 - length outs)%nat with 22%nat by lia.
  cbn [auxv_entries app lookup list_lookup replicate mbind outcome_bind]. rewrite !Z.eqb_refl.
  rewrite bool_decide_true by (rewrite Hl, length_app; lia). cbn [andb].
  unfold built, stack_out, stack_data, stack_auxv. cbn [es_j]. rewrite Hd, Ho, Est, data_of_app, <- !app_assoc, !length_app, !ptrs_length, !length_app.
  do 2 f_equal; cbn [length]; lia.
Qed.

(** What a program reads: the string at an address, the strings of an array of
    addresses that ends with a null, the value of an auxiliary entry. *)
Definition string_at (st : elf64_stack) (p : Z) : text := until_nul (drop (Z.to_nat (p - data_base)) (st_data st)).
Fixpoint strings_at (st : elf64_stack) (l : list Z) : list text :=
  match l with [] => [] | p :: l' => if p =? 0 then [] else string_at st p :: strings_at st l' end.
Definition argv_strings (st : elf64_stack) : list text := strings_at st (drop (st_argv st) (st_out st)).
Definition envp_strings (st : elf64_stack) : list text := strings_at st (drop (st_envp st) (st_out st)).
Fixpoint aux_entry (type : Z) (l : list Z) : option Z :=
  match l with t :: v :: l' => if t =? type then Some v else if t =? AT_NULL then None else aux_entry type l' | _ => None end.
Definition getauxval (st : elf64_stack) (type : Z) : option Z := aux_entry type (drop (st_auxv st) (st_out st)).

Lemma until_nul_text s rest : c_text s -> until_nul (s ++ 0 :: rest) = s.
Proof.
  induction 1 as [|c s Hc _ IH]; [done|]. cbn [app until_nul]. rewrite (proj2 (Z.eqb_neq _ _)) by lia. by rewrite IH.
Qed.
Lemma strings_at_ptrs st l : forall pre post rest, 0 < data_base -> Forall c_text l ->
  st_data st = pre ++ data_of l ++ post -> strings_at st (ptrs (length pre) l ++ 0 :: rest) = l.
Proof.
  induction l as [|s l IH]; intros pre post rest Hb Hl Hd; [done|]. apply Forall_cons in Hl as [Hs Hl].
  cbn [ptrs app strings_at]. rewrite (proj2 (Z.eqb_neq _ _)) by lia.
  change (data_of (s :: l)) with ((s ++ [0]) ++ data_of l) in Hd. f_equal.
  - unfold string_at. replace (Z.to_nat _) with (length pre) by lia. rewrite Hd, drop_app_length, <- !app_assoc.
    by apply until_nul_text.
  - specialize (IH (pre ++ s ++ [0]) post rest Hb Hl). rewrite !length_app in IH. apply IH. by rewrite Hd, <- !app_assoc.
Qed.

(** The stack of a process with arguments [a] and environment [e]. *)
Record prepared (a e : list text) (sw : bool) (rd0 rd1 : Z) (st : elf64_stack) : Prop := {
  p_argc : st_argc st = length a;
  p_argv : argv_strings st = a;
  p_envp : envp_strings st = e;
  p_name : exists p, getauxval st AT_EXECFN = Some p /\ match a with [] => p = 0 | s :: _ => string_at st p = s end;
  p_platform : exists p, getauxval st AT_PLATFORM = Some p /\ string_at st p = at_platform;
  p_random : exists p, getauxval st AT_RANDOM = Some p /\
    take 16 (drop (Z.to_nat (p - data_base)) (st_data st)) = random_bytes rd0 rd1;
  p_mode : getauxval st AT_HW_MODE = Some (if sw then 0 else 1) }.

Definition standard_types : list Z :=
  [AT_NULL; AT_CLKTCK; AT_EXECFN; AT_HWCAP; AT_EGID; AT_EUID; AT_GID; AT_PAGESZ; AT_PLATFORM; AT_SECURE; AT_UID; AT_RANDOM].

Lemma aux_mode pn p r m rest : AT_HW_MODE ∉ standard_types ->
  aux_entry AT_HW_MODE (auxv_entries AT_HW_MODE pn p r m ++ rest) = Some m.
Proof.
  intros H. unfold standard_types in H. rewrite !not_elem_of_cons in H. destruct H as (?&?&?&?&?&?&?&?&?&?&?&?&_).
  cbn [auxv_entries app aux_entry]. repeat rewrite (proj2 (Z.eqb_neq _ AT_HW_MODE)) by congruence. cbn [Z.eqb AT_NULL AT_CLKTCK].
  by rewrite Z.eqb_refl.
Qed.

Lemma stack_is_prepared a e sw rd0 rd1 : 0 < data_base -> AT_HW_MODE ∉ standard_types -> Forall c_text a -> Forall c_text e ->
  prepared a e sw rd0 rd1
    (mk_stack (length a) 0 (length a + 1) (length a + 1 + length e + 1) (stack_out a e sw) (stack_data a e rd0 rd1)).
Proof.
  intros Hb Hm Ha He. set (st := mk_stack _ _ _ _ _ _). set (n := length (data_of a ++ data_of e)).
  assert (argv_strings st = a) as Hargv.
  { unfold argv_strings. cbn [st st_argv st_out]. unfold stack_out. rewrite drop_0.
    by apply (strings_at_ptrs st a [] (data_of e ++ random_bytes rd0 rd1 ++ at_platform ++ [0])). }
  assert (drop (st_auxv st) (st_out st) = stack_auxv a e sw ++ [0]) as Hx.
  { cbn [st st_auxv st_out]. unfold stack_out. rewrite !app_assoc, <- (app_assoc _ (stack_auxv _ _ _)). apply drop_app_length'.
    rewrite !length_app, !ptrs_length. simpl. lia. }
  assert (st_data st = (data_of a ++ data_of e) ++ random_bytes rd0 rd1 ++ at_platform ++ 0 :: []) as Hd by apply app_assoc.
  assert (length (random_bytes rd0 rd1) = 16%nat) as Hr by (unfold random_bytes; by rewrite length_app, !le_bytes_length).
  split; unfold getauxval; rewrite ?Hx; try done.
  - unfold envp_strings. cbn [st st_envp st_out]. unfold stack_out. rewrite app_assoc, drop_app_length' by (rewrite length_app, ptrs_length; done).
    apply (strings_at_ptrs st e (data_of a) (random_bytes rd0 rd1 ++ at_platform ++ [0])); done.
  - exists (name_address a). split; [done|]. destruct a as [|s a]; [done|]. cbn [name_address].
    unfold string_at. replace (Z.to_nat _) with 0%nat by lia. rewrite Hd. apply Forall_cons in Ha as [Hs _].
    change (data_of (s :: a)) with ((s ++ [0]) ++ data_of a). rewrite drop_0, <- !app_assoc. by apply until_nul_text.
  - eexists. split; [done|]. unfold string_at. replace (Z.to_nat _) with (n + 16)%nat by lia. rewrite Hd.
    rewrite app_assoc, drop_app_length' by (rewrite length_app; lia). apply until_nul_text. repeat constructor; lia.
  - eexists. split; [done|]. replace (Z.to_nat _) with n by lia. rewrite Hd, drop_app_length' by done. by rewrite take_app_length'.
  - by apply aux_mode.
Qed.

(** C11. Starting the first process: its stack has the arguments and the
    environment of the configuration, then every entry of the host's environment
    that sets an imported variable and no other, with the program's name, the
    platform, the random bytes and the mode in the auxiliary vector, without an
    access outside the arrays.  The host, which decides how many entries set a
    variable, must not have more of them than there are imported names: with more,
    the start-up writes behind the array of imported entries. *)
Theorem process_stack cfg host shm sw rd0 rd1 a e names henv rest :
  0 < data_base -> AT_HW_MODE ∉ standard_types -> Forall c_text a -> Forall c_text e -> Forall c_text names -> Forall c_text henv ->
  args cfg = Some <$> a -> env cfg = Some <$> e -> host_import_env cfg = Some <$> names ->
  shm_env host = Some ((Some <$> henv) ++ None :: rest) -> _copy_shared_memory cfg host = Done shm ->
  if decide (length (picked names henv) <= length names)%nat then
    exists st, _prepare_elf_stack AT_HW_MODE data_base cfg shm sw rd0 rd1 = Done st /\
      prepared a (e ++ picked names henv) sw rd0 rd1 st
  else _prepare_elf_stack AT_HW_MODE data_base cfg shm sw rd0 rd1 = Failed (BadPointer (Z.of_nat (length names))).
Proof.
  intros Hb Hm Ha He Hn Hh Hca Hce Hcn Hhe Hc.
  assert (import_env cfg shm = fitting (length names) (picked names henv)) as Hi.
  { unfold _copy_shared_memory in Hc. rewrite Hhe, count_env_spec in Hc.
    destruct (if io_block (io cfg) then _ else _) as [[k [ms ds]]|]; [|done]. cbn [mbind outcome_bind] in Hc. injection Hc as <-.
    unfold import_env. cbn [shm_env]. rewrite copied_env, Hcn, length_fmap.
    apply (import_names_spec (length names) names henv [None] Hn Hh []). simpl. lia. }
  unfold fitting in Hi. case_decide as Hl.
  - rewrite bool_decide_true in Hi by done. eexists. split; [by apply prepare_elf_stack_spec|].
    apply stack_is_prepared; [done..|]. apply Forall_app. split; [done|]. unfold picked. clear -Hh.
    induction names as [|name names IH]; [constructor|]. cbn [mbind list_bind]. apply Forall_app. split; [|exact IH].
    apply Forall_forall. intros x Hx. apply list_elem_of_filter in Hx as [_ Hx]. by eapply Forall_forall in Hh.
  - rewrite bool_decide_false in Hi by done. unfold _prepare_elf_stack. by rewrite Hi.
Qed.
End Stack.

(** Arguments with a quotation mark, and two of three entries of the host. *)
Definition start_config : enclave_config (Gen := schema_config) := set_host_import_env [Some (bytes "LANG"); Some (bytes "TZ")] sample_config.
Definition host_entries : list text := [bytes "TZ=UTC"; bytes "TZNAME=x"; bytes "LANG=C"].
Definition host_memory (entries : list text) : shared_memory :=
  mk_shm 0 4096 1 8192 0 0 12288 2 [16384; 20480] [Some (bytes "/"); Some (bytes "/data")] (Some ((Some <$> entries) ++ [None])).
Definition enclave_memory (entries : list text) : shared_memory :=
  mk_shm 0 4096 1 8192 0 0 12288 2 [16384; 20480] [Some (bytes "/"); Some (bytes "/data")] (Some ((Some <$> entries) ++ [None; None])).

Ltac texts := vm_compute; repeat constructor.

Lemma process_stack_witness :
  exists st, _prepare_elf_stack 1000 65536 start_config (enclave_memory host_entries) true 5 6 = Done st /\
    prepared 1000 65536 [bytes "/app/hello"; [34]] [bytes "A=1"; bytes "LANG=C"; bytes "TZ=UTC"] true 5 6 st.
Proof.
  refine (process_stack 1000 65536 start_config (host_memory host_entries) (enclave_memory host_entries) true 5 6 
    [bytes "/app/hello"; [34]] [bytes "A=1"] [bytes "LANG"; bytes "TZ"] host_entries [] _ _ _ _ _ _ _ _ _ _ _).
  - lia.
  - apply (bool_decide_unpack (1000 ∉ standard_types)). exact I.
  - texts.
  - texts.
  - texts.
  - texts.
  - reflexivity.
  - reflexivity.
  - reflexivity.
  - reflexivity.
  - vm_compute. reflexivity.
Defined.

(** Two entries that set the first variable, and one of the second. *)
Example duplicates_overflow :
  _prepare_elf_stack 1000 65536 start_config (enclave_memory [bytes "LANG=C"; bytes "TZ=UTC"; bytes "LANG=D"]) true 5 6 = Failed (BadPointer 2).
Proof. vm_compute. reflexivity. Qed.

(** ** The disks *)

Lemma find_disk_first d names k : forall j,
  names !! k = Some d -> (forall k', (k' < k)%nat -> names !! k' <> Some d) -> find_disk d (Some <$> names) j = Done (j + Z.of_nat k).
Proof.
  revert k. induction names as [|name names IH]; intros k j Hk Hf; [done|]. cbn [fmap list_fmap find_disk]. case_bool_decide as E.
  - destruct k as [|k]; [f_equal; lia|]. subst name. by destruct (Hf 0%nat ltac:(lia)).
  - destruct k as [|k]; [injection Hk as ->; done|]. rewrite (IH k); [f_equal; lia|done|]. intros k' H. apply (Hf (S k')). lia.
Qed.
Lemma find_disk_missing d names : forall j, d ∉ names -> find_disk d (Some <$> names) j = Failed Stopped.
Proof.
  induction names as [|name names IH]; intros j H; [done|]. apply not_elem_of_cons in H as [H1 H2]. cbn [fmap list_fmap find_disk].
  rewrite bool_decide_false by done. by apply IH.
Qed.

(** Every mount finds the device at the place of its name. *)
Lemma find_disks_in_order mounts before : forall names, names = before ++ (mnt_destination <$> mounts) -> NoDup names ->
  Forall (fun m => mnt_destination m <> bytes "/") mounts ->
  find_disks mounts (Some <$> names) = Done (Z.of_nat <$> List.seq (length before) (length mounts)).
Proof.
  revert before. induction mounts as [|m mounts IH]; intros before names -> Hn Hr; [done|]. apply Forall_cons in Hr as [Hm Hr].
  cbn [find_disks]. rewrite bool_decide_false by done. cbn [fmap list_fmap].
  rewrite (find_disk_first _ _ (length before)).
  - cbn [mbind outcome_bind]. specialize (IH (before ++ [mnt_destination m])). rewrite <- !app_assoc in IH.
    cbn [app] in IH. rewrite (IH _ eq_refl) by done. cbn [mbind outcome_bind length List.seq fmap list_fmap]. rewrite length_app.
    by replace (length before + length [mnt_destination m])%nat with (S (length before)) by (simpl; lia).
  - by rewrite lookup_app_r, Nat.sub_diag by lia.
  - intros k' Hk E. rewrite lookup_app_l in E by done. apply NoDup_app in Hn as (_ & Hn & _).
    apply (Hn (mnt_destination m)); [by eapply list_elem_of_lookup_2|by left].
Qed.

(** ** The run queue *)

(** The queue of the scheduler has room for the configured number of threads,
    and is then used as a bounded first-in first-out buffer. *)
Lemma scheduler_queue_fits `{Gen : GeneratedConfig} (cfg : enclave_config) memory : 2 <= max_user_threads cfg <= 2 ^ 59 ->
  exists q room, scheduler_queue cfg memory = Done q /\ max_user_threads cfg <= room < 2 * max_user_threads cfg /\
    forall ls c, run q ls c -> exists a, arun room ls a.
Proof.
  intros Hn. set (n := max_user_threads cfg) in *. unfold scheduler_queue, next_power_of_2. fold n.
  assert (u64 (n * sizeof_cell_t) = n * 16) as -> by (apply u64_small; cbn; lia).
  destruct (proj1 (next_pow2_spec (n * 16) ltac:(lia)) ltac:(lia)) as (i & Hi & -> & Hle & Hlow). cbn [mbind outcome_bind].
  assert (5 <= i)%nat as Hi5.
  { destruct (decide (5 <= i)%nat) as [|H]; [done|]. assert (2 ^ Z.of_nat i <= 2 ^ 4) by (apply Z.pow_le_mono_r; lia). lia. }
  assert (2 ^ Z.of_nat i = 2 ^ (Z.of_nat i - 4) * 16) as Ei.
  { change 16 with (2 ^ 4). rewrite <- Z.pow_add_r by lia. f_equal. lia. }
  set (room := 2 ^ (Z.of_nat i - 4)) in *. rewrite Ei.
  assert (2 ^ Z.of_nat (i - 1) = room * 8) as El.
  { unfold room. change 8 with (2 ^ 3). rewrite <- Z.pow_add_r by lia. f_equal. lia. }
  pose proof (Hlow (i - 1)%nat ltac:(lia)) as Hl. rewrite El in Hl.
  assert (room * 16 / sizeof_cell_t = room) as Ed by (apply Z.div_mul; done).
  destruct (newmpmcq (room * 16) memory) as [q|] eqn:Eq.
  - exists q, room. split; [done|]. split; [lia|]. intros ls c Hr.
    destruct (run_coupled (room * 16) memory q ls c) as (a & Ha & _); [cbn; lia|done|done|]. exists a. by rewrite Ed in Ha.
  - exfalso. unfold newmpmcq in Eq. rewrite Ed in Eq. rewrite (proj2 (Z.leb_le 2 room)) in Eq by lia.
    rewrite u64_small in Eq by (cbn; lia). unfold room in Eq at 1 2. 
    rewrite Z.sub_1_r, <- Z.ones_equiv, Z.land_ones, Z_mod_same_full in Eq by lia. done.
Qed.
