(* ===== verification/Launcher.v ===== *)
(** * Launcher: the settings of the launcher (src/main-oe/sgxlkl_run_oe.c)

    From the command line, the environment and files to the configurations of the
    enclave and of the host.  Variables of the environment and files are
    parameters; a file that can be read does not change in between.  A text that
    is cut in pieces is followed from piece to piece: what lies behind its
    terminator must not be read. *)

From Stdlib Require Import String.
From S2P Require Import Prelude JsonText JsonNumbers Env EnclaveConfig ConfigReader WireGuardPeers DeviceMapper HostConfig.

(** ** The command line *)

(** struct option: the name, whether it needs an argument, and its letter. *)
Record option_t : Type := mk_option { o_name : text; o_required : bool; o_val : Z }.

(** What [getopt_sgxlkl] does with an argument: no option, or the value of the
    option with its argument, and the number of arguments that were taken. *)
Inductive getopt_result : Type :=
| NoOption
| Option_ (val : Z) (optarg : option text) (taken : nat).

(** "?": the argument is missing; one argument is taken. *)
Definition QUESTION : Z := 63.
Fixpoint getopt_option (arg : text) (next : option text) (opts : list option_t) : getopt_result :=
  match opts with
  | [] => Option_ 0 None 1
  | o :: opts' =>
      let long := default 0 (arg !! 1%nat) =? 45 in
      let matches_long := long && bool_decide (o_name o = take (length (o_name o)) (drop 2 arg)) in
      let matches_short := default 0 (arg !! 1%nat) =? o_val o in
      if negb (matches_long || matches_short) then getopt_option arg next opts'
      else
        let rest := if matches_long then drop (2 + length (o_name o)) arg else drop 2 arg in
        if negb (o_required o) then match rest with [] => Option_ (o_val o) None 1 | _ => NoOption end
        else
          match rest with
          | [] => match next with None => Option_ QUESTION None 1 | Some a => Option_ (o_val o) (Some a) 2 end
          | c :: rest' => if c =? 61 then Option_ (o_val o) (Some rest') 1 else Option_ (o_val o) (Some rest) 1
          end
  end.
(** The arguments from [optind] on. *)
Definition getopt_sgxlkl (argv : list text) (opts : list option_t) : getopt_result :=
  match argv with
  | [] => NoOption
  | arg :: argv' => if default 0 (head arg) =? 45 then getopt_option arg (head argv') opts else NoOption
  end.

Section Settings.
Variable getenv : text -> option text.
Definition sgxlkl_config_overridden (key : text) : bool := bool_decide (getenv key <> None).
Definition sgxlkl_config_bool (key : text) : bool := getenv_bool getenv key false.
Definition sgxlkl_config_uint64 (key : text) : Z := getenv_uint64 getenv key 0 UINT64_MAX.
Definition sgxlkl_config_str (key : text) : option text := getenv key.

(** [find_root_disk_file]: the variable, or the first of the arguments that are
    left, which are then the others.  Whether there is one is not looked at. *)
Definition find_root_disk_file (argv : list text) : option text * list text :=
  if sgxlkl_config_overridden (bytes "SGXLKL_HD") then (sgxlkl_config_str (bytes "SGXLKL_HD"), argv)
  else (head argv, tail argv).

(** ** Lists of disks: path:mount point:readonly,... *)

Fixpoint to_comma (s : text) : text := match s with c :: s' => if c =? 44 then s else to_comma s' | [] => [] end.
Fixpoint skip_separators (s : text) : text :=
  match s with c :: s' => if (c =? 32) || (c =? 44) then skip_separators s' else s | [] => [] end.
Record hd_entry : Type := mk_hd { hd_path : text; hd_mnt : text; hd_ro : bool }.

(** One entry, and the text after it. *)
Definition hds_entry (s : text) : outcome (hd_entry * text) :=
  match strsep 58 s with
  | (_, None) => Failed (BadPointer (Z.of_nat (length s) + 1))
  | (path, Some s1) =>
      match strsep 58 s1 with
      | (_, None) => Failed (BadPointer (Z.of_nat (length s) + 1))
      | (mnt, Some s2) => Done (mk_hd path mnt (default 0 (head s2) =? 49), skip_separators (to_comma s2))
      end
  end.

(** The commas of a text, plus one. *)
Definition count_entries (s : text) : nat := S (length (filter (fun c => c = 44) s)).

(** The mounts of the host, from index [i] on. *)
Fixpoint host_mounts_loop (fuel : nat) (i : Z) (s : text) (l : list host_mount_config) : outcome (list host_mount_config) :=
  match s, fuel with
  | [], _ => Done l
  | _, O => Failed OutOfFuel
  | _, S fuel' =>
      '(e, s') ← hds_entry s;
      l ← at_index i (fun _ => HostMount (Some (hd_path e)) (Some (hd_mnt e)) (hd_ro e)) l;
      host_mounts_loop fuel' (i + 1) s' l
  end.
Definition host_mounts (hds : text) : outcome (list host_mount_config) :=
  host_mounts_loop (length hds) 0 hds (replicate (count_entries hds) zero_host_mount).

(** The mounts of the enclave: the destination is an array of 256 characters. *)
Fixpoint enclave_mounts_loop (fuel : nat) (num i : Z) (s : text) (l : list mount_config) : outcome (list mount_config) :=
  if num <=? i then Done l
  else
    match s, fuel with
    | [], _ => Done l
    | _, O => Failed OutOfFuel
    | _, S fuel' =>
        '(e, s') ← hds_entry s;
        if bool_decide (SGXLKL_DISK_MNT_MAX_PATH_LEN < length (hd_mnt e))%nat then Failed (BadPointer 256)
        else
          l ← at_index i (fun m => set_mnt_readonly (hd_ro e) (set_mnt_destination (hd_mnt e) m)) l;
          enclave_mounts_loop fuel' num (i + 1) s' l
    end.

(** ** Keys and root hashes *)

(** The contents of a file that can be read. *)
Variable file : text -> option (list Z).

Definition MAX_KEY_FILE_SIZE : Z := 8192 * 1024.
Definition MAX_HASH_DIGITS : nat := 512.
Definition MAX_HASHOFFSET_DIGITS : nat := 16.

(** fgets: at most [n - 1] characters, up to and including a newline. *)
Fixpoint first_line (n : nat) (l : list Z) : list Z :=
  match n, l with S n', c :: l' => if c =? 10 then [10] else c :: first_line n' l' | _, _ => [] end.
Definition fgets (n : nat) (l : list Z) : option text := match l with [] => None | _ => Some (first_line (n - 1) l) end.
Definition cut_line (s : text) : text := fst (strsep 10 (until_nul s)).

(** strtoll: the number, and whether it was out of range. *)
Definition c_strtoll (s : text) : Z * bool :=
  let l1 := drop_spaces s in
  let '(neg, l2) := match l1 with
                    | c :: l' => if c =? 45 then (true, l') else if c =? 43 then (false, l') else (false, l1)
                    | [] => (false, l1)
                    end in
  let '(x, _) := take_digits 10 l2 0 0 in
  if (neg : bool) then (Z.max (- x) (- 2 ^ 63), x >? 2 ^ 63) else (Z.min x (2 ^ 63 - 1), x >? 2 ^ 63 - 1).

Definition read_root_hash (roothash_or_file : text) : outcome text :=
  match file roothash_or_file with
  | None => Done roothash_or_file
  | Some contents =>
      match fgets (MAX_HASH_DIGITS + 2) contents with
      | None => Failed Stopped
      | Some s => let hash := cut_line s in
                  if bool_decide (MAX_HASH_DIGITS < length hash)%nat then Failed Stopped else Done hash
      end
  end.
Definition read_hash_offset (disk_path : option text) (offset_or_file : option text) : outcome Z :=
  path ← match offset_or_file, disk_path with
         | Some p, _ => Done p
         | None, Some d => Done (d ++ bytes ".hashoffset")
         | None, None => Failed (BadPointer 0)
         end;
  s ← match file path with
      | Some contents => match fgets MAX_HASHOFFSET_DIGITS contents with None => Failed Stopped | Some s => Done (until_nul s) end
      | None => match offset_or_file with Some s => Done s | None => Failed Stopped end
      end;
  let '(x, range) := c_strtoll s in
  if (range : bool) then Failed Stopped else Done (u64 x).
Definition prepare_verity (root : root_config) (disk_path roothash_or_file offset_or_file : option text) : outcome root_config :=
  match roothash_or_file with
  | None => Done (Root (root_key root) (root_key_id root) None 0 (root_readonly root) (root_overlay root))
  | Some h =>
      hash ← read_root_hash h;
      offset ← read_hash_offset disk_path offset_or_file;
      Done (Root (root_key root) (root_key_id root) (Some hash) offset (root_readonly root) (root_overlay root))
  end.

Definition read_key (keyfile_or_passphrase : text) : outcome (list Z) :=
  match file keyfile_or_passphrase with
  | Some contents =>
      let key := take (Z.to_nat MAX_KEY_FILE_SIZE) contents in
      if bool_decide (key = []) then Failed Stopped else Done key
  | None => Done keyfile_or_passphrase
  end.

Context `{Gen : GeneratedConfig}.

Definition override_enclave_disk_config (mode : sgxlkl_enclave_mode_t) (root : root_config)
    (image_path keyfile_or_passphrase roothash_or_file offset_or_file : option text) : outcome root_config :=
  if bool_decide (sgxlkl_enclave_mode_t_to_string mode = bytes "hw_release") then Done root
  else
    root ← match keyfile_or_passphrase with
           | None => Done root
           | Some k => key ← read_key k;
                       Done (Root (Some key) (root_key_id root) (root_roothash root) (root_roothash_offset root)
                               (root_readonly root) (root_overlay root))
           end;
    prepare_verity root image_path roothash_or_file offset_or_file.

(** [allocated]: the array of mounts is there although it is empty. *)
Definition override_disk_config (allocated : bool) (root_disk_path : option text) (c : enclave_config) : outcome enclave_config :=
  let hds := sgxlkl_config_str (bytes "SGXLKL_HDS") in
  let num := match hds, mounts c with
             | Some ((_ :: _) as s), [] => count_entries s
             | _, l => length l
             end in
  let l := match mounts c with [] => if allocated then [] else replicate num zero_mount | l => l end in
  let r := root c in
  let r := Root (root_key r) (root_key_id r) (root_roothash r) (root_roothash_offset r)
             (sgxlkl_config_bool (bytes "SGXLKL_HD_RO")) (sgxlkl_config_bool (bytes "SGXLKL_HD_OVERLAY")) in
  r ← override_enclave_disk_config (mode c) r root_disk_path (sgxlkl_config_str (bytes "SGXLKL_HD_KEY"))
        (sgxlkl_config_str (bytes "SGXLKL_HD_VERITY")) (sgxlkl_config_str (bytes "SGXLKL_HD_VERITY_OFFSET"));
  l ← match hds with Some s => enclave_mounts_loop (length s) (Z.of_nat num) 0 s l | None => Done l end;
  Done (set_mounts l (set_root r c)).

(** ** Peers: key:addresses:endpoint,... *)

(** One peer, and the text after it. *)
Definition wg_entry (s : text) : outcome (wg_peer_config * text) :=
  match strsep 58 s with
  | (_, None) => Failed (BadPointer (Z.of_nat (length s) + 1))
  | (key, Some s1) =>
      let '(ips, s2) := strsep 58 s1 in
      let '(endpoint, s3) := strsep 44 (default [] s2) in
      Done (WgPeer (Some key) (Some ips) (Some endpoint), match s3 with Some s3 => skip_separators s3 | None => [] end)
  end.
(** [room]: the number of peers that were allocated. *)
Fixpoint wg_peers_loop (fuel room : nat) (s : text) (l : list wg_peer_config) : outcome (list wg_peer_config) :=
  match s, fuel with
  | [], _ => Done l
  | _, O => Failed OutOfFuel
  | _, S fuel' =>
      '(p, s') ← wg_entry s;
      if bool_decide (length l < room)%nat then wg_peers_loop fuel' room s' (l ++ [p])
      else Failed (BadPointer (Z.of_nat room))
  end.
Definition wg_peers_of (s : text) : outcome (list wg_peer_config) :=
  match s with [] => Done [] | _ => wg_peers_loop (length s) (count_entries s) s [] end.

(** If the variable is set, [f] of its value. *)
Definition overridden {A} (var : string) (f : text -> A -> A) (a : A) : A :=
  match getenv (bytes var) with Some v => f v a | None => a end.
(** The value is read again by these functions. *)
Definition with_str {A} (var : string) (set : option text -> A -> A) : A -> A := overridden var (fun v => set (Some v)).
Definition with_u64 {A} (var : string) (set : Z -> A -> A) : A -> A := overridden var (fun _ => set (sgxlkl_config_uint64 (bytes var))).
Definition with_bool {A} (var : string) (set : bool -> A -> A) : A -> A := overridden var (fun _ => set (sgxlkl_config_bool (bytes var))).

Definition override_enclave_wg_config (w : wg_config) : outcome wg_config :=
  let w := with_str "SGXLKL_WG_IP" set_wg_ip w in
  let w := with_u64 "SGXLKL_WG_PORT" (fun z => set_wg_listen_port (u16 z)) w in
  let w := with_str "SGXLKL_WG_KEY" set_wg_key w in
  match getenv (bytes "SGXLKL_WG_PEERS") with
  | None => Done w
  | Some s => l ← wg_peers_of s; Done (set_wg_peers l w)
  end.

(** ** All settings of the enclave *)

Fixpoint split_commas (n : nat) (s : text) : list text :=
  match strsep 44 s, n with (a, Some s'), S n' => a :: split_commas n' s' | (a, _), _ => [a] end.

Definition sgxlkl_auto_passthrough : list text :=
  map bytes ["SGXLKL_DEBUGMOUNT"; "SGXLKL_PRINT_APP_RUNTIME"; "SGXLKL_TRACE_HOST_SYSCALL"; "SGXLKL_TRACE_INTERNAL_SYSCALL";
    "SGXLKL_TRACE_LKL_SYSCALL"; "SGXLKL_TRACE_IGNORED_SYSCALL"; "SGXLKL_TRACE_UNSUPPORTED_SYSCALL";
    "SGXLKL_TRACE_REDIRECT_SYSCALL"; "SGXLKL_TRACE_MMAP"; "SGXLKL_TRACE_SYSCALL"; "SGXLKL_TRACE_THREAD"; "SGXLKL_TRACE_SIGNAL"]%string.
Definition import_variables (l : list (option text)) : list (option text) :=
  overridden "SGXLKL_HOST_IMPORT_ENV" (fun s _ => Some <$> split_commas (length s) s) l ++
  (Some <$> filter (fun v => getenv v <> None) sgxlkl_auto_passthrough).

(** The name of the host is written over the old one, of which [hostname_room]
    bytes can be written. *)
Definition override_hostname (hostname_room : nat) (c : enclave_config) : outcome enclave_config :=
  match getenv (bytes "SGXLKL_HOSTNAME") with
  | None => Done c
  | Some s => if bool_decide (length s < hostname_room)%nat then Done (set_hostname (Some s) c) else Failed (BadPointer (Z.of_nat hostname_room))
  end.
Definition override_mmap_files (c : enclave_config) : outcome enclave_config :=
  match getenv (bytes "SGXLKL_MMAP_FILES") with
  | None => Done c
  | Some s =>
      m ← string_to_sgxlkl_enclave_mmap_files_t
            (if bool_decide (s = bytes "Shared") then bytes "shared"
             else if bool_decide (s = bytes "Private") then bytes "private" else bytes "none");
      Done (set_mmap_files m c)
  end.
Definition disk_variables : list text :=
  map bytes ["SGXLKL_HDS"; "SGXLKL_HD_RO"; "SGXLKL_HD_OVERLAY"; "SGXLKL_HD_KEY"; "SGXLKL_HD_VERITY"; "SGXLKL_HD_VERITY_OFFSET"]%string.

Definition override_enclave_config (allocated : bool) (hostname_room : nat) (argv : list text) (root_disk_file : option text)
    (enclave_mode_cmdline : option sgxlkl_enclave_mode_t) (c : enclave_config) : outcome enclave_config :=
  let c := match enclave_mode_cmdline with Some m => set_mode m c | None => c end in
  let c := with_u64 "SGXLKL_OE_HEAP_PAGE_COUNT" set_oe_heap_pagecount c in
  let c := with_u64 "SGXLKL_STACK_SIZE" set_stacksize c in
  let c := with_u64 "SGXLKL_MAX_USER_THREADS" set_max_user_threads c in
  let c := with_u64 "SGXLKL_ESPINS" set_espins c in
  let c := with_u64 "SGXLKL_ESLEEP" set_esleep c in
  let c := with_bool "SGXLKL_VERBOSE" set_verbose c in
  let c := with_bool "SGXLKL_KERNEL_VERBOSE" set_kernel_verbose c in
  let c := with_str "SGXLKL_CMDLINE" set_kernel_cmd c in
  let c := with_str "SGXLKL_SYSCTL" set_sysctl c in
  let c := with_bool "SGXLKL_ENABLE_SWIOTLB" set_swiotlb c in
  c ← override_mmap_files c;
  let c := with_u64 "SGXLKL_ETHREADS" set_ethreads c in
  let c := with_str "SGXLKL_IP4" set_net_ip4 c in
  let c := with_str "SGXLKL_GW4" set_net_gw4 c in
  let c := with_str "SGXLKL_MASK4" set_net_mask4 c in
  c ← override_hostname hostname_room c;
  let c := with_u64 "SGXLKL_TAP_MTU" (fun z => set_tap_mtu (u32 z)) c in
  let c := with_bool "SGXLKL_HOSTNET" set_hostnet c in
  w ← override_enclave_wg_config (wg c);
  let c := set_wg w c in
  c ← (if existsb sgxlkl_config_overridden disk_variables then override_disk_config allocated root_disk_file c else Done c);
  let c := match argv with [] => c | _ => set_args (Some <$> argv) c end in
  Done (set_host_import_env (import_variables (host_import_env c)) c).
End Settings.

Section Host.
Variable getenv : text -> option text.

(** ** The configuration of the host *)

Definition override_host_config (root_disk_path : option text) (c : host_config) : outcome host_config :=
  let r := h_root c in
  let r := match getenv (bytes "SGXLKL_HD"), hr_image_path r with
           | Some s, _ => hr_set_image_path (Some s) r
           | None, None => hr_set_image_path root_disk_path r
           | None, Some _ => r
           end in
  let r := with_str getenv "SGXLKL_HD_KEY" hr_set_key r in
  let r := with_bool getenv "SGXLKL_HD_RO" hr_set_readonly r in
  let r := with_str getenv "SGXLKL_HD_VERITY" hr_set_verity r in
  let r := with_str getenv "SGXLKL_HD_VERITY_OFFSET" hr_set_verity_offset r in
  let c := hset_root r c in
  c ← match getenv (bytes "SGXLKL_HDS") with
      | None => Done c
      | Some hds => l ← host_mounts hds; Done (hset_mounts l c)
      end;
  let c := with_bool getenv "SGXLKL_VERBOSE" hset_verbose c in
  let c := with_str getenv "SGXLKL_ETHREADS_AFFINITY" hset_affinity c in
  let c := with_str getenv "SGXLKL_TAP" hset_tap_device c in
  Done (with_bool getenv "SGXLKL_TAP_OFFLOAD" hset_tap_offload c).

(** The disks: the root disk, then the mounts. *)
Definition HOST_MAX_DISKS : nat := 32.
Definition setup_host_state (c : host_config) : outcome (list (host_root_config + host_mount_config)) :=
  if bool_decide (HOST_MAX_DISKS <= 1 + length (h_mounts c))%nat then Failed Stopped
  else Done (inl (h_root c) :: (inr <$> h_mounts c)).

(** [blk_device_init] copies the name of the device, which the enclave gets;
    before, [register_hd] looks at the length of the mount point and opens the
    image, of which the size is given. *)
Variable image_size : text -> bool -> option Z.
Definition register_hd (disk : host_root_config + host_mount_config) : outcome text :=
  '(image, dest, ro) ← match disk with
                       | inl r => Done (hr_image_path r, Some (bytes "/"), hr_readonly r)
                       | inr m => Done (hm_image_path m, hm_destination m, hm_readonly m)
                       end;
  match dest with
  | None => Failed (BadPointer 0)
  | Some d =>
      if bool_decide (SGXLKL_DISK_MNT_MAX_PATH_LEN < length d)%nat then Failed Stopped
      else match image with
           | None => Failed Stopped
           | Some i => match image_size i ro with None => Failed Stopped | Some _ => Done d end
           end
  end.
Fixpoint register_hds (disks : list (host_root_config + host_mount_config)) : outcome (list text) :=
  match disks with [] => Done [] | d :: disks' => name ← register_hd d; names ← register_hds disks'; Done (name :: names) end.
End Host.

(** ** Threads and cores *)

(** "for (; val > range_start && *cores_len < nproc; val--)": the cores, and what
    [val] is then. *)
Fixpoint add_range (n : nat) (nproc val range_start : Z) (cores : list Z) : list Z * Z :=
  match n with
  | O => (cores, val)
  | S n' =>
      if (range_start <? val) && (Z.of_nat (length cores) <? nproc) then add_range n' nproc (val - 1) range_start (cores ++ [s32 val])
      else (cores, val)
  end.

Fixpoint affinity_loop (fuel : nat) (nproc : Z) (s : text) (val range_start : Z) (cores : list Z) : outcome (list Z) :=
  match s with
  | [] => Done cores
  | c :: s' =>
      if negb (Z.of_nat (length cores) <? nproc) then Done cores
      else
        match fuel with
        | O => Failed OutOfFuel
        | S fuel' =>
            if (48 <=? c) && (c <=? 57) then
              let '(x, n) := take_digits 10 s 0 0 in
              let val := Z.min x (2 ^ 63 - 1) in
              let s := drop n s in
              if nproc <=? val then Done cores
              else if range_start <? 0 then affinity_loop fuel' nproc s val range_start (cores ++ [s32 val])
              else
                let '(cores, val) := add_range (Z.to_nat (val - range_start)) nproc val range_start cores in
                affinity_loop fuel' nproc s val (-1) cores
            else if c =? 44 then affinity_loop fuel' nproc s' val range_start cores
            else if c =? 45 then affinity_loop fuel' nproc s' val val cores
            else Done cores
        end
  end.
Definition parse_cpu_affinity_params (nproc : Z) (config : option text) : outcome (list Z) :=
  match config with
  | None => Done []
  | Some s => affinity_loop (length s) nproc s 0 (-1) []
  end.

(** ** Clocks *)

(** "%08lx%08lx", of which 17 characters are copied. *)
Definition mk_clock_res_string (sec nsec : Z) : text := take 17 (hexw 8 (u64 sec) ++ hexw 8 (u64 nsec)).
