(* ===== verification/LauncherProps.v ===== *)
(** * LauncherProps: what the settings of the launcher do

    A list of disks mounts every image where it says, composed with what the
    enclave does with the names of the devices; the cores of the enclave's
    threads; the resolutions of the clocks; a finding about a variable that
    resets others. *)

From Stdlib Require Import String.
From S2P Require Import Prelude JsonText JsonNumbers Env EnclaveConfig ConfigReader WireGuardPeers DeviceMapper Uuid HostConfig.
From S2P Require Import Serialize SerializePrint Luks2Json DeviceMapperProps EnclaveStart EnclaveStartProps Launcher.

(** ** Lists of disks *)

Lemma strsep_app c a s : c ∉ a -> strsep c (a ++ c :: s) = (a, Some s).
Proof.
  induction a as [|x a IH]; cbn [app strsep]; [by rewrite Z.eqb_refl|]. rewrite not_elem_of_cons. intros [H1 H2].
  rewrite (proj2 (Z.eqb_neq _ _)) by congruence. by rewrite IH.
Qed.

(** What can be written in a list: a path that begins as one, no separators. *)
Definition well_formed (e : hd_entry) : Prop :=
  (58 ∉ hd_path e) /\ (44 ∉ hd_path e) /\ (58 ∉ hd_mnt e) /\ (44 ∉ hd_mnt e) /\
  hd_path e <> [] /\ head (hd_path e) <> Some 32.
#[global] Instance well_formed_dec e : Decision (well_formed e).
Proof. unfold well_formed. apply _. Defined.

Definition hd_text (e : hd_entry) : text := hd_path e ++ 58 :: hd_mnt e ++ [58; if hd_ro e then 49 else 48].
Fixpoint hds_text (l : list hd_entry) : text :=
  match l with [] => [] | [e] => hd_text e | e :: l' => hd_text e ++ 44 :: hds_text l' end.

Lemma hds_text_head l : Forall well_formed l -> skip_separators (hds_text l) = hds_text l.
Proof.
  destruct l as [|e l]; [done|]. intros [He _]%Forall_cons. destruct He as (_ & H44 & _ & _ & Hp & H32).
  destruct (hd_path e) as [|c p] eqn:Ep; [done|].
  assert (exists s, hds_text (e :: l) = c :: s) as [s ->].
  { destruct l as [|e' l]; cbn [hds_text]; unfold hd_text; rewrite Ep; by eexists. }
  cbn [skip_separators]. rewrite not_elem_of_cons in H44. simpl in H32.
  by rewrite (proj2 (Z.eqb_neq c 32)), (proj2 (Z.eqb_neq c 44)) by (intros ->; tauto).
Qed.

Lemma hds_entry_text e l : Forall well_formed (e :: l) -> hds_entry (hds_text (e :: l)) = Done (e, hds_text l).
Proof.
  intros [He Hl]%Forall_cons. destruct He as (H1 & H2 & H3 & H4 & _ & _).
  assert (hds_text (e :: l) = hd_path e ++ 58 :: hd_mnt e ++ 58 :: (if hd_ro e then 49 else 48) ::
    match l with [] => [] | _ => 44 :: hds_text l end) as ->.
  { destruct l; cbn [hds_text]; unfold hd_text; by rewrite <- ?app_assoc; cbn [app]; rewrite <- ?app_assoc. }
  unfold hds_entry. rewrite strsep_app by done. rewrite strsep_app by done. f_equal. f_equal.
  - destruct e as [p m []]; done.
  - destruct l as [|e' l]; [by destruct (hd_ro e)|]. transitivity (skip_separators (hds_text (e' :: l))); [|by apply hds_text_head].
    by destruct (hd_ro e).
Qed.

Lemma count_app s t : count_entries (s ++ 44 :: t) = (count_entries s + count_entries t)%nat.
Proof. unfold count_entries. rewrite filter_app, length_app, filter_cons_True by done. simpl. lia. Qed.
Lemma count_none s : 44 ∉ s -> count_entries s = 1%nat.
Proof.
  intros H. unfold count_entries. f_equal. induction s as [|c s IH]; [done|]. apply not_elem_of_cons in H as [H1 H2].
  rewrite filter_cons_False by congruence. by apply IH.
Qed.
Lemma count_hds l : l <> [] -> Forall well_formed l -> count_entries (hds_text l) = length l.
Proof.
  intros Hn Hl. induction Hl as [|e l He Hl IH]; [done|].
  assert (count_entries (hd_text e) = 1%nat) as H1.
  { apply count_none. destruct He as (_ & H2 & _ & H4 & _). unfold hd_text. rewrite not_elem_of_app, not_elem_of_cons, not_elem_of_app.
    split; [done|]. split; [done|]. split; [done|]. destruct (hd_ro e); rewrite !not_elem_of_cons; repeat split; try done; apply not_elem_of_nil. }
  destruct l as [|e' l]; [done|]. change (hds_text (e :: e' :: l)) with (hd_text e ++ 44 :: hds_text (e' :: l)).
  rewrite count_app, H1, IH by done. done.
Qed.

Lemma hds_text_length l : Forall well_formed l -> (length l <= length (hds_text l))%nat.
Proof.
  assert (forall e, (3 <= length (hd_text e))%nat) as H3.
  { intros e. unfold hd_text. rewrite length_app. simpl. rewrite length_app. simpl. lia. }
  induction 1 as [|e l He Hl IH]; [done|]. specialize (H3 e). destruct l as [|e' l]; [simpl; lia|].
  change (hds_text (e :: e' :: l)) with (hd_text e ++ 44 :: hds_text (e' :: l)). rewrite length_app. cbn [length] in *. lia.
Qed.
Lemma hds_text_nil l : hds_text l = [] -> l = [].
Proof. destruct l as [|e [|e' l]]; [done|..]; cbn [hds_text]; unfold hd_text; by destruct (hd_path e). Qed.

Lemma index_middle {A} (f : A -> A) (pre : list A) x post :
  at_index (Z.of_nat (length pre)) f (pre ++ x :: post) = Done (pre ++ f x :: post).
Proof.
  unfold at_index. rewrite Nat2Z.id, list_lookup_middle by done. f_equal. by rewrite insert_app_r_alt, Nat.sub_diag by lia.
Qed.

Definition host_mount_of (e : hd_entry) : host_mount_config := HostMount (Some (hd_path e)) (Some (hd_mnt e)) (hd_ro e).
Definition enclave_mount_of (e : hd_entry) : mount_config := set_mnt_readonly (hd_ro e) (set_mnt_destination (hd_mnt e) zero_mount).

Lemma host_mounts_step l : forall fuel pre, Forall well_formed l -> (length l <= fuel)%nat ->
  host_mounts_loop fuel (Z.of_nat (length pre)) (hds_text l) (pre ++ replicate (length l) zero_host_mount) = Done (pre ++ (host_mount_of <$> l)).
Proof.
  induction l as [|e l IH]; intros fuel pre Hl Hf; [by destruct fuel|]. destruct fuel as [|fuel]; [simpl in Hf; lia|].
  cbn [host_mounts_loop]. destruct (hds_text (e :: l)) as [|c s] eqn:Es; [by apply hds_text_nil in Es|].
  rewrite <- Es, hds_entry_text by done. cbn [mbind outcome_bind length replicate]. rewrite index_middle. cbn [mbind outcome_bind].
  apply Forall_cons in Hl as [He Hl]. simpl in Hf. specialize (IH fuel (pre ++ [host_mount_of e]) Hl ltac:(lia)).
  rewrite length_app, <- !app_assoc in IH. cbn [length app] in IH.
  replace (Z.of_nat (length pre + 1)) with (Z.of_nat (length pre) + 1) in IH by lia. exact IH.
Qed.
Lemma host_mounts_text l : l <> [] -> Forall well_formed l -> host_mounts (hds_text l) = Done (host_mount_of <$> l).
Proof.
  intros Hn Hl. unfold host_mounts. rewrite count_hds by done. apply (host_mounts_step l _ [] Hl). by apply hds_text_length.
Qed.

Lemma enclave_mounts_step l : forall fuel pre, Forall well_formed l -> Forall (fun e => (length (hd_mnt e) <= 255)%nat) l -> (length l <= fuel)%nat ->
  enclave_mounts_loop fuel (Z.of_nat (length pre + length l)) (Z.of_nat (length pre)) (hds_text l) (pre ++ replicate (length l) zero_mount) =
    Done (pre ++ (enclave_mount_of <$> l)).
Proof.
  induction l as [|e l IH]; intros fuel pre Hl Hd Hf.
  { destruct fuel; cbn [enclave_mounts_loop length]; by rewrite (proj2 (Z.leb_le _ _)) by lia. }
  destruct fuel as [|fuel]; [simpl in Hf; lia|]. cbn [enclave_mounts_loop]. rewrite (proj2 (Z.leb_gt _ _)) by (simpl; lia).
  destruct (hds_text (e :: l)) as [|c s] eqn:Es; [by apply hds_text_nil in Es|].
  rewrite <- Es, hds_entry_text by done. cbn [mbind outcome_bind length replicate].
  apply Forall_cons in Hl as [He Hl]. apply Forall_cons in Hd as [Hde Hd]. unfold SGXLKL_DISK_MNT_MAX_PATH_LEN.
  rewrite bool_decide_false by lia. rewrite index_middle. cbn [mbind outcome_bind].
  simpl in Hf. specialize (IH fuel (pre ++ [enclave_mount_of e]) Hl Hd ltac:(lia)).
  rewrite length_app, <- !app_assoc in IH. cbn [length app] in IH.
  replace (Z.of_nat (length pre + 1)) with (Z.of_nat (length pre) + 1) in IH by lia.
  replace (length pre + 1 + length l)%nat with (length pre + S (length l))%nat in IH by lia. exact IH.
Qed.

(** ** The settings that lead to the mounts *)

Lemma overridden_keep {A B} getenv (field : A -> B) var f a :
  (forall v a, field (f v a) = field a) -> field (overridden getenv var f a) = field a.
Proof. intros H. unfold overridden. case_match; [apply H|done]. Qed.
Ltac keep := unfold with_u64, with_str, with_bool; repeat rewrite overridden_keep by (intros; reflexivity).

Section Composed.
Context `{Gen : GeneratedConfig}.
Variables (getenv : text -> option text) (file : text -> option (list Z)).

Lemma override_disk_config_mounts root_disk_path c c' l :
  getenv (bytes "SGXLKL_HDS") = Some (hds_text l) -> l <> [] -> Forall well_formed l ->
  Forall (fun e => (length (hd_mnt e) <= 255)%nat) l -> mounts c = [] ->
  override_disk_config getenv file false root_disk_path c = Done c' -> mounts c' = enclave_mount_of <$> l.
Proof.
  intros Hg Hn Hl Hd Hc. unfold override_disk_config, sgxlkl_config_str. rewrite Hg, Hc.
  destruct (hds_text l) as [|x s] eqn:Es; [by apply hds_text_nil in Es|]. cbv beta iota zeta. rewrite <- Es, count_hds by done.
  destruct (override_enclave_disk_config _ _ _ _ _ _ _) as [r|]; [|done]. cbn [mbind outcome_bind].
  pose proof (enclave_mounts_step l (length (hds_text l)) [] Hl Hd (hds_text_length l Hl)) as H. cbn [length Nat.add app] in H.
  change (Z.of_nat 0) with 0 in H. rewrite H. cbn [mbind outcome_bind]. by intros [= <-].
Qed.

Lemma override_mmap_files_mounts c c' : override_mmap_files getenv c = Done c' -> mounts c' = mounts c.
Proof.
  unfold override_mmap_files. case_match; [|by intros [= <-]]. destruct (string_to_sgxlkl_enclave_mmap_files_t _); [|done]. by intros [= <-].
Qed.
Lemma override_hostname_mounts room c c' : override_hostname getenv room c = Done c' -> mounts c' = mounts c.
Proof. unfold override_hostname. case_match; [|by intros [= <-]]. case_bool_decide; [|done]. by intros [= <-]. Qed.

Lemma override_enclave_config_mounts room argv root_disk_path m c c' l :
  getenv (bytes "SGXLKL_HDS") = Some (hds_text l) -> l <> [] -> Forall well_formed l ->
  Forall (fun e => (length (hd_mnt e) <= 255)%nat) l -> mounts c = [] ->
  override_enclave_config getenv file false room argv root_disk_path m c = Done c' -> mounts c' = enclave_mount_of <$> l.
Proof.
  intros Hg Hn Hl Hd Hc. unfold override_enclave_config. cbv zeta.
  destruct (override_mmap_files _ _) as [c1|] eqn:E1; [|done]. cbn [mbind outcome_bind].
  apply override_mmap_files_mounts in E1.
  destruct (override_hostname _ _ _) as [c2|] eqn:E2; [|done]. cbn [mbind outcome_bind]. apply override_hostname_mounts in E2.
  destruct (override_enclave_wg_config _ _) as [w|]; [|done]. cbn [mbind outcome_bind].
  assert (existsb (sgxlkl_config_overridden getenv) disk_variables = true) as ->.
  { unfold disk_variables. cbn [map existsb]. unfold sgxlkl_config_overridden at 1. by rewrite Hg. }
  destruct (override_disk_config _ _ _ _ _) as [c3|] eqn:E3; [|done]. cbn [mbind outcome_bind]. intros [= <-].
  eapply (override_disk_config_mounts _ _ _ l) in E3; [|done..|].
  - by destruct argv.
  - cbn [mounts set_wg]. keep. rewrite E2. keep. rewrite E1. keep. by destruct m.
Qed.

Lemma register_hds_names image_size disks names : register_hds image_size disks = Done names ->
  names = (fun d => match d with inl _ => bytes "/" | inr m => default [] (hm_destination m) end) <$> disks.
Proof.
  revert names. induction disks as [|d disks IH]; intros names; [by intros [= <-]|]. cbn [register_hds].
  destruct (register_hd image_size d) as [n|] eqn:En; [|done]. cbn [mbind outcome_bind].
  destruct (register_hds image_size disks) as [ns|]; [|done]. intros [= <-]. cbn [fmap list_fmap]. rewrite (IH ns eq_refl). f_equal.
  unfold register_hd in En. destruct d as [r|m]; cbn [mbind outcome_bind] in En.
  - case_bool_decide; [done|]. destruct (hr_image_path r); [|done]. destruct (image_size _ _); [|done]. by injection En as <-.
  - destruct (hm_destination m); [|done]. case_bool_decide; [done|]. destruct (hm_image_path m); [|done].
    destruct (image_size _ _); [|done]. by injection En as <-.
Qed.

Lemma override_host_config_mounts root_disk_path c l : l <> [] -> Forall well_formed l ->
  getenv (bytes "SGXLKL_HDS") = Some (hds_text l) ->
  exists c', override_host_config getenv root_disk_path c = Done c' /\ h_mounts c' = host_mount_of <$> l.
Proof.
  intros Hn Hl Hg. unfold override_host_config. rewrite Hg, host_mounts_text by done. cbn [mbind outcome_bind].
  eexists. split; [done|]. by keep.
Qed.

(** C7. A list of disks, composed from the launcher to the enclave: every list of
    images with distinct mount points becomes the mounts of both configurations;
    the launcher sets up device 0 for the root disk and device i + 1 for image i,
    and the enclave, which looks the devices up by their names, gives the disk
    that it mounts at mount point i the device of image i, with the same flag for
    writing. *)
Theorem hds_mounted image_size root_disk_path room argv m (h h' : host_config) (c c' : enclave_config) l disks names shm :
  getenv (bytes "SGXLKL_HDS") = Some (hds_text l) -> l <> [] -> Forall well_formed l ->
  Forall (fun e => (length (hd_mnt e) <= 255)%nat) l -> NoDup (bytes "/" :: (hd_mnt <$> l)) -> mounts c = [] ->
  override_host_config getenv root_disk_path h = Done h' -> setup_host_state h' = Done disks ->
  register_hds image_size disks = Done names ->
  override_enclave_config getenv file false room argv root_disk_path m c = Done c' ->
  virtio_blk_dev_names shm = Some <$> names -> num_virtio_blk_dev shm = Z.of_nat (length names) ->
  disk_indices c' shm = Done (Z.of_nat <$> List.seq 0 (S (length l))) /\
  forall i e, l !! i = Some e ->
    disks !! S i = Some (inr (HostMount (Some (hd_path e)) (Some (hd_mnt e)) (hd_ro e))) /\
    exists mnt, mounts c' !! i = Some mnt /\ mnt_destination mnt = hd_mnt e /\ mnt_readonly mnt = hd_ro e.
Proof.
  intros Hg Hn Hl Hd Hnd Hc Hh Hs Hr He Hv Hk.
  destruct (override_host_config_mounts root_disk_path h l Hn Hl Hg) as (h2 & Eh & Hm). rewrite Hh in Eh. injection Eh as <-.
  unfold setup_host_state in Hs. case_bool_decide as Hmax; [done|]. injection Hs as <-. rewrite Hm in *.
  apply (override_enclave_config_mounts _ _ _ _ _ _ l) in He; [|done..]. rewrite He. clear Hh.
  apply register_hds_names in Hr. cbn [fmap list_fmap] in Hr.
  assert (names = bytes "/" :: (hd_mnt <$> l)) as Hnames by (rewrite Hr; f_equal; clear; induction l; [done|]; cbn; by f_equal).
  split.
  - unfold disk_indices. rewrite He, Hv, Hk, Nat2Z.id, <- fmap_take, firstn_all, Hnames.
    rewrite (find_disks_in_order _ [bytes "/"]).
    + cbn [mbind outcome_bind]. by rewrite length_fmap.
    + cbn [app]. f_equal. by rewrite <- list_fmap_compose.
    + done.
    + apply Forall_fmap, Forall_forall. intros e Hin E. apply NoDup_cons in Hnd as [Hnd _]. apply Hnd.
      change (hd_mnt e = bytes "/") in E. rewrite <- E. by apply list_elem_of_fmap_2.
  - intros i e Hi. split.
    + rewrite lookup_cons. cbv iota. by rewrite !list_lookup_fmap, Hi.
    + exists (enclave_mount_of e). by rewrite list_lookup_fmap, Hi.
Qed.
End Composed.

(** ** Cores *)

Lemma take_digits_spec ds : forall rest x n, Forall is_dec ds -> digit_in 10 (default 0 (head rest)) = false ->
  take_digits 10 (ds ++ rest) x n = (accumulate x ds, n + length ds)%nat.
Proof.
  induction ds as [|d ds IH]; intros rest x n Hd Hr.
  - rewrite Nat.add_0_r. destruct rest as [|c rest]; [done|]. cbn [app take_digits]. simpl in Hr. by rewrite Hr.
  - apply Forall_cons in Hd as [Hd Hds]. destruct (digit_dec d Hd) as (E1 & E2 & _). cbn [app take_digits]. unfold digit_in, _isdigit2 in *.
    rewrite E2, IH by done. f_equal; [by rewrite E1|simpl; lia].
Qed.
Lemma take_digits_bounds s : forall x n y k, 0 <= x -> take_digits 10 s x n = (y, k) -> 0 <= y /\ (n <= k <= n + length s)%nat.
Proof.
  induction s as [|c s IH]; intros x n y k Hx; cbn [take_digits]; [intros [= <- <-]; simpl; lia|].
  destruct (digit_in 10 c) eqn:E; [|intros [= <- <-]; simpl; lia]. intros H. apply IH in H; [simpl; lia|].
  assert (0 <= _digit c); [|lia]. unfold _digit. destruct (digit_table !! Z.to_nat c) as [v|] eqn:Ev; [|done]. simpl.
  assert (Forall (fun v => 0 <= v) digit_table) as Hall by (vm_compute; repeat constructor; discriminate).
  by eapply (proj1 (Forall_lookup _ _) Hall).
Qed.

(** Cores that there are, not more than there are. *)
Definition cores_ok (nproc : Z) (cores : list Z) : Prop := Z.of_nat (length cores) <= nproc /\ Forall (fun c => 0 <= c < nproc) cores.

Lemma s32_core nproc c : nproc < 2 ^ 31 -> 0 <= c < nproc -> s32 c = c.
Proof. intros. apply s32_small. lia. Qed.

Lemma add_range_ok nproc start n : nproc < 2 ^ 31 -> 0 <= start -> forall val cores cores' val',
  cores_ok nproc cores -> 0 <= val < nproc -> add_range n nproc val start cores = (cores', val') ->
  cores_ok nproc cores' /\ 0 <= val' < nproc.
Proof.
  intros Hp Hs. induction n as [|n IH]; intros val cores cores' val' Hc Hv; cbn [add_range]; [by intros [= <- <-]|].
  destruct ((start <? val) && (Z.of_nat (length cores) <? nproc)) eqn:E; [|by intros [= <- <-]].
  apply andb_true_iff in E as [E1%Z.ltb_lt E2%Z.ltb_lt]. apply IH; [|lia]. destruct Hc as [Hc1 Hc2]. split.
  - rewrite length_app. simpl. lia.
  - apply Forall_app. split; [done|]. constructor; [|done]. by rewrite (s32_core nproc).
Qed.

Lemma affinity_loop_ok nproc fuel : 0 < nproc < 2 ^ 31 -> forall s val start cores,
  (length s <= fuel)%nat -> cores_ok nproc cores -> 0 <= val < nproc -> -1 <= start < nproc ->
  exists cores', affinity_loop fuel nproc s val start cores = Done cores' /\ cores_ok nproc cores'.
Proof.
  intros Hp. induction fuel as [|fuel IH]; intros s val start cores Hf Hc Hv Hs.
  { destruct s; [|simpl in Hf; lia]. by exists cores. }
  destruct s as [|c s]; [by exists cores|]. cbn [affinity_loop].
  destruct (Z.ltb_spec (Z.of_nat (length cores)) nproc) as [Hl|Hl]; cbn [negb]; [|by exists cores].
  destruct ((48 <=? c) && (c <=? 57)) eqn:Ed.
  - destruct (take_digits 10 (c :: s) 0 0) as [x n] eqn:Et. apply andb_true_iff in Ed as [E1%Z.leb_le E2%Z.leb_le].
    assert (0 <= x /\ (1 <= n)%nat) as [Hx Hn].
    { destruct (digit_dec c ltac:(unfold is_dec; lia)) as (_ & E & _). cbn [take_digits] in Et. unfold digit_in in Et.
      unfold _isdigit2 in E. rewrite E in Et. destruct (digit_dec c ltac:(unfold is_dec; lia)) as (E' & _). rewrite E' in Et.
      apply take_digits_bounds in Et; lia. }
    assert (length (drop n (c :: s)) <= fuel)%nat as Hf' by (rewrite length_drop; simpl in *; lia).
    destruct (Z.leb_spec nproc (Z.min x (2 ^ 63 - 1))) as [|Hb]; [by exists cores|].
    destruct (Z.ltb_spec start 0) as [|Hst].
    + apply IH; [done| |lia..]. destruct Hc as [Hc1 Hc2]. split; [rewrite length_app; simpl; lia|].
      apply Forall_app. split; [done|]. constructor; [|done]. rewrite (s32_core nproc); lia.
    + destruct (add_range _ _ _ _ _) as [cores' val'] eqn:Ea. apply add_range_ok in Ea as [H1 H2]; [|lia..|done|lia].
      apply IH; done || lia.
  - destruct (c =? 44); [apply IH; simpl in *; done || lia|]. destruct (c =? 45); [apply IH; simpl in *; done || lia|]. by exists cores.
Qed.

(** A core or a range, as text and as cores. *)
Definition range_text (r : Z * option Z) : text := lu r.1 ++ match r.2 with Some b => 45 :: lu b | None => [] end.
Definition range_cores (r : Z * option Z) : list Z :=
  r.1 :: match r.2 with Some b => (fun i => b - Z.of_nat i) <$> List.seq 0 (Z.to_nat (b - r.1)) | None => [] end.
Fixpoint all_cores (l : list (Z * option Z)) : list Z := match l with [] => [] | r :: l' => range_cores r ++ all_cores l' end.
Definition range_ok (nproc : Z) (r : Z * option Z) : Prop :=
  0 <= r.1 < nproc /\ match r.2 with Some b => r.1 < b < nproc | None => True end.
Fixpoint ranges_text (l : list (Z * option Z)) : text :=
  match l with [] => [] | [r] => range_text r | r :: l' => range_text r ++ 44 :: ranges_text l' end.

Lemma lu_digits x : Forall is_dec (lu x).
Proof. apply unsigned_digits_dec. Qed.
Lemma lu_some x : 0 <= x < 2 ^ 64 -> lu x <> [].
Proof.
  intros Hx. unfold lu, unsigned_digits. destruct (i64_digits_spec 255 x []) as (ds & -> & Hn & _); [|lia|by rewrite app_nil_r].
  split; [lia|]. apply Z.lt_le_trans with (2 ^ 64); [lia|]. vm_compute. discriminate.
Qed.
Lemma take_digits_lu x rest : 0 <= x < 2 ^ 64 -> digit_in 10 (default 0 (head rest)) = false ->
  take_digits 10 (lu x ++ rest) 0 0 = (x, length (lu x)).
Proof.
  intros Hx Hr. rewrite take_digits_spec by (done || apply lu_digits). pose proof (lu_value x Hx) as Hv. unfold decimal_value in Hv.
  by rewrite Hv.
Qed.

#[local] Opaque lu.

Lemma number_step fuel nproc a rest val start cores :
  nproc < 2 ^ 31 -> 0 <= a < nproc -> Z.of_nat (length cores) < nproc -> digit_in 10 (default 0 (head rest)) = false ->
  affinity_loop (S fuel) nproc (lu a ++ rest) val start cores =
    if start <? 0 then affinity_loop fuel nproc rest a start (cores ++ [a])
    else let '(cores, val) := add_range (Z.to_nat (a - start)) nproc a start cores in affinity_loop fuel nproc rest val (-1) cores.
Proof.
  intros Hp Ha Hc Hr. pose proof (lu_digits a) as Hd. destruct (lu a) as [|d ds] eqn:El; [apply lu_some in El; [done|lia]|].
  cbn [app affinity_loop]. rewrite (proj2 (Z.ltb_lt _ _) Hc). cbn [negb].
  assert (48 <= d <= 57) as Hd1 by (by apply Forall_cons in Hd as [Hd _]).
  rewrite (proj2 (Z.leb_le 48 d)), (proj2 (Z.leb_le d 57)) by lia. cbn [andb]. rewrite (app_comm_cons ds rest d), <- El.
  rewrite <- El in Hd. rewrite take_digits_lu, drop_app_length by (done || lia).
  rewrite Z.min_l by lia. rewrite (proj2 (Z.leb_gt _ _)) by lia. by rewrite (s32_core nproc).
Qed.

Lemma add_range_full nproc a n : nproc < 2 ^ 31 -> forall b cores, 0 <= a -> b < nproc -> n = Z.to_nat (b - a) -> a <= b ->
  Z.of_nat (length cores + n) <= nproc ->
  add_range n nproc b a cores = (cores ++ ((fun i => b - Z.of_nat i) <$> List.seq 0 n), a).
Proof.
  intros Hp. induction n as [|n IH]; intros b cores Ha Hb Hn Hab Hl; cbn [add_range].
  { cbn. rewrite app_nil_r. f_equal. lia. }
  rewrite (proj2 (Z.ltb_lt a b)), (proj2 (Z.ltb_lt _ nproc)) by lia. cbn [andb].
  rewrite IH by (rewrite ?length_app; simpl; lia). rewrite <- app_assoc, (s32_core nproc) by lia.
  cbn [List.seq fmap list_fmap app]. do 3 f_equal; [lia|]. rewrite <- seq_shift, <- list_fmap_compose.
  apply list_fmap_ext. intros i x Hx. unfold compose. lia.
Qed.

Lemma dash_step fuel nproc s val start cores : Z.of_nat (length cores) < nproc ->
  affinity_loop (S fuel) nproc (45 :: s) val start cores = affinity_loop fuel nproc s val val cores.
Proof. intros H%Z.ltb_lt. cbn [affinity_loop]. by rewrite H. Qed.
Lemma core_comma_step fuel nproc s val start cores : Z.of_nat (length cores) < nproc ->
  affinity_loop (S fuel) nproc (44 :: s) val start cores = affinity_loop fuel nproc s val start cores.
Proof. intros H%Z.ltb_lt. cbn [affinity_loop]. by rewrite H. Qed.
Lemma lu_room x : 0 <= x < 2 ^ 64 -> exists n, length (lu x) = S n.
Proof. intros Hx%lu_some. destruct (lu x); [done|by eexists]. Qed.

(** One step after the other, with enough fuel for the text. *)
Lemma range_step nproc r rest fuel val cores :
  nproc < 2 ^ 31 -> range_ok nproc r -> Z.of_nat (length cores + length (range_cores r)) <= nproc ->
  digit_in 10 (default 0 (head rest)) = false -> (length (range_text r ++ rest) <= fuel)%nat ->
  exists fuel' val', (length rest <= fuel')%nat /\
    affinity_loop fuel nproc (range_text r ++ rest) val (-1) cores = affinity_loop fuel' nproc rest val' (-1) (cores ++ range_cores r).
Proof.
  intros Hp [Ha Hb] Hl Hr Hf. destruct r as [a o]. unfold range_text, range_cores in *; cbn [fst snd] in *.
  destruct (lu_room a) as [n Hn]; [lia|]. rewrite <- app_assoc in *. rewrite length_app, Hn in Hf. destruct fuel as [|fuel]; [simpl in Hf; lia|].
  assert (digit_in 10 (default 0 (head (match o with Some b => 45 :: lu b | None => [] end ++ rest))) = false) as Hh by (by destruct o).
  rewrite number_step by (done || (simpl in Hl; lia)). change (-1 <? 0) with true. cbv iota. destruct o as [b|].
  - destruct (lu_room b) as [k Hk]; [lia|]. rewrite length_app in Hf. cbn [length Nat.add] in Hf. rewrite Hk in Hf.
    destruct fuel as [|[|fuel]]; [lia..|]. cbn [length] in Hl. rewrite length_fmap, length_seq in Hl.
    exists fuel, a. split; [lia|].
    rewrite <- app_comm_cons, dash_step by (rewrite length_app; simpl; lia).
    rewrite number_step by (done || (rewrite ?length_app; simpl; lia)). rewrite (proj2 (Z.ltb_ge a 0)) by lia. cbv iota.
    rewrite (add_range_full nproc a (Z.to_nat (b - a))) by (rewrite ?length_app; simpl; lia). by rewrite <- app_assoc.
  - exists fuel, a. split; [simpl in Hf; lia|done].
Qed.

Lemma ranges_loop nproc l : nproc < 2 ^ 31 -> Forall (range_ok nproc) l -> forall fuel val cores,
  Z.of_nat (length cores + length (all_cores l)) <= nproc -> (length (ranges_text l) <= fuel)%nat ->
  affinity_loop fuel nproc (ranges_text l) val (-1) cores = Done (cores ++ all_cores l).
Proof.
  intros Hp. induction 1 as [|r l Hr Hl IH]; intros fuel val cores Hc Hf; [destruct fuel; cbn; by rewrite app_nil_r|].
  change (all_cores (r :: l)) with (range_cores r ++ all_cores l) in *. rewrite length_app in Hc. destruct l as [|r' l].
  - cbn [ranges_text] in *. rewrite <- (app_nil_r (range_text r)) in *.
    destruct (range_step nproc r [] fuel val cores) as (f' & v' & _ & ->); [done..|lia|done|done|].
    rewrite app_nil_r. by destruct f'.
  - change (ranges_text (r :: r' :: l)) with (range_text r ++ 44 :: ranges_text (r' :: l)) in *.
    destruct (range_step nproc r (44 :: ranges_text (r' :: l)) fuel val cores) as (f' & v' & Hf' & ->); [done..|lia|done|done|].
    destruct f' as [|f']; [simpl in Hf'; lia|].
    assert (1 <= length (all_cores (r' :: l)))%nat as H1 by
      (change (all_cores (r' :: l)) with (range_cores r' ++ all_cores l); rewrite length_app; unfold range_cores at 1; cbn [length]; lia).
    rewrite core_comma_step by (rewrite length_app; lia).
    rewrite IH; [by rewrite <- app_assoc|rewrite (length_app cores); lia|].
    rewrite length_app in Hf. cbn [length] in Hf'. lia.
Qed.

(** C31. The cores of the enclave's threads: every setting, malformed ones
    included, gives a list of cores that there are, at most as many as there are,
    so that the array is not left; and a list of cores and ranges that fits gives
    exactly the cores that it names. *)
Theorem affinity_cores nproc config : 0 < nproc < 2 ^ 31 ->
  (exists cores, parse_cpu_affinity_params nproc config = Done cores /\ cores_ok nproc cores) /\
  forall l, config = Some (ranges_text l) -> Forall (range_ok nproc) l -> Z.of_nat (length (all_cores l)) <= nproc ->
    parse_cpu_affinity_params nproc config = Done (all_cores l).
Proof.
  intros Hp. split.
  - destruct config as [s|]; cbn [parse_cpu_affinity_params].
    + apply affinity_loop_ok; try done; try lia. split; [simpl; lia|constructor].
    + eexists. split; [done|]. split; [simpl; lia|constructor].
  - intros l -> Hl Hc. cbn [parse_cpu_affinity_params]. by apply (ranges_loop nproc l (proj2 Hp) Hl _ 0 []).
Qed.

Lemma affinity_cores_witness : parse_cpu_affinity_params 8 (Some (bytes "0,2-4,7")) = Done [0; 2; 4; 3; 7].
Proof.
  apply (proj2 (affinity_cores 8 (Some (bytes "0,2-4,7")) ltac:(lia)) [(0, None); (2, Some 4); (7, None)]).
  - reflexivity.
  - repeat constructor; cbn; lia.
  - vm_compute. discriminate.
Defined.

(** ** One variable resets the settings of the root disk *)

(** Any variable of the disks resets the root disk of the configuration: if,
    for instance, only SGXLKL_HDS is set, the root disk of a configuration that
    has a root hash, is read-only and has an overlay is mounted without
    verification, writable and without an overlay (in the release mode only the
    two flags are reset). *)
Theorem disk_variable_resets_root `{Gen : GeneratedConfig} getenv file allocated root_disk_path c c' :
  getenv (bytes "SGXLKL_HD_RO") = None -> getenv (bytes "SGXLKL_HD_OVERLAY") = None ->
  getenv (bytes "SGXLKL_HD_KEY") = None -> getenv (bytes "SGXLKL_HD_VERITY") = None ->
  override_disk_config getenv file allocated root_disk_path c = Done c' ->
  root_readonly (root c') = false /\ root_overlay (root c') = false /\
  root_key (root c') = root_key (root c) /\
  if bool_decide (sgxlkl_enclave_mode_t_to_string (mode c) = bytes "hw_release") then root_roothash (root c') = root_roothash (root c)
  else root_roothash (root c') = None.
Proof.
  intros H1 H2 H3 H4. unfold override_disk_config, sgxlkl_config_str, sgxlkl_config_bool, getenv_bool. rewrite H1, H2, H3, H4.
  unfold override_enclave_disk_config. case_bool_decide as Hm; cbn [mbind outcome_bind prepare_verity].
  all: match goal with |- (l ← ?o; _) = _ -> _ => destruct o as [l|]; [|done] end; cbn [mbind outcome_bind]; by intros [= <-].
Qed.

(** A root disk with a root hash, and a list with one disk. *)
Definition protected_config : enclave_config (Gen := schema_config) :=
  set_mounts [] (set_root (Root None None (Some (bytes "ab")) 4096 true true) sample_config).
Definition disk_list : list hd_entry := [mk_hd (bytes "data.img") (bytes "/data") false; mk_hd (bytes "ro.img") (bytes "/ro") true].
Definition only_hds (v : text) : option text := if bool_decide (v = bytes "SGXLKL_HDS") then Some (hds_text disk_list) else None.

Definition reset_config : enclave_config (Gen := schema_config) :=
  match override_disk_config only_hds (fun _ => None) false None protected_config with Done c => c | Failed _ => protected_config end.

Lemma disk_variable_resets_root_witness :
  override_disk_config only_hds (fun _ => None) false None protected_config = Done reset_config /\
  root_readonly (root reset_config) = false /\ root_roothash (root reset_config) = None.
Proof.
  assert (override_disk_config only_hds (fun _ => None) false None protected_config = Done reset_config) as E by (vm_compute; reflexivity).
  split; [exact E|].
  destruct (disk_variable_resets_root only_hds (fun _ => None) false None protected_config reset_config eq_refl eq_refl eq_refl eq_refl E)
    as (H1 & _ & _ & H2).
  split; [exact H1|]. exact H2.
Defined.

(** The same list, on the devices of the host. *)
Definition host_start : host_config := HostConfig (HostRoot (Some (bytes "root.img")) None false false None None) [] false None None false.
Definition host_disks : list (host_root_config + host_mount_config) :=
  [inl (h_root host_start); inr (HostMount (Some (bytes "data.img")) (Some (bytes "/data")) false);
   inr (HostMount (Some (bytes "ro.img")) (Some (bytes "/ro")) true)].
Definition device_names : list text := [bytes "/"; bytes "/data"; bytes "/ro"].
Definition devices_memory : shared_memory := mk_shm 0 0 0 0 0 0 0 3 [4096; 8192; 12288] (Some <$> device_names) None.
Definition enclave_after : enclave_config (Gen := schema_config) :=
  match override_enclave_config only_hds (fun _ => None) false 4 [] None None protected_config with
  | Done c => c | Failed _ => protected_config end.

Lemma hds_mounted_witness :
  disk_indices enclave_after devices_memory = Done [0; 1; 2] /\
  host_disks !! 2%nat = Some (inr (HostMount (Some (bytes "ro.img")) (Some (bytes "/ro")) true)).
Proof.
  destruct (hds_mounted only_hds (fun _ => None) (fun _ _ => Some 4096) None 4 [] None host_start
    (hset_mounts (host_mount_of <$> disk_list) host_start) protected_config enclave_after disk_list host_disks device_names devices_memory)
    as [H1 H2].
  - reflexivity.
  - discriminate.
  - apply (bool_decide_unpack (Forall well_formed disk_list)). vm_compute. exact I.
  - repeat constructor.
  - apply (bool_decide_unpack (NoDup (bytes "/" :: (hd_mnt <$> disk_list)))). vm_compute. exact I.
  - reflexivity.
  - vm_compute. reflexivity.
  - reflexivity.
  - vm_compute. reflexivity.
  - vm_compute. reflexivity.
  - reflexivity.
  - reflexivity.
  - split; [exact H1|]. exact (proj1 (H2 1%nat (mk_hd (bytes "ro.img") (bytes "/ro") true) eq_refl)).
Defined.

(** ** Clocks *)

Fixpoint hex_digits (k : nat) (x : Z) : text := match k with O => [] | S k' => hex_digits k' (x / 16) ++ [hex_digit (x mod 16)] end.
Lemma hex_digits_length k : forall x, length (hex_digits k x) = k.
Proof. induction k as [|k IH]; intros x; [done|]. cbn [hex_digits]. rewrite length_app, IH. simpl. lia. Qed.
Lemma hex_digits_zero k : hex_digits k 0 = replicate k 48.
Proof. induction k as [|k IH]; [done|]. cbn [hex_digits]. change (0 / 16) with 0. rewrite IH. symmetry. apply replicate_S_end. Qed.

Lemma hex_from_acc n : forall x acc, hex_from n x acc = hex_from n x [] ++ acc.
Proof.
  induction n as [|n IH]; intros x acc; [done|]. cbn [hex_from]. destruct (x / 16 =? 0); [done|].
  rewrite IH, (IH _ [_]). by rewrite <- app_assoc.
Qed.
Lemma hex_from_digits n : forall k x, (k < n)%nat -> 0 <= x < 16 ^ Z.of_nat (S k) ->
  (length (hex_from n x []) <= S k)%nat /\ replicate (S k - length (hex_from n x [])) 48 ++ hex_from n x [] = hex_digits (S k) x.
Proof.
  induction n as [|n IH]; intros k x Hk Hx; [lia|]. cbn [hex_from]. destruct (Z.eqb_spec (x / 16) 0) as [E|E].
  - split; [simpl; lia|]. cbn [hex_digits length]. by rewrite E, hex_digits_zero, Nat.sub_succ, Nat.sub_0_r.
  - rewrite hex_from_acc. destruct k as [|k].
    { exfalso. apply E. apply Z.div_small. change (16 ^ Z.of_nat 1) with 16 in Hx. lia. }
    assert (0 <= x / 16 < 16 ^ Z.of_nat (S k)) as Hd.
    { rewrite Nat2Z.inj_succ, Z.pow_succ_r in Hx by lia. split; [apply Z.div_pos; lia|]. apply Z.div_lt_upper_bound; lia. }
    destruct (IH k (x / 16) ltac:(lia) Hd) as [H1 H2]. rewrite length_app. split; [simpl; lia|].
    change (hex_digits (S (S k)) x) with (hex_digits (S k) (x / 16) ++ [hex_digit (x mod 16)]).
    rewrite <- H2, <- app_assoc. cbn [length]. do 2 f_equal. lia.
Qed.
Lemma hexw_digits w x : (0 < w <= 16)%nat -> 0 <= x < 16 ^ Z.of_nat w -> hexw w x = hex_digits w x.
Proof. intros Hw Hx. destruct w as [|k]; [lia|]. unfold hexw. by apply hex_from_digits; [lia|]. Qed.

Lemma hex_digit_nibble d : 0 <= d < 16 -> hex_nibble (hex_digit d) = d.
Proof.
  intros Hd. assert (forallb (fun i => hex_nibble (hex_digit (Z.of_nat i)) =? Z.of_nat i) (List.seq 0 16) = true) as H by (by vm_compute).
  rewrite forallb_forall in H. specialize (H (Z.to_nat d) ltac:(apply in_seq; lia)). rewrite Z2Nat.id in H by lia. by apply Z.eqb_eq.
Qed.

Definition read_nibbles (r : Z) (s : text) : Z := foldl (fun r c => Z.lor (u64 (Z.shiftl r 4)) (hex_nibble c)) r s.
Lemma hex_to_int_read s : forall pre post r, hex_to_int_from (pre ++ s ++ post) (length pre) (length s) r = Done (read_nibbles r s).
Proof.
  induction s as [|c s IH]; intros pre post r; [done|]. cbn [length hex_to_int_from app]. unfold rd.
  rewrite list_lookup_middle by done. cbn [mbind outcome_bind]. specialize (IH (pre ++ [c]) post (Z.lor (u64 (Z.shiftl r 4)) (hex_nibble c))).
  rewrite length_app, <- app_assoc in IH. cbn [length] in IH. rewrite Nat.add_1_r in IH. exact IH.
Qed.
Lemma read_digits k : forall x, (k <= 15)%nat -> 0 <= x < 16 ^ Z.of_nat k -> read_nibbles 0 (hex_digits k x) = x.
Proof.
  induction k as [|k IH]; intros x Hk Hx; [change (16 ^ Z.of_nat 0) with 1 in Hx; cbn; lia|]. cbn [hex_digits]. unfold read_nibbles in *.
  rewrite Nat2Z.inj_succ, Z.pow_succ_r in Hx by lia.
  assert (0 <= x / 16 < 16 ^ Z.of_nat k) as Hd by (split; [apply Z.div_pos; lia|]; apply Z.div_lt_upper_bound; lia).
  rewrite foldl_app, IH by (lia || done). cbn [foldl]. pose proof (Z.mod_pos_bound x 16 ltac:(lia)).
  rewrite hex_digit_nibble, lor_nibble by (lia || (split; [lia|]; apply Z.lt_le_trans with (16 ^ Z.of_nat k); [lia|];
    change (2 ^ 60) with (16 ^ 15); apply Z.pow_le_mono_r; lia)).
  pose proof (Z.div_mod x 16 ltac:(lia)). lia.
Qed.

Lemma clock_time_halves a b : length a = 8%nat -> length b = 8%nat ->
  clock_time (a ++ b) = Done (s64 (read_nibbles 0 a), s64 (read_nibbles 0 b)).
Proof.
  intros Ha Hb. unfold clock_time, hex_to_int. rewrite <- app_assoc.
  pose proof (hex_to_int_read a [] (b ++ [0]) 0) as H1. pose proof (hex_to_int_read b a [0] 0) as H2.
  rewrite Ha in H1, H2. rewrite Hb in H2. cbn [length app] in H1. rewrite H1. cbn [mbind outcome_bind]. rewrite H2. done.
Qed.
Lemma read_hexw x : 0 <= x < 2 ^ 32 -> length (hexw 8 x) = 8%nat /\ read_nibbles 0 (hexw 8 x) = x.
Proof.
  intros Hx. change (2 ^ 32) with (16 ^ Z.of_nat 8) in Hx. rewrite hexw_digits by (done || lia).
  split; [apply hex_digits_length|]. apply read_digits; [lia|done].
Qed.

(** The resolution of a clock arrives in the enclave. *)
Lemma clock_arrives sec nsec : 0 <= sec < 2 ^ 32 -> 0 <= nsec < 2 ^ 32 -> clock_time (mk_clock_res_string sec nsec) = Done (sec, nsec).
Proof.
  intros Hs Hn. unfold mk_clock_res_string. rewrite !u64_small by lia.
  destruct (read_hexw sec Hs) as [L1 R1]. destruct (read_hexw nsec Hn) as [L2 R2].
  rewrite firstn_all2 by (rewrite length_app, L1, L2; lia). rewrite clock_time_halves, R1, R2 by done. by rewrite !s64_small by lia.
Qed.

(** ** Settings that are not made *)

Lemma no_variables `{Gen : GeneratedConfig} file allocated room c (h : host_config) :
  override_enclave_config (fun _ => None) file allocated room [] None None c = Done c /\
  override_host_config (fun _ => None) (hr_image_path (h_root h)) h = Done h.
Proof.
  split.
  - unfold override_enclave_config, override_mmap_files, override_hostname, override_enclave_wg_config. cbn [mbind outcome_bind].
    unfold with_u64, with_str, with_bool, overridden, import_variables, overridden, sgxlkl_config_overridden. cbn [existsb map disk_variables].
    rewrite !bool_decide_false by auto. cbn [orb mbind outcome_bind].
    assert (forall l : list text, filter (fun v => (fun _ : text => @None text) v <> None) l = []) as Hf.
    { induction l as [|v l IH]; [done|]. rewrite filter_cons_False by auto. exact IH. }
    rewrite Hf, app_nil_r. by destruct c as [? ? ? ? ? ? ? ? ? ? []].
  - unfold override_host_config, with_str, with_bool, overridden. cbn [mbind outcome_bind].
    destruct h as [[[] ? ? ? ? ?] ? ? ? ? ?]; reflexivity.
Qed.

(** An empty list is one disk for the host; an entry without its last part is
    read behind its end; a range without a first core leaves core 0 out; a peer
    without an endpoint takes the key of the next one. *)
Example empty_list : host_mounts [] = Done [zero_host_mount].
Proof. reflexivity. Qed.
Example short_entry : host_mounts (bytes "data.img:/data") = Failed (BadPointer 15).
Proof. vm_compute. reflexivity. Qed.
Example open_range : parse_cpu_affinity_params 8 (Some (bytes "-3")) = Done [3; 2; 1].
Proof. vm_compute. reflexivity. Qed.
Example peer_without_endpoint :
  wg_peers_of (bytes "k1:10.0.1.2/32,k2:10.0.1.3/32") =
    Done [WgPeer (Some (bytes "k1")) (Some (bytes "10.0.1.2/32,k2")) (Some (bytes "10.0.1.3/32"))].
Proof. vm_compute. reflexivity. Qed.
