(* ===== verification/HostDevices.v ===== *)
(** * HostDevices: setting up the devices of the host
    (src/host_interface/virtio_blkdev.c, virtio_netdev.c, virtio_console.c,
    src/main-oe/sgxlkl_evt_chn_cfg.c, sgxlkl_run_oe.c)

    The structures that the host shares with the enclave as they are when the
    enclave starts, and the event channels between both.  Memory that the host
    maps is zero; pointers between the arrays of channels are indices.  What the
    kernel in the enclave does with the devices is in VirtioMmio and
    VirtioSetup. *)

From Stdlib Require Import String.
From S2P Require Import Prelude JsonText HostConfig Launcher Bitops VicCrypto VirtioMmio VirtioSetup.

(** ** Devices *)

Definition VIRTIO_ID_NET : Z := 1.
Definition VIRTIO_ID_BLOCK : Z := 2.
Definition VIRTIO_ID_CONSOLE : Z := 3.
Definition VIRTIO_F_IOMMU_PLATFORM : Z := 33.
Definition VIRTIO_CONSOLE_F_SIZE : Z := 0.
Definition VIRTIO_NET_F_CSUM : Z := 0.
Definition VIRTIO_NET_F_GUEST_CSUM : Z := 1.
Definition VIRTIO_NET_F_MAC : Z := 5.
Definition VIRTIO_NET_F_GUEST_TSO4 : Z := 7.
Definition VIRTIO_NET_F_GUEST_TSO6 : Z := 8.
Definition VIRTIO_NET_F_HOST_TSO4 : Z := 11.
Definition VIRTIO_NET_F_HOST_TSO6 : Z := 12.
Definition VIRTIO_NET_F_MRG_RXBUF : Z := 15.

Definition bits (l : list Z) : Z := foldr (fun b m => Z.lor (BIT b) m) 0 l.
Definition both : list Z := [LKL_VIRTIO_F_VERSION_1; LKL_VIRTIO_RING_F_EVENT_IDX].

Definition fresh_queues (n : nat) (depth : Z) : list virtq := replicate n (mk_virtq depth 0 0 0 0 0).
(** A device in fresh memory. *)
Definition fresh_dev (id vendor features : Z) (queues : list virtq) (config : list Z) (len : Z) : virtio_dev :=
  mk_dev id vendor features 0 0 0 0 queues 0 0 0 config len.

Definition sizeof_virtio_blk_config : Z := 36.
Definition blk_config (capacity : Z) : list Z := le_bytes 8 capacity ++ replicate 28 0.
Definition blk_device_init (swiotlb : bool) (size : Z) (disk_index : nat) : virtio_dev :=
  let features := Z.lor 0 (bits both) in
  let features := if swiotlb then Z.lor features (BIT VIRTIO_F_IOMMU_PLATFORM) else features in
  fresh_dev VIRTIO_ID_BLOCK (u32 (Z.of_nat disk_index)) features (fresh_queues 1 32)
    (blk_config (size / 512)) sizeof_virtio_blk_config.

(** [random]: the six bytes of [getrandom]. *)
Definition host_mac (random : list Z) : list Z :=
  match random with [] => [] | b :: l => Z.land (Z.lor b 2) 0xfe :: l end.
Definition sizeof_virtio_net_config : Z := 17.
(** The identifiers are static variables: the next one, and the first one. *)
Definition netdev_ids (num_disks : Z) (ids : Z * Z) : Z * Z := if ids.1 =? 0 then (u8 num_disks, u8 num_disks) else ids.
Definition netdev_init (swiotlb tap_offload : bool) (num_disks : Z) (random : list Z) (ids : Z * Z) : virtio_dev * Z * (Z * Z) :=
  let '(id, base) := netdev_ids num_disks ids in
  let features := Z.lor (Z.lor 0 (BIT VIRTIO_NET_F_MAC)) (bits both) in
  let features := if swiotlb then Z.lor features (BIT VIRTIO_F_IOMMU_PLATFORM) else features in
  let features := if tap_offload then
      Z.lor features (bits [VIRTIO_NET_F_CSUM; VIRTIO_NET_F_GUEST_CSUM; VIRTIO_NET_F_HOST_TSO4; VIRTIO_NET_F_GUEST_TSO4;
                            VIRTIO_NET_F_HOST_TSO6; VIRTIO_NET_F_GUEST_TSO6; VIRTIO_NET_F_MRG_RXBUF])
    else features in
  let features := Z.lor features (BIT VIRTIO_NET_F_MAC) in
  let max_merge_len := if truthy (Z.land features (BIT VIRTIO_NET_F_MRG_RXBUF)) then 65536 else 0 in
  (fresh_dev VIRTIO_ID_NET id features (fresh_queues 2 128) (host_mac random ++ replicate 11 0) sizeof_virtio_net_config,
   max_merge_len, (u8 (id + 1), base)).
Definition get_netdev_id (base dev_id : Z) : Z := u8 (dev_id - base).

(** [config_data] and [config_len] of the console stay zero. *)
Definition virtio_console_init (sw_debug_mode : bool) (dev_id : Z) : virtio_dev :=
  let features := Z.lor (bits both) (BIT VIRTIO_CONSOLE_F_SIZE) in
  let features := if sw_debug_mode then features else Z.lor features (BIT VIRTIO_F_IOMMU_PLATFORM) in
  fresh_dev VIRTIO_ID_CONSOLE dev_id features (fresh_queues 2 32) [] 0.

(** ** Event channels *)

Record host_evt_channel_t : Type := mk_host_channel { hc_evt : Z; hc_enclave_evt : nat; hc_qidx : Z }.
Record enc_evt_channel_t : Type := mk_enc_channel { ec_evt : Z; ec_host_evt : nat; ec_qidx : nat }.
(** A configuration of either side: [channel] is the index of its channel. *)
Record dev_config_t : Type := mk_config { cfg_dev_id : Z; channel : nat; evt_processed : Z }.

Definition host_dev_event_channel_init (evt_channel_num : nat) : list host_evt_channel_t * list enc_evt_channel_t :=
  (map (fun index => mk_host_channel 0 index 0) (seq 0 evt_channel_num),
   map (fun index => mk_enc_channel 0 index index) (seq 0 evt_channel_num)).
Definition host_dev_cfg_init (evt_channel_num : nat) :
    list dev_config_t * list dev_config_t * (list host_evt_channel_t * list enc_evt_channel_t) :=
  let cfg := map (fun index => mk_config (u8 (Z.of_nat index)) index 0) (seq 0 evt_channel_num) in
  (cfg, cfg, host_dev_event_channel_init evt_channel_num).

Definition SWIOTLB_SIZE : Z := Z.shiftl 64 20 + Z.shiftl 8 20.
(** [bounce]: the memory that [configure_software_io_tlb] maps. *)
Definition initialize_host_device_configuration (swiotlb : bool) (bounce : Z) (evt_chn_number : Z) :
    option (Z * Z) * (list dev_config_t * list dev_config_t * (list host_evt_channel_t * list enc_evt_channel_t)) :=
  (if swiotlb then Some (bounce, SWIOTLB_SIZE) else None, host_dev_cfg_init (Z.to_nat (u8 evt_chn_number))).

(** ** The start of all devices (main) *)

Definition HOST_NETWORK_DEV_COUNT : Z := 1.
Definition HOST_CONSOLE_DEV_COUNT : Z := 1.
Definition evt_channel_num (num_disks : nat) : Z := Z.of_nat num_disks + HOST_NETWORK_DEV_COUNT + HOST_CONSOLE_DEV_COUNT.

(** The devices in the order of their configurations: the disks with their sizes,
    the network if there is one, the console. *)
Definition start_devices (swiotlb sw_debug_mode : bool) (sizes : list Z) (net : option (bool * list Z)) : outcome (list virtio_dev) :=
  let num_disks := length sizes in
  let '(host_dev_cfg, _, _) := snd (initialize_host_device_configuration swiotlb 0 (evt_channel_num num_disks)) in
  let disks := imap (fun i size => blk_device_init swiotlb size i) sizes in
  let nets := match net with
              | Some (tap_offload, random) => [(netdev_init swiotlb tap_offload (Z.of_nat num_disks) random (0, 0)).1.1]
              | None => []
              end in
  match host_dev_cfg !! (num_disks + length nets)%nat with
  | Some cfg => Done (disks ++ nets ++ [virtio_console_init sw_debug_mode (cfg_dev_id cfg)])
  | None => Failed (BadPointer (Z.of_nat (num_disks + length nets)))
  end.

(** ** What the enclave does with them *)

(** [vio_enclave_notify_enclave_event]: the channel of the host that is written. *)
Definition notified_channel (enc_dev_config : list dev_config_t) (channels : list enc_evt_channel_t) (dev_id : Z) : outcome nat :=
  match enc_dev_config !! Z.to_nat dev_id with
  | Some cfg => match channels !! channel cfg with Some c => Done (ec_host_evt c) | None => Failed (BadPointer dev_id) end
  | None => Failed (BadPointer dev_id)
  end.

(** ** The devices are what the kernel needs *)

(** The kernel accepts every feature of the device and reports FEATURES_OK. *)
Definition negotiates (d : virtio_dev) : Prop :=
  forall s, is_u32 s -> Z.testbit s 3 = true ->
  exists d', run_accesses d (accept_features (device_features d / 2 ^ 32) (device_features d mod 2 ^ 32) ++ [writel STATUS s]) = Done (d', []) /\
    driver_features d' = device_features d /\ Z.testbit (status d') 3 = true.

Lemma offered_negotiates d : is_u64 (device_features d) -> is_u64 (driver_features d) ->
  Z.testbit (device_features d) 32 = true -> Z.testbit (device_features d) 29 = true -> negotiates d.
Proof.
  intros Hf Hd H1 H2 s Hs H3. destruct (halves_u32 _ Hf) as [Hl Hh].
  destruct (features_ok_negotiation d _ _ s Hd Hh Hl Hs H3) as (d' & Hr & Hv & Hi & _).
  pose proof (Z.div_mod (device_features d) (2 ^ 32) ltac:(lia)) as E. exists d'. split; [exact Hr|].
  split; [rewrite Hv; lia|]. apply Hi. split; [lia|]. done.
Qed.

Lemma fresh_typed id vendor features n depth config len : is_u32 id -> is_u32 vendor -> is_u64 features ->
  (0 < n)%nat -> is_u32 depth -> Forall is_byte config -> Z.of_nat (length config) = len ->
  dev_typed (fresh_dev id vendor features (fresh_queues n depth) config len).
Proof.
  intros Hi Hv Hf Hn Hd Hc Hl. unfold fresh_dev, fresh_queues.
  split; cbn; try done; try (unfold is_u32, is_u64; lia).
  - rewrite length_replicate. lia.
  - apply Forall_replicate. split; cbn; try done; unfold is_u32, is_u64; lia.
Qed.

(** Every combination of settings of the three kinds of device. *)
Lemma blk_features swiotlb size i : let f := device_features (blk_device_init swiotlb size i) in
  is_u64 f /\ Z.testbit f 32 = true /\ Z.testbit f 29 = true.
Proof. by destruct swiotlb. Qed.
Lemma net_features swiotlb tap n random ids : let f := device_features (netdev_init swiotlb tap n random ids).1.1 in
  is_u64 f /\ Z.testbit f 32 = true /\ Z.testbit f 29 = true.
Proof. unfold netdev_init. destruct (netdev_ids n ids) as [id base]. by destruct swiotlb, tap. Qed.
Lemma console_features sw id : let f := device_features (virtio_console_init sw id) in
  is_u64 f /\ Z.testbit f 32 = true /\ Z.testbit f 29 = true.
Proof. by destruct sw. Qed.

(** The first byte of the address: locally administered, not multicast. *)
Lemma mac_byte b : is_byte b -> let c := Z.land (Z.lor b 2) 0xfe in is_byte c /\ Z.testbit c 1 = true /\ Z.testbit c 0 = false.
Proof.
  intros Hb. unfold is_byte in *.
  assert (forallb (fun i => let c := Z.land (Z.lor (Z.of_nat i) 2) 0xfe in
    (0 <=? c) && (c <? 256) && Z.testbit c 1 && negb (Z.testbit c 0)) (seq 0 256) = true) as H by (by vm_compute).
  rewrite forallb_forall in H. specialize (H (Z.to_nat b) ltac:(apply in_seq; lia)). rewrite Z2Nat.id in H by lia.
  cbv zeta in *. rewrite !andb_true_iff, negb_true_iff, Z.leb_le, Z.ltb_lt in H. tauto.
Qed.
Lemma mac_bytes random : Forall is_byte random -> Forall is_byte (host_mac random).
Proof. intros [|b l Hb Hl]; [done|]. constructor; [apply (mac_byte b Hb)|exact Hl]. Qed.

(** What the driver reads of the configuration space. *)
Lemma config_read d offset size : dev_typed d -> 0 <= offset -> 0 <= size ->
  virtio_read d (VIRTIO_MMIO_CONFIG + offset) size =
    if config_len d <? offset + size then Done (Error (- EINVAL))
    else Done (Bytes (take (Z.to_nat size) (drop (Z.to_nat offset) (config_data d)))).
Proof.
  intros Hd Ho Hs. unfold virtio_read. rewrite (proj2 (Z.leb_le _ _)) by lia.
  replace (VIRTIO_MMIO_CONFIG + offset - VIRTIO_MMIO_CONFIG) with offset by lia.
  destruct (Z.ltb_spec (config_len d) (offset + size)) as [|Hc]; [done|]. rewrite decide_True; [done|].
  rewrite (dt_config d Hd). lia.
Qed.

Lemma le_bytes_typed n x : Forall is_byte (le_bytes n x).
Proof. eapply Forall_impl; [apply le_bytes_byte|]. done. Qed.
Lemma blk_typed swiotlb size i : dev_typed (blk_device_init swiotlb size i).
Proof.
  apply fresh_typed; try done; try (unfold is_u32; lia).
  - apply wrap_range. lia.
  - by destruct swiotlb.
  - apply Forall_app. split; [apply le_bytes_typed|]. by apply Forall_replicate.
Qed.
Lemma net_typed swiotlb tap n random ids : Forall is_byte random -> length random = 6%nat -> 0 <= ids.1 < 256 ->
  dev_typed (netdev_init swiotlb tap n random ids).1.1.
Proof.
  intros Hr Hl Hi. unfold netdev_init. destruct (netdev_ids n ids) as [id base] eqn:E. cbn [fst].
  assert (0 <= id < 256) as Hid.
  { unfold netdev_ids in E. destruct (ids.1 =? 0); [injection E as <- <-; apply (wrap_range 8); lia|]. by rewrite E in Hi. }
  apply fresh_typed; try done; try (unfold is_u32; lia).
  - by destruct swiotlb, tap.
  - apply Forall_app. split; [by apply mac_bytes|]. by apply Forall_replicate.
  - rewrite length_app, length_replicate. destruct random; [done|]. unfold sizeof_virtio_net_config. simpl in *. lia.
Qed.
Lemma console_typed sw id : 0 <= id < 256 -> dev_typed (virtio_console_init sw id).
Proof. intros Hi. apply fresh_typed; try done; try (unfold is_u32; lia). by destruct sw. Qed.

(** ** The start as a whole *)

Definition disk_devices (swiotlb : bool) (sizes : list Z) : list virtio_dev := imap (fun i size => blk_device_init swiotlb size i) sizes.
Definition net_devices (swiotlb : bool) (num_disks : nat) (net : option (bool * list Z)) : list virtio_dev :=
  match net with
  | Some (tap, random) => [(netdev_init swiotlb tap (Z.of_nat num_disks) random (0, 0)).1.1]
  | None => []
  end.

Lemma start_devices_spec swiotlb sw sizes net : (length sizes <= 31)%nat ->
  start_devices swiotlb sw sizes net =
    Done (disk_devices swiotlb sizes ++ net_devices swiotlb (length sizes) net ++
      [virtio_console_init sw (Z.of_nat (length sizes + length (net_devices swiotlb (length sizes) net)))]).
Proof.
  intros Hn. unfold start_devices, initialize_host_device_configuration, evt_channel_num, HOST_NETWORK_DEV_COUNT, HOST_CONSOLE_DEV_COUNT.
  cbn [snd host_dev_cfg_init]. fold (net_devices swiotlb (length sizes) net) (disk_devices swiotlb sizes).
  assert (length (net_devices swiotlb (length sizes) net) <= 1)%nat as Hl by (destruct net as [[tap random]|]; cbn [net_devices length]; lia).
  rewrite u8_small by lia. rewrite list_lookup_fmap, lookup_seq_lt by lia. cbn [fmap option_fmap option_map cfg_dev_id].
  by rewrite u8_small by lia.
Qed.

Lemma vendor_ids swiotlb sw sizes net k d : (length sizes <= 31)%nat ->
  (disk_devices swiotlb sizes ++ net_devices swiotlb (length sizes) net ++
      [virtio_console_init sw (Z.of_nat (length sizes + length (net_devices swiotlb (length sizes) net)))]) !! k = Some d ->
  vendor_id d = Z.of_nat k /\ (k <= 32)%nat.
Proof.
  intros Hn. unfold disk_devices. rewrite lookup_app. destruct (imap _ sizes !! k) as [x|] eqn:E.
  { intros [= <-]. rewrite list_lookup_imap in E. destruct (sizes !! k) as [size|] eqn:Ek; [|done]. injection E as <-.
    apply lookup_lt_Some in Ek. cbn. split; [apply u32_small; lia|lia]. }
  apply lookup_ge_None in E. rewrite length_imap in *. destruct net as [[tap random]|]; cbn [net_devices length app].
  - destruct (k - length sizes)%nat as [|[|j]] eqn:Ek; cbn [lookup list_lookup]; [intros [= <-]|intros [= <-]|done].
    + unfold netdev_init, netdev_ids. cbn. split; [rewrite u8_small; lia|lia].
    + cbn. split; lia.
  - destruct (k - length sizes)%nat as [|j] eqn:Ek; cbn [lookup list_lookup]; [intros [= <-]|done]. cbn. split; lia.
Qed.

Definition net_ok (net : option (bool * list Z)) : Prop :=
  match net with Some (_, random) => length random = 6%nat /\ Forall is_byte random | None => True end.

Lemma started_device swiotlb sw sizes net d : (length sizes <= 31)%nat -> net_ok net ->
  d ∈ disk_devices swiotlb sizes ++ net_devices swiotlb (length sizes) net ++
      [virtio_console_init sw (Z.of_nat (length sizes + length (net_devices swiotlb (length sizes) net)))] ->
  dev_typed d /\ negotiates d.
Proof.
  intros Hn Hnet. rewrite !elem_of_app. intros [Hd|[Hd|Hd]].
  - apply list_elem_of_lookup_1 in Hd as [i Hi]. unfold disk_devices in Hi. rewrite list_lookup_imap in Hi.
    destruct (sizes !! i) as [size|] eqn:Ei; [|done]. injection Hi as <-. apply lookup_lt_Some in Ei.
    destruct (blk_features swiotlb size i) as (H1 & H2 & H3). split; [apply blk_typed|]. by apply offered_negotiates.
  - destruct net as [[tap random]|]; cbn [net_devices] in Hd; [|by apply not_elem_of_nil in Hd]. apply list_elem_of_singleton in Hd as ->.
    destruct Hnet as [Hl Hr]. destruct (net_features swiotlb tap (Z.of_nat (length sizes)) random (0, 0)) as (H1 & H2 & H3).
    split; [by apply net_typed|]. by apply offered_negotiates.
  - apply list_elem_of_singleton in Hd as ->.
    assert (length (net_devices swiotlb (length sizes) net) <= 1)%nat by (destruct net as [[tap random]|]; cbn [net_devices length]; lia).
    match goal with |- context [virtio_console_init sw ?id] => destruct (console_features sw id) as (H1 & H2 & H3) end.
    split; [apply console_typed; lia|]. by apply offered_negotiates.
Qed.

(** C16. The devices that the launcher sets up, for every list of at most 31
    disks, with or without a network: each has fields of their types and the size
    of its configuration space, the kernel that accepts the offered features gets
    FEATURES_OK, and a notification for device k reaches, through the
    configurations of both sides, the channel on which the host's thread for
    device k waits. *)
Theorem devices_started swiotlb sw sizes net bounce : (length sizes <= 31)%nat -> net_ok net ->
  exists devs, start_devices swiotlb sw sizes net = Done devs /\
    length devs = (length sizes + match net with Some _ => 1 | None => 0 end + 1)%nat /\
    let '(host_cfg, enc_cfg, (_, channels)) := snd (initialize_host_device_configuration swiotlb bounce (evt_channel_num (length sizes))) in
    forall k d, devs !! k = Some d ->
      dev_typed d /\ negotiates d /\
      (forall q, is_u32 q -> apply_access d (writel QUEUE_NOTIFY q) = Done (0, d, [(Z.of_nat k, q)])) /\
      notified_channel enc_cfg channels (Z.of_nat k) = Done k /\
      exists cfg, host_cfg !! k = Some cfg /\ cfg_dev_id cfg = Z.of_nat k /\ channel cfg = k.
Proof.
  intros Hn Hnet. eexists. split; [by apply start_devices_spec|]. split.
  { rewrite !length_app. unfold disk_devices. rewrite length_imap. destruct net as [[tap random]|]; cbn [net_devices length]; lia. }
  unfold initialize_host_device_configuration, evt_channel_num, HOST_NETWORK_DEV_COUNT, HOST_CONSOLE_DEV_COUNT. cbn [snd].
  rewrite u8_small by lia. unfold host_dev_cfg_init, host_dev_event_channel_init.
  intros k d Hk. destruct (vendor_ids _ _ _ _ _ _ Hn Hk) as [Hv H32].
  pose proof (lookup_lt_Some _ _ _ Hk) as Hlt. rewrite !length_app in Hlt. unfold disk_devices in Hlt. rewrite length_imap in Hlt.
  assert (length (net_devices swiotlb (length sizes) net) <= 1)%nat as Hl by (destruct net as [[tap random]|]; cbn [net_devices length]; lia).
  cbn [length] in Hlt.
  destruct (started_device swiotlb sw sizes net d Hn Hnet (list_elem_of_lookup_2 _ _ _ Hk)) as [Ht Hg].
  split; [done|]. split; [done|]. split.
  { intros q Hq. rewrite apply_writel by done. cbn [write_reg]. unfold virtio_notify_host_device. rewrite Hv, u8_small by lia. done. }
  unfold notified_channel. rewrite Nat2Z.id, !list_lookup_fmap, lookup_seq_lt by lia.
  cbn [fmap option_fmap option_map channel]. rewrite list_lookup_fmap, lookup_seq_lt by lia. cbn. split; [done|].
  eexists. split; [done|]. cbn. split; [apply u8_small; lia|done].
Qed.

(** Two disks and a network device with offloading. *)
Definition sample_net : option (bool * list Z) := Some (true, [255; 1; 2; 3; 4; 5]).

Lemma devices_started_witness :
  exists devs, start_devices true false [1048576; 1000] sample_net = Done devs /\ length devs = 4%nat /\
    forall d, devs !! 2%nat = Some d -> negotiates d /\ apply_access d (writel QUEUE_NOTIFY 1) = Done (0, d, [(2, 1)]).
Proof.
  assert (net_ok sample_net) as Hn by (split; [reflexivity|]; repeat constructor; discriminate).
  destruct (devices_started true false [1048576; 1000] sample_net 4096 ltac:(simpl; lia) Hn) as (devs & H1 & H2 & H3).
  exists devs. split; [exact H1|]. split; [exact H2|]. intros d Hd. destruct (H3 2%nat d Hd) as (_ & Hg & Hq & _).
  split; [exact Hg|]. exact (Hq 1 (conj (Z.le_0_1) eq_refl)).
Defined.

(** The kernel reads the number of whole sectors of a disk, and the address of
    the network. *)
Lemma capacity_read swiotlb size i : virtio_read (blk_device_init swiotlb size i) VIRTIO_MMIO_CONFIG 8 = Done (Bytes (le_bytes 8 (size / 512))).
Proof. exact (config_read (blk_device_init swiotlb size i) 0 8 (blk_typed swiotlb size i) ltac:(lia) ltac:(lia)). Qed.
Lemma mac_read swiotlb tap n b l ids : Forall is_byte (b :: l) -> length (b :: l) = 6%nat -> 0 <= ids.1 < 256 ->
  exists c, virtio_read (netdev_init swiotlb tap n (b :: l) ids).1.1 VIRTIO_MMIO_CONFIG 6 = Done (Bytes (c :: l)) /\
    Z.testbit c 1 = true /\ Z.testbit c 0 = false.
Proof.
  intros Hb Hl Hi. exists (Z.land (Z.lor b 2) 0xfe). split; [|by apply mac_byte; apply Forall_cons in Hb as [Hb _]].
  pose proof (config_read _ 0 6 (net_typed swiotlb tap n (b :: l) ids Hb Hl Hi) ltac:(lia) ltac:(lia)) as H.
  etrans; [exact H|]. clear H. unfold netdev_init. destruct (netdev_ids n ids) as [id base]. cbn [fst config_len config_data fresh_dev].
  unfold sizeof_virtio_net_config. change (17 <? 0 + 6) with false. cbv iota. do 2 f_equal. simpl in Hl.
  destruct l as [|a1 [|a2 [|a3 [|a4 [|a5 [|a6 l]]]]]]; done.
Qed.

(** The console offers its size, but every read of it is refused: its
    configuration space has no bytes. *)
Theorem console_size_refused sw id offset size : 0 <= id < 256 -> 0 <= offset -> 0 < size ->
  Z.testbit (device_features (virtio_console_init sw id)) VIRTIO_CONSOLE_F_SIZE = true /\
  virtio_read (virtio_console_init sw id) (VIRTIO_MMIO_CONFIG + offset) size = Done (Error (- EINVAL)).
Proof.
  intros Hi Ho Hs. split; [by destruct sw|]. rewrite config_read by (apply console_typed || lia; done).
  cbn [config_len virtio_console_init fresh_dev]. by rewrite (proj2 (Z.ltb_lt _ _)) by lia.
Qed.

(** C39. The limit of disks is one too high for the table of interrupt routines in
    the enclave: the launcher accepts 31 disks, with a network the console is then
    device 32, and making it known to the kernel writes behind the table, which
    has 32 places. *)
Theorem console_outside_table (h : host_config) swiotlb sw sizes net a cb s :
  length (h_mounts h) = 30%nat -> length sizes = 31%nat -> net <> None -> length (deliver s) = DEVICE_COUNT -> 0 <= free_irq a ->
  (exists disks, setup_host_state h = Done disks /\ length disks = length sizes) /\
  exists devs console, start_devices swiotlb sw sizes net = Done devs /\ last devs = Some console /\
    device_id console = VIRTIO_ID_CONSOLE /\
    lkl_virtio_console_add a (vendor_id console) (config_len console) cb s = Failed (BadPointer 32).
Proof.
  intros Hh Hn Hnet Hd Ha. split.
  { unfold setup_host_state. rewrite Hh, bool_decide_false by (unfold HOST_MAX_DISKS; lia). eexists. split; [done|].
    cbn [length]. by rewrite length_fmap, Hh, Hn. }
  destruct net as [[tap random]|]; [|done]. rewrite start_devices_spec by lia. rewrite Hn. cbn [net_devices length].
  eexists _, _. split; [done|]. split; [by rewrite app_assoc, last_snoc|]. split; [done|].
  cbn [vendor_id virtio_console_init fresh_dev]. unfold lkl_virtio_console_add, lkl_virtio_dev_setup.
  rewrite (proj2 (Z.ltb_ge _ _)) by lia. cbn [deliver set_held]. rewrite Hd.
  by rewrite decide_False by (unfold DEVICE_COUNT; lia).
Qed.

Definition many_mounts : host_config :=
  HostConfig (HostRoot None None false false None None) (replicate 30 zero_host_mount) false None None false.
Lemma console_outside_table_witness :
  exists devs console, start_devices true true (replicate 31 512) sample_net = Done devs /\ last devs = Some console /\
    device_id console = VIRTIO_ID_CONSOLE /\
    lkl_virtio_console_add sample_answers (vendor_id console) (config_len console) 1 no_devices = Failed (BadPointer 32).
Proof.
  refine (proj2 (console_outside_table many_mounts true true (replicate 31 512) sample_net sample_answers 1 no_devices _ _ _ _ _)).
  - reflexivity.
  - reflexivity.
  - discriminate.
  - reflexivity.
  - discriminate.
Defined.
